(* ===== verification/_CoqProject ===== *)
-Q . S2P
Prelude.v
Util.v
Lock.v
Ht.v
HashTables.v
Buffer.v
CdbMake.v
CdbTables.v
Cdb.v
CdbRoom.v
SdbCore.v
Num.v
Array.v
Dict.v
Ls.v
LsSort.v
StrBuf.v
Text.v
Base64.v
Fmt.v
Match.v
SdbIter.v
Disk.v
Ns.v
NsRefs.v
NsPath.v
JsonIndent.v
Json.v
JsonFacts.v
JsonPortable.v
JsonLookup.v
JsonSet.v
Query.v
QueryFacts.v
Tool.v
ToolFacts.v
Diff.v
DiffFacts.v
NsCopy.v
TextNs.v
Journal.v
Main.v
MainFacts.v
Heap.v
HeapInv.v
HeapBlocks.v
HeapOps.v
HeapAlloc.v
HeapRealloc.v
HeapUse.v
CwBits.v
CwGroup.v
CwHash.v
CwTable.v
CwProbe.v
CwSearch.v
CwInv.v
CwOps.v
CwIter.v
CwGrow.v
CwRehash.v
CwMap.v
HtCwiss.v
Mc.v
McServer.v
McClient.v
McFacts.v
McWire.v
McSession.v
McCases.v
