(* ===== verification/Prelude.v ===== *)
(** * A verification library for sdb, the string key/value database

    sdb stores C strings under C strings.  A database is a hash table in memory laid
    over an immutable file in the constant-database (cdb) format: reads look at the
    table first and then at the file, writes go to the table, and a sync writes a new
    file from both and renames it over the old one.  On top of the plain values are
    numbers, arrays (elements separated by commas in one value), JSON objects,
    expirations, a journal and iteration.  Databases contain other databases as
    namespaces; they are compared, saved as text, and driven by a query language.  The
    library translates that code into Rocq functions, one per C function and with its
    name, and proves what makes it correct.

    ** Parts, files and sources

    - [Prelude]: machine integers, C strings and the C library's string functions,
      arrays with checked access, the shared lists lemmas, tactics and hints.
    - [Util] ([src/util.c], [include/sdb/types.h]): hashes, [sdb_itoa]/[sdb_atoi], the
      text side of arrays, type tests, 32-bit packing.
    - [Ht] ([src/ht.inc.c], [include/sdb/ht_inc.h], [src/ht_pp.c], [src/ht_up.c]): the
      hash table that is included once per key and value type.  The type parameters of
      the included file are the class [HtTypes].
    - [HashTables] ([src/ht.c], [src/set.c] and the instances): what a table promises
      its clients is the class [TableLaws] of [TableOps]; the sets are proved against it.
    - [Buffer] ([src/buffer.inc.c]), [CdbMake] and [CdbTables] ([src/cdb_make.c]): the
      buffered output and the writer of database files.
    - [Cdb] ([src/cdb.c]): the reader, on a map or on a descriptor.
    - [SdbCore] ([src/sdb.c]): the record [Sdb] and the operations of a database; a
      state monad [M] threads it.  [sdb_journal_log] of [src/journal.c] is here too
      because every set calls it.
    - [SdbIter] ([src/sdb.c]): iteration, merging, expiration, concatenation,
      keys made from a format.
    - [Num] ([src/num.c]), [Array] ([src/array.c], the array helpers of [src/fmt.c]),
      [Base64] ([src/base64.c]), [Match] ([src/match.c]).
    - [Fmt] ([src/fmt.c]): structures that are read and written through format strings.
    - [Disk] ([src/disk.c], [sdb_open] and [sdb_sync] of [src/sdb.c], [sdb_text_check]
      of [src/text.c]): databases with a name, on a map from names to files, where any
      system call may fail.
    - [Journal] ([src/journal.c]).
    - [Lock] ([src/lock.c], [src/file.c], [sdb_file] of [src/sdb.c]): lock files and
      directories, as programs of system calls that processes run at the same time.
    - [Ls] and [LsSort] ([src/ls.c]): the doubly linked list on a heap of cells, its
      sorting, and the interface as a step relation on sequences.
    - [Dict] ([src/dict.c]): the integer dictionary on the raw memory of its buckets.
    - [StrBuf] ([src/strbuf.c]): the growing text buffer, as a block of memory.
    - [Text] ([src/text.c]): the text format, its writer over an output that can fill
      up and its loader, which works in place.
    - [Ns], [NsRefs] and [NsPath] ([src/ns.c], [sdb_free] of [src/sdb.c]): databases and
      the entries that lead to others in two heaps, with reference counts; paths.
      [NsCopy] ([sdb_copy] and [sdb_drain] of [src/sdb.c]) copies trees of them.
    - [JsonIndent] ([src/json/indent.c], [sdb_json_format] of [src/json.c]), [Json]
      ([src/json.c], [src/json/js0n.c], [src/json/rangstr.c], [src/json/path.c],
      [src/json/api.c]) and [JsonPortable] (the second version of the splitter);
      [JsonFacts], [JsonLookup] and [JsonSet] hold the theorems.
    - [Query] ([src/query.c]) with [QueryFacts]: the query language over all of the
      above.
    - [Tool] ([src/tool.c], [src/cgen.c]) with [ToolFacts]: the build tool, from the texts of
      a directory to C sources and database files, on files with times.
    - [Diff] ([src/diff.c]) with [DiffFacts].
    - [Main] ([src/main.c]) with [MainFacts]: standard input, the options and the action they
      lead to, printing a database and creating one from text.
    - [Heap] ([src/heap.c]): the allocator on a memory of 8-byte slots.  [HeapInv] states
      the agreement of that memory with a map of blocks and a list of free ones,
      [HeapBlocks] splits, merges and removes blocks, [HeapOps] frees, [HeapAlloc] and
      [HeapRealloc] allocate and resize; [HeapUse] states what users rely on as the class
      [HeapContract] and proves programs that use it safe against that class.
    - [CwBits], [CwGroup], [CwHash] and [CwTable] ([include/sdb/cwisstable.h]): the
      open-addressing table, whose control bytes are searched in groups.  What a table
      needs of a group is the class [GroupLaws] of [GroupOps], with an instance on vector
      registers and one on words; what it needs of the keys is [PolicyLaws] of [Policy].
      [CwProbe] (the sequence of windows), [CwSearch] (searches), [CwInv] (the
      invariant), [CwOps], [CwIter], [CwGrow], [CwRehash] and [CwMap] (each operation against
      it) hold the lemmas, all of them for any group and policy.
    - [HtCwiss] ([src/ht_cwiss.inc.c], [src/ht_pu.c], [src/ht_su.c], [src/ht_uu.c]): the maps
      from pointers, strings and numbers to numbers that are built on it.
    - [Mc] ([memcache/memcache.c], [memcache/net.c]): the store of the memcache server and its
      output buffer; [McServer] ([memcache/protocol.c], [memcache/main.c], [memcache/cmds.c]):
      the protocol and the reading from a client, on the raw memory of its buffer;
      [McClient] ([memcache/client.c], [memcache/mainclient.c], [net_readnl]): the client
      library.  [McFacts] holds the theorem about the store, [McWire] runs the server on the packets
      of the library, [McSession] puts both ends together, [McCases] computes what goes wrong.

    The components meet in few places: [SdbCore] uses the table of [HashTables] and the
    reader of [Cdb]; [Disk] runs [SdbCore] and the writer of [CdbMake]; the nodes of
    [Ns] carry an [Sdb] each; [Query] and [Diff] run the operations of [SdbCore],
    [Array], [Num] and [Json] on the nodes of [Ns], with [StrBuf] for their output; [Tool]
    runs [Text], [SdbCore], [StrBuf], [Lock] and [Disk] one after the other; [HtCwiss] runs
    [CwTable], which calls the groups, the hash and the comparison through their classes; [Mc]
    runs [SdbCore] and [Num], [McServer] runs [Mc] on what [McClient] sends.

    ** How the code is read

    A byte is a [Z]; a C string is the list of its bytes before the zero, a pointer
    into it is its tail; [NULL] is [None].  Unsigned arithmetic that can wrap is
    written with [u8], [u32], [u64].  Memory is [option]: an access outside an array
    in the writer is [None], so a theorem that it returns [Some] shows its accesses
    stay inside; [expire_get] of a null value is [None] likewise.  Allocation is a
    function from sizes to success where failures are interesting (the table, the
    writer); elsewhere it succeeds.  System calls are fields of the record [Sys] of
    [Disk].  Time is an argument [now].  The platform is 64-bit Linux with mmap.
    Objects that are shared or linked are in explicit heaps: cells of lists ([Ls]),
    databases and entries ([Ns]); an access to what is not allocated is a fault.  The monad
    [CW] of [CwTable] has a fault, a failed check, refused memory and missing fuel as
    different results; what [malloc] returns and the addresses that are mixed into hashes
    are arguments.  The monad [SV] of [McServer] has waiting for a client and a fault as
    results; the socket is the list of the packets that arrive.

    Loops that are not structural take fuel.  The bounds are: the number of entries
    for the buckets, 62 digits for [sdb_itoa] (64 bytes less sign and zero), the
    number of slots of a table for the search ([cdb_findnext_terminates]), one level
    for growth ([check_growing_terminates]), the length of the text for everything
    that walks text, [glob_fuel] of both lengths for globs ([sdb_match_glob] would
    fail if it were not enough), the size of the file for walks over its records, the
    number of databases for freeing and saving namespaces ([ns_counts_exact],
    [sdb_ns_sync_reaches]), the depth of the namespaces for comparing
    ([sdb_diff_equal]), the number of free blocks for the search of the allocator, the
    capacity plus one for the searches of the open-addressing table (the triangular steps
    reach every window before that, [windows_cover]) and twice the capacity plus one for
    its clean-up, which places an entry or goes on in each round, three rounds of the
    loop of the memcache server for a call of the client library ([mc_session_correct]).  Queries
    may run files that run files: their fuel is the depth.

    ** What the theorems show

    - Refinement: the hash table is a finite map ([ht_pp_refines_map]), the sets are
      finite sets, a database in memory is a finite map from keys to non-empty values
      ([sdb_mem_refines_map]), an array value is a list ([sdb_array_refines_list]), a
      linked list is a sequence ([ls_refines_sequence]), the dictionary is a map
      ([dict_refines_map]), the open-addressing tables are finite maps ([cw_ht_refines_map]),
      a query of assignments and reads is a sequence of updates
      and lookups ([sdb_querys_script]), the memcache store is a map with expirations
      ([mc_refines_expiring_map]), and so are server and client library together, from the
      bytes of the packets to the answers ([mc_session_correct]).
    - Files: what the writer writes the reader finds ([cdb_write_then_find]); a set
      over a file is seen by later reads ([sdb_file_overlay]); a sync keeps the
      contents ([sdb_sync_persists]) and replaces the file in one step whatever fails
      ([sdb_sync_atomic]); the journal recovers the changes ([sdb_journal_recovers]);
      buffered output is the concatenation of the writes ([buffer_stream_correct]); text
      that is saved is loaded again ([sdb_text_roundtrip]).
    - Processes: the lock file lets one process at a time work with a database
      ([sdb_lock_mutual_exclusion]); directories are created up to the last slash.
    - The build tool: every text becomes a C source and a database file that answer like it,
      and a second run does nothing ([sdb_tool_builds]).
    - The command line: what is printed is read back ([sdb_dump_loads_back]); no command line
      reaches outside the arguments ([sdb_main_args_safe]).
    - Memory: entries are freed exactly once ([sdb_ht_frees_once]); reference counts are
      exact in every reachable state ([ns_counts_exact]); the allocator gives out disjoint
      blocks and keeps their contents, whatever sequence of calls is made
      ([sdb_heap_programs_safe], [sdb_heap_malloc_free], [sdb_heap_realloc_contents]).
    - Namespaces: a path that is created is found ([sdb_ns_path_found]), also through
      queries ([sdb_querys_path]); saving reaches all of them ([sdb_ns_sync_reaches]);
      comparing decides equality ([sdb_diff_equal]) and its reports are a patch
      ([sdb_diff_patches]); a copy of a tree compares equal ([sdb_copy_equal]).
    - JSON: the ranges of the splitter are in bounds ([sdb_js0n_ranges]), its two
      versions agree ([sdb_js0n_versions_agree]), a key is looked up
      ([sdb_json_get_member]) and set ([sdb_json_set_member]), indentation can be undone
      ([sdb_json_indent_roundtrip]).
    - Round trips and arithmetic: structures ([sdb_fmt_roundtrip]), numbers ([sdb_itoa_atoi_roundtrip],
      [sdb_num_arith]), base64 ([sdb_base64_roundtrip]), compare-and-set
      ([sdb_set_cas]), expiration ([sdb_expire_life]).
    - The open-addressing table: groups of control bytes agree with their byte-wise
      definition ([cw_groups_correct]), and the hash functions stay inside the keys
      ([cw_hashes_defined]).
    - Search: globs ([sdb_match_glob]); iteration ([sdb_foreach_visits_contents],
      [sdb_merge_is_union], [sdb_uncat_removes]).
    - Behaviour that surprises, proved of the code as it is: a second set of a new key
      over a file ([sdb_set_twice_loses_key]), concatenation over a file
      ([sdb_concat_on_file_loses]), continued searches
      ([cdb_findnext_again_finds_nothing]), expirations of unset keys
      ([sdb_expire_after_unset_crashes]), octal numbers ([sdb_num_inc_octal]), case in
      anchored matches ([sdb_match_icase_prefix_inverted]), missed occurrences
      ([sdb_match_substring_misses]), files taken for text
      ([sdb_file_taken_for_text]), long lines in the journal
      ([sdb_journal_long_line]), maps kept after a reset ([sdb_reset_leaves_map]), the
      tail of one-element arrays ([sdb_array_pop_tail_single]), failed reallocation
      ([ht_failed_realloc_overflow]), finalising the allocator ([sdb_heap_fini_frees_nothing])
      and freeing twice ([sdb_heap_free_twice]), locks of long names
      ([sdb_unlock_removes_database]), mirrored and lost outputs of the build tool
      ([sdb_tool_mirror_escapes], [sdb_tool_lost_source]), the command lines at the end of
      [MainFacts] (a diff of a database with itself, options without effect), full disks ([sdb_text_save_full_disk]), equal hashes
      of names ([sdb_ns_hash_collision]), the last sections of [JsonSet] (quotes and
      commas of changed objects), the clean-up of open-addressing tables on big-endian
      machines ([cw_convert_big_endian_reversed], [cw_big_endian_faults]), the inputs of
      [McCases] (commands that are split or come with their data, keys of digits, datagrams), the last sections of [QueryFacts] (the scope of an equals sign, long
      paths) and of [Fmt] (sizes and pointers of structures).

    ** What is not modelled

    Signals, the help text and the programs that [src/main.c] runs, the sockets, the poll loop
    and the options of the memcache server, the
    bindings, the second allocator ([src/heap2.c], which is not built) and the Windows
    branches are left out: they are wrappers of system calls, terminal and network input
    and output, or code of others.  Of [cwisstable.h], outline storage, sets and
    heterogeneous lookup, which nothing instantiates, prefetching, memory poisoning and
    32-bit words are left out. *)

From stdpp Require Export base tactics list numbers gmap sorting.
From Stdlib Require Export ZArith Lia.
From Stdlib Require Import Ascii.
From Stdlib Require String.
Export String.StringSyntax.

Declare Scope sdb_scope.
Delimit Scope sdb_scope with sdb.
#[global] Open Scope Z_scope.

(** ** Machine integers

    A [w]-bit unsigned integer is a [Z] in range; every operation of the code
    that can wrap is written with the explicit reduction below. *)

Definition u8 (z : Z) : Z := z mod 2 ^ 8.
Definition u32 (z : Z) : Z := z mod 2 ^ 32.
Definition u64 (z : Z) : Z := z mod 2 ^ 64.

(** Two's complement reading of the low 8 and 32 bits: [char] is signed on the
    platform modelled (x86-64 Linux), [int] has 32 bits. *)
Definition s8 (z : Z) : Z := (z + 2 ^ 7) mod 2 ^ 8 - 2 ^ 7.
Definition s32 (z : Z) : Z := (z + 2 ^ 31) mod 2 ^ 32 - 2 ^ 31.

Definition UT32_MAX : Z := 0xffffffff.
Definition UT64_MAX : Z := 0xffffffffffffffff.

Definition is_u8 (z : Z) : Prop := 0 <= z < 2 ^ 8.
Definition is_u32 (z : Z) : Prop := 0 <= z < 2 ^ 32.
Definition is_u64 (z : Z) : Prop := 0 <= z < 2 ^ 64.

(** ** C strings and memory

    A byte is a [Z] in [0, 256).  A C string is the list of the bytes before its
    terminator; [is_cstr] says that none of them is the terminator.  Where the
    code reads raw memory (a mapped file, a buffer that may hold an embedded
    terminator) the list holds the raw bytes and [cstr] cuts it at the first 0. *)

Abbreviation bytes := (list Z).

Definition str (s : String.string) : bytes :=
  (λ a, Z.of_N (N_of_ascii a)) <$> String.list_ascii_of_string s.

Definition chr (s : String.string) : Z :=
  match s with
  | String.String a _ => Z.of_N (N_of_ascii a)
  | String.EmptyString => 0
  end.

#[global] Arguments str _%_string_scope.
#[global] Arguments chr _%_string_scope.

Definition is_char (c : Z) : Prop := 0 < c < 256.
Definition is_cstr (s : bytes) : Prop := Forall is_char s.
Definition is_bytes (s : bytes) : Prop := Forall is_u8 s.

Definition slen (s : bytes) : Z := Z.of_nat (length s).

(** The C string stored at the start of raw memory. *)
Fixpoint cstr (m : bytes) : bytes :=
  match m with
  | [] => []
  | c :: m' => if c =? 0 then [] else c :: cstr m'
  end.

(** [strchr s c]: the suffix that starts at the first [c], [None] for NULL. *)
Fixpoint strchr (s : bytes) (c : Z) : option bytes :=
  match s with
  | [] => None
  | x :: s' => if x =? c then Some s else strchr s' c
  end.

(** [strcmp]: the sign of the first difference, bytes compared unsigned. *)
Fixpoint strcmp (a b : bytes) : Z :=
  match a, b with
  | [], [] => 0
  | [], _ :: _ => -1
  | _ :: _, [] => 1
  | x :: a', y :: b' => if x <? y then -1 else if y <? x then 1 else strcmp a' b'
  end.

(** [strncmp a b n = 0], the only use the code makes of it. *)
Fixpoint strneq (a b : bytes) (n : nat) {struct n} : bool :=
  match n with
  | O => true
  | S n' =>
      match a, b with
      | [], [] => true
      | x :: a', y :: b' => (x =? y) && strneq a' b' n'
      | _, _ => false
      end
  end.

(** [strstr s t]: the suffix of [s] at the first occurrence of [t]. *)
Fixpoint strstr (s t : bytes) : option bytes :=
  if strneq s t (length t) then Some s
  else match s with
       | [] => None
       | _ :: s' => strstr s' t
       end.

(** The byte at the pointer, 0 at the terminator; and the byte at an index. *)
Definition hd0 (s : bytes) : Z := hd 0 s.
Definition byte_at (s : bytes) (i : nat) : Z := default 0 (s !! i).

(** ** Tactics *)

(** Split the outermost boolean test or match of the goal, with its equation. *)
Ltac case_if :=
  match goal with
  | |- context [if ?b then _ else _] => let E := fresh "E" in destruct b eqn:E
  end.

(** Turn the boolean comparisons of the context into propositions. *)
Ltac zbool :=
  repeat match goal with
  | H : (_ =? _) = true |- _ => apply Z.eqb_eq in H
  | H : (_ =? _) = false |- _ => apply Z.eqb_neq in H
  | H : (_ <? _) = true |- _ => apply Z.ltb_lt in H
  | H : (_ <? _) = false |- _ => apply Z.ltb_ge in H
  | H : (_ <=? _) = true |- _ => apply Z.leb_le in H
  | H : (_ <=? _) = false |- _ => apply Z.leb_gt in H
  | H : negb _ = true |- _ => apply negb_true_iff in H
  | H : negb _ = false |- _ => apply negb_false_iff in H
  | H : (_ && _) = true |- _ => apply andb_true_iff in H as [? ?]
  | H : (_ || _) = false |- _ => apply orb_false_iff in H as [? ?]
  end.

(** ** Integer lemmas *)

Lemma u8_range z : is_u8 (u8 z).
Proof. apply Z.mod_pos_bound; lia. Qed.

Lemma u32_range z : is_u32 (u32 z).
Proof. apply Z.mod_pos_bound; lia. Qed.

Lemma u64_range z : is_u64 (u64 z).
Proof. apply Z.mod_pos_bound; lia. Qed.

Lemma u8_small z : is_u8 z → u8 z = z.
Proof. apply Z.mod_small. Qed.

Lemma u32_small z : is_u32 z → u32 z = z.
Proof. apply Z.mod_small. Qed.

Lemma u64_small z : is_u64 z → u64 z = z.
Proof. apply Z.mod_small. Qed.

Create HintDb cint.
Create Rewrite HintDb cint.
#[export] Hint Resolve u8_range u32_range u64_range : cint.
#[export] Hint Rewrite u8_small u32_small u64_small using (unfold is_u8, is_u32, is_u64 in *; lia) : cint.

Lemma land_ones_mod a n : 0 <= n → Z.land a (2 ^ n - 1) = a mod 2 ^ n.
Proof. intros. rewrite <- Z.land_ones by lia. f_equal. rewrite Z.ones_equiv. lia. Qed.

Lemma land_255 a : Z.land a 255 = a mod 256.
Proof. exact (land_ones_mod a 8 ltac:(lia)). Qed.

Lemma land_1023 a : Z.land a 1023 = a mod 1024.
Proof. exact (land_ones_mod a 10 ltac:(lia)). Qed.

(** A bounded universal statement is decided by running through the range. *)
Lemma forallZ_range (f : Z → bool) n :
  forallb f (seqZ 0 n) = true → ∀ i, 0 <= i < n → f i = true.
Proof.
  intros HF i Hi. rewrite forallb_forall in HF. apply HF, list_elem_of_In, elem_of_seqZ. lia.
Qed.

(** ** String lemmas *)

Lemma slen_app (a b : bytes) : slen (a ++ b) = slen a + slen b.
Proof. unfold slen. rewrite length_app. lia. Qed.

Lemma cstr_id s : is_cstr s → cstr s = s.
Proof.
  induction 1 as [|c s Hc _ IH]; [done|]. simpl.
  destruct (c =? 0) eqn:E; [zbool; unfold is_char in *; lia|]. by rewrite IH.
Qed.

Lemma cstr_app_nul s m : is_cstr s → cstr (s ++ 0 :: m) = s.
Proof.
  induction 1 as [|c s Hc _ IH]; [done|]. simpl.
  destruct (c =? 0) eqn:E; [zbool; unfold is_char in *; lia|]. by rewrite IH.
Qed.

Lemma cstr_is_cstr m : is_bytes m → is_cstr (cstr m).
Proof.
  induction 1 as [|c m Hc _ IH]; [constructor|]. simpl. case_if; constructor; [|done].
  zbool. unfold is_u8, is_char in *. lia.
Qed.

Lemma strcmp_eq a b : strcmp a b = 0 ↔ a = b.
Proof.
  revert b; induction a as [|x a IH]; intros [|y b]; simpl; [done..|].
  destruct (x <? y) eqn:E1; [zbool; naive_solver lia|].
  destruct (y <? x) eqn:E2; [zbool; naive_solver lia|].
  zbool. rewrite IH. assert (x = y) as -> by lia. naive_solver.
Qed.

Lemma strchr_spec s c r :
  strchr s c = Some r ↔ ∃ p t, s = p ++ c :: t ∧ r = c :: t ∧ c ∉ p.
Proof.
  split.
  - revert r; induction s as [|x s IH]; intros r; simpl; [done|].
    case_if; zbool.
    + intros [= <-]; subst. exists [], s. split_and!; [done|done|set_solver].
    + intros (p & t & -> & -> & Hp)%IH. exists (x :: p), t.
      split_and!; [done|done|set_solver].
  - intros (p & t & -> & -> & Hp). induction p as [|x p IH]; simpl.
    + by rewrite Z.eqb_refl.
    + case_if; zbool; [set_solver|]. apply IH; set_solver.
Qed.

Lemma strchr_None s c : strchr s c = None ↔ c ∉ s.
Proof.
  induction s as [|x s IH]; simpl; [set_solver|].
  case_if; zbool; [set_solver|]. rewrite IH. set_solver.
Qed.

Lemma strchr_app p c t : c ∉ p → strchr (p ++ c :: t) c = Some (c :: t).
Proof. intros. apply strchr_spec. eauto. Qed.

Lemma strchr_length s c r : strchr s c = Some r → (0 < length r <= length s)%nat.
Proof. intros (p & t & -> & -> & _)%strchr_spec. rewrite length_app. simpl. lia. Qed.

Lemma strneq_eq a b : strneq a b (length b) = true → length a = length b → a = b.
Proof.
  revert b; induction a as [|x a IH]; intros [|y b]; simpl; [done..|].
  intros H Hl. zbool. subst. f_equal. apply IH; [done|lia].
Qed.

Lemma strneq_prefix a b : strneq a b (length b) = true ↔ b `prefix_of` a.
Proof.
  revert a; induction b as [|y b IH]; intros a; simpl.
  { split; [intros _; apply prefix_nil|by destruct a]. }
  destruct a as [|x a].
  { split; [done|]. intros H%prefix_nil_inv. done. }
  change (strneq (x :: a) (y :: b) (S (length b))) with ((x =? y) && strneq a b (length b)).
  rewrite andb_true_iff, Z.eqb_eq, IH. split.
  - intros [-> ?]. by apply prefix_cons.
  - intros H. split; [by apply prefix_cons_inv_1 in H|by apply prefix_cons_inv_2 in H].
Qed.
