(* ===== verification/Util.v ===== *)
(** * String, number and array helpers: src/src/util.c, and the inline
    helpers of src/include/sdb/sdb.h and src/include/sdb/types.h

    The hash of the database ([sdb_hash]), the byte packing of the disk format,
    number printing and parsing ([sdb_itoa], [sdb_atoi] over [strtoull]), and the
    comma-separated array primitives every array operation is built from. *)

From S2P Require Import Prelude.

Definition SDB_RS : Z := 44.
Definition SDB_NUM_BASE : Z := 16.
Definition SDB_NUM_BUFSZ : Z := 64.
Definition SDB_MIN_VALUE : Z := 1.
Definition SDB_MAX_VALUE : Z := 0xffffff.
Definition SDB_MIN_KEY : Z := 1.
Definition SDB_MAX_KEY : Z := 0xff.
Definition SDB_KSZ : Z := 0xff.
Definition SDB_VSZ : Z := 0xffffff.
Definition SDB_MAX_PATH : Z := 256.

(** ** Hashing *)

Definition CDB_HASHSTART : Z := 5381.

(** [h = (h + (h << 5)) ^ *s++] on [ut32]; [*s] is a signed [char], so a byte
    above 127 is sign-extended before the exclusive or. *)
Definition SDB_HASH_ONELINER (h c : Z) : Z :=
  Z.lxor (u32 (h + u32 (Z.shiftl h 5))) (u32 (s8 c)).

Fixpoint sdb_hash_loop (s : bytes) (h count : Z) : Z * Z :=
  match s with
  | [] => (h, count)
  | c :: s' => sdb_hash_loop s' (SDB_HASH_ONELINER h c) (u32 (count + 1))
  end.

(** The hash, and what is stored through [len]; nothing is stored when [s] is NULL. *)
Definition sdb_hash_len (s : option bytes) : Z * option Z :=
  match s with
  | None => (CDB_HASHSTART, None)
  | Some s => let '(h, count) := sdb_hash_loop s CDB_HASHSTART 0 in (h, Some count)
  end.

Definition sdb_hash (s : bytes) : Z := (sdb_hash_len (Some s)).1.

Definition sdb_hash_byte (s : bytes) : Z :=
  let hash := sdb_hash s in
  let h i := Z.land (Z.shiftr hash (8 * i)) 255 in
  Z.lxor (Z.lxor (Z.lxor (h 0) (h 1)) (h 2)) (h 3).

(** ** Packing of [ut32] values *)

Definition ut32_pack (u : Z) : bytes :=
  let s0 := Z.land u 255 in
  let u := Z.shiftr u 8 in
  let s1 := Z.land u 255 in
  let u := Z.shiftr u 8 in
  let s2 := Z.land u 255 in
  let s3 := u8 (Z.shiftr u 8) in
  [s0; s1; s2; s3].

Definition ut32_pack_big (u : Z) : bytes :=
  let s3 := Z.land u 255 in
  let u := Z.shiftr u 8 in
  let s2 := Z.land u 255 in
  let u := Z.shiftr u 8 in
  let s1 := Z.land u 255 in
  let s0 := u8 (Z.shiftr u 8) in
  [s0; s1; s2; s3].

Definition ut32_unpack (s : bytes) : Z :=
  let result := u8 (byte_at s 3) in
  let result := u32 (Z.shiftl result 8) in
  let result := u32 (result + u8 (byte_at s 2)) in
  let result := u32 (Z.shiftl result 8) in
  let result := u32 (result + u8 (byte_at s 1)) in
  let result := u32 (Z.shiftl result 8) in
  u32 (result + u8 (byte_at s 0)).

(** ** Numbers *)

Definition digit_small (d : Z) : Z := d + 48.
Definition lookup_digits : bytes := str "0123456789abcdef".
Definition digit_hex (d : Z) : Z := byte_at lookup_digits (Z.to_nat d).

(** [for (; n && i > 0; n /= base) s[i--] = digit (n % base)]: the buffer is
    filled from its end, so [acc] is the text written so far; the final [i] is
    returned with it. *)
Fixpoint itoa_loop (digit : Z → Z) (base : Z) (i : nat) (n : Z) (acc : bytes) : bytes * nat :=
  match i with
  | O => (acc, O)
  | S i' =>
      if n =? 0 then (acc, i)
      else itoa_loop digit base i' (n / base) (digit (n mod base) :: acc)
  end.

(** [os] is the caller's buffer: [Some oslen], or [None] when [sdb_itoa] uses its
    own 64 bytes and returns a copy.  The result is the returned string, [None]
    for NULL.  A negative base only selects where in the buffer the result lies. *)
Definition sdb_itoa (n base : Z) (os : option Z) : option bytes :=
  let base := if base =? 0 then SDB_NUM_BASE else base in
  let sl := match os with Some oslen => oslen | None => 64 end in
  let imax := sl - 2 in
  let base := if base <? 0 then - base else base in
  if 16 <? base then None
  else if n =? 0 then
    match os with
    | None => Some (str "0")
    | Some _ => if 2 <=? sl then Some (str "0") else if sl =? 1 then Some [] else None
    end
  else if base <=? 10 then
    Some (itoa_loop digit_small base (Z.to_nat imax) n []).1
  else
    let '(s, i) := itoa_loop digit_hex base (Z.to_nat imax) n [] in
    let s := if Z.of_nat i =? imax then s else chr "x" :: s in
    Some (chr "0" :: s).

Definition sdb_itoas (n base : Z) : option bytes := sdb_itoa n base None.

(** The C library's [isspace] and [strtoull (s, &p, 0)]. *)
Definition isspace (c : Z) : bool := (c =? 32) || ((9 <=? c) && (c <=? 13)).

Definition digit_val (base c : Z) : option Z :=
  let d := if (48 <=? c) && (c <=? 57) then c - 48
           else if (97 <=? c) && (c <=? 122) then c - 87
           else if (65 <=? c) && (c <=? 90) then c - 55 else 36 in
  if d <? base then Some d else None.

Fixpoint skip_spaces (s : bytes) : bytes :=
  match s with
  | c :: s' => if isspace c then skip_spaces s' else s
  | [] => []
  end.

Fixpoint strtoull_digits (base : Z) (s : bytes) (acc : Z) : Z :=
  match s with
  | c :: s' =>
      match digit_val base c with
      | Some d => strtoull_digits base s' (acc * base + d)
      | None => acc
      end
  | [] => acc
  end.

Definition strtoull_base (s : bytes) : Z * bytes :=
  if negb (hd0 s =? 48) then (10, s)
  else if ((byte_at s 1 =? 120) || (byte_at s 1 =? 88)) && bool_decide (is_Some (digit_val 16 (byte_at s 2)))
  then (16, drop 2 s)
  else (8, s).

Definition strtoull_sign (s : bytes) : bool * bytes :=
  if hd0 s =? 45 then (true, tail s) else if hd0 s =? 43 then (false, tail s) else (false, s).

Definition strtoull (s : bytes) : Z :=
  let '(neg, s) := strtoull_sign (skip_spaces s) in
  let '(base, s) := strtoull_base s in
  let v := strtoull_digits base s 0 in
  if 2 ^ 64 <=? v then UT64_MAX else if (neg : bool) then u64 (- v) else v.

Definition sdb_atoi (s : option bytes) : Z :=
  match s with
  | None => 0
  | Some s => if hd0 s =? 45 then 0 else strtoull s
  end.

Definition sdb_isnum (s : bytes) : bool :=
  let vs := hd0 s in
  ((vs =? 45) || (vs =? 43)) || ((48 <=? vs) && (vs <=? 57)).

Definition sdb_num_base (s : option bytes) : Z :=
  match s with
  | None => SDB_NUM_BASE
  | Some s =>
      if strneq s (str "0x") 2 then 16
      else if (hd0 s =? 48) && negb (byte_at s 1 =? 0) then 8 else 10
  end.

(** ** Comma-separated arrays *)

(** [for (e = p + 1; *e == ','; e++)] *)
Fixpoint skip_rs (s : bytes) : bytes :=
  match s with
  | c :: s' => if c =? SDB_RS then skip_rs s' else s
  | [] => []
  end.

(** One run of the inner [while] loop over the text at [p], with [changed].
    When [p] is at a double comma, [p] moves past the first one and the text
    after the run of commas is moved down to [p].  The fuel is the text's length. *)
Fixpoint array_compact_pass (fuel : nat) (p : bytes) : bytes * bool :=
  match fuel with
  | O => (p, false)
  | S fuel' =>
      match p with
      | [] => ([], false)
      | c :: p' =>
          if strneq p (str ",,") 2 then
            let '(r, _) := array_compact_pass fuel' (skip_rs (drop 2 p)) in
            (c :: r, true)
          else
            let '(r, changed) := array_compact_pass fuel' p' in
            (c :: r, changed)
      end
  end.

(** The outer [do] loop, repeated while changed and not empty, [p] being [start] again. *)
Fixpoint array_compact_loop (fuel : nat) (p : bytes) : bytes :=
  match fuel with
  | O => p
  | S fuel' =>
      let '(p, changed) := array_compact_pass (length p) p in
      if changed && negb (hd0 p =? 0) then array_compact_loop fuel' p else p
  end.

Definition sdb_array_compact (p : bytes) : bytes := array_compact_loop (S (length p)) p.

(** The scan of [sdb_aslice]: [str] and [end] as the suffixes they point at. *)
Fixpoint aslice_loop (p : bytes) (idx from to : Z) (start : option bytes)
  : option bytes * option bytes :=
  match p with
  | [] => (start, None)
  | c :: p' =>
      let start := match start with
                   | None => if idx =? from then Some p else None
                   | Some _ => start
                   end in
      if idx =? to then (start, Some p)
      else aslice_loop p' (if c =? SDB_RS then idx + 1 else idx) from to start
  end.

Definition sdb_aslice (out : bytes) (from to : Z) : option bytes :=
  if to <=? from then None
  else
    let '(start, stop) := aslice_loop out 0 from to None in
    match start with
    | Some st =>
        let len := match stop with
                   | Some e => (length st - length e)%nat
                   | None => length st
                   end in
        Some (take len st)
    | None => None
    end.

(** [for (len = 0; ; len++) { n = strchr (p, SDB_RS); if (!n) break; p = n + 1; }] *)
Fixpoint alen_loop (fuel : nat) (p : bytes) (len : Z) : Z :=
  match fuel with
  | O => len
  | S fuel' =>
      match strchr p SDB_RS with
      | None => len
      | Some n => alen_loop fuel' (tail n) (len + 1)
      end
  end.

Definition sdb_alen (s : option bytes) : Z :=
  match s with
  | None => 0
  | Some p => if hd0 p =? 0 then 0 else alen_loop (S (length p)) p 0 + 1
  end.

(** The second loop of [sdb_alen_ignore_empty]: the final [p] and [len]. *)
Fixpoint alen_ignore_empty_loop (fuel : nat) (p : bytes) (len : Z) : bytes * Z :=
  match fuel with
  | O => (p, len)
  | S fuel' =>
      match strchr p SDB_RS with
      | None => (p, len)
      | Some n =>
          let p := tail n in
          alen_ignore_empty_loop fuel' p (if hd0 p =? SDB_RS then len else len + 1)
      end
  end.

Definition sdb_alen_ignore_empty (s : option bytes) : Z :=
  match s with
  | None => 0
  | Some p =>
      if hd0 p =? 0 then 0
      else
        let p := skip_rs p in
        let '(p, len) := alen_ignore_empty_loop (S (length p)) p 0 in
        if hd0 p =? 0 then len else len + 1
  end.

(** [sdb_anext]: the token, cut at the separator, and [*next]. *)
Definition sdb_anext (s : bytes) : bytes * option bytes :=
  match strchr s SDB_RS with
  | Some p => (take (length s - length p) s, Some (tail p))
  | None => (s, None)
  end.

Definition sdb_const_anext (s : bytes) : option bytes := tail <$> strchr s SDB_RS.

(** ** Value types *)

Fixpoint isjson_loop (k : bytes) (level : Z) (quotes : bool) : bool :=
  match k with
  | [] => negb quotes && (level =? 0)
  | c :: k' =>
      if quotes then isjson_loop k' level (if c =? 34 then false else quotes)
      else if c =? 34 then isjson_loop k' level true
      else if (c =? 91) || (c =? 123) then isjson_loop k' (level + 1) quotes
      else if (c =? 93) || (c =? 125) then
        if level - 1 <? 0 then false else isjson_loop k' (level - 1) quotes
      else isjson_loop k' level quotes
  end.

Definition sdb_isjson (k : option bytes) : bool :=
  match k with
  | None => false
  | Some k => if negb (hd0 k =? 123) && negb (hd0 k =? 91) then false else isjson_loop k 0 false
  end.

Definition sdb_type (k : option bytes) : bytes :=
  match k with
  | None => str "undefined"
  | Some s =>
      if hd0 s =? 0 then str "undefined"
      else if sdb_isnum s then str "number"
      else if sdb_isjson k then str "json"
      else match strchr s 44 with
           | Some _ => str "array"
           | None =>
               if (strcmp s (str "true") =? 0) || (strcmp s (str "false") =? 0)
               then str "boolean" else str "string"
           end
  end.

(** ** Specification of arrays: the elements between separators *)

Fixpoint elements (s : bytes) : list bytes :=
  match s with
  | [] => [[]]
  | c :: s' =>
      if c =? SDB_RS then [] :: elements s'
      else match elements s' with
           | e :: es => (c :: e) :: es
           | [] => [[c]]
           end
  end.

Fixpoint join (es : list bytes) : bytes :=
  match es with
  | [] => []
  | [e] => e
  | e :: es' => e ++ SDB_RS :: join es'
  end.

(** * Facts *)

(** ** Hashing and packing *)

Lemma lxor_u32 a b : is_u32 a → is_u32 b → is_u32 (Z.lxor a b).
Proof.
  unfold is_u32. intros Ha Hb. split; [apply Z.lxor_nonneg; lia|].
  destruct (Z.eq_dec (Z.lxor a b) 0) as [->|]; [lia|].
  assert (0 <= Z.lxor a b) by (apply Z.lxor_nonneg; lia).
  apply Z.log2_lt_pow2; [lia|].
  eapply Z.le_lt_trans; [apply Z.log2_lxor; lia|].
  assert (∀ x, 0 <= x < 2 ^ 32 → Z.log2 x < 32) as Hl.
  { intros x [? ?]. destruct (Z.eq_dec x 0) as [->|]; [done|]. apply Z.log2_lt_pow2; lia. }
  apply Z.max_lub_lt; apply Hl; lia.
Qed.

Lemma sdb_hash_loop_spec s h c :
  is_u32 h → is_u32 c → is_u32 (sdb_hash_loop s h c).1 ∧ (sdb_hash_loop s h c).2 = u32 (c + slen s).
Proof.
  revert h c; induction s as [|x s IH]; intros h c Hh Hc; simpl.
  - split; [done|]. unfold slen; simpl. rewrite Z.add_0_r. by rewrite u32_small.
  - destruct (IH (SDB_HASH_ONELINER h x) (u32 (c + 1))) as [? ->].
    + apply lxor_u32; apply u32_range.
    + apply u32_range.
    + split; [done|]. unfold slen, u32; simpl. rewrite Zplus_mod_idemp_l. f_equal. lia.
Qed.

Lemma sdb_hash_range s : is_u32 (sdb_hash s).
Proof.
  unfold sdb_hash, sdb_hash_len.
  destruct (sdb_hash_loop_spec s CDB_HASHSTART 0) as [H _]; [unfold is_u32, CDB_HASHSTART; lia..|].
  by destruct (sdb_hash_loop s CDB_HASHSTART 0).
Qed.
#[export] Hint Resolve sdb_hash_range : cint.

Lemma ut32_pack_bytes u : ut32_pack u = [u mod 256; u / 256 mod 256; u / 65536 mod 256; u / 16777216 mod 256].
Proof.
  unfold ut32_pack, u8. rewrite !land_255, !Z.shiftr_div_pow2 by lia.
  change (2 ^ 8) with 256. rewrite !Z.div_div by lia. done.
Qed.

Lemma ut32_pack_is_bytes u : is_bytes (ut32_pack u).
Proof.
  rewrite ut32_pack_bytes. repeat constructor; unfold is_u8; change (2 ^ 8) with 256;
    apply Z.mod_pos_bound; lia.
Qed.

Lemma ut32_pack_length u : length (ut32_pack u) = 4%nat.
Proof. done. Qed.

Lemma ut32_unpack_bytes a b c d rest :
  is_u8 a → is_u8 b → is_u8 c → is_u8 d →
  ut32_unpack (a :: b :: c :: d :: rest) = a + 256 * b + 65536 * c + 16777216 * d.
Proof.
  unfold is_u8, ut32_unpack, byte_at, u8, u32. intros. simpl.
  rewrite !Z.shiftl_mul_pow2 by lia.
  rewrite (Z.mod_small d), (Z.mod_small c), (Z.mod_small b), (Z.mod_small a) by lia.
  rewrite (Z.mod_small (d * 2 ^ 8)), (Z.mod_small (d * 2 ^ 8 + c)) by lia.
  rewrite (Z.mod_small ((d * 2 ^ 8 + c) * 2 ^ 8)) by lia.
  rewrite (Z.mod_small ((d * 2 ^ 8 + c) * 2 ^ 8 + b)) by lia.
  rewrite (Z.mod_small (((d * 2 ^ 8 + c) * 2 ^ 8 + b) * 2 ^ 8)) by lia.
  rewrite Z.mod_small by lia. lia.
Qed.

Lemma ut32_unpack_pack u rest : is_u32 u → ut32_unpack (ut32_pack u ++ rest) = u.
Proof.
  unfold is_u32. intros Hu. rewrite ut32_pack_bytes. simpl.
  rewrite ut32_unpack_bytes by (unfold is_u8; change (2 ^ 8) with 256; apply Z.mod_pos_bound; lia).
  Z.to_euclidean_division_equations; lia.
Qed.

Lemma ut32_unpack_range s : is_u32 (ut32_unpack s).
Proof. apply u32_range. Qed.
#[export] Hint Resolve ut32_unpack_range : cint.

(** ** Number round trip *)

Lemma itoa_loop_parse digit base i n acc :
  1 < base → (∀ d, 0 <= d < base → digit_val base (digit d) = Some d) →
  0 <= n < base ^ Z.of_nat i →
  strtoull_digits base (itoa_loop digit base i n acc).1 0 = strtoull_digits base acc n.
Proof.
  intros Hb Hd. revert n acc; induction i as [|i IH]; intros n acc Hn; simpl.
  - rewrite Z.pow_0_r in Hn. by replace n with 0 by lia.
  - case_if; zbool; [by subst|].
    rewrite IH.
    + simpl. rewrite Hd by (apply Z.mod_pos_bound; lia). f_equal.
      pose proof (Z.div_mod n base ltac:(lia)). lia.
    + rewrite Nat2Z.inj_succ, Z.pow_succ_r in Hn by lia. split.
      * apply Z.div_pos; lia.
      * apply Z.div_lt_upper_bound; lia.
Qed.

(** The text written in front of [acc]: the digits, the first one not zero. *)
Lemma itoa_loop_digits digit base i n acc :
  1 < base → 0 < n < base ^ Z.of_nat i →
  ∃ d ds, 0 < d < base ∧ Forall (λ d, 0 <= d < base) ds
        ∧ (itoa_loop digit base i n acc).1 = digit d :: (digit <$> ds) ++ acc
        ∧ ((itoa_loop digit base i n acc).2 + S (length ds) = i)%nat.
Proof.
  intros Hb. revert n acc; induction i as [|i IH]; intros n acc Hn; simpl.
  { rewrite Z.pow_0_r in Hn. lia. }
  rewrite Nat2Z.inj_succ, Z.pow_succ_r in Hn by lia.
  destruct (n =? 0) eqn:E; zbool; [lia|].
  assert (0 <= n mod base < base) by (apply Z.mod_pos_bound; lia).
  destruct (decide (n / base = 0)) as [E0|].
  - rewrite E0. exists n, []. rewrite Z.div_small_iff in E0 by lia.
    rewrite Z.mod_small by lia. destruct i; simpl; split_and!; (done || lia || constructor).
  - assert (0 <= n / base) by (apply Z.div_pos; lia).
    assert (n / base < base ^ Z.of_nat i) by (apply Z.div_lt_upper_bound; lia).
    destruct (IH (n / base) (digit (n mod base) :: acc)) as (d & ds & ? & Hds & -> & Hi); [lia|].
    exists d, (ds ++ [n mod base]). split_and!; [lia..| | |].
    + apply Forall_app. by repeat constructor; try lia.
    + by rewrite fmap_app, <- app_assoc.
    + rewrite length_app. simpl. lia.
Qed.

Lemma digit_small_val d : 0 <= d < 10 → digit_val 10 (digit_small d) = Some d.
Proof.
  intros. unfold digit_val, digit_small.
  replace (48 <=? d + 48) with true by (symmetry; apply Z.leb_le; lia).
  replace (d + 48 <=? 57) with true by (symmetry; apply Z.leb_le; lia). simpl.
  replace (d + 48 - 48 <? 10) with true by (symmetry; apply Z.ltb_lt; lia). f_equal; lia.
Qed.

Lemma digit_hex_cases d : 0 <= d < 16 → digit_val 16 (digit_hex d) = Some d ∧ is_char (digit_hex d).
Proof.
  intros. assert (Forall (λ d, digit_val 16 (digit_hex d) = Some d ∧ is_char (digit_hex d)) (seqZ 0 16)) as HF.
  { repeat (apply List.Forall_cons; [split; [reflexivity|unfold is_char; vm_compute; done]|]). constructor. }
  rewrite Forall_forall in HF. apply HF, elem_of_seqZ. lia.
Qed.

Lemma digit_small_char d : 0 <= d < 10 → is_char (digit_small d).
Proof. unfold digit_small, is_char. lia. Qed.

Lemma strtoull_plain s :
  isspace (hd0 s) = false → hd0 s ≠ 45 → hd0 s ≠ 43 → 
  strtoull s = let '(base, s') := strtoull_base s in
               let v := strtoull_digits base s' 0 in
               if 2 ^ 64 <=? v then UT64_MAX else v.
Proof.
  intros H1 H2 H3. unfold strtoull.
  replace (skip_spaces s) with s by (destruct s; simpl in *; [done|by rewrite H1]).
  unfold strtoull_sign. apply Z.eqb_neq in H2, H3. rewrite H2, H3.
  by destruct (strtoull_base s).
Qed.

Lemma is_char_digits digit base ds :
  (∀ d, 0 <= d < base → is_char (digit d)) → Forall (λ d, 0 <= d < base) ds → is_cstr (digit <$> ds).
Proof. intros H HF. apply Forall_fmap. eapply Forall_impl; [exact HF|]. intros. by apply H. Qed.

Lemma itoa_loop_both digit base n :
  1 < base → (∀ d, 0 <= d < base → digit_val base (digit d) = Some d) → 0 < n < base ^ 62 →
  ∃ s i d ds, itoa_loop digit base 62 n [] = (s, i) ∧ s = digit d :: (digit <$> ds) ∧ 0 < d < base
    ∧ Forall (λ d, 0 <= d < base) ds ∧ (i < 62)%nat ∧ strtoull_digits base s 0 = n.
Proof.
  intros Hb Hv Hn. change 62 with (Z.of_nat 62) in Hn. revert Hn. generalize 62%nat; intros k Hn.
  destruct (itoa_loop_digits digit base k n []) as (d & ds & ? & ? & Heq & Hi); [lia..|].
  pose proof (itoa_loop_parse digit base k n [] Hb Hv ltac:(lia)) as Hp.
  destruct (itoa_loop digit base k n []) as [s i]. simpl in *. rewrite app_nil_r in Heq.
  exists s, i, d, ds. split_and!; (done || lia).
Qed.

Lemma ltb_false_neq n : 0 < n → (n =? 0) = false.
Proof. intros. apply Z.eqb_neq. lia. Qed.

Lemma sdb_itoa_dec n :
  0 < n → sdb_itoa n 10 (Some SDB_NUM_BUFSZ) = Some (itoa_loop digit_small 10 62 n []).1.
Proof. intros H. unfold sdb_itoa. rewrite (ltb_false_neq n) by done. reflexivity. Qed.

Lemma sdb_itoa_hex n s i :
  0 < n → itoa_loop digit_hex 16 62 n [] = (s, i) → (i < 62)%nat →
  sdb_itoa n 16 (Some SDB_NUM_BUFSZ) = Some (chr "0" :: chr "x" :: s).
Proof.
  intros H E Hi. unfold sdb_itoa. rewrite (ltb_false_neq n) by done.
  change ((let '(s, i) := itoa_loop digit_hex 16 62 n [] in
           Some (chr "0" :: (if Z.of_nat i =? 62 then s else chr "x" :: s)))
          = Some (chr "0" :: chr "x" :: s)).
  rewrite E. replace (Z.of_nat i =? 62) with false; [done|].
  symmetry; apply Z.eqb_neq. clear E. lia.
Qed.

(** The decimal text of a 64-bit number reads back as the number. *)
Lemma itoa_dec n :
  0 < n < 2 ^ 64 →
  ∃ s, sdb_itoa n 10 (Some SDB_NUM_BUFSZ) = Some s ∧ sdb_atoi (Some s) = n ∧ is_cstr s ∧ s ≠ [].
Proof.
  intros Hn. assert (0 < n < 10 ^ 62) as Hb by (destruct Hn; split; [done|]; by eapply Z.lt_trans).
  destruct (itoa_loop_both digit_small 10 n) as (s & i & d & ds & El & Heq & Hd & Hds & Hi & Hp);
    [done|apply digit_small_val|exact Hb|]. clear Hb.
  rewrite sdb_itoa_dec by lia. rewrite El. clear El. exists s; split; [done|].
  split_and!; [|subst s; constructor; [apply digit_small_char; lia|]|by subst].
  2:{ eapply is_char_digits; [apply digit_small_char|done]. }
  assert (hd0 s = d + 48) as Hh by by subst s.
  unfold sdb_atoi. replace (hd0 s =? 45) with false by (symmetry; apply Z.eqb_neq; lia).
  rewrite strtoull_plain; [|unfold isspace|lia..].
  - unfold strtoull_base. replace (hd0 s =? 48) with false by (symmetry; apply Z.eqb_neq; lia).
    cbn [negb]. rewrite Hp.
    replace (2 ^ 64 <=? n) with false by (symmetry; apply Z.leb_gt; lia). done.
  - apply orb_false_intro; [apply Z.eqb_neq; lia|]. apply andb_false_intro2, Z.leb_gt. lia.
Qed.

(** Likewise in hexadecimal, where the text starts with [0x]. *)
Lemma itoa_hex n :
  0 < n < 2 ^ 64 →
  ∃ s, sdb_itoa n 16 (Some SDB_NUM_BUFSZ) = Some s ∧ sdb_atoi (Some s) = n ∧ is_cstr s ∧ s ≠ [].
Proof.
  intros Hn. assert (0 < n < 16 ^ 62) as Hb by (destruct Hn; split; [done|]; by eapply Z.lt_trans).
  destruct (itoa_loop_both digit_hex 16 n) as (s & i & d & ds & El & Heq & Hd & Hds & Hi & Hp);
    [done|apply digit_hex_cases|exact Hb|]. clear Hb.
  rewrite (sdb_itoa_hex n s i); [|lia|done|done]. clear El. eexists; split; [done|].
  assert (0 <= d < 16) as Hd' by lia. destruct (digit_hex_cases d Hd') as [Hv Hc].
  split_and!; [| |done].
  2:{ subst s. constructor; [done|]. constructor; [done|]. constructor; [done|].
      eapply is_char_digits; [|exact Hds]. intros ? H%digit_hex_cases. apply H. }
  unfold sdb_atoi. change (hd0 (chr "0" :: chr "x" :: s) =? 45) with false. cbv iota.
  rewrite strtoull_plain by done. unfold strtoull_base.
  assert (byte_at (chr "0" :: chr "x" :: s) 2 = digit_hex d) as -> by by subst s.
  rewrite Hv. change (drop 2 (chr "0" :: chr "x" :: s)) with s.
  rewrite bool_decide_true by eauto. cbn [hd0 hd negb andb orb]. simpl. rewrite Hp.
  replace (2 ^ 64 <=? n) with false by (symmetry; apply Z.leb_gt; lia). done.
Qed.

(** Printing a 64-bit number in the bases the database writes (10, 16, and 0 for
    the default 16) and parsing it back gives the number; zero prints as [0]. *)
Lemma atoi_itoa n base :
  is_u64 n → base = 0 ∨ base = 10 ∨ base = 16 →
  ∃ s, sdb_itoa n base (Some SDB_NUM_BUFSZ) = Some s ∧ sdb_atoi (Some s) = n ∧ is_cstr s ∧ s ≠ [].
Proof.
  intros [Hn Hn'] Hb. destruct (decide (n = 0)) as [->|].
  { exists (str "0"). destruct Hb as [-> | [-> | ->]]; split_and!; try done; repeat constructor; done. }
  destruct Hb as [-> | [-> | ->]]; [apply (itoa_hex n)|apply itoa_dec|apply itoa_hex]; lia.
Qed.

(** ** Arrays *)

Lemma elements_nonnil s : elements s ≠ [].
Proof. destruct s as [|c s]; simpl; [done|]. case_if; [done|]. by destruct (elements s). Qed.

Lemma elements_noRS s : SDB_RS ∉ s → elements s = [s].
Proof.
  induction s as [|c s IH]; simpl; [done|]. intros H.
  case_if; zbool; [set_solver|]. rewrite IH by set_solver. done.
Qed.

Lemma elements_app p t : SDB_RS ∉ p → elements (p ++ SDB_RS :: t) = p :: elements t.
Proof.
  induction p as [|c p IH]; simpl; [done|]. intros H.
  case_if; zbool; [set_solver|]. rewrite IH by set_solver. done.
Qed.

Lemma join_cons e es : es ≠ [] → join (e :: es) = e ++ SDB_RS :: join es.
Proof. by destruct es. Qed.

Lemma join_elements s : join (elements s) = s.
Proof.
  induction s as [|c s IH]; simpl; [done|]. case_if; zbool.
  - subst. rewrite join_cons by apply elements_nonnil. simpl. by rewrite IH.
  - destruct (elements s) as [|e es] eqn:El; [by apply elements_nonnil in El|].
    destruct es; [simpl in *; congruence|]. rewrite join_cons in * by done.
    rewrite <- IH. done.
Qed.

Lemma elements_noRS_all s : Forall (λ e, SDB_RS ∉ e) (elements s).
Proof.
  induction s as [|c s IH]; simpl; [repeat constructor; set_solver|]. case_if; zbool.
  - constructor; [set_solver|done].
  - destruct (elements s) as [|e es]; [repeat constructor; set_solver|].
    inversion_clear IH. constructor; [set_solver|done].
Qed.

Lemma elements_join es : es ≠ [] → Forall (λ e, SDB_RS ∉ e) es → elements (join es) = es.
Proof.
  intros Hne HF. induction HF as [|e es He HF IH]; [done|]. destruct es as [|e' es].
  - by apply elements_noRS.
  - rewrite join_cons, elements_app by done. by rewrite IH.
Qed.

(** How [strchr] cuts an array: the walks of the code go from one separator to the next. *)
Lemma strchr_RS_cases s :
  (strchr s SDB_RS = None ∧ elements s = [s]) ∨
  (∃ p t, strchr s SDB_RS = Some (SDB_RS :: t) ∧ s = p ++ SDB_RS :: t ∧ SDB_RS ∉ p
          ∧ elements s = p :: elements t).
Proof.
  destruct (strchr s SDB_RS) as [r|] eqn:E.
  - apply strchr_spec in E as (p & t & -> & -> & Hp). right. exists p, t.
    split_and!; [done|done|done|by apply elements_app].
  - left. split; [done|]. apply elements_noRS. by apply strchr_None.
Qed.

Lemma alen_loop_spec fuel p len :
  (length p < fuel)%nat → alen_loop fuel p len = len + Z.of_nat (length (elements p)) - 1.
Proof.
  revert p len; induction fuel as [|fuel IH]; intros p len Hf; [lia|]. simpl.
  destruct (strchr_RS_cases p) as [[-> ->]|(q & t & -> & Hs & _ & ->)]; [simpl; lia|].
  subst p. rewrite IH; simpl; [|rewrite length_app in Hf; simpl in Hf; lia].
  destruct (elements t) eqn:El; [by apply elements_nonnil in El|]. simpl; lia.
Qed.

Lemma hd0_cstr s : is_cstr s → hd0 s = 0 ↔ s = [].
Proof. destruct 1 as [|c s Hc]; [done|]. unfold hd0, is_char in *; simpl. split; [lia|done]. Qed.

Lemma sdb_alen_spec s : is_cstr s → s ≠ [] → sdb_alen (Some s) = Z.of_nat (length (elements s)).
Proof.
  intros Hs Hne. unfold sdb_alen. destruct (hd0 s =? 0) eqn:E; zbool.
  - by apply hd0_cstr in E.
  - rewrite alen_loop_spec by lia. lia.
Qed.

Definition nonempty (e : bytes) : bool := match e with [] => false | _ => true end.

Definition count_nonempty (es : list bytes) : Z := Z.of_nat (length (filter (λ e, nonempty e = true) es)).

Lemma count_nonempty_cons e es :
  count_nonempty (e :: es) = (if nonempty e then 1 else 0) + count_nonempty es.
Proof. unfold count_nonempty. rewrite filter_cons. destruct e; simpl; lia. Qed.

Lemma skip_rs_elements s :
  count_nonempty (elements (skip_rs s)) = count_nonempty (elements s)
  ∧ hd0 (skip_rs s) ≠ SDB_RS ∧ (length (skip_rs s) <= length s)%nat.
Proof.
  induction s as [|c s [IH1 [IH2 IH3]]]; simpl; [done|]. case_if; zbool.
  - rewrite count_nonempty_cons, IH1. simpl. lia.
  - simpl. rewrite (proj2 (Z.eqb_neq _ _) E). unfold hd0; simpl. split_and!; [done..|lia].
Qed.

(** A walk that stands on a separator still owes the count of the element before it. *)
Lemma alen_ignore_empty_loop_spec fuel p len r l :
  (length p < fuel)%nat → alen_ignore_empty_loop fuel p len = (r, l) →
  l + (if nonempty r then 1 else 0)
  = len + (if hd0 p =? SDB_RS then 1 else 0) + count_nonempty (elements p).
Proof.
  revert p len. induction fuel as [|fuel IH]; intros p len Hf; [lia|]. simpl.
  destruct (strchr_RS_cases p) as [[Hn ->]|(q & t & -> & Hs & Hq & ->)].
  - rewrite Hn. intros [= <- <-]. apply strchr_None in Hn. rewrite count_nonempty_cons.
    change (count_nonempty []) with 0.
    destruct p as [|c p]; simpl; [unfold hd0; simpl; lia|]. unfold hd0; simpl.
    rewrite (proj2 (Z.eqb_neq c SDB_RS)) by set_solver. lia.
  - subst p. simpl. intros Hl%IH; [|rewrite length_app in Hf; simpl in Hf; lia].
    rewrite Hl, count_nonempty_cons. destruct q as [|c q]; simpl.
    + change (hd0 (SDB_RS :: t) =? SDB_RS) with true. destruct (hd0 t =? SDB_RS); lia.
    + change (hd0 (c :: ?r)) with c. rewrite (proj2 (Z.eqb_neq c SDB_RS)) by set_solver.
      destruct (hd0 t =? SDB_RS); lia.
Qed.

Lemma alen_ignore_empty_rest fuel p len :
  is_cstr p → is_cstr (alen_ignore_empty_loop fuel p len).1.
Proof.
  revert p len. induction fuel as [|fuel IH]; intros p len Hp; simpl; [done|].
  destruct (strchr_RS_cases p) as [[-> _]|(q & t & -> & -> & _)]; [done|].
  apply IH. apply Forall_app in Hp as [_ Hp]. by inversion_clear Hp.
Qed.

Lemma skip_rs_cstr s : is_cstr s → is_cstr (skip_rs s).
Proof. induction 1; simpl; [constructor|]. case_if; [done|by constructor]. Qed.

Lemma sdb_alen_ignore_empty_spec s :
  is_cstr s → sdb_alen_ignore_empty (Some s) = count_nonempty (elements s).
Proof.
  intros Hs. unfold sdb_alen_ignore_empty. destruct (hd0 s =? 0) eqn:E; zbool.
  { apply hd0_cstr in E; [|done]. by subst. }
  destruct (skip_rs_elements s) as (H1 & H2 & _).
  destruct (alen_ignore_empty_loop (S (length (skip_rs s))) (skip_rs s) 0) as [r l] eqn:El.
  pose proof (alen_ignore_empty_rest (S (length (skip_rs s))) (skip_rs s) 0 (skip_rs_cstr s Hs)) as Hr.
  rewrite El in Hr; simpl in Hr.
  apply alen_ignore_empty_loop_spec in El; [|lia].
  rewrite (proj2 (Z.eqb_neq (hd0 _) SDB_RS)) in El by done.
  rewrite H1 in El. destruct (hd0 r =? 0) eqn:E0; zbool.
  - apply hd0_cstr in E0 as ->; [|done]. simpl in El. lia.
  - destruct r; [done|]. simpl in El. lia.
Qed.

(** Runs of separators squeezed to one: what [sdb_array_compact] computes. *)
Fixpoint squeeze (s : bytes) : bytes :=
  match s with
  | [] => []
  | c :: s' => if (c =? SDB_RS) && (hd0 s' =? SDB_RS) then squeeze s' else c :: squeeze s'
  end.

Lemma squeeze_skip t : squeeze (SDB_RS :: t) = SDB_RS :: squeeze (skip_rs t).
Proof.
  induction t as [|c t IH]; [done|].
  change (squeeze (SDB_RS :: c :: t))
    with (if c =? SDB_RS then squeeze (c :: t) else SDB_RS :: squeeze (c :: t)).
  change (skip_rs (c :: t)) with (if c =? SDB_RS then skip_rs t else c :: t).
  case_if; [|done]. zbool. by subst.
Qed.

Lemma squeeze_length s : (length (squeeze s) <= length s)%nat.
Proof. induction s as [|c s IH]; cbn [squeeze length]; [done|]. case_if; simpl; lia. Qed.

Lemma strneq_RS2 c p : strneq (c :: p) (str ",,") 2 = (c =? SDB_RS) && (hd0 p =? SDB_RS).
Proof.
  change (str ",,") with [SDB_RS; SDB_RS].
  destruct p as [|d p]; cbn [strneq hd0 hd]; [by destruct (c =? SDB_RS)|by rewrite andb_true_r].
Qed.

Lemma array_compact_pass_spec fuel p :
  (length p <= fuel)%nat →
  array_compact_pass fuel p = (squeeze p, negb (bool_decide (squeeze p = p))).
Proof.
  revert p; induction fuel as [|fuel IH]; intros p Hf; [by destruct p; simpl in *; [|lia]|].
  destruct p as [|c p]; [done|]. cbn [array_compact_pass].
  rewrite strneq_RS2. simpl in Hf. destruct ((c =? SDB_RS) && (hd0 p =? SDB_RS)) eqn:E.
  - zbool. subst c. destruct p as [|d p]; [done|].
    match goal with H : hd0 (d :: p) = _ |- _ => change (hd0 (d :: p)) with d in H; subst d end.
    simpl in Hf. change (drop 2 (SDB_RS :: SDB_RS :: p)) with (drop 0 p). rewrite drop_0.
    rewrite IH by (pose proof (proj2 (proj2 (skip_rs_elements p))); lia).
    assert (squeeze (SDB_RS :: SDB_RS :: p) = SDB_RS :: squeeze (skip_rs p)) as -> by exact (squeeze_skip (SDB_RS :: p)).
    f_equal. rewrite bool_decide_false; [done|].
    intros [= Heq]. pose proof (f_equal length Heq) as Hl; simpl in Hl.
    pose proof (squeeze_length (skip_rs p)). pose proof (proj2 (proj2 (skip_rs_elements p))). lia.
  - cbn [squeeze]. rewrite E, IH by lia. f_equal. f_equal. apply bool_decide_ext. split; congruence.
Qed.

Lemma squeeze_hd s : hd0 (squeeze s) = hd0 s.
Proof.
  induction s as [|c s IH]; cbn [squeeze]; [done|]. case_if; [|done].
  zbool. subst. by rewrite IH.
Qed.

Lemma squeeze_idemp s : squeeze (squeeze s) = squeeze s.
Proof.
  induction s as [|c s IH]; cbn [squeeze]; [done|]. case_if; [done|].
  cbn [squeeze]. rewrite squeeze_hd, E. by rewrite IH.
Qed.

Lemma squeeze_no_double s : strstr (squeeze s) (str ",,") = None.
Proof.
  induction s as [|c s IH]; cbn [squeeze]; [done|]. case_if; [done|].
  cbn [strstr]. change (length (str ",,")) with 2%nat. by rewrite strneq_RS2, squeeze_hd, E.
Qed.

Lemma sdb_array_compact_squeeze p : sdb_array_compact p = squeeze p.
Proof.
  unfold sdb_array_compact. cbn [array_compact_loop]. rewrite array_compact_pass_spec by lia.
  case_if; [|done]. destruct (length p) as [|n] eqn:El; [done|]. cbn [array_compact_loop].
  rewrite array_compact_pass_spec by lia. rewrite squeeze_idemp.
  by rewrite bool_decide_true by done.
Qed.

Lemma squeeze_elements_cons s :
  ∃ e es es', elements s = e :: es ∧ elements (squeeze s) = e :: es'
    ∧ filter (λ e, nonempty e = true) es = filter (λ e, nonempty e = true) es'.
Proof.
  induction s as [|c s (e & es & es' & E1 & E2 & E3)]; [by exists [], [], []|].
  cbn [squeeze]. destruct ((c =? SDB_RS) && (hd0 s =? SDB_RS)) eqn:E.
  - zbool. subst c. exists [], (elements s), es'. simpl. split_and!; [done| |].
    + rewrite E2. destruct s as [|d s]; [done|]. simpl in E1. unfold hd0 in *; simpl in *.
      subst d. simpl in E1. congruence.
    + rewrite E1, filter_cons. destruct s as [|d s]; [done|]. unfold hd0 in *; simpl in *.
      subst d. simpl in E1. injection E1 as <- <-. simpl. done.
  - simpl. destruct (c =? SDB_RS) eqn:Ec.
    + exists [], (elements s), (elements (squeeze s)). split_and!; [done..|].
      rewrite E1, E2, !filter_cons. by rewrite E3.
    + rewrite E1, E2. eexists _, _, _. split_and!; done.
Qed.

(** The non-empty elements of the array stay, in order. *)
Lemma squeeze_elements s :
  filter (λ e, nonempty e = true) (elements (squeeze s)) = filter (λ e, nonempty e = true) (elements s).
Proof.
  destruct (squeeze_elements_cons s) as (e & es & es' & -> & -> & E). by rewrite !filter_cons, E.
Qed.

(** * Properties *)

(** A number survives printing and parsing: for every 64-bit [n] and the bases the
    database uses (0, the default, 10 and 16), [sdb_itoa] into a buffer of
    [SDB_NUM_BUFSZ] bytes returns a non-empty C string that [sdb_atoi] reads back as [n]. *)
Theorem sdb_itoa_atoi_roundtrip n base :
  is_u64 n → base = 0 ∨ base = 10 ∨ base = 16 →
  ∃ s, sdb_itoa n base (Some SDB_NUM_BUFSZ) = Some s ∧ sdb_atoi (Some s) = n ∧ is_cstr s ∧ s ≠ [].
Proof. apply atoi_itoa. Qed.

Lemma sdb_itoa_atoi_roundtrip_witness :
  ∃ s, sdb_itoa UT64_MAX 16 (Some SDB_NUM_BUFSZ) = Some s ∧ sdb_atoi (Some s) = UT64_MAX ∧ is_cstr s ∧ s ≠ [].
Proof. apply (sdb_itoa_atoi_roundtrip UT64_MAX 16); [by split|by right; right]. Defined.

(** The two lengths of an array value count its elements: [sdb_alen] all of them
    (an empty value has none), [sdb_alen_ignore_empty] the non-empty ones. *)
Theorem sdb_alen_counts_elements s :
  is_cstr s →
  sdb_alen (Some s) = (if nonempty s then Z.of_nat (length (elements s)) else 0)
  ∧ sdb_alen_ignore_empty (Some s) = Z.of_nat (length (filter (λ e, nonempty e = true) (elements s))).
Proof.
  intros Hs. split; [|by apply sdb_alen_ignore_empty_spec]. destruct s; [done|]. by apply sdb_alen_spec.
Qed.

Lemma sdb_alen_counts_elements_witness :
  sdb_alen (Some (str "a,,b,")) = 4 ∧ sdb_alen_ignore_empty (Some (str "a,,b,")) = 2.
Proof. apply (sdb_alen_counts_elements (str "a,,b,")). repeat constructor. Defined.

(** [sdb_array_compact] leaves no two adjacent separators, keeps the non-empty
    elements in their order and never lengthens the text (it works in place). *)
Theorem sdb_array_compact_correct s :
  strstr (sdb_array_compact s) (str ",,") = None
  ∧ filter (λ e, nonempty e = true) (elements (sdb_array_compact s)) = filter (λ e, nonempty e = true) (elements s)
  ∧ (length (sdb_array_compact s) <= length s)%nat.
Proof.
  rewrite sdb_array_compact_squeeze. split_and!; [|apply squeeze_elements|apply squeeze_length].
  apply squeeze_no_double.
Qed.
