(* ===== verification/Lock.v ===== *)
(** * Locks and paths ([src/lock.c], [src/file.c])

    The lock of a database is a file that is created exclusively.  Processes that use it
    run at the same time and share the file system, so the functions are programs: trees of
    system calls with a branch for each answer, and a step of the system is one call of one
    process, with any answer the operating system may give.  This is the side of the code
    for POSIX systems. *)

From S2P Require Import Prelude Util.

(** ** System calls *)

Inductive call :=
| COpen (path : bytes)  (* O_CREAT | O_EXCL *)
| CWrite (path data : bytes)  (* to the descriptor of that file *)
| CClose
| CUnlink (path : bytes)
| CMkdir (path : bytes)
| CRename (src dst : bytes)
| CSleep
| CWork.  (* what is done with the lock *)

(** [Exists] is the error [EEXIST]. *)
Inductive answer := Done | Exists | Failed.

Inductive prog (A : Type) := Ret (a : A) | Call (c : call) (k : answer → prog A).
Arguments Ret {A} _.
Arguments Call {A} _ _.

#[export] Instance prog_ret : MRet prog := λ A a, Ret a.
#[export] Instance prog_bind : MBind prog := λ A B f,
  fix go p := match p with Ret a => f a | Call c k => Call c (λ r, go (k r)) end.

Definition sys (c : call) : prog answer := Call c Ret.
Definition answered (a : answer) : bool := match a with Done => true | _ => false end.

(** ** [src/file.c] *)

Definition sdb_file_unlink (path : option bytes) : prog bool :=
  match path with Some p => a ← sys (CUnlink p); mret (answered a) | None => mret false end.

Definition sdb_file_mkdir (path : option bytes) : prog bool :=
  match path with Some p => a ← sys (CMkdir p); mret (match a with Failed => false | _ => true end) | None => mret false end.

(** [dst] is replaced in one step. *)
Definition sdb_file_replace (src dst : bytes) : prog bool := a ← sys (CRename src dst); mret (answered a).

Definition DIRSEP : Z := 47.

(** [path] is written as the part before [ptr] and the rest from it on. *)
Fixpoint mkdirp_loop (fuel : nat) (pre ptr : bytes) : prog bool :=
  match fuel with
  | O => mret true
  | S fuel' =>
      match strchr ptr DIRSEP with
      | None => mret true
      | Some rest =>
          let dir := pre ++ take (length ptr - length rest) ptr in
          ok ← sdb_file_mkdir (Some dir);
          if negb (ok : bool) then mret false else mkdirp_loop fuel' (dir ++ [DIRSEP]) (tail rest)
      end
  end.

Definition sdb_file_mkdirp (path : bytes) : prog bool :=
  if hd0 path =? DIRSEP then mkdirp_loop (S (length path)) [DIRSEP] (tail path) else mkdirp_loop (S (length path)) [] path.

(** ** [src/lock.c] *)

(** The text in [buf], [None] when the result is false. *)
Definition sdb_lock_file (f : option bytes) (buf_size : Z) : option bytes :=
  match f with
  | Some ((_ :: _) as f) => if buf_size =? 0 then None else Some (take (Z.to_nat (buf_size - 1)) (f ++ str ".lock"))
  | _ => None
  end.

Section process.
Context (getpid : Z).

(** Whether the lock was taken, and [errno == EEXIST] after it was not.  Callers pass a
    name; without one [errno] is what it was before, which is taken to be another error. *)
Definition sdb_lock (s : option bytes) : prog (bool * bool) :=
  match s with
  | None => mret (false, false)
  | Some s =>
      fd ← sys (COpen s);
      match fd with
      | Done =>
          let undo := _ ← sys CClose; _ ← sdb_file_unlink (Some s); mret (false, false) in
          match sdb_itoa getpid 10 (Some 64) with
          | None => _ ← sys CClose; mret (true, false)
          | Some pid =>
              a ← sys (CWrite s pid);
              if negb (answered a) then undo
              else
                a ← sys (CWrite s [10]);
                if negb (answered a) then undo else _ ← sys CClose; mret (true, false)
          end
      | Exists => mret (false, true)
      | Failed => mret (false, false)
      end
  end.

Definition sdb_unlock (s : bytes) : prog () := _ ← sdb_file_unlink (Some s); mret ().

(** The loop, which has no bound of its own: [None] when the bound given is reached. *)
Fixpoint sdb_lock_wait (fuel : nat) (s : option bytes) : prog (option bool) :=
  match fuel with
  | O => mret None
  | S fuel' =>
      r ← sdb_lock s;
      if (r.1 : bool) then mret (Some true)
      else if negb r.2 then mret (Some false)
      else _ ← sys CSleep; sdb_lock_wait fuel' s
  end.

(** The fields [dir] and [lock] of the database. *)
Record LockDb := mkLockDb { l_dir : option bytes; l_lock : Z }.

Definition sdb_lock_db (fuel : nat) (s : LockDb) (mode : Z) : prog (option (bool * LockDb)) :=
  if mode =? 0 then mret (Some (false, s))
  else
    match sdb_lock_file (l_dir s) SDB_MAX_PATH with
    | None => mret (Some (false, s))
    | Some buf =>
        ok ← (if mode =? 2 then sdb_lock_wait fuel (Some buf) else r ← sdb_lock (Some buf); mret (Some r.1));
        mret (match ok with
              | None => None
              | Some true => Some (true, mkLockDb (l_dir s) mode)
              | Some false => Some (false, s)
              end)
    end.

Definition sdb_unlock_db (s : LockDb) : prog LockDb :=
  _ ← match (if l_lock s =? 0 then None else sdb_lock_file (l_dir s) SDB_MAX_PATH) with Some buf => sdb_unlock buf | None => mret () end;
  mret (mkLockDb (l_dir s) 0).

(** [sdb_file] of [src/sdb.c] *)
Definition sdb_file (fuel : nat) (s : LockDb) (dir : option bytes) : prog (option LockDb) :=
  let lock := l_lock s in
  s ← sdb_unlock_db s;
  let dir := match dir with Some (_ :: _) => dir | _ => None end in
  r ← sdb_lock_db fuel (mkLockDb dir (l_lock s)) lock;
  mret (match r with Some (_, s) => Some s | None => None end).
End process.

(** ** The system *)

Notation fs := (gmap bytes bytes).

(** The answers that a call may get, and the files after it: any call may fail, and a write
    may stop short.  A descriptor whose file is gone is written to without effect. *)
Inductive os : call → fs → answer → fs → Prop :=
| os_fail c f : os c f Failed f
| os_open p f : f !! p = None → os (COpen p) f Done (<[p := []]> f)
| os_open_exists p f : is_Some (f !! p) → os (COpen p) f Exists f
| os_write p d d' f : d' `prefix_of` d → os (CWrite p d) f Done (alter (λ t, t ++ d') p f)
| os_close f : os CClose f Done f
| os_unlink p f : is_Some (f !! p) → os (CUnlink p) f Done (delete p f)
| os_mkdir p f : f !! p = None → os (CMkdir p) f Done (<[p := []]> f)
| os_mkdir_exists p f : is_Some (f !! p) → os (CMkdir p) f Exists f
| os_rename p q t f : f !! p = Some t → os (CRename p q) f Done (<[q := t]> (delete p f))
| os_sleep f : os CSleep f Done f
| os_work f : os CWork f Done f.

(** The processes, each with what it has still to run; one may die at any time. *)
Definition config (A : Type) : Type := fs * gmap nat (prog A).

Inductive lstep {A} : config A → config A → Prop :=
| LStep f f' ps i c k a : ps !! i = Some (Call c k) → os c f a f' → lstep (f, ps) (f', <[i := k a]> ps)
| LCrash f ps i : lstep (f, ps) (f, delete i ps).

(** A process that takes the lock, works and gives it back, over and over. *)
Definition locked_work (fuel : nat) (pid : Z) (s : LockDb) (mode : Z) : prog (option (bool * LockDb)) :=
  r ← sdb_lock_db pid fuel s mode;
  match r with
  | Some (true, s) => _ ← sys CWork; s ← sdb_unlock_db s; mret (Some (true, s))
  | _ => mret r
  end.

Fixpoint worker (rounds fuel : nat) (pid : Z) (s : LockDb) (mode : Z) : prog () :=
  match rounds with
  | O => mret ()
  | S rounds' => _ ← locked_work fuel pid s mode; worker rounds' fuel pid s mode
  end.

Definition working {A} (p : prog A) : Prop := match p with Call CWork _ => True | _ => False end.

(** * Facts *)

(** ** Programs that respect a lock *)

(** [held] says whether the program has the lock [s] when it starts; it takes it only
    without it, works and gives it back only with it, and ends in [Q]. *)
Fixpoint respects {A} (s : bytes) (held : bool) (Q : bool → A → Prop) (p : prog A) : Prop :=
  match p with
  | Ret a => Q held a
  | Call c k =>
      match c with
      | COpen p' =>
          if decide (p' = s) then held = false ∧ respects s true Q (k Done) ∧ respects s false Q (k Exists) ∧ respects s false Q (k Failed)
          else ∀ r, respects s held Q (k r)
      | CUnlink p' => if decide (p' = s) then held = true ∧ ∀ r, respects s false Q (k r) else ∀ r, respects s held Q (k r)
      | CWork => held = true ∧ ∀ r, respects s held Q (k r)
      | CRename p' _ => p' ≠ s ∧ ∀ r, respects s held Q (k r)
      | _ => ∀ r, respects s held Q (k r)
      end
  end.

Lemma respects_mono {A} s h (Q Q' : bool → A → Prop) p : respects s h Q p → (∀ h a, Q h a → Q' h a) → respects s h Q' p.
Proof.
  intros Hr HQ. revert h Hr. induction p as [a|c k IH]; intros h Hr; cbn [respects] in *; [by apply HQ|].
  destruct c; try case_decide; naive_solver.
Qed.

Lemma respects_bind {A B} s h (Q : bool → B → Prop) (p : prog A) (f : A → prog B) :
  respects s h (λ h a, respects s h Q (f a)) p → respects s h Q (p ≫= f).
Proof.
  revert h. induction p as [a|c k IH]; intros h Hr; [done|]. change (Call c k ≫= f) with (Call c (λ r, k r ≫= f)). cbn [respects] in *.
  destruct c; try case_decide; naive_solver.
Qed.

Section client.
Context (s : bytes).

Lemma lock_respects pid : respects s false (λ h r, h = r.1) (sdb_lock pid (Some s)).
Proof.
  unfold sdb_lock. apply respects_bind. cbn [sys respects]. rewrite decide_True by done. split_and!; [done| |done|done].
  assert (respects s true (λ h (r : bool * bool), h = r.1) (_ ← sys CClose; _ ← sdb_file_unlink (Some s); mret (false, false))) as Hu.
  { cbn. intros _. rewrite decide_True by done. done. }
  cbv zeta. destruct (sdb_itoa pid 10 (Some 64)) as [t|]; [|done]. apply respects_bind. cbn [sys respects]. intros a. destruct (answered a); [cbn [negb]|exact Hu].
  apply respects_bind. cbn [sys respects]. intros a'. destruct (answered a'); [done|exact Hu].
Qed.

Lemma wait_respects pid fuel : respects s false (λ h r, h = match r with Some b => b | None => false end) (sdb_lock_wait pid fuel (Some s)).
Proof.
  induction fuel as [|fuel IH]; [done|]. cbn [sdb_lock_wait]. apply respects_bind. eapply respects_mono; [apply lock_respects|]. intros h [ok busy] ->. cbn [fst snd].
  destruct ok; [done|]. destruct busy; [|done]. cbn [negb]. apply respects_bind. cbn [sys respects]. intros _. exact IH.
Qed.

Context (dir : bytes) (Hdir : sdb_lock_file (Some dir) SDB_MAX_PATH = Some s).

Lemma lock_db_respects pid fuel mode :
  respects s false (λ h r, match r with Some (true, s') => h = true ∧ mode ≠ 0 ∧ s' = mkLockDb (Some dir) mode | _ => h = false end) (sdb_lock_db pid fuel (mkLockDb (Some dir) 0) mode).
Proof using Hdir.
  unfold sdb_lock_db. destruct (Z.eqb_spec mode 0) as [|Hm]; [done|]. cbn [l_dir]. rewrite Hdir. apply respects_bind.
  eapply (respects_mono _ _ (λ h r, h = match r with Some b => b | None => false end)).
  - destruct (mode =? 2); [apply wait_respects|]. apply respects_bind. eapply respects_mono; [apply lock_respects|]. by intros h r ->.
  - intros h r ->. cbn. by destruct r as [[]|].
Qed.

Lemma unlock_db_respects mode : mode ≠ 0 → respects s true (λ h _, h = false) (sdb_unlock_db (mkLockDb (Some dir) mode)).
Proof using Hdir.
  intros Hm. unfold sdb_unlock_db. cbn [l_lock l_dir]. rewrite (proj2 (Z.eqb_neq _ _)) by done. rewrite Hdir. cbn. by rewrite decide_True.
Qed.

Lemma worker_respects rounds fuel pid mode : respects s false (λ h _, h = false) (worker rounds fuel pid (mkLockDb (Some dir) 0) mode).
Proof using Hdir.
  induction rounds as [|rounds IH]; [done|]. cbn [worker]. apply respects_bind. unfold locked_work. apply respects_bind. eapply respects_mono; [apply lock_db_respects|].
  intros h [[[] s']|]; [|by intros ->|by intros ->]. intros (-> & Hm & ->). apply respects_bind. cbn [sys respects]. split; [done|]. intros _.
  apply respects_bind. eapply respects_mono; [by apply unlock_db_respects|]. by intros h s' ->.
Qed.
End client.

(** ** One holder at a time *)

Record lock_inv {A} (s : bytes) (Q : bool → A → Prop) (holder : option nat) (c : config A) : Prop := {
  li_progs i p : c.2 !! i = Some p → respects s (bool_decide (holder = Some i)) Q p;
  li_file : is_Some holder → is_Some (c.1 !! s)
}.

Lemma lock_inv_step {A} s (Q : bool → A → Prop) holder c c' : lock_inv s Q holder c → lstep c c' → ∃ holder', lock_inv s Q holder' c'.
Proof.
  intros [Hp Hf] Hst. destruct Hst as [f f' ps i c k a Hi Hos|f ps i]; cbn [fst snd] in *.
  2: { exists holder. split; [|done]. cbn. intros j p [_ Hj]%lookup_delete_Some. by apply Hp. }
  pose proof (Hp i _ Hi) as Hr.
  assert ((∀ r, respects s (bool_decide (holder = Some i)) Q (k r)) → (is_Some (f !! s) → is_Some (f' !! s)) → ∃ holder', lock_inv s Q holder' (f', <[i := k a]> ps)) as Hneutral.
  { intros Hk Hff. exists holder. split; cbn; [|by intros ?%Hf%Hff]. intros j p [[<- <-]|[Hne Hj]]%lookup_insert_Some; [apply Hk|by apply Hp]. }
  assert (∀ j p, <[i := k a]> ps !! j = Some p → j ≠ i → ps !! j = Some p) as Hother by (intros j p [[-> _]|[_ ?]]%lookup_insert_Some ?; done).
  destruct c as [p|p d| |p|p|p q| |]; cbn [respects] in Hr.
  - case_decide as E; [subst p|apply Hneutral; [done|]; inversion Hos; subst; [done| |done]; intros ?; rewrite lookup_insert_ne by done; done].
    destruct Hr as (Hh & Hd & He & Hfl). inversion Hos; subst.
    + exists holder. split; cbn; [|done]. intros j p [[<- <-]|[Hne Hj]]%lookup_insert_Some; [by rewrite Hh|by apply Hp].
    + exists (Some i). split; cbn; [|intros _; by rewrite lookup_insert_eq]. intros j p [[<- <-]|[Hne Hj]]%lookup_insert_Some; [by rewrite bool_decide_true|].
      assert (holder = None) as Hno. { destruct holder; [|done]. destruct (Hf ltac:(done)) as [? ?]. congruence. }
      rewrite bool_decide_false by congruence. specialize (Hp j p Hj). by rewrite Hno in Hp.
    + exists holder. split; cbn; [|done]. intros j p [[<- <-]|[Hne Hj]]%lookup_insert_Some; [by rewrite Hh|by apply Hp].
  - apply Hneutral; [done|]. inversion Hos; subst; [done|]. intros Hs. destruct (decide (p = s)) as [->|]; [rewrite lookup_alter_eq; by apply fmap_is_Some|by rewrite lookup_alter_ne].
  - apply Hneutral; [done|]. by inversion Hos; subst.
  - case_decide as E; [subst p|apply Hneutral; [done|]; inversion Hos; subst; [done|]; intros ?; rewrite lookup_delete_ne by done; done].
    destruct Hr as (Hh & Hd). apply bool_decide_eq_true in Hh as ->. exists None. split; cbn; [|by intros [? ?]].
    intros j p [[<- <-]|[Hne Hj]]%lookup_insert_Some; [by apply Hd|]. specialize (Hp j p Hj). rewrite bool_decide_false in Hp |- * by congruence. done.
  - apply Hneutral; [done|]. inversion Hos; subst; [done| |done]. intros Hs. destruct (decide (p = s)) as [->|]; [by rewrite lookup_insert_eq|by rewrite lookup_insert_ne].
  - apply Hneutral; [apply Hr|]. destruct Hr as [Hps _]. inversion Hos; subst; [done|]. intros Hs. destruct (decide (q = s)) as [->|]; [by rewrite lookup_insert_eq|].
    rewrite lookup_insert_ne by done. by rewrite lookup_delete_ne.
  - apply Hneutral; [done|]. by inversion Hos; subst.
  - apply Hneutral; [apply Hr|]. by inversion Hos; subst.
Qed.

Lemma lock_inv_steps {A} s (Q : bool → A → Prop) holder c c' : lock_inv s Q holder c → rtc lstep c c' → ∃ holder', lock_inv s Q holder' c'.
Proof. intros Hi Hst. revert holder Hi. induction Hst as [c|c c1 c' H1 _ IH]; intros holder Hi; [by exists holder|]. destruct (lock_inv_step s Q holder c c1 Hi H1) as [h1 Hi1]. by eapply IH. Qed.

Lemma working_held {A} s h (Q : bool → A → Prop) p : working p → respects s h Q p → h = true.
Proof. destruct p as [a|[] k]; try done. by intros _ [? _]. Qed.

(** ** Directories *)

(** A program that runs alone. *)
Inductive alone {A} : fs → prog A → A → fs → Prop :=
| alone_ret f a : alone f (Ret a) a f
| alone_call f f1 f' c k r a : os c f r f1 → alone f1 (k r) a f' → alone f (Call c k) a f'.

Lemma mkdirp_loop_ok fuel pre ptr f f' :
  (length ptr < fuel)%nat → alone f (mkdirp_loop fuel pre ptr) true f' →
  (∀ q, is_Some (f !! q) → is_Some (f' !! q)) ∧ ∀ p t, ptr = p ++ DIRSEP :: t → is_Some (f' !! (pre ++ p)).
Proof.
  revert pre ptr f. induction fuel as [|fuel IH]; intros pre ptr f Hfu; [lia|]. cbn [mkdirp_loop]. destruct (strchr ptr DIRSEP) as [rest|] eqn:E.
  - apply strchr_spec in E as (p0 & t0 & -> & -> & Hno). rewrite length_app in Hfu. cbn [length tail] in *. rewrite length_app, Nat.add_sub, take_app_length. cbn.
    intros Hr. inversion Hr as [|? f1 ? ? ? r ? Hos Hr']; subst. assert (r ≠ Failed ∧ alone f1 (mkdirp_loop fuel ((pre ++ p0) ++ [DIRSEP]) t0) true f') as [Hnf Hal].
    { destruct r; [by split|by split|]. by inversion Hr'. }
    assert (is_Some (f1 !! (pre ++ p0)) ∧ ∀ q, is_Some (f !! q) → is_Some (f1 !! q)) as [Hd Hk].
    { inversion Hos; subst; [done| |by split]. split; [by rewrite lookup_insert_eq|]. intros q Hq. destruct (decide (q = pre ++ p0)) as [->|]; [by rewrite lookup_insert_eq|by rewrite lookup_insert_ne]. }
    destruct (IH ((pre ++ p0) ++ [DIRSEP]) t0 f1 ltac:(lia) Hal) as [Hk2 Hd2]. split; [intros q Hq; by apply Hk2, Hk|]. intros p t Hp.
    apply app_eq_inv in Hp as [(l & -> & Hl)|(l & -> & Hl)].
    + destruct l as [|c l]; [|injection Hl as <- Hl; set_solver]. rewrite app_nil_r in Hd. by apply Hk2.
    + destruct l as [|c l]; [rewrite app_nil_r; by apply Hk2|]. injection Hl as <- Hl. specialize (Hd2 l t Hl). by rewrite <- !app_assoc in Hd2.
  - intros Hr. inversion Hr; subst. split; [done|]. intros p t ->. apply strchr_None in E. set_solver.
Qed.

(** * Properties *)

(** C13: The lock file keeps processes apart: let any processes, each with its own process
    number, way of locking (waiting or not) and number of rounds, lock the same database,
    work and unlock it, with their system calls in any order, failing at any point, and any
    of them dying at any time, over files of any contents; there is never more than one that
    is at work, and the lock file exists as long as one is. *)
Theorem sdb_lock_mutual_exclusion dir lock (params : gmap nat (nat * nat * Z * Z)) f0 f ps :
  sdb_lock_file (Some dir) SDB_MAX_PATH = Some lock →
  rtc lstep (f0, (λ '(rounds, fuel, pid, mode), worker rounds fuel pid (mkLockDb (Some dir) 0) mode) <$> params) (f, ps) →
  (∀ i j p q, ps !! i = Some p → ps !! j = Some q → working p → working q → i = j) ∧ (∀ i p, ps !! i = Some p → working p → is_Some (f !! lock)).
Proof.
  intros Hdir Hst. eapply (lock_inv_steps lock (λ h _, h = false) None) in Hst as (holder & [Hp Hf]).
  - cbn [fst snd] in *. assert (∀ i p, ps !! i = Some p → working p → holder = Some i) as Hh.
    { intros i p Hi Hw. apply (bool_decide_eq_true (holder = Some i)). eapply working_held; [exact Hw|by apply Hp]. }
    split; [|intros i p Hi Hw; apply Hf; by rewrite (Hh i p Hi Hw)]. intros i j p q Hi Hj Hwi Hwj. pose proof (Hh i p Hi Hwi). pose proof (Hh j q Hj Hwj). congruence.
  - split; cbn [fst snd]; [|by intros [? ?]]. intros i p Hi. apply lookup_fmap_Some in Hi as ([[[rounds fuel] pid] mode] & <- & _). by apply worker_respects.
Qed.

(** Two processes, the first of which gets to work. *)
Definition two : gmap nat (nat * nat * Z * Z) := {[1%nat := (1%nat, 1%nat, 100, 1); 2%nat := (3%nat, 5%nat, 101, 2)]}.

Lemma sdb_lock_mutual_exclusion_witness :
  ∃ f ps p, rtc lstep (∅, (λ '(rounds, fuel, pid, mode), worker rounds fuel pid (mkLockDb (Some (str "db")) 0) mode) <$> two) (f, ps)
    ∧ ps !! 1%nat = Some p ∧ working p ∧ (∀ q, ps !! 2%nat = Some q → ¬ working q) ∧ is_Some (f !! str "db.lock").
Proof.
  assert (∃ f ps p, rtc lstep (∅, (λ '(rounds, fuel, pid, mode), worker rounds fuel pid (mkLockDb (Some (str "db")) 0) mode) <$> two) (f, ps) ∧ ps !! 1%nat = Some p ∧ working p) as (f & ps & p & Hst & Hp & Hw).
  { eexists _, _, _. split_and!.
    - eapply rtc_l; [eapply (LStep _ _ _ 1); [reflexivity|apply os_open; reflexivity]|].
      eapply rtc_l; [eapply (LStep _ _ _ 1); [reflexivity|eapply os_write; reflexivity]|]. eapply rtc_l; [eapply (LStep _ _ _ 1); [reflexivity|eapply os_write; reflexivity]|].
      eapply rtc_l; [eapply (LStep _ _ _ 1); [reflexivity|apply os_close]|]. apply rtc_refl.
    - reflexivity.
    - exact I. }
  destruct (sdb_lock_mutual_exclusion (str "db") (str "db.lock") two ∅ f ps eq_refl Hst) as [H1 H2]. exists f, ps, p. split_and!; [done|done|done| |by eapply H2].
  intros q Hq Hwq. by specialize (H1 1%nat 2%nat p q Hp Hq Hw Hwq).
Defined.

(** [sdb_file_mkdirp] that succeeds leaves a directory, or at least a file, at every part of
    the path in front of a slash. *)
Theorem sdb_file_mkdirp_parents path f f' p t :
  alone f (sdb_file_mkdirp path) true f' → path = p ++ DIRSEP :: t → p ≠ [] → is_Some (f' !! p).
Proof.
  intros Hr -> Hp. unfold sdb_file_mkdirp in Hr. destruct p as [|c p]; [done|]. cbn [app hd0 hd] in Hr. destruct (Z.eqb_spec c DIRSEP) as [->|Hc].
  - apply mkdirp_loop_ok in Hr as [_ Hd]; [|cbn; lia]. by apply (Hd p t).
  - apply mkdirp_loop_ok in Hr as [_ Hd]; [|cbn; lia]. by apply (Hd (c :: p) t).
Qed.

(** [sdb_file_replace] leaves the new contents under the old name, or everything as it was. *)
Theorem sdb_file_replace_atomic (src dst : bytes) (f f' : fs) b :
  alone f (sdb_file_replace src dst) b f' → if b then f' !! dst = f !! src ∧ is_Some (f !! src) else f' = f.
Proof.
  intros Hr. inversion Hr as [|? f1 ? ? ? r ? Hos Hr']; subst. inversion Hr'; subst. inversion Hos; subst; cbn; [done|]. rewrite lookup_insert_eq. eauto.
Qed.

(** ** What goes wrong *)

(** The name of the lock is cut to fit a buffer of [SDB_MAX_PATH] bytes, and nothing says
    so: with a name of that length the lock is the database file itself, which
    [sdb_unlock_db] then removes. *)
Theorem sdb_lock_is_database f : slen f = SDB_MAX_PATH - 1 → sdb_lock_file (Some f) SDB_MAX_PATH = Some f.
Proof.
  intros Hl. unfold sdb_lock_file. destruct f as [|c f]; [done|]. change (SDB_MAX_PATH =? 0) with false. cbv iota. f_equal.
  replace (Z.to_nat (SDB_MAX_PATH - 1)) with (length (c :: f)) by (unfold slen in Hl; lia). apply take_app_length.
Qed.

Theorem sdb_unlock_removes_database (f : bytes) (fs0 : fs) t s :
  slen f = SDB_MAX_PATH - 1 → fs0 !! f = Some t → alone fs0 (sdb_unlock_db (mkLockDb (Some f) 1)) s (delete f fs0) ↔ s = mkLockDb (Some f) 0.
Proof.
  intros Hl Ht. unfold sdb_unlock_db. cbn [l_lock l_dir]. rewrite sdb_lock_is_database by done. cbn. split.
  - intros Hr. inversion Hr as [|? ? ? ? ? r ? Hos Hr']; subst. by inversion Hr'.
  - intros ->. econstructor; [by apply os_unlink|]. constructor.
Qed.

(** Names that agree in their first [SDB_MAX_PATH - 1] bytes share a lock. *)
Theorem sdb_lock_shared f g g' : slen f = SDB_MAX_PATH - 1 → sdb_lock_file (Some (f ++ g)) SDB_MAX_PATH = sdb_lock_file (Some (f ++ g')) SDB_MAX_PATH.
Proof.
  intros Hl. unfold sdb_lock_file. destruct f as [|c f]; [done|]. change (SDB_MAX_PATH =? 0) with false. cbn [app]. cbv iota. f_equal.
  replace (Z.to_nat (SDB_MAX_PATH - 1)) with (length (c :: f)) by (unfold slen in Hl; lia). rewrite <- !app_assoc. change (take (length (c :: f)) ((c :: f) ++ (g ++ str ".lock")) = take (length (c :: f)) ((c :: f) ++ (g' ++ str ".lock"))).
  by rewrite !take_app_length.
Qed.
