(* ===== verification/Ht.v ===== *)
(** * The hash table: src/src/ht.inc.c, the template behind HtPP and HtUP, and
    src/include/sdb/ht_inc.h

    A table of buckets, each a growing array of key/value entries.  The template
    parameters of the header ([KEY_TYPE], [VALUE_TYPE], [KEY_TO_HASH],
    [HT_NULL_VALUE]) are the class [HtTypes]; an entry carries an extra payload
    [X] for the tables whose [elem_size] is larger than an [HtKv] (the database's
    [SdbKv]).  Allocation is an argument: [alloc n] says whether a request of [n]
    bytes is served during the call. *)

From S2P Require Import Prelude.

(** ** Data *)

Record Kv (K V X : Type) := mkKv {
  key : K;
  value : V;
  key_len : Z;
  value_len : Z;
  ext : X
}.
Arguments mkKv {K V X}.
Arguments key {K V X}.
Arguments value {K V X}.
Arguments key_len {K V X}.
Arguments value_len {K V X}.
Arguments ext {K V X}.

(** [count] is the length of [arr]; [bsize] is the field [size]; [cap] is what the
    last successful [realloc] of the array really gave. *)
Record Bucket (K V X : Type) := mkBucket {
  arr : list (Kv K V X);
  bsize : Z;
  cap : Z
}.
Arguments mkBucket {K V X}.
Arguments arr {K V X}.
Arguments bsize {K V X}.
Arguments cap {K V X}.

Record Options (K V : Type) := mkOptions {
  opt_cmp : option (K → K → Z);
  opt_hashfn : option (K → Z);
  opt_dupkey : option (K → K);
  opt_dupvalue : option (V → V);
  opt_calcsizeK : option (K → Z);
  opt_calcsizeV : option (V → Z);
  opt_freefn : bool;
  opt_elem_size : Z
}.
Arguments mkOptions {K V}.
Arguments opt_cmp {K V}.
Arguments opt_hashfn {K V}.
Arguments opt_dupkey {K V}.
Arguments opt_dupvalue {K V}.
Arguments opt_calcsizeK {K V}.
Arguments opt_calcsizeV {K V}.
Arguments opt_freefn {K V}.
Arguments opt_elem_size {K V}.

(** [freed] is the sequence of the entries handed to [opt.freefn]. *)
Record Ht (K V X : Type) := mkHt {
  table : list (Bucket K V X);
  opt : Options K V;
  size : Z;
  count : Z;
  prime_idx : Z;
  freed : list (Kv K V X)
}.
Arguments mkHt {K V X}.
Arguments table {K V X}.
Arguments opt {K V X}.
Arguments size {K V X}.
Arguments count {K V X}.
Arguments prime_idx {K V X}.
Arguments freed {K V X}.

(** The macros a table type is instantiated with; [ptr_eqb] is C's [==] on
    [KEY_TYPE], [uninit] the contents of fresh, uninitialised array memory. *)
Class HtTypes (K V X : Type) := {
  KEY_TO_HASH : K → Z;
  HT_NULL_VALUE : V;
  ptr_eqb : K → K → bool;
  uninit : Kv K V X
}.

Definition LOAD_FACTOR : Z := 1.

Definition ht_primes_sizes : list Z := [
  3; 7; 11; 17; 23; 29; 37; 47; 59; 71; 89; 107; 131;
  163; 197; 239; 293; 353; 431; 521; 631; 761; 919;
  1103; 1327; 1597; 1931; 2333; 2801; 3371; 4049; 4861;
  5839; 7013; 8419; 10103; 12143; 14591; 17519; 21023;
  25229; 30293; 36353; 43627; 52361; 62851; 75431; 90523;
  108631; 130363; 156437; 187751; 225307; 270371; 324449;
  389357; 467237; 560689; 672827; 807403; 968897; 1162687;
  1395263; 1674319; 2009191; 2411033; 2893249; 3471899;
  4166287; 4999559; 5999471; 7199369].

Definition n_primes : Z := Z.of_nat (length ht_primes_sizes).

Definition prime_at (idx : Z) : Z := default 0 (ht_primes_sizes !! Z.to_nat idx).

Definition next_idx (idx : Z) : Z :=
  if negb (idx =? UT32_MAX) && (idx <? n_primes - 1) then idx + 1 else UT32_MAX.

Definition compute_size (idx sz : Z) : Z :=
  if negb (idx =? UT32_MAX) && (idx <? n_primes) then prime_at idx else Z.lor sz 1.

(** [sizeof] of the structures whose allocation the code requests. *)
Definition SIZEOF_KV : Z := 24.
Definition SIZEOF_HT : Z := 88.
Definition SIZEOF_BUCKET : Z := 16.

(** ** Operations *)

Section ops.
Context {K V X : Type} `{!HtTypes K V X}.
Abbreviation kv_t := (Kv K V X).
Abbreviation ht_t := (Ht K V X).
Abbreviation bucket_t := (Bucket K V X).
Implicit Types (ht : ht_t) (kv : kv_t) (k : K) (v : V) (alloc : Z → bool).

Definition hashfn ht k : Z :=
  match opt_hashfn (opt ht) with Some f => f k | None => KEY_TO_HASH k end.

Definition bucketfn ht k : Z := hashfn ht k mod size ht.

Definition dupkey ht k : K :=
  match opt_dupkey (opt ht) with Some f => f k | None => k end.

Definition dupval ht v : V :=
  match opt_dupvalue (opt ht) with Some f => f v | None => v end.

Definition calcsize_key ht k : Z :=
  match opt_calcsizeK (opt ht) with Some f => f k | None => 0 end.

Definition calcsize_val ht v : Z :=
  match opt_calcsizeV (opt ht) with Some f => f v | None => 0 end.

Definition freefn ht kv : ht_t :=
  if opt_freefn (opt ht)
  then mkHt (table ht) (opt ht) (size ht) (count ht) (prime_idx ht) (freed ht ++ [kv])
  else ht.

Definition is_kv_equal ht k (len : Z) kv : bool :=
  if negb (len =? key_len kv) then false
  else
    let res := ptr_eqb k (key kv) in
    match opt_cmp (opt ht) with
    | Some cmp => if negb res then cmp k (key kv) =? 0 else res
    | None => res
    end.

(** [&ht->table[i]] *)
Definition empty_bucket : bucket_t := mkBucket [] 0 0.
Definition bucket_at ht (i : Z) : bucket_t := default empty_bucket (table ht !! Z.to_nat i).

Definition set_bucket ht (i : Z) (bt : bucket_t) (cnt : Z) : ht_t :=
  mkHt (<[Z.to_nat i := bt]> (table ht)) (opt ht) (size ht) cnt (prime_idx ht) (freed ht).

(** [BUCKET_FOREACH] with a test: the first entry equal to the key, and its index. *)
Definition bucket_find ht (bt : bucket_t) k (len : Z) : option (nat * kv_t) :=
  list_find (λ kv, is_kv_equal ht k len kv = true) (arr bt).

Definition internal_ht_new alloc (sz idx : Z) (o : Options K V) : option ht_t :=
  if alloc SIZEOF_HT && alloc (sz * SIZEOF_BUCKET) then
    let o := if opt_elem_size o =? 0
             then mkOptions (opt_cmp o) (opt_hashfn o) (opt_dupkey o) (opt_dupvalue o)
                            (opt_calcsizeK o) (opt_calcsizeV o) (opt_freefn o) SIZEOF_KV
             else o in
    Some (mkHt (replicate (Z.to_nat sz) empty_bucket) o sz 0 idx [])
  else None.

Definition ht_new_opt alloc (o : Options K V) : option ht_t :=
  internal_ht_new alloc (prime_at 0) 0 o.

(** The slot (bucket, index) for the key, NULL when the key is there and
    [update] is not set, or when the array cannot grow. *)
Definition reserve_kv alloc ht k (len : Z) (update : bool) : option (Z * nat) * ht_t :=
  let b := bucketfn ht k in
  let bt := bucket_at ht b in
  match bucket_find ht bt k len with
  | Some (j, kvtmp) => if update then (Some (b, j), freefn ht kvtmp) else (None, ht)
  | None =>
      let cnt := Z.of_nat (length (arr bt)) in
      let push sz cp :=
        (Some (b, length (arr bt)),
         set_bucket ht b (mkBucket (arr bt ++ [uninit]) sz cp) (u32 (count ht + 1))) in
      if bsize bt <=? u32 (cnt + 1) then
        let sz := u32 (u32 (cnt + 1) * 2) in
        if alloc (sz * opt_elem_size (opt ht)) then push sz sz
        else (None, set_bucket ht b (mkBucket (arr bt) sz (cap bt)) (count ht))
      else push (bsize bt) (cap bt)
  end.

(** Change the entry in a reserved slot. *)
Definition alter_slot ht (slot : Z * nat) (f : kv_t → kv_t) : ht_t :=
  let bt := bucket_at ht slot.1 in
  set_bucket ht slot.1 (mkBucket (alter f slot.2 (arr bt)) (bsize bt) (cap bt)) (count ht).

Definition insert_kv_with (check_growing : ht_t → ht_t) alloc ht kv (update : bool) : bool * ht_t :=
  match reserve_kv alloc ht (key kv) (key_len kv) update with
  | (Some slot, ht) => (true, check_growing (alter_slot ht slot (λ _, kv)))
  | (None, ht) => (false, ht)
  end.

(** The entries in the order of the nested loops over buckets and arrays. *)
Definition kvs ht : list kv_t := mjoin (arr <$> table ht).

(** The entries passed to [freefn] when the table is destroyed. *)
Definition ht_free ht : list kv_t := if opt_freefn (opt ht) then kvs ht else [].

(** [opt.freefn = NULL] *)
Definition clear_freefn ht : ht_t :=
  let o := opt ht in
  mkHt (table ht) (mkOptions (opt_cmp o) (opt_hashfn o) (opt_dupkey o) (opt_dupvalue o) (opt_calcsizeK o) (opt_calcsizeV o) false (opt_elem_size o))
    (size ht) (count ht) (prime_idx ht) (freed ht).

(** [insert] is [insert_kv] of the new, larger table.  The internals are swapped, and the
    old ones are freed without a [freefn]; [freed] goes on over all of that. *)
Definition internal_ht_grow (insert : ht_t → kv_t → ht_t) alloc ht : ht_t :=
  let idx := next_idx (prime_idx ht) in
  let sz := compute_size idx (u32 (size ht * 2)) in
  match internal_ht_new alloc sz idx (opt ht) with
  | None => ht
  | Some ht2 =>
      let ht2 := foldl insert ht2 (kvs ht) in
      mkHt (table ht2) (opt ht2) (size ht2) (count ht2) (prime_idx ht2) (freed ht ++ freed ht2 ++ ht_free (clear_freefn ht))
  end.

(** The insertions into the new table can themselves ask for growth: the fuel
    bounds that nesting. *)
Fixpoint check_growing (fuel : nat) alloc ht : ht_t :=
  match fuel with
  | O => ht
  | S fuel' =>
      if LOAD_FACTOR * size ht <=? count ht then
        internal_ht_grow (λ ht2 kv, (insert_kv_with (check_growing fuel' alloc) alloc ht2 kv false).2) alloc ht
      else ht
  end.

Definition GROW_FUEL : nat := 64.

Definition ht_insert_kv alloc ht kv (update : bool) : bool * ht_t :=
  insert_kv_with (check_growing GROW_FUEL alloc) alloc ht kv update.

Definition insert_update alloc ht k v (update : bool) : bool * ht_t :=
  let len := calcsize_key ht k in
  match reserve_kv alloc ht k len update with
  | (Some slot, ht) =>
      let ht := alter_slot ht slot (λ kv, mkKv (dupkey ht k) (dupval ht v) len (calcsize_val ht v) (ext kv)) in
      (true, check_growing GROW_FUEL alloc ht)
  | (None, ht) => (false, ht)
  end.

Definition ht_insert alloc ht k v : bool * ht_t := insert_update alloc ht k v false.
Definition ht_update alloc ht k v : bool * ht_t := insert_update alloc ht k v true.

Definition ht_find_kv (oht : option ht_t) k : option kv_t :=
  match oht with
  | None => None
  | Some ht => snd <$> bucket_find ht (bucket_at ht (bucketfn ht k)) k (calcsize_key ht k)
  end.

(** The value and [*found]. *)
Definition ht_find ht k : V * bool :=
  match ht_find_kv (Some ht) k with
  | Some kv => (value kv, true)
  | None => (HT_NULL_VALUE, false)
  end.

(** [memmove] of the entries after [j] and the two counters. *)
Definition remove_at ht (b : Z) (j : nat) : ht_t :=
  let bt := bucket_at ht b in
  set_bucket ht b (mkBucket (delete j (arr bt)) (bsize bt) (cap bt)) (u32 (count ht - 1)).

Definition ht_delete ht k : bool * ht_t :=
  let b := bucketfn ht k in
  match bucket_find ht (bucket_at ht b) k (calcsize_key ht k) with
  | Some (j, kv) => (true, remove_at (freefn ht kv) b j)
  | None => (false, ht)
  end.

Definition ht_update_key alloc ht old_key new_key : bool * ht_t :=
  match ht_find ht old_key with
  | (_, false) => (false, ht)
  | (v, true) =>
      match insert_update alloc ht new_key v false with
      | (false, ht) => (false, ht)
      | (true, ht) =>
          let b := bucketfn ht old_key in
          match bucket_find ht (bucket_at ht b) old_key (calcsize_key ht old_key) with
          | Some (j, kv) =>
              let kv := match opt_dupvalue (opt ht) with
                        | Some _ => kv
                        | None => mkKv (key kv) HT_NULL_VALUE (key_len kv) 0 (ext kv)
                        end in
              (true, remove_at (freefn ht kv) b j)
          | None => (false, ht)
          end
      end
  end.

(** [cb] returns whether to go on; it does not modify the table. *)
Fixpoint foreach_loop {U} (cb : U → K → V → bool * U) (l : list kv_t) (user : U) : U :=
  match l with
  | [] => user
  | kv :: l' =>
      match cb user (key kv) (value kv) with
      | (true, user) => foreach_loop cb l' user
      | (false, user) => user
      end
  end.

Definition ht_foreach {U} (cb : U → K → V → bool * U) ht (user : U) : U :=
  foreach_loop cb (kvs ht) user.

(** [new_size]: the first size that holds [initial_size] entries. *)
Fixpoint new_size_loop (primes : list Z) (i initial_size : Z) : Z :=
  match primes with
  | [] => i
  | p :: ps => if p * LOAD_FACTOR <? initial_size then new_size_loop ps (i + 1) initial_size else i
  end.

Definition ht_new_size alloc (initial_size : Z) (o : Options K V) : option ht_t :=
  let i := new_size_loop ht_primes_sizes 0 initial_size in
  let i := if i =? n_primes then UT32_MAX else i in
  let sz := compute_size i (u32 (initial_size * (2 - LOAD_FACTOR))) in
  internal_ht_new alloc sz i o.
End ops.

(** ** Invariant and abstraction *)

(** What a table asks of its options: the comparison decides equality of keys
    and a duplicated key is the key. *)
Class KeyOk {K V X} `{!HtTypes K V X} (o : Options K V) : Prop := {
  key_equal : ∀ k k' : K,
    ptr_eqb k k' || match opt_cmp o with Some c => c k k' =? 0 | None => false end = true ↔ k = k';
  key_dup : ∀ k : K, match opt_dupkey o with Some f => f k | None => k end = k
}.

Section facts.
Context {K V X : Type} `{!HtTypes K V X} `{Countable K}.
Abbreviation kv_t := (Kv K V X).
Abbreviation ht_t := (Ht K V X).
Implicit Types (ht : ht_t) (kv : kv_t) (k : K) (v : V) (alloc : Z → bool) (bt : Bucket K V X).

(** The finite map a table stands for. *)
Definition map_of (l : list kv_t) : gmap K kv_t := list_to_map ((λ kv, (key kv, kv)) <$> l).
Definition to_map ht : gmap K kv_t := map_of (kvs ht).

Definition kv_ok ht kv : Prop := key_len kv = calcsize_key ht (key kv).

(** A bucket array never holds more entries than were allocated for it. *)
Definition bucket_ok bt : Prop :=
  bsize bt = cap bt ∧ Z.of_nat (length (arr bt)) <= cap bt.

(** Everything but the load factor, which is broken while an insertion is under way. *)
Record wf_core ht : Prop := {
  wf_keyok : KeyOk (opt ht);
  wf_elem : opt_elem_size (opt ht) ≠ 0;
  wf_size : 0 < size ht < 2 ^ 32;
  wf_len : length (table ht) = Z.to_nat (size ht);
  wf_place : ∀ i bt kv, table ht !! i = Some bt → kv ∈ arr bt →
    Z.of_nat i = bucketfn ht (key kv) ∧ kv_ok ht kv;
  wf_nodup : ∀ i bt, table ht !! i = Some bt → NoDup (key <$> arr bt);
  wf_bucket : ∀ i bt, table ht !! i = Some bt → bucket_ok bt;
  wf_count : count ht = Z.of_nat (length (kvs ht));
  wf_count_u32 : count ht < 2 ^ 32;
  wf_prime : prime_idx ht = UT32_MAX ∨ (0 <= prime_idx ht < n_primes ∧ size ht = prime_at (prime_idx ht))
}.

Definition wf ht : Prop := wf_core ht ∧ count ht < size ht.

Lemma is_kv_equal_spec ht k len kv :
  KeyOk (opt ht) → is_kv_equal ht k len kv = true ↔ len = key_len kv ∧ k = key kv.
Proof.
  intros Hk. unfold is_kv_equal. destruct (len =? key_len kv) eqn:E; simpl; zbool; [|naive_solver].
  rewrite <- (key_equal k (key kv)).
  destruct (opt_cmp (opt ht)), (ptr_eqb k (key kv)); simpl; naive_solver.
Qed.

Lemma bucketfn_range ht k : 0 < size ht → 0 <= bucketfn ht k < size ht.
Proof. intros. apply Z.mod_pos_bound. lia. Qed.

Lemma bucket_at_lookup ht k :
  wf_core ht → table ht !! Z.to_nat (bucketfn ht k) = Some (bucket_at ht (bucketfn ht k)).
Proof.
  intros Hw. pose proof (wf_size _ Hw). pose proof (bucketfn_range ht k ltac:(lia)).
  destruct (lookup_lt_is_Some_2 (table ht) (Z.to_nat (bucketfn ht k))) as [bt Hbt].
  { rewrite (wf_len _ Hw). lia. }
  unfold bucket_at. by rewrite Hbt.
Qed.

Lemma elem_of_kvs ht kv : kv ∈ kvs ht ↔ ∃ i bt, table ht !! i = Some bt ∧ kv ∈ arr bt.
Proof.
  unfold kvs. rewrite list_elem_of_join. split.
  - intros (l & Hin & (bt & -> & Hbt)%list_elem_of_fmap). apply list_elem_of_lookup in Hbt as [i ?].
    eauto.
  - intros (i & bt & Hi & Hin). exists (arr bt). split; [done|].
    apply list_elem_of_fmap. exists bt. split; [done|]. by eapply list_elem_of_lookup_2.
Qed.

(** An entry lives in the bucket of its key. *)
Lemma elem_of_kvs_bucket ht kv :
  wf_core ht → kv ∈ kvs ht ↔ kv ∈ arr (bucket_at ht (bucketfn ht (key kv))).
Proof.
  intros Hw. rewrite elem_of_kvs. split.
  - intros (i & bt & Hi & Hin). destruct (wf_place _ Hw i bt kv Hi Hin) as [Hb _].
    unfold bucket_at. rewrite <- Hb, Nat2Z.id, Hi. done.
  - intros Hin. eexists _, _. split; [by apply bucket_at_lookup|done].
Qed.

Lemma nodup_mjoin (f : K → Z) (l : list (Bucket K V X)) (off : Z) :
  (∀ i bt, l !! i = Some bt → NoDup (key <$> arr bt) ∧ ∀ kv, kv ∈ arr bt → f (key kv) = off + Z.of_nat i) →
  NoDup (key <$> mjoin (arr <$> l)).
Proof.
  revert off. induction l as [|bt l IH]; intros off Hl; simpl; [constructor|].
  rewrite fmap_app. apply NoDup_app. split_and!.
  - by apply (Hl 0%nat bt).
  - intros k (kv & -> & Hkv)%list_elem_of_fmap (kv' & Heq & Hkv')%list_elem_of_fmap.
    apply list_elem_of_join in Hkv' as (a & Hkv' & (bt' & -> & Hbt')%list_elem_of_fmap).
    apply list_elem_of_lookup in Hbt' as [i Hi].
    pose proof (proj2 (Hl 0%nat bt eq_refl) kv Hkv).
    pose proof (proj2 (Hl (S i) bt' Hi) kv' Hkv'). rewrite Heq in *. lia.
  - apply (IH (off + 1)). intros i bt' Hi. destruct (Hl (S i) bt' Hi) as [? Hf].
    split; [done|]. intros kv Hkv. rewrite (Hf kv Hkv). lia.
Qed.

Lemma wf_nodup_kvs ht : wf_core ht → NoDup (key <$> kvs ht).
Proof.
  intros Hw. apply (nodup_mjoin (bucketfn ht) _ 0). intros i bt Hi.
  split; [by apply (wf_nodup _ Hw i)|]. intros kv Hkv.
  destruct (wf_place _ Hw i bt kv Hi Hkv). lia.
Qed.

Lemma to_map_lookup ht k kv : wf_core ht → to_map ht !! k = Some kv ↔ kv ∈ kvs ht ∧ key kv = k.
Proof.
  intros Hw. unfold to_map, map_of. rewrite <- elem_of_list_to_map.
  - rewrite list_elem_of_fmap. naive_solver.
  - rewrite <- list_fmap_compose. apply (wf_nodup_kvs ht Hw).
Qed.

Lemma bucket_find_spec ht k :
  wf_core ht →
  match bucket_find ht (bucket_at ht (bucketfn ht k)) k (calcsize_key ht k) with
  | Some (j, kv) => arr (bucket_at ht (bucketfn ht k)) !! j = Some kv ∧ key kv = k ∧ to_map ht !! k = Some kv
  | None => to_map ht !! k = None
  end.
Proof.
  intros Hw. pose proof (wf_keyok _ Hw). unfold bucket_find.
  destruct (list_find _ _) as [[j kv]|] eqn:E.
  - apply list_find_Some in E as (Hj & Heq & _). apply is_kv_equal_spec in Heq as [_ ->]; [|done].
    split_and!; [done..|]. apply to_map_lookup; [done|]. split; [|done].
    apply elem_of_kvs_bucket; [done|]. by eapply list_elem_of_lookup_2.
  - apply list_find_None in E. destruct (to_map ht !! k) as [kv|] eqn:Em; [|done].
    apply to_map_lookup in Em as [Hin <-]; [|done].
    apply elem_of_kvs in Hin as (i & bt & Hi & Hin).
    destruct (wf_place _ Hw i bt kv Hi Hin) as [Hb Hok].
    rewrite Forall_forall in E. exfalso. apply (E kv).
    + unfold bucket_at. by rewrite <- Hb, Nat2Z.id, Hi.
    + apply is_kv_equal_spec; done.
Qed.

Lemma find_kv_spec ht k : wf_core ht → ht_find_kv (Some ht) k = to_map ht !! k.
Proof.
  intros Hw. unfold ht_find_kv. pose proof (bucket_find_spec ht k Hw) as Hf.
  destruct (bucket_find _ _ _ _) as [[j kv]|]; simpl; [|done]. by destruct Hf as (_ & _ & ->).
Qed.

(** ** Changing one bucket *)

Lemma kvs_set_bucket ht i bt :
  table ht !! Z.to_nat i = Some bt →
  ∃ l1 l2, kvs ht = l1 ++ arr bt ++ l2 ∧ ∀ bt' c, kvs (set_bucket ht i bt' c) = l1 ++ arr bt' ++ l2.
Proof.
  intros Hi. exists (mjoin (arr <$> take (Z.to_nat i) (table ht))), (mjoin (arr <$> drop (S (Z.to_nat i)) (table ht))).
  split.
  - unfold kvs. rewrite <- (take_drop_middle _ _ _ Hi) at 1. rewrite fmap_app, join_app. done.
  - intros bt' c. unfold kvs, set_bucket; simpl.
    rewrite insert_take_drop by (eapply lookup_lt_Some; done).
    rewrite fmap_app, join_app. done.
Qed.

Lemma wf_set_bucket ht k bt' c :
  wf_core ht → let i := bucketfn ht k in
  (∀ kv, kv ∈ arr bt' → bucketfn ht (key kv) = i ∧ kv_ok ht kv) →
  NoDup (key <$> arr bt') → bucket_ok bt' →
  c = count ht - Z.of_nat (length (arr (bucket_at ht i))) + Z.of_nat (length (arr bt')) → c < 2 ^ 32 →
  wf_core (set_bucket ht i bt' c).
Proof.
  intros Hw i Hkv Hnd Hok Hc Hcu. pose proof (bucket_at_lookup ht k Hw) as Hl. fold i in Hl.
  pose proof (bucketfn_range ht k (proj1 (wf_size _ Hw))) as Hr. fold i in Hr.
  assert (∀ j bt, table (set_bucket ht i bt' c) !! j = Some bt →
     (j = Z.to_nat i ∧ bt = bt') ∨ (j ≠ Z.to_nat i ∧ table ht !! j = Some bt)) as Hcase.
  { intros j bt. unfold set_bucket; simpl. intros [(? & -> & ?)|[? ?]]%list_lookup_insert_Some; eauto. }
  split; simpl.
  - apply (wf_keyok _ Hw).
  - apply (wf_elem _ Hw).
  - apply (wf_size _ Hw).
  - rewrite length_insert. apply (wf_len _ Hw).
  - intros j bt kv [[-> ->]|[? Hj]]%Hcase Hin.
    + destruct (Hkv kv Hin). unfold bucketfn, hashfn in *; simpl. split; [lia|done].
    + apply (wf_place _ Hw j bt kv Hj Hin).
  - intros j bt [[-> ->]|[? Hj]]%Hcase; [done|]. by apply (wf_nodup _ Hw j).
  - intros j bt [[-> ->]|[? Hj]]%Hcase; [done|]. by apply (wf_bucket _ Hw j).
  - destruct (kvs_set_bucket ht i _ Hl) as (l1 & l2 & E1 & E2). rewrite E2, Hc, (wf_count _ Hw), E1.
    rewrite !length_app. lia.
  - done.
  - apply (wf_prime _ Hw).
Qed.

Lemma set_set_bucket ht i bt1 bt2 c1 c2 :
  set_bucket (set_bucket ht i bt1 c1) i bt2 c2 = set_bucket ht i bt2 c2.
Proof. unfold set_bucket; simpl. by rewrite list_insert_insert_eq. Qed.

Lemma bucket_at_set ht k bt c :
  wf_core ht → bucket_at (set_bucket ht (bucketfn ht k) bt c) (bucketfn ht k) = bt.
Proof.
  intros Hw. unfold bucket_at, set_bucket; simpl.
  rewrite list_lookup_insert_eq; [done|]. eapply lookup_lt_Some. by apply bucket_at_lookup.
Qed.

(** Appending an entry for a fresh key to the key's bucket. *)
Lemma push_spec ht kv sz :
  wf_core ht → to_map ht !! key kv = None → kv_ok ht kv → count ht + 1 < 2 ^ 32 →
  let b := bucketfn ht (key kv) in let bt := bucket_at ht b in
  Z.of_nat (length (arr bt)) < sz →
  let ht' := set_bucket ht b (mkBucket (arr bt ++ [kv]) sz sz) (count ht + 1) in
  wf_core ht' ∧ kvs ht' ≡ₚ kv :: kvs ht.
Proof.
  intros Hw Hm Hok Hcu b bt Hsz. pose proof (bucket_at_lookup ht (key kv) Hw) as Hl. fold b bt in Hl.
  destruct (kvs_set_bucket ht b bt Hl) as (l1 & l2 & E1 & E2). split.
  - apply wf_set_bucket; [done|..]; cbn [arr bsize cap]; fold b bt.
    + intros kv' [Hin| ->%list_elem_of_singleton]%elem_of_app; [|done].
      destruct (wf_place _ Hw _ _ kv' Hl Hin). rewrite Z2Nat.id in *; [by split|].
      apply bucketfn_range, (wf_size _ Hw).
    + rewrite fmap_app, NoDup_app; cbn.
      split_and!; [by apply (wf_nodup _ Hw _ _ Hl)| |by apply NoDup_singleton].
      intros k' (kv' & -> & Hin)%list_elem_of_fmap Heq%list_elem_of_singleton.
      assert (to_map ht !! key kv = Some kv') as Hs'; [|congruence].
      apply to_map_lookup; [done|]. split; [|done]. apply elem_of_kvs. eauto.
    + unfold bucket_ok; cbn. rewrite length_app; cbn. split; [done|lia].
    + rewrite length_app; cbn. lia.
    + lia.
  - rewrite E2, E1; cbn. solve_Permutation.
Qed.

(** Reserving a slot for a fresh key and writing it appends one entry to the key's
    bucket, inside the memory allocated for it. *)
Lemma reserve_fresh alloc ht k update (f : kv_t → kv_t) :
  wf_core ht → (∀ n, alloc n = true) → count ht < 2 ^ 31 - 1 → to_map ht !! k = None →
  key (f uninit) = k → kv_ok ht (f uninit) →
  ∃ slot ht1, reserve_kv alloc ht k (calcsize_key ht k) update = (Some slot, ht1)
    ∧ opt ht1 = opt ht
    ∧ let ht2 := alter_slot ht1 slot f in
      wf_core ht2 ∧ size ht2 = size ht ∧ opt ht2 = opt ht ∧ freed ht2 = freed ht
      ∧ prime_idx ht2 = prime_idx ht
      ∧ count ht2 = count ht + 1 ∧ kvs ht2 ≡ₚ f uninit :: kvs ht.
Proof.
  intros Hw Ha Hc Hm Hk Hok. pose proof (bucket_find_spec ht k Hw) as Hf. unfold reserve_kv.
  destruct (bucket_find _ _ _ _) as [[j kv]|] eqn:E; [destruct Hf as (_ & _ & ?); congruence|].
  set (b := bucketfn ht k) in *. pose proof (bucket_at_lookup ht k Hw) as Hl. fold b in Hl.
  set (bt := bucket_at ht b) in *. destruct (wf_bucket _ Hw _ _ Hl) as [Hsz Hcap].
  destruct (kvs_set_bucket ht b bt Hl) as (l1 & l2 & E1 & _).
  assert (Z.of_nat (length (arr bt)) <= count ht) as Hle.
  { rewrite (wf_count _ Hw), E1, !length_app. lia. }
  rewrite (u32_small (Z.of_nat (length (arr bt)) + 1)) by (unfold is_u32; lia).
  rewrite (u32_small (count ht + 1)) by (unfold is_u32; lia).
  rewrite (u32_small ((Z.of_nat (length (arr bt)) + 1) * 2)) by (unfold is_u32; lia).
  rewrite Ha.
  assert (∀ sz, Z.of_nat (length (arr bt)) < sz →
    let ht2 := alter_slot (set_bucket ht b (mkBucket (arr bt ++ [uninit]) sz sz) (count ht + 1)) (b, length (arr bt)) f in
      wf_core ht2 ∧ size ht2 = size ht ∧ opt ht2 = opt ht ∧ freed ht2 = freed ht
      ∧ prime_idx ht2 = prime_idx ht
      ∧ count ht2 = count ht + 1 ∧ kvs ht2 ≡ₚ f uninit :: kvs ht) as Hpush.
  { intros sz Hs. unfold alter_slot; cbn [fst snd]. unfold b. rewrite bucket_at_set by done. fold b.
    cbn [arr bsize cap count]. rewrite set_set_bucket, alter_app_r_alt, Nat.sub_diag by lia.
    destruct (push_spec ht (f uninit) sz Hw) as [Hw' Hp]; rewrite ?Hk; [done|done|lia|done|].
    rewrite Hk in Hw', Hp. by split_and!. }
  case_if; zbool.
  - eexists _, _. split; [done|]. split; [done|]. apply Hpush. lia.
  - rewrite <- Hsz. eexists _, _. split; [done|]. split; [done|]. apply Hpush. lia.
Qed.

Lemma map_of_perm ht l : wf_core ht → kvs ht ≡ₚ l → to_map ht = map_of l.
Proof.
  intros Hw Hp. unfold to_map, map_of. apply list_to_map_proper; [|by rewrite Hp].
  rewrite <- list_fmap_compose. apply (wf_nodup_kvs ht Hw).
Qed.

Lemma map_of_cons ht l kv : wf_core ht → kvs ht ≡ₚ kv :: l → to_map ht = <[key kv := kv]> (map_of l).
Proof. apply map_of_perm. Qed.

Lemma insert_kv_fresh alloc ht kv update :
  wf_core ht → (∀ n, alloc n = true) → count ht < 2 ^ 31 - 1 → to_map ht !! key kv = None → kv_ok ht kv →
  ∃ ht2, (∀ chk, insert_kv_with chk alloc ht kv update = (true, chk ht2))
    ∧ wf_core ht2 ∧ size ht2 = size ht ∧ opt ht2 = opt ht ∧ freed ht2 = freed ht
    ∧ prime_idx ht2 = prime_idx ht ∧ count ht2 = count ht + 1 ∧ kvs ht2 ≡ₚ kv :: kvs ht.
Proof.
  intros Hw Ha Hc Hm Hok.
  destruct (reserve_fresh alloc ht (key kv) update (λ _, kv)) as (slot & ht1 & E & _ & Hx); [done..|].
  exists (alter_slot ht1 slot (λ _, kv)). split; [|done].
  intros chk. unfold insert_kv_with. by rewrite Hok, E.
Qed.

(** Re-inserting entries with distinct keys into a table with room for them. *)
Lemma grow_fold chk alloc l ht :
  (∀ h, count h < size h → chk h = h) →
  (∀ n, alloc n = true) → wf_core ht → NoDup (key <$> l ++ kvs ht) → Forall (kv_ok ht) l →
  count ht + Z.of_nat (length l) < size ht → count ht + Z.of_nat (length l) < 2 ^ 31 →
  let ht' := foldl (λ h kv, (insert_kv_with chk alloc h kv false).2) ht l in
  wf_core ht' ∧ size ht' = size ht ∧ opt ht' = opt ht ∧ prime_idx ht' = prime_idx ht ∧ freed ht' = freed ht
  ∧ kvs ht' ≡ₚ l ++ kvs ht ∧ ht' = foldl (λ h kv, (insert_kv_with id alloc h kv false).2) ht l.
Proof.
  intros Hchk Ha. revert ht. induction l as [|kv l IH]; intros ht Hw Hnd Hok Hc Hb; cbn; [done|].
  cbn in Hnd, Hc, Hb. apply NoDup_cons in Hnd as [Hnin Hnd]. inversion_clear Hok as [|? ? Hkv Hok'].
  destruct (insert_kv_fresh alloc ht kv false) as (ht2 & E & Hw2 & Hs & Ho & Hfr & Hp & Hcnt & Hperm); [done..|lia| |done|].
  { destruct (to_map ht !! key kv) as [kv'|] eqn:Em; [|done].
    apply to_map_lookup in Em as [Hin Heq]; [|done]. destruct Hnin. rewrite <- Heq.
    rewrite fmap_app. apply elem_of_app. right. by apply list_elem_of_fmap_2. }
  rewrite !E; cbn. rewrite Hchk by lia.
  destruct (IH ht2) as (? & Hs' & Ho' & Hp' & Hfr' & Hperm' & Hid); [done|..|lia|lia|].
  - rewrite fmap_app, Hperm, <- fmap_app. rewrite <- Permutation_middle; cbn. by constructor.
  - eapply Forall_impl; [exact Hok'|]. intros kv'. unfold kv_ok, calcsize_key. by rewrite Ho.
  - split_and!; [done|congruence..| |done]. rewrite Hperm', Hperm. solve_Permutation.
Qed.

(** The sizes in the table grow, and stay below the range where doubling wraps. *)
Lemma prime_at_range idx : 0 <= idx < n_primes → 0 < prime_at idx < 2 ^ 31.
Proof.
  intros Hi. pose proof (forallZ_range (λ i, (0 <? prime_at i) && (prime_at i <? 2 ^ 31)) n_primes eq_refl idx Hi) as Hp.
  cbv beta in Hp. zbool. lia.
Qed.

Lemma prime_at_mono idx : 0 <= idx < n_primes - 1 → prime_at idx < prime_at (idx + 1) <= 2 * prime_at idx + 1.
Proof.
  intros Hi. pose proof (forallZ_range (λ i, (prime_at i <? prime_at (i + 1)) && (prime_at (i + 1) <=? 2 * prime_at i + 1))
    (n_primes - 1) eq_refl idx Hi) as Hp.
  cbv beta in Hp. zbool. lia.
Qed.

Lemma lor_1_range sz : 0 <= sz < 2 ^ 32 → sz <= Z.lor sz 1 < 2 ^ 32 ∧ 0 < Z.lor sz 1 <= sz + 1.
Proof.
  intros Hs. pose proof (Z.add_lor_land sz 1) as Hl.
  change (Z.land sz 1) with (Z.land sz (2 ^ 1 - 1)) in Hl. rewrite land_ones_mod in Hl by lia.
  Z.to_euclidean_division_equations. lia.
Qed.

(** A grown table is strictly larger, below the range where doubling wraps; its
    size is never zero, so the bucket index is always defined. *)
Lemma grown_size idx sz :
  idx = UT32_MAX ∨ (0 <= idx < n_primes ∧ sz = prime_at idx) → 0 < sz < 2 ^ 31 →
  let idx' := next_idx idx in let sz' := compute_size idx' (u32 (sz * 2)) in
  sz < sz' < 2 ^ 32 ∧ sz' <= 2 * sz + 1 ∧ (idx' = UT32_MAX ∨ (0 <= idx' < n_primes ∧ sz' = prime_at idx')).
Proof.
  intros Hi Hs. unfold next_idx. destruct (_ && _) eqn:E; zbool.
  - destruct Hi as [?|[Hi ->]]; [done|]. assert (0 <= idx + 1 < n_primes) by lia.
    pose proof (prime_at_mono idx ltac:(lia)). pose proof (prime_at_range (idx + 1) ltac:(lia)).
    unfold compute_size. rewrite (proj2 (Z.eqb_neq (idx + 1) UT32_MAX)), (proj2 (Z.ltb_lt (idx + 1) n_primes)).
    + cbn. split; [lia|]. split; [lia|]. right. split; [lia|done].
    + lia.
    + unfold n_primes, UT32_MAX in *. cbn in *. lia.
  - unfold compute_size. rewrite Z.eqb_refl; cbn [negb andb].
    rewrite u32_small by (unfold is_u32; lia). pose proof (lor_1_range (sz * 2) ltac:(lia)).
    split; [lia|]. split; [lia|by left].
Qed.

Lemma internal_ht_new_spec alloc sz idx o :
  (∀ n, alloc n = true) → KeyOk o → opt_elem_size o ≠ 0 → 0 < sz < 2 ^ 32 →
  idx = UT32_MAX ∨ (0 <= idx < n_primes ∧ sz = prime_at idx) →
  ∃ ht : ht_t, internal_ht_new alloc sz idx o = Some ht ∧ wf ht ∧ kvs ht = [] ∧ size ht = sz ∧ opt ht = o
    ∧ count ht = 0 ∧ freed ht = [].
Proof.
  intros Ha Hk He Hs Hi. unfold internal_ht_new. rewrite !Ha, (proj2 (Z.eqb_neq _ _) He); cbn [andb].
  eexists; split; [done|].
  assert (∀ j bt, replicate (Z.to_nat sz) (empty_bucket : Bucket K V X) !! j = Some bt → bt = empty_bucket) as Hr.
  { intros j bt [? ?]%lookup_replicate. done. }
  assert (∀ n, mjoin (arr <$> replicate n (empty_bucket : Bucket K V X)) = []) as Hj.
  { intros n. induction n; cbn; [done|]. done. }
  split_and!; [|apply Hj|done..]. split; [|cbn; lia].
  split; cbn; [done|done|done|by rewrite length_replicate|..|done].
  - intros j bt kv ->%Hr Hin. by apply elem_of_nil in Hin.
  - intros j bt ->%Hr. constructor.
  - intros j bt ->%Hr. by split.
  - unfold kvs; cbn. by rewrite Hj.
  - lia.
Qed.

(** Growing keeps the entries and restores the load factor, and the insertions into
    the new table never ask for a nested growth: one unit of fuel is enough. *)
Lemma check_growing_spec n alloc ht :
  (∀ n, alloc n = true) → wf_core ht → count ht <= size ht → size ht < 2 ^ 31 →
  let ht' := check_growing (S n) alloc ht in
  wf ht' ∧ kvs ht' ≡ₚ kvs ht ∧ freed ht' = freed ht ∧ opt ht' = opt ht
  ∧ ht' = check_growing 1 alloc ht ∧ size ht' <= Z.max (size ht) (2 * count ht + 1).
Proof.
  intros Ha Hw Hc Hs. cbn. unfold LOAD_FACTOR. rewrite Z.mul_1_l.
  destruct (size ht <=? count ht) eqn:E; zbool; [|split_and!; [split; done|done..|lia]].
  assert (∀ m h, count h < size h → check_growing m alloc h = h) as Hchk.
  { intros [|m] h Hh; cbn; [done|]. unfold LOAD_FACTOR. rewrite (proj2 (Z.leb_gt _ _)); [done|lia]. }
  pose proof (wf_size _ Hw). destruct (grown_size (prime_idx ht) (size ht) (wf_prime _ Hw)) as (Hsz & Hle & Hpr); [lia|].
  unfold internal_ht_grow.
  destruct (internal_ht_new_spec alloc (compute_size (next_idx (prime_idx ht)) (u32 (size ht * 2)))
    (next_idx (prime_idx ht)) (opt ht) Ha (wf_keyok _ Hw) (wf_elem _ Hw)) as (ht2 & -> & [Hw2 _] & Hk2 & Hs2 & Ho2 & Hc2 & Hf2);
    [lia|done|].
  assert (∀ m, let ht' := foldl (λ h kv, (insert_kv_with (check_growing m alloc) alloc h kv false).2) ht2 (kvs ht) in
    wf_core ht' ∧ size ht' = size ht2 ∧ opt ht' = opt ht2 ∧ prime_idx ht' = prime_idx ht2 ∧ freed ht' = freed ht2
    ∧ kvs ht' ≡ₚ kvs ht ++ kvs ht2 ∧ ht' = foldl (λ h kv, (insert_kv_with id alloc h kv false).2) ht2 (kvs ht)) as Hfold.
  { intros m. apply grow_fold; [apply Hchk|done|done|..].
    - rewrite Hk2, app_nil_r. by apply wf_nodup_kvs.
    - apply Forall_forall. intros kv (i & bt & Hi & Hin)%elem_of_kvs.
      destruct (wf_place _ Hw i bt kv Hi Hin) as [_ Hok]. unfold kv_ok, calcsize_key in *. by rewrite Ho2.
    - rewrite <- (wf_count _ Hw). lia.
    - rewrite <- (wf_count _ Hw). lia. }
  destruct (Hfold n) as (Hw3 & Hs3 & Ho3 & _ & Hf3 & Hperm & Hid).
  destruct (Hfold 0%nat) as (_ & _ & _ & _ & _ & _ & Hid0). cbn in Hid0. rewrite Hid0, <- Hid.
  set (ht3 := foldl _ _ _) in *. rewrite Hk2, app_nil_r in Hperm.
  split_and!; [|done|cbn [freed]; rewrite Hf3, Hf2; unfold ht_free, clear_freefn; cbn; by rewrite app_nil_r|by cbn; congruence|done|cbn; lia]. split; [by destruct Hw3; split|].
  cbn. rewrite (wf_count _ Hw3), Hperm, <- (wf_count _ Hw). lia.
Qed.

Lemma freefn_eq ht kv :
  table (freefn ht kv) = table ht ∧ opt (freefn ht kv) = opt ht ∧ size (freefn ht kv) = size ht
  ∧ count (freefn ht kv) = count ht ∧ prime_idx (freefn ht kv) = prime_idx ht
  ∧ freed (freefn ht kv) = freed ht ++ (if opt_freefn (opt ht) then [kv] else []).
Proof. unfold freefn. destruct (opt_freefn (opt ht)); cbn; split_and!; try done. by rewrite app_nil_r. Qed.

Lemma freefn_wf ht kv : wf_core ht → wf_core (freefn ht kv).
Proof. unfold freefn. destruct (opt_freefn (opt ht)); [|done]. intros []; by split. Qed.

(** Changing the entry of a key in place, the key kept. *)
Lemma alter_slot_spec ht k j kv (f : kv_t → kv_t) :
  wf_core ht → arr (bucket_at ht (bucketfn ht k)) !! j = Some kv → key kv = k →
  key (f kv) = k → kv_ok ht (f kv) →
  let ht' := alter_slot ht (bucketfn ht k, j) f in
  wf_core ht' ∧ to_map ht' = <[k := f kv]> (to_map ht)
  ∧ opt ht' = opt ht ∧ size ht' = size ht ∧ count ht' = count ht ∧ freed ht' = freed ht.
Proof.
  intros Hw Hj Hk Hfk Hok. set (b := bucketfn ht k). set (bt := bucket_at ht b).
  pose proof (bucket_at_lookup ht k Hw) as Hl. fold b bt in Hl, Hj.
  assert (alter f j (arr bt) = take j (arr bt) ++ f kv :: drop (S j) (arr bt)) as Halt.
  { rewrite <- (take_drop_middle _ _ _ Hj) at 1. rewrite alter_app_r_alt; [|rewrite length_take; lia].
    rewrite length_take_le by (apply lookup_lt_Some in Hj; lia). by rewrite Nat.sub_diag. }
  assert (arr bt = take j (arr bt) ++ kv :: drop (S j) (arr bt)) as Harr by (symmetry; by apply take_drop_middle).
  assert (key <$> alter f j (arr bt) = key <$> arr bt) as Hkeys.
  { rewrite Halt. rewrite Harr at 3. rewrite !fmap_app, !fmap_cons, Hfk, Hk. done. }
  assert (wf_core (alter_slot ht (b, j) f)) as Hw'.
  { unfold alter_slot; cbn [fst snd]. apply wf_set_bucket; [done|..]; cbn [arr bsize cap]; fold b bt.
    - intros kv' Hin. rewrite Halt in Hin.
      assert (kv' ∈ arr bt ∨ kv' = f kv) as [Hin'| ->] by (rewrite Harr; set_solver); [|by rewrite Hfk].
      destruct (wf_place _ Hw _ _ kv' Hl Hin'). rewrite Z2Nat.id in *; [by split|].
      apply bucketfn_range, (wf_size _ Hw).
    - rewrite Hkeys. by apply (wf_nodup _ Hw _ _ Hl).
    - destruct (wf_bucket _ Hw _ _ Hl). split; cbn; [done|by rewrite length_alter].
    - rewrite length_alter. lia.
    - apply (wf_count_u32 _ Hw). }
  split_and!; [done| |done..].
  destruct (kvs_set_bucket ht b bt Hl) as (l1 & l2 & E1 & E2).
  assert (kvs (alter_slot ht (b, j) f) ≡ₚ f kv :: l1 ++ take j (arr bt) ++ drop (S j) (arr bt) ++ l2) as P1.
  { unfold alter_slot; cbn [fst snd]. fold bt. rewrite E2; cbn. rewrite Halt. solve_Permutation. }
  assert (kvs ht ≡ₚ kv :: l1 ++ take j (arr bt) ++ drop (S j) (arr bt) ++ l2) as P2.
  { rewrite E1. rewrite Harr at 1. solve_Permutation. }
  rewrite (map_of_cons _ _ _ Hw' P1), (map_of_cons _ _ _ Hw P2), Hfk, Hk. by rewrite insert_insert_eq.
Qed.

Lemma remove_at_spec ht k j kv :
  wf_core ht → arr (bucket_at ht (bucketfn ht k)) !! j = Some kv → key kv = k →
  let ht' := remove_at ht (bucketfn ht k) j in
  wf_core ht' ∧ to_map ht' = delete k (to_map ht) ∧ opt ht' = opt ht ∧ size ht' = size ht
  ∧ count ht' = count ht - 1 ∧ freed ht' = freed ht.
Proof.
  intros Hw Hj Hk. set (b := bucketfn ht k). set (bt := bucket_at ht b).
  pose proof (bucket_at_lookup ht k Hw) as Hl. fold b bt in Hl, Hj.
  pose proof (delete_Permutation _ _ _ Hj) as Hd.
  destruct (kvs_set_bucket ht b bt Hl) as (l1 & l2 & E1 & E2).
  pose proof (wf_nodup _ Hw _ _ Hl) as Hnd. rewrite Hd in Hnd; cbn in Hnd. apply NoDup_cons in Hnd as [_ Hnd].
  pose proof (f_equal length E1) as Hlen. rewrite !length_app in Hlen.
  pose proof (lookup_lt_Some _ _ _ Hj). pose proof (wf_count _ Hw) as Hcnt. pose proof (wf_size _ Hw).
  pose proof (wf_count_u32 _ Hw).
  assert (u32 (count ht - 1) = count ht - 1) as Hu by (apply u32_small; unfold is_u32; lia).
  assert (length (arr bt) = S (length (delete j (arr bt)))) as Hdl by by rewrite Hd at 1.
  unfold remove_at. fold bt. rewrite Hu. set (ht' := set_bucket _ _ _ _).
  assert (wf_core ht') as Hw'.
  { apply wf_set_bucket; [done|..]; cbn [arr bsize cap]; fold b bt; [|done|..|lia].
    - intros kv' Hin. assert (kv' ∈ arr bt) as Hin' by (rewrite Hd; set_solver).
      destruct (wf_place _ Hw _ _ kv' Hl Hin'). rewrite Z2Nat.id in *; [by split|].
      apply bucketfn_range, (wf_size _ Hw).
    - destruct (wf_bucket _ Hw _ _ Hl). split; cbn; [done|lia].
    - lia. }
  split_and!; [done| |done..].
  assert (kvs ht ≡ₚ kv :: kvs ht') as P.
  { unfold ht'. rewrite E2, E1; cbn. rewrite Hd at 1. solve_Permutation. }
  rewrite (map_of_cons _ _ _ Hw P), Hk. symmetry. apply delete_insert_id.
  destruct (map_of (kvs ht') !! k) as [kv'|] eqn:Em; [|done].
  apply (to_map_lookup ht') in Em as [Hin Heq]; [|done].
  pose proof (wf_nodup_kvs ht Hw) as Hnd'. rewrite P in Hnd'; cbn in Hnd'.
  apply NoDup_cons in Hnd' as [Hn _]. destruct Hn. rewrite Hk, <- Heq. by apply list_elem_of_fmap_2.
Qed.

Lemma wf_freefn_map ht kv : to_map (freefn ht kv) = to_map ht.
Proof. unfold to_map, kvs. by destruct (freefn_eq ht kv) as (-> & _). Qed.

Lemma check_growing_map n alloc ht :
  (∀ n, alloc n = true) → wf_core ht → count ht <= size ht → size ht < 2 ^ 31 →
  let ht' := check_growing (S n) alloc ht in
  wf ht' ∧ to_map ht' = to_map ht ∧ freed ht' = freed ht ∧ opt ht' = opt ht
  ∧ count ht' = count ht ∧ size ht' <= Z.max (size ht) (2 * count ht + 1).
Proof.
  intros Ha Hw Hc Hs. destruct (check_growing_spec n alloc ht) as (Hw' & Hp & Hf & Ho & _ & Hl); [done..|].
  cbv zeta. split_and!; [done| |done..| |done].
  - apply map_of_perm; [by destruct Hw'|done].
  - destruct Hw' as [Hw' _]. by rewrite (wf_count _ Hw'), Hp, <- (wf_count _ Hw).
Qed.

(** How far one insertion can take the counters. *)
Definition room_step ht ht' : Prop :=
  count ht' <= count ht + 1 ∧ size ht' <= Z.max (size ht) (2 * count ht + 3).

(** What [insert_kv] and [insert_update] share: take the slot of the key, write the
    entry [f old] there, grow.  The three cases are a fresh key, an existing key to
    update and an existing key to keep. *)
Lemma reserve_write_spec n alloc ht k update (f : kv_t → kv_t) :
  (∀ n, alloc n = true) → wf ht → size ht < 2 ^ 31 →
  (∀ kv, key (f kv) = k ∧ kv_ok ht (f kv)) →
  match to_map ht !! k, update with
  | Some _, false => reserve_kv alloc ht k (calcsize_key ht k) update = (None, ht)
  | o, _ => ∃ slot ht1, reserve_kv alloc ht k (calcsize_key ht k) update = (Some slot, ht1)
      ∧ opt ht1 = opt ht
      ∧ let ht2 := check_growing (S n) alloc (alter_slot ht1 slot f) in
        wf ht2 ∧ to_map ht2 = <[k := f (default uninit o)]> (to_map ht) ∧ opt ht2 = opt ht
        ∧ room_step ht ht2
        ∧ freed ht2 = freed ht ++ (if opt_freefn (opt ht) then option_list o else [])
  end.
Proof.
  intros Ha [Hw Hc] Hs Hf. pose proof (wf_size _ Hw).
  destruct (to_map ht !! k) as [kv|] eqn:Em; [destruct update|].
  - pose proof (bucket_find_spec ht k Hw) as Hb. unfold reserve_kv.
    destruct (bucket_find _ _ _ _) as [[j kv']|]; [|congruence].
    destruct Hb as (Hj & Hk & Em'). rewrite Em in Em'. injection Em' as <-.
    destruct (freefn_eq ht kv) as (Ht & Ho & Hsz & Hcn & Hpi & Hfr).
    eexists _, _. split; [done|]. split; [done|].
    assert (bucketfn (freefn ht kv) k = bucketfn ht k) as Eb by (unfold bucketfn, hashfn; by rewrite Ho, Hsz).
    destruct (alter_slot_spec (freefn ht kv) k j kv f) as (Hw2 & Hm2 & Ho2 & Hs2 & Hc2 & Hf2);
      [by apply freefn_wf| |done|apply Hf|..].
    { unfold bucket_at. rewrite Ht, Eb. done. }
    { unfold kv_ok, calcsize_key. rewrite Ho. apply Hf. }
    rewrite Eb in *.
    destruct (check_growing_map n alloc _ Ha Hw2) as (Hw3 & Hm3 & Hf3 & Ho3 & Hc3 & Hz3); [lia..|].
    cbv zeta. split_and!; [done| |by congruence|unfold room_step; lia|].
    + by rewrite Hm3, Hm2, wf_freefn_map.
    + rewrite Hf3, Hf2, Hfr. done.
  - pose proof (bucket_find_spec ht k Hw) as Hb. unfold reserve_kv.
    destruct (bucket_find _ _ _ _) as [[j kv']|]; [done|congruence].
  - destruct (Hf uninit) as [Hk Hok].
    destruct (reserve_fresh alloc ht k update f) as (slot & ht1 & E & Ho1 & Hw2 & Hs2 & Ho2 & Hf2 & _ & Hc2 & Hp2);
      [done|done|lia|done..|].
    assert (∃ slot ht1, reserve_kv alloc ht k (calcsize_key ht k) update = (Some slot, ht1)
      ∧ opt ht1 = opt ht
      ∧ let ht2 := check_growing (S n) alloc (alter_slot ht1 slot f) in
        wf ht2 ∧ to_map ht2 = <[k := f uninit]> (to_map ht) ∧ opt ht2 = opt ht
        ∧ room_step ht ht2
        ∧ freed ht2 = freed ht ++ (if opt_freefn (opt ht) then [] else [])) as Hgoal; [|by destruct update].
    exists slot, ht1. split_and!; [done|done|].
    destruct (check_growing_map n alloc _ Ha Hw2) as (Hw3 & Hm3 & Hf3 & Ho3 & Hc3 & Hz3); [lia..|].
    cbv zeta. split_and!; [done| |by congruence|unfold room_step; lia|].
    + rewrite Hm3, (map_of_cons _ _ _ Hw2 Hp2), Hk. done.
    + rewrite Hf3, Hf2. destruct (opt_freefn (opt ht)); by rewrite app_nil_r.
Qed.

(** The entry [insert_update] writes; [old] is what the slot held. *)
Definition new_kv ht k v (old : kv_t) : kv_t :=
  mkKv k (dupval ht v) (calcsize_key ht k) (calcsize_val ht v) (ext old).

Lemma insert_update_spec alloc ht k v update :
  (∀ n, alloc n = true) → wf ht → size ht < 2 ^ 31 →
  match to_map ht !! k, update with
  | Some _, false => insert_update alloc ht k v update = (false, ht)
  | o, _ => ∃ ht', insert_update alloc ht k v update = (true, ht') ∧ wf ht'
      ∧ to_map ht' = <[k := new_kv ht k v (default uninit o)]> (to_map ht) ∧ opt ht' = opt ht
      ∧ room_step ht ht'
      ∧ freed ht' = freed ht ++ (if opt_freefn (opt ht) then option_list o else [])
  end.
Proof.
  intros Ha Hw Hs. pose proof (wf_keyok _ (proj1 Hw)) as Hko.
  pose proof (reserve_write_spec 63 alloc ht k update (new_kv ht k v) Ha Hw Hs) as Hr.
  assert (∀ ht1, opt ht1 = opt ht → (λ kv, mkKv (dupkey ht1 k) (dupval ht1 v) (calcsize_key ht k) (calcsize_val ht1 v) (ext kv))
    = new_kv ht k v) as Hnew.
  { intros ht1 Ho. unfold new_kv, dupkey, dupval, calcsize_val. by rewrite Ho, key_dup. }
  assert (∀ slot ht1, reserve_kv alloc ht k (calcsize_key ht k) update = (Some slot, ht1) → opt ht1 = opt ht →
    insert_update alloc ht k v update = (true, check_growing 64 alloc (alter_slot ht1 slot (new_kv ht k v)))) as Hins.
  { intros slot ht1 E Ho. unfold insert_update. by rewrite E, Hnew. }
  destruct (to_map ht !! k) as [kv|] eqn:Em, update;
    try (destruct Hr as (slot & ht1 & E & Ho & Hrest); [done|]; eexists; split; [by apply Hins|done]).
  unfold insert_update. by rewrite Hr.
Qed.

Lemma insert_kv_spec alloc ht kv update :
  (∀ n, alloc n = true) → wf ht → size ht < 2 ^ 31 → kv_ok ht kv →
  match to_map ht !! key kv, update with
  | Some _, false => ht_insert_kv alloc ht kv update = (false, ht)
  | o, _ => ∃ ht', ht_insert_kv alloc ht kv update = (true, ht') ∧ wf ht'
      ∧ to_map ht' = <[key kv := kv]> (to_map ht) ∧ opt ht' = opt ht
      ∧ room_step ht ht'
      ∧ freed ht' = freed ht ++ (if opt_freefn (opt ht) then option_list o else [])
  end.
Proof.
  intros Ha Hw Hs Hok.
  pose proof (reserve_write_spec 63 alloc ht (key kv) update (λ _, kv) Ha Hw Hs) as Hr.
  assert (∀ slot ht1, reserve_kv alloc ht (key kv) (calcsize_key ht (key kv)) update = (Some slot, ht1) →
    ht_insert_kv alloc ht kv update = (true, check_growing 64 alloc (alter_slot ht1 slot (λ _, kv)))) as Hins.
  { intros slot ht1 E. unfold ht_insert_kv, insert_kv_with. by rewrite Hok, E. }
  destruct (to_map ht !! key kv) as [kv0|] eqn:Em, update;
    try (destruct Hr as (slot & ht1 & E & Ho & Hrest); [done|]; eexists; split; [by apply Hins|done]).
  unfold ht_insert_kv, insert_kv_with. by rewrite Hok, Hr.
Qed.

Lemma freefn_remove ht k j kv kv' :
  wf ht → arr (bucket_at ht (bucketfn ht k)) !! j = Some kv → key kv = k →
  let ht' := remove_at (freefn ht kv') (bucketfn ht k) j in
  wf ht' ∧ to_map ht' = delete k (to_map ht) ∧ opt ht' = opt ht ∧ size ht' = size ht ∧ count ht' = count ht - 1
  ∧ freed ht' = freed ht ++ (if opt_freefn (opt ht) then [kv'] else []).
Proof.
  intros [Hw Hc] Hj Hk. destruct (freefn_eq ht kv') as (Ht & Ho & Hsz & Hcn & _ & Hfr).
  assert (bucketfn (freefn ht kv') k = bucketfn ht k) as Eb by (unfold bucketfn, hashfn; by rewrite Ho, Hsz).
  destruct (remove_at_spec (freefn ht kv') k j kv) as (Hw' & Hm' & Ho' & Hs' & Hc' & Hf'); [by apply freefn_wf| |done|].
  { unfold bucket_at. by rewrite Ht, Eb. }
  rewrite Eb in *. cbv zeta. split_and!; [split; [done|lia]| |congruence|congruence|lia|congruence].
  by rewrite Hm', wf_freefn_map.
Qed.

Lemma delete_spec ht k :
  wf ht →
  match to_map ht !! k with
  | None => ht_delete ht k = (false, ht)
  | Some kv => ∃ ht', ht_delete ht k = (true, ht') ∧ wf ht' ∧ to_map ht' = delete k (to_map ht)
      ∧ opt ht' = opt ht ∧ size ht' = size ht ∧ count ht' = count ht - 1
      ∧ freed ht' = freed ht ++ (if opt_freefn (opt ht) then [kv] else [])
  end.
Proof.
  intros Hw. pose proof (bucket_find_spec ht k (proj1 Hw)) as Hb. unfold ht_delete.
  destruct (bucket_find _ _ _ _) as [[j kv]|]; [destruct Hb as (Hj & Hk & ->)|by rewrite Hb].
  eexists; split; [done|]. by eapply freefn_remove.
Qed.

(** Moving the value of [old] to the free key [new]. *)
Lemma update_key_spec alloc ht old new :
  (∀ n, alloc n = true) → wf ht → size ht < 2 ^ 31 →
  match to_map ht !! old, to_map ht !! new with
  | Some kv, None => ∃ ht', ht_update_key alloc ht old new = (true, ht') ∧ wf ht'
      ∧ to_map ht' = <[new := new_kv ht new (value kv) uninit]> (delete old (to_map ht)) ∧ opt ht' = opt ht
      ∧ room_step ht ht'
      ∧ freed ht' = freed ht ++ (if opt_freefn (opt ht) then
          [match opt_dupvalue (opt ht) with
           | Some _ => kv | None => mkKv (key kv) HT_NULL_VALUE (key_len kv) 0 (ext kv) end] else [])
  | _, _ => ht_update_key alloc ht old new = (false, ht)
  end.
Proof.
  intros Ha Hw Hs. unfold ht_update_key, ht_find. rewrite find_kv_spec by apply Hw.
  destruct (to_map ht !! old) as [kv|] eqn:Eo; [|done].
  pose proof (insert_update_spec alloc ht new (value kv) false Ha Hw Hs) as Hi.
  destruct (to_map ht !! new) as [kv2|] eqn:En; [by rewrite Hi|].
  destruct Hi as (ht1 & -> & Hw1 & Hm1 & Ho1 & Hr1 & Hf1). assert (old ≠ new) by congruence.
  pose proof (bucket_find_spec ht1 old (proj1 Hw1)) as Hb.
  rewrite Hm1, lookup_insert_ne, Eo in Hb by done.
  destruct (bucket_find _ _ _ _) as [[j kv']|]; [|done]. destruct Hb as (Hj & Hk & [= <-]).
  eexists; split; [done|].
  match goal with |- context [freefn ht1 ?x] =>
    destruct (freefn_remove ht1 old j kv x Hw1 Hj Hk) as (Hw2 & Hm2 & Ho2 & Hs2 & Hc2 & Hf2) end.
  split_and!; [done| |congruence|unfold room_step in *; lia|].
  - rewrite Hm2, Hm1. by rewrite delete_insert_ne.
  - rewrite Hf2, Hf1, Ho1; cbn. destruct (opt_freefn (opt ht)); by rewrite app_nil_r.
Qed.

(** The table sizes for a requested number of entries. *)
Lemma new_size_loop_spec l i n :
  let r := new_size_loop l i n in
  i <= r <= i + Z.of_nat (length l)
  ∧ (∀ p, i + Z.of_nat (length l) ≠ r → l !! Z.to_nat (r - i) = Some p → n <= p)
  ∧ (∀ j p, (Z.of_nat j < r - i) → l !! j = Some p → p < n).
Proof.
  revert i. induction l as [|p l IH]; intros i; cbn -[Z.of_nat]; [split_and!; [lia|intros; lia..]|].
  unfold LOAD_FACTOR. rewrite Z.mul_1_r. case_if; zbool.
  - destruct (IH (i + 1)) as (Hr & H1 & H2). split_and!; [lia|lia|..].
    + intros q Hne Hl. apply H1; [lia|]. rewrite <- Hl.
      replace (Z.to_nat (new_size_loop l (i + 1) n - i)) with (S (Z.to_nat (new_size_loop l (i + 1) n - (i + 1)))) by lia.
      done.
    + intros [|j] q Hj Hl; cbn in Hl; [congruence|]. apply (H2 j); [lia|done].
  - split_and!; [lia|lia|..].
    + intros q _ Hl. rewrite Z.sub_diag in Hl. cbn in Hl. injection Hl as <-. lia.
    + intros; lia.
Qed.
End facts.
