(* ===== verification/HashTables.v ===== *)
(** * The instances of the hash table and its clients: src/src/ht_pp.c,
    src/src/ht_up.c, src/src/ht.c and src/src/set.c

    The constructors of HtPP (string keys) and HtUP (64-bit keys), the table of
    [SdbKv] entries the database uses, the contract of a table as a class
    ([TableLaws]) with the proof that [Ht] meets it, and the sets, which are
    verified against that contract only.

    A [void *] value is an [option]: [None] is NULL, and [Some] what is pointed to. *)

From S2P Require Import Prelude Util Ht.

(** ** Operation sequences refine a finite map *)

Inductive ht_op (K V : Type) :=
| OpInsert (k : K) (v : V)
| OpUpdate (k : K) (v : V)
| OpDelete (k : K)
| OpUpdateKey (old new : K)
| OpFind (k : K).
Arguments OpInsert {K V}.
Arguments OpUpdate {K V}.
Arguments OpDelete {K V}.
Arguments OpUpdateKey {K V}.
Arguments OpFind {K V}.

(** What a call answers: its flag, and the value for a lookup. *)
Abbreviation answer V := (bool * V)%type (only parsing).

Section runs.
Context {K V X : Type} `{!HtTypes K V X} `{Countable K}.
Implicit Types (ht : Ht K V X) (m : gmap K V) (o : ht_op K V).

Definition ht_step (alloc : Z → bool) ht o : answer V * Ht K V X :=
  match o with
  | OpInsert k v => let '(r, ht) := ht_insert alloc ht k v in ((r, HT_NULL_VALUE), ht)
  | OpUpdate k v => let '(r, ht) := ht_update alloc ht k v in ((r, HT_NULL_VALUE), ht)
  | OpDelete k => let '(r, ht) := ht_delete ht k in ((r, HT_NULL_VALUE), ht)
  | OpUpdateKey old new => let '(r, ht) := ht_update_key alloc ht old new in ((r, HT_NULL_VALUE), ht)
  | OpFind k => let '(v, found) := ht_find ht k in ((found, v), ht)
  end.

(** The same calls on a finite map. *)
Definition map_step (null : V) m o : answer V * gmap K V :=
  match o with
  | OpInsert k v =>
      match m !! k with Some _ => ((false, null), m) | None => ((true, null), <[k := v]> m) end
  | OpUpdate k v => ((true, null), <[k := v]> m)
  | OpDelete k =>
      match m !! k with Some _ => ((true, null), delete k m) | None => ((false, null), m) end
  | OpUpdateKey old new =>
      match m !! old, m !! new with
      | Some v, None => ((true, null), <[new := v]> (delete old m))
      | _, _ => ((false, null), m)
      end
  | OpFind k => (match m !! k with Some v => (true, v) | None => (false, null) end, m)
  end.

Fixpoint run {S} (step : S → ht_op K V → answer V * S) (s : S) (ops : list (ht_op K V)) : list (answer V) * S :=
  match ops with
  | [] => ([], s)
  | o :: ops' =>
      let '(r, s) := step s o in
      let '(rs, s) := run step s ops' in
      (r :: rs, s)
  end.

Definition contents ht : gmap K V := value <$> to_map ht.

(** The table is in order, copies values faithfully and can take [n] more
    insertions before its size leaves the range where doubling is exact. *)
Record ht_inv (n : nat) ht : Prop := {
  inv_wf : wf ht;
  inv_dup : ∀ v, dupval ht v = v;
  inv_size : size ht < 2 ^ 31;
  inv_room : 2 * (count ht + Z.of_nat n) + 1 < 2 ^ 31
}.

Lemma dupval_opt ht ht' v : opt ht' = opt ht → dupval ht' v = dupval ht v.
Proof. unfold dupval. by intros ->. Qed.

Lemma ht_inv_step n ht ht' :
  ht_inv (S n) ht → wf ht' → opt ht' = opt ht → room_step ht ht' → ht_inv n ht'.
Proof.
  intros [Hw Hd Hs Hr] Hw' Ho [Hc Hz]. split; [done| |lia..].
  intros v. by rewrite (dupval_opt ht ht').
Qed.

Lemma ht_inv_le n n' ht : (n' <= n)%nat → ht_inv n ht → ht_inv n' ht.
Proof. intros Hn [Hw Hd Hs Hr]. split; [exact Hw|exact Hd|lia|lia]. Qed.

Lemma ht_inv_S n ht : ht_inv (S n) ht → ht_inv n ht.
Proof. apply ht_inv_le. lia. Qed.

Lemma contents_lookup ht k : contents ht !! k = value <$> to_map ht !! k.
Proof. apply lookup_fmap. Qed.

Lemma contents_insert ht ht' k kv :
  to_map ht' = <[k := kv]> (to_map ht) → contents ht' = <[k := value kv]> (contents ht).
Proof. unfold contents. intros ->. by rewrite fmap_insert. Qed.

Lemma contents_delete ht ht' k :
  to_map ht' = delete k (to_map ht) → contents ht' = delete k (contents ht).
Proof. unfold contents. intros ->. by rewrite fmap_delete. Qed.

Lemma insert_update_contents alloc n ht k v update :
  (∀ n, alloc n = true) → ht_inv (S n) ht →
  let '(r, ht') := insert_update alloc ht k v update in
  let fresh := match contents ht !! k with None => true | Some _ => update end in
  ht_inv n ht' ∧ r = fresh ∧ contents ht' = if fresh then <[k := v]> (contents ht) else contents ht.
Proof.
  intros Ha Hi. pose proof (insert_update_spec alloc ht k v update Ha (inv_wf _ _ Hi) (inv_size _ _ Hi)) as Hu.
  assert (∀ o : option (Kv K V X), (∃ ht' : Ht K V X, insert_update alloc ht k v update = (true, ht') ∧ wf ht'
      ∧ to_map ht' = <[k := new_kv ht k v (default uninit o)]> (to_map ht) ∧ opt ht' = opt ht ∧ room_step ht ht'
      ∧ freed ht' = freed ht ++ (if opt_freefn (opt ht) then option_list o else [])) →
    let '(r, ht') := insert_update alloc ht k v update in
    ht_inv n ht' ∧ r = true ∧ contents ht' = <[k := v]> (contents ht)) as Hgo.
  { intros o (ht' & -> & Hw & Hm & Ho & Hr & _). split_and!; [by eapply ht_inv_step|done|].
    rewrite (contents_insert _ _ _ _ Hm); cbn. by rewrite (inv_dup _ _ Hi). }
  rewrite contents_lookup.
  destruct (to_map ht !! k) as [kv|] eqn:Em; cbn; [destruct update|].
  - apply (Hgo _ Hu).
  - rewrite Hu. split_and!; [by apply ht_inv_S|done..].
  - destruct update; apply (Hgo _ Hu).
Qed.

Lemma delete_contents n ht k :
  ht_inv n ht →
  let '(r, ht') := ht_delete ht k in
  ht_inv n ht' ∧ r = (match contents ht !! k with Some _ => true | None => false end) ∧ contents ht' = delete k (contents ht).
Proof.
  intros Hi. pose proof (delete_spec ht k (inv_wf _ _ Hi)) as Hd. rewrite contents_lookup.
  destruct (to_map ht !! k) as [kv|] eqn:Em; cbn.
  - destruct Hd as (ht' & -> & Hw & Hm & Ho & Hs & Hc & _). split_and!; [|done|by apply contents_delete].
    destruct Hi as [_ Hv Hz Hr]. split; [done| |lia..]. intros v. by rewrite (dupval_opt ht ht').
  - rewrite Hd. split_and!; [done|done|]. rewrite delete_id; [done|]. by rewrite contents_lookup, Em.
Qed.

Lemma find_contents n ht k :
  ht_inv n ht → ht_find ht k = match contents ht !! k with Some v => (v, true) | None => (HT_NULL_VALUE, false) end.
Proof.
  intros Hi. unfold ht_find. rewrite find_kv_spec by apply (inv_wf _ _ Hi).
  rewrite contents_lookup. by destruct (to_map ht !! k).
Qed.

Lemma update_key_contents alloc n ht old new :
  (∀ n, alloc n = true) → ht_inv (S n) ht →
  let '(r, ht') := ht_update_key alloc ht old new in
  ht_inv n ht' ∧ match contents ht !! old, contents ht !! new with
  | Some v, None => r = true ∧ contents ht' = <[new := v]> (delete old (contents ht))
  | _, _ => r = false ∧ contents ht' = contents ht
  end.
Proof.
  intros Ha Hi. pose proof (update_key_spec alloc ht old new Ha (inv_wf _ _ Hi) (inv_size _ _ Hi)) as Hu.
  rewrite !contents_lookup.
  destruct (to_map ht !! old) as [kv|], (to_map ht !! new) as [kv'|]; cbn;
    try (rewrite Hu; split; [by apply ht_inv_S|done]).
  destruct Hu as (ht' & -> & Hw & Hm & Ho & Hr & _). split_and!; [by eapply ht_inv_step|done|].
  unfold contents. rewrite Hm, fmap_insert, fmap_delete; cbn. by rewrite (inv_dup _ _ Hi).
Qed.

Lemma ht_step_refines alloc n ht o :
  (∀ n, alloc n = true) → ht_inv (S n) ht →
  let '(r, ht') := ht_step alloc ht o in
  ht_inv n ht' ∧ map_step HT_NULL_VALUE (contents ht) o = (r, contents ht').
Proof.
  intros Ha Hi. destruct o as [k v|k v|k|old new|k]; cbn [ht_step map_step].
  - unfold ht_insert. pose proof (insert_update_contents alloc n ht k v false Ha Hi) as Hu.
    destruct (insert_update _ _ _ _ _) as [r ht']. destruct Hu as (? & -> & ->). split; [done|].
    by destruct (contents ht !! k).
  - unfold ht_update. pose proof (insert_update_contents alloc n ht k v true Ha Hi) as Hu.
    destruct (insert_update _ _ _ _ _) as [r ht']. destruct Hu as (? & -> & ->). split; [done|].
    by destruct (contents ht !! k).
  - pose proof (delete_contents n ht k (ht_inv_S _ _ Hi)) as Hu. destruct (ht_delete ht k) as [r ht'].
    destruct Hu as (? & -> & ->). split; [done|]. destruct (contents ht !! k) eqn:E; [done|]. by rewrite delete_id.
  - pose proof (update_key_contents alloc n ht old new Ha Hi) as Hu. destruct (ht_update_key _ _ _ _) as [r ht'].
    destruct Hu as (? & Hu). split; [done|].
    destruct (contents ht !! old), (contents ht !! new); by destruct Hu as [-> ->].
  - rewrite (find_contents _ _ _ Hi). destruct (contents ht !! k); (split; [by apply ht_inv_S|done]).
Qed.

Lemma ht_run_refines alloc ops ht :
  (∀ n, alloc n = true) → ht_inv (length ops) ht →
  let '(rs, ht') := run (ht_step alloc) ht ops in
  ht_inv 0 ht' ∧ run (map_step HT_NULL_VALUE) (contents ht) ops = (rs, contents ht').
Proof.
  intros Ha. revert ht. induction ops as [|o ops IH]; intros ht Hi; cbn; [done|].
  pose proof (ht_step_refines alloc (length ops) ht o Ha Hi) as Hs.
  destruct (ht_step alloc ht o) as [r ht1]. destruct Hs as [Hi1 ->].
  specialize (IH ht1 Hi1). destruct (run (ht_step alloc) ht1 ops) as [rs ht2].
  destruct IH as [? ->]. done.
Qed.
End runs.

(** ** HtPP: strings as keys *)

Section pp.
Context {A X : Type} `{Inhabited X}.

(** A key is identified with the string it points to; [KEY_TO_HASH], the address of
    a key, is not reached because [hashfn] is set in every table built here. *)
#[global] Instance HtPP_types : HtTypes bytes (option A) X := {
  KEY_TO_HASH := λ _, 0;
  HT_NULL_VALUE := None;
  ptr_eqb k k' := bool_decide (k = k');
  uninit := mkKv [] None 0 0 inhabitant
}.

Definition ht_pp_options (valdup : option (option A → option A)) (pair_free : bool)
    (calcsizeV : option (option A → Z)) : Options bytes (option A) :=
  mkOptions (Some strcmp) (Some sdb_hash) (Some id) valdup (Some (λ k, u32 (slen k))) calcsizeV pair_free SIZEOF_KV.

Definition ht_pp_new (alloc : Z → bool) valdup pair_free calcsizeV : option (Ht bytes (option A) X) :=
  internal_ht_new alloc (prime_at 0) 0 (ht_pp_options valdup pair_free calcsizeV).

(** Frees the keys only ([free_kv_key]). *)
Definition ht_pp_new0 (alloc : Z → bool) : option (Ht bytes (option A) X) := ht_pp_new alloc None true None.

Definition ht_pp_new_size (alloc : Z → bool) (initial_size : Z) valdup pair_free calcsizeV
    : option (Ht bytes (option A) X) :=
  ht_new_size alloc initial_size (ht_pp_options valdup pair_free calcsizeV).

#[global] Instance ht_pp_keyok valdup fr calcsizeV : KeyOk (ht_pp_options valdup fr calcsizeV).
Proof.
  split; [|done]. intros k k'; cbn. rewrite orb_true_iff, bool_decide_eq_true, Z.eqb_eq, strcmp_eq. naive_solver.
Qed.
End pp.

(** ** HtUP: 64-bit integers as keys *)

Section up.
Context {A X : Type} `{Inhabited X}.

#[global] Instance HtUP_types : HtTypes Z (option A) X := {
  KEY_TO_HASH := u32;
  HT_NULL_VALUE := None;
  ptr_eqb := Z.eqb;
  uninit := mkKv 0 None 0 0 inhabitant
}.

Definition ht_up_options (valdup : option (option A → option A)) (pair_free : bool)
    (calcsizeV : option (option A → Z)) : Options Z (option A) :=
  mkOptions None None None valdup None calcsizeV pair_free SIZEOF_KV.

Definition ht_up_new (alloc : Z → bool) valdup pair_free calcsizeV : option (Ht Z (option A) X) :=
  internal_ht_new alloc (prime_at 0) 0 (ht_up_options valdup pair_free calcsizeV).

Definition ht_up_new0 (alloc : Z → bool) : option (Ht Z (option A) X) := ht_up_new alloc None false None.

Definition ht_up_new_size (alloc : Z → bool) (initial_size : Z) valdup pair_free calcsizeV
    : option (Ht Z (option A) X) :=
  ht_new_size alloc initial_size (ht_up_options valdup pair_free calcsizeV).

#[global] Instance ht_up_keyok valdup fr calcsizeV : KeyOk (ht_up_options valdup fr calcsizeV).
Proof. split; [|done]. intros k k'; cbn. rewrite orb_false_r. apply Z.eqb_eq. Qed.
End up.

(** A table made for [initial_size] entries has at least as many buckets. *)
Lemma new_size_spec {K V X} `{!HtTypes K V X} `{Countable K} alloc n (o : Options K V) :
  (∀ n, alloc n = true) → KeyOk o → opt_elem_size o ≠ 0 → 0 < n < 2 ^ 31 →
  ∃ ht : Ht K V X, ht_new_size alloc n o = Some ht ∧ wf ht ∧ contents ht = ∅ ∧ n <= size ht < 2 ^ 32 ∧ opt ht = o.
Proof.
  intros Ha Hk He Hn. unfold ht_new_size, LOAD_FACTOR. change (2 - 1) with 1. rewrite Z.mul_1_r.
  rewrite (u32_small n) by (unfold is_u32; lia).
  destruct (new_size_loop_spec ht_primes_sizes 0 n) as (Hr & Hp & _). fold n_primes in *.
  set (i := new_size_loop ht_primes_sizes 0 n) in *. rewrite Z.sub_0_r, Z.add_0_l in *.
  set (idx := if i =? n_primes then UT32_MAX else i).
  assert (n <= compute_size idx n < 2 ^ 32 ∧ (idx = UT32_MAX ∨ (0 <= idx < n_primes ∧ compute_size idx n = prime_at idx)))
    as [Hsz Hidx].
  { unfold idx, compute_size. destruct (i =? n_primes) eqn:E; zbool.
    - rewrite Z.eqb_refl; cbn [negb andb]. pose proof (lor_1_range n ltac:(lia)). split; [lia|by left].
    - assert (0 <= i < n_primes) as Hi by lia.
      rewrite (proj2 (Z.eqb_neq i UT32_MAX)) by (unfold n_primes, UT32_MAX in *; cbn in *; lia).
      rewrite (proj2 (Z.ltb_lt i n_primes)) by lia. cbn [negb andb].
      pose proof (prime_at_range i Hi). split; [|by right]. split; [|lia].
      unfold prime_at. destruct (lookup_lt_is_Some_2 ht_primes_sizes (Z.to_nat i)) as [p Hl];
        [unfold n_primes in Hi; lia|]. rewrite Hl; cbn. apply (Hp p); [lia|done]. }
  destruct (internal_ht_new_spec alloc (compute_size idx n) idx o Ha Hk He) as (ht & -> & Hw & Hkv & Hs & Ho & _);
    [lia|done|].
  exists ht. split_and!; [done|done| |lia|lia|done]. unfold contents, to_map. by rewrite Hkv.
Qed.

(** A new table is empty and good for any sequence of fewer than 2^30 - 1 calls. *)
Lemma internal_new_inv {K V X} `{!HtTypes K V X} `{Countable K} alloc (o : Options K V) n :
  (∀ n, alloc n = true) → KeyOk o → opt_elem_size o ≠ 0 →
  (∀ v, match opt_dupvalue o with Some f => f v | None => v end = v) → 2 * Z.of_nat n + 1 < 2 ^ 31 →
  ∃ ht : Ht K V X, internal_ht_new alloc (prime_at 0) 0 o = Some ht ∧ ht_inv n ht ∧ contents ht = ∅
    ∧ opt ht = o ∧ freed ht = [].
Proof.
  intros Ha Hk He Hd Hn.
  destruct (internal_ht_new_spec alloc (prime_at 0) 0 o Ha Hk He) as (ht & -> & Hw & Hkv & Hs & Ho & Hc & Hf);
    [done|by right|].
  exists ht. split_and!; [done| | |done..].
  - split; [done| |by rewrite Hs|rewrite Hc; lia]. intros v. unfold dupval. by rewrite Ho.
  - unfold contents, to_map. by rewrite Hkv.
Qed.

(** ** The database's table of [SdbKv]: src/src/ht.c *)

Record SdbExt := mkExt { cas : Z; expire : Z }.
#[global] Instance SdbExt_inhabited : Inhabited SdbExt := populate (mkExt 0 0).
Abbreviation SdbKv := (Kv bytes (option bytes) SdbExt).
Abbreviation SdbHt := (Ht bytes (option bytes) SdbExt).

Definition SIZEOF_SDBKV : Z := 40.

Definition sdb_ht_options : Options bytes (option bytes) :=
  let o := ht_pp_options (Some id) true (Some (λ v, u32 (slen (default [] v)))) in
  mkOptions (opt_cmp o) (opt_hashfn o) (opt_dupkey o) (opt_dupvalue o) (opt_calcsizeK o) (opt_calcsizeV o)
            (opt_freefn o) SIZEOF_SDBKV.

Definition sdb_ht_new (alloc : Z → bool) : option SdbHt :=
  match ht_pp_new alloc (Some id) true (Some (λ v, u32 (slen (default [] v)))) with
  | Some ht => Some (mkHt (table ht) sdb_ht_options (size ht) (count ht) (prime_idx ht) (freed ht))
  | None => None
  end.

Definition sdb_ht_internal_insert (alloc : Z → bool) (oht : option SdbHt) (key value : option bytes) (update : bool)
    : bool * option SdbHt :=
  match oht, key, value with
  | Some ht, Some ((c :: k') as k), Some v =>
      if alloc (slen k + 1) && alloc (slen v + 1) then
        let kvp := mkKv k (Some v) (u32 (slen k)) (u32 (slen v)) (mkExt 0 0) in
        let '(r, ht) := ht_insert_kv alloc ht kvp update in (r, Some ht)
      else (false, oht)
  | _, _, _ => (false, oht)
  end.

Definition sdb_ht_insert alloc oht key value := sdb_ht_internal_insert alloc oht key value false.
Definition sdb_ht_update alloc oht key value := sdb_ht_internal_insert alloc oht key value true.
Definition sdb_ht_insert_kvp alloc (ht : SdbHt) (kvp : SdbKv) (update : bool) : bool * SdbHt :=
  ht_insert_kv alloc ht kvp update.
Definition sdb_ht_find_kvp (oht : option SdbHt) (key : bytes) : option SdbKv := ht_find_kv oht key.
Definition sdb_ht_find (ht : SdbHt) (key : bytes) : option bytes * bool := ht_find ht key.
Definition sdb_ht_delete (ht : SdbHt) (key : bytes) : bool * SdbHt := ht_delete ht key.

#[global] Instance sdb_ht_keyok : KeyOk (X := SdbExt) sdb_ht_options.
Proof. destruct (ht_pp_keyok (A := bytes) (X := SdbExt) (Some id) true None) as [Hk Hd]. by split. Qed.

(** The invariant of the database's table: in order, with the options of
    [sdb_ht_new] and room for [n] more insertions. *)
Definition sdb_ht_inv (n : nat) (ht : SdbHt) : Prop := ht_inv n ht ∧ opt ht = sdb_ht_options.

Lemma sdb_ht_new_spec alloc n :
  (∀ n, alloc n = true) → 2 * Z.of_nat n + 1 < 2 ^ 31 →
  ∃ ht, sdb_ht_new alloc = Some ht ∧ sdb_ht_inv n ht ∧ to_map ht = ∅ ∧ freed ht = [].
Proof.
  intros Ha Hn. destruct (internal_new_inv (X := SdbExt) alloc sdb_ht_options n Ha) as (ht & E & Hi & Hc & Ho & Hf);
    [apply sdb_ht_keyok|done|done|done|].
  exists ht. split_and!; [|by split|by apply (fmap_empty_iff value) in Hc|done].
  unfold sdb_ht_new, ht_pp_new. unfold internal_ht_new in *. rewrite !Ha in *; cbn [andb] in *.
  injection E as <-. done.
Qed.

Definition kv_keyed (kv : SdbKv) : Prop := key_len kv = u32 (slen (key kv)).

Lemma sdb_ht_insert_kvp_spec alloc n ht kvp update :
  (∀ n, alloc n = true) → sdb_ht_inv (S n) ht → kv_keyed kvp →
  let '(r, ht') := sdb_ht_insert_kvp alloc ht kvp update in
  sdb_ht_inv n ht' ∧ (match to_map ht !! key kvp, update with
  | Some _, false => r = false ∧ ht' = ht
  | o, _ => r = true ∧ to_map ht' = <[key kvp := kvp]> (to_map ht) ∧ freed ht' = freed ht ++ option_list o
  end).
Proof.
  intros Ha [Hi Ho] Hk.
  pose proof (insert_kv_spec alloc ht kvp update Ha (inv_wf _ _ Hi) (inv_size _ _ Hi)) as Hs.
  unfold kv_ok, calcsize_key in Hs. rewrite Ho in Hs. specialize (Hs Hk). unfold sdb_ht_insert_kvp.
  destruct (to_map ht !! key kvp) as [kv|], update; cbn in Hs;
    try (destruct Hs as (ht' & -> & Hw & Hm & Ho' & Hr & Hf);
      split; [split; [by eapply ht_inv_step; [..|rewrite Ho|]|congruence]|done]).
  rewrite Hs. by split; [split; [apply ht_inv_S|]|].
Qed.

Lemma sdb_ht_delete_spec n ht k :
  sdb_ht_inv n ht →
  let '(r, ht') := sdb_ht_delete ht k in
  sdb_ht_inv n ht' ∧ to_map ht' = delete k (to_map ht)
  ∧ r = (match to_map ht !! k with Some _ => true | None => false end)
  ∧ freed ht' = freed ht ++ option_list (to_map ht !! k).
Proof.
  intros [Hi Ho]. pose proof (delete_contents n ht k Hi) as Hc. pose proof (delete_spec ht k (inv_wf _ _ Hi)) as Hd.
  unfold sdb_ht_delete. destruct (to_map ht !! k) as [kv|] eqn:Em.
  - destruct Hd as (ht' & E & Hw & Hm & Ho' & _ & _ & Hf). rewrite E in *. destruct Hc as [Hi' _].
    rewrite Ho in Hf, Ho'. done.
  - rewrite Hd in *. split_and!; [by split|by rewrite delete_id|done|]. cbn. by rewrite app_nil_r.
Qed.

Lemma sdb_ht_find_kvp_spec n ht k : sdb_ht_inv n ht → sdb_ht_find_kvp (Some ht) k = to_map ht !! k.
Proof. intros [Hi _]. apply find_kv_spec, (inv_wf _ _ Hi). Qed.

(** The entries of a table are those of its map, whatever their order. *)
Lemma kvs_map_to_list {K V X} `{!HtTypes K V X} `{Countable K} (ht : Ht K V X) :
  wf_core ht → kvs ht ≡ₚ (map_to_list (to_map ht)).*2.
Proof.
  intros Hw. unfold to_map, map_of. rewrite map_to_list_to_map.
  - rewrite <- list_fmap_compose. cbn. by rewrite list_fmap_id.
  - rewrite <- list_fmap_compose. apply (wf_nodup_kvs ht Hw).
Qed.

(** ** The contract of a table, for its clients *)

Class TableOps (K A T : Type) := {
  t_insert : T → K → option A → bool * T;
  t_find : T → K → option A;
  t_delete : T → K → bool * T;
  t_foreach : ∀ {U}, (U → K → option A → bool * U) → T → U → U
}.

(** Visiting pairs in order until the callback says stop. *)
Fixpoint visit {K V U} (cb : U → K → V → bool * U) (l : list (K * V)) (u : U) : U :=
  match l with
  | [] => u
  | (k, v) :: l' => match cb u k v with (true, u) => visit cb l' u | (false, u) => u end
  end.

Class TableLaws (K A T : Type) `{Countable K} `{!TableOps K A T} := {
  t_map : T → gmap K (option A);
  t_inv : nat → T → Prop;
  t_inv_S : ∀ n t, t_inv (S n) t → t_inv n t;
  t_insert_spec : ∀ n t k v, t_inv (S n) t →
    t_inv n (t_insert t k v).2
    ∧ t_map (t_insert t k v).2 = match t_map t !! k with Some _ => t_map t | None => <[k := v]> (t_map t) end;
  t_find_spec : ∀ n t k, t_inv n t → t_find t k = t_map t !! k ≫= id;
  t_delete_spec : ∀ n t k, t_inv n t → t_inv n (t_delete t k).2 ∧ t_map (t_delete t k).2 = delete k (t_map t);
  t_foreach_spec : ∀ n t, t_inv n t →
    ∃ l, l ≡ₚ map_to_list (t_map t) ∧ ∀ U (cb : U → K → option A → bool * U) u, t_foreach cb t u = visit cb l u
}.

Section ht_table.
Context {K A X : Type} `{Countable K} `{!HtTypes K (option A) X}.

#[global] Instance ht_table_ops : TableOps K A (Ht K (option A) X) := {
  t_insert t k v := ht_insert (λ _, true) t k v;
  t_find t k := (ht_find t k).1;
  t_delete t k := ht_delete t k;
  t_foreach U cb t u := ht_foreach cb t u
}.

Lemma foreach_visit {U} (cb : U → K → option A → bool * U) (l : list (Kv K (option A) X)) u :
  foreach_loop cb l u = visit cb ((λ kv, (key kv, value kv)) <$> l) u.
Proof.
  revert u. induction l as [|kv l IH]; intros u; cbn; [done|]. destruct (cb u _ _) as [[] u']; [apply IH|done].
Qed.

Lemma contents_pairs (ht : Ht K (option A) X) :
  wf_core ht → (λ kv, (key kv, value kv)) <$> kvs ht ≡ₚ map_to_list (contents ht).
Proof.
  intros Hw. unfold contents. rewrite map_to_list_fmap. unfold to_map, map_of. rewrite map_to_list_to_map.
  - by rewrite <- list_fmap_compose.
  - rewrite <- list_fmap_compose. apply (wf_nodup_kvs ht Hw).
Qed.

(** What the hash table promises to its clients; NULL is the value of an absent key. *)
#[global] Program Instance ht_table_laws : (HT_NULL_VALUE = None) → TableLaws K A (Ht K (option A) X) :=
  λ Hnull, {| t_map := contents; t_inv := ht_inv |}.
Next Obligation. intros _. apply ht_inv_S. Qed.
Next Obligation.
  intros _ n t k v Hi. cbn. unfold ht_insert.
  pose proof (insert_update_contents (λ _, true) n t k v false (λ _, eq_refl) Hi) as Hu.
  destruct (insert_update _ _ _ _ _) as [r t']. destruct Hu as (? & _ & Hc). cbn [snd]. rewrite Hc.
  split; [done|]. by destruct (contents t !! k).
Qed.
Next Obligation.
  intros Hnull n t k Hi. cbn. rewrite (find_contents _ _ _ Hi). by destruct (contents t !! k).
Qed.
Next Obligation.
  intros _ n t k Hi. cbn. pose proof (delete_contents n t k Hi) as Hu. destruct (ht_delete t k) as [r t'].
  destruct Hu as (? & _ & Hc). cbn [snd]. by rewrite Hc.
Qed.
Next Obligation.
  intros _ n t Hi. eexists. split; [apply contents_pairs, (inv_wf _ _ Hi)|]. intros U cb u. apply foreach_visit.
Qed.
End ht_table.

(** ** Sets: src/src/set.c

    SetP and SetU are HtPP and HtUP with the value [(void * )1]; the code of the two
    is the same, over the table's operations. *)

Section sets.
Context {K T : Type} `{Countable K} `{!TableOps K Z T}.

Definition set_add (s : T) (u : K) : T := (t_insert s u (Some 1)).2.
Definition set_contains (s : T) (u : K) : bool := match t_find s u with Some _ => true | None => false end.
Definition set_delete (s : T) (u : K) : T := (t_delete s u).2.
Definition set_foreach {U} (s : T) (cb : U → K → bool * U) (userdata : U) : U :=
  t_foreach (λ u k _, cb u k) s userdata.

Inductive set_op := SAdd (u : K) | SDelete (u : K).

Definition set_step (s : T) (o : set_op) : T :=
  match o with SAdd u => set_add s u | SDelete u => set_delete s u end.

Definition gset_step (m : gset K) (o : set_op) : gset K :=
  match o with SAdd u => {[u]} ∪ m | SDelete u => m ∖ {[u]} end.

Context `{!TableLaws K Z T}.

(** A table used as a set holds no NULL value. *)
Definition set_inv (n : nat) (s : T) : Prop :=
  t_inv n s ∧ ∀ u v, t_map s !! u = Some v → v ≠ None.

Lemma set_step_refines n s o :
  set_inv (S n) s → set_inv n (set_step s o) ∧ dom (t_map (set_step s o)) = gset_step (dom (t_map s)) o.
Proof.
  intros [Hi Hv]. destruct o as [u|u]; cbn.
  - destruct (t_insert_spec n s u (Some 1) Hi) as [Hi' Hm]. unfold set_inv, set_add. rewrite Hm.
    destruct (t_map s !! u) as [v|] eqn:E.
    + split; [by split|]. apply elem_of_dom_2 in E. set_solver.
    + split; [split; [done|]|by rewrite dom_insert_L].
      intros u' v'. rewrite lookup_insert_Some. naive_solver.
  - destruct (t_delete_spec n s u (t_inv_S _ _ Hi)) as [Hi' Hm]. unfold set_inv, set_delete. rewrite Hm.
    split; [split; [done|]|by rewrite dom_delete_L].
    intros u' v'. rewrite lookup_delete_Some. naive_solver.
Qed.

Lemma set_run_refines ops s :
  set_inv (length ops) s →
  let s' := foldl set_step s ops in set_inv 0 s' ∧ dom (t_map s') = foldl gset_step (dom (t_map s)) ops.
Proof.
  revert s. induction ops as [|o ops IH]; intros s Hi; cbn; [done|].
  destruct (set_step_refines _ _ o Hi) as [Hi' <-]. by apply IH.
Qed.

Lemma set_contains_dom n s u : set_inv n s → set_contains s u = bool_decide (u ∈ dom (t_map s)).
Proof.
  intros [Hi Hv]. unfold set_contains. rewrite (t_find_spec n) by done.
  destruct (t_map s !! u) as [v|] eqn:E; cbn.
  - rewrite bool_decide_eq_true_2 by by eapply elem_of_dom_2. specialize (Hv _ _ E). by destruct v.
  - rewrite bool_decide_eq_false_2; [done|]. by apply not_elem_of_dom.
Qed.

(** Every member is visited once. *)
Lemma set_foreach_members n s :
  set_inv n s → set_foreach s (λ l u, (true, l ++ [u])) [] ≡ₚ base.elements (dom (t_map s)).
Proof.
  intros [Hi _]. destruct (t_foreach_spec n s Hi) as (l & Hp & Hf). unfold set_foreach. rewrite Hf.
  assert (∀ acc, visit (λ l u (_ : option Z), (true, l ++ [u])) l acc = acc ++ l.*1) as ->.
  { clear. induction l as [|[k v] l IH]; intros acc; cbn; [by rewrite app_nil_r|]. rewrite IH, <- app_assoc. done. }
  cbn. rewrite Hp.
  apply NoDup_Permutation; [apply NoDup_fst_map_to_list|apply NoDup_elements|].
  intros u. rewrite elem_of_elements, list_elem_of_fmap, elem_of_dom. split.
  - intros ([k v] & -> & Hin%elem_of_map_to_list). eauto.
  - intros [v Hin]. exists (u, v). by rewrite elem_of_map_to_list.
Qed.
End sets.

Definition set_p_new (alloc : Z → bool) : option (Ht bytes (option Z) unit) := ht_pp_new0 alloc.
Definition set_u_new (alloc : Z → bool) : option (Ht Z (option Z) unit) := ht_up_new0 alloc.

(** ** Ownership of the database's entries *)

Inductive kv_op := KInsert (kv : SdbKv) (update : bool) | KDelete (k : bytes).

(** The table and the entries it accepted, in a run of insertions and deletions. *)
Definition kv_step (alloc : Z → bool) (st : SdbHt * list SdbKv) (o : kv_op) : SdbHt * list SdbKv :=
  let '(ht, taken) := st in
  match o with
  | KInsert kv update =>
      let '(r, ht) := sdb_ht_insert_kvp alloc ht kv update in (ht, if r then taken ++ [kv] else taken)
  | KDelete k => ((sdb_ht_delete ht k).2, taken)
  end.

Definition op_keyed (o : kv_op) : Prop := match o with KInsert kv _ => kv_keyed kv | KDelete _ => True end.

Lemma kv_step_balance alloc n ht taken o :
  (∀ n, alloc n = true) → sdb_ht_inv (S n) ht → op_keyed o → freed ht ++ kvs ht ≡ₚ taken →
  let '(ht', taken') := kv_step alloc (ht, taken) o in
  sdb_ht_inv n ht' ∧ freed ht' ++ kvs ht' ≡ₚ taken'.
Proof.
  intros Ha Hi Hok Hb. pose proof (proj1 (inv_wf _ _ (proj1 Hi))) as Hw.
  destruct o as [kv update|k]; cbn [kv_step].
  - pose proof (sdb_ht_insert_kvp_spec alloc n ht kv update Ha Hi Hok) as Hs.
    destruct (sdb_ht_insert_kvp _ _ _ _) as [r ht']. destruct Hs as [Hi' Hs]. split; [done|].
    pose proof (proj1 (inv_wf _ _ (proj1 Hi'))) as Hw'.
    destruct (to_map ht !! key kv) as [kv0|] eqn:Em; [destruct update|].
    + destruct Hs as (-> & Hm & Hf). rewrite Hf, (kvs_map_to_list ht' Hw'), Hm, <- Hb, (kvs_map_to_list ht Hw).
      rewrite <- insert_delete_eq, map_to_list_insert by apply lookup_delete_eq.
      rewrite <- (insert_delete_id (to_map ht) (key kv) kv0) at 2 by done.
      rewrite map_to_list_insert by apply lookup_delete_eq. cbn. solve_Permutation.
    + destruct Hs as (-> & ->). done.
    + assert (r = true ∧ to_map ht' = <[key kv:=kv]> (to_map ht) ∧ freed ht' = freed ht ++ []) as (-> & Hm & Hf)
        by by destruct update.
      rewrite Hf, (kvs_map_to_list ht' Hw'), Hm, <- Hb, (kvs_map_to_list ht Hw).
      rewrite map_to_list_insert by done. cbn. solve_Permutation.
  - pose proof (sdb_ht_delete_spec n ht k) as Hs. unfold sdb_ht_delete in *.
    destruct (ht_delete ht k) as [r ht']. destruct Hs as (Hi' & Hm & _ & Hf).
    { destruct Hi. split; [by apply ht_inv_S|done]. }
    split; [done|]. cbn [snd]. pose proof (proj1 (inv_wf _ _ (proj1 Hi'))) as Hw'.
    rewrite Hf, (kvs_map_to_list ht' Hw'), Hm, <- Hb, (kvs_map_to_list ht Hw).
    destruct (to_map ht !! k) as [kv0|] eqn:Em; cbn; [|by rewrite delete_id, app_nil_r].
    rewrite <- (insert_delete_id (to_map ht) k kv0) at 2 by done.
    rewrite map_to_list_insert by apply lookup_delete_eq. cbn. solve_Permutation.
Qed.

Lemma kv_run_balance alloc ops ht taken :
  (∀ n, alloc n = true) → sdb_ht_inv (length ops) ht → Forall op_keyed ops → freed ht ++ kvs ht ≡ₚ taken →
  let '(ht', taken') := foldl (kv_step alloc) (ht, taken) ops in
  sdb_ht_inv 0 ht' ∧ freed ht' ++ kvs ht' ≡ₚ taken'.
Proof.
  intros Ha. revert ht taken. induction ops as [|o ops IH]; intros ht taken Hi Hok Hb; cbn [foldl]; [done|].
  inversion_clear Hok. pose proof (kv_step_balance alloc (length ops) ht taken o) as Hs.
  destruct (kv_step alloc (ht, taken) o) as [ht1 taken1]. destruct Hs; [done..|]. by apply IH.
Qed.

(** ** Properties *)

(** C4: a string-keyed table made by [ht_pp_new0] answers any sequence of fewer than
    2^30 - 1 calls to insert, update, delete, update_key and find exactly as a finite
    map would, through every growth of its bucket array, and ends in order: every
    entry in the bucket of its key, no key twice, no bucket larger than its memory. *)
Theorem ht_pp_refines_map (A : Type) (ops : list (ht_op bytes (option A))) :
  2 * Z.of_nat (length ops) + 1 < 2 ^ 31 →
  ∃ ht : Ht bytes (option A) unit, ht_pp_new0 (λ _, true) = Some ht ∧
    let '(rs, ht') := run (ht_step (λ _, true)) ht ops in
    wf ht' ∧ run (map_step None) ∅ ops = (rs, contents ht').
Proof.
  intros Hn. destruct (internal_new_inv (X := unit) (λ _, true) (ht_pp_options (A := A) None true None) (length ops))
    as (ht & E & Hi & Hc & _); [done|apply _|done..|].
  exists ht. split; [done|]. pose proof (ht_run_refines (λ _, true) ops ht (λ _, eq_refl) Hi) as Hr.
  rewrite Hc in Hr. destruct (run _ ht ops) as [rs ht']. split; [apply (inv_wf _ _ (proj1 Hr))|apply Hr].
Qed.

Lemma ht_pp_refines_map_witness :
  ∃ ht : Ht bytes (option Z) unit, ht_pp_new0 (λ _, true) = Some ht ∧
    let '(rs, ht') := run (ht_step (λ _, true)) ht [OpInsert (str "a") (Some 1); OpUpdateKey (str "a") (str "b")] in
    wf ht' ∧ run (map_step None) ∅ [OpInsert (str "a") (Some 1); OpUpdateKey (str "a") (str "b")] = (rs, contents ht').
Proof. apply (ht_pp_refines_map Z [OpInsert (str "a") (Some 1); OpUpdateKey (str "a") (str "b")]). cbn. lia. Defined.

(** A set of 64-bit integers is a finite set: after any sequence of fewer than
    2^30 - 1 additions and deletions on a new SetU, [set_u_contains] is membership
    and [set_u_foreach] visits every member exactly once.  The proof uses the
    table's contract only. *)
Theorem set_u_refines_gset (ops : list (set_op (K := Z))) :
  2 * Z.of_nat (length ops) + 1 < 2 ^ 31 →
  ∃ s, set_u_new (λ _, true) = Some s ∧
    let s' := foldl set_step s ops in let m := foldl gset_step ∅ ops in
    (∀ u, set_contains s' u = bool_decide (u ∈ m))
    ∧ set_foreach s' (λ l u, (true, l ++ [u])) [] ≡ₚ base.elements m.
Proof.
  intros Hn. destruct (internal_new_inv (X := unit) (λ _, true) (ht_up_options (A := Z) None false None) (length ops))
    as (s & E & Hi & Hc & _); [done|apply _|done..|].
  exists s. split; [done|]. pose (ht_table_laws (K := Z) (A := Z) (X := unit) eq_refl) as HL.
  destruct (set_run_refines (TableLaws0 := HL) ops s) as [Hi' Hd].
  { split; [exact Hi|]. intros u v. change (contents s !! u = Some v → v ≠ None). by rewrite Hc. }
  change (dom (t_map s)) with (dom (contents s)) in Hd. rewrite Hc, dom_empty_L in Hd.
  cbv zeta. split.
  - intros u. rewrite (set_contains_dom (TableLaws0 := HL) 0 _ u Hi'). apply bool_decide_ext. by rewrite Hd.
  - rewrite (set_foreach_members (TableLaws0 := HL) 0 _ Hi'), Hd. done.
Qed.

Lemma set_u_refines_gset_witness :
  ∃ s, set_u_new (λ _, true) = Some s ∧
    let s' := foldl set_step s [SAdd 3; SAdd 7; SDelete 3] in
    let m := foldl gset_step ∅ [SAdd 3; SAdd 7; SDelete 3] in
    (∀ u, set_contains s' u = bool_decide (u ∈ m))
    ∧ set_foreach s' (λ l u, (true, l ++ [u])) [] ≡ₚ base.elements m.
Proof. apply (set_u_refines_gset [SAdd 3; SAdd 7; SDelete 3]). cbn. lia. Defined.

(** C33: no entry of the database's table is leaked or freed twice, also not when the table grows, where
    the old array is released with its free function switched off: after any sequence
    of fewer than 2^30 insertions (of entries that carry the length of their key) and deletions, with memory
    available, the entries already handed to
    the free function together with those [ht_free] hands over at the end are, as a
    multiset, exactly the entries the table accepted. *)
Theorem sdb_ht_frees_once (ops : list kv_op) :
  2 * Z.of_nat (length ops) + 1 < 2 ^ 31 → Forall op_keyed ops →
  ∃ ht0, sdb_ht_new (λ _, true) = Some ht0 ∧
    let '(ht, taken) := foldl (kv_step (λ _, true)) (ht0, []) ops in
    freed ht ++ ht_free ht ≡ₚ taken.
Proof.
  intros Hn Hok. destruct (sdb_ht_new_spec (λ _, true) (length ops)) as (ht0 & E & Hi & Hm & Hf); [done..|].
  exists ht0. split; [done|]. pose proof (kv_run_balance (λ _, true) ops ht0 [] (λ _, eq_refl) Hi Hok) as Hb.
  destruct (foldl _ _ ops) as [ht taken]. destruct Hb as [[Hi' Ho] Hb].
  - rewrite Hf, (kvs_map_to_list ht0), Hm; [done|]. apply (inv_wf _ _ (proj1 Hi)).
  - unfold ht_free. by rewrite Ho.
Qed.

Lemma sdb_ht_frees_once_witness :
  let kv k v := mkKv k (Some v) 1 (slen v) (mkExt 1 0) in
  ∃ ht0, sdb_ht_new (λ _, true) = Some ht0 ∧
    let '(ht, taken) := foldl (kv_step (λ _, true)) (ht0, [])
      [KInsert (kv (str "a") (str "x")) true; KInsert (kv (str "b") (str "y")) true; KInsert (kv (str "a") (str "z")) true; KInsert (kv (str "c") (str "x")) true;
       KInsert (kv (str "d") (str "x")) true; KDelete (str "b")] in
    freed ht ++ ht_free ht ≡ₚ taken.
Proof. intros kv. apply sdb_ht_frees_once; [cbn; lia|]. repeat constructor. Defined.

(** Growth never nests.  When the count of a table in order reaches its size, the
    re-insertions into the larger table stay below its load factor, so one level of
    [check_growing] suffices whatever the fuel; the result is in order, has the same
    entries and at most the larger of its old size and [2 * count + 1] buckets. *)
Theorem check_growing_terminates {K V X} `{!HtTypes K V X} `{Countable K} n (ht : Ht K V X) :
  wf_core ht → count ht <= size ht → size ht < 2 ^ 31 →
  let ht' := check_growing (S n) (λ _, true) ht in
  ht' = check_growing 1 (λ _, true) ht ∧ wf ht' ∧ kvs ht' ≡ₚ kvs ht ∧ size ht' <= Z.max (size ht) (2 * count ht + 1).
Proof.
  intros Hw Hc Hs. destruct (check_growing_spec n (λ _, true) ht (λ _, eq_refl) Hw Hc Hs) as (? & ? & _ & _ & ? & ?).
  done.
Qed.

Lemma check_growing_terminates_witness :
  ∃ ht : Ht Z (option Z) unit, ht_up_new0 (λ _, true) = Some ht ∧
    check_growing 9 (λ _, true) ht = check_growing 1 (λ _, true) ht.
Proof.
  destruct (internal_new_inv (X := unit) (λ _, true) (ht_up_options (A := Z) None false None) 1)
    as (ht & E & Hi & _); [done|apply _|done..|].
  exists ht. split; [done|]. apply (check_growing_terminates 8 ht).
  - apply (inv_wf _ _ Hi).
  - pose proof (proj2 (inv_wf _ _ Hi)). lia.
  - apply (inv_size _ _ Hi).
Defined.

(** After a failed [realloc] in [reserve_kv] the bucket's [size] field already
    says two slots while no memory was obtained; the next insertion of the same
    bucket asks for no memory and writes its entry past the end of the array. *)
Theorem ht_failed_realloc_overflow :
  ∃ ht1 ht2 ht3 : Ht Z (option Z) unit,
    ht_up_new0 (λ _, true) = Some ht1
    ∧ ht_insert (λ _, false) ht1 0 (Some 1) = (false, ht2)
    ∧ ht_insert (λ _, false) ht2 0 (Some 1) = (true, ht3)
    ∧ cap (bucket_at ht3 0) = 0 ∧ length (arr (bucket_at ht3 0)) = 1%nat.
Proof.
  pose (ht1 := mkHt (replicate 3 empty_bucket) (ht_up_options None false None) 3 0 0 [] : Ht Z (option Z) unit).
  exists ht1, (ht_insert (λ _, false) ht1 0 (Some 1)).2.
  exists (ht_insert (λ _, false) (ht_insert (λ _, false) ht1 0 (Some 1)).2 0 (Some 1)).2.
  split_and!; vm_compute; reflexivity.
Qed.
