(* ===== verification/Buffer.v ===== *)
(** * Buffered output: src/src/buffer.inc.c

    A file is its contents, the offset of the descriptor and a limit on its size
    (the space left on the device), so that short and failed writes happen.  The
    buffer keeps the bytes not written yet: [pending] is [x[0..p)]. *)

From S2P Require Import Prelude.

(** ** The operating system's file *)

Record file := mkFile { fdata : bytes; foff : nat; flimit : nat }.

(** Bytes stored at an offset; a gap before it reads as zeros. *)
Definition store (d : bytes) (off : nat) (b : bytes) : bytes :=
  take off (d ++ replicate (off - length d) 0) ++ b ++ drop (off + length b) d.

(** [write (fd, buf, len)]: as much as fits; -1 when nothing does. *)
Definition write (f : file) (buf : bytes) : Z * file :=
  let n := Nat.min (length buf) (flimit f - foff f) in
  if (n =? 0)%nat && negb (length buf =? 0)%nat then (-1, f)
  else (Z.of_nat n, mkFile (store (fdata f) (foff f) (take n buf)) (foff f + n) (flimit f)).

(** [seek_set (fd, pos)]; [ok] is the answer of [lseek]. *)
Definition seek_set (ok : bool) (f : file) (pos : Z) : bool * file :=
  if ok then (true, mkFile (fdata f) (Z.to_nat pos) (flimit f)) else (false, f).

(** ** The buffer *)

Record buffer := mkBuffer { pending : bytes; bcap : nat }.

Definition buffer_initialize (len : nat) : buffer := mkBuffer [] len.

(** The loop runs at most once: a write that is not complete is an error. *)
Definition allwrite (f : file) (buf : bytes) : bool * file :=
  if (length buf =? 0)%nat then (true, f)
  else
    let '(w, f) := write f buf in
    if negb (w =? Z.of_nat (length buf)) then (false, f) else (true, f).

Definition buffer_flush (s : buffer) (f : file) : bool * (buffer * file) :=
  if (length (pending s) =? 0)%nat then (true, (s, f))
  else let '(r, f) := allwrite f (pending s) in (r, (mkBuffer [] (bcap s), f)).

(** [while (len > 0 && (n = s->n - s->p) < len)]: fill the buffer and flush it; then
    the rest is stored.  The fuel is two more than the length: only the first
    round can be one that stores nothing. *)
Fixpoint putalign_loop (fuel : nat) (s : buffer) (f : file) (buf : bytes) : bool * (buffer * file) :=
  match fuel with
  | O => (false, (s, f))
  | S fuel' =>
      let n := (bcap s - length (pending s))%nat in
      if (0 <? length buf)%nat && (n <? length buf)%nat then
        match buffer_flush (mkBuffer (pending s ++ take n buf) (bcap s)) f with
        | (false, st) => (false, st)
        | (true, (s, f)) => putalign_loop fuel' s f (drop n buf)
        end
      else (true, (mkBuffer (pending s ++ buf) (bcap s), f))
  end.

Definition buffer_putalign (s : buffer) (f : file) (buf : bytes) : bool * (buffer * file) :=
  putalign_loop (S (S (length buf))) s f buf.

Definition buffer_putflush (s : buffer) (f : file) (buf : bytes) : bool * (buffer * file) :=
  match buffer_flush s f with
  | (false, st) => (false, st)
  | (true, (s, f)) => let '(r, f) := allwrite f buf in (r, (s, f))
  end.

(** ** Facts *)

(** The buffer never holds more than its memory. *)
Definition buffer_ok (s : buffer) : Prop := (0 < bcap s ∧ length (pending s) <= bcap s)%nat.

(** Writing at the end of the file, with [n] more bytes allowed; the descriptor of an
    empty file may have been moved past its end first. *)
Record at_end (n : nat) (f : file) : Prop := {
  at_end_off : foff f = length (fdata f) ∨ fdata f = [];
  at_end_room : (foff f + n <= flimit f)%nat
}.

(** The contents up to the offset, a gap reading as zeros. *)
Definition fpad (f : file) : bytes := fdata f ++ replicate (foff f - length (fdata f)) 0.

Lemma at_end_le n f : at_end n f → (length (fdata f) <= foff f)%nat.
Proof. intros [[-> | ->] _]; cbn; lia. Qed.

Lemma fpad_length n f : at_end n f → length (fpad f) = foff f.
Proof. intros Hf%at_end_le. unfold fpad. rewrite length_app, length_replicate. lia. Qed.

Lemma fpad_end f : foff f = length (fdata f) → fpad f = fdata f.
Proof. intros E. unfold fpad. rewrite E, Nat.sub_diag; cbn. by rewrite app_nil_r. Qed.

Lemma store_end d off b : (length d <= off)%nat → store d off b = (d ++ replicate (off - length d) 0) ++ b.
Proof.
  intros Hl. unfold store. rewrite take_ge, drop_ge; [by rewrite app_nil_r|lia|].
  rewrite length_app, length_replicate. lia.
Qed.

Lemma store_overwrite d b : store d 0 b = b ++ drop (length b) d.
Proof. done. Qed.

Lemma allwrite_spec f buf :
  (foff f + length buf <= flimit f)%nat →
  allwrite f buf = (true, if (length buf =? 0)%nat then f
    else mkFile (store (fdata f) (foff f) buf) (foff f + length buf) (flimit f)).
Proof.
  intros Hl. unfold allwrite, write. destruct (length buf =? 0)%nat eqn:E; [done|].
  rewrite Nat.min_l by lia. rewrite E, andb_false_l, take_ge by lia. by rewrite Z.eqb_refl.
Qed.

Lemma allwrite_end n f buf :
  at_end n f → (length buf <= n)%nat →
  ∃ f', allwrite f buf = (true, f') ∧ at_end (n - length buf) f' ∧ fpad f' = fpad f ++ buf
    ∧ flimit f' = flimit f ∧ foff f' = (foff f + length buf)%nat.
Proof.
  intros Hf Hl. pose proof (at_end_le _ _ Hf) as Hle. destruct Hf as [Ho Hr].
  rewrite allwrite_spec by lia. eexists; split; [done|].
  destruct (length buf =? 0)%nat eqn:E.
  - apply Nat.eqb_eq, length_zero_iff_nil in E. subst buf. rewrite app_nil_r. split_and!; [|done..|cbn; lia].
    split; [done|cbn; lia].
  - rewrite store_end by done. fold (fpad f).
    assert (length (fpad f ++ buf) = (foff f + length buf)%nat) as HL.
    { unfold fpad. rewrite !length_app, length_replicate. lia. }
    split_and!; [split; cbn; [left; lia|lia]|by rewrite fpad_end|done..].
Qed.

(** What has been given to the buffer: the file followed by what is pending. *)
Definition stream (st : buffer * file) : bytes := fpad st.2 ++ pending st.1.

Lemma buffer_flush_spec n s f :
  at_end n f → (length (pending s) <= n)%nat →
  ∃ f', buffer_flush s f = (true, (mkBuffer [] (bcap s), f')) ∧ at_end (n - length (pending s)) f'
    ∧ fpad f' = stream (s, f) ∧ flimit f' = flimit f ∧ foff f' = (foff f + length (pending s))%nat.
Proof.
  intros Hf Hl. unfold buffer_flush, stream; cbn. destruct (length (pending s) =? 0)%nat eqn:E.
  - apply Nat.eqb_eq, length_zero_iff_nil in E. destruct s as [p c]; cbn in *; subst p. cbn.
    rewrite app_nil_r, Nat.sub_0_r, Nat.add_0_r. by exists f.
  - destruct (allwrite_end n f (pending s) Hf Hl) as (f' & -> & ? & ? & ? & ?). by exists f'.
Qed.

Lemma putalign_loop_spec fuel n s f buf :
  buffer_ok s → at_end n f → (length (pending s) + length buf <= n)%nat →
  (length buf + (if (length (pending s) =? bcap s)%nat then 1 else 0) < fuel)%nat →
  ∃ s' f' n', putalign_loop fuel s f buf = (true, (s', f')) ∧ buffer_ok s' ∧ bcap s' = bcap s
    ∧ at_end n' f' ∧ (n' = n + foff f - foff f' ∧ foff f <= foff f')%nat
    ∧ stream (s', f') = stream (s, f) ++ buf ∧ flimit f' = flimit f.
Proof.
  revert n s f buf. induction fuel as [|fuel IH]; intros n s f buf [Hc Hp] Hf Hn Hfuel; [lia|].
  cbn [putalign_loop]. set (m := (bcap s - length (pending s))%nat).
  destruct ((0 <? length buf)%nat && (m <? length buf)%nat) eqn:E.
  - apply andb_true_iff in E as [_ Hm]. apply Nat.ltb_lt in Hm.
    destruct (buffer_flush_spec n (mkBuffer (pending s ++ take m buf) (bcap s)) f Hf) as (f1 & -> & Hf1 & Hd1 & Hl1 & Ho1).
    { cbn. rewrite length_app, length_take. lia. }
    cbn [bcap pending] in *. rewrite length_app, length_take, Nat.min_l in Hf1 by lia.
    rewrite length_app, length_take, Nat.min_l in Ho1 by lia. unfold stream in Hd1; cbn in Hd1.
    destruct (IH (n - (length (pending s) + m))%nat (mkBuffer [] (bcap s)) f1 (drop m buf))
      as (s' & f' & n' & -> & Hok & Hc' & Hf' & Hn' & Hs' & Hl').
    + split; cbn; lia.
    + done.
    + cbn. rewrite length_drop. lia.
    + cbn. rewrite length_drop. destruct (length (pending s) =? bcap s)%nat eqn:Ef;
        [apply Nat.eqb_eq in Ef|apply Nat.eqb_neq in Ef]; destruct (bcap s); cbn in *; lia.
    + eexists _, _, _. split_and!; [done|done|done|done|lia|lia| |by rewrite Hl'].
      rewrite Hs'. unfold stream; cbn. rewrite Hd1, app_nil_r, <- !app_assoc. by rewrite take_drop.
  - eexists _, _, n. split_and!; [done| |done|done|lia|lia| |done].
    + split; cbn; [done|]. rewrite length_app. apply andb_false_iff in E as [E|E]; apply Nat.ltb_ge in E; lia.
    + unfold stream; cbn. by rewrite app_assoc.
Qed.

(** The state of buffered output to the end of a file. *)
Record out_ok (st : buffer * file) : Prop := {
  out_buffer : buffer_ok st.1;
  out_off : foff st.2 = length (fdata st.2) ∨ fdata st.2 = [];
  out_room : (length (stream st) <= flimit st.2)%nat
}.

Lemma putalign_out s f buf :
  out_ok (s, f) → (length (stream (s, f)) + length buf <= flimit f)%nat →
  ∃ st', buffer_putalign s f buf = (true, st') ∧ out_ok st' ∧ stream st' = stream (s, f) ++ buf
    ∧ flimit st'.2 = flimit f ∧ bcap st'.1 = bcap s.
Proof.
  intros [Hb Ho Hr] Hl. unfold stream in Hl, Hr; cbn in Hl, Hr. rewrite length_app in *. cbn in Ho.
  assert (at_end 0 (mkFile (fdata f) (foff f) (foff f))) as Hz by (split; cbn; [done|lia]).
  apply fpad_length in Hz. change (length (fpad f) = foff f) in Hz.
  destruct (putalign_loop_spec (S (S (length buf))) (flimit f - foff f) s f buf) as (s' & f' & n' & E & Hb' & Hc' & Hf' & _ & Hs' & Hl').
  - done.
  - split; [done|lia].
  - lia.
  - destruct (_ =? _)%nat; lia.
  - exists (s', f'). split_and!; [done| |done..]. split; cbn; [done|apply Hf'|].
    rewrite Hs', Hl'. unfold stream; cbn. rewrite !length_app. lia.
Qed.

Lemma flush_out s f :
  out_ok (s, f) →
  ∃ f', buffer_flush s f = (true, (mkBuffer [] (bcap s), f')) ∧ fpad f' = stream (s, f)
    ∧ flimit f' = flimit f ∧ (foff f' = length (fdata f') ∨ fdata f' = []).
Proof.
  intros [Hb Ho Hr]. unfold stream in Hr; cbn in *. rewrite length_app in Hr.
  assert (at_end 0 (mkFile (fdata f) (foff f) (foff f))) as Hz by (split; cbn; [done|lia]).
  apply fpad_length in Hz. change (length (fpad f) = foff f) in Hz.
  destruct (buffer_flush_spec (flimit f - foff f) s f) as (f' & -> & Hf' & Hd & Hl & _); [split; [done|lia]|lia|].
  exists f'. split_and!; [done..|]. apply Hf'.
Qed.

(** ** Properties *)

(** Buffered output loses and reorders nothing: after any sequence of writes through
    the buffer, of any sizes, and a final flush, the file holds its old contents
    (a gap below the offset reading as zeros) followed by the concatenation of what was written, the buffer having stayed
    within its memory; every call succeeds when the device has room. *)
Theorem buffer_stream_correct (chunks : list bytes) s f :
  out_ok (s, f) → (length (stream (s, f)) + length (mjoin chunks) <= flimit f)%nat →
  ∃ s' f', foldl (λ st b, match st with
                          | (true, (s, f)) => buffer_putalign s f b
                          | _ => st end) (true, (s, f)) chunks = (true, (s', f'))
    ∧ buffer_ok s'
    ∧ ∃ s'' f'', buffer_flush s' f' = (true, (s'', f'')) ∧ fpad f'' = stream (s, f) ++ mjoin chunks ∧ pending s'' = [].
Proof.
  revert s f. induction chunks as [|b chunks IH]; intros s f Ho Hl; cbn [mjoin list_join foldl] in Hl |- *.
  - eexists _, _. split; [done|]. split; [apply Ho|]. destruct (flush_out s f Ho) as (f' & E & Hd & _).
    eexists _, _. split; [done|]. by rewrite app_nil_r.
  - rewrite length_app in Hl. destruct (putalign_out s f b Ho) as ([s1 f1] & -> & Ho1 & Hs1 & Hl1 & _); [lia|].
    cbn in Hl1. destruct (IH s1 f1 Ho1) as (s' & f' & E & Hb & s'' & f'' & E' & Hd & Hp).
    + rewrite Hs1, Hl1, length_app, <- Nat.add_assoc. exact Hl.
    + eexists _, _. split; [done|]. split; [done|]. eexists _, _. split; [done|]. split; [|done].
      by rewrite Hd, Hs1, <- app_assoc.
Qed.

Lemma buffer_stream_correct_witness :
  let s := buffer_initialize 4 in let f := mkFile (str "ab") 2 100 in
  out_ok (s, f) ∧
  ∃ s' f', foldl (λ st b, match st with
                          | (true, (s, f)) => buffer_putalign s f b
                          | _ => st end) (true, (s, f)) [str "hello"; str "x"; str "world and more"] = (true, (s', f'))
    ∧ buffer_ok s'
    ∧ ∃ s'' f'', buffer_flush s' f' = (true, (s'', f'')) ∧ fpad f'' = stream (s, f) ++ mjoin [str "hello"; str "x"; str "world and more"] ∧ pending s'' = [].
Proof.
  intros s f. assert (out_ok (s, f)) as Ho by (split; [split; cbn; lia|by left|cbn; lia]).
  split; [done|]. apply (buffer_stream_correct [str "hello"; str "x"; str "world and more"] s f Ho). cbn. lia.
Defined.

(** C40: a flush that cannot store everything it holds reports failure: it returns
    success exactly when the pending bytes fit below the limit of the file. *)
Theorem buffer_flush_reports_full s f :
  (buffer_flush s f).1 = true ↔ pending s = [] ∨ (foff f + length (pending s) <= flimit f)%nat.
Proof.
  unfold buffer_flush. destruct (length (pending s) =? 0)%nat eqn:E.
  - apply Nat.eqb_eq, length_zero_iff_nil in E. naive_solver.
  - apply Nat.eqb_neq in E. unfold allwrite. rewrite (proj2 (Nat.eqb_neq _ _) E). unfold write.
    rewrite (proj2 (Nat.eqb_neq (length (pending s)) 0) E), andb_true_r.
    assert (pending s ≠ []) by (intros Hp; by rewrite Hp in E).
    destruct (_ =? 0)%nat eqn:En; [apply Nat.eqb_eq in En|apply Nat.eqb_neq in En].
    + destruct (_ =? _) eqn:Ew; zbool; cbn; [lia|]. split; [done|]. intros [?|?]; [done|lia].
    + destruct (_ =? _) eqn:Ew; zbool; cbn.
      * split; [|done]. intros _. right. lia.
      * split; [done|]. intros [?|?]; [done|lia].
Qed.
