(* ===== verification/CdbMake.v ===== *)
(** * Writing a constant database: src/src/cdb_make.c

    The records go to the file as they are added, while their hashes and
    positions are kept in a list of blocks; [cdb_make_finish] sorts these by
    bucket, builds one open-addressing table per bucket, appends the tables to the
    file and writes the header of 256 table positions at its start.

    Array accesses are partial: [None] is an access outside the array.  The array
    memory comes from an argument [malloc], with unspecified contents. *)

From S2P Require Import Prelude Util Buffer.

Definition KVLSZ : Z := 4.
Definition CDB_HPLIST : nat := 1000.
Definition CDB_FINAL : Z := 1024.
Definition CDB_BSPACE : nat := 8192.

Record cdb_hp := mkHp { hp_h : Z; hp_p : Z }.

(** [head] is the list of blocks, the last one first, each in the order of its
    array [hp]; [mout] is the buffer [b] with the file [fd]. *)
Record cdb_make := mkMake {
  mout : buffer * file;
  head : list (list cdb_hp);
  counts : list Z;
  numentries : Z;
  memsize : Z;
  pos : Z
}.

(** Array access with bounds. *)
Definition aget {A} (a : list A) (i : Z) : option A := if i <? 0 then None else a !! Z.to_nat i.
Definition aset {A} (a : list A) (i : Z) (x : A) : option (list A) :=
  if (0 <=? i) && (i <? Z.of_nat (length a)) then Some (<[Z.to_nat i := x]> a) else None.

Definition set_mout (c : cdb_make) (o : buffer * file) : cdb_make :=
  mkMake o (head c) (counts c) (numentries c) (memsize c) (pos c).
Definition set_pos (c : cdb_make) (p : Z) : cdb_make :=
  mkMake (mout c) (head c) (counts c) (numentries c) (memsize c) p.

(** The memory of a writer that was never started. *)
Definition make_none : cdb_make := mkMake (mkBuffer [] 0, mkFile [] 0 0) [] (replicate 256 0) 0 0 0.

(** [seek] is the answer of [lseek] on the file. *)
Definition cdb_make_start (seek : bool) (f : file) : bool * cdb_make :=
  let '(r, f) := seek_set seek f CDB_FINAL in
  (r, mkMake (buffer_initialize CDB_BSPACE, f) [] (replicate 256 0) 0 1 CDB_FINAL).

Definition incpos (c : cdb_make) (len : Z) : bool * cdb_make :=
  let newpos := u32 (pos c + len) in
  if newpos <? len then (false, c) else (true, set_pos c newpos).

(** The block that takes the next entry; [alloc] says whether a new block can be had. *)
Definition push_hp (alloc : bool) (hd : list (list cdb_hp)) (e : cdb_hp) : option (list (list cdb_hp)) :=
  match hd with
  | blk :: rest =>
      if (CDB_HPLIST <=? length blk)%nat then if alloc then Some ([e] :: hd) else None
      else Some ((blk ++ [e]) :: rest)
  | [] => if alloc then Some [[e]] else None
  end.

Definition cdb_make_addend (alloc : bool) (c : cdb_make) (keylen datalen h : Z) : bool * cdb_make :=
  match push_hp alloc (head c) (mkHp h (pos c)) with
  | None => (false, c)
  | Some hd =>
      let b := Z.to_nat (Z.land 255 h) in
      let n := u32 (default 0 (counts c !! b) + 1) in
      let u := u32 (n * 2) in
      let c := mkMake (mout c) hd (<[b := n]> (counts c)) (u32 (numentries c + 1))
                      (if memsize c <? u then u else memsize c) (pos c) in
      incpos c (u32 (u32 (KVLSZ + keylen) + datalen))
  end.

Definition pack_kvlen (klen vlen : Z) : option bytes :=
  if SDB_MAX_KEY <? klen then None
  else if SDB_MAX_VALUE <=? vlen then None
  else Some [u8 klen; u8 (Z.land vlen 255); u8 (Z.land (Z.shiftr vlen 8) 255); u8 (Z.land (Z.shiftr vlen 16) 255)].

Definition putalign (c : cdb_make) (b : bytes) : bool * cdb_make :=
  let '(r, o) := buffer_putalign (mout c).1 (mout c).2 b in (r, set_mout c o).

Definition cdb_make_addbegin (c : cdb_make) (keylen datalen : Z) : bool * cdb_make :=
  match pack_kvlen keylen datalen with
  | None => (false, c)
  | Some buf => putalign c buf
  end.

(** [key] and [data] are C strings, read with the zero that ends them. *)
Definition cdb_make_add (alloc : bool) (c : cdb_make) (key : bytes) (keylen : Z) (data : bytes) (datalen : Z)
    : bool * cdb_make :=
  let keylen := u32 (keylen + 1) in
  let datalen := u32 (datalen + 1) in
  match cdb_make_addbegin c keylen datalen with
  | (false, c) => (false, c)
  | (true, c) =>
      match putalign c (take (Z.to_nat keylen) (key ++ [0])) with
      | (false, c) => (false, c)
      | (true, c) =>
          match putalign c (take (Z.to_nat datalen) (data ++ [0])) with
          | (false, c) => (false, c)
          | (true, c) => cdb_make_addend alloc c keylen datalen (sdb_hash key)
          end
      end
  end.

(** Frees the blocks and the arrays. *)
Definition cdb_make_cancel (c : cdb_make) : cdb_make :=
  mkMake (mout c) [] (counts c) (numentries c) (memsize c) (pos c).

(** ** [cdb_make_finish] *)

(** [for (u = i = 0; i < 256; i++) { u += count[i]; start[i] = u; }] *)
Fixpoint starts_loop (cs : list Z) (u : Z) : list Z :=
  match cs with
  | [] => []
  | c :: cs' => let u := u32 (u + c) in u :: starts_loop cs' u
  end.

(** [c->split[--c->start[255 & x->hp[i].h]] = x->hp[i]] for the given entries. *)
Fixpoint split_loop (l : list cdb_hp) (start : list Z) (mem : list cdb_hp) : option (list Z * list cdb_hp) :=
  match l with
  | [] => Some (start, mem)
  | e :: l' =>
      let b := Z.land 255 (hp_h e) in
      s ← aget start b;
      let s := u32 (s - 1) in
      start ← aset start b s;
      mem ← aset mem s e;
      split_loop l' start mem
  end.

(** [hash] is [mem] from index [base] on. *)
Fixpoint zero_loop (n : nat) (base u : Z) (mem : list cdb_hp) : option (list cdb_hp) :=
  match n with
  | O => Some mem
  | S n' => mem ← aset mem (base + u) (mkHp 0 0); zero_loop n' base (u + 1) mem
  end.

(** [while (c->hash[where].p) if (++where == len) where = 0;] *)
Fixpoint probe_loop (fuel : nat) (mem : list cdb_hp) (base len w : Z) : option Z :=
  match fuel with
  | O => None
  | S fuel' =>
      e ← aget mem (base + w);
      if hp_p e =? 0 then Some w
      else probe_loop fuel' mem base len (if w + 1 =? len then 0 else w + 1)
  end.

(** The entries at [hp], [hp + 1], ... go to their slots. *)
Fixpoint place_loop (n : nat) (hp base len : Z) (mem : list cdb_hp) : option (list cdb_hp) :=
  match n with
  | O => Some mem
  | S n' =>
      e ← aget mem hp;
      w ← probe_loop (Z.to_nat len) mem base len (Z.shiftr (hp_h e) 8 mod len);
      mem ← aset mem (base + w) e;
      place_loop n' (hp + 1) base len mem
  end.

(** The slots go to the file. *)
Fixpoint emit_loop (n : nat) (base u : Z) (mem : list cdb_hp) (c : cdb_make) : option (bool * cdb_make) :=
  match n with
  | O => Some (true, c)
  | S n' =>
      e ← aget mem (base + u);
      match putalign c (ut32_pack (hp_h e) ++ ut32_pack (hp_p e)) with
      | (false, c) => Some (false, c)
      | (true, c) =>
          match incpos c 8 with
          | (false, c) => Some (false, c)
          | (true, c) => emit_loop n' base (u + 1) mem c
          end
      end
  end.

(** The body of [for (i = 0; i < 256; i++)] over the buckets [i], [i + 1], ...; [final]
    is the part of the header written so far. *)
Fixpoint buckets_loop (n : nat) (i : Z) (start : list Z) (mem : list cdb_hp) (final : bytes) (c : cdb_make)
    : option (bool * (bytes * cdb_make)) :=
  match n with
  | O => Some (true, (final, c))
  | S n' =>
      count ← aget (counts c) i;
      let len := u32 (Z.shiftl count 1) in
      let final := final ++ ut32_pack (pos c) in
      let base := numentries c in
      mem ← zero_loop (Z.to_nat len) base 0 mem;
      s ← aget start i;
      mem ← place_loop (Z.to_nat count) s base len mem;
      r ← emit_loop (Z.to_nat len) base 0 mem c;
      match r with
      | (false, c) => Some (false, (final, c))
      | (true, c) => buckets_loop n' (i + 1) start mem final c
      end
  end.

(** The result and the state; [None] is an access outside an array, [seek] the answer
    of [lseek]. *)
Definition cdb_make_finish (malloc : nat → option (list cdb_hp)) (seek : bool) (c : cdb_make) : option (bool * cdb_make) :=
  let msz := u32 (memsize c + numentries c) in
  if UT32_MAX / 8 <? msz then Some (false, cdb_make_cancel c)
  else
    match malloc (Z.to_nat msz) with
    | None => Some (false, cdb_make_cancel c)
    | Some mem =>
        st ← split_loop (mjoin (reverse <$> head c)) (starts_loop (counts c) 0) mem;
        let '(start, mem) := st in
        r ← buckets_loop 256 0 start mem [] c;
        match r with
        | (false, (_, c)) => Some (false, cdb_make_cancel c)
        | (true, (final, c)) =>
            match buffer_flush (mout c).1 (mout c).2 with
            | (false, o) => Some (false, cdb_make_cancel (set_mout c o))
            | (true, (b, f)) =>
                match seek_set seek f 0 with
                | (false, f) => Some (false, cdb_make_cancel (set_mout c (b, f)))
                | (true, f) =>
                    let '(result, o) := buffer_putflush b f final in
                    Some (result, cdb_make_cancel (set_mout c o))
                end
            end
        end
    end.

(** * Facts *)

(** ** What the file should hold *)

Abbreviation pairs := (list (bytes * bytes)).

(** The record of a pair: its lengths, then key and value with their zeros. *)
Definition record (kv : bytes * bytes) : bytes :=
  default [] (pack_kvlen (slen kv.1 + 1) (slen kv.2 + 1)) ++ kv.1 ++ [0] ++ kv.2 ++ [0].

Definition records (kvs : pairs) : bytes := mjoin (record <$> kvs).

(** What [sdb_disk_insert] lets through. *)
Definition pair_ok (kv : bytes * bytes) : Prop :=
  is_cstr kv.1 ∧ is_cstr kv.2 ∧ slen kv.1 + 1 <= SDB_MAX_KEY ∧ slen kv.2 + 1 < SDB_MAX_VALUE.

(** Hash and position of the records from position [p] on. *)
Fixpoint entries_of (kvs : pairs) (p : Z) : list cdb_hp :=
  match kvs with
  | [] => []
  | kv :: kvs' => mkHp (sdb_hash kv.1) p :: entries_of kvs' (p + slen (record kv))
  end.

Definition bucket_of (h : Z) : Z := Z.land 255 h.
Definition in_bucket (b : Z) (e : cdb_hp) : Prop := bucket_of (hp_h e) = b.
#[global] Instance in_bucket_dec b e : Decision (in_bucket b e) := Z.eq_dec _ _.
Abbreviation bucket b E := (filter (in_bucket b) E).

Definition sumZ (l : list Z) : Z := foldr Z.add 0 l.

(** The entries in the order they were added. *)
Definition entries (c : cdb_make) : list cdb_hp := mjoin (reverse (head c)).

Record make_inv (kvs : pairs) (c : cdb_make) : Prop := {
  mk_out : out_ok (mout c);
  mk_stream : stream (mout c) = replicate 1024 0 ++ records kvs;
  mk_entries : entries c = entries_of kvs CDB_FINAL;
  mk_pos : pos c = CDB_FINAL + slen (records kvs);
  mk_counts_len : length (counts c) = 256%nat;
  mk_counts : ∀ b, 0 <= b < 256 → counts c !! Z.to_nat b = Some (Z.of_nat (length (bucket b (entries c))));
  mk_sum : sumZ (counts c) = numentries c;
  mk_num : numentries c = Z.of_nat (length kvs);
  mk_mem : ∀ b, 0 <= b < 256 → 2 * Z.of_nat (length (bucket b (entries c))) <= memsize c;
  mk_mem_le : 1 <= memsize c <= Z.max 1 (2 * Z.of_nat (length kvs))
}.

(** The size of the finished file. *)
Definition image_size (kvs : pairs) : Z := CDB_FINAL + slen (records kvs) + 16 * Z.of_nat (length kvs).

Lemma bucket_of_range h : 0 <= bucket_of h < 256.
Proof. unfold bucket_of. rewrite Z.land_comm, land_255. by apply Z.mod_pos_bound. Qed.

Lemma pack_kvlen_ok kv :
  pair_ok kv →
  pack_kvlen (slen kv.1 + 1) (slen kv.2 + 1)
  = Some [slen kv.1 + 1; (slen kv.2 + 1) mod 256; (slen kv.2 + 1) / 256 mod 256; (slen kv.2 + 1) / 65536 mod 256].
Proof.
  intros (_ & _ & Hk & Hv). unfold pack_kvlen, SDB_MAX_KEY, SDB_MAX_VALUE, slen in *.
  rewrite (proj2 (Z.ltb_ge _ _)), (proj2 (Z.leb_gt _ _)) by lia.
  unfold u8. rewrite !land_255, !Z.shiftr_div_pow2, !Z.mod_mod by lia. rewrite (Z.mod_small (Z.of_nat (length kv.1) + 1) (2 ^ 8)) by lia.
  done.
Qed.

Lemma record_ok kv :
  pair_ok kv → record kv = [slen kv.1 + 1; (slen kv.2 + 1) mod 256; (slen kv.2 + 1) / 256 mod 256; (slen kv.2 + 1) / 65536 mod 256]
    ++ kv.1 ++ [0] ++ kv.2 ++ [0].
Proof. intros Hp. unfold record. by rewrite pack_kvlen_ok. Qed.

Lemma slen_nonneg a : 0 <= slen a.
Proof. unfold slen. lia. Qed.

Lemma record_length kv : pair_ok kv → slen (record kv) = slen kv.1 + slen kv.2 + 6.
Proof. intros Hp. rewrite record_ok by done. rewrite !slen_app. unfold slen; cbn. lia. Qed.

Lemma records_app a b : records (a ++ b) = records a ++ records b.
Proof. unfold records. by rewrite fmap_app, join_app. Qed.

Lemma records_cons kv kvs : records (kv :: kvs) = record kv ++ records kvs.
Proof. done. Qed.

Lemma records_snoc kvs kv : records (kvs ++ [kv]) = records kvs ++ record kv.
Proof. rewrite records_app. unfold records; cbn. by rewrite app_nil_r. Qed.

Lemma entries_of_snoc kvs kv p :
  entries_of (kvs ++ [kv]) p = entries_of kvs p ++ [mkHp (sdb_hash kv.1) (p + slen (records kvs))].
Proof.
  revert p. induction kvs as [|kv' kvs IH]; intros p; cbn [entries_of app].
  - unfold slen; cbn. by rewrite Z.add_0_r.
  - by rewrite IH, records_cons, slen_app, Z.add_assoc.
Qed.

Lemma entries_of_length kvs p : length (entries_of kvs p) = length kvs.
Proof. revert p. induction kvs; intros p; cbn; [done|]. by rewrite IHkvs. Qed.

Lemma entries_of_range kvs p e :
  1 <= p → Forall pair_ok kvs → e ∈ entries_of kvs p → p <= hp_p e ∧ hp_p e < p + slen (records kvs) ∧ is_u32 (hp_h e).
Proof.
  revert p. induction kvs as [|kv kvs IH]; intros p Hp Hok; cbn [entries_of]; [by intros ?%elem_of_nil|].
  apply Forall_cons in Hok as [Hkv Hok]. rewrite records_cons, slen_app.
  pose proof (record_length kv Hkv). pose proof (slen_nonneg kv.1). pose proof (slen_nonneg kv.2).
  pose proof (slen_nonneg (records kvs)).
  intros [-> |Hin]%elem_of_cons; cbn.
  - split_and!; [lia|lia|apply sdb_hash_range].
  - destruct (IH (p + slen (record kv))) as (? & ? & ?); [lia|done|done|]. split_and!; [lia|lia|done].
Qed.

Lemma sumZ_insert l b x : l !! b = Some x → sumZ (<[b := x + 1]> l) = sumZ l + 1.
Proof.
  revert b. induction l as [|y l IH]; intros [|b] Hl; cbn in *; [done..|simplify_eq; lia|].
  change (y + sumZ (<[b := x + 1]> l) = y + sumZ l + 1). rewrite (IH b Hl). lia.
Qed.

Lemma push_hp_ok hd e :
  ∃ hd', push_hp true hd e = Some hd' ∧ mjoin (reverse hd') = mjoin (reverse hd) ++ [e].
Proof.
  destruct hd as [|blk rest]; cbn [push_hp]; [by exists [[e]]|].
  destruct (CDB_HPLIST <=? length blk)%nat; eexists; (split; [done|]);
    rewrite !reverse_cons, !join_app; cbn; rewrite ?app_nil_r, <- ?app_assoc; done.
Qed.

Lemma putalign_ok c b :
  out_ok (mout c) → (length (stream (mout c)) + length b <= flimit (mout c).2)%nat →
  ∃ o, putalign c b = (true, set_mout c o) ∧ out_ok o ∧ stream o = stream (mout c) ++ b
    ∧ flimit o.2 = flimit (mout c).2.
Proof.
  intros Ho Hl. unfold putalign. destruct (mout c) as [s f] eqn:E; cbn [fst snd] in *.
  destruct (putalign_out s f b Ho Hl) as (o & -> & ? & ? & ? & _). by exists o.
Qed.

Lemma incpos_ok c len : 0 <= len → 0 <= pos c → pos c + len < 2 ^ 32 → incpos c len = (true, set_pos c (pos c + len)).
Proof.
  intros. unfold incpos. rewrite u32_small by (unfold is_u32; lia). by rewrite (proj2 (Z.ltb_ge _ _)) by lia.
Qed.

Lemma bucket_snoc b E e :
  length (bucket b (E ++ [e])) = (length (bucket b E) + if decide (in_bucket b e) then 1 else 0)%nat.
Proof. rewrite filter_app, length_app, filter_cons, filter_nil. by destruct (decide _). Qed.

Lemma addend_ok kvs c kv :
  make_inv kvs c → pair_ok kv → image_size (kvs ++ [kv]) < 2 ^ 31 →
  ∀ o, out_ok o → stream o = stream (mout c) ++ record kv →
  ∃ c', cdb_make_addend true (set_mout c o) (slen kv.1 + 1) (slen kv.2 + 1) (sdb_hash kv.1) = (true, c')
    ∧ make_inv (kvs ++ [kv]) c' ∧ mout c' = o.
Proof.
  intros Hi Hok Hs o Ho Hst. unfold cdb_make_addend. cbn [head set_mout pos].
  destruct (push_hp_ok (head c) (mkHp (sdb_hash kv.1) (pos c))) as (hd & -> & Hhd).
  fold (entries c) in Hhd. cbn [set_mout counts numentries memsize mout].
  pose proof (bucket_of_range (sdb_hash kv.1)) as Hb. change (Z.land 255 (sdb_hash kv.1)) with (bucket_of (sdb_hash kv.1)).
  set (b := bucket_of (sdb_hash kv.1)) in *.
  unfold image_size in Hs. rewrite records_snoc, slen_app, length_app in Hs; cbn in Hs.
  pose proof (record_length kv Hok) as Hr. pose proof (slen_nonneg kv.1). pose proof (slen_nonneg kv.2).
  pose proof (slen_nonneg (records kvs)). pose proof (mk_pos _ _ Hi) as Hp. unfold CDB_FINAL in *.
  pose proof (mk_num _ _ Hi) as Hn. pose proof (mk_mem_le _ _ Hi) as Hm.
  assert (∀ b', length (bucket b' (entries c)) <= length kvs)%nat as Hle.
  { intros b'. rewrite <- (entries_of_length kvs CDB_FINAL), <- (mk_entries _ _ Hi). apply length_filter. }
  pose proof (Hle b) as Hleb. rewrite (mk_counts _ _ Hi b Hb); cbn [default from_option id].
  assert (∀ b', bucket b' (entries c ++ [mkHp (sdb_hash kv.1) (pos c)])
    = bucket b' (entries c) ++ if decide (b' = b) then [mkHp (sdb_hash kv.1) (pos c)] else []) as Hbk.
  { intros b'. rewrite filter_app, filter_cons, filter_nil. unfold in_bucket; cbn. fold b. repeat case_decide; congruence. }
  rewrite (u32_small (Z.of_nat _ + 1)) by (unfold is_u32; lia).
  rewrite (u32_small ((Z.of_nat _ + 1) * 2)) by (unfold is_u32; lia).
  rewrite (u32_small (numentries c + 1)) by (unfold is_u32; lia).
  unfold KVLSZ. rewrite (u32_small (4 + (slen kv.1 + 1))), (u32_small (4 + _ + _)) by (unfold is_u32; lia).
  rewrite incpos_ok by (cbn [pos]; lia). eexists. split; [done|]. split; [|done].
  split; unfold entries; cbn [set_pos mout head counts numentries memsize pos]; rewrite ?Hhd; fold (entries c).
  - done.
  - by rewrite Hst, (mk_stream _ _ Hi), records_snoc, app_assoc.
  - by rewrite (mk_entries _ _ Hi), entries_of_snoc, Hp.
  - rewrite Hp, records_snoc, slen_app. unfold CDB_FINAL. lia.
  - rewrite length_insert. apply (mk_counts_len _ _ Hi).
  - intros b' Hb'. rewrite Hbk, length_app. destruct (decide (b' = b)) as [->|Hne]; cbn [length].
    + rewrite list_lookup_insert_eq by (rewrite (mk_counts_len _ _ Hi); lia). f_equal. lia.
    + rewrite list_lookup_insert_ne by lia. rewrite (mk_counts _ _ Hi b' Hb'). f_equal. lia.
  - rewrite sumZ_insert by apply (mk_counts _ _ Hi b Hb). by rewrite (mk_sum _ _ Hi).
  - rewrite Hn, length_app; cbn. lia.
  - intros b' Hb'. rewrite Hbk, length_app. pose proof (mk_mem _ _ Hi b' Hb').
    destruct (_ <? _) eqn:E; zbool; destruct (decide (b' = b)) as [->|]; cbn [length]; lia.
  - rewrite length_app; cbn [length]. destruct (_ <? _) eqn:E; zbool; lia.
Qed.

Lemma cdb_make_add_ok kvs c kv :
  make_inv kvs c → pair_ok kv → image_size (kvs ++ [kv]) < 2 ^ 31 →
  image_size (kvs ++ [kv]) <= Z.of_nat (flimit (mout c).2) →
  ∃ c', cdb_make_add true c kv.1 (slen kv.1) kv.2 (slen kv.2) = (true, c')
    ∧ make_inv (kvs ++ [kv]) c' ∧ flimit (mout c').2 = flimit (mout c).2.
Proof.
  intros Hi Hok Hs Hl. unfold cdb_make_add.
  assert (slen kv.1 + 1 < 2 ^ 32 ∧ slen kv.2 + 1 < 2 ^ 32) as [Hu1 Hu2].
  { destruct Hok as (_ & _ & ? & ?). unfold SDB_MAX_KEY, SDB_MAX_VALUE in *. lia. }
  pose proof (slen_nonneg kv.1). pose proof (slen_nonneg kv.2).
  rewrite !u32_small by (unfold is_u32; lia).
  assert (∀ s : bytes, take (Z.to_nat (slen s + 1)) (s ++ [0]) = s ++ [0]) as Htk.
  { intros s. apply take_ge. rewrite length_app; cbn. unfold slen. lia. }
  rewrite !Htk. unfold cdb_make_addbegin. rewrite pack_kvlen_ok by done.
  set (hdr := [slen kv.1 + 1; _; _; _]).
  assert (record kv = hdr ++ (kv.1 ++ [0]) ++ kv.2 ++ [0]) as Hrec by (rewrite record_ok, <- !app_assoc by done; done).
  pose proof (mk_stream _ _ Hi) as Hst. pose proof (f_equal length Hst) as Hln.
  rewrite length_app, length_replicate in Hln.
  unfold image_size, CDB_FINAL in Hl. rewrite records_snoc, slen_app, Hrec, !slen_app in Hl.
  unfold slen in Hl. rewrite length_app in Hl.
  destruct (putalign_ok c hdr (mk_out _ _ Hi)) as (o1 & -> & Ho1 & Hs1 & Hl1); [lia|].
  destruct (putalign_ok (set_mout c o1) (kv.1 ++ [0])) as (o2 & -> & Ho2 & Hs2 & Hl2).
  { done. } { cbn [mout set_mout]. rewrite Hs1, Hl1, !length_app. lia. }
  destruct (putalign_ok (set_mout (set_mout c o1) o2) (kv.2 ++ [0])) as (o3 & -> & Ho3 & Hs3 & Hl3).
  { done. } { cbn [mout set_mout] in *. rewrite Hs2, Hs1, Hl2, Hl1, !length_app. lia. }
  cbn [mout set_mout] in *.
  destruct (addend_ok kvs c kv Hi Hok Hs o3 Ho3) as (c' & E & Hi' & Hm').
  { rewrite Hs3, Hs2, Hs1, Hrec, <- !app_assoc. done. }
  exists c'. split; [exact E|]. split; [done|]. congruence.
Qed.

Lemma cdb_make_start_ok f :
  fdata f = [] → (1024 <= flimit f)%nat →
  ∃ c, cdb_make_start true f = (true, c) ∧ make_inv [] c ∧ flimit (mout c).2 = flimit f.
Proof.
  intros Hf Hl. unfold cdb_make_start. cbn [seek_set]. set (c := mkMake _ _ _ _ _ _). exists c. split; [done|]. split; [|done].
  assert (stream (mout c) = replicate 1024 0) as Hs by (unfold stream, fpad; cbn [c mout fst snd fdata foff]; by rewrite Hf).
  split.
  - split; [split; cbn; unfold CDB_BSPACE; lia|by right|]. rewrite Hs, length_replicate. exact Hl.
  - done.
  - done.
  - done.
  - done.
  - intros b Hb. cbn [counts c]. rewrite lookup_replicate_2 by lia. done.
  - done.
  - done.
  - intros b Hb. cbn. lia.
  - cbn. lia.
Qed.
