(* ===== verification/CdbTables.v ===== *)
(** * The tables of a finished database: proofs about [cdb_make_finish]

    The distribution of the entries over the buckets ([split_loop]), the linear
    probing that fills a bucket's table ([place_loop]), and what reaches the file. *)

From S2P Require Import Prelude Util Buffer CdbMake.

(** ** Prefix sums *)

Definition psum (l : list Z) (i : nat) : Z := sumZ (take i l).

Lemma sumZ_app a b : sumZ (a ++ b) = sumZ a + sumZ b.
Proof.
  induction a as [|x a IH]; [done|]. change (x + sumZ (a ++ b) = x + sumZ a + sumZ b). rewrite IH. lia.
Qed.

Lemma psum_S l i x : l !! i = Some x → psum l (S i) = psum l i + x.
Proof. intros Hx. unfold psum. rewrite (take_S_r _ _ _ Hx), sumZ_app. unfold sumZ; cbn. lia. Qed.

Lemma sumZ_nonneg l : Forall (λ x, 0 <= x) l → 0 <= sumZ l.
Proof. induction 1 as [|x l Hx _ IH]; [done|]. change (0 <= x + sumZ l). lia. Qed.

Lemma psum_mono l i j : Forall (λ x, 0 <= x) l → (i <= j)%nat → psum l i <= psum l j.
Proof.
  intros Hl Hij. unfold psum. rewrite <- (take_drop i (take j l)), sumZ_app, take_take, Nat.min_l by lia.
  assert (0 <= sumZ (drop i (take j l))); [|lia]. apply sumZ_nonneg. by apply Forall_drop, Forall_take.
Qed.

Lemma psum_range l i : Forall (λ x, 0 <= x) l → 0 <= psum l i <= sumZ l.
Proof.
  intros Hl. split; [by apply sumZ_nonneg, Forall_take|].
  rewrite <- (take_drop i l) at 2. rewrite sumZ_app. fold (psum l i).
  assert (0 <= sumZ (drop i l)); [|lia]. by apply sumZ_nonneg, Forall_drop.
Qed.

Lemma starts_loop_ok cs u i :
  Forall (λ x, 0 <= x) cs → 0 <= u → u + sumZ cs < 2 ^ 32 → (i < length cs)%nat →
  starts_loop cs u !! i = Some (u + psum cs (S i)).
Proof.
  intros Hcs. revert u i. induction Hcs as [|c cs Hc Hcs IH]; intros u i Hu Hs Hi; cbn [length] in Hi; [lia|].
  change (sumZ (c :: cs)) with (c + sumZ cs) in Hs. pose proof (sumZ_nonneg _ Hcs). cbn [starts_loop].
  rewrite u32_small by (unfold is_u32; lia). destruct i as [|i]; cbn [lookup list_lookup].
  - change (psum (c :: cs) 1) with (c + 0). do 2 f_equal. lia.
  - rewrite IH by lia. change (psum (c :: cs) (S (S i))) with (c + psum cs (S i)). f_equal. lia.
Qed.

Lemma starts_loop_length cs u : length (starts_loop cs u) = length cs.
Proof. revert u. induction cs; intros u; cbn; [done|]. by rewrite IHcs. Qed.

(** ** Array access *)

Lemma aget_nat {A} (a : list A) (i : nat) : aget a (Z.of_nat i) = a !! i.
Proof. unfold aget. rewrite (proj2 (Z.ltb_ge _ _)), Nat2Z.id by lia. done. Qed.

Lemma aset_Z {A} (a : list A) i x : 0 <= i < Z.of_nat (length a) → aset a i x = Some (<[Z.to_nat i := x]> a).
Proof. intros. unfold aset. by rewrite (proj2 (Z.leb_le _ _)), (proj2 (Z.ltb_lt _ _)) by lia. Qed.

Lemma aset_nat {A} (a : list A) (i : nat) x : (i < length a)%nat → aset a (Z.of_nat i) x = Some (<[i := x]> a).
Proof. intros. by rewrite aset_Z, Nat2Z.id by lia. Qed.

(** ** Sorting the entries by bucket *)

Section split.
Context (cs : list Z) (N : nat).
Context (Hlen : length cs = 256%nat) (Hpos : Forall (λ x, 0 <= x) cs).
Context (HN : sumZ cs <= Z.of_nat N) (HN32 : sumZ cs < 2 ^ 32).
Implicit Types (P l : list cdb_hp) (mem : list cdb_hp) (start : list Z).

(** Where bucket [b] of the entries [P] processed so far begins. *)
Definition seg P (b : nat) : Z := psum cs (S b) - Z.of_nat (length (bucket (Z.of_nat b) P)).

Record split_inv P start mem : Prop := {
  sp_start_len : length start = 256%nat;
  sp_mem_len : length mem = N;
  sp_start : ∀ b, (b < 256)%nat → start !! b = Some (seg P b);
  sp_mem : ∀ b j e, (b < 256)%nat → bucket (Z.of_nat b) P !! j = Some e → mem !! (Z.to_nat (seg P b) + j)%nat = Some e
}.

Lemma seg_cons P e b :
  seg (e :: P) b = seg P b - if decide (in_bucket (Z.of_nat b) e) then 1 else 0.
Proof. unfold seg. rewrite filter_cons. destruct (decide _); cbn [length]; lia. Qed.

(** The segments of two buckets do not overlap. *)
Lemma seg_disjoint b b' x x' :
  (b < 256)%nat → (b' < 256)%nat → b ≠ b' →
  psum cs b <= x < psum cs (S b) → psum cs b' <= x' < psum cs (S b') → x ≠ x'.
Proof.
  intros Hb Hb' Hne Hx Hx' ->. destruct (decide (b < b')%nat).
  - pose proof (psum_mono cs (S b) b' Hpos ltac:(lia)). lia.
  - pose proof (psum_mono cs (S b') b Hpos ltac:(lia)). lia.
Qed.

Lemma seg_range P b x :
  (b < 256)%nat → cs !! b = Some x → Z.of_nat (length (bucket (Z.of_nat b) P)) <= x → psum cs b <= seg P b <= psum cs (S b).
Proof. intros Hb Hx Hc. unfold seg. rewrite (psum_S _ _ _ Hx). lia. Qed.

Definition fits P : Prop :=
  ∀ b x, cs !! b = Some x → Z.of_nat (length (bucket (Z.of_nat b) P)) <= x.

Lemma fits_tail P e : fits (e :: P) → fits P.
Proof.
  intros Hf b x Hx. specialize (Hf b x Hx). rewrite filter_cons in Hf. destruct (decide _); cbn [length] in Hf; lia.
Qed.

Lemma split_step P start mem e :
  split_inv P start mem → fits (e :: P) →
  let b := Z.land 255 (hp_h e) in
  ∃ s start' mem', aget start b = Some s ∧ aset start b (u32 (s - 1)) = Some start'
    ∧ aset mem (u32 (s - 1)) e = Some mem' ∧ split_inv (e :: P) start' mem'.
Proof.
  intros Hi Hf b. pose proof (bucket_of_range (hp_h e)) as Hb. fold (bucket_of (hp_h e)) in b. fold b in Hb.
  set (n := Z.to_nat b). assert (b = Z.of_nat n) as Ebn by lia. assert (n < 256)%nat as Hn by lia.
  assert (in_bucket (Z.of_nat n) e) as Hin by (unfold in_bucket; lia).
  destruct (lookup_lt_is_Some_2 cs n ltac:(lia)) as [x Hx].
  pose proof (Hf n x Hx) as Hc. pose proof (seg_range (e :: P) n x Hn Hx Hc) as Hr.
  rewrite seg_cons, decide_True in Hr by done. rewrite filter_cons, decide_True in Hc by done. cbn [length] in Hc.
  pose proof (psum_range cs n Hpos). pose proof (psum_range cs (S n) Hpos).
  assert (seg P n <= psum cs (S n)) by (unfold seg; lia).
  rewrite Ebn, aget_nat, (sp_start _ _ _ Hi n Hn).
  set (s := seg P n) in *. exists s, (<[n := s - 1]> start), (<[Z.to_nat (s - 1) := e]> mem). split; [done|].
  rewrite u32_small by (unfold is_u32; lia).
  split; [apply aset_nat; rewrite (sp_start_len _ _ _ Hi); lia|].
  split; [apply aset_Z; rewrite (sp_mem_len _ _ _ Hi); lia|].
  split.
  - rewrite length_insert. apply (sp_start_len _ _ _ Hi).
  - rewrite length_insert. apply (sp_mem_len _ _ _ Hi).
  - intros b' Hb'. rewrite seg_cons. destruct (decide (b' = n)) as [-> |Hne].
    + rewrite list_lookup_insert_eq, decide_True by (rewrite ?(sp_start_len _ _ _ Hi); done). done.
    + rewrite list_lookup_insert_ne, (sp_start _ _ _ Hi b' Hb'), decide_False, Z.sub_0_r; [done| |lia].
      unfold in_bucket in *. lia.
  - intros b' j e' Hb' Hj. destruct (decide (b' = n)) as [-> |Hne].
    + rewrite seg_cons, decide_True by done. fold s. rewrite filter_cons, decide_True in Hj by done.
      destruct j as [|j]; cbn in Hj.
      * simplify_eq. rewrite Nat.add_0_r. apply list_lookup_insert_eq. rewrite (sp_mem_len _ _ _ Hi). lia.
      * rewrite list_lookup_insert_ne by lia. rewrite <- (sp_mem _ _ _ Hi n j e' Hn Hj). f_equal. fold s. lia.
    + assert (¬ in_bucket (Z.of_nat b') e) as Hni by (unfold in_bucket in *; lia).
      rewrite seg_cons, decide_False, Z.sub_0_r by done. rewrite filter_cons, decide_False in Hj by done.
      rewrite list_lookup_insert_ne; [by apply (sp_mem _ _ _ Hi)|].
      destruct (lookup_lt_is_Some_2 cs b' ltac:(lia)) as [x' Hx'].
      pose proof (fits_tail _ _ Hf b' x' Hx') as Hc'. pose proof (lookup_lt_Some _ _ _ Hj).
      pose proof (seg_range P b' x' Hb' Hx' Hc'). pose proof (psum_range cs b' Hpos).
      assert (seg P b' + Z.of_nat j < psum cs (S b')) by (unfold seg; lia).
      pose proof (seg_disjoint n b' (s - 1) (seg P b' + Z.of_nat j) Hn Hb' ltac:(lia) ltac:(lia) ltac:(lia)). lia.
Qed.

Lemma split_loop_ok l P start mem :
  split_inv P start mem → fits (reverse l ++ P) →
  ∃ start' mem', split_loop l start mem = Some (start', mem') ∧ split_inv (reverse l ++ P) start' mem'.
Proof.
  revert P start mem. induction l as [|e l IH]; intros P start mem Hi Hf; cbn [split_loop]; [by eexists _, _|].
  rewrite reverse_cons, <- app_assoc in Hf; cbn in Hf.
  assert (fits (e :: P)) as Hf'.
  { intros b x Hx. specialize (Hf b x Hx). rewrite filter_app, length_app in Hf. lia. }
  destruct (split_step P start mem e Hi Hf') as (s & start' & mem' & -> & E1 & E2 & Hi'). cbn [mbind option_bind].
  rewrite E1; cbn [mbind option_bind]. rewrite E2; cbn [mbind option_bind].
  destruct (IH (e :: P) start' mem' Hi' Hf) as (s2 & m2 & -> & Hi2).
  eexists _, _. split; [done|]. by rewrite reverse_cons, <- app_assoc.
Qed.

Lemma split_init mem :
  length mem = N → split_inv [] (starts_loop cs 0) mem.
Proof.
  intros Hm. split; [by rewrite starts_loop_length|done| |].
  - intros b Hb. rewrite starts_loop_ok by (try done; lia). f_equal. unfold seg; cbn. lia.
  - intros b j e Hb. by rewrite filter_nil, lookup_nil.
Qed.
End split.

(** ** Linear probing *)

Definition used (e : cdb_hp) : Prop := hp_p e ≠ 0.
#[global] Instance used_dec e : Decision (used e).
Proof. unfold used. apply _. Defined.

(** The first slot tried for a hash, and the [d]-th slot tried from [w]. *)
Definition home (L : nat) (h : Z) : Z := Z.shiftr h 8 mod Z.of_nat L.
Definition walk (L : nat) (w : Z) (d : nat) : nat := Z.to_nat ((w + Z.of_nat d) mod Z.of_nat L).

Lemma filter_Forall_id {B} (Q : B → Prop) `{∀ x, Decision (Q x)} (l : list B) : Forall Q l → filter Q l = l.
Proof. induction 1 as [|x l Hx _ IH]; [done|]. by rewrite filter_cons, decide_True, IH. Qed.

Lemma filter_insert_count {B} (Q : B → Prop) `{∀ x, Decision (Q x)} (l : list B) i x y :
  l !! i = Some x → ¬ Q x → Q y → length (filter Q (<[i := y]> l)) = S (length (filter Q l)).
Proof.
  revert i. induction l as [|z l IH]; intros [|i] Hl Hx Hy; cbn in Hl; [done..| |].
  - simplify_eq. change (<[0%nat := y]> (x :: l)) with (y :: l). rewrite !filter_cons, decide_True, decide_False by done. done.
  - change (<[S i := y]> (z :: l)) with (z :: <[i := y]> l). rewrite !filter_cons.
    case_decide; cbn [length]; by rewrite (IH i).
Qed.

Record tbl_inv (L : nat) (E T : list cdb_hp) : Prop := {
  tbl_len : (L <= length T)%nat;
  tbl_used : Forall used E;
  tbl_slot : ∀ i e, (i < L)%nat → T !! i = Some e → e = mkHp 0 0 ∨ e ∈ E;
  tbl_ent : ∀ k e, E !! k = Some e →
    ∃ d, (d < L)%nat ∧ T !! walk L (home L (hp_h e)) d = Some e
      ∧ ∀ d', (d' < d)%nat → ∃ e', T !! walk L (home L (hp_h e)) d' = Some e' ∧ used e' ∧ e' ∈ take k E;
  tbl_cnt : length (filter used (take L T)) = length E
}.

Lemma walk_lt L w d : (0 < L)%nat → (walk L w d < L)%nat.
Proof. intros. unfold walk. pose proof (Z.mod_pos_bound (w + Z.of_nat d) (Z.of_nat L)). lia. Qed.

Lemma walk_onto L w i : (i < L)%nat → ∃ d, (d < L)%nat ∧ walk L w d = i.
Proof.
  intros Hi. exists (Z.to_nat ((Z.of_nat i - w) mod Z.of_nat L)).
  pose proof (Z.mod_pos_bound (Z.of_nat i - w) (Z.of_nat L) ltac:(lia)). split; [lia|].
  unfold walk. rewrite Z2Nat.id by lia. rewrite Zplus_mod_idemp_r.
  replace (w + (Z.of_nat i - w)) with (Z.of_nat i) by lia. rewrite Z.mod_small by lia. lia.
Qed.

Lemma walk_inj L w d d' : (d < L)%nat → (d' < L)%nat → walk L w d = walk L w d' → d = d'.
Proof.
  intros Hd Hd' E. unfold walk in E.
  pose proof (Z.mod_pos_bound (w + Z.of_nat d) (Z.of_nat L) ltac:(lia)).
  pose proof (Z.mod_pos_bound (w + Z.of_nat d') (Z.of_nat L) ltac:(lia)).
  apply Z2Nat.inj in E; [|lia..].
  assert ((Z.of_nat d - Z.of_nat d') mod Z.of_nat L = 0) as Hz.
  { replace (Z.of_nat d - Z.of_nat d') with ((w + Z.of_nat d) - (w + Z.of_nat d')) by lia.
    rewrite Zminus_mod, E, Z.sub_diag. done. }
  apply Z.mod_divide in Hz as [q Hq]; [|lia]. assert (q = 0) by nia. lia.
Qed.

(** The step of the probe loop. *)
Lemma walk_S L w d :
  (0 < L)%nat → Z.of_nat (walk L w (S d))
  = (if Z.of_nat (walk L w d) + 1 =? Z.of_nat L then 0 else Z.of_nat (walk L w d) + 1).
Proof.
  intros HL. unfold walk. pose proof (Z.mod_pos_bound (w + Z.of_nat d) (Z.of_nat L) ltac:(lia)) as Hr.
  pose proof (Z.mod_pos_bound (w + Z.of_nat (S d)) (Z.of_nat L) ltac:(lia)). rewrite !Z2Nat.id by lia.
  replace (w + Z.of_nat (S d)) with ((w + Z.of_nat d) + 1) by lia. rewrite <- Zplus_mod_idemp_l.
  set (r := (w + Z.of_nat d) mod Z.of_nat L) in *. destruct (_ =? _) eqn:E; zbool.
  - rewrite E. by apply Z.mod_same; lia.
  - apply Z.mod_small. lia.
Qed.

Lemma walk_0 L h : (0 < L)%nat → Z.of_nat (walk L (home L h) 0) = home L h.
Proof.
  intros. unfold walk. rewrite Z.add_0_r. unfold home at 1. rewrite Z.mod_mod by lia.
  pose proof (Z.mod_pos_bound (Z.shiftr h 8) (Z.of_nat L)). rewrite Z2Nat.id by lia. done.
Qed.

Lemma free_slot L (T : list cdb_hp) :
  (L <= length T)%nat → (length (filter used (take L T)) < L)%nat → ∃ i e, (i < L)%nat ∧ T !! i = Some e ∧ ¬ used e.
Proof.
  intros HL Hlt. destruct (Forall_Exists_dec used (λ e, ¬ used e) (λ e, decide (used e)) (take L T)) as [Ha|He].
  - rewrite filter_Forall_id in Hlt by done. rewrite length_take in Hlt. lia.
  - apply Exists_exists in He as (e & Hin & Hu). apply list_elem_of_lookup in Hin as [i Hi].
    apply lookup_take_Some in Hi as [Hi ?]. by exists i, e.
Qed.

Section probing.
Context (A : list cdb_hp).
Implicit Types (E T : list cdb_hp).

Lemma aget_hash T (i : nat) : aget (A ++ T) (Z.of_nat (length A) + Z.of_nat i) = T !! i.
Proof.
  rewrite <- Nat2Z.inj_add, aget_nat, lookup_app_r by lia. f_equal. lia.
Qed.

Lemma aset_hash T (i : nat) e :
  (i < length T)%nat → aset (A ++ T) (Z.of_nat (length A) + Z.of_nat i) e = Some (A ++ <[i := e]> T).
Proof.
  intros Hi. rewrite <- Nat2Z.inj_add, aset_nat by (rewrite length_app; lia).
  by rewrite insert_app_r.
Qed.

Lemma probe_loop_ok L T h fuel d :
  (0 < L <= length T)%nat →
  (∃ d1 e, (d <= d1 < d + fuel)%nat ∧ T !! walk L (home L h) d1 = Some e ∧ ¬ used e) →
  (∀ d', (d' < d)%nat → ∃ e, T !! walk L (home L h) d' = Some e ∧ used e) →
  ∃ d2 e2, (d2 < d + fuel)%nat
    ∧ probe_loop fuel (A ++ T) (Z.of_nat (length A)) (Z.of_nat L) (Z.of_nat (walk L (home L h) d))
      = Some (Z.of_nat (walk L (home L h) d2))
    ∧ T !! walk L (home L h) d2 = Some e2 ∧ ¬ used e2
    ∧ ∀ d', (d' < d2)%nat → ∃ e, T !! walk L (home L h) d' = Some e ∧ used e.
Proof.
  intros HL. revert d. induction fuel as [|fuel IH]; intros d (d1 & e1 & Hd1 & Hl1 & Hu1) Hbefore; [lia|].
  cbn [probe_loop]. rewrite aget_hash.
  destruct (lookup_lt_is_Some_2 T (walk L (home L h) d)) as [e He].
  { pose proof (walk_lt L (home L h) d). lia. }
  rewrite He; cbn [mbind option_bind]. destruct (hp_p e =? 0) eqn:E; zbool.
  - exists d, e. split_and!; [lia|done|done|by intros ?|done].
  - rewrite <- walk_S by lia.
    assert (d ≠ d1) by (intros <-; rewrite He in Hl1; simplify_eq; by apply Hu1).
    destruct (IH (S d)) as (d2 & e2 & ? & ? & ? & ? & ?).
    + exists d1, e1. split_and!; [lia|lia|done|done].
    + intros d' Hd'. destruct (decide (d' = d)) as [-> |]; [by exists e|]. apply Hbefore. lia.
    + exists d2, e2. split_and!; [lia|done..].
Qed.

(** One entry put in its slot. *)
Lemma place_step L E T e :
  tbl_inv L E T → (length E < L)%nat → used e →
  ∃ w, probe_loop L (A ++ T) (Z.of_nat (length A)) (Z.of_nat L) (home L (hp_h e)) = Some (Z.of_nat w)
    ∧ (w < L)%nat ∧ tbl_inv L (E ++ [e]) (<[w := e]> T).
Proof.
  intros [Hlen Hus Hslot Hent Hcnt] HE He.
  destruct (free_slot L T) as (i & e0 & Hi & Hl0 & Hu0); [lia..|].
  destruct (walk_onto L (home L (hp_h e)) i Hi) as (d0 & Hd0 & Ed0).
  destruct (probe_loop_ok L T (hp_h e) L 0) as (d & e2 & Hd & Hp & Hle & Hu & Hbefore); [lia|..].
  { exists d0, e0. rewrite Ed0. split_and!; [lia|lia|done|done]. }
  { intros; lia. }
  rewrite walk_0 in Hp by lia. set (w := walk L (home L (hp_h e)) d) in *.
  assert (w < L)%nat as Hw by (apply walk_lt; lia).
  assert (∀ j e', T !! j = Some e' → used e' → <[w := e]> T !! j = Some e') as Hkeep.
  { intros j e' Hj Hue. rewrite list_lookup_insert_ne; [done|]. intros <-. rewrite Hle in Hj. by simplify_eq. }
  exists w. split; [done|]. split; [done|]. split.
  - by rewrite length_insert.
  - apply Forall_app. split; [done|]. by constructor.
  - intros j e' Hj [(-> & -> & _)|[? Hl]]%list_lookup_insert_Some; [right; set_solver|].
    destruct (Hslot j e' Hj Hl); [by left|right; set_solver].
  - intros k e' Hk. apply lookup_app_Some in Hk as [Hk|[Hk1 Hk]].
    + destruct (Hent k e' Hk) as (d1 & Hd1 & Hl1 & Hb1). exists d1. split; [done|]. split.
      * apply Hkeep; [done|]. rewrite Forall_lookup in Hus. by eapply Hus.
      * intros d' Hd'. destruct (Hb1 d' Hd') as (e'' & ? & ? & ?). exists e''. split_and!; [by apply Hkeep|done|].
        rewrite take_app_le; [done|]. apply lookup_lt_Some in Hk. lia.
    + apply list_lookup_singleton_Some in Hk as [Hk0 <-]. exists d. split; [lia|]. split.
      * apply list_lookup_insert_eq. lia.
      * intros d' Hd'. destruct (Hbefore d' Hd') as (e'' & Hl'' & Hu''). exists e''. split_and!; [by apply Hkeep|done|].
        assert (k = length E) as -> by lia. rewrite take_app_length.
        assert (walk L (home L (hp_h e)) d' < L)%nat as Hwl by (apply walk_lt; lia).
        destruct (Hslot _ _ Hwl Hl'') as [-> |]; [by destruct Hu''|done].
  - rewrite take_insert_lt by done. rewrite (filter_insert_count used (take L T) w e2 e), length_app; [cbn; lia| |done|done].
    by rewrite lookup_take_lt.
Qed.

Lemma place_loop_ok L n s E T l :
  tbl_inv L E T → (length E + n <= L)%nat → (n = 0 ∨ length E + n < L)%nat → length l = n → Forall used l →
  (∀ j e, l !! j = Some e → A !! (Z.to_nat s + j)%nat = Some e) → 0 <= s →
  ∃ T', place_loop n s (Z.of_nat (length A)) (Z.of_nat L) (A ++ T) = Some (A ++ T')
    ∧ tbl_inv L (E ++ l) T' ∧ length T' = length T.
Proof.
  revert s E T l. induction n as [|n IH]; intros s E T l Hi HL HL' Hl Hu HA Hs; cbn [place_loop].
  - apply length_zero_iff_nil in Hl as ->. exists T. by rewrite app_nil_r.
  - destruct l as [|e l]; [done|]. cbn in Hl. apply Forall_cons in Hu as [He Hu].
    assert (aget (A ++ T) s = Some e) as Hg.
    { rewrite <- (Z2Nat.id s), aget_nat by done. pose proof (HA 0%nat e eq_refl) as H0. rewrite Nat.add_0_r in H0.
      by rewrite lookup_app_l by (by eapply lookup_lt_Some). }
    rewrite Hg; cbn [mbind option_bind]. rewrite Nat2Z.id.
    destruct (place_step L E T e Hi ltac:(lia) He) as (w & Hp & Hw & Hi'). unfold home in Hp. rewrite Hp.
    cbn [mbind option_bind]. pose proof (tbl_len _ _ _ Hi).
    rewrite aset_hash by lia. cbn [mbind option_bind].
    destruct (IH (s + 1) (E ++ [e]) (<[w := e]> T) l) as (T' & -> & Hi2 & Hl2).
    + done.
    + rewrite length_app; cbn. lia.
    + rewrite length_app; cbn. lia.
    + lia.
    + done.
    + intros j e' Hj. rewrite <- (HA (S j) e' Hj). f_equal. lia.
    + lia.
    + exists T'. split; [done|]. rewrite <- app_assoc in Hi2. split; [exact Hi2|]. by rewrite Hl2, length_insert.
Qed.

Lemma zero_loop_ok n u T :
  (u + n <= length T)%nat →
  zero_loop n (Z.of_nat (length A)) (Z.of_nat u) (A ++ T)
  = Some (A ++ take u T ++ replicate n (mkHp 0 0) ++ drop (u + n) T).
Proof.
  revert u T. induction n as [|n IH]; intros u T Hl; cbn [zero_loop].
  - cbn. by rewrite Nat.add_0_r, take_drop.
  - rewrite aset_hash by lia. cbn [mbind option_bind].
    replace (Z.of_nat u + 1) with (Z.of_nat (S u)) by lia. rewrite IH by (rewrite length_insert; lia).
    f_equal. f_equal. rewrite drop_insert_lt by lia. rewrite (take_S_r _ _ (mkHp 0 0)) by (apply list_lookup_insert_eq; lia).
    rewrite take_insert_ge by lia. rewrite <- app_assoc. cbn. by rewrite Nat.add_succ_r.
Qed.

Lemma zero_inv L T : (L <= length T)%nat → tbl_inv L [] (replicate L (mkHp 0 0) ++ drop L T).
Proof.
  intros HL. split; [rewrite length_app, length_replicate; lia|constructor|..].
  - intros i e Hi He. rewrite lookup_app_l in He by (rewrite length_replicate; lia).
    apply lookup_replicate in He as [-> _]. by left.
  - intros k e. by rewrite lookup_nil.
  - rewrite take_app_length' by by rewrite length_replicate.
    clear HL. induction L; [done|]. cbn [replicate]. rewrite filter_cons, decide_False; [done|]. unfold used; cbn. lia.
Qed.
End probing.

(** ** Writing the tables *)

Definition pack_slot (e : cdb_hp) : bytes := ut32_pack (hp_h e) ++ ut32_pack (hp_p e).
Definition slots (T : list cdb_hp) : bytes := mjoin (pack_slot <$> T).

Lemma pack_slot_length e : length (pack_slot e) = 8%nat.
Proof. done. Qed.

Lemma slots_length T : length (slots T) = (8 * length T)%nat.
Proof.
  induction T as [|e T IH]; [done|]. change (slots (e :: T)) with (pack_slot e ++ slots T).
  rewrite length_app, IH, pack_slot_length. cbn [length]. lia.
Qed.

Lemma slots_snoc T e : slots (T ++ [e]) = slots T ++ pack_slot e.
Proof. unfold slots. rewrite fmap_app, join_app; cbn [fmap list_fmap mjoin list_join]. by rewrite app_nil_r. Qed.

Lemma emit_loop_ok A T n u c :
  (u + n <= length T)%nat → out_ok (mout c) → 0 <= pos c → pos c + 8 * Z.of_nat n < 2 ^ 32 →
  (length (stream (mout c)) + 8 * n <= flimit (mout c).2)%nat →
  ∃ o, emit_loop n (Z.of_nat (length A)) (Z.of_nat u) (A ++ T) c
       = Some (true, set_pos (set_mout c o) (pos c + 8 * Z.of_nat n))
    ∧ out_ok o ∧ stream o = stream (mout c) ++ slots (take n (drop u T)) ∧ flimit o.2 = flimit (mout c).2.
Proof.
  revert u c. induction n as [|n IH]; intros u c HT Ho Hp0 Hp Hr; cbn [emit_loop].
  - exists (mout c). rewrite take_0; cbn [slots fmap list_fmap mjoin list_join]. rewrite app_nil_r, Z.add_0_r.
    by destruct c.
  - destruct (lookup_lt_is_Some_2 T u ltac:(lia)) as [e He]. rewrite aget_hash, He. cbn [mbind option_bind].
    fold (pack_slot e). destruct (putalign_ok c (pack_slot e) Ho) as (o & -> & Ho1 & Hs1 & Hl1).
    { rewrite pack_slot_length. lia. }
    rewrite incpos_ok by (cbn [set_mout pos]; lia).
    replace (Z.of_nat u + 1) with (Z.of_nat (S u)) by lia.
    destruct (IH (S u) (set_pos (set_mout c o) (pos (set_mout c o) + 8))) as (o2 & -> & Ho2 & Hs2 & Hl2).
    + lia.
    + done.
    + cbn [set_pos set_mout pos]. lia.
    + cbn [set_pos set_mout pos]. lia.
    + cbn [set_pos set_mout mout]. rewrite Hs1, Hl1, length_app, pack_slot_length. lia.
    + cbn [set_pos set_mout mout pos] in *. exists o2. split; [f_equal; f_equal; unfold set_pos, set_mout; cbn; f_equal; lia|].
      split; [done|]. split; [|congruence]. rewrite Hs2, Hs1, <- app_assoc. f_equal.
      rewrite (drop_S _ _ _ He). cbn [take]. done.
Qed.

Lemma tbl_inv_take L E T : tbl_inv L E T → tbl_inv L E (take L T).
Proof.
  intros [Hl Hu Hs He Hc]. destruct (decide (L = 0)%nat) as [-> |].
  { split; [lia|done|intros; lia| |by rewrite take_0 in *].
    intros k e Hk. destruct (He k e Hk) as (d & ? & _). lia. }
  assert (∀ w d, take L T !! walk L w d = T !! walk L w d) as Hw.
  { intros w d. apply lookup_take_lt, walk_lt. lia. }
  split; [rewrite length_take; lia|done|..].
  - intros i e Hi Hle. rewrite lookup_take_lt in Hle by done. eauto.
  - intros k e Hk. destruct (He k e Hk) as (d & ? & ? & Hb). exists d. rewrite Hw. split_and!; [done..|].
    intros d' Hd'. rewrite Hw. eauto.
  - by rewrite take_take, Nat.min_id.
Qed.

Section buckets.
Context (E A : list cdb_hp) (cs start : list Z) (P0 : Z) (S0 : bytes) (lim : nat).
Abbreviation B i := (bucket (Z.of_nat i) E).
Context (Hcs_len : length cs = 256%nat).
Context (Hcs : ∀ i, (i < 256)%nat → cs !! i = Some (Z.of_nat (length (B i)))).
Context (Hstart : ∀ i, (i < 256)%nat → start !! i = Some (psum cs i)).
Context (HA : ∀ i j e, (i < 256)%nat → B i !! j = Some e → A !! (Z.to_nat (psum cs i) + j)%nat = Some e).
Context (HE : Forall used E).
Context (HP0 : 0 <= P0) (Hroom : P0 + 16 * sumZ cs < 2 ^ 32).
Context (Hlim : Z.of_nat (length S0) + 16 * sumZ cs <= Z.of_nat lim).

Definition table_pos (i : nat) : Z := P0 + 16 * psum cs i.
Definition header (n : nat) : bytes := mjoin ((λ i, ut32_pack (table_pos i)) <$> seq 0 n).

(** The state before bucket [i], the tables [Ts] being written. *)
Record bk_inv (i : nat) (Ts : list (list cdb_hp)) (final : bytes) (c : cdb_make) : Prop := {
  bk_len : length Ts = i;
  bk_tab : ∀ j T, Ts !! j = Some T → length T = (2 * length (B j))%nat ∧ tbl_inv (2 * length (B j)) (B j) T;
  bk_final : final = header i;
  bk_out : out_ok (mout c);
  bk_lim : flimit (mout c).2 = lim;
  bk_stream : stream (mout c) = S0 ++ mjoin (slots <$> Ts);
  bk_size : Z.of_nat (length (mjoin (slots <$> Ts))) = 16 * psum cs i;
  bk_pos : pos c = table_pos i;
  bk_counts : counts c = cs;
  bk_num : numentries c = Z.of_nat (length A)
}.

Lemma cs_nonneg : Forall (λ x, 0 <= x) cs.
Proof.
  apply Forall_lookup. intros i x Hx. pose proof (lookup_lt_Some _ _ _ Hx). rewrite Hcs in Hx by lia.
  injection Hx as <-. lia.
Qed.

Lemma header_S i : header (S i) = header i ++ ut32_pack (table_pos i).
Proof. unfold header. rewrite seq_S, fmap_app, join_app; cbn [fmap list_fmap mjoin list_join]. by rewrite app_nil_r. Qed.

Lemma bucket_step i Ts final c T :
  bk_inv i Ts final c → (i < 256)%nat → (2 * length (B i) <= length T)%nat →
  ∃ T' T'' c', zero_loop (2 * length (B i)) (Z.of_nat (length A)) 0 (A ++ T) = Some (A ++ T')
    ∧ place_loop (length (B i)) (psum cs i) (Z.of_nat (length A)) (Z.of_nat (2 * length (B i))) (A ++ T') = Some (A ++ T'')
    ∧ length T'' = length T
    ∧ emit_loop (2 * length (B i)) (Z.of_nat (length A)) 0 (A ++ T'') c = Some (true, c')
    ∧ bk_inv (S i) (Ts ++ [take (2 * length (B i)) T'']) (final ++ ut32_pack (pos c)) c'.
Proof.
  intros Hi Hlt HT. set (n := length (B i)) in *. set (L := (2 * n)%nat) in *.
  pose proof (psum_S cs i _ (Hcs i Hlt)) as Hps. pose proof (psum_range cs (S i) cs_nonneg) as Hr.
  pose proof (psum_range cs i cs_nonneg) as Hr0.
  pose proof (zero_loop_ok A L 0 T HT) as Hz. cbn [take app Nat.add] in Hz. change (Z.of_nat 0) with 0 in Hz.
  set (T1 := replicate L (mkHp 0 0) ++ drop L T) in *.
  assert (length T1 = length T) as HT1 by (unfold T1; rewrite length_app, length_replicate, length_drop; lia).
  destruct (place_loop_ok A L n (psum cs i) [] T1 (B i)) as (T2 & Hp & Hinv & HT2).
  { apply zero_inv. lia. } { cbn. lia. } { cbn. lia. } { done. }
  { apply Forall_forall. intros e [_ ?]%list_elem_of_filter. rewrite Forall_forall in HE. auto. }
  { intros j e Hj. by apply HA. } { lia. }
  cbn [app] in Hinv.
  pose proof (f_equal length (bk_stream _ _ _ _ Hi)) as Hsl. rewrite length_app in Hsl.
  pose proof (bk_size _ _ _ _ Hi) as Hsz. pose proof (bk_pos _ _ _ _ Hi) as Hpos. unfold table_pos in Hpos.
  destruct (emit_loop_ok A T2 L 0 c) as (o & He & Ho & Hso & Hlo).
  { lia. } { apply (bk_out _ _ _ _ Hi). } { lia. } { lia. }
  { rewrite (bk_lim _ _ _ _ Hi). lia. }
  exists T1, T2. eexists. split; [done|]. split; [done|]. split; [lia|]. split; [exact He|].
  cbn [drop] in Hso. change (drop 0 T2) with T2 in Hso. split; cbn [set_pos set_mout mout pos counts numentries].
  - rewrite length_app, (bk_len _ _ _ _ Hi); cbn. lia.
  - intros j T' Hj. apply lookup_app_Some in Hj as [Hj|[Hj1 Hj]]; [by apply (bk_tab _ _ _ _ Hi)|].
    rewrite (bk_len _ _ _ _ Hi) in Hj1, Hj. apply list_lookup_singleton_Some in Hj as [Hj0 <-].
    assert (j = i) as -> by lia. fold n. rewrite length_take. split; [lia|]. by apply tbl_inv_take.
  - by rewrite header_S, (bk_final _ _ _ _ Hi), (bk_pos _ _ _ _ Hi).
  - done.
  - by rewrite Hlo, (bk_lim _ _ _ _ Hi).
  - rewrite Hso, (bk_stream _ _ _ _ Hi), fmap_app, join_app; cbn [fmap list_fmap mjoin list_join].
    by rewrite app_nil_r, app_assoc.
  - rewrite fmap_app, join_app; cbn [fmap list_fmap mjoin list_join].
    rewrite app_nil_r, length_app, slots_length, length_take, Nat2Z.inj_add, Hsz, Hps. lia.
  - rewrite Hpos. unfold table_pos. lia.
  - apply (bk_counts _ _ _ _ Hi).
  - apply (bk_num _ _ _ _ Hi).
Qed.

Lemma buckets_loop_ok n i Ts final c T :
  bk_inv i Ts final c → (i + n = 256)%nat → (∀ j, (j < 256)%nat → 2 * length (B j) <= length T)%nat →
  ∃ Ts' final' c', buckets_loop n (Z.of_nat i) start (A ++ T) final c = Some (true, (final', c'))
    ∧ bk_inv 256 Ts' final' c'.
Proof.
  revert i Ts final c T. induction n as [|n IH]; intros i Ts final c T Hi Hn HT; cbn [buckets_loop].
  - assert (i = 256%nat) as -> by lia. eexists _, _, _. by split.
  - assert (i < 256)%nat as Hlt by lia. rewrite (bk_counts _ _ _ _ Hi), !aget_nat, (Hcs i Hlt), (Hstart i Hlt).
    rewrite (bk_num _ _ _ _ Hi). cbn [mbind option_bind].
    pose proof (psum_S cs i _ (Hcs i Hlt)) as Hps. pose proof (psum_range cs (S i) cs_nonneg).
    pose proof (psum_range cs i cs_nonneg).
    assert (u32 (Z.shiftl (Z.of_nat (length (B i))) 1) = Z.of_nat (2 * length (B i))) as ->.
    { rewrite Z.shiftl_mul_pow2 by lia. change (2 ^ 1) with 2. rewrite u32_small by (unfold is_u32; lia). lia. }
    rewrite !Nat2Z.id.
    destruct (bucket_step i Ts final c T Hi Hlt (HT i Hlt)) as (T1 & T2 & c' & -> & Hp & HT2 & He & Hi').
    cbn [mbind option_bind]. rewrite Hp; cbn [mbind option_bind]. rewrite He; cbn [mbind option_bind].
    replace (Z.of_nat i + 1) with (Z.of_nat (S i)) by lia.
    apply (IH (S i) (Ts ++ [take (2 * length (B i)) T2]) (final ++ ut32_pack (pos c)) c' T2 Hi'); [lia|].
    intros j Hj. rewrite HT2. auto.
Qed.
End buckets.

(** ** The finished file *)

Definition kvs_entries (kvs : pairs) : list cdb_hp := entries_of kvs CDB_FINAL.
Definition kvs_bucket (kvs : pairs) (b : nat) : list cdb_hp := bucket (Z.of_nat b) (kvs_entries kvs).
Definition kvs_counts (kvs : pairs) : list Z := (λ b, Z.of_nat (length (kvs_bucket kvs b))) <$> seq 0 256.
Definition tables_pos (kvs : pairs) (b : nat) : Z :=
  table_pos (kvs_counts kvs) (CDB_FINAL + slen (records kvs)) b.

(** Header, records and tables of the file for the pairs [kvs]. *)
Record image_ok (kvs : pairs) (img : bytes) : Prop := {
  im_size : slen img = image_size kvs;
  im_sum : sumZ (kvs_counts kvs) = Z.of_nat (length kvs);
  im_head : ∀ b, (b < 256)%nat → take 4 (drop (4 * b) img) = ut32_pack (tables_pos kvs b);
  im_recs : take (length (records kvs)) (drop 1024 img) = records kvs;
  im_tab : ∀ b, (b < 256)%nat → ∃ T,
    length T = (2 * length (kvs_bucket kvs b))%nat
    ∧ tbl_inv (2 * length (kvs_bucket kvs b)) (kvs_bucket kvs b) T
    ∧ take (8 * length T) (drop (Z.to_nat (tables_pos kvs b)) img) = slots T
}.

Lemma kvs_counts_lookup kvs b :
  (b < 256)%nat → kvs_counts kvs !! b = Some (Z.of_nat (length (kvs_bucket kvs b))).
Proof. intros Hb. unfold kvs_counts. rewrite list_lookup_fmap, lookup_seq_lt by lia. done. Qed.

Lemma make_inv_counts kvs c : make_inv kvs c → counts c = kvs_counts kvs.
Proof.
  intros Hi. apply list_eq_same_length with 256%nat; [|apply (mk_counts_len _ _ Hi)|].
  { unfold kvs_counts. by rewrite length_fmap, length_seq. }
  intros i x y Hlt Hx Hy. rewrite kvs_counts_lookup in Hy by done.
  pose proof (mk_counts _ _ Hi (Z.of_nat i) ltac:(lia)) as Hc. rewrite Nat2Z.id, Hx, (mk_entries _ _ Hi) in Hc.
  unfold kvs_bucket, kvs_entries in Hy. congruence.
Qed.

(** A chunk of a concatenation. *)
Lemma mjoin_chunk {B} (ls : list (list B)) b x rest :
  ls !! b = Some x → take (length x) (drop (length (mjoin (take b ls))) (mjoin ls ++ rest)) = x.
Proof.
  revert b. induction ls as [|l ls IH]; intros [|b] Hb; cbn [lookup list_lookup] in Hb; [done..| |];
    cbn [take mjoin list_join]; rewrite <- app_assoc.
  - simplify_eq. cbn [length]. by rewrite drop_0, take_app_length.
  - rewrite length_app, <- drop_drop, drop_app_length. by apply IH.
Qed.

Lemma header_length cs P0 n : length (header cs P0 n) = (4 * n)%nat.
Proof.
  induction n as [|n IH]; [done|]. rewrite header_S, length_app, IH, ut32_pack_length. lia.
Qed.

Lemma header_take cs P0 n b : (b <= n)%nat → mjoin (take b ((λ i, ut32_pack (table_pos cs P0 i)) <$> seq 0 n)) = header cs P0 b.
Proof. intros. rewrite <- fmap_take, take_seq, Nat.min_l by lia. done. Qed.

Lemma tables_take_length kvs Ts b :
  length Ts = 256%nat → (∀ j T, Ts !! j = Some T → length T = (2 * length (kvs_bucket kvs j))%nat) → (b <= 256)%nat →
  Z.of_nat (length (mjoin (take b (slots <$> Ts)))) = 16 * psum (kvs_counts kvs) b.
Proof.
  intros Hl HT. induction b as [|b IH]; intros Hb; [done|].
  destruct (lookup_lt_is_Some_2 Ts b ltac:(lia)) as [T HTb].
  rewrite (psum_S _ _ _ (kvs_counts_lookup kvs b ltac:(lia))).
  rewrite (take_S_r _ _ (slots T)) by by rewrite list_lookup_fmap, HTb.
  rewrite join_app, length_app; cbn [mjoin list_join]. rewrite app_nil_r, slots_length, (HT b T HTb). lia.
Qed.

(** Putting the three parts together. *)
Lemma image_ok_intro kvs Ts :
  length Ts = 256%nat →
  (∀ j T, Ts !! j = Some T → length T = (2 * length (kvs_bucket kvs j))%nat ∧ tbl_inv (2 * length (kvs_bucket kvs j)) (kvs_bucket kvs j) T) →
  sumZ (kvs_counts kvs) = Z.of_nat (length kvs) →
  image_ok kvs (header (kvs_counts kvs) (CDB_FINAL + slen (records kvs)) 256 ++ records kvs ++ mjoin (slots <$> Ts)).
Proof.
  intros Hl HT Hsum. set (P0 := CDB_FINAL + slen (records kvs)). set (cs := kvs_counts kvs) in *.
  pose proof (header_length cs P0 256) as HH.
  assert (∀ j T, Ts !! j = Some T → length T = (2 * length (kvs_bucket kvs j))%nat) as HT1 by (intros; by eapply HT).
  split.
  - rewrite !slen_app. unfold image_size. unfold slen at 1 3. rewrite HH.
    rewrite <- (take_ge (slots <$> Ts) 256) by (rewrite length_fmap; lia).
    rewrite (tables_take_length kvs Ts 256 Hl HT1) by lia. fold cs.
    unfold psum. rewrite take_ge, Hsum by (unfold cs, kvs_counts; by rewrite length_fmap, length_seq).
    unfold CDB_FINAL. lia.
  - done.
  - intros b Hb.
    pose proof (mjoin_chunk ((λ i, ut32_pack (table_pos cs P0 i)) <$> seq 0 256) b (ut32_pack (tables_pos kvs b))
      (records kvs ++ mjoin (slots <$> Ts))) as Hc.
    rewrite header_take, header_length, ut32_pack_length in Hc by lia. apply Hc.
    rewrite list_lookup_fmap, lookup_seq_lt by lia. done.
  - change 1024%nat with (4 * 256)%nat. rewrite <- HH, drop_app_length. by rewrite take_app_length.
  - intros b Hb. destruct (lookup_lt_is_Some_2 Ts b ltac:(lia)) as [T HTb]. destruct (HT b T HTb) as [HTl HTi].
    exists T. split_and!; [done|done|]. pose proof (tables_take_length kvs Ts b Hl HT1 ltac:(lia)) as Hps. fold cs in Hps.
    assert (Z.to_nat (tables_pos kvs b) = length (header cs P0 256) + (length (records kvs) + length (mjoin (take b (slots <$> Ts)))))%nat as ->.
    { unfold tables_pos, table_pos. fold cs. rewrite <- Hps, HH. unfold CDB_FINAL, slen. lia. }
    rewrite <- drop_drop, drop_app_length, <- drop_drop, drop_app_length, <- slots_length.
    rewrite <- (app_nil_r (mjoin (slots <$> Ts))). apply mjoin_chunk. by rewrite list_lookup_fmap, HTb.
Qed.

(** An empty file after a gap: only when nothing was added. *)
Lemma drop_gap kvs tabs f :
  (foff f = length (fdata f) ∨ fdata f = []) → Forall pair_ok kvs → (kvs = [] → tabs = []) →
  fpad f = replicate 1024 0 ++ records kvs ++ tabs → drop 1024 (fdata f) = records kvs ++ tabs.
Proof.
  intros Ho Hok Htabs Hp. destruct Ho as [Ho|Ho].
  - rewrite fpad_end in Hp by done. rewrite Hp. apply drop_app_length'. by rewrite length_replicate.
  - unfold fpad in Hp. rewrite Ho in Hp |- *. cbn [app length] in Hp. destruct kvs as [|kv kvs].
    { by rewrite Htabs. }
    exfalso. apply Forall_cons in Hok as [Hkv _].
    assert (replicate (foff f - 0) 0 !! 1024%nat = Some (slen kv.1 + 1)) as Hl.
    { rewrite Hp, lookup_app_r by (by rewrite length_replicate). rewrite length_replicate, Nat.sub_diag.
      rewrite records_cons, record_ok by done. done. }
    apply lookup_replicate in Hl as [Hl _]. pose proof (slen_nonneg kv.1). lia.
Qed.

Definition malloc_ok (malloc : nat → option (list cdb_hp)) : Prop :=
  ∀ n, ∃ m, malloc n = Some m ∧ length m = n.

Lemma entries_rev c : mjoin (reverse <$> head c) = reverse (entries c).
Proof.
  unfold entries. induction (head c) as [|blk hd IH]; [done|].
  rewrite reverse_cons, join_app, reverse_app. cbn [fmap list_fmap mjoin list_join]. rewrite app_nil_r. by f_equal.
Qed.

Lemma kvs_used kvs : Forall pair_ok kvs → Forall used (kvs_entries kvs).
Proof.
  intros Hok. apply Forall_forall. intros e He.
  destruct (entries_of_range kvs CDB_FINAL e ltac:(done) Hok He). unfold used, CDB_FINAL in *. lia.
Qed.

(** The memory after the distribution: the entries by bucket, then the table area. *)
Lemma finish_split kvs c malloc :
  make_inv kvs c → malloc_ok malloc → image_size kvs < 2 ^ 31 →
  ∃ mem start A T, u32 (memsize c + numentries c) <= UT32_MAX / 8
    ∧ malloc (Z.to_nat (u32 (memsize c + numentries c))) = Some mem
    ∧ split_loop (mjoin (reverse <$> head c)) (starts_loop (counts c) 0) mem = Some (start, A ++ T)
    ∧ length A = length kvs
    ∧ (∀ i, (i < 256)%nat → start !! i = Some (psum (kvs_counts kvs) i))
    ∧ (∀ i j e, (i < 256)%nat → kvs_bucket kvs i !! j = Some e → A !! (Z.to_nat (psum (kvs_counts kvs) i) + j)%nat = Some e)
    ∧ (∀ j, (j < 256)%nat → 2 * length (kvs_bucket kvs j) <= length T)%nat.
Proof.
  intros Hi Hma Hsz. set (cs := kvs_counts kvs). pose proof (make_inv_counts _ _ Hi) as Hcs. fold cs in Hcs.
  pose proof (mk_num _ _ Hi) as Hn. pose proof (mk_mem_le _ _ Hi) as Hm. pose proof (mk_sum _ _ Hi) as Hsum.
  rewrite Hcs in Hsum. unfold image_size, CDB_FINAL in Hsz. pose proof (slen_nonneg (records kvs)).
  rewrite (u32_small (memsize c + numentries c)) by (unfold is_u32; lia).
  destruct (Hma (Z.to_nat (memsize c + numentries c))) as (mem & Hmem & Hlen).
  assert (Forall (λ x, 0 <= x) cs) as Hpos.
  { apply Forall_forall. intros x (b & -> & _)%list_elem_of_fmap. lia. }
  assert (length cs = 256%nat) as Hl by (unfold cs, kvs_counts; by rewrite length_fmap, length_seq).
  set (N := Z.to_nat (memsize c + numentries c)) in *.
  assert (entries c = kvs_entries kvs) as He by apply (mk_entries _ _ Hi).
  destruct (split_loop_ok cs N Hl Hpos ltac:(lia) ltac:(lia) (reverse (entries c)) [] (starts_loop cs 0) mem)
    as (start & mem' & Hsp & Hinv).
  { apply split_init; [done|done|lia|done]. }
  { rewrite reverse_involutive, app_nil_r, He. intros b x Hx. pose proof (lookup_lt_Some _ _ _ Hx).
    unfold cs in Hx. rewrite kvs_counts_lookup in Hx by lia. injection Hx as <-. unfold kvs_bucket. lia. }
  rewrite reverse_involutive, app_nil_r, He in Hinv.
  assert (∀ i, (i < 256)%nat → seg cs (kvs_entries kvs) i = psum cs i) as Hseg.
  { intros i Hlt. unfold seg. rewrite (psum_S cs i _ (kvs_counts_lookup kvs i Hlt)). unfold kvs_bucket. lia. }
  pose proof (sp_mem_len _ _ _ _ _ Hinv) as Hml.
  exists mem, start, (take (length kvs) mem'), (drop (length kvs) mem'). rewrite take_drop, entries_rev, Hcs.
  split_and!; [change (UT32_MAX / 8) with 536870911; lia|done|done|rewrite length_take; lia|..].
  - intros i Hlt. rewrite (sp_start _ _ _ _ _ Hinv i Hlt), Hseg; done.
  - intros i j e Hlt Hj. pose proof (sp_mem _ _ _ _ _ Hinv i j e Hlt Hj) as Hl'. rewrite Hseg in Hl' by done.
    rewrite lookup_take_lt; [done|]. pose proof (psum_S cs i _ (kvs_counts_lookup kvs i Hlt)).
    pose proof (psum_range cs (S i) Hpos). pose proof (psum_range cs i Hpos). apply lookup_lt_Some in Hj. lia.
  - intros j Hj. rewrite length_drop. pose proof (mk_mem _ _ Hi (Z.of_nat j) ltac:(lia)) as Hmm.
    rewrite He in Hmm. unfold kvs_bucket. lia.
Qed.

Lemma finish_ok kvs c malloc :
  make_inv kvs c → malloc_ok malloc → Forall pair_ok kvs → image_size kvs < 2 ^ 31 →
  image_size kvs <= Z.of_nat (flimit (mout c).2) →
  ∃ c', cdb_make_finish malloc true c = Some (true, c') ∧ image_ok kvs (fdata (mout c').2).
Proof.
  intros Hi Hma Hok Hsz Hlim. destruct (finish_split kvs c malloc Hi Hma Hsz)
    as (mem & start & A & T & Hmsz & Hmem & Hsp & HAl & Hst & HA & HT).
  unfold cdb_make_finish. rewrite (proj2 (Z.ltb_ge _ _) Hmsz), Hmem, Hsp. cbn [mbind option_bind].
  pose proof (make_inv_counts _ _ Hi) as Hcs. pose proof (mk_sum _ _ Hi) as Hsum. rewrite Hcs, (mk_num _ _ Hi) in Hsum.
  unfold image_size in Hsz, Hlim. pose proof (slen_nonneg (records kvs)). unfold CDB_FINAL in *.
  destruct (buckets_loop_ok (kvs_entries kvs) A (kvs_counts kvs) start (1024 + slen (records kvs))
    (replicate 1024 0 ++ records kvs) (flimit (mout c).2)) with (n := 256%nat) (i := 0%nat) (Ts := @nil (list cdb_hp))
    (final := @nil Z) (c := c) (T := T) as (Ts & final & c' & E & Hbk).
  { done. } { apply kvs_counts_lookup. } { done. } { done. } { by apply kvs_used. } { lia. } { lia. }
  { rewrite length_app, length_replicate. unfold slen in *. lia. }
  { split; try done.
    - apply (mk_out _ _ Hi).
    - rewrite (mk_stream _ _ Hi). cbn [fmap list_fmap mjoin list_join]. by rewrite app_nil_r.
    - rewrite (mk_pos _ _ Hi). unfold table_pos. change (psum (kvs_counts kvs) 0) with 0. unfold CDB_FINAL. lia.
    - rewrite (mk_num _ _ Hi). lia. }
  { done. } { done. }
  change (Z.of_nat 0) with 0 in E. rewrite E. cbn [mbind option_bind].
  pose proof (bk_out _ _ _ _ _ _ _ _ _ _ Hbk) as Ho. pose proof (bk_lim _ _ _ _ _ _ _ _ _ _ Hbk) as Hl.
  pose proof (bk_stream _ _ _ _ _ _ _ _ _ _ Hbk) as Hs. destruct (mout c') as [b f] eqn:Em. cbn [fst snd] in *.
  destruct (flush_out b f Ho) as (f1 & -> & Hp1 & Hl1 & Ho1).
  cbn [seek_set]. unfold buffer_putflush. cbn [buffer_flush pending length Nat.eqb].
  rewrite (bk_final _ _ _ _ _ _ _ _ _ _ Hbk).
  pose proof (header_length (kvs_counts kvs) (1024 + slen (records kvs)) 256) as HH.
  rewrite allwrite_spec by (cbn [foff flimit]; rewrite HH, Hl1, Hl; unfold slen in *; lia).
  rewrite HH. change (4 * 256 =? 0)%nat with false. cbn [fdata foff flimit].
  eexists. split; [done|]. cbn [cdb_make_cancel set_mout mout snd fdata]. rewrite store_overwrite, HH.
  change (4 * 256)%nat with 1024%nat. rewrite (drop_gap kvs (mjoin (slots <$> Ts)) f1).
  - apply image_ok_intro; [apply (bk_len _ _ _ _ _ _ _ _ _ _ Hbk)|apply (bk_tab _ _ _ _ _ _ _ _ _ _ Hbk)|done].
  - done.
  - done.
  - intros ->. apply length_zero_iff_nil. pose proof (bk_size _ _ _ _ _ _ _ _ _ _ Hbk) as Hz.
    unfold psum in Hz. rewrite take_ge in Hz by done. rewrite Hsum in Hz. cbn [length] in Hz. lia.
  - by rewrite Hp1, Hs, <- app_assoc.
Qed.
