(* ===== verification/Cdb.v ===== *)
(** * Reading a constant database: src/src/cdb.c

    [cdb] is the handle of an open file.  [cmap] is the memory map and [cfd] the
    descriptor, given by the contents of its file, [None] for -1. *)

From S2P Require Import Prelude Util Buffer CdbMake CdbTables.

Definition CDB_MAX_VALUE : Z := 0xffffff.

Record cdb := mkCdb {
  cmap : option bytes;
  cfd : option bytes;
  csize : Z;
  loop : Z;
  khash : Z;
  kpos : Z;
  hpos : Z;
  hslots : Z;
  dpos : Z;
  dlen : Z
}.

(** A handle of zeroed memory with [fd = -1]. *)
Definition cdb_none : cdb := mkCdb None None 0 0 0 0 0 0 0 0.

Definition cdb_findstart (c : cdb) : cdb :=
  mkCdb (cmap c) (cfd c) (csize c) 0 (khash c) (kpos c) (hpos c) (hslots c) (dpos c) (dlen c).

Definition cdb_fini (c : cdb) : cdb :=
  match cmap c with
  | None => c
  | Some _ => mkCdb None (cfd c) (csize c) (loop c) (khash c) (kpos c) (hpos c) (hslots c) (dpos c) (dlen c)
  end.

(** [mmap_ok] says whether the system maps the file. *)
Definition cdb_init (mmap_ok : bool) (c : cdb) (fd : option bytes) : bool * cdb :=
  let c := cdb_findstart (mkCdb (cmap c) fd (csize c) (loop c) (khash c) (kpos c) (hpos c) (hslots c) (dpos c) (dlen c)) in
  let unmapped := mkCdb None (cfd c) 0 (loop c) (khash c) (kpos c) (hpos c) (hslots c) (dpos c) (dlen c) in
  match fd with
  | Some d =>
      if 4 <? slen d then
        if mmap_ok then
          (true, mkCdb (Some d) (cfd c) (u32 (slen d)) (loop c) (khash c) (kpos c) (hpos c) (hslots c) (dpos c) (dlen c))
        else (false, c)
      else (false, unmapped)
  | None => (false, unmapped)
  end.

(** The bytes read, from the map or else from the descriptor. *)
Definition cdb_read (c : cdb) (len pos : Z) : option bytes :=
  match cmap c with
  | Some m =>
      if (csize c <? pos) || (csize c - pos <? len) then None
      else Some (take (Z.to_nat len) (drop (Z.to_nat pos) m))
  | None =>
      match cfd c with
      | None => None
      | Some d =>
          if len =? 0 then Some []
          else if slen d <? pos + len then None
          else Some (take (Z.to_nat len) (drop (Z.to_nat pos) d))
      end
  end.

(** Whether the lengths could be read, and [*klen] and [*vlen]. *)
Definition cdb_getkvlen (c : cdb) (pos : Z) : bool * (Z * Z) :=
  match cdb_read c 4 pos with
  | None => (false, (0, 0))
  | Some buf =>
      let klen := byte_at buf 0 in
      let vlen := Z.lor (Z.lor (byte_at buf 1) (u32 (Z.shiftl (byte_at buf 2) 8))) (u32 (Z.shiftl (byte_at buf 3) 16)) in
      if CDB_MAX_VALUE <? vlen then (false, (klen, CDB_MAX_VALUE)) else (true, (klen, vlen))
  end.

(** Compare [len] bytes of the file at [pos] with the key, 32 at a time. *)
Fixpoint match_loop (fuel : nat) (c : cdb) (key : bytes) (len pos : Z) : Z :=
  match fuel with
  | O => -1
  | S fuel' =>
      if 0 <? len then
        let n := if len <? 32 then len else 32 in
        match cdb_read c n pos with
        | None => -1
        | Some buf =>
            if bool_decide (buf = take (Z.to_nat n) key)
            then match_loop fuel' c (drop (Z.to_nat n) key) (len - n) (u32 (pos + n))
            else 0
        end
      else 1
  end.

Definition cdb_match (c : cdb) (key : bytes) (len pos : Z) : Z := match_loop (S (Z.to_nat len)) c key len pos.

Definition set_dlen (c : cdb) (v : Z) : cdb :=
  mkCdb (cmap c) (cfd c) (csize c) (loop c) (khash c) (kpos c) (hpos c) (hslots c) (dpos c) v.
Definition set_dpos (c : cdb) (v : Z) : cdb :=
  mkCdb (cmap c) (cfd c) (csize c) (loop c) (khash c) (kpos c) (hpos c) (hslots c) v (dlen c).

(** One slot searched: [c->loop++], and [kpos] moves on, around the end of the table. *)
Definition next_slot (c : cdb) : cdb :=
  let kpos' := u32 (kpos c + 8) in
  let kpos' := if kpos' =? u32 (hpos c + u32 (Z.shiftl (hslots c) 3)) then hpos c else kpos' in
  mkCdb (cmap c) (cfd c) (csize c) (u32 (loop c + 1)) (khash c) kpos' (hpos c) (hslots c) (dpos c) (dlen c).

(** [while (c->loop < c->hslots)]; [key] is the key's memory, its zero included, and
    [len] its length with the zero. *)
Fixpoint findnext_loop (fuel : nat) (c : cdb) (key : bytes) (len : Z) : Z * cdb :=
  match fuel with
  | O => (0, c)
  | S fuel' =>
      if negb (loop c <? hslots c) then (0, c)
      else
        match cdb_read c 8 (kpos c) with
        | None => (0, c)
        | Some buf =>
            let pos := ut32_unpack (drop 4 buf) in
            if pos =? 0 then (0, c)
            else
              let c := next_slot c in
              let u := ut32_unpack buf in
              if u =? khash c then
                let '(ok, (u, vlen)) := cdb_getkvlen c pos in
                let c := set_dlen c vlen in
                if negb ok || (u =? 0) then (-1, c)
                else if u =? len then
                  let m := cdb_match c key len (u32 (pos + KVLSZ)) in
                  if m =? -1 then (0, c)
                  else if m =? 1 then (1, set_dpos c (u32 (u32 (pos + KVLSZ) + len)))
                  else findnext_loop fuel' c key len
                else findnext_loop fuel' c key len
              else findnext_loop fuel' c key len
        end
  end.

(** The part before the loop, taken when [c->loop] is zero: find the table of the hash
    in the header.  [inl] is an early return. *)
Definition find_table (c : cdb) (u : Z) : (Z * cdb) + cdb :=
  let bufsz := if negb (Z.land (u32 (u + 1)) 255 =? 0) then 8 else 4 in
  match cdb_read c bufsz (Z.land (u32 (Z.shiftl u 2)) 1023) with
  | None => inl (-1, c)
  | Some buf =>
      let hp := ut32_unpack buf in
      let pos := if bufsz =? 8 then ut32_unpack (drop 4 buf) else csize c in
      let c := mkCdb (cmap c) (cfd c) (csize c) (loop c) (khash c) (kpos c) hp (hslots c) (dpos c) (dlen c) in
      if pos <? hp then inl (-1, c)
      else
        let hs := (pos - hp) / 8 in
        let c := mkCdb (cmap c) (cfd c) (csize c) (loop c) (khash c) (kpos c) hp hs (dpos c) (dlen c) in
        if hs =? 0 then inl (0, c)
        else
          let off := u32 (Z.shiftl (Z.shiftr u 8 mod hs) 3) in
          inr (mkCdb (cmap c) (cfd c) (csize c) (loop c) u (u32 (hp + off)) hp hs (dpos c) (dlen c))
  end.

Definition cdb_findnext (c : cdb) (u : Z) (key : bytes) (len : Z) : Z * cdb :=
  let len := u32 (len + 1) in
  match cfd c with
  | None => (-1, c)
  | Some _ =>
      let c := mkCdb (cmap c) (cfd c) (csize c) (loop c) (khash c) (kpos c) (hpos c) 0 (dpos c) (dlen c) in
      match (if loop c =? 0 then find_table c u else inr c) with
      | inl r => r
      | inr c => findnext_loop (S (Z.to_nat (hslots c - loop c))) c (key ++ [0]) len
      end
  end.

(** * Facts *)

(** The handle reads from the map [img] of the whole file. *)
Record reading (c : cdb) (img : bytes) : Prop := {
  rd_map : cmap c = Some img;
  rd_fd : cfd c = Some img;
  rd_size : csize c = slen img;
  rd_small : slen img < 2 ^ 31
}.

Lemma cdb_init_reading c img : 4 < slen img < 2 ^ 31 → ∃ c', cdb_init true c (Some img) = (true, c') ∧ reading c' img ∧ loop c' = 0.
Proof.
  intros Hs. unfold cdb_init. rewrite (proj2 (Z.ltb_lt _ _)) by lia. eexists. split; [done|]. split; [|done].
  split; [done|done| |lia]. apply u32_small. unfold is_u32. lia.
Qed.

Lemma read_ok c img len pos :
  reading c img → 0 <= pos → 0 <= len → pos + len <= slen img →
  cdb_read c len pos = Some (take (Z.to_nat len) (drop (Z.to_nat pos) img)).
Proof.
  intros [Hm _ Hs _] Hp Hl0 Hl. unfold cdb_read. rewrite Hm, Hs.
  destruct ((slen img <? pos) || (slen img - pos <? len)) eqn:E; [|done].
  apply orb_true_iff in E as [E|E]; zbool; unfold slen in *; lia.
Qed.

Lemma lor_shift a b k : 0 <= k → 0 <= a < 2 ^ k → 0 <= b → Z.lor a (Z.shiftl b k) = a + b * 2 ^ k.
Proof.
  intros Hk Ha Hb. rewrite <- Z.shiftl_mul_pow2 by done. rewrite <- Z.add_lor_land.
  assert (Z.land a (Z.shiftl b k) = 0) as ->; [|lia].
  apply Z.bits_inj'. intros n Hn. rewrite Z.land_spec, Z.bits_0. destruct (decide (n < k)).
  - rewrite Z.shiftl_spec_low by lia. by rewrite andb_false_r.
  - rewrite <- (Z.mod_small a (2 ^ k)) by done. rewrite Z.mod_pow2_bits_high by lia. done.
Qed.

(** The record of [kv] lies at the position of [e]. *)
Record rec_at (img : bytes) (e : cdb_hp) (kv : bytes * bytes) : Prop := {
  ra_hash : hp_h e = sdb_hash kv.1;
  ra_ok : pair_ok kv;
  ra_pos : 0 < hp_p e ∧ hp_p e + slen (record kv) <= slen img;
  ra_data : take (length (record kv)) (drop (Z.to_nat (hp_p e)) img) = record kv
}.

Lemma take_app_split {B} (a b l : list B) :
  take (length (a ++ b)) l = a ++ b → take (length a) l = a ∧ take (length b) (drop (length a) l) = b.
Proof.
  intros H. rewrite length_app in H. split.
  - rewrite <- (take_app_length a b) at 2. rewrite <- H, take_take. f_equal. lia.
  - rewrite <- (drop_app_length a b) at 2. rewrite <- H. rewrite skipn_firstn_comm. f_equal. lia.
Qed.

Lemma entries_rec_at img kvs p :
  0 < p → p + slen (records kvs) <= slen img → Forall pair_ok kvs →
  take (length (records kvs)) (drop (Z.to_nat p) img) = records kvs → Forall2 (rec_at img) (entries_of kvs p) kvs.
Proof.
  revert p. induction kvs as [|kv kvs IH]; intros p Hp Hl Hok Hd; cbn [entries_of]; [constructor|].
  apply Forall_cons in Hok as [Hkv Hok]. rewrite records_cons in Hd, Hl. rewrite slen_app in Hl.
  pose proof (slen_nonneg (record kv)). pose proof (slen_nonneg (records kvs)).
  apply take_app_split in Hd as [H1 H2]. rewrite drop_drop in H2. constructor.
  - split; cbn; [done|done|lia|done].
  - apply IH; [lia|lia|done|]. rewrite <- H2 at 2. do 2 f_equal. unfold slen. lia.
Qed.

Lemma image_rec_at kvs img :
  image_ok kvs img → Forall pair_ok kvs → Forall2 (rec_at img) (kvs_entries kvs) kvs.
Proof.
  intros Hi Hok. apply entries_rec_at; [done| |done|apply (im_recs _ _ Hi)].
  rewrite (im_size _ _ Hi). unfold image_size. lia.
Qed.

(** The lengths stored in front of a record. *)
Lemma getkvlen_ok c img e kv :
  reading c img → rec_at img e kv → cdb_getkvlen c (hp_p e) = (true, (slen kv.1 + 1, slen kv.2 + 1)).
Proof.
  intros Hr He. pose proof (ra_ok _ _ _ He) as Hok. pose proof (ra_pos _ _ _ He) as [Hp0 Hp].
  pose proof (record_length kv Hok). pose proof (slen_nonneg kv.1). pose proof (slen_nonneg kv.2).
  unfold cdb_getkvlen. rewrite (read_ok c img) by (try done; lia). change (Z.to_nat 4) with 4%nat.
  pose proof (ra_data _ _ _ He) as Hd. rewrite record_ok in Hd by done.
  apply take_app_split in Hd as [Hd _]. cbn [length] in Hd. rewrite Hd. unfold byte_at; cbn [lookup list_lookup default from_option id].
  destruct Hok as (_ & _ & _ & Hv). unfold SDB_MAX_VALUE in Hv. set (v := slen kv.2 + 1) in *.
  assert (0 <= v) by lia. clearbody v.
  pose proof (Z.mod_pos_bound v 256 ltac:(lia)). pose proof (Z.mod_pos_bound (v / 256) 256 ltac:(lia)).
  pose proof (Z.mod_pos_bound (v / 65536) 256 ltac:(lia)).
  rewrite !u32_small by (unfold is_u32; rewrite Z.shiftl_mul_pow2 by lia; lia).
  rewrite (lor_shift (v mod 256) _ 8) by lia. rewrite lor_shift by lia.
  assert (v mod 256 + v / 256 mod 256 * 2 ^ 8 + v / 65536 mod 256 * 2 ^ 16 = v) as ->.
  { Z.to_euclidean_division_equations; lia. }
  unfold CDB_MAX_VALUE. rewrite (proj2 (Z.ltb_ge _ _)) by lia. done.
Qed.

(** The comparison by blocks of 32 is the comparison of the whole. *)
Lemma match_loop_ok fuel c img key len pos :
  reading c img → len = slen key → 0 <= pos → pos + len <= slen img → (length key < fuel)%nat →
  match_loop fuel c key len pos = if bool_decide (take (length key) (drop (Z.to_nat pos) img) = key) then 1 else 0.
Proof.
  intros Hr. revert key len pos. induction fuel as [|fuel IH]; intros key len pos -> Hp Hl Hf; [lia|]. cbn [match_loop].
  pose proof (rd_small _ _ Hr).
  destruct (0 <? slen key) eqn:E; zbool.
  2:{ assert (key = []) as -> by (apply length_zero_iff_nil; unfold slen in *; lia). by rewrite bool_decide_true. }
  set (n := if slen key <? 32 then slen key else 32).
  assert (0 < n <= slen key) as Hn by (unfold n; destruct (_ <? _) eqn:?; zbool; lia).
  rewrite (read_ok c img) by (try done; lia).
  set (k1 := take (Z.to_nat n) key). set (k2 := drop (Z.to_nat n) key).
  assert (k1 ++ k2 = key) as Hkey by apply take_drop.
  assert (length k1 = Z.to_nat n) as Hk1 by (unfold k1; rewrite length_take; unfold slen in *; lia).
  assert (length k2 = length key - Z.to_nat n)%nat as Hk2 by apply length_drop.
  assert (take (length key) (drop (Z.to_nat pos) img)
    = take (Z.to_nat n) (drop (Z.to_nat pos) img) ++ take (length k2) (drop (Z.to_nat (pos + n)) img)) as Hsp.
  { rewrite <- (take_drop (Z.to_nat n) (take (length key) _)), take_take, Nat.min_l by (unfold slen in *; lia).
    rewrite skipn_firstn_comm, drop_drop, <- Hk2. do 2 f_equal. f_equal. lia. }
  rewrite Hsp. destruct (bool_decide (take (Z.to_nat n) (drop (Z.to_nat pos) img) = k1)) eqn:E1.
  - apply bool_decide_eq_true in E1. rewrite E1.
    rewrite u32_small by (unfold is_u32; lia). rewrite (IH k2); [|unfold slen in *; clearbody n; lia..].
    erewrite bool_decide_ext; [done|]. split; [by intros ->|]. rewrite <- Hkey. apply app_inv_head.
  - apply bool_decide_eq_false in E1. rewrite bool_decide_false; [done|]. rewrite <- Hkey. intros Heq. apply app_inj_1 in Heq as [? _]; [done|].
    rewrite length_take, length_drop. unfold slen in *. lia.
Qed.

Lemma cdb_match_ok c img e kv q :
  reading c img → rec_at img e kv → slen q = slen kv.1 →
  cdb_match c (q ++ [0]) (slen q + 1) (hp_p e + 4) = if bool_decide (kv.1 = q) then 1 else 0.
Proof.
  intros Hr He Hq. pose proof (ra_ok _ _ _ He) as Hok. pose proof (ra_pos _ _ _ He) as [Hp0 Hp].
  pose proof (record_length kv Hok). pose proof (slen_nonneg kv.1). pose proof (slen_nonneg kv.2).
  unfold cdb_match. rewrite (match_loop_ok _ c img); [|done|by rewrite slen_app|lia|lia|rewrite length_app; cbn; unfold slen; lia].
  pose proof (ra_data _ _ _ He) as Hd. rewrite record_ok in Hd by done.
  apply take_app_split in Hd as [_ Hd]. cbn [length] in Hd. rewrite app_assoc in Hd. apply take_app_split in Hd as [Hd _].
  rewrite drop_drop in Hd. replace (Z.to_nat (hp_p e) + 4)%nat with (Z.to_nat (hp_p e + 4)) in Hd by lia.
  assert (length (q ++ [0]) = length (kv.1 ++ [0])) as -> by (rewrite !length_app; cbn; unfold slen in *; lia).
  rewrite Hd. erewrite bool_decide_ext; [done|]. split; [apply app_inv_tail|by intros ->].
Qed.

(** ** The search in one table *)

Section search.
Context (img : bytes) (h : Z) (q : bytes) (hp : Z) (T E : list cdb_hp) (K : pairs).
Context (Hq : h = sdb_hash q) (Hql : slen q + 1 < 2 ^ 32).
Context (HT : (0 < length T)%nat) (Htbl : tbl_inv (length T) E T) (HEK : Forall2 (rec_at img) E K).
Context (Hhp : 0 <= hp) (Hend : hp + 8 * Z.of_nat (length T) <= slen img).
Context (Hdata : take (8 * length T) (drop (Z.to_nat hp) img) = slots T).
Context (HE32 : Forall (λ e, is_u32 (hp_h e) ∧ is_u32 (hp_p e)) E).
Abbreviation L := (length T).

(** About to search the [d]-th slot. *)
Record at_slot (c : cdb) (d : nat) : Prop := {
  as_reading : reading c img;
  as_loop : loop c = Z.of_nat d;
  as_khash : khash c = h;
  as_hpos : hpos c = hp;
  as_hslots : hslots c = Z.of_nat L;
  as_kpos : kpos c = hp + 8 * Z.of_nat (walk L (home L h) d)
}.

Lemma slots_chunk (T' : list cdb_hp) i e : T' !! i = Some e → take 8 (drop (8 * i) (slots T')) = pack_slot e.
Proof.
  intros Hi. pose proof (mjoin_chunk (pack_slot <$> T') i (pack_slot e) []) as Hc. rewrite app_nil_r in Hc.
  rewrite <- (pack_slot_length e) at 1. unfold slots. rewrite <- Hc at 2; [|by rewrite list_lookup_fmap, Hi].
  do 2 f_equal. rewrite <- fmap_take. fold (slots (take i T')). rewrite slots_length, length_take.
  apply lookup_lt_Some in Hi. lia.
Qed.

Lemma read_slot c d e :
  at_slot c d → T !! walk L (home L h) d = Some e → cdb_read c 8 (kpos c) = Some (pack_slot e).
Proof.
  intros Hc He. pose proof (walk_lt L (home L h) d HT) as Hw.
  rewrite (as_kpos _ _ Hc), (read_ok c img); [|apply Hc|lia..]. f_equal. set (i := walk L (home L h) d) in *.
  rewrite <- (slots_chunk T i e He), <- Hdata, skipn_firstn_comm, take_take, drop_drop.
  change (Z.to_nat 8) with 8%nat. f_equal; [lia|]. f_equal. lia.
Qed.

Lemma next_slot_ok c d : at_slot c d → (d < L)%nat → at_slot (next_slot c) (S d).
Proof.
  intros [Hr Hl Hk Hp Hs Hkp] Hd. pose proof (walk_lt L (home L h) d HT) as Hw. pose proof (rd_small _ _ Hr).
  destruct Hr as [Hm Hf Hz Hsm]. split; cbn [next_slot loop khash hpos hslots kpos].
  - by split.
  - rewrite Hl, u32_small by (unfold is_u32; lia). lia.
  - done.
  - done.
  - done.
  - rewrite Hkp, Hp, Hs, walk_S by done. rewrite Z.shiftl_mul_pow2 by lia. change (2 ^ 3) with 8.
    rewrite !u32_small by (unfold is_u32; try lia; rewrite ?u32_small by (unfold is_u32; lia); lia).
    destruct (_ =? hp + _) eqn:E1; zbool; destruct (_ =? Z.of_nat L) eqn:E2; zbool; lia.
Qed.

Lemma at_slot_dlen c d v : at_slot c d → at_slot (set_dlen c v) d.
Proof. intros [[] ? ? ? ? ?]. split; [by split|done..]. Qed.

Lemma unpack_slot e : is_u32 (hp_h e) → is_u32 (hp_p e) →
  ut32_unpack (pack_slot e) = hp_h e ∧ ut32_unpack (drop 4 (pack_slot e)) = hp_p e.
Proof.
  intros Hh Hp. split; [by apply ut32_unpack_pack|].
  change (drop 4 (pack_slot e)) with (ut32_pack (hp_p e)). rewrite <- (app_nil_r (ut32_pack _)). by apply ut32_unpack_pack.
Qed.

(** A slot that holds another key is passed over. *)
Lemma pass_slot fuel c d e kv :
  at_slot c d → (d < L)%nat → T !! walk L (home L h) d = Some e → e ∈ E → rec_at img e kv → kv.1 ≠ q →
  ∃ c', at_slot c' (S d) ∧ findnext_loop (S fuel) c (q ++ [0]) (slen q + 1) = findnext_loop fuel c' (q ++ [0]) (slen q + 1).
Proof.
  intros Hc Hd He Hin Hra Hne. cbn [findnext_loop]. pose proof (next_slot_ok c d Hc Hd) as Hc'.
  rewrite (as_loop _ _ Hc), (as_hslots _ _ Hc), (proj2 (Z.ltb_lt _ _)) by lia. cbn [negb].
  rewrite (read_slot c d e Hc He). rewrite Forall_forall in HE32. destruct (HE32 e Hin) as [Hh32 Hp32].
  destruct (unpack_slot e Hh32 Hp32) as [-> ->]. pose proof (ra_pos _ _ _ Hra) as [Hp0 Hp1].
  rewrite (proj2 (Z.eqb_neq _ _)) by lia. rewrite (as_khash _ _ Hc').
  destruct (hp_h e =? h) eqn:Eh; zbool; [|by exists (next_slot c)].
  rewrite (getkvlen_ok (next_slot c) img e kv); [|apply Hc'|done].
  pose proof (slen_nonneg kv.1). rewrite (proj2 (Z.eqb_neq (slen kv.1 + 1) 0)) by lia. cbn [negb orb].
  exists (set_dlen (next_slot c) (slen kv.2 + 1)). split; [by apply at_slot_dlen|].
  destruct (slen kv.1 + 1 =? slen q + 1) eqn:El; zbool; [|done].
  pose proof (rd_small _ _ (as_reading _ _ Hc)). pose proof (record_length kv (ra_ok _ _ _ Hra)). pose proof (slen_nonneg kv.2).
  unfold KVLSZ. rewrite u32_small by (unfold is_u32; lia).
  rewrite (cdb_match_ok _ img e kv); [|by eapply as_reading, at_slot_dlen|done|lia]. by rewrite bool_decide_false.
Qed.

(** A slot that holds the key ends the search. *)
Lemma hit_slot fuel c d e kv :
  at_slot c d → (d < L)%nat → T !! walk L (home L h) d = Some e → e ∈ E → rec_at img e kv → kv.1 = q →
  ∃ c', findnext_loop (S fuel) c (q ++ [0]) (slen q + 1) = (1, c') ∧ reading c' img
    ∧ dlen c' = slen kv.2 + 1 ∧ take (Z.to_nat (dlen c')) (drop (Z.to_nat (dpos c')) img) = kv.2 ++ [0].
Proof.
  intros Hc Hd He Hin Hra Heq. cbn [findnext_loop]. pose proof (next_slot_ok c d Hc Hd) as Hc'.
  rewrite (as_loop _ _ Hc), (as_hslots _ _ Hc), (proj2 (Z.ltb_lt _ _)) by lia. cbn [negb].
  rewrite (read_slot c d e Hc He). rewrite Forall_forall in HE32. destruct (HE32 e Hin) as [Hh32 Hp32].
  destruct (unpack_slot e Hh32 Hp32) as [-> ->]. pose proof (ra_pos _ _ _ Hra) as [Hp0 Hp1].
  rewrite (proj2 (Z.eqb_neq _ _)) by lia. rewrite (as_khash _ _ Hc').
  rewrite (proj2 (Z.eqb_eq _ _)) by (rewrite (ra_hash _ _ _ Hra); congruence).
  rewrite (getkvlen_ok (next_slot c) img e kv); [|apply Hc'|done].
  pose proof (slen_nonneg kv.1). rewrite (proj2 (Z.eqb_neq (slen kv.1 + 1) 0)) by lia. cbn [negb orb].
  rewrite (proj2 (Z.eqb_eq _ _)) by congruence.
  pose proof (rd_small _ _ (as_reading _ _ Hc)) as Hsm. pose proof (record_length kv (ra_ok _ _ _ Hra)) as Hrl. pose proof (slen_nonneg kv.2).
  unfold KVLSZ. rewrite (u32_small (hp_p e + 4)) by (unfold is_u32; lia).
  rewrite (cdb_match_ok _ img e kv); [|by eapply as_reading, at_slot_dlen|done|congruence].
  rewrite bool_decide_true by done. cbn [Z.eqb].
  eexists. split; [done|]. split; [by destruct (as_reading _ _ Hc')|]. split; [done|].
  cbn [set_dpos set_dlen dlen dpos]. rewrite <- Heq in *. rewrite u32_small by (unfold is_u32; lia).
  pose proof (ra_data _ _ _ Hra) as Hdt. rewrite record_ok in Hdt by apply (ra_ok _ _ _ Hra).
  apply take_app_split in Hdt as [_ Hdt]. rewrite app_assoc in Hdt. apply take_app_split in Hdt as [_ Hdt].
  rewrite !drop_drop, !length_app in Hdt. cbn [length] in Hdt. etrans; [|exact Hdt]. unfold slen. f_equal; [lia|f_equal; lia].
Qed.

Lemma slot_cases d :
  ∃ e, T !! walk L (home L h) d = Some e ∧ (e = mkHp 0 0 ∨ (e ∈ E ∧ ∃ kv, kv ∈ K ∧ rec_at img e kv)).
Proof.
  pose proof (walk_lt L (home L h) d HT) as Hw. destruct (lookup_lt_is_Some_2 T _ Hw) as [e He].
  exists e. split; [done|]. destruct (tbl_slot _ _ _ Htbl _ _ Hw He) as [|Hin]; [by left|right]. split; [done|].
  apply list_elem_of_lookup in Hin as [k Hk]. destruct (Forall2_lookup_l _ _ _ _ _ HEK Hk) as (kv & Hkv & Hr).
  exists kv. split; [|done]. by eapply list_elem_of_lookup_2.
Qed.

(** A key that is not among the bucket's pairs is not found. *)
Lemma search_absent fuel c d :
  at_slot c d → (d <= L)%nat → (L - d < fuel)%nat → (∀ kv, kv ∈ K → kv.1 ≠ q) →
  ∃ c', findnext_loop fuel c (q ++ [0]) (slen q + 1) = (0, c') ∧ reading c' img.
Proof.
  revert c d. induction fuel as [|fuel IH]; intros c d Hc Hd Hf Habs; [lia|].
  destruct (decide (d = L)) as [-> |].
  { cbn [findnext_loop]. rewrite (as_loop _ _ Hc), (as_hslots _ _ Hc), Z.ltb_irrefl. exists c. split; [done|apply Hc]. }
  destruct (slot_cases d) as (e & He & [-> |(Hin & kv & Hkv & Hra)]).
  - cbn [findnext_loop]. rewrite (as_loop _ _ Hc), (as_hslots _ _ Hc), (proj2 (Z.ltb_lt _ _)) by lia. cbn [negb].
    rewrite (read_slot c d _ Hc He). exists c. split; [done|apply Hc].
  - destruct (pass_slot fuel c d e kv) as (c' & Hc' & ->); [done|lia|done|done|done|by apply Habs|].
    apply (IH c' (S d)); [done|lia|lia|done].
Qed.

(** The first pair with the key is found. *)
Lemma search_present fuel c d k kv :
  at_slot c d → K !! k = Some kv → kv.1 = q → (∀ j kv', (j < k)%nat → K !! j = Some kv' → kv'.1 ≠ q) →
  (∃ e dk, E !! k = Some e ∧ (d <= dk < L)%nat ∧ (dk - d < fuel)%nat ∧ T !! walk L (home L h) dk = Some e
    ∧ ∀ d', (d' < dk)%nat → ∃ e', T !! walk L (home L h) d' = Some e' ∧ e' ∈ take k E) →
  ∃ c', findnext_loop fuel c (q ++ [0]) (slen q + 1) = (1, c') ∧ reading c' img
    ∧ dlen c' = slen kv.2 + 1 ∧ take (Z.to_nat (dlen c')) (drop (Z.to_nat (dpos c')) img) = kv.2 ++ [0].
Proof.
  intros Hc Hk Hkq Hfirst (e & dk & He & Hdk & Hf & Hslot & Hbefore).
  revert c d Hc Hdk Hf. induction fuel as [|fuel IH]; intros c d Hc Hdk Hf; [lia|].
  destruct (decide (d = dk)) as [-> |].
  - destruct (Forall2_lookup_l _ _ _ _ _ HEK He) as (kv' & Hk' & Hra). assert (kv' = kv) as -> by congruence.
    apply (hit_slot fuel c dk e kv); [done|lia|done|by eapply list_elem_of_lookup_2|done|done].
  - destruct (Hbefore d ltac:(lia)) as (e' & He' & Hin').
    apply list_elem_of_lookup in Hin' as [j Hj]. apply lookup_take_Some in Hj as [Hj Hjk].
    destruct (Forall2_lookup_l _ _ _ _ _ HEK Hj) as (kv' & Hk' & Hra).
    destruct (pass_slot fuel c d e' kv') as (c' & Hc' & ->);
      [done|lia|done|by eapply list_elem_of_lookup_2|done|by eapply Hfirst|].
    apply (IH c' (S d)); [done|lia|lia].
Qed.
End search.

(** ** The specification of a lookup *)

(** The value of the first pair with the key. *)
Fixpoint first_value (kvs : pairs) (q : bytes) : option bytes :=
  match kvs with
  | [] => None
  | (k, v) :: kvs' => if decide (k = q) then Some v else first_value kvs' q
  end.

Definition same_bucket (b : Z) (kv : bytes * bytes) : Prop := bucket_of (sdb_hash kv.1) = b.
#[global] Instance same_bucket_dec b kv : Decision (same_bucket b kv) := Z.eq_dec _ _.

Lemma first_value_bucket kvs q :
  first_value (filter (same_bucket (bucket_of (sdb_hash q))) kvs) q = first_value kvs q.
Proof.
  induction kvs as [|[k v] kvs IH]; [done|]. rewrite filter_cons. cbn [first_value].
  destruct (decide (k = q)) as [-> |Hne].
  - rewrite decide_True by done. cbn [first_value]. by rewrite decide_True.
  - destruct (decide _); [|done]. cbn [first_value]. by rewrite decide_False.
Qed.

Lemma first_value_Some kvs q v :
  first_value kvs q = Some v →
  ∃ k, kvs !! k = Some (q, v) ∧ ∀ j kv', (j < k)%nat → kvs !! j = Some kv' → kv'.1 ≠ q.
Proof.
  induction kvs as [|[k0 v0] kvs IH]; cbn; [done|]. destruct (decide (k0 = q)) as [-> |Hne].
  - intros [= ->]. exists 0%nat. split; [done|]. intros; lia.
  - intros (k & Hk & Hf)%IH. exists (S k). split; [done|]. intros [|j] kv' Hj Hl; cbn in Hl; [by simplify_eq|].
    apply (Hf j kv'); [lia|done].
Qed.

Lemma first_value_None kvs q kv : first_value kvs q = None → kv ∈ kvs → kv.1 ≠ q.
Proof.
  induction kvs as [|[k0 v0] kvs IH]; cbn; [by intros _ ?%elem_of_nil|]. destruct (decide (k0 = q)) as [-> |Hne]; [done|].
  intros Hn [-> |Hin]%elem_of_cons; [done|by apply IH].
Qed.

Lemma Forall2_bucket img E K b :
  Forall2 (rec_at img) E K → Forall2 (rec_at img) (bucket b E) (filter (same_bucket b) K).
Proof.
  induction 1 as [|e kv E K Hr _ IH]; [constructor|]. rewrite !filter_cons.
  assert (in_bucket b e ↔ same_bucket b kv) as Hi by (unfold in_bucket, same_bucket; by rewrite (ra_hash _ _ _ Hr)).
  destruct (decide (in_bucket b e)), (decide (same_bucket b kv)); [by constructor|tauto|tauto|done].
Qed.

(** ** The whole lookup *)

Lemma header_read kvs img c b :
  image_ok kvs img → reading c img → (b < 256)%nat →
  ∃ buf, cdb_read c 4 (4 * Z.of_nat b) = Some buf ∧ buf = ut32_pack (tables_pos kvs b).
Proof.
  intros Hi Hr Hb. eexists. split; [|done]. rewrite (read_ok c img); [|done|lia|lia|].
  - rewrite <- (im_head _ _ Hi b Hb). by replace (Z.to_nat (4 * Z.of_nat b)) with (4 * b)%nat by lia.
  - rewrite (im_size _ _ Hi). unfold image_size, CDB_FINAL. pose proof (slen_nonneg (records kvs)). lia.
Qed.

Lemma tables_pos_range kvs img b :
  image_ok kvs img → (b <= 256)%nat → CDB_FINAL + slen (records kvs) <= tables_pos kvs b <= image_size kvs.
Proof.
  intros Hi Hb. unfold tables_pos, table_pos, image_size.
  assert (Forall (λ x, 0 <= x) (kvs_counts kvs)) as Hp.
  { apply Forall_forall. intros x (i & -> & _)%list_elem_of_fmap. lia. }
  pose proof (psum_range (kvs_counts kvs) b Hp). rewrite (im_sum _ _ Hi) in *. lia.
Qed.

Lemma tables_pos_S kvs b :
  (b < 256)%nat → tables_pos kvs (S b) = tables_pos kvs b + 16 * Z.of_nat (length (kvs_bucket kvs b)).
Proof.
  intros Hb. unfold tables_pos, table_pos. rewrite (psum_S _ _ _ (kvs_counts_lookup kvs b Hb)). lia.
Qed.

Lemma tables_pos_end kvs img : image_ok kvs img → tables_pos kvs 256 = slen img.
Proof.
  intros Hi. rewrite (im_size _ _ Hi). unfold tables_pos, table_pos, image_size, psum.
  rewrite take_ge, (im_sum _ _ Hi) by (unfold kvs_counts; by rewrite length_fmap, length_seq). done.
Qed.

(** The two header entries the lookup of a hash reads. *)
Definition header_len (h : Z) : Z := if negb (Z.land (u32 (h + 1)) 255 =? 0) then 8 else 4.

Lemma header_off h : is_u32 h → Z.land (u32 (Z.shiftl h 2)) 1023 = 4 * bucket_of h.
Proof.
  intros Hh. unfold bucket_of, u32, is_u32 in *. rewrite (Z.land_comm 255), land_255, land_1023.
  rewrite Z.shiftl_mul_pow2 by lia. Z.to_euclidean_division_equations; lia.
Qed.

Lemma header_len_last h : is_u32 h → header_len h = if decide (bucket_of h = 255) then 4 else 8.
Proof.
  intros Hh. unfold header_len, bucket_of, u32, is_u32 in *. rewrite (Z.land_comm 255), !land_255.
  destruct (_ =? 0) eqn:E; zbool; cbn [negb]; case_decide; try done;
    exfalso; Z.to_euclidean_division_equations; lia.
Qed.

Lemma header_pair kvs img c h :
  image_ok kvs img → reading c img → is_u32 h →
  let b := Z.to_nat (bucket_of h) in
  ∃ buf, cdb_read c (header_len h) (Z.land (u32 (Z.shiftl h 2)) 1023) = Some buf
    ∧ ut32_unpack buf = tables_pos kvs b
    ∧ (if header_len h =? 8 then ut32_unpack (drop 4 buf) else csize c) = tables_pos kvs (S b).
Proof.
  intros Hi Hr Hh b. pose proof (bucket_of_range h) as Hb. assert (b < 256)%nat as Hbn by lia.
  rewrite header_off, header_len_last by done. replace (bucket_of h) with (Z.of_nat b) by lia.
  pose proof (rd_small _ _ Hr) as Hsm. rewrite (im_size _ _ Hi) in Hsm. pose proof (slen_nonneg (records kvs)).
  pose proof (tables_pos_range kvs img b Hi ltac:(lia)) as Hp0. unfold CDB_FINAL in Hp0.
  destruct (decide (Z.of_nat b = 255)) as [E|E].
  - destruct (header_read kvs img c b Hi Hr Hbn) as (buf & -> & ->). eexists. split; [done|].
    rewrite <- (app_nil_r (ut32_pack _)), ut32_unpack_pack by (unfold is_u32; lia). split; [done|].
    cbn [Z.eqb Pos.eqb]. rewrite (rd_size _ _ Hr), <- (tables_pos_end _ _ Hi). f_equal. lia.
  - pose proof (tables_pos_range kvs img (S b) Hi ltac:(lia)) as Hp1. unfold CDB_FINAL in Hp1.
    rewrite (read_ok c img) by (try done; rewrite ?(im_size _ _ Hi); unfold image_size, CDB_FINAL; lia).
    eexists. split; [done|]. cbn [Z.eqb Pos.eqb]. change (Z.to_nat 8) with (4 + 4)%nat.
    assert (Z.to_nat (4 * Z.of_nat b) = 4 * b)%nat as -> by lia.
    assert (take (4 + 4) (drop (4 * b) img) = ut32_pack (tables_pos kvs b) ++ ut32_pack (tables_pos kvs (S b))) as ->.
    { rewrite <- (im_head _ _ Hi b Hbn), <- (im_head _ _ Hi (S b)) by lia.
      rewrite <- (take_drop 4 (take (4 + 4) _)), take_take, skipn_firstn_comm, drop_drop. do 3 f_equal; lia. }
    rewrite ut32_unpack_pack by (unfold is_u32; lia). split; [done|].
    change (drop 4 (ut32_pack (tables_pos kvs b) ++ ut32_pack (tables_pos kvs (S b)))) with (ut32_pack (tables_pos kvs (S b))).
    rewrite <- (app_nil_r (ut32_pack _)), ut32_unpack_pack by (unfold is_u32; lia). done.
Qed.

(** The header gives the position and the number of slots of the table. *)
Lemma find_table_ok kvs img c h :
  image_ok kvs img → reading c img → is_u32 h → loop c = 0 →
  let b := Z.to_nat (bucket_of h) in let L := (2 * length (kvs_bucket kvs b))%nat in
  if decide (L = 0)%nat then ∃ c', find_table c h = inl (0, c') ∧ reading c' img
  else ∃ c', find_table c h = inr c' ∧ reading c' img ∧ loop c' = 0 ∧ khash c' = h ∧ hpos c' = tables_pos kvs b
    ∧ hslots c' = Z.of_nat L ∧ kpos c' = tables_pos kvs b + 8 * home L h.
Proof.
  intros Hi Hr Hh Hl0 b L. pose proof (bucket_of_range h) as Hb. assert (b < 256)%nat as Hbn by lia.
  pose proof (rd_small _ _ Hr) as Hsm. rewrite (im_size _ _ Hi) in Hsm. pose proof (slen_nonneg (records kvs)).
  pose proof (tables_pos_range kvs img b Hi ltac:(lia)) as Hp0. pose proof (tables_pos_range kvs img (S b) Hi ltac:(lia)) as Hp1.
  pose proof (tables_pos_S kvs b Hbn) as HpS. unfold CDB_FINAL in *.
  assert (∀ c0 c1, reading c0 img → cmap c1 = cmap c0 → cfd c1 = cfd c0 → csize c1 = csize c0 → reading c1 img) as Hrd.
  { intros c0 c1 [] ? ? ?. split; congruence. }
  destruct (header_pair kvs img c h Hi Hr Hh) as (buf & Hbuf & Hu1 & Hu2). fold b in Hu1, Hu2.
  unfold find_table. fold (header_len h). rewrite Hbuf, Hu1, Hu2, (proj2 (Z.ltb_ge _ _)) by lia.
  assert ((tables_pos kvs (S b) - tables_pos kvs b) / 8 = Z.of_nat L) as ->.
  { rewrite HpS. unfold L. replace (_ - _) with (Z.of_nat (2 * length (kvs_bucket kvs b)) * 8) by lia. by rewrite Z.div_mul. }
  destruct (decide (L = 0)%nat) as [E|E].
  - rewrite (proj2 (Z.eqb_eq _ _)) by lia. eexists. split; [done|]. by eapply (Hrd c).
  - rewrite (proj2 (Z.eqb_neq _ _)) by lia. eexists. split; [done|].
    pose proof (Z.mod_pos_bound (Z.shiftr h 8) (Z.of_nat L) ltac:(lia)) as Hm.
    split_and!; [by eapply (Hrd c)|done..|]. cbn [kpos]. unfold home. rewrite Z.shiftl_mul_pow2 by lia. change (2 ^ 3) with 8.
    rewrite (u32_small (_ * 8)) by (unfold is_u32; lia). rewrite u32_small by (unfold is_u32; lia). lia.
Qed.

(** What a search in the file of [kvs] returns. *)
Definition found (kvs : pairs) (img q : bytes) (r : Z * cdb) : Prop :=
  reading r.2 img ∧
  match first_value kvs q with
  | Some v => r.1 = 1 ∧ dlen r.2 = slen v + 1
      ∧ take (Z.to_nat (dlen r.2)) (drop (Z.to_nat (dpos r.2)) img) = v ++ [0]
  | None => r.1 = 0
  end.

Lemma findnext_image kvs img c q :
  image_ok kvs img → Forall pair_ok kvs → reading c img → loop c = 0 → slen q + 1 < 2 ^ 32 →
  found kvs img q (cdb_findnext c (sdb_hash q) q (slen q)).
Proof.
  intros Hi Hok Hr Hl Hql. pose proof (slen_nonneg q). unfold cdb_findnext. rewrite (rd_fd _ _ Hr). cbn [loop].
  rewrite Hl, Z.eqb_refl, u32_small by (unfold is_u32; lia). set (h := sdb_hash q).
  set (c0 := mkCdb _ _ _ _ _ _ _ _ _ _). assert (reading c0 img) as Hr0 by (by destruct Hr).
  pose proof (find_table_ok kvs img c0 h Hi Hr0 (sdb_hash_range q) eq_refl) as Hft. cbv zeta in Hft.
  set (b := Z.to_nat (bucket_of h)) in *. pose proof (bucket_of_range h) as Hb. assert (b < 256)%nat as Hbn by lia.
  pose proof (Forall2_bucket img _ _ (bucket_of h) (image_rec_at kvs img Hi Hok)) as HEK.
  assert (bucket (bucket_of h) (kvs_entries kvs) = kvs_bucket kvs b) as HE by (unfold kvs_bucket, b; by rewrite Z2Nat.id by lia).
  rewrite HE in HEK. unfold found. rewrite <- (first_value_bucket kvs q). fold h.
  set (K := filter (same_bucket (bucket_of h)) kvs) in *. set (E := kvs_bucket kvs b) in *.
  destruct (decide (2 * length E = 0)%nat) as [E0|E0].
  { destruct Hft as (c' & -> & Hr'). split; [done|]. assert (E = []) as EE by (apply length_zero_iff_nil; lia).
    rewrite EE in HEK. inversion HEK as [HK|]. done. }
  destruct Hft as (c1 & -> & Hr1 & Hl1 & Hk1 & Hh1 & Hs1 & Hp1).
  destruct (im_tab _ _ Hi b Hbn) as (T & HTl & Htbl & HTd). fold E in HTl, Htbl. rewrite <- HTl in Htbl, Hs1, Hp1.
  pose proof (tables_pos_range kvs img b Hi ltac:(lia)) as Hpr. pose proof (slen_nonneg (records kvs)). unfold CDB_FINAL in Hpr.
  assert (tables_pos kvs b + 8 * Z.of_nat (length T) <= slen img) as Hend.
  { rewrite (im_size _ _ Hi). pose proof (tables_pos_range kvs img (S b) Hi ltac:(lia)) as Hq. rewrite (tables_pos_S _ _ Hbn) in Hq.
    fold E in Hq. lia. }
  assert (Forall (λ e, is_u32 (hp_h e) ∧ is_u32 (hp_p e)) E) as HE32.
  { apply Forall_forall. intros e [_ Hin]%list_elem_of_filter.
    destruct (entries_of_range kvs CDB_FINAL e ltac:(done) Hok Hin) as (? & ? & ?). split; [done|].
    pose proof (rd_small _ _ Hr) as Hsm. rewrite (im_size _ _ Hi) in Hsm. unfold is_u32, image_size, CDB_FINAL in *. lia. }
  assert (at_slot img h (tables_pos kvs b) T c1 0) as Hat.
  { split; [done..|]. rewrite Hp1, walk_0 by lia. done. }
  rewrite Hl1, Hs1, Z.sub_0_r, Nat2Z.id.
  destruct (first_value K q) as [v|] eqn:Ev.
  - apply first_value_Some in Ev as (k & Hk & Hfirst).
    destruct (Forall2_lookup_r _ _ _ _ _ HEK Hk) as (e & He & Hra).
    destruct (tbl_ent _ _ _ Htbl k e He) as (d & Hd & Hsl & Hbef).
    rewrite (ra_hash _ _ _ Hra) in Hsl, Hbef. cbn [fst] in Hsl, Hbef. fold h in Hsl, Hbef.
    destruct (search_present img h q (tables_pos kvs b) T E K eq_refl ltac:(lia) ltac:(lia) HEK ltac:(lia) Hend HTd HE32
      (S (length T)) c1 0 k (q, v) Hat Hk eq_refl Hfirst) as (c' & -> & Hr' & Hdl & Hdt).
    + exists e, d. split_and!; [done|lia|lia|lia|done|]. intros d' Hd'. destruct (Hbef d' Hd') as (e' & ? & _ & ?). eauto.
    + done.
  - destruct (search_absent img h q (tables_pos kvs b) T E K ltac:(lia) Htbl HEK ltac:(lia) Hend HTd HE32
      (S (length T)) c1 0 Hat) as (c' & -> & Hr'); [lia|lia| |done].
    intros kv Hkv. by eapply first_value_None.
Qed.

(** ** Termination on any file *)

Lemma next_slot_eqs c :
  loop (next_slot c) = u32 (loop c + 1) ∧ hslots (next_slot c) = hslots c.
Proof. done. Qed.

Lemma findnext_loop_fuel n m c key len :
  0 <= loop c → is_u32 (hslots c) → hslots c - loop c < Z.of_nat n → (n <= m)%nat →
  findnext_loop m c key len = findnext_loop n c key len.
Proof.
  revert m c. induction n as [|n IH]; intros m c Hl Hh Hn Hm.
  - destruct m as [|m]; [done|]. cbn [findnext_loop]. by rewrite (proj2 (Z.ltb_ge _ _)) by lia.
  - destruct m as [|m]; [lia|]. cbn [findnext_loop]. destruct (loop c <? hslots c) eqn:E; zbool; [|done].
    cbn [negb]. unfold is_u32 in Hh.
    assert (∀ c', loop c' = u32 (loop c + 1) → hslots c' = hslots c → findnext_loop m c' key len = findnext_loop n c' key len) as Hstep.
    { intros c' El Eh. rewrite u32_small in El by (unfold is_u32; lia). apply IH; [lia|unfold is_u32; lia|lia|lia]. }
    destruct (cdb_read c 8 (kpos c)) as [buf|]; [|done]. destruct (ut32_unpack (drop 4 buf) =? 0); [done|].
    destruct (ut32_unpack buf =? khash (next_slot c)); [|by apply Hstep].
    destruct (cdb_getkvlen _ _) as [ok [u vlen]]. destruct (negb ok || (u =? 0)); [done|].
    destruct (u =? len); [|by apply Hstep]. destruct (_ =? -1); [done|]. destruct (_ =? 1); [done|by apply Hstep].
Qed.

(** ** Building a file *)

Fixpoint add_all (c : cdb_make) (kvs : pairs) : bool * cdb_make :=
  match kvs with
  | [] => (true, c)
  | kv :: kvs' =>
      match cdb_make_add true c kv.1 (slen kv.1) kv.2 (slen kv.2) with
      | (false, c) => (false, c)
      | (true, c) => add_all c kvs'
      end
  end.

Lemma image_size_mono a b : image_size a <= image_size (a ++ b).
Proof.
  unfold image_size. rewrite records_app, slen_app, length_app. pose proof (slen_nonneg (records b)). lia.
Qed.

Lemma add_all_ok kvs done c :
  make_inv done c → Forall pair_ok kvs → image_size (done ++ kvs) < 2 ^ 31 →
  image_size (done ++ kvs) <= Z.of_nat (flimit (mout c).2) →
  ∃ c', add_all c kvs = (true, c') ∧ make_inv (done ++ kvs) c' ∧ flimit (mout c').2 = flimit (mout c).2.
Proof.
  revert done c. induction kvs as [|kv kvs IH]; intros done c Hi Hok Hs Hl; cbn [add_all].
  - rewrite app_nil_r. by exists c.
  - apply Forall_cons in Hok as [Hkv Hok]. rewrite (cons_middle kv done kvs), app_assoc in *.
    pose proof (image_size_mono (done ++ [kv]) kvs).
    destruct (cdb_make_add_ok done c kv Hi Hkv) as (c1 & -> & Hi1 & Hl1); [lia..|].
    destruct (IH (done ++ [kv]) c1 Hi1 Hok Hs) as (c' & -> & Hi' & Hl'); [lia|].
    exists c'. split_and!; [reflexivity|exact Hi'|congruence].
Qed.

Lemma build_ok malloc f kvs :
  malloc_ok malloc → fdata f = [] → Forall pair_ok kvs → image_size kvs < 2 ^ 31 →
  image_size kvs <= Z.of_nat (flimit f) →
  ∃ c0 c1 c2, cdb_make_start true f = (true, c0) ∧ add_all c0 kvs = (true, c1) ∧ cdb_make_finish malloc true c1 = Some (true, c2)
    ∧ image_ok kvs (fdata (mout c2).2).
Proof.
  intros Hma Hf Hok Hs Hl. pose proof (image_size_mono [] kvs) as Hm. cbn [app] in Hm.
  change (image_size []) with 1024 in Hm.
  destruct (cdb_make_start_ok f Hf) as (c0 & E0 & Hi0 & Hl0); [lia|].
  destruct (add_all_ok kvs [] c0 Hi0 Hok Hs) as (c1 & E1 & Hi1 & Hl1); [by rewrite Hl0|].
  cbn [app] in Hi1. destruct (finish_ok kvs c1 malloc Hi1 Hma Hok Hs) as (c2 & E2 & Him); [by rewrite Hl1, Hl0|].
  by exists c0, c1, c2.
Qed.

(** * Properties *)

(** C3: what is written is what is read.  For any list of key/value pairs within the
    limits of the format and a file below 2 GB, and a system on which the file can be
    written and positioned, every call of the writer succeeds and
    accesses its arrays within their bounds, and in the file it leaves, mapped by
    [cdb_init], a search for any key returns the value of the first pair added under
    that key, with its zero, and reports absence for every other key. *)
Theorem cdb_write_then_find malloc f kvs :
  malloc_ok malloc → fdata f = [] → Forall pair_ok kvs → image_size kvs < 2 ^ 31 →
  image_size kvs <= Z.of_nat (flimit f) →
  ∃ c0 c1 c2 c3, cdb_make_start true f = (true, c0) ∧ add_all c0 kvs = (true, c1) ∧ cdb_make_finish malloc true c1 = Some (true, c2)
    ∧ cdb_init true cdb_none (Some (fdata (mout c2).2)) = (true, c3)
    ∧ ∀ q, slen q + 1 < 2 ^ 32 →
        let '(r, c) := cdb_findnext (cdb_findstart c3) (sdb_hash q) q (slen q) in
        match first_value kvs q with
        | Some v => r = 1 ∧ take (Z.to_nat (dlen c)) (drop (Z.to_nat (dpos c)) (fdata (mout c2).2)) = v ++ [0]
        | None => r = 0
        end.
Proof.
  intros Hma Hf Hok Hs Hl. destruct (build_ok malloc f kvs Hma Hf Hok Hs Hl) as (c0 & c1 & c2 & E0 & E1 & E2 & Him).
  set (img := fdata (mout c2).2) in *. pose proof (im_size _ _ Him) as Hsz.
  destruct (cdb_init_reading cdb_none img) as (c3 & E3 & Hr & Hl0).
  { rewrite Hsz. split; [|done]. unfold image_size, CDB_FINAL. pose proof (slen_nonneg (records kvs)). lia. }
  exists c0, c1, c2, c3. split_and!; [done..|]. intros q Hq.
  pose proof (findnext_image kvs img (cdb_findstart c3) q Him Hok) as Hfn.
  destruct (cdb_findnext (cdb_findstart c3) (sdb_hash q) q (slen q)) as [r c].
  destruct Hfn as [_ Hfn]; [by destruct Hr|done|done|]. destruct (first_value kvs q); [|done]. by destruct Hfn as (? & _ & ?).
Qed.

Lemma cdb_write_then_find_witness :
  let kvs := [(str "a", str "1"); (str "b", str "2"); (str "a", str "3")] in
  let malloc n := Some (replicate n (mkHp 7 7)) in let f := mkFile [] 0 5000 in
  malloc_ok malloc ∧ Forall pair_ok kvs ∧
  ∃ c0 c1 c2 c3, cdb_make_start true f = (true, c0) ∧ add_all c0 kvs = (true, c1) ∧ cdb_make_finish malloc true c1 = Some (true, c2)
    ∧ cdb_init true cdb_none (Some (fdata (mout c2).2)) = (true, c3)
    ∧ ∀ q, slen q + 1 < 2 ^ 32 →
        let '(r, c) := cdb_findnext (cdb_findstart c3) (sdb_hash q) q (slen q) in
        match first_value kvs q with
        | Some v => r = 1 ∧ take (Z.to_nat (dlen c)) (drop (Z.to_nat (dpos c)) (fdata (mout c2).2)) = v ++ [0]
        | None => r = 0
        end.
Proof.
  intros kvs malloc f.
  assert (malloc_ok malloc) as Hma by (intros n; eexists; split; [done|apply length_replicate]).
  assert (Forall pair_ok kvs) as Hok by (repeat constructor; vm_compute; congruence).
  split; [exact Hma|split; [exact Hok|]].
  apply (cdb_write_then_find malloc f kvs Hma eq_refl Hok); vm_compute; congruence.
Defined.

(** C37: a search ends on any file, well formed or not: it looks at each slot of the table
    the header names at most once, so the bound on the loop never changes its result. *)
Theorem cdb_findnext_terminates c key len fuel m :
  0 <= loop c → is_u32 (hslots c) → hslots c - loop c < Z.of_nat fuel → (fuel <= m)%nat →
  findnext_loop m c key len = findnext_loop fuel c key len.
Proof. apply findnext_loop_fuel. Qed.

Lemma cdb_findnext_terminates_witness :
  let c := mkCdb (Some (replicate 64 255)) (Some (replicate 64 255)) 64 0 5 16 16 6 0 0 in
  findnext_loop 1000 c (str "k") 2 = findnext_loop 7 c (str "k") 2.
Proof. intros c. apply (cdb_findnext_terminates c (str "k") 2 7 1000); [done|by split|done|lia]. Defined.

(** A search cannot be continued: [cdb_findnext] forgets the number of slots at each
    call, so calling it again after a match, without [cdb_findstart], always answers
    that there is no further record, whatever the file holds. *)
Theorem cdb_findnext_again_finds_nothing c u key len d :
  cfd c = Some d → 0 < loop c → (cdb_findnext c u key len).1 = 0.
Proof.
  intros Hfd Hl. unfold cdb_findnext. rewrite Hfd. cbn [loop]. rewrite (proj2 (Z.eqb_neq _ _)) by lia.
  cbn [findnext_loop loop hslots]. by rewrite (proj2 (Z.ltb_ge _ _)) by lia.
Qed.

Lemma cdb_findnext_again_finds_nothing_witness :
  (cdb_findnext (mkCdb (Some [1]) (Some [1]) 1 1 0 0 0 4 0 0) 0 [] 0).1 = 0.
Proof. apply (cdb_findnext_again_finds_nothing _ 0 [] 0 [1]); [done|]. vm_compute. done. Defined.
