(* ===== verification/CdbRoom.v ===== *)
(** * What a successful write leaves: more facts on src/src/cdb_make.c

    The writer may run out of room at any moment.  Here it is shown that when every
    call reports success, the file is the finished one, whatever the room was: a run
    that succeeds takes the same steps on a larger device, on which [build_ok] of
    [Cdb] applies. *)

From S2P Require Import Prelude Util Buffer CdbMake CdbTables Cdb.

(** ** The same file on a device with room for [L] bytes at least *)

Definition roomier (L : nat) (f : file) : file := mkFile (fdata f) (foff f) (Nat.max L (flimit f)).
Definition roomier_out (L : nat) (o : buffer * file) : buffer * file := (o.1, roomier L o.2).
Definition roomier_make (L : nat) (c : cdb_make) : cdb_make := set_mout c (roomier_out L (mout c)).

Lemma allwrite_room L f b g : allwrite f b = (true, g) → allwrite (roomier L f) b = (true, roomier L g).
Proof.
  unfold allwrite. destruct (length b =? 0)%nat eqn:Eb; [by intros [= <-]|]. apply Nat.eqb_neq in Eb.
  unfold write. cbn [roomier foff flimit fdata].
  destruct (Nat.min_spec (length b) (flimit f - foff f)) as [[Hl ->]|[Hl ->]].
  - rewrite Nat.min_l by lia. destruct (_ && _); [|by case_match; intros [= <-]]. destruct (_ =? _) eqn:E; [zbool; lia|done].
  - destruct (_ && _); [destruct (_ =? _) eqn:E; [zbool; lia|done]|]. destruct (_ =? _) eqn:E; [|done]. zbool.
    assert (flimit f - foff f = length b)%nat as -> by lia. rewrite Nat.min_l by lia.
    rewrite (proj2 (Nat.eqb_neq _ _) Eb). cbn [andb negb]. rewrite Z.eqb_refl. cbn [negb]. by intros [= <-].
Qed.

Lemma flush_room L s f st : buffer_flush s f = (true, st) → buffer_flush s (roomier L f) = (true, roomier_out L st).
Proof.
  unfold buffer_flush. case_match; [by intros [= <-]|]. destruct (allwrite f (pending s)) as [[] g] eqn:E; [|done].
  intros [= <-]. by rewrite (allwrite_room L _ _ _ E).
Qed.

Lemma putalign_loop_room L fuel s f b st :
  putalign_loop fuel s f b = (true, st) → putalign_loop fuel s (roomier L f) b = (true, roomier_out L st).
Proof.
  revert s f b. induction fuel as [|fuel IH]; intros s f b; cbn [putalign_loop]; [done|]. case_match; [|by intros [= <-]].
  destruct (buffer_flush _ f) as [[] [s1 f1]] eqn:E; [|done]. rewrite (flush_room L _ _ _ E). cbn [roomier_out fst snd]. apply IH.
Qed.

Lemma putalign_room L c b c' : putalign c b = (true, c') → putalign (roomier_make L c) b = (true, roomier_make L c').
Proof.
  unfold putalign, buffer_putalign. destruct (putalign_loop _ _ _ b) as [[] o] eqn:E; [|done]. intros [= <-].
  cbn [roomier_make set_mout mout roomier_out fst snd]. by rewrite (putalign_loop_room L _ _ _ _ _ E).
Qed.

Lemma incpos_room L c len c' : incpos c len = (true, c') → incpos (roomier_make L c) len = (true, roomier_make L c').
Proof. unfold incpos. cbn [roomier_make set_mout pos]. case_match; [done|]. by intros [= <-]. Qed.

Lemma push_hp_alloc a hd e hd' : push_hp a hd e = Some hd' → push_hp true hd e = Some hd'.
Proof. unfold push_hp. destruct hd; [by destruct a|]. case_match; [by destruct a|done]. Qed.

(** A record that was taken is taken when there is more room and memory. *)
Lemma make_add_room L a c k kl d dl c' :
  cdb_make_add a c k kl d dl = (true, c') → cdb_make_add true (roomier_make L c) k kl d dl = (true, roomier_make L c').
Proof.
  unfold cdb_make_add, cdb_make_addbegin. destruct (pack_kvlen _ _) as [b|]; [|done].
  destruct (putalign c b) as [[] c1] eqn:E1; [|done]. rewrite (putalign_room L _ _ _ E1).
  destruct (putalign c1 _) as [[] c2] eqn:E2; [|done]. rewrite (putalign_room L _ _ _ E2).
  destruct (putalign c2 _) as [[] c3] eqn:E3; [|done]. rewrite (putalign_room L _ _ _ E3).
  unfold cdb_make_addend. cbn [roomier_make set_mout head pos counts numentries memsize].
  destruct (push_hp a _ _) as [hd|] eqn:Eh; [|done]. rewrite (push_hp_alloc _ _ _ _ Eh). intros E. by apply (incpos_room L) in E.
Qed.

Lemma add_all_room L c kvs c' : add_all c kvs = (true, c') → add_all (roomier_make L c) kvs = (true, roomier_make L c').
Proof.
  revert c. induction kvs as [|kv kvs IH]; intros c; cbn [add_all]; [by intros [= <-]|].
  destruct (cdb_make_add true c _ _ _ _) as [[] c1] eqn:E; [|done]. rewrite (make_add_room L _ _ _ _ _ _ _ E). apply IH.
Qed.

Lemma emit_room L n base u mem c c' :
  emit_loop n base u mem c = Some (true, c') → emit_loop n base u mem (roomier_make L c) = Some (true, roomier_make L c').
Proof.
  revert u c. induction n as [|n IH]; intros u c; cbn [emit_loop]; [by intros [= <-]|].
  destruct (aget mem (base + u)) as [e|]; [|done]. cbn [mbind option_bind].
  destruct (putalign c _) as [[] c1] eqn:E1; [|done]. rewrite (putalign_room L _ _ _ E1).
  destruct (incpos c1 8) as [[] c2] eqn:E2; [|done]. rewrite (incpos_room L _ _ _ E2). apply IH.
Qed.

Lemma buckets_room L n i start mem final c final' c' :
  buckets_loop n i start mem final c = Some (true, (final', c')) →
  buckets_loop n i start mem final (roomier_make L c) = Some (true, (final', roomier_make L c')).
Proof.
  revert i mem final c. induction n as [|n IH]; intros i mem final c; cbn [buckets_loop]; [by intros [= <- <-]|].
  cbn [roomier_make set_mout counts pos numentries]. destruct (aget (counts c) i) as [cnt|]; [|done]. cbn [mbind option_bind].
  destruct (zero_loop _ _ _ _) as [mem1|]; [|done]. cbn [mbind option_bind]. destruct (aget start i) as [s|]; [|done]. cbn [mbind option_bind].
  destruct (place_loop _ _ _ _ _) as [mem2|]; [|done]. cbn [mbind option_bind].
  destruct (emit_loop _ _ _ _ c) as [[[] c1]|] eqn:E; [|done..]. cbn [mbind option_bind].
  fold (roomier_make L c). rewrite (emit_room L _ _ _ _ _ _ E). cbn [mbind option_bind]. apply IH.
Qed.

(** A finished file is finished the same way when there is more room, and whenever
    memory could be had. *)
Lemma finish_room L malloc seek c c' :
  cdb_make_finish malloc seek c = Some (true, c') →
  cdb_make_finish (λ n, Some (default (replicate n (mkHp 0 0)) (malloc n))) true (roomier_make L c) = Some (true, roomier_make L c').
Proof.
  unfold cdb_make_finish. cbn [roomier_make set_mout memsize numentries head counts]. case_match; [done|].
  destruct (malloc _) as [mem|]; [|done]. cbn [default from_option id].
  destruct (split_loop _ _ _) as [[start mem1]|]; [|done]. cbn [mbind option_bind].
  destruct (buckets_loop 256 0 start mem1 [] c) as [[[] [final c1]]|] eqn:Eb; [|done..]. cbn [mbind option_bind].
  fold (roomier_make L c). rewrite (buckets_room L _ _ _ _ _ _ _ _ Eb). cbn [mbind option_bind roomier_make set_mout mout roomier_out fst snd].
  destruct (buffer_flush _ _) as [[] [b f]] eqn:Ef; [|done]. rewrite (flush_room L _ _ _ Ef). cbn [roomier_out fst snd].
  unfold seek_set. destruct seek; [|done]. unfold buffer_putflush. set (f0 := mkFile (fdata f) _ (flimit f)).
  change (mkFile (fdata (roomier L f)) _ (flimit (roomier L f))) with (roomier L f0).
  destruct (buffer_flush b f0) as [[] [b1 f1]] eqn:E1; [|done]. rewrite (flush_room L _ _ _ E1). cbn [roomier_out fst snd].
  destruct (allwrite f1 final) as [[] f2] eqn:E2; [|done]. rewrite (allwrite_room L _ _ _ E2). by intros [= <-].
Qed.

(** ** The finished file *)

(** When the start, every addition and the end report success, the file is the finished
    one of the pairs; nothing is assumed about room, positioning or memory, but that a
    block of memory has the size asked for. *)
Lemma written_ok malloc seek seek' f kvs c0 c1 c2 :
  (∀ n mem, malloc n = Some mem → length mem = n) → fdata f = [] → Forall pair_ok kvs → image_size kvs < 2 ^ 31 →
  cdb_make_start seek f = (true, c0) → add_all c0 kvs = (true, c1) → cdb_make_finish malloc seek' c1 = Some (true, c2) →
  image_ok kvs (fdata (mout c2).2).
Proof.
  intros Hma Hf Hok Hs E0 E1 E2. set (L := Z.to_nat (image_size kvs)).
  assert (cdb_make_start true (roomier L f) = (true, roomier_make L c0)) as E0'.
  { unfold cdb_make_start, seek_set in E0. destruct seek; [|done]. by injection E0 as <-. }
  destruct (build_ok (λ n, Some (default (replicate n (mkHp 0 0)) (malloc n))) (roomier L f) kvs) as (d0 & d1 & d2 & F0 & F1 & F2 & Him); [|done..| |].
  - intros n. eexists. split; [done|]. destruct (malloc n) as [mem|] eqn:E; cbn; [by apply Hma|apply length_replicate].
  - cbn [roomier flimit]. subst L. lia.
  - rewrite E0' in F0. injection F0 as <-. rewrite (add_all_room L _ _ _ E1) in F1. injection F1 as <-.
    rewrite (finish_room L _ _ _ _ E2) in F2. injection F2 as <-. exact Him.
Qed.
