(* ===== verification/SdbCore.v ===== *)
(** * The database: src/src/sdb.c

    An [Sdb] is a hash table of recent entries over a constant database on disk.
    Every operation is a function on the state, written in a state monad; the
    clock is the argument [now] of the operations that read it, and memory
    allocation succeeds.

    A pointer result is what it points to: the memory from there on, the
    terminating zero included ([v ++ [0]] for a value in memory, a suffix of the
    file for a value on disk); [None] is NULL.  A pointer computed from a map that is
    NULL points to no memory: [wild] records that one was handed out, and nothing is
    claimed of what is read through it.  Hooks are opaque function pointers:
    the calls made to them are recorded in [calls]. *)

From S2P Require Import Prelude Util Ht HashTables Buffer CdbMake CdbTables Cdb.

(** The generated perfect-hash table: its functions are code the state points to. *)
Record SdbGperf := mkGperf { gp_get : bytes → option bytes; gp_all : list (bytes * bytes) }.

Record Sdb := mkSdb {
  ht : SdbHt;
  db : cdb;
  fd : option bytes;
  gp : option SdbGperf;
  journal : option bytes;
  timestamped : bool;
  last : Z;
  dflt_expire : Z;
  hooks : list (Z * Z);
  calls : list (Z * Z * bytes * bytes);
  dump_pos : Z;
  depth : Z;
  refs : Z;
  wild : bool
}.

(** Field updates. *)
Definition set_ht (t : SdbHt) (s : Sdb) : Sdb :=
  mkSdb t (db s) (fd s) (gp s) (journal s) (timestamped s) (last s) (dflt_expire s) (hooks s) (calls s) (dump_pos s) (depth s) (refs s) (wild s).
Definition set_db (d : cdb) (s : Sdb) : Sdb :=
  mkSdb (ht s) d (fd s) (gp s) (journal s) (timestamped s) (last s) (dflt_expire s) (hooks s) (calls s) (dump_pos s) (depth s) (refs s) (wild s).
Definition set_fd (d : cdb) (f : option bytes) (g : option SdbGperf) (s : Sdb) : Sdb :=
  mkSdb (ht s) d f g (journal s) (timestamped s) (last s) (dflt_expire s) (hooks s) (calls s) (dump_pos s) (depth s) (refs s) (wild s).
Definition set_journal (j : option bytes) (s : Sdb) : Sdb :=
  mkSdb (ht s) (db s) (fd s) (gp s) j (timestamped s) (last s) (dflt_expire s) (hooks s) (calls s) (dump_pos s) (depth s) (refs s) (wild s).
Definition set_stamp (t : bool) (l e : Z) (s : Sdb) : Sdb :=
  mkSdb (ht s) (db s) (fd s) (gp s) (journal s) t l e (hooks s) (calls s) (dump_pos s) (depth s) (refs s) (wild s).
Definition set_hooks (h : list (Z * Z)) (c : list (Z * Z * bytes * bytes)) (s : Sdb) : Sdb :=
  mkSdb (ht s) (db s) (fd s) (gp s) (journal s) (timestamped s) (last s) (dflt_expire s) h c (dump_pos s) (depth s) (refs s) (wild s).
Definition set_dump_pos (p : Z) (s : Sdb) : Sdb :=
  mkSdb (ht s) (db s) (fd s) (gp s) (journal s) (timestamped s) (last s) (dflt_expire s) (hooks s) (calls s) p (depth s) (refs s) (wild s).
Definition set_depth (d r : Z) (s : Sdb) : Sdb :=
  mkSdb (ht s) (db s) (fd s) (gp s) (journal s) (timestamped s) (last s) (dflt_expire s) (hooks s) (calls s) (dump_pos s) d r (wild s).
Definition set_wild (w : bool) (s : Sdb) : Sdb :=
  mkSdb (ht s) (db s) (fd s) (gp s) (journal s) (timestamped s) (last s) (dflt_expire s) (hooks s) (calls s) (dump_pos s) (depth s) (refs s) w.

(** ** The state monad *)

Definition M (A : Type) : Type := Sdb → A * Sdb.
#[global] Instance M_ret : MRet M := λ A a s, (a, s).
#[global] Instance M_bind : MBind M := λ A B k m s, let '(a, s) := m s in k a s.
Definition get_st : M Sdb := λ s, (s, s).
Definition modify (f : Sdb → Sdb) : M unit := λ s, (tt, f s).

(** ** Entries *)

Definition nextcas (kv : SdbKv) : Z := if cas (ext kv) =? 0 then 1 else u32 (cas (ext kv) + 1).

(** [v] is [None] for a NULL value; [kl] and [vl] are the lengths the caller computed. *)
Definition sdbkv_new2 (k : bytes) (kl : Z) (v : option bytes) (vl : Z) : option SdbKv :=
  match v with
  | Some _ => if SDB_VSZ <=? vl then None else Some tt
  | None => Some tt
  end ≫= λ _,
  let vl := match v with Some _ => vl | None => 0 end in
  if SDB_KSZ <=? kl then None
  else
    let kv := mkKv k (if vl =? 0 then None else v) kl vl (mkExt 0 0) in
    Some (mkKv (key kv) (value kv) (key_len kv) (value_len kv) (mkExt (nextcas kv) 0)).

Definition sdbkv_new (k v : bytes) : option SdbKv := sdbkv_new2 k (slen k) (Some v) (slen v).

(** Writes through a pointer to an entry of the table. *)
Definition ht_write (t : SdbHt) (k : bytes) (f : SdbKv → SdbKv) : SdbHt :=
  match bucket_find t (bucket_at t (bucketfn t k)) k (calcsize_key t k) with
  | Some (j, _) => alter_slot t (bucketfn t k, j) f
  | None => t
  end.

(** ** Hooks *)

Definition sdb_hook (cb user : Z) : M bool :=
  s ← get_st;
  if existsb (λ h, h.1 =? cb) (hooks s) then mret false
  else _ ← modify (set_hooks (hooks s ++ [(cb, user)]) (calls s)); mret true.

Definition sdb_unhook (h : Z) : M bool :=
  s ← get_st;
  match list_find (λ x, x.1 = h) (hooks s) with
  | Some (i, _) => _ ← modify (set_hooks (delete i (hooks s)) (calls s)); mret true
  | None => mret false
  end.

Definition sdb_hook_call (now : Z) (k v : bytes) : M Z :=
  s ← get_st;
  _ ← (if timestamped s && negb (last s =? 0) then modify (set_stamp (timestamped s) now (dflt_expire s)) else mret tt);
  _ ← modify (λ s, set_hooks (hooks s) (calls s ++ ((λ h, (h.1, h.2, k, v)) <$> hooks s)) s);
  mret (Z.of_nat (length (hooks s))).

Definition sdb_hook_free : M unit := modify (λ s, set_hooks [] (calls s) s).

(** ** Journal: the line appended for a change (src/src/journal.c) *)

(** [snprintf (str, sizeof (str), "%s=%s\n", key, val)] and the [write] of [strlen (str)] bytes. *)
Definition journal_line (k v : bytes) : bytes := take (Z.to_nat (SDB_MAX_PATH - 1)) (k ++ [chr "="] ++ v ++ [10]).

Definition sdb_journal_log (k v : bytes) : M bool :=
  s ← get_st;
  match journal s with
  | None => mret false
  | Some j => _ ← modify (set_journal (Some (j ++ journal_line k v))); mret true
  end.

Definition sdb_journal_clear : M bool :=
  s ← get_st;
  match journal s with
  | None => mret false
  | Some _ => _ ← modify (set_journal (Some [])); mret true
  end.

(** ** Set *)

Definition findnext (k : bytes) : M Z :=
  s ← get_st;
  let '(r, d) := cdb_findnext (db s) (sdb_hash k) k (slen k) in
  _ ← modify (set_db d); mret r.

Definition sdb_set_internal (now : Z) (key : option bytes) (val : option bytes) (owned : bool) (c : Z) : M Z :=
  match key with
  | None => mret 0
  | Some key =>
      let val := default [] val in
      let klen := slen key in
      let vlen := slen val in
      if (SDB_KSZ <=? klen) || (SDB_VSZ <=? vlen) then mret 0
      else
        s ← get_st;
        _ ← (match journal s with None => mret false | Some _ => sdb_journal_log key val end);
        _ ← modify (λ s, set_db (cdb_findstart (db s)) s);
        s ← get_st;
        match sdb_ht_find_kvp (Some (ht s)) key with
        | Some (mkKv k0 (Some v0) kl0 vl0 e0 as kv) =>
            r ← findnext key;
            if negb (r =? 0) then
              if negb (c =? 0) && negb (cas e0 =? c) then mret 0
              else if (vlen =? vl0) && (strcmp v0 val =? 0) then
                _ ← sdb_hook_call now key val; mret (cas e0)
              else
                let c := nextcas kv in
                _ ← modify (λ s, set_ht (ht_write (ht s) key
                      (λ kv, mkKv (Ht.key kv) (Some val) (key_len kv) vlen (mkExt c (expire (ext kv))))) s);
                _ ← sdb_hook_call now key val; mret c
            else
              let c := nextcas kv in
              _ ← modify (λ s, set_ht (sdb_ht_delete (ht s) key).2 s);
              _ ← sdb_hook_call now key val; mret c
        | _ =>
            let kv := if owned
                      then (λ kv, mkKv (Ht.key kv) (Some val) (key_len kv) vlen (ext kv)) <$> sdbkv_new2 key klen None 0
                      else sdbkv_new2 key klen (Some val) vlen in
            match kv with
            | Some kv =>
                let c := nextcas kv in
                let kv := mkKv (Ht.key kv) (value kv) (key_len kv) (value_len kv) (mkExt c (expire (ext kv))) in
                _ ← modify (λ s, set_ht (sdb_ht_insert_kvp (λ _, true) (ht s) kv true).2 s);
                _ ← sdb_hook_call now key val; mret c
            | None => mret 0
            end
        end
  end.

Definition nonzero (m : M Z) : M bool := r ← m; mret (negb (r =? 0)).

Definition sdb_set_owned now (key val : option bytes) (c : Z) : M bool := nonzero (sdb_set_internal now key val true c).
Definition sdb_set now (key val : option bytes) (c : Z) : M bool := nonzero (sdb_set_internal now key val false c).
Definition sdb_unset now (key : option bytes) (c : Z) : M bool :=
  match key with Some _ => sdb_set now key (Some []) c | None => mret false end.

(** ** Get *)

(** The pointer, [*vlen] and [*cas]. *)
Definition sdb_const_get_len (now : Z) (key : option bytes) : M (option bytes * Z * Z) :=
  match key with
  | None => mret (None, 0, 0)
  | Some key =>
      s ← get_st;
      match sdb_ht_find_kvp (Some (ht s)) key with
      | Some kv =>
          match value kv with
          | None | Some [] => mret (None, 0, 0)
          | Some v =>
              if timestamped s && negb (expire (ext kv) =? 0) && (expire (ext kv) <? now) then
                _ ← sdb_unset now (Some key) 0; mret (None, 0, 0)
              else mret (Some (v ++ [0]), value_len kv, cas (ext kv))
          end
      | None =>
          match gp s with
          | Some g => mret ((λ v, v ++ [0]) <$> gp_get g key, 0, 0)
          | None =>
              match fd s with
              | None => mret (None, 0, 0)
              | Some _ =>
                  _ ← modify (λ s, set_db (cdb_findstart (db s)) s);
                  r ← findnext key;
                  if r <? 1 then mret (None, 0, 0)
                  else
                    s ← get_st;
                    let len := dlen (db s) in
                    if (len <? SDB_MIN_VALUE) || (SDB_MAX_VALUE <=? len) then mret (None, 0, 0)
                    else
                      match cmap (db s) with
                      | Some m => mret (Some (drop (Z.to_nat (dpos (db s))) m), len, 0)
                      | None => _ ← modify (set_wild true); mret (Some [], len, 0)
                      end
              end
          end
      end
  end.

Definition sdb_const_get now key : M (option bytes * Z) := r ← sdb_const_get_len now key; mret (r.1.1, r.2).

(** [sdb_strdup] of the string at the pointer. *)
Definition sdb_get_len now key : M (option bytes * Z * Z) :=
  r ← sdb_const_get_len now key; mret (cstr <$> r.1.1, r.1.2, r.2).
Definition sdb_get now key : M (option bytes * Z) := r ← sdb_get_len now key; mret (r.1.1, r.2).

(** Keys that are numbers are printed in base 16. *)
Definition nkey (n : Z) : option bytes := sdb_itoa n 16 (Some SDB_NUM_BUFSZ).

Definition sdb_nget now (n : Z) : M (option bytes * Z) := sdb_get now (nkey n).
Definition sdb_nset now (n : Z) (val : option bytes) (c : Z) : M bool := nonzero (sdb_set_internal now (nkey n) val false c).
Definition sdb_nunset now (n : Z) (c : Z) : M bool := sdb_nset now n (Some []) c.

Definition sdb_exists (key : option bytes) : M bool :=
  match key with
  | None => mret false
  | Some key =>
      s ← get_st;
      match sdb_ht_find_kvp (Some (ht s)) key with
      | Some kv => mret (match value kv with Some (_ :: _) => true | _ => false end)
      | None =>
          match fd s with
          | None => mret false
          | Some _ =>
              _ ← modify (λ s, set_db (cdb_findstart (db s)) s);
              r ← findnext key;
              if negb (r =? 0) then
                s ← get_st;
                (* the byte read; [ch] is not set when the read fails *)
                mret (match cdb_read (db s) 1 (dpos (db s)) with Some (c :: _) => negb (c =? 0) | _ => false end)
              else mret false
          end
      end
  end.

Definition sdb_add now (key val : option bytes) (c : Z) : M bool :=
  e ← sdb_exists key;
  if (e : bool) then mret false else sdb_set now key val c.
Definition sdb_nadd now (n : Z) (val : option bytes) (c : Z) : M bool := sdb_add now (nkey n) val c.

(** ** Composite changes *)

Definition sdb_rename now (oldkey newkey : option bytes) (c : Z) : M bool :=
  match oldkey, newkey with
  | Some _, Some _ =>
      v ← sdb_get now oldkey;
      match v.1 with
      | None => mret false
      | Some v =>
          u ← sdb_unset now oldkey c;
          if (u : bool) then sdb_set_owned now newkey (Some v) 0 else mret false
      end
  | _, _ => mret false
  end.

(** [while ((p = strstr (v, value))) memmove (p, p + valen, ...)]: the text left and whether
    anything was removed.  Each round removes at least one byte. *)
Fixpoint uncat_loop (fuel : nat) (v value : bytes) (mod_ : bool) : bytes * bool :=
  match fuel with
  | O => (v, mod_)
  | S fuel' =>
      match strstr v value with
      | None => (v, mod_)
      | Some p => uncat_loop fuel' (take (length v - length p) v ++ drop (length value) p) value true
      end
  end.

Definition sdb_uncat now (key value : option bytes) (c : Z) : M bool :=
  r ← sdb_get_len now key;
  match r.1.1, key, value with
  | Some v, Some _, Some value =>
      if negb (c =? 0) && negb (r.2 =? c) then mret false
      else
        let '(v, m) := if 0 <? slen value then uncat_loop (S (length v)) v value false else (v, false) in
        if (m : bool) then sdb_set_owned now key (Some v) c else mret false
  | _, _, _ => mret false
  end.

(** The new value is the [kl] bytes at the old one, then the text: as a C string it
    ends at the first zero. *)
Definition sdb_concat now (key value : option bytes) (c : Z) : M bool :=
  match key, value with
  | Some (_ :: _), Some ((_ :: _) as v) =>
      r ← sdb_const_get_len now key;
      match r.1.1 with
      | None => sdb_set now key value c
      | Some p =>
          let kl := Z.to_nat r.1.2 in
          sdb_set_owned now key (Some (cstr (take kl p ++ v ++ [0]))) c
      end
  | _, _ => mret false
  end.

(** ** Expiration *)

Definition parse_expire (now e : Z) : Z :=
  let month := 30 * 24 * 60 * 60 in
  if (0 <? e) && (e <? month) then u64 (e + now) else e.

(** [None] is a read through a NULL pointer: the code looks at the first byte of the
    value of an entry whether or not it has one.  The recursive call comes after the
    value on disk was copied to memory, so a fuel of two covers it. *)
Fixpoint expire_set_loop (fuel : nat) (now : Z) (key : option bytes) (e c : Z) : M (option bool) :=
  match fuel with
  | O => mret (Some false)
  | S fuel' =>
      _ ← modify (λ s, set_stamp true (last s) (dflt_expire s) s);
      match key with
      | None => _ ← modify (λ s, set_stamp (timestamped s) (last s) (parse_expire now e) s); mret (Some true)
      | Some k =>
          s ← get_st;
          match sdb_ht_find_kvp (Some (ht s)) k with
          | Some kv =>
              match value kv with
              | None => mret None
              | Some v =>
                  if negb (hd0 v =? 0) && ((c =? 0) || (c =? cas (ext kv))) then
                    _ ← modify (λ s, set_ht (ht_write (ht s) k
                          (λ kv, mkKv (Ht.key kv) (value kv) (key_len kv) (value_len kv)
                                      (mkExt (cas (ext kv)) (parse_expire now e)))) s);
                    mret (Some true)
                  else mret (Some false)
              end
          | None =>
              match fd s with
              | None => mret (Some false)
              | Some _ =>
                  _ ← modify (λ s, set_db (cdb_findstart (db s)) s);
                  r ← findnext k;
                  if r =? 0 then mret (Some false)
                  else
                    s ← get_st;
                    let len := dlen (db s) in
                    if (len <? 1) || (2 ^ 31 - 1 <=? len) then mret (Some false)
                    else
                      let buf := cstr (default [] (cdb_read (db s) len (dpos (db s))) ++ [0]) in
                      _ ← sdb_set_owned now key (Some buf) c;
                      expire_set_loop fuel' now key e c
              end
          end
      end
  end.

Definition sdb_expire_set now key e c : M (option bool) := expire_set_loop 2 now key e c.

(** The expiration and [*cas]; [None] is a read through NULL. *)
Definition sdb_expire_get (key : bytes) : M (option (Z * Z)) :=
  s ← get_st;
  match sdb_ht_find_kvp (Some (ht s)) key with
  | Some kv =>
      match value kv with
      | None => mret None
      | Some v => mret (Some (if negb (hd0 v =? 0) then (expire (ext kv), cas (ext kv)) else (0, 0)))
      end
  | None => mret (Some (0, 0))
  end.

(** ** Reading the records of the file in order *)

Definition sdb_dump_begin : M unit :=
  modify (λ s, set_dump_pos (match fd s with Some _ => CDB_FINAL | None => 0 end) s).

Definition sdb_dump_hasnext : M bool :=
  s ← get_st;
  let '(ok, (k, v)) := cdb_getkvlen (db s) (dump_pos s) in
  if negb ok then mret false
  else if (k <? 1) || (v <? 1) then mret false
  else _ ← modify (set_dump_pos (u32 (u32 (u32 (dump_pos s + k) + v) + 4))); mret true.

(** [getbytes]: the bytes read, or [None] for -1; the position moves on success. *)
Definition getbytes (len : Z) : M (option bytes) :=
  s ← get_st;
  match cdb_read (db s) len (dump_pos s) with
  | None => mret None
  | Some b => _ ← modify (set_dump_pos (u32 (dump_pos s + len))); mret (Some b)
  end.

(** [key] and [value] are buffers to fill; the results are the key ("" when it was not
    read), the value ([None] when it was not read) and [*_vlen]. *)
Definition sdb_dump_dupnext : M (option (bytes * option bytes * Z)) :=
  s ← get_st;
  let '(ok, (klen, vlen)) := cdb_getkvlen (db s) (dump_pos s) in
  if negb ok then mret None
  else
    _ ← modify (set_dump_pos (u32 (dump_pos s + 4)));
    if (klen <? 1) || (vlen <? 1) then mret None
    else
      k ← (if (SDB_MIN_KEY <? klen) && (klen <? SDB_MAX_KEY) then getbytes klen else mret (Some []));
      match k with
      | None => mret None
      | Some k =>
          if vlen <? SDB_MAX_VALUE then
            v ← getbytes vlen;
            match v with
            | None => mret None
            | Some v => mret (Some (cstr (k ++ [0]), Some (cstr (v ++ [0])), vlen))
            end
          else mret (Some (cstr (k ++ [0]), None, vlen))
      end.

(** Counting with [sdb_dump_hasnext]; the fuel is the size of what is read (the map, or
    else the file), as each round moves the position by at least six bytes within it. *)
Fixpoint count_loop (fuel : nat) (n : Z) : M Z :=
  match fuel with
  | O => mret n
  | S fuel' => h ← sdb_dump_hasnext; if (h : bool) then count_loop fuel' (n + 1) else mret n
  end.

Definition db_size (s : Sdb) : nat :=
  match cmap (db s), cfd (db s) with
  | Some m, _ => length m
  | None, Some d => length d
  | None, None => 0
  end.

Definition sdb_count : M Z :=
  s ← get_st;
  n ← (match cfd (db s) with
       | Some _ => _ ← sdb_dump_begin; count_loop (S (db_size s)) 0
       | None => mret 0 end);
  s ← get_st;
  mret (s32 (n + count (ht s))).

Definition sdb_isempty : M bool :=
  s ← get_st;
  h ← (match cfd (db s) with Some _ => _ ← sdb_dump_begin; sdb_dump_hasnext | None => mret false end);
  s ← get_st;
  mret (negb h && negb (0 <? count (ht s))).

Definition sdb_stats : M (Z * Z) :=
  s ← get_st;
  d ← (match fd s with
       | Some _ => _ ← sdb_dump_begin; count_loop (S (db_size s)) 0
       | None => mret 0 end);
  s ← get_st;
  mret (u32 d, count (ht s)).

(** ** Iteration *)

Section foreach.
Context {U : Type}.
Implicit Types (cb : U → bytes → option bytes → M (bool * U)) (user : U).

(** The records of the file; an entry in memory takes the place of its record. *)
Fixpoint foreach_cdb_loop (fuel : nat) cb (cb2 : option (U → bytes → option bytes → M (bool * U))) user : M (bool * U) :=
  match fuel with
  | O => mret (true, user)
  | S fuel' =>
      item ← sdb_dump_dupnext;
      match item with
      | None => mret (true, user)
      | Some (k, v, _) =>
          s ← get_st;
          match sdb_ht_find_kvp (Some (ht s)) k with
          | Some kv =>
              match value kv with
              | None => foreach_cdb_loop fuel' cb cb2 user
              | Some kvv =>
                  r ← cb user (key kv) (Some kvv);
                  if negb r.1 then mret (false, r.2)
                  else
                    match cb2 with
                    | None => foreach_cdb_loop fuel' cb cb2 r.2
                    | Some f =>
                        r ← f r.2 k (Some kvv);
                        if negb r.1 then mret (false, r.2) else foreach_cdb_loop fuel' cb cb2 r.2
                    end
              end
          | None =>
              r ← cb user k v;
              if negb r.1 then mret (false, r.2) else foreach_cdb_loop fuel' cb cb2 r.2
          end
      end
  end.

Definition sdb_foreach_cdb cb (cb2 : option (U → bytes → option bytes → M (bool * U))) user : M (bool * U) :=
  s ← get_st; _ ← sdb_dump_begin; foreach_cdb_loop (S (db_size s)) cb cb2 user.

(** [BUCKET_FOREACH_SAFE]: the index stays when the callback changed the number of
    entries.  The callbacks of the library do not add entries to the table they walk. *)
Fixpoint foreach_bucket (fuel : nat) cb (i : Z) (j : nat) user : M (bool * U) :=
  match fuel with
  | O => mret (true, user)
  | S fuel' =>
      s ← get_st;
      match arr (bucket_at (ht s) i) !! j with
      | None => mret (true, user)
      | Some kv =>
          r ← (match value kv with
               | Some ((_ :: _) as v) => cb user (key kv) (Some v)
               | _ => mret (true, user) end);
          if negb r.1 then mret (false, r.2)
          else
            s' ← get_st;
            foreach_bucket fuel' cb i (if count (ht s') =? count (ht s) then S j else j) r.2
      end
  end.

Fixpoint foreach_table (fuel : nat) cb (i : Z) user : M (bool * U) :=
  match fuel with
  | O => mret (true, user)
  | S fuel' =>
      s ← get_st;
      if i <? size (ht s) then
        r ← foreach_bucket (S (length (arr (bucket_at (ht s) i)))) cb i 0 user;
        if negb r.1 then mret (false, r.2) else foreach_table fuel' cb (i + 1) r.2
      else mret (true, user)
  end.

(** The perfect-hash table's own iteration. *)
Fixpoint gp_foreach (l : list (bytes * bytes)) cb user : M (bool * U) :=
  match l with
  | [] => mret (true, user)
  | (k, v) :: l' => r ← cb user k (Some v); if negb r.1 then mret (false, r.2) else gp_foreach l' cb r.2
  end.

Definition sdb_foreach_end (r : bool * U) : M (bool * U) :=
  _ ← modify (λ s, set_depth (u32 (depth s - 1)) (refs s) s); mret r.

Definition sdb_foreach cb user : M (bool * U) :=
  s ← get_st;
  match gp s with
  | Some g => gp_foreach (gp_all g) cb user
  | None =>
      _ ← modify (λ s, set_depth (u32 (depth s + 1)) (refs s) s);
      r ← sdb_foreach_cdb cb None user;
      if negb r.1 then sdb_foreach_end (false, r.2)
      else
        s ← get_st;
        r ← foreach_table (S (Z.to_nat (size (ht s)))) cb 0 r.2;
        sdb_foreach_end r
  end.
End foreach.

(** Collecting all pairs ([sdb_foreach_list] before sorting). *)
Definition sdb_foreach_list_cb (l : list (bytes * bytes)) (k : bytes) (v : option bytes) : M (bool * list (bytes * bytes)) :=
  mret (true, l ++ [(k, default [] v)]).

Definition sdb_foreach_pairs : M (list (bytes * bytes)) := r ← sdb_foreach sdb_foreach_list_cb []; mret r.2.

(** [sdb_merge] of the pairs of another database into this one. *)
Fixpoint set_pairs (now : Z) (l : list (bytes * bytes)) : M unit :=
  match l with
  | [] => mret tt
  | (k, v) :: l' => _ ← sdb_set now (Some k) (Some v) 0; set_pairs now l'
  end.

Definition sdb_merge (now : Z) (d s : Sdb) : Sdb * Sdb :=
  let '(l, s) := sdb_foreach_pairs s in ((set_pairs now l d).2, s).

(** ** Renaming by prefix *)

Definition rename_prefix_cb (prefix : bytes) (keys : list bytes) (k : bytes) (v : option bytes) : M (bool * list bytes) :=
  if negb (strneq k prefix (length prefix)) then mret (true, keys) else mret (true, keys ++ [k]).

Definition rename_prefix_key (newprefix suffix : bytes) : bytes := newprefix ++ suffix.

Fixpoint rename_keys (now : Z) (plen : nat) (newprefix : bytes) (keys : list bytes) (n : Z) : M Z :=
  match keys with
  | [] => mret n
  | k :: keys' =>
      r ← sdb_rename now (Some k) (Some (rename_prefix_key newprefix (drop plen k))) 0;
      rename_keys now plen newprefix keys' (if (r : bool) then n + 1 else n)
  end.

Definition sdb_rename_prefix (now : Z) (oldprefix newprefix : bytes) : M Z :=
  r ← sdb_foreach (rename_prefix_cb oldprefix) [];
  if negb r.1 then mret 0 else rename_keys now (length oldprefix) newprefix r.2 0.

(** ** Matching entries against [^]str[$]=[^]str[$] *)

Definition lastChar (s : bytes) : Z := default 0 (list.last s).

Definition sdb_match_expr (s expr : bytes) : bool :=
  let startsWith := hd0 expr =? chr "^" in
  let endsWith := lastChar expr =? chr "$" in
  if startsWith && endsWith then
    bool_decide (length s = length expr - 2)%nat && strneq s (tail expr) (length expr - 2)
  else if startsWith then strneq s (tail expr) (length expr - 1)
  else if endsWith then
    let blen := (length expr - 1)%nat in
    if (length s <=? blen)%nat then false
    else strneq (drop (length s - blen) s) expr blen
  else bool_decide (is_Some (strstr s expr)).

Definition sdbkv_match (k v expr : bytes) : bool :=
  match strchr expr (chr "=") with
  | Some eq =>
      let e := take (length expr - length eq) expr in
      let ep := tail eq in
      let res := (hd0 e =? 0) || sdb_match_expr k e in
      let res2 := (hd0 ep =? 0) || sdb_match_expr v ep in
      res && res2
  | None => sdb_match_expr k expr
  end.

Definition sdb_foreach_match_cb (expr : bytes) (single : bool) (l : list (bytes * bytes)) (k : bytes) (v : option bytes)
    : M (bool * list (bytes * bytes)) :=
  let v := default [] v in
  if sdbkv_match k v expr then mret (negb single, l ++ [(k, v)]) else mret (true, l).

Definition sdb_foreach_match (expr : bytes) (single : bool) : M (list (bytes * bytes)) :=
  r ← sdb_foreach (sdb_foreach_match_cb expr single) []; mret r.2.

(** ** Life cycle *)

(** A new database without a file. *)
Definition sdb_new0 : option Sdb :=
  match sdb_ht_new (λ _, true) with
  | None => None
  | Some t => Some (mkSdb t (cdb_init true cdb_none None).2 None None None false 0 0 [] [] 0 0 1 false)
  end.

(** [sdb_open] of a file that is not a text database, given its contents. *)
Definition sdb_open_file (mmap_ok : bool) (mtime : Z) (contents : option bytes) : M bool :=
  _ ← modify (λ s, set_fd (db s) contents (gp s) s);
  _ ← modify (λ s, set_stamp (timestamped s) (match contents with Some _ => mtime | None => 0 end) (dflt_expire s) s);
  match contents with
  | Some _ => _ ← modify (λ s, set_db (cdb_init mmap_ok (db s) contents).2 s); mret true
  | None => _ ← modify (λ s, set_db (mkCdb (cmap (db s)) None (csize (db s)) (loop (db s)) (khash (db s)) (kpos (db s))
                                           (hpos (db s)) (hslots (db s)) (dpos (db s)) (dlen (db s))) s); mret false
  end.

Definition sdb_close : M unit :=
  modify (λ s,
    let d := match fd s with
             | Some _ => mkCdb (cmap (db s)) None (csize (db s)) (loop (db s)) (khash (db s)) (kpos (db s))
                               (hpos (db s)) (hslots (db s)) (dpos (db s)) (dlen (db s))
             | None => db s end in
    set_fd d None None s).

Definition sdb_reset : M unit :=
  _ ← sdb_close;
  match sdb_ht_new (λ _, true) with
  | Some t => modify (set_ht t)
  | None => mret tt
  end.

Definition sdb_open_gperf (g : SdbGperf) : M Z := _ ← modify (λ s, set_fd (db s) (fd s) (Some g) s); mret 0.

(** Whether the last reference went away. *)
Definition sdb_free : M bool :=
  s ← get_st;
  if refs s =? 0 then mret false
  else
    _ ← modify (set_depth (depth s) (refs s - 1));
    if refs s - 1 <? 1 then _ ← modify (set_depth (depth s) 0); mret true else mret false.

(** * Facts *)

Ltac run_m := unfold nonzero, mbind, M_bind, mret, M_ret, get_st, modify; cbn [fst snd].

(** ** Writing an entry in place *)

Lemma ht_write_spec n t k f kv :
  sdb_ht_inv n t → to_map t !! k = Some kv → key (f kv) = k → kv_keyed (f kv) →
  sdb_ht_inv n (ht_write t k f) ∧ to_map (ht_write t k f) = <[k := f kv]> (to_map t)
  ∧ freed (ht_write t k f) = freed t.
Proof.
  intros [Hi Ho] Hk Hf Hkk. destruct Hi as [[Hw Hc] Hd Hs Hr]. unfold ht_write.
  pose proof (bucket_find_spec t k Hw) as Hb. destruct (bucket_find _ _ _ _) as [[j kv']|]; [|congruence].
  destruct Hb as (Hj & Hkey & Hm). assert (kv' = kv) as -> by congruence.
  destruct (alter_slot_spec t k j kv f Hw Hj Hkey Hf) as (Hw' & Hm' & Ho' & Hs' & Hc' & Hf').
  { unfold kv_ok, calcsize_key. rewrite Ho. exact Hkk. }
  split; [|done]. split; [|congruence]. split; [split; [done|lia]| |lia|lia].
  intros v. rewrite (dupval_opt t); [done|congruence].
Qed.

(** ** A database in memory *)

(** The entries agree with their length fields and hold C strings; [cas] can be
    increased [n] more times. *)
Definition entry_ok (n : nat) (kv : SdbKv) : Prop :=
  value_len kv = slen (default [] (value kv)) ∧ is_cstr (default [] (value kv))
  ∧ 0 < cas (ext kv) ∧ cas (ext kv) + Z.of_nat n < 2 ^ 32.

(** The file behind the database: none, or the finished file of some pairs. *)
Definition disk_ok (disk : option pairs) (s : Sdb) : Prop :=
  match disk with
  | None => fd s = None ∧ cfd (db s) = None ∧ cmap (db s) = None
  | Some kvs => ∃ img, fd s = Some img ∧ reading (db s) img ∧ image_ok kvs img ∧ Forall pair_ok kvs
  end.

(** What a search in the file answers. *)
Definition on_disk (disk : option pairs) (k : bytes) : Z :=
  match disk with
  | None => -1
  | Some kvs => match first_value kvs k with Some _ => 1 | None => 0 end
  end.

Record db_inv (disk : option pairs) (n : nat) (s : Sdb) : Prop := {
  mi_ht : sdb_ht_inv n (ht s);
  mi_disk : disk_ok disk s;
  mi_gp : gp s = None;
  mi_stamp : timestamped s = false;
  mi_entries : map_Forall (λ _ kv, entry_ok n kv) (to_map (ht s))
}.

(** A database without a file. *)
Abbreviation mem_inv := (db_inv None).

(** What an entry stands for: a value that is NULL or empty is an unset key. *)
Definition live (kv : SdbKv) : option bytes :=
  match value kv with Some (c :: v) => Some (c :: v) | _ => None end.

(** The contents of the database. *)
Definition view (s : Sdb) : gmap bytes bytes := omap live (to_map (ht s)).

(** The entry written by a set over [o], for a value of its own. *)
Definition set_entry (k val : bytes) (o : option SdbKv) (owned : bool) : SdbKv :=
  match o with
  | Some (mkKv k0 (Some _) kl0 _ e0 as kv) => mkKv k0 (Some val) kl0 (slen val) (mkExt (nextcas kv) (expire e0))
  | _ => mkKv k (if (slen val =? 0) && negb owned then None else Some val) (slen k) (slen val) (mkExt 2 0)
  end.

(** What a set of [val] does with the entry in memory, with the number it returns;
    [od] is the answer of the search on disk. *)
Inductive outcome := Keep (r : Z) | Write (r : Z) | Drop (r : Z).

Definition set_outcome (od : Z) (val : bytes) (o : option SdbKv) (c : Z) : outcome :=
  match o with
  | Some (mkKv _ (Some v0) _ _ e0 as kv) =>
      if od =? 0 then Drop (nextcas kv)
      else if negb (c =? 0) && negb (cas e0 =? c) then Keep 0
      else if decide (v0 = val) then Keep (cas e0)
      else Write (nextcas kv)
  | _ => Write 2
  end.

Definition outcome_map (k : bytes) (e : SdbKv) (x : outcome) (m : gmap bytes SdbKv) : gmap bytes SdbKv :=
  match x with Keep _ => m | Write _ => <[k := e]> m | Drop _ => delete k m end.
Definition outcome_ret (x : outcome) : Z := match x with Keep r | Write r | Drop r => r end.

Definition key_ok (k : bytes) : Prop := slen k < SDB_KSZ.
Definition val_ok (v : bytes) : Prop := is_cstr v ∧ slen v < SDB_VSZ.

Lemma hook_call_ht now k v s :
  timestamped s = false →
  let '(_, s') := sdb_hook_call now k v s in
  ht s' = ht s ∧ fd s' = fd s ∧ db s' = db s ∧ gp s' = gp s ∧ timestamped s' = timestamped s.
Proof. intros Ht. unfold sdb_hook_call; run_m. by rewrite Ht. Qed.

Lemma entry_ok_le n m kv : (m <= n)%nat → entry_ok n kv → entry_ok m kv.
Proof. intros Hm (? & ? & ? & ?). split_and!; [done|done|done|lia]. Qed.

Lemma nextcas_S n kv : entry_ok (S n) kv → nextcas kv = cas (ext kv) + 1.
Proof.
  intros (_ & _ & Hp & Hl). unfold nextcas. rewrite (proj2 (Z.eqb_neq _ _)) by lia.
  apply u32_small. unfold is_u32. lia.
Qed.

Lemma set_entry_ok n k val o owned :
  key_ok k → val_ok val → 2 + Z.of_nat n < 2 ^ 32 → (∀ kv, o = Some kv → key kv = k ∧ kv_keyed kv ∧ entry_ok (S n) kv) →
  entry_ok n (set_entry k val o owned) ∧ key (set_entry k val o owned) = k ∧ kv_keyed (set_entry k val o owned).
Proof.
  intros Hk [Hv Hvl] Hn Ho. pose proof (slen_nonneg k). unfold key_ok, SDB_KSZ in Hk.
  assert (kv_keyed (mkKv k (if (slen val =? 0) && negb owned then None else Some val) (slen k) (slen val) (mkExt 2 0))) as Hnew.
  { unfold kv_keyed; cbn. rewrite u32_small; [done|unfold is_u32; lia]. }
  assert (entry_ok n (mkKv k (if (slen val =? 0) && negb owned then None else Some val) (slen k) (slen val) (mkExt 2 0))) as Hent.
  { split_and!; cbn; [..|done|lia].
    - destruct (_ && _) eqn:E; cbn; [|done]. apply andb_true_iff in E as [E _]. by zbool.
    - destruct (_ && _); cbn; [constructor|done]. }
  destruct o as [[k0 [v0|] kl0 vl0 e0]|]; cbn [set_entry]; [|by split_and!..].
  destruct (Ho _ eq_refl) as (Hk0 & Hkl & He). unfold kv_keyed in *; cbn [key key_len] in *.
  pose proof (nextcas_S _ _ He) as Hc. destruct He as (_ & _ & He1 & He2).
  split_and!; [|done|done]. split_and!; cbn [value value_len ext cas default from_option id]; [done|done|lia|].
  rewrite Hc. cbn [ext cas] in *. lia.
Qed.

(** What the rest of an operation may change without touching the contents. *)
Definition same_core (s s' : Sdb) : Prop :=
  ht s' = ht s ∧ fd s' = fd s ∧ cmap (db s') = cmap (db s) ∧ cfd (db s') = cfd (db s) ∧ csize (db s') = csize (db s)
  ∧ gp s' = gp s ∧ timestamped s' = timestamped s.

#[global] Instance same_core_preorder : PreOrder same_core.
Proof. split; [by intros s|]. intros a b c (?&?&?&?&?&?&?) (?&?&?&?&?&?&?). split_and!; congruence. Qed.

Lemma disk_ok_core disk s s' : same_core s s' → disk_ok disk s → disk_ok disk s'.
Proof.
  intros (_ & Hf & Hm & Hd & Hz & _). unfold disk_ok. destruct disk as [kvs|]; [|by rewrite Hf, Hd, Hm].
  intros (img & Hfd & [] & ? & ?). exists img. split_and!; [congruence| |done..]. split; congruence.
Qed.

Lemma mem_inv_core disk n s s' : same_core s s' → db_inv disk n s → db_inv disk n s'.
Proof.
  intros Hc [? Hd ? ? ?]. pose proof (disk_ok_core _ _ _ Hc Hd). destruct Hc as (Hh & _ & _ & _ & _ & Hg & Ht).
  split; rewrite ?Hh, ?Hg, ?Ht; done.
Qed.

Lemma mem_inv_ht disk n m s t :
  db_inv disk n s → sdb_ht_inv m t → map_Forall (λ _ kv, entry_ok m kv) (to_map t) → db_inv disk m (set_ht t s).
Proof. intros [? ? ? ? ?] ? ?. by split. Qed.

Lemma mem_inv_le disk n m s : (m <= n)%nat → db_inv disk n s → db_inv disk m s.
Proof.
  intros Hm [[Hi Ho] ? ? ? He]. split; [split; [by eapply ht_inv_le|done]|done..|].
  eapply map_Forall_impl; [exact He|]. intros k kv. by apply entry_ok_le.
Qed.

Lemma mem_inv_small disk n s : db_inv disk n s → 2 + Z.of_nat n < 2 ^ 32.
Proof.
  intros [[[[Hw _] _ _ Hr] _] _ _ _ _]. rewrite (wf_count _ Hw) in Hr. lia.
Qed.

Lemma hook_core now k v s : timestamped s = false → same_core s (sdb_hook_call now k v s).2.
Proof. intros Ht. pose proof (hook_call_ht now k v s Ht) as H. destruct (sdb_hook_call _ _ _ _) as [r s']. destruct H as (?&?&Hd&?&?). split_and!; cbn; congruence. Qed.

Lemma log_core k v s :
  same_core s ((match journal s with None => mret false | Some _ => sdb_journal_log k v end : M bool) s).2.
Proof. unfold sdb_journal_log; run_m. destruct (journal s) eqn:E; [rewrite E|]; by split_and!. Qed.

Lemma findstart_core s : same_core s (set_db (cdb_findstart (db s)) s).
Proof. by split_and!. Qed.

Lemma findnext_core s k : ∃ d, findnext k s = ((cdb_findnext (db s) (sdb_hash k) k (slen k)).1, set_db d s)
  ∧ d = (cdb_findnext (db s) (sdb_hash k) k (slen k)).2.
Proof. unfold findnext; run_m. destruct (cdb_findnext _ _ _ _) as [r d]. by exists d. Qed.

(** The search on disk, started anew. *)
Lemma findnext_disk disk s k :
  disk_ok disk s → loop (db s) = 0 → slen k + 1 < 2 ^ 32 →
  ∃ d, findnext k s = (on_disk disk k, set_db d s) ∧ same_core s (set_db d s)
    ∧ match disk with
      | None => True
      | Some kvs => match first_value kvs k with
          | Some v => dlen d = slen v + 1 ∧ take (Z.to_nat (dlen d)) (drop (Z.to_nat (dpos d)) (default [] (cmap d))) = v ++ [0]
          | None => True end
      end.
Proof.
  intros Hd Hl Hk. destruct (findnext_core s k) as (d & -> & Ed). exists d. destruct disk as [kvs|].
  - destruct Hd as (img & Hfd & Hr & Him & Hok). pose proof (findnext_image kvs img (db s) k Him Hok Hr Hl Hk) as Hf.
    destruct (cdb_findnext _ _ _ _) as [r d']. cbn in Ed. subst d'. destruct Hf as [Hr' Hf]. cbn [fst snd on_disk] in *.
    assert (same_core s (set_db d s)) as Hc.
    { destruct Hr, Hr'. split_and!; cbn; congruence. }
    destruct (first_value kvs k) as [v|]; [|by rewrite Hf]. destruct Hf as (-> & ? & Hdt).
    split_and!; [done|done|done|]. by rewrite (rd_map _ _ Hr').
  - destruct Hd as (Hfd & Hcf & _). unfold cdb_findnext in *. rewrite Hcf in *. cbn in Ed. subst d. by split_and!.
Qed.

Lemma to_map_key n t k kv : sdb_ht_inv n t → to_map t !! k = Some kv → key kv = k ∧ kv_keyed kv.
Proof.
  intros [[[Hw _] _ _ _] Ho] [Hin Hk]%to_map_lookup; [|done]. split; [done|].
  apply elem_of_kvs in Hin as (i & bt & Hi & Hb). destruct (wf_place _ Hw i bt kv Hi Hb) as [_ Hok].
  unfold kv_ok, calcsize_key in Hok. by rewrite Ho in Hok.
Qed.

Lemma new_entry k val (owned : bool) :
  key_ok k → val_ok val →
  (if owned then (λ kv : SdbKv, mkKv (key kv) (Some val) (key_len kv) (slen val) (ext kv)) <$> sdbkv_new2 k (slen k) None 0
   else sdbkv_new2 k (slen k) (Some val) (slen val))
  = Some (mkKv k (if (slen val =? 0) && negb owned then None else Some val) (slen k) (slen val) (mkExt 1 0)).
Proof.
  intros Hk [_ Hv]. unfold key_ok in Hk. unfold sdbkv_new2.
  rewrite (proj2 (Z.leb_gt SDB_VSZ (slen val))), (proj2 (Z.leb_gt SDB_KSZ (slen k))) by lia.
  destruct owned; cbn; [by rewrite andb_false_r|by rewrite andb_true_r].
Qed.

(** The last part of a set: the hook calls keep the invariant. *)
Lemma hook_inv disk now n s k val :
  db_inv disk n s → db_inv disk n (sdb_hook_call now k val s).2 ∧ ht (sdb_hook_call now k val s).2 = ht s.
Proof.
  intros Hi. pose proof (hook_core now k val s (mi_stamp _ _ _ Hi)) as Hh. split; [by eapply mem_inv_core|apply Hh].
Qed.

(** A set for a key without a value in memory. *)
Lemma set_fresh disk n s k val owned :
  db_inv disk (S n) s → key_ok k → val_ok val →
  let e := mkKv k (if (slen val =? 0) && negb owned then None else Some val) (slen k) (slen val) (mkExt 2 0) in
  let s1 := set_ht (sdb_ht_insert_kvp (λ _, true) (ht s) e true).2 s in
  db_inv disk n s1 ∧ to_map (ht s1) = <[k := e]> (to_map (ht s)).
Proof.
  intros Hi Hk Hv e s1. destruct (set_entry_ok n k val None owned Hk Hv) as (He & _ & Hkd); [pose proof (mem_inv_small _ _ _ Hi); lia|done|].
  cbn [set_entry] in He, Hkd.
  pose proof (sdb_ht_insert_kvp_spec (λ _, true) n (ht s) e true (λ _, eq_refl) (mi_ht _ _ _ Hi) Hkd) as Hins.
  unfold s1. destruct (sdb_ht_insert_kvp _ _ _ _) as [r t]. cbn [snd]. destruct Hins as [Hti Hm].
  assert (to_map t = <[k := e]> (to_map (ht s))) as Htm by (destruct (to_map (ht s) !! key e); by destruct Hm as (_ & -> & _)).
  split; [|done]. apply (mem_inv_ht disk (S n)); [done|done|]. rewrite Htm. apply map_Forall_insert_2; [done|].
  apply (mi_entries disk n). eapply mem_inv_le; [|done]. lia.
Qed.

(** A set that changes the value of an entry in place. *)
Lemma set_write disk n s k val owned k0 v0 kl0 vl0 e0 :
  db_inv disk (S n) s → key_ok k → val_ok val → to_map (ht s) !! k = Some (mkKv k0 (Some v0) kl0 vl0 e0) →
  let c := nextcas (mkKv k0 (Some v0) kl0 vl0 e0) in
  let s1 := set_ht (ht_write (ht s) k (λ kv, mkKv (key kv) (Some val) (key_len kv) (slen val) (mkExt c (expire (ext kv))))) s in
  db_inv disk n s1 ∧ to_map (ht s1) = <[k := set_entry k val (Some (mkKv k0 (Some v0) kl0 vl0 e0)) owned]> (to_map (ht s)).
Proof.
  intros Hi Hk Hv Em c s1. assert (db_inv disk n s) as Hi' by (eapply mem_inv_le; [|done]; lia).
  destruct (to_map_key _ _ _ _ (mi_ht _ _ _ Hi) Em) as [Hkey Hkeyed]. cbn in Hkey. subst k0.
  unfold s1. set (f := λ kv : SdbKv, _).
  destruct (ht_write_spec n (ht s) k f _ (mi_ht _ _ _ Hi') Em eq_refl Hkeyed) as (Hwi & Hwm & _).
  split; [|exact Hwm]. apply (mem_inv_ht disk n); [done|done|]. rewrite Hwm. apply map_Forall_insert_2; [|apply Hi'].
  destruct (set_entry_ok n k val (Some (mkKv k (Some v0) kl0 vl0 e0)) owned Hk Hv) as [He _]; [|intros ? [= <-]|exact He].
  - pose proof (mem_inv_small _ _ _ Hi). lia.
  - split_and!; [done|done|]. apply (mi_entries _ _ _ Hi _ _ Em).
Qed.

Lemma set_drop disk n s k :
  db_inv disk n s →
  let s1 := set_ht (sdb_ht_delete (ht s) k).2 s in
  db_inv disk n s1 ∧ to_map (ht s1) = delete k (to_map (ht s)).
Proof.
  intros Hi s1. unfold s1. pose proof (sdb_ht_delete_spec n (ht s) k (mi_ht _ _ _ Hi)) as Hd.
  destruct (sdb_ht_delete _ _) as [r t]. destruct Hd as (Hti & Hm & _). cbn [snd]. split; [|done].
  apply (mem_inv_ht disk n); [done|done|]. rewrite Hm. apply map_Forall_delete, Hi.
Qed.

Lemma value_same (kv : SdbKv) v0 val :
  value_len kv = slen v0 → (slen val =? value_len kv) && (strcmp v0 val =? 0) = bool_decide (v0 = val).
Proof.
  intros Hvl. destruct (decide (v0 = val)) as [->|Hne].
  - rewrite Hvl, Z.eqb_refl, (proj2 (strcmp_eq val val)) by done. by rewrite bool_decide_true.
  - rewrite bool_decide_false by done. apply andb_false_iff. right. apply Z.eqb_neq. by rewrite strcmp_eq.
Qed.

(** A set, on every branch. *)
Lemma set_any disk now n s k val owned c :
  db_inv disk (S n) s → key_ok k → val_ok val →
  let '(r, s') := sdb_set_internal now (Some k) (Some val) owned c s in
  let o := to_map (ht s) !! k in let x := set_outcome (on_disk disk k) val o c in
  db_inv disk n s' ∧ r = outcome_ret x ∧ to_map (ht s') = outcome_map k (set_entry k val o owned) x (to_map (ht s)).
Proof.
  intros Hi Hk Hv. assert ((SDB_KSZ <=? slen k) = false ∧ (SDB_VSZ <=? slen val) = false) as [E1 E2].
  { destruct Hv as [_ Hv]. unfold key_ok in Hk. split; apply Z.leb_gt; lia. }
  unfold sdb_set_internal. cbn [default from_option id]. rewrite E1, E2; cbn [orb]. run_m.
  pose proof (log_core k val s) as Hlog. unfold mret, M_ret in Hlog.
  destruct ((match journal s with None => λ s, (false, s) | Some _ => sdb_journal_log k val end : M bool) s) as [x s1] eqn:El.
  assert (same_core s (set_db (cdb_findstart (db s1)) s1)) as Hc1 by (etrans; [exact Hlog|apply findstart_core]).
  assert (loop (db (set_db (cdb_findstart (db s1)) s1)) = 0) as Hl0 by done.
  clear El Hlog. set (s2 := set_db (cdb_findstart (db s1)) s1) in *. clearbody s2. clear s1 x.
  assert (db_inv disk (S n) s2) as Hi2 by by eapply mem_inv_core.
  assert (db_inv disk n s2) as Hi2' by (eapply mem_inv_le; [|done]; lia).
  rewrite (sdb_ht_find_kvp_spec (S n)) by apply Hi2. replace (to_map (ht s)) with (to_map (ht s2)) by (by destruct Hc1 as [-> _]).
  destruct (to_map (ht s2) !! k) as [[k0 [v0|] kl0 vl0 e0]|] eqn:Em; cbn [set_outcome].
  - destruct (findnext_disk disk s2 k (mi_disk _ _ _ Hi2) Hl0) as (d & -> & Hcd & _); [unfold key_ok, SDB_KSZ in Hk; lia|].
    assert (db_inv disk (S n) (set_db d s2)) as Hi3 by by eapply mem_inv_core.
    assert (db_inv disk n (set_db d s2)) as Hi3' by by eapply mem_inv_core.
    pose proof (mi_entries _ _ _ Hi2 _ _ Em) as (Hvl & _). pose proof (value_same _ v0 val Hvl) as Ee.
    cbn [value_len] in Ee. rewrite Ee. clear Ee Hvl. destruct (on_disk disk k =? 0); cbn [negb].
    { destruct (set_drop disk n (set_db d s2) k Hi3') as [Hi4 Hm4].
      destruct (hook_inv disk now n _ k val Hi4) as [Hi5 Hh5]. destruct (sdb_hook_call _ _ _ _) as [r s'].
      split_and!; [done|done|]. cbn [snd] in Hh5. rewrite Hh5. exact Hm4. }
    destruct (negb (c =? 0) && negb (cas e0 =? c)); [by split_and!|].
    destruct (decide (v0 = val)) as [->|Hne].
    + rewrite bool_decide_true by done. destruct (hook_inv disk now n _ k val Hi3') as [Hi5 Hh5].
      destruct (sdb_hook_call _ _ _ _) as [r s']. split_and!; [done|done|]. cbn [snd] in Hh5. by rewrite Hh5.
    + rewrite bool_decide_false by done.
      destruct (set_write disk n (set_db d s2) k val owned k0 v0 kl0 vl0 e0 Hi3 Hk Hv Em) as [Hi4 Hm4].
      destruct (hook_inv disk now n _ k val Hi4) as [Hi5 Hh5]. destruct (sdb_hook_call _ _ _ _) as [r s'].
      split_and!; [done|done|]. cbn [snd] in Hh5. rewrite Hh5. exact Hm4.
  - rewrite new_entry by done. cbn [key value key_len value_len ext expire].
    destruct (set_fresh disk n s2 k val owned Hi2 Hk Hv) as [Hi4 Hm4].
    destruct (hook_inv disk now n _ k val Hi4) as [Hi5 Hh5].
    change (nextcas (mkKv k _ _ _ (mkExt 1 0))) with 2. destruct (sdb_hook_call _ _ _ _) as [r s'].
    split_and!; [done|done|]. cbn [snd] in Hh5. rewrite Hh5. exact Hm4.
  - rewrite new_entry by done. cbn [key value key_len value_len ext expire].
    destruct (set_fresh disk n s2 k val owned Hi2 Hk Hv) as [Hi4 Hm4].
    destruct (hook_inv disk now n _ k val Hi4) as [Hi5 Hh5].
    change (nextcas (mkKv k _ _ _ (mkExt 1 0))) with 2. destruct (sdb_hook_call _ _ _ _) as [r s'].
    split_and!; [done|done|]. cbn [snd] in Hh5. rewrite Hh5. exact Hm4.
Qed.

(** The [cas] of the entry of a key. *)
Definition cas_of (s : Sdb) (k : bytes) : Z :=
  match to_map (ht s) !! k with Some kv => cas (ext kv) | None => 0 end.

Lemma view_lookup s k : view s !! k = to_map (ht s) !! k ≫= live.
Proof. apply lookup_omap. Qed.

Lemma get_mem now n s k :
  mem_inv n s →
  sdb_const_get_len now (Some k) s =
  (match view s !! k with Some v => (Some (v ++ [0]), slen v, cas_of s k) | None => (None, 0, 0) end, s).
Proof.
  intros Hi. unfold sdb_const_get_len; run_m. rewrite (sdb_ht_find_kvp_spec n) by apply Hi.
  rewrite view_lookup. unfold cas_of. destruct (to_map (ht s) !! k) as [kv|] eqn:Em; cbn [mbind option_bind].
  - pose proof (mi_entries _ _ _ Hi _ _ Em) as (Hvl & _). unfold live.
    destruct (value kv) as [[|x v]|]; [done| |done]. rewrite (mi_stamp _ _ _ Hi); cbn [andb]. by rewrite Hvl.
  - by rewrite (mi_gp _ _ _ Hi), (proj1 (mi_disk _ _ _ Hi)).
Qed.

Lemma view_cstr n s k v : mem_inv n s → view s !! k = Some v → is_cstr v ∧ v ≠ [] ∧ 0 < cas_of s k.
Proof.
  intros Hi. rewrite view_lookup. unfold cas_of. destruct (to_map (ht s) !! k) as [kv|] eqn:Em; cbn [mbind option_bind]; [|done].
  pose proof (mi_entries _ _ _ Hi _ _ Em) as (_ & Hc & Hp & _). unfold live.
  destruct (value kv) as [[|x v']|]; [done| |done]. by intros [= <-].
Qed.

Lemma sdb_get_mem now n s k :
  mem_inv n s → sdb_get now (Some k) s = ((view s !! k, match view s !! k with Some _ => cas_of s k | None => 0 end), s).
Proof.
  intros Hi. unfold sdb_get, sdb_get_len; run_m. rewrite (get_mem now n s k Hi).
  destruct (view s !! k) as [v|] eqn:Ev; cbn [fst snd fmap option_fmap option_map]; [|done].
  destruct (view_cstr n s k v Hi Ev) as [Hc _]. by rewrite cstr_app_nul.
Qed.

(** Whether a [cas] lets a change through. *)
Definition cas_ok (s : Sdb) (k : bytes) (c : Z) : bool :=
  match to_map (ht s) !! k with
  | Some kv => match value kv with Some _ => (c =? 0) || (cas (ext kv) =? c) | None => true end
  | None => true
  end.

Definition put (m : gmap bytes bytes) (k v : bytes) : gmap bytes bytes :=
  match v with [] => delete k m | _ => <[k := v]> m end.

(** What a set does to the contents. *)
Lemma view_set now n s k val owned c :
  mem_inv (S n) s → key_ok k → val_ok val →
  let '(r, s') := sdb_set_internal now (Some k) (Some val) owned c s in
  mem_inv n s' ∧ (if cas_ok s k c then 0 < r ∧ view s' = put (view s) k val ∧ cas_of s' k = r
                  else r = 0 ∧ view s' = view s).
Proof.
  intros Hi Hk Hv. pose proof (set_any None now n s k val owned c Hi Hk Hv) as Hs.
  pose proof (mem_inv_small _ _ _ Hi) as Hsm.
  destruct (sdb_set_internal _ _ _ _ _ _) as [r s']. unfold cas_ok, cas_of, view.
  assert (∀ e, live e = (match val with [] => None | _ => Some val end) →
    omap live (<[k := e]> (to_map (ht s))) = put (omap live (to_map (ht s))) k val) as Hput.
  { intros e He. rewrite omap_insert. destruct val as [|x val]; rewrite He; done. }
  destruct (to_map (ht s) !! k) as [[k0 [v0|] kl0 vl0 e0]|] eqn:Em; cbn [set_outcome on_disk Z.eqb outcome_map outcome_ret set_entry value ext] in *.
  - pose proof (mi_entries _ _ _ Hi _ _ Em) as Hent. pose proof (nextcas_S _ _ Hent) as Hnc.
    destruct Hent as (_ & _ & Hcp & _). cbn [ext cas] in *.
    destruct (c =? 0) eqn:Ec; [|destruct (cas e0 =? c) eqn:Ec2]; cbn [negb andb orb] in *.
    3:{ destruct Hs as (? & -> & ->). done. }
    all: destruct (decide (v0 = val)) as [->|Hne]; destruct Hs as (Hi' & -> & Hm); cbn [outcome_ret outcome_map] in *;
      (split; [done|]); rewrite Hm;
      [split_and!; [lia| |by rewrite Em]|split_and!; [lia| |by rewrite lookup_insert_eq]].
    all: try (apply Hput; unfold live; cbn; by destruct val).
    all: rewrite <- (insert_id _ _ _ Em) at 1; apply Hput; unfold live; cbn; by destruct val.
  - destruct Hs as (Hi' & -> & Hm). split; [done|]. rewrite Hm. split_and!; [lia| |by rewrite lookup_insert_eq].
    apply Hput. unfold live; cbn. destruct val; [by destruct owned|]. cbn. done.
  - destruct Hs as (Hi' & -> & Hm). split; [done|]. rewrite Hm. split_and!; [lia| |by rewrite lookup_insert_eq].
    apply Hput. unfold live; cbn. destruct val; [by destruct owned|]. cbn. done.
Qed.

Lemma mem_inv_S n s : mem_inv (S n) s → mem_inv n s.
Proof. apply mem_inv_le. lia. Qed.

(** [sdb_set] and [sdb_set_owned] without a [cas]. *)
Lemma set_mem_view now n s k val owned :
  mem_inv (S n) s → key_ok k → val_ok val →
  let '(r, s') := nonzero (sdb_set_internal now (Some k) (Some val) owned 0) s in
  mem_inv n s' ∧ r = true ∧ view s' = put (view s) k val.
Proof.
  intros Hi Hk Hv. pose proof (view_set now n s k val owned 0 Hi Hk Hv) as Hs. run_m.
  destruct (sdb_set_internal _ _ _ _ _ _) as [r s']. destruct Hs as [Hi' Hs].
  assert (cas_ok s k 0 = true) as E.
  { unfold cas_ok. destruct (_ !! k) as [kv|]; [|done]. by destruct (value kv). }
  rewrite E in Hs. destruct Hs as (Hr & Hvw & _). split_and!; [done| |done].
  rewrite (proj2 (Z.eqb_neq _ _)) by lia. done.
Qed.

Lemma exists_mem n s k :
  mem_inv n s → sdb_exists (Some k) s = (bool_decide (is_Some (view s !! k)), s).
Proof.
  intros Hi. unfold sdb_exists; run_m. rewrite (sdb_ht_find_kvp_spec n) by apply Hi. rewrite view_lookup.
  destruct (to_map (ht s) !! k) as [kv|]; cbn [mbind option_bind].
  - unfold live. destruct (value kv) as [[|x v]|]; [by rewrite bool_decide_false by (by intros [])|
      by rewrite bool_decide_true by eauto|by rewrite bool_decide_false by (by intros [])].
  - rewrite (proj1 (mi_disk _ _ _ Hi)). by rewrite bool_decide_false by (by intros []).
Qed.

(** ** Calls and their meaning on a finite map *)

Inductive db_op :=
| DSet (k v : bytes)
| DUnset (k : bytes)
| DGet (k : bytes)
| DExists (k : bytes)
| DAdd (k v : bytes)
| DRename (old new : bytes)
| DConcat (k v : bytes).

Definition db_step (now : Z) (o : db_op) : M (bool + option bytes) :=
  match o with
  | DSet k v => r ← sdb_set now (Some k) (Some v) 0; mret (inl r)
  | DUnset k => r ← sdb_unset now (Some k) 0; mret (inl r)
  | DGet k => r ← sdb_get now (Some k); mret (inr r.1)
  | DExists k => r ← sdb_exists (Some k); mret (inl r)
  | DAdd k v => r ← sdb_add now (Some k) (Some v) 0; mret (inl r)
  | DRename old new => r ← sdb_rename now (Some old) (Some new) 0; mret (inl r)
  | DConcat k v => r ← sdb_concat now (Some k) (Some v) 0; mret (inl r)
  end.

Definition spec_step (o : db_op) (m : gmap bytes bytes) : (bool + option bytes) * gmap bytes bytes :=
  match o with
  | DSet k v => (inl true, put m k v)
  | DUnset k => (inl true, delete k m)
  | DGet k => (inr (m !! k), m)
  | DExists k => (inl (bool_decide (is_Some (m !! k))), m)
  | DAdd k v => if bool_decide (is_Some (m !! k)) then (inl false, m) else (inl true, put m k v)
  | DRename old new =>
      match m !! old with
      | Some v => (inl true, put (delete old m) new v)
      | None => (inl false, m)
      end
  | DConcat k v =>
      match k, v with
      | _ :: _, _ :: _ =>
          let w := default [] (m !! k) ++ v in
          if slen w <? SDB_VSZ then (inl true, put m k w) else (inl false, m)
      | _, _ => (inl false, m)
      end
  end.

(** Keys and values within the limits of the database. *)
Definition op_ok (o : db_op) : Prop :=
  match o with
  | DSet k v | DAdd k v | DConcat k v => key_ok k ∧ val_ok v
  | DUnset k | DGet k | DExists k => key_ok k
  | DRename old new => key_ok old ∧ key_ok new
  end.

(** The values of the contents can be stored again. *)
Definition view_ok (m : gmap bytes bytes) : Prop := map_Forall (λ _ v, val_ok v) m.

Lemma view_ok_put m k v : view_ok m → val_ok v → view_ok (put m k v).
Proof.
  intros Hm Hv. destruct v as [|x v]; [by apply map_Forall_delete|by apply map_Forall_insert_2].
Qed.

Lemma set_too_long now k v owned s :
  SDB_VSZ <= slen v → sdb_set_internal now (Some k) (Some v) owned 0 s = (0, s).
Proof.
  intros Hl. unfold sdb_set_internal. cbn [default from_option id].
  by rewrite (proj2 (Z.leb_le SDB_VSZ (slen v))), orb_true_r by lia.
Qed.

Lemma concat_mem now n s k v :
  mem_inv (S n) s → view_ok (view s) → key_ok k → val_ok v →
  let '(r, s') := sdb_concat now (Some k) (Some v) 0 s in
  mem_inv n s' ∧ view_ok (view s') ∧ spec_step (DConcat k v) (view s) = (inl r, view s').
Proof.
  intros Hi Hvo Hk Hv. cbn [spec_step]. unfold sdb_concat.
  destruct k as [|x k]; [by split_and!; [apply mem_inv_S|..]|].
  destruct v as [|y v]; [by split_and!; [apply mem_inv_S|..]|]. run_m.
  set (kk := x :: k) in *. set (vv := y :: v) in *.
  rewrite (get_mem now (S n) s kk Hi). destruct (view s !! kk) as [w|] eqn:Ew; cbn [fst snd default from_option id].
  - destruct (view_cstr _ _ _ _ Hi Ew) as (Hcw & _ & _).
    assert (is_cstr (w ++ vv)) as Hcs by (apply Forall_app; split; [done|apply Hv]).
    assert (cstr (take (Z.to_nat (slen w)) (w ++ [0]) ++ vv ++ [0]) = w ++ vv) as ->.
    { rewrite take_app_length' by (unfold slen; lia). rewrite app_assoc. by rewrite cstr_app_nul. }
    unfold sdb_set_owned. destruct (slen (w ++ vv) <? SDB_VSZ) eqn:El; zbool.
    + pose proof (set_mem_view now n s kk (w ++ vv) true Hi Hk (conj Hcs El)) as Hs.
      destruct (nonzero _ s) as [r s']. destruct Hs as (? & -> & ->). split_and!; [done|by apply view_ok_put|done].
    + run_m. rewrite set_too_long by done. by split_and!; [apply mem_inv_S|..].
  - cbn [app]. rewrite (proj2 (Z.ltb_lt _ _)) by apply Hv. unfold sdb_set.
    pose proof (set_mem_view now n s kk vv false Hi Hk Hv) as Hs.
    destruct (nonzero _ s) as [r s']. destruct Hs as (? & -> & ->). split_and!; [done|by apply view_ok_put|done].
Qed.

Lemma rename_mem now n s old new :
  mem_inv (S (S n)) s → view_ok (view s) → key_ok old → key_ok new →
  let '(r, s') := sdb_rename now (Some old) (Some new) 0 s in
  mem_inv n s' ∧ view_ok (view s') ∧ spec_step (DRename old new) (view s) = (inl r, view s').
Proof.
  intros Hi Hvo Ho Hn. cbn [spec_step]. unfold sdb_rename; run_m. rewrite (sdb_get_mem now _ s old Hi).
  destruct (view s !! old) as [v|] eqn:Ev; cbn [fst snd]; [|by split_and!; [apply mem_inv_S, mem_inv_S|..]].
  unfold sdb_unset, sdb_set, sdb_set_owned.
  pose proof (set_mem_view now (S n) s old [] false Hi Ho) as Hs1.
  destruct (nonzero _ s) as [r1 s1]. destruct Hs1 as (Hi1 & -> & Hv1); [by split; [constructor|]|].
  pose proof (set_mem_view now n s1 new v true Hi1 Hn (Hvo _ _ Ev)) as Hs2.
  destruct (nonzero _ s1) as [r2 s2]. destruct Hs2 as (Hi2 & -> & Hv2). rewrite Hv2, Hv1. cbn [put].
  split_and!; [done| |done]. apply view_ok_put; [by apply map_Forall_delete|by apply (Hvo old)].
Qed.

Lemma db_step_refines now n s o :
  mem_inv (S (S n)) s → view_ok (view s) → op_ok o →
  let '(r, s') := db_step now o s in
  mem_inv n s' ∧ view_ok (view s') ∧ spec_step o (view s) = (r, view s').
Proof.
  intros Hi Hvo Hok. pose proof (mem_inv_S _ _ (mem_inv_S _ _ Hi)) as Hi0.
  assert (val_ok []) as Hnil by (by split; [constructor|]).
  destruct o as [k v|k|k|k|k v|old new|k v]; unfold db_step, mbind at 1, M_bind at 1, mret, M_ret; cbn [spec_step].
  - destruct Hok as [Hk Hv]. pose proof (set_mem_view now _ s k v false (mem_inv_S _ _ Hi) Hk Hv) as Hs. fold (sdb_set now (Some k) (Some v) 0) in Hs.
    destruct (sdb_set _ _ _ _ s) as [r s']. destruct Hs as (? & -> & ->). split_and!; [done|by apply view_ok_put|done].
  - unfold sdb_unset. pose proof (set_mem_view now _ s k [] false (mem_inv_S _ _ Hi) Hok Hnil) as Hs. fold (sdb_set now (Some k) (Some []) 0) in Hs.
    destruct (sdb_set _ _ _ _ s) as [r s']. destruct Hs as (? & -> & ->). split_and!; [done|by apply view_ok_put|done].
  - rewrite (sdb_get_mem now _ s k Hi). done.
  - rewrite (exists_mem _ s k Hi). done.
  - destruct Hok as [Hk Hv]. unfold sdb_add, mbind at 1, M_bind at 1. rewrite (exists_mem _ s k Hi).
    destruct (bool_decide _); [done|]. pose proof (set_mem_view now _ s k v false (mem_inv_S _ _ Hi) Hk Hv) as Hs.
    fold (sdb_set now (Some k) (Some v) 0) in Hs.
    destruct (sdb_set _ _ _ _ s) as [r s']. destruct Hs as (? & -> & ->). split_and!; [done|by apply view_ok_put|done].
  - destruct Hok as [Ho Hn]. pose proof (rename_mem now n s old new Hi Hvo Ho Hn) as Hs. cbn [spec_step] in Hs.
    destruct (sdb_rename _ _ _ _ s) as [r s']. done.
  - destruct Hok as [Hk Hv]. pose proof (concat_mem now _ s k v (mem_inv_S _ _ Hi) Hvo Hk Hv) as Hs. cbn [spec_step] in Hs.
    destruct (sdb_concat _ _ _ _ s) as [r s']. destruct Hs as (? & ? & ?). done.
Qed.

Fixpoint db_run (now : Z) (ops : list db_op) : M (list (bool + option bytes)) :=
  match ops with
  | [] => mret []
  | o :: ops' => r ← db_step now o; rs ← db_run now ops'; mret (r :: rs)
  end.

Fixpoint spec_run (ops : list db_op) (m : gmap bytes bytes) : list (bool + option bytes) * gmap bytes bytes :=
  match ops with
  | [] => ([], m)
  | o :: ops' => let '(r, m) := spec_step o m in let '(rs, m) := spec_run ops' m in (r :: rs, m)
  end.

Lemma db_run_refines now ops n s :
  mem_inv (2 * length ops + n) s → view_ok (view s) → Forall op_ok ops →
  let '(rs, s') := db_run now ops s in
  mem_inv n s' ∧ spec_run ops (view s) = (rs, view s').
Proof.
  revert s. induction ops as [|o ops IH]; intros s Hi Hvo Hok; cbn [db_run spec_run]; [done|].
  apply Forall_cons in Hok as [Ho Hok]. run_m.
  pose proof (db_step_refines now (2 * length ops + n) s o) as Hs.
  destruct (db_step now o s) as [r s1]. destruct Hs as (Hi1 & Hv1 & ->); [by eapply mem_inv_le; [|exact Hi]; cbn; lia|done|done|].
  specialize (IH s1 Hi1 Hv1 Hok). destruct (db_run now ops s1) as [rs s2]. by destruct IH as [? ->].
Qed.

Lemma sdb_new0_ok n :
  2 * Z.of_nat n + 1 < 2 ^ 31 → ∃ s, sdb_new0 = Some s ∧ mem_inv n s ∧ view s = ∅ ∧ journal s = None ∧ hooks s = [].
Proof.
  intros Hn. destruct (sdb_ht_new_spec (λ _, true) n) as (t & Et & Hi & Hm & _); [done..|].
  unfold sdb_new0. rewrite Et. eexists. split; [done|]. split_and!; [|unfold view; cbn [ht]; rewrite Hm; apply omap_empty|done..].
  split; cbn [ht fd db gp timestamped]; [done|done|done|done|]. rewrite Hm. apply map_Forall_empty.
Qed.

(** A database with one entry. *)
Lemma mem_single n k v :
  2 * Z.of_nat n + 3 < 2 ^ 31 → key_ok k → val_ok v → v ≠ [] → ∃ s, mem_inv n s ∧ view s = {[k := v]}.
Proof.
  intros Hn Hk Hv Hne. destruct (sdb_new0_ok (S n)) as (s & _ & Hi & Hem & _); [lia|].
  pose proof (set_mem_view 0 n s k v false Hi Hk Hv) as Hs. destruct (nonzero _ s) as [r s']. destruct Hs as (Hi' & _ & Hvw).
  exists s'. rewrite Hvw, Hem. split; [done|]. by destruct v.
Qed.

Lemma mem_with n k v :
  2 * Z.of_nat n + 3 < 2 ^ 31 → key_ok k → val_ok v → v ≠ [] → ∃ s, mem_inv n s ∧ view s !! k = Some v ∧ view_ok (view s).
Proof.
  intros Hn Hk Hv Hne. destruct (mem_single n k v Hn Hk Hv Hne) as (s & Hi & Hvw). exists s. rewrite Hvw.
  split_and!; [done|apply lookup_singleton_eq|by apply map_Forall_singleton].
Qed.

(** ** A database over a file *)

(** The contents: an entry in memory hides the record of its key. *)
Definition dview (disk : option pairs) (s : Sdb) (k : bytes) : option bytes :=
  match to_map (ht s) !! k with
  | Some kv => live kv
  | None => match disk with Some kvs => first_value kvs k | None => None end
  end.

Lemma first_value_ok kvs k v : Forall pair_ok kvs → first_value kvs k = Some v → pair_ok (k, v).
Proof.
  intros Hok (i & Hi & _)%first_value_Some. rewrite Forall_lookup in Hok. by apply (Hok i).
Qed.

Lemma get_disk now kvs n s k :
  db_inv (Some kvs) n s → slen k + 1 < 2 ^ 32 →
  ∃ c s', sdb_get now (Some k) s = ((dview (Some kvs) s k, c), s') ∧ same_core s s'.
Proof.
  intros Hi Hk. unfold sdb_get, sdb_get_len, sdb_const_get_len; run_m. rewrite (sdb_ht_find_kvp_spec n) by apply Hi.
  unfold dview. destruct (to_map (ht s) !! k) as [kv|] eqn:Em.
  - pose proof (mi_entries _ _ _ Hi _ _ Em) as (_ & Hc & _). unfold live.
    destruct (value kv) as [[|x v]|]; [by eexists _, _| |by eexists _, _].
    rewrite (mi_stamp _ _ _ Hi); cbn [andb fst snd fmap option_fmap option_map].
    eexists _, s. split; [|done]. cbn [default from_option id] in Hc. by rewrite cstr_app_nul.
  - pose proof (mi_disk _ _ _ Hi) as Hd. rewrite (mi_gp _ _ _ Hi). destruct (fd s) as [f|] eqn:Ef; [|by destruct Hd as (? & ? & _); congruence].
    assert (disk_ok (Some kvs) (set_db (cdb_findstart (db s)) s)) as Hd1 by by eapply disk_ok_core; [apply findstart_core|].
    destruct (findnext_disk (Some kvs) _ k Hd1 eq_refl Hk) as (d & -> & Hcd & Hdat). cbn [on_disk].
    assert (same_core s (set_db d (set_db (cdb_findstart (db s)) s))) as Hcs by (etrans; [apply findstart_core|done]).
    destruct (first_value kvs k) as [v|] eqn:Ev; [change (1 <? 1) with false|by eexists _, _]. cbv iota.
    destruct Hdat as [Hdl Hdt]. destruct Hd as (img & _ & _ & _ & Hok). destruct (first_value_ok kvs k v Hok Ev) as (_ & Hcv & _ & Hvl).
    cbn [fst snd set_db db] in *. pose proof (slen_nonneg v). unfold SDB_MIN_VALUE.
    rewrite Hdl, (proj2 (Z.ltb_ge _ _)), (proj2 (Z.leb_gt _ _)) by lia. cbn [orb fst snd fmap option_fmap option_map].
    destruct (cmap d) as [m|]; [|cbn in Hdt; rewrite drop_nil, take_nil in Hdt; by destruct v].
    eexists _, _. split; [|exact Hcs]. cbn [fst snd fmap option_fmap option_map from_option default id] in *. f_equal. f_equal. f_equal.
    rewrite <- (take_drop (Z.to_nat (dlen d)) (drop _ _)), Hdt, <- app_assoc. cbn [app]. by apply cstr_app_nul.
Qed.

(** Opening a finished file in a new database. *)
Lemma open_ok kvs img n :
  image_ok kvs img → Forall pair_ok kvs → image_size kvs < 2 ^ 31 → 2 * Z.of_nat n + 1 < 2 ^ 31 →
  ∃ s0 s, sdb_new0 = Some s0 ∧ sdb_open_file true 0 (Some img) s0 = (true, s) ∧ db_inv (Some kvs) n s ∧ to_map (ht s) = ∅.
Proof.
  intros Him Hok Hs Hn. destruct (sdb_ht_new_spec (λ _, true) n) as (t & Et & Hi & Hm & _); [done..|].
  unfold sdb_new0. rewrite Et. eexists _, _. split; [done|]. unfold sdb_open_file; run_m. split; [done|].
  pose proof (im_size _ _ Him) as Hsz. unfold image_size, CDB_FINAL in *. pose proof (slen_nonneg (records kvs)).
  cbn [set_db set_fd set_stamp ht fd db gp timestamped last dflt_expire].
  destruct (cdb_init_reading (cdb_init true cdb_none None).2 img) as (c & Ec & Hr & _); [lia|]. rewrite Ec. cbn [snd].
  split; [|done]. split; cbn [set_db set_fd set_stamp ht fd db gp timestamped];
    [done|by exists img|done|done|rewrite Hm; apply map_Forall_empty].
Qed.

(** The file of two records, opened. *)
Lemma two_records_open :
  ∃ s, db_inv (Some [(str "a", str "1"); (str "b", str "2")]) 3 s ∧ to_map (ht s) = ∅.
Proof.
  set (kvs := [(str "a", str "1"); (str "b", str "2")]).
  assert (Forall pair_ok kvs) as Hok by (repeat constructor; vm_compute; congruence).
  destruct (build_ok (λ n, Some (replicate n (mkHp 0 0))) (mkFile [] 0 5000) kvs) as (_ & c1 & c2 & _ & _ & _ & Him);
    [intros n; exists (replicate n (mkHp 0 0)); by rewrite length_replicate|done|exact Hok|vm_compute; congruence..|].
  destruct (open_ok kvs _ 3 Him Hok) as (s0 & s & _ & _ & Hi & Hm); [vm_compute; congruence..|]. by exists s.
Qed.

Lemma key_ok_u32 k : key_ok k → slen k + 1 < 2 ^ 32.
Proof. unfold key_ok, SDB_KSZ. lia. Qed.

Lemma cas_ok_0 s k : cas_ok s k 0 = true.
Proof. unfold cas_ok. destruct (_ !! k) as [kv|]; [|done]. by destruct (value kv). Qed.

(** A set over a key of the file, or without a value in memory. *)
Lemma set_over_disk now kvs n s k val owned :
  db_inv (Some kvs) (S n) s → key_ok k → val_ok val →
  is_Some (first_value kvs k) ∨ (∀ kv, to_map (ht s) !! k = Some kv → value kv = None) →
  let '(r, s') := sdb_set_internal now (Some k) (Some val) owned 0 s in
  db_inv (Some kvs) n s' ∧ 0 < r ∧
  ∀ j, dview (Some kvs) s' j = if decide (j = k) then match val with [] => None | _ => Some val end else dview (Some kvs) s j.
Proof.
  intros Hi Hk Hv Hcase. pose proof (set_any (Some kvs) now n s k val owned 0 Hi Hk Hv) as Hs.
  destruct (sdb_set_internal _ _ _ _ _ _) as [r s']. destruct Hs as (Hi' & -> & Hm). split; [done|]. unfold dview. rewrite Hm.
  assert (∀ e j, live e = match val with [] => None | _ => Some val end →
    match <[k := e]> (to_map (ht s)) !! j with Some kv => live kv | None => first_value kvs j end
    = (if decide (j = k) then match val with [] => None | _ => Some val end
       else match to_map (ht s) !! j with Some kv => live kv | None => first_value kvs j end)) as Hins.
  { intros e j He. destruct (decide (j = k)) as [->|Hj]; [by rewrite lookup_insert_eq|by rewrite lookup_insert_ne]. }
  assert (∀ kl vl e, live (mkKv k (if (slen val =? 0) && negb owned then None else Some val) kl vl e)
    = match val with [] => None | _ => Some val end) as Hlive.
  { intros kl vl e. unfold live; cbn. destruct val; [by destruct owned|done]. }
  destruct (to_map (ht s) !! k) as [[k0 [v0|] kl0 vl0 e0]|] eqn:Em;
    cbn [set_outcome outcome_ret outcome_map set_entry];
    [|by split; [lia|]; intros j; apply Hins, Hlive..].
  destruct Hcase as [[v Hd]|Hn]; [|by specialize (Hn _ eq_refl)]. unfold on_disk. rewrite Hd.
  pose proof (mi_entries _ _ _ Hi _ _ Em) as He. pose proof (nextcas_S _ _ He) as Hc. destruct He as (_ & _ & He & _). cbn in He, Hc.
  change (1 =? 0) with false. change (0 =? 0) with true. cbn [negb andb]. destruct (decide (v0 = val)) as [->|Hne]; cbn [outcome_ret outcome_map].
  - split; [done|]. intros j. destruct (decide (j = k)) as [->|?]; [rewrite Em; unfold live; cbn; by destruct val|done].
  - split; [cbn in *; lia|]. intros j. apply Hins. unfold live; cbn. by destruct val.
Qed.

(** * Properties *)

(** C2: a database in memory is a finite map: any sequence of fewer than 2^29 calls to
    set, unset, get, exists, add, rename and concat on a new database, with keys and
    values within its limits, answers as the same calls on a map from keys to
    non-empty values, where setting the empty value removes the key. *)
Theorem sdb_mem_refines_map now (ops : list db_op) :
  4 * Z.of_nat (length ops) + 1 < 2 ^ 31 → Forall op_ok ops →
  ∃ s, sdb_new0 = Some s ∧ let '(rs, s') := db_run now ops s in spec_run ops ∅ = (rs, view s').
Proof.
  intros Hn Hok. destruct (sdb_new0_ok (2 * length ops + 0)) as (s & E & Hi & Hv & _); [lia|].
  exists s. split; [done|]. pose proof (db_run_refines now ops 0 s Hi) as Hr. rewrite Hv in Hr.
  destruct (db_run now ops s) as [rs s']. by destruct Hr as [_ ->]; [apply map_Forall_empty|done|].
Qed.

Lemma sdb_mem_refines_map_witness :
  let ops := [DSet (str "k") (str "v"); DConcat (str "k") (str "w"); DRename (str "k") (str "q"); DGet (str "q"); DExists (str "k")] in
  Forall op_ok ops ∧ ∃ s, sdb_new0 = Some s ∧ let '(rs, s') := db_run 0 ops s in spec_run ops ∅ = (rs, view s').
Proof.
  intros ops. assert (Forall op_ok ops) as Hok.
  { repeat constructor; vm_compute; congruence. }
  split; [exact Hok|]. apply (sdb_mem_refines_map 0 ops); [cbn; lia|exact Hok].
Defined.

(** Compare and set.  On a database in memory, a set with a [cas] other than zero
    over a key that has a value takes effect exactly when the [cas] is the one
    [sdb_get] reports: then the value is the new one and [sdb_get] reports the returned
    number, which is not zero; otherwise the result is zero and the contents stay. *)
Theorem sdb_set_cas now n s k v0 val c :
  mem_inv (S n) s → key_ok k → val_ok val → c ≠ 0 → view s !! k = Some v0 →
  let cas0 := (sdb_get now (Some k) s).1.2 in
  let '(r, s') := sdb_set_internal now (Some k) (Some val) false c s in
  if cas0 =? c then r ≠ 0 ∧ view s' = put (view s) k val
    ∧ (val ≠ [] → sdb_get now (Some k) s' = ((Some val, r), s'))
  else r = 0 ∧ view s' = view s.
Proof.
  intros Hi Hk Hv Hc Hv0 cas0. unfold cas0. rewrite (sdb_get_mem now _ s k Hi), Hv0. cbn [fst snd].
  pose proof (view_set now n s k val false c Hi Hk Hv) as Hs.
  destruct (sdb_set_internal _ _ _ _ _ _) as [r s']. destruct Hs as [Hi' Hs].
  assert (cas_ok s k c = (cas_of s k =? c)) as E.
  { unfold cas_ok, cas_of. rewrite view_lookup in Hv0. destruct (to_map (ht s) !! k) as [kv|]; [|done].
    cbn in Hv0. unfold live in Hv0. destruct (value kv); [|done]. by rewrite (proj2 (Z.eqb_neq c 0)). }
  rewrite E in Hs. destruct (cas_of s k =? c); [|done]. destruct Hs as (Hr & Hvw & Hcr). split_and!; [lia|done|].
  intros Hne. rewrite (sdb_get_mem now _ s' k Hi'), Hvw. unfold put. destruct val; [done|]. by rewrite lookup_insert_eq, Hcr.
Qed.

Lemma sdb_set_cas_witness :
  ∃ s c, mem_inv 1 s ∧ c ≠ 0 ∧ view s !! str "k" = Some (str "v") ∧
    let cas0 := (sdb_get 0 (Some (str "k")) s).1.2 in
    let '(r, s') := sdb_set_internal 0 (Some (str "k")) (Some (str "w")) false c s in
    if cas0 =? c then r ≠ 0 ∧ view s' = put (view s) (str "k") (str "w")
      ∧ (str "w" ≠ [] → sdb_get 0 (Some (str "k")) s' = ((Some (str "w"), r), s'))
    else r = 0 ∧ view s' = view s.
Proof.
  destruct (sdb_new0_ok 2) as (s & _ & Hi & Hv & _); [done|].
  assert (val_ok (str "v") ∧ val_ok (str "w")) as [Hv1 Hv2] by (repeat constructor; vm_compute; congruence).
  pose proof (view_set 0 1 s (str "k") (str "v") false 0 Hi eq_refl Hv1) as Hs.
  rewrite cas_ok_0 in Hs. destruct (sdb_set_internal 0 _ _ _ _ s) as [r0 s0]. destruct Hs as (Hi0 & Hr & Hvw & _).
  assert (view s0 !! str "k" = Some (str "v")) as Hk by (rewrite Hvw; apply lookup_insert_eq).
  exists s0, r0. split_and!; [exact Hi0|lia|exact Hk|].
  apply (sdb_set_cas 0 0 s0 (str "k") (str "v")); [exact Hi0|done|exact Hv2|lia|exact Hk].
Defined.

(** C32: a database over a finished file, without expirations, reads through to it. Setting a key
    that is in the file, or that has no value in memory (a second set of a new key is lost:
    [sdb_set_twice_loses_key]), within the sizes of a key and a value, makes [sdb_get] answer with
    the new value for that key (none after the empty value, which hides the record of the file) and
    leaves the answer for every other key. *)
Theorem sdb_file_overlay now kvs n s k val :
  db_inv (Some kvs) (S n) s → key_ok k → val_ok val →
  is_Some (first_value kvs k) ∨ (∀ kv, to_map (ht s) !! k = Some kv → value kv = None) →
  let '(r, s') := sdb_set now (Some k) (Some val) 0 s in
  r = true ∧ db_inv (Some kvs) n s' ∧
  ∀ j, key_ok j → (sdb_get now (Some j) s').1.1 =
    if decide (j = k) then match val with [] => None | _ => Some val end else (sdb_get now (Some j) s).1.1.
Proof.
  intros Hi Hk Hv Hcase. pose proof (set_over_disk now kvs n s k val false Hi Hk Hv Hcase) as Hs. unfold sdb_set; run_m.
  destruct (sdb_set_internal _ _ _ _ _ _) as [r s']. destruct Hs as (Hi' & Hr & Hd).
  split; [by rewrite (proj2 (Z.eqb_neq r 0)) by lia|]. split; [done|]. intros j Hj.
  destruct (get_disk now kvs n s' j Hi') as (c1 & s1 & -> & _); [by apply key_ok_u32|].
  destruct (get_disk now kvs (S n) s j Hi) as (c2 & s2 & -> & _); [by apply key_ok_u32|]. apply Hd.
Qed.

Lemma sdb_file_overlay_witness :
  ∃ s, let kvs := [(str "a", str "1"); (str "b", str "2")] in
  db_inv (Some kvs) 3 s ∧
  let '(r, s') := sdb_set 0 (Some (str "a")) (Some (str "9")) 0 s in
  r = true ∧ db_inv (Some kvs) 2 s' ∧
  ∀ j, key_ok j → (sdb_get 0 (Some j) s').1.1 =
    if decide (j = str "a") then Some (str "9") else (sdb_get 0 (Some j) s).1.1.
Proof.
  destruct two_records_open as (s & Hi & _). exists s. intros kvs. split; [exact Hi|].
  apply (sdb_file_overlay 0 kvs 2 s (str "a") (str "9")); [exact Hi|done|split; [repeat constructor; done|done]|].
  left. vm_compute. by eexists.
Defined.

(** What a second change of a new key does while a file is open.  For a key that the
    file does not have, the first set stores the value, the second one, with any other
    value, reports success and removes the entry: the key has no value afterwards. *)
Theorem sdb_set_twice_loses_key now kvs n s k v1 v2 :
  db_inv (Some kvs) (S (S n)) s → key_ok k → val_ok v1 → val_ok v2 → v1 ≠ [] →
  first_value kvs k = None → to_map (ht s) !! k = None →
  let '(r1, s1) := sdb_set now (Some k) (Some v1) 0 s in
  let '(r2, s2) := sdb_set now (Some k) (Some v2) 0 s1 in
  r1 = true ∧ (sdb_get now (Some k) s1).1.1 = Some v1
  ∧ r2 = true ∧ (sdb_get now (Some k) s2).1.1 = None.
Proof.
  intros Hi Hk Hv1 Hv2 Hne Hd Hm. pose proof (set_any (Some kvs) now (S n) s k v1 false 0 Hi Hk Hv1) as H1. unfold sdb_set; run_m.
  destruct (sdb_set_internal _ _ _ _ _ s) as [r1 s1]. destruct H1 as (Hi1 & -> & Hm1).
  pose proof (set_any (Some kvs) now n s1 k v2 false 0 Hi1 Hk Hv2) as H2.
  destruct (sdb_set_internal _ _ _ _ _ s1) as [r2 s2]. destruct H2 as (Hi2 & -> & Hm2).
  destruct (get_disk now kvs _ s1 k Hi1) as (c1 & s1' & -> & _); [by apply key_ok_u32|].
  destruct (get_disk now kvs _ s2 k Hi2) as (c2 & s2' & -> & _); [by apply key_ok_u32|].
  rewrite Hm in Hm1. cbn [set_outcome outcome_map outcome_ret set_entry] in *. rewrite Hm1, lookup_insert_eq in *.
  destruct v1 as [|x v1]; [done|]. unfold dview. rewrite Hm2, Hm1, lookup_insert_eq. unfold on_disk. rewrite Hd.
  destruct (slen (x :: v1) =? 0) eqn:E; [zbool; unfold slen in E; cbn in E; lia|].
  cbn. rewrite lookup_delete_eq, Hm. done.
Qed.

Lemma sdb_set_twice_loses_key_witness :
  ∃ s, let '(r1, s1) := sdb_set 0 (Some (str "c")) (Some (str "1")) 0 s in
  let '(r2, s2) := sdb_set 0 (Some (str "c")) (Some (str "2")) 0 s1 in
  r1 = true ∧ (sdb_get 0 (Some (str "c")) s1).1.1 = Some (str "1")
  ∧ r2 = true ∧ (sdb_get 0 (Some (str "c")) s2).1.1 = None.
Proof.
  destruct two_records_open as (s & Hi & Hm). exists s.
  apply (sdb_set_twice_loses_key 0 [(str "a", str "1"); (str "b", str "2")] 0 s (str "c") (str "1") (str "2"));
    [eapply mem_inv_le; [|exact Hi]; lia|done|split; [repeat constructor; done|done]..|done|reflexivity|by rewrite Hm].
Defined.
