(* ===== verification/Num.v ===== *)
(** * Numbers in the database: src/src/num.c

    A number is stored as text: in the base of the value it replaces, in base 16
    for a new key.  A value read through a pointer is the C string there. *)

From S2P Require Import Prelude Util Ht HashTables Buffer CdbMake CdbTables Cdb SdbCore.

(** The string that [sdb_const_get] points to, and [*cas]. *)
Definition const_str now (key : option bytes) : M (option bytes * Z) :=
  r ← sdb_const_get now key; mret (cstr <$> r.1, r.2).

Definition sdb_num_exists now (key : option bytes) : M bool :=
  o ← const_str now key;
  mret (match o.1 with Some o => (chr "0" <=? s8 (hd0 o)) && (s8 (hd0 o) <=? chr "9") | None => false end).

Definition sdb_num_parse (v : option bytes) : Z :=
  match v with
  | None => 0
  | Some v => if hd0 v =? chr "-" then 0 else sdb_atoi (Some v)
  end.

Definition sdb_num_get now (key : option bytes) : M (Z * Z) :=
  r ← const_str now key; mret (sdb_num_parse r.1, r.2).

Definition sdb_num_add now (key : option bytes) (v c : Z) : M bool :=
  r ← const_str now key;
  sdb_add now key (sdb_itoa v (sdb_num_base r.1) (Some SDB_NUM_BUFSZ)) c.

Definition sdb_num_set now (key : option bytes) (v c : Z) : M bool :=
  r ← const_str now key;
  sdb_set now key (sdb_itoa v (sdb_num_base r.1) (Some SDB_NUM_BUFSZ)) c.

Definition sdb_num_inc now (key : option bytes) (n2 c : Z) : M Z :=
  r ← sdb_num_get now key;
  let n := r.1 in
  let res := u64 (n + n2) in
  if (negb (c =? 0) && negb (r.2 =? c)) || (res <? n) then mret 0
  else _ ← sdb_num_set now key res c; mret res.

Definition sdb_num_dec now (key : option bytes) (n2 c : Z) : M Z :=
  r ← sdb_num_get now key;
  let n := r.1 in
  if negb (c =? 0) && negb (r.2 =? c) then mret 0
  else if n <? n2 then _ ← sdb_set now key (Some (str "0")) c; mret 0
  else _ ← sdb_num_set now key (n - n2) c; mret (n - n2).

Definition sdb_num_min now (key : option bytes) (n c : Z) : M bool :=
  a ← const_str now key;
  if negb (c =? 0) && negb (a.2 =? c) then mret false
  else if match a.1 with None => true | Some a => n <? sdb_atoi (Some a) end
  then sdb_num_set now key n c else mret false.

Definition sdb_num_max now (key : option bytes) (n c : Z) : M bool :=
  a ← const_str now key;
  if negb (c =? 0) && negb (a.2 =? c) then mret false
  else if match a.1 with None => true | Some a => sdb_atoi (Some a) <? n end
  then sdb_num_set now key n c else mret false.

Definition sdb_bool_set now (key : option bytes) (v : bool) (c : Z) : M bool :=
  sdb_set now key (Some (if v then str "true" else str "false")) c.

Definition sdb_bool_get now (key : option bytes) : M (bool * Z) :=
  b ← const_str now key;
  mret (match b.1 with Some b => (strcmp b (str "1") =? 0) || (strcmp b (str "true") =? 0) | None => false end, b.2).

(** A pointer is its 64-bit address. *)
Definition sdb_ptr_set now key (p c : Z) : M bool := sdb_num_set now key p c.
Definition sdb_ptr_get now key : M (Z * Z) := sdb_num_get now key.

(** [sdb_num_nset] and [sdb_num_nget] of src/src/sdb.c. *)
Definition sdb_num_nset now (nk nval c : Z) : M bool := sdb_num_set now (nkey nk) nval c.
Definition sdb_num_nget now (nk : Z) : M (Z * Z) := sdb_num_get now (nkey nk).

(** * Facts *)

Lemma const_str_mem now n s k :
  mem_inv n s → const_str now (Some k) s = ((view s !! k, match view s !! k with Some _ => cas_of s k | None => 0 end), s).
Proof.
  intros Hi. unfold const_str, sdb_const_get; run_m. rewrite (get_mem now n s k Hi).
  destruct (view s !! k) as [v|] eqn:Ev; cbn [fst snd fmap option_fmap option_map]; [|done].
  destruct (view_cstr n s k v Hi Ev) as [Hc _]. by rewrite cstr_app_nul.
Qed.

(** The number of a key. *)
Definition num_of (s : Sdb) (k : bytes) : Z := sdb_num_parse (view s !! k).

Lemma num_get_mem now n s k : mem_inv n s → (sdb_num_get now (Some k) s).1.1 = num_of s k ∧ (sdb_num_get now (Some k) s).2 = s.
Proof. intros Hi. unfold sdb_num_get; run_m. by rewrite (const_str_mem now n s k Hi). Qed.

Lemma num_base_cases v : sdb_num_base v = 8 ∨ sdb_num_base v = 10 ∨ sdb_num_base v = 16.
Proof. unfold sdb_num_base. destruct v; [|by right; right]. repeat case_if; auto. Qed.

Lemma itoa_loop_length digit base i n acc : (length (itoa_loop digit base i n acc).1 <= i + length acc)%nat.
Proof.
  revert n acc. induction i as [|i IH]; intros n acc; cbn [itoa_loop]; [done|].
  case_if; cbn [fst]; [lia|]. etrans; [apply IH|]. cbn. lia.
Qed.

Lemma itoa_length n base t : sdb_itoa n base (Some SDB_NUM_BUFSZ) = Some t → (length t <= 64)%nat.
Proof.
  unfold sdb_itoa. change (SDB_NUM_BUFSZ - 2) with 62. change (Z.to_nat 62) with 62%nat.
  set (b := if (if base =? 0 then _ else _) <? 0 then _ else _). destruct (16 <? b); [done|].
  destruct (n =? 0); [by intros [= <-]; cbn; lia|]. generalize (eq_refl 62%nat). generalize 62%nat at 1 3 4. intros w Hw.
  destruct (b <=? 10).
  { intros [= <-]. etrans; [apply itoa_loop_length|]. cbn. lia. }
  pose proof (itoa_loop_length digit_hex b w n []) as Hl. destruct (itoa_loop _ _ _ _ _) as [x i]. cbn [fst length] in Hl.
  intros [= <-]. destruct (Z.of_nat i =? 62); cbn; lia.
Qed.

Lemma itoa_base n base :
  is_u64 n → base = 10 ∨ base = 16 →
  ∃ t, sdb_itoa n base (Some SDB_NUM_BUFSZ) = Some t ∧ sdb_num_base (Some t) ≠ 8.
Proof.
  intros [Hn Hn'] Hb. destruct (decide (n = 0)) as [->|]; [exists (str "0"); by destruct Hb as [-> | ->]|].
  destruct Hb as [-> | ->].
  - assert (0 < n < 10 ^ 62) as Hb by (split; [lia|]; by eapply Z.lt_trans).
    destruct (itoa_loop_both digit_small 10 n) as (s & i & d & ds & El & Heq & Hd & _);
      [done|apply digit_small_val|exact Hb|]. clear Hb.
    rewrite sdb_itoa_dec by lia. rewrite El. exists s; split; [done|]. subst s. unfold sdb_num_base, digit_small.
    cbn [strneq str hd0 hd fmap list_fmap String.list_ascii_of_string].
    rewrite (proj2 (Z.eqb_neq (d + 48) _)) by (change (d + 48 ≠ 48); lia). rewrite (proj2 (Z.eqb_neq (d + 48) 48)) by lia. done.
  - assert (0 < n < 16 ^ 62) as Hb by (split; [lia|]; by eapply Z.lt_trans).
    destruct (itoa_loop_both digit_hex 16 n) as (s & i & d & ds & El & _ & _ & _ & Hi & _);
      [done|apply digit_hex_cases|exact Hb|]. clear Hb.
    rewrite (sdb_itoa_hex n s i); [|lia|done|done]. eexists; split; [done|]. vm_compute. congruence.
Qed.

Lemma num_parse_atoi v : sdb_num_parse v = sdb_atoi v.
Proof. destruct v as [v|]; [|done]. unfold sdb_num_parse, sdb_atoi. change (chr "-") with 45. by destruct (hd0 v =? 45). Qed.

Lemma digit_val_nonneg base c d : digit_val base c = Some d → 0 <= d.
Proof. unfold digit_val. intros H. repeat (case_match; zbool; simplify_eq); lia. Qed.

Lemma strtoull_digits_nonneg b w acc : 0 <= b → 0 <= acc → 0 <= strtoull_digits b w acc.
Proof.
  revert acc. induction w as [|c w IH]; intros acc Hb Ha; cbn [strtoull_digits]; [done|].
  destruct (digit_val b c) as [d|] eqn:Ed; [|done]. apply digit_val_nonneg in Ed. apply IH; nia.
Qed.

Lemma num_of_u64 s k : is_u64 (num_of s k).
Proof.
  unfold num_of. rewrite num_parse_atoi. unfold sdb_atoi. destruct (view s !! k) as [v|]; [|done].
  case_if; [done|]. unfold strtoull. destruct (strtoull_sign _) as [neg v1].
  assert (0 <= (strtoull_base v1).1) as Hb by (unfold strtoull_base; repeat case_if; done).
  destruct (strtoull_base _) as [base v2]. pose proof (strtoull_digits_nonneg base v2 0 Hb ltac:(lia)).
  case_if; [done|]. zbool. case_if; [apply u64_range|]. by split.
Qed.

(** The text of a number fits and reads as the number. *)
Lemma itoa_stored n base :
  is_u64 n → base = 10 ∨ base = 16 →
  ∃ t, sdb_itoa n base (Some SDB_NUM_BUFSZ) = Some t ∧ val_ok t ∧ t ≠ [] ∧ sdb_num_parse (Some t) = n.
Proof.
  intros Hn Hb. destruct (atoi_itoa n base Hn) as (t & Et & Ha & Hc & Hne); [tauto|]. exists t.
  pose proof (itoa_length n base t Et). rewrite num_parse_atoi.
  split_and!; [done|split; [done|unfold slen, SDB_VSZ; lia]|done|done].
Qed.

(** Storing a number in memory. *)
Lemma num_set_mem now n s k v :
  mem_inv (S n) s → key_ok k → is_u64 v → sdb_num_base (view s !! k) ≠ 8 →
  let '(r, s') := sdb_num_set now (Some k) v 0 s in
  mem_inv n s' ∧ r = true ∧ num_of s' k = v ∧ sdb_num_base (view s' !! k) ≠ 8 ∧ (∀ j, j ≠ k → view s' !! j = view s !! j).
Proof.
  intros Hi Hk Hv Hb. unfold sdb_num_set; run_m. rewrite (const_str_mem now _ s k Hi). cbn [fst snd].
  assert (sdb_num_base (view s !! k) = 10 ∨ sdb_num_base (view s !! k) = 16) as Hbc by (destruct (num_base_cases (view s !! k)); tauto).
  destruct (itoa_stored v (sdb_num_base (view s !! k)) Hv) as (t & Et & Hok & Hne & Hp); [exact Hbc|].
  rewrite Et. pose proof (set_mem_view now n s k t false Hi Hk Hok) as Hs. fold (sdb_set now (Some k) (Some t) 0) in Hs.
  destruct (sdb_set _ _ _ _ s) as [r s']. destruct Hs as (Hi' & -> & Hvw).
  assert (view s' !! k = Some t) as Hkt by (rewrite Hvw; destruct t; [done|apply lookup_insert_eq]).
  split_and!; [done|done|unfold num_of; by rewrite Hkt| |].
  - rewrite Hkt. destruct (itoa_base v (sdb_num_base (view s !! k)) Hv) as (t' & Et' & ?); [exact Hbc|]. congruence.
  - intros j Hj. rewrite Hvw. unfold put. destruct t; [done|by rewrite lookup_insert_ne].
Qed.

(** * Properties *)

(** C34: numbers in a database in memory without expirations: unless the old value is octal text (it
    starts with [0] but is neither [0] nor [0x...]; then they go wrong: [sdb_num_inc_octal]),
    [sdb_num_set] stores the 64-bit number that [sdb_num_get] then reports and touches no other key;
    [sdb_num_inc] adds, and answers 0 without a change when the sum does not fit 64 bits;
    [sdb_num_dec] subtracts, stopping at 0. *)
Theorem sdb_num_arith now n s k x :
  mem_inv (S n) s → key_ok k → is_u64 x → sdb_num_base (view s !! k) ≠ 8 →
  let old := (sdb_num_get now (Some k) s).1.1 in
  (let '(r, s') := sdb_num_set now (Some k) x 0 s in
   r = true ∧ (sdb_num_get now (Some k) s').1.1 = x ∧ ∀ j, j ≠ k → sdb_get now (Some j) s' = ((view s !! j, (sdb_get now (Some j) s').1.2), s'))
  ∧ (let '(r, s') := sdb_num_inc now (Some k) x 0 s in
     if old + x <? 2 ^ 64 then r = old + x ∧ (sdb_num_get now (Some k) s').1.1 = old + x
     else r = 0 ∧ s' = s)
  ∧ (let '(r, s') := sdb_num_dec now (Some k) x 0 s in
     r = Z.max 0 (old - x) ∧ (sdb_num_get now (Some k) s').1.1 = Z.max 0 (old - x)).
Proof.
  intros Hi Hk Hx Hb old. pose proof (num_of_u64 s k) as Hold. destruct (num_get_mem now _ s k Hi) as [Hg Hgs].
  subst old. rewrite Hg. split_and!.
  - pose proof (num_set_mem now n s k x Hi Hk Hx Hb) as Hs. destruct (sdb_num_set _ _ _ _ s) as [r s'].
    destruct Hs as (Hi' & -> & Hn & _ & Hj). split_and!; [done|by destruct (num_get_mem now _ s' k Hi') as [-> _]|].
    intros j Hne. rewrite (sdb_get_mem now _ s' j Hi'). by rewrite (Hj j Hne).
  - unfold sdb_num_inc; run_m. destruct (sdb_num_get now (Some k) s) as [[v c] s1]. cbn [fst snd] in *. subst v s1.
    change (negb (0 =? 0)) with false. cbn [andb orb]. unfold u64. destruct (num_of s k + x <? 2 ^ 64) eqn:E; zbool.
    + rewrite Z.mod_small by (destruct Hold, Hx; lia). rewrite (proj2 (Z.ltb_ge _ _)) by (destruct Hx; lia).
      pose proof (num_set_mem now n s k (num_of s k + x) Hi Hk) as Hs. destruct (sdb_num_set _ _ _ _ s) as [r s'].
      destruct Hs as (Hi' & -> & Hn & _); [destruct Hold, Hx; split; lia|done|]. split; [done|].
      by destruct (num_get_mem now _ s' k Hi') as [-> _].
    + replace ((num_of s k + x) mod 2 ^ 64) with (num_of s k + x - 2 ^ 64).
      2:{ symmetry. rewrite <- (Z.mod_small (num_of s k + x - 2 ^ 64) (2 ^ 64)) by (destruct Hold, Hx; lia).
          rewrite Zminus_mod, Z.mod_same, Z.sub_0_r, Z.mod_mod by lia. done. }
      rewrite (proj2 (Z.ltb_lt _ _)) by (destruct Hx; lia). done.
  - unfold sdb_num_dec; run_m. destruct (sdb_num_get now (Some k) s) as [[v c] s1]. cbn [fst snd] in *. subst v s1.
    change (negb (0 =? 0)) with false. cbn [andb]. destruct (num_of s k <? x) eqn:E; zbool.
    + pose proof (set_mem_view now n s k (str "0") false Hi Hk ltac:(split; [by repeat constructor|done])) as Hs.
      fold (sdb_set now (Some k) (Some (str "0")) 0) in Hs.
      destruct (sdb_set _ _ _ _ s) as [r s']. destruct Hs as (Hi' & -> & Hvw). rewrite Z.max_l by lia. split; [done|].
      destruct (num_get_mem now _ s' k Hi') as [-> _]. unfold num_of. rewrite Hvw.
      change (put (view s) k (str "0")) with (<[k := str "0"]> (view s)). by rewrite lookup_insert_eq.
    + pose proof (num_set_mem now n s k (num_of s k - x) Hi Hk) as Hs. destruct (sdb_num_set _ _ _ _ s) as [r s'].
      destruct Hs as (Hi' & -> & Hn & _); [destruct Hold, Hx; split; lia|done|]. rewrite Z.max_r by lia. split; [done|].
      by destruct (num_get_mem now _ s' k Hi') as [-> _].
Qed.

Lemma sdb_num_arith_witness :
  ∃ s, mem_inv 1 s ∧ view s = ∅ ∧
  let old := (sdb_num_get 0 (Some (str "n")) s).1.1 in
  (let '(r, s') := sdb_num_set 0 (Some (str "n")) 7 0 s in
   r = true ∧ (sdb_num_get 0 (Some (str "n")) s').1.1 = 7
   ∧ ∀ j, j ≠ str "n" → sdb_get 0 (Some j) s' = ((view s !! j, (sdb_get 0 (Some j) s').1.2), s'))
  ∧ (let '(r, s') := sdb_num_inc 0 (Some (str "n")) 7 0 s in
     if old + 7 <? 2 ^ 64 then r = old + 7 ∧ (sdb_num_get 0 (Some (str "n")) s').1.1 = old + 7
     else r = 0 ∧ s' = s)
  ∧ (let '(r, s') := sdb_num_dec 0 (Some (str "n")) 7 0 s in
     r = Z.max 0 (old - 7) ∧ (sdb_num_get 0 (Some (str "n")) s').1.1 = Z.max 0 (old - 7)).
Proof.
  destruct (sdb_new0_ok 1) as (s & _ & Hi & Hv & _); [done|]. exists s. split; [exact Hi|]. split; [exact Hv|].
  apply (sdb_num_arith 0 0 s (str "n") 7); [exact Hi|done|by split|]. by rewrite Hv, lookup_empty.
Defined.

(** Octal values lose their base: when the value is the text [010], the number 8,
    [sdb_num_inc] by one answers 9 and stores text that reads as 11, because the new
    value is printed in base 8 without the leading zero. *)
Theorem sdb_num_inc_octal now n s k :
  mem_inv (S n) s → key_ok k → view s !! k = Some (str "010") →
  let '(r, s') := sdb_num_inc now (Some k) 1 0 s in
  r = 9 ∧ (sdb_num_get now (Some k) s').1.1 = 11.
Proof.
  intros Hi Hk Hv. unfold sdb_num_inc, sdb_num_set, sdb_num_get; run_m. rewrite (const_str_mem now _ s k Hi), Hv. cbn [fst snd].
  change (sdb_num_parse (Some (str "010"))) with 8. change (negb (0 =? 0)) with false. cbn [andb orb].
  change (u64 (8 + 1)) with 9. change (9 <? 8) with false. cbv iota beta. rewrite (const_str_mem now _ s k Hi), Hv. cbn [fst snd].
  change (sdb_itoa 9 (sdb_num_base (Some (str "010"))) (Some SDB_NUM_BUFSZ)) with (Some (str "11")).
  pose proof (set_mem_view now n s k (str "11") false Hi Hk ltac:(split; [by repeat constructor|done])) as Hs.
  fold (sdb_set now (Some k) (Some (str "11")) 0) in Hs.
  destruct (sdb_set _ _ _ _ s) as [r s']. destruct Hs as (Hi' & _ & Hvw). split; [done|].
  rewrite (const_str_mem now _ s' k Hi'), Hvw. change (put (view s) k (str "11")) with (<[k := str "11"]> (view s)).
  by rewrite lookup_insert_eq.
Qed.

Lemma sdb_num_inc_octal_witness :
  ∃ s, mem_inv 1 s ∧ view s !! str "n" = Some (str "010") ∧
  let '(r, s') := sdb_num_inc 0 (Some (str "n")) 1 0 s in
  r = 9 ∧ (sdb_num_get 0 (Some (str "n")) s').1.1 = 11.
Proof.
  destruct (mem_with 1 (str "n") (str "010")) as (s & Hi & Hv & _); [done|done|split; [by repeat constructor|done]|done|].
  exists s. split; [exact Hi|]. split; [exact Hv|].
  apply (sdb_num_inc_octal 0 0 s (str "n")); [exact Hi|done|exact Hv].
Defined.
