(* ===== verification/Array.v ===== *)
(** * Arrays stored in values: src/src/array.c

    A value is an array of elements separated by commas.  The operations work on
    the text: [str] is the C string that a pointer into the value denotes, and the
    part of it from an inner pointer on is a suffix of that string, so that
    pointer differences are differences of lengths.  [sdb_fmt_array] and
    [sdb_fmt_array_num] of src/src/fmt.c are here too.  The C library's [qsort]
    is a merge sort: elements that compare equal are equal as strings, so the
    result does not depend on the algorithm. *)

From S2P Require Import Prelude Util Ht HashTables Buffer CdbMake CdbTables Cdb SdbCore Num.

(** ** Text *)

(** The suffix at the element of index [idx]; each round moves past a separator, so
    the length of the text bounds the rounds. *)
Fixpoint Aindexof_loop (fuel : nat) (p : bytes) (len idx : Z) : option bytes :=
  match fuel with
  | O => None
  | S fuel' =>
      if len =? idx then Some p
      else match strchr p SDB_RS with
           | None => None
           | Some n => Aindexof_loop fuel' (tail n) (len + 1) idx
           end
  end.

Definition Aindexof (str : bytes) (idx : Z) : option bytes := Aindexof_loop (S (length str)) str 0 idx.

(** The offset of a suffix. *)
Definition offset (str p : bytes) : nat := (length str - length p)%nat.

Definition elem_end (s : bytes) : bool := (hd0 s =? 0) || (hd0 s =? SDB_RS).

(** Comparison of the elements at two pointers, with signed characters. *)
Fixpoint astrcmp (a b : bytes) : Z :=
  match a, b with
  | va :: a', vb :: b' =>
      if elem_end a then (if elem_end b then 0 else -1)
      else if elem_end b then 1
      else if negb (va =? vb) then (if s8 vb <? s8 va then 1 else -1)
      else astrcmp a' b'
  | _, _ =>
      if elem_end a then (if elem_end b then 0 else -1) else 1
  end.

(** [for (i = 0; i < idx; i++) { n = strchr (p, SDB_RS); if (!n) return NULL; p = n + 1; }] *)
Fixpoint skip_elems (n : nat) (p : bytes) : option bytes :=
  match n with
  | O => Some p
  | S n' => match strchr p SDB_RS with None => None | Some q => skip_elems n' (tail q) end
  end.

(** The element at the pointer. *)
Definition head_elem (p : bytes) : bytes :=
  match strchr p SDB_RS with None => p | Some n => take (offset p n) p end.

Definition sdb_anext2 (str : bytes) : bytes * option bytes := (str, tail <$> strchr str SDB_RS).

Fixpoint fmt_array_num_loop (fuel : nat) (ptr : bytes) : list Z :=
  match fuel with
  | O => []
  | S fuel' =>
      let '(str, next) := sdb_anext2 ptr in
      sdb_atoi (Some str) :: match next with Some p => fmt_array_num_loop fuel' p | None => [] end
  end.

(** The numbers of the list; the first cell of the C array is their count. *)
Definition sdb_fmt_array_num (l : option bytes) : option (list Z) :=
  match l with
  | Some ((_ :: _) as l) => Some (fmt_array_num_loop (S (length l)) l)
  | _ => None
  end.

Fixpoint fmt_array_loop (fuel : nat) (ptr : bytes) : list bytes :=
  match fuel with
  | O => []
  | S fuel' =>
      let '(str, next) := sdb_anext2 ptr in
      match next with
      | Some p => take (length str - length p - 1) str :: fmt_array_loop fuel' p
      | None => [str]
      end
  end.

Definition sdb_fmt_array (l : option bytes) : option (list bytes) :=
  match l with
  | Some ((_ :: _) as l) => Some (fmt_array_loop (S (length l)) l)
  | _ => None
  end.

(** [qsort] with [cstring_cmp] and with [int_cmp]. *)
Definition cstring_le (a b : bytes) : Prop := astrcmp a b <= 0.
#[global] Instance cstring_le_dec a b : Decision (cstring_le a b) := _ : Decision (astrcmp a b <= 0).

Definition qsort_str (l : list bytes) : list bytes := merge_sort cstring_le l.
Definition qsort_num (l : list Z) : list Z := merge_sort Z.le l.

(** [memcpy] of each text and a separator, the last one replaced by the terminator. *)
Fixpoint join_loop (l : list bytes) : bytes :=
  match l with [] => [] | e :: l' => e ++ [SDB_RS] ++ join_loop l' end.
Definition write_joined (l : list bytes) : bytes := removelast (join_loop l).

(** ** Reading *)

(** The string, its reported length and [*cas]. *)
Definition const_str_len now (key : option bytes) : M (option bytes * Z * Z) :=
  r ← sdb_const_get_len now key; mret (cstr <$> r.1.1, r.1.2, r.2).

Definition sdb_array_get_num now (key : option bytes) (idx : Z) : M Z :=
  r ← const_str now key;
  mret (match r.1 with
        | None | Some [] => 0
        | Some str => match skip_elems (Z.to_nat idx) str with Some p => sdb_atoi (Some p) | None => 0 end
        end).

Definition array_elem (str : bytes) (idx : Z) : option bytes :=
  let go idx := if idx =? 0 then Some (head_elem str) else head_elem <$> skip_elems (Z.to_nat idx) str in
  if idx <? 0 then
    let alen := sdb_alen (Some str) in
    if alen <? - idx then None else go (idx + alen)
  else go idx.

Definition sdb_array_get now (key : option bytes) (idx : Z) : M (option bytes * Z) :=
  r ← const_str now key;
  mret (match r.1 with None | Some [] => None | Some str => array_elem str idx end, r.2).

Fixpoint indexof_loop (fuel : nat) (test : bytes → bool) (p : bytes) (i : Z) : option Z :=
  match fuel with
  | O => None
  | S fuel' =>
      if test p then Some i
      else match strchr p SDB_RS with None => None | Some n => indexof_loop fuel' test (tail n) (i + 1) end
  end.

Definition sdb_array_indexof now (key : option bytes) (val : bytes) : M Z :=
  r ← const_str now key;
  mret (match r.1 with
        | None => -1
        | Some str => default (-1) (indexof_loop (S (length str)) (λ p, astrcmp p val =? 0) str 0)
        end).

(** [len == vlen && !memcmp (ptr, val, len)], for each element. *)
Fixpoint contains_loop (fuel : nat) (ptr val : bytes) : bool :=
  match fuel with
  | O => false
  | S fuel' =>
      let next := strchr ptr SDB_RS in
      let len := match next with Some n => offset ptr n | None => length ptr end in
      if bool_decide (len = length val) && bool_decide (take len ptr = take len val) then true
      else match next with None => false | Some n => contains_loop fuel' (tail n) val end
  end.

Definition sdb_array_contains now (key val : option bytes) : M (bool * Z) :=
  match key, val with
  | Some _, Some val =>
      r ← const_str now key;
      mret (match r.1 with
            | Some ((_ :: _) as ptr) => contains_loop (S (length ptr)) ptr val
            | _ => false end, r.2)
  | _, _ => mret (false, 0)
  end.

(** [sdb_itoa (val, 0, buf, sizeof (buf))] *)
Definition num_text (n : Z) : option bytes := sdb_itoa n 0 (Some SDB_NUM_BUFSZ).

Definition sdb_array_contains_num now key (num : Z) : M (bool * Z) := sdb_array_contains now key (num_text num).

Definition sdb_array_size now (key : option bytes) : M Z := r ← const_str now key; mret (sdb_alen r.1).
Definition sdb_array_length now (key : option bytes) : M Z := r ← const_str now key; mret (sdb_alen_ignore_empty r.1).

(** ** Inserting and replacing *)

(** [fallback] is the call to [sdb_array_set]. *)
Definition array_insert_with (fallback : M bool) now (key : option bytes) (idx : Z) (val : bytes) (c : Z) : M bool :=
  r ← const_str_len now key;
  match r.1.1 with
  | None | Some [] => sdb_set now key (Some val) c
  | Some str =>
      if idx =? -1 then sdb_set_owned now key (Some (str ++ [SDB_RS] ++ val)) c
      else if idx =? 0 then sdb_set_owned now key (Some (val ++ [SDB_RS] ++ str)) c
      else match Aindexof str idx with
           | Some ptr =>
               let lnstr := if (0 <? offset str ptr)%nat then (offset str ptr - 1)%nat else 0%nat in
               sdb_set_owned now key (Some (take lnstr str ++ [SDB_RS] ++ val ++ [SDB_RS] ++ ptr)) c
           | None => fallback
           end
  end.

Definition sdb_array_set now (key : option bytes) (idx : Z) (val : bytes) (c : Z) : M bool :=
  (* [sdb_array_insert] at -1 does not come back here *)
  let append v := array_insert_with (mret false) now key (-1) v c in
  r ← const_str_len now key;
  match r.1.1 with
  | None | Some [] => sdb_set now key (Some val) c
  | Some str =>
      let len := sdb_alen (Some str) in
      if (idx <? 0) || (idx =? len) then append val
      else if len <? idx then append (replicate (Z.to_nat (idx - len)) SDB_RS ++ val)
      else match Aindexof str idx with
           | None => mret false
           | Some ptr =>
               let nstr := take (offset str ptr) str ++ val in
               match Aindexof str (idx + 1) with
               | Some usr => sdb_set now key (Some (nstr ++ [SDB_RS] ++ usr)) c
               | None => sdb_set now key (Some nstr) c
               end
           end
  end.

Definition sdb_array_insert now key (idx : Z) (val : bytes) (c : Z) : M bool :=
  array_insert_with (sdb_array_set now key idx val c) now key idx val c.

Definition sdb_array_insert_num now key (idx val c : Z) : M bool := sdb_array_insert now key idx (default [] (num_text val)) c.
Definition sdb_array_set_num now key (idx val c : Z) : M bool := sdb_array_set now key idx (default [] (num_text val)) c.
Definition sdb_array_append_num now key (val c : Z) : M bool := sdb_array_set_num now key (-1) val c.
Definition sdb_array_unset now key (idx c : Z) : M bool := sdb_array_set now key idx [] c.

Definition sdb_array_add now key (val : bytes) (c : Z) : M bool :=
  r ← sdb_array_contains now key (Some val);
  if (r.1 : bool) then mret false else sdb_array_insert now key (-1) val c.

Definition sdb_array_add_num now key (val c : Z) : M bool :=
  r ← sdb_array_contains now key (num_text val);
  let v := if negb r.1 && (val <? 256) then sdb_itoa val 10 (Some SDB_NUM_BUFSZ) else num_text val in
  sdb_array_add now key (default [] v) c.

(** The value is written with the length the database reported, then cut at the first
    zero by the users of the string. *)
Definition sdb_array_append now key (val : option bytes) (c : Z) : M bool :=
  r ← sdb_const_get_len now key;
  let '(str, str_len, kas) := r in
  match val with
  | None => mret false
  | Some val =>
      if negb (c =? 0) && negb (c =? kas) then mret false
      else
        match str with
        | Some p =>
            if negb (hd0 p =? 0) && (0 <? str_len) then
              _ ← sdb_set_owned now key (Some (cstr (take (Z.to_nat str_len) p ++ [SDB_RS] ++ val ++ [0]))) kas; mret true
            else _ ← sdb_set now key (Some val) kas; mret true
        | None => _ ← sdb_set now key (Some val) kas; mret true
        end
  end.

Definition sdb_array_prepend now (key val : option bytes) (c : Z) : M bool :=
  match key, val with
  | Some _, Some val =>
      r ← sdb_const_get_len now key;
      let '(str, str_len, kas) := r in
      if negb (c =? 0) && negb (c =? kas) then mret false
      else
        match str with
        | Some p =>
            if negb (hd0 p =? 0) then
              _ ← sdb_set_owned now key (Some (cstr (val ++ [SDB_RS] ++ take (Z.to_nat str_len) p ++ [0]))) kas; mret true
            else _ ← sdb_set now key (Some val) kas; mret true
        | None => _ ← sdb_set now key (Some val) kas; mret true
        end
  | _, _ => mret false
  end.

Definition sdb_array_push now key val c : M bool := sdb_array_prepend now key val c.
Definition sdb_array_push_num now key (num c : Z) : M bool := sdb_array_push now key (num_text num) c.
Definition sdb_array_prepend_num now key (num c : Z) : M bool := sdb_array_push now key (num_text num) c.

(** ** Sorted insertion *)

(** [while (str_p < str_e)]: the offset of the first element greater than [v] from [p] on,
    or the end; [m] is the memory at [str] and [e] its reported length. *)
Fixpoint sorted_pos (fuel : nat) (v m : bytes) (e p : nat) : nat :=
  match fuel with
  | O => p
  | S fuel' =>
      if (p <? e)%nat then
        if astrcmp v (drop p m) <? 0 then p
        else
          let cur := cstr (drop p m) in
          sorted_pos fuel' v m e (match sdb_const_anext cur with Some q => p + offset cur q | None => e end)
      else p
  end.

Fixpoint add_sorted_loop (vals : list bytes) (m : bytes) (e lp : nat) (out : bytes) : bytes * nat :=
  match vals with
  | [] => (out, lp)
  | v :: vals' =>
      let p := sorted_pos (S e) v m e lp in
      let out := out ++ take (p - lp) (drop lp m) in
      let out := if (p =? e)%nat && negb (lp =? e)%nat then out ++ [SDB_RS] else out in
      add_sorted_loop vals' m e p (out ++ v ++ [SDB_RS])
  end.

Definition sdb_array_add_sorted now (key val : option bytes) (c : Z) : M bool :=
  r ← sdb_const_get_len now key;
  let '(m, e) := match r.1.1 with
                 | Some m => if hd0 m =? 0 then ([0], 0%nat) else (m, Z.to_nat r.1.2)
                 | None => ([0], 0%nat) end in
  match val with
  | None | Some [] => mret false
  | Some val =>
      let vals := default [] (sdb_fmt_array (Some val)) in
      let vals := if (1 <? length vals)%nat then qsort_str vals else vals in
      let '(out, lp) := add_sorted_loop vals m e 0 [] in
      let nstr := if (lp <? e)%nat then out ++ take (e - lp) (drop lp m) else removelast out in
      sdb_set_owned now key (Some (cstr (nstr ++ [0]))) c
  end.

Fixpoint sorted_num_pos (fuel : nat) (val : Z) (n : option bytes) (i : Z) : option bytes * Z :=
  match fuel, n with
  | S fuel', Some p => if val <=? sdb_atoi (Some p) then (n, i) else sorted_num_pos fuel' val (sdb_const_anext p) (i + 1)
  | _, _ => (n, i)
  end.

Definition sdb_array_add_sorted_num now (key : option bytes) (val c : Z) : M bool :=
  r ← const_str now key;
  match r.1 with
  | None | Some [] => sdb_set now key (num_text val) c
  | Some str =>
      let '(n, i) := sorted_num_pos (S (length str)) val (Some str) 0 in
      sdb_array_insert_num now key (match n with Some _ => i | None => -1 end) val c
  end.

(** ** Removing *)

(** The text without the element at [p]. *)
Definition delete_at (str p : bytes) : bytes :=
  match strchr p SDB_RS with
  | Some n => take (offset str p) str ++ tail n
  | None => if bool_decide (p = str) then [] else take (offset str p - 1) str
  end.

Definition sdb_array_delete now (key : option bytes) (idx c : Z) : M bool :=
  r ← sdb_get now key;
  match r.1 with
  | None | Some [] => mret false
  | Some str =>
      let idx := if idx <? 0 then (let l := sdb_alen (Some str) in if l =? 0 then 0 else l - 1) else idx in
      match skip_elems (Z.to_nat idx) str with
      | None => mret false
      | Some p => _ ← sdb_set_owned now key (Some (delete_at str p)) c; mret true
      end
  end.

Definition sdb_array_remove_num now (key : option bytes) (val c : Z) : M bool :=
  r ← const_str now key;
  match r.1 with
  | None => mret false
  | Some str =>
      match indexof_loop (S (length str)) (λ p, sdb_atoi (Some p) =? val) str 0 with
      | Some idx => sdb_array_delete now key idx c
      | None => mret false
      end
  end.

Definition sdb_array_remove now (key : option bytes) (val : bytes) (c : Z) : M bool :=
  r ← const_str now key;
  match r.1 with
  | None => mret false
  | Some str =>
      match indexof_loop (S (length str)) (λ p, astrcmp p val =? 0) str 0 with
      | Some idx => sdb_array_delete now key idx c
      | None => mret false
      end
  end.

Definition sdb_array_pop_head now (key : option bytes) : M (option bytes * Z) :=
  r ← sdb_get now key;
  match r.1 with
  | None | Some [] => mret (None, 0)
  | Some str =>
      match strchr str SDB_RS with
      | Some e => _ ← sdb_set now key (Some (tail e)) 0; mret (Some (take (offset str e) str), r.2)
      | None => _ ← sdb_unset now key 0; mret (Some str, r.2)
      end
  end.

Definition sdb_array_pop now key : M (option bytes * Z) := sdb_array_pop_head now key.

(** The number and [*cas]. *)
Definition sdb_array_pop_num now key : M (Z * Z) :=
  a ← sdb_array_pop now key;
  mret (match a.1 with None => (UT64_MAX, UT32_MAX) | Some a => (sdb_atoi (Some a), 0) end).

(** Whether [sdb_set_internal] with [owned] frees the string it is given. *)
Definition owned_freed (s : Sdb) (key : option bytes) (val : bytes) (c : Z) : bool :=
  match key with
  | None => false
  | Some key =>
      if (SDB_KSZ <=? slen key) || (SDB_VSZ <=? slen val) then true
      else
        match sdb_ht_find_kvp (Some (ht s)) key with
        | Some (mkKv _ (Some v0) _ vl0 e0) =>
            if negb ((cdb_findnext (cdb_findstart (db s)) (sdb_hash key) key (slen key)).1 =? 0)
            then (negb (c =? 0) && negb (cas e0 =? c)) || ((slen val =? vl0) && (strcmp v0 val =? 0))
            else true
        | _ => false
        end
  end.

(** [for (end = str + strlen (str) - 1; end > str && *end != SDB_RS; end--)] *)
Fixpoint pop_tail_end (i : nat) (str : bytes) : nat :=
  match i with
  | O => O
  | S i' => if byte_at str i =? SDB_RS then i else pop_tail_end i' str
  end.

(** The element, read after the string was given away; [None] is a read of freed memory. *)
Definition sdb_array_pop_tail now (key : option bytes) : M (option (option bytes * Z)) :=
  r ← sdb_get now key;
  match r.1 with
  | None | Some [] => mret (Some (None, 0))
  | Some str =>
      let i := pop_tail_end (length str - 1) str in
      let '(text, e) := if byte_at str i =? SDB_RS then (take i str, drop (S i) str) else (str, drop i str) in
      s ← get_st;
      _ ← sdb_set_owned now key (Some text) 0;
      mret (if owned_freed s key text 0 then None else Some (Some e, r.2))
  end.

(** ** Sorting *)

Definition sdb_array_sort now (key : option bytes) (c : Z) : M unit :=
  r ← sdb_get_len now key;
  match r.1.1 with
  | None | Some [] => mret tt
  | Some str =>
      let strs := default [] (sdb_fmt_array (Some str)) in
      _ ← sdb_set_owned now key (Some (write_joined (qsort_str strs))) c; mret tt
  end.

(** [sdb_fmt_tostr] with a format of [q]s: the numbers in decimal, empty texts left out. *)
Definition fmt_tostr_q (nums : list Z) : bytes :=
  foldl (λ sb n, match sdb_itoa n 10 (Some SDB_NUM_BUFSZ) with
                 | Some ((_ :: _) as v) => match sb with [] => v | _ => sb ++ [SDB_RS] ++ v end
                 | _ => sb end) [] nums.

Definition sdb_array_sort_num now (key : option bytes) (c : Z) : M unit :=
  r ← sdb_get now key;
  match sdb_fmt_array_num r.1 with
  | None => mret tt
  | Some nums => _ ← sdb_set_owned now key (Some (fmt_tostr_q (qsort_num nums))) c; mret tt
  end.

(** * Facts *)

(** ** Text and elements *)

Lemma join_app a b : a ≠ [] → b ≠ [] → join (a ++ b) = join a ++ SDB_RS :: join b.
Proof.
  intros Ha Hb. induction a as [|x a IH]; [done|]. destruct a as [|y a].
  - cbn [app]. by rewrite join_cons.
  - change ((x :: y :: a) ++ b) with (x :: ((y :: a) ++ b)). rewrite !join_cons by done. rewrite IH by done.
    by rewrite <- app_assoc.
Qed.

Lemma take_nonnil {A} i (l : list A) : (0 < i)%nat → l ≠ [] → take i l ≠ [].
Proof. destruct i, l; (done || lia). Qed.

Lemma drop_nonnil {A} i (l : list A) : (i < length l)%nat → drop i l ≠ [].
Proof. intros Hi E%(f_equal length). rewrite length_drop in E. cbn [length] in E. lia. Qed.

Lemma lt_nonnil {A} i (l : list A) : (i < length l)%nat → l ≠ [].
Proof. destruct l; [cbn; lia|done]. Qed.

(** The text from an element on, and before it. *)
Definition suffix_at (es : list bytes) (i : nat) : bytes := join (drop i es).
Definition prefix_at (es : list bytes) (i : nat) : bytes := match i with O => [] | S _ => join (take i es) ++ [SDB_RS] end.

Lemma split_at es i : (i < length es)%nat → join es = prefix_at es i ++ suffix_at es i.
Proof.
  intros Hi. unfold prefix_at, suffix_at. destruct i as [|i]; [done|].
  rewrite <- (take_drop (S i) es) at 1. rewrite join_app.
  - by rewrite <- app_assoc.
  - apply take_nonnil; [lia|by eapply lt_nonnil].
  - by apply drop_nonnil.
Qed.

Lemma split_str s i : (i < length (elements s))%nat → s = prefix_at (elements s) i ++ suffix_at (elements s) i.
Proof. intros Hi. rewrite <- (join_elements s) at 1. by apply split_at. Qed.

Lemma offset_suffix s i : (i < length (elements s))%nat → offset s (suffix_at (elements s) i) = length (prefix_at (elements s) i).
Proof. intros Hi. unfold offset. rewrite (split_str s i Hi) at 1. rewrite length_app. lia. Qed.

Lemma take_offset s i : (i < length (elements s))%nat → take (offset s (suffix_at (elements s) i)) s = prefix_at (elements s) i.
Proof.
  intros Hi. rewrite offset_suffix by done. rewrite (split_str s i Hi) at 2. apply take_app_length.
Qed.

Lemma skip_elems_spec n s :
  skip_elems n s = if (n <? length (elements s))%nat then Some (suffix_at (elements s) n) else None.
Proof.
  unfold suffix_at. revert s. induction n as [|n IH]; intros s; cbn [skip_elems].
  - destruct (elements s) eqn:E; [by apply elements_nonnil in E|]. rewrite <- E. change (drop 0 (elements s)) with (elements s). rewrite join_elements. by rewrite E.
  - destruct (strchr_RS_cases s) as [[-> ->]|(p & t & -> & _ & _ & ->)]; [done|]. cbn [tail]. by rewrite IH.
Qed.

Lemma Aindexof_loop_spec fuel s len idx :
  (length s < fuel)%nat →
  Aindexof_loop fuel s len idx =
  if (len <=? idx) && (idx <? len + Z.of_nat (length (elements s))) then Some (suffix_at (elements s) (Z.to_nat (idx - len))) else None.
Proof.
  revert s len. induction fuel as [|fuel IH]; intros s len Hf; [lia|]. cbn [Aindexof_loop].
  assert (0 < length (elements s))%nat as Hpos by (destruct (elements s) eqn:E; [by apply elements_nonnil in E|cbn; lia]).
  destruct (len =? idx) eqn:E; zbool.
  - subst. rewrite (proj2 (Z.leb_le _ _)), (proj2 (Z.ltb_lt _ _)) by lia. cbn [andb].
    rewrite Z.sub_diag. unfold suffix_at. change (drop (Z.to_nat 0) (elements s)) with (elements s). by rewrite join_elements.
  - destruct (strchr_RS_cases s) as [[-> Es]|(p & t & -> & -> & _ & Es)]; rewrite Es; cbn [length tail].
    + destruct (len <=? idx) eqn:E1, (idx <? len + Z.of_nat 1) eqn:E2; zbool; cbn [andb]; try done. lia.
    + rewrite length_app in Hf. cbn in Hf. rewrite IH by lia.
      destruct (len + 1 <=? idx) eqn:E1, (len <=? idx) eqn:E2; zbool; cbn [andb]; try done; try lia.
      replace (len + Z.of_nat (S (length (elements t)))) with (len + 1 + Z.of_nat (length (elements t))) by lia.
      case_if; [|done]. unfold suffix_at. replace (Z.to_nat (idx - len)) with (S (Z.to_nat (idx - (len + 1)))) by lia. done.
Qed.

Lemma Aindexof_spec s idx :
  Aindexof s idx = if (0 <=? idx) && (idx <? Z.of_nat (length (elements s))) then Some (suffix_at (elements s) (Z.to_nat idx)) else None.
Proof. unfold Aindexof. rewrite Aindexof_loop_spec by lia. by rewrite Z.add_0_l, Z.sub_0_r. Qed.

Lemma head_elem_spec e es : SDB_RS ∉ e → head_elem (join (e :: es)) = e.
Proof.
  intros He. unfold head_elem. destruct es as [|e' es].
  - cbn [join]. by rewrite (proj2 (strchr_None _ _)).
  - rewrite join_cons by done. rewrite strchr_app by done. unfold offset. rewrite length_app.
    by rewrite take_app_length' by (cbn; lia).
Qed.

Lemma suffix_cons s i e : elements s !! i = Some e → drop i (elements s) = e :: drop (S i) (elements s) ∧ SDB_RS ∉ e.
Proof.
  intros He. split; [by apply drop_S|]. pose proof (elements_noRS_all s) as HF. rewrite Forall_lookup in HF. by apply (HF i).
Qed.

Lemma head_elem_at s i : (i < length (elements s))%nat → Some (head_elem (suffix_at (elements s) i)) = elements s !! i.
Proof.
  intros [e He]%lookup_lt_is_Some. destruct (suffix_cons s i e He) as [Hd Hn]. unfold suffix_at. rewrite Hd, He. by rewrite head_elem_spec.
Qed.

(** The changes of the text are changes of the list. *)
Lemma insert_text es i v :
  (0 < i < length es)%nat → prefix_at es i ++ v ++ [SDB_RS] ++ suffix_at es i = join (take i es ++ v :: drop i es).
Proof.
  intros Hi. unfold prefix_at, suffix_at. destruct i as [|i]; [lia|].
  assert (take (S i) es ≠ []) as Ht by (apply take_nonnil; [lia|eapply lt_nonnil, Hi]).
  assert (drop (S i) es ≠ []) as Hd by (apply drop_nonnil; lia).
  rewrite join_app by done. rewrite (join_cons v) by done. by rewrite <- app_assoc.
Qed.

Lemma replace_text es i v :
  (i < length es)%nat →
  join (<[i := v]> es) = prefix_at es i ++ v ++ (if (S i <? length es)%nat then SDB_RS :: suffix_at es (S i) else []).
Proof.
  intros Hi. rewrite insert_take_drop by done. unfold prefix_at, suffix_at.
  assert (join (v :: drop (S i) es) = v ++ (if (S i <? length es)%nat then SDB_RS :: join (drop (S i) es) else [])) as Hv.
  { destruct (Nat.ltb_spec (S i) (length es)) as [Hl|Hl].
    - apply join_cons. by apply drop_nonnil.
    - rewrite drop_ge by lia. by rewrite app_nil_r. }
  destruct i as [|i]; [exact Hv|].
  rewrite join_app; [by rewrite Hv, <- app_assoc| |done]. apply take_nonnil; [lia|by eapply lt_nonnil].
Qed.

Lemma delete_at_spec s i :
  (i < length (elements s))%nat → delete_at s (suffix_at (elements s) i) = join (delete i (elements s)).
Proof.
  intros Hi. destruct (lookup_lt_is_Some_2 _ _ Hi) as [e He]. destruct (suffix_cons s i e He) as [Hd Hn].
  unfold delete_at. rewrite take_offset, offset_suffix by done. rewrite delete_take_drop.
  assert (suffix_at (elements s) i = join (e :: drop (S i) (elements s))) as Hsf by (unfold suffix_at; by rewrite Hd).
  destruct (Nat.ltb_spec (S i) (length (elements s))) as [Hl|Hl].
  - assert (drop (S i) (elements s) ≠ []) as Hne by (apply drop_nonnil; lia).
    rewrite Hsf, join_cons, strchr_app by done. cbn [tail]. unfold prefix_at. destruct i as [|i]; [done|].
    rewrite join_app; [by rewrite <- app_assoc| |done]. apply take_nonnil; [lia|by eapply lt_nonnil].
  - rewrite (drop_ge _ (S i)) in * by lia. rewrite app_nil_r. rewrite Hsf. cbn [join].
    rewrite (proj2 (strchr_None _ _)) by done. pose proof (split_str s i Hi) as Hs. rewrite Hsf in Hs. cbn [join] in Hs.
    unfold prefix_at in *. destruct i as [|i].
    + cbn in Hs. rewrite bool_decide_true by done. done.
    + rewrite bool_decide_false. 2:{ intros <-. apply (f_equal length) in Hs. rewrite !length_app in Hs. cbn in Hs. lia. }
      set (p := join (take (S i) (elements s))) in *. clearbody p. rewrite Hs, <- app_assoc.
      apply take_app_length'. rewrite length_app. cbn [length]. lia.
Qed.

(** ** Walking the elements *)

Lemma contains_loop_spec fuel ptr val :
  (length ptr < fuel)%nat → contains_loop fuel ptr val = bool_decide (val ∈ elements ptr).
Proof.
  revert ptr. induction fuel as [|fuel IH]; intros ptr Hf; [lia|]. cbn [contains_loop].
  assert (∀ (n : nat) p, n = length p → take n ptr = p →
    bool_decide (n = length val) && bool_decide (take n ptr = take n val) = bool_decide (p = val)) as Heq.
  { intros n p -> ->. destruct (decide (p = val)) as [->|Hne].
    - rewrite firstn_all. by rewrite !bool_decide_true.
    - rewrite (bool_decide_false (p = val)) by done. apply andb_false_iff.
      destruct (decide (length p = length val)) as [El|]; [right|left; by apply bool_decide_false].
      rewrite El, firstn_all. by apply bool_decide_false. }
  destruct (strchr_RS_cases ptr) as [[-> Es]|(p & t & -> & -> & Hp & Es)]; rewrite Es.
  - rewrite (Heq _ ptr eq_refl (firstn_all ptr)). destruct (decide (ptr = val)) as [->|Hne].
    + rewrite !bool_decide_true; [done|by apply list_elem_of_singleton|done].
    + rewrite !bool_decide_false; [done| |done]. rewrite list_elem_of_singleton. congruence.
  - unfold offset. rewrite length_app. replace (length p + length (SDB_RS :: t) - length (SDB_RS :: t))%nat with (length p) by lia.
    rewrite (Heq _ p eq_refl) by apply take_app_length. destruct (decide (p = val)) as [->|Hne].
    + rewrite !bool_decide_true; [done|by left|done].
    + rewrite (bool_decide_false (p = val)) by done. cbn [tail]. rewrite length_app in Hf. cbn in Hf. rewrite IH by lia.
      apply bool_decide_ext. rewrite elem_of_cons. naive_solver.
Qed.

Lemma indexof_loop_spec fuel test (f : bytes → bool) s i :
  Forall (λ e, ∀ rest, test (join (e :: rest)) = f e) (elements s) → (length s < fuel)%nat →
  indexof_loop fuel test s i = (λ x, i + Z.of_nat x.1) <$> list_find (λ e, f e = true) (elements s).
Proof.
  revert s i. induction fuel as [|fuel IH]; intros s i Ht Hf; [lia|]. cbn [indexof_loop].
  assert (∀ e rest, elements s = e :: rest → test s = f e) as Hts.
  { intros e rest E. rewrite <- (join_elements s), E. rewrite E in Ht. by apply Forall_cons in Ht as [Ht _]. }
  destruct (strchr_RS_cases s) as [[Ec Es]|(p & t & Ec & -> & Hp & Es)]; rewrite (Hts _ _ Es), Ec, Es; cbn [list_find].
  - destruct (f s) eqn:Ef; [rewrite decide_True by done|rewrite decide_False by congruence]; cbn; [f_equal; lia|done].
  - destruct (f p) eqn:Ef; [rewrite decide_True by done|rewrite decide_False by congruence]; cbn [fmap option_fmap option_map fst].
    + f_equal. lia.
    + cbn [tail]. rewrite length_app in Hf. cbn in Hf. rewrite Es in Ht. apply Forall_cons in Ht as [_ Ht]. rewrite IH by (done || lia).
      destruct (list_find _ (elements t)) as [[j x]|]; cbn; [f_equal; lia|done].
Qed.

Lemma at_end_char c s : is_char c → c ≠ SDB_RS → elem_end (c :: s) = false.
Proof. intros Hc Hn. unfold elem_end; cbn. unfold is_char in Hc. apply orb_false_iff. split; apply Z.eqb_neq; lia. Qed.

(** An element against what follows it. *)
Lemma astrcmp_app a x b y :
  is_cstr a → SDB_RS ∉ a → is_cstr b → SDB_RS ∉ b → elem_end x = true → elem_end y = true →
  astrcmp (a ++ x) (b ++ y) = astrcmp a b.
Proof.
  intros Ha Hna Hb Hnb Hx Hy. revert b Hb Hnb. induction Ha as [|c a Hc Ha IH]; intros b Hb Hnb.
  - destruct Hb as [|d b Hd Hb]; cbn [app].
    + destruct x, y; cbn [astrcmp]; by rewrite ?Hx, ?Hy.
    + assert (elem_end (d :: b ++ y) = false) as Ed by (apply at_end_char; set_solver).
      assert (elem_end (d :: b) = false) as Ed' by (apply at_end_char; set_solver).
      change (elem_end [] = true) with (true = true). destruct x; cbn [astrcmp]; by rewrite ?Hx, Ed, ?Ed'.
  - assert (∀ r, elem_end (c :: r) = false) as Ec by (intros r; apply at_end_char; set_solver).
    destruct Hb as [|d b Hd Hb]; cbn [app].
    + destruct y; cbn [astrcmp]; by rewrite !Ec, ?Hy.
    + assert (∀ r, elem_end (d :: r) = false) as Ed by (intros r; apply at_end_char; set_solver).
      cbn [astrcmp]. rewrite !Ec, !Ed. destruct (c =? d); cbn [negb]; [|done]. apply IH; [set_solver|done|set_solver].
Qed.

Lemma astrcmp_zero a b :
  is_cstr a → SDB_RS ∉ a → is_cstr b → SDB_RS ∉ b → (astrcmp a b = 0 ↔ a = b).
Proof.
  intros Ha Hna. revert b. induction Ha as [|c a Hc Ha IH]; intros b Hb Hnb.
  - destruct Hb as [|d b Hd Hb]; cbn [astrcmp]; [done|]. by rewrite at_end_char by set_solver.
  - assert (∀ r, elem_end (c :: r) = false) as Ec by (intros r; apply at_end_char; set_solver).
    destruct Hb as [|d b Hd Hb]; cbn [astrcmp]; rewrite !Ec; [done|]. rewrite at_end_char by set_solver.
    destruct (c =? d) eqn:E; cbn [negb]; zbool; [|case_if; split; [lia|congruence|lia|congruence]].
    subst. rewrite IH by set_solver. naive_solver.
Qed.

(** An array text: elements of characters other than the separator. *)
Definition elem_ok (e : bytes) : Prop := is_cstr e ∧ SDB_RS ∉ e.

#[global] Instance is_char_dec c : Decision (is_char c).
Proof. unfold is_char. apply _. Defined.
#[global] Instance elem_ok_dec e : Decision (elem_ok e).
Proof. unfold elem_ok, is_cstr. apply _. Defined.

Lemma astrcmp_join e rest val :
  elem_ok e → elem_ok val → (astrcmp (join (e :: rest)) val =? 0) = bool_decide (e = val).
Proof.
  intros [He1 He2] [Hv1 Hv2]. assert (astrcmp (join (e :: rest)) val = astrcmp e val) as ->.
  { destruct rest as [|e' rest]; [done|]. rewrite join_cons by done. rewrite <- (app_nil_r val) at 1. by apply astrcmp_app. }
  destruct (decide (e = val)) as [->|Hne].
  - rewrite bool_decide_true by done. apply Z.eqb_eq. by apply astrcmp_zero.
  - rewrite bool_decide_false by done. apply Z.eqb_neq. by rewrite astrcmp_zero.
Qed.

Lemma elements_ok s : is_cstr s → Forall elem_ok (elements s).
Proof.
  intros Hs. assert (Forall is_cstr (elements s)) as Hc.
  { induction Hs as [|c s Hc Hs IH]; cbn; [by repeat constructor|]. case_if; [by constructor; [constructor|]|].
    destruct (elements s) as [|e es]; [by apply Forall_singleton, Forall_singleton|]. apply Forall_cons in IH as [? ?].
    apply Forall_cons; split; [by apply Forall_cons|done]. }
  apply Forall_and; split; [done|apply elements_noRS_all].
Qed.

Lemma join_cstr es : Forall elem_ok es → is_cstr (join es).
Proof.
  induction 1 as [|e es [He _] HF IH]; [constructor|]. destruct es as [|e' es]; [done|]. rewrite join_cons by done.
  apply Forall_app; split; [done|]. by constructor.
Qed.

Lemma fmt_array_loop_spec fuel s : (length s < fuel)%nat → fmt_array_loop fuel s = elements s.
Proof.
  revert s. induction fuel as [|fuel IH]; intros s Hf; [lia|]. cbn [fmt_array_loop sdb_anext2].
  destruct (strchr_RS_cases s) as [[-> ->]|(p & t & -> & -> & Hp & ->)]; cbn [fmap option_fmap option_map tail]; [done|].
  rewrite length_app in *. cbn [length] in *. rewrite IH by lia. by rewrite take_app_length' by lia.
Qed.

Lemma write_joined_spec l : l ≠ [] → write_joined l = join l.
Proof.
  intros Hl. unfold write_joined. assert (join_loop l = join l ++ [SDB_RS]) as ->; [|by rewrite removelast_last].
  induction l as [|e l IH]; [done|]. cbn [join_loop]. destruct l as [|e' l]; [done|].
  rewrite IH by done. rewrite (join_cons e) by done. by rewrite <- !app_assoc.
Qed.

#[global] Instance cstring_le_total : Total cstring_le.
Proof.
  intros a. unfold cstring_le. induction a as [|x a IH]; intros [|y b]; cbn [astrcmp]; change (elem_end []) with true; cbv iota.
  1-3: repeat case_if; lia.
  rewrite (Z.eqb_sym y x). repeat case_if; zbool; try lia. apply IH.
Qed.

(** ** The array of a key *)

Definition arr_of (s : Sdb) (k : bytes) : list bytes := match view s !! k with Some v => elements v | None => [] end.

(** The array of one empty element is no value at all. *)
Definition canon (es : list bytes) : list bytes := match es with [[]] => [] | _ => es end.

(** A change of one key. *)
Definition only_key (s s' : Sdb) (k : bytes) : Prop := ∀ j, j ≠ k → view s' !! j = view s !! j.

Lemma const_str_len_mem now n s k :
  mem_inv n s → const_str_len now (Some k) s =
  (match view s !! k with Some v => (Some v, slen v, cas_of s k) | None => (None, 0, 0) end, s).
Proof.
  intros Hi. unfold const_str_len; run_m. rewrite (get_mem now n s k Hi).
  destruct (view s !! k) as [v|] eqn:Ev; cbn [fst snd fmap option_fmap option_map]; [|done].
  destruct (view_cstr n s k v Hi Ev) as [Hc _]. by rewrite cstr_app_nul.
Qed.

Lemma set_arr now n s k es owned c :
  mem_inv (S n) s → key_ok k → Forall elem_ok es → slen (join es) < SDB_VSZ → cas_ok s k c = true →
  let '(r, s') := nonzero (sdb_set_internal now (Some k) (Some (join es)) owned c) s in
  mem_inv n s' ∧ r = true ∧ arr_of s' k = canon es ∧ only_key s s' k.
Proof.
  intros Hi Hk Hes Hl Hc. pose proof (view_set now n s k (join es) owned c Hi Hk (conj (join_cstr es Hes) Hl)) as Hs. rewrite Hc in Hs.
  run_m. destruct (sdb_set_internal _ _ _ _ _ s) as [r s']. destruct Hs as (Hi' & Hr & Hv & _).
  split_and!; [done|by rewrite (proj2 (Z.eqb_neq r 0)) by lia| |].
  - unfold arr_of. rewrite Hv. destruct (decide (es = [])) as [->|Hne]; [cbn [put join]; by rewrite lookup_delete_eq|].
    assert (elements (join es) = es) as Hel by (apply elements_join; [done|]; eapply Forall_impl; [exact Hes|by intros ? []]).
    unfold put. destruct (join es) as [|x w] eqn:E.
    + rewrite lookup_delete_eq. by subst.
    + rewrite lookup_insert_eq, Hel. destruct es as [|[] [|]]; done.
  - intros j Hj. rewrite Hv. unfold put. destruct (join es); [by rewrite lookup_delete_ne|by rewrite lookup_insert_ne].
Qed.

Lemma cas_ok_self s k : cas_ok s k (cas_of s k) = true.
Proof.
  unfold cas_ok, cas_of. destruct (_ !! k) as [kv|]; [|done]. destruct (value kv); [|done].
  by rewrite Z.eqb_refl, orb_true_r.
Qed.

Lemma arr_of_ok n s k : mem_inv n s → Forall elem_ok (arr_of s k).
Proof.
  intros Hi. unfold arr_of. destruct (view s !! k) as [v|] eqn:E; [|done]. apply elements_ok. by eapply view_cstr.
Qed.

(** The two cases of a value: none, or a non-empty text with its elements. *)
Lemma arr_cases n s k :
  mem_inv n s →
  (view s !! k = None ∧ arr_of s k = []) ∨
  (∃ x v, view s !! k = Some (x :: v) ∧ is_cstr (x :: v) ∧ arr_of s k = elements (x :: v)
     ∧ sdb_alen (Some (x :: v)) = Z.of_nat (length (arr_of s k)) ∧ 0 < cas_of s k).
Proof.
  intros Hi. unfold arr_of. destruct (view s !! k) as [v|] eqn:E; [right|by left].
  destruct (view_cstr n s k v Hi E) as (Hc & Hne & Hp). destruct v as [|x v]; [done|].
  exists x, v. split_and!; [done|done|done|by apply sdb_alen_spec|done].
Qed.

(** ** What the operations mean on lists *)

Definition set_spec (idx : Z) (v : bytes) (es : list bytes) : list bytes :=
  let len := Z.of_nat (length es) in
  match es with
  | [] => [v]
  | _ => if idx <? 0 then es ++ [v]
         else if len <=? idx then es ++ replicate (Z.to_nat (idx - len)) [] ++ [v]
         else <[Z.to_nat idx := v]> es
  end.

Definition insert_spec (idx : Z) (v : bytes) (es : list bytes) : list bytes :=
  if (0 <=? idx) && (idx <? Z.of_nat (length es)) then take (Z.to_nat idx) es ++ v :: drop (Z.to_nat idx) es
  else set_spec idx v es.

(** The index a call means: negative ones count from the end. *)
Definition from_end (idx : Z) (es : list bytes) : Z := if idx <? 0 then idx + Z.of_nat (length es) else idx.

Definition lookupZ (es : list bytes) (i : Z) : option bytes := if i <? 0 then None else es !! Z.to_nat i.

Lemma append_text (es : list bytes) v :
  es ≠ [] → join es ++ [SDB_RS] ++ v = join (es ++ [v]).
Proof. intros He. by rewrite join_app. Qed.

Lemma pad_text es d v :
  es ≠ [] → join es ++ [SDB_RS] ++ replicate d SDB_RS ++ v = join (es ++ replicate d [] ++ [v]).
Proof.
  intros He. rewrite join_app; [|done|by destruct d]. do 2 f_equal. change ([SDB_RS] ++ ?x) with (SDB_RS :: x). f_equal.
  induction d as [|d IH]; [done|]. cbn [replicate app]. rewrite join_cons by (by destruct d). by rewrite IH.
Qed.

(** A call that leaves the array [es]. *)
Definition leaves {A} (n : nat) (s : Sdb) (k : bytes) (es : list bytes) (a : A) (x : A * Sdb) : Prop :=
  x.1 = a ∧ mem_inv n x.2 ∧ arr_of x.2 k = canon es ∧ only_key s x.2 k.

Definition fits_value (es : list bytes) : Prop := Forall elem_ok es ∧ slen (join es) < SDB_VSZ.

Lemma set_leaves now n s k es w owned c :
  mem_inv (S n) s → key_ok k → fits_value es → cas_ok s k c = true → w = join es →
  leaves n s k es true (nonzero (sdb_set_internal now (Some k) (Some w) owned c) s).
Proof.
  intros Hi Hk [He Hl] Hc ->. pose proof (set_arr now n s k es owned c Hi Hk He Hl Hc) as Hs.
  unfold leaves. destruct (nonzero _ s) as [r s']. by destruct Hs as (? & -> & ?).
Qed.

(** A call whose own result is dropped. *)
Lemma leaves_after {A} (m : M bool) n s k es (a : A) :
  leaves n s k es true (m s) → leaves n s k es a (let '(_, s0) := m s in (a, s0)).
Proof. unfold leaves. destruct (m s) as [r s']. by intros (_ & ?). Qed.

Lemma append_mem fb now n s k w es :
  mem_inv (S n) s → key_ok k → fits_value es →
  (if decide (arr_of s k = []) then w = join es else join (arr_of s k) ++ [SDB_RS] ++ w = join es) →
  leaves n s k es true (array_insert_with fb now (Some k) (-1) w 0 s).
Proof.
  intros Hi Hk He Hw. unfold array_insert_with. unfold mbind, M_bind. rewrite (const_str_len_mem now _ s k Hi).
  destruct (arr_cases _ s k Hi) as [[Hv Ha]|(x & v & Hv & Hc & Ha & _)]; rewrite Hv; cbn [fst snd]; rewrite Ha in Hw.
  - by apply set_leaves; [..|apply cas_ok_0|].
  - rewrite decide_False in Hw by apply elements_nonnil. rewrite join_elements in Hw.
    change (-1 =? -1) with true. cbv iota. by apply set_leaves; [..|apply cas_ok_0|].
Qed.

Lemma array_set_mem now n s k idx v :
  mem_inv (S n) s → key_ok k → fits_value (set_spec idx v (arr_of s k)) →
  leaves n s k (set_spec idx v (arr_of s k)) true (sdb_array_set now (Some k) idx v 0 s).
Proof.
  intros Hi Hk He. unfold sdb_array_set. unfold mbind at 1, M_bind at 1. rewrite (const_str_len_mem now _ s k Hi).
  destruct (arr_cases _ s k Hi) as [[Hv Ha]|(x & w & Hv & Hc & Ha & Hlen & _)]; rewrite Hv; cbn [fst snd].
  { rewrite Ha in *. by apply set_leaves; [..|apply cas_ok_0|]. }
  rewrite Hlen. pose proof (elements_nonnil (x :: w)) as Hne. rewrite <- Ha in Hne.
  assert (set_spec idx v (arr_of s k) = if idx <? 0 then arr_of s k ++ [v]
    else if Z.of_nat (length (arr_of s k)) <=? idx then arr_of s k ++ replicate (Z.to_nat (idx - Z.of_nat (length (arr_of s k)))) [] ++ [v]
    else <[Z.to_nat idx := v]> (arr_of s k)) as Hspec by (unfold set_spec; by destruct (arr_of s k)).
  rewrite Hspec in *. clear Hspec. destruct (idx <? 0) eqn:E0; cbn [orb].
  { apply append_mem; [done..|]. rewrite decide_False by done. by apply append_text. }
  zbool. destruct (idx =? Z.of_nat (length (arr_of s k))) eqn:E1; zbool.
  { subst idx. rewrite Z.leb_refl, Z.sub_diag in *. apply append_mem; [done..|]. rewrite decide_False by done. by apply append_text. }
  destruct (Z.of_nat (length (arr_of s k)) <? idx) eqn:E2; zbool.
  { rewrite (proj2 (Z.leb_le _ _)) in * by lia. apply append_mem; [done..|]. rewrite decide_False by done. by apply pad_text. }
  rewrite (proj2 (Z.leb_gt _ _)) in * by lia. rewrite !Aindexof_spec, <- Ha.
  rewrite (proj2 (Z.leb_le 0 idx)), (proj2 (Z.ltb_lt _ _)), (proj2 (Z.leb_le 0 (idx + 1))) by lia. cbn [andb].
  assert (Z.to_nat idx < length (arr_of s k))%nat as Hlt by lia.
  pose proof (replace_text (arr_of s k) (Z.to_nat idx) v Hlt) as Hr. rewrite Ha. rewrite take_offset by (by rewrite <- Ha). rewrite <- Ha.
  destruct (Z.ltb_spec (idx + 1) (Z.of_nat (length (arr_of s k)))) as [Hn|Hn].
  - rewrite (proj2 (Nat.ltb_lt _ _)) in Hr by lia. replace (Z.to_nat (idx + 1)) with (S (Z.to_nat idx)) by lia.
    apply set_leaves; [done..|apply cas_ok_0|]. rewrite Hr. by rewrite <- !app_assoc.
  - rewrite (proj2 (Nat.ltb_ge _ _)) in Hr by lia.
    apply set_leaves; [done..|apply cas_ok_0|]. rewrite Hr. by rewrite app_nil_r.
Qed.

Lemma array_insert_mem now n s k idx v :
  mem_inv (S n) s → key_ok k → fits_value (insert_spec idx v (arr_of s k)) →
  leaves n s k (insert_spec idx v (arr_of s k)) true (sdb_array_insert now (Some k) idx v 0 s).
Proof.
  intros Hi Hk He. unfold sdb_array_insert, array_insert_with. unfold mbind at 1, M_bind at 1. rewrite (const_str_len_mem now _ s k Hi).
  destruct (arr_cases _ s k Hi) as [[Hv Ha]|(x & w & Hv & Hc & Ha & Hlen & _)]; rewrite Hv; cbn [fst snd].
  { rewrite Ha in *. assert (insert_spec idx v [] = [v]) as Hs by (unfold insert_spec; by destruct idx).
    rewrite Hs in *. by apply set_leaves; [..|apply cas_ok_0|]. }
  pose proof (elements_nonnil (x :: w)) as Hne. rewrite <- Ha in Hne.
  destruct (idx =? -1) eqn:Em; zbool; [subst idx|].
  { assert (insert_spec (-1) v (arr_of s k) = arr_of s k ++ [v]) as Hs by (cbn; by destruct (arr_of s k)). rewrite Hs in *.
    apply set_leaves; [done..|apply cas_ok_0|]. rewrite <- append_text by done. rewrite Ha. by rewrite join_elements. }
  assert (0 < length (arr_of s k))%nat as Hpos by (destruct (arr_of s k); [done|cbn; lia]).
  destruct (idx =? 0) eqn:Ez; zbool; [subst idx|].
  { assert (insert_spec 0 v (arr_of s k) = v :: arr_of s k) as Hs by (unfold insert_spec; rewrite (proj2 (Z.ltb_lt _ _)) by lia; done).
    rewrite Hs in *. apply set_leaves; [done..|apply cas_ok_0|]. rewrite join_cons by done. rewrite Ha. by rewrite join_elements. }
  rewrite Aindexof_spec, <- Ha. unfold insert_spec in *.
  destruct ((0 <=? idx) && (idx <? Z.of_nat (length (arr_of s k)))) eqn:E; [|by apply array_set_mem].
  apply andb_true_iff in E as [E1 E2]. zbool. assert (0 < Z.to_nat idx < length (arr_of s k))%nat as Hlt by lia.
  rewrite Ha. rewrite offset_suffix by (rewrite <- Ha; lia). rewrite <- Ha.
  apply set_leaves; [done..|apply cas_ok_0|]. rewrite <- insert_text by done.
  pose proof (split_str (x :: w) (Z.to_nat idx) ltac:(rewrite <- Ha; lia)) as Hsp. rewrite <- Ha in Hsp. rewrite Hsp at 1.
  unfold prefix_at. destruct (Z.to_nat idx) as [|i] eqn:Ei; [lia|].
  rewrite length_app. cbn [length]. rewrite (proj2 (Nat.ltb_lt _ _)) by lia. rewrite <- app_assoc.
  rewrite take_app_length' by lia. by rewrite <- !app_assoc.
Qed.

(** Deleting never makes the text longer. *)
Lemma join_delete_length es i : (length (join (delete i es)) <= length (join es))%nat.
Proof.
  revert i. induction es as [|e es IH]; intros i; [done|]. destruct es as [|e' es].
  { destruct i as [|i]; [apply Nat.le_0_l|done]. }
  destruct i as [|i].
  - change (delete 0%nat (e :: e' :: es)) with (e' :: es). rewrite (join_cons e) by done. rewrite length_app. cbn [length]. lia.
  - change (delete (S i) (e :: e' :: es)) with (e :: delete i (e' :: es)). rewrite (join_cons e (e' :: es)) by done.
    specialize (IH i). destruct (delete i (e' :: es)) as [|d ds] eqn:E; [cbn [join]; rewrite length_app; lia|].
    rewrite <- E in *. rewrite join_cons by congruence. rewrite !length_app. cbn [length]. lia.
Qed.

Lemma fits_delete es i : fits_value es → fits_value (delete i es).
Proof.
  intros [He Hl]. split; [by apply Forall_delete|]. pose proof (join_delete_length es i). unfold slen in *. lia.
Qed.

Lemma arr_fits n s k : mem_inv n s → view_ok (view s) → fits_value (arr_of s k).
Proof.
  intros Hi Hv. split; [by eapply arr_of_ok|]. unfold arr_of. destruct (view s !! k) as [v|] eqn:E; [|done].
  rewrite join_elements. by apply (Hv k).
Qed.

Definition del_spec (idx : Z) (es : list bytes) : option (list bytes) :=
  let len := Z.of_nat (length es) in
  let i := if idx <? 0 then len - 1 else idx in
  if (0 <=? i) && (i <? len) then Some (delete (Z.to_nat i) es) else None.

Lemma array_delete_mem now n s k idx :
  mem_inv (S n) s → view_ok (view s) → key_ok k →
  match del_spec idx (arr_of s k) with
  | Some es => leaves n s k es true (sdb_array_delete now (Some k) idx 0 s)
  | None => sdb_array_delete now (Some k) idx 0 s = (false, s)
  end.
Proof.
  intros Hi Hvo Hk. pose proof (arr_fits _ s k Hi Hvo) as Hf. unfold sdb_array_delete; run_m. rewrite (sdb_get_mem now _ s k Hi).
  destruct (arr_cases _ s k Hi) as [[Hv Ha]|(x & w & Hv & Hc & Ha & Hlen & _)]; rewrite Hv; cbn [fst snd].
  { rewrite Ha. unfold del_spec. destruct (idx <? 0) eqn:E; cbn; [done|]. zbool.
    rewrite (proj2 (Z.leb_le _ _)), (proj2 (Z.ltb_ge _ _)) by lia. done. }
  rewrite Hlen. assert (0 < length (arr_of s k))%nat as Hpos.
  { rewrite Ha. destruct (elements (x :: w)) eqn:E; [by apply elements_nonnil in E|cbn; lia]. }
  rewrite (proj2 (Z.eqb_neq _ _)) by lia. rewrite skip_elems_spec, <- Ha. unfold del_spec.
  set (i := if idx <? 0 then _ else idx). assert (0 <= i) as Hi0 by (unfold i; case_if; zbool; lia).
  rewrite (proj2 (Z.leb_le 0 i)) by done. cbn [andb]. destruct (Z.ltb_spec i (Z.of_nat (length (arr_of s k)))) as [Hl|Hl].
  - rewrite (proj2 (Nat.ltb_lt _ _)) by lia. rewrite Ha at 2. rewrite delete_at_spec, <- Ha by (rewrite <- Ha; lia).
    assert (leaves n s k (delete (Z.to_nat i) (arr_of s k)) true
      (sdb_set_owned now (Some k) (Some (join (delete (Z.to_nat i) (arr_of s k)))) 0 s)) as Hs
      by (apply set_leaves; [done|done|by apply fits_delete|apply cas_ok_0|done]).
    unfold leaves in *. destruct (sdb_set_owned _ _ _ _ s) as [r s']. cbn [fst snd] in *. by destruct Hs as (_ & ?).
  - by rewrite (proj2 (Nat.ltb_ge _ _)) by lia.
Qed.

Lemma array_get_mem now n s k idx :
  mem_inv n s → ∃ c, sdb_array_get now (Some k) idx s = ((lookupZ (arr_of s k) (from_end idx (arr_of s k)), c), s).
Proof.
  intros Hi. unfold sdb_array_get; run_m. rewrite (const_str_mem now n s k Hi).
  destruct (arr_cases _ s k Hi) as [[Hv Ha]|(x & w & Hv & Hc & Ha & Hlen & _)]; rewrite Hv; cbn [fst snd]; eexists; do 2 f_equal.
  { rewrite Ha. unfold lookupZ. by case_if. }
  unfold array_elem, lookupZ, from_end. rewrite Hlen, Ha.
  pose (go := λ idx, if idx =? 0 then Some (head_elem (x :: w)) else head_elem <$> skip_elems (Z.to_nat idx) (x :: w)). cbv zeta.
  assert (∀ i, 0 <= i → go i = elements (x :: w) !! Z.to_nat i) as Hgo.
  { intros i Hi0. unfold go. destruct (i =? 0) eqn:E; zbool.
    - subst i. rewrite <- head_elem_at by (destruct (elements (x :: w)) eqn:E; [by apply elements_nonnil in E|change (Z.to_nat 0) with 0%nat; cbn; lia]).
      unfold suffix_at. change (drop (Z.to_nat 0) (elements (x :: w))) with (elements (x :: w)). by rewrite join_elements.
    - rewrite skip_elems_spec. destruct (Nat.ltb_spec (Z.to_nat i) (length (elements (x :: w)))) as [Hl|Hl]; cbn [fmap option_fmap option_map].
      + by apply head_elem_at.
      + symmetry. by apply lookup_ge_None. }
  destruct (idx <? 0) eqn:E; zbool; [|rewrite (proj2 (Z.ltb_ge _ _)) by lia; by apply (Hgo idx)].
  destruct (Z.ltb_spec (Z.of_nat (length (elements (x :: w)))) (- idx)) as [Hl|Hl].
  - by rewrite (proj2 (Z.ltb_lt _ _)) by lia.
  - rewrite (proj2 (Z.ltb_ge _ _)) by lia. apply (Hgo (idx + _)). lia.
Qed.

Lemma array_contains_mem now n s k v :
  mem_inv n s → ∃ c, sdb_array_contains now (Some k) (Some v) s = ((bool_decide (v ∈ arr_of s k), c), s).
Proof.
  intros Hi. unfold sdb_array_contains; run_m. rewrite (const_str_mem now n s k Hi).
  destruct (arr_cases _ s k Hi) as [[Hv Ha]|(x & w & Hv & Hc & Ha & _)]; rewrite Hv, Ha; cbn [fst snd]; eexists; do 2 f_equal.
  rewrite contains_loop_spec by lia. done.
Qed.

Definition index_spec (v : bytes) (es : list bytes) : option Z := (λ x, Z.of_nat x.1) <$> list_find (λ e, e = v) es.

Lemma list_find_bool (es : list bytes) v :
  list_find (λ e, bool_decide (e = v) = true) es = list_find (λ e, e = v) es.
Proof.
  induction es as [|e es IH]; [done|]. cbn [list_find]. rewrite IH.
  destruct (decide (e = v)); [rewrite decide_True by (by apply bool_decide_true)|rewrite decide_False by (rewrite bool_decide_false; done)]; done.
Qed.

Lemma indexof_text w v :
  is_cstr w → elem_ok v → indexof_loop (S (length w)) (λ p, astrcmp p v =? 0) w 0 = index_spec v (elements w).
Proof.
  intros Hw Hv. rewrite (indexof_loop_spec _ _ (λ e, bool_decide (e = v))); [|
    eapply Forall_impl; [by apply elements_ok|]; intros e He rest; by apply astrcmp_join|lia].
  rewrite list_find_bool. unfold index_spec. by destruct (list_find _ _) as [[]|].
Qed.

Lemma array_indexof_mem now n s k v :
  mem_inv n s → elem_ok v → sdb_array_indexof now (Some k) v s = (default (-1) (index_spec v (arr_of s k)), s).
Proof.
  intros Hi Hv. unfold sdb_array_indexof; run_m. rewrite (const_str_mem now n s k Hi).
  destruct (arr_cases _ s k Hi) as [[Hw Ha]|(x & w & Hw & Hc & Ha & _)]; rewrite Hw, Ha; cbn [fst snd]; [done|].
  by rewrite indexof_text.
Qed.

Lemma array_push_mem now n s k v :
  mem_inv (S n) s → key_ok k → fits_value (v :: arr_of s k) →
  leaves n s k (v :: arr_of s k) true (sdb_array_push now (Some k) (Some v) 0 s).
Proof.
  intros Hi Hk Hf. unfold sdb_array_push, sdb_array_prepend; run_m. rewrite (get_mem now _ s k Hi).
  destruct (arr_cases _ s k Hi) as [[Hv Ha]|(x & w & Hv & Hc & Ha & _ & _)]; rewrite Hv; cbn [fst snd].
  - change (negb (0 =? 0)) with false. cbn [andb].
    pose proof (set_leaves now n s k (v :: arr_of s k) v false 0 Hi Hk Hf (cas_ok_0 s k) ltac:(by rewrite Ha)) as Hs.
    fold (sdb_set now (Some k) (Some v) 0) in Hs.
    unfold leaves in *. destruct (sdb_set _ _ _ _ s) as [r s']. by destruct Hs as (_ & ?).
  - change (negb (0 =? 0)) with false. cbn [andb]. cbn [app hd0 hd]. apply Forall_cons in Hc as Hc'. destruct Hc' as [Hx _].
    change (hd0 (x :: w ++ [0])) with x. rewrite (proj2 (Z.eqb_neq x 0)) by (unfold is_char in Hx; lia). cbn [negb].
    assert (cstr (v ++ SDB_RS :: take (Z.to_nat (slen (x :: w))) (x :: w ++ [0]) ++ [0]) = join (v :: arr_of s k)) as ->.
    { change (x :: w ++ [0]) with ((x :: w) ++ [0]). rewrite take_app_length' by (unfold slen; lia).
      change (SDB_RS :: (x :: w) ++ [0]) with ((SDB_RS :: x :: w) ++ [0]). rewrite app_assoc.
      destruct Hf as [Hf _]. apply Forall_cons in Hf as [[Hcv _] _].
      rewrite cstr_app_nul by (apply Forall_app; split; [done|]; by apply Forall_cons).
      rewrite join_cons by (rewrite Ha; apply elements_nonnil). rewrite Ha. by rewrite join_elements. }
    pose proof (set_leaves now n s k (v :: arr_of s k) _ true (cas_of s k) Hi Hk Hf (cas_ok_self s k) eq_refl) as Hs.
    fold (sdb_set_owned now (Some k) (Some (join (v :: arr_of s k))) (cas_of s k)) in Hs.
    unfold leaves in *. destruct (sdb_set_owned _ _ _ _ s) as [r s']. by destruct Hs as (_ & ?).
Qed.

Lemma array_pop_mem now n s k :
  mem_inv (S n) s → view_ok (view s) → key_ok k →
  match arr_of s k with
  | [] => sdb_array_pop now (Some k) s = ((None, 0), s)
  | e :: es => ∃ c, leaves n s k es (Some e, c) (sdb_array_pop now (Some k) s)
  end.
Proof.
  intros Hi Hvo Hk. pose proof (arr_fits _ s k Hi Hvo) as Hf. unfold sdb_array_pop, sdb_array_pop_head; run_m.
  rewrite (sdb_get_mem now _ s k Hi).
  destruct (arr_cases _ s k Hi) as [[Hv Ha]|(x & w & Hv & Hc & Ha & _ & _)]; rewrite Hv; cbn [fst snd]; [by rewrite Ha|].
  destruct (strchr_RS_cases (x :: w)) as [[-> Es]|(p & t & -> & Et & Hp & Es)]; rewrite Es in Ha; rewrite Ha in *.
  - exists (cas_of s k). apply leaves_after. apply set_leaves; [done|done|by split|apply cas_ok_0|done].
  - exists (cas_of s k). rewrite Et. replace (take (offset (p ++ SDB_RS :: t) (SDB_RS :: t)) (p ++ SDB_RS :: t)) with p.
    2:{ unfold offset. rewrite length_app. by rewrite take_app_length' by lia. }
    apply leaves_after. apply set_leaves; [done|done|by apply (fits_delete (p :: elements t) 0)|apply cas_ok_0|].
    by rewrite join_elements.
Qed.

Lemma array_add_mem now n s k v :
  mem_inv (S n) s → key_ok k → fits_value (insert_spec (-1) v (arr_of s k)) →
  if bool_decide (v ∈ arr_of s k) then sdb_array_add now (Some k) v 0 s = (false, s)
  else leaves n s k (insert_spec (-1) v (arr_of s k)) true (sdb_array_add now (Some k) v 0 s).
Proof.
  intros Hi Hk Hf. unfold sdb_array_add. unfold mbind, M_bind.
  destruct (array_contains_mem now _ s k v Hi) as [c ->]. cbn [fst]. destruct (bool_decide _); [done|]. by apply array_insert_mem.
Qed.

Lemma index_spec_bound v es i : index_spec v es = Some i → 0 <= i < Z.of_nat (length es).
Proof.
  unfold index_spec. destruct (list_find _ es) as [[j x]|] eqn:E; [|done]. intros [= <-]. cbn.
  apply list_find_Some in E as (Hl%lookup_lt_Some & _). lia.
Qed.

Lemma array_remove_mem now n s k v :
  mem_inv (S n) s → view_ok (view s) → key_ok k → elem_ok v →
  match index_spec v (arr_of s k) with
  | Some i => leaves n s k (delete (Z.to_nat i) (arr_of s k)) true (sdb_array_remove now (Some k) v 0 s)
  | None => sdb_array_remove now (Some k) v 0 s = (false, s)
  end.
Proof.
  intros Hi Hvo Hk Hv. unfold sdb_array_remove. unfold mbind at 1 2, M_bind at 1 2. rewrite (const_str_mem now _ s k Hi).
  destruct (arr_cases _ s k Hi) as [[Hw Ha]|(x & w & Hw & Hc & Ha & _)]; rewrite Hw; cbn [fst snd]; [by rewrite Ha|].
  rewrite indexof_text, <- Ha by done. destruct (index_spec v (arr_of s k)) as [i|] eqn:E; [|done].
  apply index_spec_bound in E. pose proof (array_delete_mem now n s k i Hi Hvo Hk) as Hd. unfold del_spec in Hd.
  rewrite (proj2 (Z.ltb_ge i 0)), (proj2 (Z.leb_le 0 i)), (proj2 (Z.ltb_lt i _)) in Hd by lia. done.
Qed.

Lemma fits_perm es es' : es' ≡ₚ es → fits_value es → fits_value es'.
Proof.
  intros Hp [He Hl]. split; [by rewrite Hp|]. replace (slen (join es')) with (slen (join es)); [done|].
  assert (∀ l, l ≠ [] → slen (join l) + 1 = foldr (λ e z, slen e + 1 + z) 0 l) as Hsum.
  { intros l Hl0. induction l as [|e l IH]; [done|]. destruct l as [|e' l]; [cbn; lia|].
    rewrite join_cons by done. cbn [foldr] in *. rewrite <- IH by done. unfold slen. rewrite length_app. cbn [length]. lia. }
  destruct (decide (es = [])) as [->|Hne]; [symmetry in Hp; by apply Permutation_nil in Hp as ->|].
  assert (es' ≠ []) as Hne' by (intros ->; by apply Permutation_nil in Hp).
  pose proof (Hsum es Hne) as H1. pose proof (Hsum es' Hne') as H2.
  assert (foldr (λ e z, slen e + 1 + z) 0 es' = foldr (λ e z, slen e + 1 + z) 0 es) as Hf.
  { clear -Hp. induction Hp; cbn [foldr]; lia. }
  lia.
Qed.

Lemma array_sort_mem now n s k :
  mem_inv (S n) s → view_ok (view s) → key_ok k → arr_of s k ≠ [] →
  leaves n s k (merge_sort cstring_le (arr_of s k)) tt (sdb_array_sort now (Some k) 0 s).
Proof.
  intros Hi Hvo Hk Hne. pose proof (arr_fits _ s k Hi Hvo) as Hf. unfold sdb_array_sort, sdb_get_len; run_m. rewrite (get_mem now _ s k Hi).
  destruct (arr_cases _ s k Hi) as [[Hw Ha]|(x & w & Hw & Hc & Ha & _)]; rewrite Hw; cbn [fst snd fmap option_fmap option_map]; [congruence|].
  rewrite cstr_app_nul by done. cbn [sdb_fmt_array default from_option id]. rewrite fmt_array_loop_spec, <- Ha by lia.
  pose proof (merge_sort_Permutation cstring_le (arr_of s k)) as Hp.
  apply leaves_after. apply set_leaves; [done|done|by eapply fits_perm|apply cas_ok_0|].
  apply write_joined_spec. unfold qsort_str. intros E. rewrite E in Hp. by apply Permutation_nil in Hp.
Qed.


(** ** Calls *)

Inductive arr_op :=
| AGet (idx : Z)
| AContains (v : bytes)
| AIndexof (v : bytes)
| ASize
| AInsert (idx : Z) (v : bytes)
| ASet (idx : Z) (v : bytes)
| AAdd (v : bytes)
| ADelete (idx : Z)
| ARemove (v : bytes)
| APush (v : bytes)
| APop
| ASort.

Inductive arr_res := RBool (b : bool) | RInt (z : Z) | RText (t : option bytes) | RDone.

Definition arr_step (now : Z) (k : bytes) (o : arr_op) : M arr_res :=
  match o with
  | AGet idx => r ← sdb_array_get now (Some k) idx; mret (RText r.1)
  | AContains v => r ← sdb_array_contains now (Some k) (Some v); mret (RBool r.1)
  | AIndexof v => r ← sdb_array_indexof now (Some k) v; mret (RInt r)
  | ASize => r ← sdb_array_size now (Some k); mret (RInt r)
  | AInsert idx v => r ← sdb_array_insert now (Some k) idx v 0; mret (RBool r)
  | ASet idx v => r ← sdb_array_set now (Some k) idx v 0; mret (RBool r)
  | AAdd v => r ← sdb_array_add now (Some k) v 0; mret (RBool r)
  | ADelete idx => r ← sdb_array_delete now (Some k) idx 0; mret (RBool r)
  | ARemove v => r ← sdb_array_remove now (Some k) v 0; mret (RBool r)
  | APush v => r ← sdb_array_push now (Some k) (Some v) 0; mret (RBool r)
  | APop => r ← sdb_array_pop now (Some k); mret (RText r.1)
  | ASort => _ ← sdb_array_sort now (Some k) 0; mret RDone
  end.

(** The result and the list afterwards, before [canon]. *)
Definition arr_spec (o : arr_op) (es : list bytes) : arr_res * list bytes :=
  match o with
  | AGet idx => (RText (lookupZ es (from_end idx es)), es)
  | AContains v => (RBool (bool_decide (v ∈ es)), es)
  | AIndexof v => (RInt (default (-1) (index_spec v es)), es)
  | ASize => (RInt (Z.of_nat (length es)), es)
  | AInsert idx v => (RBool true, insert_spec idx v es)
  | ASet idx v => (RBool true, set_spec idx v es)
  | AAdd v => if bool_decide (v ∈ es) then (RBool false, es) else (RBool true, insert_spec (-1) v es)
  | ADelete idx => match del_spec idx es with Some es' => (RBool true, es') | None => (RBool false, es) end
  | ARemove v => match index_spec v es with
                 | Some i => (RBool true, delete (Z.to_nat i) es)
                 | None => (RBool false, es) end
  | APush v => (RBool true, v :: es)
  | APop => match es with e :: es' => (RText (Some e), es') | [] => (RText None, []) end
  | ASort => (RDone, merge_sort cstring_le es)
  end.

(** The values searched for are array elements. *)
Definition arr_op_ok (o : arr_op) : Prop :=
  match o with AIndexof v | ARemove v => elem_ok v | _ => True end.

Lemma canon_arr n s k : mem_inv n s → canon (arr_of s k) = arr_of s k.
Proof.
  intros Hi. destruct (arr_cases n s k Hi) as [[_ ->]|(x & w & _ & _ & Ha & _)]; [done|].
  destruct (arr_of s k) as [|[|y e] [|]] eqn:E; try done. apply (f_equal join) in Ha. by rewrite join_elements in Ha.
Qed.

Lemma leaves_same {A} n s k (a : A) : mem_inv (S n) s → leaves n s k (arr_of s k) a (a, s).
Proof. intros Hi. split_and!; [done|by apply mem_inv_S|by erewrite canon_arr|by intros j]. Qed.

Lemma leaves_map {A B} (f : A → B) (m : M A) n s k es a :
  leaves n s k es a (m s) → leaves n s k es (f a) ((r ← m; mret (f r)) s).
Proof. unfold leaves; run_m. destruct (m s) as [r s']. by intros (<- & ?). Qed.

Lemma leaves_view_ok {A} n s k es (a : A) x : leaves n s k es a x → view_ok (view s) → fits_value es → view_ok (view x.2).
Proof.
  intros (_ & Hi & Ha & Ho) Hv [He Hl] j v Hj. destruct (decide (j = k)) as [->|Hne]; [|rewrite Ho in Hj by done; by apply (Hv j)].
  destruct (arr_cases _ _ k Hi) as [[? _]|(y & w & Hw & Hc & Hel & _)]; [congruence|]. rewrite Hw in Hj. injection Hj as <-.
  split; [done|]. rewrite <- (join_elements (y :: w)), <- Hel, Ha. by destruct es as [|[] [|]].
Qed.

Lemma arr_step_leaves now n s k o :
  mem_inv (S n) s → view_ok (view s) → key_ok k → arr_op_ok o → fits_value (arr_spec o (arr_of s k)).2 →
  leaves n s k (arr_spec o (arr_of s k)).2 (arr_spec o (arr_of s k)).1 (arr_step now k o s).
Proof.
  intros Hi Hvo Hk Ho Hf. destruct o as [idx|v|v| |idx v|idx v|v|idx|v|v| |]; cbn [arr_spec arr_step fst snd arr_op_ok] in *.
  - destruct (array_get_mem now _ s k idx Hi) as [c E]. run_m. rewrite E. cbn [fst]. by apply leaves_same.
  - destruct (array_contains_mem now _ s k v Hi) as [c E]. run_m. rewrite E. cbn [fst]. by apply leaves_same.
  - run_m. rewrite (array_indexof_mem now _ s k v Hi Ho). by apply leaves_same.
  - unfold sdb_array_size; run_m. rewrite (const_str_mem now _ s k Hi). cbn [fst].
    destruct (arr_cases _ s k Hi) as [[-> Ha]|(x & w & -> & _ & _ & -> & _)]; [|by apply leaves_same].
    pose proof (leaves_same n s k (RInt 0) Hi) as Hs. by rewrite Ha in *.
  - by apply leaves_map, array_insert_mem.
  - by apply leaves_map, array_set_mem.
  - unfold sdb_array_add. destruct (array_contains_mem now _ s k v Hi) as [c E].
    destruct (bool_decide _) eqn:Ev; cbn [fst snd] in *.
    + run_m. rewrite E. cbn [fst]. by apply leaves_same.
    + apply leaves_map. run_m. rewrite E. cbn [fst]. by apply array_insert_mem.
  - pose proof (array_delete_mem now n s k idx Hi Hvo Hk) as Hd. destruct (del_spec _ _); cbn [fst snd].
    + by apply (leaves_map RBool).
    + run_m. rewrite Hd. by apply leaves_same.
  - pose proof (array_remove_mem now n s k v Hi Hvo Hk Ho) as Hd. destruct (index_spec _ _); cbn [fst snd].
    + by apply (leaves_map RBool).
    + run_m. rewrite Hd. by apply leaves_same.
  - by apply leaves_map, array_push_mem.
  - pose proof (array_pop_mem now n s k Hi Hvo Hk) as Hd. pose proof (leaves_same n s k (RText None) Hi) as Hs.
    destruct (arr_of s k) as [|e es]; cbn [fst snd].
    + run_m. by rewrite Hd.
    + destruct Hd as [c Hd]. by apply (leaves_map (λ r, RText r.1) (sdb_array_pop now (Some k)) n s k es (Some e, c)).
  - destruct (decide (arr_of s k = [])) as [E|Hne].
    + pose proof (leaves_same n s k RDone Hi) as Hs. rewrite E in *. change (merge_sort cstring_le []) with (@nil bytes).
      unfold sdb_array_sort, sdb_get_len; run_m. rewrite (get_mem now _ s k Hi).
      destruct (arr_cases _ s k Hi) as [[-> _]|(x & w & _ & _ & Ha & _)]; [done|].
      rewrite E in Ha. symmetry in Ha. by apply elements_nonnil in Ha.
    + apply (leaves_map (λ _, RDone) (sdb_array_sort now (Some k) 0) n s k _ tt). by apply array_sort_mem.
Qed.

(** * Properties *)

(** C6: an array value behaves as a list of its elements. On a database in memory without
    expirations, whose values are within the size of a value, for a key within the size of a key,
    these calls: [sdb_array_get], [sdb_array_contains], [sdb_array_indexof] and [sdb_array_remove]
    (of a value without a comma), [sdb_array_size], [sdb_array_insert], [sdb_array_set],
    [sdb_array_add], [sdb_array_delete], [sdb_array_push], [sdb_array_pop] and [sdb_array_sort],
    each answers as the corresponding operation on the list of elements and leaves the value of the
    changed list, provided that the elements of that list have no commas and its text fits a value;
    other keys keep their values and the conditions for the next call hold again. Indices count from
    the end when negative, setting past the end pads with empty elements, and the list of one empty
    element is no value. The other calls ([sdb_array_pop_tail], the sorted and numeric variants and
    the rest) are not part of the claim; [sdb_array_pop_tail_single] shows one that differs. *)
Theorem sdb_array_refines_list now n s k o :
  mem_inv (S n) s → view_ok (view s) → key_ok k → arr_op_ok o →
  let '(r, es) := arr_spec o (arr_of s k) in fits_value es →
  let '(r', s') := arr_step now k o s in
  r' = r ∧ arr_of s' k = canon es ∧ (∀ j, j ≠ k → view s' !! j = view s !! j)
  ∧ mem_inv n s' ∧ view_ok (view s').
Proof.
  intros Hi Hvo Hk Ho. pose proof (arr_step_leaves now n s k o Hi Hvo Hk Ho) as Hs.
  destruct (arr_spec o (arr_of s k)) as [r es]. intros Hf. specialize (Hs Hf). cbn [fst snd] in Hs.
  pose proof (leaves_view_ok _ _ _ _ _ _ Hs Hvo Hf) as Hv. destruct (arr_step now k o s) as [r' s'].
  destruct Hs as (? & ? & ? & ?). by split_and!.
Qed.

Lemma sdb_array_refines_list_witness :
  ∃ s, mem_inv 1 s ∧ view_ok (view s) ∧ arr_of s (str "l") = [str "b"; str "a"] ∧
  let '(r', s') := arr_step 0 (str "l") (AInsert 1 (str "x")) s in
  r' = RBool true ∧ arr_of s' (str "l") = canon [str "b"; str "x"; str "a"]
  ∧ (∀ j, j ≠ str "l" → view s' !! j = view s !! j) ∧ mem_inv 0 s' ∧ view_ok (view s').
Proof.
  destruct (mem_with 1 (str "l") (str "b,a")) as (s & Hi & Hv & Hvo); [done|done|split; [by repeat constructor|done]|done|].
  exists s. split; [exact Hi|]. split; [exact Hvo|]. assert (arr_of s (str "l") = [str "b"; str "a"]) as Ha by (unfold arr_of; by rewrite Hv).
  split; [exact Ha|]. pose proof (sdb_array_refines_list 0 0 s (str "l") (AInsert 1 (str "x")) Hi Hvo eq_refl I) as H.
  rewrite Ha in H. apply H. split; [|done]. by apply (bool_decide_unpack (Forall elem_ok _)).
Defined.

(** [sdb_array_sort] sorts: it leaves a permutation of the elements that is ordered
    by [astrcmp], the comparison of the code (signed characters, up to the separator). *)
Theorem sdb_array_sort_sorts now n s k :
  mem_inv (S n) s → view_ok (view s) → key_ok k → (1 < length (arr_of s k))%nat →
  let '(_, s') := sdb_array_sort now (Some k) 0 s in
  Sorted (λ a b, astrcmp a b <= 0) (arr_of s' k) ∧ arr_of s' k ≡ₚ arr_of s k.
Proof.
  intros Hi Hvo Hk Hl. assert (arr_of s k ≠ []) as Hne by (intros E; rewrite E in Hl; cbn in Hl; lia).
  pose proof (array_sort_mem now n s k Hi Hvo Hk Hne) as Hs. destruct (sdb_array_sort _ _ _ s) as [r s'].
  destruct Hs as (_ & _ & Ha & _). cbn [snd] in Ha. pose proof (merge_sort_Permutation cstring_le (arr_of s k)) as Hp.
  assert (canon (merge_sort cstring_le (arr_of s k)) = merge_sort cstring_le (arr_of s k)) as Hc.
  { apply Permutation_length in Hp. by destruct (merge_sort _ _) as [|[] [|]]; cbn in Hp |- *; try lia. }
  rewrite Ha, Hc. split; [|done]. apply (Sorted_merge_sort cstring_le).
Qed.

Lemma sdb_array_sort_sorts_witness :
  ∃ s, mem_inv 1 s ∧ arr_of s (str "l") = [str "b"; str "a"] ∧
  let '(_, s') := sdb_array_sort 0 (Some (str "l")) 0 s in
  Sorted (λ a b, astrcmp a b <= 0) (arr_of s' (str "l")) ∧ arr_of s' (str "l") ≡ₚ arr_of s (str "l").
Proof.
  destruct (mem_with 1 (str "l") (str "b,a")) as (s & Hi & Hv & Hvo); [done|done|split; [by repeat constructor|done]|done|].
  exists s. split; [exact Hi|]. assert (arr_of s (str "l") = [str "b"; str "a"]) as Ha by (unfold arr_of; by rewrite Hv).
  split; [exact Ha|]. apply (sdb_array_sort_sorts 0 0 s (str "l")); [exact Hi|exact Hvo|done|rewrite Ha; cbn; lia].
Defined.

(** [sdb_array_pop_tail] of an array of one element reads memory it has given up:
    the string is stored back unchanged, which frees it, and then copied; the element
    is not removed. *)
Theorem sdb_array_pop_tail_single now n s k e :
  mem_inv (S n) s → view_ok (view s) → key_ok k → arr_of s k = [e] →
  let '(r, s') := sdb_array_pop_tail now (Some k) s in r = None ∧ arr_of s' k = [e].
Proof.
  intros Hi Hvo Hk Ha. pose proof (arr_fits _ s k Hi Hvo) as Hf. unfold sdb_array_pop_tail; run_m. rewrite (sdb_get_mem now _ s k Hi).
  destruct (arr_cases _ s k Hi) as [[_ Ha']|(x & w & Hw & Hc & Ha' & _)]; [congruence|]. rewrite Hw; cbn [fst snd].
  assert (e = x :: w) as -> by (apply (f_equal join) in Ha'; rewrite join_elements, Ha in Ha'; done).
  assert (SDB_RS ∉ x :: w) as Hn.
  { pose proof (arr_of_ok _ s k Hi) as HF. rewrite Ha in HF. apply Forall_cons in HF as [[_ ?] _]. done. }
  assert (∀ i, (byte_at (x :: w) i =? SDB_RS) = false) as Hb.
  { intros i. apply Z.eqb_neq. unfold byte_at. destruct ((x :: w) !! i) as [b|] eqn:E; [|done]. cbn [default from_option id].
    intros ->. by apply Hn, (list_elem_of_lookup_2 _ i). }
  rewrite Hb. assert (owned_freed s (Some k) (x :: w) 0 = true) as ->.
  { unfold owned_freed. case_if; [done|]. rewrite (sdb_ht_find_kvp_spec (S n)) by apply Hi.
    rewrite view_lookup in Hw. destruct (to_map (ht s) !! k) as [kv|] eqn:Em; [|done]. cbn in Hw. unfold live in Hw.
    pose proof (mi_entries _ _ _ Hi _ _ Em) as (Hvl & _). destruct kv as [k0 [v0|] kl0 vl0 e0]; [|done]. cbn in Hw, Hvl.
    destruct v0 as [|y v0]; [done|]. injection Hw as -> ->. cbn [Ht.value].
    assert ((cdb_findnext (cdb_findstart (db s)) (sdb_hash k) k (slen k)).1 = -1) as ->.
    { unfold cdb_findnext. cbn [cdb_findstart cfd]. by rewrite (proj1 (proj2 (mi_disk _ _ _ Hi))). }
    change (negb (-1 =? 0)) with true. cbv iota. apply orb_true_iff. right.
    pose proof (value_same (mkKv k0 (Some (x :: w)) kl0 vl0 e0) (x :: w) (x :: w) Hvl) as Hs. cbn [value_len] in Hs. rewrite Hs.
    by apply bool_decide_true. }
  rewrite Ha in Hf. pose proof (set_leaves now n s k [x :: w] (x :: w) true 0 Hi Hk Hf (cas_ok_0 s k) eq_refl) as Hs.
  fold (sdb_set_owned now (Some k) (Some (x :: w)) 0) in Hs. destruct (sdb_set_owned _ _ _ _ s) as [r s'].
  destruct Hs as (_ & _ & Hs & _). by split.
Qed.

Lemma sdb_array_pop_tail_single_witness :
  ∃ s, mem_inv 1 s ∧ arr_of s (str "l") = [str "b"] ∧
  let '(r, s') := sdb_array_pop_tail 0 (Some (str "l")) s in r = None ∧ arr_of s' (str "l") = [str "b"].
Proof.
  destruct (mem_with 1 (str "l") (str "b")) as (s & Hi & Hv & Hvo); [done|done|split; [by repeat constructor|done]|done|].
  exists s. split; [exact Hi|]. assert (arr_of s (str "l") = [str "b"]) as Ha by (unfold arr_of; by rewrite Hv).
  split; [exact Ha|]. apply (sdb_array_pop_tail_single 0 0 s (str "l") (str "b")); [exact Hi|exact Hvo|done|exact Ha].
Defined.
