(* ===== verification/Dict.v ===== *)
(** * The integer dictionary ([src/dict.c])

    A fixed number of buckets; each is an array of entries that ends at the first
    entry of key 0.  The memory of a bucket is the whole allocated array, the cells
    behind the terminator included, and an access outside it is [None]: that the
    operations return [Some] shows that their pointer walks stay inside. *)

From S2P Require Import Prelude Util.

Record dictkv := mkDictkv { dk : Z; dv : Z; du : Z }.

(** [dfreed] records the arguments of the free callback, [df] whether there is one;
    pointers are numbers, 0 is NULL. *)
Record dict := mkDict {
  dtable : list (option (list dictkv));
  df : bool;
  dsize : Z;
  dfreed : list Z
}.

Definition zero_kv : dictkv := mkDictkv 0 0 0.
Definition dict_zeroed (freed : list Z) : dict := mkDict [] false 0 freed.

(** [calloc_ok] says whether the table is obtained.  The memory was zeroed, so on
    failure the dictionary is empty and has no size. *)
Definition dict_init (calloc_ok : bool) (m : dict) (size : Z) (f : bool) : bool * dict :=
  if 0 <? size then
    if calloc_ok then (true, mkDict (replicate (Z.to_nat size) None) f size (dfreed m))
    else (false, dict_zeroed (dfreed m))
  else (true, mkDict [] f 0 (dfreed m)).

Definition dict_new (calloc1_ok calloc2_ok : bool) (size : Z) (f : bool) : option dict :=
  if negb calloc1_ok then None
  else
    let '(r, m) := dict_init calloc2_ok (dict_zeroed []) (Z.max size 1) f in
    if r then Some m else None.

Definition dict_bucket (m : dict) (k : Z) : Z := if 0 <? dsize m then u32 (k mod dsize m) else 0.

(** [m->table[bucket]]: the outer [None] is an access outside the table. *)
Definition table_at (m : dict) (b : Z) : option (option (list dictkv)) :=
  if b <? 0 then None else dtable m !! Z.to_nat b.

Definition set_bucket (m : dict) (b : Z) (mem : option (list dictkv)) : dict :=
  mkDict (<[Z.to_nat b := mem]> (dtable m)) (df m) (dsize m) (dfreed m).

(** The walk over a bucket: the index of the entry of the key, or of the terminator. *)
Fixpoint dict_walk (mem : list dictkv) (k : Z) (i : nat) : option (nat * bool) :=
  match mem with
  | [] => None
  | kv :: mem' =>
      if dk kv =? 0 then Some (i, false)
      else if dk kv =? k then Some (i, true)
      else dict_walk mem' k (S i)
  end.

Definition dict_hash (s : bytes) : Z := sdb_hash s.

(** The part of [dict_set] for a bucket that has memory. *)
Definition dict_set_in (realloc_ok : bool) (m : dict) (b : Z) (mem : list dictkv) (k v u : Z) : option (bool * dict) :=
  r ← dict_walk mem k 0;
  match r with
  | (i, true) => Some (true, set_bucket m b (Some (<[i := mkDictkv k v u]> mem)))
  | (curln, false) =>
      if realloc_ok then Some (true, set_bucket m b (Some (take curln mem ++ [mkDictkv k v u; zero_kv])))
      else Some (false, m)
  end.

Definition dict_set (calloc_ok realloc_ok : bool) (m : dict) (k v u : Z) : option (bool * dict) :=
  if (dsize m =? 0) || (k =? 0) then Some (false, m)
  else
    let b := s32 (dict_bucket m k) in
    bk ← table_at m b;
    match bk with
    | Some mem => dict_set_in realloc_ok m b mem k v u
    | None =>
        if calloc_ok then dict_set_in realloc_ok (set_bucket m b (Some [zero_kv; zero_kv])) b [zero_kv; zero_kv] k v u
        else Some (false, m)
    end.

Definition dict_stats (m : dict) (nb : Z) : option Z :=
  if s32 nb <? 0 then Some (u32 (dsize m - 1))
  else if nb <? dsize m then
    bk ← table_at m nb;
    match bk with
    | Some mem => r ← dict_walk mem 0 0; Some (Z.of_nat r.1)
    | None => Some 0
    end
  else Some 0.

(** The outer [None] is an access outside memory, the inner one NULL. *)
Definition dict_getr (m : dict) (k : Z) : option (option dictkv) :=
  if dsize m =? 0 then Some None
  else
    bk ← table_at m (s32 (dict_bucket m k));
    match bk with
    | Some mem =>
        r ← dict_walk mem k 0;
        Some (if (r.2 : bool) then mem !! r.1 else None)
    | None => Some None
    end.

Definition dict_get (m : dict) (k : Z) : option Z :=
  r ← dict_getr m k; Some (match r with Some kv => dv kv | None => 0 end).

Definition dict_getu (m : dict) (k : Z) : option Z :=
  r ← dict_getr m k; Some (match r with Some kv => du kv | None => 0 end).

Definition dict_add (calloc_ok realloc_ok : bool) (m : dict) (k v u : Z) : option (bool * dict) :=
  r ← dict_getr m k;
  match r with
  | Some _ => Some (false, m)
  | None => dict_set calloc_ok realloc_ok m k v u
  end.

(** Moving the following entries down over the entry at the head; only the key of the
    new terminator is written. *)
Fixpoint del_shift (kv : dictkv) (rest : list dictkv) : option (list dictkv) :=
  match rest with
  | [] => None
  | n :: rest' =>
      if dk n =? 0 then Some (mkDictkv 0 (dv kv) (du kv) :: rest)
      else r ← del_shift n rest'; Some (n :: r)
  end.

Definition dict_del (m : dict) (k : Z) : option (bool * dict) :=
  if k =? 0 then Some (false, m)
  else
    let b := s32 (dict_bucket m k) in
    bk ← table_at m b;
    match bk with
    | None => Some (false, m)
    | Some mem =>
        r ← dict_walk mem k 0;
        match r with
        | (_, false) => Some (false, m)
        | (i, true) =>
            kv ← mem !! i;
            l ← del_shift kv (drop (S i) mem);
            let m := if df m then mkDict (dtable m) (df m) (dsize m) (dfreed m ++ [du kv]) else m in
            Some (true, set_bucket m b (Some (take i mem ++ l)))
        end
    end.

(** Walking a bucket up to its terminator. *)
Fixpoint bucket_each {U} (cb : U → dictkv → bool * U) (mem : list dictkv) (u : U) : option (bool * U) :=
  match mem with
  | [] => None
  | kv :: mem' =>
      if dk kv =? 0 then Some (true, u)
      else match cb u kv with (false, u) => bucket_each cb mem' u | (true, u) => Some (false, u) end
  end.

(** The callback's [true] stands for a result other than 0, which stops the walk. *)
Fixpoint dict_each {U} (cb : U → dictkv → bool * U) (t : list (option (list dictkv))) (u : U) : option U :=
  match t with
  | [] => Some u
  | None :: t' => dict_each cb t' u
  | Some mem :: t' =>
      r ← bucket_each cb mem u;
      if (r.1 : bool) then dict_each cb t' r.2 else Some r.2
  end.

Definition dict_foreach {U} (m : dict) (cb : U → dictkv → bool * U) (u : U) : option U :=
  dict_each cb (take (Z.to_nat (dsize m)) (dtable m)) u.

Definition dict_fini (m : dict) : option dict :=
  freed ← (if df m then dict_foreach m (λ l kv, (false, l ++ [du kv])) (dfreed m) else Some (dfreed m));
  Some (dict_init true (mkDict (dtable m) (df m) (dsize m) freed) 0 false).2.

(** ** Specification: a finite map from non-zero keys *)

Inductive dict_op :=
| DSet (k v u : Z)
| DAdd (k v u : Z)
| DGet (k : Z)
| DGetu (k : Z)
| DDel (k : Z).

Inductive dict_res := RBool (b : bool) | RNum (n : Z).

Definition dict_step (m : dict) (o : dict_op) : option (dict_res * dict) :=
  match o with
  | DSet k v u => r ← dict_set true true m k v u; Some (RBool r.1, r.2)
  | DAdd k v u => r ← dict_add true true m k v u; Some (RBool r.1, r.2)
  | DGet k => r ← dict_get m k; Some (RNum r, m)
  | DGetu k => r ← dict_getu m k; Some (RNum r, m)
  | DDel k => r ← dict_del m k; Some (RBool r.1, r.2)
  end.

Fixpoint dict_run (m : dict) (ops : list dict_op) : option (list dict_res * dict) :=
  match ops with
  | [] => Some ([], m)
  | o :: ops' => r ← dict_step m o; q ← dict_run r.2 ops'; Some (r.1 :: q.1, q.2)
  end.

(** The state of the specification: the map and the pointers given back so far. *)
Abbreviation dmodel := (gmap Z (Z * Z) * list Z)%type.

Definition dspec (s : dmodel) (o : dict_op) : dict_res * dmodel :=
  match o with
  | DSet k v u => if k =? 0 then (RBool false, s) else (RBool true, (<[k := (v, u)]> s.1, s.2))
  | DAdd k v u =>
      if (k =? 0) || bool_decide (is_Some (s.1 !! k)) then (RBool false, s)
      else (RBool true, (<[k := (v, u)]> s.1, s.2))
  | DGet k => (RNum (default 0 (fst <$> s.1 !! k)), s)
  | DGetu k => (RNum (default 0 (snd <$> s.1 !! k)), s)
  | DDel k =>
      match s.1 !! k with
      | Some x => (RBool true, (delete k s.1, s.2 ++ [x.2]))
      | None => (RBool false, s)
      end
  end.

Fixpoint dspec_run (s : dmodel) (ops : list dict_op) : list dict_res * dmodel :=
  match ops with
  | [] => ([], s)
  | o :: ops' => let '(r, s) := dspec s o in let '(rs, s) := dspec_run s ops' in (r :: rs, s)
  end.

Definition op_key (o : dict_op) : Z :=
  match o with DSet k _ _ | DAdd k _ _ | DGet k | DGetu k | DDel k => k end.

(** ** The invariant *)

(** The entries of a bucket: the cells before the terminator. *)
Fixpoint ents (mem : list dictkv) : list dictkv :=
  match mem with
  | [] => []
  | kv :: mem' => if dk kv =? 0 then [] else kv :: ents mem'
  end.

Definition bents (b : option (list dictkv)) : list dictkv := from_option ents [] b.
Definition all_ents (m : dict) : list dictkv := mjoin (bents <$> dtable m).

Definition bucket_ok (sz : Z) (i : nat) (b : option (list dictkv)) : Prop :=
  match b with
  | None => True
  | Some mem => (length (ents mem) < length mem)%nat ∧ Forall (λ e, dk e mod sz = Z.of_nat i) (ents mem)
  end.

Record dict_wf (m : dict) : Prop := {
  dwf_size : dsize m = Z.of_nat (length (dtable m));
  dwf_pos : 0 < dsize m < 2 ^ 31;
  dwf_bucket : ∀ i b, dtable m !! i = Some b → bucket_ok (dsize m) i b;
  dwf_nodup : NoDup (dk <$> all_ents m)
}.

Definition kv_pair (e : dictkv) : Z * (Z * Z) := (dk e, (dv e, du e)).
Definition dmap (m : dict) : gmap Z (Z * Z) := list_to_map (kv_pair <$> all_ents m).

(** ** Walks *)

Lemma ents_split mem :
  (length (ents mem) < length mem)%nat →
  ∃ z junk, mem = ents mem ++ z :: junk ∧ dk z = 0 ∧ Forall (λ e, dk e ≠ 0) (ents mem).
Proof.
  induction mem as [|e mem IH]; cbn; [lia|]. destruct (Z.eqb_spec (dk e) 0) as [E|E]; cbn; intros Hl.
  - exists e, mem. done.
  - destruct IH as (z & junk & Hm & Hz & Hf); [lia|]. exists z, junk. split_and!; [by f_equal|done|by constructor].
Qed.

Lemma ents_app es z junk : Forall (λ e, dk e ≠ 0) es → dk z = 0 → ents (es ++ z :: junk) = es.
Proof.
  induction 1 as [|e es He _ IH]; cbn; intros Hz; [by rewrite Hz|].
  destruct (Z.eqb_spec (dk e) 0); [done|]. by rewrite IH.
Qed.

Lemma dict_walk_spec es z junk k i :
  Forall (λ e, dk e ≠ 0) es → dk z = 0 → k ≠ 0 →
  (∃ es1 e es2, es = es1 ++ e :: es2 ∧ dk e = k ∧ dict_walk (es ++ z :: junk) k i = Some ((i + length es1)%nat, true))
  ∨ (k ∉ dk <$> es ∧ dict_walk (es ++ z :: junk) k i = Some ((i + length es)%nat, false)).
Proof.
  intros Hf Hz Hk. revert i. induction Hf as [|e es He _ IH]; intros i.
  - right. cbn. rewrite Hz, Nat.add_0_r. split; [by apply not_elem_of_nil|done].
  - cbn. destruct (Z.eqb_spec (dk e) 0) as [|_]; [done|]. destruct (Z.eqb_spec (dk e) k) as [E|E].
    + left. exists [], e, es. rewrite Nat.add_0_r. done.
    + destruct (IH (S i)) as [(es1 & e' & es2 & -> & Hk' & ->)|[Hn ->]].
      * left. exists (e :: es1), e', es2. split_and!; [done|done|]. cbn. do 2 f_equal. lia.
      * right. split; [|cbn; do 2 f_equal; lia]. rewrite not_elem_of_cons. done.
Qed.

Lemma del_shift_spec kv es z junk :
  Forall (λ e, dk e ≠ 0) es → dk z = 0 →
  ∃ z' junk', del_shift kv (es ++ z :: junk) = Some (es ++ z' :: junk') ∧ dk z' = 0.
Proof.
  intros Hf Hz. revert kv. induction Hf as [|e es He _ IH]; intros kv; cbn.
  - rewrite Hz. cbn. eexists (mkDictkv 0 _ _), _. done.
  - destruct (Z.eqb_spec (dk e) 0) as [|_]; [done|]. destruct (IH e) as (z' & j' & -> & ?). cbn. eauto.
Qed.

(** ** The bucket of a key *)

Lemma s32_small z : 0 <= z < 2 ^ 31 → s32 z = z.
Proof. intros. unfold s32. rewrite Z.mod_small by lia. lia. Qed.

Lemma bucket_of m k :
  dict_wf m → ∃ t1 b t2, dtable m = t1 ++ b :: t2 ∧ Z.of_nat (length t1) = k mod dsize m
    ∧ s32 (dict_bucket m k) = Z.of_nat (length t1) ∧ table_at m (s32 (dict_bucket m k)) = Some b
    ∧ bucket_ok (dsize m) (length t1) b
    ∧ all_ents m = mjoin (bents <$> t1) ++ bents b ++ mjoin (bents <$> t2)
    ∧ (k ∉ dk <$> bents b → k ∉ dk <$> all_ents m).
Proof.
  intros Hw. pose proof (dwf_pos _ Hw) as Hp. pose proof (dwf_size _ Hw) as Hs.
  pose proof (Z.mod_pos_bound k (dsize m) ltac:(lia)) as Hb.
  destruct (lookup_lt_is_Some_2 (dtable m) (Z.to_nat (k mod dsize m))) as [b E]; [lia|].
  pose proof (dwf_bucket _ Hw _ _ E) as Hbo.
  destruct (list_elem_of_split_length _ _ _ E) as (t1 & t2 & Ht & Hl).
  assert (s32 (dict_bucket m k) = Z.of_nat (length t1)) as Hs32.
  { unfold dict_bucket. destruct (Z.ltb_spec 0 (dsize m)); [|lia]. rewrite u32_small by (unfold is_u32; lia).
    rewrite s32_small by lia. lia. }
  assert (all_ents m = mjoin (bents <$> t1) ++ bents b ++ mjoin (bents <$> t2)) as Ha
    by (unfold all_ents; rewrite Ht, fmap_app, join_app; done).
  exists t1, b, t2. split_and!; [done|lia|done| |by rewrite <- Hl|done|].
  - rewrite Hs32. unfold table_at. destruct (Z.ltb_spec (Z.of_nat (length t1)) 0); [lia|]. by rewrite Nat2Z.id, <- Hl.
  - intros Hn Hin. apply list_elem_of_fmap in Hin as (e & -> & He). unfold all_ents in He.
    apply list_elem_of_join in He as (l & He & Hin). apply list_elem_of_fmap in Hin as (b' & -> & Hin).
    apply list_elem_of_lookup in Hin as [j Hj]. pose proof (dwf_bucket _ Hw _ _ Hj) as Hbj.
    destruct b' as [mem|]; [|by apply not_elem_of_nil in He]. destruct Hbj as [_ Hf].
    rewrite Forall_forall in Hf. specialize (Hf _ He).
    assert (j = Z.to_nat (dk e mod dsize m)) as -> by lia. rewrite E in Hj. injection Hj as ->.
    apply Hn, list_elem_of_fmap. eauto.
Qed.

Lemma set_bucket_table m t1 b t2 b' :
  dtable m = t1 ++ b :: t2 →
  dtable (set_bucket m (Z.of_nat (length t1)) b') = t1 ++ b' :: t2
  ∧ all_ents (set_bucket m (Z.of_nat (length t1)) b') = mjoin (bents <$> t1) ++ bents b' ++ mjoin (bents <$> t2).
Proof.
  intros Ht. assert (dtable (set_bucket m (Z.of_nat (length t1)) b') = t1 ++ b' :: t2) as E.
  { unfold set_bucket. cbn. by rewrite Nat2Z.id, Ht, insert_app_r_alt, Nat.sub_diag by lia. }
  split; [done|]. unfold all_ents. by rewrite E, fmap_app, join_app.
Qed.

Lemma set_bucket_wf m t1 b t2 b' :
  dict_wf m → dtable m = t1 ++ b :: t2 → bucket_ok (dsize m) (length t1) b' →
  NoDup (dk <$> mjoin (bents <$> t1) ++ bents b' ++ mjoin (bents <$> t2)) →
  dict_wf (set_bucket m (Z.of_nat (length t1)) b').
Proof.
  intros Hw Ht Hb Hn. destruct (set_bucket_table m t1 b t2 b' Ht) as [Et Ea]. constructor; cbn [dsize set_bucket].
  - change (mkDict _ _ _ _) with (set_bucket m (Z.of_nat (length t1)) b'). rewrite Et.
    rewrite (dwf_size _ Hw), Ht, !length_app. done.
  - apply Hw.
  - change (mkDict _ _ _ _) with (set_bucket m (Z.of_nat (length t1)) b'). rewrite Et. intros i c Hi.
    destruct (decide (i = length t1)) as [->|Hne].
    + rewrite list_lookup_middle in Hi by done. by injection Hi as <-.
    + apply (dwf_bucket _ Hw). rewrite Ht. rewrite <- Hi.
      destruct (decide (i < length t1)%nat); [by rewrite !lookup_app_l by lia|].
      rewrite !lookup_app_r by lia. by destruct (i - length t1)%nat eqn:E; [lia|].
  - change (mkDict _ _ _ _) with (set_bucket m (Z.of_nat (length t1)) b'). by rewrite Ea.
Qed.

(** The map of a list of entries, up to order. *)
Lemma dmap_cons (l : list dictkv) e rest :
  NoDup (dk <$> l) → l ≡ₚ e :: rest →
  (list_to_map (kv_pair <$> l) : gmap Z (Z * Z)) = <[dk e := (dv e, du e)]> (list_to_map (kv_pair <$> rest)).
Proof.
  intros Hn Hp. rewrite (list_to_map_proper (kv_pair <$> l) (kv_pair <$> (e :: rest))).
  - done.
  - rewrite <- list_fmap_compose. exact Hn.
  - by rewrite Hp.
Qed.

Lemma dmap_not_in (l : list dictkv) k : k ∉ dk <$> l → (list_to_map (kv_pair <$> l) : gmap Z (Z * Z)) !! k = None.
Proof. intros Hn. apply not_elem_of_list_to_map_1. by rewrite <- list_fmap_compose. Qed.

Lemma NoDup_cons_rest (l : list dictkv) e rest : NoDup (dk <$> l) → l ≡ₚ e :: rest → dk e ∉ dk <$> rest ∧ NoDup (dk <$> rest).
Proof. intros Hn Hp. rewrite Hp in Hn. cbn in Hn. by apply NoDup_cons in Hn. Qed.

(** What the walk for a key finds in its bucket, with the memory split accordingly. *)
Lemma walk_bucket m k mem t1 t2 :
  dict_wf m → k ≠ 0 → dtable m = t1 ++ Some mem :: t2 → bucket_ok (dsize m) (length t1) (Some mem) →
  (∃ es1 e es2 z junk, mem = es1 ++ e :: es2 ++ z :: junk ∧ ents mem = es1 ++ e :: es2 ∧ dk e = k ∧ dk z = 0
     ∧ Forall (λ e, dk e ≠ 0) (es1 ++ e :: es2) ∧ dict_walk mem k 0 = Some (length es1, true))
  ∨ (∃ z junk, mem = ents mem ++ z :: junk ∧ k ∉ dk <$> ents mem ∧ Forall (λ e, dk e ≠ 0) (ents mem)
     ∧ dict_walk mem k 0 = Some (length (ents mem), false)).
Proof.
  intros Hw Hk Ht [Hl Hm]. destruct (ents_split mem Hl) as (z & junk & E & Hz & Hf).
  destruct (dict_walk_spec (ents mem) z junk k 0 Hf Hz Hk) as [(es1 & e & es2 & Ee & Hke & Hwk)|[Hn Hwk]]; rewrite <- E in Hwk.
  - left. exists es1, e, es2, z, junk. rewrite <- Ee. split_and!; try done. rewrite E at 1. rewrite Ee. by rewrite <- app_assoc.
  - right. exists z, junk. done.
Qed.

Lemma getr_spec m k :
  dict_wf m → k ≠ 0 →
  ∃ r, dict_getr m k = Some r ∧ (λ kv, (dv kv, du kv)) <$> r = dmap m !! k.
Proof.
  intros Hw Hk. unfold dict_getr. pose proof (dwf_pos _ Hw). destruct (Z.eqb_spec (dsize m) 0); [lia|].
  destruct (bucket_of m k Hw) as (t1 & b & t2 & Ht & _ & _ & -> & Hb & Ha & Hn). cbn.
  destruct b as [mem|]; [|eexists; split; [done|]; unfold dmap; rewrite dmap_not_in; [done|apply Hn, not_elem_of_nil]].
  destruct (walk_bucket m k mem t1 t2 Hw Hk Ht Hb) as [(es1 & e & es2 & z & junk & Em & Ee & <- & _ & _ & ->)|(z & junk & _ & Hni & _ & ->)]; cbn.
  - eexists. split; [done|]. rewrite Em at 1. rewrite list_lookup_middle by done. unfold dmap.
    cbn [bents from_option] in Ha. rewrite Ee in Ha.
    rewrite (dmap_cons _ e (mjoin (bents <$> t1) ++ (es1 ++ es2) ++ mjoin (bents <$> t2)) (dwf_nodup _ Hw)).
    + by rewrite lookup_insert_eq.
    + rewrite Ha. solve_Permutation.
  - eexists. split; [done|]. unfold dmap. by rewrite dmap_not_in by auto.
Qed.

(** Writing a bucket: new entries [es'] of the same bucket that keep all keys distinct. *)
Lemma rebucket m t1 b t2 es' z junk :
  dict_wf m → dtable m = t1 ++ b :: t2 → dk z = 0 →
  Forall (λ e, dk e ≠ 0 ∧ dk e mod dsize m = Z.of_nat (length t1)) es' →
  NoDup (dk <$> mjoin (bents <$> t1) ++ es' ++ mjoin (bents <$> t2)) →
  let m' := set_bucket m (Z.of_nat (length t1)) (Some (es' ++ z :: junk)) in
  dict_wf m' ∧ all_ents m' = mjoin (bents <$> t1) ++ es' ++ mjoin (bents <$> t2).
Proof.
  intros Hw Ht Hz Hf Hn m'. apply Forall_and in Hf as [Hf Hm]. pose proof (ents_app es' z junk Hf Hz) as Ee.
  destruct (set_bucket_table m t1 b t2 (Some (es' ++ z :: junk)) Ht) as [_ Ha]. cbn [bents from_option] in Ha.
  rewrite Ee in Ha. split; [|exact Ha].
  apply (set_bucket_wf m t1 b t2); [done|done| |cbn [bents from_option]; by rewrite Ee].
  split; rewrite Ee; [rewrite length_app; cbn; lia|exact Hm].
Qed.

Lemma all_ents_split m t1 mem t2 :
  dtable m = t1 ++ Some mem :: t2 → all_ents m = mjoin (bents <$> t1) ++ ents mem ++ mjoin (bents <$> t2).
Proof. intros Ht. unfold all_ents. by rewrite Ht, fmap_app, join_app. Qed.

(** The entries of a bucket, as one property of each. *)
Lemma bucket_forall sz i mem :
  bucket_ok sz i (Some mem) → Forall (λ e, dk e ≠ 0 ∧ dk e mod sz = Z.of_nat i) (ents mem).
Proof. intros [Hl Hm]. destruct (ents_split mem Hl) as (_ & _ & _ & _ & Hf). by apply Forall_and. Qed.

Lemma set_in_found m k v u t1 t2 es1 e es2 z junk :
  let mem := es1 ++ e :: es2 ++ z :: junk in
  dict_wf m → dtable m = t1 ++ Some mem :: t2 → bucket_ok (dsize m) (length t1) (Some mem) →
  ents mem = es1 ++ e :: es2 → dk e = k → dk z = 0 →
  let m' := set_bucket m (Z.of_nat (length t1)) (Some (<[length es1 := mkDictkv k v u]> mem)) in
  dict_wf m' ∧ dmap m' = <[k := (v, u)]> (dmap m).
Proof.
  intros mem Hw Ht Hb Ee Hke Hz m'. set (e' := mkDictkv k v u) in *.
  set (rest := mjoin (bents <$> t1) ++ (es1 ++ es2) ++ mjoin (bents <$> t2)).
  assert (<[length es1 := e']> mem = (es1 ++ e' :: es2) ++ z :: junk) as Em'
    by (subst mem; rewrite insert_app_r_alt, Nat.sub_diag by lia; cbn; by rewrite <- app_assoc).
  pose proof (all_ents_split _ _ _ _ Ht) as Ha. rewrite Ee in Ha.
  assert (all_ents m ≡ₚ e :: rest) as Hp by (rewrite Ha; subst rest; solve_Permutation).
  destruct (NoDup_cons_rest _ _ _ (dwf_nodup _ Hw) Hp) as [Hnr Hndr].
  assert (mjoin (bents <$> t1) ++ (es1 ++ e' :: es2) ++ mjoin (bents <$> t2) ≡ₚ e' :: rest) as Hp' by (subst rest; solve_Permutation).
  assert (NoDup (dk <$> mjoin (bents <$> t1) ++ (es1 ++ e' :: es2) ++ mjoin (bents <$> t2))) as Hnd'
    by (rewrite Hp'; cbn; apply NoDup_cons; by rewrite <- Hke).
  apply bucket_forall in Hb. rewrite Ee, Forall_app, Forall_cons in Hb. destruct Hb as (? & He & ?).
  destruct (rebucket m t1 _ t2 (es1 ++ e' :: es2) z junk Hw Ht Hz) as [Hw' Ha']; [|done|].
  { rewrite Forall_app, Forall_cons. cbn. by rewrite <- Hke. }
  subst m'. rewrite Em'. split; [exact Hw'|]. unfold dmap. rewrite Ha', (dmap_cons _ e' rest Hnd' Hp'), (dmap_cons _ e rest (dwf_nodup _ Hw) Hp).
  cbn. by rewrite <- Hke, insert_insert_eq.
Qed.

Lemma set_in_fresh m k v u t1 t2 mem :
  dict_wf m → k ≠ 0 → dtable m = t1 ++ Some mem :: t2 → bucket_ok (dsize m) (length t1) (Some mem) →
  Z.of_nat (length t1) = k mod dsize m → k ∉ dk <$> all_ents m →
  let m' := set_bucket m (Z.of_nat (length t1)) (Some (take (length (ents mem)) mem ++ [mkDictkv k v u; zero_kv])) in
  dict_wf m' ∧ dmap m' = <[k := (v, u)]> (dmap m).
Proof.
  intros Hw Hk Ht Hb Hi Hn m'. set (e' := mkDictkv k v u) in *.
  destruct (ents_split mem (proj1 Hb)) as (z & junk & Em & _ & _). pose proof (all_ents_split _ _ _ _ Ht) as Ha.
  assert (take (length (ents mem)) mem ++ [e'; zero_kv] = (ents mem ++ [e']) ++ zero_kv :: []) as Em'
    by (rewrite Em at 2; by rewrite take_app_length, <- app_assoc).
  assert (mjoin (bents <$> t1) ++ (ents mem ++ [e']) ++ mjoin (bents <$> t2) ≡ₚ e' :: all_ents m) as Hp' by (rewrite Ha; solve_Permutation).
  assert (NoDup (dk <$> mjoin (bents <$> t1) ++ (ents mem ++ [e']) ++ mjoin (bents <$> t2))) as Hnd'
    by (rewrite Hp'; cbn; apply NoDup_cons; split; [exact Hn|apply Hw]).
  destruct (rebucket m t1 _ t2 (ents mem ++ [e']) zero_kv [] Hw Ht) as [Hw' Ha']; [done| |done|].
  { rewrite Forall_app. split; [by apply bucket_forall|]. repeat constructor; cbn; [done|lia]. }
  subst m'. rewrite Em'. split; [exact Hw'|]. unfold dmap. by rewrite Ha', (dmap_cons _ e' (all_ents m) Hnd' Hp').
Qed.

Lemma set_in_spec m k v u t1 t2 mem :
  dict_wf m → k ≠ 0 → dtable m = t1 ++ Some mem :: t2 → bucket_ok (dsize m) (length t1) (Some mem) →
  Z.of_nat (length t1) = k mod dsize m → (k ∉ dk <$> ents mem → k ∉ dk <$> all_ents m) →
  ∃ m', dict_set_in true m (Z.of_nat (length t1)) mem k v u = Some (true, m')
    ∧ dict_wf m' ∧ dmap m' = <[k := (v, u)]> (dmap m) ∧ df m' = df m ∧ dfreed m' = dfreed m.
Proof.
  intros Hw Hk Ht Hb Hi Hn. unfold dict_set_in.
  destruct (walk_bucket m k mem t1 t2 Hw Hk Ht Hb) as [(es1 & e & es2 & z & junk & Em & Ee & Hke & Hz & Hf & ->)|(z & junk & Em & Hni & Hf & ->)];
    cbn [mbind option_bind]; eexists; (split; [done|]);
    match goal with |- ?A ∧ ?B ∧ _ => cut (A ∧ B); [by intros [? ?]|] end.
  - rewrite Em in *. by apply (set_in_found m k v u t1 t2 es1 e es2 z junk).
  - apply (set_in_fresh m k v u t1 t2); auto.
Qed.

Lemma set_spec m k v u :
  dict_wf m → k ≠ 0 →
  ∃ m', dict_set true true m k v u = Some (true, m')
    ∧ dict_wf m' ∧ dmap m' = <[k := (v, u)]> (dmap m) ∧ df m' = df m ∧ dfreed m' = dfreed m.
Proof.
  intros Hw Hk. unfold dict_set. pose proof (dwf_pos _ Hw). destruct (Z.eqb_spec (dsize m) 0); [lia|].
  destruct (Z.eqb_spec k 0); [done|]. cbn [orb].
  destruct (bucket_of m k Hw) as (t1 & b & t2 & Ht & Hi & Hs & Hat & Hb & Ha & Hn). rewrite Hat, Hs. cbn [mbind option_bind].
  destruct b as [mem|]; [by apply (set_in_spec m k v u t1 t2 mem)|].
  destruct (rebucket m t1 None t2 [] zero_kv [zero_kv] Hw Ht) as [Hw1 Ha1]; [done|done| |].
  { pose proof (dwf_nodup _ Hw) as Hnd. by rewrite Ha in Hnd. }
  cbn [app] in Hw1, Ha1. set (m1 := set_bucket m _ (Some [zero_kv; zero_kv])) in *.
  assert (all_ents m1 = all_ents m) as Hae by (rewrite Ha, Ha1; done).
  destruct (set_bucket_table m t1 None t2 (Some [zero_kv; zero_kv]) Ht) as [Ht1 _].
  destruct (set_in_spec m1 k v u t1 t2 [zero_kv; zero_kv] Hw1 Hk Ht1) as (m' & E & Hw' & Hd & Hf & Hfr); [|exact Hi| |].
  - split; [cbn; lia|constructor].
  - intros _. rewrite Hae. apply Hn, not_elem_of_nil.
  - exists m'. unfold dmap in *. rewrite Hae in Hd. done.
Qed.

Lemma del_spec m k :
  dict_wf m → k ≠ 0 →
  match dmap m !! k with
  | None => dict_del m k = Some (false, m)
  | Some x => ∃ m', dict_del m k = Some (true, m') ∧ dict_wf m' ∧ dmap m' = delete k (dmap m) ∧ df m' = df m
      ∧ dfreed m' = if df m then dfreed m ++ [x.2] else dfreed m
  end.
Proof.
  intros Hw Hk. unfold dict_del. destruct (Z.eqb_spec k 0); [done|].
  destruct (bucket_of m k Hw) as (t1 & b & t2 & Ht & Hi & Hs & Hat & Hb & Ha & Hn). rewrite Hat, Hs. cbn [mbind option_bind].
  destruct b as [mem|]; [|unfold dmap; by rewrite dmap_not_in by (apply Hn, not_elem_of_nil)].
  destruct (walk_bucket m k mem t1 t2 Hw Hk Ht Hb) as [(es1 & e & es2 & z & junk & Em & Ee & Hke & Hz & Hf & ->)|(z & junk & _ & Hni & _ & ->)];
    cbn [mbind option_bind]; [|unfold dmap; by rewrite dmap_not_in by auto].
  set (rest := mjoin (bents <$> t1) ++ (es1 ++ es2) ++ mjoin (bents <$> t2)).
  cbn [bents from_option] in Ha. rewrite Ee in Ha.
  assert (all_ents m ≡ₚ e :: rest) as Hp by (rewrite Ha; subst rest; solve_Permutation).
  destruct (NoDup_cons_rest _ _ _ (dwf_nodup _ Hw) Hp) as [Hnr Hndr].
  apply bucket_forall in Hb. rewrite Ee, Forall_app, Forall_cons in Hb. destruct Hb as (Hb1 & _ & Hb2).
  rewrite Forall_app, Forall_cons in Hf. destruct Hf as (_ & _ & Hf2).
  destruct (del_shift_spec e es2 z junk Hf2 Hz) as (z' & junk' & Hsh & Hz').
  assert (mem !! length es1 = Some e) as -> by (rewrite Em; by apply list_lookup_middle). cbn [mbind option_bind].
  assert (drop (S (length es1)) mem = es2 ++ z :: junk) as ->
    by (rewrite Em, (cons_middle e), app_assoc; apply drop_app_length'; rewrite length_app; cbn; lia).
  rewrite Hsh. cbn [mbind option_bind].
  assert (take (length es1) mem ++ es2 ++ z' :: junk' = (es1 ++ es2) ++ z' :: junk') as -> by (rewrite Em, take_app_length; by rewrite app_assoc).
  unfold dmap at 1. rewrite (dmap_cons _ e rest (dwf_nodup _ Hw) Hp), Hke, lookup_insert_eq.
  destruct (rebucket m t1 (Some mem) t2 (es1 ++ es2) z' junk' Hw Ht Hz') as [Hw' Ha']; [by rewrite Forall_app|done|].
  set (m0 := set_bucket m _ _) in *.
  assert (dmap m0 = delete k (dmap m)) as Hdel.
  { unfold dmap at 2. rewrite (dmap_cons _ e rest (dwf_nodup _ Hw) Hp), Hke, delete_insert_id
      by (rewrite dmap_not_in; [done|by rewrite <- Hke]). unfold dmap. by rewrite Ha'. }
  destruct (df m) eqn:Edf; (eexists; split; [done|]); split_and!; try done. by destruct Hw'; constructor.
Qed.

(** The key 0 is never found. *)
Lemma ents_nonzero m e : dict_wf m → e ∈ all_ents m → dk e ≠ 0.
Proof.
  intros Hw He. unfold all_ents in He. apply list_elem_of_join in He as (l & He & Hin).
  apply list_elem_of_fmap in Hin as (b & -> & Hin). apply list_elem_of_lookup in Hin as [j Hj].
  pose proof (dwf_bucket _ Hw _ _ Hj) as Hb. destruct b as [mem|]; [|by apply not_elem_of_nil in He].
  apply bucket_forall in Hb. rewrite Forall_forall in Hb. by apply Hb.
Qed.

Lemma dmap_zero m : dict_wf m → dmap m !! 0 = None.
Proof.
  intros Hw. apply dmap_not_in. intros (e & He & Hin)%list_elem_of_fmap. by apply (ents_nonzero m e Hw Hin).
Qed.

Lemma walk_zero mem i : (length (ents mem) < length mem)%nat → dict_walk mem 0 i = Some ((i + length (ents mem))%nat, false).
Proof.
  revert i. induction mem as [|e mem IH]; cbn; intros i; [lia|]. destruct (Z.eqb_spec (dk e) 0) as [E|E]; cbn.
  - intros _. by rewrite Nat.add_0_r.
  - intros Hl. rewrite IH by lia. do 2 f_equal. lia.
Qed.

Lemma getr_any m k :
  dict_wf m → ∃ r, dict_getr m k = Some r ∧ (λ kv, (dv kv, du kv)) <$> r = dmap m !! k.
Proof.
  intros Hw. destruct (decide (k = 0)) as [->|Hk]; [|by apply getr_spec]. exists None. rewrite dmap_zero by done. split; [|done].
  unfold dict_getr. pose proof (dwf_pos _ Hw). destruct (Z.eqb_spec (dsize m) 0); [lia|].
  destruct (bucket_of m 0 Hw) as (t1 & b & t2 & _ & _ & _ & -> & Hb & _). cbn.
  destruct b as [mem|]; [|done]. destruct Hb as [Hl _]. by rewrite walk_zero.
Qed.

(** ** Iteration *)

Lemma bucket_each_all {U} (f : U → dictkv → U) mem u :
  (length (ents mem) < length mem)%nat → bucket_each (λ u kv, (false, f u kv)) mem u = Some (true, foldl f u (ents mem)).
Proof.
  revert u. induction mem as [|e mem IH]; cbn; intros u; [lia|]. destruct (Z.eqb_spec (dk e) 0) as [E|E]; cbn; [done|].
  intros Hl. apply IH. lia.
Qed.

Lemma foreach_all {U} m (f : U → dictkv → U) u :
  dict_wf m → dict_foreach m (λ u kv, (false, f u kv)) u = Some (foldl f u (all_ents m)).
Proof.
  intros Hw. unfold dict_foreach, all_ents. rewrite take_ge by (rewrite (dwf_size _ Hw); lia).
  pose proof (dwf_bucket _ Hw) as Hb. revert Hb. generalize (dsize m) as sz. generalize (dtable m) as t.
  assert (∀ t sz u, (∀ i b, t !! i = Some b → ∃ j, bucket_ok sz j b) →
    dict_each (λ u kv, (false, f u kv)) t u = Some (foldl f u (mjoin (bents <$> t)))) as HG.
  { intros t. induction t as [|b t IH]; intros sz v Hb; [done|]. destruct (Hb 0%nat b eq_refl) as [j Hj].
    cbn [fmap list_fmap mjoin list_join]. destruct b as [mem|]; cbn [dict_each bents from_option].
    - destruct Hj as [Hl _]. rewrite bucket_each_all by done. cbn. rewrite foldl_app. apply (IH sz). intros i. apply (Hb (S i)).
    - apply (IH sz). intros i. apply (Hb (S i)). }
  intros t sz Hb. apply (HG t sz). eauto.
Qed.

Lemma foldl_snoc {A B} (f : A → B) (l : list A) acc : foldl (λ acc x, acc ++ [f x]) acc l = acc ++ (f <$> l).
Proof. revert acc. induction l as [|x l IH]; intros acc; cbn; [by rewrite app_nil_r|]. rewrite IH, <- app_assoc. done. Qed.

(** ** Refinement *)

Definition dict_rel (m : dict) (s : dmodel) : Prop :=
  dict_wf m ∧ dmap m = s.1 ∧ dfreed m = if df m then s.2 else [].

Lemma step_refines m s o :
  dict_rel m s → ∃ r m', dict_step m o = Some (r, m') ∧ (dspec s o).1 = r ∧ dict_rel m' (dspec s o).2 ∧ df m' = df m.
Proof.
  destruct s as [mm fr]. intros (Hw & Hm & Hfr). cbn [fst snd] in *. subst mm.
  destruct o as [k v u|k v u|k|k|k]; cbn [dict_step dspec fst snd].
  - destruct (Z.eqb_spec k 0) as [->|Hk].
    + unfold dict_set. cbn. rewrite orb_true_r. do 2 eexists. done.
    + destruct (set_spec m k v u Hw Hk) as (m' & -> & Hw' & Hd & Hdf & Hf). do 2 eexists. split_and!; [done|done| |done].
      split_and!; [done|done|cbn; by rewrite Hf, Hdf].
  - unfold dict_add. destruct (getr_any m k Hw) as (r & -> & Hr). cbn. rewrite <- Hr. destruct r as [kv|]; cbn.
    + rewrite orb_true_r. do 2 eexists. done.
    + rewrite orb_false_r. destruct (Z.eqb_spec k 0) as [->|Hk].
      * unfold dict_set. cbn. rewrite orb_true_r. do 2 eexists. done.
      * destruct (set_spec m k v u Hw Hk) as (m' & -> & Hw' & Hd & Hdf & Hf). do 2 eexists. split_and!; [done|done| |done].
        split_and!; [done|done|cbn; by rewrite Hf, Hdf].
  - unfold dict_get. destruct (getr_any m k Hw) as (r & -> & Hr). cbn. do 2 eexists. split_and!; [done| |done|done].
    rewrite <- Hr. by destruct r.
  - unfold dict_getu. destruct (getr_any m k Hw) as (r & -> & Hr). cbn. do 2 eexists. split_and!; [done| |done|done].
    rewrite <- Hr. by destruct r.
  - destruct (decide (k = 0)) as [->|Hk].
    + rewrite dmap_zero by done. unfold dict_del. cbn. do 2 eexists. done.
    + pose proof (del_spec m k Hw Hk) as Hd. destruct (dmap m !! k) as [x|] eqn:E.
      * destruct Hd as (m' & -> & Hw' & Hd & Hdf & Hf). do 2 eexists. split_and!; [done|done| |done].
        split_and!; [done|done|]. cbn. rewrite Hf, Hdf, Hfr. by destruct (df m).
      * rewrite Hd. do 2 eexists. done.
Qed.

Lemma run_refines ops m s :
  dict_rel m s → ∃ rs m', dict_run m ops = Some (rs, m') ∧ (dspec_run s ops).1 = rs ∧ dict_rel m' (dspec_run s ops).2 ∧ df m' = df m.
Proof.
  revert m s. induction ops as [|o ops IH]; intros m s Hr; cbn [dict_run dspec_run]; [do 2 eexists; done|].
  destruct (step_refines m s o Hr) as (r & m1 & -> & Hr1 & Hrel & Hdf). destruct (dspec s o) as [r' s1]. cbn in Hr1, Hrel. subst r'.
  destruct (IH m1 s1 Hrel) as (rs & m' & E & Hrs & Hrel' & Hdf'). cbn [mbind option_bind fst snd]. rewrite E. cbn [mbind option_bind].
  destruct (dspec_run s1 ops) as [rs' s']. cbn in *. subst rs'. do 2 eexists. split_and!; [done|done|done|congruence].
Qed.

Lemma new_rel size f :
  0 <= size < 2 ^ 31 → ∃ m, dict_new true true size f = Some m ∧ dict_rel m (∅, []) ∧ df m = f.
Proof.
  intros Hs. unfold dict_new, dict_init. cbn [negb]. destruct (Z.ltb_spec 0 (Z.max size 1)); [|lia]. cbn. eexists. split; [done|].
  assert (∀ n, mjoin (bents <$> replicate n (None : option (list dictkv))) = []) as Hj by (intros n; induction n; done).
  split; [|done]. split_and!; [constructor; cbn| |].
  - rewrite length_replicate. lia.
  - lia.
  - intros i b [-> _]%lookup_replicate. done.
  - unfold all_ents. cbn. rewrite Hj. constructor.
  - unfold dmap, all_ents. cbn. by rewrite Hj.
  - cbn. by destruct f.
Qed.

(** C39: the dictionary is a finite map from non-zero 64-bit keys: any sequence of set,
    add, get, getu and del on a new dictionary stays within the memory of its buckets
    and answers as the map does; [dict_foreach] then visits every entry exactly once,
    and the free callback has been called, by the deletions and at last by [dict_fini],
    once for the pointer of every entry deleted or still there. *)
Theorem dict_refines_map size f ops :
  0 <= size < 2 ^ 31 →
  ∃ m rs m' m'', dict_new true true size f = Some m ∧ dict_run m ops = Some (rs, m') ∧ dict_fini m' = Some m''
    ∧ let '(rs', (mm, gone)) := dspec_run (∅, []) ops in
      rs = rs'
      ∧ (∃ l, dict_foreach m' (λ l kv, (false, l ++ [kv_pair kv])) [] = Some l ∧ l ≡ₚ map_to_list mm)
      ∧ dfreed m'' ≡ₚ (if f then gone ++ ((λ x, x.2.2) <$> map_to_list mm) else []).
Proof.
  intros Hs. destruct (new_rel size f Hs) as (m & Hm & Hrel & Hf).
  destruct (run_refines ops m (∅, []) Hrel) as (rs & m' & Hrun & Hrs & Hrel' & Hdf).
  destruct (dspec_run (∅, []) ops) as [rs' [mm gone]]. cbn in Hrs, Hrel'. destruct Hrel' as (Hw & Hmm & Hfr). cbn in Hmm, Hfr.
  assert (kv_pair <$> all_ents m' ≡ₚ map_to_list mm) as Hp.
  { rewrite <- Hmm. unfold dmap. rewrite map_to_list_to_map; [done|]. rewrite <- list_fmap_compose. apply Hw. }
  assert (∃ m'', dict_fini m' = Some m'' ∧ dfreed m'' = if f then gone ++ (du <$> all_ents m') else []) as (m'' & Hfi & Hg).
  { unfold dict_fini. rewrite Hfr, Hdf, Hf. destruct f; cbn; [|eauto].
    rewrite (foreach_all m' (λ l kv, l ++ [du kv])) by done. cbn. rewrite foldl_snoc. eauto. }
  exists m, rs, m', m''. split_and!; [done|done|done|done| |].
  - rewrite (foreach_all m' (λ l kv, l ++ [kv_pair kv])) by done. rewrite foldl_snoc. eauto.
  - rewrite Hg. destruct f; [|done]. apply Permutation_app_head. rewrite <- Hp, <- list_fmap_compose. done.
Qed.

Lemma dict_refines_map_witness :
  let ops := [DSet 7 70 1; DSet 10 100 2; DAdd 7 71 3; DDel 10; DGet 7] in
  0 <= 3 < 2 ^ 31 ∧ ∃ m rs m' m'', dict_new true true 3 true = Some m ∧ dict_run m ops = Some (rs, m') ∧ dict_fini m' = Some m''
    ∧ let '(rs', (mm, gone)) := dspec_run (∅, []) ops in
      rs = rs'
      ∧ (∃ l, dict_foreach m' (λ l kv, (false, l ++ [kv_pair kv])) [] = Some l ∧ l ≡ₚ map_to_list mm)
      ∧ dfreed m'' ≡ₚ (if true then gone ++ ((λ x, x.2.2) <$> map_to_list mm) else []).
Proof. split; [lia|]. apply (dict_refines_map 3 true [DSet 7 70 1; DSet 10 100 2; DAdd 7 71 3; DDel 10; DGet 7]). lia. Defined.

(** After [dict_fini] the other operations still answer, but [dict_del] reads the table
    that is no longer there: it alone does not test the size. *)
Lemma dict_del_after_fini m m' k :
  dict_fini m = Some m' → k ≠ 0 → dict_getr m' k = Some None ∧ dict_set true true m' k 0 0 = Some (false, m') ∧ dict_del m' k = None.
Proof.
  unfold dict_fini. intros Hf Hk. destruct (if df m then _ else _) as [fr|]; [|done]. cbn in Hf. injection Hf as <-.
  unfold dict_getr, dict_set, dict_del. cbn. by destruct (Z.eqb_spec k 0).
Qed.
