(* ===== verification/Ls.v ===== *)
(** * Doubly linked lists ([src/ls.c])

    The cells are in a heap, a finite map from addresses; an access to an address that
    is not allocated, a freed one for instance, makes the operation fail ([None]).  The
    structure [SdbList] itself is passed and returned by value.  Data are pointers, as
    numbers; 0 is NULL and ends the walks of the code. *)

From S2P Require Import Prelude.

Abbreviation loc := positive.

Record SdbListIter := mkIter { idata : Z; inext : option loc; iprev : option loc }.

(** [lfree]: whether there is a free function.  Comparators are numbered. *)
Record SdbList := mkList {
  llength : Z;
  lhead : option loc;
  ltail : option loc;
  lfree : bool;
  lcmp : option nat;
  lsorted : bool
}.

(** The cells, and the data given to the free function so far. *)
Record heap := mkHeap { hmem : gmap loc SdbListIter; hfreed : list Z }.

Definition H (A : Type) : Type := heap → option (A * heap).
#[export] Instance H_ret : MRet H := λ A a h, Some (a, h).
#[export] Instance H_bind : MBind H := λ A B f c h, match c h with Some (a, h) => f a h | None => None end.

Definition load (l : loc) : H SdbListIter := λ h, match hmem h !! l with Some it => Some (it, h) | None => None end.

Definition store (l : loc) (it : SdbListIter) : H unit := λ h,
  match hmem h !! l with Some _ => Some ((), mkHeap (<[l := it]> (hmem h)) (hfreed h)) | None => None end.

(** [R_NEW]: the contents are written by the caller before they are read. *)
Definition new_cell : H loc := λ h,
  let l := fresh (dom (hmem h)) in Some (l, mkHeap (<[l := mkIter 0 None None]> (hmem h)) (hfreed h)).

Definition free_cell (l : loc) : H unit := λ h,
  match hmem h !! l with Some _ => Some ((), mkHeap (delete l (hmem h)) (hfreed h)) | None => None end.

Definition free_data (d : Z) : H unit := λ h, Some ((), mkHeap (hmem h) (hfreed h ++ [d])).

Definition set_n (l : loc) (n : option loc) : H unit := it ← load l; store l (mkIter (idata it) n (iprev it)).
Definition set_p (l : loc) (p : option loc) : H unit := it ← load l; store l (mkIter (idata it) (inext it) p).
Definition set_data (l : loc) (d : Z) : H unit := it ← load l; store l (mkIter d (inext it) (iprev it)).

(** [if (ptr) { ... }] *)
Definition when (o : option loc) (f : loc → H unit) : H unit := match o with Some l => f l | None => mret () end.

Definition ptr_eqb (a b : option loc) : bool := bool_decide (a = b).

(** ** Building and taking apart *)

Definition ls_new : SdbList := mkList 0 None None false None false.
Definition ls_newf (freefn : bool) : SdbList := mkList 0 None None freefn None false.

Definition ls_append (L : SdbList) (data : Z) : H (loc * SdbList) :=
  it ← new_cell;
  _ ← when (ltail L) (λ t, set_n t (Some it));
  _ ← store it (mkIter data None (ltail L));
  mret (it, mkList (u64 (llength L + 1)) (match lhead L with None => Some it | hd => hd end) (Some it) (lfree L) (lcmp L) false).

Definition ls_prepend (L : SdbList) (data : Z) : H (loc * SdbList) :=
  it ← new_cell;
  _ ← when (lhead L) (λ t, set_p t (Some it));
  _ ← store it (mkIter data (lhead L) None);
  mret (it, mkList (u64 (llength L + 1)) (Some it) (match ltail L with None => Some it | tl => tl end) (lfree L) (lcmp L) false).

Definition with_ends (L : SdbList) (hd tl : option loc) (len : Z) : SdbList :=
  mkList len hd tl (lfree L) (lcmp L) (lsorted L).

Definition ls_pop (L : SdbList) : H (Z * SdbList) :=
  match ltail L with
  | None => mret (0, L)
  | Some iter =>
      L ← (if ptr_eqb (lhead L) (ltail L) then mret (with_ends L None None (llength L))
           else
             it ← load iter;
             match iprev it with
             | Some p => _ ← set_n p None; mret (with_ends L (lhead L) (Some p) (llength L))
             | None => λ _, None
             end);
      it ← load iter;
      _ ← free_cell iter;
      mret (idata it, with_ends L (lhead L) (ltail L) (u64 (llength L - 1)))
  end.

(** The length is decremented whether or not there was an element. *)
Definition ls_pop_head (L : SdbList) : H (Z * SdbList) :=
  match lhead L with
  | None => mret (0, with_ends L (lhead L) (ltail L) (u64 (llength L - 1)))
  | Some iter =>
      L ← (if ptr_eqb (lhead L) (ltail L) then mret (with_ends L None None (llength L))
           else
             it ← load iter;
             match inext it with
             | Some n => _ ← set_p n None; mret (with_ends L (Some n) (ltail L) (llength L))
             | None => λ _, None
             end);
      it ← load iter;
      _ ← free_cell iter;
      mret (idata it, with_ends L (lhead L) (ltail L) (u64 (llength L - 1)))
  end.

Definition ls_split_iter (L : SdbList) (iter : loc) : H SdbList :=
  it ← load iter;
  let L := if ptr_eqb (lhead L) (Some iter) then with_ends L (inext it) (ltail L) (llength L) else L in
  let L := if ptr_eqb (ltail L) (Some iter) then with_ends L (lhead L) (iprev it) (llength L) else L in
  _ ← when (iprev it) (λ p, set_n p (inext it));
  _ ← when (inext it) (λ n, set_p n (iprev it));
  mret (with_ends L (lhead L) (ltail L) (u64 (llength L - 1))).

Definition ls_delete (L : SdbList) (iter : loc) : H SdbList :=
  L ← ls_split_iter L iter;
  it ← load iter;
  _ ← (if lfree L && negb (idata it =? 0) then _ ← free_data (idata it); set_data iter 0 else mret ());
  _ ← free_cell iter;
  mret L.

(** Walking from a cell; the fuel is the number of cells in the heap. *)
Fixpoint delete_data_loop (fuel : nat) (L : SdbList) (o : option loc) (ptr : Z) : H (bool * SdbList) :=
  match fuel, o with
  | O, _ | _, None => mret (false, L)
  | S fuel', Some l =>
      it ← load l;
      if idata it =? 0 then mret (false, L)
      else if ptr =? idata it then L ← ls_delete L l; mret (true, L)
      else delete_data_loop fuel' L (inext it) ptr
  end.

Definition cells : H nat := λ h, Some (S (base.size (hmem h)), h).

Definition ls_delete_data (L : SdbList) (ptr : Z) : H (bool * SdbList) :=
  fuel ← cells; delete_data_loop fuel L (lhead L) ptr.

Fixpoint destroy_loop (fuel : nat) (L : SdbList) (o : option loc) : H SdbList :=
  match fuel, o with
  | O, _ | _, None => mret L
  | S fuel', Some l => it ← load l; L ← ls_delete L l; destroy_loop fuel' L (inext it)
  end.

Definition ls_destroy (L : SdbList) : H SdbList :=
  fuel ← cells; L ← destroy_loop fuel L (lhead L); mret (with_ends L None None 0).

Definition ls_free (L : SdbList) : H unit := _ ← ls_destroy L; mret ().

Fixpoint clone_loop (fuel : nat) (r : SdbList) (o : option loc) : H SdbList :=
  match fuel, o with
  | O, _ | _, None => mret r
  | S fuel', Some l =>
      it ← load l;
      if idata it =? 0 then mret r else r ← ls_append r (idata it); clone_loop fuel' r.2 (inext it)
  end.

Definition ls_clone (L : SdbList) : H SdbList := fuel ← cells; clone_loop fuel ls_new (lhead L).

(** The two lists afterwards; the second one keeps its length. *)
Definition ls_join (L1 L2 : SdbList) : H (bool * SdbList * SdbList) :=
  if llength L2 =? 0 then mret (false, L1, L2)
  else
    L1' ← (if llength L1 =? 0 then mret (with_ends L1 (lhead L2) (ltail L2) (llength L1))
           else
             match ltail L1, lhead L2, ltail L2 with
             | Some t1, Some h2, Some t2 =>
                 _ ← set_n t1 (lhead L2);
                 _ ← set_p h2 (ltail L1);
                 _ ← set_n t2 None;
                 mret (with_ends L1 (lhead L1) (ltail L2) (llength L1))
             | _, _, _ => λ _, None
             end);
    mret (true, mkList (u64 (llength L1 + llength L2)) (lhead L1') (ltail L1') (lfree L1) (lcmp L1) false,
          with_ends L2 None None (llength L2)).

Fixpoint insert_loop (fuel : nat) (L : SdbList) (o : option loc) (i n : Z) (data : Z) : H (loc * SdbList) :=
  match fuel, o with
  | O, _ | _, None => ls_append L data
  | S fuel', Some it =>
      c ← load it;
      if idata c =? 0 then ls_append L data
      else if i =? n then
        item ← new_cell;
        _ ← store item (mkIter data (Some it) (iprev c));
        _ ← when (iprev c) (λ p, set_n p (Some item));
        _ ← set_p it (Some item);
        mret (item, mkList (u64 (llength L + 1)) (lhead L) (ltail L) (lfree L) (lcmp L) false)
      else insert_loop fuel' L (inext c) (i + 1) n data
  end.

Definition ls_insert (L : SdbList) (n data : Z) : H (loc * SdbList) :=
  match lhead L with
  | None => ls_prepend L data
  | Some _ => if n =? 0 then ls_prepend L data else fuel ← cells; insert_loop fuel L (lhead L) 0 n data
  end.

Fixpoint del_n_loop (fuel : nat) (L : SdbList) (o : option loc) (i n : Z) : H (bool * SdbList) :=
  match fuel, o with
  | O, _ | _, None => mret (false, L)
  | S fuel', Some it =>
      c ← load it;
      if idata c =? 0 then mret (false, L)
      else if i =? n then
        L ← (match iprev c, inext c with
             | None, None => mret (with_ends L None None (llength L))
             | None, Some nx => _ ← set_p nx None; mret (with_ends L (Some nx) (ltail L) (llength L))
             | Some pv, None => _ ← set_n pv None; mret (with_ends L (lhead L) (Some pv) (llength L))
             | Some pv, Some nx => _ ← set_n pv (Some nx); _ ← set_p nx (Some pv); mret L
             end);
        _ ← free_cell it;
        mret (true, with_ends L (lhead L) (ltail L) (u64 (llength L - 1)))
      else del_n_loop fuel' L (inext c) (i + 1) n
  end.

Definition ls_del_n (L : SdbList) (n : Z) : H (bool * SdbList) :=
  fuel ← cells; del_n_loop fuel L (lhead L) 0 n.

(** ** Sorting *)

Definition MERGELIMIT : nat := 24.

Section sort.
Context (cmpf : nat → Z → Z → Z).

(** The inner loop of the exchange sort: [it] against the cells from [it2]. *)
Fixpoint exchange_loop (fuel : nat) (cmp : nat) (it : loc) (it2 : option loc) : H unit :=
  match fuel, it2 with
  | O, _ | _, None => mret ()
  | S fuel', Some l2 =>
      c2 ← load l2;
      if idata c2 =? 0 then mret ()
      else
        c ← load it;
        _ ← (if 0 <? cmpf cmp (idata c) (idata c2)
             then _ ← set_data it (idata c2); set_data l2 (idata c) else mret ());
        exchange_loop fuel' cmp it (inext c2)
  end.

Fixpoint insertion_sort_loop (fuel : nat) (cmp : nat) (o : option loc) : H unit :=
  match fuel, o with
  | O, _ | _, None => mret ()
  | S fuel', Some it =>
      c ← load it;
      if idata c =? 0 then mret ()
      else _ ← exchange_loop fuel cmp it (inext c); insertion_sort_loop fuel' cmp (inext c)
  end.

Definition ls_insertion_sort_iter (o : option loc) (cmp : nat) : H unit :=
  fuel ← cells; insertion_sort_loop fuel cmp o.

(** [result] and [head] of [_merge]: the last cell and the first one of the result. *)
Fixpoint merge_loop (fuel : nat) (cmp : nat) (first second : option loc) (result head : option loc) : H (option loc) :=
  match fuel with
  | O => λ _, None
  | S fuel' =>
      match first, second with
      | None, None =>
          _ ← when head (λ l, set_p l None);
          _ ← when result (λ l, set_n l None);
          mret head
      | _, _ =>
          sel ← (match first, second with
                 | Some f, None => c ← load f; mret (f, inext c, second)
                 | None, Some s => c ← load s; mret (s, first, inext c)
                 | Some f, Some s =>
                     c ← load f; d ← load s;
                     if cmpf cmp (idata c) (idata d) <=? 0 then mret (f, inext c, second) else mret (s, first, inext d)
                 | None, None => λ _, None
                 end);
          let '(next, first, second) := sel in
          match head, result with
          | None, _ => _ ← set_p next None; merge_loop fuel' cmp first second (Some next) (Some next)
          | Some _, Some r => _ ← set_n r (Some next); _ ← set_p next (Some r); merge_loop fuel' cmp first second (Some next) head
          | Some _, None => λ _, None
          end
      end
  end.

Definition _merge (first second : option loc) (cmp : nat) : H (option loc) :=
  fuel ← cells; merge_loop fuel cmp first second None None.

(** Two steps of [fast] for one of [slow]; the result is [slow] and the count. *)
Fixpoint split_walk (fuel : nat) (slow : loc) (fast : option loc) (count : nat) : H (loc * nat) :=
  match fuel, fast with
  | S fuel', Some f =>
      c ← load f;
      match inext c with
      | None => mret (slow, count)
      | Some f1 =>
          c1 ← load f1;
          match inext c1 with
          | None => mret (slow, count)
          | Some f2 =>
              s ← load slow;
              match inext s with
              | Some slow' => split_walk fuel' slow' (Some f2) (S count)
              | None => λ _, None
              end
          end
      end
  | _, _ => mret (slow, count)
  end.

Definition _sdb_list_split (head : option loc) : H (option loc) :=
  match head with
  | None => mret head
  | Some l =>
      c ← load l;
      match inext c with
      | None => mret head
      | Some _ =>
          fuel ← cells;
          r ← split_walk fuel l head 0;
          if (r.2 <? MERGELIMIT)%nat then mret None
          else s ← load r.1; _ ← set_n r.1 None; mret (inext s)
      end
  end.

Fixpoint merge_sort_rec (fuel : nat) (head : option loc) (cmp : nat) : H (option loc) :=
  match fuel, head with
  | O, _ => λ _, None
  | _, None => mret head
  | S fuel', Some l =>
      c ← load l;
      match inext c with
      | None => mret head
      | Some _ =>
          second ← _sdb_list_split head;
          match second with
          | Some _ =>
              head ← merge_sort_rec fuel' head cmp;
              second ← merge_sort_rec fuel' second cmp;
              _merge head second cmp
          | None => _ ← ls_insertion_sort_iter head cmp; mret head
          end
      end
  end.

Definition _merge_sort (head : option loc) (cmp : nat) : H (option loc) :=
  fuel ← cells; merge_sort_rec fuel head cmp.

Fixpoint last_cell (fuel : nat) (o : option loc) : H (option loc) :=
  match fuel, o with
  | S fuel', Some l => c ← load l; match inext c with Some _ => last_cell fuel' (inext c) | None => mret o end
  | _, _ => mret o
  end.

(** [cmp] is a comparator that is not NULL here and in [ls_sort]. *)
Definition ls_merge_sort (L : SdbList) (cmp : nat) : H (bool * SdbList) :=
  match lhead L with
  | None => mret (true, L)
  | Some _ =>
      head ← _merge_sort (lhead L) cmp;
      fuel ← cells;
      tail ← last_cell fuel head;
      mret (true, mkList (llength L) head tail (lfree L) (lcmp L) true)
  end.

Definition ls_sort (L : SdbList) (cmp : nat) : H (bool * SdbList) :=
  if bool_decide (lcmp L = Some cmp) then mret (false, L)
  else
    L ← (if Z.of_nat MERGELIMIT <? llength L then r ← ls_merge_sort L cmp; mret r.2
         else _ ← ls_insertion_sort_iter (lhead L) cmp; mret L);
    mret (true, mkList (llength L) (lhead L) (ltail L) (lfree L) (Some cmp) true).
End sort.

(** ** Segments of a list in memory *)

Abbreviation cell := (loc * Z)%type.
Implicit Types (m : gmap loc SdbListIter) (xs ys : list cell).

(** The address of the first cell, or what follows; of the last one, or what precedes. *)
Definition hd_ptr xs (e : option loc) : option loc := match xs with [] => e | (l, _) :: _ => Some l end.
Definition last_ptr xs (p : option loc) : option loc := match last xs with Some (l, _) => Some l | None => p end.

(** The cells [xs] are linked in order, between [p] and [e]. *)
Fixpoint seg m (p : option loc) xs (e : option loc) : Prop :=
  match xs with
  | [] => True
  | (l, d) :: xs' => m !! l = Some (mkIter d (hd_ptr xs' e) p) ∧ seg m (Some l) xs' e
  end.

(** The list structure [L] describes the cells [xs]. *)
Record lst (L : SdbList) m xs : Prop := {
  lst_head : lhead L = hd_ptr xs None;
  lst_tail : ltail L = last_ptr xs None;
  lst_len : llength L = Z.of_nat (length xs);
  lst_seg : seg m None xs None
}.

(** The heap is the cells [ls] and, besides them, exactly [R]. *)
Record owns (R m : gmap loc SdbListIter) (ls : list loc) : Prop := {
  owns_nodup : NoDup ls;
  owns_in : ∀ l, l ∈ ls → is_Some (m !! l) ∧ R !! l = None;
  owns_out : ∀ l, l ∉ ls → m !! l = R !! l
}.

Lemma hd_ptr_app xs ys e : hd_ptr (xs ++ ys) e = hd_ptr xs (hd_ptr ys e).
Proof. by destruct xs as [|[]]. Qed.

Lemma last_ptr_app xs ys p : last_ptr (xs ++ ys) p = last_ptr ys (last_ptr xs p).
Proof. unfold last_ptr. rewrite last_app. destruct (last ys) as [[]|]; [done|]. by destruct (last xs) as [[]|]. Qed.

Lemma last_ptr_cons l d xs p : last_ptr ((l, d) :: xs) p = last_ptr xs (Some l).
Proof. apply (last_ptr_app [(l, d)] xs p). Qed.

Lemma seg_app m p xs ys e : seg m p (xs ++ ys) e ↔ seg m p xs (hd_ptr ys e) ∧ seg m (last_ptr xs p) ys e.
Proof.
  revert p. induction xs as [|[l d] xs IH]; intros p; cbn [app seg]; [tauto|].
  rewrite hd_ptr_app, IH, last_ptr_cons. tauto.
Qed.

Lemma seg_frame m m' p xs e : (∀ l, l ∈ xs.*1 → m' !! l = m !! l) → seg m p xs e → seg m' p xs e.
Proof.
  revert p. induction xs as [|[l d] xs IH]; intros p Hm; cbn [seg]; [done|]. intros [Hl Hs]. split.
  - by rewrite Hm by (cbn; left).
  - apply IH; [|done]. intros l' Hl'. apply Hm. cbn. by right.
Qed.

Lemma seg_insert m p xs e l it : l ∉ xs.*1 → seg m p xs e → seg (<[l := it]> m) p xs e.
Proof. intros Hl. apply seg_frame. intros l' ?. rewrite lookup_insert_ne; [done|]. by intros ->. Qed.

Lemma seg_delete m p xs e l : l ∉ xs.*1 → seg m p xs e → seg (delete l m) p xs e.
Proof. intros Hl. apply seg_frame. intros l' ?. rewrite lookup_delete_ne; [done|]. by intros ->. Qed.

(** Redirecting the last cell, or the first one. *)
Lemma seg_set_last m p xs l d e n :
  l ∉ xs.*1 → seg m p (xs ++ [(l, d)]) e → seg (<[l := mkIter d n (last_ptr xs p)]> m) p (xs ++ [(l, d)]) n.
Proof.
  intros Hl. rewrite !seg_app. cbn [seg hd_ptr]. intros (Hx & Hm & _). split_and!; [by apply seg_insert|by rewrite lookup_insert_eq|done].
Qed.

Lemma seg_set_first m p xs l d e q :
  l ∉ xs.*1 → seg m p ((l, d) :: xs) e → seg (<[l := mkIter d (hd_ptr xs e) q]> m) q ((l, d) :: xs) e.
Proof. intros Hl. cbn [seg]. intros (Hm & Hx). split; [by rewrite lookup_insert_eq|by apply seg_insert]. Qed.

Lemma seg_lookup m p xs l d ys e :
  seg m p (xs ++ (l, d) :: ys) e → m !! l = Some (mkIter d (hd_ptr ys e) (last_ptr xs p)).
Proof. rewrite seg_app. cbn [seg]. tauto. Qed.

(** ** Running the heap monad *)

Lemma bind_run {A B} (c : H A) (f : A → H B) h a h' : c h = Some (a, h') → (c ≫= f) h = f a h'.
Proof. unfold mbind, H_bind. by intros ->. Qed.

Lemma load_run m fr l it : m !! l = Some it → load l (mkHeap m fr) = Some (it, mkHeap m fr).
Proof. unfold load. cbn. by intros ->. Qed.

Lemma store_run m fr l it it' : m !! l = Some it → store l it' (mkHeap m fr) = Some ((), mkHeap (<[l := it']> m) fr).
Proof. unfold store. cbn. by intros ->. Qed.

Lemma set_n_run m fr l d n p n' :
  m !! l = Some (mkIter d n p) → set_n l n' (mkHeap m fr) = Some ((), mkHeap (<[l := mkIter d n' p]> m) fr).
Proof. intros E. unfold set_n. rewrite (bind_run _ _ _ _ _ (load_run m fr l _ E)). by apply (store_run m fr l (mkIter d n p)). Qed.

Lemma set_p_run m fr l d n p p' :
  m !! l = Some (mkIter d n p) → set_p l p' (mkHeap m fr) = Some ((), mkHeap (<[l := mkIter d n p']> m) fr).
Proof. intros E. unfold set_p. rewrite (bind_run _ _ _ _ _ (load_run m fr l _ E)). by apply (store_run m fr l (mkIter d n p)). Qed.

Lemma set_data_run m fr l d n p d' :
  m !! l = Some (mkIter d n p) → set_data l d' (mkHeap m fr) = Some ((), mkHeap (<[l := mkIter d' n p]> m) fr).
Proof. intros E. unfold set_data. rewrite (bind_run _ _ _ _ _ (load_run m fr l _ E)). by apply (store_run m fr l (mkIter d n p)). Qed.

Lemma free_cell_run m fr l it : m !! l = Some it → free_cell l (mkHeap m fr) = Some ((), mkHeap (delete l m) fr).
Proof. unfold free_cell. cbn. by intros ->. Qed.

Lemma new_cell_run m fr :
  ∃ l, m !! l = None ∧ new_cell (mkHeap m fr) = Some (l, mkHeap (<[l := mkIter 0 None None]> m) fr).
Proof.
  exists (fresh (dom m)). split; [|done]. apply not_elem_of_dom. apply is_fresh.
Qed.

(** One step: run the first command with the equation given. *)
Tactic Notation "step" constr(E) := rewrite (bind_run _ _ _ _ _ E).
Ltac ret := unfold mret, H_ret.

(** ** The cells of the heap *)

Lemma owns_perm R m ls ls' : ls ≡ₚ ls' → owns R m ls → owns R m ls'.
Proof.
  intros Hp [Hn Hi Ho]. constructor; [by rewrite <- Hp|..]; intros l; rewrite <- Hp; auto.
Qed.

Lemma owns_insert R m ls l it : l ∈ ls → owns R m ls → owns R (<[l := it]> m) ls.
Proof.
  intros Hl [Hn Hi Ho]. constructor; [done|..]; intros l' Hl'.
  - split; [|by apply Hi]. destruct (decide (l' = l)) as [->|]; [by rewrite lookup_insert_eq|rewrite lookup_insert_ne by done; by apply Hi].
  - rewrite lookup_insert_ne; [by apply Ho|]. by intros ->.
Qed.

Lemma owns_fresh R m ls l : m !! l = None → owns R m ls → l ∉ ls ∧ R !! l = None.
Proof.
  intros Hm [Hn Hi Ho]. assert (l ∉ ls) as Hl by (intros [[? ?] _]%Hi; congruence). split; [done|]. by rewrite <- Ho.
Qed.

Lemma owns_new R m ls l it : m !! l = None → owns R m ls → owns R (<[l := it]> m) (l :: ls).
Proof.
  intros Hm Ho. destruct (owns_fresh _ _ _ _ Hm Ho) as [Hl HR]. destruct Ho as [Hn Hi Ho]. constructor.
  - by constructor.
  - intros l' [->|Hl']%elem_of_cons; [by rewrite lookup_insert_eq|]. rewrite lookup_insert_ne by (by intros ->). by apply Hi.
  - intros l' [? ?]%not_elem_of_cons. rewrite lookup_insert_ne by done. by apply Ho.
Qed.

Lemma owns_delete R m ls l : owns R m (l :: ls) → owns R (delete l m) ls.
Proof.
  intros [Hn Hi Ho]. apply NoDup_cons in Hn as [Hl Hn]. constructor; [done|..]; intros l' Hl'.
  - rewrite lookup_delete_ne by (by intros ->). apply Hi. by right.
  - destruct (decide (l' = l)) as [->|Hne].
    + rewrite lookup_delete_eq. symmetry. apply Hi. by left.
    + rewrite lookup_delete_ne by done. apply Ho. by rewrite not_elem_of_cons.
Qed.

Lemma owns_size R m ls : owns R m ls → (length ls <= base.size m)%nat.
Proof.
  intros [Hn Hi _]. rewrite <- size_dom, <- (size_list_to_set (C := gset loc) ls Hn). apply subseteq_size.
  intros l Hl%elem_of_list_to_set. by apply elem_of_dom, Hi.
Qed.

(** ** The operations at the ends *)

(** Redirecting the end pointers of a segment, as the code does it: what changes is the
    link, inside the segment. *)
Definition relinked m m' xs : Prop :=
  (∀ l, l ∉ xs.*1 → m' !! l = m !! l) ∧ ∀ R ls, xs.*1 ⊆ ls → owns R m ls → owns R m' ls.

Lemma relinked_insert m xs l it : l ∈ xs.*1 → relinked m (<[l := it]> m) xs.
Proof.
  intros Hl. split.
  - intros l' Hl'. rewrite lookup_insert_ne; [done|]. by intros ->.
  - intros R ls Hs Ho. apply owns_insert; auto.
Qed.

Lemma when_last m fr xs e n :
  NoDup (xs.*1) → seg m None xs e →
  ∃ m', when (last_ptr xs None) (λ t, set_n t n) (mkHeap m fr) = Some ((), mkHeap m' fr)
    ∧ relinked m m' xs ∧ seg m' None xs n.
Proof.
  intros Hn Hs. destruct xs as [|[t dt] xs _] using rev_ind; [exists m; done|].
  rewrite last_ptr_app. cbn [last_ptr last when]. rewrite fmap_app in Hn.
  apply NoDup_app in Hn as (_ & Hn & _). assert (t ∉ xs.*1) as Ht by (intros Hx; apply (Hn t Hx); by left).
  pose proof (seg_lookup _ _ _ _ _ _ _ Hs) as E. eexists. split; [by apply (set_n_run m fr t dt _ _ n E)|]. split.
  - apply relinked_insert. rewrite fmap_app. apply elem_of_app. right. by left.
  - exact (seg_set_last m None xs t dt e n Ht Hs).
Qed.

Lemma when_first m fr xs p q :
  NoDup (xs.*1) → seg m p xs None →
  ∃ m', when (hd_ptr xs None) (λ t, set_p t q) (mkHeap m fr) = Some ((), mkHeap m' fr)
    ∧ relinked m m' xs ∧ seg m' q xs None.
Proof.
  intros Hn Hs. destruct xs as [|[t dt] xs]; [exists m; done|]. cbn [hd_ptr when].
  cbn in Hn. apply NoDup_cons in Hn as [Ht _].
  pose proof (proj1 Hs) as E. eexists. split; [by apply (set_p_run m fr t dt _ _ q E)|]. split.
  - apply relinked_insert. by left.
  - exact (seg_set_first m p xs t dt None q Ht Hs).
Qed.

Definition same_fns (L L' : SdbList) : Prop := lfree L' = lfree L ∧ lcmp L' = lcmp L.

Lemma append_spec R m fr L xs d :
  owns R m (xs.*1) → lst L m xs → Z.of_nat (length xs) + 1 < 2 ^ 64 →
  ∃ l m' L', ls_append L d (mkHeap m fr) = Some ((l, L'), mkHeap m' fr)
    ∧ owns R m' ((xs ++ [(l, d)]).*1) ∧ lst L' m' (xs ++ [(l, d)]) ∧ same_fns L L'.
Proof.
  intros Ho [Hh Ht Hl Hs] Hlen. unfold ls_append. destruct (new_cell_run m fr) as (l & Hf & E). step E.
  destruct (owns_fresh _ _ _ _ Hf Ho) as [Hlx _]. rewrite Ht.
  destruct (when_last (<[l := mkIter 0 None None]> m) fr xs None (Some l)) as (m' & E' & [Hout Hown] & Hs');
    [apply Ho|by apply seg_insert|]. step E'.
  assert (m' !! l = Some (mkIter 0 None None)) as Hm' by (rewrite Hout by done; by rewrite lookup_insert_eq).
  step (store_run m' fr l _ (mkIter d None (last_ptr xs None)) Hm'). ret. do 3 eexists. split_and!; [done|..].
  - apply (owns_perm _ _ (l :: xs.*1)); [rewrite fmap_app; cbn; apply Permutation_cons_append|].
    apply owns_insert; [by left|]. apply Hown; [by right|]. by apply owns_new.
  - constructor; cbn [lhead ltail llength].
    + rewrite Hh, hd_ptr_app. by destruct xs as [|[]].
    + by rewrite last_ptr_app.
    + rewrite length_app, Hl, u64_small by (unfold is_u64; lia). cbn. lia.
    + rewrite seg_app. cbn [seg hd_ptr]. split_and!; [by apply seg_insert|by rewrite lookup_insert_eq|done].
  - done.
Qed.

Lemma prepend_spec R m fr L xs d :
  owns R m (xs.*1) → lst L m xs → Z.of_nat (length xs) + 1 < 2 ^ 64 →
  ∃ l m' L', ls_prepend L d (mkHeap m fr) = Some ((l, L'), mkHeap m' fr)
    ∧ owns R m' (((l, d) :: xs).*1) ∧ lst L' m' ((l, d) :: xs) ∧ same_fns L L'.
Proof.
  intros Ho [Hh Ht Hl Hs] Hlen. unfold ls_prepend. destruct (new_cell_run m fr) as (l & Hf & E). step E.
  destruct (owns_fresh _ _ _ _ Hf Ho) as [Hlx _]. rewrite Hh.
  destruct (when_first (<[l := mkIter 0 None None]> m) fr xs None (Some l)) as (m' & E' & [Hout Hown] & Hs');
    [apply Ho|by apply seg_insert|]. step E'.
  assert (m' !! l = Some (mkIter 0 None None)) as Hm' by (rewrite Hout by done; by rewrite lookup_insert_eq).
  step (store_run m' fr l _ (mkIter d (hd_ptr xs None) None) Hm'). ret. do 3 eexists. split_and!; [done|..].
  - apply owns_insert; [by left|]. apply Hown; [by right|]. by apply owns_new.
  - constructor; cbn [lhead ltail llength].
    + done.
    + rewrite Ht, last_ptr_cons. destruct xs as [|[] xs _] using rev_ind; [done|]. by rewrite !last_ptr_app.
    + rewrite Hl, u64_small by (unfold is_u64; lia). cbn. lia.
    + cbn [seg]. split; [by rewrite lookup_insert_eq|by apply seg_insert].
  - done.
Qed.

(** ** Taking out a cell *)

Lemma NoDup_mid (xs : list cell) l d ys :
  NoDup ((xs ++ (l, d) :: ys).*1) →
  NoDup (xs.*1) ∧ NoDup (ys.*1) ∧ l ∉ xs.*1 ∧ l ∉ ys.*1 ∧ ∀ l', l' ∈ xs.*1 → l' ∉ ys.*1.
Proof.
  rewrite fmap_app. cbn. intros (Hx & Hd & Hy)%NoDup_app. apply NoDup_cons in Hy as [Hly Hy]. split_and!; try done.
  - intros Hx'. apply (Hd l Hx'). by left.
  - intros l' Hl' Hy'. apply (Hd l' Hl'). by right.
Qed.

Lemma unlink_spec m fr xs l d ys :
  NoDup ((xs ++ (l, d) :: ys).*1) → seg m None (xs ++ (l, d) :: ys) None →
  ∃ m1 m2, when (last_ptr xs None) (λ p, set_n p (hd_ptr ys None)) (mkHeap m fr) = Some ((), mkHeap m1 fr)
    ∧ when (hd_ptr ys None) (λ n, set_p n (last_ptr xs None)) (mkHeap m1 fr) = Some ((), mkHeap m2 fr)
    ∧ m1 !! l = Some (mkIter d (hd_ptr ys None) (last_ptr xs None))
    ∧ m2 !! l = Some (mkIter d (hd_ptr ys None) (last_ptr xs None))
    ∧ seg (delete l m2) None (xs ++ ys) None
    ∧ ∀ R, owns R m ((xs ++ (l, d) :: ys).*1) → owns R (delete l m2) ((xs ++ ys).*1).
Proof.
  intros Hn Hs. pose proof (seg_lookup _ _ _ _ _ _ _ Hs) as El. destruct (NoDup_mid _ _ _ _ Hn) as (Hx & Hy & Hlx & Hly & Hd).
  apply seg_app in Hs as [Hsx [_ Hsy]].
  destruct (when_last m fr xs _ (hd_ptr ys None) Hx Hsx) as (m1 & E1 & [Hout1 Hown1] & Hs1).
  destruct (when_first m1 fr ys (Some l) (last_ptr xs None) Hy) as (m2 & E2 & [Hout2 Hown2] & Hs2).
  { apply (seg_frame m); [|done]. intros l' Hl'. apply Hout1. intros ?. by apply (Hd l'). }
  exists m1, m2. split_and!; [done|done|by rewrite Hout1|by rewrite Hout2, Hout1| |].
  - rewrite seg_app. split; apply seg_delete; [done| |done|done]. apply (seg_frame m1); [|done]. intros l' Hl'. apply Hout2. by apply Hd.
  - intros R Ho. apply owns_delete. apply (owns_perm _ _ ((xs ++ (l, d) :: ys).*1)); [rewrite !fmap_app; cbn; solve_Permutation|].
    apply Hown2; [|apply Hown1; [|done]]; rewrite fmap_app; set_solver.
Qed.

Lemma lst_unlinked L' m xs l d ys L :
  lst L m (xs ++ (l, d) :: ys) → ∀ m', seg m' None (xs ++ ys) None →
  lhead L' = hd_ptr (xs ++ ys) None → ltail L' = last_ptr (xs ++ ys) None → llength L' = u64 (llength L - 1) →
  Z.of_nat (length (xs ++ (l, d) :: ys)) < 2 ^ 64 → lst L' m' (xs ++ ys).
Proof.
  intros [_ _ Hl _] m' Hs Hh Ht Hl' Hlen. constructor; [done|done| |done].
  rewrite Hl', Hl, !length_app in *. cbn in *. rewrite u64_small by (unfold is_u64; lia). lia.
Qed.

Definition small (xs : list cell) : Prop := Z.of_nat (length xs) + 1 < 2 ^ 64.

Lemma ptr_eqb_spec a b : ptr_eqb a b = true ↔ a = b.
Proof. apply bool_decide_eq_true. Qed.

(** The ends differ when a list has more than one cell. *)
Lemma ends_differ xs l d : NoDup ((xs ++ [(l, d)]).*1) → xs ≠ [] → hd_ptr (xs ++ [(l, d)]) None ≠ Some l.
Proof.
  intros Hn Hx. destruct xs as [|[l0 d0] xs]; [done|]. cbn in *. apply NoDup_cons in Hn as [Hn _]. intros [= ->].
  apply Hn. rewrite fmap_app. apply elem_of_app. right. by left.
Qed.

Lemma last_ptr_in xs l : last_ptr xs None = Some l → l ∈ xs.*1.
Proof.
  destruct xs as [|[t d] xs _] using rev_ind; [done|]. rewrite last_ptr_app. cbn. intros [= ->].
  rewrite fmap_app. apply elem_of_app. right. by left.
Qed.

Lemma hd_ptr_in xs l : hd_ptr xs None = Some l → l ∈ xs.*1.
Proof. destruct xs as [|[t d] xs]; [done|]. intros [= ->]. by left. Qed.

Lemma last_ptr_nonempty xs p q : xs ≠ [] → last_ptr xs p = last_ptr xs q ∧ is_Some (last_ptr xs p).
Proof. intros Hx. destruct xs as [|[l d] xs _] using rev_ind; [done|]. rewrite !last_ptr_app. cbn. eauto. Qed.

(** The end of the two pops: the cell [l], already unlinked, is read and freed. *)
Lemma pop_end R m m' fr L L1 xs l d ys n p :
  lst L m (xs ++ (l, d) :: ys) → small (xs ++ (l, d) :: ys) → m' !! l = Some (mkIter d n p) →
  seg (delete l m') None (xs ++ ys) None → owns R (delete l m') ((xs ++ ys).*1) →
  lhead L1 = hd_ptr (xs ++ ys) None → ltail L1 = last_ptr (xs ++ ys) None → llength L1 = llength L → same_fns L L1 →
  ∃ m'' L', (it ← load l; _ ← free_cell l; mret (idata it, with_ends L1 (lhead L1) (ltail L1) (u64 (llength L1 - 1)))) (mkHeap m' fr)
    = Some ((d, L'), mkHeap m'' fr) ∧ owns R m'' ((xs ++ ys).*1) ∧ lst L' m'' (xs ++ ys) ∧ same_fns L L'.
Proof.
  intros HL Hsm Em Hs Ho H1 H2 H3 H4. step (load_run m' fr l _ Em). step (free_cell_run m' fr l _ Em). ret.
  do 2 eexists. split; [done|]. split_and!; [done| |exact H4].
  eapply (lst_unlinked _ m xs l d ys L HL); cbn [lhead ltail llength with_ends]; try done; [by rewrite H3|unfold small in Hsm; lia].
Qed.

Lemma pop_spec R m fr L xs l d :
  owns R m ((xs ++ [(l, d)]).*1) → lst L m (xs ++ [(l, d)]) → small (xs ++ [(l, d)]) →
  ∃ m' L', ls_pop L (mkHeap m fr) = Some ((d, L'), mkHeap m' fr)
    ∧ owns R m' (xs.*1) ∧ lst L' m' xs ∧ same_fns L L'.
Proof.
  intros Ho HL Hsm. pose proof HL as [Hh Ht Hlen Hs].
  destruct (unlink_spec m fr xs l d [] (owns_nodup _ _ _ Ho) Hs) as (m1 & m2 & E1 & E2 & Em1 & _ & Hseg & Hown).
  cbn [hd_ptr when] in *. unfold mret, H_ret in E2. injection E2 as <-.
  rewrite last_ptr_app in Ht. cbn [last_ptr last] in Ht. pose proof (seg_lookup _ _ _ _ _ _ _ Hs) as El.
  unfold ls_pop. rewrite Ht, Hh.
  pose proof (λ L1, pop_end R m m1 fr L L1 xs l d [] _ _ HL Hsm Em1 Hseg (Hown R Ho)) as Hend. rewrite !app_nil_r in Hend.
  destruct xs as [|x0 xs0] eqn:Exs; [|rewrite <- Exs in *].
  - unfold ptr_eqb. rewrite bool_decide_true by done. cbn [mbind H_bind].
    cbn [last_ptr last when] in E1. unfold mret, H_ret in E1. injection E1 as <-.
    apply (Hend (with_ends L None None (llength L))); done.
  - assert (xs ≠ []) as Hne by (by rewrite Exs). unfold ptr_eqb. rewrite bool_decide_false by (apply (ends_differ xs l d); [apply Ho|done]).
    destruct (last_ptr_nonempty xs None None Hne) as [_ [p Ep]]. rewrite Ep in *. cbn [when] in E1.
    unfold mbind at 1, H_bind at 1. step (load_run m fr l _ El). cbn [iprev]. step E1. ret.
    apply (Hend (with_ends L (hd_ptr (xs ++ [(l, d)]) None) (Some p) (llength L))); try done. cbn. by rewrite Exs; destruct x0.
Qed.

Lemma pop_head_spec R m fr L l d xs :
  owns R m (((l, d) :: xs).*1) → lst L m ((l, d) :: xs) → small ((l, d) :: xs) →
  ∃ m' L', ls_pop_head L (mkHeap m fr) = Some ((d, L'), mkHeap m' fr)
    ∧ owns R m' (xs.*1) ∧ lst L' m' xs ∧ same_fns L L'.
Proof.
  intros Ho HL Hsm. pose proof HL as [Hh Ht Hlen Hs].
  destruct (unlink_spec m fr [] l d xs (owns_nodup _ _ _ Ho) Hs) as (m1 & m2 & E1 & E2 & _ & Em2 & Hseg & Hown).
  cbn [app last_ptr last when] in *. unfold mret, H_ret in E1. injection E1 as <-.
  pose proof (proj1 Hs) as El. unfold ls_pop_head. rewrite Ht, Hh. cbn [hd_ptr]. rewrite last_ptr_cons.
  pose proof (λ L1, pop_end R m m2 fr L L1 [] l d xs _ _ HL Hsm Em2 Hseg (Hown R Ho)) as Hend. cbn [app] in Hend.
  destruct xs as [|[l0 d0] xs0] eqn:Exs; [|rewrite <- Exs in *].
  - unfold ptr_eqb. rewrite bool_decide_true by done. cbn [mbind H_bind].
    cbn [hd_ptr when] in E2. unfold mret, H_ret in E2. injection E2 as <-.
    apply (Hend (with_ends L None None (llength L))); done.
  - assert (xs ≠ []) as Hne by (by rewrite Exs). destruct (last_ptr_nonempty xs (Some l) None Hne) as [El1 [t Et]].
    unfold ptr_eqb. rewrite bool_decide_false; cycle 1.
    { rewrite Et. intros [= ->]. rewrite El1 in Et. pose proof (owns_nodup _ _ _ Ho) as Hn. cbn in Hn.
      apply NoDup_cons in Hn as [Hn _]. by apply Hn, last_ptr_in. }
    assert (hd_ptr xs None = Some l0) as Hh0 by (by rewrite Exs). rewrite Hh0 in *. cbn [when] in E2.
    unfold mbind at 1, H_bind at 1. step (load_run m fr l _ El). cbn [inext]. step E2. ret.
    apply (Hend (with_ends L (Some l0) (last_ptr xs (Some l)) (llength L))); done.
Qed.

Lemma split_iter_spec m fr L xs l d ys :
  NoDup ((xs ++ (l, d) :: ys).*1) → lst L m (xs ++ (l, d) :: ys) → small (xs ++ (l, d) :: ys) →
  ∃ m' L', ls_split_iter L l (mkHeap m fr) = Some (L', mkHeap m' fr)
    ∧ m' !! l = Some (mkIter d (hd_ptr ys None) (last_ptr xs None)) ∧ lst L' (delete l m') (xs ++ ys) ∧ same_fns L L'
    ∧ ∀ R, owns R m ((xs ++ (l, d) :: ys).*1) → owns R (delete l m') ((xs ++ ys).*1).
Proof.
  intros Hn HL Hsm. pose proof HL as [Hh Ht Hlen Hs]. destruct (NoDup_mid _ _ _ _ Hn) as (_ & _ & Hlx & Hly & _).
  destruct (unlink_spec m fr xs l d ys Hn Hs) as (m1 & m2 & E1 & E2 & _ & Em2 & Hseg & Hown).
  unfold ls_split_iter. step (load_run m fr l _ (seg_lookup _ _ _ _ _ _ _ Hs)). cbn [iprev inext idata].
  step E1. step E2. ret. do 2 eexists. split; [done|]. split_and!; [done| |by do 2 case_if|done].
  rewrite hd_ptr_app in Hh. rewrite last_ptr_app, last_ptr_cons in Ht. cbn [hd_ptr] in Hh.
  eapply (lst_unlinked _ m xs l d ys L HL); [done|..]; unfold ptr_eqb; try (by do 2 case_if); [..|unfold small in Hsm; lia].
  - rewrite hd_ptr_app. destruct xs as [|[l0 d0] xs]; cbn [hd_ptr] in *.
    + rewrite !(bool_decide_true (lhead L = Some l)) by done. cbn [lhead ltail with_ends]. by destruct (bool_decide _).
    + rewrite !(bool_decide_false (lhead L = Some l)); [cbn [lhead ltail with_ends]; by destruct (bool_decide _)|].
      rewrite Hh. intros [= ->]. apply Hlx. by left.
  - rewrite last_ptr_app. destruct ys as [|y ys].
    + cbn in Ht. assert (∀ c : bool, ltail (if c then with_ends L (hd_ptr [] None) (ltail L) (llength L) else L) = ltail L) as Ec by (by intros []).
      rewrite Ec, Ht, bool_decide_true by done. done.
    + assert (∀ c : bool, ltail (if c then with_ends L (hd_ptr (y :: ys) None) (ltail L) (llength L) else L) = ltail L) as Ec by (by intros []).
      rewrite Ec, Ht, bool_decide_false.
      * destruct (last_ptr_nonempty (y :: ys) (Some l) (last_ptr xs None)) as [Ely _]; [done|].
        destruct (bool_decide (lhead L = Some l)); cbn [ltail with_ends]; congruence.
      * destruct (last_ptr_nonempty (y :: ys) (Some l) None) as [Ely _]; [done|]. rewrite Ely. by intros ?%last_ptr_in.
Qed.

Definition freed_by (L : SdbList) (fr : list Z) (d : Z) : list Z := if lfree L && negb (d =? 0) then fr ++ [d] else fr.

Lemma ls_delete_spec R m fr L xs l d ys :
  owns R m ((xs ++ (l, d) :: ys).*1) → lst L m (xs ++ (l, d) :: ys) → small (xs ++ (l, d) :: ys) →
  ∃ m' L', ls_delete L l (mkHeap m fr) = Some (L', mkHeap m' (freed_by L fr d))
    ∧ owns R m' ((xs ++ ys).*1) ∧ lst L' m' (xs ++ ys) ∧ same_fns L L'.
Proof.
  intros Ho HL Hsm.
  destruct (split_iter_spec m fr L xs l d ys (owns_nodup _ _ _ Ho) HL Hsm) as (m1 & L1 & E1 & Em & HL1 & Hfn & Hown).
  unfold ls_delete. step E1. step (load_run m1 fr l _ Em). cbn [idata]. rewrite (proj1 Hfn). unfold freed_by.
  exists (delete l m1), L1. split; [|split_and!; [by apply Hown|done|exact Hfn]].
  destruct (lfree L && negb (d =? 0)).
  - unfold mbind at 1, H_bind at 1. unfold mbind at 1, H_bind at 1, free_data at 1. cbn [hmem hfreed].
    rewrite (set_data_run m1 (fr ++ [d]) l d _ _ 0 Em).
    step (free_cell_run (<[l := mkIter 0 (hd_ptr ys None) (last_ptr xs None)]> m1) (fr ++ [d]) l _ (lookup_insert_eq _ _ _)).
    ret. by rewrite delete_insert_eq.
  - unfold mbind at 1, H_bind at 1. ret. by step (free_cell_run m1 fr l _ Em).
Qed.

(** ** Walks *)

Definition nz (xs : list cell) : Prop := Forall (λ c, c.2 ≠ 0) xs.

Lemma cells_run m fr : cells (mkHeap m fr) = Some (S (base.size m), mkHeap m fr).
Proof. done. Qed.

Lemma owns_fuel R m xs ys : owns R m ((xs ++ ys).*1) → (length ys < S (base.size m))%nat.
Proof. intros Ho%owns_size. rewrite length_fmap, length_app in Ho. lia. Qed.

Lemma delete_data_loop_spec R m fr L xs ys ptr fuel :
  owns R m ((xs ++ ys).*1) → lst L m (xs ++ ys) → small (xs ++ ys) → nz ys → (length ys < fuel)%nat →
  (∃ ys1 l ys2 m' L', ys = ys1 ++ (l, ptr) :: ys2 ∧ ptr ∉ ys1.*2
     ∧ delete_data_loop fuel L (hd_ptr ys None) ptr (mkHeap m fr) = Some ((true, L'), mkHeap m' (freed_by L fr ptr))
     ∧ owns R m' ((xs ++ ys1 ++ ys2).*1) ∧ lst L' m' (xs ++ ys1 ++ ys2) ∧ same_fns L L')
  ∨ (ptr ∉ ys.*2 ∧ delete_data_loop fuel L (hd_ptr ys None) ptr (mkHeap m fr) = Some ((false, L), mkHeap m fr)).
Proof.
  intros Ho HL Hsm Hnz. revert xs fuel Ho HL Hsm. induction Hnz as [|[l d] ys Hd _ IH]; intros xs fuel Ho HL Hsm Hf.
  - right. split; [apply not_elem_of_nil|]. by destruct fuel.
  - destruct fuel as [|fuel]; [cbn in Hf; lia|]. cbn [delete_data_loop hd_ptr].
    step (load_run m fr l _ (seg_lookup _ _ _ _ _ _ _ (lst_seg _ _ _ HL))). cbn [idata inext].
    destruct (Z.eqb_spec d 0) as [|_]; [done|]. destruct (Z.eqb_spec ptr d) as [<-|Hne].
    + left. destruct (ls_delete_spec R m fr L xs l ptr ys Ho HL Hsm) as (m' & L' & E & ? & ? & ?).
      exists [], l, ys, m', L'. split_and!; try done; [apply not_elem_of_nil|]. by step E.
    + rewrite cons_middle, app_assoc in Ho, HL, Hsm.
      destruct (IH (xs ++ [(l, d)]) fuel Ho HL Hsm) as [(ys1 & l' & ys2 & m' & L' & -> & Hn & E & Ho' & HL' & Hfn)|[Hn E]]; [cbn in Hf; lia|..].
      * left. exists ((l, d) :: ys1), l', ys2, m', L'. rewrite <- !app_assoc in *. split_and!; try done. cbn. by rewrite not_elem_of_cons.
      * right. split; [|done]. cbn. by rewrite not_elem_of_cons.
Qed.

(** A part of the cells seen as the heap, the others as the rest. *)
Lemma owns_split R m ls1 ls2 :
  owns R m (ls1 ++ ls2) → ∃ R2, owns R2 m ls2 ∧ owns R R2 ls1 ∧ ∀ l, l ∈ ls1 → R2 !! l = m !! l.
Proof.
  intros [Hn Hi Ho]. apply NoDup_app in Hn as (Hn1 & Hd & Hn2). exists (filter (λ x, x.1 ∉ ls2) m).
  assert (∀ l, l ∉ ls2 → filter (λ x, x.1 ∉ ls2) m !! l = m !! l) as Hf.
  { intros l Hl. destruct (m !! l) as [it|] eqn:E; [by apply map_lookup_filter_Some|apply map_lookup_filter_None; by left]. }
  split_and!; [constructor|constructor|]; intros.
  - done.
  - split; [apply Hi; set_solver|]. apply map_lookup_filter_None. right. intros ? ?. cbn. tauto.
  - by rewrite Hf.
  - done.
  - rewrite Hf by auto. apply Hi. set_solver.
  - destruct (decide (l ∈ ls2)) as [Hin|].
    + symmetry. transitivity (None : option SdbListIter); [apply Hi; set_solver|]. symmetry. apply map_lookup_filter_None. right. intros ? ?. cbn. tauto.
    + rewrite Hf by done. apply Ho. set_solver.
  - apply Hf. auto.
Qed.

Lemma owns_join R R2 m ls1 ls2 : owns R2 m ls2 → owns R R2 ls1 → owns R m (ls1 ++ ls2).
Proof.
  intros [Hn2 Hi2 Ho2] [Hn1 Hi1 Ho1].
  assert (∀ l, l ∈ ls1 → l ∉ ls2) as Hd.
  { intros l H1 H2. destruct (Hi1 l H1) as [[? ?] _]. destruct (Hi2 l H2) as [_ ?]. congruence. }
  constructor.
  - apply NoDup_app. auto.
  - intros l [Hl|Hl]%elem_of_app.
    + rewrite Ho2 by auto. auto.
    + destruct (Hi2 l Hl) as [? HR]. split; [done|]. rewrite <- Ho1; [done|]. intros ?. by apply (Hd l).
  - intros l Hl. apply not_elem_of_app in Hl as [? ?]. by rewrite Ho2, Ho1.
Qed.

Lemma destroy_loop_spec R xs m fr L fuel :
  owns R m (xs.*1) → lst L m xs → small xs → nz xs → (length xs < fuel)%nat →
  ∃ m' L', destroy_loop fuel L (hd_ptr xs None) (mkHeap m fr) = Some (L', mkHeap m' (if lfree L then fr ++ xs.*2 else fr))
    ∧ owns R m' [] ∧ same_fns L L'.
Proof.
  intros Ho HL Hsm Hnz. revert m fr L fuel Ho HL Hsm. induction Hnz as [|[l d] xs Hd _ IH]; intros m fr L fuel Ho HL Hsm Hf;
    (destruct fuel as [|fuel]; [cbn in Hf; lia|]); cbn [destroy_loop hd_ptr].
  - do 2 eexists. split_and!; [|done|done]. destruct (lfree L); [|done]. cbn. by rewrite app_nil_r.
  - step (load_run m fr l _ (proj1 (lst_seg _ _ _ HL))).
    destruct (ls_delete_spec R m fr L [] l d xs Ho HL Hsm) as (m1 & L1 & E1 & Ho1 & HL1 & Hfn1). step E1. cbn [inext app] in *.
    destruct (IH m1 (freed_by L fr d) L1 fuel Ho1 HL1) as (m' & L' & E' & Ho' & Hfn'); [unfold small in *; cbn in Hsm; lia|cbn in Hf; lia|].
    exists m', L'. rewrite E'. rewrite (proj1 Hfn1). split_and!; [|done|unfold same_fns in *; naive_solver congruence].
    unfold freed_by. destruct (lfree L); [|done]. cbn. destruct (Z.eqb_spec d 0); [done|]. cbn. by rewrite <- app_assoc.
Qed.

Lemma destroy_spec R m fr L xs :
  owns R m (xs.*1) → lst L m xs → small xs → nz xs →
  ∃ m' L', ls_destroy L (mkHeap m fr) = Some (L', mkHeap m' (if lfree L then fr ++ xs.*2 else fr))
    ∧ owns R m' [] ∧ lst L' m' [] ∧ same_fns L L'.
Proof.
  intros Ho HL Hsm Hnz. unfold ls_destroy. step (cells_run m fr). rewrite (lst_head _ _ _ HL).
  destruct (destroy_loop_spec R xs m fr L (S (base.size m)) Ho HL Hsm Hnz) as (m' & L' & E & Ho' & Hfn); [by apply (owns_fuel R m [])|].
  step E. ret. do 2 eexists. split_and!; [done|done|done|exact Hfn].
Qed.

Lemma clone_loop_spec R L done todo ys m fr r fuel :
  owns R m ((done ++ todo).*1 ++ ys.*1) → lst L m (done ++ todo) → lst r m ys → nz todo → (length todo < fuel)%nat →
  small (ys ++ todo) →
  ∃ zs m' r', clone_loop fuel r (hd_ptr todo None) (mkHeap m fr) = Some (r', mkHeap m' fr)
    ∧ zs.*2 = todo.*2 ∧ owns R m' ((done ++ todo).*1 ++ (ys ++ zs).*1) ∧ lst L m' (done ++ todo) ∧ lst r' m' (ys ++ zs).
Proof.
  intros Ho HL Hr Hnz. revert done ys m r fuel Ho HL Hr. induction Hnz as [|[l d] todo Hd _ IH]; intros done ys m r fuel Ho HL Hr Hf Hsm;
    (destruct fuel as [|fuel]; [cbn in Hf; lia|]); cbn [clone_loop hd_ptr].
  - exists [], m, r. by rewrite !app_nil_r in *.
  - step (load_run m fr l _ (seg_lookup _ _ _ _ _ _ _ (lst_seg _ _ _ HL))). cbn [idata inext]. destruct (Z.eqb_spec d 0) as [|_]; [done|].
    destruct (owns_split R m _ _ Ho) as (R2 & Ho2 & Ho1 & Heq).
    destruct (append_spec R2 m fr r ys d Ho2 Hr) as (l' & m1 & r1 & E1 & Ho' & Hr1 & _); [unfold small in Hsm; rewrite length_app in Hsm; cbn in Hsm; lia|].
    step E1. cbn [snd].
    assert (lst L m1 (done ++ (l, d) :: todo)) as HL1.
    { destruct HL as [Hh Ht Hl Hs]. constructor; [done..|]. apply (seg_frame m); [|done]. intros a Ha.
      rewrite (owns_out _ _ _ Ho'); [by apply Heq|]. intros Hin. destruct (owns_in _ _ _ Ho' a Hin) as [_ HN].
      destruct (owns_in _ _ _ Ho1 a Ha) as [[? ?] _]. congruence. }
    rewrite cons_middle, app_assoc in HL1.
    destruct (IH (done ++ [(l, d)]) (ys ++ [(l', d)]) m1 r1 fuel) as (zs & m' & r' & E & Hz & Ho'' & HL' & Hr'); [|done|done|cbn in Hf; lia| |].
    + rewrite <- app_assoc. cbn [app]. by apply (owns_join R R2).
    + unfold small in *. rewrite !length_app in *. cbn in *. lia.
    + rewrite <- !app_assoc in *. exists ((l', d) :: zs), m', r'. split_and!; try done. cbn. by rewrite Hz.
Qed.

Lemma lst_empty m : lst ls_new m [].
Proof. done. Qed.

Lemma clone_spec R m fr L xs :
  owns R m (xs.*1) → lst L m xs → nz xs → small xs →
  ∃ ys m' L', ls_clone L (mkHeap m fr) = Some (L', mkHeap m' fr)
    ∧ ys.*2 = xs.*2 ∧ owns R m' (xs.*1 ++ ys.*1) ∧ lst L m' xs ∧ lst L' m' ys.
Proof.
  intros Ho HL Hnz Hsm. unfold ls_clone. step (cells_run m fr). rewrite (lst_head _ _ _ HL).
  destruct (clone_loop_spec R L [] xs [] m fr ls_new (S (base.size m))) as (zs & m' & L' & H1); cbn [app fmap list_fmap]; rewrite ?app_nil_r; try done.
  - by apply (owns_fuel R m []).
  - exists zs, m', L'. exact H1.
Qed.

(** Joining moves the cells of the second list to the end of the first one. *)
Lemma join_spec R m fr L1 L2 xs ys :
  owns R m (xs.*1 ++ ys.*1) → lst L1 m xs → lst L2 m ys → Z.of_nat (length (xs ++ ys)) < 2 ^ 64 →
  ∃ m' L1' L2', ls_join L1 L2 (mkHeap m fr) = Some ((bool_decide (ys ≠ []), L1', L2'), mkHeap m' fr)
    ∧ owns R m' ((xs ++ ys).*1) ∧ lst L1' m' (xs ++ ys) ∧ lhead L2' = None ∧ ltail L2' = None ∧ llength L2' = llength L2.
Proof.
  intros Ho HL1 HL2 Hsm. rewrite <- fmap_app in Ho. unfold ls_join.
  pose proof HL1 as [Hh1 Ht1 Hl1 Hs1]. pose proof HL2 as [Hh2 Ht2 Hl2 Hs2].
  destruct (Z.eqb_spec (llength L2) 0) as [E|E].
  { destruct ys; [|cbn in Hl2; lia]. ret. exists m, L1, L2. rewrite app_nil_r in *. split_and!; done. }
  assert (ys ≠ []) as Hne by (intros ->; cbn in Hl2; lia). rewrite bool_decide_true by done.
  assert (∀ h t m', h = hd_ptr (xs ++ ys) None → t = last_ptr (xs ++ ys) None → seg m' None (xs ++ ys) None →
    lst (mkList (u64 (llength L1 + llength L2)) h t (lfree L1) (lcmp L1) false) m' (xs ++ ys)) as Hmk.
  { intros h t m' -> -> Hs. constructor; try done. cbn. rewrite length_app in *. rewrite u64_small by (unfold is_u64; lia). lia. }
  destruct (Z.eqb_spec (llength L1) 0) as [E1|E1].
  { destruct xs; [|cbn in Hl1; lia]. unfold mbind at 1, H_bind at 1. ret. cbn [app] in *.
    do 3 eexists. split; [done|]. split_and!; [done|by apply Hmk|done..]. }
  assert (xs ≠ []) as Hnx by (intros ->; cbn in Hl1; lia).
  pose proof (owns_nodup _ _ _ Ho) as Hn. rewrite fmap_app in Hn. apply NoDup_app in Hn as (Hnx' & Hd & Hny).
  destruct (when_last m fr xs None (hd_ptr ys None) Hnx' Hs1) as (m1 & E2 & [Hout1 Hown1] & Hsx).
  destruct (when_first m1 fr ys None (last_ptr xs None) Hny) as (m2 & E3 & [Hout2 Hown2] & Hsy).
  { apply (seg_frame m); [|done]. intros l Hl. apply Hout1. intros ?. by apply (Hd l). }
  assert (seg m2 None (xs ++ ys) None) as Hs.
  { rewrite seg_app. split; [|done]. apply (seg_frame m1); [|done]. intros l Hl. apply Hout2. by apply Hd. }
  assert (owns R m2 ((xs ++ ys).*1)) as Ho2.
  { apply Hown2; [|apply Hown1; [|done]]; rewrite fmap_app; set_solver. }
  rewrite Ht1, Hh2, Ht2.
  destruct (last_ptr_nonempty xs None None Hnx) as [_ [t1 Et1]]. rewrite Et1 in *.
  destruct ys as [|[h2 d2] ys'] eqn:Eys; [done|]. rewrite <- Eys in *.
  assert (hd_ptr ys None = Some h2) as Eh by (by rewrite Eys). rewrite Eh in *.
  destruct ys as [|[t2 dt2] ys0 _] using rev_ind; [done|]. rewrite last_ptr_app. cbn [last_ptr last when] in *.
  unfold mbind at 1, H_bind at 1. step E2. step E3.
  pose proof (seg_lookup _ _ _ _ _ _ _ Hsy) as Et2. cbn [hd_ptr] in Et2.
  assert (set_n t2 None (mkHeap m2 fr) = Some ((), mkHeap m2 fr)) as E4.
  { rewrite (set_n_run m2 fr t2 dt2 _ _ None Et2). by rewrite insert_id. }
  step E4. ret. do 3 eexists. split; [done|]. split_and!; [done| |done..]. apply Hmk; [|by rewrite !last_ptr_app|done].
  cbn. rewrite hd_ptr_app, Hh1. by destruct xs as [|[]].
Qed.

(** Linking a new cell before the first cell of [(l, d) :: ys]. *)
Lemma link_before R m fr L xs l d ys data :
  owns R m ((xs ++ (l, d) :: ys).*1) → lst L m (xs ++ (l, d) :: ys) → small (xs ++ (l, d) :: ys) → xs ≠ [] →
  ∃ item m' L',
    (item ← new_cell;
     _ ← store item (mkIter data (Some l) (last_ptr xs None));
     _ ← when (last_ptr xs None) (λ p, set_n p (Some item));
     _ ← set_p l (Some item);
     mret (item, mkList (u64 (llength L + 1)) (lhead L) (ltail L) (lfree L) (lcmp L) false)) (mkHeap m fr)
    = Some ((item, L'), mkHeap m' fr)
    ∧ owns R m' ((xs ++ (item, data) :: (l, d) :: ys).*1) ∧ lst L' m' (xs ++ (item, data) :: (l, d) :: ys) ∧ same_fns L L'.
Proof.
  intros Ho [Hh Ht Hlen Hs] Hsm Hx. destruct (NoDup_mid _ _ _ _ (owns_nodup _ _ _ Ho)) as (Hnx & _ & Hlx & Hly & Hd).
  destruct (new_cell_run m fr) as (c & Hf & E). step E.
  destruct (owns_fresh _ _ _ _ Hf Ho) as [Hc _]. rewrite fmap_app in Hc. cbn in Hc.
  apply not_elem_of_app in Hc as [Hcx [Hcl Hcy]%not_elem_of_cons].
  step (store_run (<[c := mkIter 0 None None]> m) fr c _ (mkIter data (Some l) (last_ptr xs None)) (lookup_insert_eq _ _ _)).
  rewrite insert_insert_eq.
  apply seg_app in Hs as (Hsx & Hml & Hsy). cbn [hd_ptr] in Hsx.
  destruct (when_last (<[c := mkIter data (Some l) (last_ptr xs None)]> m) fr xs (Some l) (Some c) Hnx) as (m1 & E1 & [Hout Hown] & Hsx1);
    [by apply seg_insert|]. step E1.
  assert (m1 !! l = Some (mkIter d (hd_ptr ys None) (last_ptr xs None))) as El by (rewrite Hout by done; by rewrite lookup_insert_ne).
  step (set_p_run m1 fr l _ _ _ (Some c) El). ret. do 3 eexists. split; [done|]. split_and!; [| |done].
  - apply (owns_perm _ _ (c :: (xs ++ (l, d) :: ys).*1)); [rewrite !fmap_app; cbn; solve_Permutation|].
    apply owns_insert; [rewrite fmap_app; set_solver|]. apply Hown; [rewrite fmap_app; set_solver|]. by apply owns_new.
  - constructor; cbn [lhead ltail llength].
    + rewrite Hh, !hd_ptr_app. by destruct xs as [|[]].
    + rewrite Ht, !last_ptr_app, !last_ptr_cons. done.
    + unfold small in Hsm. rewrite Hlen, !length_app in *. cbn in *. rewrite u64_small by (unfold is_u64; lia). lia.
    + rewrite seg_app. cbn [seg hd_ptr]. split_and!.
      * by apply seg_insert.
      * rewrite lookup_insert_ne by done. rewrite Hout by done. by rewrite lookup_insert_eq.
      * by rewrite lookup_insert_eq.
      * apply seg_insert; [done|]. apply (seg_frame m); [|done]. intros a Ha. rewrite Hout by (intros ?; by apply (Hd a)).
        rewrite lookup_insert_ne; [done|]. by intros ->.
Qed.

(** Where [ls_insert] puts its element. *)
Definition insert_pos (n : Z) (len : nat) : nat := if (0 <=? n) && (n <? Z.of_nat len) then Z.to_nat n else len.

Lemma insert_loop_spec R m fr L xs ys n data fuel :
  owns R m ((xs ++ ys).*1) → lst L m (xs ++ ys) → small (xs ++ ys) → nz ys → (length ys < fuel)%nat → xs ≠ [] ∨ n ≠ 0 →
  (n < 0 ∨ Z.of_nat (length xs) <= n) →
  ∃ c m' L', insert_loop fuel L (hd_ptr ys None) (Z.of_nat (length xs)) n data (mkHeap m fr) = Some ((c, L'), mkHeap m' fr)
    ∧ let k := insert_pos n (length (xs ++ ys)) in let zs := take k (xs ++ ys) ++ (c, data) :: drop k (xs ++ ys) in
      owns R m' (zs.*1) ∧ lst L' m' zs ∧ same_fns L L'.
Proof.
  intros Ho HL Hsm Hnz. revert xs fuel Ho HL Hsm. induction Hnz as [|[l d] ys Hd _ IH]; intros xs fuel Ho HL Hsm Hf Hx Hpos;
    (destruct fuel as [|fuel]; [cbn in Hf; lia|]); cbn [insert_loop hd_ptr].
  - rewrite app_nil_r in *. destruct (append_spec R m fr L xs data Ho HL) as (c & m' & L' & E & H1 & H2 & H3); [unfold small in Hsm; lia|].
    exists c, m', L'. split; [done|]. unfold insert_pos.
    destruct (Z.leb_spec 0 n), (Z.ltb_spec n (Z.of_nat (length xs))); cbn [andb]; try lia; by rewrite take_ge, drop_ge by lia.
  - step (load_run m fr l _ (seg_lookup _ _ _ _ _ _ _ (lst_seg _ _ _ HL))). cbn [idata inext iprev].
    destruct (Z.eqb_spec d 0) as [|_]; [done|]. destruct (Z.eqb_spec (Z.of_nat (length xs)) n) as [<-|Hne].
    + destruct (link_before R m fr L xs l d ys data Ho HL Hsm) as (c & m' & L' & E & H1 & H2 & H3).
      { intros ->. cbn in Hx. by destruct Hx. }
      exists c, m', L'. split; [exact E|]. unfold insert_pos.
      rewrite (proj2 (Z.leb_le 0 (Z.of_nat (length xs)))) by lia. rewrite (proj2 (Z.ltb_lt _ _)) by (rewrite length_app; cbn; lia).
      cbn [andb]. rewrite Nat2Z.id, take_app_length, drop_app_length. done.
    + rewrite cons_middle, app_assoc in Ho, HL, Hsm |- *.
      replace (Z.of_nat (length xs) + 1) with (Z.of_nat (length (xs ++ [(l, d)]))) by (rewrite length_app; cbn; lia).
      apply IH; try done; [cbn in Hf; lia|left; by destruct xs|rewrite length_app; cbn; lia].
Qed.

Lemma insert_spec R m fr L xs n data :
  owns R m (xs.*1) → lst L m xs → small xs → nz xs →
  ∃ c m' L', ls_insert L n data (mkHeap m fr) = Some ((c, L'), mkHeap m' fr)
    ∧ let k := insert_pos n (length xs) in let zs := take k xs ++ (c, data) :: drop k xs in
      owns R m' (zs.*1) ∧ lst L' m' zs ∧ same_fns L L'.
Proof.
  intros Ho HL Hsm Hnz. unfold ls_insert. rewrite (lst_head _ _ _ HL).
  destruct (prepend_spec R m fr L xs data Ho HL) as (c & m' & L' & E & H1 & H2 & H3); [unfold small in Hsm; lia|].
  destruct xs as [|[l d] xs0] eqn:Exs; cbn [hd_ptr].
  - exists c, m', L'. split; [done|]. unfold insert_pos. by rewrite take_nil, drop_nil.
  - rewrite <- Exs in *. assert (hd_ptr xs None = Some l) as Eh by (by rewrite Exs). destruct (Z.eqb_spec n 0) as [->|Hn].
    + exists c, m', L'. split; [done|]. unfold insert_pos. rewrite (proj2 (Z.ltb_lt _ _)) by (rewrite Exs; cbn; lia). done.
    + step (cells_run m fr). rewrite <- Eh. apply (insert_loop_spec R m fr L [] xs n data); try done; [by apply (owns_fuel R m [])|by right|cbn; lia].
Qed.

(** The four cases of [ls_del_n] are the two conditional links of [ls_split_iter]. *)
Lemma del_n_relink m fr L xs l d ys m1 m2 :
  lst L m (xs ++ (l, d) :: ys) →
  when (last_ptr xs None) (λ p, set_n p (hd_ptr ys None)) (mkHeap m fr) = Some ((), mkHeap m1 fr) →
  when (hd_ptr ys None) (λ n, set_p n (last_ptr xs None)) (mkHeap m1 fr) = Some ((), mkHeap m2 fr) →
  ∃ L1, (match last_ptr xs None, hd_ptr ys None with
         | None, None => mret (with_ends L None None (llength L))
         | None, Some nx => _ ← set_p nx None; mret (with_ends L (Some nx) (ltail L) (llength L))
         | Some pv, None => _ ← set_n pv None; mret (with_ends L (lhead L) (Some pv) (llength L))
         | Some pv, Some nx => _ ← set_n pv (Some nx); _ ← set_p nx (Some pv); mret L
         end) (mkHeap m fr) = Some (L1, mkHeap m2 fr)
    ∧ lhead L1 = hd_ptr (xs ++ ys) None ∧ ltail L1 = last_ptr (xs ++ ys) None ∧ llength L1 = llength L ∧ same_fns L L1.
Proof.
  intros HL E1 E2. pose proof (lst_head _ _ _ HL) as Hh. pose proof (lst_tail _ _ _ HL) as Ht.
  rewrite hd_ptr_app, last_ptr_app in *. rewrite last_ptr_cons in Ht.
  assert (∀ p q, ys ≠ [] → last_ptr ys p = last_ptr ys q) as Hly by (intros p q ?; by apply last_ptr_nonempty).
  assert (last_ptr xs None = None → xs = []) as Hx0
    by (intros E; destruct xs as [|x xs]; [done|]; destruct (last_ptr_nonempty (x :: xs) None None) as [_ [? ?]]; [done|congruence]).
  destruct (last_ptr xs None) as [pv|] eqn:Ep, (hd_ptr ys None) as [nx|] eqn:En; cbn [when] in E1, E2.
  - step E1. step E2. ret. eexists. split; [done|]. split_and!; [rewrite Hh; by destruct xs as [|[]]| |done|done].
    rewrite Ht. apply Hly. by intros ->.
  - unfold mret, H_ret in E2. injection E2 as <-. step E1. ret. eexists. split; [done|].
    split_and!; [cbn; rewrite Hh; by destruct xs as [|[]]|by destruct ys as [|[]]|done|done].
  - unfold mret, H_ret in E1. injection E1 as <-. step E2. ret. eexists. split; [done|].
    split_and!; [by rewrite (Hx0 eq_refl)| |done|done]. cbn. rewrite Ht. apply Hly. by intros ->.
  - unfold mret, H_ret in E1, E2. injection E1 as <-. injection E2 as <-. eexists. split; [done|].
    split_and!; [by rewrite (Hx0 eq_refl)|by destruct ys as [|[]]|done|done].
Qed.

Lemma del_n_loop_spec R m fr L xs ys n fuel :
  owns R m ((xs ++ ys).*1) → lst L m (xs ++ ys) → small (xs ++ ys) → nz ys → (length ys < fuel)%nat →
  (n < 0 ∨ Z.of_nat (length xs) <= n) →
  ∃ m' L', del_n_loop fuel L (hd_ptr ys None) (Z.of_nat (length xs)) n (mkHeap m fr)
      = Some ((bool_decide (0 <= n < Z.of_nat (length (xs ++ ys))), L'), mkHeap m' fr)
    ∧ let zs := if decide (0 <= n) then delete (Z.to_nat n) (xs ++ ys) else xs ++ ys in
      owns R m' (zs.*1) ∧ lst L' m' zs ∧ same_fns L L'.
Proof.
  intros Ho HL Hsm Hnz. revert xs fuel Ho HL Hsm. induction Hnz as [|[l d] ys Hd _ IH]; intros xs fuel Ho HL Hsm Hf Hpos;
    (destruct fuel as [|fuel]; [cbn in Hf; lia|]); cbn [del_n_loop hd_ptr].
  - rewrite app_nil_r in *. rewrite bool_decide_false by lia. exists m, L. split; [done|]. destruct (decide (0 <= n)); [|done].
    by rewrite delete_take_drop, take_ge, drop_ge, app_nil_r by lia.
  - destruct (unlink_spec m fr xs l d ys (owns_nodup _ _ _ Ho) (lst_seg _ _ _ HL)) as (m1 & m2 & E1 & E2 & _ & Em2 & Hseg & Hown).
    step (load_run m fr l _ (seg_lookup _ _ _ _ _ _ _ (lst_seg _ _ _ HL))). cbn [idata inext iprev].
    destruct (Z.eqb_spec d 0) as [|_]; [done|]. destruct (Z.eqb_spec (Z.of_nat (length xs)) n) as [<-|Hne].
    + rewrite bool_decide_true by (rewrite length_app; cbn; lia). rewrite decide_True by lia.
      rewrite Nat2Z.id, delete_middle.
      destruct (del_n_relink m fr L xs l d ys m1 m2 HL E1 E2) as (L1 & EL1 & Hh1 & Ht1 & Hl1 & Hf1).
      step EL1. step (free_cell_run m2 fr l _ Em2). ret. do 2 eexists. split; [done|]. split_and!; [by apply Hown| |exact Hf1].
      eapply (lst_unlinked _ m xs l d ys L HL); cbn [lhead ltail llength with_ends]; try done; [by rewrite Hl1|unfold small in Hsm; lia].
    + clear E1 E2 Em2 Hseg Hown. rewrite cons_middle, app_assoc in Ho, HL, Hsm |- *.
      replace (Z.of_nat (length xs) + 1) with (Z.of_nat (length (xs ++ [(l, d)]))) by (rewrite length_app; cbn; lia).
      apply IH; try done; [cbn in Hf; lia|rewrite length_app; cbn; lia].
Qed.
