(* ===== verification/LsSort.v ===== *)
(** * Sorting linked lists ([ls_sort] of [src/ls.c])

    The exchange sort swaps the data of cells, the merge sort relinks the cells.  Both
    are shown to leave an ordered permutation in a well-linked list, for a comparator
    that is a total preorder; the last theorem states the whole interface of the lists
    as a step relation on sequences. *)

From S2P Require Import Prelude Ls.

(** ** The exchange sort on sequences *)

Section pure.
Context (c : Z → Z → Z).

(** One run of the inner loop: the element that ends up in front, and the others. *)
Fixpoint sift (x : Z) (ys : list Z) : Z * list Z :=
  match ys with
  | [] => (x, [])
  | y :: ys' =>
      if 0 <? c x y then let r := sift y ys' in (r.1, x :: r.2)
      else let r := sift x ys' in (r.1, y :: r.2)
  end.

Fixpoint exchange (fuel : nat) (xs : list Z) : list Z :=
  match fuel, xs with
  | S fuel', x :: xs' => let r := sift x xs' in r.1 :: exchange fuel' r.2
  | _, _ => xs
  end.

Lemma sift_perm x ys : (sift x ys).1 :: (sift x ys).2 ≡ₚ x :: ys.
Proof.
  revert x. induction ys as [|y ys IH]; intros x; cbn; [done|]. case_if; cbn [fst snd].
  - rewrite perm_swap, IH. done.
  - rewrite perm_swap, IH, perm_swap. done.
Qed.

Lemma sift_length x ys : length (sift x ys).2 = length ys.
Proof. pose proof (Permutation_length (sift_perm x ys)) as E. cbn in E. lia. Qed.

Context (Htotal : ∀ a b, c a b <= 0 ∨ c b a <= 0) (Htrans : ∀ a b d, c a b <= 0 → c b d <= 0 → c a d <= 0).

Lemma sift_min x ys : c (sift x ys).1 x <= 0 ∧ Forall (λ y, c (sift x ys).1 y <= 0) (sift x ys).2.
Proof.
  assert (∀ a, c a a <= 0) as Hrefl by (intros a; by destruct (Htotal a a)).
  revert x. induction ys as [|y ys IH]; intros x; cbn; [split; [apply Hrefl|constructor]|].
  destruct (Z.ltb_spec 0 (c x y)) as [Hxy|Hxy]; cbn [fst snd].
  - destruct (IH y) as [H1 H2]. assert (c (sift y ys).1 x <= 0) by (destruct (Htotal x y); [lia|eauto]). split; [done|by constructor].
  - destruct (IH x) as [H1 H2]. split; [done|]. constructor; eauto.
Qed.

Lemma exchange_perm fuel xs : exchange fuel xs ≡ₚ xs.
Proof.
  revert xs. induction fuel as [|fuel IH]; intros [|x xs]; cbn; try done. rewrite IH. apply sift_perm.
Qed.

Lemma exchange_sorted fuel xs : (length xs <= fuel)%nat → StronglySorted (λ a b, c a b <= 0) (exchange fuel xs).
Proof.
  revert xs. induction fuel as [|fuel IH]; intros [|x xs] Hf; cbn in *; try constructor; try lia.
  - apply IH. rewrite sift_length. lia.
  - rewrite exchange_perm. apply sift_min.
Qed.
End pure.

(** ** The exchange sort in the heap *)

Section sort.
Context (cmpf : nat → Z → Z → Z) (cmp : nat).
Implicit Types (m : gmap loc SdbListIter) (xs ys zs : list cell).

(** Cells [xs] with the data [ds] instead of theirs. *)
Definition redata xs (ds : list Z) : list cell := zip (xs.*1) ds.

Lemma redata_fst xs ds : length ds = length xs → (redata xs ds).*1 = xs.*1.
Proof. intros E. apply fst_zip. rewrite length_fmap. lia. Qed.

Lemma redata_snd xs ds : length ds = length xs → (redata xs ds).*2 = ds.
Proof. intros E. apply snd_zip. rewrite length_fmap. lia. Qed.

Lemma hd_ptr_redata xs ds e : length ds = length xs → hd_ptr (redata xs ds) e = hd_ptr xs e.
Proof. destruct xs as [|[l d] xs], ds; try done. Qed.

Lemma relinked_refl m xs : relinked m m xs.
Proof. done. Qed.

Lemma relinked_trans m m1 m2 xs ys zs :
  xs.*1 ⊆ zs.*1 → ys.*1 ⊆ zs.*1 → relinked m m1 xs → relinked m1 m2 ys → relinked m m2 zs.
Proof.
  intros Hx Hy [Ho1 Hw1] [Ho2 Hw2]. split.
  - intros l Hl. rewrite Ho2, Ho1; [done|..]; intros ?; apply Hl; auto.
  - intros R ls Hs Ho. apply Hw2; [set_solver|]. apply Hw1; [set_solver|done].
Qed.

Lemma exchange_loop_spec m fr l0 x n0 p0 q ys fuel :
  m !! l0 = Some (mkIter x n0 p0) → seg m q ys None → NoDup (l0 :: ys.*1) → nz ys → x ≠ 0 → (length ys < fuel)%nat →
  ∃ m', exchange_loop cmpf fuel cmp l0 (hd_ptr ys None) (mkHeap m fr) = Some ((), mkHeap m' fr)
    ∧ m' !! l0 = Some (mkIter (sift (cmpf cmp) x (ys.*2)).1 n0 p0)
    ∧ seg m' q (redata ys (sift (cmpf cmp) x (ys.*2)).2) None ∧ relinked m m' ((l0, x) :: ys).
Proof.
  intros Hl0 Hs Hn Hnz. revert m x q fuel Hl0 Hs Hn. induction Hnz as [|[l d] ys Hd _ IH]; intros m x q fuel Hl0 Hs Hn Hx Hf;
    (destruct fuel as [|fuel]; [cbn in Hf; lia|]); cbn [exchange_loop hd_ptr].
  { exists m. split_and!; done. }
  destruct Hs as [Hl Hs]. cbn in Hn. apply NoDup_cons in Hn as [Hnl0 Hn]. apply not_elem_of_cons in Hnl0 as [Hne Hnl0].
  pose proof Hn as [Hnl _]%NoDup_cons.
  step (load_run m fr l _ Hl). cbn [idata inext]. destruct (Z.eqb_spec d 0) as [|_]; [done|].
  step (load_run m fr l0 _ Hl0). cbn [idata fmap list_fmap snd sift]. destruct (0 <? cmpf cmp x d).
  - set (m1 := <[l := mkIter x (hd_ptr ys None) q]> (<[l0 := mkIter d n0 p0]> m)).
    assert ((_ ← set_data l0 d; set_data l x) (mkHeap m fr) = Some ((), mkHeap m1 fr)) as E1.
    { step (set_data_run m fr l0 x n0 p0 d Hl0). apply (set_data_run _ fr l d). by rewrite lookup_insert_ne. }
    step E1. destruct (IH m1 d (Some l) fuel) as (m' & E & Hm' & Hs' & Hr); subst m1.
    + rewrite lookup_insert_ne by done. by rewrite lookup_insert_eq.
    + by do 2 (apply seg_insert; [done|]).
    + by constructor; [|apply NoDup_cons in Hn as [_ ?]].
    + done.
    + cbn in Hf. lia.
    + exists m'. cbn [fst snd]. split_and!; [done|done| |].
      * cbn [redata fmap list_fmap fst zip zip_with seg]. fold (redata ys (sift (cmpf cmp) d ys.*2).2).
        rewrite hd_ptr_redata by (by rewrite sift_length, length_fmap). split; [|done].
        rewrite (proj1 Hr) by (cbn; by apply not_elem_of_cons). by rewrite lookup_insert_eq.
      * eapply (relinked_trans m _ m' ((l0, x) :: (l, d) :: ys)); [reflexivity| |eapply relinked_trans; [reflexivity|reflexivity|..]|exact Hr].
        -- cbn. set_solver.
        -- apply relinked_insert. by left.
        -- apply relinked_insert. right. by left.
  - unfold mbind at 1, H_bind at 1. ret. destruct (IH m x (Some l) fuel) as (m' & E & Hm' & Hs' & Hr); try done.
    + by constructor; [|apply NoDup_cons in Hn as [_ ?]].
    + cbn in Hf. lia.
    + exists m'. cbn [fst snd]. split_and!; [done|done| |].
      * cbn [redata fmap list_fmap fst zip zip_with seg]. fold (redata ys (sift (cmpf cmp) x ys.*2).2).
        rewrite hd_ptr_redata by (by rewrite sift_length, length_fmap). split; [|done].
        rewrite (proj1 Hr) by (cbn; by apply not_elem_of_cons). done.
      * eapply (relinked_trans m m m' [] ((l0, x) :: ys)); [cbn; set_solver|cbn; set_solver|apply relinked_refl|exact Hr].
Qed.

Lemma nz_snd xs : nz xs ↔ Forall (λ d, d ≠ 0) (xs.*2).
Proof. unfold nz. by rewrite Forall_fmap. Qed.

Lemma redata_redata xs ds es : length ds = length xs → redata (redata xs ds) es = redata xs es.
Proof. intros E. unfold redata at 1. by rewrite redata_fst. Qed.

Lemma insertion_sort_loop_spec n m fr p xs fuel :
  length xs = n → seg m p xs None → NoDup (xs.*1) → nz xs → (length xs < fuel)%nat →
  ∃ m', insertion_sort_loop cmpf fuel cmp (hd_ptr xs None) (mkHeap m fr) = Some ((), mkHeap m' fr)
    ∧ seg m' p (redata xs (exchange (cmpf cmp) n (xs.*2))) None ∧ relinked m m' xs.
Proof.
  revert m p xs fuel. induction n as [|n IH]; intros m p [|[l x] ys] fuel Hn Hs Hnd Hnz Hf; try done;
    (destruct fuel as [|fuel]; [cbn in Hf; lia|]); cbn [insertion_sort_loop hd_ptr]; [exists m; done|].
  cbn [length] in Hn, Hf. injection Hn as Hn. apply Forall_cons in Hnz as [Hx Hnz]. cbn [snd] in Hx. destruct Hs as [Hl Hs].
  step (load_run m fr l _ Hl). cbn [idata inext]. destruct (Z.eqb_spec x 0) as [|_]; [done|].
  destruct (exchange_loop_spec m fr l x _ _ (Some l) ys (S fuel) Hl Hs Hnd Hnz Hx) as (m1 & E1 & Hl1 & Hs1 & Hr1); [lia|]. step E1.
  set (ds := (sift (cmpf cmp) x ys.*2).2) in *. assert (length ds = length ys) as Hds by (subst ds; by rewrite sift_length, length_fmap).
  assert (length (exchange (cmpf cmp) n ds) = length ys) as Hex by (by rewrite (Permutation_length (exchange_perm _ _ _))).
  pose proof Hnd as [Hnl Hnd']%NoDup_cons.
  destruct (IH m1 (Some l) (redata ys ds) fuel) as (m' & E & Hs' & Hr).
  - rewrite <- Hn, <- (length_fmap fst), redata_fst by done. by rewrite length_fmap.
  - done.
  - by rewrite redata_fst.
  - rewrite nz_snd, redata_snd by done. assert (Forall (λ d, d ≠ 0) ((sift (cmpf cmp) x ys.*2).1 :: ds)) as Hall.
    { subst ds. rewrite (sift_perm (cmpf cmp) x ys.*2). constructor; [done|by apply nz_snd]. }
    by apply Forall_cons in Hall as [_ ?].
  - rewrite <- (length_fmap fst), redata_fst, length_fmap by done. lia.
  - rewrite hd_ptr_redata in E by done. exists m'. rewrite redata_snd, redata_redata in Hs' by done. split_and!; [done| |].
    + cbn [redata fmap list_fmap fst snd exchange zip zip_with seg]. fold ds. fold (redata ys (exchange (cmpf cmp) n ds)).
      rewrite hd_ptr_redata by done. split; [|done]. rewrite (proj1 Hr) by (by rewrite redata_fst). exact Hl1.
    + eapply relinked_trans; [reflexivity| |exact Hr1|exact Hr]. rewrite redata_fst by done. cbn. set_solver.
Qed.

(** ** Merging *)

Definition le_cell (a b : cell) : Prop := cmpf cmp a.2 b.2 <= 0.
#[local] Instance le_cell_dec a b : Decision (le_cell a b) := Z_le_dec _ _.

(** Appending the chosen cell to the result. *)
Lemma merge_link {A} m fr zs e l d n p (f : option loc → option loc → H A) :
  NoDup (zs.*1) → l ∉ zs.*1 → seg m None zs e → m !! l = Some (mkIter d n p) →
  ∃ m', (match hd_ptr zs None, last_ptr zs None with
         | None, _ => _ ← set_p l None; f (Some l) (Some l)
         | Some _, Some r => _ ← set_n r (Some l); _ ← set_p l (Some r); f (Some l) (hd_ptr zs None)
         | Some _, None => λ _, None
         end) (mkHeap m fr) = f (last_ptr (zs ++ [(l, d)]) None) (hd_ptr (zs ++ [(l, d)]) None) (mkHeap m' fr)
    ∧ seg m' None (zs ++ [(l, d)]) n ∧ relinked m m' (zs ++ [(l, d)]).
Proof.
  intros Hn Hlz Hs Hl. destruct (when_last m fr zs e (Some l) Hn Hs) as (m1 & E1 & Hr1 & Hs1).
  assert (m1 !! l = Some (mkIter d n p)) as Hl1 by (by rewrite (proj1 Hr1)).
  exists (<[l := mkIter d n (last_ptr zs None)]> m1). rewrite last_ptr_app, hd_ptr_app. cbn [last_ptr last hd_ptr]. split_and!.
  - destruct zs as [|z zs0] eqn:Ez.
    + cbn in *. unfold mret, H_ret in E1. injection E1 as <-. by step (set_p_run m fr l d n p None Hl).
    + rewrite <- Ez in *. assert (zs ≠ []) as Hz by (by rewrite Ez). destruct (last_ptr_nonempty zs None None Hz) as [_ [r Er]].
      rewrite Er in *. cbn [when] in E1. assert (hd_ptr zs None = Some z.1 ∧ hd_ptr zs (Some l) = Some z.1) as [-> ->] by (rewrite Ez; by destruct z).
      step E1. by step (set_p_run m1 fr l d n p (Some r) Hl1).
  - rewrite seg_app. cbn [seg hd_ptr]. split_and!; [by apply seg_insert|by rewrite lookup_insert_eq|done].
  - eapply (relinked_trans m m1 _ zs [(l, d)]); [rewrite fmap_app; set_solver|rewrite fmap_app; set_solver|done|].
    apply relinked_insert. by left.
Qed.

Lemma merge_loop_spec k m fr zs e p1 xs p2 ys fuel :
  (length xs + length ys = k)%nat → (k < fuel)%nat → NoDup ((zs ++ xs ++ ys).*1) →
  seg m None zs e → seg m p1 xs None → seg m p2 ys None →
  ∃ m', merge_loop cmpf fuel cmp (hd_ptr xs None) (hd_ptr ys None) (last_ptr zs None) (hd_ptr zs None) (mkHeap m fr)
      = Some (hd_ptr (zs ++ list_merge le_cell xs ys) None, mkHeap m' fr)
    ∧ seg m' None (zs ++ list_merge le_cell xs ys) None ∧ relinked m m' (zs ++ xs ++ ys).
Proof.
  revert m zs e p1 xs p2 ys fuel. induction k as [|k IH]; intros m zs e p1 xs p2 ys [|fuel] Hk Hf Hn Hz Hx Hy; try lia.
  { destruct xs, ys; cbn in Hk; try lia. cbn [merge_loop hd_ptr list_merge app] in *. rewrite app_nil_r in *.
    assert (when (hd_ptr zs None) (λ l, set_p l None) (mkHeap m fr) = Some ((), mkHeap m fr)) as E0.
    { destruct zs as [|[l d] zs]; [done|]. cbn [hd_ptr when]. destruct Hz as [Hl _]. rewrite (set_p_run m fr l d _ _ None Hl). by rewrite insert_id. }
    step E0. destruct (when_last m fr zs e None Hn Hz) as (m' & E1 & Hr & Hs). step E1. ret. by exists m'. }
  (* the chosen cell [l] goes to the end of [zs]; [xs'] and [ys'] are left *)
  assert (∀ l d n p xs' ys' q1 q2, m !! l = Some (mkIter d n p) → zs ++ xs ++ ys ≡ₚ (zs ++ [(l, d)]) ++ xs' ++ ys' →
    (length xs' + length ys' = k)%nat → seg m q1 xs' None → seg m q2 ys' None →
    list_merge le_cell xs ys = (l, d) :: list_merge le_cell xs' ys' →
    ∃ m', (match hd_ptr zs None, last_ptr zs None with
         | None, _ => _ ← set_p l None; merge_loop cmpf fuel cmp (hd_ptr xs' None) (hd_ptr ys' None) (Some l) (Some l)
         | Some _, Some r => _ ← set_n r (Some l); _ ← set_p l (Some r); merge_loop cmpf fuel cmp (hd_ptr xs' None) (hd_ptr ys' None) (Some l) (hd_ptr zs None)
         | Some _, None => λ _, None
         end) (mkHeap m fr) = Some (hd_ptr (zs ++ list_merge le_cell xs ys) None, mkHeap m' fr)
    ∧ seg m' None (zs ++ list_merge le_cell xs ys) None ∧ relinked m m' (zs ++ xs ++ ys)) as Hstep.
  { intros l d n p xs' ys' q1 q2 Hl Hperm Hlen Hx' Hy' Em. rewrite Hperm in Hn.
    pose proof Hn as Hn'. rewrite fmap_app in Hn'. apply NoDup_app in Hn' as (Hnz & Hd & _).
    assert (NoDup (zs.*1) ∧ l ∉ zs.*1) as [Hnz0 Hlz].
    { rewrite fmap_app in Hnz. apply NoDup_app in Hnz as (? & Hd0 & _). split; [done|]. intros ?. apply (Hd0 l); [done|by left]. }
    destruct (merge_link m fr zs e l d n p (merge_loop cmpf fuel cmp (hd_ptr xs' None) (hd_ptr ys' None)) Hnz0 Hlz Hz Hl) as (m1 & -> & Hs1 & Hr1).
    assert (∀ q ws, ws.*1 ⊆ (xs' ++ ys').*1 → seg m q ws None → seg m1 q ws None) as Hfr.
    { intros q ws Hws. apply seg_frame. intros a Ha. apply (proj1 Hr1). intros Hin. apply (Hd a Hin). auto. }
    destruct (IH m1 (zs ++ [(l, d)]) n q1 xs' q2 ys' fuel Hlen) as (m' & E & Hs' & Hr'); [lia|done|done|..].
    - apply Hfr; [rewrite fmap_app; set_solver|done].
    - apply Hfr; [rewrite fmap_app; set_solver|done].
    - exists m'. rewrite Em. rewrite <- app_assoc in E, Hs'. split_and!; [done|done|].
      eapply relinked_trans; [| |exact Hr1|exact Hr']; rewrite Hperm; [|done]. rewrite (fmap_app _ (zs ++ _)). set_solver. }
  cbn [merge_loop]. destruct xs as [|[l1 d1] xs], ys as [|[l2 d2] ys]; cbn [length] in Hk; try lia; cbn [hd_ptr].
  - destruct Hy as [Hl2 Hy]. unfold mbind at 1, H_bind at 1. step (load_run m fr l2 _ Hl2). ret. cbn [inext].
    eapply (Hstep l2 d2 _ _ [] ys); [done|cbn; solve_Permutation|cbn in *; lia|done|done|by destruct ys].
  - destruct Hx as [Hl1 Hx]. unfold mbind at 1, H_bind at 1. step (load_run m fr l1 _ Hl1). ret. cbn [inext].
    eapply (Hstep l1 d1 _ _ xs []); [done|cbn; solve_Permutation|cbn in *; lia|done|done|by destruct xs].
  - destruct Hy as [Hl2 Hy], Hx as [Hl1 Hx]. unfold mbind at 1, H_bind at 1. step (load_run m fr l1 _ Hl1). step (load_run m fr l2 _ Hl2).
    cbn [inext idata]. rewrite list_merge_cons in *. destruct (Z.leb_spec (cmpf cmp d1 d2) 0) as [Hle|Hle]; ret.
    + rewrite decide_True in * by exact Hle. eapply (Hstep l1 d1 _ _ xs ((l2, d2) :: ys)); [done|cbn; solve_Permutation|cbn in *; lia|done|split; done|done].
    + rewrite decide_False in * by (unfold le_cell; cbn; lia).
      eapply (Hstep l2 d2 _ _ ((l1, d1) :: xs) ys); [done|cbn; solve_Permutation|cbn in *; lia|split; done|done|done].
Qed.

(** ** Splitting *)

Lemma seg_cell m p xs i l d e : seg m p xs e → xs !! i = Some (l, d) → ∃ q, m !! l = Some (mkIter d (hd_ptr (drop (S i) xs) e) q).
Proof.
  intros Hs Hi. rewrite <- (take_drop_middle xs i (l, d) Hi) in Hs. eexists. by apply (seg_lookup m p (take i xs)).
Qed.

(** [slow] walks [ss], [fast] walks [fs] two cells at a time. *)
Lemma split_walk_spec k m fr p q ss fs l fuel count :
  length fs = k → (length fs < fuel)%nat → seg m p ss None → seg m q fs None → fs ≠ [] → (length fs <= length ss)%nat →
  hd_ptr ss None = Some l →
  ∃ l' d', ss !! ((length fs - 1) / 2)%nat = Some (l', d')
    ∧ split_walk fuel l (hd_ptr fs None) count (mkHeap m fr) = Some ((l', (count + (length fs - 1) / 2)%nat), mkHeap m fr).
Proof.
  revert p q ss fs l fuel count. induction k as [k IH] using lt_wf_ind; intros p q ss fs l fuel count Hk Hf Hs Hfs Hne Hle Hl.
  destruct fuel as [|fuel]; [lia|]. destruct fs as [|[f0 e0] [|[f1 e1] [|[f2 e2] fs]]]; try done; cbn [split_walk hd_ptr].
  - destruct ss as [|[l1 d1] ss]; [done|]. cbn in Hl. injection Hl as ->. exists l, d1. split; [done|].
    step (load_run m fr f0 _ (proj1 Hfs)). cbn. by rewrite Nat.add_0_r.
  - destruct ss as [|[l1 d1] ss]; [done|]. cbn in Hl. injection Hl as ->. exists l, d1. split; [done|].
    step (load_run m fr f0 _ (proj1 Hfs)). cbn [inext hd_ptr]. step (load_run m fr f1 _ (proj1 (proj2 Hfs))). cbn. by rewrite Nat.add_0_r.
  - destruct Hfs as (H0 & H1 & Hfs). step (load_run m fr f0 _ H0). cbn [inext hd_ptr]. step (load_run m fr f1 _ H1). cbn [inext hd_ptr].
    destruct ss as [|[l1 d1] [|[l2 d2] ss]]; cbn in Hle; try lia. cbn in Hl. injection Hl as ->. destruct Hs as [Hl Hs].
    step (load_run m fr l _ Hl). cbn [inext hd_ptr].
    destruct (IH (length ((f2, e2) :: fs)) ltac:(cbn in *; lia) (Some l) (Some f1) ((l2, d2) :: ss) ((f2, e2) :: fs) l2 fuel (S count)) as (l' & d' & Hi & E);
      [done|cbn in *; lia|done|done|done|cbn in *; lia|done|].
    assert ((length ((f0, e0) :: (f1, e1) :: (f2, e2) :: fs) - 1) / 2 = S ((length ((f2, e2) :: fs) - 1) / 2))%nat as ->.
    { cbn [length]. replace (S (S (S (length fs))) - 1)%nat with (length fs + 1 * 2)%nat by lia. rewrite Nat.div_add by lia.
      replace (S (length fs) - 1)%nat with (length fs) by lia. lia. }
    exists l', d'. split; [done|]. cbn [hd_ptr] in E. rewrite E. do 3 f_equal. lia.
Qed.

(** Either the list is short and stays, or it is cut in two nonempty parts. *)
Lemma list_split_spec R m fr p xs :
  owns R m (xs.*1) ∨ (length xs < S (base.size m))%nat → (1 < length xs)%nat → seg m p xs None → NoDup (xs.*1) →
  _sdb_list_split (hd_ptr xs None) (mkHeap m fr) = Some (None, mkHeap m fr)
  ∨ ∃ xs1 xs2 m' q, _sdb_list_split (hd_ptr xs None) (mkHeap m fr) = Some (hd_ptr xs2 None, mkHeap m' fr)
      ∧ xs = xs1 ++ xs2 ∧ xs1 ≠ [] ∧ xs2 ≠ [] ∧ seg m' p xs1 None ∧ seg m' q xs2 None ∧ relinked m m' xs.
Proof.
  intros Hsz Hlen Hs Hn. assert (length xs < S (base.size m))%nat as Hfuel.
  { destruct Hsz as [Ho|]; [|done]. pose proof (owns_size _ _ _ Ho) as Hz. rewrite length_fmap in Hz. lia. }
  destruct xs as [|[l1 d1] [|[l2 d2] xs0]] eqn:Exs; cbn in Hlen; try lia. cbn [hd_ptr _sdb_list_split].
  destruct Hs as [Hl1 Hs2]. step (load_run m fr l1 _ Hl1). cbn [inext hd_ptr]. rewrite <- Exs in *.
  assert (seg m p xs None) as Hs by (subst xs; by split). step (cells_run m fr).
  assert (hd_ptr xs None = Some l1) as Eh by (by rewrite Exs).
  destruct (split_walk_spec (length xs) m fr p p xs xs l1 (S (base.size m)) 0) as (l & d & Hi & E); try done; [by subst xs|].
  rewrite Eh in E. step E. cbn [fst snd]. destruct (Nat.ltb_spec (0 + (length xs - 1) / 2) MERGELIMIT) as [|Hk]; [by left|]. right.
  set (k := ((length xs - 1) / 2)%nat) in *.
  assert (S k < length xs)%nat as Hk2.
  { assert (2 <= length xs)%nat by (subst xs; cbn; lia). destruct (decide (length xs = 2)%nat) as [E2|].
    - unfold k in Hk. rewrite E2 in Hk. cbn in Hk. unfold MERGELIMIT in Hk. lia.
    - subst k. pose proof (Nat.div_mod (length xs - 1) 2 ltac:(lia)). pose proof (Nat.mod_upper_bound (length xs - 1) 2). lia. }
  clearbody k. exists (take (S k) xs), (drop (S k) xs). destruct (seg_cell m p xs k l d None Hs Hi) as (q & Hl).
  step (load_run m fr l _ Hl). step (set_n_run m fr l _ _ _ None Hl). ret. cbn [inext].
  assert (take (S k) xs = take k xs ++ [(l, d)]) as Et by (by apply take_S_r).
  assert (xs = (take k xs ++ [(l, d)]) ++ drop (S k) xs) as Ex by (by rewrite <- Et, take_drop).
  rewrite Ex in Hs, Hn. rewrite <- app_assoc in Hs, Hn. destruct (NoDup_mid _ _ _ _ Hn) as (_ & _ & Hlt & Hld & _).
  pose proof (seg_lookup _ _ _ _ _ _ _ Hs) as Hl'. rewrite Hl in Hl'. injection Hl' as ->.
  rewrite app_assoc in Hs. apply seg_app in Hs as [Hsa Hsb].
  do 2 eexists. split_and!; [done|by rewrite take_drop| | | | |].
  - rewrite Et. by destruct (take k xs).
  - intros E0. apply (f_equal length) in E0. rewrite length_drop in E0. cbn in E0. lia.
  - rewrite Et. exact (seg_set_last m p (take k xs) l d _ None Hlt Hsa).
  - apply seg_insert; done.
  - apply relinked_insert. apply list_elem_of_fmap. exists (l, d). split; [done|]. by eapply list_elem_of_lookup_2.
Qed.

Context (Htotal : ∀ a b, cmpf cmp a b <= 0 ∨ cmpf cmp b a <= 0)
        (Htrans : ∀ a b d, cmpf cmp a b <= 0 → cmpf cmp b d <= 0 → cmpf cmp a d <= 0).

Definition le_data (a b : Z) : Prop := cmpf cmp a b <= 0.

Lemma insertion_sort_spec m fr p xs :
  seg m p xs None → NoDup (xs.*1) → nz xs → (length xs < S (base.size m))%nat →
  ∃ m' ys, ls_insertion_sort_iter cmpf (hd_ptr xs None) cmp (mkHeap m fr) = Some ((), mkHeap m' fr)
    ∧ seg m' p ys None ∧ relinked m m' xs ∧ ys.*1 = xs.*1 ∧ ys.*2 ≡ₚ xs.*2 ∧ Sorted le_data (ys.*2).
Proof.
  intros Hs Hn Hnz Hf. unfold ls_insertion_sort_iter. step (cells_run m fr).
  destruct (insertion_sort_loop_spec (length xs) m fr p xs (S (base.size m))) as (m' & E & Hs' & Hr); try done.
  assert (length (exchange (cmpf cmp) (length xs) xs.*2) = length xs) as Hl
    by (rewrite (Permutation_length (exchange_perm _ _ _)); by rewrite length_fmap).
  exists m', (redata xs (exchange (cmpf cmp) (length xs) xs.*2)). rewrite redata_fst, redata_snd by done. split_and!; try done.
  - apply exchange_perm.
  - apply StronglySorted_Sorted, exchange_sorted; [done|done|]. by rewrite length_fmap.
Qed.

Lemma relinked_size m m' xs : NoDup (xs.*1) → (∀ l, l ∈ xs.*1 → is_Some (m !! l)) → relinked m m' xs → (length xs <= base.size m')%nat.
Proof.
  intros Hn Hin Hr. assert (owns (filter (λ x, x.1 ∉ xs.*1) m) m (xs.*1)) as Ho.
  { constructor; [done|..].
    - intros l Hl. split; [auto|]. apply map_lookup_filter_None. right. intros ? ?. cbn. tauto.
    - intros l Hl. symmetry. destruct (m !! l) as [it|] eqn:E; [by apply map_lookup_filter_Some|apply map_lookup_filter_None; by left]. }
  apply (proj2 Hr) in Ho; [|done]. apply owns_size in Ho. by rewrite length_fmap in Ho.
Qed.

Lemma seg_is_Some m p xs e l : seg m p xs e → l ∈ xs.*1 → is_Some (m !! l).
Proof.
  intros Hs [[l' d] [-> [i Hi]%list_elem_of_lookup]]%list_elem_of_fmap. destruct (seg_cell _ _ _ _ _ _ _ Hs Hi) as [? E]. cbn. rewrite E. eauto.
Qed.

Lemma le_cell_total : Total le_cell.
Proof. intros a b. apply Htotal. Qed.

Lemma Sorted_cells xs : Sorted le_data (xs.*2) → Sorted le_cell xs.
Proof.
  induction xs as [|x xs IH]; cbn; intros Hs; [constructor|]. apply Sorted_inv in Hs as [Hs Hh]. constructor; [by apply IH|].
  destruct xs; constructor. by apply HdRel_inv in Hh.
Qed.

Lemma merge_sort_rec_spec n m fr p xs fuel :
  (length xs < n)%nat → (length xs < fuel)%nat → seg m p xs None → NoDup (xs.*1) → nz xs → xs ≠ [] →
  ∃ m' ys q, merge_sort_rec cmpf fuel (hd_ptr xs None) cmp (mkHeap m fr) = Some (hd_ptr ys None, mkHeap m' fr)
    ∧ seg m' q ys None ∧ (p = None → q = None) ∧ relinked m m' xs ∧ ys.*1 ≡ₚ xs.*1 ∧ ys.*2 ≡ₚ xs.*2 ∧ Sorted le_data (ys.*2).
Proof.
  revert m p xs fuel. induction n as [|n IH]; intros m p xs fuel Hln Hf Hs Hn Hnz Hne; [lia|]. destruct fuel as [|fuel]; [lia|].
  destruct xs as [|[l1 d1] xs0] eqn:Exs; [done|]. cbn [hd_ptr merge_sort_rec]. step (load_run m fr l1 _ (proj1 Hs)). cbn [inext].
  destruct xs0 as [|[l2 d2] xs1] eqn:Exs0; cbn [hd_ptr].
  { exists m, [(l1, d1)], p. split_and!; try done. repeat constructor. }
  rewrite <- Exs in *. assert (1 < length xs)%nat as Hlen by (subst xs; cbn; lia). replace (Some l1) with (hd_ptr xs None) by (by subst xs).
  assert (length xs <= base.size m)%nat as Hsz.
  { apply (relinked_size m m xs Hn); [|apply relinked_refl]. intros l. by apply seg_is_Some with (1 := Hs). }
  destruct (list_split_spec ∅ m fr p xs) as [E|(xs2 & xs3 & m1 & q & E & Ex & Hx2 & Hx3 & Hs2 & Hs3 & Hr)]; [right; lia|done|done|done|..]; step E.
  { destruct (insertion_sort_spec m fr p xs Hs Hn Hnz) as (m' & ys & Ei & Hs' & Hr & H1 & H2 & H3); [lia|]. step Ei. ret.
    exists m', ys, p. split_and!; try done; [|by rewrite H1]. do 2 f_equal. subst xs. destruct ys as [|[] ?]; [done|]. cbn in *. congruence. }
  destruct xs3 as [|[l3 d3] xs3'] eqn:Exs3; [done|]. cbn [hd_ptr]. rewrite <- Exs3 in *. replace (Some l3) with (hd_ptr xs3 None) by (by subst xs3).
  replace (hd_ptr xs None) with (hd_ptr xs2 None) by (rewrite Ex; by destruct xs2 as [|[]]).
  pose proof Hn as Hn'. rewrite Ex, fmap_app in Hn'. apply NoDup_app in Hn' as (Hn2 & Hd & Hn3).
  rewrite Ex in Hnz. apply Forall_app in Hnz as [Hnz2 Hnz3]. assert (length xs = length xs2 + length xs3)%nat as Hl by (by rewrite Ex, length_app).
  assert (0 < length xs2)%nat by (destruct xs2; [done|cbn; lia]). assert (0 < length xs3)%nat by (destruct xs3; [done|cbn; lia]).
  destruct (IH m1 p xs2 fuel) as (m2 & ys2 & q2 & E2 & Hs2' & _ & Hr2 & Hp2 & Hq2 & Hso2); [lia|lia|done..|]. step E2.
  destruct (IH m2 q xs3 fuel) as (m3 & ys3 & q3 & E3 & Hs3' & _ & Hr3 & Hp3 & Hq3 & Hso3); [lia|lia| |done..|].
  { apply (seg_frame m1); [|done]. intros l Hl'. apply (proj1 Hr2). intros ?. by apply (Hd l). }
  step E3. unfold _merge. step (cells_run m3 fr).
  assert (∀ l, l ∈ xs.*1 → is_Some (m !! l)) as Hin by (intros l; by apply seg_is_Some with (1 := Hs)).
  assert (relinked m m3 xs) as Hr03.
  { eapply (relinked_trans m m2 m3 xs xs3); [done|rewrite Ex, fmap_app; set_solver| |exact Hr3].
    eapply (relinked_trans m m1 m2 xs xs2); [done|rewrite Ex, fmap_app; set_solver|exact Hr|exact Hr2]. }
  assert (ys2.*1 ++ ys3.*1 ≡ₚ xs.*1) as Hp by (rewrite Ex, fmap_app, Hp2, Hp3; done).
  pose proof (relinked_size m m3 xs Hn Hin Hr03) as Hsz3.
  assert (length ys2 + length ys3 = length xs)%nat as Hly by (apply Permutation_length in Hp; rewrite length_app, !length_fmap in Hp; done).
  destruct (merge_loop_spec (length ys2 + length ys3) m3 fr [] None q2 ys2 q3 ys3 (S (base.size m3))) as (m4 & E4 & Hs4 & Hr4); try done; [lia|..].
  - cbn. by rewrite fmap_app, Hp.
  - apply (seg_frame m2); [|done]. intros l Hl'. apply (proj1 Hr3). intros ?. rewrite Hp2 in Hl'. by apply (Hd l).
  - exists m4, (list_merge le_cell ys2 ys3), None. split_and!; [exact E4|done|done|..].
    + eapply relinked_trans; [reflexivity| |exact Hr03|exact Hr4]. cbn [app]. rewrite fmap_app. intros l Hl'. by rewrite <- Hp.
    + by rewrite merge_Permutation, fmap_app.
    + rewrite merge_Permutation, fmap_app, Hq2, Hq3, Ex, fmap_app. done.
    + apply Sorted_fmap with (R1 := le_cell); [done|]. apply Sorted_list_merge; [exact le_cell_total|by apply Sorted_cells..].
Qed.
End sort.

(** ** The sorted list *)

Lemma last_cell_spec m fr p xs fuel :
  seg m p xs None → (length xs < fuel)%nat →
  last_cell fuel (hd_ptr xs None) (mkHeap m fr) = Some (last_ptr xs None, mkHeap m fr).
Proof.
  revert p fuel. induction xs as [|[l d] xs IH]; intros p fuel Hs Hf; (destruct fuel as [|fuel]; [cbn in Hf; lia|]); [done|].
  destruct Hs as [Hl Hs]. cbn [last_cell hd_ptr]. step (load_run m fr l _ Hl). cbn [inext]. destruct xs as [|x xs]; [done|].
  specialize (IH (Some l) fuel Hs ltac:(cbn in *; lia)). rewrite last_ptr_cons.
  destruct (last_ptr_nonempty (x :: xs) (Some l) None) as [-> _]; [done|]. destruct x as [l2 d2]. cbn [hd_ptr] in *. exact IH.
Qed.

(** A total preorder, given as a three-way comparison. *)
Record good_cmp (c : Z → Z → Z) : Prop := {
  cmp_total : ∀ a b, c a b <= 0 ∨ c b a <= 0;
  cmp_trans : ∀ a b d, c a b <= 0 → c b d <= 0 → c a d <= 0
}.

Lemma lst_of L m xs ys h t len fn cm so :
  lst L m xs → length ys = length xs → ∀ m', seg m' None ys None → h = hd_ptr ys None → t = last_ptr ys None → len = llength L →
  lst (mkList len h t fn cm so) m' ys.
Proof. intros [_ _ Hl _] Hlen m' Hs -> -> ->. constructor; [done|done| |done]. cbn. by rewrite Hl, Hlen. Qed.

(** The end pointers depend on the addresses only. *)
Lemma ptrs_locs (ys xs : list cell) : ys.*1 = xs.*1 → hd_ptr ys None = hd_ptr xs None ∧ last_ptr ys None = last_ptr xs None.
Proof.
  intros Hp. split.
  - destruct xs as [|[]], ys as [|[]]; try done. cbn in *. congruence.
  - unfold last_ptr. apply (f_equal last) in Hp. rewrite !fmap_last in Hp. by destruct (last ys) as [[]|], (last xs) as [[]|]; cbn in *; try congruence.
Qed.

Lemma sort_spec cmpf cmp R m fr L xs :
  good_cmp (cmpf cmp) → owns R m (xs.*1) → lst L m xs → nz xs → lcmp L ≠ Some cmp →
  ∃ m' L' ys, ls_sort cmpf L cmp (mkHeap m fr) = Some ((true, L'), mkHeap m' fr)
    ∧ owns R m' (ys.*1) ∧ lst L' m' ys ∧ lfree L' = lfree L ∧ lcmp L' = Some cmp
    ∧ ys.*2 ≡ₚ xs.*2 ∧ Sorted (λ a b, cmpf cmp a b <= 0) (ys.*2).
Proof.
  intros [Htot Htr] Ho HL Hnz Hc. pose proof (owns_size _ _ _ Ho) as Hsz. rewrite length_fmap in Hsz.
  unfold ls_sort. rewrite bool_decide_false by done. pose proof HL as [Hh Ht Hl Hs]. rewrite Hl, Hh.
  destruct (Z.ltb_spec (Z.of_nat MERGELIMIT) (Z.of_nat (length xs))) as [Hlt|Hge].
  - assert (xs ≠ []) as Hne by (intros ->; cbn in Hlt; lia).
    destruct (merge_sort_rec_spec cmpf cmp Htot Htr (S (length xs)) m fr None xs (S (base.size m))) as (m' & ys & q & E & Hs' & Hq & Hr & Hp & Hd & Hso);
      [lia|lia|done|apply Ho|done|done|]. rewrite (Hq eq_refl) in Hs'.
    assert (owns R m' (ys.*1)) as Ho' by (eapply owns_perm; [symmetry; exact Hp|]; by apply (proj2 Hr)).
    assert (length ys = length xs) as Hly by (apply Permutation_length in Hp; by rewrite !length_fmap in Hp).
    assert (∃ so, ls_merge_sort cmpf L cmp (mkHeap m fr) = Some ((true, mkList (llength L) (hd_ptr ys None) (last_ptr ys None) (lfree L) (lcmp L) so), mkHeap m' fr)) as [so Em].
    { unfold ls_merge_sort. destruct (lhead L) as [h|] eqn:Eh; [|by destruct xs as [|[]]]. rewrite Hh. unfold _merge_sort.
      unfold mbind at 1, H_bind at 1. step (cells_run m fr). rewrite E. step (cells_run m' fr).
      step (last_cell_spec m' fr None ys (S (base.size m')) Hs' ltac:(apply owns_size in Ho'; rewrite length_fmap in Ho'; lia)). ret. eauto. }
    unfold mbind at 1, H_bind at 1. step Em. ret. cbn [snd lhead ltail llength lfree lcmp].
    do 3 eexists. split; [done|]. split_and!; [done| |done|done|done|done]. by eapply (lst_of L m xs ys).
  - destruct (insertion_sort_spec cmpf cmp Htot Htr m fr None xs Hs (owns_nodup _ _ _ Ho) Hnz) as (m' & ys & E & Hs' & Hr & Hp & Hd & Hso); [lia|].
    assert (length ys = length xs) as Hly by (apply (f_equal length) in Hp; by rewrite !length_fmap in Hp).
    unfold mbind at 1, H_bind at 1. step E. ret. do 3 eexists. split; [done|]. cbn [lhead ltail llength lfree lcmp].
    split_and!; [| |done|done|done|done].
    + rewrite Hp. by apply (proj2 Hr).
    + destruct (ptrs_locs ys xs Hp) as [E1 E2]. eapply lst_of; [exact HL|exact Hly|exact Hs'|congruence|congruence|done].
Qed.

(** ** The interface as a step relation *)

Inductive ls_op :=
| LAppend (d : Z) | LPrepend (d : Z) | LInsert (n d : Z)
| LPop | LPopHead | LDelN (n : Z) | LDeleteData (d : Z) | LSort (c : nat) | LDestroy.

(** What a client sees: the data, the comparator of the last sort, the data freed. *)
Record ls_view := mkView { vdata : list Z; vcmp : option nat; vfreed : list Z }.

Fixpoint remove_first (d : Z) (xs : list Z) : list Z :=
  match xs with [] => [] | x :: xs' => if x =? d then xs' else x :: remove_first d xs' end.

Inductive ls_spec (cmpf : nat → Z → Z → Z) (free : bool) : ls_op → ls_view → Z → ls_view → Prop :=
| S_append d xs c fr : ls_spec cmpf free (LAppend d) (mkView xs c fr) 0 (mkView (xs ++ [d]) c fr)
| S_prepend d xs c fr : ls_spec cmpf free (LPrepend d) (mkView xs c fr) 0 (mkView (d :: xs) c fr)
| S_insert n d xs c fr :
    let k := insert_pos n (length xs) in
    ls_spec cmpf free (LInsert n d) (mkView xs c fr) 0 (mkView (take k xs ++ d :: drop k xs) c fr)
| S_pop xs d c fr : ls_spec cmpf free LPop (mkView (xs ++ [d]) c fr) d (mkView xs c fr)
| S_pop_empty c fr : ls_spec cmpf free LPop (mkView [] c fr) 0 (mkView [] c fr)
| S_pop_head d xs c fr : ls_spec cmpf free LPopHead (mkView (d :: xs) c fr) d (mkView xs c fr)
| S_del_n n xs c fr : 0 <= n < Z.of_nat (length xs) →
    ls_spec cmpf free (LDelN n) (mkView xs c fr) 1 (mkView (delete (Z.to_nat n) xs) c fr)
| S_del_n_out n xs c fr : ¬ 0 <= n < Z.of_nat (length xs) → ls_spec cmpf free (LDelN n) (mkView xs c fr) 0 (mkView xs c fr)
| S_delete_data d xs c fr : d ∈ xs →
    ls_spec cmpf free (LDeleteData d) (mkView xs c fr) 1 (mkView (remove_first d xs) c (if free then fr ++ [d] else fr))
| S_delete_data_none d xs c fr : d ∉ xs → ls_spec cmpf free (LDeleteData d) (mkView xs c fr) 0 (mkView xs c fr)
| S_sort n xs ys c fr : c ≠ Some n → ys ≡ₚ xs → Sorted (λ a b, cmpf n a b <= 0) ys →
    ls_spec cmpf free (LSort n) (mkView xs c fr) 1 (mkView ys (Some n) fr)
| S_sort_again n xs fr : ls_spec cmpf free (LSort n) (mkView xs (Some n) fr) 0 (mkView xs (Some n) fr)
| S_destroy xs c fr : ls_spec cmpf free LDestroy (mkView xs c fr) 0 (mkView [] c (if free then fr ++ xs else fr)).

Definition b2z (b : bool) : Z := if b then 1 else 0.

(** A call, as a client makes it: nothing is tested before it. *)
Definition ls_call cmpf (o : ls_op) (L : SdbList) : H (Z * SdbList) :=
  match o with
  | LAppend d => r ← ls_append L d; mret (0, r.2)
  | LPrepend d => r ← ls_prepend L d; mret (0, r.2)
  | LInsert n d => r ← ls_insert L n d; mret (0, r.2)
  | LPop => ls_pop L
  | LPopHead => ls_pop_head L
  | LDelN n => r ← ls_del_n L n; mret (b2z r.1, r.2)
  | LDeleteData d => r ← ls_delete_data L d; mret (b2z r.1, r.2)
  | LSort c => r ← ls_sort cmpf L c; mret (b2z r.1, r.2)
  | LDestroy => L ← ls_destroy L; mret (0, L)
  end.

Definition ls_op_ok cmpf (o : ls_op) : Prop :=
  match o with
  | LAppend d | LPrepend d | LInsert _ d => d ≠ 0
  | LSort c => good_cmp (cmpf c)
  | _ => True
  end.

Definition view_of (L : SdbList) (xs : list cell) (fr : list Z) : ls_view := mkView (xs.*2) (lcmp L) fr.

(** The heap holds the list and [R], nothing else. *)
Record ls_state (R m : gmap loc SdbListIter) (L : SdbList) (xs : list cell) : Prop := {
  st_owns : owns R m (xs.*1);
  st_lst : lst L m xs;
  st_nz : nz xs
}.

Lemma remove_first_split ys1 d ys2 : d ∉ ys1 → remove_first d (ys1 ++ d :: ys2) = ys1 ++ ys2.
Proof.
  induction ys1 as [|y ys1 IH]; cbn; [by rewrite Z.eqb_refl|]. intros [Hy Hn]%not_elem_of_cons.
  destruct (Z.eqb_spec y d); [congruence|]. by rewrite IH.
Qed.

Lemma nz_app xs ys : nz (xs ++ ys) ↔ nz xs ∧ nz ys.
Proof. apply Forall_app. Qed.

(** What one call needs and gives. *)
Definition call_ok cmpf R o L m fr (xs : list cell) : Prop :=
  ∃ r L' m' ys fr', ls_call cmpf o L (mkHeap m fr) = Some ((r, L'), mkHeap m' fr')
    ∧ ls_state R m' L' ys ∧ (length ys <= S (length xs))%nat ∧ lfree L' = lfree L
    ∧ ls_spec cmpf (lfree L) o (view_of L xs fr) r (view_of L' ys fr').

Lemma call_pops cmpf R L m fr xs :
  ls_state R m L xs → small xs →
  call_ok cmpf R LPop L m fr xs ∧ (xs ≠ [] → call_ok cmpf R LPopHead L m fr xs).
Proof.
  intros [Ho HL Hnz] Hsm. unfold call_ok. cbn [ls_call]. split.
  - destruct xs as [|[l d] xs _] using rev_ind.
    + exists 0, L, m, [], fr. unfold ls_pop. rewrite (lst_tail _ _ _ HL). split_and!; [done|done|cbn; lia|done|constructor].
    + destruct (pop_spec R m fr L xs l d Ho HL Hsm) as (m' & L' & E & Ho' & HL' & [Hf Hc]). apply nz_app in Hnz as [Hnz _].
      exists d, L', m', xs, fr. split_and!; [done|done|rewrite length_app; cbn; lia|done|]. unfold view_of. rewrite fmap_app, Hc. constructor.
  - destruct xs as [|[l d] xs]; [done|]. intros _.
    destruct (pop_head_spec R m fr L l d xs Ho HL Hsm) as (m' & L' & E & Ho' & HL' & [Hf Hc]). apply Forall_cons in Hnz as [_ Hnz].
    exists d, L', m', xs, fr. split_and!; [done|done|cbn; lia|done|]. unfold view_of. cbn. rewrite Hc. constructor.
Qed.

Lemma call_grow cmpf R L m fr xs o d :
  ls_state R m L xs → small xs → d ≠ 0 → o = LAppend d ∨ o = LPrepend d ∨ (∃ n, o = LInsert n d) → call_ok cmpf R o L m fr xs.
Proof.
  intros [Ho HL Hnz] Hsm Hd [->|[->|[n ->]]]; unfold call_ok; cbn [ls_call].
  - destruct (append_spec R m fr L xs d Ho HL Hsm) as (l & m' & L' & E & Ho' & HL' & [Hf Hc]). exists 0, L', m', (xs ++ [(l, d)]), fr.
    step E. split_and!; [done| |rewrite length_app; cbn; lia|done|unfold view_of; rewrite fmap_app, Hc; constructor].
    constructor; [done..|]. apply nz_app. split; [done|by repeat constructor].
  - destruct (prepend_spec R m fr L xs d Ho HL Hsm) as (l & m' & L' & E & Ho' & HL' & [Hf Hc]). exists 0, L', m', ((l, d) :: xs), fr.
    step E. split_and!; [done| |cbn; lia|done|unfold view_of; cbn; rewrite Hc; constructor].
    constructor; [done..|by constructor].
  - destruct (insert_spec R m fr L xs n d Ho HL Hsm Hnz) as (l & m' & L' & E & Ho' & HL' & [Hf Hc]). step E.
    do 3 eexists. exists (take (insert_pos n (length xs)) xs ++ (l, d) :: drop (insert_pos n (length xs)) xs), fr. split_and!; [done| | |done|].
    + constructor; [done..|]. rewrite <- (take_drop (insert_pos n (length xs)) xs) in Hnz. apply nz_app in Hnz as [H1 H2].
      apply nz_app. split; [done|by constructor].
    + rewrite length_app, length_take. cbn. rewrite length_drop. lia.
    + unfold view_of. rewrite fmap_app, fmap_take. cbn. rewrite fmap_drop, Hc, <- (length_fmap snd xs). constructor.
Qed.

Lemma call_deletes cmpf R L m fr xs o :
  ls_state R m L xs → small xs → (∃ n, o = LDelN n) ∨ (∃ d, o = LDeleteData d) ∨ o = LDestroy → call_ok cmpf R o L m fr xs.
Proof.
  intros [Ho HL Hnz] Hsm Hop. pose proof (owns_fuel R m [] xs Ho) as Hfuel.
  destruct Hop as [[n ->]|[[d ->]| ->]]; unfold call_ok; cbn [ls_call].
  - unfold ls_del_n. rewrite (lst_head _ _ _ HL).
    destruct (del_n_loop_spec R m fr L [] xs n (S (base.size m)) Ho HL Hsm Hnz Hfuel) as (m' & L' & E & Ho' & HL' & [Hf Hc]); [cbn; lia|].
    cbn [app] in *. unfold mbind at 1, H_bind at 1. step (cells_run m fr). change (Z.of_nat (@length cell [])) with 0 in E. rewrite E. ret. cbn [fst snd].
    do 5 eexists. split; [done|]. split_and!; [constructor; [exact Ho'|exact HL'|]| |done|].
    + case_decide; [|done]. rewrite delete_take_drop. rewrite <- (take_drop (Z.to_nat n) xs), nz_app in Hnz. apply nz_app.
      split; [apply Hnz|].  destruct Hnz as [_ Hnz].
      replace (S (Z.to_nat n)) with (Z.to_nat n + 1)%nat by lia. rewrite <- drop_drop. by apply Forall_drop.
    + case_decide; [|lia]. rewrite delete_take_drop, length_app, length_take, length_drop. lia.
    + unfold view_of. rewrite Hc. destruct (decide (0 <= n < Z.of_nat (length xs))) as [Hin|Hout].
      * rewrite bool_decide_true, decide_True by lia. rewrite list_fmap_delete. constructor. by rewrite length_fmap.
      * rewrite bool_decide_false by done. case_decide.
        -- rewrite delete_take_drop, take_ge, drop_ge, app_nil_r by lia. apply S_del_n_out. by rewrite length_fmap.
        -- apply S_del_n_out. by rewrite length_fmap.
  - unfold ls_delete_data. rewrite (lst_head _ _ _ HL). unfold mbind at 1, H_bind at 1. step (cells_run m fr).
    destruct (delete_data_loop_spec R m fr L [] xs d (S (base.size m)) Ho HL Hsm Hnz Hfuel)
      as [(ys1 & l & ys2 & m' & L' & -> & Hn & E & Ho' & HL' & [Hf Hc])|[Hn E]]; rewrite E; ret; cbn [fst snd app] in *.
    + do 5 eexists. split; [done|]. apply nz_app in Hnz as [H1 H2]. apply Forall_cons in H2 as [Hd H2]. cbn [snd] in Hd.
      split_and!; [constructor; [done|done|by apply nz_app]|rewrite !length_app; cbn; lia|done|].
      unfold view_of, freed_by. rewrite !fmap_app, Hc. cbn. rewrite <- (remove_first_split (ys1.*2) d (ys2.*2) Hn).
      destruct (Z.eqb_spec d 0); [done|]. rewrite andb_true_r. constructor. set_solver.
    + do 5 eexists. split; [done|]. split_and!; [done|lia|done|]. by constructor.
  - destruct (destroy_spec R m fr L xs Ho HL Hsm Hnz) as (m' & L' & E & Ho' & HL' & [Hf Hc]). step E. ret.
    do 3 eexists. exists []. eexists. split; [done|]. split_and!; [constructor; [done|done|constructor]|cbn; lia|done|]. unfold view_of. rewrite Hc. constructor.
Qed.

Lemma call_sort cmpf R L m fr xs c : ls_state R m L xs → good_cmp (cmpf c) → call_ok cmpf R (LSort c) L m fr xs.
Proof.
  intros [Ho HL Hnz] Hg. unfold call_ok. cbn [ls_call]. destruct (decide (lcmp L = Some c)) as [Ec|Ec].
  - unfold ls_sort. rewrite bool_decide_true by done. unfold mbind at 1, H_bind at 1. ret. do 5 eexists. split; [done|].
    split_and!; [done|lia|done|]. unfold view_of. cbn [snd]. rewrite Ec. constructor.
  - destruct (sort_spec cmpf c R m fr L xs Hg Ho HL Hnz Ec) as (m' & L' & ys & E & Ho' & HL' & Hf & Hc & Hp & Hs). step E. ret.
    do 3 eexists. exists ys, fr. split; [done|]. split_and!; [constructor; [done..|]| |done|].
    + apply nz_snd. rewrite Hp. by apply nz_snd.
    + apply Permutation_length in Hp. rewrite !length_fmap in Hp. lia.
    + unfold view_of. cbn [snd]. rewrite Hc. by constructor.
Qed.

Lemma call_refines cmpf R L m fr xs o :
  ls_state R m L xs → small xs → ls_op_ok cmpf o → (o = LPopHead → xs ≠ []) → call_ok cmpf R o L m fr xs.
Proof.
  intros Hst Hsm Hok Hhd. destruct o as [d|d|n d| | |n|d|c|]; cbn in Hok.
  - eapply call_grow; eauto.
  - eapply call_grow; eauto.
  - eapply call_grow; eauto.
  - by apply call_pops.
  - by apply call_pops; [..|apply Hhd].
  - eapply call_deletes; eauto.
  - eapply call_deletes; eauto.
  - by apply call_sort.
  - eapply call_deletes; eauto.
Qed.

Fixpoint ls_calls cmpf (ops : list ls_op) (L : SdbList) : H (list Z * SdbList) :=
  match ops with
  | [] => mret ([], L)
  | o :: ops' => r ← ls_call cmpf o L; q ← ls_calls cmpf ops' r.2; mret (r.1 :: q.1, q.2)
  end.

(** Runs of the step relation, with the answers. *)
Inductive ls_runs cmpf free : list ls_op → ls_view → list Z → ls_view → Prop :=
| runs_nil v : ls_runs cmpf free [] v [] v
| runs_cons o ops v r v' rs v'' :
    ls_spec cmpf free o v r v' → ls_runs cmpf free ops v' rs v'' → ls_runs cmpf free (o :: ops) v (r :: rs) v''.

(** [ls_pop_head] is never reached on an empty list, whatever the order a sort has
    left equal elements in. *)
Definition heads_ok cmpf free (ops : list ls_op) (v : ls_view) : Prop :=
  ∀ ops1 ops2 rs v', ops = ops1 ++ LPopHead :: ops2 → ls_runs cmpf free ops1 v rs v' → vdata v' ≠ [].

Lemma heads_ok_step cmpf free o ops v r v' :
  heads_ok cmpf free (o :: ops) v → ls_spec cmpf free o v r v' → heads_ok cmpf free ops v'.
Proof. intros H Hs ops1 ops2 rs w -> Hr. apply (H (o :: ops1) ops2 (r :: rs) w); [done|by econstructor]. Qed.

Lemma calls_refine cmpf R ops L m fr xs :
  ls_state R m L xs → Z.of_nat (length xs + length ops) + 1 < 2 ^ 64 → Forall (ls_op_ok cmpf) ops →
  heads_ok cmpf (lfree L) ops (view_of L xs fr) →
  ∃ rs L' m' ys fr', ls_calls cmpf ops L (mkHeap m fr) = Some ((rs, L'), mkHeap m' fr') ∧ ls_state R m' L' ys
    ∧ ls_runs cmpf (lfree L) ops (view_of L xs fr) rs (view_of L' ys fr').
Proof.
  intros Hst Hlen Hok. revert L m fr xs Hst Hlen. induction Hok as [|o ops Ho _ IH]; intros L m fr xs Hst Hlen Hhd; cbn [ls_calls].
  - do 5 eexists. split; [done|]. split; [exact Hst|constructor].
  - destruct (call_refines cmpf R L m fr xs o Hst) as (r & L1 & m1 & ys & fr1 & E & Hst1 & Hl1 & Hf & Hsp); [unfold small; cbn in *; lia|done| |].
    { intros -> ->. exact (Hhd [] ops [] _ eq_refl (runs_nil _ _ _) eq_refl). }
    step E. destruct (IH L1 m1 fr1 ys Hst1) as (rs & L' & m' & zs & fr' & E' & Hst' & Hr);
      [cbn in *; lia|rewrite Hf; by eapply heads_ok_step|]. cbn [fst snd]. step E'. ret.
    do 5 eexists. split; [done|]. split; [done|]. econstructor; [exact Hsp|]. by rewrite <- Hf.
Qed.

(** C38: a linked list is a sequence.  On a new list, with a free function or without,
    take any sequence of fewer than 2^64 - 1 appends, prepends, inserts, pops from
    either end, deletions by position and by data, sorts and destructions in which the
    data is never NULL, every comparator is a total preorder and [ls_pop_head] is never
    called on an empty list (there it decrements the length all the same:
    [pop_head_empty_length]).  It touches only allocated cells and answers as the step
    relation on sequences allows: sorting leaves an ordered permutation (unless the same
    comparator sorted last, which the code takes for sorted), freeing happens once per
    element deleted by data or destroyed.  At the end the heap consists of the cells of
    the list, linked both ways, and what was there before. *)
Theorem ls_refines_sequence cmpf free ops R fr :
  Forall (ls_op_ok cmpf) ops → heads_ok cmpf free ops (mkView [] None fr) → Z.of_nat (length ops) + 1 < 2 ^ 64 →
  ∃ rs L m ys fr', ls_calls cmpf ops (ls_newf free) (mkHeap R fr) = Some ((rs, L), mkHeap m fr')
    ∧ owns R m (ys.*1) ∧ lst L m ys
    ∧ ls_runs cmpf free ops (mkView [] None fr) rs (mkView (ys.*2) (lcmp L) fr').
Proof.
  intros Hok Hhd Hlen. destruct (calls_refine cmpf R ops (ls_newf free) R fr []) as (rs & L & m & ys & fr' & E & [Ho HL _] & Hr).
  - constructor; [|done|constructor]. constructor; [constructor|by intros ? ?%not_elem_of_nil|done].
  - exact Hlen.
  - exact Hok.
  - exact Hhd.
  - do 5 eexists. split; [exact E|]. split; [exact Ho|]. split; [exact HL|exact Hr].
Qed.

Definition sub_cmp (_ : nat) (a b : Z) : Z := a - b.

Definition demo_ops : list ls_op :=
  [LAppend 3; LAppend 1; LInsert 1 2; LAppend 4; LPopHead; LSort 0; LPop; LDeleteData 1; LDestroy].

Lemma runs_append_ne cmpf free ops d v rs v' :
  ls_runs cmpf free (ops ++ [LAppend d]) v rs v' → vdata v' ≠ [].
Proof.
  revert v rs. induction ops as [|o ops IH]; intros v rs Hr; inversion Hr as [|? ? ? ? ? ? ? Hs Hr']; subst; [|by eapply IH].
  inversion Hr'; subst. inversion Hs; subst. cbn. by destruct xs.
Qed.

Lemma demo_heads_ok : heads_ok sub_cmp true demo_ops (mkView [] None []).
Proof.
  intros ops1 ops2 rs v E Hr. do 4 (destruct ops1 as [|? ops1]; [done|]; injection E as <- E). destruct ops1 as [|? ops1].
  - exact (runs_append_ne sub_cmp true [LAppend 3; LAppend 1; LInsert 1 2] 4 _ _ _ Hr).
  - injection E as _ E. do 4 (destruct ops1 as [|? ops1]; [done|]; injection E as _ E). by destruct ops1.
Qed.

Lemma ls_refines_sequence_witness :
  Forall (ls_op_ok sub_cmp) demo_ops ∧
  ∃ rs L m ys fr', ls_calls sub_cmp demo_ops (ls_newf true) (mkHeap ∅ []) = Some ((rs, L), mkHeap m fr')
    ∧ owns ∅ m (ys.*1) ∧ lst L m ys
    ∧ ls_runs sub_cmp true demo_ops (mkView [] None []) rs (mkView (ys.*2) (lcmp L) fr').
Proof.
  assert (Forall (ls_op_ok sub_cmp) demo_ops) as Hok.
  { assert (good_cmp (sub_cmp 0)) by (unfold sub_cmp; constructor; lia). unfold demo_ops. rewrite !Forall_cons. split_and!; done. }
  split; [exact Hok|]. apply (ls_refines_sequence sub_cmp true _ ∅ [] Hok demo_heads_ok). done.
Defined.

(** Taking the head of an empty list makes its length wrap around. *)
Lemma pop_head_empty_length L h :
  lhead L = None → llength L = 0 → ∃ L', ls_pop_head L h = Some ((0, L'), h) ∧ llength L' = UT64_MAX.
Proof. intros Hh Hl. unfold ls_pop_head. rewrite Hh. eexists. split; [done|]. cbn. by rewrite Hl. Qed.

(** Joining empties the second list but for its length. *)
Lemma join_keeps_length R m fr L1 L2 xs ys :
  owns R m (xs.*1 ++ ys.*1) → lst L1 m xs → lst L2 m ys → Z.of_nat (length (xs ++ ys)) < 2 ^ 64 → ys ≠ [] →
  ∃ L1' L2' h, ls_join L1 L2 (mkHeap m fr) = Some ((true, L1', L2'), h) ∧ lhead L2' = None ∧ llength L2' = Z.of_nat (length ys).
Proof.
  intros Ho H1 H2 Hl Hy. destruct (join_spec R m fr L1 L2 xs ys Ho H1 H2 Hl) as (m' & L1' & L2' & E & _ & _ & Hh & _ & Hlen).
  rewrite bool_decide_true in E by done. do 3 eexists. split; [exact E|]. split; [done|]. by rewrite Hlen, (lst_len _ _ _ H2).
Qed.
