(* ===== verification/StrBuf.v ===== *)
(** * The growing string buffer ([src/strbuf.c])

    The memory of the buffer is the whole allocated block, so that a write outside it
    is an error ([None]).  [realloc_ok] says whether the block can be grown; the bytes
    it adds are unspecified and given by [junk]. *)

From S2P Require Import Prelude.

Record StrBuf := mkStrBuf { sb_buf : option bytes; sb_len : Z; sb_size : Z }.

Definition strbuf_new : StrBuf := mkStrBuf None 0 0.

(** [memcpy] to an offset of a block. *)
Definition mem_write (mem : bytes) (off : Z) (b : bytes) : option bytes :=
  if (0 <=? off) && (off + slen b <=? slen mem)
  then Some (take (Z.to_nat off) mem ++ b ++ drop (Z.to_nat off + length b) mem) else None.

(** [nl] is not negative. *)
Definition strbuf_append (realloc_ok : bool) (junk : Z) (sb : StrBuf) (str : option bytes) (nl : bool) : option StrBuf :=
  match str with
  | None => Some sb
  | Some str =>
      let len := slen str in
      let grow := sb_size sb <=? sb_len sb + len + 2 in
      if grow && negb realloc_ok then Some sb
      else
        let newsize := sb_size sb + len + 256 in
        let sb := if grow then
                    let old := default [] (sb_buf sb) in
                    mkStrBuf (Some (old ++ replicate (Z.to_nat (newsize - slen old)) junk)) (sb_len sb) newsize
                  else sb in
        match sb_buf sb with
        | None => Some sb
        | Some mem =>
            mem ← mem_write mem (sb_len sb) str;
            let n := sb_len sb + len in
            mem ← (if nl then mem_write mem n [10] else Some mem);
            let n := if nl then n + 1 else n in
            mem ← mem_write mem n [0];
            Some (mkStrBuf (Some mem) n (sb_size sb))
        end
  end.

Definition strbuf_drain (sb : StrBuf) : option bytes := sb_buf sb.

(** ** The buffer holds a text *)

Definition sb_text (sb : StrBuf) (t : bytes) : Prop :=
  match sb_buf sb with
  | None => t = [] ∧ sb_len sb = 0 ∧ sb_size sb = 0
  | Some mem => (∃ rest, mem = t ++ 0 :: rest) ∧ sb_len sb = slen t ∧ sb_size sb = slen mem
  end.

Lemma mem_write_spec t b rest :
  (length b <= length rest)%nat → mem_write (t ++ rest) (slen t) b = Some (t ++ b ++ drop (length b) rest).
Proof.
  intros Hl. unfold mem_write, slen in *. rewrite length_app. rewrite (proj2 (Z.leb_le 0 _)) by lia. rewrite (proj2 (Z.leb_le _ _)) by lia.
  cbn [andb]. rewrite Nat2Z.id, take_app_length, drop_app. by rewrite drop_ge, Nat.add_comm, Nat.add_sub by lia.
Qed.

(** Writing the text, the newline and the terminator over the rest of the block. *)
Lemma append_writes t rest str (nl : bool) :
  (length str + 2 <= length rest)%nat →
  ∃ rest', (mem ← mem_write (t ++ rest) (slen t) str;
            mem ← (if nl then mem_write mem (slen t + slen str) [10] else Some mem);
            mem_write mem (if nl then slen t + slen str + 1 else slen t + slen str) [0])
    = Some ((t ++ str ++ if nl then [10] else []) ++ 0 :: rest')
    ∧ length ((t ++ str ++ if nl then [10] else []) ++ 0 :: rest') = length (t ++ rest).
Proof.
  intros Hl. rewrite mem_write_spec by lia. cbn [mbind option_bind].
  set (r := drop (length str) rest). assert (2 <= length r)%nat as Hr by (subst r; rewrite length_drop; lia).
  assert (∀ u v, slen u + slen v = slen (u ++ v)) as Hsl by (intros; unfold slen; rewrite length_app; lia).
  destruct nl.
  - rewrite app_assoc, Hsl, mem_write_spec by (cbn; lia). cbn [mbind option_bind].
    rewrite app_assoc. change 1 with (slen [10]). rewrite Hsl, mem_write_spec by (rewrite length_drop; cbn; lia).
    eexists. split; [rewrite (app_assoc t); reflexivity|]. subst r. rewrite !length_app. cbn. rewrite !length_drop. lia.
  - cbn [mbind option_bind]. rewrite app_assoc, Hsl, mem_write_spec by (cbn; lia).
    eexists. split; [rewrite app_nil_r; reflexivity|]. subst r. rewrite !length_app. cbn. rewrite !length_drop. lia.
Qed.

Lemma strbuf_append_ok junk sb t str nl :
  sb_text sb t →
  ∃ sb', strbuf_append true junk sb (Some str) nl = Some sb' ∧ sb_text sb' (t ++ str ++ if nl then [10] else []) ∧ is_Some (sb_buf sb').
Proof.
  intros Ht. unfold strbuf_append. rewrite andb_false_r.
  (* after growing, if needed, the block has room for the text, the newline and the zero *)
  assert (∃ rest, let sb1 := if sb_size sb <=? sb_len sb + slen str + 2
      then mkStrBuf (Some (default [] (sb_buf sb) ++ replicate (Z.to_nat (sb_size sb + slen str + 256 - slen (default [] (sb_buf sb)))) junk))
             (sb_len sb) (sb_size sb + slen str + 256) else sb in
    sb_buf sb1 = Some (t ++ rest) ∧ (length str + 2 <= length rest)%nat ∧ sb_len sb1 = slen t ∧ sb_size sb1 = slen (t ++ rest)) as (rest & Hb & Hl & Hn & Hs).
  { unfold sb_text in Ht. destruct (sb_buf sb) as [mem|] eqn:Eb.
    - destruct Ht as ((rest & ->) & Hl & Hs). unfold slen in *. rewrite Hl, Hs.
      destruct (Z.leb_spec (Z.of_nat (length (t ++ 0 :: rest))) (Z.of_nat (length t) + Z.of_nat (length str) + 2)) as [Hle|Hgt].
      + exists ((0 :: rest) ++ replicate (Z.to_nat (Z.of_nat (length (t ++ 0 :: rest)) + Z.of_nat (length str) + 256 - Z.of_nat (length (t ++ 0 :: rest)))) junk).
        cbn [sb_buf sb_len sb_size from_option id]. split_and!; [by rewrite <- app_assoc|..]; rewrite ?length_app, ?length_replicate in *; cbn [length] in *; lia.
      + exists (0 :: rest). rewrite Eb. split_and!; [done|..]; rewrite ?length_app in *; cbn in *; lia.
    - destruct Ht as (-> & -> & ->). unfold slen. rewrite (proj2 (Z.leb_le _ _)) by lia. cbn [sb_buf sb_len sb_size from_option id app length].
      eexists. split_and!; [done|..]; rewrite ?length_replicate; lia. }
  cbn zeta in Hb, Hn, Hs. set (sb1 := if sb_size sb <=? _ then _ else _) in *. rewrite Hb, Hn.
  destruct (append_writes t rest str nl Hl) as (rest' & E & Hlen). clearbody sb1.
  destruct (mem_write (t ++ rest) (slen t) str) as [m1|]; [|done]. cbn [mbind option_bind] in E |- *.
  destruct (if nl then _ else Some _) as [m2|]; [|done]. cbn [mbind option_bind] in E |- *. rewrite E. cbn [mbind option_bind].
  eexists. split; [done|]. unfold sb_text. cbn [sb_buf sb_len sb_size]. split_and!; [eauto| |unfold slen in *; rewrite Hs; lia|eauto].
  unfold slen. rewrite !length_app. destruct nl; cbn; lia.
Qed.

(** Appending a sequence of texts, each with a newline or without. *)
Definition append_all junk (sb : StrBuf) (l : list (bytes * bool)) : option StrBuf :=
  foldl (λ sb x, sb ← sb; strbuf_append true junk sb (Some x.1) x.2) (Some sb) l.

(** What is drained is what was appended: any sequence of appends to a new buffer
    stays inside its memory, through every growth, and draining it gives the
    concatenation of the texts, each followed by its newline if asked for, and a
    terminator; a buffer that nothing was appended to has no memory. *)
Theorem strbuf_concatenates junk l :
  ∃ sb, append_all junk strbuf_new l = Some sb ∧
    match strbuf_drain sb with
    | Some mem => ∃ rest, mem = mjoin ((λ x : bytes * bool, x.1 ++ if x.2 then [10] else []) <$> l) ++ 0 :: rest
    | None => l = []
    end.
Proof.
  assert (∃ sb, append_all junk strbuf_new l = Some sb
    ∧ sb_text sb (mjoin ((λ x : bytes * bool, x.1 ++ if x.2 then [10] else []) <$> l)) ∧ (l ≠ [] → is_Some (sb_buf sb))) as (sb & E & Ht & Hne).
  { unfold append_all. induction l as [|x l IH] using rev_ind; [by exists strbuf_new|]. destruct IH as (sb & E & Ht & _).
    rewrite foldl_app, E. cbn. destruct (strbuf_append_ok junk sb _ x.1 x.2 Ht) as (sb' & E' & Ht' & Hs'). exists sb'.
    rewrite fmap_app, join_app. cbn. by rewrite app_nil_r. }
  exists sb. split; [done|]. unfold strbuf_drain, sb_text in *. destruct (sb_buf sb) as [mem|]; [apply Ht|].
  destruct l; [done|]. by destruct Hne as [? ?].
Qed.
