(* ===== verification/Text.v ===== *)
(** * The text format ([src/text.c])

    The writer appends to an output of limited room, so that every [write] may fail.
    The loader is the state machine of the source over the raw buffer, which it
    unescapes in place.  What it asks of the databases, [sdb_ns] and [sdb_set], is an
    interface, the class [TextDbs]: [TextNs] runs the loader on the databases of [Ns],
    [Tool] on the one database that the tool looks at. *)

From S2P Require Import Prelude.

Definition NL : Z := 10.
Definition CR : Z := 13.
Definition SLASH : Z := 47.
Definition BSLASH : Z := 92.
Definition EQ : Z := 61.

(** ** Writing *)

(** [ofreed] lists, by path, the databases whose own list of namespaces was freed. *)
Record out := mkOut { odata : bytes; oroom : nat; ofreed : list (list bytes) }.

(** [write (fd, b, n) == n]; a short write stores what fits. *)
Definition write (o : out) (b : bytes) : bool * out :=
  if (length b <=? oroom o)%nat then (true, mkOut (odata o ++ b) (oroom o - length b) (ofreed o))
  else (false, mkOut (odata o ++ take (oroom o) b) 0 (ofreed o)).

(** [ls_free (l)] of [text_save]: [l] is a copy only when sorting. *)
Definition free_list (sort : bool) (o : out) (path : list bytes) : out :=
  if sort then o else mkOut (odata o) (oroom o) (ofreed o ++ [path]).

Definition escape_flush (o : out) (blk : bytes) : bool * out :=
  match blk with [] => (true, o) | _ => write o blk end.

(** The pair that stands for a character, if it must be escaped; [ch] is 0 for none. *)
Definition escape_char (ch c : Z) : option bytes :=
  if c =? BSLASH then Some [BSLASH; BSLASH]
  else if c =? CR then Some [BSLASH; chr "r"]
  else if c =? NL then Some [BSLASH; chr "n"]
  else if negb (ch =? 0) && (c =? ch) then Some [BSLASH; ch]
  else None.

(** [blk] is the text between [p] and [n]. *)
Fixpoint escape_loop (o : out) (blk s : bytes) (ch : Z) : bool * out :=
  match s with
  | [] => escape_flush o blk
  | c :: s' =>
      match escape_char ch c with
      | Some e =>
          match escape_flush o blk with
          | (true, o) => match write o e with (true, o) => escape_loop o [] s' ch | r => r end
          | r => r
          end
      | None => escape_loop o (blk ++ [c]) s' ch
      end
  end.

Fixpoint write_path_loop (o : out) (first : bool) (path : list bytes) : bool * out :=
  match path with
  | [] => (true, o)
  | t :: path' =>
      match (if first then (true, o) else write o [SLASH]) with
      | (true, o) => match escape_loop o [] t SLASH with (true, o) => write_path_loop o false path' | r => r end
      | r => r
      end
  end.

Definition write_path (o : out) (path : list bytes) : bool * out :=
  match write o [SLASH] with (true, o) => write_path_loop o true path | r => r end.

Definition write_key (o : out) (k : bytes) : bool * out :=
  match (if hd0 k =? SLASH then write o [BSLASH] else (true, o)) with
  | (true, o) => escape_loop o [] k EQ
  | r => r
  end.

Definition write_value (o : out) (v : bytes) : bool * out := escape_loop o [] v 0.

Definition save_kv_cb (o : out) (k v : bytes) : bool * out :=
  match write_key o k with
  | (true, o) =>
      match write o [EQ] with
      | (true, o) => match write_value o v with (true, o) => write o [NL] | r => r end
      | r => r
      end
  | r => r
  end.

(** What the writer sees of a database: its pairs and its namespaces, each in the order
    in which they are written (that of [sdb_foreach] and of the list, or, when sorting,
    that of [sdb_foreach_list] and of the sorted copy). *)
Inductive SdbTree := Tree (pairs : list (bytes * bytes)) (subs : list (bytes * SdbTree)).

(** Iterating with the callback stops at its first failure ([sdb_foreach]); over a
    sorted list the results are not looked at. *)
Fixpoint save_pairs (sort : bool) (o : out) (l : list (bytes * bytes)) : out :=
  match l with
  | [] => o
  | (k, v) :: l' =>
      match save_kv_cb o k v with
      | (true, o) => save_pairs sort o l'
      | (false, o) => if sort then save_pairs sort o l' else o
      end
  end.

(** The loop over the namespaces; [f] saves one, and its result is not looked at;
    [free] is what happens to the list when a line feed cannot be written. *)
Definition save_subs (f : SdbTree → out → bytes → out) (free : out → out) : list (bytes * SdbTree) → out → bool * out :=
  fix go l o :=
    match l with
    | [] => (true, o)
    | (name, sub) :: l' => match write o [NL] with (false, o) => (false, free o) | (true, o) => go l' (f sub o name) end
    end.

Fixpoint text_save (t : SdbTree) (o : out) (sort : bool) (path : list bytes) : bool * out :=
  match t with
  | Tree pairs subs =>
      match write_path o path with
      | (false, o) => (false, o)
      | (true, o) =>
          match write o [NL] with
          | (false, o) => (false, o)
          | (true, o) =>
              save_subs (λ sub o name, (text_save sub o sort (path ++ [name])).2) (λ o, free_list sort o path) subs
                (save_pairs sort o pairs)
          end
      end
  end.

(** ** Loading *)

Inductive LoadState := STATE_NEWLINE | STATE_PATH | STATE_KEY | STATE_VALUE.

#[export] Instance LoadState_eq_dec : EqDecision LoadState.
Proof. solve_decision. Defined.

(** What the loader asks of the databases: [sdb_ns (h, name, 1)] and [sdb_set (h, k, v, 0)],
    on handles [H] of the databases kept in [D]. *)
Class TextDbs (H D : Type) := {
  text_ns : H → bytes → D → option H * D;
  text_set : H → bytes → bytes → D → D
}.

(** The fields [root_db] and [cur_db] of the context, and the databases. *)
Record Target (H D : Type) := mkTarget { root_db : H; cur_db : H; databases : D }.
Arguments mkTarget {H D}.
Arguments root_db {H D}.
Arguments cur_db {H D}.
Arguments databases {H D}.

(** Offsets are [size_t]. *)
Record LoadCtx (H D : Type) := mkCtx {
  buf : bytes;
  pos : Z;
  line_begin : Z;
  token_begin : Z;
  shift : Z;
  path : list Z;
  state : LoadState;
  unescape : bool;
  tgt : Target H D
}.
Arguments mkCtx {H D}.
Arguments buf {H D}.
Arguments pos {H D}.
Arguments line_begin {H D}.
Arguments token_begin {H D}.
Arguments shift {H D}.
Arguments path {H D}.
Arguments state {H D}.
Arguments unescape {H D}.
Arguments tgt {H D}.

Definition buf_set (b : bytes) (i c : Z) : bytes := <[Z.to_nat i := c]> b.
Definition buf_at (b : bytes) (i : Z) : Z := default 0 (b !! Z.to_nat i).
Definition token (b : bytes) (off : Z) : bytes := cstr (drop (Z.to_nat off) b).

(** [ls_foreach] ends at an offset of 0. *)
Fixpoint until_null (l : list Z) : list Z :=
  match l with [] => [] | x :: l' => if x =? 0 then [] else x :: until_null l' end.

Fixpoint shift_path (lb : Z) (l : list Z) : list Z :=
  match l with [] => [] | x :: l' => if x =? 0 then l else u64 (x - lb) :: shift_path lb l' end.

(** The names that the path line gives to [sdb_ns]: empty tokens are skipped. *)
Definition path_tokens (b : bytes) (offs : list Z) : list bytes :=
  filter (λ t, t ≠ []) (token b <$> until_null offs).

Section load.
Context {Hdl Dbs : Type} `{!TextDbs Hdl Dbs}.
Implicit Types (ctx : LoadCtx Hdl Dbs) (t : Target Hdl Dbs).

(** The loop over the names of a path line, from the root; a namespace that cannot be had
    ends it at the root. *)
Fixpoint walk_tokens (root cur : Hdl) (names : list bytes) (d : Dbs) : Hdl * Dbs :=
  match names with
  | [] => (cur, d)
  | nm :: names' => match text_ns cur nm d with (Some c, d) => walk_tokens root c names' d | (None, d) => (root, d) end
  end.

Definition go_path t (names : list bytes) : Target Hdl Dbs :=
  let '(cur, d) := walk_tokens (root_db t) (root_db t) names (databases t) in mkTarget (root_db t) cur d.
Definition put_pair t (k v : bytes) : Target Hdl Dbs := mkTarget (root_db t) (cur_db t) (text_set (cur_db t) k v (databases t)).

Definition load_process_line ctx : LoadCtx Hdl Dbs :=
  let b := buf_set (buf ctx) (pos ctx - shift ctx) 0 in
  let done path ev := mkCtx b (pos ctx) (line_begin ctx) (token_begin ctx) 0 path STATE_NEWLINE false ev in
  match state ctx with
  | STATE_PATH => done [] (go_path (tgt ctx) (path_tokens b (path ctx ++ [token_begin ctx])))
  | STATE_VALUE =>
      let k := token b (line_begin ctx) in
      let v := token b (token_begin ctx) in
      if (hd0 k =? 0) || (hd0 v =? 0) then done (path ctx) (tgt ctx) else done (path ctx) (put_pair (tgt ctx) k v)
  | _ => done (path ctx) (tgt ctx)
  end.

Definition unescape_raw_char (c : Z) : Z :=
  if c =? chr "s" then chr " " else if c =? chr "n" then NL else if c =? chr "r" then CR else if c =? chr "t" then 9 else c.

Definition load_process_single_char ctx : LoadCtx Hdl Dbs :=
  let c := buf_at (buf ctx) (pos ctx) in
  let next ctx := mkCtx (buf ctx) (pos ctx + 1) (line_begin ctx) (token_begin ctx) (shift ctx) (path ctx) (state ctx) (unescape ctx) (tgt ctx) in
  if (c =? NL) || (c =? CR) then next (load_process_line ctx)
  else
    let newline := bool_decide (state ctx = STATE_NEWLINE) in
    if newline && (c =? SLASH)
    then mkCtx (buf ctx) (pos ctx + 1) (pos ctx) (pos ctx + 1) (shift ctx) (path ctx) STATE_PATH (unescape ctx) (tgt ctx)
    else
      let lb := if newline then pos ctx else line_begin ctx in
      let st := if newline then STATE_KEY else state ctx in
      let at_ := pos ctx - shift ctx in
      if unescape ctx
      then mkCtx (buf_set (buf ctx) at_ (unescape_raw_char c)) (pos ctx + 1) lb (token_begin ctx) (shift ctx) (path ctx) st false (tgt ctx)
      else if c =? BSLASH
      then mkCtx (buf ctx) (pos ctx + 1) lb (token_begin ctx) (shift ctx + 1) (path ctx) st true (tgt ctx)
      else if bool_decide (st = STATE_PATH) && (c =? SLASH)
      then mkCtx (buf_set (buf ctx) at_ 0) (pos ctx + 1) lb (pos ctx + 1) 0 (path ctx ++ [token_begin ctx]) st false (tgt ctx)
      else if bool_decide (st = STATE_KEY) && (c =? EQ)
      then mkCtx (buf_set (buf ctx) at_ 0) (pos ctx + 1) lb (pos ctx + 1) 0 (path ctx) STATE_VALUE false (tgt ctx)
      else mkCtx (if negb (shift ctx =? 0) then buf_set (buf ctx) at_ c else buf ctx) (pos ctx + 1) lb (token_begin ctx) (shift ctx) (path ctx) st false (tgt ctx).

(** The last line is copied to a block with room for its terminator. *)
Definition load_process_final_line ctx : LoadCtx Hdl Dbs :=
  let linebuf := drop (Z.to_nat (line_begin ctx)) (buf ctx) in
  load_process_line
    (mkCtx (linebuf ++ [0]) (slen linebuf) 0 (u64 (token_begin ctx - line_begin ctx)) (shift ctx)
       (shift_path (line_begin ctx) (path ctx)) (state ctx) (unescape ctx) (tgt ctx)).

Definition load_ctx_init (s : Hdl) (b : bytes) (d : Dbs) : LoadCtx Hdl Dbs := mkCtx b 0 0 0 0 [] STATE_NEWLINE false (mkTarget s s d).

(** One character per round. *)
Fixpoint load_chars (fuel : nat) ctx : LoadCtx Hdl Dbs :=
  match fuel with
  | O => ctx
  | S fuel' => if pos ctx <? slen (buf ctx) then load_chars fuel' (load_process_single_char ctx) else ctx
  end.

Definition sdb_text_load_buf (s : Hdl) (b : bytes) (d : Dbs) : Dbs :=
  match b with
  | [] => d
  | _ =>
      let ctx := load_chars (length b) (load_ctx_init s b d) in
      if (line_begin ctx <? slen (buf ctx)) && bool_decide (state ctx ≠ STATE_NEWLINE)
      then databases (tgt (load_process_final_line ctx)) else databases (tgt ctx)
  end.

(** [sdb_text_load] of a file with the contents given, and [sdb_text_save] to one. The
    test that tells a text from a database file, [sdb_text_check], is with [sdb_open]. *)
Definition sdb_text_load (s : Hdl) (contents : option bytes) (d : Dbs) : bool * Dbs :=
  match contents with
  | None | Some [] => (false, d)
  | Some b => (true, sdb_text_load_buf s b d)
  end.

(** What a text asks for, as a sequence: to go to a namespace by the names on the path, and
    to set a pair there. *)
Inductive event :=
| EPath (tokens : list bytes)
| EKv (k v : bytes).

Definition emit t (e : event) : Target Hdl Dbs := match e with EPath p => go_path t p | EKv k v => put_pair t k v end.
End load.

Definition sdb_text_save (room : nat) (t : SdbTree) (sort : bool) : bool * bytes :=
  let '(r, o) := text_save t (mkOut [] room []) sort [] in (r, odata o).

(** ** What the text says *)

(** The text of a string, of a key, of a path and of a tree. *)
Definition esc (ch : Z) (s : bytes) : bytes := mjoin ((λ c, default [c] (escape_char ch c)) <$> s).
Definition key_text (k : bytes) : bytes := (if hd0 k =? SLASH then [BSLASH] else []) ++ esc EQ k.
Definition pair_text (kv : bytes * bytes) : bytes := key_text kv.1 ++ EQ :: esc 0 kv.2 ++ [NL].

Fixpoint tokens_text (path : list bytes) : bytes :=
  match path with
  | [] => []
  | [t] => esc SLASH t
  | t :: path' => esc SLASH t ++ SLASH :: tokens_text path'
  end.

Definition path_text (path : list bytes) : bytes := SLASH :: tokens_text path ++ [NL].

Fixpoint tree_text (path : list bytes) (t : SdbTree) : bytes :=
  match t with
  | Tree pairs subs =>
      path_text path ++ mjoin (pair_text <$> pairs)
        ++ mjoin ((λ '(n, s), NL :: tree_text (path ++ [n]) s) <$> subs)
  end.

(** The events that rebuild a tree: where each database is, then its pairs. *)
Fixpoint tree_events (path : list bytes) (t : SdbTree) : list event :=
  match t with
  | Tree pairs subs =>
      EPath path :: ((λ kv, EKv kv.1 kv.2) <$> pairs)
        ++ mjoin ((λ '(n, s), tree_events (path ++ [n]) s) <$> subs)
  end.

(** Strings that C can hold, none of them empty. *)
Definition text_str (s : bytes) : Prop := is_cstr s ∧ s ≠ [].

Inductive tree_ok : SdbTree → Prop :=
| tree_ok_intro pairs subs :
    Forall (λ kv, text_str kv.1 ∧ text_str kv.2) pairs →
    Forall (λ x, text_str x.1 ∧ tree_ok x.2) subs → tree_ok (Tree pairs subs).

Lemma tree_ind' (P : SdbTree → Prop) :
  (∀ pairs subs, Forall (λ x, P x.2) subs → P (Tree pairs subs)) → ∀ t, P t.
Proof.
  intros HP. fix IH 1. intros [pairs subs]. apply HP. induction subs as [|[n s] subs IHs]; constructor; [apply IH|exact IHs].
Qed.

(** ** The writer writes the text *)

Definition fits_out (o : out) (b : bytes) : Prop := (length b <= oroom o)%nat.
Definition wrote (o : out) (b : bytes) : out := mkOut (odata o ++ b) (oroom o - length b) (ofreed o).

Lemma write_ok o b : fits_out o b → write o b = (true, wrote o b).
Proof. unfold fits_out, write. intros Hf. by rewrite (proj2 (Nat.leb_le _ _)). Qed.

Lemma wrote_nil o : wrote o [] = o.
Proof. destruct o. unfold wrote. cbn. by rewrite app_nil_r, Nat.sub_0_r. Qed.

Lemma wrote_app o a b : wrote (wrote o a) b = wrote o (a ++ b).
Proof. unfold wrote. cbn. rewrite app_assoc, length_app. f_equal. lia. Qed.

Lemma fits_out_app o a b : fits_out o (a ++ b) ↔ fits_out o a ∧ fits_out (wrote o a) b.
Proof. unfold fits_out, wrote. cbn. rewrite length_app. lia. Qed.

Lemma flush_ok o blk : fits_out o blk → escape_flush o blk = (true, wrote o blk).
Proof. destruct blk; [by rewrite wrote_nil|apply write_ok]. Qed.

Lemma escape_loop_ok o blk s ch : fits_out o (blk ++ esc ch s) → escape_loop o blk s ch = (true, wrote o (blk ++ esc ch s)).
Proof.
  revert o blk. induction s as [|c s IH]; intros o blk Hf; cbn [escape_loop].
  - cbn in *. rewrite app_nil_r in *. by apply flush_ok.
  - unfold esc in *. cbn in Hf |- *. fold (esc ch s) in *. destruct (escape_char ch c) as [e|]; cbn [default from_option id] in *.
    + apply fits_out_app in Hf as [H1 H2]. apply fits_out_app in H2 as [H2 H3]. rewrite flush_ok by done. rewrite write_ok by done.
      rewrite (IH _ []) by (by rewrite app_nil_l). by rewrite app_nil_l, !wrote_app.
    + rewrite IH; rewrite <- app_assoc; done.
Qed.

Lemma write_path_loop_ok o t path : fits_out o (tokens_text (t :: path)) → write_path_loop o true (t :: path) = (true, wrote o (tokens_text (t :: path))).
Proof.
  assert (∀ path o, fits_out o (mjoin ((λ t, SLASH :: esc SLASH t) <$> path)) →
    write_path_loop o false path = (true, wrote o (mjoin ((λ t, SLASH :: esc SLASH t) <$> path)))) as Hrest.
  { clear. intros path. induction path as [|t path IH]; intros o Hf; cbn [write_path_loop]; [by rewrite wrote_nil|].
    change (mjoin _) with ((SLASH :: esc SLASH t) ++ mjoin ((λ t, SLASH :: esc SLASH t) <$> path)) in Hf |- *.
    rewrite fits_out_app in Hf. destruct Hf as [H1 H2]. change (SLASH :: esc SLASH t) with ([SLASH] ++ esc SLASH t) in *. apply fits_out_app in H1 as [H0 H1].
    rewrite write_ok by done. rewrite escape_loop_ok by done. rewrite app_nil_l, wrote_app. rewrite IH by done. by rewrite wrote_app. }
  assert (∀ t path, tokens_text (t :: path) = esc SLASH t ++ mjoin ((λ t, SLASH :: esc SLASH t) <$> path)) as Ht.
  { clear. intros t path. revert t. induction path as [|t' path IH]; intros t; [by rewrite app_nil_r|].
    change (tokens_text (t :: t' :: path)) with (esc SLASH t ++ SLASH :: tokens_text (t' :: path)). by rewrite IH. }
  intros Hf. rewrite Ht in *. apply fits_out_app in Hf as [H1 H2]. cbn [write_path_loop]. rewrite escape_loop_ok by done.
  rewrite app_nil_l, Hrest by done. by rewrite wrote_app.
Qed.

Lemma write_path_ok o path : fits_out o (SLASH :: tokens_text path) → write_path o path = (true, wrote o (SLASH :: tokens_text path)).
Proof.
  change (SLASH :: tokens_text path) with ([SLASH] ++ tokens_text path). rewrite fits_out_app. intros [H1 H2]. unfold write_path.
  rewrite write_ok by done. destruct path as [|t path]; [done|]. rewrite write_path_loop_ok by done. by rewrite wrote_app.
Qed.

Lemma save_kv_ok o kv : fits_out o (pair_text kv) → save_kv_cb o kv.1 kv.2 = (true, wrote o (pair_text kv)).
Proof.
  destruct kv as [k v]. unfold pair_text. cbn [fst snd]. change (EQ :: esc 0 v ++ [NL]) with ([EQ] ++ esc 0 v ++ [NL]).
  rewrite !fits_out_app. intros (Hk & He & Hv & Hn). unfold save_kv_cb, write_key, write_value, key_text in *.
  destruct (hd0 k =? SLASH).
  - apply fits_out_app in Hk as [Hk1 Hk2]. rewrite write_ok by done. rewrite escape_loop_ok by done. rewrite app_nil_l, wrote_app.
    rewrite write_ok by done. rewrite escape_loop_ok by done. rewrite app_nil_l, write_ok by done. by rewrite !wrote_app.
  - cbn [app] in *. rewrite escape_loop_ok by done. rewrite app_nil_l.
    rewrite write_ok by done. rewrite escape_loop_ok by done. rewrite app_nil_l, write_ok by done. by rewrite !wrote_app.
Qed.

Lemma save_pairs_ok sort o l : fits_out o (mjoin (pair_text <$> l)) → save_pairs sort o l = wrote o (mjoin (pair_text <$> l)).
Proof.
  revert o. induction l as [|[k v] l IH]; intros o Hf; cbn [save_pairs]; [by rewrite wrote_nil|].
  change (mjoin _) with (pair_text (k, v) ++ mjoin (pair_text <$> l)) in Hf |- *. apply fits_out_app in Hf as [H1 H2].
  pose proof (save_kv_ok o (k, v) H1) as E. cbn [fst snd] in E. rewrite E, IH by done. by rewrite wrote_app.
Qed.

Lemma save_subs_ok f free l o (g : bytes * SdbTree → bytes) :
  (∀ n s o, (n, s) ∈ l → fits_out o (g (n, s)) → f s o n = wrote o (g (n, s))) →
  fits_out o (mjoin ((λ x, NL :: g x) <$> l)) → save_subs f free l o = (true, wrote o (mjoin ((λ x, NL :: g x) <$> l))).
Proof.
  revert o. induction l as [|[n s] l IH]; intros o Hg Hf; cbn [save_subs]; [by rewrite wrote_nil|].
  change (mjoin _) with ([NL] ++ g (n, s) ++ mjoin ((λ x, NL :: g x) <$> l)) in Hf |- *.
  apply fits_out_app in Hf as [H1 Hf]. apply fits_out_app in Hf as [H2 H3]. rewrite write_ok by done. rewrite Hg by (done || by left).
  cbn [save_subs] in IH. rewrite IH; [by rewrite !wrote_app|intros; apply Hg; [by right|done]|done].
Qed.

Lemma subs_text path subs :
  mjoin ((λ '(n, s), NL :: tree_text (path ++ [n]) s) <$> subs) = mjoin ((λ x, NL :: tree_text (path ++ [x.1]) x.2) <$> subs).
Proof. f_equal. apply list_fmap_ext. by intros _ [n s] _. Qed.

Lemma text_save_ok t sort o path : fits_out o (tree_text path t) → text_save t o sort path = (true, wrote o (tree_text path t)).
Proof.
  revert o path. induction t as [pairs subs IH] using tree_ind'. intros o path Hf. cbn [text_save tree_text] in *.
  rewrite subs_text in *. unfold path_text in *. change (SLASH :: tokens_text path ++ [NL]) with ((SLASH :: tokens_text path) ++ [NL]) in *.
  rewrite <- (app_assoc (SLASH :: tokens_text path)) in *. apply fits_out_app in Hf as [H1 Hf]. apply fits_out_app in Hf as [H2 Hf].
  apply fits_out_app in Hf as [H3 Hf]. rewrite write_path_ok by done. rewrite write_ok by done. rewrite save_pairs_ok by done.
  rewrite (save_subs_ok _ _ subs _ (λ x, tree_text (path ++ [x.1]) x.2)); [by rewrite !wrote_app| |done].
  intros n s o' Hin Hf'. rewrite Forall_forall in IH. by rewrite (IH (n, s) Hin).
Qed.

(** ** The loader reads it back *)

Section loading.
Context {Hdl Dbs : Type} `{!TextDbs Hdl Dbs}.
Implicit Types (ctx : LoadCtx Hdl Dbs) (ev : Target Hdl Dbs).

Definition steps (n : nat) ctx : LoadCtx Hdl Dbs := Nat.iter n load_process_single_char ctx.

Lemma steps_add n m ctx : steps (n + m) ctx = steps m (steps n ctx).
Proof. unfold steps. by rewrite Nat.add_comm, Nat.iter_add. Qed.

Lemma steps_app (a b : bytes) ctx : steps (length (a ++ b)) ctx = steps (length b) (steps (length a) ctx).
Proof. by rewrite length_app, steps_add. Qed.

Lemma step_measure ctx : pos (load_process_single_char ctx) = pos ctx + 1 ∧ length (buf (load_process_single_char ctx)) = length (buf ctx).
Proof.
  unfold load_process_single_char, load_process_line, buf_set. cbn zeta.
  repeat case_match; cbn; split; try done; by rewrite ?length_insert.
Qed.

(** Inside its bounds the loop takes a step for each character. *)
Lemma load_chars_steps n ctx : pos ctx + Z.of_nat n <= slen (buf ctx) → load_chars n ctx = steps n ctx.
Proof.
  revert ctx. induction n as [|n IH]; intros ctx Hn; [done|]. cbn [load_chars].
  destruct (step_measure ctx) as [Hp Hl]. rewrite (proj2 (Z.ltb_lt _ _)) by lia.
  rewrite IH by (unfold slen in *; lia). unfold steps. by rewrite <- Nat.iter_succ_r.
Qed.

(** Before the end of a token: [H] has been rewritten, [T] is still to be read, and
    between them lie as many stale bytes as there were backslashes. *)
Definition mid (H T : bytes) (un : bool) (lb tb : Z) (path : list Z) (st : LoadState) (ev : Target Hdl Dbs) (ctx : LoadCtx Hdl Dbs) : Prop :=
  ∃ G, ctx = mkCtx (H ++ G ++ T) (slen (H ++ G)) lb tb (slen G) path st un ev ∧ (un = true → G ≠ []).

Definition at_line (T : bytes) (ev : Target Hdl Dbs) (ctx : LoadCtx Hdl Dbs) : Prop :=
  ∃ H lb tb, ctx = mkCtx (H ++ T) (slen H) lb tb 0 [] STATE_NEWLINE false ev.

Lemma slen_to_nat a : Z.to_nat (slen a) = length a.
Proof. apply Nat2Z.id. Qed.

Lemma buf_at_mid a c T : buf_at (a ++ c :: T) (slen a) = c.
Proof. unfold buf_at. rewrite slen_to_nat. by rewrite list_lookup_middle. Qed.

Lemma shift_at (H G : bytes) : slen (H ++ G) - slen G = slen H.
Proof. rewrite slen_app. lia. Qed.

(** Storing a character at its shifted place moves the stale bytes on by one. *)
Lemma buf_set_mid H G c T x : ∃ G', length G' = length G ∧ buf_set (H ++ G ++ c :: T) (slen H) x = (H ++ [x]) ++ G' ++ T.
Proof.
  unfold buf_set. rewrite slen_to_nat, insert_app_r_alt by lia. rewrite Nat.sub_diag. destruct G as [|g G].
  - exists []. split; [done|]. by rewrite <- app_assoc.
  - exists (G ++ [c]). rewrite length_app. cbn. split; [lia|]. by rewrite <- !app_assoc.
Qed.

(** A character that stands for itself in the state. *)
Definition plain (st : LoadState) (c : Z) : Prop :=
  c ≠ NL ∧ c ≠ CR ∧ c ≠ BSLASH ∧ (st = STATE_PATH → c ≠ SLASH) ∧ (st = STATE_KEY → c ≠ EQ).

Lemma bool_decide_and_false (P : Prop) `{Decision P} c d : (P → c ≠ d) → bool_decide P && (c =? d) = false.
Proof. intros HP. case_bool_decide; [|done]. apply Z.eqb_neq. auto. Qed.

Lemma step_plain H c T lb tb ps st ev ctx :
  st ≠ STATE_NEWLINE → plain st c → mid H (c :: T) false lb tb ps st ev ctx →
  mid (H ++ [c]) T false lb tb ps st ev (load_process_single_char ctx).
Proof.
  intros Hst (H1 & H2 & H3 & H4 & H5) (G & -> & _). unfold load_process_single_char. cbn zeta. cbn [buf pos state unescape shift path line_begin token_begin tgt].
  rewrite app_assoc, buf_at_mid, (proj2 (Z.eqb_neq c NL)), (proj2 (Z.eqb_neq c CR)), (bool_decide_false (st = STATE_NEWLINE)) by done. cbn [orb andb].
  rewrite (proj2 (Z.eqb_neq c BSLASH)), !bool_decide_and_false by done. rewrite shift_at, <- app_assoc.
  destruct (buf_set_mid H G c T c) as (G' & Hl & HG').
  assert (slen G' = slen G) as Hs by (unfold slen; lia). exists G'. split; [|done]. rewrite Hs.
  f_equal; [|unfold slen in *; rewrite !length_app; cbn [length]; lia].
  destruct (negb (slen G =? 0)) eqn:E; [done|]. zbool.
  assert (G = []) as -> by (destruct G; [done|unfold slen in *; cbn in *; lia]). destruct G'; [|done]. by rewrite <- app_assoc.
Qed.

Lemma step_bslash H T lb tb ps st ev ctx :
  st ≠ STATE_NEWLINE → mid H (BSLASH :: T) false lb tb ps st ev ctx →
  mid H T true lb tb ps st ev (load_process_single_char ctx).
Proof.
  intros Hst (G & -> & _). unfold load_process_single_char. cbn zeta. cbn [buf pos state unescape shift path line_begin token_begin tgt].
  rewrite app_assoc, buf_at_mid, (bool_decide_false (st = STATE_NEWLINE)) by done. cbn [orb andb].
  change (BSLASH =? NL) with false. change (BSLASH =? CR) with false. change (BSLASH =? BSLASH) with true. cbn [orb].
  exists (G ++ [BSLASH]). split; [|by destruct G]. f_equal; [by rewrite <- !app_assoc|unfold slen in *; rewrite !length_app; cbn [length]; lia..].
Qed.

Lemma step_unescape H c T lb tb ps st ev ctx :
  st ≠ STATE_NEWLINE → c ≠ NL → c ≠ CR → mid H (c :: T) true lb tb ps st ev ctx →
  mid (H ++ [unescape_raw_char c]) T false lb tb ps st ev (load_process_single_char ctx).
Proof.
  intros Hst H1 H2 (G & -> & _). unfold load_process_single_char. cbn zeta. cbn [buf pos state unescape shift path line_begin token_begin tgt].
  rewrite app_assoc, buf_at_mid, (proj2 (Z.eqb_neq c NL)), (proj2 (Z.eqb_neq c CR)), (bool_decide_false (st = STATE_NEWLINE)) by done. cbn [orb andb].
  rewrite shift_at, <- app_assoc. destruct (buf_set_mid H G c T (unescape_raw_char c)) as (G' & Hl & HG').
  assert (slen G' = slen G) as Hs by (unfold slen; lia). exists G'. split; [|done]. rewrite Hs.
  f_equal; [done|unfold slen in *; rewrite !length_app; cbn [length]; lia].
Qed.

(** Which escapes belong to which state. *)
Definition esc_state (ch : Z) (st : LoadState) : Prop :=
  (ch = SLASH ∧ st = STATE_PATH) ∨ (ch = EQ ∧ st = STATE_KEY) ∨ (ch = 0 ∧ st = STATE_VALUE).

Lemma run_char ch st H c T lb tb ps ev ctx :
  esc_state ch st → is_char c → mid H (default [c] (escape_char ch c) ++ T) false lb tb ps st ev ctx →
  mid (H ++ [c]) T false lb tb ps st ev (steps (length (default [c] (escape_char ch c))) ctx).
Proof.
  intros Hes Hc. assert (st ≠ STATE_NEWLINE) as Hst by (destruct Hes as [[_ ->]|[[_ ->]|[_ ->]]]; done).
  assert (∀ d, d ≠ NL → d ≠ CR → unescape_raw_char d = c → mid H ([BSLASH; d] ++ T) false lb tb ps st ev ctx →
            mid (H ++ [c]) T false lb tb ps st ev (steps 2 ctx)) as Hpair.
  { intros d Hd1 Hd2 <- Hm. apply step_bslash in Hm; [|done]. by apply step_unescape in Hm. }
  unfold escape_char. destruct (c =? BSLASH) eqn:E1; [zbool; subst c; by apply Hpair|].
  destruct (c =? CR) eqn:E2; [zbool; subst c; by apply Hpair|].
  destruct (c =? NL) eqn:E3; [zbool; subst c; by apply Hpair|].
  destruct (negb (ch =? 0) && (c =? ch)) eqn:E4; cbn [default from_option id].
  - zbool. subst c. destruct Hes as [[-> ->]|[[-> ->]|[-> ->]]]; [by apply Hpair..|done].
  - intros Hm. zbool. apply step_plain in Hm; [done|done|]. split_and!; [done..| |]; intros ->;
      destruct Hes as [[-> ?]|[[-> ?]|[-> ?]]]; try done; intros ->; discriminate E4.
Qed.

Lemma run_esc ch st H s T lb tb ps ev ctx :
  esc_state ch st → is_cstr s → mid H (esc ch s ++ T) false lb tb ps st ev ctx →
  mid (H ++ s) T false lb tb ps st ev (steps (length (esc ch s)) ctx).
Proof.
  intros Hes Hs. revert H ctx. induction Hs as [|c s Hc _ IH]; intros H ctx Hm; [by rewrite app_nil_r|].
  change (esc ch (c :: s)) with (default [c] (escape_char ch c) ++ esc ch s) in *. rewrite <- app_assoc in Hm.
  rewrite steps_app. rewrite (cons_middle c H s), app_assoc. apply IH. by apply run_char.
Qed.

Lemma token_at a t r : is_cstr t → token (a ++ t ++ 0 :: r) (slen a) = t.
Proof. intros Ht. unfold token. rewrite slen_to_nat, drop_app_length. by apply cstr_app_nul. Qed.

(** The first character of a line that is no path starts its key. *)
Lemma newline_as_key H c T lb tb ev :
  c ≠ NL → c ≠ CR → c ≠ SLASH →
  load_process_single_char (mkCtx (H ++ c :: T) (slen H) lb tb 0 [] STATE_NEWLINE false ev) =
  load_process_single_char (mkCtx (H ++ c :: T) (slen H) (slen H) tb 0 [] STATE_KEY false ev).
Proof.
  intros H1 H2 H3. unfold load_process_single_char. cbn zeta. cbn [buf pos state unescape shift path line_begin token_begin tgt].
  rewrite buf_at_mid, (proj2 (Z.eqb_neq c NL)), (proj2 (Z.eqb_neq c CR)), (proj2 (Z.eqb_neq c SLASH)) by done. done.
Qed.

Lemma key_text_head k : text_str k → ∃ c r, key_text k = c :: r ∧ c ≠ NL ∧ c ≠ CR ∧ c ≠ SLASH.
Proof.
  intros [Hk Hne]. destruct k as [|c k]; [done|]. unfold key_text. cbn [hd0 hd]. unfold esc. cbn.
  destruct (c =? SLASH) eqn:E; [eexists _, _; by split_and!|]. unfold escape_char.
  repeat case_if; cbn; eexists _, _; (split; [reflexivity|]); zbool; done.
Qed.

Lemma run_key k T ev ctx :
  text_str k → at_line (key_text k ++ T) ev ctx →
  ∃ a tb, mid (a ++ k) T false (slen a) tb [] STATE_KEY ev (steps (length (key_text k)) ctx).
Proof.
  intros Hk (H & lb & tb & ->). exists H, tb. destruct (key_text_head k Hk) as (c & r & Hh & Hc1 & Hc2 & Hc3).
  set (ctx' := mkCtx (H ++ key_text k ++ T) (slen H) (slen H) tb 0 [] STATE_KEY false ev).
  assert (mid H (key_text k ++ T) false (slen H) tb [] STATE_KEY ev ctx') as Hm.
  { exists []. split; [by rewrite app_nil_r|done]. }
  assert (steps (length (key_text k)) (mkCtx (H ++ key_text k ++ T) (slen H) lb tb 0 [] STATE_NEWLINE false ev) = steps (length (key_text k)) ctx') as ->.
  { unfold ctx'. rewrite Hh. change (length (c :: r)) with (1 + length r)%nat. rewrite !steps_add. cbn [app]. f_equal. by apply newline_as_key. }
  clearbody ctx'. destruct Hk as [Hk Hne]. destruct k as [|x k]; [done|]. unfold key_text in *. cbn [hd0 hd] in *. destruct (x =? SLASH) eqn:E.
  - zbool. subst x. apply Forall_cons_1 in Hk as [Hx Hk]. change (esc EQ (SLASH :: k)) with (SLASH :: esc EQ k) in *. cbn [app] in Hm.
    change (length ([BSLASH] ++ SLASH :: esc EQ k)) with (2 + length (esc EQ k))%nat. rewrite steps_add.
    apply step_bslash in Hm; [|done]. apply step_unescape in Hm; [|done..]. rewrite (cons_middle SLASH H k), app_assoc.
    eapply run_esc; [right; left; done|done|]. exact Hm.
  - eapply run_esc; [right; left; done|done|]. exact Hm.
Qed.

Lemma step_eq H T lb tb ps ev ctx :
  mid H (EQ :: T) false lb tb ps STATE_KEY ev ctx →
  ∃ r, mid (H ++ 0 :: r) T false lb (slen (H ++ 0 :: r)) ps STATE_VALUE ev (load_process_single_char ctx).
Proof.
  intros (G & -> & _). destruct (buf_set_mid H G EQ T 0) as (G' & Hl & HG'). exists G'.
  unfold load_process_single_char. cbn zeta. cbn [buf pos state unescape shift path line_begin token_begin tgt].
  rewrite app_assoc, buf_at_mid, shift_at, <- app_assoc. exists []. split; [|done].
  change (EQ =? NL) with false. change (EQ =? CR) with false. change (EQ =? BSLASH) with false. change (EQ =? EQ) with true. cbn [orb andb].
  rewrite HG'. f_equal; [by rewrite <- !app_assoc|unfold slen; rewrite !length_app; cbn [length]; lia..].
Qed.

Lemma step_end st H T lb tb ps ev ctx c :
  c = NL → mid H (c :: T) false lb tb ps st ev ctx →
  ∃ r, load_process_single_char ctx =
    let b := (H ++ 0 :: r) ++ T in
    mkCtx b (slen (H ++ 0 :: r)) lb tb 0 (if bool_decide (st = STATE_PATH) then [] else ps) STATE_NEWLINE false
      (match st with
       | STATE_PATH => emit ev (EPath (path_tokens b (ps ++ [tb])))
       | STATE_VALUE => if (hd0 (token b lb) =? 0) || (hd0 (token b tb) =? 0) then ev else emit ev (EKv (token b lb) (token b tb))
       | _ => ev
       end).
Proof.
  intros Hc (G & -> & _). destruct (buf_set_mid H G c T 0) as (G' & Hl & HG'). exists G'. subst c.
  unfold load_process_single_char, load_process_line. cbn zeta. cbn [buf pos state unescape shift path line_begin token_begin tgt].
  rewrite app_assoc, buf_at_mid, shift_at, <- app_assoc. change (NL =? NL) with true. cbn [orb]. rewrite HG'.
  assert ((H ++ [0]) ++ G' ++ T = (H ++ 0 :: G') ++ T) as -> by (by rewrite <- !app_assoc).
  assert (slen (H ++ G) + 1 = slen (H ++ 0 :: G')) as Hp by (unfold slen; rewrite !length_app; cbn [length]; lia).
  destruct st; cbn; rewrite ?Hp; try done. destruct (_ || _); cbn; by rewrite Hp.
Qed.

Lemma hd0_text s : text_str s → (hd0 s =? 0) = false.
Proof. intros [Hs Hne]. destruct s as [|c s]; [done|]. apply Forall_cons_1 in Hs as [Hc _]. apply Z.eqb_neq. cbn. unfold is_char in Hc. lia. Qed.

(** The line of a pair sets that pair. *)
Lemma pair_line k v T ev ctx :
  text_str k → text_str v → at_line (pair_text (k, v) ++ T) ev ctx →
  at_line T (emit ev (EKv k v)) (steps (length (pair_text (k, v))) ctx).
Proof.
  intros Hk Hv Hl. unfold pair_text in *. cbn [fst snd] in *. rewrite <- app_assoc in Hl. cbn [app] in Hl. rewrite <- app_assoc in Hl.
  rewrite steps_app. change (EQ :: esc 0 v ++ [NL]) with ([EQ] ++ esc 0 v ++ [NL]). rewrite !steps_app.
  apply run_key in Hl as (a & tb & Hm); [|done]. apply step_eq in Hm as [r Hm].
  apply (run_esc 0) in Hm; [|by right; right|apply Hv]. cbn [app] in Hm. apply step_end in Hm as [r' Hm]; [|done].
  change (steps (length [NL]) ?x) with (load_process_single_char x). change (steps (length [EQ]) ?x) with (load_process_single_char x).
  rewrite Hm. cbn zeta. change (bool_decide (STATE_VALUE = STATE_PATH)) with false.
  assert (∀ T, (((((a ++ k) ++ 0 :: r) ++ v) ++ 0 :: r') ++ T = a ++ k ++ 0 :: r ++ v ++ 0 :: r' ++ T)) as Hb1 by (intros; by rewrite <- !app_assoc).
  assert (((((a ++ k) ++ 0 :: r) ++ v) ++ 0 :: r') ++ T = ((a ++ k) ++ 0 :: r) ++ v ++ 0 :: (r' ++ T)) as Hb2 by (by rewrite <- !app_assoc).
  assert (token (((((a ++ k) ++ 0 :: r) ++ v) ++ 0 :: r') ++ T) (slen a) = k) as -> by (rewrite Hb1; apply token_at, Hk).
  assert (token (((((a ++ k) ++ 0 :: r) ++ v) ++ 0 :: r') ++ T) (slen ((a ++ k) ++ 0 :: r)) = v) as -> by (rewrite Hb2; apply token_at, Hv).
  rewrite !hd0_text by done. by eexists _, _, _.
Qed.

(** The tokens already cut out of a path line, with their offsets. *)
Definition known (H : bytes) : list Z → list bytes → Prop :=
  Forall2 (λ o t, o ≠ 0 ∧ is_cstr t ∧ ∃ a r, H = a ++ t ++ 0 :: r ∧ slen a = o).

Lemma known_ext H x ps ts : known H ps ts → known (H ++ x) ps ts.
Proof.
  intros Hk. eapply Forall2_impl; [exact Hk|]. intros o t (Ho & Ht & a & r & -> & <-). split_and!; [done..|]. exists a, (r ++ x). by rewrite <- !app_assoc.
Qed.

Lemma known_snoc H t r ps ts :
  known H ps ts → H ≠ [] → is_cstr t → known ((H ++ t) ++ 0 :: r) (ps ++ [slen H]) (ts ++ [t]).
Proof.
  intros Hk Hne Ht. apply Forall2_app; [rewrite <- app_assoc; by apply known_ext|]. repeat constructor; [|done|].
  - destruct H; [done|unfold slen; cbn; lia].
  - exists H, r. by rewrite <- app_assoc.
Qed.

Lemma known_tokens H T ps ts : known H ps ts → path_tokens (H ++ T) ps = filter (λ t, t ≠ []) ts.
Proof.
  intros Hk. apply (known_ext _ T) in Hk. unfold path_tokens. f_equal. induction Hk as [|o t ps ts (Ho & Ht & a & r & HH & <-) _ IH]; [done|].
  cbn. rewrite (proj2 (Z.eqb_neq _ _)) by done. cbn. rewrite IH. f_equal. rewrite HH. by apply token_at.
Qed.

Lemma step_slash H T lb tb ps ev ctx :
  mid H (SLASH :: T) false lb tb ps STATE_PATH ev ctx →
  ∃ r, mid (H ++ 0 :: r) T false lb (slen (H ++ 0 :: r)) (ps ++ [tb]) STATE_PATH ev (load_process_single_char ctx).
Proof.
  intros (G & -> & _). destruct (buf_set_mid H G SLASH T 0) as (G' & Hl & HG'). exists G'.
  unfold load_process_single_char. cbn zeta. cbn [buf pos state unescape shift path line_begin token_begin tgt].
  rewrite app_assoc, buf_at_mid, shift_at, <- app_assoc. exists []. split; [|done].
  change (SLASH =? NL) with false. change (SLASH =? CR) with false. change (SLASH =? BSLASH) with false. change (SLASH =? SLASH) with true. cbn [orb andb].
  rewrite HG'. f_equal; [by rewrite <- !app_assoc|unfold slen; rewrite !length_app; cbn [length]; lia..].
Qed.

Lemma filter_text_str ts : Forall text_str ts → filter (λ t, t ≠ []) ts = ts.
Proof. induction 1 as [|t ts [_ Ht] _ IH]; [done|]. rewrite filter_cons_True by done. by rewrite IH. Qed.

(** The end of the path line: its last token is [t]. *)
Lemma path_end H t T lb ps ts ev ctx :
  H ≠ [] → is_cstr t → known H ps ts → mid (H ++ t) (NL :: T) false lb (slen H) ps STATE_PATH ev ctx →
  at_line T (emit ev (EPath (filter (λ t, t ≠ []) (ts ++ [t])))) (load_process_single_char ctx).
Proof.
  intros Hne Ht Hk Hm. apply step_end in Hm as [r ->]; [|done]. cbn zeta. eexists _, _, _.
  by rewrite (known_tokens _ _ _ (ts ++ [t])) by (by apply known_snoc).
Qed.

Lemma run_tokens H t p T lb ps ts ev ctx :
  H ≠ [] → Forall is_cstr (t :: p) → known H ps ts →
  mid H (tokens_text (t :: p) ++ NL :: T) false lb (slen H) ps STATE_PATH ev ctx →
  at_line T (emit ev (EPath (filter (λ t, t ≠ []) (ts ++ t :: p)))) (steps (length (tokens_text (t :: p) ++ [NL])) ctx).
Proof.
  revert H t ps ts ctx. induction p as [|t' p IH]; intros H t ps ts ctx Hne Hok Hk Hm.
  - apply Forall_cons_1 in Hok as [Ht _]. cbn [tokens_text] in *. rewrite steps_app. apply (path_end H t _ lb ps); [done..|].
    eapply run_esc; [by left|done|exact Hm].
  - apply Forall_cons_1 in Hok as [Ht Hok]. change (tokens_text (t :: t' :: p)) with (esc SLASH t ++ [SLASH] ++ tokens_text (t' :: p)) in *.
    rewrite <- !app_assoc in Hm |- *. rewrite !(steps_app (esc _ _)), (steps_app [SLASH]). apply run_esc in Hm; [|by left|done].
    apply step_slash in Hm as [r Hm]. rewrite (cons_middle t ts), app_assoc. apply (IH ((H ++ t) ++ 0 :: r) t' (ps ++ [slen H])); [by destruct H, t|done|by apply known_snoc|exact Hm].
Qed.

(** A path line goes to the namespace of that path. *)
Lemma path_line p T ev ctx :
  Forall text_str p → at_line (path_text p ++ T) ev ctx → at_line T (emit ev (EPath p)) (steps (length (path_text p)) ctx).
Proof.
  intros Hp (H & lb & tb & ->). unfold path_text. change (SLASH :: tokens_text p ++ [NL]) with ([SLASH] ++ tokens_text p ++ [NL]).
  rewrite (steps_app [SLASH]), <- !app_assoc. change (steps (length [SLASH]) ?x) with (load_process_single_char x).
  match goal with |- context [load_process_single_char ?c] => set (ctx' := load_process_single_char c) end.
  assert (mid (H ++ [SLASH]) (tokens_text p ++ NL :: T) false (slen H) (slen (H ++ [SLASH])) [] STATE_PATH ev ctx') as Hm.
  { exists []. split; [|done]. unfold ctx', load_process_single_char. cbn zeta. cbn [buf pos state unescape shift path line_begin token_begin tgt app].
    rewrite buf_at_mid, app_nil_r. cbn. f_equal; [by rewrite <- app_assoc|by rewrite slen_app..]. }
  clearbody ctx'. pose proof (filter_text_str p Hp) as Hf. rewrite <- Hf at 1. clear Hf. destruct p as [|t p].
  - apply (path_end (H ++ [SLASH]) [] T (slen H) [] []); [by destruct H|constructor|constructor|by rewrite app_nil_r].
  - eapply (run_tokens (H ++ [SLASH]) t p T _ [] []); [by destruct H| |constructor|exact Hm].
    eapply Forall_impl; [exact Hp|by intros ? []].
Qed.

Lemma blank_line T ev ctx : at_line (NL :: T) ev ctx → at_line T ev (load_process_single_char ctx).
Proof.
  intros (H & lb & tb & ->). unfold load_process_single_char, load_process_line. cbn zeta. cbn [buf pos state shift path].
  rewrite buf_at_mid. cbn. rewrite Z.sub_0_r. destruct (buf_set_mid H [] NL T 0) as (G' & Hl & HG'). destruct G'; [|done].
  cbn in HG'. rewrite HG'. exists (H ++ [0]), lb, tb. by rewrite slen_app.
Qed.

Lemma run_pairs pairs T ev ctx :
  Forall (λ kv, text_str kv.1 ∧ text_str kv.2) pairs → at_line (mjoin (pair_text <$> pairs) ++ T) ev ctx →
  at_line T (foldl emit ev ((λ kv, EKv kv.1 kv.2) <$> pairs)) (steps (length (mjoin (pair_text <$> pairs))) ctx).
Proof.
  intros Hp. revert ev ctx. induction Hp as [|[k v] pairs [Hk Hv] _ IH]; intros ev ctx Hl; [done|].
  change (mjoin (pair_text <$> (k, v) :: pairs)) with (pair_text (k, v) ++ mjoin (pair_text <$> pairs)) in *.
  rewrite <- app_assoc in Hl. rewrite steps_app. apply pair_line in Hl; [|done..]. rewrite fmap_cons. cbn [foldl fst snd]. by apply IH.
Qed.

Lemma subs_events p subs :
  mjoin ((λ '(n, s), tree_events (p ++ [n]) s) <$> subs) = mjoin ((λ x, tree_events (p ++ [x.1]) x.2) <$> subs).
Proof. f_equal. apply list_fmap_ext. by intros _ [n s] _. Qed.

Lemma run_tree t p T ev ctx :
  tree_ok t → Forall text_str p → at_line (tree_text p t ++ T) ev ctx →
  at_line T (foldl emit ev (tree_events p t)) (steps (length (tree_text p t)) ctx).
Proof.
  revert p T ev ctx. induction t as [pairs subs IH] using tree_ind'. intros p T ev ctx Hok Hp Hl.
  inversion Hok as [? ? Hpairs Hsubs]; subst. cbn [tree_text tree_events] in *. rewrite subs_text in *. rewrite subs_events.
  rewrite <- !app_assoc in Hl. rewrite !steps_app. apply path_line in Hl; [|done]. apply run_pairs in Hl; [|done].
  cbn [foldl]. rewrite foldl_app. revert Hl. generalize (foldl emit (emit ev (EPath p)) ((λ kv, EKv kv.1 kv.2) <$> pairs)).
  generalize (steps (length (mjoin (pair_text <$> pairs))) (steps (length (path_text p)) ctx)). clear ev ctx Hok Hpairs pairs.
  induction subs as [|[n s] subs IHs]; intros ctx ev Hl; [done|].
  apply Forall_cons_1 in IH as [IHt IH]. apply Forall_cons_1 in Hsubs as [[Hn Hs] Hsubs]. rewrite !fmap_cons in *. cbn [fst snd] in *.
  change (mjoin ((NL :: tree_text (p ++ [n]) s) :: ?l)) with ([NL] ++ tree_text (p ++ [n]) s ++ mjoin l) in *.
  change (mjoin (tree_events (p ++ [n]) s :: ?l)) with (tree_events (p ++ [n]) s ++ mjoin l). rewrite <- !app_assoc in Hl.
  rewrite (steps_app [NL]), steps_app, foldl_app. apply (IHs IH Hsubs). apply IHt; [done|by apply Forall_app; split; [|constructor]|].
  by apply blank_line in Hl.
Qed.

Lemma text_load_tree t s d :
  tree_ok t → sdb_text_load s (Some (tree_text [] t)) d = (true, databases (foldl emit (mkTarget s s d) (tree_events [] t))).
Proof.
  intros Hok. destruct (run_tree t [] [] (mkTarget s s d) (load_ctx_init s (tree_text [] t) d)) as (H & lb & tb & Hf); [done|constructor| |].
  { exists [], 0, 0. by rewrite app_nil_r. }
  assert (sdb_text_load_buf s (tree_text [] t) d = databases (foldl emit (mkTarget s s d) (tree_events [] t))) as Hl.
  { unfold sdb_text_load_buf. rewrite load_chars_steps by (cbn; unfold slen; lia). rewrite Hf. cbn zeta. cbn [line_begin buf state tgt].
    rewrite bool_decide_false by naive_solver. rewrite andb_false_r. by destruct t. }
  unfold sdb_text_load. destruct (tree_text [] t) eqn:E; [by destruct t|]. by rewrite Hl.
Qed.
End loading.

(** Saving a database with its namespaces as text and loading the text again asks for
    exactly the pairs that were saved, each in the namespace it came from and in the order
    written, whatever bytes the strings contain. *)
Lemma text_roundtrip_calls `{!TextDbs H D} t sort room (s : H) (d : D) :
  tree_ok t → (length (tree_text [] t) <= room)%nat →
  ∃ b, sdb_text_save room t sort = (true, b)
    ∧ sdb_text_load s (Some b) d = (true, databases (foldl emit (mkTarget s s d) (tree_events [] t))).
Proof.
  intros Hok Hr. exists (tree_text [] t). split; [|by apply text_load_tree]. unfold sdb_text_save. by rewrite text_save_ok.
Qed.

Definition text_example : SdbTree :=
  Tree [(str "/a=b", str "x\y"); (str "k", [10; 13])] [(str "n/s", Tree [(str "=", str "=")] [])].

Lemma text_example_ok : tree_ok text_example.
Proof. repeat (constructor; cbn); try done; unfold is_char; cbn; lia. Qed.

(** ** A full disk *)

Lemma write_full d fr b : b ≠ [] → write (mkOut d 0 fr) b = (false, mkOut d 0 fr).
Proof. intros Hb. destruct b as [|c b]; [done|]. unfold write. cbn. by rewrite app_nil_r. Qed.

Lemma escape_loop_full d fr blk s ch :
  escape_loop (mkOut d 0 fr) blk s ch = (bool_decide (blk ++ s = []), mkOut d 0 fr).
Proof.
  revert blk. induction s as [|c s IH]; intros blk; cbn [escape_loop].
  - rewrite app_nil_r. destruct blk as [|x blk]; [done|]. unfold escape_flush. by rewrite write_full.
  - destruct (escape_char ch c) as [e|] eqn:E; [|rewrite IH; rewrite <- app_assoc; by destruct blk].
    assert (e ≠ []) by (unfold escape_char in E; repeat case_match; naive_solver). rewrite bool_decide_false by (by destruct blk).
    destruct blk as [|x blk]; unfold escape_flush; by rewrite write_full.
Qed.

Lemma save_kv_full d fr k v : save_kv_cb (mkOut d 0 fr) k v = (false, mkOut d 0 fr).
Proof.
  unfold save_kv_cb, write_key. destruct k as [|c k]; [cbn; by rewrite app_nil_r|]. destruct (hd0 (c :: k) =? SLASH).
  - by rewrite write_full.
  - by rewrite escape_loop_full.
Qed.

(** When the disk is full after the path line, every pair of the database is lost and
    saving still reports success; with a namespace to write it reports failure, and when
    it does not sort it then frees the database's own list of namespaces. *)
Theorem sdb_text_save_full_disk pairs n s subs sort :
  sdb_text_save 2 (Tree pairs []) sort = (true, [SLASH; NL]) ∧
  text_save (Tree pairs ((n, s) :: subs)) (mkOut [] 2 []) sort [] = (false, mkOut [SLASH; NL] 0 (if sort then [] else [[]])).
Proof.
  assert (∀ pairs, save_pairs sort (mkOut [SLASH; NL] 0 []) pairs = mkOut [SLASH; NL] 0 []) as Hp.
  { intros l. induction l as [|[k v] l IH]; [done|]. cbn [save_pairs]. rewrite save_kv_full. by destruct sort. }
  split.
  - unfold sdb_text_save. cbn. by rewrite Hp.
  - cbn. rewrite Hp, write_full by done. by destruct sort.
Qed.
