(* ===== verification/Base64.v ===== *)
(** * Base64: src/src/base64.c

    The encoder and decoder work on groups of three bytes and four characters.
    The output buffers are large enough (8 + 2 len and 3 len + 16 bytes), so the
    text written is a list; the decoder writes three bytes per group and keeps
    the first [ret] of them. *)

From S2P Require Import Prelude.

Definition cb64 : bytes := str "ABCDEFGHIJKLMNOPQRSTUVWXYZabcdefghijklmnopqrstuvwxyz0123456789+/".
Definition cd64 : bytes := str "|$$$}rstuvwxyz{$$$$$$$>?@ABCDEFGHIJKLMNOPQRSTUVW$$$$$$XYZ[\]^_`abcdefghijklmnopq".

Definition enc (x : Z) : Z := byte_at cb64 (Z.to_nat x).

(** [in] is the input from the group on; [len] at most three. *)
Definition sdb_b64_encode (inp : bytes) (len : Z) : bytes :=
  let a := byte_at inp 0 in let b := byte_at inp 1 in let c := byte_at inp 2 in
  if len <? 1 then []
  else
    [ enc (Z.shiftr a 2);
      enc (Z.lor (Z.shiftl (Z.land a 0x03) 4) (if 1 <? len then Z.shiftr (Z.land b 0xf0) 4 else 0));
      (if 1 <? len then enc (Z.lor (Z.shiftl (Z.land b 0x0f) 2) (if 2 <? len then Z.shiftr (Z.land c 0xc0) 6 else 0)) else chr "=");
      (if 2 <? len then enc (Z.land c 0x3f) else chr "=") ].

(** The table entry of a character, [None] for one outside the table. *)
Definition dec_entry (c : Z) : option Z :=
  if (s8 c <? chr "+") || (chr "z" <? s8 c) then None else Some (byte_at cd64 (Z.to_nat (s8 c - chr "+"))).

(** The loop over the four characters: the values and the length, [None] for -1 at once. *)
Fixpoint b64_values (n : nat) (i : Z) (inp : bytes) (v : bytes) : option (bytes * Z) :=
  match n with
  | O => Some (v, 3)
  | S n' =>
      match dec_entry (byte_at inp (Z.to_nat i)) with
      | None => None
      | Some e =>
          if e =? chr "$" then Some (<[Z.to_nat i := e]> v, if i =? 0 then -1 else i - 1)
          else b64_values n' (i + 1) inp (<[Z.to_nat i := u8 (e - 62)]> v)
      end
  end.

(** The length and the three bytes written. *)
Definition sdb_b64_decode (inp : bytes) : Z * bytes :=
  match b64_values 4 0 inp [0; 0; 0; 0] with
  | None => (-1, [])
  | Some (v, len) =>
      let v0 := byte_at v 0 in let v1 := byte_at v 1 in let v2 := byte_at v 2 in let v3 := byte_at v 3 in
      (len, [ u8 (Z.lor (Z.shiftl v0 2) (Z.shiftr v1 4));
              u8 (Z.lor (Z.shiftl v1 4) (Z.shiftr v2 2));
              u8 (Z.lor (Z.land (Z.shiftl v2 6) 0xc0) v3) ])
  end.

(** The text before its terminator; [bin] are the bytes from the group on. *)
Fixpoint encode_raw_loop (fuel : nat) (bin : bytes) (len : Z) : bytes :=
  match fuel with
  | O => []
  | S fuel' =>
      if 0 <? len then
        sdb_b64_encode bin (if 3 <? len then 3 else len) ++ encode_raw_loop fuel' (drop 3 bin) (len - 3)
      else []
  end.

Definition sdb_encode_raw (bin : bytes) (len : Z) : bytes := encode_raw_loop (S (Z.to_nat len)) bin len.

(** The bytes decoded; [in] and [out] are the positions reached. *)
Fixpoint decode_raw_loop (fuel : nat) (bin : bytes) (in_ len : Z) (bout : bytes) : Z * bytes :=
  match fuel with
  | O => (in_, bout)
  | S fuel' =>
      if in_ <? len then
        let '(ret, out) := sdb_b64_decode bin in
        if ret <? 1 then (in_, bout)
        else decode_raw_loop fuel' (drop 4 bin) (in_ + 4) len (bout ++ take (Z.to_nat ret) out)
      else (in_, bout)
  end.

(** The length returned and the bytes up to there. *)
Definition sdb_decode_raw (bin : bytes) (len : Z) : Z * bytes :=
  let '(in_, bout) := decode_raw_loop (S (Z.to_nat len)) bin 0 len [] in
  (if negb (in_ =? slen bout) then slen bout else 0, bout).

(** [len] is negative for a C string. *)
Definition sdb_encode (bin : option bytes) (len : Z) : option bytes :=
  match bin with
  | None => None
  | Some bin =>
      let len := if len <? 0 then slen (cstr bin) else len in
      if len =? 0 then Some [] else Some (sdb_encode_raw bin len)
  end.

(** The bytes and their number, [*len]. *)
Definition sdb_decode (inp : option bytes) : option bytes :=
  match inp with
  | None => None
  | Some inp =>
      let ilen := slen inp in
      if ilen =? 0 then None
      else
        let size := u32 (ilen * 3 + 16) in
        if size <? ilen then None
        else let '(olen, out) := sdb_decode_raw inp ilen in
             if olen =? 0 then None else Some (take (Z.to_nat olen) out)
  end.

(** * Facts *)

(** The two tables are inverse. *)
Lemma dec_enc x : 0 <= x < 64 → ∃ e, dec_entry (enc x) = Some e ∧ (e =? chr "$") = false ∧ u8 (e - 62) = x ∧ is_char (enc x).
Proof.
  intros Hx. assert (forallb (λ x, match dec_entry (enc x) with
    | Some e => negb (e =? chr "$") && (u8 (e - 62) =? x) && (0 <? enc x) && (enc x <? 256) | None => false end) (seqZ 0 64) = true) as H
    by (vm_compute; done).
  pose proof (forallZ_range _ 64 H x Hx) as Hf. cbv beta in Hf. destruct (dec_entry (enc x)) as [e|]; [|done].
  exists e. zbool. unfold is_char. split_and!; (done || lia).
Qed.

Lemma dec_pad : dec_entry (chr "=") = Some (chr "$").
Proof. done. Qed.

(** The bits of a group. *)
Definition v0_of (a : Z) : Z := Z.shiftr a 2.
Definition v1_of (a b : Z) : Z := Z.lor (Z.shiftl (Z.land a 0x03) 4) (Z.shiftr (Z.land b 0xf0) 4).
Definition v2_of (b c : Z) : Z := Z.lor (Z.shiftl (Z.land b 0x0f) 2) (Z.shiftr (Z.land c 0xc0) 6).
Definition v3_of (c : Z) : Z := Z.land c 0x3f.

Lemma forall2_range (f : Z → Z → bool) n m :
  forallb (λ a, forallb (f a) (seqZ 0 m)) (seqZ 0 n) = true → ∀ a b, 0 <= a < n → 0 <= b < m → f a b = true.
Proof. intros H a b Ha Hb. pose proof (forallZ_range _ n H a Ha) as H'. by apply (forallZ_range _ m H'). Qed.

Lemma group_vals a b c :
  is_u8 a → is_u8 b → is_u8 c →
  0 <= v0_of a < 64 ∧ 0 <= v1_of a b < 64 ∧ 0 <= v2_of b c < 64 ∧ 0 <= v3_of c < 64.
Proof.
  intros Ha Hb Hc.
  assert (forallb (λ a, forallb (λ b, (0 <=? v0_of a) && (v0_of a <? 64) && (0 <=? v1_of a b) && (v1_of a b <? 64)
    && (0 <=? v2_of a b) && (v2_of a b <? 64) && (0 <=? v3_of a) && (v3_of a <? 64)) (seqZ 0 256)) (seqZ 0 256) = true) as H
    by (vm_compute; done).
  pose proof (forall2_range _ _ _ H a b Ha Hb). pose proof (forall2_range _ _ _ H b c Hb Hc). pose proof (forall2_range _ _ _ H c c Hc Hc).
  cbv beta in *. zbool. lia.
Qed.

Lemma group_first a b : is_u8 a → is_u8 b → u8 (Z.lor (Z.shiftl (v0_of a) 2) (Z.shiftr (v1_of a b) 4)) = a.
Proof.
  intros Ha Hb. assert (forallb (λ a, forallb (λ b, u8 (Z.lor (Z.shiftl (v0_of a) 2) (Z.shiftr (v1_of a b) 4)) =? a)
    (seqZ 0 256)) (seqZ 0 256) = true) as H by (vm_compute; done).
  by apply Z.eqb_eq, (forall2_range _ _ _ H a b).
Qed.

Lemma group_third b c : is_u8 b → is_u8 c → u8 (Z.lor (Z.land (Z.shiftl (v2_of b c) 6) 0xc0) (v3_of c)) = c.
Proof.
  intros Hb Hc. assert (forallb (λ b, forallb (λ c, u8 (Z.lor (Z.land (Z.shiftl (v2_of b c) 6) 0xc0) (v3_of c)) =? c)
    (seqZ 0 256)) (seqZ 0 256) = true) as H by (vm_compute; done).
  by apply Z.eqb_eq, (forall2_range _ _ _ H b c).
Qed.

Lemma group_second a b c : is_u8 a → is_u8 b → is_u8 c → u8 (Z.lor (Z.shiftl (v1_of a b) 4) (Z.shiftr (v2_of b c) 2)) = b.
Proof.
  intros Ha Hb Hc. unfold v1_of, v2_of.
  set (x := Z.land a 3). set (y := Z.shiftr (Z.land c 0xc0) 6).
  assert (0 <= x < 4) as Hx by (unfold x; change 3 with (2 ^ 2 - 1); rewrite land_ones_mod by lia; by apply Z.mod_pos_bound).
  assert (0 <= y < 4) as Hy.
  { unfold y. rewrite Z.shiftr_land, Z.shiftr_div_pow2 by lia. change (Z.shiftr 192 6) with (2 ^ 2 - 1).
    rewrite land_ones_mod by lia. by apply Z.mod_pos_bound. }
  assert (forallb (λ b, forallb (λ xy, u8 (Z.lor (Z.shiftl (Z.lor (Z.shiftl (xy / 4) 4) (Z.shiftr (Z.land b 0xf0) 4)) 4)
    (Z.shiftr (Z.lor (Z.shiftl (Z.land b 0x0f) 2) (xy mod 4)) 2)) =? b) (seqZ 0 16)) (seqZ 0 256) = true) as H by (vm_compute; done).
  pose proof (forall2_range _ _ _ H b (4 * x + y) Hb ltac:(lia)) as Hf. cbv beta in Hf.
  replace ((4 * x + y) / 4) with x in Hf by (rewrite (Z.mul_comm 4), Z.div_add_l, (Z.div_small y) by lia; lia).
  replace ((4 * x + y) mod 4) with y in Hf by (rewrite Z.add_comm, (Z.mul_comm 4), Z_mod_plus_full, Z.mod_small by lia; lia).
  by apply Z.eqb_eq in Hf.
Qed.

(** Decoding four characters that encode values. *)
Lemma decode_full a b c rest :
  is_u8 a → is_u8 b → is_u8 c →
  sdb_b64_decode ([enc (v0_of a); enc (v1_of a b); enc (v2_of b c); enc (v3_of c)] ++ rest) = (3, [a; b; c]).
Proof.
  intros Ha Hb Hc. destruct (group_vals a b c Ha Hb Hc) as (H0 & H1 & H2 & H3).
  destruct (dec_enc _ H0) as (e0 & E0 & D0 & V0 & _). destruct (dec_enc _ H1) as (e1 & E1 & D1 & V1 & _).
  destruct (dec_enc _ H2) as (e2 & E2 & D2 & V2 & _). destruct (dec_enc _ H3) as (e3 & E3 & D3 & V3 & _).
  unfold sdb_b64_decode. cbn [b64_values app]. change (byte_at (?x :: _) (Z.to_nat 0)) with x. rewrite E0, D0, V0.
  change (byte_at (_ :: ?x :: _) (Z.to_nat (0 + 1))) with x. rewrite E1, D1, V1.
  change (byte_at (_ :: _ :: ?x :: _) (Z.to_nat (0 + 1 + 1))) with x. rewrite E2, D2, V2.
  change (byte_at (_ :: _ :: _ :: ?x :: _) (Z.to_nat (0 + 1 + 1 + 1))) with x. rewrite E3, D3, V3.
  change ((3, [u8 (Z.lor (Z.shiftl (v0_of a) 2) (Z.shiftr (v1_of a b) 4)); u8 (Z.lor (Z.shiftl (v1_of a b) 4) (Z.shiftr (v2_of b c) 2));
    u8 (Z.lor (Z.land (Z.shiftl (v2_of b c) 6) 0xc0) (v3_of c))]) = (3, [a; b; c])).
  by rewrite group_first, group_second, group_third by done.
Qed.

Lemma decode_two a b rest :
  is_u8 a → is_u8 b →
  ∃ o, sdb_b64_decode ([enc (v0_of a); enc (v1_of a b); enc (v2_of b 0); chr "="] ++ rest) = (2, [a; b; o]).
Proof.
  intros Ha Hb. assert (is_u8 0) as Hc by done. destruct (group_vals a b 0 Ha Hb Hc) as (H0 & H1 & H2 & H3).
  destruct (dec_enc _ H0) as (e0 & E0 & D0 & V0 & _). destruct (dec_enc _ H1) as (e1 & E1 & D1 & V1 & _).
  destruct (dec_enc _ H2) as (e2 & E2 & D2 & V2 & _).
  unfold sdb_b64_decode. cbn [b64_values app]. change (byte_at (?x :: _) (Z.to_nat 0)) with x. rewrite E0, D0, V0.
  change (byte_at (_ :: ?x :: _) (Z.to_nat (0 + 1))) with x. rewrite E1, D1, V1.
  change (byte_at (_ :: _ :: ?x :: _) (Z.to_nat (0 + 1 + 1))) with x. rewrite E2, D2, V2.
  change (byte_at (_ :: _ :: _ :: ?x :: _) (Z.to_nat (0 + 1 + 1 + 1))) with x. rewrite dec_pad, Z.eqb_refl.
  eexists. apply (f_equal2 pair); [done|]. apply (f_equal2 cons); [exact (group_first a b Ha Hb)|].
  apply (f_equal2 cons); [exact (group_second a b 0 Ha Hb Hc)|done].
Qed.

Lemma decode_one a rest :
  is_u8 a → ∃ o p, sdb_b64_decode ([enc (v0_of a); enc (v1_of a 0); chr "="; chr "="] ++ rest) = (1, [a; o; p]).
Proof.
  intros Ha. assert (is_u8 0) as Hc by done. destruct (group_vals a 0 0 Ha Hc Hc) as (H0 & H1 & _).
  destruct (dec_enc _ H0) as (e0 & E0 & D0 & V0 & _). destruct (dec_enc _ H1) as (e1 & E1 & D1 & V1 & _).
  unfold sdb_b64_decode. cbn [b64_values app]. change (byte_at (?x :: _) (Z.to_nat 0)) with x. rewrite E0, D0, V0.
  change (byte_at (_ :: ?x :: _) (Z.to_nat (0 + 1))) with x. rewrite E1, D1, V1.
  change (byte_at (_ :: _ :: ?x :: _) (Z.to_nat (0 + 1 + 1))) with x. rewrite dec_pad, Z.eqb_refl.
  eexists _, _. apply (f_equal2 pair); [done|]. apply (f_equal2 cons); [exact (group_first a 0 Ha Hc)|done].
Qed.

Lemma encode_group a b c rest n :
  3 <= n → sdb_b64_encode (a :: b :: c :: rest) (if 3 <? n then 3 else n) = [enc (v0_of a); enc (v1_of a b); enc (v2_of b c); enc (v3_of c)].
Proof.
  intros Hn. replace (if 3 <? n then 3 else n) with 3 by (destruct (Z.ltb_spec 3 n); lia). done.
Qed.

Lemma slen_nat s : Z.to_nat (slen s) = length s.
Proof. unfold slen. lia. Qed.

(** Encoding and decoding from a group on. *)
Lemma decode_encode_loop f l in_ acc fuel :
  is_bytes l → (length l < f)%nat → (length (encode_raw_loop f l (slen l)) < fuel)%nat →
  decode_raw_loop fuel (encode_raw_loop f l (slen l)) in_ (in_ + slen (encode_raw_loop f l (slen l))) acc
  = (in_ + slen (encode_raw_loop f l (slen l)), acc ++ l).
Proof.
  revert l in_ acc fuel. induction f as [|f IH]; intros l in_ acc fuel Hl Hf Hfuel; [lia|]. cbn [encode_raw_loop] in *.
  destruct l as [|a l].
  { change (0 <? slen []) with false in *. cbv iota in *. destruct fuel as [|fuel]; [cbn in Hfuel; lia|]. cbn [decode_raw_loop].
    rewrite (proj2 (Z.ltb_ge _ _)) by (unfold slen; cbn; lia). by rewrite app_nil_r, Z.add_0_r. }
  apply Forall_cons in Hl as [Ha Hl]. rewrite (proj2 (Z.ltb_lt 0 _)) in * by (unfold slen; cbn; lia).
  destruct fuel as [|fuel]; [cbn in Hfuel; lia|]. cbn [decode_raw_loop].
  destruct l as [|b l]; [|destruct l as [|c l]; apply Forall_cons in Hl as [Hb Hl]].
  - change (slen [a]) with 1 in *. cbn [drop]. destruct f as [|f]; [cbn in Hf; lia|]. cbn [encode_raw_loop].
    change (0 <? 1 - 3) with false. cbv iota. rewrite app_nil_r.
    change (sdb_b64_encode [a] (if 3 <? 1 then 3 else 1)) with [enc (v0_of a); enc (v1_of a 0); chr "="; chr "="].
    destruct (decode_one a [] Ha) as (o & p & E). rewrite app_nil_r in E. rewrite E.
    rewrite (proj2 (Z.ltb_lt _ _)) by (unfold slen; cbn; lia). change (1 <? 1) with false. cbv iota.
    destruct fuel as [|fuel]; cbn [decode_raw_loop]; [done|]. by rewrite (proj2 (Z.ltb_ge _ _)) by (unfold slen; cbn; lia).
  - change (slen [a; b]) with 2 in *. cbn [drop]. destruct f as [|f]; [cbn in Hf; lia|]. cbn [encode_raw_loop].
    change (0 <? 2 - 3) with false. cbv iota. rewrite app_nil_r.
    change (sdb_b64_encode [a; b] (if 3 <? 2 then 3 else 2)) with [enc (v0_of a); enc (v1_of a b); enc (v2_of b 0); chr "="].
    destruct (decode_two a b [] Ha Hb) as (o & E). rewrite app_nil_r in E. rewrite E.
    rewrite (proj2 (Z.ltb_lt _ _)) by (unfold slen; cbn; lia). change (2 <? 1) with false. cbv iota.
    destruct fuel as [|fuel]; cbn [decode_raw_loop]; [done|]. by rewrite (proj2 (Z.ltb_ge _ _)) by (unfold slen; cbn; lia).
  - apply Forall_cons in Hl as [Hc Hl]. rewrite encode_group in * by (unfold slen; cbn; lia).
    change (drop 3 (a :: b :: c :: l)) with l in *. replace (slen (a :: b :: c :: l) - 3) with (slen l) in * by (unfold slen; cbn [length]; lia).
    rewrite decode_full by done. set (e := encode_raw_loop f l (slen l)) in *.
    rewrite (proj2 (Z.ltb_lt _ _)) by (unfold slen; cbn [length app]; lia). change (3 <? 1) with false. cbv iota.
    change (drop 4 ([?x; ?y; ?z; ?t] ++ e)) with e. change (take (Z.to_nat 3) [a; b; c]) with [a; b; c].
    replace (in_ + slen ([enc (v0_of a); enc (v1_of a b); enc (v2_of b c); enc (v3_of c)] ++ e)) with (in_ + 4 + slen e)
      by (unfold slen; cbn [length app]; lia).
    rewrite length_app in Hfuel. cbn [length] in Hf, Hfuel. subst e. rewrite IH by (done || lia). by rewrite <- app_assoc.
Qed.

Lemma encode_length f l : (length l < f)%nat → slen (encode_raw_loop f l (slen l)) = 4 * ((slen l + 2) / 3).
Proof.
  revert l. induction f as [|f IH]; intros l Hf; [lia|]. cbn [encode_raw_loop].
  destruct l as [|a l]; [done|]. rewrite (proj2 (Z.ltb_lt 0 _)) by (unfold slen; cbn; lia).
  destruct l as [|b l]; [|destruct l as [|c l]]; [destruct f; [cbn in Hf; lia|done]..|].
  rewrite encode_group by (unfold slen; cbn; lia). change (drop 3 (a :: b :: c :: l)) with l.
  replace (slen (a :: b :: c :: l) - 3) with (slen l) by (unfold slen; cbn [length]; lia).
  cbn [length] in Hf. unfold slen at 1. rewrite length_app, Nat2Z.inj_add. fold (slen (encode_raw_loop f l (slen l))). rewrite IH by lia.
  unfold slen. cbn [length]. replace (Z.of_nat (S (S (S (length l)))) + 2) with (Z.of_nat (length l) + 2 + 1 * 3) by lia.
  rewrite Z.div_add by lia. lia.
Qed.

Lemma base64_lossless l :
  is_bytes l → l ≠ [] → slen l < 2 ^ 29 →
  ∃ t, sdb_encode (Some l) (slen l) = Some t ∧ slen t = 4 * ((slen l + 2) / 3) ∧ sdb_decode (Some t) = Some l.
Proof.
  intros Hl Hne Hs. assert (0 < slen l) as Hpos by (destruct l; [done|unfold slen; cbn; lia]).
  unfold sdb_encode. rewrite (proj2 (Z.ltb_ge _ _)), (proj2 (Z.eqb_neq _ _)) by lia.
  unfold sdb_encode_raw. rewrite slen_nat. eexists; split; [done|]. set (t := encode_raw_loop (S (length l)) l (slen l)).
  assert (slen t = 4 * ((slen l + 2) / 3)) as Ht by (apply encode_length; lia). split; [done|].
  assert (0 < slen t < 2 ^ 30) as Hb.
  { rewrite Ht. pose proof (Z.div_le_lower_bound (slen l + 2) 3 1). pose proof (Z.div_le_upper_bound (slen l + 2) 3 (slen l)).
    assert ((slen l + 2) / 3 <= 2 ^ 28 - 1); [|lia]. apply Z.lt_succ_r. apply Z.div_lt_upper_bound; lia. }
  unfold sdb_decode. rewrite (proj2 (Z.eqb_neq _ _)) by lia. rewrite u32_small by (unfold is_u32; lia).
  rewrite (proj2 (Z.ltb_ge _ _)) by lia. unfold sdb_decode_raw. rewrite slen_nat.
  pose proof (decode_encode_loop (S (length l)) l 0 [] (S (length t)) Hl) as Hd. fold t in Hd. rewrite Z.add_0_l in Hd.
  rewrite Hd by lia. cbn [app]. rewrite (proj2 (Z.eqb_neq (slen t) _)).
  2:{ rewrite Ht. pose proof (Z.div_mod (slen l + 2) 3 ltac:(lia)). pose proof (Z.mod_pos_bound (slen l + 2) 3 ltac:(lia)). lia. }
  cbn [negb]. rewrite (proj2 (Z.eqb_neq _ _)) by lia. rewrite slen_nat. by rewrite firstn_all.
Qed.

(** * Properties *)

(** C35: base64 is lossless: decoding the text that [sdb_encode] produces for a non-empty
    sequence of bytes (zeros included, up to about 2^29 of them) gives the bytes back,
    for every length modulo three; the text has four characters per three bytes. *)
Theorem sdb_base64_roundtrip l :
  is_bytes l → l ≠ [] → slen l < 2 ^ 29 →
  ∃ t, sdb_encode (Some l) (slen l) = Some t ∧ slen t = 4 * ((slen l + 2) / 3) ∧ sdb_decode (Some t) = Some l.
Proof. apply base64_lossless. Qed.

Lemma sdb_base64_roundtrip_witness :
  ∃ t, sdb_encode (Some [0; 255; 7; 65]) (slen [0; 255; 7; 65]) = Some t ∧ slen t = 8 ∧ sdb_decode (Some t) = Some [0; 255; 7; 65].
Proof. apply (sdb_base64_roundtrip [0; 255; 7; 65]); [by repeat constructor|done|done]. Defined.
