(* ===== verification/Fmt.v ===== *)
(** * Structures through format strings ([src/fmt.c])

    A format has a character per field.  The structure is a block of memory, byte by byte;
    every field takes 8 bytes of it, of which a number uses the first ones, in little
    endian, and a text is a pointer to another block.  Those blocks are a map from
    addresses to the bytes in front of their terminator.  An access outside of the
    structure, or through a pointer to no block, is [None]. *)

From S2P Require Import Prelude Util Base64 StrBuf Array.

(** ** Memory *)

Fixpoint le (n : nat) (v : Z) : bytes := match n with O => [] | S n' => v mod 256 :: le n' (v / 256) end.
Definition unle (b : bytes) : Z := foldr (λ x acc, x + 256 * acc) 0 b.

Definition mem_read (mem : bytes) (off n : Z) : option bytes :=
  if (0 <=? off) && (off + n <=? slen mem) then Some (take (Z.to_nat n) (drop (Z.to_nat off) mem)) else None.

Definition load_le (mem : bytes) (off n : Z) : option Z := unle <$> mem_read mem off n.
Definition store_le (mem : bytes) (off n v : Z) : option bytes := mem_write mem off (le (Z.to_nat n) v).

Definition s16 (z : Z) : Z := (z + 2 ^ 15) mod 2 ^ 16 - 2 ^ 15.

(** The C string at an offset; there is none if the block ends before a zero. *)
Definition load_cstr (mem : bytes) (off : Z) : option bytes :=
  t ← mem_read mem off (slen mem - off); if bool_decide (0 ∈ t) then Some (cstr t) else None.

Notation strs := (gmap Z bytes).

(** What [sdb_encode] is given for a pointer. *)
Definition deref (h : strs) (p : Z) : option (option bytes) := if p =? 0 then Some None else Some <$> (h !! p).

(** ** To text *)

Definition R_MAX (a b : Z) : Z := Z.max a b.

(** The step to the next field. *)
Definition field_size (c : Z) : Z := R_MAX 8 (if c =? chr "q" then 8 else if c =? chr "p" then 8 else 4).

(** [val], [None] for NULL. *)
Definition field_text (c : Z) (h : strs) (p : bytes) (len : Z) : option (option bytes) :=
  if c =? chr "b" then v ← load_le p len 1; Some (sdb_itoa v 10 (Some SDB_NUM_BUFSZ))
  else if c =? chr "h" then v ← load_le p len 2; Some (sdb_itoa (u64 (s16 v)) 10 (Some SDB_NUM_BUFSZ))
  else if c =? chr "d" then v ← load_le p len 4; Some (sdb_itoa (u64 (s32 v)) 10 (Some SDB_NUM_BUFSZ))
  else if c =? chr "q" then v ← load_le p len 8; Some (sdb_itoa v 10 (Some SDB_NUM_BUFSZ))
  else if c =? chr "z" then Some <$> load_cstr p len
  else if c =? chr "s" then v ← load_le p len 8; s ← deref h v; Some (sdb_encode s (-1))
  else if c =? chr "p" then v ← load_le p len 8; Some (sdb_itoa v 16 (Some SDB_NUM_BUFSZ))
  else Some None.

(** The separator and the text, unless that is empty. *)
Definition append_field (junk : Z) (sb : StrBuf) (val : option bytes) : option StrBuf :=
  match val with
  | Some ((_ :: _) as v) =>
      sb ← (if 0 <? sb_len sb then strbuf_append true junk sb (Some [SDB_RS]) false else Some sb);
      strbuf_append true junk sb (Some v) false
  | _ => Some sb
  end.

Fixpoint tostr_loop (junk : Z) (h : strs) (p : bytes) (fmt : bytes) (len : Z) (sb : StrBuf) : option StrBuf :=
  match fmt with
  | [] => Some sb
  | c :: fmt' =>
      val ← field_text c h p len;
      sb ← append_field junk sb val;
      tostr_loop junk h p fmt' (len + field_size c) sb
  end.

(** The block that is returned, [Some None] for NULL. *)
Definition sdb_fmt_tostr (junk : Z) (h : strs) (p : option bytes) (fmt : option bytes) : option (option bytes) :=
  match p, fmt with
  | Some p, Some fmt => sb ← tostr_loop junk h p fmt 0 strbuf_new; Some (strbuf_drain sb)
  | _, _ => Some None
  end.

(** ** From text *)

Section alloc.
(** The address that the allocator gives a new block. *)
Context (new_address : strs → Z).

Definition sdb_strdup (s : bytes) (h : strs) : Z * strs := let a := new_address h in (a, <[a := s]> h).

(** The assignment to a field. *)
Definition field_set (c : Z) (word : bytes) (stru : bytes) (idx : Z) (h : strs) : option (bytes * strs) :=
  let num n := m ← store_le stru idx n (sdb_atoi (Some word)); Some (m, h) in
  let text s := let '(a, h) := sdb_strdup s h in m ← store_le stru idx 8 a; Some (m, h) in
  if c =? chr "b" then num 1
  else if c =? chr "d" then num 4
  else if c =? chr "q" then num 8
  else if c =? chr "h" then num 2
  else if c =? chr "s" then text (default word (sdb_decode (Some word)))
  else if c =? chr "z" then text word
  else if c =? chr "p" then num 8
  else Some (stru, h).

(** The number of items, the structure and the blocks; [ptr] is the rest of the copy of the
    text. *)
Fixpoint tobin_loop (fmt : bytes) (ptr : bytes) (idx items : Z) (stru : bytes) (h : strs) : option (Z * bytes * strs) :=
  match fmt with
  | [] => Some (items, stru, h)
  | c :: fmt' =>
      let '(word, next) := sdb_anext ptr in
      if hd0 word =? 0 then Some (items, stru, h)
      else
        x ← field_set c word stru idx h;
        let idx := idx + field_size c in
        match next with
        | None => Some (items + 1, x.1, x.2)
        | Some ptr => tobin_loop fmt' ptr idx (items + 1) x.1 x.2
        end
  end.

Definition sdb_fmt_tobin (_str fmt : option bytes) (stru : bytes) (h : strs) : option (Z * bytes * strs) :=
  match _str, fmt with
  | Some ((_ :: _) as s), Some fmt => tobin_loop fmt s 0 0 stru h
  | _, _ => Some (0, stru, h)
  end.
End alloc.

(** ** Freeing and initialising *)

(** [None] also for a pointer that no block is at. *)
Definition free_str (p : Z) (h : strs) : option strs := if p =? 0 then Some h else match h !! p with Some _ => Some (delete p h) | None => None end.

Fixpoint free_loop (stru : bytes) (fmt : bytes) (len : Z) (h : strs) : option strs :=
  match fmt with
  | [] => Some h
  | c :: fmt' =>
      h ← (if (c =? chr "z") || (c =? chr "s") then p ← load_le stru len 8; free_str p h else Some h);
      free_loop stru fmt' (len + field_size c) h
  end.

Definition sdb_fmt_free (stru fmt : bytes) (h : strs) : option strs := free_loop stru fmt 0 h.

Definition init_size (c : Z) : Z :=
  if c =? chr "b" then 1 else if c =? chr "h" then 2 else if c =? chr "d" then 4 else if c =? chr "q" then 8
  else if c =? chr "z" then 8 else if c =? chr "s" then 8 else if c =? chr "p" then 8 else 0.

Definition sdb_fmt_init (p : option bytes) (fmt : bytes) : option (option bytes * Z) :=
  let len := foldl (λ len c, len + init_size c) 0 fmt in
  match p with
  | Some p => m ← mem_write p 0 (replicate (Z.to_nat len) 0); Some (Some m, len)
  | None => Some (None, len)
  end.

(** * Facts *)

(** ** Memory *)

Lemma le_length n v : length (le n v) = n.
Proof. revert v. induction n as [|n IH]; intros v; [done|]. cbn. by rewrite IH. Qed.

Lemma unle_le n v : unle (le n v) = v mod 256 ^ Z.of_nat n.
Proof.
  revert v. induction n as [|n IH]; intros v; [by rewrite Z.mod_1_r|]. cbn [le]. change (unle (?x :: ?l)) with (x + 256 * unle l). rewrite IH.
  rewrite Nat2Z.inj_succ, Z.pow_succ_r by lia. rewrite Z.rem_mul_r by lia. done.
Qed.

Lemma mem_write_split mem off b :
  0 <= off → off + slen b <= slen mem → ∃ x y z, mem = x ++ y ++ z ∧ slen x = off ∧ length y = length b ∧ mem_write mem off b = Some (x ++ b ++ z).
Proof.
  intros H0 H1. exists (take (Z.to_nat off) mem), (take (length b) (drop (Z.to_nat off) mem)), (drop (Z.to_nat off + length b) mem). unfold slen in *.
  split_and!; [by rewrite <- drop_drop, !take_drop|rewrite length_take; lia|rewrite length_take, length_drop; lia|].
  unfold mem_write, slen. rewrite (proj2 (Z.leb_le _ _)), (proj2 (Z.leb_le (off + _) _)) by lia. done.
Qed.

Lemma mem_read_mid x y z n : slen y = n → mem_read (x ++ y ++ z) (slen x) n = Some y.
Proof.
  intros <-. unfold mem_read, slen. rewrite !length_app. rewrite (proj2 (Z.leb_le _ _)), (proj2 (Z.leb_le (Z.of_nat (length x) + _) _)) by lia. cbn [andb].
  by rewrite !Nat2Z.id, drop_app_length, take_app_length.
Qed.

Lemma mem_read_front x y y' off n : 0 <= off → 0 <= n → off + n <= slen x → mem_read (x ++ y) off n = mem_read (x ++ y') off n.
Proof.
  intros H0 Hn H1. unfold mem_read, slen in *. rewrite !length_app. rewrite !(proj2 (Z.leb_le (off + n) _)) by lia. destruct (0 <=? off); [cbn|done]. f_equal.
  rewrite !drop_app_le, !take_app_le by (rewrite ?length_drop; lia). done.
Qed.

(** A number that is stored is loaded again, and what is in front of it stays. *)
Lemma store_load mem off n v :
  0 <= off → 0 <= n → off + n <= slen mem →
  ∃ mem', store_le mem off n v = Some mem' ∧ slen mem' = slen mem ∧ load_le mem' off n = Some (v mod 256 ^ n)
    ∧ ∀ o k, 0 <= o → 0 <= k → o + k <= off → load_le mem' o k = load_le mem o k.
Proof.
  intros H0 Hn H1. assert (slen (le (Z.to_nat n) v) = n) as Hl by (unfold slen; rewrite le_length; lia).
  destruct (mem_write_split mem off (le (Z.to_nat n) v)) as (x & y & z & -> & Hx & Hy & E); [done|by rewrite Hl|]. exists (x ++ le (Z.to_nat n) v ++ z). split_and!; [done| | |].
  - unfold slen. rewrite !length_app. lia.
  - unfold load_le. rewrite <- Hx, mem_read_mid by done. cbn. by rewrite unle_le, Z2Nat.id.
  - intros o k Ho Hk0 Hk. unfold load_le. by rewrite (mem_read_front x _ (y ++ z)) by lia.
Qed.

(** ** Words *)

Lemma digit_small_noRS d : 0 <= d < 10 → digit_small d ≠ SDB_RS.
Proof. unfold digit_small, SDB_RS. lia. Qed.

Lemma byte_at_noRS (t : bytes) i : SDB_RS ∉ t → byte_at t i ≠ SDB_RS.
Proof. intros Ht. unfold byte_at. destruct (t !! i) as [x|] eqn:E; [|done]. intros Hx. apply Ht. rewrite <- Hx. by eapply list_elem_of_lookup_2. Qed.

Lemma digit_hex_noRS d : digit_hex d ≠ SDB_RS.
Proof. apply byte_at_noRS. apply (bool_decide_unpack _). vm_compute. done. Qed.

Lemma enc_noRS x : enc x ≠ SDB_RS.
Proof. apply byte_at_noRS. apply (bool_decide_unpack _). vm_compute. done. Qed.

Lemma digits_noRS digit base ds : (∀ d, 0 <= d < base → digit d ≠ SDB_RS) → Forall (λ d, 0 <= d < base) ds → SDB_RS ∉ digit <$> ds.
Proof. intros Hd Hf (d & E & Hin)%list_elem_of_fmap. rewrite Forall_forall in Hf. by eapply Hd; [apply Hf|]. Qed.

Lemma itoa_noRS n base s : is_u64 n → base = 10 ∨ base = 16 → sdb_itoa n base (Some SDB_NUM_BUFSZ) = Some s → SDB_RS ∉ s.
Proof.
  intros [Hn Hn'] Hb. destruct (decide (n = 0)) as [->|Hn0]; [destruct Hb as [->| ->]; intros [= <-]; apply (bool_decide_unpack _); by vm_compute|].
  destruct Hb as [->| ->].
  - destruct (itoa_loop_both digit_small 10 n) as (t & i & d & ds & El & -> & Hd & Hds & _); [done|apply digit_small_val|split; [lia|by eapply Z.lt_trans]|].
    rewrite sdb_itoa_dec, El by lia. intros [= <-]. change (SDB_RS ∉ digit_small <$> d :: ds). eapply digits_noRS; [apply digit_small_noRS|]. constructor; [lia|done].
  - destruct (itoa_loop_both digit_hex 16 n) as (t & i & d & ds & El & -> & Hd & Hds & Hi & _); [done|apply digit_hex_cases|split; [lia|by eapply Z.lt_trans]|].
    rewrite (sdb_itoa_hex n _ i) by (done || lia). intros [= <-]. rewrite !not_elem_of_cons. split_and!; [done|done|apply not_eq_sym, digit_hex_noRS|].
    eapply digits_noRS; [intros; apply digit_hex_noRS|done].
Qed.

Lemma encode_noRS fuel l len : SDB_RS ∉ encode_raw_loop fuel l len.
Proof.
  revert l len. induction fuel as [|fuel IH]; intros l len; [apply not_elem_of_nil|]. cbn [encode_raw_loop]. destruct (0 <? len); [|apply not_elem_of_nil].
  rewrite not_elem_of_app. split; [|apply IH]. unfold sdb_b64_encode. destruct (_ <? 1); [apply not_elem_of_nil|].
  rewrite !not_elem_of_cons. split_and!; [apply not_eq_sym, enc_noRS|apply not_eq_sym, enc_noRS| | |apply not_elem_of_nil];
    (destruct (_ <? _); [apply not_eq_sym, enc_noRS|done]).
Qed.

(** ** Fields *)

Inductive field := Fb (n : Z) | Fh (n : Z) | Fd (n : Z) | Fq (n : Z) | Fp (n : Z) | Fs (s : bytes).

Definition fchar (f : field) : Z :=
  match f with Fb _ => chr "b" | Fh _ => chr "h" | Fd _ => chr "d" | Fq _ => chr "q" | Fp _ => chr "p" | Fs _ => chr "s" end.

(** Width in bytes, value and base of a number. *)
Definition fnum (f : field) : option (Z * Z * Z) :=
  match f with Fb n => Some (1, n, 10) | Fh n => Some (2, n, 10) | Fd n => Some (4, n, 10) | Fq n => Some (8, n, 10) | Fp n => Some (8, n, 16) | Fs _ => None end.

Definition fword (f : field) : bytes :=
  match f with Fs s => default [] (sdb_encode (Some s) (-1)) | _ => match fnum f with Some (_, n, b) => default [] (sdb_itoa n b (Some SDB_NUM_BUFSZ)) | None => [] end end.

(** The values that a field of the structure holds without change. *)
Definition field_ok (f : field) : Prop :=
  match f with
  | Fb n => 0 <= n < 2 ^ 8 | Fh n => 0 <= n < 2 ^ 15 | Fd n => 0 <= n < 2 ^ 31 | Fq n | Fp n => 0 <= n < 2 ^ 64
  | Fs s => is_cstr s ∧ s ≠ [] ∧ slen s < 2 ^ 29
  end.

Lemma fnum_word f w n b :
  field_ok f → fnum f = Some (w, n, b) → 0 <= w <= 8 ∧ n mod 256 ^ w = n ∧ sdb_itoa n b (Some SDB_NUM_BUFSZ) = Some (fword f) ∧ sdb_atoi (Some (fword f)) = n
    ∧ is_cstr (fword f) ∧ fword f ≠ [] ∧ SDB_RS ∉ fword f.
Proof.
  intros Hok Hf. assert (is_u64 n ∧ (b = 10 ∨ b = 16) ∧ 0 <= w <= 8 ∧ n mod 256 ^ w = n ∧ fword f = default [] (sdb_itoa n b (Some SDB_NUM_BUFSZ))) as (Hn & Hb & Hw & Hm & Ew).
  { unfold is_u64. destruct f; cbn in *; try discriminate; injection Hf as <- <- <-; (split_and!; [lia|lia|tauto|lia|lia| |done]); apply Z.mod_small; lia. }
  destruct (atoi_itoa n b Hn ltac:(tauto)) as (t & Et & Ha & Hc & Hne). rewrite Et in Ew. cbn in Ew. change (Datatypes.id t) with t in Ew. subst t.
  split_and!; [lia|lia|done|done|done|done|done|]. by eapply itoa_noRS.
Qed.

Lemma ftext_word s :
  field_ok (Fs s) → sdb_encode (Some s) (-1) = Some (fword (Fs s)) ∧ sdb_decode (Some (fword (Fs s))) = Some s ∧ hd0 (fword (Fs s)) ≠ 0 ∧ fword (Fs s) ≠ [] ∧ SDB_RS ∉ fword (Fs s).
Proof.
  intros (Hc & Hne & Hl). assert (is_bytes s) as Hb by (eapply Forall_impl; [exact Hc|]; unfold is_char, is_u8; lia).
  destruct (base64_lossless s Hb Hne Hl) as (t & Et & Hlen & Hd). assert (sdb_encode (Some s) (-1) = Some t) as Et'.
  { rewrite <- Et. unfold sdb_encode. cbn [Z.ltb]. change (-1 <? 0) with true. cbv iota. rewrite cstr_id by done. rewrite (proj2 (Z.ltb_ge (slen s) 0)); [done|unfold slen; lia]. }
  cbn [fword]. rewrite Et'. change (default [] (Some t)) with t. split_and!; [done|done| | |].
  - unfold sdb_encode in Et. destruct s as [|a s]; [done|]. rewrite (proj2 (Z.ltb_ge _ _)) in Et by (unfold slen; lia). rewrite (proj2 (Z.eqb_neq _ _)) in Et by (unfold slen; cbn; lia).
    injection Et as <-. unfold sdb_encode_raw. cbn [encode_raw_loop]. rewrite (proj2 (Z.ltb_lt _ _)) by (unfold slen; cbn; lia). unfold sdb_b64_encode.
    rewrite (proj2 (Z.ltb_ge _ 1)) by (destruct (3 <? slen (a :: s)); unfold slen; cbn; lia). cbn [app hd0 hd byte_at lookup list_lookup default from_option].
    apply Forall_cons in Hb as [Ha _]. destruct (dec_enc (Z.shiftr a 2)) as (e & _ & _ & _ & Hch); [|unfold is_char in Hch; change (Datatypes.id a) with a; lia].
    rewrite Z.shiftr_div_pow2 by lia. unfold is_u8 in Ha. split; [apply Z.div_pos; lia|apply Z.div_lt_upper_bound; lia].
  - intros ->. destruct s as [|a s]; [done|]. unfold slen in Hlen at 1. cbn [length] in Hlen. pose proof (Z.div_le_lower_bound (slen (a :: s) + 2) 3 1 ltac:(lia)).
    unfold slen in *. cbn [length] in *. lia.
  - unfold sdb_encode in Et. rewrite (proj2 (Z.ltb_ge _ _)) in Et by (unfold slen; lia). destruct (slen s =? 0); injection Et as <-; [apply not_elem_of_nil|apply encode_noRS].
Qed.

Lemma fword_noRS f : field_ok f → SDB_RS ∉ fword f ∧ fword f ≠ [] ∧ hd0 (fword f) ≠ 0.
Proof.
  intros Hok. destruct (fnum f) as [[[w n] b]|] eqn:E.
  - destruct (fnum_word f w n b Hok E) as (_ & _ & _ & _ & Hc & Hne & Hrs). split_and!; [done|done|]. destruct (fword f) as [|c t]; [done|]. apply Forall_cons in Hc as [Hc _]. unfold is_char in Hc. cbn. lia.
  - destruct f; try discriminate. destruct (ftext_word s Hok) as (_ & _ & ? & ? & ?). done.
Qed.

Lemma field_size_8 c : field_size c = 8.
Proof. unfold field_size, R_MAX. by destruct (c =? chr "q"), (c =? chr "p"). Qed.

(** The fields from an offset of the structure on; [ps] are the texts they point to. *)
Fixpoint hold (off : Z) (fs : list field) (mem : bytes) (ps : list (Z * bytes)) : Prop :=
  match fs with
  | [] => ps = []
  | f :: fs' =>
      match fnum f, f with
      | Some (w, n, _), _ => load_le mem off w = Some n ∧ hold (off + 8) fs' mem ps
      | None, Fs s => ∃ a ps', ps = (a, s) :: ps' ∧ load_le mem off 8 = Some a ∧ hold (off + 8) fs' mem ps'
      | None, _ => False
      end
  end.

Lemma anext_join w ws : SDB_RS ∉ w → sdb_anext (join (w :: ws)) = (w, match ws with [] => None | _ => Some (join ws) end).
Proof.
  intros Hw. unfold sdb_anext. destruct ws as [|w' ws].
  - cbn [join]. by rewrite (proj2 (strchr_None w SDB_RS) Hw).
  - rewrite join_cons by done. rewrite strchr_app by done. cbn [tail]. f_equal. rewrite length_app, Nat.add_sub. apply take_app_length.
Qed.

Section users.
(** As long as there are no more than [N] blocks, a new one is at an address of its own. *)
Context (new_address : strs → Z) (N : nat) (new_fresh : ∀ h, (size h <= N)%nat → h !! new_address h = None ∧ 0 < new_address h < 2 ^ 64).

(** One field is set, in its 8 bytes. *)
Lemma field_set_ok f mem off h :
  field_ok f → 0 <= off → off + 8 <= slen mem → (size h <= N)%nat →
  ∃ mem' q, field_set new_address (fchar f) (fword f) mem off h = Some (mem', list_to_map q ∪ h) ∧ slen mem' = slen mem
    ∧ (∀ o k, 0 <= o → 0 <= k → o + k <= off → load_le mem' o k = load_le mem o k)
    ∧ match fnum f, f with
      | Some (w, n, _), _ => 0 <= w <= 8 ∧ load_le mem' off w = Some n ∧ q = []
      | None, Fs s => load_le mem' off 8 = Some (new_address h) ∧ q = [(new_address h, s)]
      | None, _ => False
      end.
Proof.
  intros Hok H0 H1 HN. destruct (fnum f) as [[[w n] b]|] eqn:E.
  - destruct (fnum_word f w n b Hok E) as (Hw & Hm & _ & Ha & _). destruct (store_load mem off w n H0) as (mem' & Es & Hl & Hv & Hk); [lia|lia|]. exists mem', [].
    assert (field_set new_address (fchar f) (fword f) mem off h = (m ← store_le mem off w (sdb_atoi (Some (fword f))); Some (m, h))) as ->.
    { destruct f; cbn in E; try discriminate; injection E as <- <- <-; done. }
    rewrite Ha, Es. cbn. rewrite Hm in Hv. rewrite (left_id_L ∅ (∪)). done.
  - destruct f; try discriminate. destruct (ftext_word s Hok) as (_ & Hd & _). destruct (new_fresh h HN) as [Hf Hr].
    destruct (store_load mem off 8 (new_address h) H0) as (mem' & Es & Hl & Hv & Hk); [lia|lia|]. exists mem', [(new_address h, s)].
    cbn [fchar]. unfold field_set. change (chr "s" =? chr "b") with false. change (chr "s" =? chr "d") with false. change (chr "s" =? chr "q") with false. change (chr "s" =? chr "h") with false.
    rewrite Z.eqb_refl. cbv iota beta zeta. rewrite Hd. change (default _ (Some s)) with s. cbn [sdb_strdup]. rewrite Es. cbn.
    rewrite Z.mod_small in Hv by lia. split_and!; [|done|done|done|done]. do 2 f_equal. by rewrite <- insert_union_l, (left_id_L ∅ (∪)).
Qed.

Lemma tobin_ok fs mem off h items :
  Forall field_ok fs → fs ≠ [] → 0 <= off → off + 8 * Z.of_nat (length fs) <= slen mem → (size h + length fs <= N)%nat →
  ∃ mem' ps, tobin_loop new_address (fchar <$> fs) (join (fword <$> fs)) off items mem h = Some (items + Z.of_nat (length fs), mem', list_to_map ps ∪ h)
    ∧ slen mem' = slen mem ∧ (∀ o k, 0 <= o → 0 <= k → o + k <= off → load_le mem' o k = load_le mem o k)
    ∧ hold off fs mem' ps ∧ NoDup ps.*1 ∧ Forall (λ a, 0 < a ∧ h !! a = None) ps.*1.
Proof.
  revert mem off h items. induction fs as [|f fs IH]; intros mem off h items Hok Hne H0 Hl HN; [done|]. apply Forall_cons in Hok as [Hf Hok]. cbn [length] in Hl, HN.
  destruct (fword_noRS f Hf) as (Hrs & Hw & Hhd). cbn [fmap list_fmap tobin_loop]. rewrite anext_join by done. rewrite (proj2 (Z.eqb_neq _ _)) by done. rewrite field_size_8.
  destruct (field_set_ok f mem off h Hf H0 ltac:(lia) ltac:(lia)) as (m1 & q & E1 & Hl1 & Hk1 & Hv). rewrite E1. cbn [mbind option_bind fst snd].
  assert (NoDup q.*1 ∧ Forall (λ a, 0 < a ∧ h !! a = None) q.*1 ∧ (size (list_to_map q ∪ h : strs) <= S (size h))%nat) as (Hq1 & Hq2 & Hsz).
  { destruct (fnum f) as [[[w n] b]|]; [destruct Hv as (_ & _ & ->); split_and!; [constructor|constructor|cbn; rewrite (left_id_L ∅ (∪)); lia]|].
    destruct f; try done. destruct Hv as (_ & ->). destruct (new_fresh h ltac:(lia)). split_and!; [apply NoDup_singleton|apply Forall_singleton; split; [cbn; lia|done]|].
    rewrite list_to_map_cons, list_to_map_nil, <- insert_union_l, (left_id_L ∅ (∪)), map_size_insert_None by done. done. }
  destruct fs as [|f' fs].
  - exists m1, q. split_and!; [f_equal; f_equal; f_equal; cbn; lia|done|done| |done|done]. cbn [hold].
    destruct (fnum f) as [[[w n] b]|]; [by destruct Hv as (_ & ? & ->)|]. destruct f; try done. destruct Hv as (? & ->). by eexists _, [].
  - destruct (IH m1 (off + 8) (list_to_map q ∪ h) (items + 1)) as (m2 & ps & E2 & Hl2 & Hk2 & Hh2 & Hn2 & Hf2); [done|done|lia|lia|lia|].
    exists m2, (q ++ ps). split_and!.
    + cbn [fmap list_fmap] in E2 |- *. rewrite E2. f_equal. f_equal; [f_equal; cbn [length]; lia|]. rewrite (assoc_L (∪)). f_equal. rewrite list_to_map_app. apply map_union_comm.
      apply map_disjoint_spec. intros a x y Ha%elem_of_list_to_map_2 Hb. apply (list_elem_of_fmap_2 fst) in Ha. rewrite Forall_forall in Hf2. destruct (Hf2 _ Ha) as [_ Hno].
      rewrite lookup_union_None in Hno. cbn in Hno. destruct Hno. congruence.
    + lia.
    + intros o k Ho Hk Hok'. rewrite Hk2 by lia. by apply Hk1.
    + change (hold off (f :: f' :: fs) m2 (q ++ ps)) with (match fnum f, f with
        | Some (w, n, _), _ => load_le m2 off w = Some n ∧ hold (off + 8) (f' :: fs) m2 (q ++ ps)
        | None, Fs s => ∃ a ps', q ++ ps = (a, s) :: ps' ∧ load_le m2 off 8 = Some a ∧ hold (off + 8) (f' :: fs) m2 ps' | None, _ => False end).
      destruct (fnum f) as [[[w n] b]|]; [destruct Hv as (? & ? & ->); split; [by rewrite Hk2 by lia|done]|]. destruct f; try done. destruct Hv as (? & ->).
      eexists _, ps. split_and!; [done|by rewrite Hk2 by lia|done].
    + rewrite fmap_app, NoDup_app. split_and!; [done| |done]. intros a Ha Hb. rewrite Forall_forall in Hf2. destruct (Hf2 _ Hb) as [_ Hno].
      apply lookup_union_None in Hno as [Hno _]. apply not_elem_of_list_to_map_2 in Hno. done.
    + rewrite fmap_app, Forall_app. split; [done|]. eapply Forall_impl; [exact Hf2|]. intros a [? Hno]. split; [done|]. by apply lookup_union_None in Hno as [_ ?].
Qed.
End users.

(** ** Back to text *)

(** A field that is in the structure is printed as its word. *)
Lemma field_text_num f w n b h mem off :
  field_ok f → fnum f = Some (w, n, b) → load_le mem off w = Some n → field_text (fchar f) h mem off = Some (Some (fword f)).
Proof.
  intros Hok Hf Hl. destruct (fnum_word f w n b Hok Hf) as (_ & _ & Hi & _).
  assert (field_text (fchar f) h mem off = (v ← load_le mem off w; Some (sdb_itoa (match f with Fh _ => u64 (s16 v) | Fd _ => u64 (s32 v) | _ => v end) b (Some SDB_NUM_BUFSZ)))) as ->.
  { destruct f; cbn in Hf; try discriminate; injection Hf as <- <- <-; done. }
  rewrite Hl. cbn [mbind option_bind]. rewrite <- Hi. f_equal. f_equal. destruct f; try done; cbn in Hf, Hok; injection Hf as <- <- <-.
  - unfold s16. rewrite (Z.mod_small (n0 + 2 ^ 15)) by lia. rewrite u64_small by (unfold is_u64; lia). lia.
  - unfold s32. rewrite (Z.mod_small (n0 + 2 ^ 31)) by lia. rewrite u64_small by (unfold is_u64; lia). lia.
Qed.

Lemma field_text_str s h mem off a :
  field_ok (Fs s) → load_le mem off 8 = Some a → a ≠ 0 → h !! a = Some s → field_text (chr "s") h mem off = Some (Some (fword (Fs s))).
Proof.
  intros Hok Hl Ha Hh. destruct (ftext_word s Hok) as (He & _). assert (field_text (chr "s") h mem off = (v ← load_le mem off 8; s ← deref h v; Some (sdb_encode s (-1)))) as -> by done.
  rewrite Hl. cbn [mbind option_bind]. unfold deref. rewrite (proj2 (Z.eqb_neq _ _)) by done. rewrite Hh. cbn [mbind option_bind fmap option_fmap option_map]. by rewrite He.
Qed.

(** The text that has been appended, with one more word. *)
Definition add_word (t w : bytes) : bytes := match t with [] => w | _ => t ++ SDB_RS :: w end.

Lemma append_field_ok junk sb t w : sb_text sb t → w ≠ [] → ∃ sb', append_field junk sb (Some w) = Some sb' ∧ sb_text sb' (add_word t w) ∧ is_Some (sb_buf sb').
Proof.
  intros Ht Hw. assert (sb_len sb = slen t) as Hlen. { unfold sb_text in Ht. destruct (sb_buf sb); [apply Ht|]. by destruct Ht as (-> & -> & _). }
  destruct w as [|c w]; [done|]. unfold append_field. rewrite Hlen. destruct t as [|x t].
  - cbn [slen length Z.of_nat Z.ltb Z.compare mbind option_bind]. destruct (strbuf_append_ok junk sb [] (c :: w) false Ht) as (sb1 & E1 & Ht1 & Hs1). exists sb1. rewrite app_nil_r in Ht1. done.
  - rewrite (proj2 (Z.ltb_lt _ _)) by (unfold slen; cbn; lia). destruct (strbuf_append_ok junk sb (x :: t) [SDB_RS] false Ht) as (sb1 & -> & Ht1 & _). cbn [mbind option_bind].
    destruct (strbuf_append_ok junk sb1 _ (c :: w) false Ht1) as (sb2 & E2 & Ht2 & Hs2). exists sb2. split_and!; [done| |done]. rewrite !app_nil_r in Ht2. cbn [add_word]. by rewrite <- app_assoc in Ht2.
Qed.

Lemma tostr_ok junk fs h mem off ps sb t :
  Forall field_ok fs → hold off fs mem ps → (∀ a s, (a, s) ∈ ps → a ≠ 0 ∧ h !! a = Some s) → sb_text sb t →
  ∃ sb', tostr_loop junk h mem (fchar <$> fs) off sb = Some sb' ∧ sb_text sb' (foldl add_word t (fword <$> fs)) ∧ (fs ≠ [] → is_Some (sb_buf sb')).
Proof.
  revert off ps sb t. induction fs as [|f fs IH]; intros off ps sb t Hok Hh Hps Ht; [by exists sb|]. apply Forall_cons in Hok as [Hf Hok]. cbn [fmap list_fmap tostr_loop foldl]. rewrite field_size_8.
  assert (∃ ps', field_text (fchar f) h mem off = Some (Some (fword f)) ∧ hold (off + 8) fs mem ps' ∧ ∀ a s, (a, s) ∈ ps' → a ≠ 0 ∧ h !! a = Some s) as (ps' & -> & Hh' & Hps').
  { cbn [hold] in Hh. destruct (fnum f) as [[[w n] b]|] eqn:E; [destruct Hh as [Hl Hh]; exists ps; split_and!; [by eapply field_text_num|done|done]|].
    destruct f; try done. destruct Hh as (a & ps' & -> & Hl & Hh). exists ps'. destruct (Hps a s ltac:(left)) as [Ha Hs]. split_and!; [by eapply field_text_str|done|]. intros; apply Hps. by right. }
  destruct (fword_noRS f Hf) as (_ & Hw & _). cbn [mbind option_bind]. destruct (append_field_ok junk sb t (fword f) Ht Hw) as (sb1 & -> & Ht1 & Hs1). cbn [mbind option_bind].
  destruct (IH (off + 8) ps' sb1 _ Hok Hh' Hps' Ht1) as (sb2 & -> & Ht2 & Hs2). exists sb2. split_and!; [done|done|]. intros _. destruct fs; [|by apply Hs2].
  cbn in Ht2. unfold sb_text in Ht2. destruct (sb_buf sb2) as [m|]; [done|]. destruct Ht2 as (Hn & _). unfold add_word in Hn. destruct t; [done|]. by apply app_nil in Hn as [? _].
Qed.

Lemma foldl_join ws : Forall (λ w, w ≠ []) ws → foldl add_word [] ws = join ws.
Proof.
  intros Hw. destruct ws as [|w ws]; [done|]. apply Forall_cons in Hw as [Hw Hws]. cbn [foldl add_word]. revert w Hw. induction ws as [|w' ws IH]; intros w Hw; [done|].
  apply Forall_cons in Hws as [Hw' Hws]. rewrite join_cons by done. cbn [foldl]. rewrite <- (IH Hws w' Hw').
  assert (∀ u v, u ≠ [] → v ≠ [] → foldl add_word (add_word u v) ws = u ++ SDB_RS :: foldl add_word v ws) as Hg; [|by apply Hg].
  clear. induction ws as [|x ws IH]; intros u v Hu Hv; cbn [foldl]; [by destruct u|].
  assert (add_word (add_word u v) x = add_word u (add_word v x)) as ->; [|by apply IH; destruct v].
  destruct u as [|a u], v as [|b v]; try done. cbn. by rewrite <- app_assoc.
Qed.

(** ** Freeing *)

Lemma fmt_free_ok fs h mem off ps :
  Forall field_ok fs → hold off fs mem ps → NoDup ps.*1 → Forall (λ a, 0 < a ∧ h !! a = None) ps.*1 → free_loop mem (fchar <$> fs) off (list_to_map ps ∪ h) = Some h.
Proof.
  revert off ps. induction fs as [|f fs IH]; intros off ps Hok Hh Hnd Hps; [cbn in Hh; subst ps; cbn; by rewrite (left_id_L ∅ (∪))|].
  apply Forall_cons in Hok as [Hf Hok]. cbn [fmap list_fmap free_loop hold] in *. rewrite field_size_8. destruct (fnum f) as [[[w n] b]|] eqn:E.
  - assert ((fchar f =? chr "z") || (fchar f =? chr "s") = false) as -> by (destruct f; done). cbn [mbind option_bind]. apply IH; [done|apply Hh|done|done].
  - destruct f; try done. destruct Hh as (a & ps' & -> & Hl & Hh). cbn [fchar]. change ((chr "s" =? chr "z") || (chr "s" =? chr "s")) with true. cbv iota. rewrite Hl. cbn [mbind option_bind].
    cbn [fmap list_fmap fst] in Hnd, Hps. apply NoDup_cons in Hnd as [Hna Hnd]. apply Forall_cons in Hps as [[Ha0 Ha] Hps]. unfold free_str. rewrite (proj2 (Z.eqb_neq _ _)) by lia.
    rewrite list_to_map_cons, <- insert_union_l, lookup_insert_eq, delete_insert_id; [by apply IH|]. rewrite lookup_union_None. split; [|done]. by apply not_elem_of_list_to_map_1.
Qed.

(** ** The text of sorted numbers *)

Lemma hold_numbers pre nums post : Forall is_u64 nums → hold (slen pre) (Fq <$> nums) (pre ++ mjoin (le 8 <$> nums) ++ post) [].
Proof.
  revert pre. induction nums as [|n nums IH]; intros pre Hn; [done|]. apply Forall_cons in Hn as [Hn Hns]. cbn [fmap list_fmap hold fnum]. split.
  - unfold load_le. change (mjoin (le 8 n :: ?x)) with (le 8 n ++ mjoin x). rewrite <- app_assoc, mem_read_mid by (unfold slen; by rewrite le_length). cbn [fmap option_fmap option_map]. rewrite unle_le.
    f_equal. apply Z.mod_small. exact Hn.
  - replace (slen pre + 8) with (slen (pre ++ le 8 n)) by (unfold slen; rewrite length_app, le_length; lia). change (mjoin (le 8 n :: ?x)) with (le 8 n ++ mjoin x).
    rewrite <- app_assoc. rewrite (app_assoc pre). by apply IH.
Qed.

(** [sdb_array_sort_num] prints its sorted numbers with a format of [q]s: the text that the
    model of arrays gives for it is what [sdb_fmt_tostr] gives. *)
Theorem sdb_fmt_numbers junk h nums :
  Forall is_u64 nums → nums ≠ [] →
  ∃ rest, sdb_fmt_tostr junk h (Some (mjoin (le 8 <$> nums))) (Some (replicate (length nums) (chr "q"))) = Some (Some (fmt_tostr_q nums ++ 0 :: rest)).
Proof.
  intros Hn Hne. assert (Forall field_ok (Fq <$> nums)) as Hok by (by apply Forall_fmap).
  pose proof (hold_numbers [] nums [] Hn) as Hh. rewrite app_nil_r in Hh. cbn [app] in Hh.
  destruct (tostr_ok junk (Fq <$> nums) h _ _ [] strbuf_new [] Hok Hh) as (sb & E & Ht & Hs); [intros a s Ha; by apply not_elem_of_nil in Ha|done|].
  assert (fchar <$> (Fq <$> nums) = replicate (length nums) (chr "q")) as Ef by (clear; induction nums as [|n nums IH]; [done|]; cbn; by f_equal).
  assert (foldl add_word [] (fword <$> (Fq <$> nums)) = fmt_tostr_q nums) as Eq.
  { unfold fmt_tostr_q. clear -Hn. match goal with |- foldl _ [] _ = foldl ?g [] nums => cut (∀ t, foldl add_word t (fword <$> (Fq <$> nums)) = foldl g t nums); [auto|] end.
    induction nums as [|n nums IH]; intros t; [done|]. apply Forall_cons in Hn as [Hn Hns]. cbn [foldl fmap list_fmap]. rewrite <- IH by done. f_equal.
    destruct (fnum_word (Fq n) 8 n 10 Hn eq_refl) as (_ & _ & -> & _ & _ & Hw & _). unfold add_word. by destruct (fword (Fq n)), t. }
  rewrite Eq in Ht. rewrite Ef in E. destruct (Hs ltac:(by destruct nums)) as [m Em]. unfold sb_text in Ht. rewrite Em in Ht. destruct Ht as ((rest & ->) & _). exists rest.
  unfold sdb_fmt_tostr. change (slen []) with 0 in E. rewrite E. cbn [mbind option_bind]. unfold strbuf_drain. by rewrite Em.
Qed.

(** * Properties *)

(** C31: Structures survive their text: a list of at least one word, numbers for the formats b
    (below 2^8), h (below 2^15), d (below 2^31), q and p (below 2^64; p in hexadecimal, the others
    in decimal) and texts in base64 for s (not empty, shorter than 2^29), is put into a structure of
    8 bytes per field, and nothing outside of it; printing the structure with the same format gives
    the same text, and freeing it releases exactly the texts that were allocated. Not so for the
    format z ([sdb_fmt_z_prints_pointer]) and for h and d with the sign bit
    ([sdb_fmt_sign_extends]). *)
Theorem sdb_fmt_roundtrip new_address junk fs mem (h : strs) :
  (∀ h', (size h' <= size h + length fs)%nat → h' !! new_address h' = None ∧ 0 < new_address h' < 2 ^ 64) →
  Forall field_ok fs → fs ≠ [] → 8 * Z.of_nat (length fs) <= slen mem →
  ∃ mem' h' rest, sdb_fmt_tobin new_address (Some (join (fword <$> fs))) (Some (fchar <$> fs)) mem h = Some (Z.of_nat (length fs), mem', h') ∧ slen mem' = slen mem
    ∧ sdb_fmt_tostr junk h' (Some mem') (Some (fchar <$> fs)) = Some (Some (join (fword <$> fs) ++ 0 :: rest))
    ∧ sdb_fmt_free mem' (fchar <$> fs) h' = Some h.
Proof.
  intros Hnew Hok Hne Hl. destruct (tobin_ok new_address _ Hnew fs mem 0 h 0 Hok Hne) as (mem' & ps & E & Hlen & _ & Hh & Hnd & Hps); [lia|lia|done|].
  assert (Forall (λ w, w ≠ []) (fword <$> fs)) as Hw by (apply Forall_fmap; eapply Forall_impl; [exact Hok|]; intros f Hf; by apply fword_noRS).
  destruct (tostr_ok junk fs (list_to_map ps ∪ h) mem' 0 ps strbuf_new [] Hok Hh) as (sb & E2 & Ht & Hs); [|done|].
  { intros a s Has. rewrite Forall_forall in Hps. destruct (Hps a) as [Ha _]; [by apply (list_elem_of_fmap_2 fst) in Has|]. split; [lia|]. apply lookup_union_Some_l. by apply elem_of_list_to_map_1. }
  rewrite foldl_join in Ht by done. destruct (Hs Hne) as [m Em]. unfold sb_text in Ht. rewrite Em in Ht. destruct Ht as ((rest & ->) & _).
  exists mem', (list_to_map ps ∪ h), rest. split_and!; [|done| |by apply fmt_free_ok].
  - destruct fs as [|f fs]; [done|]. unfold sdb_fmt_tobin. destruct (join (fword <$> f :: fs)) as [|c t] eqn:Ej; [|exact E]. exfalso.
    apply Forall_cons in Hw as [Hw _]. cbn [fmap list_fmap] in Ej. destruct (fword <$> fs) as [|w ws] eqn:Ew; cbn in Ej; [done|]. by apply app_nil in Ej as [? _].
  - unfold sdb_fmt_tostr. rewrite E2. cbn [mbind option_bind]. unfold strbuf_drain. by rewrite Em.
Qed.

(** Addresses 1, 2 and 3 are enough for three blocks. *)
Definition first_free (h : strs) : Z := if h !! 1 then if h !! 2 then 3 else 2 else 1.

Lemma first_free_ok (h : strs) : (size h <= 2)%nat → h !! first_free h = None ∧ 0 < first_free h < 2 ^ 64.
Proof.
  intros Hs. unfold first_free. destruct (h !! 1) as [x|] eqn:E1; [|by split]. destruct (h !! 2) as [y|] eqn:E2; [|by split]. split; [|done].
  destruct (h !! 3) as [z|] eqn:E3; [|done]. exfalso. assert ({[1; 2; 3]} ⊆ dom h) as Hsub.
  { intros a Ha. apply elem_of_dom. assert (a = 1 ∨ a = 2 ∨ a = 3) as [->|[->| ->]] by set_solver; eauto. }
  apply subseteq_size in Hsub. rewrite size_dom in Hsub. replace (size {[1; 2; 3]}) with 3%nat in Hsub by done. lia.
Qed.

Lemma sdb_fmt_roundtrip_witness :
  ∃ mem' h' rest, sdb_fmt_tobin first_free (Some (str "7,aGVsbG8=")) (Some (str "ds")) (replicate 16 255) ∅ = Some (2, mem', h') ∧ slen mem' = 16
    ∧ sdb_fmt_tostr 0 h' (Some mem') (Some (str "ds")) = Some (Some (str "7,aGVsbG8=" ++ 0 :: rest)) ∧ sdb_fmt_free mem' (str "ds") h' = Some ∅.
Proof. apply (sdb_fmt_roundtrip first_free 0 [Fd 7; Fs (str "hello")] (replicate 16 255) ∅); [exact first_free_ok|repeat constructor; done|done|done]. Defined.

(** ** What goes wrong *)

(** The size that [sdb_fmt_init] reports counts the fields without the gaps between them:
    a structure of that size is overrun. *)
Theorem sdb_fmt_init_too_small :
  sdb_fmt_init None (str "bd") = Some (None, 5) ∧ sdb_fmt_tobin first_free (Some (str "1,2")) (Some (str "bd")) (replicate 5 0) ∅ = None.
Proof. split; vm_compute; reflexivity. Qed.

(** It clears as many bytes, so that in a structure that is large enough the pointer of a
    text for which there was no word is not cleared, and freed. *)
Theorem sdb_fmt_free_uncleared :
  (x ← sdb_fmt_init (Some (replicate 16 255)) (str "bs");
   y ← sdb_fmt_tobin first_free (Some (str "1")) (Some (str "bs")) (default [] x.1) ∅;
   sdb_fmt_free y.1.2 (str "bs") y.2) = None.
Proof. vm_compute. reflexivity. Qed.

(** A [z] is stored as a pointer to a copy and printed as if the text were in the structure. *)
Theorem sdb_fmt_z_prints_pointer :
  (x ← sdb_fmt_tobin (λ _, 0x414243) (Some (str "text")) (Some (str "z")) (replicate 8 0) ∅; sdb_fmt_tostr 0 x.2 (Some x.1.2) (Some (str "z"))) ≫= (λ r, cstr <$> r) = Some (str "CBA").
Proof. vm_compute. reflexivity. Qed.

(** Numbers of 16 and 32 bits are printed with the sign extended to 64 bits. *)
Theorem sdb_fmt_sign_extends :
  (x ← sdb_fmt_tobin first_free (Some (str "65535")) (Some (str "h")) (replicate 8 0) ∅; sdb_fmt_tostr 0 x.2 (Some x.1.2) (Some (str "h"))) ≫= (λ r, cstr <$> r) = Some (str "18446744073709551615").
Proof. vm_compute. reflexivity. Qed.
