(* ===== verification/Match.v ===== *)
(** * Pattern matching: src/src/match.c

    A pattern is a C string with flags around it: a leading [%] (the text is
    base64), [^] and [$] anchors, a trailing [?i], and [*] for a glob.  Flags are
    stripped by moving the pointer and shortening [glob_len], so the string
    functions still see what follows the stripped part. *)

From S2P Require Import Prelude Base64.

Definition STAR : Z := 42.

Definition haveSuffix (glob : bytes) (glob_len : Z) (sfx : bytes) : bool :=
  (slen sfx <? glob_len) && (strcmp (drop (Z.to_nat (glob_len - slen sfx)) glob) sfx =? 0).

Definition havePrefix (glob : bytes) (glob_len : Z) (pfx : bytes) : bool :=
  (slen pfx <? glob_len) && strneq glob pfx (length pfx).

Definition SDB_LIKE_ICASE : Z := 1.
Definition SDB_LIKE_START : Z := 2.
Definition SDB_LIKE_END : Z := 4.
Definition SDB_LIKE_BASE64 : Z := 8.
Definition SDB_LIKE_GLOB : Z := 16.

Definition tolower (c : Z) : Z := if (65 <=? c) && (c <=? 90) then c + 32 else c.

Definition chareq (a b : Z) (icase : bool) : bool := if icase then tolower a =? tolower b else a =? b.

(** The loop: [a] and [b] are what is left of the text and the pattern, [star] the
    pattern after the last star seen with the text where its run ends. *)
Fixpoint strip_stars (b : bytes) : bytes :=
  match b with c :: b' => if c =? STAR then strip_stars b' else b | [] => [] end.

Fixpoint glob_loop (fuel : nat) (icase : bool) (a b : bytes) (star : option (bytes * bytes)) : bool :=
  match fuel with
  | O => false
  | S fuel' =>
      match a with
      | [] => match strip_stars b with [] => true | _ => false end
      | x :: a' =>
          let back := match star with
                      | Some (p, sa) => glob_loop fuel' icase (tail sa) p (Some (p, tail sa))
                      | None => false end in
          match b with
          | c :: b' =>
              if c =? STAR then glob_loop fuel' icase a b' (Some (b', a))
              else if chareq c x icase then glob_loop fuel' icase a' b' star
              else back
          | [] => back
          end
      end
  end.

(** Rounds that are enough for texts of these lengths. *)
Definition glob_fuel (alen blen : nat) : nat := S ((alen + 1) * (blen + 1) + blen).

Definition globmatch (a : bytes) (alen : Z) (b : bytes) (blen : Z) (icase : bool) : bool :=
  let a := take (Z.to_nat alen) a in
  let b := take (Z.to_nat blen) b in
  glob_loop (glob_fuel (length a) (length b)) icase a b None.

Fixpoint mycmp_loop (a b : bytes) (n : Z) (any : bool) (j : Z) : Z :=
  let fin := if any then (if negb (j =? n) then 1 else 0) else 1 in
  match a with
  | [] => fin
  | x :: a' =>
      if negb (x =? 0) && negb (byte_at b (Z.to_nat j) =? 0) && (j <? n) then
        if tolower x =? tolower (byte_at b (Z.to_nat j)) then mycmp_loop a' b n any (j + 1)
        else if negb any then 0 else mycmp_loop a' b n any 0
      else fin
  end.

Definition mycmp (a b : bytes) (n : Z) (any : bool) : Z := mycmp_loop a b n any 0.

Fixpoint strstr2_loop (a b : bytes) (n j : Z) : bool :=
  match a with
  | [] => j =? n
  | x :: a' =>
      if negb (x =? 0) && negb (byte_at b (Z.to_nat j) =? 0) && (j <? n) then
        strstr2_loop a' b n (if x =? byte_at b (Z.to_nat j) then j + 1 else 0)
      else j =? n
  end.

Definition strstr2 (a b : bytes) (n : Z) : bool := strstr2_loop a b n 0.

Definition has (flags f : Z) : bool := negb (Z.land flags f =? 0).

(** [a] is a C string; decoded data may hold zeros, where the string functions stop. *)
Definition compareString (a b : bytes) (blen flags : Z) : bool :=
  let start := has flags SDB_LIKE_START in
  let end_ := has flags SDB_LIKE_END in
  if blen <? 0 then false
  else
    match (if has flags SDB_LIKE_BASE64 then sdb_decode (Some a) else Some a) with
    | None => false
    | Some a =>
        let alen := slen a in
        let prefix_at (p : bytes) := strneq (cstr p) b (Z.to_nat blen) in
        if has flags SDB_LIKE_GLOB then globmatch a alen b blen (has flags SDB_LIKE_ICASE)
        else if blen <=? alen then
          let tail_ := drop (Z.to_nat (alen - blen)) a in
          if has flags SDB_LIKE_ICASE then
            if start && end_ then (alen =? blen) && (mycmp a b blen false =? 0)
            else if start then mycmp a b blen false =? 0
            else if end_ then mycmp tail_ b blen false =? 0
            else mycmp a b blen true =? 0
          else
            if start && end_ then (alen =? blen) && prefix_at a
            else if start then prefix_at a
            else if end_ then prefix_at tail_
            else strstr2 a b blen
        else false
    end.

(** Whether [memchr] finds a star. *)
Definition has_star (b : bytes) (len : Z) : bool := bool_decide (STAR ∈ take (Z.to_nat len) b).

Definition sdb_match (str_ glob : option bytes) : bool :=
  match str_, glob with
  | Some str_, Some glob =>
      let glob_len := slen glob in let flags := 0 in
      let '(glob_len, flags) := if haveSuffix glob glob_len (str "?i") then (glob_len - 2, Z.lor flags SDB_LIKE_ICASE) else (glob_len, flags) in
      let '(glob, glob_len, flags) := if havePrefix glob glob_len (str "%") then (tail glob, glob_len - 1, Z.lor flags SDB_LIKE_BASE64) else (glob, glob_len, flags) in
      let '(glob, glob_len, flags) := if havePrefix glob glob_len (str "^") then (tail glob, glob_len - 1, Z.lor flags SDB_LIKE_START) else (glob, glob_len, flags) in
      let '(glob_len, flags) := if haveSuffix glob glob_len (str "$") then (glob_len - 1, Z.lor flags SDB_LIKE_END) else (glob_len, flags) in
      let '(glob_len, flags) :=
        if has_star glob glob_len then
          let flags := Z.lor flags SDB_LIKE_GLOB in
          (if negb (has flags SDB_LIKE_END) && (0 <? glob_len) && (byte_at glob (Z.to_nat (glob_len - 1)) =? chr "$") then glob_len - 1 else glob_len, flags)
        else (glob_len, flags) in
      compareString str_ glob glob_len flags
  | _, _ => false
  end.

(** * Facts *)

(** ** What a glob means *)

Inductive glob_matches (icase : bool) : bytes → bytes → Prop :=
| G_nil : glob_matches icase [] []
| G_star p s1 s2 : glob_matches icase p s2 → glob_matches icase (STAR :: p) (s1 ++ s2)
| G_char c d p s : c ≠ STAR → chareq c d icase = true → glob_matches icase p s → glob_matches icase (c :: p) (d :: s).

Section glob.
Context (icase : bool).
Abbreviation matches := (glob_matches icase).

(** A later part of the text. *)
Definition later (s' s : bytes) : Prop := ∃ u, u ≠ [] ∧ s = u ++ s'.

Lemma matches_nil b : matches b [] ↔ strip_stars b = [].
Proof.
  split.
  - intros H. remember [] as s eqn:Es. induction H as [|p s1 s2 H IH|]; [done| |done]. cbn.
    apply app_eq_nil in Es as [-> ->]. by apply IH.
  - induction b as [|c b IH]; [constructor|]. cbn. destruct (c =? STAR) eqn:E; [|done]. zbool. subst.
    intros H. apply (G_star icase b [] []). by apply IH.
Qed.

Lemma matches_star b a : matches (STAR :: b) a ↔ matches b a ∨ ∃ s', later s' a ∧ matches b s'.
Proof.
  split.
  - intros H. inversion H as [|p s1 s2 Hm| c d p s Hne]; subst; [|done].
    destruct s1 as [|x s1]; [by left|]. right. exists s2. split; [by exists (x :: s1)|done].
  - intros [H|(s' & (u & _ & ->) & H)]; [by apply (G_star icase b [] a)|by apply G_star].
Qed.

Lemma matches_char c b x a : c ≠ STAR → matches (c :: b) (x :: a) ↔ chareq c x icase = true ∧ matches b a.
Proof.
  intros Hc. split; [|intros [? ?]; by constructor]. intros H. inversion H; subst; [done|done].
Qed.

Lemma matches_char_nil c b : c ≠ STAR → ¬ matches (c :: b) [].
Proof. intros Hc H. inversion H; subst; done. Qed.

Lemma matches_nil_cons x a : ¬ matches [] (x :: a).
Proof. intros H. inversion H. Qed.

(** A literal part takes one character each. *)
Lemma matches_literal q b s :
  STAR ∉ q → matches (q ++ b) s → ∃ u w, s = u ++ w ∧ length u = length q ∧ matches b w.
Proof.
  revert s. induction q as [|c q IH]; intros s Hq H; [by exists [], s|]. cbn in H.
  assert (c ≠ STAR) as Hc by set_solver. destruct s as [|x s]; [by apply matches_char_nil in H|].
  apply matches_char in H as [_ H]; [|done]. destruct (IH s) as (u & w & -> & Hl & Hw); [set_solver|done|].
  exists (x :: u), w. cbn. split_and!; [done|lia|done].
Qed.

(** The state of the search. *)
Definition glob_inv (a b : bytes) (star : option (bytes * bytes)) : Prop :=
  match star with
  | None => True
  | Some (p, sa) => ∃ q u, p = q ++ b ∧ sa = u ++ a ∧ length q = length u ∧ STAR ∉ q
  end.

(** What it still has to decide. *)
Definition glob_goal (a b : bytes) (star : option (bytes * bytes)) : Prop :=
  matches b a ∨ match star with Some (p, sa) => ∃ s', later s' sa ∧ matches p s' | None => False end.

(** When the search reaches a star or the end of the text, the earlier star is settled. *)
Lemma earlier_star a b p sa :
  glob_inv a b (Some (p, sa)) → (∃ s', later s' sa ∧ matches p s') → ∃ w, later w a ∧ matches b w.
Proof.
  intros (q & u & -> & -> & Hl & Hq) (s' & (t & Ht & Es) & Hm).
  destruct (matches_literal q b s' Hq Hm) as (u' & w & -> & Hl' & Hw). exists w. split; [|done].
  assert (length (t ++ u') > length u)%nat as Hlt by (rewrite length_app; destruct t; [done|cbn; lia]).
  rewrite app_assoc in Es. exists (drop (length u) (t ++ u')). split.
  - intros E%(f_equal length). rewrite length_drop in E. cbn [length] in E. lia.
  - rewrite <- (take_drop (length u) (t ++ u')), <- app_assoc in Es. by apply app_inj_1 in Es as [_ ->]; [|rewrite length_take; lia].
Qed.

Lemma glob_loop_spec B fuel a b star :
  glob_inv a b star → (length b <= B)%nat → (match star with Some (p, _) => length p <= B | None => True end)%nat →
  (match star with Some (_, sa) => length sa * (B + 1) + length b | None => (length a + 1) * (B + 1) + length b end < fuel)%nat →
  glob_loop fuel icase a b star = true ↔ glob_goal a b star.
Proof.
  revert a b star. induction fuel as [|fuel IH]; intros a b star Hinv Hb Hp Hf; [lia|]. cbn [glob_loop]. unfold glob_goal.
  destruct a as [|x a].
  { rewrite matches_nil. destruct (strip_stars b) eqn:E; [by split; [left|]|]. split; [done|]. intros [?|H]; [done|].
    destruct star as [[p sa]|]; [|done]. destruct (earlier_star _ _ _ _ Hinv H) as (w & (u & Hu & Hw) & _).
    symmetry in Hw. by apply app_eq_nil in Hw as [-> _]. }
  assert (¬ glob_matches icase b (x :: a) →
    (match star with Some (p, sa) => glob_loop fuel icase (tail sa) p (Some (p, tail sa)) | None => false end) = true
    ↔ glob_matches icase b (x :: a) ∨ match star with Some (p, sa) => ∃ s', later s' sa ∧ glob_matches icase p s' | None => False end) as Hback.
  { intros Hno. destruct star as [[p sa]|]; [|by split; [|intros [?|?]]]. destruct Hinv as (q & u & -> & -> & Hl & Hq).
    assert (∃ y t, u ++ x :: a = y :: t) as (y & t & Et) by (destruct u; eauto). rewrite Et in *. cbn [tail].
    cbn [length] in Hf. rewrite IH; [|by exists [], []; cbn; split_and!; [..|set_solver]|done|done|lia]. unfold glob_goal. split.
    - intros [H|(s' & (u' & Hu' & ->) & H)]; right; [exists t; split; [by exists [y]|done]|].
      exists s'. split; [by exists (y :: u')|done].
    - intros [?|(s' & (u' & Hu' & Es) & H)]; [done|]. destruct u' as [|z u']; [done|]. injection Es as <- ->.
      destruct u' as [|z' u']; [by left|]. right. exists s'. split; [by exists (z' :: u')|done]. }
  destruct b as [|c b]; [apply Hback, matches_nil_cons|]. cbn [length] in *. destruct (c =? STAR) eqn:Ec; zbool.
  - subst c. rewrite IH; [|by exists [], []; cbn; split_and!; [..|set_solver]|lia|lia|].
    2:{ destruct star as [[p sa]|]; [|cbn [length] in *; lia]. destruct Hinv as (q & u & -> & -> & _). rewrite length_app in Hf. cbn [length] in *. nia. }
    unfold glob_goal. rewrite matches_star. split; [by left|]. intros [H|H]; [done|]. destruct star as [[p sa]|]; [|done].
    destruct (earlier_star _ _ _ _ Hinv H) as (w & (u & Hu & ->) & Hw). rewrite matches_star in Hw.
    destruct Hw as [Hw|(s' & (u' & Hu' & ->) & Hw)]; right; [exists w; split; [by exists u|done]|].
    exists s'. split; [|done]. exists (u ++ u'). split; [by destruct u|by rewrite app_assoc].
  - destruct (chareq c x icase) eqn:Ex; [|apply Hback; rewrite matches_char by done; intros [? _]; congruence].
    rewrite IH; [|..|lia|done|].
    + unfold glob_goal. rewrite matches_char by done. tauto.
    + destruct star as [[p sa]|]; [|done]. destruct Hinv as (q & u & -> & -> & Hl & Hq). exists (q ++ [c]), (u ++ [x]).
      rewrite <- !app_assoc, !length_app. cbn. split_and!; [done|done|lia|set_solver].
    + destruct star as [[p sa]|]; [lia|]. cbn [length] in *. lia.
Qed.
End glob.

Lemma globmatch_spec a b icase :
  globmatch a (slen a) b (slen b) icase = true ↔ glob_matches icase b a.
Proof.
  unfold globmatch. unfold slen. rewrite !Nat2Z.id, !firstn_all. rewrite (glob_loop_spec icase (length b)); [|done|done|done|unfold glob_fuel; lia].
  unfold glob_goal. tauto.
Qed.

(** ** Flags *)

Lemma haveSuffix_none g n c :
  (Z.to_nat n <= length g)%nat → (byte_at g (Z.to_nat n - 1) ≠ c ∨ (Z.to_nat n < length g)%nat) → haveSuffix g n [c] = false.
Proof.
  intros Hl Hc. unfold haveSuffix. apply andb_false_iff. change (slen [c]) with 1. destruct (Z.ltb_spec 1 n) as [Hn|]; [right|by left].
  apply Z.eqb_neq. rewrite strcmp_eq. intros E. destruct Hc as [Hc|Hc].
  - apply Hc. unfold byte_at. replace (Z.to_nat n - 1)%nat with (Z.to_nat (n - 1) + 0)%nat by lia. rewrite <- lookup_drop, E. done.
  - apply (f_equal length) in E. rewrite length_drop in E. cbn in E. lia.
Qed.

Lemma havePrefix_none g n c : hd0 g ≠ c → havePrefix g n [c] = false.
Proof.
  intros Hc. unfold havePrefix. apply andb_false_iff. right. cbn [length strneq]. destruct g as [|x g]; [done|].
  cbn in Hc. by rewrite (proj2 (Z.eqb_neq x c)).
Qed.

Lemma haveSuffix_icase g : g ≠ [] → haveSuffix (g ++ str "?i") (slen (g ++ str "?i")) (str "?i") = true.
Proof.
  intros Hg. unfold haveSuffix. change (slen (str "?i")) with 2. unfold slen. rewrite length_app. change (length (str "?i")) with 2%nat.
  assert (0 < length g)%nat by (destruct g; [done|cbn; lia]). rewrite (proj2 (Z.ltb_lt _ _)) by lia.
  rewrite drop_app_length' by lia. done.
Qed.

Lemma strstr2_sound a b n j u :
  0 <= j <= n → take (Z.to_nat j) b `suffix_of` u → strstr2_loop a b n j = true →
  ∃ u' w, u ++ a = u' ++ take (Z.to_nat n) b ++ w.
Proof.
  revert j u. induction a as [|x a IH]; intros j u Hj [v Hs]; cbn [strstr2_loop].
  { intros E. zbool. subst. exists v, []. by rewrite !app_nil_r. }
  destruct (negb (x =? 0) && negb (byte_at b (Z.to_nat j) =? 0) && (j <? n)) eqn:E.
  2:{ intros Ej. zbool. subst. exists v, (x :: a). by rewrite <- app_assoc. }
  apply andb_true_iff in E as [E El]. apply andb_true_iff in E as [_ Eb]. zbool. intros H.
  replace (u ++ x :: a) with ((u ++ [x]) ++ a) by (by rewrite <- app_assoc).
  destruct (x =? byte_at b (Z.to_nat j)) eqn:Ex; zbool.
  - apply (IH (j + 1)); [lia| |done]. exists v. subst u x. rewrite <- app_assoc. f_equal.
    replace (Z.to_nat (j + 1)) with (S (Z.to_nat j)) by lia. unfold byte_at in *.
    destruct (b !! Z.to_nat j) as [y|] eqn:Ey; [|done]. by rewrite (take_S_r _ _ _ Ey).
  - apply (IH 0); [lia| |done]. exists (u ++ [x]). cbn. by rewrite app_nil_r.
Qed.

Lemma mycmp_prefix a b n j :
  is_cstr a → 0 <= j <= n → (Z.to_nat n <= length b)%nat → is_cstr (take (Z.to_nat n) b) → (Z.to_nat (n - j) <= length a)%nat →
  mycmp_loop a b n false j = if bool_decide (tolower <$> take (Z.to_nat (n - j)) a = tolower <$> take (Z.to_nat (n - j)) (drop (Z.to_nat j) b)) then 1 else 0.
Proof.
  intros Ha. revert j. induction Ha as [|x a Hx Ha IH]; intros j Hj Hb Hcb Hl; cbn [mycmp_loop].
  { replace (n - j) with 0 by (cbn in Hl; lia). done. }
  destruct (Z.ltb_spec j n) as [Hlt|Hge].
  2:{ rewrite andb_false_r. replace (n - j) with 0 by lia. done. }
  destruct (lookup_lt_is_Some_2 b (Z.to_nat j)) as [y Hy]; [lia|].
  assert (byte_at b (Z.to_nat j) = y) as Ey by (unfold byte_at; by rewrite Hy).
  assert (is_char y) as Hyc.
  { assert (take (Z.to_nat n) b !! Z.to_nat j = Some y) as Ht by (rewrite lookup_take_lt; [done|lia]).
    unfold is_cstr in Hcb. rewrite Forall_lookup in Hcb. by apply (Hcb _ _ Ht). }
  rewrite Ey. rewrite (proj2 (Z.eqb_neq x 0)), (proj2 (Z.eqb_neq y 0)) by (unfold is_char in *; lia). cbn [negb andb].
  replace (Z.to_nat (n - j)) with (S (Z.to_nat (n - (j + 1)))) by lia.
  rewrite (drop_S b y _ Hy). replace (S (Z.to_nat j)) with (Z.to_nat (j + 1)) by lia. cbn [take fmap list_fmap].
  destruct (tolower x =? tolower y) eqn:E; zbool.
  - rewrite IH by (cbn in Hl; done || lia). rewrite E. case_bool_decide as H1; case_bool_decide as H2; try done; naive_solver congruence.
  - rewrite bool_decide_false by congruence. done.
Qed.

(** The one-character flags as lists. *)
Ltac flag_chars := change (str "%") with [chr "%"]; change (str "^") with [chr "^"]; change (str "$") with [chr "$"].

(** A pattern without flags at its ends. *)
Definition plain (g : bytes) : Prop :=
  hd0 g ≠ chr "%" ∧ hd0 g ≠ chr "^" ∧ byte_at g (length g - 1) ≠ chr "$" ∧ haveSuffix g (slen g) (str "?i") = false.

Lemma has_star_true g : STAR ∈ g → has_star g (slen g) = true.
Proof. intros H. unfold has_star, slen. rewrite Nat2Z.id, firstn_all. by apply bool_decide_true. Qed.

Lemma has_star_false g n : STAR ∉ g → has_star g n = false.
Proof.
  intros H. unfold has_star. apply bool_decide_false. intros (i & Hi)%list_elem_of_lookup.
  apply lookup_take_Some in Hi as [Hi _]. by apply H, (list_elem_of_lookup_2 _ i).
Qed.

(** * Properties *)

(** C9: the iterative glob matcher is correct.  A pattern with a star and no flags at its
    ends matches a text exactly when the text can be cut so that every star stands for
    some run of characters and every other character for itself; with [?i] appended,
    for itself up to case.  The search that forgets all but the last star decides it. *)
Theorem sdb_match_glob s g :
  STAR ∈ g → plain g →
  (sdb_match (Some s) (Some g) = true ↔ glob_matches false g s)
  ∧ (sdb_match (Some s) (Some (g ++ str "?i")) = true ↔ glob_matches true g s).
Proof.
  intros Hstar (Hp1 & Hp2 & Hl & Hi). assert (g ≠ []) as Hne by (intros ->; set_solver).
  assert (0 < length g)%nat as Hpos by (destruct g; [done|cbn; lia]). split.
  - unfold sdb_match. flag_chars. rewrite Hi. rewrite !havePrefix_none by done.
    rewrite haveSuffix_none by (unfold slen; rewrite Nat2Z.id; tauto || lia). rewrite has_star_true by done.
    change (has (Z.lor 0 SDB_LIKE_GLOB) SDB_LIKE_END) with false. cbn [negb andb].
    rewrite (proj2 (Z.eqb_neq (byte_at _ _) _)).
    2:{ unfold slen. replace (Z.to_nat (Z.of_nat (length g) - 1)) with (length g - 1)%nat by lia. done. }
    rewrite andb_false_r. unfold compareString. rewrite (proj2 (Z.ltb_ge _ _)) by (unfold slen; lia). cbn -[globmatch slen]. apply globmatch_spec.
  - unfold sdb_match. rewrite haveSuffix_icase by done. flag_chars.
    assert (hd0 (g ++ str "?i") = hd0 g) as Hhd by by destruct g.
    rewrite !havePrefix_none by by rewrite Hhd.
    replace (slen (g ++ str "?i") - 2) with (slen g) by (unfold slen; rewrite length_app; change (length (str "?i")) with 2%nat; lia).
    assert (length (g ++ str "?i") = length g + 2)%nat as Hlen by (rewrite length_app; done).
    rewrite haveSuffix_none by (unfold slen; rewrite Nat2Z.id, Hlen; first [lia|right; lia]).
    assert (has_star (g ++ str "?i") (slen g) = true) as ->.
    { unfold has_star, slen. rewrite Nat2Z.id, take_app_length. by apply bool_decide_true. }
    change (has (Z.lor (Z.lor 0 SDB_LIKE_ICASE) SDB_LIKE_GLOB) SDB_LIKE_END) with false. cbn [negb andb].
    rewrite (proj2 (Z.eqb_neq (byte_at _ _) _)).
    2:{ unfold slen, byte_at in *. replace (Z.to_nat (Z.of_nat (length g) - 1)) with (length g - 1)%nat by lia. by rewrite lookup_app_l by lia. }
    rewrite andb_false_r. unfold compareString. rewrite (proj2 (Z.ltb_ge _ _)) by (unfold slen; lia).
    set (fl := Z.lor (Z.lor 0 SDB_LIKE_ICASE) SDB_LIKE_GLOB). change (has fl SDB_LIKE_BASE64) with false.
    change (has fl SDB_LIKE_GLOB) with true. change (has fl SDB_LIKE_ICASE) with true. cbv iota zeta.
    rewrite <- globmatch_spec. unfold globmatch, slen. rewrite !Nat2Z.id, take_app_length, !firstn_all. done.
Qed.

Lemma sdb_match_glob_witness :
  (sdb_match (Some (str "xxaxb")) (Some (str "*a*b")) = true ↔ glob_matches false (str "*a*b") (str "xxaxb"))
  ∧ (sdb_match (Some (str "xxaxb")) (Some (str "*a*b" ++ str "?i")) = true ↔ glob_matches true (str "*a*b") (str "xxaxb")).
Proof. apply (sdb_match_glob (str "xxaxb") (str "*a*b")); [by apply (bool_decide_unpack _)|repeat split; vm_compute; congruence]. Defined.

(** Matching without anchors is sound: when a pattern without stars and flags
    matches, it occurs in the text. *)
Theorem sdb_match_substring_sound s g :
  STAR ∉ g → plain g → sdb_match (Some s) (Some g) = true → ∃ u w, s = u ++ g ++ w.
Proof.
  intros Hstar (Hp1 & Hp2 & Hl & Hi). unfold sdb_match. flag_chars. rewrite Hi. rewrite !havePrefix_none by done.
  rewrite haveSuffix_none by (unfold slen; rewrite Nat2Z.id; tauto || lia). rewrite has_star_false by done.
  unfold compareString. rewrite (proj2 (Z.ltb_ge _ _)) by (unfold slen; lia).
  change (has 0 _) with false. cbv iota zeta. cbn [andb]. destruct (slen g <=? slen s); [|done]. unfold strstr2. intros H.
  destruct (strstr2_sound s g (slen g) 0 []) as (u & w & E); [unfold slen; lia|by exists []|done|].
  unfold slen in E. rewrite Nat2Z.id, firstn_all in E. by exists u, w.
Qed.

Lemma sdb_match_substring_sound_witness : ∃ u w, str "food" = u ++ str "oo" ++ w.
Proof.
  apply (sdb_match_substring_sound (str "food") (str "oo")); [by apply (bool_decide_unpack _)|repeat split; vm_compute; congruence|reflexivity].
Defined.

(** Matching without anchors is not complete: after a partial match the search
    restarts behind the character that broke it, so an occurrence that begins there
    is missed: "ab" occurs in "aab", but does not match it. *)
Theorem sdb_match_substring_misses :
  ∃ s g u w, s = u ++ g ++ w ∧ plain g ∧ STAR ∉ g ∧ sdb_match (Some s) (Some g) = false.
Proof.
  exists (str "aab"), (str "ab"), (str "a"), []. split_and!; [done|repeat split; vm_compute; congruence|by apply (bool_decide_unpack _)|done].
Qed.

(** The anchored case-insensitive match is inverted: [^p?i] matches exactly the
    texts, at least as long as [p], that do not start with [p] up to case, because the
    helper answers 0 for a mismatch and its caller negates the answer. *)
Theorem sdb_match_icase_prefix_inverted s p :
  is_cstr s → is_cstr p → p ≠ [] → STAR ∉ p → (length p <= length s)%nat →
  sdb_match (Some s) (Some (str "^" ++ p ++ str "?i"))
  = negb (bool_decide (tolower <$> take (length p) s = tolower <$> p)).
Proof.
  intros Hs Hp Hne Hstar Hl. unfold sdb_match. rewrite (app_assoc (str "^")). rewrite haveSuffix_icase by done.
  assert (0 < length p)%nat as Hpos by (destruct p; [done|cbn; lia]).
  change (str "%") with [chr "%"]. rewrite (havePrefix_none _ _ (chr "%")) by done.
  replace (slen ((str "^" ++ p) ++ str "?i") - 2) with (slen p + 1)
    by (unfold slen; rewrite !length_app; change (length (str "?i")) with 2%nat; change (length (str "^")) with 1%nat; lia).
  assert (havePrefix ((str "^" ++ p) ++ str "?i") (slen p + 1) (str "^") = true) as ->.
  { unfold havePrefix. change (slen (str "^")) with 1. rewrite (proj2 (Z.ltb_lt _ _)) by (unfold slen; lia). done. }
  change (str "$") with [chr "$"]. change (tail ((str "^" ++ p) ++ str "?i")) with (p ++ str "?i"). replace (slen p + 1 - 1) with (slen p) by lia.
  rewrite haveSuffix_none by (unfold slen; rewrite Nat2Z.id, length_app; change (length (str "?i")) with 2%nat; first [lia|right; lia]).
  rewrite has_star_false by (rewrite elem_of_app; intros [?|H]; [done|]; by apply (bool_decide_unpack (STAR ∉ str "?i")) in H).
  unfold compareString. rewrite (proj2 (Z.ltb_ge _ _)) by (unfold slen; lia).
  set (fl := Z.lor (Z.lor 0 SDB_LIKE_ICASE) SDB_LIKE_START). change (has fl SDB_LIKE_BASE64) with false.
  change (has fl SDB_LIKE_GLOB) with false. change (has fl SDB_LIKE_ICASE) with true. change (has fl SDB_LIKE_START) with true.
  change (has fl SDB_LIKE_END) with false. cbv iota zeta. cbn [andb].
  rewrite (proj2 (Z.leb_le _ _)) by (unfold slen; lia). unfold mycmp.
  rewrite mycmp_prefix; [|done|unfold slen; lia|unfold slen; rewrite Nat2Z.id, length_app; lia|unfold slen; by rewrite Nat2Z.id, take_app_length|unfold slen; lia].
  rewrite Z.sub_0_r. unfold slen. rewrite Nat2Z.id. change (drop (Z.to_nat 0) (p ++ str "?i")) with (p ++ str "?i"). rewrite take_app_length.
  by case_bool_decide.
Qed.

Lemma sdb_match_icase_prefix_inverted_witness :
  sdb_match (Some (str "food")) (Some (str "^" ++ str "FOO" ++ str "?i"))
  = negb (bool_decide (tolower <$> take (length (str "FOO")) (str "food") = tolower <$> str "FOO")).
Proof.
  apply (sdb_match_icase_prefix_inverted (str "food") (str "FOO")); [by repeat constructor..|done|by apply (bool_decide_unpack _)|cbn; lia].
Defined.
