(* ===== verification/SdbIter.v ===== *)
(** * Walking, merging and expiring: more of src/src/sdb.c

    The callbacks that go over a whole database (lists, filters, patterns, copies)
    on top of [sdb_foreach], and what iteration, merging and expiration do to the
    contents. *)

From S2P Require Import Prelude Util Ht HashTables Buffer CdbMake CdbTables Cdb SdbCore Base64 Match.

(** ** Callbacks *)

(** [filter] is the caller's function; [None] keeps everything. *)
Definition sdb_foreach_list_filter_cb (filter : option (bytes → bytes → bool)) (l : list (bytes * bytes)) (k : bytes) (v : option bytes)
    : M (bool * list (bytes * bytes)) :=
  let v := default [] v in
  if match filter with None => true | Some f => f k v end then mret (true, l ++ [(k, v)]) else mret (true, l).

(** The list before it is sorted. *)
Definition sdb_foreach_list_filter (filter : option (bytes → bytes → bool)) : M (list (bytes * bytes)) :=
  r ← sdb_foreach (sdb_foreach_list_filter_cb filter) []; mret r.2.

Definition unset_cb (now : Z) (pat : bytes) (count : Z) (k : bytes) (v : option bytes) : M (bool * Z) :=
  if sdb_match (Some k) (Some pat) then _ ← sdb_unset now (Some k) 0; mret (true, count + 1) else mret (true, count).

Definition sdb_unset_like (now : Z) (pat : bytes) : M Z := r ← sdb_foreach (unset_cb now pat) 0; mret r.2.

(** With an array: pairs of pointers to keys and values. *)
Definition like_cb (key val : option bytes) (l : list (bytes * bytes)) (k : bytes) (v : option bytes) : M (bool * list (bytes * bytes)) :=
  let v := default [] v in
  if match key with Some p => negb (sdb_match (Some k) (Some p)) | None => false end then mret (true, l)
  else if match val with Some p => negb (sdb_match (Some v) (Some p)) | None => false end then mret (true, l)
  else mret (true, l ++ [(k, v)]).

(** Without a callback an empty pattern matches everything; [None] when nothing matched. *)
Definition sdb_like (k v : option bytes) : M (option (list (bytes * bytes))) :=
  let key := match k with Some [] => None | _ => k end in
  let val := match v with Some [] => None | _ => v end in
  r ← sdb_foreach (like_cb key val) [];
  mret (match r.2 with [] => None | l => Some l end).

(** [sdb_dump_next]: the key cut to the size of the buffer, the value and its length. *)
Definition sdb_dump_next : M (option (bytes * option bytes * Z)) :=
  r ← sdb_dump_dupnext;
  mret (match r with None => None | Some (k, v, vl) => Some (take (Z.to_nat (SDB_KSZ - 1)) k, v, vl - 1) end).

(** ** Keys made from a format

    [fmt] is NULL or the text that the format stands for with its arguments. *)

Definition sdb_vfmtkey (fmt : option bytes) : option bytes := t ← fmt; if slen t <? SDB_MAX_KEY then Some t else None.

Definition sdb_const_vgetf (now : Z) (fmt : option bytes) : M (option bytes * Z) :=
  match sdb_vfmtkey fmt with Some key => sdb_const_get now (Some key) | None => mret (None, 0) end.
Definition sdb_const_getf (now : Z) (fmt : option bytes) : M (option bytes * Z) := sdb_const_vgetf now fmt.
Definition sdb_getf (now : Z) (fmt : option bytes) : M (option bytes * Z) :=
  r ← sdb_const_vgetf now fmt; mret (cstr <$> r.1, r.2).
Definition sdb_vsetf (now : Z) (val : option bytes) (cas : Z) (fmt : option bytes) : M bool :=
  match sdb_vfmtkey fmt with Some key => sdb_set now (Some key) val cas | None => mret false end.
Definition sdb_setf (now : Z) (val : option bytes) (cas : Z) (fmt : option bytes) : M bool := sdb_vsetf now val cas fmt.
Definition sdb_unsetf (now : Z) (cas : Z) (fmt : option bytes) : M bool := sdb_vsetf now (Some []) cas fmt.
Definition sdb_existsf (fmt : option bytes) : M bool :=
  match sdb_vfmtkey fmt with Some key => sdb_exists (Some key) | None => mret false end.

(** * Facts *)

(** ** Callbacks that only collect *)

Section pure_cb.
Context {U : Type} (cb : U → bytes → option bytes → M (bool * U)) (f : U → bytes → bytes → U).
Context (Hcb : ∀ u k v s, cb u k (Some v) s = ((true, f u k v), s)).

Definition visit_entry (u : U) (kv : SdbKv) : U :=
  match live kv with Some v => f u (key kv) v | None => u end.

Lemma foreach_bucket_pure fuel i j u s :
  (length (arr (bucket_at (ht s) i)) - j < fuel)%nat →
  foreach_bucket fuel cb i j u s = ((true, foldl visit_entry u (drop j (arr (bucket_at (ht s) i)))), s).
Proof.
  revert j u. induction fuel as [|fuel IH]; intros j u Hf; [lia|]. cbn [foreach_bucket]. run_m.
  destruct (arr (bucket_at (ht s) i) !! j) as [kv|] eqn:E.
  - rewrite (drop_S _ _ _ E). apply lookup_lt_Some in E. cbn [foldl].
    destruct (value kv) as [[|x v]|] eqn:Ev; rewrite ?Hcb; cbn [fst snd negb]; rewrite Z.eqb_refl; rewrite IH by lia.
    + by replace (visit_entry u kv) with u by (unfold visit_entry, live; by rewrite Ev).
    + by replace (visit_entry u kv) with (f u (key kv) (x :: v)) by (unfold visit_entry, live; by rewrite Ev).
    + by replace (visit_entry u kv) with u by (unfold visit_entry, live; by rewrite Ev).
  - apply lookup_ge_None in E. by rewrite drop_ge.
Qed.

Lemma foreach_table_pure fuel i u s :
  size (ht s) = Z.of_nat (length (table (ht s))) → 0 <= i → (length (table (ht s)) - Z.to_nat i < fuel)%nat →
  foreach_table fuel cb i u s = ((true, foldl visit_entry u (mjoin (arr <$> drop (Z.to_nat i) (table (ht s))))), s).
Proof.
  intros Hs. revert i u. induction fuel as [|fuel IH]; intros i u Hi Hf; [lia|]. cbn [foreach_table]. run_m.
  destruct (Z.ltb_spec i (size (ht s))) as [Hl|Hl].
  - rewrite foreach_bucket_pure by lia. cbn [fst snd negb drop]. rewrite IH by lia.
    destruct (lookup_lt_is_Some_2 (table (ht s)) (Z.to_nat i)) as [bt Hb]; [lia|].
    rewrite (drop_S _ _ _ Hb). cbn [fmap list_fmap mjoin list_join]. rewrite foldl_app.
    replace (Z.to_nat (i + 1)) with (S (Z.to_nat i)) by lia. unfold bucket_at. rewrite Hb. done.
  - rewrite drop_ge by lia. done.
Qed.

Lemma foreach_mem n s u :
  mem_inv n s →
  ∃ s', sdb_foreach cb u s = ((true, foldl visit_entry u (kvs (ht s))), s') ∧ same_core s s'.
Proof.
  intros Hi. unfold sdb_foreach; run_m. rewrite (mi_gp _ _ _ Hi). destruct (mi_disk _ _ _ Hi) as (Hfd & Hcf & Hmap).
  unfold sdb_foreach_cdb, sdb_dump_begin; run_m. cbn [foreach_cdb_loop]. unfold sdb_dump_dupnext; run_m.
  assert (∀ pos, cdb_getkvlen (db s) pos = (false, (0, 0))) as Hg by (intros pos; unfold cdb_getkvlen, cdb_read; by rewrite Hmap, Hcf).
  cbn [set_dump_pos set_depth db fd dump_pos]. rewrite Hg. cbn [negb fst snd].
  pose proof (mi_ht _ _ _ Hi) as [[[Hw _] _ _ _] _].
  pose proof (wf_len _ Hw) as Hlen. pose proof (wf_size _ Hw) as Hsz.
  set (s1 := set_dump_pos _ _). change (ht s) with (ht s1) in *. rewrite foreach_table_pure by lia.
  unfold sdb_foreach_end; run_m. eexists. split; [done|]. by split_and!.
Qed.
End pure_cb.

(** ** What is visited *)

Definition entry_pair (kv : SdbKv) : option (bytes * bytes) := pair (key kv) <$> live kv.

Lemma foldl_collect l acc :
  foldl (visit_entry (λ l k v, l ++ [(k, v)])) acc l = acc ++ omap entry_pair l.
Proof.
  revert acc. induction l as [|kv l IH]; intros acc; cbn [foldl omap list_omap]; [by rewrite app_nil_r|]. rewrite IH.
  unfold visit_entry, entry_pair. destruct (live kv) as [v|]; cbn; [by rewrite <- app_assoc|done].
Qed.

Lemma pairs_view n s : mem_inv n s → omap entry_pair (kvs (ht s)) ≡ₚ map_to_list (view s).
Proof.
  intros Hi. pose proof (mi_ht _ _ _ Hi) as [[[Hw _] _ _ _] _].
  pose proof (wf_nodup_kvs _ Hw) as Hnd. apply NoDup_Permutation; [|apply NoDup_map_to_list|].
  - clear -Hnd. induction (kvs (ht s)) as [|kv l IH]; cbn; [constructor|]. apply NoDup_cons in Hnd as [Hn Hnd].
    destruct (entry_pair kv) as [[k v]|] eqn:E; [|by apply IH]. apply NoDup_cons; split; [|by apply IH].
    rewrite list_elem_of_omap. intros (kv' & Hin & E'). apply Hn, list_elem_of_fmap. exists kv'. split; [|done].
    unfold entry_pair in *. destruct (live kv), (live kv'); simplify_eq/=; done.
  - intros [k v]. rewrite elem_of_map_to_list, view_lookup, list_elem_of_omap. split.
    + intros (kv & Hin & E). unfold entry_pair in E. destruct (live kv) as [w|] eqn:El; [|done]. simplify_eq/=.
      assert (to_map (ht s) !! key kv = Some kv) as -> by (apply to_map_lookup; done). done.
    + destruct (to_map (ht s) !! k) as [kv|] eqn:Em; [|done]. cbn. intros El. apply to_map_lookup in Em as [Hin <-]; [|done].
      exists kv. split; [done|]. unfold entry_pair. by rewrite El.
Qed.

Lemma view_core s s' : same_core s s' → view s' = view s.
Proof. intros (Hh & _). unfold view. by rewrite Hh. Qed.

Lemma foreach_pairs_mem n s :
  mem_inv n s → ∃ l s', sdb_foreach_pairs s = (l, s') ∧ l ≡ₚ map_to_list (view s) ∧ same_core s s'.
Proof.
  intros Hi. unfold sdb_foreach_pairs; run_m.
  destruct (foreach_mem sdb_foreach_list_cb (λ l k v, l ++ [(k, v)]) (λ _ _ _ _, eq_refl) n s [] Hi) as (s' & -> & Hc).
  cbn [fst snd]. eexists _, s'. split; [done|]. split; [|done]. rewrite foldl_collect. cbn [app]. by eapply pairs_view.
Qed.

(** ** Setting many pairs *)

Lemma set_pairs_mem now l n d :
  mem_inv (length l + n) d → Forall (λ kv, key_ok kv.1 ∧ val_ok kv.2) l →
  ∃ d', set_pairs now l d = (tt, d') ∧ mem_inv n d' ∧ view d' = foldl (λ m kv, put m kv.1 kv.2) (view d) l.
Proof.
  revert d. induction l as [|[k v] l IH]; intros d Hi Hl; cbn [set_pairs]; [by eexists|]. run_m.
  apply Forall_cons in Hl as [[Hk Hv] Hl]. cbn [fst snd] in *.
  pose proof (set_mem_view now (length l + n) d k v false Hi Hk Hv) as Hs. fold (sdb_set now (Some k) (Some v) 0) in Hs.
  destruct (sdb_set _ _ _ _ d) as [r d1]. destruct Hs as (Hi1 & _ & Hv1).
  destruct (IH d1 Hi1 Hl) as (d' & -> & Hi' & Hv'). exists d'. split_and!; [done|done|]. rewrite Hv'. cbn [foldl]. by rewrite Hv1.
Qed.

Lemma foldl_put_union l m :
  NoDup l.*1 → Forall (λ kv, kv.2 ≠ []) l → foldl (λ m kv, put m kv.1 kv.2) m l = list_to_map l ∪ m.
Proof.
  revert m. induction l as [|[k v] l IH]; intros m Hnd Hne; cbn [foldl]; [by rewrite list_to_map_nil, (left_id_L ∅ (∪))|].
  cbn in Hnd. apply NoDup_cons in Hnd as [Hk Hnd]. apply Forall_cons in Hne as [Hv Hne]. cbn in Hv. rewrite IH by done.
  cbn [fst snd]. assert (put m k v = <[k := v]> m) as -> by (by destruct v). rewrite list_to_map_cons.
  rewrite <- insert_union_r by (by apply not_elem_of_list_to_map_1). by rewrite insert_union_l.
Qed.

(** ** Removing a substring *)

Lemma strstr_Some s t p : strstr s t = Some p → ∃ u w, s = u ++ p ∧ p = t ++ w.
Proof.
  induction s as [|c s IH]; cbn [strstr].
  - destruct (strneq [] t (length t)) eqn:E; [|done]. intros [= <-]. apply strneq_prefix in E as [w E]. by exists [], w.
  - destruct (strneq (c :: s) t (length t)) eqn:E.
    + intros [= <-]. apply strneq_prefix in E as [w E]. by exists [], w.
    + intros (u & w & -> & ->)%IH. by exists (c :: u), w.
Qed.

Lemma uncat_loop_spec fuel v w md :
  w ≠ [] → (length v < fuel)%nat → is_cstr v →
  let '(v', md') := uncat_loop fuel v w md in
  strstr v' w = None ∧ is_cstr v' ∧ (length v' <= length v)%nat ∧ md' = md || bool_decide (is_Some (strstr v w))
  ∧ (strstr v w = None → v' = v).
Proof.
  intros Hw. revert v md. induction fuel as [|fuel IH]; intros v md Hf Hc; [lia|]. cbn [uncat_loop].
  destruct (strstr v w) as [p|] eqn:E; [|split_and!; try done; by rewrite bool_decide_false, orb_false_r by (by intros [])].
  destruct (strstr_Some _ _ _ E) as (u & t & Ev & Ep). rewrite bool_decide_true, orb_true_r by eauto.
  assert (take (length v - length p) v ++ drop (length w) p = u ++ t) as ->.
  { rewrite Ev, length_app. rewrite take_app_length' by lia. by rewrite Ep, drop_app_length. }
  assert (0 < length w)%nat by (destruct w; [done|cbn; lia]).
  assert (length v = length u + length w + length t)%nat as Hl by (rewrite Ev, Ep, !length_app; lia).
  assert (is_cstr (u ++ t)) as Hct.
  { unfold is_cstr in *. rewrite Ev, Ep, !Forall_app in Hc. apply Forall_app. tauto. }
  specialize (IH (u ++ t) true ltac:(rewrite length_app; lia) Hct). destruct (uncat_loop fuel (u ++ t) w true) as [v' md'].
  destruct IH as (? & ? & Hl' & -> & _). rewrite length_app in Hl'. split_and!; [done|done|lia|done|done].
Qed.

(** ** Walking the file *)

Lemma getbytes_ok s img len :
  reading (db s) img → 0 <= dump_pos s → 0 <= len → dump_pos s + len <= slen img →
  getbytes len s = (Some (take (Z.to_nat len) (drop (Z.to_nat (dump_pos s)) img)), set_dump_pos (dump_pos s + len) s).
Proof.
  intros Hr Hp Hl Hs. pose proof (rd_small _ _ Hr). unfold getbytes; run_m. rewrite (read_ok _ img) by done. by rewrite u32_small by (unfold is_u32; lia).
Qed.

(** [sdb_dump_dupnext] at a record; a key of 254 characters is not read. *)
Lemma dump_next_ok s img e kv :
  reading (db s) img → rec_at img e kv → kv.1 ≠ [] → slen kv.1 + 1 < SDB_MAX_KEY → dump_pos s = hp_p e →
  sdb_dump_dupnext s = (Some (kv.1, Some kv.2, slen kv.2 + 1), set_dump_pos (hp_p e + slen (record kv)) s).
Proof.
  intros Hr He Hne Hk Hp. pose proof (ra_ok _ _ _ He) as Hok. pose proof (ra_pos _ _ _ He) as [Hp0 Hps]. pose proof (record_length kv Hok) as Hrl.
  pose proof (slen_nonneg kv.1). pose proof (slen_nonneg kv.2). pose proof (rd_small _ _ Hr). assert (0 < slen kv.1) by (unfold slen; destruct kv.1; [done|cbn; lia]).
  pose proof (ra_data _ _ _ He) as Hd. rewrite record_ok in Hd by done. apply take_app_split in Hd as [_ Hd]. cbn [length] in Hd. rewrite drop_drop in Hd.
  pose proof Hok as (Hc1 & Hc2 & Hk1 & Hv1). rewrite app_assoc in Hd. apply take_app_split in Hd as [Hd1 Hd2]. rewrite drop_drop in Hd2.
  unfold sdb_dump_dupnext; run_m. rewrite Hp, (getkvlen_ok _ img e kv Hr He). cbn [negb].
  rewrite (proj2 (Z.ltb_ge (slen kv.1 + 1) 1)), (proj2 (Z.ltb_ge (slen kv.2 + 1) 1)) by lia. cbn [orb].
  change SDB_MIN_KEY with 1. rewrite (proj2 (Z.ltb_lt 1 _)), (proj2 (Z.ltb_lt _ SDB_MAX_KEY)) by lia. cbn [andb].
  rewrite u32_small by (unfold is_u32; lia). rewrite (getbytes_ok _ img) by (cbn [db dump_pos set_dump_pos]; done || lia). cbn [dump_pos set_dump_pos].
  rewrite (proj2 (Z.ltb_lt _ SDB_MAX_VALUE)) by lia. rewrite (getbytes_ok _ img) by (cbn [db dump_pos set_dump_pos]; done || lia). cbn [dump_pos set_dump_pos].
  rewrite length_app in Hd1, Hd2. cbn [length] in Hd1, Hd2.
  replace (Z.to_nat (slen kv.1 + 1)) with (length kv.1 + 1)%nat by (unfold slen; lia). replace (Z.to_nat (slen kv.2 + 1)) with (length kv.2 + 1)%nat by (unfold slen; lia).
  replace (Z.to_nat (hp_p e + 4)) with (Z.to_nat (hp_p e) + 4)%nat by lia.
  replace (Z.to_nat (hp_p e + 4 + (slen kv.1 + 1))) with (Z.to_nat (hp_p e) + 4 + (length kv.1 + 1))%nat by (unfold slen; lia).
  rewrite length_app in Hd2. cbn [length] in Hd2. rewrite Hd1, Hd2, <- !app_assoc. cbn [app]. rewrite !cstr_app_nul by done. f_equal.
  replace (hp_p e + slen (record kv)) with (hp_p e + 4 + (slen kv.1 + 1) + (slen kv.2 + 1)) by lia. done.
Qed.

(** The records are over where the next lengths make no record.  The tables of the file
    follow the records, and nothing else ends the walk. *)
Definition records_end (kvs : pairs) (s : Sdb) : Prop := (sdb_dump_dupnext (set_dump_pos (CDB_FINAL + slen (records kvs)) s)).1 = None.

(** A record that [sdb_dump_dupnext] reads. *)
Definition walked (kv : bytes * bytes) : Prop := kv.1 ≠ [] ∧ slen kv.1 + 1 < SDB_MAX_KEY.

(** * Properties *)

(** Iterating over a database in memory visits its contents: [sdb_foreach] hands
    every key that has a value to the callback exactly once, with that value, and
    leaves the contents as they are. *)
Theorem sdb_foreach_visits_contents n s :
  mem_inv n s →
  ∃ l s', sdb_foreach_pairs s = (l, s') ∧ l ≡ₚ map_to_list (view s) ∧ view s' = view s ∧ mem_inv n s'.
Proof.
  intros Hi. destruct (foreach_pairs_mem n s Hi) as (l & s' & E & Hp & Hc). exists l, s'.
  split_and!; [done|done|by apply view_core|by eapply mem_inv_core].
Qed.

Lemma sdb_foreach_visits_contents_witness :
  ∃ s, view s !! str "k" = Some (str "v") ∧
  ∃ l s', sdb_foreach_pairs s = (l, s') ∧ l ≡ₚ map_to_list (view s) ∧ view s' = view s ∧ mem_inv 1 s'.
Proof.
  destruct (mem_with 1 (str "k") (str "v")) as (s & Hi & Hv & _); [done|done|split; [by repeat constructor|done]|done|].
  exists s. split; [exact Hv|]. apply (sdb_foreach_visits_contents 1 s Hi).
Defined.

(** Merging is a union: after [sdb_merge] of a database in memory into another one
    every key of the source has the value of the source, every other key keeps its own. *)
Theorem sdb_merge_is_union now n m d s :
  mem_inv n s → map_Forall (λ k v, key_ok k ∧ val_ok v) (view s) → mem_inv (base.size (view s) + m) d →
  view (sdb_merge now d s).1 = view s ∪ view d.
Proof.
  intros Hi Hok Hd. unfold sdb_merge. destruct (foreach_pairs_mem n s Hi) as (l & s' & -> & Hp & _).
  assert (length l = base.size (view s)) as Hl by (rewrite Hp; by rewrite length_map_to_list).
  destruct (set_pairs_mem now l m d) as (d' & E & _ & Hv).
  { by rewrite Hl. }
  { rewrite Hp. apply Forall_forall. intros [k v] Hkv%elem_of_map_to_list. by apply Hok. }
  rewrite E. cbn [snd fst]. rewrite Hv, foldl_put_union.
  - f_equal. rewrite <- (list_to_map_to_list (view s)). apply list_to_map_proper; [|done]. rewrite Hp. apply NoDup_fst_map_to_list.
  - rewrite Hp. apply NoDup_fst_map_to_list.
  - rewrite Hp. apply Forall_forall. intros [k v] Hkv%elem_of_map_to_list. by destruct (view_cstr n s k v Hi Hkv) as (_ & ? & _).
Qed.

Lemma sdb_merge_is_union_witness :
  ∃ d s, view d !! str "a" = Some (str "1") ∧ view s !! str "b" = Some (str "2") ∧ view (sdb_merge 0 d s).1 = view s ∪ view d.
Proof.
  assert (val_ok (str "1") ∧ val_ok (str "2")) as [Hv1 Hv2] by (repeat split; repeat constructor).
  destruct (mem_single 9 (str "a") (str "1")) as (d & Hd & Hvd); [done|done|exact Hv1|done|].
  destruct (mem_single 9 (str "b") (str "2")) as (s & Hs & Hvs); [done|done|exact Hv2|done|].
  exists d, s. split; [by rewrite Hvd|]. split; [by rewrite Hvs|].
  apply (sdb_merge_is_union 0 9 8 d s); [exact Hs| |]; rewrite Hvs; [|exact Hd].
  apply map_Forall_singleton. by split.
Defined.

(** Expiration: setting a delay of less than thirty days on a key with a value
    reports success, is what [sdb_expire_get] then answers (as an absolute time), and
    ends the value: [sdb_get] still answers with it up to that time and with nothing
    after it; the entries of other keys are not touched. *)
Theorem sdb_expire_life now e t n s k v :
  mem_inv (S n) s → view s !! k = Some v → 0 < e < 30 * 24 * 60 * 60 → 0 <= now < 2 ^ 63 →
  ∃ s', sdb_expire_set now (Some k) e 0 s = (Some true, s')
    ∧ (∃ c, (sdb_expire_get k s').1 = Some (now + e, c))
    ∧ (sdb_get t (Some k) s').1.1 = (if now + e <? t then None else Some v)
    ∧ ∀ j, j ≠ k → to_map (ht s') !! j = to_map (ht s) !! j.
Proof.
  intros Hi Hv He Hnow. destruct (view_cstr _ s k v Hi Hv) as (Hc & Hne & _). rewrite view_lookup in Hv.
  destruct (to_map (ht s) !! k) as [kv|] eqn:Em; [|done]. cbn in Hv.
  assert (value kv = Some v) as Hval by (unfold live in Hv; destruct (value kv) as [[]|]; done).
  assert (hd0 v =? 0 = false) as Hhd by (apply Z.eqb_neq; by rewrite hd0_cstr).
  assert (parse_expire now e = now + e) as Hpe.
  { unfold parse_expire. rewrite (proj2 (Z.ltb_lt 0 e)), (proj2 (Z.ltb_lt e _)) by lia. cbn [andb]. rewrite Z.add_comm. apply u64_small. unfold is_u64. lia. }
  unfold sdb_expire_set. cbn [expire_set_loop]. run_m. cbn [set_stamp ht].
  rewrite (sdb_ht_find_kvp_spec (S n)), Em, Hval, Hhd by apply Hi. change (0 =? 0) with true. cbn [negb andb orb]. rewrite Hpe.
  set (f := λ kv : SdbKv, _). destruct (to_map_key _ _ _ _ (mi_ht _ _ _ Hi) Em) as [Hk Hkk].
  destruct (ht_write_spec (S n) (ht s) k f kv (mi_ht _ _ _ Hi) Em Hk Hkk) as (Hwi & Hwm & _).
  change (ht (set_stamp _ _ _ s)) with (ht s). eexists. split; [done|]. split_and!.
  - unfold sdb_expire_get; run_m. cbn [set_ht ht]. rewrite (sdb_ht_find_kvp_spec (S n)), Hwm, lookup_insert_eq by done.
    unfold f. cbn [value ext expire]. rewrite Hval, Hhd. cbn. by eexists.
  - unfold sdb_get, sdb_get_len, sdb_const_get_len; run_m. cbn [set_ht ht]. rewrite (sdb_ht_find_kvp_spec (S n)), Hwm, lookup_insert_eq by done.
    unfold f at 1. cbn [value]. rewrite Hval. destruct v as [|x v]; [done|].
    cbn [set_ht set_stamp timestamped]. unfold f. cbn [ext expire andb]. rewrite (proj2 (Z.eqb_neq (now + e) 0)) by lia. cbn [negb andb].
    destruct (now + e <? t).
    + destruct (sdb_unset _ _ _ _) as [r s2]. done.
    + cbn [fst snd fmap option_fmap option_map]. by rewrite cstr_app_nul.
  - intros j Hj. cbn [set_ht ht]. rewrite Hwm. by rewrite lookup_insert_ne.
Qed.

Lemma sdb_expire_life_witness :
  ∃ s s', mem_inv 1 s ∧ sdb_expire_set 1000 (Some (str "k")) 60 0 s = (Some true, s')
    ∧ (∃ c, (sdb_expire_get (str "k") s').1 = Some (1060, c))
    ∧ (sdb_get 2000 (Some (str "k")) s').1.1 = None
    ∧ ∀ j, j ≠ str "k" → to_map (ht s') !! j = to_map (ht s) !! j.
Proof.
  destruct (mem_with 1 (str "k") (str "v")) as (s & Hi & Hv & _); [done|done|split; [by repeat constructor|done]|done|].
  destruct (sdb_expire_life 1000 60 2000 0 s (str "k") (str "v")) as (s' & Hs'); [exact Hi|exact Hv|lia|lia|].
  exists s, s'. split; [exact Hi|]. exact Hs'.
Defined.

(** Unsetting a key that was never set stores an entry without a value; asking for
    its expiration, or setting one, then reads through a null pointer. *)
Theorem sdb_expire_after_unset_crashes now n s k e :
  mem_inv (S n) s → key_ok k → to_map (ht s) !! k = None →
  let '(r, s') := sdb_unset now (Some k) 0 s in
  r = true ∧ (sdb_expire_get k s').1 = None ∧ (sdb_expire_set now (Some k) e 0 s').1 = None.
Proof.
  intros Hi Hk Hm. pose proof (set_any None now n s k [] false 0 Hi Hk ltac:(by split; [constructor|])) as Hs.
  unfold sdb_unset, sdb_set; run_m. destruct (sdb_set_internal _ _ _ _ _ s) as [r s']. destruct Hs as (Hi' & -> & Hm').
  rewrite Hm in Hm'. rewrite Hm. cbn in Hm'. split; [done|].
  unfold sdb_expire_set. cbn [expire_set_loop]. unfold sdb_expire_get; run_m. cbn [set_stamp ht].
  rewrite !(sdb_ht_find_kvp_spec n), Hm', lookup_insert_eq by apply Hi'. done.
Qed.

Lemma sdb_expire_after_unset_crashes_witness :
  ∃ s, let '(r, s') := sdb_unset 0 (Some (str "k")) 0 s in
  r = true ∧ (sdb_expire_get (str "k") s').1 = None ∧ (sdb_expire_set 0 (Some (str "k")) 60 0 s').1 = None.
Proof.
  destruct (sdb_ht_new_spec (λ _, true) 1) as (t & Et & Hi & Hm & _); [done..|].
  exists (mkSdb t (cdb_init true cdb_none None).2 None None None false 0 0 [] [] 0 0 1 false).
  apply (sdb_expire_after_unset_crashes 0 0); [|done|cbn [ht]; by rewrite Hm].
  split; cbn [ht fd db gp timestamped]; [exact Hi|done|done|done|rewrite Hm; apply map_Forall_empty].
Defined.

Lemma const_get_disk now kvs n s k v :
  db_inv (Some kvs) n s → key_ok k → to_map (ht s) !! k = None → first_value kvs k = Some v →
  ∃ p s', sdb_const_get_len now (Some k) s = ((Some p, slen v + 1, 0), s') ∧ take (Z.to_nat (slen v + 1)) p = v ++ [0] ∧ same_core s s'.
Proof.
  intros Hi Hk Em Ev. unfold sdb_const_get_len; run_m. rewrite (sdb_ht_find_kvp_spec n), Em by apply Hi.
  pose proof (mi_disk _ _ _ Hi) as Hd. rewrite (mi_gp _ _ _ Hi). destruct (fd s) as [f|] eqn:Ef; [|by destruct Hd as (? & ? & _); congruence].
  assert (disk_ok (Some kvs) (set_db (cdb_findstart (db s)) s)) as Hd1 by by eapply disk_ok_core; [apply findstart_core|].
  destruct (findnext_disk (Some kvs) _ k Hd1 eq_refl (key_ok_u32 k Hk)) as (d & -> & Hcd & Hdat). unfold on_disk. rewrite Ev in *.
  change (1 <? 1) with false. cbv iota. destruct Hdat as [Hdl Hdt]. destruct Hd as (img & _ & _ & _ & Hok).
  destruct (first_value_ok kvs k v Hok Ev) as (_ & Hcv & _ & Hvl). cbn [fst snd set_db db] in *. pose proof (slen_nonneg v). unfold SDB_MIN_VALUE.
  rewrite Hdl, (proj2 (Z.ltb_ge _ _)), (proj2 (Z.leb_gt _ _)) by lia. cbn [orb].
  destruct (cmap d) as [m|]; [|cbn in Hdt; rewrite drop_nil, take_nil in Hdt; by destruct v].
  eexists _, _. split; [done|]. split; [by rewrite Hdl in Hdt|]. etrans; [apply findstart_core|done].
Qed.

(** Appending to a value that is only in the file loses the text: [sdb_concat]
    reports success, and the value read afterwards is the old one.  The length of a
    stored value includes its terminator, and the new text is put behind it. *)
Theorem sdb_concat_on_file_loses now kvs n s k v w :
  db_inv (Some kvs) (S n) s → key_ok k → k ≠ [] → to_map (ht s) !! k = None → first_value kvs k = Some v → v ≠ [] → w ≠ [] →
  let '(r, s') := sdb_concat now (Some k) (Some w) 0 s in
  r = true ∧ (sdb_get now (Some k) s').1.1 = Some v.
Proof.
  intros Hi Hk Hk0 Hm Hv Hv0 Hw0. destruct k as [|x k]; [done|]. destruct w as [|y w]; [done|]. unfold sdb_concat. set (kk := x :: k) in *.
  run_m. destruct (const_get_disk now kvs _ s kk v Hi Hk Hm Hv) as (p & s1 & -> & Hp & Hc). cbn [fst snd].
  assert (Forall pair_ok kvs) as Hok by (pose proof (mi_disk _ _ _ Hi) as (? & _ & _ & _ & ?); done).
  destruct (first_value_ok kvs kk v Hok Hv) as (_ & Hcv & _ & Hvl). cbn [fst snd] in *.
  rewrite Hp, <- app_assoc. cbn [app]. rewrite cstr_app_nul by done.
  pose proof (mem_inv_core _ _ _ _ Hc Hi) as Hi1.
  pose proof (set_over_disk now kvs n s1 kk v true Hi1 Hk) as Hs. unfold sdb_set_owned; run_m.
  destruct (sdb_set_internal _ _ _ _ _ _) as [r s']. destruct Hs as (Hi' & Hr & Hd); [split; [done|unfold SDB_VSZ, SDB_MAX_VALUE in *; lia]|left; by eexists|].
  rewrite (proj2 (Z.eqb_neq r 0)) by lia. split; [done|].
  destruct (get_disk now kvs n s' kk Hi' (key_ok_u32 kk Hk)) as (c & s2 & -> & _). cbn [fst]. rewrite Hd, decide_True by done. by destruct v.
Qed.

Lemma sdb_concat_on_file_loses_witness :
  ∃ s, let '(r, s') := sdb_concat 0 (Some (str "a")) (Some (str "x")) 0 s in
  r = true ∧ (sdb_get 0 (Some (str "a")) s').1.1 = Some (str "1").
Proof.
  destruct two_records_open as (s & Hi & Hm). exists s.
  apply (sdb_concat_on_file_loses 0 [(str "a", str "1"); (str "b", str "2")] 2 s (str "a") (str "1") (str "x"));
    [exact Hi|done|done|by rewrite Hm|reflexivity|done|done].
Defined.

(** [sdb_uncat] removes every occurrence: on a database in memory it reports a
    change exactly when the text occurs in the value, afterwards the value does not
    contain it (not even across the seams of the removals), and no other key changes. *)
Theorem sdb_uncat_removes now n s k v w :
  mem_inv (S n) s → view_ok (view s) → key_ok k → view s !! k = Some v → w ≠ [] →
  let '(r, s') := sdb_uncat now (Some k) (Some w) 0 s in
  (r = true ↔ is_Some (strstr v w))
  ∧ (∀ v', view s' !! k = Some v' → strstr v' w = None) ∧ ∀ j, j ≠ k → view s' !! j = view s !! j.
Proof.
  intros Hi Hvo Hk Hv Hw. unfold sdb_uncat, sdb_get_len; run_m. rewrite (get_mem now _ s k Hi), Hv. cbn [fst snd fmap option_fmap option_map].
  destruct (view_cstr _ s k v Hi Hv) as (Hc & Hne & _). rewrite cstr_app_nul by done. change (negb (0 =? 0)) with false. cbn [andb].
  rewrite (proj2 (Z.ltb_lt 0 (slen w))) by (destruct w; [done|unfold slen; cbn; lia]).
  pose proof (uncat_loop_spec (S (length v)) v w false Hw ltac:(lia) Hc) as Hu. destruct (uncat_loop _ _ _ _) as [v' md].
  destruct Hu as (Hn & Hc' & Hl & -> & Hsame). cbn [orb]. destruct (strstr v w) as [p|] eqn:E.
  - rewrite bool_decide_true by eauto. assert (val_ok v') as Hv' by (split; [done|]; destruct (Hvo k v Hv) as [_ ?]; unfold slen in *; lia).
    pose proof (set_mem_view now n s k v' true Hi Hk Hv') as Hs. fold (sdb_set_owned now (Some k) (Some v') 0) in Hs.
    destruct (sdb_set_owned _ _ _ _ s) as [r s']. destruct Hs as (_ & -> & Hvw). rewrite Hvw. split_and!; [split; eauto| |].
    + intros v2. unfold put. destruct v'; [by rewrite lookup_delete_eq|rewrite lookup_insert_eq; by intros [= <-]].
    + intros j Hj. unfold put. destruct v'; [by rewrite lookup_delete_ne|by rewrite lookup_insert_ne].
  - rewrite bool_decide_false by (by intros []). split_and!; [split; [done|by intros []]| |done]. intros v2. rewrite Hv. by intros [= <-].
Qed.

Lemma sdb_uncat_removes_witness :
  ∃ s, mem_inv 1 s ∧ view s !! str "k" = Some (str "xaabby") ∧
  let '(r, s') := sdb_uncat 0 (Some (str "k")) (Some (str "ab")) 0 s in
  (r = true ↔ is_Some (strstr (str "xaabby") (str "ab")))
  ∧ (∀ v', view s' !! str "k" = Some v' → strstr v' (str "ab") = None) ∧ ∀ j, j ≠ str "k" → view s' !! j = view s !! j.
Proof.
  destruct (mem_with 1 (str "k") (str "xaabby")) as (s & Hi & Hv & Hvo); [done|done|split; [by repeat constructor|done]|done|].
  exists s. split; [exact Hi|]. split; [exact Hv|].
  apply (sdb_uncat_removes 0 0 s (str "k") (str "xaabby") (str "ab")); [exact Hi|exact Hvo|done|exact Hv|done].
Defined.

Lemma pair_inv {A B} (a a' : A) (b b' : B) : (a, b) = (a', b') → a = a' ∧ b = b'.
Proof. by intros [= -> ->]. Qed.

(** The file that the writer makes of two pairs. *)
Definition two_records_img : bytes :=
  match cdb_make_finish (λ n, Some (replicate n (mkHp 0 0))) true
          (add_all (cdb_make_start true (mkFile [] 0 5000)).2 [(str "a", str "1"); (str "b", str "2")]).2 with
  | Some (_, c) => fdata (mout c).2
  | None => []
  end.

(** What is seen of that file through a database before and after its reset. *)
Definition reset_probe (s0 : Sdb) : bool * option bytes * option bytes * option (bytes * bytes) :=
  let s1 := (sdb_open_file true 0 (Some two_records_img) s0).2 in
  let s2 := (sdb_reset s1).2 in
  ((sdb_open_file true 0 (Some two_records_img) s0).1, (sdb_get 0 (Some (str "a")) s1).1.1,
   (sdb_get 0 (Some (str "a")) s2).1.1, hd_error (sdb_foreach_pairs s2).1).

(** A database that was reset still walks its old file: [sdb_reset] closes the file
    but keeps it mapped, so [sdb_foreach] reads the header of the old file as records.
    After opening the file of two pairs and a reset, no key has a value, and
    iteration still hands pairs of header bytes to its callback. *)
Theorem sdb_reset_leaves_map :
  ∃ s0 s1, sdb_new0 = Some s0 ∧ sdb_open_file true 0 (Some two_records_img) s0 = (true, s1)
    ∧ let s2 := (sdb_reset s1).2 in
      (sdb_get 0 (Some (str "a")) s1).1.1 = Some (str "1") ∧ (sdb_get 0 (Some (str "a")) s2).1.1 = None
      ∧ hd_error (sdb_foreach_pairs s2).1 = Some ([16; 4], [16; 4]).
Proof.
  destruct (sdb_new0_ok 1) as (s0 & E & _); [done|]. exists s0.
  assert (reset_probe <$> sdb_new0 = Some (true, Some (str "1"), None, Some ([16; 4], [16; 4]))) as H by (vm_compute; reflexivity).
  rewrite E in H. change (Some (reset_probe s0) = Some (true, Some (str "1"), None, Some ([16; 4], [16; 4]))) in H.
  apply Some_inj in H. unfold reset_probe in H. exists (sdb_open_file true 0 (Some two_records_img) s0).2.
  apply pair_inv in H as [H H4]. apply pair_inv in H as [H H3]. apply pair_inv in H as [H1 H2].
  split; [exact E|]. split; [|exact (conj H2 (conj H3 H4))].
  rewrite <- H1. apply surjective_pairing.
Qed.

(** A value of a file that could not be mapped is never returned.  [sdb_open] succeeds
    without the map and the search reads through the descriptor, but [sdb_const_get_len]
    computes its result from the NULL map: for a key of the file the pointer leads to no
    memory. *)
Theorem sdb_get_unmapped_wild :
  ∃ s0 s1, sdb_new0 = Some s0 ∧ sdb_open_file false 0 (Some two_records_img) s0 = (true, s1)
    ∧ wild s1 = false ∧ wild (sdb_const_get_len 0 (Some (str "a")) s1).2 = true
    ∧ wild (sdb_const_get_len 0 (Some (str "z")) s1).2 = false.
Proof.
  destruct (sdb_new0_ok 1) as (s0 & E & _); [done|]. exists s0, (sdb_open_file false 0 (Some two_records_img) s0).2.
  set (probe s0 := let s1 := (sdb_open_file false 0 (Some two_records_img) s0).2 in
    ((sdb_open_file false 0 (Some two_records_img) s0).1, wild s1, wild (sdb_const_get_len 0 (Some (str "a")) s1).2,
     wild (sdb_const_get_len 0 (Some (str "z")) s1).2)).
  assert (probe <$> sdb_new0 = Some (true, false, true, false)) as H by (vm_compute; reflexivity).
  rewrite E in H. change (Some (probe s0) = Some (true, false, true, false)) in H. apply Some_inj in H. unfold probe in H.
  apply pair_inv in H as [H H4]. apply pair_inv in H as [H H3]. apply pair_inv in H as [H1 H2].
  split; [exact E|]. split; [|exact (conj H2 (conj H3 H4))]. rewrite <- H1. apply surjective_pairing.
Qed.

(** ** Keys made from a format *)

(** A formatted key that fits is the key; one that does not fit is refused by all of the calls, and nothing changes. *)
Theorem sdb_setf_getf now n s k v : mem_inv (S (S n)) s → val_ok v → v ≠ [] →
  let '(r, s') := sdb_setf now (Some v) 0 (Some k) s in
  if slen k <? SDB_MAX_KEY then r = true ∧ (sdb_getf now (Some k) s').1.1 = Some v ∧ sdb_existsf (Some k) s' = (true, s') ∧ view (sdb_unsetf now 0 (Some k) s').2 = delete k (view s)
  else r = false ∧ s' = s ∧ sdb_getf now (Some k) s = ((None, 0), s) ∧ sdb_existsf (Some k) s = (false, s) ∧ sdb_unsetf now 0 (Some k) s = (false, s).
Proof.
  intros Hi Hv Hne. unfold sdb_setf, sdb_vsetf, sdb_getf, sdb_const_vgetf, sdb_existsf, sdb_unsetf, sdb_vsetf, sdb_vfmtkey. cbn [mbind option_bind]. destruct (slen k <? SDB_MAX_KEY) eqn:El; [|done]. zbool.
  assert (key_ok k) as Hk by (unfold key_ok, SDB_KSZ; unfold SDB_MAX_KEY in El; lia). pose proof (set_mem_view now (S n) s k v false Hi Hk Hv) as Hs. fold (sdb_set now (Some k) (Some v) 0) in Hs.
  destruct (sdb_set now (Some k) (Some v) 0 s) as [r s']. destruct Hs as (Hi' & -> & Hvw). assert (put (view s) k v = <[k := v]> (view s)) as Hp by (by destruct v). rewrite Hp in Hvw.
  assert (view s' !! k = Some v) as Hg by (by rewrite Hvw, lookup_insert_eq). split_and!; [done| | |].
  - unfold sdb_const_get; run_m. rewrite (get_mem now (S n) s' k Hi'), Hg. cbn. by rewrite cstr_app_nul by apply Hv.
  - by rewrite (exists_mem (S n) s' k Hi'), bool_decide_true by eauto.
  - pose proof (set_mem_view now n s' k [] false Hi' Hk ltac:(by split; [constructor|])) as Hu. fold (sdb_set now (Some k) (Some []) 0) in Hu. destruct (sdb_set now (Some k) (Some []) 0 s') as [r2 s2]. destruct Hu as (_ & _ & Hu).
    cbn [snd]. rewrite Hu, Hvw. cbn [put]. apply delete_insert_eq.
Qed.
