(* ===== verification/Disk.v ===== *)
(** * Saving to disk: src/src/disk.c, [sdb_sync] and [sdb_open] of src/src/sdb.c

    The state adds to an [Sdb] its file names, the writer of the temporary file and
    the contents of the files by name.  The temporary file gets its contents from the
    writer when it is closed; it replaces the database file in one step.  System
    calls and allocations answer as the record [Sys] says: [malloc] gives the arrays of
    [cdb_make_finish], [hp_alloc] a block of the writer's list for a number of entries,
    [ht_alloc] the memory of the table of written keys.  Directories are not modelled.  The loader
    of text databases, which [sdb_open] calls for a file that looks like text, is the
    argument [text_load] of the definitions: what is proved does not depend on it. *)

From S2P Require Import Prelude Util Ht HashTables Buffer CdbMake CdbTables Cdb CdbRoom SdbCore SdbIter.

Record Sys := mkSys {
  tmp_open_ok : bool;
  fsync_ok : bool;
  close_ok : bool;
  rename_ok : bool;
  mmap_ok : bool;
  mtime : Z;
  room : nat;
  malloc : nat → option (list cdb_hp);
  seek_start_ok : bool;
  seek_head_ok : bool;
  hp_alloc : Z → bool;
  ht_alloc : Z → bool
}.

Record SdbFs := mkFs {
  core : Sdb;
  dir : option bytes;
  name : option bytes;
  ndump : option bytes;
  fdump : bool;
  maker : cdb_make;
  files : gmap bytes bytes
}.

Definition F (A : Type) : Type := SdbFs → A * SdbFs.
#[global] Instance F_ret : MRet F := λ A a s, (a, s).
#[global] Instance F_bind : MBind F := λ A B k m s, let '(a, s) := m s in k a s.
Definition getF : F SdbFs := λ s, (s, s).
Definition putF (f : SdbFs → SdbFs) : F unit := λ s, (tt, f s).

(** An operation on the database itself. *)
Definition lift {A} (m : M A) : F A :=
  λ s, let '(a, c) := m (core s) in (a, mkFs c (dir s) (name s) (ndump s) (fdump s) (maker s) (files s)).

Definition set_dump (n : option bytes) (f : bool) (m : cdb_make) (s : SdbFs) : SdbFs :=
  mkFs (core s) (dir s) (name s) n f m (files s).
Definition set_dir (d : option bytes) (s : SdbFs) : SdbFs :=
  mkFs (core s) d (name s) (ndump s) (fdump s) (maker s) (files s).
Definition set_files (fs : gmap bytes bytes) (s : SdbFs) : SdbFs :=
  mkFs (core s) (dir s) (name s) (ndump s) (fdump s) (maker s) fs.

(** ** Opening *)

(** [sdb_text_check] (src/src/text.c) on the contents of the file: the first 63 bytes up
    to a zero. *)
Fixpoint text_check_loop (p : bytes) (ascii eq nl : bool) : bool * bool * bool :=
  match p with
  | [] => (ascii, eq, nl)
  | c :: p' =>
      if c =? chr "=" then text_check_loop p' ascii true nl
      else if c =? 10 then text_check_loop p' ascii eq true
      else if negb eq then text_check_loop p' (if (s8 c <? 10) || (chr "~" <? s8 c) then false else ascii) eq nl
      else text_check_loop p' ascii eq nl
  end.

Definition sdb_text_check (d : bytes) : bool :=
  let count := Z.min (slen d) 64 in
  if count <? 1 then false
  else
    let '(ascii, eq, nl) := text_check_loop (cstr (take 63 d)) true false false in
    (4 <? count) && ascii && nl && eq.

Section disk.
Context (sys : Sys) (text_load : bytes → M bool).

Definition sdb_open_text (d : bytes) : F bool :=
  r ← lift (text_load d);
  s ← getF;
  mret (if (r : bool) then bool_decide (is_Some (fd (core s))) else false).

(** Whether the result is a descriptor. *)
Definition sdb_open (file : bytes) : F bool :=
  s ← getF;
  match files s !! file with
  | Some d =>
      if sdb_text_check d then sdb_open_text d
      else _ ← putF (set_dir (Some file)); lift (sdb_open_file (mmap_ok sys) (mtime sys) (Some d))
  | None => _ ← putF (set_dir (Some file)); lift (sdb_open_file (mmap_ok sys) (mtime sys) None)
  end.

(** ** The dump file *)

Definition sdb_disk_abort : F unit :=
  putF (λ s,
    let fs := match ndump s with Some n => delete n (files s) | None => files s end in
    set_files fs (set_dump None false (cdb_make_cancel (maker s)) s)).

Definition sdb_disk_create : F bool :=
  s ← getF;
  if fdump s then mret false
  else
    _ ← putF (λ s, set_dir (match dir s, name s with None, Some n => Some n | d, _ => d end) s);
    s ← getF;
    let tmp := default (str "./") (dir s) ++ str ".tmp" in
    if negb (tmp_open_ok sys) then _ ← putF (set_dump None false (maker s)); mret false
    else
      let '(started, m) := cdb_make_start (seek_start_ok sys) (mkFile [] 0 (room sys)) in
      _ ← putF (λ s, set_files (<[tmp := []]> (files s)) (set_dump (Some tmp) true m s));
      if negb started then _ ← sdb_disk_abort; mret false else mret true.

Definition sdb_disk_insert (key : bytes) (val : option bytes) (m : cdb_make) : bool * cdb_make :=
  match val with
  | None => (false, m)
  | Some val => cdb_make_add (hp_alloc sys (numentries m)) m key (slen key) val (slen val)
  end.

Definition close_current_database : F unit :=
  lift (modify (λ s, set_fd (mkCdb None None (csize (db s)) (loop (db s)) (khash (db s)) (kpos (db s))
                                   (hpos (db s)) (hslots (db s)) (dpos (db s)) (dlen (db s))) None (gp s) s)).

(** [None] is an access outside an array of the writer. *)
Definition sdb_disk_finish : F (option bool) :=
  s ← getF;
  match fdump s, ndump s, dir s with
  | true, Some n, Some d =>
      match cdb_make_finish (malloc sys) (seek_head_ok sys) (maker s) with
      | None => mret None
      | Some (ret, m) =>
          let ret := ret && fsync_ok sys && close_ok sys in
          _ ← putF (λ s, set_files (<[n := fdata (mout m).2]> (files s)) (set_dump (Some n) false m s));
          if negb ret then _ ← sdb_disk_abort; mret (Some false)
          else
            _ ← close_current_database;
            if negb (rename_ok sys) then _ ← sdb_disk_abort; _ ← sdb_open d; mret (Some false)
            else
              _ ← putF (λ s, set_files (<[d := fdata (mout m).2]> (delete n (files s))) (set_dump None false m s));
              r ← sdb_open d;
              mret (Some r)
      end
  | _, _, _ => _ ← sdb_disk_abort; mret (Some false)
  end.

(** ** [sdb_sync] *)

(** The writer and the table of the keys written, an HtPP. *)
Definition sync_state : Type := cdb_make * Ht bytes (option Z) unit.

Definition _sync_has_persisted (u : sync_state) (key : bytes) : bool :=
  match (ht_find u.2 key).1 with Some _ => true | None => false end.

Definition _insert_into_disk (u : sync_state) (key : bytes) (value : option bytes) : bool * sync_state :=
  if _sync_has_persisted u key then (true, u)
  else let '(r, m) := sdb_disk_insert key value u.1 in (r, (m, u.2)).

Definition _mark_persisted (u : sync_state) (key : bytes) (value : option bytes) : bool * sync_state :=
  if _sync_has_persisted u key then (true, u)
  else let '(r, t) := ht_insert (ht_alloc sys) u.2 key (Some 1) in (r, (u.1, t)).

(** The entries of the table, in the order of its buckets. *)
Fixpoint sync_entries (l : list SdbKv) (u : sync_state) : bool * sync_state :=
  match l with
  | [] => (true, u)
  | kv :: l' =>
      match value kv with
      | Some ((_ :: _) as kvv) =>
          if (expire (ext kv) =? 0) && negb (_sync_has_persisted u (key kv)) then
            match sdb_disk_insert (key kv) (Some kvv) u.1 with
            | (true, m) =>
                match _mark_persisted (m, u.2) (key kv) (Some kvv) with
                | (true, u) => sync_entries l' u
                | (false, u) => (false, u)
                end
            | (false, m) => (false, (m, u.2))
            end
          else sync_entries l' u
      | _ => sync_entries l' u
      end
  end.

Definition _remove_persisted (t : SdbHt) (key : bytes) (value : option Z) : bool * SdbHt :=
  (true, (sdb_ht_delete t key).2).

Definition sync_fail : F (option bool) := _ ← sdb_disk_abort; mret (Some false).

Definition sdb_sync : F (option bool) :=
  match ht_pp_new0 (ht_alloc sys) with
  | None => mret (Some false)
  | Some persisted =>
      c ← sdb_disk_create;
      if negb c then mret (Some false)
      else
        s ← getF;
        r ← lift (sdb_foreach_cdb (λ u k v, mret (_insert_into_disk u k v)) (Some (λ u k v, mret (_mark_persisted u k v)))
                    (maker s, persisted));
        _ ← putF (λ s, set_dump (ndump s) (fdump s) r.2.1 s);
        if negb r.1 then sync_fail
        else
          s ← getF;
          let '(ok, u) := sync_entries (kvs (ht (core s))) r.2 in
          _ ← putF (λ s, set_dump (ndump s) (fdump s) u.1 s);
          if negb ok then sync_fail
          else
            f ← sdb_disk_finish;
            match f with
            | None => mret None
            | Some false => sync_fail
            | Some true =>
                _ ← lift (modify (λ s, set_ht (ht_foreach _remove_persisted u.2 (ht s)) s));
                _ ← lift sdb_journal_clear;
                mret (Some true)
            end
  end.

Definition sdb_disk_unlink : F bool :=
  _ ← close_current_database;
  s ← getF;
  match dir s with
  | Some ((_ :: _) as d) =>
      match files s !! d with
      | Some _ => _ ← putF (set_files (delete d (files s))); mret true
      | None => mret false
      end
  | _ => mret false
  end.
End disk.

(** * Facts *)

Ltac run_f := unfold mbind, F_bind, mret, F_ret, getF, putF; cbn [fst snd].

(** ** What a sync writes *)

(** The entries that go to the file: a value and no expiration. *)
Definition persisted (kv : SdbKv) : option bytes := if expire (ext kv) =? 0 then live kv else None.
Definition persist_pairs (l : list SdbKv) : pairs := omap (λ kv, pair (key kv) <$> persisted kv) l.

(** The records that [sdb_foreach_cdb] reads from the file. *)
Fixpoint dump_items (fuel : nat) : M (list (bytes * option bytes)) :=
  match fuel with
  | O => mret []
  | S fuel' =>
      item ← sdb_dump_dupnext;
      match item with
      | None => mret []
      | Some (k, v, _) => l ← dump_items fuel'; mret ((k, v) :: l)
      end
  end.

Definition file_records (s : Sdb) : list (bytes * option bytes) := (dump_items (S (db_size s)) (sdb_dump_begin s).2).1.

(** What is carried over from the file: a record of a key that the table [t] has not, as
    it is; of the others the entry of the table, once.  The second component is the set
    of the keys marked. *)
Fixpoint carried (t : gmap bytes SdbKv) (l : list (bytes * option bytes)) (p : gset bytes) : pairs * gset bytes :=
  match l with
  | [] => ([], p)
  | (k, v) :: l' =>
      match t !! k with
      | Some kv =>
          match value kv with
          | None => carried t l' p
          | Some w =>
              let '(kvs, p') := carried t l' (p ∪ {[k]}) in ((if decide (k ∈ p) then [] else [(k, w)]) ++ kvs, p')
          end
      | None => let '(kvs, p') := carried t l' p in (option_list (pair k <$> v) ++ kvs, p')
      end
  end.

(** What is added from the table. *)
Fixpoint fresh_pairs (l : list SdbKv) (p : gset bytes) : pairs :=
  match l with
  | [] => []
  | kv :: l' =>
      match persisted kv with
      | Some v => if decide (key kv ∈ p) then fresh_pairs l' p else (key kv, v) :: fresh_pairs l' (p ∪ {[key kv]})
      | None => fresh_pairs l' p
      end
  end.

Definition sync_pairs (s : Sdb) : pairs :=
  let '(l, p) := carried (to_map (ht s)) (file_records s) ∅ in l ++ fresh_pairs (kvs (ht s)) p.

(** *** The table of the keys written *)

Definition marks (t : Ht bytes (option Z) unit) (p : gset bytes) : Prop :=
  ht_inv 0 t ∧ ∀ k, contents t !! k = if decide (k ∈ p) then Some (Some 1) else None.

Lemma marks_has m t p k : marks t p → _sync_has_persisted (m, t) k = bool_decide (k ∈ p).
Proof.
  intros [Hi Hc]. unfold _sync_has_persisted. cbn [snd]. rewrite (find_contents 0 t k Hi), Hc. by destruct (decide (k ∈ p)) as [H|H]; case_bool_decide.
Qed.

Lemma marks_dom t p : marks t p → dom (contents t) = p.
Proof.
  intros [_ Hc]. apply set_eq. intros k. rewrite elem_of_dom, Hc. destruct (decide (k ∈ p)); [by split; eauto|].
  split; [by intros []|done].
Qed.

Lemma contents_size {K V X} `{!HtTypes K V X} `{Countable K} (t : Ht K V X) n : ht_inv n t → Z.of_nat (base.size (dom (contents t))) = count t.
Proof.
  intros [[Hw _] _ _ _]. rewrite (wf_count _ Hw), size_dom. unfold contents. rewrite map_size_fmap.
  rewrite (Permutation_length (kvs_map_to_list t Hw)), length_fmap. by rewrite length_map_to_list.
Qed.

Lemma marks_new (sys : Sys) : (∀ n, ht_alloc sys n = true) → ∃ t, ht_pp_new0 (ht_alloc sys) = Some t ∧ marks t ∅.
Proof.
  intros Ha. destruct (internal_new_inv (X := unit) (ht_alloc sys) (ht_pp_options (A := Z) None true None) 0)
    as (t & E & Hi & Hc & _); [done|apply _|done..|].
  exists t. split; [done|]. split; [done|]. intros k. by rewrite Hc, decide_False by set_solver.
Qed.

(** Marking succeeds while the set of the keys, within [D], fits the table. *)
Lemma mark_ok (sys : Sys) (D : gset bytes) m t p k v :
  (∀ n, ht_alloc sys n = true) → 2 * Z.of_nat (base.size D) + 1 < 2 ^ 31 → p ∪ {[k]} ⊆ D → marks t p →
  ∃ t', _mark_persisted sys (m, t) k v = (true, (m, t')) ∧ marks t' (p ∪ {[k]}).
Proof.
  intros Ha HD Hsub Hm. unfold _mark_persisted. rewrite (marks_has _ _ p) by done. case_bool_decide as Hk.
  { exists t. split; [done|]. assert (p ∪ {[k]} = p) as -> by set_solver. done. }
  pose proof (marks_dom _ _ Hm) as Hd. destruct Hm as [Hi Hc].
  assert (ht_inv 1 t) as Hi1.
  { pose proof (contents_size t 0 Hi) as Hs. rewrite Hd in Hs. apply subseteq_size in Hsub. rewrite size_union, size_singleton in Hsub by set_solver.
    destruct Hi as [Hw Hdp Hsz Hr]. split; [done|done|lia|lia]. }
  pose proof (insert_update_contents (ht_alloc sys) 0 t k (Some 1) false Ha Hi1) as Hu. unfold ht_insert. cbn [fst snd].
  rewrite Hc, decide_False in Hu by done. destruct (insert_update _ t k (Some 1) false) as [r t']. destruct Hu as (Hi' & -> & Hc').
  exists t'. split; [done|]. split; [done|]. intros j. rewrite Hc'. destruct (decide (j = k)) as [->|Hne].
  - by rewrite lookup_insert_eq, decide_True by set_solver.
  - rewrite lookup_insert_ne, Hc by done. destruct (decide (j ∈ p)), (decide (j ∈ p ∪ {[k]})); try done; exfalso; set_solver.
Qed.

(** *** The additions *)

(** [add_all] with the allocations of the system. *)
Fixpoint adds (sys : Sys) (m : cdb_make) (l : pairs) : bool * cdb_make :=
  match l with
  | [] => (true, m)
  | kv :: l' => match sdb_disk_insert sys kv.1 (Some kv.2) m with (true, m) => adds sys m l' | (false, m) => (false, m) end
  end.

Lemma adds_app sys m l1 l2 : adds sys m (l1 ++ l2) = match adds sys m l1 with (true, m) => adds sys m l2 | r => r end.
Proof. revert m. induction l1 as [|kv l1 IH]; intros m; cbn [app adds]; [done|]. destruct (sdb_disk_insert _ _ _ m) as [[] m1]; [apply IH|done]. Qed.

Lemma make_add_alloc a c k kl d dl c' : cdb_make_add a c k kl d dl = (true, c') → cdb_make_add true c k kl d dl = (true, c').
Proof.
  unfold cdb_make_add. destruct (cdb_make_addbegin _ _ _) as [[] c1]; [|done]. destruct (putalign c1 _) as [[] c2]; [|done].
  destruct (putalign c2 _) as [[] c3]; [|done]. unfold cdb_make_addend. destruct (push_hp a _ _) as [hd|] eqn:E; [|done]. by rewrite (push_hp_alloc _ _ _ _ E).
Qed.

Lemma adds_all sys m l m' : adds sys m l = (true, m') → add_all m l = (true, m').
Proof.
  revert m. induction l as [|kv l IH]; intros m; cbn [adds add_all sdb_disk_insert]; [done|].
  destruct (cdb_make_add _ m _ _ _ _) as [[] m1] eqn:E; [|done]. rewrite (make_add_alloc _ _ _ _ _ _ _ E). apply IH.
Qed.

Lemma adds_alloc sys m l : (∀ n, hp_alloc sys n = true) → adds sys m l = add_all m l.
Proof.
  intros Ha. revert m. induction l as [|kv l IH]; intros m; cbn [adds add_all sdb_disk_insert]; [done|]. rewrite Ha.
  destruct (cdb_make_add true m _ _ _ _) as [[] m1]; [apply IH|done].
Qed.

(** [sync_entries] makes exactly these additions. *)
Lemma sync_entries_adds (sys : Sys) (D : gset bytes) l m t p :
  (∀ n, ht_alloc sys n = true) → 2 * Z.of_nat (base.size D) + 1 < 2 ^ 31 → p ⊆ D → list_to_set (key <$> l) ⊆ D → marks t p →
  ∃ t', sync_entries sys l (m, t) = ((adds sys m (fresh_pairs l p)).1, ((adds sys m (fresh_pairs l p)).2, t'))
    ∧ ((adds sys m (fresh_pairs l p)).1 = true → marks t' (p ∪ list_to_set (fresh_pairs l p).*1)).
Proof.
  intros Ha HD. revert m t p. induction l as [|kv l IH]; intros m t p Hp Hl Hm; cbn [sync_entries fresh_pairs].
  { exists t. split; [done|]. intros _. cbn. by rewrite (right_id_L ∅ (∪)). }
  cbn [fmap list_fmap list_to_set] in Hl. assert (list_to_set (key <$> l) ⊆ D) as Hl' by set_solver.
  unfold persisted, live. destruct (value kv) as [[|x v]|]; [rewrite Tauto.if_same; by apply IH| |rewrite Tauto.if_same; by apply IH].
  destruct (expire (ext kv) =? 0); cbn [andb]; [|by apply IH]. rewrite (marks_has m t p) by done.
  destruct (decide (key kv ∈ p)) as [Hk|Hk]; [rewrite bool_decide_true by done; cbn [negb]; by apply IH|].
  rewrite bool_decide_false by done. cbn [negb adds fst snd].
  destruct (sdb_disk_insert sys (key kv) (Some (x :: v)) m) as [[] m1]; [|by exists t].
  destruct (mark_ok sys D m1 t p (key kv) (Some (x :: v)) Ha HD) as (t1 & -> & Hm1); [set_solver|done|].
  destruct (IH m1 t1 (p ∪ {[key kv]})) as (t' & -> & Hm'); [set_solver|done|done|].
  exists t'. split; [done|]. intros Hr. specialize (Hm' Hr). cbn [fmap list_fmap list_to_set]. by rewrite (assoc_L (∪)).
Qed.

Lemma fresh_pairs_all l p : NoDup (key <$> l) → (∀ kv, kv ∈ l → key kv ∉ p) → fresh_pairs l p = persist_pairs l.
Proof.
  revert p. induction l as [|kv l IH]; intros p Hnd Hp; [done|]. cbn in Hnd. apply NoDup_cons in Hnd as [Hk Hnd].
  cbn [fresh_pairs persist_pairs omap list_omap]. fold (persist_pairs l).
  assert (∀ kv', kv' ∈ l → key kv' ∉ p) as Hpl by (intros ? ?; apply Hp; by right).
  destruct (persisted kv) as [v|]; cbn [fmap option_fmap option_map]; [|by apply IH].
  rewrite decide_False by (apply Hp; by left). f_equal. apply IH; [done|]. intros kv' Hin.
  assert (key kv' ≠ key kv). { intros E. apply Hk, list_elem_of_fmap. by exists kv'. } specialize (Hpl _ Hin). set_solver.
Qed.

Lemma first_value_persist l k :
  NoDup (key <$> l) → first_value (persist_pairs l) k = (map_of l : gmap bytes SdbKv) !! k ≫= persisted.
Proof.
  induction l as [|kv l IH]; intros Hnd; [done|]. cbn in Hnd. apply NoDup_cons in Hnd as [Hk Hnd].
  change (map_of (kv :: l) : gmap bytes SdbKv) with (<[key kv := kv]> (map_of l) : gmap bytes SdbKv).
  cbn [persist_pairs omap list_omap]. fold (persist_pairs l). destruct (decide (key kv = k)) as [<-|Hne].
  - rewrite lookup_insert_eq. cbn. destruct (persisted kv) as [v|] eqn:E; cbn [fmap option_fmap option_map first_value].
    + by rewrite decide_True.
    + rewrite IH by done. assert ((map_of l : gmap bytes SdbKv) !! key kv = None) as ->; [|done].
      apply not_elem_of_list_to_map_1. rewrite <- list_fmap_compose. exact Hk.
  - rewrite lookup_insert_ne by done.
    destruct (persisted kv) as [v|]; cbn [fmap option_fmap option_map first_value]; [rewrite decide_False by done|]; by apply IH.
Qed.

Lemma remove_loop n h (l : list (Kv bytes (option Z) unit)) :
  sdb_ht_inv n h →
  let h' := foreach_loop _remove_persisted l h in
  sdb_ht_inv n h' ∧ (∀ k, to_map h' !! k = if decide (k ∈ key <$> l) then None else to_map h !! k).
Proof.
  revert h. induction l as [|kv l IH]; intros h Hi; cbn [foreach_loop].
  { split; [done|]. intros k. by rewrite decide_False by (cbn; set_solver). }
  unfold _remove_persisted at 1 3. cbn [fst snd]. pose proof (sdb_ht_delete_spec n _ (key kv) Hi) as Hd. destruct (sdb_ht_delete _ (key kv)) as [r h'].
  destruct Hd as (Hi' & Hm & _). cbn [snd]. destruct (IH h' Hi') as [Hi2 Hm2]. split; [done|]. intros k. rewrite Hm2, Hm. cbn [fmap list_fmap].
  destruct (decide (k = key kv)) as [->|Hne].
  - rewrite lookup_delete_eq, (decide_True (P := key kv ∈ key kv :: _)) by (by left). by destruct (decide _).
  - rewrite lookup_delete_ne by done. destruct (decide (k ∈ key <$> l)), (decide (k ∈ key kv :: (key <$> l))); set_solver.
Qed.

Lemma remove_all n h t p :
  sdb_ht_inv n h → marks t p →
  sdb_ht_inv n (ht_foreach _remove_persisted t h)
  ∧ (∀ k, to_map (ht_foreach _remove_persisted t h) !! k = if decide (k ∈ p) then None else to_map h !! k).
Proof.
  intros Hi Hm. unfold ht_foreach. destruct (remove_loop n h (kvs t) Hi) as [Hi' Hm']. split; [done|]. intros k. rewrite Hm'.
  assert (k ∈ key <$> kvs t ↔ k ∈ p) as E; [|destruct (decide (k ∈ key <$> kvs t)), (decide (k ∈ p)); tauto].
  rewrite <- (marks_dom t p Hm). destruct Hm as [[[Hw _] _ _ _] _]. rewrite elem_of_dom, list_elem_of_fmap. unfold contents, is_Some.
  setoid_rewrite lookup_fmap_Some. split.
  - intros (kv & -> & Hin). exists (value kv), kv. split; [done|]. by apply (to_map_lookup t _ _ Hw).
  - intros (v & kv & <- & Hl). apply (to_map_lookup t _ _ Hw) in Hl as [Hin <-]. by exists kv.
Qed.

Lemma foreach_cdb_mem {U} (cb : U → bytes → option bytes → M (bool * U)) cb2 u n s :
  mem_inv n s → ∃ s', sdb_foreach_cdb cb cb2 u s = ((true, u), s') ∧ same_core s s' ∧ journal s' = journal s.
Proof.
  intros Hi. destruct (mi_disk _ _ _ Hi) as (Hfd & Hcf & Hmap). unfold sdb_foreach_cdb, sdb_dump_begin; run_m.
  cbn [foreach_cdb_loop]. unfold sdb_dump_dupnext; run_m.
  assert (∀ pos, cdb_getkvlen (db s) pos = (false, (0, 0))) as Hg by (intros pos; unfold cdb_getkvlen, cdb_read; by rewrite Hmap, Hcf).
  cbn [set_dump_pos db fd dump_pos]. rewrite Hg. cbn [negb fst snd]. eexists. split; [done|]. by split_and!.
Qed.

(** The answers of a system on which everything works. *)
Record sys_ok (sys : Sys) : Prop := {
  so_open : tmp_open_ok sys = true;
  so_fsync : fsync_ok sys = true;
  so_close : close_ok sys = true;
  so_rename : rename_ok sys = true;
  so_mmap : mmap_ok sys = true;
  so_malloc : malloc_ok (malloc sys);
  so_start : seek_start_ok sys = true;
  so_head : seek_head_ok sys = true;
  so_hp : ∀ n, hp_alloc sys n = true;
  so_ht : ∀ n, ht_alloc sys n = true
}.

(** Opening a finished file that does not look like text. *)
Lemma sdb_open_ok sys text_load s file img kvs n :
  files s !! file = Some img → sdb_text_check img = false → mmap_ok sys = true →
  image_ok kvs img → Forall pair_ok kvs → image_size kvs < 2 ^ 31 →
  mem_inv n (core s) →
  ∃ s', sdb_open sys text_load file s = (true, s') ∧ db_inv (Some kvs) n (core s')
    ∧ ht (core s') = ht (core s) ∧ journal (core s') = journal (core s) ∧ files s' = files s ∧ dir s' = Some file
    ∧ ndump s' = ndump s ∧ fdump s' = fdump s.
Proof.
  intros Hf Ht Hmm Him Hok Hsz [Hh _ Hg Hst Hent]. unfold sdb_open; run_f. rewrite Hf, Ht. unfold lift, sdb_open_file; run_m.
  cbn [set_dir core]. eexists. split; [done|]. cbn [core files dir ndump fdump]. rewrite Hmm.
  pose proof (im_size _ _ Him) as Hs. unfold image_size, CDB_FINAL in *. pose proof (slen_nonneg (records kvs)).
  destruct (cdb_init_reading (db (core s)) img) as (c & Ec & Hr & _); [lia|].
  cbn [set_db set_fd set_stamp ht fd db gp timestamped journal]. rewrite Ec. cbn [snd].
  split; [|done]. split; cbn [set_db set_fd set_stamp ht fd db gp timestamped]; [done|by exists img|done|done|done].
Qed.

Lemma disk_finish_ok sys text_load s nm d m kvs n :
  sys_ok sys → fdump s = true → ndump s = Some nm → dir s = Some d →
  cdb_make_finish (malloc sys) (seek_head_ok sys) (maker s) = Some (true, m) → image_ok kvs (fdata (mout m).2) →
  sdb_text_check (fdata (mout m).2) = false → Forall pair_ok kvs → image_size kvs < 2 ^ 31 → mem_inv n (core s) →
  ∃ s', sdb_disk_finish sys text_load s = (Some true, s') ∧ db_inv (Some kvs) n (core s')
    ∧ ht (core s') = ht (core s) ∧ files s' = <[d := fdata (mout m).2]> (delete nm (files s))
    ∧ dir s' = Some d ∧ ndump s' = None ∧ fdump s' = false.
Proof.
  intros [_ Hfs Hcl Hrn Hmm _ _ _ _ _] Hfd Hnd Hd Ef Him Htx Hok Hsz Hi. unfold sdb_disk_finish; run_f.
  rewrite Hfd, Hnd, Hd, Ef, Hfs, Hcl, Hrn. cbn [negb andb]. unfold close_current_database, lift, modify.
  cbn [set_files set_dump core dir name ndump fdump maker files]. rewrite Hd.
  match goal with |- context [sdb_open _ _ _ ?x] => set (s2 := x) end.
  destruct (sdb_open_ok sys text_load s2 d (fdata (mout m).2) kvs n) as (s3 & -> & Hi3 & Hh3 & _ & Hf3 & Hd3 & Hn3 & Hfd3);
    [by cbn; rewrite lookup_insert_eq|done..| |].
  { destruct Hi as [? ? ? ? ?]. by split. }
  eexists. split; [done|]. split_and!; [done|by rewrite Hh3| |done|by rewrite Hn3|by rewrite Hfd3].
  rewrite Hf3. subst s2. cbn [set_files set_dump files]. by rewrite delete_insert_eq.
Qed.

(** The last part: the entries written leave the table, the journal is cut. *)
Definition sync_drop (t : Ht bytes (option Z) unit) (s : SdbFs) : SdbFs :=
  ((_ ← lift (modify (λ s, set_ht (ht_foreach _remove_persisted t (ht s)) s)); lift sdb_journal_clear) s).2.

Lemma sync_drop_ok t p s kvs n :
  db_inv (Some kvs) n (core s) → marks t p →
  db_inv (Some kvs) n (core (sync_drop t s)) ∧ files (sync_drop t s) = files s ∧ dir (sync_drop t s) = dir s
  ∧ ndump (sync_drop t s) = ndump s ∧ fdump (sync_drop t s) = fdump s
  ∧ (∀ k, to_map (ht (core (sync_drop t s))) !! k = if decide (k ∈ p) then None else to_map (ht (core s)) !! k).
Proof.
  intros Hi Hm. unfold sync_drop, lift, modify, sdb_journal_clear; run_f; run_m. cbn [core].
  destruct (remove_all n (ht (core s)) t p (mi_ht _ _ _ Hi) Hm) as [Hti Htm]. set (h := ht_foreach _ _ _) in *.
  assert (db_inv (Some kvs) n (set_ht h (core s))) as Hi4.
  { apply (mem_inv_ht _ n); [done|done|]. intros k kv Hk. rewrite Htm in Hk. case_decide; [done|]. by apply (mi_entries _ _ _ Hi k). }
  destruct (journal (set_ht h (core s))) as [j|]; split_and!; try done. by eapply mem_inv_core; [|exact Hi4].
Qed.

Lemma disk_create_ok sys s d m :
  tmp_open_ok sys = true → fdump s = false → dir s = Some d →
  cdb_make_start (seek_start_ok sys) (mkFile [] 0 (room sys)) = (true, m) →
  sdb_disk_create sys s = (true, mkFs (core s) (Some d) (name s) (Some (d ++ str ".tmp")) true m (<[d ++ str ".tmp" := []]> (files s))).
Proof.
  intros Ho Hfd Hd Em. unfold sdb_disk_create; run_f. rewrite Hfd, Ho, Em. cbn [negb]. unfold set_files, set_dump, set_dir. cbn [core dir name files]. by rewrite Hd.
Qed.

(** The keys of the table, and that as many can be marked. *)
Lemma table_keys n c :
  sdb_ht_inv n (ht c) → list_to_set (key <$> kvs (ht c)) ⊆ (dom (to_map (ht c)) : gset bytes) ∧ 2 * Z.of_nat (base.size (dom (to_map (ht c)))) + 1 < 2 ^ 31.
Proof.
  intros [Hi _]. split.
  - intros k Hk%elem_of_list_to_set. apply list_elem_of_fmap in Hk as (kv & -> & Hin). apply elem_of_dom. exists kv.
    apply to_map_lookup; [apply (inv_wf _ _ Hi)|done].
  - pose proof (contents_size _ n Hi) as Hs. unfold contents in Hs. rewrite dom_fmap_L in Hs. destruct Hi as [_ _ _ Hr]. lia.
Qed.

Lemma sync_mem sys text_load n s d :
  sys_ok sys → mem_inv n (core s) → fdump s = false → dir s = Some d →
  let kvs := persist_pairs (kvs (ht (core s))) in
  Forall pair_ok kvs → image_size kvs < 2 ^ 31 → image_size kvs <= Z.of_nat (room sys) →
  (∀ img, image_ok kvs img → sdb_text_check img = false) →
  ∃ img s', sdb_sync sys text_load s = (Some true, s') ∧ image_ok kvs img
    ∧ files s' = <[d := img]> (delete (d ++ str ".tmp") (files s))
    ∧ db_inv (Some kvs) n (core s')
    ∧ (∀ k, to_map (ht (core s')) !! k = if decide (k ∈ kvs.*1) then None else to_map (ht (core s)) !! k)
    ∧ fdump s' = false ∧ ndump s' = None ∧ dir s' = Some d.
Proof.
  intros Hsys Hi Hfd Hd kvs Hok Hsz Hrm Htx. pose proof Hsys as [_ _ _ _ _ Hma Hss Hsh Hhp Hht].
  destruct (build_ok (malloc sys) (mkFile [] 0 (room sys)) kvs Hma eq_refl Hok Hsz Hrm) as (m0 & m1 & m2 & E0 & Ea & Ef & Him).
  destruct (marks_new sys Hht) as (t0 & Et & Hm0). unfold sdb_sync. rewrite Et. unfold mbind, F_bind.
  rewrite (disk_create_ok sys s d m0) by (done || apply Hsys || by rewrite Hss).
  destruct s as [c dr nm nd fdm mk fs]. cbn [core dir name ndump fdump maker files negb] in *.
  unfold getF at 1. unfold lift at 1. cbn [core dir name ndump fdump maker files].
  destruct (foreach_cdb_mem (λ u k v, mret (_insert_into_disk sys u k v)) (Some (λ u k v, mret (_mark_persisted sys u k v))) (m0, t0) n c Hi) as (c1 & -> & Hc1 & _).
  run_f. cbn [set_files set_dump set_dir core dir name ndump fdump maker files fst snd negb].
  assert (ht c1 = ht c) as Hht1 by apply Hc1. pose proof (mi_ht _ _ _ Hi) as Hti. pose proof (proj1 (inv_wf _ _ (proj1 Hti))) as Hw.
  destruct (table_keys n c Hti) as [Hks HD].
  destruct (sync_entries_adds sys _ (Ht.kvs (ht c)) m0 t0 ∅ Hht HD) as (t1 & Es & Hm1); [set_solver|done|done|].
  rewrite Hht1, Es. rewrite fresh_pairs_all in Hm1 |- * by (by apply wf_nodup_kvs || set_solver). fold kvs in Hm1 |- *.
  rewrite (adds_alloc sys _ _ Hhp), Ea in Hm1 |- *. cbn [fst snd negb] in *. specialize (Hm1 eq_refl).
  match goal with |- context [sdb_disk_finish _ _ ?x] => set (s2 := x) end.
  destruct (disk_finish_ok sys text_load s2 (d ++ str ".tmp") d m2 kvs n) as (s3 & -> & Hi3 & Hh3 & Hf3 & Hd3 & Hn3 & Hfd3);
    [done..|by rewrite Hsh|done|by apply Htx|done|done|by eapply mem_inv_core|].
  exists (fdata (mout m2).2), (sync_drop t1 s3).
  destruct (sync_drop_ok t1 _ s3 kvs n Hi3 Hm1) as (Hi4 & Hf4 & Hd4 & Hn4 & Hfd4 & Hm4).
  split_and!; [|done| |done| |by rewrite Hfd4|by rewrite Hn4|by rewrite Hd4].
  - unfold sync_drop; run_f. destruct (lift (modify _) s3) as [[] s4]. by destruct (lift sdb_journal_clear s4) as [[] s5].
  - rewrite Hf4, Hf3. subst s2. cbn [set_files set_dump files]. by rewrite delete_insert_eq.
  - intros k. rewrite Hm4, Hh3. subst s2. cbn [set_files set_dump core]. rewrite Hht1.
    destruct (decide (k ∈ (∅ ∪ list_to_set kvs.*1 : gset bytes))) as [H|H], (decide (k ∈ kvs.*1)) as [H'|H']; try done; exfalso; set_solver.
Qed.

(** ** Contents before and after *)

Lemma persist_lookup n s k :
  mem_inv n s → first_value (persist_pairs (kvs (ht s))) k = to_map (ht s) !! k ≫= persisted.
Proof.
  intros Hi. pose proof (mi_ht _ _ _ Hi) as [[[Hw _] _ _ _] _]. apply first_value_persist. by apply wf_nodup_kvs.
Qed.

Lemma first_value_key kvs k : first_value kvs k = None ↔ k ∉ kvs.*1.
Proof.
  induction kvs as [|[k' v] kvs IH]; cbn; [set_solver|]. destruct (decide (k' = k)) as [->|Hne]; [split; [done|set_solver]|].
  rewrite IH. set_solver.
Qed.

Lemma dview_after_sync n s s' k :
  mem_inv n s →
  to_map (ht s') !! k = (if decide (k ∈ (persist_pairs (kvs (ht s))).*1) then None else to_map (ht s) !! k) →
  dview (Some (persist_pairs (kvs (ht s)))) s' k = view s !! k.
Proof.
  intros Hi Hm. unfold dview. rewrite Hm, view_lookup. pose proof (persist_lookup n s k Hi) as Hf. case_decide as Hk.
  - destruct (first_value _ k) as [v|] eqn:E; [|by apply first_value_key in E].
    destruct (to_map (ht s) !! k) as [kv|]; [|done]. cbn in *. unfold persisted in Hf. by destruct (expire (ext kv) =? 0).
  - apply first_value_key in Hk. destruct (to_map (ht s) !! k) as [kv|]; done.
Qed.

(** *** The records of the file, carried over *)

Lemma getbytes_ht len s : ht (getbytes len s).2 = ht s.
Proof. unfold getbytes; run_m. by destruct (cdb_read _ _ _). Qed.

Lemma dupnext_ht s : ht (sdb_dump_dupnext s).2 = ht s.
Proof.
  unfold sdb_dump_dupnext; run_m. destruct (cdb_getkvlen _ _) as [[] [klen vlen]]; cbn [negb]; [|done].
  unfold modify. destruct (_ || _); [done|]. set (s1 := set_dump_pos _ s). change (ht s) with (ht s1).
  assert (∀ k s2, ht s2 = ht s1 → ht ((match k with
      | None => mret None
      | Some k => if vlen <? SDB_MAX_VALUE then
            v ← getbytes vlen;
            match v with None => mret None | Some v => mret (Some (cstr (k ++ [0]), Some (cstr (v ++ [0])), vlen)) end
          else mret (Some (cstr (k ++ [0]), None, vlen))
      end : M (option (bytes * option bytes * Z))) s2).2 = ht s1) as Hv.
  { intros [k|] s2 H2; [|done]. case_match; [|done]. run_m. pose proof (getbytes_ht vlen s2) as Hg.
    destruct (getbytes vlen s2) as [[v|] s3]; cbn [snd] in *; congruence. }
  destruct (_ && _); [|by apply (Hv (Some []) s1)]. pose proof (getbytes_ht klen s1) as Hg. destruct (getbytes klen s1) as [k s2]. by apply Hv.
Qed.

Lemma foreach_sync sys fuel m t p s r m' t' s' n :
  (∀ n, ht_alloc sys n = true) → sdb_ht_inv n (ht s) → p ⊆ dom (to_map (ht s)) → marks t p →
  foreach_cdb_loop fuel (λ u k v, mret (_insert_into_disk sys u k v)) (Some (λ u k v, mret (_mark_persisted sys u k v))) (m, t) s = ((r, (m', t')), s') →
  let c := carried (to_map (ht s)) (dump_items fuel s).1 p in
  ht s' = ht s ∧ (r = true → adds sys m c.1 = (true, m') ∧ marks t' c.2 ∧ c.2 ⊆ dom (to_map (ht s))).
Proof.
  intros Ha. revert m t p s. induction fuel as [|fuel IH]; intros m t p s Hi Hp Hm; cbn [foreach_cdb_loop dump_items]; run_m.
  { intros [= <- <- <- <-]. by split. }
  pose proof (dupnext_ht s) as Hh. destruct (sdb_dump_dupnext s) as [[[[k v] vl]|] s1]; cbn [snd] in Hh; [|by intros [= <- <- <- <-]; split; [done|]].
  rewrite <- Hh in Hi, Hp |- *. rewrite (sdb_ht_find_kvp_spec n) by done. destruct (table_keys n s1 Hi) as [_ HD].
  destruct (dump_items fuel s1) as [l s1'] eqn:El. cbn [fst carried]. assert (l = (dump_items fuel s1).1) as El' by (by rewrite El).
  destruct (to_map (ht s1) !! k) as [kv|] eqn:Ek.
  - destruct (value kv) as [w|]; [|rewrite El'; by apply IH]. destruct (to_map_key n _ _ _ Hi Ek) as [-> _].
    assert (p ∪ {[k]} ⊆ dom (to_map (ht s1))) as Hpk by (apply elem_of_dom_2 in Ek; set_solver).
    unfold _insert_into_disk. rewrite (marks_has m t p) by done. cbn [fst snd].
    assert (∀ m1, (let '(a, s0) := (_mark_persisted sys (m1, t) k (Some w), s1) in
        (if negb a.1 then mret (false, a.2) else foreach_cdb_loop fuel (λ u k v, mret (_insert_into_disk sys u k v)) (Some (λ u k v, mret (_mark_persisted sys u k v))) a.2) s0)
        = ((r, (m', t')), s') →
      ht s' = ht s1 ∧ (r = true → adds sys m1 (carried (to_map (ht s1)) l (p ∪ {[k]})).1 = (true, m')
        ∧ marks t' (carried (to_map (ht s1)) l (p ∪ {[k]})).2 ∧ (carried (to_map (ht s1)) l (p ∪ {[k]})).2 ⊆ dom (to_map (ht s1)))) as Hgo.
    { intros m1. destruct (mark_ok sys _ m1 t p k (Some w) Ha HD Hpk Hm) as (t1 & -> & Hm1). cbn [fst snd negb]. rewrite El'. by apply IH. }
    destruct (carried (to_map (ht s1)) l (p ∪ {[k]})) as [c1 c2]. cbn [fst snd] in *. case_bool_decide as Hk.
    + rewrite decide_True by done. cbn [fst snd negb app]. apply Hgo.
    + rewrite decide_False by done. cbn [app adds fst snd]. destruct (sdb_disk_insert sys k (Some w) m) as [[] m1]; cbn [fst snd negb]; [apply Hgo|].
      by intros [= <- <- <- <-].
  - assert (k ∉ p) as Hk by (apply not_elem_of_dom in Ek; set_solver). unfold _insert_into_disk.
    rewrite (marks_has m t p), bool_decide_false by done. cbn [fst snd]. destruct v as [v|]; [|cbn; by intros [= <- <- <- <-]].
    destruct (carried (to_map (ht s1)) l p) as [c1 c2] eqn:Ec. cbn [fmap option_fmap option_map fst snd].
    change (option_list (Some (k, v)) ++ c1) with ((k, v) :: c1). cbn [adds fst snd].
    destruct (sdb_disk_insert sys k (Some v) m) as [[] m1]; cbn [fst snd negb]; [|by intros [= <- <- <- <-]].
    intros E. specialize (IH m1 t p s1 Hi Hp Hm E). rewrite <- El', Ec in IH. exact IH.
Qed.

(** ** What the file of a sync says of a key *)

Definition sync_value (s : Sdb) (k : bytes) : option bytes :=
  match to_map (ht s) !! k with
  | Some kv => if decide (k ∈ (file_records s).*1) then value kv else persisted kv
  | None => first_value (omap (λ r, pair r.1 <$> r.2) (file_records s)) k
  end.

Lemma first_value_app a b k : first_value (a ++ b) k = match first_value a k with Some v => Some v | None => first_value b k end.
Proof. induction a as [|[k' v] a IH]; cbn [app first_value]; [done|]. by destruct (decide (k' = k)). Qed.

Lemma first_same (k v : bytes) l : first_value ((k, v) :: l) k = Some v.
Proof. cbn [first_value]. by rewrite decide_True. Qed.
Lemma first_other_cons (j k v : bytes) l : j ≠ k → first_value l k = first_value ((j, v) :: l) k.
Proof. intros H. cbn [first_value]. by rewrite decide_False. Qed.
Lemma first_other (j k v : bytes) : j ≠ k → first_value [(j, v)] k = None.
Proof. intros H. by rewrite <- first_other_cons. Qed.

Lemma carried_value t l p k :
  p ⊆ dom t →
  let c := carried t l p in
  c.2 ⊆ dom t
  ∧ first_value c.1 k = match t !! k with
      | Some kv => if decide (k ∈ p) then None else if decide (k ∈ l.*1) then value kv else None
      | None => first_value (omap (λ r, pair r.1 <$> r.2) l) k
      end
  ∧ (k ∈ c.2 ↔ k ∈ p ∨ (k ∈ l.*1 ∧ ∃ kv w, t !! k = Some kv ∧ value kv = Some w)).
Proof.
  revert p. induction l as [|[j v] l IH]; intros p Hp; cbn [carried omap list_omap fmap list_fmap fst snd].
  { split_and!; [done| |set_solver]. destruct (t !! k) as [kv|]; [|done]. destruct (decide (k ∈ p)); [done|].
    by rewrite decide_False by apply not_elem_of_nil. }
  destruct (t !! j) as [kv|] eqn:Ej.
  - destruct (value kv) as [w|] eqn:Ew.
    + destruct (IH (p ∪ {[j]})) as (Hd & Hf & Hk); [apply elem_of_dom_2 in Ej; set_solver|].
      destruct (carried t l (p ∪ {[j]})) as [c1 c2]. cbn [fst snd] in *. split_and!; [done| |].
      * rewrite first_value_app. destruct (decide (j = k)) as [->|Hne].
        -- rewrite Ej in *. rewrite (decide_True (P := k ∈ k :: _)) by (by left). rewrite (decide_True (P := k ∈ p ∪ _)) in Hf by set_solver.
           destruct (decide (k ∈ p)); cbn [first_value]; [done|]. by rewrite decide_True.
        -- assert (first_value (if decide (j ∈ p) then [] else [(j, w)]) k = None) as -> by (destruct (decide (j ∈ p)); [done|]; by apply first_other).
           rewrite Hf. destruct (t !! k) as [kv'|] eqn:Ek; [|destruct v as [v|]; [by apply (first_other_cons j k v)|done]].
           rewrite (decide_ext (k ∈ p ∪ {[j]}) (k ∈ p)) by set_solver.
           by rewrite (decide_ext (k ∈ j :: l.*1) (k ∈ l.*1)) by (rewrite elem_of_cons; naive_solver).
      * rewrite Hk. rewrite elem_of_union, elem_of_singleton, elem_of_cons. naive_solver.
    + destruct (IH p Hp) as (Hd & Hf & Hk). destruct (carried t l p) as [c1 c2]. cbn [fst snd] in *. split_and!; [done| |].
      * rewrite Hf. destruct (decide (j = k)) as [->|Hne].
        -- rewrite Ej, Ew. repeat case_decide; done.
        -- destruct (t !! k) as [kv'|] eqn:Ek; [|destruct v as [v|]; [by apply (first_other_cons j k v)|done]].
           by rewrite (decide_ext (k ∈ j :: l.*1) (k ∈ l.*1)) by (rewrite elem_of_cons; naive_solver).
      * rewrite Hk, elem_of_cons. naive_solver.
  - destruct (IH p Hp) as (Hd & Hf & Hk). destruct (carried t l p) as [c1 c2]. cbn [fst snd] in *. split_and!; [done| |].
    + rewrite first_value_app. destruct (decide (j = k)) as [->|Hne].
      * rewrite Ej in *. destruct v as [v|]; [|exact Hf]. transitivity (Some v); [|symmetry; apply first_same].
        change (option_list (pair k <$> Some v)) with [(k, v)]. by rewrite first_same.
      * assert (first_value (option_list (pair j <$> v)) k = None) as -> by (destruct v; [by apply first_other|done]).
        rewrite Hf. destruct (t !! k) as [kv'|] eqn:Ek; [|destruct v as [v|]; [by apply (first_other_cons j k v)|done]].
        by rewrite (decide_ext (k ∈ j :: l.*1) (k ∈ l.*1)) by (rewrite elem_of_cons; naive_solver).
    + rewrite Hk, elem_of_cons. split; [naive_solver|]. intros [?|[[->|?] (kv & w & ? & ?)]]; [by left|congruence|right; eauto].
Qed.

Lemma fresh_value l p k :
  NoDup (key <$> l) →
  first_value (fresh_pairs l p) k = if decide (k ∈ p) then None else (map_of l : gmap bytes SdbKv) !! k ≫= persisted.
Proof.
  revert p. induction l as [|kv l IH]; intros p Hnd; [cbn; by case_decide|]. cbn in Hnd. apply NoDup_cons in Hnd as [Hk Hnd].
  change (map_of (kv :: l) : gmap bytes SdbKv) with (<[key kv := kv]> (map_of l) : gmap bytes SdbKv).
  assert ((map_of l : gmap bytes SdbKv) !! key kv = None) as Hn.
  { apply not_elem_of_list_to_map_1. rewrite <- list_fmap_compose. exact Hk. }
  cbn [fresh_pairs]. destruct (decide (key kv = k)) as [<-|Hne].
  - rewrite lookup_insert_eq. cbn. destruct (persisted kv) as [v|] eqn:E.
    + destruct (decide (key kv ∈ p)) as [Hin|]; [by rewrite IH, decide_True|]. cbn. by rewrite decide_True.
    + rewrite IH, Hn by done. by case_decide.
  - rewrite lookup_insert_ne by done. destruct (persisted kv) as [v|]; [|by apply IH].
    destruct (decide (key kv ∈ p)); [by apply IH|]. cbn [first_value]. rewrite decide_False, IH by done.
    by rewrite (decide_ext (k ∈ p ∪ {[key kv]}) (k ∈ p)) by set_solver.
Qed.

Lemma sync_pairs_value n s k : sdb_ht_inv n (ht s) → first_value (sync_pairs s) k = sync_value s k.
Proof.
  intros [[[Hw _] _ _ _] _]. unfold sync_pairs, sync_value.
  destruct (carried_value (to_map (ht s)) (file_records s) ∅ k) as (_ & Hf & Hk); [set_solver|].
  destruct (carried _ _ ∅) as [c1 c2]. cbn [fst snd] in *. rewrite first_value_app, Hf, fresh_value by (by apply wf_nodup_kvs).
  change (map_of (kvs (ht s))) with (to_map (ht s)). destruct (to_map (ht s) !! k) as [kv|] eqn:Ek.
  - rewrite (decide_False (P := k ∈ ∅)) by set_solver. cbn [mbind option_bind]. destruct (decide (k ∈ (file_records s).*1)) as [Hin|Hout].
    + destruct (value kv) as [w|] eqn:Ew; [done|]. unfold persisted, live. rewrite Ew. destruct (decide (k ∈ c2)); [done|]. by destruct (_ =? 0).
    + rewrite decide_False; [done|]. rewrite Hk. set_solver.
  - cbn [mbind option_bind]. match goal with |- _ = ?x => transitivity (match x with Some v => Some v | None => None end); [|by destruct x] end.
    by destruct (decide (k ∈ c2)).
Qed.

Lemma file_records_mem n s : mem_inv n s → file_records s = [].
Proof.
  intros Hi. destruct (mi_disk _ _ _ Hi) as (Hfd & Hcf & Hmap). unfold file_records. cbn [dump_items]. unfold sdb_dump_begin, sdb_dump_dupnext; run_m.
  assert (∀ pos, cdb_getkvlen (db s) pos = (false, (0, 0))) as Hg by (intros pos; unfold cdb_getkvlen, cdb_read; by rewrite Hmap, Hcf).
  cbn [set_dump_pos db fd dump_pos]. by rewrite Hg.
Qed.

(** The records of a finished file are read in order, where nothing behind them looks like one more. *)
Lemma dump_items_ok img s kvs p fuel :
  reading (db s) img → Forall2 (rec_at img) (entries_of kvs p) kvs → Forall walked kvs → dump_pos s = p → (length kvs < fuel)%nat →
  (sdb_dump_dupnext (set_dump_pos (p + slen (records kvs)) s)).1 = None → (dump_items fuel s).1 = (λ kv, (kv.1, Some kv.2)) <$> kvs.
Proof.
  revert s p fuel. induction kvs as [|kv kvs IH]; intros s p fuel Hr He Hw Hp Hf Hend; (destruct fuel as [|fuel]; [cbn in Hf; lia|]); cbn [dump_items]; run_m.
  - change (slen (records [])) with 0 in Hend. rewrite Z.add_0_r in Hend. replace (set_dump_pos p s) with s in Hend by (subst p; by destruct s).
    destruct (sdb_dump_dupnext s) as [[] s']; [done|]. done.
  - cbn [entries_of] in He. apply Forall2_cons in He as [Hkv He]. apply Forall_cons in Hw as [[Hne Hk] Hw].
    rewrite (dump_next_ok s img _ kv Hr Hkv Hne Hk Hp). cbn [hp_p]. specialize (IH (set_dump_pos (p + slen (record kv)) s) (p + slen (record kv)) fuel Hr He Hw eq_refl ltac:(cbn in Hf; lia)).
    rewrite records_cons, slen_app in Hend. change (set_dump_pos ?x (set_dump_pos _ s)) with (set_dump_pos x s) in IH. rewrite Z.add_assoc in Hend. specialize (IH Hend).
    destruct (dump_items fuel _) as [l s']. cbn [fst] in IH. by subst l.
Qed.

Lemma file_records_disk n kvs s : db_inv (Some kvs) n s → Forall walked kvs → records_end kvs s → file_records s = (λ kv, (kv.1, Some kv.2)) <$> kvs.
Proof.
  intros Hi Hw He. destruct (mi_disk _ _ _ Hi) as (img & Hfd & Hr & Him & Hok). unfold file_records, sdb_dump_begin; run_m. rewrite Hfd.
  apply (dump_items_ok img _ kvs CDB_FINAL); [exact Hr|exact (image_rec_at kvs img Him Hok)|done|done| |exact He].
  unfold db_size. rewrite (rd_map _ _ Hr). pose proof (im_size _ _ Him) as Hs. unfold image_size, CDB_FINAL, slen in Hs. lia.
Qed.

Definition well_read (disk : option pairs) (s : Sdb) : Prop :=
  match disk with None => True | Some kvs => Forall walked kvs ∧ records_end kvs s end.

(** The value that a sync writes is the one that [sdb_get] finds; an unset key of the file is written with the empty value. *)
Lemma sync_value_get disk n s now k : db_inv disk n s → well_read disk s → map_Forall (λ _ kv, expire (ext kv) = 0) (to_map (ht s)) → key_ok k →
  default [] (sync_value s k) = default [] (sdb_get now (Some k) s).1.1.
Proof.
  intros Hi Hw Hl Hk. assert ((sdb_get now (Some k) s).1.1 = dview disk s k) as ->.
  { destruct disk as [kvs|]; [by destruct (get_disk now kvs n s k Hi (key_ok_u32 k Hk)) as (c & s' & -> & _)|].
    rewrite (sdb_get_mem now n s k Hi). cbn [fst]. unfold dview. rewrite view_lookup. by destruct (to_map (ht s) !! k). }
  unfold sync_value, dview. destruct (to_map (ht s) !! k) as [kv|] eqn:Ek.
  - unfold persisted. rewrite (Hl _ _ Ek). change (0 =? 0) with true. cbv iota. destruct (decide _); [|done]. unfold live. by destruct (value kv) as [[|c v]|].
  - f_equal. destruct disk as [kvs|]; [|by rewrite (file_records_mem n s Hi)]. destruct Hw as [Hw He]. rewrite (file_records_disk n kvs s Hi Hw He).
    clear. induction kvs as [|[j v] kvs IH]; [done|]. cbn [fmap list_fmap omap list_omap fst snd option_fmap option_map first_value]. by rewrite IH.
Qed.

(** ** What a file looks like from outside *)

(** Text by its first position only. *)
Definition looks_text (p : Z) : bool :=
  let '(ascii, eq, nl) := text_check_loop (cstr (ut32_pack p)) true false false in ascii && nl && eq.

Lemma text_check_image kvs img :
  image_ok kvs img → image_size kvs < 2 ^ 24 → sdb_text_check img = looks_text (CDB_FINAL + slen (records kvs)).
Proof.
  intros Him Hsz. pose proof (im_size _ _ Him) as Hs. unfold image_size, CDB_FINAL in *. pose proof (slen_nonneg (records kvs)) as Hp.
  unfold sdb_text_check, looks_text. rewrite (proj2 (Z.ltb_ge _ _)) by lia. rewrite (proj2 (Z.ltb_lt 4 _)) by lia.
  pose proof (im_head _ _ Him 0%nat ltac:(lia)) as Hh. change (take 4 (drop (4 * 0) img)) with (take 4 img) in Hh.
  assert (tables_pos kvs 0 = 1024 + slen (records kvs)) as Ht by (unfold tables_pos, table_pos; cbn; unfold CDB_FINAL; lia).
  rewrite Ht in Hh. set (p := 1024 + slen (records kvs)) in *.
  assert (cstr (take 63 img) = cstr (ut32_pack p)) as ->.
  { rewrite <- (take_drop 4 (take 63 img)), take_take. change (4 `min` 63)%nat with 4%nat. rewrite Hh. rewrite ut32_pack_bytes.
    assert (p / 16777216 = 0) as -> by (apply Z.div_small; lia). change (0 mod 256) with 0. cbn [app cstr]. by rewrite Z.eqb_refl. }
  destruct (text_check_loop _ _ _ _) as [[ascii eq] nl]. done.
Qed.

(** ** Files *)

(** The file [img] comes out of a run of the writer over [l] in which the start, every
    addition and the end reported success. *)
Definition written (sys : Sys) (l : pairs) (img : bytes) : Prop :=
  ∃ m0 m1 m2, cdb_make_start (seek_start_ok sys) (mkFile [] 0 (room sys)) = (true, m0) ∧ add_all m0 l = (true, m1)
    ∧ cdb_make_finish (malloc sys) (seek_head_ok sys) m1 = Some (true, m2) ∧ img = fdata (mout m2).2.

(** What a sync with the result [r] may do to the files, [nm] being the temporary one. *)
Definition replaced (sys : Sys) (l : pairs) (d nm : bytes) (fs : gmap bytes bytes) (r : option bool) (fs' : gmap bytes bytes) : Prop :=
  ((r ≠ Some true ∧ fs' !! d = fs !! d)
   ∨ (fsync_ok sys = true ∧ close_ok sys = true ∧ rename_ok sys = true ∧ ∃ img, fs' !! d = Some img ∧ written sys l img))
  ∧ ∀ f, f ≠ d → f ≠ nm → fs' !! f = fs !! f.

Lemma lift_same {A} (m : M A) s :
  files (lift m s).2 = files s ∧ ndump (lift m s).2 = ndump s ∧ fdump (lift m s).2 = fdump s ∧ dir (lift m s).2 = dir s.
Proof. unfold lift. by destruct (m (core s)). Qed.

Lemma open_same sys text_load file s :
  files (sdb_open sys text_load file s).2 = files s ∧ ndump (sdb_open sys text_load file s).2 = ndump s.
Proof.
  unfold sdb_open, sdb_open_text; run_f. destruct (files s !! file) as [d|]; [case_if|].
  - pose proof (lift_same (text_load d) s) as Hl. destruct (lift _ s) as [r s']. by destruct Hl as (? & ? & _).
  - by destruct (lift_same (sdb_open_file (mmap_ok sys) (mtime sys) (Some d)) (set_dir (Some file) s)) as (-> & -> & _).
  - by destruct (lift_same (sdb_open_file (mmap_ok sys) (mtime sys) None) (set_dir (Some file) s)) as (-> & -> & _).
Qed.

Lemma abort_files sys l s nm d fs r :
  ndump s = None ∨ ndump s = Some nm → nm ≠ d → replaced sys l d nm fs r (files s) →
  replaced sys l d nm fs (Some false) (files (sdb_disk_abort s).2) ∧ ndump (sdb_disk_abort s).2 = None.
Proof.
  intros Hn Hne [Hd Hf]. unfold sdb_disk_abort, putF. cbn [snd set_files files]. split; [|done].
  assert (∀ f, f ≠ nm → (match ndump s with Some n => delete n (files s) | None => files s end) !! f = files s !! f) as Hdel.
  { intros f Hfn. destruct Hn as [-> | ->]; [done|]. by rewrite lookup_delete_ne. }
  split; [|intros f ? ?; rewrite Hdel by done; by apply Hf]. rewrite Hdel by done. destruct Hd as [[_ Hd]|Hd]; [by left|by right].
Qed.

Lemma finish_files sys text_load l s nm d fs m0 :
  ndump s = Some nm → dir s = Some d → nm ≠ d → files s !! d = fs !! d → (∀ f, f ≠ d → f ≠ nm → files s !! f = fs !! f) →
  cdb_make_start (seek_start_ok sys) (mkFile [] 0 (room sys)) = (true, m0) → add_all m0 l = (true, maker s) →
  let '(r, s') := sdb_disk_finish sys text_load s in
  replaced sys l d nm fs r (files s') ∧ (ndump s' = None ∨ ndump s' = Some nm).
Proof.
  intros Hn Hd Hne Hfd Hff Hst Hadd.
  assert (∀ r, r ≠ Some true → replaced sys l d nm fs r (files s)) as Hr by (split; [by left|done]).
  unfold sdb_disk_finish; run_f. rewrite Hn, Hd. destruct (fdump s).
  2:{ destruct (abort_files sys l s nm d fs (Some false) ltac:(by right) Hne ltac:(by apply Hr)) as [Ha Hna].
      destruct (sdb_disk_abort s) as [[] s1]. split; [done|by left]. }
  destruct (cdb_make_finish (malloc sys) (seek_head_ok sys) (maker s)) as [[ret m]|] eqn:Ef; [|split; [by apply Hr|by right]].
  set (s1 := set_files _ _). assert (∀ r, r ≠ Some true → replaced sys l d nm fs r (files s1)) as Hr1.
  { cbn. split; [left; by rewrite lookup_insert_ne|]. intros f ? ?. rewrite lookup_insert_ne by done. by apply Hff. }
  destruct (ret && fsync_ok sys && close_ok sys) eqn:Eok; cbn [negb].
  2:{ destruct (abort_files sys l s1 nm d fs (Some false) ltac:(by right) Hne ltac:(by apply Hr1)) as [Ha Hna].
      destruct (sdb_disk_abort s1) as [[] s2]. split; [done|by left]. }
  unfold close_current_database. destruct (lift_same (modify (λ s, set_fd (mkCdb None None (csize (db s)) (loop (db s)) (khash (db s)) (kpos (db s))
                                   (hpos (db s)) (hslots (db s)) (dpos (db s)) (dlen (db s))) None (gp s) s)) s1) as (Hf2 & Hn2 & _).
  destruct (lift (modify _) s1) as [[] s2]. cbn [snd] in Hf2, Hn2. destruct (rename_ok sys) eqn:Er; cbn [negb].
  - set (s3 := set_files _ _). destruct (open_same sys text_load d s3) as [Hf4 Hn4]. destruct (sdb_open _ _ _ s3) as [r s4]. cbn [snd] in *.
    rewrite Hf4, Hn4. cbn [s3 set_files files set_dump ndump]. split; [|by left]. apply andb_true_iff in Eok as [Eok E3].
    apply andb_true_iff in Eok as [-> E2]. split.
    + right. split_and!; [done..|]. eexists. split; [by rewrite lookup_insert_eq|]. by exists m0, (maker s), m.
    + intros f ? ?. rewrite lookup_insert_ne, lookup_delete_ne, Hf2 by done. cbn. rewrite lookup_insert_ne by done. by apply Hff.
  - specialize (Hr1 (Some false) ltac:(done)). rewrite <- Hf2 in Hr1.
    destruct (abort_files sys l s2 nm d fs _ ltac:(right; by rewrite Hn2) Hne Hr1) as [Ha Hna].
    destruct (sdb_disk_abort s2) as [[] s3]. destruct (open_same sys text_load d s3) as [Hf4 Hn4]. destruct (sdb_open _ _ _ s3) as [r s4]. cbn [snd] in *.
    rewrite Hf4, Hn4. split; [done|by left].
Qed.

Lemma tmp_ne (d : bytes) : d ++ str ".tmp" ≠ d.
Proof. intros E%(f_equal length). rewrite length_app in E. change (length (str ".tmp")) with 4%nat in E. lia. Qed.

(** When the writer cannot be started, nothing is left behind. *)
Lemma disk_create_fails sys s d r s1 :
  dir s = Some d → sdb_disk_create sys s = (r, s1) →
  (r = true ∧ fdump s = false ∧ tmp_open_ok sys = true
   ∧ ∃ m, cdb_make_start (seek_start_ok sys) (mkFile [] 0 (room sys)) = (true, m))
  ∨ (r = false ∧ ∀ f, f ≠ d ++ str ".tmp" → files s1 !! f = files s !! f).
Proof.
  intros Hd. unfold sdb_disk_create; run_f. destruct (fdump s); [intros [= <- <-]; by right|].
  destruct (tmp_open_ok sys); cbn [negb]; [|intros [= <- <-]; by right].
  destruct (cdb_make_start _ _) as [[] m] eqn:Em; cbn [negb]; [intros [= <- _]; left; eauto|].
  intros [= <- <-]. right. split; [done|]. intros f Hf. cbn [set_files set_dump set_dir dir ndump files] in *. rewrite Hd in *. cbn [default from_option id] in *.
  by rewrite lookup_delete_ne, lookup_insert_ne.
Qed.

(** The whole of [sdb_sync], with all of its failures. *)
Lemma sync_files sys text_load n s d :
  dir s = Some d → sdb_ht_inv n (ht (core s)) → (∀ n, ht_alloc sys n = true) →
  let '(r, s') := sdb_sync sys text_load s in
  replaced sys (sync_pairs (core s)) d (d ++ str ".tmp") (files s) r (files s').
Proof.
  intros Hd Hi Ha. pose proof (tmp_ne d) as Hne. destruct (marks_new sys Ha) as (t0 & Et & Hm0). unfold sdb_sync. rewrite Et.
  unfold mbind, F_bind. destruct (sdb_disk_create sys s) as [c s1] eqn:Ec.
  destruct (disk_create_fails sys s d c s1 Hd Ec) as [(-> & Efd & Eo & m0 & Em)|[-> Hf1]]; cbn [negb].
  2:{ split; [left; split; [done|by apply Hf1]|]. intros f ? ?. by apply Hf1. }
  rewrite (disk_create_ok sys s d m0) in Ec by done. injection Ec as <-. unfold getF at 1. set (s1 := mkFs _ _ _ _ _ _ _).
  assert (∀ s2 fs r, files s2 = fs → ndump s2 = None ∨ ndump s2 = Some (d ++ str ".tmp") →
    replaced sys (sync_pairs (core s)) d (d ++ str ".tmp") (files s) r fs →
    let '(r, s') := sync_fail s2 in replaced sys (sync_pairs (core s)) d (d ++ str ".tmp") (files s) r (files s')) as Hfail.
  { intros s2 fs r <- Hn2 Hr. unfold sync_fail; run_f. destruct (abort_files sys _ s2 _ d (files s) r Hn2 Hne Hr) as [Hab _]. by destruct (sdb_disk_abort s2) as [[] s3]. }
  assert (replaced sys (sync_pairs (core s)) d (d ++ str ".tmp") (files s) (Some false) (files s1)) as Hr1.
  { cbn. split; [left; by rewrite lookup_insert_ne|]. intros f ? ?. by rewrite lookup_insert_ne. }
  unfold lift at 1.
  match goal with |- context [sdb_foreach_cdb ?f ?g ?u ?c] => destruct (sdb_foreach_cdb f g u c) as [[r [m1 t1]] c2] eqn:Ef end.
  unfold sdb_foreach_cdb in Ef. change (core s1) with (core s) in Ef.
  destruct (foreach_sync sys _ _ t0 ∅ (sdb_dump_begin (core s)).2 r m1 t1 c2 n Ha Hi ltac:(set_solver) Hm0 Ef) as [Hht Hadd].
  change (ht (sdb_dump_begin (core s)).2) with (ht (core s)) in *. change (dump_items _ _).1 with (file_records (core s)) in Hadd.
  unfold putF, getF, mret, F_ret. cbn [fst snd]. destruct r; cbn [negb]; [|by eapply Hfail; [|right|exact Hr1]].
  destruct (Hadd eq_refl) as (Hadds & Hm1 & Hsub). destruct (table_keys n (core s) Hi) as [Hks HD].
  cbn [set_dump core]. rewrite Hht. destruct (carried _ _ ∅) as [l1 p1] eqn:Ecar. cbn [fst snd] in *.
  destruct (sync_entries_adds sys _ (kvs (ht (core s))) m1 t1 p1 Ha HD Hsub Hks Hm1) as (t2 & -> & _).
  destruct (adds sys m1 (fresh_pairs (kvs (ht (core s))) p1)) as [ok m2] eqn:Ea2. cbn [fst snd].
  destruct ok; cbn [negb]; [|by eapply Hfail; [|right|exact Hr1]].
  assert (add_all m0 (sync_pairs (core s)) = (true, m2)) as Hall.
  { apply (adds_all sys). unfold sync_pairs. rewrite Ecar, adds_app. cbn [s1 maker] in Hadds. by rewrite Hadds. }
  set (s3 := set_dump _ _ _ _).
  pose proof (finish_files sys text_load (sync_pairs (core s)) s3 (d ++ str ".tmp") d (files s) m0 eq_refl eq_refl Hne) as Hfin.
  destruct (sdb_disk_finish _ _ s3) as [f s4]. destruct Hfin as [Hr4 Hn4];
    [cbn; by rewrite lookup_insert_ne|intros f0 ? ?; cbn; by rewrite lookup_insert_ne|done|done|].
  destruct f as [[]|]; [|by eapply Hfail|done].
  destruct (lift_same (modify (λ s, set_ht (ht_foreach _remove_persisted t2 (ht s)) s)) s4) as (Hf5 & _).
  destruct (lift (modify _) s4) as [[] s5]. destruct (lift_same sdb_journal_clear s5) as (Hf6 & _). destruct (lift sdb_journal_clear s5) as [? s6].
  cbn [snd] in *. by rewrite Hf6, Hf5.
Qed.

(** No expiration was set on any entry. *)
Definition lasting (s : Sdb) : Prop := map_Forall (λ _ kv, expire (ext kv) = 0) (to_map (ht s)).

Lemma lasting_persisted s k : lasting s → to_map (ht s) !! k ≫= persisted = view s !! k.
Proof.
  intros Hl. rewrite view_lookup. destruct (to_map (ht s) !! k) as [kv|] eqn:E; [|done]. cbn. unfold persisted. by rewrite (Hl _ _ E).
Qed.

(** The new process: a database that has just been made, with the files as they are. *)
Definition fresh_fs (c : Sdb) (fs : gmap bytes bytes) : SdbFs := mkFs c None None None false make_none fs.

(** A database with one entry and a system for it. *)
Definition demo_sys : Sys := mkSys true true true true true 0 5000 (λ n, Some (replicate n (mkHp 0 0))) true true (λ _, true) (λ _, true).

Lemma demo_sys_ok : sys_ok demo_sys.
Proof. split; try done. intros n. exists (replicate n (mkHp 0 0)). by rewrite length_replicate. Qed.

Lemma new0_empty c : sdb_new0 = Some c → to_map (ht c) = ∅.
Proof.
  destruct (sdb_ht_new_spec (λ _, true) 0) as (t & Et & _ & Hm & _); [done..|]. unfold sdb_new0. rewrite Et. by intros [= <-].
Qed.

Lemma demo_db :
  ∃ s, mem_inv 3 s ∧ view s = {[str "k" := str "v"]} ∧ lasting s ∧ persist_pairs (kvs (ht s)) = [(str "k", str "v")].
Proof.
  destruct (sdb_new0_ok 4) as (s & E & Hi & Hv & _); [done|].
  pose proof (set_mem_view 0 3 s (str "k") (str "v") false Hi eq_refl ltac:(split; [by repeat constructor|done])) as Hs.
  set (f s := (nonzero (sdb_set_internal 0 (Some (str "k")) (Some (str "v")) false 0) s).2) in *.
  assert ((λ s, (persist_pairs (kvs (ht (f s))), (λ kv, expire (ext kv)) <$> kvs (ht (f s)))) <$> sdb_new0
    = Some ([(str "k", str "v")], [0])) as Hp by (vm_compute; reflexivity).
  rewrite E in Hp. injection Hp as Hp He. exists (f s). unfold f in *. destruct (nonzero _ s) as [r s']. cbn [snd] in *.
  destruct Hs as (Hi' & _ & Hvw). split_and!; [done|by rewrite Hvw, Hv| |done].
  intros k kv Hk. apply (to_map_lookup _ _ _ (proj1 (inv_wf _ _ (proj1 (mi_ht _ _ _ Hi'))))) in Hk as [Hin _].
  apply (list_elem_of_fmap_2 (λ kv, expire (ext kv))) in Hin. rewrite He in Hin. by apply list_elem_of_singleton in Hin.
Qed.

(** * Properties *)

(** C1: a sync keeps the contents.  Take a database in memory (not read from a file)
    with a file name, on which no expiration was set, whose keys and values fit the file
    format (at most 254 and 16777213 characters); let the system calls and allocations
    succeed, the device have room, and the file be below 2 GB and not one that
    [sdb_text_check] takes for text (it may be: [sdb_file_taken_for_text]).  Then
    [sdb_sync] reports success; afterwards [sdb_get] answers every key as before, and so
    does a new database that [sdb_open] opens from the file left under that name. *)
Theorem sdb_sync_persists sys text_load now n s d :
  sys_ok sys → mem_inv n (core s) → lasting (core s) → fdump s = false → dir s = Some d → 2 * Z.of_nat n + 1 < 2 ^ 31 →
  let kvs := persist_pairs (kvs (ht (core s))) in
  Forall pair_ok kvs → image_size kvs < 2 ^ 31 → image_size kvs <= Z.of_nat (room sys) →
  (∀ img, image_ok kvs img → sdb_text_check img = false) →
  ∃ s' c0 s1, sdb_sync sys text_load s = (Some true, s') ∧ sdb_new0 = Some c0
    ∧ sdb_open sys text_load d (fresh_fs c0 (files s')) = (true, s1)
    ∧ ∀ j, key_ok j →
        (sdb_get now (Some j) (core s')).1.1 = (sdb_get now (Some j) (core s)).1.1
        ∧ (sdb_get now (Some j) (core s1)).1.1 = (sdb_get now (Some j) (core s)).1.1.
Proof.
  intros Hsys Hi Hl Hfd Hd Hn kvs Hok Hsz Hrm Htx.
  destruct (sync_mem sys text_load n s d Hsys Hi Hfd Hd Hok Hsz Hrm Htx) as (img & s' & E & Him & Hf & Hi' & Hm & _).
  destruct (sdb_new0_ok n Hn) as (c0 & E0 & Hi0 & Hv0 & _).
  destruct (sdb_open_ok sys text_load (fresh_fs c0 (files s')) d img kvs n) as (s1 & E1 & Hi1 & Hh1 & _);
    [cbn; by rewrite Hf, lookup_insert_eq|by apply Htx|apply Hsys|done..|].
  exists s', c0, s1. split_and!; [done..|]. intros j Hj.
  destruct (get_disk now kvs n (core s') j Hi' (key_ok_u32 j Hj)) as (c1 & s2 & -> & _).
  destruct (get_disk now kvs n (core s1) j Hi1 (key_ok_u32 j Hj)) as (c2 & s3 & -> & _).
  rewrite (sdb_get_mem now n (core s) j Hi). cbn [fst]. split; [by apply (dview_after_sync n)|].
  assert (to_map (ht (core s1)) !! j = None) as Hnone.
  { rewrite Hh1. cbn. pose proof (new0_empty c0 E0) as ->. apply lookup_empty. }
  unfold dview. rewrite Hnone, <- (lasting_persisted _ _ Hl). by apply (persist_lookup n).
Qed.

Lemma sdb_sync_persists_witness :
  ∃ s, dir s = Some (str "db") ∧ view (core s) = {[str "k" := str "v"]} ∧
  ∃ s' c0 s1, sdb_sync demo_sys (λ _, mret false) s = (Some true, s') ∧ sdb_new0 = Some c0
    ∧ sdb_open demo_sys (λ _, mret false) (str "db") (fresh_fs c0 (files s')) = (true, s1)
    ∧ ∀ j, key_ok j →
        (sdb_get 0 (Some j) (core s')).1.1 = (sdb_get 0 (Some j) (core s)).1.1
        ∧ (sdb_get 0 (Some j) (core s1)).1.1 = (sdb_get 0 (Some j) (core s)).1.1.
Proof.
  destruct demo_db as (c & Hi & Hv & Hl & Hp). exists (mkFs c (Some (str "db")) None None false make_none ∅).
  split; [done|]. split; [exact Hv|].
  apply (sdb_sync_persists demo_sys (λ _, mret false) 0 3); [exact demo_sys_ok|exact Hi|exact Hl|done|done|done|..]; cbn [core]; rewrite Hp.
  - repeat constructor; vm_compute; congruence.
  - vm_compute. congruence.
  - vm_compute. congruence.
  - intros img Him. rewrite (text_check_image _ _ Him) by (vm_compute; congruence). vm_compute. reflexivity.
Defined.

(** C10: a sync replaces the file in one step and never with part of the contents.  For
    any database whose table is in order, in memory or over a file, and whatever opening
    the temporary file, positioning, writing (the device may be full), the memory of the
    writer, [fsync], [close], the renaming and the reopening answer (only the table of
    written keys is assumed to get its memory), after [sdb_sync]:
    - either it did not report success and the file of the database is the one before,
    - or the file was flushed, closed and renamed, and it is what the writer left after a
      start, additions and an end that all reported success; the pairs added give every
      key the value that the entry of the table or, without one, the old file had, and
      when they are within the limits of the format and below 2 GB the file is the
      finished database of these pairs;
    and no file other than it and the temporary one is touched.  That value is the one
    [sdb_get] finds before the sync (the empty one for no value), for a database without
    expirations, in memory or over a finished file whose keys have 1 to 253 characters
    and whose tables do not look like one more record to [sdb_dump_dupnext]. *)
Theorem sdb_sync_atomic sys text_load n s d :
  dir s = Some d → sdb_ht_inv n (ht (core s)) → (∀ n, ht_alloc sys n = true) →
  let '(r, s') := sdb_sync sys text_load s in
  ((r ≠ Some true ∧ files s' !! d = files s !! d)
   ∨ (fsync_ok sys = true ∧ close_ok sys = true ∧ rename_ok sys = true
      ∧ ∃ kvs img, files s' !! d = Some img ∧ written sys kvs img
        ∧ (∀ k, first_value kvs k = sync_value (core s) k)
        ∧ ((∀ n mem, malloc sys n = Some mem → length mem = n) → Forall pair_ok kvs → image_size kvs < 2 ^ 31 → image_ok kvs img)))
  ∧ (∀ f, f ≠ d → f ≠ d ++ str ".tmp" → files s' !! f = files s !! f)
  ∧ (∀ disk now k, db_inv disk n (core s) → well_read disk (core s) → lasting (core s) → key_ok k →
       default [] (sync_value (core s) k) = default [] (sdb_get now (Some k) (core s)).1.1).
Proof.
  intros Hd Hi Ha. pose proof (sync_files sys text_load n s d Hd Hi Ha) as Hs.
  destruct (sdb_sync sys text_load s) as [r s']. destruct Hs as [Hs Hf]. split_and!; [|done|].
  - destruct Hs as [Hs|(H1 & H2 & H3 & img & Himg & Hw)]; [by left|right]. split_and!; [done..|].
    exists (sync_pairs (core s)), img. split_and!; [done|done|intros k; by apply (sync_pairs_value n)|].
    intros Hma Hok Hsz. destruct Hw as (m0 & m1 & m2 & E0 & E1 & E2 & ->). exact (written_ok _ _ _ (mkFile [] 0 (room sys)) _ _ _ _ Hma eq_refl Hok Hsz E0 E1 E2).
  - intros disk now k Hdi Hw Hl Hk. by apply (sync_value_get disk n).
Qed.

(** A system whose device is too small for the file. *)
Definition full_sys : Sys := mkSys true true true true true 0 1030 (λ n, Some (replicate n (mkHp 0 0))) true true (λ _, true) (λ _, true).

Lemma sdb_sync_atomic_witness :
  ∃ s, dir s = Some (str "db") ∧ view (core s) = {[str "k" := str "v"]} ∧
  let '(r, s') := sdb_sync full_sys (λ _, mret false) s in
  ((r ≠ Some true ∧ files s' !! str "db" = files s !! str "db")
   ∨ (fsync_ok full_sys = true ∧ close_ok full_sys = true ∧ rename_ok full_sys = true
      ∧ ∃ kvs img, files s' !! str "db" = Some img ∧ written full_sys kvs img
        ∧ (∀ k, first_value kvs k = sync_value (core s) k)
        ∧ ((∀ n mem, malloc full_sys n = Some mem → length mem = n) → Forall pair_ok kvs → image_size kvs < 2 ^ 31 → image_ok kvs img)))
  ∧ (∀ f, f ≠ str "db" → f ≠ str "db" ++ str ".tmp" → files s' !! f = files s !! f)
  ∧ (∀ disk now k, db_inv disk 3 (core s) → well_read disk (core s) → lasting (core s) → key_ok k →
       default [] (sync_value (core s) k) = default [] (sdb_get now (Some k) (core s)).1.1).
Proof.
  destruct demo_db as (c & Hi & Hv & _). exists (mkFs c (Some (str "db")) None None false make_none ∅).
  split; [done|]. split; [exact Hv|]. apply (sdb_sync_atomic full_sys (λ _, mret false) 3); [reflexivity|exact (mi_ht _ _ _ Hi)|reflexivity].
Defined.

(** The walk over a file does not know where the records end.  The key [ootptub] has the
    hash 0x202, and the first slot of the tables, read as a record, has a key and a value of
    two bytes, which are the position stored there: the file of two pairs is walked as three,
    and a sync writes the third one. *)
Definition walked_img : bytes :=
  match cdb_make_finish (λ n, Some (replicate n (mkHp 0 0))) true
          (add_all (cdb_make_start true (mkFile [] 0 5000)).2 [(str "z", str "1"); (str "ootptub", str "2")]).2 with
  | Some (_, c) => fdata (mout c).2
  | None => []
  end.

Theorem sdb_walk_reads_tables :
  ∃ s0 s1, sdb_new0 = Some s0 ∧ sdb_open_file true 0 (Some walked_img) s0 = (true, s1)
    ∧ file_records s1 = [(str "z", Some (str "1")); (str "ootptub", Some (str "2")); ([8; 4], Some [])]
    ∧ first_value (sync_pairs s1) [8; 4] = Some [].
Proof.
  destruct (sdb_new0_ok 1) as (s0 & E & _); [done|]. exists s0, (sdb_open_file true 0 (Some walked_img) s0).2.
  set (probe s0 := let s1 := (sdb_open_file true 0 (Some walked_img) s0).2 in
    ((sdb_open_file true 0 (Some walked_img) s0).1, file_records s1, first_value (sync_pairs s1) [8; 4])).
  assert (probe <$> sdb_new0 = Some (true, [(str "z", Some (str "1")); (str "ootptub", Some (str "2")); ([8; 4], Some [])], Some [])) as H by (vm_compute; reflexivity).
  rewrite E in H. cbn [fmap option_fmap option_map] in H. apply Some_inj in H. unfold probe in H.
  apply pair_inv in H as [H H3]. apply pair_inv in H as [H1 H2]. split; [exact E|]. split; [|exact (conj H2 H3)]. rewrite <- H1. apply surjective_pairing.
Qed.

(** A database file can look like text.  The file of one pair, a key of one
    character and a value of 1590, starts with the bytes of the position 2621, which
    are [=] and a newline: [sdb_text_check] takes every such file for text, so
    [sdb_open] does not open it as a database. *)
Theorem sdb_file_taken_for_text img :
  image_ok [(str "k", replicate 1590 97)] img → sdb_text_check img = true.
Proof.
  intros Him. rewrite (text_check_image _ _ Him); [|vm_compute; done].
  replace (CDB_FINAL + slen (records [(str "k", replicate 1590 97)])) with 2621 by (vm_compute; done). done.
Qed.

Lemma sdb_file_taken_for_text_witness :
  ∃ img, image_ok [(str "k", replicate 1590 97)] img ∧ sdb_text_check img = true.
Proof.
  destruct (build_ok (λ n, Some (replicate n (mkHp 0 0))) (mkFile [] 0 9000) [(str "k", replicate 1590 97)]) as (_ & c1 & c2 & _ & _ & _ & Him);
    [intros n; exists (replicate n (mkHp 0 0)); by rewrite length_replicate|done|repeat constructor; vm_compute; congruence|vm_compute; congruence..|].
  exists (fdata (mout c2).2). split; [exact Him|]. apply (sdb_file_taken_for_text (fdata (mout c2).2) Him).
Defined.
