(* ===== verification/Ns.v ===== *)
(** * Namespaces ([src/ns.c], with [sdb_free] of [src/sdb.c])

    Databases refer to each other through the entries of their namespace lists, with a
    count of references on each database; nothing keeps the references from being shared
    or from forming cycles.  The databases and the entries are therefore in two heaps.
    An access to what is not allocated is a fault, and so is freeing it twice; the
    recursive functions take a bound on their depth, and running out of it is a result
    of its own.  Memory allocation succeeds. *)

From S2P Require Import Prelude Util Ht HashTables Buffer CdbMake CdbTables Cdb SdbCore.

Abbreviation id := positive.

(** [sdb] is the part of [Sdb] the database itself works on, the count included; [ns] is
    NULL or the list of the entries, given by their addresses. *)
Record Node := mkNode {
  sdb : Sdb;
  s_dir : option bytes;
  s_path : option bytes;
  s_name : option bytes;
  ns_lock : Z;
  ns : option (list id)
}.

Record SdbNs := mkNs { ns_name : option bytes; ns_hash : Z; ns_sdb : option id }.

Record World := mkWorld { dbs : gmap id Node; nss : gmap id SdbNs }.

Inductive res (A : Type) := Ok (a : A) (w : World) | Fault | NoFuel.
Arguments Ok {A} _ _.
Arguments Fault {A}.
Arguments NoFuel {A}.

Definition W (A : Type) : Type := World → res A.
#[export] Instance W_ret : MRet W := λ A a w, Ok a w.
#[export] Instance W_bind : MBind W := λ A B k m w, match m w with Ok a w => k a w | Fault => Fault | NoFuel => NoFuel end.

Definition no_fuel {A} : W A := λ _, NoFuel.
Definition load_db (i : id) : W Node := λ w, match dbs w !! i with Some n => Ok n w | None => Fault end.
Definition load_ns (e : id) : W SdbNs := λ w, match nss w !! e with Some x => Ok x w | None => Fault end.
Definition alter_db (i : id) (f : Node → Node) : W unit := λ w,
  match dbs w !! i with Some n => Ok () (mkWorld (<[i := f n]> (dbs w)) (nss w)) | None => Fault end.
Definition store_ns (e : id) (x : SdbNs) : W unit := λ w,
  match nss w !! e with Some _ => Ok () (mkWorld (dbs w) (<[e := x]> (nss w))) | None => Fault end.
Definition new_db (n : Node) : W id := λ w, let i := fresh (dom (dbs w)) in Ok i (mkWorld (<[i := n]> (dbs w)) (nss w)).
Definition new_ns (x : SdbNs) : W id := λ w, let e := fresh (dom (nss w)) in Ok e (mkWorld (dbs w) (<[e := x]> (nss w))).
Definition free_db (i : id) : W unit := λ w,
  match dbs w !! i with Some _ => Ok () (mkWorld (delete i (dbs w)) (nss w)) | None => Fault end.
Definition free_ns (e : id) : W unit := λ w,
  match nss w !! e with Some _ => Ok () (mkWorld (dbs w) (delete e (nss w))) | None => Fault end.

Definition set_refs (r : Z) (n : Node) : Node :=
  mkNode (set_depth (depth (sdb n)) r (sdb n)) (s_dir n) (s_path n) (s_name n) (ns_lock n) (ns n).
Definition set_ns (l : option (list id)) (n : Node) : Node := mkNode (sdb n) (s_dir n) (s_path n) (s_name n) (ns_lock n) l.
Definition set_ns_lock (k : Z) (n : Node) : Node := mkNode (sdb n) (s_dir n) (s_path n) (s_name n) k (ns n).
Definition set_sdb (s : Sdb) (n : Node) : Node := mkNode s (s_dir n) (s_path n) (s_name n) (ns_lock n) (ns n).

(** [ls_foreach] over the list of a database; the walks of the code do not change the
    cells they have still to visit. *)
Fixpoint foreach {A S} (f : A → S → W S) (l : list A) (s : S) : W S :=
  match l with
  | [] => mret s
  | a :: l' => s ← f a s; foreach f l' s
  end.

Definition entries (n : Node) : list id := default [] (ns n).

(** [sdb_new0] *)
Definition sdb_new_db : W (option id) :=
  match sdb_new0 with
  | None => mret None
  | Some d => i ← new_db (mkNode d None None None 0 (Some [])); mret (Some i)
  end.

(** ** Locking *)

Fixpoint sdb_ns_lock (fuel : nat) (s : option id) (lock depth : Z) : W unit :=
  match fuel, s with
  | O, _ => no_fuel
  | _, None => mret ()
  | S fuel', Some i =>
      _ ← alter_db i (set_ns_lock lock);
      if depth =? 0 then mret ()
      else
        n ← load_db i;
        foreach (λ e _, x ← load_ns e; sdb_ns_lock fuel' (ns_sdb x) lock (depth - 1)) (entries n) ()
  end.

(** ** Freeing *)

(** The list of what was visited holds databases and entries. *)
Definition in_list (seen : list (id + id)) (item : id + id) : bool := bool_decide (item ∈ seen).

(** [ls_delete (s->ns, it)] *)
Definition ns_delete (s e : id) : W unit :=
  n ← load_db s;
  match ns n with Some l => alter_db s (set_ns (Some (filter (λ e', e' ≠ e) l))) | None => λ _, Fault end.

(** Dropping a child: its count is forced to 1 before it is freed. *)
Definition force_free (sdb_free : option id → W bool) (child : id) : W unit :=
  c ← load_db child;
  _ ← (if 1 <? refs (sdb c) then alter_db child (set_refs 1) else mret ());
  _ ← sdb_free (Some child); mret ().

(** The body of the loop of [ns_free], for the entry [e] of [s]. *)
Definition ns_free_entry (ns_free : option id → list (id + id) → W (list (id + id))) (sdb_free : option id → W bool)
    (s e : id) (seen : list (id + id)) : W (list (id + id)) :=
  seen ←
    (if negb (in_list seen (inr e)) then
       _ ← ns_delete s e;
       let seen := seen ++ [inr e] in
       x ← load_ns e;
       seen ← match ns_sdb x with
              | None => mret seen
              | Some child =>
                  _ ← store_ns e (mkNs (ns_name x) (ns_hash x) None);
                  if in_list seen (inl child) then mret seen
                  else
                    seen ← ns_free (Some child) (seen ++ [inl child]);
                    _ ← force_free sdb_free child; mret seen
              end;
       x ← load_ns e; _ ← store_ns e (mkNs None (ns_hash x) (ns_sdb x)); mret seen
     else
       x ← load_ns e;
       _ ← store_ns e (mkNs (ns_name x) (ns_hash x) None);
       seen ← match ns_sdb x with
              | None => mret seen
              | Some child =>
                  if in_list seen (inl child) then mret seen
                  else _ ← force_free sdb_free child; mret (seen ++ [inl child])
              end;
       _ ← ns_delete s e; x ← load_ns e; _ ← store_ns e (mkNs None (ns_hash x) (ns_sdb x)); mret seen);
  _ ← free_ns e; mret seen.

(** [sdb_free] reaches [ns_free] through [sdb_fini] and [sdb_ns_free]; what else
    [sdb_fini] releases belongs to the database alone. *)
Fixpoint ns_free (fuel : nat) (s : option id) (seen : list (id + id)) : W (list (id + id)) :=
  match fuel, s with
  | O, _ => no_fuel
  | _, None => mret seen
  | S fuel', Some i =>
      if in_list seen (inl i) then mret seen
      else
        n ← load_db i;
        seen ← foreach (ns_free_entry (ns_free fuel') (sdb_free_db fuel') i) (entries n) (seen ++ [inl i]);
        _ ← alter_db i (set_ns None); mret seen
  end
with sdb_free_db (fuel : nat) (s : option id) : W bool :=
  match fuel, s with
  | O, _ => no_fuel
  | _, None => mret false
  | S fuel', Some i =>
      n ← load_db i;
      if refs (sdb n) =? 0 then mret false
      else
        _ ← alter_db i (set_refs (refs (sdb n) - 1));
        if refs (sdb n) - 1 <? 1 then
          _ ← alter_db i (set_refs 0);
          _ ← ns_free fuel' (Some i) [];
          _ ← alter_db i (set_ns None);
          _ ← free_db i; mret true
        else mret false
  end.

Definition sdb_ns_free (fuel : nat) (s : option id) : W unit :=
  match s with
  | None => mret ()
  | Some i => _ ← ns_free fuel s []; alter_db i (set_ns None)
  end.

(** ** Dropping references *)

Definition ns_reset_entry (sdb_ns_reset : option id → W unit) (sdb_free : option id → W bool) (e : id) (_ : unit) : W unit :=
  x ← load_ns e;
  _ ← match ns_sdb x with
      | None => mret ()
      | Some c =>
          n ← load_db c;
          if 1 <? refs (sdb n) then alter_db c (set_refs (refs (sdb n) - 1))
          else if refs (sdb n) =? 1 then _ ← sdb_ns_reset (Some c); _ ← sdb_free (Some c); mret ()
          else mret ()
      end;
  free_ns e.

Fixpoint sdb_ns_reset (fuel : nat) (s : option id) : W unit :=
  match fuel, s with
  | O, _ => no_fuel
  | _, None => mret ()
  | S fuel', Some i =>
      n ← load_db i;
      match ns n with
      | None => mret ()
      | Some l =>
          _ ← foreach (ns_reset_entry (sdb_ns_reset fuel') (sdb_free_db fuel')) l ();
          alter_db i (set_ns None)
      end
  end.

(** ** Creating and finding *)

Definition sdb_ns_new (s : id) (name : bytes) (hash : Z) : W (option id) :=
  n ← load_db s;
  let sd := default [] (s_dir n) in
  let named := negb (hd0 sd =? 0) && negb (hd0 name =? 0) in
  if named && (SDB_MAX_PATH <? slen sd + slen name + 3) then mret None
  else
    let dir := if named then Some (sd ++ [chr "."] ++ name) else None in
    o ← sdb_new_db;
    match o with
    | None => mret None
    | Some c =>
        _ ← alter_db c (λ n, mkNode (sdb n) (s_dir n) dir (if hd0 name =? 0 then None else Some name) (ns_lock n) (ns n));
        e ← new_ns (mkNs (Some name) hash (Some c)); mret (Some e)
    end.

(** [ls_append (s->ns, ns)], which does nothing without a list. *)
Definition ns_append (s e : id) : W unit := alter_db s (λ n, set_ns ((λ l, l ++ [e]) <$> ns n) n).

(** The first entry that satisfies a test, with its address. *)
Fixpoint find_ns (f : SdbNs → bool) (l : list id) : W (option (id * SdbNs)) :=
  match l with
  | [] => mret None
  | e :: l' => x ← load_ns e; if f x then mret (Some (e, x)) else find_ns f l'
  end.

Definition has_hash (hash : Z) (x : SdbNs) : bool := ns_hash x =? hash.

Definition sdb_ns (s : option id) (name : bytes) (create : bool) : W (option id) :=
  match s with
  | None => mret None
  | Some i =>
      if hd0 name =? 0 then mret None
      else
        let hash := sdb_hash name in
        n ← load_db i;
        o ← find_ns (has_hash hash) (entries n);
        match o with
        | Some (_, x) => mret (ns_sdb x)
        | None =>
            if negb create || negb (ns_lock n =? 0) then mret None
            else
              o ← sdb_ns_new i name hash;
              match o with
              | None => mret None
              | Some e => _ ← ns_append i e; x ← load_ns e; mret (ns_sdb x)
              end
        end
  end.

(** The loop of [sdb_ns_path]: each round takes the text up to the next slash. *)
Fixpoint ns_path_loop (fuel : nat) (s : option id) (ptr : bytes) (create : bool) : W (option id) :=
  match fuel with
  | O => no_fuel
  | S fuel' =>
      match strchr ptr (chr "/") with
      | Some slash =>
          s ← sdb_ns s (take (length ptr - length slash) ptr) create;
          match s with None => mret None | Some _ => ns_path_loop fuel' s (tail slash) create end
      | None => sdb_ns s ptr create
      end
  end.

Definition sdb_ns_path (s : option id) (path : bytes) (create : bool) : W (option id) :=
  match s with
  | None => mret s
  | Some _ => if hd0 path =? 0 then mret s else ns_path_loop (S (length path)) s path create
  end.

(** ** Setting and removing *)

Definition sdb_ns_set (fuel : nat) (s : option id) (name : bytes) (r : option id) : W bool :=
  let hash := sdb_hash name in
  match s, r with
  | Some i, Some r =>
      n ← load_db i;
      o ← find_ns (has_hash hash) (entries n);
      match o with
      | Some (e, x) =>
          if bool_decide (ns_sdb x = Some r) then mret false
          else
            _ ← sdb_free_db fuel (ns_sdb x);
            _ ← alter_db r (λ n, set_refs (refs (sdb n) + 1) n);
            x ← load_ns e;
            _ ← store_ns e (mkNs (ns_name x) (ns_hash x) (Some r)); mret true
      | None =>
          if negb (ns_lock n =? 0) then mret false
          else
            e ← new_ns (mkNs (Some name) hash (Some r));
            _ ← alter_db r (λ n, set_refs (refs (sdb n) + 1) n);
            _ ← ns_append i e; mret true
      end
  | _, _ => mret false
  end.

Definition is_entry (name : option bytes) (r : option id) (x : SdbNs) : bool :=
  match name with Some nm => bool_decide (ns_name x = Some nm) | None => false end
  || match r with Some _ => bool_decide (ns_sdb x = r) | None => false end.

Definition sdb_ns_unset (fuel : nat) (s : option id) (name : option bytes) (r : option id) : W bool :=
  match s with
  | None => mret false
  | Some i =>
      match name, r with
      | None, None => mret false
      | _, _ =>
          n ← load_db i;
          o ← find_ns (is_entry name r) (entries n);
          match o with
          | None => mret false
          | Some (e, x) =>
              _ ← ns_delete i e;
              _ ← match ns_sdb x with
                  | None => mret ()
                  | Some c => cn ← load_db c; if refs (sdb cn) =? 1 then sdb_ns_reset fuel (Some c) else mret ()
                  end;
              _ ← sdb_free_db fuel (ns_sdb x);
              _ ← free_ns e; mret true
          end
      end
  end.

(** ** Saving *)

(** [sync calls s] is the result of [sdb_sync] on [s] after the calls before it (it does
    not touch namespaces, and may answer differently each time); the third part of the
    state is the sequence of its calls. *)
Definition sync_state : Type := bool * list id * list id.

Definition sdb_sync_call (sync : list id → id → bool) (s : id) (st : sync_state) : sync_state :=
  (st.1.1 && sync st.2 s, st.1.2, st.2 ++ [s]).

Fixpoint ns_sync (sync : list id → id → bool) (fuel : nat) (s : id) (st : sync_state) : W sync_state :=
  match fuel with
  | O => no_fuel
  | S fuel' =>
      n ← load_db s;
      st ← foreach (λ e st,
             if bool_decide (e ∈ st.1.2) then mret st
             else
               x ← load_ns e;
               match ns_sdb x with
               | None => λ _, Fault
               | Some c => st ← ns_sync sync fuel' c (st.1.1, st.1.2 ++ [e], st.2); mret (sdb_sync_call sync c st)
               end) (entries n) st;
      mret (sdb_sync_call sync s st)
  end.

Definition sdb_ns_sync (sync : list id → id → bool) (fuel : nat) (s : option id) : W (bool * list id) :=
  match s with
  | None => mret (false, [])
  | Some i => st ← ns_sync sync fuel i (true, [], []); mret (st.1.1, st.2)
  end.
