(* ===== verification/NsRefs.v ===== *)
(** * Reference counts of namespaces

    Every operation on namespaces that does not force a free keeps the counts exact: the
    count of a database is the number of entries that refer to it and of references that
    callers hold.  The invariant allows for what the functions have in hand: [stk] gives
    the entries that are left of the lists being walked, and an entry that is being
    removed is no longer among [v] but counts as a reference held. *)

From S2P Require Import Prelude Util Ht HashTables Buffer CdbMake CdbTables Cdb SdbCore Ns.

Implicit Types (ext : id → Z) (stk : gmap id (list id)) (v h : gmap id SdbNs) (d : gmap id Node).

Definition points_to (c : id) (p : id * SdbNs) : Prop := ns_sdb p.2 = Some c.
#[export] Instance points_to_dec c p : Decision (points_to c p).
Proof. unfold points_to. apply _. Defined.

Definition ptrs v (c : id) : nat := base.size (filter (points_to c) v).

Definition owned stk d (i : id) : list id :=
  match stk !! i with
  | Some l => l
  | None => match d !! i with Some n => entries n | None => [] end
  end.

Definition bump (c : id) ext : id → Z := λ i, if bool_decide (i = c) then ext i + 1 else ext i.

Record inv ext stk v d : Prop := {
  inv_own e : is_Some (v !! e) ↔ ∃ i, e ∈ owned stk d i;
  inv_once i j e : e ∈ owned stk d i → e ∈ owned stk d j → i = j;
  inv_nodup i : NoDup (owned stk d i);
  inv_target e x : v !! e = Some x → ∃ c, ns_sdb x = Some c ∧ is_Some (d !! c);
  inv_refs c n : d !! c = Some n → refs (sdb n) = ext c + Z.of_nat (ptrs v c) ∧ 1 <= refs (sdb n);
  inv_ext c : 0 <= ext c ∧ (0 < ext c → is_Some (d !! c));
  inv_hash e x : v !! e = Some x → ∃ nm, ns_name x = Some nm ∧ ns_hash x = sdb_hash nm;
  inv_distinct i e e' x x' :
    e ∈ owned stk d i → e' ∈ owned stk d i → v !! e = Some x → v !! e' = Some x' → ns_hash x = ns_hash x' → e = e'
}.

(** ** Counting *)

Lemma ptrs_delete v e x c c' :
  v !! e = Some x → ns_sdb x = Some c → ptrs v c' = ((if bool_decide (c' = c) then 1 else 0) + ptrs (delete e v) c')%nat.
Proof.
  intros He Hc. unfold ptrs. rewrite map_filter_delete. case_bool_decide as E.
  - subst c'. rewrite map_size_delete_Some; [|eexists; by apply map_lookup_filter_Some_2].
    assert (filter (points_to c) v !! e = Some x) as Hf by (by apply map_lookup_filter_Some_2).
    assert (base.size (filter (points_to c) v) ≠ 0)%nat; [|lia]. intros Hz%map_size_empty_inv. by rewrite Hz in Hf.
  - rewrite delete_id; [done|]. apply map_lookup_filter_None_2. right. intros x' Hx'. unfold points_to. cbn. congruence.
Qed.

Lemma ptrs_insert v e x c c' :
  v !! e = None → ns_sdb x = Some c → ptrs (<[e := x]> v) c' = ((if bool_decide (c' = c) then 1 else 0) + ptrs v c')%nat.
Proof. intros He Hc. rewrite (ptrs_delete _ e x c) by (by rewrite ?lookup_insert_eq). by rewrite delete_insert_id. Qed.

Lemma ptrs_subseteq v v' c : v' ⊆ v → ptrs v c = 0%nat → ptrs v' c = 0%nat.
Proof.
  unfold ptrs. intros Hs Hz%map_size_empty_inv. apply map_size_empty_iff. apply map_empty. intros e. apply map_lookup_filter_None_2.
  right. intros x Hx Hp. assert (filter (points_to c) v !! e = Some x) as Hf; [|by rewrite Hz in Hf].
  apply map_lookup_filter_Some_2; [by eapply lookup_weaken|done].
Qed.

Lemma ptrs_0 v c e x : ptrs v c = 0%nat → v !! e = Some x → ns_sdb x ≠ Some c.
Proof. intros Hz He Hc. rewrite (ptrs_delete v e x c c He Hc) in Hz. rewrite bool_decide_true in Hz by done. lia. Qed.

Lemma bump_eq c ext : bump c ext c = ext c + 1.
Proof. unfold bump. by rewrite bool_decide_true. Qed.

Lemma bump_ne c ext i : i ≠ c → bump c ext i = ext i.
Proof. intros. unfold bump. by rewrite bool_decide_false. Qed.

(** ** Steps of the invariant *)

Lemma owned_insert_eq stk d i l : owned (<[i := l]> stk) d i = l.
Proof. unfold owned. by rewrite lookup_insert_eq. Qed.

Lemma owned_insert_ne stk d i l j : j ≠ i → owned (<[i := l]> stk) d j = owned stk d j.
Proof. intros. unfold owned. by rewrite lookup_insert_ne. Qed.

(** What the ownership says depends only on the lists. *)
Lemma inv_relist ext ext' stk stk' v d d' :
  inv ext stk v d → (∀ i, owned stk' d' i = owned stk d i) →
  (∀ e x c, v !! e = Some x → ns_sdb x = Some c → is_Some (d !! c) → is_Some (d' !! c)) →
  (∀ c n, d' !! c = Some n → refs (sdb n) = ext' c + Z.of_nat (ptrs v c) ∧ 1 <= refs (sdb n)) →
  (∀ c, 0 <= ext' c ∧ (0 < ext' c → is_Some (d' !! c))) → inv ext' stk' v d'.
Proof.
  intros [H1 H2 H3 H4 H5 H6 H7 H8] Ho Hl Hr He. split; [| | | |done..|].
  - intros e. rewrite H1. by setoid_rewrite Ho.
  - intros i j e. rewrite !Ho. apply H2.
  - intros i. rewrite Ho. apply H3.
  - intros e x Hx. destruct (H4 e x Hx) as (c & Hc & Hlc). eauto.
  - intros i e e' x x'. rewrite !Ho. apply H8.
Qed.

(** Changing a database in a way that its list does not show. *)
Lemma owned_set stk d c n n' i : d !! c = Some n → entries n' = entries n → owned stk (<[c := n']> d) i = owned stk d i.
Proof.
  intros Hn He. unfold owned. destruct (stk !! i); [done|].
  destruct (decide (i = c)) as [->|]; [by rewrite lookup_insert_eq, Hn|by rewrite lookup_insert_ne].
Qed.

Lemma insert_live d c n n' i : d !! c = Some n → is_Some (<[c := n']> d !! i) ↔ is_Some (d !! i).
Proof. intros Hn. rewrite lookup_insert_is_Some'. split; [intros [<-|]; [eauto|done]|auto]. Qed.

(** An entry leaves its list and its reference is held by the function. *)
Lemma inv_hide ext stk v d i l1 e l2 x c :
  inv ext (<[i := l1 ++ e :: l2]> stk) v d → v !! e = Some x → ns_sdb x = Some c →
  inv (bump c ext) (<[i := l1 ++ l2]> stk) (delete e v) d.
Proof.
  intros [H1 H2 H3 H4 H5 H6 H7 H8] He Hc.
  assert (∀ j e', e' ∈ owned (<[i := l1 ++ l2]> stk) d j → e' ≠ e ∧ e' ∈ owned (<[i := l1 ++ e :: l2]> stk) d j) as Hsub.
  { intros j e' Hin. pose proof (H3 i) as Hnd. rewrite owned_insert_eq in Hnd. destruct (decide (j = i)) as [->|Hj].
    - rewrite owned_insert_eq in *. apply NoDup_app in Hnd as (_ & Hd1 & Hnd). apply NoDup_cons in Hnd as [Hd2 _].
      split; [intros ->|]; [|set_solver]. apply elem_of_app in Hin as [Hin|Hin]; [|done]. apply (Hd1 e Hin). by left.
    - rewrite owned_insert_ne in * by done. split; [intros ->|done]. apply Hj. apply (H2 j i e); [by rewrite owned_insert_ne|].
      rewrite owned_insert_eq. set_solver. }
  split.
  - intros e'. rewrite lookup_delete_is_Some, H1. split.
    + intros [Hne [j Hj]]. exists j. destruct (decide (j = i)) as [->|]; [|by rewrite owned_insert_ne in *].
      rewrite owned_insert_eq in *. set_solver.
    + intros [j [Hne Hj]%Hsub]. eauto.
  - intros j k e' [_ Hj]%Hsub [_ Hk]%Hsub. by apply (H2 j k e').
  - intros j. specialize (H3 j). destruct (decide (j = i)) as [->|]; [|by rewrite owned_insert_ne in *]. rewrite owned_insert_eq in *.
    apply NoDup_app in H3 as (? & ? & [_ ?]%NoDup_cons). apply NoDup_app. set_solver.
  - intros e' x' [_ Hx]%lookup_delete_Some. eauto.
  - intros c' n Hn. destruct (H5 c' n Hn) as [Hr Hr1]. split; [|done]. rewrite Hr, (ptrs_delete v e x c c') by done.
    unfold bump. case_bool_decide; lia.
  - intros c'. destruct (H6 c') as [Hx Hl]. unfold bump. case_bool_decide as E; [|done]. subst c'. split; [lia|]. intros _.
    destruct (H4 e x He) as (c0 & ? & ?). congruence.
  - intros e' x' [_ Hx]%lookup_delete_Some. eauto.
  - intros j e1 e2 x1 x2 [_ Hj]%Hsub [_ Hk]%Hsub [_ ?]%lookup_delete_Some [_ ?]%lookup_delete_Some. by eapply (H8 j).
Qed.

(** A held reference that is not the last one is given back. *)
Lemma inv_unref ext stk v d c n :
  inv (bump c ext) stk v d → 0 <= ext c → d !! c = Some n → 1 < refs (sdb n) →
  inv ext stk v (<[c := set_refs (refs (sdb n) - 1) n]> d).
Proof.
  intros Hi Hc Hn Hr. eapply inv_relist; [exact Hi|by intros; eapply owned_set| | |].
  - intros e x c' _ _. by rewrite insert_live.
  - intros c' n' [[<- <-]|[Hne Hn']]%lookup_insert_Some; pose proof (inv_refs _ _ _ _ Hi) as H5.
    + specialize (H5 c n Hn). rewrite bump_eq in H5. cbn. lia.
    + specialize (H5 c' n' Hn'). by rewrite bump_ne in H5.
  - intros c'. rewrite insert_live by done. pose proof (inv_ext _ _ _ _ Hi c') as H6. destruct (decide (c' = c)) as [->|Hne]; [split; eauto|].
    by rewrite bump_ne in H6.
Qed.

(** The last reference is given back and the database is released. *)
Lemma inv_release ext stk v d c n :
  inv (bump c ext) stk v d → ext c = 0 → d !! c = Some n → ptrs v c = 0%nat → owned stk d c = [] → stk !! c = None →
  inv ext stk v (delete c d).
Proof.
  intros Hi Hc Hn Hp Hoc Hs. eapply inv_relist; [exact Hi| | | |].
  - intros i. destruct (decide (i = c)) as [->|]; [rewrite Hoc; unfold owned; by rewrite Hs, lookup_delete_eq|].
    unfold owned. destruct (stk !! i); [done|]. by rewrite lookup_delete_ne.
  - intros e x c' He Hc' Hl. rewrite lookup_delete_is_Some. split; [|done]. intros <-. by eapply ptrs_0.
  - intros c' n' [Hne Hn']%lookup_delete_Some. pose proof (inv_refs _ _ _ _ Hi c' n' Hn') as H5. by rewrite bump_ne in H5.
  - intros c'. pose proof (inv_ext _ _ _ _ Hi c') as H6. destruct (decide (c' = c)) as [->|Hne]; [lia|]. rewrite bump_ne in H6 by done.
    by rewrite lookup_delete_ne.
Qed.

(** ** Running *)

Lemma bind_ok {A B} (m : W A) (k : A → W B) w a w' : m w = Ok a w' → (m ≫= k) w = k a w'.
Proof. intros E. unfold mbind, W_bind. by rewrite E. Qed.

Lemma load_db_ok d m i n : d !! i = Some n → load_db i (mkWorld d m) = Ok n (mkWorld d m).
Proof. intros E. unfold load_db. cbn. by rewrite E. Qed.

Lemma load_ns_ok d m e x : m !! e = Some x → load_ns e (mkWorld d m) = Ok x (mkWorld d m).
Proof. intros E. unfold load_ns. cbn. by rewrite E. Qed.

Lemma alter_db_ok d m i n f : d !! i = Some n → alter_db i f (mkWorld d m) = Ok () (mkWorld (<[i := f n]> d) m).
Proof. intros E. unfold alter_db. cbn. by rewrite E. Qed.

Lemma free_ns_ok d m e x : m !! e = Some x → free_ns e (mkWorld d m) = Ok () (mkWorld d (delete e m)).
Proof. intros E. unfold free_ns. cbn. by rewrite E. Qed.

Lemma free_db_ok d m i n : d !! i = Some n → free_db i (mkWorld d m) = Ok () (mkWorld (delete i d) m).
Proof. intros E. unfold free_db. cbn. by rewrite E. Qed.

Ltac wstep E := erewrite bind_ok by (apply E; first [eassumption | reflexivity]).

Lemma free_more f d m c n :
  d !! c = Some n → 1 < refs (sdb n) →
  sdb_free_db (S f) (Some c) (mkWorld d m) = Ok false (mkWorld (<[c := set_refs (refs (sdb n) - 1) n]> d) m).
Proof.
  intros Hn Hr. cbn [sdb_free_db]. wstep load_db_ok. rewrite (proj2 (Z.eqb_neq _ _)) by lia. wstep alter_db_ok.
  by rewrite (proj2 (Z.ltb_ge _ _)) by lia.
Qed.

Lemma free_last f d m c n :
  d !! c = Some n → refs (sdb n) = 1 → entries n = [] →
  sdb_free_db (S (S f)) (Some c) (mkWorld d m) = Ok true (mkWorld (delete c d) m).
Proof.
  intros Hn Hr He.
  assert (∀ n', entries n' = [] → ns_free (S f) (Some c) [] (mkWorld (<[c := n']> d) m) = Ok [inl c] (mkWorld (<[c := set_ns None n']> d) m)) as E.
  { intros n' He'. cbn [ns_free]. change (in_list [] (inl c)) with false. cbn iota. erewrite bind_ok by (apply load_db_ok, lookup_insert_eq).
    rewrite He'. cbn [foreach]. erewrite bind_ok by reflexivity. erewrite bind_ok by (apply alter_db_ok, lookup_insert_eq). by rewrite insert_insert_eq. }
  remember (S f) as f'. cbn [sdb_free_db]. wstep load_db_ok. rewrite Hr. change (1 =? 0) with false. change (1 - 1 <? 1) with true. cbn iota.
  wstep alter_db_ok. erewrite bind_ok by (apply alter_db_ok, lookup_insert_eq). rewrite insert_insert_eq.
  rewrite (bind_ok _ _ _ _ _ (E (set_refs 0 (set_refs (1 - 1) n)) He)). erewrite bind_ok by (apply alter_db_ok, lookup_insert_eq).
  erewrite bind_ok by (eapply free_db_ok, lookup_insert_eq). by rewrite !delete_insert_eq.
Qed.

(** The lists being walked belong to databases that someone holds. *)
Definition stack_ok ext stk : Prop := ∀ i, is_Some (stk !! i) → 1 <= ext i.

Lemma stack_size ext stk v d i : inv ext stk v d → stack_ok ext stk → stk !! i = None → is_Some (d !! i) → (base.size stk < base.size d)%nat.
Proof.
  intros Hi Hs Hn Hl. rewrite <- !size_dom. apply subset_size. split; [|].
  - intros j Hj%elem_of_dom. apply elem_of_dom. apply (inv_ext _ _ _ _ Hi j). specialize (Hs j Hj). lia.
  - intros Hsub. apply elem_of_dom, Hsub, elem_of_dom in Hl. rewrite Hn in Hl. by destruct Hl.
Qed.

Lemma stack_bump ext stk c : stack_ok ext stk → stack_ok (bump c ext) stk.
Proof. intros Hs i Hi. specialize (Hs i Hi). unfold bump. case_bool_decide; lia. Qed.

Lemma stack_push ext stk i l : stack_ok ext stk → 1 <= ext i → stack_ok ext (<[i := l]> stk).
Proof. intros Hs Hi j [<-|Hj]%lookup_insert_is_Some'; auto. Qed.

Lemma inv_begin ext stk v d i n : inv ext stk v d → stk !! i = None → d !! i = Some n → inv ext (<[i := entries n]> stk) v d.
Proof.
  intros Hi Hs Hn. eapply inv_relist; [exact Hi| |by eauto|by apply Hi|by apply Hi]. intros j. destruct (decide (j = i)) as [->|].
  - rewrite owned_insert_eq. unfold owned. by rewrite Hs, Hn.
  - by rewrite owned_insert_ne.
Qed.

Lemma inv_commit ext stk v d i l o n :
  inv ext (<[i := l]> stk) v d → stk !! i = None → d !! i = Some n → default [] o = l → inv ext stk v (<[i := set_ns o n]> d).
Proof.
  intros Hi Hs Hn Ho. eapply inv_relist; [exact Hi| | | |].
  - intros j. destruct (decide (j = i)) as [->|].
    + rewrite owned_insert_eq. unfold owned. by rewrite Hs, lookup_insert_eq.
    + rewrite owned_insert_ne by done. unfold owned. by rewrite lookup_insert_ne.
  - intros e x c _ _. by rewrite insert_live.
  - intros c n' [[<- <-]|[_ ?]]%lookup_insert_Some; [apply (inv_refs _ _ _ _ Hi i n Hn)|by apply Hi].
  - intros c. rewrite insert_live by done. apply Hi.
Qed.

(** What [sdb_ns_reset] with the given bound promises of a database that is held. *)
Definition reset_ok (f : nat) : Prop := ∀ i n ext stk v h d,
  inv ext stk v d → stack_ok ext stk → v ##ₘ h → stk !! i = None → d !! i = Some n → 1 <= ext i →
  (base.size d + 1 <= f + base.size stk)%nat →
  ∃ v' d' n', sdb_ns_reset f (Some i) (mkWorld d (v ∪ h)) = Ok () (mkWorld d' (v' ∪ h))
    ∧ inv ext stk v' d' ∧ v' ⊆ v ∧ dom d' ⊆ dom d ∧ d' !! i = Some n' ∧ entries n' = [].

(** Giving back a held reference that is the last one. *)
Lemma release_spec f ext stk v h d c n :
  reset_ok f → inv (bump c ext) stk v d → stack_ok ext stk → v ##ₘ h → 0 <= ext c → d !! c = Some n → refs (sdb n) = 1 →
  (base.size d + 1 <= f + base.size stk)%nat →
  ∃ v' d', (sdb_ns_reset f (Some c) ≫= λ _, sdb_free_db f (Some c)) (mkWorld d (v ∪ h)) = Ok true (mkWorld d' (v' ∪ h))
    ∧ inv ext stk v' d' ∧ v' ⊆ v ∧ dom d' ⊆ dom d.
Proof.
  intros IH Hi Hs Hd He Hn Hr Hf. destruct (inv_refs _ _ _ _ Hi c n Hn) as [Hrc _]. rewrite bump_eq in Hrc.
  assert (ext c = 0) as He0 by lia. assert (ptrs v c = 0%nat) as Hp by lia.
  assert (stk !! c = None) as Hsc by (destruct (stk !! c) eqn:E; [specialize (Hs c (mk_is_Some _ _ E)); lia|done]).
  pose proof (stack_size _ _ _ _ c Hi (stack_bump _ _ c Hs) Hsc (mk_is_Some _ _ Hn)) as Hsz.
  destruct (IH c n (bump c ext) stk v h d) as (v1 & d1 & n1 & E & Hi1 & Hv1 & Hd1 & Hn1 & He1); [done|by apply stack_bump|done..|rewrite bump_eq; lia|done|].
  destruct f as [|[|f]]; [lia..|]. pose proof (ptrs_subseteq _ _ c Hv1 Hp) as Hp1.
  destruct (inv_refs _ _ _ _ Hi1 c n1 Hn1) as [Hrc1 _]. rewrite bump_eq, Hp1 in Hrc1.
  exists v1, (delete c d1). rewrite (bind_ok _ _ _ _ _ E). split_and!; [|eapply inv_release; try done|done|set_solver].
  - by erewrite free_last by (done || lia).
  - unfold owned. by rewrite Hsc, Hn1.
Qed.

Lemma union_hide v h e x : v !! e = Some x → v ##ₘ h → v ∪ h = delete e v ∪ <[e := x]> h ∧ delete e v ##ₘ <[e := x]> h.
Proof.
  intros He Hd. split.
  - apply map_eq. intros k. rewrite !lookup_union. destruct (decide (k = e)) as [->|].
    + rewrite He, lookup_delete_eq, lookup_insert_eq. rewrite (map_disjoint_Some_l v h e x) by done. done.
    + by rewrite lookup_delete_ne, lookup_insert_ne.
  - apply map_disjoint_insert_r. split; [apply lookup_delete_eq|by apply map_disjoint_delete_l].
Qed.

Lemma union_unhide v h e x : v ##ₘ <[e := x]> h → h !! e = None → (v ∪ <[e := x]> h) !! e = Some x ∧ delete e (v ∪ <[e := x]> h) = v ∪ h.
Proof.
  intros [Hv Hd]%map_disjoint_insert_r Hh. split; [rewrite lookup_union_r by done; apply lookup_insert_eq|].
  rewrite delete_union, delete_insert_id by done. by rewrite delete_id.
Qed.

Lemma reset_entry_spec f ext stk v h d i e l :
  reset_ok f → inv ext (<[i := e :: l]> stk) v d → stack_ok ext (<[i := e :: l]> stk) → v ##ₘ h →
  (base.size d + 1 <= f + base.size (<[i := l]> stk))%nat →
  ∃ v' d', ns_reset_entry (sdb_ns_reset f) (sdb_free_db f) e () (mkWorld d (v ∪ h)) = Ok () (mkWorld d' (v' ∪ h))
    ∧ inv ext (<[i := l]> stk) v' d' ∧ v' ⊆ v ∧ dom d' ⊆ dom d.
Proof.
  intros IH Hi Hs Hd Hf.
  assert (is_Some (v !! e)) as [x Hx] by (apply (inv_own _ _ _ _ Hi); exists i; rewrite owned_insert_eq; by left).
  destruct (inv_target _ _ _ _ Hi e x Hx) as (c & Hc & [n Hn]). destruct (inv_refs _ _ _ _ Hi c n Hn) as [_ Hr1].
  pose proof (proj1 (inv_ext _ _ _ _ Hi c)) as Hec. pose proof (inv_hide ext stk v d i [] e l x c Hi Hx Hc) as Hi'. cbn [app] in Hi'.
  assert (stack_ok ext (<[i := l]> stk)) as Hs' by (intros j [<-|Hj]%lookup_insert_is_Some'; apply Hs, lookup_insert_is_Some'; auto).
  destruct (union_hide v h e x Hx Hd) as [Hu Hd']. pose proof (map_disjoint_Some_l v h e x Hd Hx) as Hhe.
  unfold ns_reset_entry. erewrite bind_ok by (apply load_ns_ok, lookup_union_Some_l; exact Hx). rewrite Hc, Hu.
  destruct (decide (1 < refs (sdb n))) as [Hr|Hr].
  - exists (delete e v), (<[c := set_refs (refs (sdb n) - 1) n]> d). split_and!; [|by apply inv_unref|apply delete_subseteq|by rewrite dom_insert_lookup_L by (by rewrite Hn)].
    erewrite bind_ok; [|wstep load_db_ok; rewrite (proj2 (Z.ltb_lt _ _)) by done; by apply alter_db_ok].
    destruct (union_unhide _ _ _ _ Hd' Hhe) as [Hl Hdel]. erewrite free_ns_ok by exact Hl. by rewrite Hdel.
  - destruct (release_spec f ext (<[i := l]> stk) (delete e v) (<[e := x]> h) d c n) as (v' & d' & E & Hi2 & Hv & Hdd); [done..|lia|done|].
    exists v', d'. split_and!; [|done|etrans; [exact Hv|apply delete_subseteq]|done].
    erewrite bind_ok; [|wstep load_db_ok; rewrite (proj2 (Z.ltb_ge _ _)) by lia; rewrite (proj2 (Z.eqb_eq _ _)) by lia].
    2: { revert E. unfold mbind, W_bind. destruct (sdb_ns_reset f (Some c) _); [|done..]. destruct (sdb_free_db f (Some c) _); [|done..].
         intros [= -> ->]. reflexivity. }
    destruct (union_unhide v' h e x) as [Hl Hdel]; [eapply map_disjoint_weaken_l; [exact Hd'|exact Hv]|done|].
    erewrite free_ns_ok by exact Hl. by rewrite Hdel.
Qed.

Lemma reset_loop_spec f ext stk v h d i l :
  reset_ok f → inv ext (<[i := l]> stk) v d → stack_ok ext (<[i := l]> stk) → v ##ₘ h → stk !! i = None →
  (base.size d <= f + base.size stk)%nat →
  ∃ v' d', foreach (ns_reset_entry (sdb_ns_reset f) (sdb_free_db f)) l () (mkWorld d (v ∪ h)) = Ok () (mkWorld d' (v' ∪ h))
    ∧ inv ext (<[i := []]> stk) v' d' ∧ v' ⊆ v ∧ dom d' ⊆ dom d.
Proof.
  intros IH. revert v d. induction l as [|e l IHl]; intros v d Hi Hs Hd Hn Hf; [by exists v, d|].
  destruct (reset_entry_spec f ext stk v h d i e l) as (v1 & d1 & E & Hi1 & Hv1 & Hd1); [done..|rewrite map_size_insert, Hn; cbn; lia|].
  cbn [foreach]. rewrite (bind_ok _ _ _ _ _ E). destruct (IHl v1 d1) as (v2 & d2 & E2 & Hi2 & Hv2 & Hd2).
  - done.
  - intros j [<-|Hj]%lookup_insert_is_Some'; apply Hs, lookup_insert_is_Some'; auto.
  - by eapply map_disjoint_weaken_l.
  - done.
  - rewrite <- !size_dom in *. pose proof (subseteq_size _ _ Hd1). lia.
  - exists v2, d2. split_and!; [done..|by etrans|by etrans].
Qed.

Lemma reset_spec f : reset_ok f.
Proof.
  induction f as [|f IH]; intros i n ext stk v h d Hi Hs Hd Hsi Hn Hei Hf.
  { pose proof (stack_size _ _ _ _ i Hi Hs Hsi (mk_is_Some _ _ Hn)). lia. }
  cbn [sdb_ns_reset]. wstep load_db_ok. destruct (ns n) as [l|] eqn:Hl.
  2: { exists v, d, n. split_and!; try done. unfold entries. by rewrite Hl. }
  pose proof (inv_begin _ _ _ _ i n Hi Hsi Hn) as Hib. unfold entries in Hib. rewrite Hl in Hib. cbn in Hib.
  destruct (reset_loop_spec f ext stk v h d i l) as (v1 & d1 & E & Hi1 & Hv1 & Hd1); [done|done|by apply stack_push|done|done|lia|].
  rewrite (bind_ok _ _ _ _ _ E). destruct (proj2 (inv_ext _ _ _ _ Hi1 i)) as [n1 Hn1]; [lia|].
  exists v1, (<[i := set_ns None n1]> d1), (set_ns None n1). split_and!.
  - by apply alter_db_ok.
  - by eapply inv_commit.
  - done.
  - rewrite dom_insert_lookup_L by (by rewrite Hn1). done.
  - apply lookup_insert_eq.
  - done.
Qed.

(** ** Freeing a database with its namespaces *)

Lemma filter_remove (l1 l2 : list id) e : NoDup (l1 ++ e :: l2) → filter (λ e', e' ≠ e) (l1 ++ e :: l2) = l1 ++ l2.
Proof.
  intros (_ & Hd1 & [Hd2 _]%NoDup_cons)%NoDup_app.
  assert (∀ l : list id, e ∉ l → filter (λ e', e' ≠ e) l = l) as Hid.
  { intros l. induction l as [|a l IH]; intros Ha; [done|]. rewrite filter_cons_True by set_solver. rewrite IH by set_solver. done. }
  rewrite filter_app, (filter_cons_False (λ e', e' ≠ e) e l2) by (intros Hc; by apply Hc). rewrite !Hid; [done|done|].
  intros He. apply (Hd1 e He). by left.
Qed.

(** The databases that the entries of [s] lead to, one step or more. *)
Inductive under v d : id → id → Prop :=
| under_one s n e x c : d !! s = Some n → e ∈ entries n → v !! e = Some x → ns_sdb x = Some c → under v d s c
| under_more s n e x c t : d !! s = Some n → e ∈ entries n → v !! e = Some x → ns_sdb x = Some c → under v d c t → under v d s t.

(** Nobody else refers to what is under [c]. *)
Definition sole v d (c : id) : Prop := ∀ t n, under v d c t → d !! t = Some n → refs (sdb n) = 1.

Lemma under_mono v d v' d' s t : v' ⊆ v → d' ⊆ d → under v' d' s t → under v d s t.
Proof.
  intros Hv Hd. induction 1 as [s n e x c Hn He Hx Hc|s n e x c t Hn He Hx Hc _ IH].
  - eapply under_one; [by eapply lookup_weaken|done|by eapply lookup_weaken|done].
  - eapply under_more; [by eapply lookup_weaken|done|by eapply lookup_weaken|done|exact IH].
Qed.

Lemma under_target v d s t : under v d s t → ∃ e x, v !! e = Some x ∧ ns_sdb x = Some t.
Proof. induction 1; eauto. Qed.

Lemma under_none v d s t : ptrs v t = 0%nat → ¬ under v d s t.
Proof. intros Hp (e & x & Hx & Hc)%under_target. by eapply ptrs_0. Qed.

Lemma sole_mono v d v' d' c : v' ⊆ v → d' ⊆ d → sole v d c → sole v' d' c.
Proof. intros Hv Hd Hs t n Ht Hn. apply (Hs t n); [by eapply under_mono|by eapply lookup_weaken]. Qed.

(** The databases whose lists are being walked are live and stay so. *)
Definition clear stk v d (c : id) : Prop := ∀ j, is_Some (stk !! j) → is_Some (d !! j) ∧ j ≠ c ∧ ¬ under v d c j.

(** While lists are walked the memory [D] differs from [d] in the databases that own them:
    those lose their entries one by one and have no count any more.  Freeing only removes. *)
Definition shows stk (D : gmap id Node) d : Prop := ∀ j, stk !! j = None → D !! j = d !! j.

(** What [sdb_free] promises of a database that only the caller refers to. *)
Definition free_ok (f : nat) : Prop := ∀ c n ext stk v h d D,
  inv (bump c ext) stk v d → v ##ₘ h → d !! c = Some n → refs (sdb n) = 1 → ext c = 0 → sole v d c → clear stk v d c → stk !! c = None → shows stk D d →
  (2 * base.size d <= f + 2 * base.size stk)%nat →
  ∃ v' d', sdb_free_db f (Some c) (mkWorld D (v ∪ h)) = Ok true (mkWorld (D ∩ d') (v' ∪ h))
    ∧ inv ext stk v' d' ∧ v' ⊆ v ∧ d' ⊆ d ∧ d' !! c = None ∧ ∀ j, is_Some (d !! j) → j ≠ c → ¬ under v d c j → is_Some (d' !! j).

Lemma clear_size stk v d c : clear stk v d c → stk !! c = None → is_Some (d !! c) → (base.size stk < base.size d)%nat.
Proof.
  intros Hs Hn Hl. rewrite <- !size_dom. apply subset_size. split.
  - intros j Hj%elem_of_dom. apply elem_of_dom, (Hs j Hj).
  - intros Hsub. apply elem_of_dom, Hsub, elem_of_dom in Hl. rewrite Hn in Hl. by destruct Hl.
Qed.

(** What the loop of [ns_free] over the entries of [i] keeps: [l] are those that are left,
    and what was visited is gone. *)
Record freeing ext stk v d D (i : id) (l : list id) (seen : list (id + id)) : Prop := {
  fr_inv : inv ext (<[i := l]> stk) v d;
  fr_ptrs : ptrs v i = 0%nat;
  fr_sole : sole v d i;
  fr_clear : clear stk v d i;
  fr_shows : shows (<[i := l]> stk) D d;
  fr_list : ∃ n ni, d !! i = Some n ∧ l ⊆ entries n ∧ D !! i = Some ni ∧ entries ni = l;
  fr_seen_ns e : inr e ∈ seen → v !! e = None;
  fr_seen_db c : inl c ∈ seen → c = i ∨ d !! c = None
}.

Lemma freeing_child ext stk v d D i e l seen x c :
  freeing ext stk v d D i (e :: l) seen → stk !! i = None → v !! e = Some x → ns_sdb x = Some c →
  ∃ n, d !! c = Some n ∧ refs (sdb n) = 1 ∧ ext c = 0 ∧ c ≠ i ∧ under v d i c ∧ inv (bump c ext) (<[i := l]> stk) (delete e v) d
    ∧ sole (delete e v) d c ∧ clear (<[i := l]> stk) (delete e v) d c ∧ <[i := l]> stk !! c = None.
Proof.
  intros [Hi Hp Hs Hcl Hsh (n & ni & Hn & Hln & _) _ _] Hsi Hx Hc. pose proof (inv_hide ext stk v d i [] e l x c Hi Hx Hc) as Hih. cbn [app] in Hih.
  destruct (inv_target _ _ _ _ Hi e x Hx) as (c' & Hc' & [nc Hnc]). assert (c' = c) as -> by congruence.
  assert (under v d i c) as Hu by (eapply under_one; [done|apply Hln; by left|done|done]).
  assert (∀ j, under (delete e v) d c j → under v d i j) as Hj.
  { intros j Hj%(under_mono v d); [|apply delete_subseteq|done]. eapply under_more; [done|apply Hln; by left|done|done|done]. }
  pose proof (Hs c nc Hu Hnc) as Hr. destruct (inv_refs _ _ _ _ Hih c nc Hnc) as [Hrc _]. rewrite bump_eq in Hrc.
  assert (c ≠ i) as Hci by (intros ->; by apply (under_none v d i i)). pose proof (proj1 (inv_ext _ _ _ _ Hi c)) as He0.
  exists nc. split_and!; [done|done|lia|done|done|done| | |].
  - intros t nt Ht Hnt. apply (Hs t nt); auto.
  - intros j [<-|Hjs]%lookup_insert_is_Some'.
    + split_and!; [by eexists|done|]. apply under_none. eapply ptrs_subseteq; [apply delete_subseteq|done].
    + destruct (Hcl j Hjs) as (? & Hji & Hnu). split_and!; [done|by intros ->|]. intros Ht. by apply Hnu, Hj.
  - rewrite lookup_insert_ne by done. destruct (stk !! c) eqn:E; [|done]. by destruct (Hcl c (mk_is_Some _ _ E)) as (_ & _ & []).
Qed.

Lemma store_ns_ok d m e x y : m !! e = Some x → store_ns e y (mkWorld d m) = Ok () (mkWorld d (<[e := y]> m)).
Proof. intros E. unfold store_ns. cbn. by rewrite E. Qed.

Lemma union_store v h e x y : v !! e = Some x → v ##ₘ h → <[e := y]> (v ∪ h) = delete e v ∪ <[e := y]> h ∧ delete e v ##ₘ <[e := y]> h.
Proof.
  intros Hx Hd. destruct (union_hide v h e x Hx Hd) as [-> [_ Hd']%map_disjoint_insert_r]. split.
  - rewrite insert_union_r by apply lookup_delete_eq. by rewrite insert_insert_eq.
  - apply map_disjoint_insert_r. split; [apply lookup_delete_eq|done].
Qed.

(** The end of the body: the entry loses its name and is released. *)
Lemma free_entry_end v h d e y : v ##ₘ <[e := y]> h → h !! e = None →
  (x ← load_ns e; _ ← store_ns e (mkNs None (ns_hash x) (ns_sdb x)); free_ns e) (mkWorld d (v ∪ <[e := y]> h)) = Ok () (mkWorld d (v ∪ h)).
Proof.
  intros Hd Hh. destruct (union_unhide v h e y Hd Hh) as [Hl Hdel]. erewrite bind_ok by (by apply load_ns_ok).
  erewrite bind_ok by (by eapply store_ns_ok). rewrite (free_ns_ok _ _ _ _ (lookup_insert_eq _ _ _)). by rewrite delete_insert_eq, Hdel.
Qed.

Lemma free_entry_spec f ext stk v h d D i e l seen :
  free_ok f → freeing ext stk v d D i (e :: l) seen → v ##ₘ h → stk !! i = None → (2 * base.size d <= f + 2 * S (base.size stk))%nat →
  ∃ v' d' D' seen', ns_free_entry (ns_free f) (sdb_free_db f) i e seen (mkWorld D (v ∪ h)) = Ok seen' (mkWorld D' (v' ∪ h))
    ∧ freeing ext stk v' d' D' i l seen' ∧ v' ⊆ v ∧ d' ⊆ d
    ∧ (∀ j, is_Some (d !! j) → ¬ under v d i j → is_Some (d' !! j)) ∧ ∀ j, j ≠ i → D' !! j = (D ∩ d') !! j.
Proof.
  intros IH Hfr Hd Hsi Hf. pose proof Hfr as [Hi Hp Hs Hcl Hsh (n & ni & Hn & Hln & Hni & Hnl) Hse Hsd].
  assert (ns ni = Some (e :: l)) as Hnl' by (revert Hnl; unfold entries; destruct (ns ni); [by intros <-|done]). clear Hnl. rename Hnl' into Hnl.
  assert (is_Some (v !! e)) as [x Hx] by (apply (inv_own _ _ _ _ Hi); exists i; rewrite owned_insert_eq; by left).
  destruct (inv_target _ _ _ _ Hi e x Hx) as (c & Hc & _).
  destruct (freeing_child _ _ _ _ _ _ _ _ _ _ _ Hfr Hsi Hx Hc) as (nc & Hnc & Hrc & Hec & Hci & Hu & Hih & Hsc & Hclc & Hskc).
  set (y := mkNs (ns_name x) (ns_hash x) None). destruct (union_store v h e x y Hx Hd) as [Hst Hd']. pose proof (map_disjoint_Some_l v h e x Hd Hx) as Hhe.
  set (D1 := <[i := set_ns (Some l) ni]> D).
  assert (shows (<[i := l]> stk) D1 d) as Hsh1.
  { intros j Hj. unfold D1. destruct (decide (j = i)) as [->|Hne]; [by rewrite lookup_insert_eq in Hj|].
    rewrite lookup_insert_ne by done. apply Hsh. by rewrite lookup_insert_ne in * by done. }
  pose proof (clear_size _ _ _ _ Hclc Hskc (mk_is_Some _ _ Hnc)) as Hsz.
  assert (base.size (<[i := l]> stk) = S (base.size stk)) as Hsi' by (by rewrite map_size_insert, Hsi).
  destruct (IH c nc ext (<[i := l]> stk) (delete e v) (<[e := y]> h) d D1) as (v' & d' & E & Hi' & Hv' & Hdd & Hcn & Hkeep); [done..|lia|].
  assert (is_Some (d' !! i)) as [n' Hn'] by (apply Hkeep; [by eexists|done|apply Hclc, lookup_insert_is_Some'; by left]).
  assert (n' = n) as -> by (pose proof (lookup_weaken _ _ _ _ Hn' Hdd); congruence).
  assert (v' ⊆ v) as Hvv by (etrans; [exact Hv'|apply delete_subseteq]).
  exists v', d', (D1 ∩ d'), ((seen ++ [inr e]) ++ [inl c]). split_and!.
  - unfold ns_free_entry. unfold in_list at 1. rewrite bool_decide_eq_false_2 by (intros ?%Hse; congruence). cbn [negb].
    assert (ns_delete i e (mkWorld D (v ∪ h)) = Ok () (mkWorld D1 (v ∪ h))) as Ed.
    { unfold ns_delete. erewrite bind_ok by (by apply load_db_ok). rewrite Hnl.
      pose proof (inv_nodup _ _ _ _ Hi i) as Hnd. rewrite owned_insert_eq in Hnd. change (e :: l) with ([] ++ e :: l). rewrite filter_remove by done. by apply alter_db_ok. }
    assert ((v ∪ h) !! e = Some x) as Hxe by (by apply lookup_union_Some_l).
    assert (ns_free f (Some c) ((seen ++ [inr e]) ++ [inl c]) (mkWorld D1 (delete e v ∪ <[e := y]> h)) = Ok ((seen ++ [inr e]) ++ [inl c]) (mkWorld D1 (delete e v ∪ <[e := y]> h))) as Ef.
    { destruct f as [|f']; [lia|]. cbn [ns_free]. unfold in_list. by rewrite bool_decide_eq_true_2 by set_solver. }
    assert (in_list (seen ++ [inr e]) (inl c) = false) as Hin.
    { unfold in_list. apply bool_decide_eq_false_2. intros [[?|?]%Hsd|?%list_elem_of_singleton]%elem_of_app; congruence. }
    pose proof (free_entry_end v' h (D1 ∩ d') e y (map_disjoint_weaken_l _ _ _ Hd' Hv') Hhe) as Ee. unfold force_free, mbind, W_bind, mret, W_ret in *.
    rewrite Ed, (load_ns_ok _ _ _ _ Hxe), Hc, (store_ns_ok _ _ _ _ _ Hxe). fold y. rewrite Hst, Hin, Ef.
    rewrite (load_db_ok D1 _ c nc) by (rewrite Hsh1 by done; done). rewrite (proj2 (Z.ltb_ge _ _)) by lia. rewrite E.
    destruct (load_ns e _) as [z w1| |]; [|done..]. destruct (store_ns e _ w1) as [u w2| |]; [|done..]. by rewrite Ee.
  - split.
    + done.
    + by eapply ptrs_subseteq.
    + by eapply sole_mono.
    + intros j Hj. destruct (Hcl j Hj) as (Hl & Hji & Hnu). split_and!; [|done|by intros Ht%(under_mono v d)].
      destruct (Hclc j) as (? & ? & ?); [apply lookup_insert_is_Some'; by right|]. by apply Hkeep.
    + intros j Hj. rewrite lookup_intersection, (Hsh1 j Hj). destruct (d' !! j) as [nj|] eqn:Ej; [|by destruct (d !! j)].
      by rewrite (lookup_weaken _ _ _ _ Ej Hdd).
    + exists n, (set_ns (Some l) ni). split_and!; [done|set_solver| |done]. rewrite lookup_intersection. unfold D1. by rewrite lookup_insert_eq, Hn'.
    + intros e' He'. apply eq_None_not_Some. intros [x' Hx']. pose proof (lookup_weaken _ _ _ _ Hx' Hv') as [Hne Hx'']%lookup_delete_Some.
      rewrite !elem_of_app, !list_elem_of_singleton in He'. destruct He' as [[He'%Hse|[= ->]]|[=]]; congruence.
    + intros c' Hc'. rewrite !elem_of_app, !list_elem_of_singleton in Hc'. destruct Hc' as [[[->|Hc']%Hsd|[=]]|[= ->]]; [by left|right|by right].
      apply eq_None_not_Some. intros [nj Hj]. pose proof (lookup_weaken _ _ _ _ Hj Hdd). congruence.
  - done.
  - done.
  - intros j Hj Hnu. destruct (decide (j = c)) as [->|]; [done|]. apply Hkeep; [done|done|]. intros Ht. apply Hnu.
    apply (under_mono v d) in Ht; [|apply delete_subseteq|done]. eapply under_more; [done|apply Hln; by left|done|done|done].
  - intros j Hj. rewrite !lookup_intersection. unfold D1. by rewrite lookup_insert_ne.
Qed.

Lemma free_loop_spec f ext stk h i l :
  free_ok f → stk !! i = None → ∀ v d D seen, freeing ext stk v d D i l seen → v ##ₘ h → (2 * base.size d <= f + 2 * S (base.size stk))%nat →
  ∃ v' d' D' seen', foreach (ns_free_entry (ns_free f) (sdb_free_db f) i) l seen (mkWorld D (v ∪ h)) = Ok seen' (mkWorld D' (v' ∪ h))
    ∧ freeing ext stk v' d' D' i [] seen' ∧ v' ⊆ v ∧ d' ⊆ d
    ∧ (∀ j, is_Some (d !! j) → ¬ under v d i j → is_Some (d' !! j)) ∧ ∀ j, j ≠ i → D' !! j = (D ∩ d') !! j.
Proof.
  intros IH Hsi. induction l as [|e l IHl]; intros v d D seen Hfr Hd Hf.
  { exists v, d, D, seen. split_and!; try done. intros j Hj. rewrite lookup_intersection. destruct (stk !! j) eqn:E.
    - destruct (fr_clear _ _ _ _ _ _ _ _ Hfr j (mk_is_Some _ _ E)) as ([nj ->] & _). by destruct (D !! j).
    - rewrite (fr_shows _ _ _ _ _ _ _ _ Hfr j) by (by rewrite lookup_insert_ne). by destruct (d !! j). }
  destruct (free_entry_spec f ext stk v h d D i e l seen IH Hfr Hd Hsi Hf) as (v1 & d1 & D1 & seen1 & E1 & Hfr1 & Hv1 & Hd1 & Hk1 & HD1).
  destruct (IHl v1 d1 D1 seen1 Hfr1) as (v2 & d2 & D2 & seen2 & E2 & Hfr2 & Hv2 & Hd2 & Hk2 & HD2).
  { by eapply map_disjoint_weaken_l. }
  { pose proof (map_subseteq_size d1 d Hd1). lia. }
  exists v2, d2, D2, seen2. split_and!; [|done|by etrans|by etrans| |].
  - cbn [foreach]. by rewrite (bind_ok _ _ _ _ _ E1).
  - intros j Hj Hnu. apply Hk2; [by apply Hk1|]. by intros Ht%(under_mono v d).
  - intros j Hj. rewrite HD2, !lookup_intersection, HD1, lookup_intersection by done. destruct (d2 !! j) eqn:E; [|by destruct (D !! j), (d1 !! j)].
    rewrite (lookup_weaken _ _ _ _ E Hd2). by destruct (D !! j).
Qed.

Lemma free_db_spec f : free_ok f.
Proof.
  induction (lt_wf f) as [f _ IH]. intros c n ext stk v h d D Hi Hd Hn Hr He Hs Hcl Hsc Hsh Hf.
  pose proof (clear_size _ _ _ _ Hcl Hsc (mk_is_Some _ _ Hn)) as Hsz. destruct f as [|[|f]]; [lia..|].
  assert (D !! c = Some n) as HDn by (by rewrite Hsh). destruct (inv_refs _ _ _ _ Hi c n Hn) as [Hrc _]. rewrite bump_eq in Hrc.
  set (n0 := set_refs 0 (set_refs (1 - 1) n)).
  assert (freeing (bump c ext) stk v d (<[c := n0]> D) c (entries n) [inl c]) as Hfr.
  { split; [by apply inv_begin|lia|done|done| | | |].
    - intros j [Hj Hjs]%lookup_insert_None. rewrite lookup_insert_ne by done. by apply Hsh.
    - exists n, n0. by rewrite lookup_insert_eq.
    - by intros e ?%list_elem_of_singleton.
    - intros c' [= ->]%list_elem_of_singleton. by left. }
  destruct (free_loop_spec f (bump c ext) stk h c (entries n) (IH f ltac:(lia)) Hsc v d _ _ Hfr Hd ltac:(lia)) as (v' & d' & D' & seen' & E & Hfr' & Hv' & Hd' & Hk & HD).
  pose proof Hfr' as [Hi' Hp' _ _ _ (n' & ni & Hn' & _ & Hni & _) _ _].
  exists v', (delete c d'). assert (¬ under v d c c) as Hcc by (apply under_none; lia). split_and!; [| |done|by etrans; [apply delete_subseteq|]|apply lookup_delete_eq|].
  - remember (S f) as f1 eqn:Ef1. cbn [sdb_free_db]. wstep load_db_ok. rewrite Hr. change (1 =? 0) with false. change (1 - 1 <? 1) with true. cbn iota.
    wstep alter_db_ok. erewrite bind_ok by (apply alter_db_ok, lookup_insert_eq). rewrite insert_insert_eq. fold n0.
    assert (ns_free f1 (Some c) [] (mkWorld (<[c := n0]> D) (v ∪ h)) = Ok seen' (mkWorld (<[c := set_ns None ni]> D') (v' ∪ h))) as Efr.
    { subst f1. cbn [ns_free]. change (in_list [] (inl c)) with false. cbn iota. erewrite bind_ok by (apply load_db_ok, lookup_insert_eq).
      change (entries n0) with (entries n). rewrite (bind_ok _ _ _ _ _ E). by wstep alter_db_ok. }
    rewrite (bind_ok _ _ _ _ _ Efr). erewrite bind_ok by (apply alter_db_ok, lookup_insert_eq). erewrite bind_ok by (eapply free_db_ok, lookup_insert_eq).
    rewrite !delete_insert_eq. f_equal. f_equal. apply map_eq. intros j. rewrite lookup_intersection. destruct (decide (j = c)) as [->|Hj].
    + rewrite !lookup_delete_eq. by destruct (D !! c).
    + rewrite !lookup_delete_ne by done. rewrite HD by done. by rewrite lookup_intersection, lookup_insert_ne by done.
  - pose proof (inv_commit _ _ _ _ _ _ None n' Hi' Hsc Hn' eq_refl) as Hi2. rewrite <- (delete_insert_eq d' c (set_ns None n')).
    eapply (inv_release _ _ _ _ _ (set_ns None n')); [exact Hi2|done|apply lookup_insert_eq|done| |done]. unfold owned. by rewrite Hsc, lookup_insert_eq.
  - intros j Hj Hne Hnu. rewrite lookup_delete_ne by done. by apply Hk.
Qed.

(** ** New references *)

(** An entry joins a list and takes over a reference held by the function. *)
Lemma inv_unhide ext stk v d i l1 e l2 x c nm :
  inv (bump c ext) (<[i := l1 ++ l2]> stk) v d → 0 <= ext c → v !! e = None →
  ns_sdb x = Some c → ns_name x = Some nm → ns_hash x = sdb_hash nm →
  (∀ e' x', e' ∈ l1 ++ l2 → v !! e' = Some x' → ns_hash x' ≠ ns_hash x) →
  inv ext (<[i := l1 ++ e :: l2]> stk) (<[e := x]> v) d.
Proof.
  intros [H1 H2 H3 H4 H5 H6 H7 H8] Hec He Hc Hnm Hh Hdist.
  assert (is_Some (d !! c)) as Hl by (apply (H6 c); rewrite bump_eq; lia).
  assert (∀ j, e ∉ owned (<[i := l1 ++ l2]> stk) d j) as Hfresh.
  { intros j Hj. assert (is_Some (v !! e)) as [? ?] by (apply H1; eauto). congruence. }
  assert (∀ j e', e' ∈ owned (<[i := l1 ++ e :: l2]> stk) d j ↔ (e' = e ∧ j = i) ∨ (e' ≠ e ∧ e' ∈ owned (<[i := l1 ++ l2]> stk) d j)) as Hsub.
  { intros j e'. specialize (Hfresh j). destruct (decide (j = i)) as [->|Hj].
    - rewrite !owned_insert_eq in *. destruct (decide (e' = e)) as [->|]; set_solver.
    - rewrite !owned_insert_ne in * by done. split; [|naive_solver]. intros Hin. right. split; [by intros ->|done]. }
  split.
  - intros e'. rewrite lookup_insert_is_Some', H1. split.
    + intros [<-|[j Hj]]; [exists i; apply Hsub; auto|]. exists j. apply Hsub. destruct (decide (e' = e)) as [->|]; [|by right]. by apply Hfresh in Hj.
    + intros [j [[-> ->]|[? ?]]%Hsub]; [by left|right; eauto].
  - intros j k e' [[-> ->]|[? Hj]]%Hsub [[? ->]|[? Hk]]%Hsub; try done. by apply (H2 j k e').
  - intros j. specialize (H3 j). specialize (Hfresh j). destruct (decide (j = i)) as [->|]; [|by rewrite owned_insert_ne in *].
    rewrite owned_insert_eq in *. apply NoDup_app in H3 as (? & ? & ?). apply NoDup_app. split_and!; [done| |]; [|apply NoDup_cons]; set_solver.
  - intros e' x' [[<- <-]|[_ Hx]]%lookup_insert_Some; eauto.
  - intros c' n Hn. destruct (H5 c' n Hn) as [Hr Hr1]. split; [|done]. rewrite Hr, (ptrs_insert v e x c c') by done.
    unfold bump. case_bool_decide; lia.
  - intros c'. destruct (H6 c') as [Hx Hl']. unfold bump in *. case_bool_decide as E; [subst c'; split; [lia|done]|done].
  - intros e' x' [[<- <-]|[_ Hx]]%lookup_insert_Some; eauto.
  - assert (∀ j e' x', e' ≠ e → e' ∈ owned (<[i := l1 ++ l2]> stk) d j → j = i → v !! e' = Some x' → ns_hash x' ≠ ns_hash x) as Hd2.
    { intros j e' x' _ Hin ->. rewrite owned_insert_eq in Hin. by apply Hdist. }
    intros j e1 e2 x1 x2 [[-> ->]|[Hn1 Hj]]%Hsub [[-> Hji]|[Hn2 Hk]]%Hsub; rewrite ?lookup_insert_eq, ?lookup_insert_ne by done.
    + done.
    + intros [= <-] Hx2 Hhh. by destruct (Hd2 i e2 x2 Hn2 Hk eq_refl Hx2).
    + intros Hx1 [= <-] Hhh. by destruct (Hd2 j e1 x1 Hn1 Hj Hji Hx1).
    + intros. by eapply (H8 j).
Qed.

Lemma inv_ref ext stk v d c n :
  inv ext stk v d → d !! c = Some n → inv (bump c ext) stk v (<[c := set_refs (refs (sdb n) + 1) n]> d).
Proof.
  intros Hi Hn. eapply inv_relist; [exact Hi|by intros; eapply owned_set| | |].
  - intros e x c' _ _. by rewrite insert_live.
  - intros c' n' [[<- <-]|[Hne Hn']]%lookup_insert_Some; pose proof (inv_refs _ _ _ _ Hi) as H5.
    + specialize (H5 c n Hn). rewrite bump_eq. cbn. lia.
    + rewrite bump_ne by done. by apply H5.
  - intros c'. rewrite insert_live by done. destruct (inv_ext _ _ _ _ Hi c') as [Hx Hl]. unfold bump. case_bool_decide; [subst; split; [lia|eauto]|done].
Qed.

Lemma inv_new ext stk v d i n :
  inv ext stk v d → d !! i = None → refs (sdb n) = 1 → entries n = [] → stk !! i = None → inv (bump i ext) stk v (<[i := n]> d).
Proof.
  intros HI Hi Hr He Hs.
  assert (ext i = 0) as Hei.
  { destruct (inv_ext _ _ _ _ HI i) as [? Hl]. rewrite Hi in Hl. destruct (decide (0 < ext i)) as [Hlt|]; [destruct (Hl Hlt); done|lia]. }
  assert (ptrs v i = 0%nat) as Hp.
  { apply map_size_empty_iff, map_empty. intros e. apply map_lookup_filter_None_2. right. intros x Hx Hpt.
    destruct (inv_target _ _ _ _ HI e x Hx) as (c & Hc & Hcl). unfold points_to in Hpt. cbn in Hpt. rewrite Hc in Hpt. injection Hpt as ->.
    rewrite Hi in Hcl. by destruct Hcl. }
  eapply inv_relist; [exact HI| | | |].
  - intros j. unfold owned. destruct (decide (j = i)) as [->|]; [by rewrite Hs, lookup_insert_eq, Hi|].
    destruct (stk !! j); [done|]. by rewrite lookup_insert_ne.
  - intros e x c _ _ Hl. apply lookup_insert_is_Some'. auto.
  - intros c' n' [[<- <-]|[Hne Hn']]%lookup_insert_Some; [rewrite bump_eq; lia|rewrite bump_ne by done; by apply HI].
  - intros c'. destruct (inv_ext _ _ _ _ HI c') as [Hx Hl]. rewrite lookup_insert_is_Some'. unfold bump. case_bool_decide; [subst; split; [lia|auto]|split; auto].
Qed.

(** ** The operations *)

Inductive ns_op :=
| ONew
| OFree (s : id)
| ONs (s : id) (name : bytes) (create : bool)
| OSet (s : id) (name : bytes) (r : id)
| OUnset (s : id) (name : option bytes) (r : option id)
| OReset (s : id).

Definition to_bool (m : W bool) : W (bool + option id) := b ← m; mret (inl b).
Definition to_ptr (m : W (option id)) : W (bool + option id) := o ← m; mret (inr o).

Definition ns_run (fuel : nat) (o : ns_op) : W (bool + option id) :=
  match o with
  | ONew => to_ptr sdb_new_db
  | OFree s => to_bool (sdb_free_db fuel (Some s))
  | ONs s name create => to_ptr (sdb_ns (Some s) name create)
  | OSet s name r => to_bool (sdb_ns_set fuel (Some s) name (Some r))
  | OUnset s name r => to_bool (sdb_ns_unset fuel (Some s) name r)
  | OReset s => _ ← sdb_ns_reset fuel (Some s); mret (inl true)
  end.

(** Enough for any recursion: no database is entered twice, and [sdb_free] and [ns_free] take turns. *)
Definition fuel_of (w : World) : nat := 2 * base.size (dbs w) + 2.

(** What callers hold afterwards: a new database comes with a reference, freeing gives
    one back. *)
Definition held (o : ns_op) (r : bool + option id) ext : id → Z :=
  match o, r with
  | ONew, inr (Some i) => bump i ext
  | OFree s, _ => λ i, if bool_decide (i = s) then ext i - 1 else ext i
  | _, _ => ext
  end.

(** How the functions may be called.  Databases passed must be live, and freeing or
    resetting one needs a reference to it.  A list must exist to add to: [sdb_ns_reset]
    leaves none.  A database that loses its last reference by [sdb_free] or by being
    replaced takes the databases under it along, whoever else refers to them: nobody else
    may, and what is being changed must not be among them. *)
Definition no_force (v : gmap id SdbNs) (d : gmap id Node) (c : id) (used : list id) : Prop :=
  ∃ n, d !! c = Some n ∧ (1 < refs (sdb n) ∨ (sole v d c ∧ Forall (λ j, j ≠ c ∧ ¬ under v d c j) used)).
Definition has_list (d : gmap id Node) (s : id) : Prop := ∃ n, d !! s = Some n ∧ is_Some (ns n).

Definition op_ok ext (w : World) (o : ns_op) : Prop :=
  match o with
  | ONew => True
  | OFree s => 1 <= ext s ∧ no_force (nss w) (dbs w) s []
  | ONs s name create => has_list (dbs w) s
  | OSet s name r =>
      has_list (dbs w) s ∧ is_Some (dbs w !! r)
      ∧ ∀ e x c, e ∈ owned ∅ (dbs w) s → nss w !! e = Some x → ns_hash x = sdb_hash name → ns_sdb x = Some c → c ≠ r →
          no_force (nss w) (dbs w) c [s; r]
  | OUnset s name r => is_Some (dbs w !! s)
  | OReset s => 1 <= ext s
  end.

Definition good ext (w : World) : Prop := inv ext ∅ (nss w) (dbs w).

Lemma new_db_node : ∃ n, (refs (sdb n) = 1 ∧ sdb_new0 = Some (sdb n)) ∧ ns n = Some [] ∧ s_dir n = None ∧ ns_lock n = 0 ∧ ∀ d m,
  let i := fresh (dom d) in sdb_new_db (mkWorld d m) = Ok (Some i) (mkWorld (<[i := n]> d) m).
Proof.
  destruct (sdb_new0_ok 0) as (s & E & _); [done|].
  assert (refs s = 1) as Hr by (revert E; unfold sdb_new0; destruct (sdb_ht_new _); [by intros [= <-]|done]).
  exists (mkNode s None None None 0 (Some [])). split; [by split|]. do 3 (split; [reflexivity|]).
  intros d m. cbn zeta. unfold sdb_new_db. rewrite E. reflexivity.
Qed.

Lemma find_ns_spec f l d m :
  (∀ e, e ∈ l → is_Some (m !! e)) →
  ∃ o, find_ns f l (mkWorld d m) = Ok o (mkWorld d m) ∧
    match o with
    | Some (e, x) => (∃ l1 l2, l = l1 ++ e :: l2) ∧ m !! e = Some x ∧ f x = true
    | None => ∀ e x, e ∈ l → m !! e = Some x → f x = false
    end.
Proof.
  induction l as [|e l IH]; intros Hl; [exists None; split; [done|set_solver]|].
  destruct (Hl e) as [x Hx]; [by left|]. destruct IH as (o & Eo & Ho); [intros; apply Hl; by right|].
  cbn [find_ns]. erewrite bind_ok by (by apply load_ns_ok). destruct (f x) eqn:Hf.
  - exists (Some (e, x)). split_and!; [done|by exists [], l|done|done].
  - exists o. split; [done|]. destruct o as [[e' x']|].
    + destruct Ho as ((l1 & l2 & ->) & ? & ?). split_and!; [by exists (e :: l1), l2|done|done].
    + intros e' x' [->|Hin]%elem_of_cons Hx'; [congruence|eauto].
Qed.

(** Searching the list of a live database. *)
Lemma find_in_db f ext d m i n :
  inv ext ∅ m d → d !! i = Some n →
  ∃ o, find_ns f (entries n) (mkWorld d m) = Ok o (mkWorld d m) ∧
    match o with
    | Some (e, x) => (∃ l1 l2, entries n = l1 ++ e :: l2) ∧ m !! e = Some x ∧ f x = true
    | None => ∀ e x, e ∈ entries n → m !! e = Some x → f x = false
    end.
Proof.
  intros Hi Hn. apply find_ns_spec. intros e He. apply (inv_own _ _ _ _ Hi). exists i. unfold owned. by rewrite lookup_empty, Hn.
Qed.

Lemma fresh_none {A} (m : gmap id A) : m !! fresh (dom m) = None.
Proof. apply not_elem_of_dom, is_fresh. Qed.

(** Adding an entry for a reference in hand. *)
Lemma inv_append ext d m i n l e x c nm :
  inv (bump c ext) ∅ m d → 0 <= ext c → d !! i = Some n → ns n = Some l → m !! e = None →
  ns_sdb x = Some c → ns_name x = Some nm → ns_hash x = sdb_hash nm →
  (∀ e' x', e' ∈ l → m !! e' = Some x' → ns_hash x' ≠ ns_hash x) →
  inv ext ∅ (<[e := x]> m) (<[i := set_ns (Some (l ++ [e])) n]> d).
Proof.
  intros Hi He Hn Hl Hm Hc Hnm Hh Hd. eapply (inv_commit _ _ _ _ _ (l ++ [e])); [|done|done|done].
  eapply inv_unhide; [|done..|by rewrite app_nil_r]. rewrite app_nil_r. replace l with (entries n) by (unfold entries; by rewrite Hl).
  by apply inv_begin.
Qed.

Definition safe (o : ns_op) : Prop := ∀ ext w, good ext w → op_ok ext w o →
  ∃ r w', ns_run (fuel_of w) o w = Ok r w' ∧ good (held o r ext) w'.

Lemma safe_new : safe ONew.
Proof.
  intros ext [d m] Hi _. destruct new_db_node as (n & [Hr _] & Hl & _ & _ & E). eexists _, _. split; [unfold ns_run, to_ptr; by rewrite (bind_ok _ _ _ _ _ (E d m))|].
  apply inv_new; [exact Hi|apply fresh_none|done|by unfold entries; rewrite Hl|done].
Qed.

Lemma safe_reset s : safe (OReset s).
Proof.
  intros ext [d m] Hi He. unfold good in Hi. cbn in Hi, He. destruct (proj2 (inv_ext _ _ _ _ Hi s)) as [n Hn]; [lia|].
  destruct (reset_spec (fuel_of (mkWorld d m)) s n ext ∅ m ∅ d) as (v' & d' & n' & E & Hi' & _); [done|by intros ? []|apply map_disjoint_empty_r|done|done|done| |].
  { unfold fuel_of. cbn. lia. }
  rewrite !map_union_empty in E. eexists _, _. split; [unfold ns_run; by rewrite (bind_ok _ _ _ _ _ E)|]. exact Hi'.
Qed.

(** Giving back a reference. *)
Lemma drop_spec ext d v h stk c n f :
  inv (bump c ext) stk v d → v ##ₘ h → 0 <= ext c → d !! c = Some n → (1 < refs (sdb n) ∨ (sole v d c ∧ clear stk v d c ∧ stk !! c = None)) →
  (2 * base.size d <= f + 2 * base.size stk)%nat →
  ∃ b v' d', sdb_free_db (S f) (Some c) (mkWorld d (v ∪ h)) = Ok b (mkWorld d' (v' ∪ h)) ∧ inv ext stk v' d' ∧ v' ⊆ v
    ∧ ∀ j nj, 1 < refs (sdb n) ∨ (j ≠ c ∧ ¬ under v d c j) → d !! j = Some nj → ∃ r, d' !! j = Some (set_refs r nj).
Proof.
  intros Hi Hd He Hn Hf Hsz. assert (∀ nj : Node, nj = set_refs (refs (sdb nj)) nj) as Hset by (by intros [[] ? ? ? ? ?]).
  destruct (inv_refs _ _ _ _ Hi c n Hn) as [Hr Hr1]. rewrite bump_eq in Hr. destruct (decide (1 < refs (sdb n))) as [Hgt|Hle].
  - exists false, v, (<[c := set_refs (refs (sdb n) - 1) n]> d). split_and!; [by apply free_more|by apply inv_unref|done|].
    intros j nj _ Hj. destruct (decide (j = c)) as [->|]; [rewrite lookup_insert_eq; eexists; by replace nj with n by congruence|].
    rewrite lookup_insert_ne by done. exists (refs (sdb nj)). rewrite Hj. by f_equal.
  - destruct Hf as [?|(Hs & Hcl & Hsc)]; [lia|].
    destruct (free_db_spec (S f) c n ext stk v h d d Hi Hd Hn ltac:(lia) ltac:(lia) Hs Hcl Hsc (λ j _, eq_refl) ltac:(lia)) as (v' & d' & E & Hi' & Hv' & Hd' & _ & Hk).
    assert (d ∩ d' = d') as Hdd.
    { apply map_eq. intros j. rewrite lookup_intersection. destruct (d' !! j) as [nj|] eqn:Ej; [by rewrite (lookup_weaken _ _ _ _ Ej Hd')|by destruct (d !! j)]. }
    rewrite Hdd in E. exists true, v', d'. split_and!; [done|done|done|]. intros j nj [?|[Hj Hnu]] Hnj; [lia|].
    destruct (Hk j (mk_is_Some _ _ Hnj) Hj Hnu) as [nj' Hnj']. exists (refs (sdb nj)). rewrite Hnj'. f_equal. rewrite <- Hset.
    pose proof (lookup_weaken _ _ _ _ Hnj' Hd'). congruence.
Qed.

Lemma safe_free s : safe (OFree s).
Proof.
  intros ext [d m] Hi (He & n & Hn & Hf). unfold good, fuel_of in *. cbn [dbs nss] in Hi, Hn, Hf |- *. rewrite Nat.add_comm.
  set (ext' := λ i, if bool_decide (i = s) then ext i - 1 else ext i).
  assert (∀ i, bump s ext' i = ext i) as Hb by (intros i; unfold bump, ext'; case_bool_decide; lia).
  destruct (drop_spec ext' d m ∅ ∅ s n (S (2 * base.size d))) as (b & v' & d' & E & Hi' & _).
  - eapply inv_relist; [exact Hi|done|by eauto|..]; [intros c n' Hn'|intros c]; rewrite Hb; by apply Hi.
  - apply map_disjoint_empty_r.
  - unfold ext'. rewrite bool_decide_true by done. lia.
  - done.
  - destruct Hf as [?|[Hs _]]; [by left|right]. split_and!; [done|by intros j []|done].
  - lia.
  - rewrite !map_union_empty in E. unfold ns_run, to_bool. rewrite (bind_ok _ _ _ _ _ E). eexists _, _. split; [done|]. exact Hi'.
Qed.

(** A new namespace: a database with one reference, from the new entry. *)
Lemma ns_new_run d m s n name hash :
  d !! s = Some n →
  (s_dir n ≠ None ∧ sdb_ns_new s name hash (mkWorld d m) = Ok None (mkWorld d m)) ∨
  ∃ n0, (refs (sdb n0) = 1 ∧ sdb_new0 = Some (sdb n0)) ∧ ns n0 = Some [] ∧ (ns_lock n0 = 0 ∧ s_dir n0 = None) ∧
    let c := fresh (dom d) in let e := fresh (dom m) in
    sdb_ns_new s name hash (mkWorld d m) = Ok (Some e) (mkWorld (<[c := n0]> d) (<[e := mkNs (Some name) hash (Some c)]> m)).
Proof.
  intros Hn. unfold sdb_ns_new. destruct new_db_node as (n0 & Hr & Hl0 & Hdir & Hlk & E). cbn zeta in E |- *.
  erewrite bind_ok by (by apply load_db_ok). case_if; [left; split; [by intros Hs; rewrite Hs in *|done]|]. right.
  erewrite bind_ok by apply E. cbn iota beta. erewrite bind_ok by (apply alter_db_ok, lookup_insert_eq). rewrite insert_insert_eq.
  eexists (mkNode (sdb n0) _ _ _ _ _). split_and!; [exact (proj1 Hr)|exact (proj2 Hr)|exact Hl0|exact Hlk|exact Hdir|]. reflexivity.
Qed.

Lemma ns_new_spec ext d m s n l name :
  inv ext ∅ m d → d !! s = Some n → ns n = Some l → (∀ e x, e ∈ l → m !! e = Some x → ns_hash x ≠ sdb_hash name) →
  ∃ o w, (sdb_ns_new s name (sdb_hash name) ≫= λ o, match o with None => mret None | Some e => _ ← ns_append s e; x ← load_ns e; mret (ns_sdb x) end)
    (mkWorld d m) = Ok o w ∧ good ext w.
Proof.
  intros Hi Hn Hl Hh. destruct (ns_new_run d m s n name (sdb_hash name) Hn) as [[_ E]|(n0 & [Hr _] & Hl0 & _ & E)]; cbn zeta in *; rewrite (bind_ok _ _ _ _ _ E).
  { eexists _, _. by split. }
  set (c := fresh (dom d)) in *. set (e := fresh (dom m)). set (x := mkNs _ _ _).
  assert (d !! c = None) as Hc by apply fresh_none. assert (c ≠ s) as Hcs by congruence.
  unfold ns_append. erewrite bind_ok by (apply alter_db_ok; rewrite lookup_insert_ne by done; exact Hn).
  erewrite bind_ok by (apply load_ns_ok, lookup_insert_eq). eexists _, _. split; [reflexivity|]. unfold good. cbn [dbs nss].
  rewrite Hl. change ((λ l0, l0 ++ [e]) <$> Some l) with (Some (l ++ [e])).
  eapply (inv_append ext _ _ s n l e x c name); try done.
  - apply inv_new; [done|done|exact Hr|unfold entries; by rewrite Hl0|done].
  - apply (inv_ext _ _ _ _ Hi).
  - by rewrite lookup_insert_ne.
  - apply fresh_none.
Qed.

Lemma safe_ns s name create : safe (ONs s name create).
Proof.
  intros ext [d m] Hi (n & Hn & [l Hl]). unfold good in Hi. cbn in Hi, Hn. unfold ns_run, to_ptr.
  assert (∃ o w, sdb_ns (Some s) name create (mkWorld d m) = Ok o w ∧ good ext w) as (o & w & E & Hg).
  2: { eexists _, _. split; [by rewrite (bind_ok _ _ _ _ _ E)|done]. }
  unfold sdb_ns. case_if; [eexists _, _; by split|]. cbn zeta. erewrite bind_ok by (by apply load_db_ok).
  destruct (find_in_db (has_hash (sdb_hash name)) ext d m s n Hi Hn) as (o & Eo & Ho). rewrite (bind_ok _ _ _ _ _ Eo).
  destruct o as [[e x]|]; [eexists _, _; by split|]. case_if; [eexists _, _; by split|].
  apply (ns_new_spec ext d m s n l name Hi Hn Hl). intros e x He Hx. unfold entries in Ho. rewrite Hl in Ho.
  specialize (Ho e x He Hx). by apply Z.eqb_neq in Ho.
Qed.

(** The end of [sdb_ns_unset], with the entry out of its list. *)
Lemma unset_drop f ext d m e x c :
  inv (bump c ext) ∅ (delete e m) d → m !! e = Some x → 0 <= ext c → (base.size d <= f)%nat →
  ∃ w, (_ ← (cn ← load_db c; if refs (sdb cn) =? 1 then sdb_ns_reset (S (S f)) (Some c) else mret ());
        _ ← sdb_free_db (S (S f)) (Some c); _ ← free_ns e; mret true) (mkWorld d m) = Ok true w ∧ good ext w.
Proof.
  intros Hi Hx Hec Hf. destruct (proj2 (inv_ext _ _ _ _ Hi c)) as [cn Hcn]; [rewrite bump_eq; lia|].
  destruct (union_hide m ∅ e x Hx (map_disjoint_empty_r _)) as [Hu Hd']. rewrite map_union_empty in Hu.
  destruct (inv_refs _ _ _ _ Hi c cn Hcn) as [_ Hr1]. destruct (decide (refs (sdb cn) = 1)) as [Hr|Hr].
  - destruct (release_spec (S (S f)) ext ∅ (delete e m) (<[e := x]> ∅) d c cn (reset_spec _)) as (v' & d' & E & Hi2 & Hv & _); try done.
    { by intros i []. }
    { rewrite map_size_empty. lia. }
    rewrite Hu. unfold mbind, W_bind in E |- *. rewrite (load_db_ok _ _ _ _ Hcn), (proj2 (Z.eqb_eq _ _)) by done.
    destruct (sdb_ns_reset _ (Some c) _); [|done..]. rewrite E.
    destruct (union_unhide v' ∅ e x) as [Hlk Hdel]; [eapply map_disjoint_weaken_l; [exact Hd'|exact Hv]|done|].
    rewrite (free_ns_ok _ _ _ _ Hlk), Hdel, map_union_empty. eexists. by split.
  - erewrite (bind_ok _ _ _ ()); [|erewrite bind_ok by (by apply load_db_ok); by rewrite (proj2 (Z.eqb_neq _ _))].
    rewrite (bind_ok _ _ _ _ _ (free_more (S f) _ _ _ _ Hcn ltac:(lia))). erewrite bind_ok by (by eapply free_ns_ok).
    eexists. split; [done|]. apply inv_unref; [done|done|done|lia].
Qed.

Lemma safe_unset s name r : safe (OUnset s name r).
Proof.
  intros ext [d m] Hi [n Hn]. unfold good in Hi. cbn in Hi, Hn. unfold ns_run, to_bool.
  assert (∃ o w, sdb_ns_unset (fuel_of (mkWorld d m)) (Some s) name r (mkWorld d m) = Ok o w ∧ good ext w) as (o & w & E & Hg).
  2: { eexists _, _. split; [by rewrite (bind_ok _ _ _ _ _ E)|done]. }
  unfold sdb_ns_unset, fuel_of. cbn [dbs]. rewrite Nat.add_comm. cbn [Nat.add].
  destruct (decide (name = None ∧ r = None)) as [[-> ->]|Hnr]; [eexists _, _; by split|].
  destruct (find_in_db (is_entry name r) ext d m s n Hi Hn) as (o & Eo & Ho).
  assert (∃ b w, match o with
    | None => mret false
    | Some (e, x) => _ ← ns_delete s e;
        _ ← match ns_sdb x with None => mret () | Some c => cn ← load_db c; if refs (sdb cn) =? 1 then sdb_ns_reset (S (S (2 * base.size d))) (Some c) else mret () end;
        _ ← sdb_free_db (S (S (2 * base.size d))) (ns_sdb x); _ ← free_ns e; mret true
    end (mkWorld d m) = Ok b w ∧ good ext w) as (b & w & E & Hg).
  2: { exists b, w. split; [|done]. destruct name, r; try (by exfalso; apply Hnr); erewrite bind_ok by (by apply load_db_ok); by rewrite (bind_ok _ _ _ _ _ Eo). }
  destruct o as [[e x]|]; [|eexists _, _; by split]. destruct Ho as ((l1 & l2 & Hl) & Hx & _).
  destruct (ns n) as [l|] eqn:Hnl; [|unfold entries in Hl; rewrite Hnl in Hl; by destruct l1].
  pose proof (inv_begin _ _ _ _ s n Hi (lookup_empty s) Hn) as Hib. rewrite Hl in Hib.
  destruct (inv_target _ _ _ _ Hi e x Hx) as (c & Hc & _). pose proof (inv_hide _ _ _ _ _ _ _ _ _ _ Hib Hx Hc) as Hih.
  assert (filter (λ e', e' ≠ e) l = l1 ++ l2) as Hfl.
  { unfold entries in Hl. rewrite Hnl in Hl. cbn in Hl. subst l. apply filter_remove.
    pose proof (inv_nodup _ _ _ _ Hib s) as Hnd. by rewrite owned_insert_eq in Hnd. }
  pose proof (inv_commit _ _ _ _ _ _ (Some (l1 ++ l2)) n Hih (lookup_empty s) Hn eq_refl) as Hi1.
  assert (ns_delete s e (mkWorld d m) = Ok () (mkWorld (<[s := set_ns (Some (l1 ++ l2)) n]> d) m)) as Ed.
  { unfold ns_delete. erewrite bind_ok by (by apply load_db_ok). rewrite Hnl, Hfl. by apply alter_db_ok. }
  rewrite (bind_ok _ _ _ _ _ Ed), Hc.
  destruct (unset_drop (2 * base.size d) ext _ m e x c Hi1 Hx) as (w & E & Hg); [apply (inv_ext _ _ _ _ Hi)|rewrite map_size_insert_Some by done; lia|eauto].
Qed.

Lemma set_ns_refs d c n r i ni : d !! i = Some ni → d !! c = Some n → ∃ k, <[c := set_refs r n]> d !! i = Some (set_refs k ni).
Proof.
  intros Hi Hc. destruct (decide (i = c)) as [->|]; [rewrite lookup_insert_eq; eexists; by replace ni with n by congruence|].
  rewrite lookup_insert_ne by done. exists (refs (sdb ni)). rewrite Hi. f_equal. by destruct ni as [[] ? ? ? ? ?].
Qed.

(** [sdb_ns_set] on a name that is not there yet. *)
Lemma set_append ext d m s n l name r :
  inv ext ∅ m d → d !! s = Some n → ns n = Some l → is_Some (d !! r) →
  (∀ e x, e ∈ l → m !! e = Some x → ns_hash x ≠ sdb_hash name) →
  ∃ o w, (e ← new_ns (mkNs (Some name) (sdb_hash name) (Some r)); _ ← alter_db r (λ n, set_refs (refs (sdb n) + 1) n); _ ← ns_append s e; mret true)
    (mkWorld d m) = Ok o w ∧ good ext w.
Proof.
  intros Hi Hn Hl [rn Hr] Hh. erewrite bind_ok by reflexivity. cbn [dbs nss]. set (e := fresh (dom m)). set (x := mkNs _ _ _).
  erewrite bind_ok by (by apply alter_db_ok). cbn beta. destruct (set_ns_refs d r rn (refs (sdb rn) + 1) s n Hn Hr) as [k Hk].
  unfold ns_append. erewrite bind_ok by (by apply alter_db_ok). eexists _, _. split; [reflexivity|]. unfold good. cbn [dbs nss].
  change (ns (set_refs k n)) with (ns n). rewrite Hl. change ((λ l0, l0 ++ [e]) <$> Some l) with (Some (l ++ [e])).
  eapply (inv_append ext _ _ s (set_refs k n) l e x r name); try done; [by apply inv_ref|apply (inv_ext _ _ _ _ Hi)|apply fresh_none].
Qed.

(** [sdb_ns_set] on a name that refers to another database. *)
Lemma set_replace ext d m s n l1 e l2 x c r f :
  inv ext ∅ m d → d !! s = Some n → entries n = l1 ++ e :: l2 → m !! e = Some x → ns_sdb x = Some c → is_Some (d !! r) → no_force m d c [s; r] →
  (2 * base.size d <= f)%nat →
  ∃ o w, (_ ← sdb_free_db (S f) (Some c); _ ← alter_db r (λ n, set_refs (refs (sdb n) + 1) n);
      x ← load_ns e; _ ← store_ns e (mkNs (ns_name x) (ns_hash x) (Some r)); mret true) (mkWorld d m) = Ok o w ∧ good ext w.
Proof.
  intros Hi Hn Hl Hx Hc [rn Hr] (cn & Hcn & Hnf) Hf. pose proof (inv_begin _ _ _ _ s n Hi (lookup_empty s) Hn) as Hib. rewrite Hl in Hib.
  pose proof (inv_hide _ _ _ _ _ _ _ _ _ _ Hib Hx Hc) as Hih. pose proof (proj1 (inv_ext _ _ _ _ Hi c)) as Hec.
  assert (∀ j, j ∈ [s; r] → 1 < refs (sdb cn) ∨ (j ≠ c ∧ ¬ under (delete e m) d c j)) as Huse.
  { intros j Hj. destruct Hnf as [?|[_ Hu]]; [by left|right]. rewrite Forall_forall in Hu. destruct (Hu j Hj) as [Hjc Hnu]. split; [done|].
    by intros Ht%(under_mono m d); [|apply delete_subseteq|]. }
  destruct (union_hide m ∅ e x Hx (map_disjoint_empty_r _)) as [Hu Hd']. rewrite map_union_empty in Hu.
  destruct (drop_spec ext d (delete e m) (<[e := x]> ∅) (<[s := l1 ++ l2]> ∅) c cn f Hih Hd' Hec Hcn) as (b & v1 & d1 & E & Hi1 & Hv1 & Hk).
  { destruct (decide (1 < refs (sdb cn))) as [|Hle]; [by left|right]. destruct Hnf as [?|[Hs _]]; [lia|].
    destruct (Huse s) as [?|[Hsc Hnu]]; [left|lia|]. split_and!; [eapply sole_mono; [apply delete_subseteq|done|done]| |by rewrite lookup_insert_ne].
    intros j [<-|[? ?%lookup_empty_Some]]%lookup_insert_is_Some'; [|done]. split_and!; [by eexists|done|done]. }
  { lia. }
  rewrite Hu, (bind_ok _ _ _ _ _ E). destruct (Hk r rn (Huse r ltac:(set_solver)) Hr) as [k1 Hr1]. destruct (Hk s n (Huse s ltac:(set_solver)) Hn) as [k2 Hs1].
  assert (v1 !! e = None) as Hev.
  { apply eq_None_not_Some. intros [x' Hx']. pose proof (lookup_weaken _ _ _ _ Hx' Hv1) as [? _]%lookup_delete_Some. done. }
  assert ((v1 ∪ <[e := x]> ∅) !! e = Some x) as Hxe by (rewrite lookup_union_r by done; apply lookup_insert_eq).
  erewrite bind_ok by (by apply alter_db_ok). cbn beta. erewrite bind_ok by (by apply load_ns_ok). erewrite bind_ok by (by eapply store_ns_ok).
  eexists _, _. split; [reflexivity|]. unfold good. cbn [dbs nss]. set (y := mkNs _ _ _).
  assert (<[e := y]> (v1 ∪ <[e := x]> ∅) = <[e := y]> v1) as ->.
  { rewrite insert_union_r by done. rewrite insert_insert_eq, <- insert_union_r by done. by rewrite map_union_empty. }
  pose proof (inv_ref _ _ _ _ r _ Hi1 Hr1) as Hi2. set (d2 := <[r := _]> d1) in *.
  destruct (inv_hash _ _ _ _ Hi e x Hx) as (nm & Hnm & Hh).
  assert (inv ext (<[s := l1 ++ e :: l2]> ∅) (<[e := y]> v1) d2) as Hi3.
  { eapply (inv_unhide _ _ _ _ _ _ _ _ _ r nm); [exact Hi2|apply (inv_ext _ _ _ _ Hi)|done..|].
    cbn. intros e' x' Hin Hx' Hhh. pose proof (lookup_weaken _ _ _ _ Hx' Hv1) as [Hne Hx'']%lookup_delete_Some. apply Hne. symmetry.
    apply (inv_distinct _ _ _ _ Hib s e' e x' x); [rewrite owned_insert_eq; set_solver|rewrite owned_insert_eq; set_solver|done|done|done]. }
  destruct (set_ns_refs d1 r _ (refs (sdb (set_refs k1 rn)) + 1) s _ Hs1 Hr1) as [k3 Hs2]. fold d2 in Hs2.
  pose proof (inv_commit _ _ _ _ _ _ (ns n) _ Hi3 (lookup_empty s) Hs2 Hl) as Hi4. rewrite (insert_id d2 s) in Hi4 by exact Hs2. exact Hi4.
Qed.

Lemma safe_set s name r : safe (OSet s name r).
Proof.
  intros ext [d m] Hi ((n & Hn & [l Hl]) & Hr & Hnf). unfold good in Hi. cbn [dbs nss] in *. unfold ns_run, to_bool.
  assert (∃ o w, sdb_ns_set (fuel_of (mkWorld d m)) (Some s) name (Some r) (mkWorld d m) = Ok o w ∧ good ext w) as (o & w & E & Hg).
  2: { eexists _, _. split; [by rewrite (bind_ok _ _ _ _ _ E)|done]. }
  unfold sdb_ns_set, fuel_of. cbn [dbs]. rewrite Nat.add_comm. erewrite bind_ok by (by apply load_db_ok).
  destruct (find_in_db (has_hash (sdb_hash name)) ext d m s n Hi Hn) as (o & Eo & Ho). rewrite (bind_ok _ _ _ _ _ Eo).
  destruct o as [[e x]|].
  - destruct Ho as ((l1 & l2 & He) & Hx & Hh). destruct (inv_target _ _ _ _ Hi e x Hx) as (c & Hc & _). rewrite Hc.
    case_bool_decide as Hcr; [eexists _, _; by split|]. eapply (set_replace ext d m s n l1 e l2 x c r); try done; [|lia].
    apply (Hnf e x c); [|done|by apply Z.eqb_eq in Hh|done|congruence]. unfold owned. rewrite lookup_empty, Hn, He. set_solver.
  - case_if; [eexists _, _; by split|]. apply (set_append ext d m s n l); try done. intros e x He Hx. unfold entries in Ho. rewrite Hl in Ho.
    specialize (Ho e x He Hx). by apply Z.eqb_neq in Ho.
Qed.

Lemma ns_step_safe o : safe o.
Proof. destruct o; [apply safe_new|apply safe_free|apply safe_ns|apply safe_set|apply safe_unset|apply safe_reset]. Qed.

(** The databases that callers can build, with the references they hold. *)
Inductive reachable : (id → Z) → World → Prop :=
| reachable_init : reachable (λ _, 0) (mkWorld ∅ ∅)
| reachable_step ext w o r w' :
    reachable ext w → op_ok ext w o → ns_run (fuel_of w) o w = Ok r w' → reachable (held o r ext) w'.

Lemma good_init : good (λ _, 0) (mkWorld ∅ ∅).
Proof.
  assert (∀ i, owned ∅ ∅ i = []) as Ho by (intros i; unfold owned; by rewrite !lookup_empty).
  split; cbn [dbs nss].
  - intros e. rewrite lookup_empty. setoid_rewrite Ho. split; [by intros []|intros [i Hi]; by apply elem_of_nil in Hi].
  - intros i j e. rewrite Ho. by intros Hi%elem_of_nil.
  - intros i. rewrite Ho. apply NoDup_nil_2.
  - intros e x. by rewrite lookup_empty.
  - intros c n. by rewrite lookup_empty.
  - intros c. split; [done|lia].
  - intros e x. by rewrite lookup_empty.
  - intros i e e' x x'. rewrite Ho. by intros Hi%elem_of_nil.
Qed.

Lemma reachable_good ext w : reachable ext w → good ext w.
Proof.
  induction 1 as [|ext w o r w' _ Hg Hok E]; [exact good_init|].
  destruct (ns_step_safe o ext w Hg Hok) as (r' & w'' & E' & Hg'). congruence.
Qed.

(** C14: sequences of [sdb_new0], [sdb_free], [sdb_ns], [sdb_ns_set], [sdb_ns_unset] and
    [sdb_ns_reset] that keep to the rules of [op_ok] (pass only live databases, free and
    reset only databases one has a reference to, add no namespace to a database after its
    reset, and let a database lose its last reference by [sdb_free] or by being replaced in
    [sdb_ns_set] only when nobody else refers to any database under it and the databases
    passed are not among those; [sdb_free_forces_children] and [sdb_ns_after_reset] show what
    happens otherwise).  In every state so reached, with namespaces shared and in cycles
    too: every entry refers to a live database, every reference that a caller holds is to a
    live one, the count of each database is exactly the number of entries and callers that
    refer to it, no entry is in two lists or lost, and the entries of a list have distinct
    hashes, those of their names.  And every further call that keeps to the rules returns:
    none touches freed memory, and the depth [fuel_of] is enough. *)
Theorem ns_counts_exact ext w :
  reachable ext w → good ext w ∧ ∀ o, op_ok ext w o → ∃ r w', ns_run (fuel_of w) o w = Ok r w'.
Proof.
  intros Hr%reachable_good. split; [done|]. intros o Ho. destruct (ns_step_safe o ext w Hr Ho) as (r & w' & E & _). eauto.
Qed.

(** A check of [op_ok] that suffices for running examples. *)
Definition rule (ext : id → Z) (w : World) (o : ns_op) : bool :=
  match o with
  | ONew => true
  | OFree s => (1 <=? ext s) && bool_decide (is_Some (dbs w !! s)) && bool_decide (map_Forall (λ _ n, refs (sdb n) = 1) (dbs w))
  | ONs s _ _ => bool_decide (is_Some (dbs w !! s ≫= ns))
  | OSet s name r => bool_decide (is_Some (dbs w !! s ≫= ns)) && bool_decide (is_Some (dbs w !! r))
      && forallb (λ e, negb (from_option ns_hash (-1) (nss w !! e) =? sdb_hash name)) (owned ∅ (dbs w) s)
  | OUnset s _ _ => bool_decide (is_Some (dbs w !! s))
  | OReset s => 1 <=? ext s
  end.

Lemma rule_ok ext w o : rule ext w o = true → op_ok ext w o.
Proof.
  assert (∀ s, is_Some (dbs w !! s ≫= ns) → has_list (dbs w) s) as Hl by (intros s; unfold has_list; destruct (dbs w !! s) as [n|]; [cbn; eauto|by intros []]).
  destruct o as [|s|s name create|s name r|s name r|s]; cbn [rule op_ok]; rewrite ?andb_true_iff, ?bool_decide_eq_true, ?Z.leb_le; [done| |by apply Hl| |done|done].
  - intros [[He [n Hn]] Hall]. split; [done|]. exists n. split; [done|]. right. split; [|constructor]. intros t nt _ Ht. exact (Hall t nt Ht).
  - intros [[Hs Hr] Hf]. split_and!; [by apply Hl|done|]. intros e x c He Hx Hh. rewrite forallb_forall in Hf. specialize (Hf e (proj1 (list_elem_of_In _ _) He)).
    rewrite Hx in Hf. cbn in Hf. by rewrite Hh, Z.eqb_refl in Hf.
Qed.

Fixpoint play (ops : list ns_op) (ext : id → Z) (w : World) : option ((id → Z) * World) :=
  match ops with
  | [] => Some (ext, w)
  | o :: ops' => if rule ext w o then match ns_run (fuel_of w) o w with Ok r w' => play ops' (held o r ext) w' | _ => None end else None
  end.

Lemma play_reachable ops ext w ext' w' : reachable ext w → play ops ext w = Some (ext', w') → reachable ext' w'.
Proof.
  revert ext w. induction ops as [|o ops IH]; intros ext w Hr; cbn [play]; [by intros [= <- <-]|].
  destruct (rule ext w o) eqn:Ho; [|done]. destruct (ns_run (fuel_of w) o w) as [r w1| |] eqn:E; [|done..]. apply IH. eapply reachable_step; [done|by apply rule_ok|done].
Qed.

(** Two nested namespaces, a shared database, a cycle through it, and both undone. *)
Definition demo_play : list ns_op :=
  [ONew; ONs 1 (str "x") true; ONs 2 (str "y") true; ONew; OSet 1 (str "z") 4; OSet 4 (str "up") 1; OUnset 1 (Some (str "z")) None; OReset 4].

Definition demo_check : bool :=
  match play demo_play (λ _, 0) (mkWorld ∅ ∅) with
  | Some (ext, w) =>
      rule ext w (OFree 1) && bool_decide (dom (dbs w) = {[1; 2; 3; 4]}%positive)
      && match ns_run (fuel_of w) (OFree 1) w with
         | Ok (inl true) w' => bool_decide (dom (dbs w') = {[4%positive]}) && bool_decide (dom (nss w') = ∅)
         | _ => false
         end
  | None => false
  end.

Lemma ns_counts_exact_witness :
  ∃ ext w w', play demo_play (λ _, 0) (mkWorld ∅ ∅) = Some (ext, w) ∧ dom (dbs w) = {[1; 2; 3; 4]}%positive ∧ good ext w
    ∧ ns_run (fuel_of w) (OFree 1) w = Ok (inl true) w' ∧ dom (dbs w') = {[4%positive]} ∧ dom (nss w') = ∅.
Proof.
  assert (demo_check = true) as Hc by (vm_compute; reflexivity). unfold demo_check in Hc.
  destruct (play demo_play _ _) as [[ext w]|] eqn:E; [|discriminate Hc].
  destruct (ns_counts_exact ext w (play_reachable _ _ _ _ _ reachable_init E)) as [Hg Hn].
  apply andb_true_iff in Hc as [[Hr Hd]%andb_true_iff Hw]. destruct (Hn (OFree 1) (rule_ok _ _ _ Hr)) as (r & w' & Er). rewrite Er in Hw.
  destruct r as [[|]|]; try discriminate Hw. apply andb_true_iff in Hw as [H1 H2]. exists ext, w, w'.
  split_and!; [reflexivity|exact (bool_decide_eq_true_1 _ Hd)|exact Hg|exact Er|exact (bool_decide_eq_true_1 _ H1)|exact (bool_decide_eq_true_1 _ H2)].
Defined.
