(* ===== verification/NsPath.v ===== *)
(** * Finding and saving namespaces

    Paths that were created are found again, and saving a database reaches every database
    below it.  The last part records what goes wrong: names with equal hashes, lists that
    are gone, and databases that are freed although they are still referred to. *)

From S2P Require Import Prelude Util Ht HashTables Buffer CdbMake CdbTables Cdb SdbCore Ns NsRefs.

(** ** Paths *)

Definition has_lists (w : World) : Prop := ∀ i n, dbs w !! i = Some n → is_Some (ns n).

(** How the world grows by creating namespaces: nothing is changed but the lists, which
    get longer. *)
Definition grows (w w' : World) : Prop :=
  nss w ⊆ nss w' ∧ has_lists w' ∧ ∀ i n, dbs w !! i = Some n → ∃ l, dbs w' !! i = Some (set_ns (Some (entries n ++ l)) n).

Lemma entries_set_ns n l : entries (set_ns (Some l) n) = l.
Proof. done. Qed.

Lemma grows_refl w : has_lists w → grows w w.
Proof.
  intros Hl. split_and!; [done|done|]. intros i n Hn. exists []. rewrite app_nil_r, Hn. destruct (Hl i n Hn) as [l E].
  unfold entries. rewrite E. destruct n. cbn in *. by subst.
Qed.

Lemma grows_trans w1 w2 w3 : grows w1 w2 → grows w2 w3 → grows w1 w3.
Proof.
  intros (H1 & H2 & H3) (K1 & K2 & K3). split_and!; [by etrans|done|]. intros i n Hn. destruct (H3 i n Hn) as [l Hl].
  destruct (K3 _ _ Hl) as [l' Hl']. exists (l ++ l'). rewrite Hl'. cbn. by rewrite app_assoc.
Qed.

Lemma find_ns_ok f l d m o w : find_ns f l (mkWorld d m) = Ok o w → w = mkWorld d m ∧ Forall (λ e, is_Some (m !! e)) (match o with Some _ => [] | None => l end).
Proof.
  revert o. induction l as [|e l IH]; intros o; cbn [find_ns]; [by intros [= <- <-]|]. unfold mbind, W_bind, load_ns. cbn [nss].
  destruct (m !! e) as [x|] eqn:Ex; [|done]. destruct (f x); [by intros [= <- <-]|]. intros [-> Hf]%IH. split; [done|].
  destruct o; [done|]. constructor; [eauto|done].
Qed.

Lemma find_ns_grows f l l' d d' m m' e x w :
  m ⊆ m' → find_ns f l (mkWorld d m) = Ok (Some (e, x)) w → find_ns f (l ++ l') (mkWorld d' m') = Ok (Some (e, x)) (mkWorld d' m').
Proof.
  intros Hm. induction l as [|a l IH]; [done|]. cbn [find_ns app]. unfold mbind, W_bind, load_ns. cbn [nss].
  destruct (m !! a) as [y|] eqn:Ea; [|done]. rewrite (lookup_weaken _ _ _ _ Ea Hm). destruct (f y); [by intros [= -> -> _]|exact IH].
Qed.

Lemma find_ns_append f l d d' m e x w :
  m !! e = None → f x = true → find_ns f l (mkWorld d m) = Ok None w →
  find_ns f (l ++ [e]) (mkWorld d' (<[e := x]> m)) = Ok (Some (e, x)) (mkWorld d' (<[e := x]> m)).
Proof.
  intros Hm Hx. induction l as [|a l IH]; cbn [find_ns app]; unfold mbind, W_bind, load_ns; cbn [nss].
  - intros _. by rewrite lookup_insert_eq, Hx.
  - destruct (m !! a) as [y|] eqn:Ea; [|done]. rewrite lookup_insert_ne, Ea by congruence. destruct (f y); [done|exact IH].
Qed.

(** A namespace that is found stays what it is. *)
Lemma sdb_ns_grows s name b b' c w w' w2 :
  grows w w' → sdb_ns (Some s) name b w = Ok (Some c) w2 → w2 = w → sdb_ns (Some s) name b' w' = Ok (Some c) w'.
Proof.
  intros (Hm & Hl & Hd) E ->. destruct w as [d m], w' as [d' m']. cbn in Hm, Hd. unfold sdb_ns in *. destruct (hd0 name =? 0); [done|].
  cbn zeta in *. unfold mbind at 1, W_bind at 1, load_db at 1 in E. cbn [dbs] in E. destruct (d !! s) as [n|] eqn:Hn; [|done].
  destruct (Hd s n Hn) as [l Hn']. erewrite bind_ok by (by apply load_db_ok). rewrite entries_set_ns.
  unfold mbind at 1, W_bind at 1 in E. destruct (find_ns _ _ _) as [o wf| |] eqn:Ef; [|done..].
  destruct (find_ns_ok _ _ _ _ _ _ Ef) as [-> Hf]. destruct o as [[e x]|].
  - rewrite (bind_ok _ _ _ _ _ (find_ns_grows _ _ l _ d' _ m' _ _ _ Hm Ef)). revert E. unfold mret, W_ret. by intros [= ->].
  - exfalso. destruct (negb b || _); [done|]. destruct (ns_new_run d m s n name (sdb_hash name) Hn) as [[_ E1]|(n0 & _ & _ & _ & E1)]; cbn zeta in E1; rewrite (bind_ok _ _ _ _ _ E1) in E; [done|].
    unfold ns_append in E. assert (fresh (dom d) ≠ s) as Hne by (intros Hf'; pose proof (fresh_none d); congruence).
    erewrite bind_ok in E by (apply alter_db_ok; rewrite lookup_insert_ne by done; exact Hn).
    erewrite bind_ok in E by (apply load_ns_ok, lookup_insert_eq). injection E as _ Ed Em.
    pose proof (fresh_none m) as Hfm.
    pose proof (f_equal (lookup (fresh (dom m))) Em) as Hk. rewrite Hfm in Hk. by rewrite lookup_insert_eq in Hk.
Qed.

(** One step of a path: the world grows, and the result is found again. *)
Lemma sdb_ns_step s name w c w' :
  has_lists w → sdb_ns (Some s) name true w = Ok (Some c) w' → grows w w' ∧ sdb_ns (Some s) name false w' = Ok (Some c) w'.
Proof.
  intros Hl E. destruct w as [d m]. pose proof E as E0. unfold sdb_ns in E. destruct (hd0 name =? 0) eqn:Hname; [done|].
  cbn zeta in E. unfold mbind at 1, W_bind at 1, load_db at 1 in E. cbn [dbs] in E. destruct (d !! s) as [n|] eqn:Hn; [|done].
  unfold mbind at 1, W_bind at 1 in E. destruct (find_ns _ _ _) as [o wf| |] eqn:Ef; [|done..].
  destruct (find_ns_ok _ _ _ _ _ _ Ef) as [-> Hf]. destruct o as [[e x]|].
  - assert (w' = mkWorld d m) as -> by (revert E; unfold mret, W_ret; by intros [= _ ->]). pose proof (grows_refl _ Hl) as Hg. split; [done|].
    by eapply sdb_ns_grows.
  - destruct (negb true || _); [done|]. destruct (ns_new_run d m s n name (sdb_hash name) Hn) as [[_ E1]|(n0 & _ & Hl0 & Hk0 & E1)]; cbn zeta in E1; rewrite (bind_ok _ _ _ _ _ E1) in E; [done|].
    assert (d !! fresh (dom d) = None) as Hfd by apply fresh_none. assert (m !! fresh (dom m) = None) as Hfm by apply fresh_none.
    assert (fresh (dom d) ≠ s) as Hne by congruence.
    unfold ns_append in E. erewrite bind_ok in E by (apply alter_db_ok; rewrite lookup_insert_ne by done; exact Hn).
    erewrite bind_ok in E by (apply load_ns_ok, lookup_insert_eq). cbn [ns_sdb] in E. unfold mret, W_ret in E. injection E as <- <-.
    destruct (Hl s n Hn) as [l Hnl]. rewrite Hnl. change ((λ l0, l0 ++ [fresh (dom m)]) <$> Some l) with (Some (l ++ [fresh (dom m)])).
    set (c := fresh (dom d)) in *. set (e := fresh (dom m)) in *. set (x := mkNs _ _ _). split.
    + split_and!; cbn [dbs nss]; [by apply insert_subseteq| |].
      * intros i ni. cbn [dbs]. intros [[<- <-]|[_ [[<- <-]|[_ Hi]]%lookup_insert_Some]]%lookup_insert_Some; [done|by rewrite Hl0|by eapply Hl].
      * intros i ni Hi. destruct (decide (i = s)) as [->|].
        -- exists [e]. rewrite lookup_insert_eq. replace ni with n by congruence. unfold entries. by rewrite Hnl.
        -- exists []. rewrite app_nil_r, lookup_insert_ne, lookup_insert_ne by congruence. rewrite Hi. destruct (Hl i ni Hi) as [li Hli].
           unfold entries. rewrite Hli. destruct ni. cbn in *. by subst.
    + unfold sdb_ns. rewrite Hname. cbn zeta. erewrite bind_ok by (apply load_db_ok, lookup_insert_eq). rewrite entries_set_ns.
      assert (find_ns (has_hash (sdb_hash name)) (l ++ [e]) (mkWorld (<[s:=set_ns (Some (l ++ [e])) n]> (<[c:=n0]> d)) (<[e:=x]> m))
        = Ok (Some (e, x)) (mkWorld (<[s:=set_ns (Some (l ++ [e])) n]> (<[c:=n0]> d)) (<[e:=x]> m))) as Efn.
      { eapply find_ns_append; [done|unfold has_hash; apply Z.eqb_refl|]. unfold entries in Ef. rewrite Hnl in Ef. exact Ef. }
      by rewrite (bind_ok _ _ _ _ _ Efn).
Qed.

(** Nothing keeps namespaces from being created: no lock, and no file name that a longer
    one is made of. *)
Definition unlocked (w : World) : Prop := ∀ i n, dbs w !! i = Some n → ns_lock n = 0 ∧ s_dir n = None.

(** What holds of new databases and does not depend on the list holds of all of them. *)
Lemma sdb_ns_nodes (P : Node → Prop) s name w c w' :
  (∀ n l, P n → P (set_ns l n)) → (∀ n, ns_lock n = 0 ∧ s_dir n = None → sdb_new0 = Some (sdb n) → P n) →
  (∀ i n, dbs w !! i = Some n → P n) → sdb_ns (Some s) name true w = Ok (Some c) w' → ∀ i n, dbs w' !! i = Some n → P n.
Proof.
  intros Hset Hnew Hu E. destruct w as [d m]. unfold sdb_ns in E. destruct (hd0 name =? 0); [done|].
  cbn zeta in E. unfold mbind at 1, W_bind at 1, load_db at 1 in E. cbn [dbs] in E. destruct (d !! s) as [n|] eqn:Hn; [|done].
  unfold mbind at 1, W_bind at 1 in E. destruct (find_ns _ _ _) as [o wf| |] eqn:Ef; [|done..].
  destruct (find_ns_ok _ _ _ _ _ _ Ef) as [-> Hf]. destruct o as [[e x]|]; [revert E; unfold mret, W_ret; by intros [= _ <-]|].
  destruct (negb true || _); [done|]. destruct (ns_new_run d m s n name (sdb_hash name) Hn) as [[_ E1]|(n0 & [_ Hs0] & _ & Hk0 & E1)]; cbn zeta in E1; rewrite (bind_ok _ _ _ _ _ E1) in E; [done|].
  assert (fresh (dom d) ≠ s) as Hne by (intros Hf'; pose proof (fresh_none d); congruence).
  unfold ns_append in E. erewrite bind_ok in E by (apply alter_db_ok; rewrite lookup_insert_ne by done; exact Hn).
  erewrite bind_ok in E by (apply load_ns_ok, lookup_insert_eq). unfold mret, W_ret in E. injection E as _ <-.
  intros i ni. cbn [dbs]. intros [[<- <-]|[_ [[<- <-]|[_ Hi]]%lookup_insert_Some]]%lookup_insert_Some; [by apply Hset, (Hu s n)|by apply Hnew|by eapply Hu].
Qed.

Lemma sdb_ns_unlocked s name w c w' : unlocked w → sdb_ns (Some s) name true w = Ok (Some c) w' → unlocked w'.
Proof. intros Hu E. exact (sdb_ns_nodes (λ n, ns_lock n = 0 ∧ s_dir n = None) s name w c w' (λ _ _ H, H) (λ _ H _, H) Hu E). Qed.

(** In a world in order the call succeeds. *)
Lemma sdb_ns_creates ext s name w :
  good ext w → has_lists w → unlocked w → is_Some (dbs w !! s) → hd0 name ≠ 0 →
  ∃ c w', sdb_ns (Some s) name true w = Ok (Some c) w' ∧ good ext w' ∧ is_Some (dbs w' !! c).
Proof.
  intros Hg Hl Hu [n Hn] Hnm. destruct (safe_ns s name true ext w Hg) as (r & w' & E & Hg'); [exists n; eauto|].
  unfold ns_run, to_ptr, mbind, W_bind in E. destruct (sdb_ns (Some s) name true w) as [o w1| |] eqn:E1; [|done..]. injection E as <- ->.
  cbn [held] in Hg'. enough (∃ c, o = Some c ∧ is_Some (dbs w' !! c)) as (c & -> & Hc) by eauto.
  destruct w as [d m]. cbn in Hn. unfold sdb_ns in E1. rewrite (proj2 (Z.eqb_neq _ _)) in E1 by done. cbn zeta in E1.
  erewrite bind_ok in E1 by (by apply load_db_ok). destruct (find_in_db (has_hash (sdb_hash name)) ext d m s n Hg Hn) as (o' & Eo & Ho).
  rewrite (bind_ok _ _ _ _ _ Eo) in E1. destruct o' as [[e x]|].
  - destruct Ho as (_ & Hx & _). destruct (inv_target _ _ _ _ Hg e x Hx) as (c & Hc & Hlc). rewrite Hc in E1. unfold mret, W_ret in E1.
    injection E1 as <- <-. eauto.
  - destruct (Hu s n Hn) as [Hlk Hdir]. rewrite Hlk in E1. cbn [negb orb Z.eqb] in E1.
    destruct (ns_new_run d m s n name (sdb_hash name) Hn) as [[? _]|(n0 & _ & _ & _ & E2)]; [done|]. cbn zeta in E2. rewrite (bind_ok _ _ _ _ _ E2) in E1.
    assert (fresh (dom d) ≠ s) as Hne by (intros Hf'; pose proof (fresh_none d); congruence).
    unfold ns_append in E1. erewrite bind_ok in E1 by (apply alter_db_ok; rewrite lookup_insert_ne by done; exact Hn).
    erewrite bind_ok in E1 by (apply load_ns_ok, lookup_insert_eq). unfold mret, W_ret in E1. injection E1 as <- <-. eexists. split; [done|].
    cbn [dbs]. rewrite lookup_insert_ne by done. rewrite lookup_insert_eq. eauto.
Qed.

(** A path as its names, and the walk along them. *)
Definition name_ok (nm : bytes) : Prop := is_cstr nm ∧ nm ≠ [] ∧ chr "/" ∉ nm.

Fixpoint join_path (names : list bytes) : bytes :=
  match names with
  | [] => []
  | [nm] => nm
  | nm :: names' => nm ++ chr "/" :: join_path names'
  end.

Fixpoint walk (s : id) (names : list bytes) (create : bool) : W (option id) :=
  match names with
  | [] => mret (Some s)
  | nm :: names' => o ← sdb_ns (Some s) nm create; match o with None => mret None | Some c => walk c names' create end
  end.

Lemma name_hd0 nm r : name_ok nm → hd0 (nm ++ r) ≠ 0.
Proof. intros (Hc & Hne & _). destruct nm as [|c nm]; [done|]. apply Forall_cons_1 in Hc as [Hc _]. cbn. unfold is_char in Hc. lia. Qed.

Lemma ns_path_loop_walk names fuel s b w :
  names ≠ [] → Forall name_ok names → (length (join_path names) < fuel)%nat → ns_path_loop fuel (Some s) (join_path names) b w = walk s names b w.
Proof.
  intros Hne Hok. revert fuel s w Hne. induction Hok as [|nm names Hnm Hok IH]; intros fuel s w Hne Hf; [done|].
  destruct fuel as [|fuel]; [lia|]. destruct names as [|nm2 names].
  - cbn [join_path ns_path_loop walk]. rewrite (proj2 (strchr_None _ _)) by apply Hnm. unfold mbind, W_bind.
    destruct (sdb_ns (Some s) nm b w) as [[c|] w'| |]; done.
  - change (join_path (nm :: nm2 :: names)) with (nm ++ chr "/" :: join_path (nm2 :: names)) in *. cbn [ns_path_loop walk].
    rewrite strchr_app by apply Hnm. rewrite length_app in *. cbn [length tail] in *.
    replace (length nm + S (length (join_path (nm2 :: names))) - S (length (join_path (nm2 :: names))))%nat with (length nm) by lia.
    rewrite take_app_length. unfold mbind, W_bind. destruct (sdb_ns (Some s) nm b w) as [[c|] w'| |]; [|done..]. apply IH; [done|lia].
Qed.

Lemma sdb_ns_path_walk names s b w :
  names ≠ [] → Forall name_ok names → sdb_ns_path (Some s) (join_path names) b w = walk s names b w.
Proof.
  intros Hne Hok. unfold sdb_ns_path. rewrite (proj2 (Z.eqb_neq _ _)); [apply ns_path_loop_walk; [done|done|lia]|].
  destruct Hok as [|nm [|nm2 names] Hnm _]; [done| |by apply name_hd0]. pose proof (name_hd0 nm [] Hnm) as H. by rewrite app_nil_r in H.
Qed.

Lemma walk_creates (P : Node → Prop) ext s names w :
  (∀ n l, P n → P (set_ns l n)) → (∀ n, ns_lock n = 0 ∧ s_dir n = None → sdb_new0 = Some (sdb n) → P n) → (∀ i n, dbs w !! i = Some n → P n) →
  good ext w → has_lists w → unlocked w → is_Some (dbs w !! s) → Forall name_ok names →
  ∃ c w', walk s names true w = Ok (Some c) w' ∧ good ext w' ∧ grows w w' ∧ is_Some (dbs w' !! c) ∧ walk s names false w' = Ok (Some c) w'
    ∧ unlocked w' ∧ ∀ i n, dbs w' !! i = Some n → P n.
Proof.
  intros Hset Hnew HP Hg Hl Hu Hs Hok. revert s w HP Hg Hl Hu Hs.
  induction Hok as [|nm names Hnm _ IH]; intros s w HP Hg Hl Hu Hs; cbn [walk].
  { exists s, w. split_and!; [done|done|by apply grows_refl|done..]. }
  pose proof (name_hd0 nm [] Hnm) as Hhd. rewrite app_nil_r in Hhd.
  destruct (sdb_ns_creates ext s nm w Hg Hl Hu Hs Hhd) as (c & w1 & E & Hg1 & Hc). destruct (sdb_ns_step _ _ _ _ _ Hl E) as [Hgr E'].
  destruct (IH c w1) as (c' & w2 & E2 & Hg2 & Hgr2 & Hc2 & E2' & Hu2 & HP2); [by eapply sdb_ns_nodes|done|apply Hgr|by eapply sdb_ns_unlocked|done|].
  exists c', w2. split_and!; [by rewrite (bind_ok _ _ _ _ _ E)|done|by eapply grows_trans|done| |done|done].
  by rewrite (bind_ok _ _ _ _ _ (sdb_ns_grows _ _ _ false _ _ _ _ Hgr2 E' eq_refl)).
Qed.

(** Creating a path of non-empty names succeeds when no database is locked, whatever
    part of it exists already; what was there stays as it was, and looking the path up
    afterwards, without creating, gives the same live database and changes nothing. *)
Theorem sdb_ns_path_found ext s names w :
  good ext w → has_lists w → unlocked w → is_Some (dbs w !! s) → names ≠ [] → Forall name_ok names →
  ∃ c w', sdb_ns_path (Some s) (join_path names) true w = Ok (Some c) w' ∧ good ext w' ∧ grows w w' ∧ is_Some (dbs w' !! c)
    ∧ sdb_ns_path (Some s) (join_path names) false w' = Ok (Some c) w'.
Proof.
  intros Hg Hl Hu Hs Hne Hok. setoid_rewrite sdb_ns_path_walk; [|done..].
  destruct (walk_creates (λ _, True) ext s names w) as (c & w' & H1 & H2 & H3 & H4 & H5 & _); [done..|]. by exists c, w'.
Qed.

(** A world with a single new database. *)
Lemma single_db : ∃ ext i w, good ext w ∧ has_lists w ∧ unlocked w ∧ is_Some (dbs w !! i) ∧ ext i = 1
  ∧ nss w = ∅ ∧ ∀ j n, dbs w !! j = Some n → sdb_new0 = Some (sdb n) ∧ entries n = [].
Proof.
  destruct new_db_node as (n & [Hr Hs0] & Hl & Hdir & Hlk & E). set (i := fresh (dom (∅ : gmap id Node))).
  exists (bump i (λ _, 0)), i, (mkWorld (<[i := n]> ∅) ∅). split_and!.
  - apply inv_new; [apply good_init|apply lookup_empty|done|unfold entries; by rewrite Hl|done].
  - intros j nj. cbn [dbs]. intros [[<- <-]|[_ Hj]]%lookup_insert_Some; [rewrite Hl; eauto|by rewrite lookup_empty in Hj].
  - intros j nj. cbn [dbs]. intros [[<- <-]|[_ Hj]]%lookup_insert_Some; [done|by rewrite lookup_empty in Hj].
  - cbn [dbs]. rewrite lookup_insert_eq. eauto.
  - by rewrite bump_eq.
  - done.
  - intros j nj. cbn [dbs]. intros [[<- <-]|[_ Hj]]%lookup_insert_Some; [unfold entries; by rewrite Hl|by rewrite lookup_empty in Hj].
Qed.

Lemma sdb_ns_path_found_witness :
  ∃ s w c w', sdb_ns_path (Some s) (str "a/b") true w = Ok (Some c) w' ∧ sdb_ns_path (Some s) (str "a/b") false w' = Ok (Some c) w'.
Proof.
  destruct single_db as (ext & i & w & Hg & Hl & Hu & Hi & _).
  destruct (sdb_ns_path_found ext i [str "a"; str "b"] w Hg Hl Hu Hi) as (c & w' & E & _ & _ & _ & E'); [done| |by exists i, w, c, w'].
  repeat constructor; cbn; unfold is_char; try lia; try done; by apply (bool_decide_unpack _).
Defined.

(** ** Saving *)

Section Sync.
Context (sync : list id → id → bool) (ext : id → Z) (w : World) (Hg : good ext w).

(** The databases below [s]. *)
Inductive below : id → id → Prop :=
| below_refl s : below s s
| below_step s n e x c t :
    dbs w !! s = Some n → e ∈ entries n → nss w !! e = Some x → ns_sdb x = Some c → below c t → below s t.

Definition seen_ok (seen : list id) : Prop := NoDup seen ∧ ∀ e, e ∈ seen → is_Some (nss w !! e).

(** All of the calls succeed, in their order, after those already [done]. *)
Fixpoint all_synced (done : list id) (calls : list id) : bool :=
  match calls with [] => true | c :: calls' => sync done c && all_synced (done ++ [c]) calls' end.

Lemma all_synced_app done a b : all_synced done (a ++ b) = all_synced done a && all_synced (done ++ a) b.
Proof.
  revert done. induction a as [|c a IH]; intros done; cbn [app all_synced]; [by rewrite app_nil_r|]. by rewrite IH, andb_assoc, <- app_assoc.
Qed.

(** What a call does to the state: each entry it adds leads to a database that it saves
    and whose entries it sees too. *)
Definition advances (st st' : sync_state) : Prop :=
  ∃ new more, st'.1.2 = st.1.2 ++ new ∧ st'.2 = st.2 ++ more ∧ st'.1.1 = st.1.1 && all_synced st.2 more ∧ seen_ok st'.1.2
  ∧ ∀ e, e ∈ new → ∃ x c n, nss w !! e = Some x ∧ ns_sdb x = Some c ∧ dbs w !! c = Some n ∧ c ∈ st'.2 ∧ entries n ⊆ st'.1.2.

Lemma advances_refl st : seen_ok st.1.2 → advances st st.
Proof.
  intros Hs. exists [], []. cbn [all_synced]. rewrite !app_nil_r, andb_true_r. split_and!; [done..|]. intros e He. by apply elem_of_nil in He.
Qed.

Lemma advances_trans st1 st2 st3 : advances st1 st2 → advances st2 st3 → advances st1 st3.
Proof.
  intros (n1 & m1 & E1 & F1 & G1 & _ & H1) (n2 & m2 & E2 & F2 & G2 & S2 & H2). exists (n1 ++ n2), (m1 ++ m2).
  rewrite !app_assoc, <- E1, <- F1, all_synced_app, andb_assoc, <- G1, <- F1. split_and!; [done..|].
  intros e [He|He]%elem_of_app; [|by apply H2]. destruct (H1 e He) as (x & c & n & ? & ? & ? & Hc & Hn). exists x, c, n.
  rewrite E2, F2. set_solver.
Qed.

Lemma advances_call st st' s : advances st st' → advances st (sdb_sync_call sync s st').
Proof.
  intros (n1 & m1 & E1 & F1 & G1 & S1 & H1). exists n1, (m1 ++ [s]). unfold sdb_sync_call. cbn [fst snd].
  rewrite F1, G1, all_synced_app, app_assoc, andb_assoc. cbn [all_synced]. rewrite andb_true_r. split_and!; [done..|].
  intros e He. destruct (H1 e He) as (x & c & n & ? & ? & ? & Hc & Hn). exists x, c, n. rewrite <- F1. set_solver.
Qed.

Lemma seen_size seen : seen_ok seen → (length seen <= base.size (nss w))%nat.
Proof.
  intros [Hnd Hs]. rewrite <- size_dom. rewrite <- (size_list_to_set (C := gset id)) by done. apply subseteq_size.
  intros e He%elem_of_list_to_set. by apply elem_of_dom, Hs.
Qed.

Lemma owned_entries s n e : dbs w !! s = Some n → e ∈ entries n → ∃ x c nc, nss w !! e = Some x ∧ ns_sdb x = Some c ∧ dbs w !! c = Some nc.
Proof.
  intros Hn He. assert (is_Some (nss w !! e)) as [x Hx].
  { apply (inv_own _ _ _ _ Hg). exists s. unfold owned. by rewrite lookup_empty, Hn. }
  destruct (inv_target _ _ _ _ Hg e x Hx) as (c & Hc & [nc Hnc]). by exists x, c, nc.
Qed.

Lemma ns_sync_spec fuel s n st :
  dbs w !! s = Some n → seen_ok st.1.2 → (base.size (nss w) < fuel + length st.1.2)%nat →
  ∃ st', ns_sync sync fuel s st w = Ok st' w ∧ advances st st' ∧ entries n ⊆ st'.1.2 ∧ s ∈ st'.2.
Proof.
  revert s n st. induction fuel as [|fuel IH]; intros s n st Hn Hs Hf.
  { pose proof (seen_size _ Hs). cbn in Hf. lia. }
  cbn [ns_sync]. assert (load_db s w = Ok n w) as Eld by (unfold load_db; by rewrite Hn). rewrite (bind_ok _ _ _ _ _ Eld).
  match goal with |- context [foreach ?f _ _] => set (body := f) end.
  assert (∀ l st, l ⊆ entries n → seen_ok st.1.2 → (base.size (nss w) < S fuel + length st.1.2)%nat →
            ∃ st', foreach body l st w = Ok st' w ∧ advances st st' ∧ l ⊆ st'.1.2) as Hloop.
  { clear st Hs Hf. intros l. induction l as [|e l IHl]; intros st Hl Hs Hf; cbn [foreach].
    { exists st. split_and!; [done|by apply advances_refl|]. intros e He. by apply elem_of_nil in He. }
    assert (∃ st1, body e st w = Ok st1 w ∧ advances st st1 ∧ e ∈ st1.1.2) as (st1 & E1 & Ha1 & He1).
    { unfold body. case_bool_decide as Hin; [exists st; split_and!; [done|by apply advances_refl|done]|].
      destruct (owned_entries s n e Hn) as (x & c & nc & Hx & Hc & Hnc); [apply Hl; by left|].
      assert (load_ns e w = Ok x w) as El by (unfold load_ns; by rewrite Hx). rewrite (bind_ok _ _ _ _ _ El), Hc.
      assert (seen_ok (st.1.2 ++ [e])) as Hs1.
      { destruct Hs as [Hnd Hd]. split; [apply NoDup_app; split_and!; [done|set_solver|apply NoDup_singleton]|].
        intros e' [?|Heq%list_elem_of_singleton]%elem_of_app; [eauto|subst e'; eauto]. }
      destruct (IH c nc (st.1.1, st.1.2 ++ [e], st.2) Hnc Hs1) as (st2 & E2 & Ha2 & Hnc2 & Hc2); [cbn; rewrite length_app; cbn; lia|].
      rewrite (bind_ok _ _ _ _ _ E2). exists (sdb_sync_call sync c st2). split_and!; [done| |].
      - apply advances_call. destruct Ha2 as (new & more & E3 & F3 & G3 & S3 & H3). cbn [fst snd] in *.
        exists (e :: new), more. rewrite E3, <- app_assoc. split_and!; [done..|by rewrite E3, <- app_assoc in S3|].
        intros e' [->|He']%elem_of_cons; [exists x, c, nc|destruct (H3 e' He') as (x' & c' & n' & H')]; [|exists x', c', n'];
          rewrite E3, <- app_assoc in *; naive_solver.
      - destruct Ha2 as (new & more & E3 & _). unfold sdb_sync_call. cbn [fst snd] in *. rewrite E3. set_solver. }
    rewrite (bind_ok _ _ _ _ _ E1). destruct Ha1 as (new & more & E3 & F3 & G3 & S3 & H3).
    destruct (IHl st1) as (st2 & E2 & Ha2 & Hl2); [set_solver|done|rewrite E3, length_app; lia|].
    exists st2. split_and!; [done|eapply advances_trans; [|exact Ha2]; by exists new, more|].
    destruct Ha2 as (new2 & _ & E4 & _). rewrite E4 in *. set_solver. }
  destruct (Hloop (entries n) st) as (st1 & E & Ha & Hl); [done|done|done|]. rewrite (bind_ok _ _ _ _ _ E).
  eexists. split_and!; [reflexivity|by apply advances_call|done|]. unfold sdb_sync_call. set_solver.
Qed.

(** C15: saving with namespaces ends, also when the namespaces form cycles, and calls
    [sdb_sync] on every database below the one it is given; it reports success exactly
    when all those calls do, each of which may answer as it likes. *)
Theorem sdb_ns_sync_reaches s :
  is_Some (dbs w !! s) →
  ∃ calls, sdb_ns_sync sync (S (base.size (nss w))) (Some s) w = Ok (all_synced [] calls, calls) w ∧ ∀ c, below s c → c ∈ calls.
Proof.
  intros [n Hn]. destruct (ns_sync_spec (S (base.size (nss w))) s n (true, [], []) Hn) as (st & E & Ha & Hn' & Hs).
  { split; [apply NoDup_nil_2|]. intros e He. by apply elem_of_nil in He. }
  { cbn. lia. }
  exists st.2. unfold sdb_ns_sync. rewrite (bind_ok _ _ _ _ _ E). destruct Ha as (new & more & E1 & F1 & G1 & _ & H1). cbn [fst snd app andb] in *.
  split; [by rewrite G1, F1|]. rewrite E1 in *. clear E. intros c Hc. revert n Hn Hn' Hs.
  induction Hc as [|s n0 e x c t Hn0 He Hx Hc _ IH]; intros n Hn Hn' Hs; [done|]. replace n0 with n in * by congruence.
  destruct (H1 e) as (x' & c' & nc & ? & ? & ? & Hcin & Hsub); [by apply Hn'|]. assert (c' = c) as -> by congruence. by apply (IH nc).
Qed.

End Sync.

Lemma sdb_ns_sync_reaches_witness :
  ∃ ext s w, good ext w ∧ is_Some (dbs w !! s)
    ∧ ∃ calls, sdb_ns_sync (λ calls _, bool_decide (calls = [])) (S (base.size (nss w))) (Some s) w
        = Ok (all_synced (λ calls _, bool_decide (calls = [])) [] calls, calls) w ∧ ∀ c, below w s c → c ∈ calls.
Proof.
  destruct single_db as (ext & i & w & Hg & _ & _ & Hi & _). exists ext, i, w. split; [exact Hg|]. split; [exact Hi|].
  exact (sdb_ns_sync_reaches (λ calls _, bool_decide (calls = [])) ext w Hg i Hi).
Defined.

(** ** What goes wrong *)

(** A namespace is looked up by the hash of its name only: the namespace of another
    name with the same hash is returned, and the names [bC] and [cb] are such a pair. *)
Theorem sdb_ns_hash_collision s w c w' a b :
  has_lists w → sdb_ns (Some s) a true w = Ok (Some c) w' → sdb_hash a = sdb_hash b → hd0 b ≠ 0 →
  sdb_ns (Some s) b true w' = Ok (Some c) w'.
Proof.
  intros Hl E Hh Hb. destruct (sdb_ns_step _ _ _ _ _ Hl E) as [_ E']. unfold sdb_ns in E' |- *. rewrite (proj2 (Z.eqb_neq _ _) Hb), <- Hh.
  destruct (hd0 a =? 0); [done|]. cbn zeta in *. unfold mbind, W_bind in *. destruct (load_db s w'); [|done..].
  destruct (find_ns _ _ _) as [[[e x]|] wf| |]; done.
Qed.

Lemma sdb_ns_hash_collision_witness :
  ∃ s w c w', str "bC" ≠ str "cb" ∧ sdb_ns (Some s) (str "bC") true w = Ok (Some c) w' ∧ sdb_ns (Some s) (str "cb") true w' = Ok (Some c) w'.
Proof.
  destruct single_db as (ext & i & w & Hg & Hl & Hu & Hi & _).
  destruct (sdb_ns_creates ext i (str "bC") w Hg Hl Hu Hi) as (c & w' & E & _); [done|]. exists i, w, c, w'. split; [done|]. split; [done|].
  apply (sdb_ns_hash_collision i w c w' (str "bC") (str "cb") Hl E); [by vm_compute|done].
Defined.

(** After [sdb_ns_reset] a database has no list, so that a namespace created in it is
    returned but never found again: each call gives another new database. *)
Theorem sdb_ns_after_reset s n w name :
  dbs w !! s = Some n → ns n = None → hd0 name ≠ 0 → ns_lock n = 0 → s_dir n = None →
  ∃ c w', sdb_ns (Some s) name true w = Ok (Some c) w' ∧ dbs w !! c = None ∧ sdb_ns (Some s) name false w' = Ok None w'
    ∧ ∃ c' w'', sdb_ns (Some s) name true w' = Ok (Some c') w'' ∧ c' ≠ c.
Proof.
  intros Hn Hl Hnm Hlk Hdir.
  assert (∀ d m, d !! s = Some n → ∃ c w', sdb_ns (Some s) name true (mkWorld d m) = Ok (Some c) w' ∧ d !! c = None
            ∧ is_Some (dbs w' !! c) ∧ dbs w' !! s = Some n) as Hone.
  { intros d m Hn'. unfold sdb_ns. rewrite (proj2 (Z.eqb_neq _ _) Hnm). cbn zeta. erewrite bind_ok by (by apply load_db_ok).
    unfold entries. rewrite Hl. cbn [default from_option Datatypes.id find_ns]. erewrite bind_ok by reflexivity. rewrite Hlk. cbn [negb orb Z.eqb].
    destruct (ns_new_run d m s n name (sdb_hash name) Hn') as [[? _]|(n0 & _ & _ & _ & E)]; [done|]. cbn zeta in E. rewrite (bind_ok _ _ _ _ _ E).
    assert (d !! fresh (dom d) = None) as Hf by apply fresh_none. assert (fresh (dom d) ≠ s) as Hne by congruence.
    unfold ns_append. erewrite bind_ok by (apply alter_db_ok; rewrite lookup_insert_ne by done; exact Hn').
    erewrite bind_ok by (apply load_ns_ok, lookup_insert_eq). eexists _, _. split_and!; [reflexivity|done|..]; cbn [dbs].
    - rewrite lookup_insert_ne, lookup_insert_eq by done. eauto.
    - rewrite lookup_insert_eq, Hl. f_equal. destruct n. cbn in *. by subst. }
  destruct w as [d m]. destruct (Hone d m Hn) as (c & [d' m'] & E & Hc & Hcl & Hs'). exists c, (mkWorld d' m'). split_and!; [done|done| |].
  - unfold sdb_ns. rewrite (proj2 (Z.eqb_neq _ _) Hnm). cbn zeta. erewrite bind_ok by (by apply load_db_ok).
    unfold entries. rewrite Hl. done.
  - destruct (Hone d' m' Hs') as (c' & w'' & E' & Hc' & _). exists c', w''. split; [done|]. intros ->. cbn in Hcl. rewrite Hc' in Hcl. by destruct Hcl.
Qed.

Lemma sdb_ns_after_reset_witness :
  ∃ s w c w', sdb_ns (Some s) (str "a") true w = Ok (Some c) w' ∧ sdb_ns (Some s) (str "a") false w' = Ok None w'.
Proof.
  destruct new_db_node as (n & _ & _ & Hdir & Hlk & _). set (w := mkWorld (<[1%positive := set_ns None n]> ∅) ∅).
  destruct (sdb_ns_after_reset 1 (set_ns None n) w (str "a")) as (c & w' & E & _ & E' & _); [done..|]. by exists 1%positive, w, c, w'.
Defined.

(** A caller's program, from nothing. *)
Definition build (k : id → W bool) : bool := 
  match (o ← sdb_new_db; match o with Some i => k i | None => mret false end) (mkWorld ∅ ∅) with Fault => true | _ => false end.

(** Freeing a database frees the databases below it by force, whoever else refers to
    them.  A database that two namespaces on different levels share is used after it was
    freed when the root goes away, and [sdb_ns_free] of a database that one of its own
    namespaces refers to frees that database while it works on it. *)
Theorem sdb_free_forces_children :
  build (λ r, a ← sdb_ns (Some r) (str "a") true; y ← sdb_ns_path (Some r) (str "x/y") true;
              _ ← sdb_ns_set 10 a (str "up") y; sdb_free_db 10 (Some r)) = true
  ∧ build (λ r, a ← sdb_ns (Some r) (str "a") true; _ ← sdb_ns_set 10 a (str "up") (Some r);
                _ ← sdb_ns_free 10 (Some r); mret true) = true.
Proof. by vm_compute. Qed.
