(* ===== verification/JsonIndent.v ===== *)
(** * Laying out JSON text ([src/json/indent.c], [sdb_json_format] of [src/json.c])

    Each function writes to a block whose size it has computed; writing more than that
    is a result of its own. *)

From S2P Require Import Prelude.

Inductive outcome := Null | Text (s : bytes) | Overflow.

(** What is written, with its terminator, to a block of the given size. *)
Definition in_block (size : Z) (s : bytes) : outcome := if slen s + 1 <=? size then Text s else Overflow.

Definition QUOTE : Z := 34.
Definition BSL : Z := 92.
Definition SIZE_MAX : Z := 2 ^ 64 - 1.
Definition INT_MAX : Z := 2 ^ 31 - 1.

Definition is_ws (c : Z) : bool := (c =? 10) || (c =? 13) || (c =? 9) || (c =? 32).
Definition is_open (c : Z) : bool := (c =? chr "{") || (c =? chr "[").
Definition is_close (c : Z) : bool := (c =? chr "}") || (c =? chr "]").

(** ** Indenting *)

Definition doIndent (idt : Z) (tab : bytes) : bytes := mjoin (replicate (Z.to_nat idt) tab).

(** The first loop: the size, or [None] where it gives up. *)
Fixpoint indent_size (tab_len : Z) (s : bytes) (indent : Z) (sz_instr : bool) (o_size : Z) : option Z :=
  match s with
  | [] => Some o_size
  | c :: s' =>
      let put (instr : bool) o := if o =? SIZE_MAX then None else indent_size tab_len s' indent instr (o + 1) in
      if sz_instr then
        if c =? QUOTE then put false o_size
        else if (c =? BSL) && (hd0 s' =? QUOTE) then (if o_size =? SIZE_MAX then None else put true (o_size + 1))
        else put true o_size
      else
        let instr := c =? QUOTE in
        if u64 (INT_MAX - u64 (indent * tab_len + 2)) <? o_size then None
        else if is_open c then indent_size tab_len s' (indent + 1) instr (u64 (o_size + u64 ((indent + 1) * tab_len + 2)))
        else if is_close c then
          let indent := if 0 <? indent then indent - 1 else indent in
          indent_size tab_len s' indent instr (u64 (o_size + u64 (indent * tab_len + 2)))
        else if c =? chr "," then indent_size tab_len s' indent instr (u64 (o_size + u64 (indent * tab_len + 2)))
        else if c =? chr ":" then indent_size tab_len s' indent instr (u64 (o_size + 2))
        else indent_size tab_len s' indent instr (u64 (o_size + 1))
  end.

(** The second loop: what it writes. *)
Fixpoint indent_write (tab s : bytes) (indent : Z) (instr : bool) : bytes :=
  match s with
  | [] => []
  | c :: s' =>
      if instr then
        if c =? QUOTE then c :: indent_write tab s' indent false
        else if (c =? BSL) && (hd0 s' =? QUOTE) then c :: c :: indent_write tab s' indent true
        else c :: indent_write tab s' indent true
      else
        let instr := c =? QUOTE in
        if is_ws c then indent_write tab s' indent instr
        else if c =? chr ":" then c :: 32 :: indent_write tab s' indent instr
        else if c =? chr "," then c :: 10 :: doIndent indent tab ++ indent_write tab s' indent instr
        else if is_open c then
          c :: (if indent =? -1 then 32 else 10) :: doIndent (indent + 1) tab ++ indent_write tab s' (indent + 1) instr
        else if is_close c then 10 :: doIndent (indent - 1) tab ++ c :: indent_write tab s' (indent - 1) instr
        else c :: indent_write tab s' indent instr
  end.

Definition sdb_json_indent (s : option bytes) (tab : bytes) : outcome :=
  match s with
  | None => Null
  | Some s =>
      match indent_size (slen tab) s 0 false 0 with
      | None => Null
      | Some o_size => in_block (u64 (o_size + 2) + 1) (indent_write tab s 0 false ++ [10])
      end
  end.

(** ** Taking the layout away *)

Fixpoint unindent_write (s : bytes) (instr : bool) : bytes :=
  match s with
  | [] => []
  | c :: s' =>
      if instr then
        if c =? QUOTE then c :: unindent_write s' false
        else if (c =? BSL) && (hd0 s' =? QUOTE) then c :: c :: unindent_write s' true
        else c :: unindent_write s' true
      else
        let instr := c =? QUOTE in
        if is_ws c then unindent_write s' instr else c :: unindent_write s' instr
  end.

Definition sdb_json_unindent (s : bytes) : outcome := in_block (slen s + 1) (unindent_write s false).

(** ** Formatting *)

(** The arguments, in the order of the conversions; of a [double], the text that [%f]
    stands for. *)
Inductive arg := AInt (i : Z) | ADouble (text : bytes) | ALong (u : Z) | AStr (s : bytes).

(** The text is the contents of the buffer up to [len]; [None] for NULL. *)
Record SdbJsonString := mkJson { jtext : option bytes; blen : Z }.

Inductive formatted := Formatted (s : SdbJsonString) | FormatOverflow | FormatOverread | FormatNoArg.

Definition digit (d : Z) : Z := if d <? 10 then 48 + d else 87 + d.

(** The digits of a number; [fuel] bounds their count. *)
Fixpoint digits (base : Z) (fuel : nat) (n : Z) (acc : bytes) : bytes :=
  match fuel with
  | O => acc
  | S fuel' => let acc := digit (n mod base) :: acc in if n / base =? 0 then acc else digits base fuel' (n / base) acc
  end.

(** [snprintf] with [%d] and [0x%] [PRIx64] *)
Definition dec_text (i : Z) : bytes := (if i <? 0 then [45] else []) ++ digits 10 10 (Z.abs i) [].
Definition hex_text (u : Z) : bytes := str "0x" ++ digits 16 16 u [].

Definition JSONSTR_ALLOCATE (len blen y : Z) : Z :=
  if blen <? len + y then (if blen * 2 <? len + y then len + y else blen * 2) else blen.

Fixpoint quoted (s : bytes) : bytes :=
  match s with [] => [] | c :: s' => if c =? QUOTE then BSL :: c :: quoted s' else c :: quoted s' end.

(** What a conversion takes, reserves and writes. *)
Definition conversion (c : Z) (args : list arg) : option (option (Z * bytes) * list arg) :=
  if c =? chr "b" then match args with AInt i :: a => Some (Some (32, if i =? 0 then str "false" else str "true"), a) | _ => None end
  else if c =? chr "f" then match args with ADouble x :: a => Some (Some (32, take 127 x), a) | _ => None end
  else if c =? chr "l" then match args with ALong u :: a => Some (Some (32, hex_text u), a) | _ => None end
  else if (c =? chr "d") || (c =? chr "i") then match args with AInt i :: a => Some (Some (32, dec_text i), a) | _ => None end
  else if c =? chr "s" then
    match args with AStr s :: a => Some (Some (slen s * 2 + 3, QUOTE :: quoted s ++ [QUOTE]), a) | _ => None end
  else Some (None, args).

(** The terminator is written after each round. *)
Fixpoint format_loop (fmt : bytes) (args : list arg) (b : bytes) (blen : Z) : formatted :=
  match fmt with
  | [] => Formatted (mkJson (Some b) blen)
  | c :: fmt' =>
      if c =? chr "%" then
        match fmt' with
        | [] => FormatOverread
        | d :: fmt'' =>
            match conversion d args with
            | None => FormatNoArg
            | Some (None, args) => format_loop fmt'' args b blen
            | Some (Some (y, x), args) =>
                let blen := JSONSTR_ALLOCATE (slen b) blen y in
                if slen (b ++ x) <? blen then format_loop fmt'' args (b ++ x) blen else FormatOverflow
            end
        end
      else
        let blen := JSONSTR_ALLOCATE (slen b) blen 10 in
        if slen (b ++ [c]) <? blen then format_loop fmt' args (b ++ [c]) blen else FormatOverflow
  end.

Definition sdb_json_format (s : SdbJsonString) (fmt : option bytes) (args : list arg) : formatted :=
  let '(b, blen) := match jtext s with None => ([], 1024) | Some b => (b, blen s) end in
  match fmt with
  | None | Some [] => Formatted (mkJson (Some b) blen)
  | Some fmt => format_loop fmt args b blen
  end.

(** * Facts *)

(** ** The block is large enough for indenting *)

Lemma slen_cons c (s : bytes) : slen (c :: s) = slen s + 1.
Proof. unfold slen. cbn [length]. lia. Qed.

Lemma slen_pos (s : bytes) : 0 <= slen s.
Proof. unfold slen. lia. Qed.

Lemma doIndent_length idt tab : slen (doIndent idt tab) = Z.max 0 idt * slen tab.
Proof.
  assert (∀ n, slen (mjoin (replicate n tab)) = Z.of_nat n * slen tab) as H.
  { intros n. induction n as [|n IH]; [done|]. rewrite replicate_S. change (mjoin (tab :: ?l)) with (tab ++ mjoin l). rewrite slen_app, IH. lia. }
  unfold doIndent. rewrite H. lia.
Qed.

(** No size computed for a text of this length can wrap. *)
Definition no_wrap (s : bytes) (tl i o : Z) : Prop := o + slen s * ((i + slen s) * tl + 2) < 2 ^ 64.

Lemma indent_fits tab s i1 i2 instr o r :
  0 <= i1 → i2 <= i1 → 0 <= o → no_wrap s (slen tab) i1 o → indent_size (slen tab) s i1 instr o = Some r →
  o + slen (indent_write tab s i2 instr) <= r ∧ r <= o + slen s * ((i1 + slen s) * slen tab + 2).
Proof.
  pose proof (slen_pos tab) as Ht. set (tl := slen tab) in *. unfold no_wrap.
  revert i1 i2 instr o. induction s as [|c s IH]; intros i1 i2 instr o Hi1 Hi2 Ho Hw; cbn [indent_size indent_write].
  { intros [= <-]. change (slen []) with 0. lia. }
  rewrite slen_cons in *. pose proof (slen_pos s) as Hs. pose proof (Z.mul_nonneg_nonneg _ _ Hs Ht) as Hst.
  assert (∀ i o' k, 0 <= i <= i1 + 1 → o' = o + i * tl + k → 0 <= k <= 2 → 0 <= o' ∧ o' < 2 ^ 64 ∧ o' + slen s * ((i + slen s) * tl + 2) <= o + (slen s + 1) * ((i1 + (slen s + 1)) * tl + 2)) as Hstep by nia.
  assert (∀ i o' k, 0 <= i <= i1 + 1 → o' = o + k → 0 <= k <= 2 → 0 <= o' ∧ o' < 2 ^ 64 ∧ o' + slen s * ((i + slen s) * tl + 2) <= o + (slen s + 1) * ((i1 + (slen s + 1)) * tl + 2)) as Hplain by nia.
  assert (∀ i k, 0 <= i <= i1 + 1 → 0 <= k <= 2 → u64 (i * tl + k) = i * tl + k) as Hu.
  { intros i k Hi Hk. apply u64_small. unfold is_u64. nia. }
  (* every branch: advance by [IH], then compare lengths *)
  assert (∀ i j b o' w, 0 <= i → j <= i → 0 <= o' → o' + slen s * ((i + slen s) * tl + 2) <= o + (slen s + 1) * ((i1 + (slen s + 1)) * tl + 2) →
            indent_size tl s i b o' = Some r → o + slen w <= o' →
            o + slen (w ++ indent_write tab s j b) <= r ∧ r <= o + (slen s + 1) * ((i1 + (slen s + 1)) * tl + 2)) as Hgo.
  { intros i j b o' w Hi Hj Ho' Hb E Hlen. destruct (IH i j b o' Hi Hj Ho') as [H1 H2]; [lia|done|]. rewrite slen_app. lia. }
  destruct instr.
  - destruct (c =? QUOTE); [|destruct ((c =? BSL) && (hd0 s =? QUOTE))].
    + case_if; [done|]. intros Es. destruct (Hplain i1 (o + 1) 1) as (? & ? & ?); [lia..|]. apply (Hgo i1 i2 false (o + 1) [c]); [lia..|done|rewrite ?slen_cons; change (slen []) with 0; lia].
    + case_if; [done|]. case_if; [done|]. intros Es. destruct (Hplain i1 (o + 2) 2) as (? & ? & ?); [lia..|].
      apply (Hgo i1 i2 true (o + 1 + 1) [c; c]); [lia..|done|rewrite ?slen_cons; change (slen []) with 0; lia].
    + case_if; [done|]. intros Es. destruct (Hplain i1 (o + 1) 1) as (? & ? & ?); [lia..|]. apply (Hgo i1 i2 true (o + 1) [c]); [lia..|done|rewrite ?slen_cons; change (slen []) with 0; lia].
  - destruct (u64 _ <? o); [done|]. set (b := c =? QUOTE). clearbody b. destruct (is_open c) eqn:Eo; [|destruct (is_close c) eqn:Ec].
    + intros E. destruct (Hstep (i1 + 1) (o + (i1 + 1) * tl + 2) 2) as (? & ? & ?); [lia..|].
      rewrite Hu in E by lia. replace (o + ((i1 + 1) * tl + 2)) with (o + (i1 + 1) * tl + 2) in E by lia. rewrite u64_small in E by (unfold is_u64; lia).
      assert (is_ws c = false ∧ (c =? chr ":") = false ∧ (c =? chr ",") = false) as (-> & -> & ->).
      { unfold is_open in Eo. apply orb_true_iff in Eo as [Eo|Eo]; zbool; by subst c. }
      match goal with |- context [?x :: ?y :: doIndent ?k tab ++ ?z] => change (x :: y :: doIndent k tab ++ z) with ((x :: y :: doIndent k tab) ++ z) end.
      apply (Hgo (i1 + 1) (i2 + 1) b (o + (i1 + 1) * tl + 2)); [lia..|done|]. rewrite !slen_cons, doIndent_length. fold tl. nia.
    + set (i := if 0 <? i1 then i1 - 1 else i1). assert (i = Z.max 0 (i1 - 1)) as Hi by (unfold i; destruct (0 <? i1) eqn:?; zbool; lia). clearbody i.
      intros E. destruct (Hstep i (o + i * tl + 2) 2) as (? & ? & ?); [lia..|].
      rewrite Hu in E by lia. replace (o + (i * tl + 2)) with (o + i * tl + 2) in E by lia. rewrite u64_small in E by (unfold is_u64; lia).
      assert (is_ws c = false ∧ (c =? chr ":") = false ∧ (c =? chr ",") = false) as (-> & -> & ->).
      { unfold is_close in Ec. apply orb_true_iff in Ec as [Ec|Ec]; zbool; by subst c. }
      assert (∀ z, 10 :: doIndent (i2 - 1) tab ++ c :: z = (10 :: doIndent (i2 - 1) tab ++ [c]) ++ z) as Hz by (intros z; cbn; by rewrite <- app_assoc).
      rewrite Hz. apply (Hgo i (i2 - 1) b (o + i * tl + 2)); [lia..|done|]. rewrite slen_cons, slen_app, doIndent_length. fold tl. change (slen [c]) with 1.
      pose proof (Z.mul_le_mono_nonneg_r (Z.max 0 (i2 - 1)) i tl Ht ltac:(lia)). lia.
    + destruct (c =? chr ",") eqn:Ecm; [|destruct (c =? chr ":") eqn:Ecl].
      * intros E. destruct (Hstep i1 (o + i1 * tl + 2) 2) as (? & ? & ?); [lia..|].
        rewrite Hu in E by lia. replace (o + (i1 * tl + 2)) with (o + i1 * tl + 2) in E by lia. rewrite u64_small in E by (unfold is_u64; lia).
        zbool. subst c. change (is_ws (chr ",")) with false. change (chr "," =? chr ":") with false. cbn iota.
        match goal with |- context [?x :: ?y :: doIndent ?k tab ++ ?z] => change (x :: y :: doIndent k tab ++ z) with ((x :: y :: doIndent k tab) ++ z) end.
        apply (Hgo i1 i2 b (o + i1 * tl + 2)); [lia..|done|]. rewrite !slen_cons, doIndent_length. fold tl. nia.
      * intros E. destruct (Hplain i1 (o + 2) 2) as (? & ? & ?); [lia..|]. rewrite u64_small in E by (unfold is_u64; lia). zbool. subst c.
        change (is_ws (chr ":")) with false. cbn iota. apply (Hgo i1 i2 b (o + 2) [chr ":"; 32]); [lia..|done|rewrite ?slen_cons; change (slen []) with 0; lia].
      * intros E. destruct (Hplain i1 (o + 1) 1) as (? & ? & ?); [lia..|]. rewrite u64_small in E by (unfold is_u64; lia).
        destruct (is_ws c); [apply (Hgo i1 i2 b (o + 1) []); [lia..|done|rewrite ?slen_cons; change (slen []) with 0; lia]|]. apply (Hgo i1 i2 b (o + 1) [c]); [lia..|done|rewrite ?slen_cons; change (slen []) with 0; lia].
Qed.

Lemma indent_size_some tl s i instr o :
  0 <= tl → 0 <= i → 0 <= o → o + slen s * ((i + slen s) * tl + 2) <= INT_MAX → is_Some (indent_size tl s i instr o).
Proof.
  intros Ht. revert i instr o. unfold INT_MAX. induction s as [|c s IH]; intros i instr o Hi Ho Hw; cbn [indent_size]; [eauto|].
  rewrite slen_cons in *. pose proof (slen_pos s) as Hs.
  assert (∀ j k, 0 <= j <= i + 1 → 0 <= k <= 2 → o + j * tl + k + slen s * ((j + slen s) * tl + 2) <= 2 ^ 31 - 1) as Hstep by nia.
  assert (∀ k, 0 <= k <= 2 → o + k + slen s * ((i + slen s) * tl + 2) <= 2 ^ 31 - 1) as Hplain by nia.
  assert (∀ j, 0 <= j <= i + 1 → 0 <= slen s * ((j + slen s) * tl + 2) ∧ 0 <= j * tl) as Hnn by nia.
  assert (∀ j k, 0 <= j <= i + 1 → 0 <= k <= 2 → u64 (j * tl + k) = j * tl + k ∧ u64 (o + (j * tl + k)) = o + j * tl + k) as Hu.
  { intros j k Hj Hk. specialize (Hstep j k Hj Hk). specialize (Hnn j Hj). rewrite !u64_small by (unfold is_u64; lia). lia. }
  assert ((o =? SIZE_MAX) = false ∧ (o + 1 =? SIZE_MAX) = false) as [Hm1 Hm2].
  { specialize (Hplain 0). specialize (Hnn i). unfold SIZE_MAX. split; apply Z.eqb_neq; lia. }
  destruct instr.
  - rewrite Hm1, Hm2. pose proof (Hplain 1). pose proof (Hplain 2). repeat case_if; apply IH; lia.
  - pose proof (Hplain 1). pose proof (Hplain 2). specialize (Hnn i ltac:(lia)) as Hni.
    assert ((u64 (INT_MAX - u64 (i * tl + 2)) <? o) = false) as ->.
    { apply Z.ltb_ge. unfold INT_MAX. rewrite (proj1 (Hu i 2 ltac:(lia) ltac:(lia))). specialize (Hstep i 2 ltac:(lia) ltac:(lia)). rewrite u64_small by (unfold is_u64; lia). lia. }
    case_if; [|case_if; [|case_if; [|case_if]]].
    + rewrite (proj1 (Hu (i + 1) 2 ltac:(lia) ltac:(lia))), (proj2 (Hu (i + 1) 2 ltac:(lia) ltac:(lia))).
      specialize (Hnn (i + 1) ltac:(lia)). apply IH; [lia|lia|]. apply Hstep; lia.
    + set (j := if 0 <? i then i - 1 else i). assert (0 <= j <= i + 1) as Hj by (unfold j; destruct (0 <? i) eqn:?; zbool; lia). clearbody j.
      rewrite (proj1 (Hu j 2 Hj ltac:(lia))), (proj2 (Hu j 2 Hj ltac:(lia))). specialize (Hnn j Hj). apply IH; [lia|lia|]. apply Hstep; lia.
    + rewrite (proj1 (Hu i 2 ltac:(lia) ltac:(lia))), (proj2 (Hu i 2 ltac:(lia) ltac:(lia))). apply IH; [lia|lia|]. apply Hstep; lia.
    + rewrite u64_small by (unfold is_u64; lia). apply IH; lia.
    + rewrite u64_small by (unfold is_u64; lia). apply IH; lia.
Qed.

(** ** The layout can be taken away again *)

(** The text without white space outside strings, and whether it ends in a string. *)
Fixpoint strip (s : bytes) (instr : bool) : bytes :=
  match s with
  | [] => []
  | c :: s' =>
      if instr then c :: strip s' (negb (c =? QUOTE))
      else if is_ws c then strip s' false else c :: strip s' (c =? QUOTE)
  end.

Fixpoint ends_in (s : bytes) (instr : bool) : bool :=
  match s with [] => instr | c :: s' => ends_in s' (if c =? QUOTE then negb instr else instr) end.

(** No escaped quotes in strings: both functions take them for the end of the string. *)
Fixpoint no_escq (s : bytes) (instr : bool) : Prop :=
  match s with
  | [] => True
  | c :: s' => ¬ (instr = true ∧ c = BSL ∧ hd0 s' = QUOTE) ∧ no_escq s' (if c =? QUOTE then negb instr else instr)
  end.

Lemma unindent_strip s b : no_escq s b → unindent_write s b = strip s b.
Proof.
  revert b. induction s as [|c s IH]; intros b; cbn [no_escq unindent_write strip]; [done|]. intros [Hq Hs]. destruct b.
  - destruct (c =? QUOTE) eqn:E; cbn [negb]; [by rewrite IH|]. destruct ((c =? BSL) && (hd0 s =? QUOTE)) eqn:E2; [|by rewrite IH].
    zbool. exfalso. apply Hq. done.
  - destruct (is_ws c) eqn:Ew; [|destruct (c =? QUOTE); by rewrite IH].
    destruct (c =? QUOTE) eqn:E; [zbool; by subst c|]. by rewrite IH.
Qed.

Lemma strip_length s b : slen (strip s b) <= slen s.
Proof. revert b. induction s as [|c s IH]; intros b; cbn [strip]; [done|]. repeat case_if; rewrite ?slen_cons; by pose proof (IH true); pose proof (IH false); try lia; destruct (c =? QUOTE); cbn; lia. Qed.

Lemma ws_not_quote c : is_ws c = true → (c =? QUOTE) = false.
Proof. intros H. destruct (c =? QUOTE) eqn:E; [zbool; by subst c|done]. Qed.

Lemma ws_skip t s : Forall (λ c, is_ws c = true) t → strip (t ++ s) false = strip s false ∧ (no_escq (t ++ s) false ↔ no_escq s false).
Proof.
  induction 1 as [|c t Hc _ [IH1 IH2]]; [done|]. cbn [app strip no_escq]. rewrite Hc, (ws_not_quote c Hc). split; [done|]. naive_solver.
Qed.

Lemma doIndent_ws k tab : Forall (λ c, is_ws c = true) tab → Forall (λ c, is_ws c = true) (doIndent k tab).
Proof. intros Ht. unfold doIndent. induction (Z.to_nat k) as [|n IH]; [constructor|]. rewrite replicate_S. apply Forall_app. done. Qed.

(** What the second loop writes for one character outside strings. *)
Lemma indent_write_out tab c s i :
  ∃ w1 w2 j, indent_write tab (c :: s) i false = (if is_ws c then [] else w1 ++ c :: w2) ++ indent_write tab s j (c =? QUOTE)
    ∧ (Forall (λ c, is_ws c = true) tab → Forall (λ c, is_ws c = true) w1 ∧ Forall (λ c, is_ws c = true) w2)
    ∧ (c =? QUOTE = true → w2 = []).
Proof.
  cbn [indent_write]. set (b := c =? QUOTE). pose proof (doIndent_ws i tab). pose proof (doIndent_ws (i + 1) tab). pose proof (doIndent_ws (i - 1) tab).
  destruct (is_ws c); [by exists [], [], i|]. destruct (c =? chr ":") eqn:E1; [|destruct (c =? chr ",") eqn:E2; [|destruct (is_open c) eqn:E3; [|destruct (is_close c) eqn:E4]]].
  - exists [], [32], i. split_and!; [done|by repeat constructor|]. intros Eq. unfold b in Eq. zbool. by subst c.
  - exists [], (10 :: doIndent i tab), i. split_and!; [done|split; [constructor|constructor; auto]|]. intros Eq. unfold b in Eq. zbool. by subst c.
  - exists [], ((if i =? -1 then 32 else 10) :: doIndent (i + 1) tab), (i + 1). split_and!; [done|split; [constructor|constructor; auto]; by case_if|].
    intros Eq. unfold b in Eq. zbool. by subst c.
  - exists (10 :: doIndent (i - 1) tab), [], (i - 1). split_and!; [cbn; by rewrite <- app_assoc|split; [constructor; auto|constructor]|done].
  - by exists [], [], i.
Qed.

Lemma indent_strip tab s i b t :
  Forall (λ c, is_ws c = true) tab → no_escq s b → strip (indent_write tab s i b ++ t) b = strip s b ++ strip t (ends_in s b).
Proof.
  intros Ht. revert i b. induction s as [|c s IH]; intros i b; [done|]. cbn [no_escq]. intros [Hq Hs]. destruct b.
  - cbn [indent_write strip ends_in]. destruct (c =? QUOTE) eqn:E; cbn [negb] in *.
    + cbn [app strip]. rewrite E. cbn [negb]. by rewrite IH.
    + destruct ((c =? BSL) && (hd0 s =? QUOTE)) eqn:E2; [zbool; exfalso; by apply Hq|]. cbn [app strip]. rewrite E. cbn [negb]. by rewrite IH.
  - destruct (indent_write_out tab c s i) as (w1 & w2 & j & -> & Hw & Hw2). destruct (Hw Ht) as [Hw1 Hws]. cbn [strip ends_in]. cbn [negb] in *.
    destruct (is_ws c) eqn:Ec.
    + rewrite (ws_not_quote c Ec) in *. cbn [app]. by rewrite IH.
    + rewrite <- !app_assoc. rewrite (proj1 (ws_skip w1 _ Hw1)). cbn [app strip]. rewrite Ec. destruct (c =? QUOTE) eqn:E.
      * rewrite (Hw2 eq_refl). cbn [app]. by rewrite IH.
      * rewrite (proj1 (ws_skip w2 _ Hws)). by rewrite IH.
Qed.

Lemma indent_no_escq tab s i b t :
  Forall (λ c, is_ws c = true) tab → no_escq s b → hd0 t ≠ QUOTE → no_escq t (ends_in s b) → no_escq (indent_write tab s i b ++ t) b.
Proof.
  intros Ht. revert i b. induction s as [|c s IH]; intros i b; [done|]. cbn [no_escq ends_in]. intros [Hq Hs] Hhd Hn. destruct b.
  - assert (∀ k, hd0 (indent_write tab s k true ++ t) = if decide (s = []) then hd0 t else hd0 s) as Hh.
    { intros k. destruct s as [|x s]; [done|]. cbn [indent_write]. by repeat case_if. }
    cbn [indent_write]. destruct (c =? QUOTE) eqn:E; cbn [negb] in *.
    + cbn [app no_escq]. rewrite E. cbn [negb]. split; [|by apply IH]. intros (_ & Hc & _). zbool. by subst c.
    + destruct ((c =? BSL) && (hd0 s =? QUOTE)) eqn:E2; [zbool; exfalso; by apply Hq|]. cbn [app no_escq]. rewrite E. split; [|by apply IH].
      rewrite Hh. intros (_ & -> & Hx). destruct (decide (s = [])); [done|]. by apply Hq.
  - destruct (indent_write_out tab c s i) as (w1 & w2 & j & -> & Hw & Hw2). destruct (Hw Ht) as [Hw1 Hws]. cbn [negb] in *. destruct (is_ws c) eqn:Ec.
    + rewrite (ws_not_quote c Ec) in *. by apply IH.
    + rewrite <- !app_assoc. apply (ws_skip w1 _ Hw1). cbn [app no_escq]. split; [by intros [? _]|]. destruct (c =? QUOTE) eqn:E.
      * rewrite (Hw2 eq_refl). by apply IH.
      * apply (ws_skip w2 _ Hws). by apply IH.
Qed.

(** C30: indenting a text whose strings hold no escaped quotes and are all closed, with an
    indentation of white space only, and of a size for which (length + 1) * (length * length of the
    indentation + 2) fits an int, succeeds inside the block whose size it computed; and taking the
    layout away again gives what taking the layout of the original away gives: the text without the
    white space outside its strings. With escaped quotes unindenting overflows:
    [sdb_json_unindent_overflow]. *)
Theorem sdb_json_indent_roundtrip s tab :
  no_escq s false → Forall (λ c, is_ws c = true) tab → (slen s + 1) * (slen s * slen tab + 2) <= INT_MAX → ends_in s false = false →
  ∃ o, sdb_json_indent (Some s) tab = Text o ∧ sdb_json_unindent o = Text (strip s false) ∧ sdb_json_unindent s = Text (strip s false).
Proof.
  intros Hq Ht Hsz He. pose proof (slen_pos s) as Hs. pose proof (slen_pos tab) as Htl. pose proof (Z.mul_nonneg_nonneg _ _ Hs Htl) as Hp.
  assert (0 + slen s * ((0 + slen s) * slen tab + 2) <= INT_MAX - 2) as Hb by nia.
  destruct (indent_size_some (slen tab) s 0 false 0) as [r Hr]; [lia..|]. unfold sdb_json_indent. rewrite Hr.
  destruct (indent_fits tab s 0 0 false 0 r) as [H1 H2]; [lia..|unfold no_wrap, INT_MAX in *; lia|done|].
  set (out := indent_write tab s 0 false) in *. exists (out ++ [10]). pose proof (slen_pos out).
  assert (no_escq (out ++ [10]) false) as Hq'.
  { apply indent_no_escq; [done|done|done|]. rewrite He. cbn. naive_solver. }
  split_and!.
  - unfold in_block. rewrite slen_app. change (slen [10]) with 1. unfold INT_MAX in *. rewrite u64_small by (unfold is_u64; lia).
    by rewrite (proj2 (Z.leb_le _ _)) by lia.
  - unfold sdb_json_unindent, in_block. rewrite unindent_strip by done. unfold out. rewrite indent_strip by done. fold out. rewrite He. cbn [strip]. rewrite app_nil_r.
    assert (slen (strip s false) <= slen (out ++ [10])) as Hle; [|by rewrite (proj2 (Z.leb_le _ _)) by lia].
    pose proof (strip_length (out ++ [10]) false) as Hl. unfold out in Hl at 1. rewrite indent_strip, He in Hl by done. cbn [strip is_ws] in Hl. by rewrite app_nil_r in Hl.
  - unfold sdb_json_unindent, in_block. rewrite unindent_strip by done. pose proof (strip_length s false). by rewrite (proj2 (Z.leb_le _ _)) by lia.
Qed.

Lemma sdb_json_indent_roundtrip_witness :
  ∃ o, sdb_json_indent (Some (str "{ x:[1, y] }")) [9] = Text o ∧ sdb_json_unindent o = Text (str "{x:[1,y]}").
Proof.
  destruct (sdb_json_indent_roundtrip (str "{ x:[1, y] }") [9]) as (o & H1 & H2 & _).
  - cbn. split_and!; try done; by intros [? _].
  - by repeat constructor.
  - by vm_compute.
  - done.
  - exists o. split; [exact H1|exact H2].
Defined.

(** Escaped quotes: taking the layout away writes the backslash twice, so that a text with
    [n] strings of a single escaped quote needs [n] bytes more than the block has. *)
Theorem sdb_json_unindent_overflow n :
  (0 < n)%nat → let s := mjoin (replicate n [QUOTE; BSL; QUOTE]) in
  sdb_json_unindent s = Overflow ∧ slen (unindent_write s false) = slen s + Z.of_nat n.
Proof.
  intros Hn. cbn zeta. set (s := mjoin _). assert (slen (unindent_write s false) = slen s + Z.of_nat n) as Hl.
  { unfold s. clear. induction n as [|n IH]; [done|]. rewrite replicate_S. change (mjoin (?x :: ?l)) with (x ++ mjoin l).
    change (unindent_write ([QUOTE; BSL; QUOTE] ++ ?r) false) with (QUOTE :: BSL :: BSL :: QUOTE :: unindent_write r false).
    rewrite !slen_cons, IH, slen_app. change (slen [QUOTE; BSL; QUOTE]) with 3. lia. }
  split; [|done]. unfold sdb_json_unindent, in_block. by rewrite (proj2 (Z.leb_gt _ _)) by lia.
Qed.

(** ** Formatting stays in its buffer *)

(** The text that each conversion stands for. *)
Definition arg_ok (a : arg) : Prop := match a with ADouble x => (length x < 32)%nat | _ => True end.

Lemma digits_length base fuel n acc : slen (digits base fuel n acc) <= slen acc + Z.of_nat fuel.
Proof.
  revert n acc. induction fuel as [|fuel IH]; intros n acc; cbn [digits]; [lia|]. case_if; [rewrite slen_cons; lia|].
  specialize (IH (n / base) (digit (n mod base) :: acc)). rewrite slen_cons in IH. lia.
Qed.

Lemma quoted_length s : slen (quoted s) <= 2 * slen s.
Proof. induction s as [|c s IH]; cbn [quoted]; [done|]. case_if; rewrite !slen_cons; lia. Qed.

(** What is reserved is enough for what is written and the terminator. *)
Lemma conversion_reserve c args y x rest :
  conversion c args = Some (Some (y, x), rest) → Forall arg_ok args → slen x < y ∧ Forall arg_ok rest.
Proof.
  unfold conversion. intros E Hok. repeat case_match; try done; injection E as <- <- <-; apply Forall_cons_1 in Hok as [Ha Hok]; (split; [|done]); cbn in Ha.
  - by vm_compute.
  - by vm_compute.
  - unfold slen. rewrite length_take. lia.
  - unfold hex_text. rewrite slen_app. change (slen (str "0x")) with 2. pose proof (digits_length 16 16 u []). change (slen []) with 0 in *. lia.
  - unfold dec_text. rewrite slen_app. pose proof (digits_length 10 10 (Z.abs i) []). change (slen []) with 0 in *. case_if; [change (slen [45]) with 1|change (slen []) with 0]; lia.
  - rewrite slen_cons, slen_app. change (slen [QUOTE]) with 1. pose proof (quoted_length s). lia.
Qed.

(** The text a format stands for. *)
Fixpoint format_text (fmt : bytes) (args : list arg) : option bytes :=
  match fmt with
  | [] => Some []
  | c :: fmt' =>
      if c =? chr "%" then
        match fmt' with
        | [] => None
        | d :: fmt'' =>
            match conversion d args with
            | None => None
            | Some (None, args) => format_text fmt'' args
            | Some (Some (_, x), args) => app x <$> format_text fmt'' args
            end
        end
      else cons c <$> format_text fmt' args
  end.

Lemma allocate_enough len blen y : len + y <= JSONSTR_ALLOCATE len blen y.
Proof. unfold JSONSTR_ALLOCATE. repeat case_if; zbool; lia. Qed.

(** Formatting appends the text that the format and its arguments stand for and never
    writes outside the buffer, whatever its size was, provided that no [%f] prints 32
    characters or more, no argument is missing and the format does not end in a lone
    percent sign. *)
Theorem sdb_json_format_appends fmt args b blen t :
  Forall arg_ok args → fmt ≠ [] → format_text fmt args = Some t →
  ∃ blen', sdb_json_format (mkJson (Some b) blen) (Some fmt) args = Formatted (mkJson (Some (b ++ t)) blen').
Proof.
  intros Hok Hne Ht. assert (∃ blen', format_loop fmt args b blen = Formatted (mkJson (Some (b ++ t)) blen')) as [bl E]; [|exists bl; by destruct fmt].
  clear Hne. revert args b blen t Hok Ht. induction fmt as [fmt IH] using (induction_ltof1 _ (@length Z)). unfold ltof in IH. intros args b blen t Hok Ht.
  destruct fmt as [|c fmt]; cbn [format_loop format_text] in *; [injection Ht as <-; exists blen; by rewrite app_nil_r|].
  destruct (c =? chr "%").
  - destruct fmt as [|d fmt]; [done|]. destruct (conversion d args) as [[[[y x]|] rest]|] eqn:Ec; [| |done].
    + destruct (conversion_reserve _ _ _ _ _ Ec Hok) as [Hy Hr]. destruct (format_text fmt rest) as [t'|] eqn:Et; [|done]. injection Ht as <-.
      pose proof (allocate_enough (slen b) blen y). rewrite (proj2 (Z.ltb_lt _ _)) by (rewrite slen_app; lia).
      destruct (IH fmt ltac:(cbn; lia) rest (b ++ x) (JSONSTR_ALLOCATE (slen b) blen y) t' Hr Et) as [bl E]. exists bl. by rewrite E, app_assoc.
    + apply (IH fmt ltac:(cbn; lia)); [|done]. unfold conversion in Ec. repeat case_match; congruence.
  - destruct (format_text fmt args) as [t'|] eqn:Et; [|done]. injection Ht as <-.
    pose proof (allocate_enough (slen b) blen 10). rewrite (proj2 (Z.ltb_lt _ _)) by (rewrite slen_app; change (slen [c]) with 1; lia).
    destruct (IH fmt ltac:(cbn; lia) args (b ++ [c]) (JSONSTR_ALLOCATE (slen b) blen 10) t' Hok Et) as [bl E]. exists bl. by rewrite E, <- app_assoc.
Qed.

Lemma sdb_json_format_appends_witness :
  ∃ blen, sdb_json_format (mkJson (Some (str "[")) 2) (Some (str "%d,%s]")) [AInt (-7); AStr [34]] = Formatted (mkJson (Some (str "[-7," ++ [34; 92; 34; 34] ++ str "]")) blen).
Proof.
  destruct (sdb_json_format_appends (str "%d,%s]") [AInt (-7); AStr [34]] (str "[") 2 (str "-7," ++ [34; 92; 34; 34] ++ str "]")) as [bl E]; [by repeat constructor|done|by vm_compute|].
  exists bl. exact E.
Defined.

(** A [%f] that prints a large number writes up to 127 characters where 32 were reserved. *)
Theorem sdb_json_format_overflow x :
  (length x = 127)%nat → sdb_json_format (mkJson (Some (replicate 992 32)) 1024) (Some (str "%f")) [ADouble x] = FormatOverflow.
Proof.
  intros Hx. set (b := replicate 992 32). assert (slen b = 992) as Hb by (by vm_compute). clearbody b.
  unfold sdb_json_format. cbn [jtext blen]. change (str "%f") with [chr "%"; chr "f"]. cbn [format_loop].
  change (chr "%" =? chr "%") with true. cbn iota. change (conversion (chr "f") [ADouble x]) with (Some (Some (32, take 127 x), @nil arg)). cbn iota zeta.
  rewrite slen_app, Hb. unfold slen. by rewrite length_take, Hx.
Qed.
