(* ===== verification/Json.v ===== *)
(** * JSON ([src/json.c], [src/json/js0n.c], [src/json/rangstr.c], [src/json/path.c],
      [src/json/api.c])

    Texts are C strings; a read behind the terminator, or outside the array of ranges, is
    a fault ([None]).  [sdb_js0n] is the state machine of the version with computed gotos,
    its tables as tests on the character. *)

From S2P Require Import Prelude Util Ht HashTables Buffer CdbMake CdbTables Cdb SdbCore JsonIndent.

(** ** Splitting a text into ranges *)

Inductive table := gostruct | gobare | gostring | goutf8_continue | goesc.

#[export] Instance table_eq_dec : EqDecision table.
Proof. solve_decision. Defined.

Record js0n := mkJs0n { go : table; jdepth : Z; utf8_remain : Z; prev : Z; out : list Z }.

Definition set_go (g : table) (s : js0n) : js0n := mkJs0n g (jdepth s) (utf8_remain s) (prev s) (out s).
Definition set_jdepth (d : Z) (s : js0n) : js0n := mkJs0n (go s) d (utf8_remain s) (prev s) (out s).
Definition set_utf8 (r : Z) (s : js0n) : js0n := mkJs0n goutf8_continue (jdepth s) r (prev s) (out s).

(** [cur] is the position of the character; the values have 32 bits. *)
Definition emit (x : Z) (s : js0n) : js0n :=
  if jdepth s =? 1 then mkJs0n (go s) (jdepth s) (utf8_remain s) (u32 x) (out s ++ [u32 x]) else s.
Definition PUSH (cur i : Z) (s : js0n) : js0n := emit (cur + i) s.
Definition CAP (cur i : Z) (s : js0n) : js0n := emit (cur + i - prev s + 1) s.

Definition is_bare (c : Z) : bool :=
  (c =? chr "-") || ((48 <=? c) && (c <=? 57)) || (c =? chr "t") || (c =? chr "f") || (c =? chr "n").
Definition is_unbare (c : Z) : bool := is_ws c || (c =? chr ",") || is_close c.
Definition is_escape (c : Z) : bool :=
  (c =? QUOTE) || (c =? BSL) || (c =? chr "/") || (c =? chr "b") || (c =? chr "f") || (c =? chr "n") || (c =? chr "r")
  || (c =? chr "t") || (c =? chr "u").

(** [None] for [l_bad]. *)
Definition step_struct (cur c : Z) (s : js0n) : option js0n :=
  if is_ws c || (c =? chr ":") || (c =? chr ",") then Some s
  else if c =? QUOTE then Some (set_go gostring (PUSH cur 1 s))
  else if is_open c then let s := PUSH cur 0 s in Some (set_jdepth (jdepth s + 1) s)
  else if is_close c then Some (CAP cur 0 (set_jdepth (jdepth s - 1) s))
  else if is_bare c then Some (set_go gobare (PUSH cur 0 s))
  else None.

Definition step_js0n (cur c : Z) (s : js0n) : option js0n :=
  match go s with
  | gostruct => step_struct cur c s
  | gobare =>
      if is_unbare c then step_struct cur c (set_go gostruct (CAP cur (-1) s))
      else if (32 <=? c) && (c <=? 126) then Some s else None
  | gostring =>
      if c =? BSL then Some (set_go goesc s)
      else if c =? QUOTE then Some (set_go gostruct (CAP cur (-1) s))
      else if (32 <=? c) && (c <=? 126) then Some s
      else if (192 <=? c) && (c <=? 223) then Some (set_utf8 1 s)
      else if (224 <=? c) && (c <=? 239) then Some (set_utf8 2 s)
      else if (240 <=? c) && (c <=? 247) then Some (set_utf8 3 s)
      else None
  | goutf8_continue =>
      if (128 <=? c) && (c <=? 191) then
        let r := utf8_remain s - 1 in Some (mkJs0n (if r =? 0 then gostring else goutf8_continue) (jdepth s) r (prev s) (out s))
      else None
  | goesc => if is_escape c then Some (set_go gostring s) else None
  end.

Fixpoint js0n_loop (cur : Z) (js : bytes) (s : js0n) : Z * list Z :=
  match js with
  | [] => (jdepth s, out s)
  | c :: js' => match step_js0n cur c s with Some s => js0n_loop (cur + 1) js' s | None => (1, out s) end
  end.

Definition sdb_js0n (js : bytes) : Z * list Z := js0n_loop 0 js (mkJs0n gostruct 0 0 0 []).

(** ** Ranges *)

(** [p] is NULL or points into a text, at an offset. *)
Record Rangstr := mkRs { rtype : Z; rnext : Z; rf : Z; rt : Z; rp : option (bytes * Z) }.

Definition rangstr_null : Rangstr := mkRs 0 0 0 0 None.

Definition rangstr_new (s : option (bytes * Z)) : Rangstr :=
  match s with None => rangstr_null | Some (b, o) => mkRs 0 1 0 (slen b - o) s end.

(** [p[i]] *)
Definition rd (p : bytes * Z) (i : Z) : option Z :=
  let k := p.2 + i in if (k <? 0) || (slen p.1 <? k) then None else Some (default 0 (p.1 !! Z.to_nat k)).

(** [n] bytes from [p + i]; the terminator may be among them. *)
Definition slice (p : bytes * Z) (i n : Z) : option bytes :=
  let k := p.2 + i in
  if (n <? 0) || (k <? 0) || (slen p.1 + 1 <? k + n) then None else Some (take (Z.to_nat n) (drop (Z.to_nat k) (p.1 ++ [0]))).

Definition rangstr_length (rs : Rangstr) : Z := if rf rs <? rt rs then s32 (rt rs - rf rs) else 0.

(** The loop of [rangstr_int]; an [int] that overflows is taken to wrap. *)
Fixpoint int_loop (fuel : nat) (p : bytes * Z) (i t n : Z) : option Z :=
  match fuel with
  | O => Some n
  | S fuel' =>
      if t <=? i then Some n
      else
        ch ← rd p i;
        if (s8 ch <? 48) || (57 <? s8 ch) then Some n else int_loop fuel' p (i + 1) t (s32 (n * 10 + (s8 ch - 48)))
  end.

Definition rangstr_int (s : Rangstr) : option Z :=
  match rp s with
  | None => Some 0
  | Some p =>
      c ← rd p (rf s);
      let i := if c =? chr "[" then 1 else 0 in
      let '(mul, i) := if c =? chr "-" then (-1, i + rf s + 1) else (1, i + rf s) in
      n ← int_loop (Z.to_nat (rt s)) p i (rt s) 0; Some (s32 (n * mul))
  end.

Definition rangstr_dup (rs : Rangstr) : option (option bytes) :=
  match rp rs with
  | None => Some None
  | Some p => b ← slice p (rf rs) (rangstr_length rs); Some (Some (cstr b))
  end.

Definition rangstr_news (p : bytes * Z) (res : Z → option Z) (i : Z) : option Rangstr :=
  f ← res i; l ← res (i + 1); Some (mkRs 0 1 f (u32 (f + l)) (Some p)).

(** [strlen (p + i)] *)
Definition strlen_at (p : bytes * Z) (i : Z) : option Z :=
  let k := p.2 + i in if (k <? 0) || (slen p.1 <? k) then None else Some (slen p.1 - k).

(** Whether they differ. *)
Definition rangstr_cmp (a b : Rangstr) : option bool :=
  match rp a, rp b with
  | Some pa, Some pb =>
      let la := s32 (rt a - rf a) in
      let lb := s32 (rt b - rf b) in
      lbz ← strlen_at pb (rf b);
      let lb := if lbz <? lb then lbz else lb in
      if negb (la =? lb) then Some true
      else x ← slice pa (rf a) la; y ← slice pb (rf b) la; Some (negb (bool_decide (x = y)))
  | _, _ => None
  end.

Fixpoint find_loop (fuel : nat) (p : bytes * Z) (i t ch : Z) : option Z :=
  match fuel with
  | O => Some (-1)
  | S fuel' =>
      if t <=? i then Some (-1)
      else c ← rd p i; if c =? 0 then Some (-1) else if c =? ch then Some i else find_loop fuel' p (i + 1) t ch
  end.

Definition rangstr_find (a : Rangstr) (ch : Z) : option Z :=
  match rp a with None => None | Some p => find_loop (S (Z.to_nat (rt a - rf a))) p (rf a) (rt a) ch end.

Definition rangstr_str (rs : Rangstr) : option (bytes * Z) := (λ p, (p.1, p.2 + rf rs)) <$> rp rs.

(** ** Paths *)

Definition set_range (f t : Z) (s : Rangstr) : Rangstr := mkRs (rtype s) (rnext s) f t (rp s).

Definition json_path_first (s : Rangstr) : Rangstr :=
  match rp s with
  | None => s
  | Some p =>
      let text := drop (Z.to_nat p.2) p.1 in
      set_range 0 (match strchr text (chr ".") with Some r => slen text - slen r | None => slen text end) s
  end.

(** The walk to the end of a component. *)
Inductive walked := Stopped (t : Z) | Ended (t : Z).

Fixpoint component_loop (fuel : nat) (p : bytes * Z) (t stop : Z) : option walked :=
  match fuel with
  | O => None
  | S fuel' =>
      c ← rd p t;
      if c =? stop then Some (Stopped t) else if c =? 0 then Some (Ended t) else if c =? chr "[" then Some (Stopped t)
      else component_loop fuel' p (t + 1) stop
  end.

(** [rep]: [stop] keeps its value when the component was empty. *)
Fixpoint path_next_rep (fuel : nat) (p : bytes * Z) (s : Rangstr) (stop : Z) : option (bool * Rangstr) :=
  match fuel with
  | O => None
  | S fuel' =>
      c ← rd p (rt s);
      let '(ty, stop) := if c =? chr "[" then (c, chr "]") else (0, stop) in
      let t := rt s + 1 in
      c ← rd p t;
      let t := if c =? stop then t + 1 else t in
      let f := t in
      c ← rd p t;
      if c =? 0 then Some (false, mkRs ty (rnext s) f t (rp s))
      else
        w ← component_loop fuel' p t stop;
        match w with
        | Ended t => Some (true, mkRs ty 0 f t (rp s))
        | Stopped t =>
            if f =? t then path_next_rep fuel' p (mkRs ty (rnext s) f t (rp s)) stop
            else
              c ← rd p f;
              let '(f, t) := if c =? QUOTE then (f + 1, t - 1) else (f, t) in Some (true, mkRs ty (rnext s) f t (rp s))
        end
  end.

Definition json_path_next (s : Rangstr) : option (bool * Rangstr) :=
  match rp s with
  | None => Some (false, s)
  | Some p =>
      c ← rd p (rt s);
      if (c =? 0) || (rnext s =? 0) then Some (false, s)
      else
        let s := if c =? QUOTE then set_range (rf s) (rt s + 1) s else s in
        path_next_rep (S (length p.1) * 2) p s (chr ".")
  end.

(** ** Finding *)

Definition RESFIXSZ : Z := 1024.

(** The array: on the stack, or allocated for a longer text. *)
Definition res_size (len : Z) : Z := if RESFIXSZ <? len then len + 1 else RESFIXSZ.
Definition res_at (size : Z) (res : list Z) (i : Z) : option Z :=
  if (i <? 0) || (size <=? i) then None else Some (default 0 (res !! Z.to_nat i)).

Fixpoint array_loop (fuel : nat) (res : Z → option Z) (i n : Z) : option Z :=
  match fuel with
  | O => None
  | S fuel' => r ← res i; if (r =? 0) || (n <=? 0) then Some i else array_loop fuel' res (i + 2) (n - 1)
  end.

Fixpoint object_loop (fuel : nat) (p : bytes * Z) (rs : Rangstr) (res : Z → option Z) (i : Z) : option Rangstr :=
  match fuel with
  | O => None
  | S fuel' =>
      r ← res i;
      if r =? 0 then Some rangstr_null
      else
        rsn ← rangstr_news p res i;
        differ ← rangstr_cmp rs rsn;
        if (differ : bool) then object_loop fuel' p rs res (i + 4) else rangstr_news p res (i + 2)
  end.

Definition json_find (s : bytes * Z) (rs : Rangstr) : option Rangstr :=
  let text := drop (Z.to_nat s.2) s.1 in
  let '(ret, res) := sdb_js0n text in
  let size := res_size (slen text) in
  if size <? slen res then None
  else if 0 <? ret then Some rangstr_null
  else
    let fuel := S (length res) in
    if hd0 text =? chr "[" then
      n ← rangstr_int rs;
      if n <? 0 then Some rangstr_null
      else
        i ← array_loop fuel (res_at size res) 0 n;
        r ← res_at size res i;
        if r =? 0 then Some rangstr_null else rangstr_news s (res_at size res) i
    else object_loop fuel s rs (res_at size res) 0.

(** The inner loop of [json_get]: [inl] returns from the function. *)
Fixpoint get_inner (fuel : nat) (rj rs : Rangstr) : option (Rangstr + (Rangstr * Rangstr)) :=
  match fuel with
  | O => None
  | S fuel' =>
      match rangstr_str rj, rp rj with
      | Some s, Some pj =>
          rj2 ← json_find s rs;
          match rp rj2 with
          | None => c ← rd pj (rt rj); Some (if c =? 0 then inl rj2 else inr (rj, rs))
          | Some _ =>
              r ← json_path_next rs;
              let '(more, rs) := r in
              if (more : bool) then get_inner fuel' rj2 rs else Some (inr (rj2, rs))
          end
      | _, _ => None
      end
  end.

Fixpoint get_outer (fuel : nat) (rj rs : Rangstr) (n : Z) : option Rangstr :=
  match fuel with
  | O => None
  | S fuel' =>
      let rst := rt rs in
      x ← rangstr_find (set_range (rf rs + 1) (rt rs) rs) (chr "[");
      let rs := if x =? -1 then rs else set_range (rf rs) x rs in
      let last_key rs rj := (rst =? rt rs) && negb (n =? 0) && bool_decide (is_Some (rp rj)) in
      if last_key rs rj then Some rj
      else if bool_decide (rp rj = None) then Some rj
      else
        r ← get_inner (S (Z.to_nat (rt rs) + match rp rs with Some p => length p.1 | None => 0 end)) rj rs;
        match r with
        | inl rj => Some rj
        | inr (rj, rs) =>
            if last_key rs rj then Some rj
            else if x =? -1 then Some rj else get_outer fuel' rj (set_range x rst rs) (n + 1)
        end
  end.

Definition json_get (js p : bytes) : option Rangstr :=
  let rj := rangstr_new (Some (js, 0)) in
  let rs := json_path_first (rangstr_new (Some (p, 0))) in
  get_outer (S (S (length p))) rj rs 0.

(** ** Reading values *)

Definition sdb_json_get_str (json path : bytes) : option (option bytes) := rs ← json_get json path; rangstr_dup rs.
Definition api_json_get := sdb_json_get_str.

Definition sdb_json_get_bool (json path : bytes) : option bool :=
  rs ← json_get json path;
  if negb (rangstr_length rs =? 4) then Some false
  else
    match rp rs with
    | None => None
    | Some p => n ← strlen_at p (rf rs); b ← slice p (rf rs) (Z.min 4 n); Some (bool_decide (b = str "true"))
    end.

(** The operations on a database; [None] inside is a fault. *)
Definition sdb_json_get now (k p : bytes) : M (option (option bytes)) :=
  r ← sdb_get now (Some k);
  mret (match r.1 with None => Some None | Some v => sdb_json_get_str (cstr v) p end).

Definition sdb_json_num_get now (k p : bytes) : M (option Z * Z) :=
  r ← sdb_get now (Some k);
  mret (match r.1 with None => Some 0 | Some v => rs ← json_get (cstr v) p; rangstr_int rs end, r.2).

(** ** Changing values *)

(** The positions run down from [i]; [-1] when there are no two quotes. *)
Fixpoint quote_before (fuel : nat) (p : bytes * Z) (i : Z) : option Z :=
  match fuel with
  | O => Some i
  | S fuel' => if i <=? 0 then Some i else c ← rd p i; if c =? QUOTE then Some i else quote_before fuel' p (i - 1)
  end.

(** The inner loop leaves [i] at 0 without finding a quote, and the outer one ends then. *)
Definition findkey (rs : Rangstr) : option Z :=
  match rp rs with
  | None => None
  | Some p =>
      let fuel := S (length p.1) in
      i ← quote_before fuel p (s32 (rf rs));
      if i <=? 0 then Some (-1)
      else j ← quote_before fuel p (i - 1); Some (if j <=? 0 then -1 else j)
  end.

Definition isstring (s : bytes) : bool :=
  if bool_decide (s = str "true") || bool_decide (s = str "false") then false
  else existsb (λ c, (s8 c <? 48) || (57 <? s8 c)) s.

Definition quote (is_str : bool) : bytes := if is_str then [QUOTE] else [].

(** [memcpy] of [n] bytes from the raw memory at [i]. *)
Definition mem_slice (mem : bytes) (i n : Z) : option bytes :=
  if (i <? 0) || (n <? 0) || (slen mem <? i + n) then None else Some (take (Z.to_nat n) (drop (Z.to_nat i) mem)).

(** What replaces the range from [f] to [t] of the text in [mem], of which [jslen] bytes
    count: the value, with quotes added or dropped as it needs. *)
Definition json_replace (mem : bytes) (jslen f t : Z) (v : bytes) : option bytes :=
  let is_str := isstring v in
  a ← mem_slice mem 0 f;
  c ← mem_slice mem t 1;
  let q := hd0 c =? QUOTE in
  let '(pre, b2) := if is_str then (if q then [] else [QUOTE], t) else ([], if q then t + 1 else t) in
  c ← mem_slice mem b2 1;
  let q := hd0 c =? QUOTE in
  let '(post, b2) := if is_str then (if q then [] else [QUOTE], b2) else ([], if q then b2 + 1 else b2) in
  r ← mem_slice mem b2 (jslen - b2);
  Some (cstr (a ++ pre ++ v ++ post ++ r)).

(** The key and the value are cut out. *)
Definition json_delete (mem : bytes) (js : bytes) (jslen : Z) (rs : Rangstr) (f t : Z) : option bytes :=
  kidx ← findkey (set_range (u64 (rf rs - 2)) (rt rs) rs);
  let len0 := Z.max 1 (kidx - 1) in
  c ← mem_slice mem t 1;
  let b2 := if hd0 c =? QUOTE then t + 1 else t in
  let b2 := if jslen - b2 =? 2 then b2 else b2 + 1 in
  a ← mem_slice mem 0 len0;
  r ← mem_slice mem b2 (jslen - b2);
  Some (cstr (a ++ r)).

Definition sdb_json_set now (k p : bytes) (v : option bytes) (c0 : Z) : M (option bool) :=
  match v with
  | None => mret (Some false)
  | Some v =>
      r ← sdb_const_get_len now (Some k);
      let '(js, jslen, c) := r in
      match js with
      | None =>
          _ ← sdb_set now (Some k) (Some ([chr "{"; QUOTE] ++ p ++ [QUOTE; chr ":"] ++ quote (isstring v) ++ v ++ quote (isstring v) ++ [chr "}"])) c0;
          mret (Some true)
      | Some mem =>
          let jslen := jslen + 1 in
          if negb (c0 =? 0) && negb (c =? c0) then mret (Some false)
          else
            let js := cstr mem in
            match json_get js p with
            | None => mret None
            | Some rs =>
                match rp rs with
                | None =>
                    let comma := if negb (hd0 js =? 0) && negb (hd0 (tail js) =? chr "}") then [chr ","] else [] in
                    let buf := [chr "{"; QUOTE] ++ p ++ [QUOTE; chr ":"] ++ quote (isstring v) ++ v ++ quote (isstring v) ++ comma ++ tail js in
                    _ ← sdb_set_owned now (Some k) (Some (take (Z.to_nat (jslen + slen p + slen v + 7 - 1)) buf)) c0; mret (Some true)
                | Some q =>
                    let f := q.2 + rf rs in
                    let t := q.2 + rt rs in
                    match (if hd0 v =? 0 then json_delete mem js jslen rs f t else json_replace mem jslen f t v) with
                    | None => mret None
                    | Some str => _ ← sdb_set_owned now (Some k) (Some str) c0; mret (Some true)
                    end
                end
            end
      end
  end.

Definition sdb_json_unset now (k p : bytes) (c : Z) : M (option bool) := sdb_json_set now k p None c.

(** [sdb_itoa] of the [int], converted to 64 bits. *)
Definition sdb_json_num_set now (k p : bytes) (v c : Z) : M (option bool) :=
  sdb_json_set now k p (sdb_itoa (u64 v) 10 (Some SDB_NUM_BUFSZ)) c.

Definition sdb_json_num_inc now (k p : bytes) (n c0 : Z) : M (option Z) :=
  r ← sdb_json_num_get now k p;
  match r.1 with
  | None => mret None
  | Some cur =>
      if negb (c0 =? 0) && negb (r.2 =? c0) then mret (Some 0)
      else x ← sdb_json_num_set now k p (s32 (cur + n)) c0; mret (x ≫= λ _, Some (s32 (cur + n)))
  end.

Definition sdb_json_num_dec now (k p : bytes) (n c0 : Z) : M (option Z) :=
  r ← sdb_json_num_get now k p;
  match r.1 with
  | None => mret None
  | Some cur =>
      if negb (c0 =? 0) && negb (r.2 =? c0) then mret (Some 0)
      else x ← sdb_json_num_set now k p (s32 (cur - n)) c0; mret (x ≫= λ _, Some (s32 (cur - n)))
  end.

(** [api_json_set], the older variant on texts; [api_json_seti] prints its number first. *)
Definition api_json_set (s k v : bytes) : option (option bytes) :=
  rs ← json_get s k;
  match rp rs with
  | None => Some None
  | Some q =>
      a ← slice (s, 0) 0 (q.2 + rf rs);
      c ← slice (s, 0) (q.2 + rt rs) (slen s - (q.2 + rt rs));
      Some (Some (a ++ v ++ c))
  end.

Definition api_json_seti (s k : bytes) (a : Z) : option (option bytes) := api_json_set s k (dec_text a).
