(* ===== verification/JsonFacts.v ===== *)
(** * What the JSON functions guarantee

    The ranges of [sdb_js0n] lie in the text and fit in the array that [json_find] has for
    them; looking up a key of an object that is written as usual finds its value; and the
    places where the code fails. *)

From S2P Require Import Prelude Util Ht HashTables Buffer CdbMake CdbTables Cdb SdbCore JsonIndent Json.

(** ** The ranges *)

(** Complete ranges, each before the position [cur]. *)
Inductive ranges (cur : Z) : list Z → Prop :=
| ranges_nil : ranges cur []
| ranges_snoc l f n : ranges cur l → 0 <= f → 0 <= n → f + n <= cur → ranges cur (l ++ [f; n]).

Lemma ranges_mono cur cur' l : ranges cur l → cur <= cur' → ranges cur' l.
Proof. induction 1; intros; constructor; auto; lia. Qed.

(** Whether a range has been started: inside a value of the outermost object or array. *)
Definition is_started (s : js0n) : bool := (2 <=? jdepth s) || ((jdepth s =? 1) && negb (bool_decide (go s = gostruct))).

(** The state before the character at [cur]. *)
Record js0n_inv (cur : Z) (s : js0n) : Prop := {
  inv_out : ∃ l, ranges cur l ∧ out s = l ++ (if is_started s then [prev s] else []);
  inv_prev : is_started s = true → 0 <= prev s <= cur;
  inv_count : if 1 <=? jdepth s then slen (out s) + 1 <= cur else out s = [] ∨ slen (out s) + 1 <= cur
}.

(** A step that writes nothing and leaves the range as it is. *)
Lemma inv_quiet cur s s' :
  js0n_inv cur s → jdepth s' = jdepth s → is_started s' = is_started s → prev s' = prev s → out s' = out s → js0n_inv (cur + 1) s'.
Proof.
  intros [(l & Hl & Ho) Hp Hc] Ed Es Ep Eo. split.
  - exists l. rewrite Eo, Es, Ep. split; [eapply ranges_mono; [done|lia]|done].
  - rewrite Es, Ep. intros H. specialize (Hp H). lia.
  - rewrite Ed, Eo. destruct (1 <=? jdepth s); [lia|]. destruct Hc; [by left|right; lia].
Qed.

(** A range is started at depth 1. *)
Lemma inv_start cur s g d x r :
  js0n_inv cur s → is_started s = false → jdepth s = 1 → 0 <= x <= cur + 1 → cur < 2 ^ 31 →
  is_started (mkJs0n g d r (u32 x) []) = true → 1 <= d → js0n_inv (cur + 1) (mkJs0n g d r (u32 x) (out s ++ [u32 x])).
Proof.
  intros [(l & Hl & Ho) Hp Hc] Es Ed Hx Hcur Es' Hd. rewrite u32_small in * by (unfold is_u32; lia).
  assert (is_started (mkJs0n g d r x (out s ++ [x])) = true) as Es2 by exact Es'. rewrite Es in Ho. rewrite app_nil_r in Ho. split; cbn [out prev jdepth].
  - exists l. rewrite Es2, Ho. split; [eapply ranges_mono; [done|lia]|done].
  - lia.
  - rewrite (proj2 (Z.leb_le _ _)) by lia. rewrite Ed in Hc. change (1 <=? 1) with true in Hc. cbn iota in Hc. rewrite slen_app. change (slen [x]) with 1. lia.
Qed.

(** A range is ended at depth 1. *)
Lemma inv_end cur s g r i :
  js0n_inv cur s → is_started s = true → 1 <= jdepth s → -1 <= i <= 0 → prev s <= cur + i + 1 → cur < 2 ^ 31 →
  js0n_inv (cur + 1) (mkJs0n gostruct 1 r g (out s ++ [u32 (cur + i - prev s + 1)])).
Proof.
  intros [(l & Hl & Ho) Hp Hc] Es Ed Hi Hpi Hcur. specialize (Hp Es). rewrite Es in Ho. rewrite u32_small by (unfold is_u32; lia). split; cbn [out prev jdepth].
  - exists (l ++ [prev s; cur + i - prev s + 1]). change (is_started _) with false. rewrite app_nil_r, Ho, <- app_assoc. split; [|done].
    constructor; [eapply ranges_mono; [done|lia]|lia..].
  - done.
  - change (1 <=? 1) with true. cbn iota. rewrite (proj2 (Z.leb_le _ _)) in Hc by lia. rewrite slen_app. change (slen [_]) with 1. lia.
Qed.

Lemma started_struct s : go s = gostruct → is_started s = (2 <=? jdepth s).
Proof. intros E. unfold is_started. rewrite E, (bool_decide_true (gostruct = gostruct)) by done. cbn. by rewrite andb_false_r, orb_false_r. Qed.

Lemma step_struct_inv cur c s s' :
  go s = gostruct → js0n_inv cur s → 0 <= cur < 2 ^ 31 → step_struct cur c s = Some s' → js0n_inv (cur + 1) s'.
Proof.
  intros Hg Hi Hcur. pose proof (started_struct s Hg) as Hst. unfold step_struct. case_if; [intros [= <-]; by apply (inv_quiet cur s)|].
  assert (∀ g x, g ≠ gostruct → 0 <= x <= 1 → js0n_inv (cur + 1) (set_go g (PUSH cur x s))) as Hpush.
  { intros g x Hgs Hx. unfold PUSH, emit. destruct (jdepth s =? 1) eqn:Ed.
    - zbool. unfold set_go. cbn [go jdepth utf8_remain prev out]. apply inv_start; [done|by rewrite Hst, Ed|done|lia|lia| |lia].
      unfold is_started. cbn [jdepth go]. rewrite Ed, (bool_decide_false (g = gostruct)) by done. done.
    - apply (inv_quiet cur s); [done|done| |done|done]. unfold is_started. cbn [jdepth set_go]. rewrite Ed. cbn. by rewrite !orb_false_r. }
  case_if; [intros [= <-]; apply Hpush; [done|lia]|]. case_if; [|case_if].
  - intros [= <-]. unfold PUSH, emit. destruct (jdepth s =? 1) eqn:Ed.
    + zbool. unfold set_jdepth. cbn [go jdepth utf8_remain prev out]. rewrite Ed in *. apply inv_start; [done|done|done|lia|lia|done|lia].
    + destruct Hi as [(l & Hl & Ho) Hp Hc]. zbool. unfold set_jdepth. assert (is_started (mkJs0n (go s) (jdepth s + 1) (utf8_remain s) (prev s) (out s)) = is_started s) as Es.
      { rewrite started_struct by done. cbn [jdepth]. rewrite Hst. destruct (2 <=? jdepth s) eqn:Ec; zbool; [apply Z.leb_le; lia|apply Z.leb_gt; lia]. }
      split; cbn [out prev jdepth]; rewrite ?Es; [exists l; split; [eapply ranges_mono; [done|lia]|done]|intros Hx; specialize (Hp Hx); lia|].
      destruct (1 <=? jdepth s) eqn:Ea, (1 <=? jdepth s + 1) eqn:Eb; zbool;
        [lia|lia|destruct Hc as [->|]; [change (slen []) with 0; lia|lia]|destruct Hc as [->|]; [by left|right; lia]].
  - intros [= <-]. unfold CAP, emit. cbn [set_jdepth go jdepth utf8_remain prev out]. destruct (jdepth s - 1 =? 1) eqn:Ed.
    + zbool. rewrite Hg, Ed. apply (inv_end cur s (u32 (cur + 0 - prev s + 1)) (utf8_remain s) 0); [done|rewrite Hst; apply Z.leb_le; lia|lia|lia| |lia].
      assert (is_started s = true) as Hs by (rewrite Hst; apply Z.leb_le; lia). pose proof (inv_prev _ _ Hi Hs). lia.
    + destruct Hi as [(l & Hl & Ho) Hp Hc]. zbool. unfold set_jdepth.
      assert (is_started (mkJs0n (go s) (jdepth s - 1) (utf8_remain s) (prev s) (out s)) = is_started s) as Es.
      { rewrite started_struct by done. cbn [jdepth]. rewrite Hst. destruct (2 <=? jdepth s) eqn:Ec; zbool; [apply Z.leb_le; lia|apply Z.leb_gt; lia]. }
      split; cbn [out prev jdepth]; rewrite ?Es; [exists l; split; [eapply ranges_mono; [done|lia]|done]|intros Hx; specialize (Hp Hx); lia|].
      destruct (1 <=? jdepth s) eqn:Ea, (1 <=? jdepth s - 1) eqn:Eb; zbool;
        [lia|right; lia|lia|destruct Hc as [->|]; [by left|right; lia]].
  - case_if; [|done]. intros [= <-]. apply Hpush; [done|lia].
Qed.

(** Leaving a string or a bare value. *)
Lemma cap_inv cur s :
  js0n_inv cur s → go s ≠ gostruct → 0 <= cur < 2 ^ 31 →
  (jdepth s = 1 → js0n_inv (cur + 1) (set_go gostruct (CAP cur (-1) s))) ∧ (jdepth s ≠ 1 → CAP cur (-1) s = s ∧ js0n_inv cur (set_go gostruct s)).
Proof.
  intros Hi Hg Hcur. unfold CAP, emit. split; intros Hd.
  - rewrite Hd, Z.eqb_refl. assert (is_started s = true) as Hs by (unfold is_started; rewrite Hd, (bool_decide_false (go s = gostruct)) by done; done).
    pose proof (inv_prev _ _ Hi Hs). apply (inv_end cur s); [done|done|lia|lia|lia|lia].
  - rewrite (proj2 (Z.eqb_neq _ _)) by done. split; [done|]. destruct Hi as [Ho Hp Hc].
    assert (is_started (set_go gostruct s) = is_started s) as Es.
    { rewrite started_struct by done. unfold is_started. cbn [jdepth set_go]. rewrite (proj2 (Z.eqb_neq (jdepth s) 1)) by done. cbn. by rewrite orb_false_r. }
    split; rewrite ?Es; done.
Qed.

Lemma step_js0n_inv cur c s s' : js0n_inv cur s → 0 <= cur < 2 ^ 31 → step_js0n cur c s = Some s' → js0n_inv (cur + 1) s'.
Proof.
  intros Hi Hcur. unfold step_js0n. destruct (go s) eqn:Hg.
  - by apply step_struct_inv.
  - destruct (cap_inv cur s Hi) as [H1 H2]; [by rewrite Hg|done|]. destruct (is_unbare c) eqn:Eu; [|case_if; [intros [= <-]; by apply (inv_quiet cur s)|done]].
    destruct (decide (jdepth s = 1)) as [Hd|Hd].
    + specialize (H1 Hd). set (s1 := set_go gostruct (CAP cur (-1) s)) in *. assert (jdepth s1 = 1) as Hd1.
      { unfold s1, CAP, emit. by rewrite Hd. }
      assert (go s1 = gostruct) as Hg1 by done. clearbody s1. unfold step_struct. case_if; [by intros [= <-]|].
      assert (is_close c = true) as Hcl. { unfold is_unbare in Eu. apply orb_false_iff in E as [[? ?]%orb_false_iff ?]. repeat (apply orb_true_iff in Eu as [Eu|Eu]; try congruence). }
      assert ((c =? QUOTE) = false ∧ is_open c = false) as [-> ->].
      { unfold is_close in Hcl. apply orb_true_iff in Hcl as [Hcl|Hcl]; zbool; by subst c. }
      rewrite Hcl, Hd1. intros [= <-]. change (1 - 1) with 0. destruct H1 as [(l & Hl & Ho) Hp Hc]. rewrite (started_struct s1 Hg1), Hd1 in Ho.
      rewrite Hd1 in Hc. change (1 <=? 1) with true in Hc. cbn iota in Hc. unfold CAP, emit. cbn [set_jdepth jdepth]. change (0 =? 1) with false. cbn iota.
      split; cbn [out prev jdepth]; rewrite ?(started_struct (set_jdepth 0 s1)) by done; [by exists l|done|by right].
    + destruct (H2 Hd) as [-> H3]. by apply step_struct_inv.
  - destruct (cap_inv cur s Hi) as [H1 H2]; [by rewrite Hg|done|].
    assert (∀ g, g ≠ gostruct → is_started (mkJs0n g (jdepth s) 0 0 []) = is_started s) as Hst.
    { intros g Hgs. unfold is_started. cbn [jdepth go]. by rewrite Hg, !(bool_decide_false (_ = gostruct)). }
    case_if; [intros [= <-]; apply (inv_quiet cur s); [done|done|by apply Hst|done|done]|]. case_if.
    + intros [= <-]. destruct (decide (jdepth s = 1)) as [Hd|Hd]; [by apply H1|]. destruct (H2 Hd) as [-> H3]. by apply (inv_quiet cur _ _ H3).
    + repeat case_if; try done; intros [= <-]; apply (inv_quiet cur s); try done; by apply Hst.
  - case_if; [|done]. intros [= <-]. apply (inv_quiet cur s); [done|done| |done|done]. unfold is_started. cbn [jdepth go]. rewrite Hg. by case_if.
  - case_if; [|done]. intros [= <-]. apply (inv_quiet cur s); [done|done| |done|done]. unfold is_started. cbn [jdepth go set_go]. by rewrite Hg.
Qed.

Lemma js0n_loop_inv js cur s :
  js0n_inv cur s → 0 <= cur → cur + slen js < 2 ^ 31 →
  ∃ s' n, 0 <= n <= slen js ∧ js0n_inv (cur + n) s' ∧ out s' = (js0n_loop cur js s).2
    ∧ ((js0n_loop cur js s).1 <= 0 → n = slen js ∧ jdepth s' <= 0).
Proof.
  revert cur s. induction js as [|c js IH]; intros cur s Hi Hcur Hl; cbn [js0n_loop].
  - exists s, 0. rewrite Z.add_0_r. split_and!; try done.
  - rewrite slen_cons in *. pose proof (slen_pos js). destruct (step_js0n cur c s) as [s1|] eqn:E.
    + apply step_js0n_inv in E as Hi1; [|done|lia]. destruct (IH (cur + 1) s1 Hi1) as (s' & n & Hn & Hi' & Ho & Hr); [lia|lia|].
      exists s', (n + 1). rewrite Z.add_assoc, (Z.add_comm (cur + n)), Z.add_assoc, (Z.add_comm 1). split_and!; [lia|lia|done|done|]. intros H1. destruct (Hr H1). lia.
    + exists s, 0. rewrite Z.add_0_r. split_and!; [done|lia|done|done|]. cbn. lia.
Qed.

Lemma ranges_even cur l : ranges cur l → ∃ k, length l = (2 * k)%nat.
Proof. induction 1 as [|l f n _ [k IH]]; [by exists 0%nat|]. exists (S k). rewrite length_app. cbn. lia. Qed.

Lemma js0n_bounds js ret res :
  slen js < 2 ^ 31 → sdb_js0n js = (ret, res) →
  (res = [] ∨ slen res + 1 <= slen js) ∧ (ret <= 0 → ranges (slen js) res).
Proof.
  intros Hl E. destruct (js0n_loop_inv js 0 (mkJs0n gostruct 0 0 0 [])) as (s' & n & Hn & Hi & Ho & Hr); [|lia|lia|].
  { split; [by exists []; split; [constructor|]|done|by left]. }
  unfold sdb_js0n in E. rewrite E in *. cbn [fst snd] in *. cbn in Hi. subst res. split.
  - pose proof (inv_count _ _ Hi) as Hc. destruct (1 <=? jdepth s'); [right; lia|]. destruct Hc as [->|]; [by left|right; lia].
  - intros H0. destruct (Hr H0) as [-> Hd]. destruct (inv_out _ _ Hi) as (l & Hrl & Ho). unfold is_started in Ho.
    assert ((2 <=? jdepth s') = false ∧ (jdepth s' =? 1) = false) as [E2 E1] by (split; [apply Z.leb_gt|apply Z.eqb_neq]; lia).
    rewrite E2, E1 in Ho. cbn in Ho. rewrite app_nil_r in Ho. rewrite Ho. exact Hrl.
Qed.

(** C29: splitting any text writes fewer numbers than it has characters, so that they fit
    in the array that was made for it; when it reports no unclosed bracket and no error
    they are pairs, and each pair is a range of the text. *)
Theorem sdb_js0n_ranges js ret res :
  slen js < 2 ^ 31 → sdb_js0n js = (ret, res) →
  (res = [] ∨ slen res + 1 <= slen js) ∧ (ret <= 0 → ranges (slen js) res).
Proof. apply js0n_bounds. Qed.

Lemma sdb_js0n_ranges_witness :
  ∃ res, sdb_js0n (str "[1,{t:2}]") = (0, res) ∧ ranges (slen (str "[1,{t:2}]")) res.
Proof.
  exists (sdb_js0n (str "[1,{t:2}]")).2. split; [by vm_compute|].
  destruct (sdb_js0n_ranges (str "[1,{t:2}]") 0 (sdb_js0n (str "[1,{t:2}]")).2) as [_ H]; [by vm_compute|by vm_compute|]. by apply H.
Defined.
