(* ===== verification/JsonPortable.v ===== *)
(** * The version of [sdb_js0n] without computed gotos ([src/json/js0n.c])

    For compilers without that extension the file has a second version, which remembers
    what it did last in place of a jump table.  The macros are shared, and so are the
    variables of the state; the jump table of the first version is not used here. *)

From S2P Require Import Prelude Util Ht HashTables Buffer CdbMake CdbTables Cdb SdbCore JsonIndent Json.

(** [what_did] holds one of the flags at a time. *)
Inductive did :=
| GO_DOWN | GO_UP | GO_Q_DOWN | GO_Q_UP | GO_BARE | GO_UNBARE | GO_ESCAPE | GO_UNESCAPE | GO_UTF8 | GO_UTF8_CONTINUE.

Definition set_remain (r : Z) (s : js0n) : js0n := mkJs0n (go s) (jdepth s) r (prev s) (out s).

(** The last [switch] of the loop; [None] is [return 1]. *)
Definition switch_struct (cur c : Z) (what_did : did) (s : js0n) : option (did * js0n) :=
  if is_ws c || (c =? chr ",") || (c =? chr ":") then Some (what_did, s)
  else if c =? QUOTE then Some (GO_Q_UP, PUSH cur 1 s)
  else if is_open c then let s := PUSH cur 0 s in Some (GO_UP, set_jdepth (jdepth s + 1) s)
  else if is_close c then Some (GO_DOWN, CAP cur 0 (set_jdepth (jdepth s - 1) s))
  else if (c =? chr "-") || (c =? chr "t") || (c =? chr "f") || (c =? chr "n") then Some (GO_BARE, PUSH cur 0 s)
  else if (48 <=? c) && (c <=? 57) then Some (GO_BARE, PUSH cur 0 s)
  else None.

Definition switch_string (cur c : Z) (what_did : did) (s : js0n) : option (did * js0n) :=
  if c =? BSL then Some (GO_ESCAPE, s)
  else if c =? QUOTE then Some (GO_Q_DOWN, CAP cur (-1) s)
  else if (c <=? 31) || ((127 <=? c) && (c <=? 191)) || ((248 <=? c) && (c <=? 255)) then None
  else if c <? 127 then Some (what_did, s)
  else Some (GO_UTF8, set_remain (if c <? 224 then 1 else if c <? 239 then 2 else 3) s).

Definition portable_step (cur c : Z) (what_did : did) (s : js0n) : option (did * js0n) :=
  match what_did with
  | GO_BARE =>
      if is_unbare c then switch_struct cur c GO_UNBARE (CAP cur (-1) s)
      else if (32 <=? c) && (c <=? 126) then Some (what_did, s) else None
  | GO_UTF8 =>
      if (c <? 128) || ((192 <=? c) && (c <=? 255)) then None
      else let r := utf8_remain s - 1 in Some (if r =? 0 then GO_UTF8_CONTINUE else what_did, set_remain r s)
  | GO_ESCAPE => if is_escape c then Some (GO_UNESCAPE, s) else None
  | GO_Q_UP | GO_UTF8_CONTINUE | GO_UNESCAPE => switch_string cur c what_did s
  | GO_DOWN | GO_UP | GO_Q_DOWN | GO_UNBARE => switch_struct cur c what_did s
  end.

Fixpoint portable_loop (cur : Z) (js : bytes) (what_did : did) (s : js0n) : Z * list Z :=
  match js with
  | [] => (jdepth s, out s)
  | c :: js' =>
      match portable_step cur c what_did s with Some (d, s) => portable_loop (cur + 1) js' d s | None => (1, out s) end
  end.

(** The initial flag is 1, which is [GO_DOWN]. *)
Definition sdb_js0n_portable (js : bytes) : Z * list Z := portable_loop 0 js GO_DOWN (mkJs0n gostruct 0 0 0 []).

(** ** The two versions agree *)

(** The jump table that stands for a flag. *)
Definition table_of (d : did) : table :=
  match d with
  | GO_BARE => gobare
  | GO_UTF8 => goutf8_continue
  | GO_ESCAPE => goesc
  | GO_Q_UP | GO_UTF8_CONTINUE | GO_UNESCAPE => gostring
  | GO_DOWN | GO_UP | GO_Q_DOWN | GO_UNBARE => gostruct
  end.

(** The state of the first version for one of the second. *)
Definition as_goto (ds : did * js0n) : js0n := set_go (table_of ds.1) ds.2.

Lemma emit_set_go x g s : emit x (set_go g s) = set_go g (emit x s).
Proof. unfold emit. cbn [set_go jdepth]. by destruct (jdepth s =? 1). Qed.

Lemma set_go_twice g h s : set_go g (set_go h s) = set_go g s.
Proof. done. Qed.

Lemma set_go_goto s : go s = gostruct → set_go gostruct s = s.
Proof. destruct s. cbn. by intros ->. Qed.

Lemma switch_struct_goto cur c d s :
  table_of d = gostruct → as_goto <$> switch_struct cur c d s = step_struct cur c (as_goto (d, s)).
Proof.
  intros Hd. unfold switch_struct, step_struct. rewrite <- (orb_assoc (is_ws c)), (orb_comm (c =? chr ",")), orb_assoc.
  destruct (is_ws c || (c =? chr ":") || (c =? chr ",")); [done|]. unfold as_goto, PUSH, CAP. cbn [fst snd]. rewrite Hd.
  destruct (c =? QUOTE); [cbn; by rewrite emit_set_go, set_go_twice|]. destruct (is_open c); [cbn; by rewrite emit_set_go|].
  destruct (is_close c). { cbn [fmap option_fmap option_map fst snd table_of]. f_equal. by rewrite <- emit_set_go. }
  assert (is_bare c = ((c =? chr "-") || (c =? chr "t") || (c =? chr "f") || (c =? chr "n")) || ((48 <=? c) && (c <=? 57))) as ->.
  { unfold is_bare. by destruct (c =? chr "-"), ((48 <=? c) && (c <=? 57)), (c =? chr "t"), (c =? chr "f"), (c =? chr "n"). }
  destruct ((c =? chr "-") || (c =? chr "t") || (c =? chr "f") || (c =? chr "n")); cbn [orb]; [cbn; by rewrite emit_set_go, set_go_twice|].
  destruct ((48 <=? c) && (c <=? 57)); [cbn; by rewrite emit_set_go, set_go_twice|done].
Qed.

Lemma switch_string_goto cur c d s :
  table_of d = gostring → 0 <= c < 256 → c ≠ 239 → as_goto <$> switch_string cur c d s = step_js0n cur c (as_goto (d, s)).
Proof.
  intros Hd Hc Hne. unfold step_js0n, as_goto. cbn [fst snd set_go go]. rewrite Hd. unfold switch_string.
  destruct (c =? BSL); [done|]. destruct (c =? QUOTE); [cbn; unfold CAP; by rewrite emit_set_go, set_go_twice|].
  destruct ((c <=? 31) || ((127 <=? c) && (c <=? 191)) || ((248 <=? c) && (c <=? 255))) eqn:E1; [|destruct (c <? 127) eqn:E2].
  - repeat case_match; zbool; try done; lia.
  - repeat case_match; zbool; try lia. cbn. by rewrite Hd.
  - repeat case_match; zbool; try lia; done.
Qed.

Lemma portable_step_goto cur c d s :
  0 <= c < 256 → c ≠ 239 → as_goto <$> portable_step cur c d s = step_js0n cur c (as_goto (d, s)).
Proof.
  intros Hc Hne. destruct d; cbn [portable_step]; try (by apply switch_string_goto); try (by apply switch_struct_goto).
  all: unfold step_js0n, as_goto; cbn [fst snd set_go go table_of].
  - destruct (is_unbare c); [|by case_match]. fold as_goto. rewrite (switch_struct_goto cur c GO_UNBARE) by done. f_equal. unfold CAP, as_goto. cbn [fst snd table_of]. by rewrite emit_set_go.
  - by destruct (is_escape c).
  - destruct ((c <? 128) || ((192 <=? c) && (c <=? 255))) eqn:E; destruct ((128 <=? c) && (c <=? 191)) eqn:E2; zbool; try lia; try done.
    cbn. by case_match.
Qed.

Lemma portable_loop_goto cur js d s :
  Forall (λ c, 0 <= c < 256) js → 239 ∉ js → portable_loop cur js d s = js0n_loop cur js (as_goto (d, s)).
Proof.
  intros Hb Hn. revert cur d s. induction Hb as [|c js Hc Hb IH]; intros cur d s; [done|]. apply not_elem_of_cons in Hn as [Hc' Hn].
  cbn [portable_loop js0n_loop]. rewrite <- (portable_step_goto cur c d s Hc (not_eq_sym Hc')). destruct (portable_step cur c d s) as [[d' s']|]; [|done]. by apply IH.
Qed.

(** C28: the version with computed gotos and the portable one return the same result and
    write the same ranges, on every sequence of bytes that does not contain 0xef. *)
Theorem sdb_js0n_versions_agree js :
  Forall (λ c, 0 <= c < 256) js → 239 ∉ js → sdb_js0n_portable js = sdb_js0n js.
Proof. apply portable_loop_goto. Qed.

Lemma sdb_js0n_versions_agree_witness :
  sdb_js0n_portable (str "{a:[1,2]}") = sdb_js0n (str "{a:[1,2]}") ∧ sdb_js0n_portable [123; 34; 195; 169; 34; 58; 49; 125] = (0, [2; 2; 6; 1]).
Proof.
  split.
  - apply sdb_js0n_versions_agree; [apply (bool_decide_unpack _); by vm_compute|apply (bool_decide_unpack _); by vm_compute].
  - rewrite sdb_js0n_versions_agree; [done|apply (bool_decide_unpack _); by vm_compute|apply (bool_decide_unpack _); by vm_compute].
Defined.

(** The portable version expects one continuation byte too many behind 0xef: the text with
    U+FFFD, which is three bytes, is taken by the one and refused by the other. *)
Theorem sdb_js0n_portable_ef :
  let js := [123; 34; 239; 191; 189; 34; 58; 49; 125] in sdb_js0n js = (0, [2; 3; 7; 1]) ∧ sdb_js0n_portable js = (1, [2]).
Proof. split; reflexivity. Qed.
