(* ===== verification/JsonLookup.v ===== *)
(** * Looking up a key of a JSON object

    For a text that is written from a value, with no white space, splitting it gives the
    ranges of its keys and values, and [sdb_json_get_str] of a key its value. *)

From S2P Require Import Prelude Util Ht HashTables Buffer CdbMake CdbTables Cdb SdbCore JsonIndent Json JsonFacts.

(** ** Values and their texts *)

Inductive json :=
| JBare (b : bytes)
| JStr (s : bytes)
| JArr (l : list json)
| JObj (l : list (bytes * json)).

(** Characters of strings that need no escape, and of numbers and words. *)
Definition str_char (c : Z) : bool := (32 <=? c) && (c <=? 126) && negb (c =? QUOTE) && negb (c =? BSL).
Definition bare_char (c : Z) : bool := (32 <=? c) && (c <=? 126) && negb (is_unbare c).
Definition str_ok (s : bytes) : bool := forallb str_char s.
Definition bare_ok (b : bytes) : bool := match b with [] => false | c :: r => is_bare c && forallb bare_char r end.

Definition quoted_text (s : bytes) : bytes := QUOTE :: s ++ [QUOTE].

Fixpoint comma_list (l : list bytes) : bytes :=
  match l with [] => [] | [x] => x | x :: l' => x ++ chr "," :: comma_list l' end.

Fixpoint json_text (v : json) : bytes :=
  match v with
  | JBare b => b
  | JStr s => quoted_text s
  | JArr l => chr "[" :: comma_list (json_text <$> l) ++ [chr "]"]
  | JObj l => chr "{" :: comma_list ((λ '(k, v), quoted_text k ++ chr ":" :: json_text v) <$> l) ++ [chr "}"]
  end.

Fixpoint json_ok (v : json) : bool :=
  match v with
  | JBare b => bare_ok b
  | JStr s => str_ok s
  | JArr l => forallb json_ok l
  | JObj l => forallb (λ '(k, v), str_ok k && json_ok v) l
  end.

Lemma json_ind' (P : json → Prop) :
  (∀ b, P (JBare b)) → (∀ s, P (JStr s)) → (∀ l, Forall P l → P (JArr l)) → (∀ l, Forall (λ x, P x.2) l → P (JObj l)) → ∀ v, P v.
Proof.
  intros HB HS HA HO. fix IH 1. intros [b|s|l|l]; [apply HB|apply HS|apply HA|apply HO].
  - induction l as [|v l IHl]; constructor; [apply IH|exact IHl].
  - induction l as [|[k v] l IHl]; constructor; [apply IH|exact IHl].
Qed.

(** ** Running the machine over a text *)

Fixpoint js0n_run (cur : Z) (js : bytes) (s : js0n) : option js0n :=
  match js with
  | [] => Some s
  | c :: js' => match step_js0n cur c s with Some s => js0n_run (cur + 1) js' s | None => None end
  end.

Lemma run_app cur a b s : js0n_run cur (a ++ b) s = js0n_run cur a s ≫= js0n_run (cur + slen a) b.
Proof.
  revert cur s. induction a as [|c a IH]; intros cur s; cbn [js0n_run app].
  - change (slen []) with 0. by rewrite Z.add_0_r.
  - rewrite slen_cons. destruct (step_js0n cur c s); [|done]. rewrite IH. by replace (cur + 1 + slen a) with (cur + (slen a + 1)) by lia.
Qed.

Lemma run_loop cur js s s' : js0n_run cur js s = Some s' → js0n_loop cur js s = (jdepth s', out s').
Proof.
  revert cur s. induction js as [|c js IH]; intros cur s; cbn [js0n_run js0n_loop]; [by intros [= <-]|].
  destruct (step_js0n cur c s); [apply IH|done].
Qed.

(** What may follow a value. *)
Definition is_term (c : Z) : Prop := c = chr "," ∨ c = chr "]" ∨ c = chr "}".

Lemma term_unbare c : is_term c → is_unbare c = true.
Proof. by intros [-> | [-> | ->]]. Qed.

Lemma run_str s st cur : go st = gostring → str_ok s = true → js0n_run cur s st = Some st.
Proof.
  intros Hg. revert cur. induction s as [|c s IH]; intros cur; cbn [js0n_run str_ok forallb]; [done|]. intros [Hc Hs]%andb_true_iff.
  unfold step_js0n. rewrite Hg. unfold str_char in Hc. rewrite !andb_true_iff, !negb_true_iff in Hc. destruct Hc as [[[H1 H2] Hq] Hb].
  rewrite Hq, Hb, H1, H2. by apply IH.
Qed.

Lemma run_bare b st cur : go st = gobare → forallb bare_char b = true → js0n_run cur b st = Some st.
Proof.
  intros Hg. revert cur. induction b as [|c b IH]; intros cur; cbn [js0n_run forallb]; [done|]. intros [Hc Hs]%andb_true_iff.
  unfold step_js0n. rewrite Hg. unfold bare_char in Hc. rewrite !andb_true_iff, negb_true_iff in Hc. destruct Hc as [[H1 H2] Hu].
  rewrite Hu, H1, H2. by apply IH.
Qed.

(** ** Below the outermost level nothing is written *)

(** A text that leaves the machine as it was, once the character behind it comes. *)
Definition quiet (e : bytes) : Prop := ∀ cur s c,
  go s = gostruct → 2 <= jdepth s → is_term c → js0n_run cur (e ++ [c]) s = step_struct (cur + slen e) c s.

Lemma set_go_same s : go s = gostruct → set_go gostruct s = s.
Proof. destruct s. cbn. by intros ->. Qed.

Lemma emit_deep x s : jdepth s ≠ 1 → emit x s = s.
Proof. intros Hd. unfold emit. by rewrite (proj2 (Z.eqb_neq _ _)). Qed.

Lemma step_quote cur s : go s = gostruct → step_js0n cur QUOTE s = Some (set_go gostring (PUSH cur 1 s)).
Proof. intros Hg. unfold step_js0n. by rewrite Hg. Qed.

(** A string, at any depth. *)
Lemma run_quoted k s cur :
  go s = gostruct → str_ok k = true →
  js0n_run cur (quoted_text k) s = Some (set_go gostruct (CAP (cur + 1 + slen k) (-1) (set_go gostring (PUSH cur 1 s)))).
Proof.
  intros Hg Hk. unfold quoted_text. cbn [js0n_run]. rewrite step_quote by done. rewrite run_app, run_str by done. cbn [mbind option_bind js0n_run].
  unfold step_js0n. cbn [set_go go]. done.
Qed.

Lemma run_quoted_deep k s cur : go s = gostruct → 2 <= jdepth s → str_ok k = true → js0n_run cur (quoted_text k) s = Some s.
Proof.
  intros Hg Hd Hk. rewrite run_quoted by done. unfold PUSH, CAP. rewrite (emit_deep (cur + 1)) by lia. rewrite emit_deep by (cbn; lia).
  unfold set_go at 1. cbn [jdepth utf8_remain prev out set_go]. by rewrite <- Hg; destruct s.
Qed.

Lemma quiet_str k : str_ok k = true → quiet (quoted_text k).
Proof.
  intros Hk cur s c Hg Hd Hc. rewrite run_app, run_quoted_deep by done. cbn [mbind option_bind js0n_run]. unfold step_js0n. rewrite Hg.
  by destruct (step_struct _ _ _).
Qed.

Lemma step_bare cur c s : go s = gostruct → is_bare c = true → step_js0n cur c s = Some (set_go gobare (PUSH cur 0 s)).
Proof.
  intros Hg Hb. unfold step_js0n. rewrite Hg. unfold step_struct. rewrite Hb.
  assert (is_ws c = false ∧ (c =? chr ":") = false ∧ (c =? chr ",") = false ∧ (c =? QUOTE) = false ∧ is_open c = false ∧ is_close c = false) as (-> & -> & -> & -> & -> & ->); [|done].
  unfold is_bare in Hb. rewrite !orb_true_iff, andb_true_iff in Hb.
  destruct Hb as [[[[Hb|[Hb1 Hb2]]|Hb]|Hb]|Hb]; zbool; [subst c; done| |subst c; done..].
  unfold is_ws, is_open, is_close, QUOTE. change (chr ":") with 58. change (chr ",") with 44. change (chr "{") with 123. change (chr "[") with 91. change (chr "}") with 125. change (chr "]") with 93.
  split_and!; repeat (apply orb_false_iff; split); apply Z.eqb_neq; lia.
Qed.

(** A number or a word, at any depth. *)
Lemma run_bare_term b s cur c :
  go s = gostruct → bare_ok b = true → is_term c →
  js0n_run cur (b ++ [c]) s = step_struct (cur + slen b) c (set_go gostruct (CAP (cur + slen b) (-1) (set_go gobare (PUSH cur 0 s)))).
Proof.
  intros Hg Hb Hc. destruct b as [|x b]; [done|]. cbn [bare_ok] in Hb. apply andb_true_iff in Hb as [Hx Hb]. cbn [app js0n_run].
  rewrite step_bare by done. rewrite run_app, run_bare by done. cbn [mbind option_bind js0n_run]. unfold step_js0n. cbn [set_go go].
  rewrite term_unbare by done. rewrite slen_cons. replace (cur + 1 + slen b) with (cur + (slen b + 1)) by lia. by destruct (step_struct _ _ _).
Qed.

Lemma quiet_bare b : bare_ok b = true → quiet b.
Proof.
  intros Hb cur s c Hg Hd Hc. rewrite run_bare_term by done. unfold PUSH, CAP. rewrite (emit_deep (cur + 0)) by lia. rewrite emit_deep by (cbn; lia).
  f_equal. unfold set_go. cbn. rewrite <- Hg. by destruct s.
Qed.

(** A list of quiet texts, up to the bracket that closes it. *)
Lemma quiet_list l cur s c :
  Forall quiet l → go s = gostruct → 2 <= jdepth s → c = chr "]" ∨ c = chr "}" →
  js0n_run cur (comma_list l ++ [c]) s = step_struct (cur + slen (comma_list l)) c s.
Proof.
  intros Hl Hg Hd Hc. revert cur. induction Hl as [|e l He Hl IH]; intros cur.
  - cbn [comma_list app js0n_run]. change (slen []) with 0. rewrite Z.add_0_r. unfold step_js0n. rewrite Hg. by destruct (step_struct cur c s).
  - destruct l as [|e2 l]; [apply He; [done|done|destruct Hc as [->| ->]; [by right; left|by right; right]]|].
    change (comma_list (e :: e2 :: l)) with (e ++ chr "," :: comma_list (e2 :: l)). rewrite <- app_assoc. cbn [app].
    change (chr "," :: ?r) with ([chr ","] ++ r). rewrite app_assoc, run_app, He; [|done|done|by left]. change (step_struct ?x (chr ",") s) with (Some s). cbn [mbind option_bind].
    rewrite IH. f_equal. rewrite !slen_app. lia.
Qed.

Lemma step_open cur c s : go s = gostruct → is_open c = true → step_js0n cur c s = Some (set_jdepth (jdepth s + 1) (PUSH cur 0 s)).
Proof.
  intros Hg Ho. unfold step_js0n. rewrite Hg. unfold step_struct. rewrite Ho.
  assert (is_ws c || (c =? chr ":") || (c =? chr ",") = false ∧ (c =? QUOTE) = false) as [-> ->].
  { unfold is_open in Ho. apply orb_true_iff in Ho as [Ho|Ho]; zbool; by subst c. }
  f_equal. unfold PUSH, emit. by destruct (jdepth s =? 1).
Qed.

Lemma struct_close cur c s : is_close c = true → step_struct cur c s = Some (CAP cur 0 (set_jdepth (jdepth s - 1) s)).
Proof.
  intros Hc. unfold step_struct. rewrite Hc.
  assert (is_ws c || (c =? chr ":") || (c =? chr ",") = false ∧ (c =? QUOTE) = false ∧ is_open c = false) as (-> & -> & ->); [|done].
  unfold is_close in Hc. apply orb_true_iff in Hc as [Hc|Hc]; zbool; by subst c.
Qed.

Lemma quiet_brackets l o c : Forall quiet l → is_open o = true → c = chr "]" ∨ c = chr "}" → quiet (o :: comma_list l ++ [c]).
Proof.
  intros Hl Ho Hc cur s x Hg Hd Hx. cbn [app js0n_run]. rewrite step_open by done. unfold PUSH. rewrite emit_deep by lia.
  rewrite run_app, (quiet_list l); [|done|done|cbn; lia|done].
  rewrite struct_close by (destruct Hc as [->| ->]; done). cbn [mbind option_bind js0n_run]. unfold CAP. rewrite emit_deep by (cbn; lia).
  assert (set_jdepth (jdepth (set_jdepth (jdepth s + 1) s) - 1) (set_jdepth (jdepth s + 1) s) = s) as ->.
  { destruct s. unfold set_jdepth. cbn. f_equal. lia. }
  unfold step_js0n. rewrite Hg. rewrite slen_cons, slen_app. change (slen [c]) with 1.
  replace (cur + 1 + (slen (comma_list l) + 1)) with (cur + (slen (comma_list l) + 1 + 1)) by lia. by destruct (step_struct _ _ _).
Qed.

Lemma member_quiet k e : str_ok k = true → quiet e → quiet (quoted_text k ++ chr ":" :: e).
Proof.
  intros Hk He cur s c Hg Hd Hc. rewrite <- app_assoc, run_app, run_quoted_deep by done. cbn [mbind option_bind app js0n_run].
  unfold step_js0n at 1. rewrite Hg. change (step_struct ?x (chr ":") s) with (Some s). cbn iota. rewrite He by done. f_equal. rewrite slen_app, slen_cons. lia.
Qed.

Lemma json_quiet v : json_ok v = true → quiet (json_text v).
Proof.
  induction v as [b|s|l IH|l IH] using json_ind'; cbn [json_ok json_text]; intros Hok.
  - by apply quiet_bare.
  - by apply quiet_str.
  - apply quiet_brackets; [|done|by left]. rewrite forallb_forall in Hok. rewrite Forall_forall in IH. apply Forall_fmap, Forall_forall.
    intros v Hv. apply IH; [done|]. apply Hok. by apply list_elem_of_In.
  - apply quiet_brackets; [|done|by right]. rewrite forallb_forall in Hok. rewrite Forall_forall in IH. apply Forall_fmap, Forall_forall.
    intros [k v] Hv. specialize (Hok (k, v) ltac:(by apply list_elem_of_In)). apply andb_true_iff in Hok as [Hk Hv']. cbn. apply member_quiet; [done|].
    by apply (IH (k, v) Hv).
Qed.

(** ** At the outermost level each value writes its range *)

(** Where the range of a value starts in its text, and the part of the text it covers. *)
Definition inner_start (v : json) : Z := match v with JStr _ => 1 | _ => 0 end.
Definition inner_text (v : json) : bytes := match v with JStr s => s | _ => json_text v end.

Definition wrote (f n : Z) (s : js0n) : js0n := mkJs0n gostruct 1 (utf8_remain s) n (out s ++ [f; n]).

Lemma emit_outer x s : jdepth s = 1 → 0 <= x < 2 ^ 32 → emit x s = mkJs0n (go s) 1 (utf8_remain s) x (out s ++ [x]).
Proof. intros Hd Hx. unfold emit. rewrite Hd, Z.eqb_refl. by rewrite u32_small. Qed.

Lemma run_quoted_outer k s cur :
  go s = gostruct → jdepth s = 1 → str_ok k = true → 0 <= cur → cur + slen k + 2 < 2 ^ 31 →
  js0n_run cur (quoted_text k) s = Some (wrote (cur + 1) (slen k) s).
Proof.
  intros Hg Hd Hk Hc Hl. pose proof (slen_pos k). rewrite run_quoted by done. unfold PUSH, CAP. rewrite (emit_outer (cur + 1)) by (done || lia).
  unfold set_go. cbn [go jdepth utf8_remain prev out]. replace (cur + 1 + slen k + -1 - (cur + 1) + 1) with (slen k) by lia.
  rewrite emit_outer by (done || lia). unfold wrote, set_go. cbn. by rewrite <- app_assoc.
Qed.

Lemma brackets_outer l o c cur s x :
  Forall quiet l → is_open o = true → c = chr "]" ∨ c = chr "}" → go s = gostruct → jdepth s = 1 → 0 <= cur → cur + slen (comma_list l) + 2 < 2 ^ 31 →
  js0n_run cur ((o :: comma_list l ++ [c]) ++ [x]) s = step_struct (cur + slen (o :: comma_list l ++ [c])) x (wrote cur (slen (o :: comma_list l ++ [c])) s).
Proof.
  intros Hl Ho Hc Hg Hd Hcur Hlen. pose proof (slen_pos (comma_list l)). cbn [app js0n_run]. rewrite step_open by done. unfold PUSH.
  rewrite emit_outer by (done || lia). rewrite Hd. unfold set_jdepth. cbn [go jdepth utf8_remain prev out].
  rewrite run_app, (quiet_list l); [|done|done|cbn; lia|done]. rewrite struct_close by (destruct Hc as [->| ->]; done). cbn [mbind option_bind js0n_run].
  unfold CAP, set_jdepth. cbn [go jdepth utf8_remain prev out]. rewrite slen_cons, slen_app. change (slen [c]) with 1.
  rewrite emit_outer by (cbn; lia). cbn [go jdepth utf8_remain prev out].
  replace (cur + 1 + slen (comma_list l) + 0 - (cur + 0) + 1) with (slen (comma_list l) + 1 + 1) by lia. rewrite Z.add_0_r. rewrite <- app_assoc. unfold step_js0n. cbn [go].
  unfold wrote. replace (cur + 1 + (slen (comma_list l) + 1)) with (cur + (slen (comma_list l) + 1 + 1)) by lia. rewrite Hg. by destruct (step_struct _ _ _).
Qed.

Lemma json_outer v cur s c :
  json_ok v = true → go s = gostruct → jdepth s = 1 → is_term c → 0 <= cur → cur + slen (json_text v) < 2 ^ 31 →
  js0n_run cur (json_text v ++ [c]) s = step_struct (cur + slen (json_text v)) c (wrote (cur + inner_start v) (slen (inner_text v)) s).
Proof.
  intros Hok Hg Hd Hc Hcur Hlen. destruct v as [b|k|l|l]; cbn [inner_start inner_text json_text] in *; rewrite ?Z.add_0_r.
  - pose proof (slen_pos b). rewrite run_bare_term by done. f_equal. unfold PUSH, CAP. rewrite (emit_outer (cur + 0)) by (done || lia). unfold set_go. cbn [go jdepth utf8_remain prev out].
    rewrite emit_outer by (done || lia). unfold wrote. cbn [go jdepth utf8_remain prev out]. rewrite Z.add_0_r, <- app_assoc.
    by replace (cur + slen b + -1 - cur + 1) with (slen b) by lia.
  - unfold quoted_text in Hlen. rewrite slen_cons, slen_app in Hlen. change (slen [QUOTE]) with 1 in Hlen.
    rewrite run_app, run_quoted_outer by (done || lia). cbn [mbind option_bind js0n_run]. unfold step_js0n. cbn [wrote go]. by destruct (step_struct _ _ _).
  - apply brackets_outer; try done; [|by left|rewrite slen_cons, slen_app in Hlen; change (slen [_]) with 1 in Hlen; lia].
    cbn [json_ok] in Hok. rewrite forallb_forall in Hok. apply Forall_fmap, Forall_forall. intros v Hv. apply json_quiet, Hok. by apply list_elem_of_In.
  - apply brackets_outer; try done; [|by right|rewrite slen_cons, slen_app in Hlen; change (slen [_]) with 1 in Hlen; lia].
    cbn [json_ok] in Hok. rewrite forallb_forall in Hok. apply Forall_fmap, Forall_forall. intros [k v] Hv. cbn.
    specialize (Hok (k, v) ltac:(by apply list_elem_of_In)). apply andb_true_iff in Hok as [Hk Hv']. by apply member_quiet, json_quiet.
Qed.

(** The members of an object and the ranges they write, from the position [cur] on. *)
Definition member (kv : bytes * json) : bytes := quoted_text kv.1 ++ chr ":" :: json_text kv.2.
Definition member_ranges (cur : Z) (kv : bytes * json) : list Z :=
  [cur + 1; slen kv.1; cur + slen kv.1 + 3 + inner_start kv.2; slen (inner_text kv.2)].

Fixpoint members_ranges (cur : Z) (l : list (bytes * json)) : list Z :=
  match l with [] => [] | kv :: l' => member_ranges cur kv ++ members_ranges (cur + slen (member kv) + 1) l' end.

Definition member_ok (kv : bytes * json) : bool := str_ok kv.1 && json_ok kv.2.

Lemma member_length kv : slen (member kv) = slen kv.1 + 3 + slen (json_text kv.2).
Proof. unfold member, quoted_text. rewrite slen_app, !slen_cons, slen_app. change (slen [QUOTE]) with 1. lia. Qed.

(** The state after some ranges have been written. *)
Definition wrote_all (l : list Z) (s : js0n) (s' : js0n) : Prop := go s' = gostruct ∧ jdepth s' = 1 ∧ out s' = out s ++ l.

Lemma run_member kv cur s c :
  member_ok kv = true → go s = gostruct → jdepth s = 1 → is_term c → 0 <= cur → cur + slen (member kv) < 2 ^ 31 →
  ∃ s', js0n_run cur (member kv ++ [c]) s = step_struct (cur + slen (member kv)) c s' ∧ wrote_all (member_ranges cur kv) s s'.
Proof.
  intros Hok Hg Hd Hc Hcur Hl. destruct kv as [k v]. apply andb_true_iff in Hok as [Hk Hv]. cbn [fst snd] in *. rewrite member_length in *. cbn [fst snd] in *.
  pose proof (slen_pos k). pose proof (slen_pos (json_text v)).
  eexists. split.
  - unfold member. cbn [fst snd]. rewrite <- app_assoc, run_app, run_quoted_outer by (done || lia). cbn [mbind option_bind app js0n_run].
    unfold step_js0n at 1. cbn [wrote go]. change (step_struct ?x (chr ":") ?s) with (Some s). cbn iota.
    rewrite (json_outer v) by (done || (unfold quoted_text; rewrite slen_cons, slen_app; change (slen [QUOTE]) with 1; lia)).
    f_equal. unfold quoted_text. rewrite slen_cons, slen_app. change (slen [QUOTE]) with 1. lia.
  - unfold wrote_all, wrote. cbn [go jdepth out]. split_and!; [done|done|]. rewrite <- app_assoc. f_equal. unfold member_ranges. cbn [app fst snd].
    unfold quoted_text. rewrite slen_cons, slen_app. change (slen [QUOTE]) with 1.
    by replace (cur + (slen k + 1 + 1) + 1 + inner_start v) with (cur + slen k + 3 + inner_start v) by lia.
Qed.

Lemma run_members l cur s :
  forallb member_ok l = true → go s = gostruct → jdepth s = 1 → 0 <= cur → cur + slen (comma_list (member <$> l)) < 2 ^ 31 →
  ∃ s', js0n_run cur (comma_list (member <$> l) ++ [chr "}"]) s = step_struct (cur + slen (comma_list (member <$> l))) (chr "}") s'
    ∧ wrote_all (members_ranges cur l) s s'.
Proof.
  revert cur s. induction l as [|kv l IH]; intros cur s Hok Hg Hd Hcur Hl.
  - exists s. split; [|split_and!; [done|done|by rewrite app_nil_r]]. cbn [fmap list_fmap comma_list app js0n_run]. change (slen []) with 0. rewrite Z.add_0_r.
    unfold step_js0n. rewrite Hg. by destruct (step_struct _ _ _).
  - cbn [forallb] in Hok. apply andb_true_iff in Hok as [Hkv Hok]. destruct l as [|kv2 l].
    + cbn [fmap list_fmap comma_list members_ranges]. destruct (run_member kv cur s (chr "}")) as (s' & E & Hw); [done|done|done|by right; right|done|done|].
      exists s'. by rewrite app_nil_r.
    + rewrite (fmap_cons member kv) in Hl |- *. change (comma_list (member kv :: (member <$> kv2 :: l))) with (member kv ++ [chr ","] ++ comma_list (member <$> kv2 :: l)) in Hl |- *.
      rewrite !slen_app in Hl |- *. change (slen [chr ","]) with 1 in Hl |- *. pose proof (slen_pos (comma_list (member <$> kv2 :: l))). pose proof (slen_pos (member kv)).
      destruct (run_member kv cur s (chr ",")) as (s1 & E1 & Hg1 & Hd1 & Ho1); [done|done|done|by left|done|lia|].
      assert (∀ r, (member kv ++ [chr ","] ++ r) ++ [chr "}"] = (member kv ++ [chr ","]) ++ (r ++ [chr "}"])) as -> by (intros r; by rewrite <- !app_assoc).
      rewrite run_app, slen_app. change (slen [chr ","]) with 1.
      assert (js0n_run cur (member kv ++ [chr ","]) s = Some s1) as -> by exact E1. cbn [mbind option_bind].
      destruct (IH (cur + (slen (member kv) + 1)) s1) as (s2 & E2 & Hg2 & Hd2 & Ho2); [done|done|done|lia|lia|].
      exists s2. rewrite E2. split; [f_equal; lia|]. split_and!; [done|done|]. rewrite Ho2, Ho1, <- app_assoc. f_equal.
      cbn [members_ranges]. by rewrite Z.add_assoc.
Qed.

Definition object_text (l : list (bytes * json)) : bytes := chr "{" :: comma_list (member <$> l) ++ [chr "}"].

Lemma object_json_text l : object_text l = json_text (JObj l).
Proof. unfold object_text. cbn [json_text]. do 2 f_equal. f_equal. apply list_fmap_ext. by intros _ [k v] _. Qed.

(** Splitting an object. *)
Lemma js0n_object l :
  forallb member_ok l = true → slen (object_text l) < 2 ^ 31 → sdb_js0n (object_text l) = (0, members_ranges 1 l).
Proof.
  intros Hok Hl. unfold object_text in *. rewrite slen_cons, slen_app in Hl. change (slen [chr "}"]) with 1 in Hl. pose proof (slen_pos (comma_list (member <$> l))).
  unfold sdb_js0n. set (s1 := mkJs0n gostruct 1 0 0 []). destruct (run_members l 1 s1) as (s2 & E & Hg2 & Hd2 & Ho2); [done|done|done|lia|lia|].
  rewrite (run_loop _ _ _ (set_jdepth 0 s2)); [by cbn; rewrite Ho2|]. cbn [js0n_run]. rewrite step_open by done. unfold PUSH. rewrite emit_deep by done.
  cbn [jdepth]. change (0 + 1) with 1. change (set_jdepth 1 _) with s1. rewrite E, struct_close by done. rewrite Hd2. unfold CAP. by rewrite emit_deep.
Qed.

(** ** Finding the value of a key *)

Lemma s32_id z : - 2 ^ 31 <= z < 2 ^ 31 → s32 z = z.
Proof. intros Hz. unfold s32. rewrite Z.mod_small by lia. lia. Qed.

Lemma slice_mid a x b : slice (a ++ x ++ b, 0) (slen a) (slen x) = Some x.
Proof.
  unfold slice. cbn [fst snd]. pose proof (slen_pos a). pose proof (slen_pos x). pose proof (slen_pos b). rewrite !slen_app.
  rewrite !(proj2 (Z.ltb_ge _ _)) by lia. cbn [orb]. f_equal. rewrite Z.add_0_l. unfold slen. rewrite !Nat2Z.id, <- !app_assoc. rewrite drop_app_length. by rewrite take_app_length.
Qed.

(** The range of a whole key. *)
Definition key_range (k : bytes) : Rangstr := mkRs 0 1 0 (slen k) (Some (k, 0)).

Lemma cmp_key k a k' b t :
  slen k < 2 ^ 31 → slen (a ++ k' ++ b) < 2 ^ 31 → t = a ++ k' ++ b →
  rangstr_cmp (key_range k) (mkRs 0 1 (slen a) (slen a + slen k') (Some (t, 0))) = Some (negb (bool_decide (k = k'))).
Proof.
  intros Hk Ht ->. rewrite !slen_app in Ht. pose proof (slen_pos a). pose proof (slen_pos k). pose proof (slen_pos k'). pose proof (slen_pos b).
  unfold rangstr_cmp, key_range. cbn [rp rf rt]. rewrite !s32_id by lia. unfold strlen_at. cbn [fst snd]. rewrite !slen_app.
  rewrite !(proj2 (Z.ltb_ge _ _)) by lia. cbn [orb mbind option_bind]. rewrite (proj2 (Z.ltb_ge _ _)) by lia.
  replace (slen k - 0) with (slen k) by lia. replace (slen a + slen k' - slen a) with (slen k') by lia. destruct (slen k =? slen k') eqn:E; cbn [negb].
  - zbool. pose proof (slice_mid [] k []) as Hs. rewrite app_nil_r in Hs. cbn [app] in Hs. change (slen []) with 0 in Hs. rewrite Hs.
    cbn [mbind option_bind]. by rewrite E, slice_mid.
  - zbool. rewrite bool_decide_false; [done|]. by intros ->.
Qed.

(** The value of the first member with the key. *)
Fixpoint assoc (k : bytes) (l : list (bytes * json)) : option json :=
  match l with [] => None | (k', v) :: l' => if bool_decide (k = k') then Some v else assoc k l' end.

Definition is_range_of (t : bytes) (x : bytes) (r : Rangstr) : Prop :=
  rp r = Some (t, 0) ∧ 0 <= rf r ∧ rt r = rf r + slen x ∧ slice (t, 0) (rf r) (slen x) = Some x ∧ rt r <= slen t.

(** The same with the position of the value, where the object starts at [cur]. *)
Fixpoint assoc_at (k : bytes) (cur : Z) (l : list (bytes * json)) : option (Z * json) :=
  match l with
  | [] => None
  | (k', v) :: l' => if bool_decide (k = k') then Some (cur + slen k' + 3, v) else assoc_at k (cur + slen (member (k', v)) + 1) l'
  end.

Lemma assoc_at_assoc k cur l : snd <$> assoc_at k cur l = assoc k l.
Proof. revert cur. induction l as [|[k' v] l IH]; intros cur; [done|]. cbn [assoc_at assoc]. case_bool_decide; [done|apply IH]. Qed.

Definition found (t : bytes) (o : option (Z * json)) (r : Rangstr) : Prop :=
  match o with Some (p, v) => rf r = p + inner_start v ∧ is_range_of t (inner_text v) r | None => r = rangstr_null end.

Lemma member_inner kv : ∃ x y, member kv = x ++ inner_text kv.2 ++ y ∧ slen x = slen kv.1 + 3 + inner_start kv.2.
Proof.
  destruct kv as [k v]. unfold member. cbn [fst snd]. destruct v as [b|s|l|l]; cbn [json_text inner_text inner_start].
  2: { exists (quoted_text k ++ [chr ":"; QUOTE]), [QUOTE]. unfold quoted_text. rewrite <- !app_assoc. split; [done|].
       rewrite slen_app, slen_cons, slen_app. change (slen [QUOTE]) with 1. change (slen [chr ":"; QUOTE]) with 2. lia. }
  all: exists (quoted_text k ++ [chr ":"]), []; rewrite app_nil_r, <- app_assoc; split; [done|]; unfold quoted_text;
    rewrite slen_app, slen_cons, slen_app; change (slen [QUOTE]) with 1; change (slen [chr ":"]) with 1; lia.
Qed.

Lemma res_at_ok size res i : 0 <= i < size → res_at size res i = Some (default 0 (res !! Z.to_nat i)).
Proof. intros Hi. unfold res_at. rewrite (proj2 (Z.ltb_ge _ _)), (proj2 (Z.leb_gt _ _)) by lia. done. Qed.

Lemma lookup_pre (pre l : list Z) n : (pre ++ l) !! Z.to_nat (slen pre + Z.of_nat n) = l !! n.
Proof. unfold slen. rewrite lookup_app_r by lia. f_equal. lia. Qed.

Lemma news_ok p res i f n : res i = Some f → res (i + 1) = Some n → 0 <= f + n < 2 ^ 32 → rangstr_news p res i = Some (mkRs 0 1 f (f + n) (Some p)).
Proof. intros Hf Hn Hr. unfold rangstr_news. rewrite Hf. cbn [mbind option_bind]. rewrite Hn. cbn [mbind option_bind]. by rewrite u32_small. Qed.

Lemma object_loop_spec l fuel t k a rest pre size res :
  t = a ++ comma_list (member <$> l) ++ rest → res = pre ++ members_ranges (slen a) l → slen res + 1 <= size → slen t < 2 ^ 31 → slen k < 2 ^ 31 →
  (length l < fuel)%nat → ∃ r, object_loop fuel (t, 0) (key_range k) (res_at size res) (slen pre) = Some r ∧ found t (assoc_at k (slen a) l) r.
Proof.
  revert fuel a pre rest. induction l as [|[k' v] l IH]; intros fuel a pre rest Ht Hres Hsz Hlen Hk Hf; (destruct fuel as [|fuel]; [lia|]); cbn [object_loop].
  - pose proof (slen_pos pre). subst res. rewrite slen_app in Hsz. rewrite res_at_ok by (pose proof (slen_pos (members_ranges (slen a) [])); lia).
    cbn [members_ranges mbind option_bind]. rewrite app_nil_r, lookup_ge_None_2 by (unfold slen; lia). cbn. by eexists.
  - cbn [members_ranges] in Hres. pose proof (slen_pos pre) as Hpp. pose proof (slen_pos a) as Hap.
    assert (slen res = slen pre + 4 + slen (members_ranges (slen a + slen (member (k', v)) + 1) l)) as Hlr by (rewrite Hres, !slen_app; cbn; unfold slen; cbn; lia).
    pose proof (slen_pos (members_ranges (slen a + slen (member (k', v)) + 1) l)) as Hmr.
    assert (∀ n x, member_ranges (slen a) (k', v) !! n = Some x → res_at size res (slen pre + Z.of_nat n) = Some x) as Hlk.
    { intros n x Hn. assert (n < 4)%nat by (apply lookup_lt_Some in Hn; done). rewrite res_at_ok by lia. rewrite Hres, lookup_pre, lookup_app_l by done. by rewrite Hn. }
    assert (∃ rest', t = (a ++ member (k', v)) ++ rest') as [rest' Ht'].
    { rewrite Ht, fmap_cons. destruct l as [|kv2 l]; [exists rest; by rewrite <- app_assoc|].
      exists (chr "," :: comma_list (member <$> kv2 :: l) ++ rest). change (comma_list (member (k', v) :: (member <$> kv2 :: l))) with (member (k', v) ++ chr "," :: comma_list (member <$> kv2 :: l)). by rewrite <- !app_assoc. }
    pose proof (slen_pos k') as Hk'. pose proof (slen_pos rest') as Hrp. pose proof (slen_pos (json_text v)) as Hjt. pose proof (member_length (k', v)) as Hml. cbn [fst snd] in Hml.
    assert (slen t = slen a + slen (member (k', v)) + slen rest') as Hlt by (rewrite Ht', !slen_app; lia).
    pose proof (Hlk 0%nat (slen a + 1) eq_refl) as H0. pose proof (Hlk 1%nat (slen k') eq_refl) as H1. rewrite Z.add_0_r in H0.
    rewrite H0. cbn [mbind option_bind]. rewrite (proj2 (Z.eqb_neq _ _)) by lia. rewrite (news_ok _ _ (slen pre) (slen a + 1) (slen k') H0 H1) by lia. cbn [mbind option_bind].
    assert (t = (a ++ [QUOTE]) ++ k' ++ ([QUOTE; chr ":"] ++ json_text v ++ rest')) as Htk.
    { rewrite Ht'. unfold member, quoted_text. cbn [fst snd]. rewrite <- !app_assoc. cbn. by rewrite <- !app_assoc. }
    replace (slen a + 1) with (slen (a ++ [QUOTE])) by (by rewrite slen_app).
    assert (slen ((a ++ [QUOTE]) ++ k' ++ ([QUOTE; chr ":"] ++ json_text v ++ rest')) < 2 ^ 31) as Hl2 by (by rewrite <- Htk).
    rewrite (cmp_key k (a ++ [QUOTE]) k' _ t Hk Hl2 Htk). cbn [mbind option_bind assoc_at]. destruct (bool_decide (k = k')) eqn:Ek; cbn [negb].
    + destruct (member_inner (k', v)) as (x & y & Hm & Hx). cbn [fst snd] in *. pose proof (slen_pos (inner_text v)). pose proof (slen_pos y).
      assert (slen (member (k', v)) = slen x + slen (inner_text v) + slen y) as Hml2 by (rewrite Hm, !slen_app; lia). pose proof (slen_pos x).
      pose proof (Hlk 2%nat (slen a + slen k' + 3 + inner_start v) eq_refl) as Hf2. pose proof (Hlk 3%nat (slen (inner_text v)) eq_refl) as Hf3.
      change (Z.of_nat 2) with 2 in Hf2. replace (slen pre + Z.of_nat 3) with (slen pre + 2 + 1) in Hf3 by lia.
      replace (slen a + slen k' + 3 + inner_start v) with (slen (a ++ x)) in Hf2 by (rewrite slen_app; lia). rewrite (news_ok _ _ _ _ _ Hf2 Hf3) by (rewrite slen_app; lia).
      eexists. split; [done|]. unfold found, is_range_of. cbn [rp rf rt]. split_and!; [rewrite slen_app; lia|done|apply slen_pos|done| |rewrite slen_app; lia].
      replace t with ((a ++ x) ++ inner_text v ++ (y ++ rest')); [apply slice_mid|]. rewrite Ht', Hm. by rewrite <- !app_assoc.
    + replace (slen pre + 4) with (slen (pre ++ member_ranges (slen a) (k', v))) by (by rewrite slen_app).
      destruct l as [|kv2 l].
      * change (assoc_at k (slen a + slen (member (k', v)) + 1) []) with (assoc_at k (slen (a ++ member (k', v))) []).
        apply (IH fuel (a ++ member (k', v)) (pre ++ member_ranges (slen a) (k', v)) rest'); [exact Ht'|by rewrite Hres, <- app_assoc|done|done|done|cbn in *; lia].
      * replace (slen a + slen (member (k', v)) + 1) with (slen (a ++ member (k', v) ++ [chr ","])) by (rewrite !slen_app; change (slen [chr ","]) with 1; lia).
        apply (IH fuel (a ++ member (k', v) ++ [chr ","]) (pre ++ member_ranges (slen a) (k', v)) rest).
        -- rewrite Ht, !fmap_cons. change (comma_list (?x :: ?y :: ?r)) with (x ++ chr "," :: comma_list (y :: r)). by rewrite <- !app_assoc.
        -- rewrite Hres, <- app_assoc. do 2 f_equal. rewrite !slen_app. change (slen [chr ","]) with 1. by rewrite Z.add_assoc.
        -- done.
        -- done.
        -- done.
        -- cbn in *. lia.
Qed.

Lemma members_ranges_length cur l : length (members_ranges cur l) = (4 * length l)%nat.
Proof. revert cur. induction l as [|kv l IH]; intros cur; [done|]. cbn [members_ranges]. rewrite length_app, IH. cbn. lia. Qed.

Lemma json_find_object l k :
  forallb member_ok l = true → slen (object_text l) < 2 ^ 31 → slen k < 2 ^ 31 →
  ∃ r, json_find (object_text l, 0) (key_range k) = Some r ∧ found (object_text l) (assoc_at k 1 l) r.
Proof.
  intros Hok Hl Hk. unfold json_find. cbn [fst snd]. change (drop (Z.to_nat 0) (object_text l)) with (object_text l).
  pose proof (js0n_object l Hok Hl) as Ej. rewrite Ej. destruct (js0n_bounds _ _ _ Hl Ej) as [Hb _].
  assert (slen (members_ranges 1 l) + 1 <= res_size (slen (object_text l))) as Hsz.
  { unfold res_size, RESFIXSZ. destruct Hb as [->|Hb]; [change (slen []) with 0|]; case_if; zbool; lia. }
  rewrite (proj2 (Z.ltb_ge _ _)) by lia. change (0 <? 0) with false. change (hd0 (object_text l) =? chr "[") with false. cbn iota.
  apply (object_loop_spec l _ _ k [chr "{"] [chr "}"] []); [done|done|done|done|done|]. rewrite members_ranges_length. lia.
Qed.

(** Keys that are a path of one component. *)
Definition simple_key (k : bytes) : Prop := chr "." ∉ k ∧ chr "[" ∉ k ∧ slen k < 2 ^ 31.

Lemma rd_in s i : 0 <= i <= slen s → rd (s, 0) i = Some (default 0 (s !! Z.to_nat i)).
Proof. intros Hi. unfold rd. cbn [fst snd]. rewrite !(proj2 (Z.ltb_ge _ _)) by lia. done. Qed.

Lemma find_loop_none fuel k i ch : 0 <= i → ch ∉ k → find_loop fuel (k, 0) i (slen k) ch = Some (-1).
Proof.
  intros Hi Hc. revert i Hi. induction fuel as [|fuel IH]; intros i Hi; cbn [find_loop]; [done|]. case_if; [done|]. zbool.
  rewrite rd_in by lia. cbn [mbind option_bind]. case_if; [done|]. case_if; [|apply IH; lia]. zbool. destruct (k !! Z.to_nat i) as [c|] eqn:Ek; [|done].
  cbn in *. subst c. by apply list_elem_of_lookup_2 in Ek.
Qed.

Lemma get_simple js k r :
  simple_key k → json_find (js, 0) (key_range k) = Some r → (rp r = None → r = rangstr_null) → json_get js k = Some r.
Proof.
  intros (Hd & Hb & Hk) Hf Hn. unfold json_get. pose proof (slen_pos k). pose proof (slen_pos js).
  assert (json_path_first (rangstr_new (Some (k, 0))) = key_range k) as ->.
  { unfold json_path_first, rangstr_new. cbn [rp fst snd]. change (drop (Z.to_nat 0) k) with k. rewrite (proj2 (strchr_None _ _)) by done. done. }
  assert (rangstr_find (set_range (rf (key_range k) + 1) (rt (key_range k)) (key_range k)) (chr "[") = Some (-1)) as Ef by (by apply find_loop_none).
  assert (∀ n, get_inner (S n) (rangstr_new (Some (js, 0))) (key_range k) = Some (match rp r with None => inl r | Some _ => inr (r, key_range k) end)) as Ei.
  { intros n. cbn [get_inner]. change (rangstr_str (rangstr_new (Some (js, 0)))) with (Some (js, 0)). change (rp (rangstr_new (Some (js, 0)))) with (Some (js, 0)). cbn iota. rewrite Hf.
    cbn [mbind option_bind]. destruct (rp r) as [p|] eqn:Er.
    - unfold json_path_next. change (rp (key_range k)) with (Some (k, 0)). change (rt (key_range k)) with (slen k). cbn iota. rewrite rd_in by lia.
      rewrite lookup_ge_None_2 by (unfold slen; lia). done.
    - change (rt (rangstr_new (Some (js, 0)))) with (slen js - 0). rewrite rd_in by lia. rewrite lookup_ge_None_2 by (unfold slen; lia). done. }
  generalize (S (length k)) as fuel. intros fuel. cbn [get_outer]. rewrite Ef. cbn [mbind option_bind]. change (-1 =? -1) with true. cbn iota zeta.
  change (negb (0 =? 0)) with false. rewrite !andb_false_r. cbn [andb]. cbn iota. change (bool_decide (rp (rangstr_new (Some (js, 0))) = None)) with false. cbn iota.
  rewrite Ei. cbn [mbind option_bind]. destruct (rp r) as [p|] eqn:Er; [|done]. rewrite andb_false_r. done.
Qed.

(** ** The text of a value is a C string *)

Lemma comma_list_cstr l : Forall is_cstr l → is_cstr (comma_list l).
Proof.
  induction 1 as [|x l Hx Hl IH]; [constructor|]. destruct l as [|y l]; [done|]. change (comma_list (x :: y :: l)) with (x ++ chr "," :: comma_list (y :: l)).
  apply Forall_app. split; [done|]. by constructor.
Qed.

Lemma str_ok_cstr s : str_ok s = true → is_cstr s.
Proof.
  unfold str_ok. rewrite forallb_forall. intros H. apply Forall_forall. intros c Hc%list_elem_of_In. specialize (H c Hc). unfold str_char in H. zbool. unfold is_char. lia.
Qed.

Lemma quoted_cstr s : str_ok s = true → is_cstr (quoted_text s).
Proof. intros Hs%str_ok_cstr. constructor; [done|]. apply Forall_app. split; [done|]. by repeat constructor. Qed.

Lemma json_text_cstr v : json_ok v = true → is_cstr (json_text v).
Proof.
  induction v as [b|s|l IH|l IH] using json_ind'; cbn [json_ok json_text]; intros Hok.
  - destruct b as [|c b]; [done|]. cbn [bare_ok] in Hok. apply andb_true_iff in Hok as [Hc Hb]. constructor.
    + unfold is_bare in Hc. unfold is_char. rewrite !orb_true_iff, andb_true_iff in Hc. destruct Hc as [[[[Hc|[Hc1 Hc2]]|Hc]|Hc]|Hc]; zbool; subst; try done; lia.
    + rewrite forallb_forall in Hb. apply Forall_forall. intros x Hx%list_elem_of_In. specialize (Hb x Hx). unfold bare_char in Hb. zbool. unfold is_char. lia.
  - by apply quoted_cstr.
  - constructor; [done|]. apply Forall_app. split; [|by repeat constructor]. apply comma_list_cstr. rewrite forallb_forall in Hok. rewrite Forall_forall in IH.
    apply Forall_fmap, Forall_forall. intros v Hv. apply IH; [done|]. apply Hok. by apply list_elem_of_In.
  - constructor; [done|]. apply Forall_app. split; [|by repeat constructor]. apply comma_list_cstr. rewrite forallb_forall in Hok. rewrite Forall_forall in IH.
    apply Forall_fmap, Forall_forall. intros [k v] Hv. specialize (Hok (k, v) ltac:(by apply list_elem_of_In)). apply andb_true_iff in Hok as [Hk Hv'].
    apply Forall_app. split; [by apply quoted_cstr|]. constructor; [done|]. by apply (IH (k, v) Hv).
Qed.

Lemma inner_cstr v : json_ok v = true → is_cstr (inner_text v).
Proof. intros Hok. destruct v; [by apply json_text_cstr|by apply str_ok_cstr|by apply json_text_cstr|by apply json_text_cstr]. Qed.

Lemma dup_range t x r : is_range_of t x r → is_cstr x → slen t < 2 ^ 31 → rangstr_dup r = Some (Some x).
Proof.
  intros (Hp & Hf & Ht & Hs & Hl) Hx Hlen. pose proof (slen_pos x). unfold rangstr_dup. rewrite Hp.
  assert (rangstr_length r = slen x) as ->.
  { unfold rangstr_length. rewrite Ht in *. case_if; zbool; [rewrite s32_id by lia; lia|lia]. }
  rewrite Hs. cbn [mbind option_bind]. by rewrite cstr_id.
Qed.

Lemma assoc_ok k l v : forallb member_ok l = true → assoc k l = Some v → json_ok v = true.
Proof.
  induction l as [|[k' v'] l IH]; [done|]. cbn [forallb assoc]. intros [Hkv Hl]%andb_true_iff. case_bool_decide; [|by apply IH].
  intros [= <-]. by apply andb_true_iff in Hkv as [_ ?].
Qed.

Lemma get_object l k :
  forallb member_ok l = true → slen (object_text l) < 2 ^ 31 → simple_key k →
  ∃ r, json_get (object_text l) k = Some r ∧ found (object_text l) (assoc_at k 1 l) r.
Proof.
  intros Hok Hl Hk. destruct (json_find_object l k Hok Hl (proj2 (proj2 Hk))) as (r & Er & Hr). exists r. split; [|done].
  apply get_simple; [done|done|]. destruct (assoc_at k 1 l) as [[q v]|]; [|done]. destruct Hr as (_ & Hp & _). by rewrite Hp.
Qed.

Lemma get_str_object l k :
  forallb member_ok l = true → slen (object_text l) < 2 ^ 31 → simple_key k →
  sdb_json_get_str (object_text l) k = Some (inner_text <$> assoc k l).
Proof.
  intros Hok Hl Hk. unfold sdb_json_get_str. destruct (get_object l k Hok Hl Hk) as (r & -> & Hr). cbn [mbind option_bind]. rewrite <- (assoc_at_assoc k 1).
  destruct (assoc_at k 1 l) as [[q v]|] eqn:Ea; cbn [found] in Hr; [|by subst r]. apply dup_range with (t := object_text l); [apply Hr| |done].
  apply inner_cstr. apply (assoc_ok k l); [done|]. by rewrite <- (assoc_at_assoc k 1), Ea.
Qed.

(** C26: asking a compact object (no white space outside strings; strings of printable ASCII without
    quotes and backslashes; shorter than 2 GB) for a key without a dot and an opening bracket gives
    the value of its first member with that key, a string without its quotes and any other value,
    nested objects and arrays included, as its text, and NULL when there is none; all reads stay
    inside the text and the array of ranges. On other texts and for nested keys that are missing it
    is not so: [json_find_reads_outside], [sdb_json_get_missing_nested]. *)
Theorem sdb_json_get_member l k :
  forallb member_ok l = true → slen (object_text l) < 2 ^ 31 → simple_key k →
  sdb_json_get_str (object_text l) k = Some (inner_text <$> assoc k l).
Proof. apply get_str_object. Qed.

Definition json_example : list (bytes * json) :=
  [(str "a", JBare (str "-1")); (str "b", JObj [(str "c", JArr [JStr (str "x"); JBare (str "null")])]); (str "a", JStr (str "again")); (str "s", JStr [])].

Lemma sdb_json_get_member_witness :
  sdb_json_get_str (object_text json_example) (str "a") = Some (Some (str "-1"))
  ∧ sdb_json_get_str (object_text json_example) (str "s") = Some (Some [])
  ∧ sdb_json_get_str (object_text json_example) (str "z") = Some None.
Proof.
  assert (∀ c, c ≠ chr "." → c ≠ chr "[" → simple_key [c]) as Hs.
  { intros c H1 H2. split_and!; [|..|by vm_compute]; intros Hc%list_elem_of_singleton; congruence. }
  split; [|split].
  - exact (sdb_json_get_member json_example (str "a") eq_refl ltac:(by vm_compute) ltac:(by apply Hs)).
  - exact (sdb_json_get_member json_example (str "s") eq_refl ltac:(by vm_compute) ltac:(by apply Hs)).
  - exact (sdb_json_get_member json_example (str "z") eq_refl ltac:(by vm_compute) ltac:(by apply Hs)).
Defined.
