(* ===== verification/JsonSet.v ===== *)
(** * Changing a key of a JSON object ([sdb_json_set])

    What a set does to the members of an object held by a database in memory, as an update
    of the list of members, and what a get then sees. *)

From S2P Require Import Prelude Util Ht HashTables Buffer CdbMake CdbTables Cdb SdbCore JsonIndent Json JsonFacts JsonLookup.

(** ** The members after a set *)

(** Numbers and truth values are written bare, anything else as a string. *)
Definition json_value (v : bytes) : json := if isstring v then JStr v else JBare v.

Fixpoint json_replace_first (p : bytes) (w : json) (l : list (bytes * json)) : list (bytes * json) :=
  match l with
  | [] => []
  | (k, v) :: l' => if bool_decide (p = k) then (k, w) :: l' else (k, v) :: json_replace_first p w l'
  end.

(** The value of the first member with the key is replaced; a new member comes first. *)
Definition json_put (p : bytes) (w : json) (l : list (bytes * json)) : list (bytes * json) :=
  match assoc p l with Some _ => json_replace_first p w l | None => (p, w) :: l end.

Lemma assoc_replace p w l q : assoc q (json_replace_first p w l) = if bool_decide (q = p) then (λ _, w) <$> assoc p l else assoc q l.
Proof.
  induction l as [|[k v] l IH]; cbn [json_replace_first assoc]; [by case_bool_decide|]. destruct (decide (p = k)) as [<-|Hp].
  - rewrite bool_decide_true by done. cbn [assoc]. by case_bool_decide.
  - rewrite bool_decide_false by done. cbn [assoc]. rewrite IH. case_bool_decide as E; [|by case_bool_decide].
    by rewrite bool_decide_false by congruence.
Qed.

Lemma assoc_put p w l q : assoc q (json_put p w l) = if bool_decide (q = p) then Some w else assoc q l.
Proof. unfold json_put. destruct (assoc p l) eqn:E; [rewrite assoc_replace, E|cbn [assoc]]; by case_bool_decide. Qed.

Lemma replace_ok p w l : forallb member_ok l = true → json_ok w = true → forallb member_ok (json_replace_first p w l) = true.
Proof.
  intros Hl Hw. induction l as [|[k v] l IH]; [done|]. cbn [forallb json_replace_first] in *. apply andb_true_iff in Hl as [Hkv Hl].
  unfold member_ok in Hkv. cbn [fst snd] in Hkv. apply andb_true_iff in Hkv as [Hk Hv].
  case_bool_decide; cbn [forallb]; unfold member_ok at 1; cbn [fst snd]; rewrite Hk; [by rewrite Hw, Hl|by rewrite Hv, IH].
Qed.

Lemma put_ok p w l : forallb member_ok l = true → str_ok p = true → json_ok w = true → forallb member_ok (json_put p w l) = true.
Proof.
  intros Hl Hp Hw. unfold json_put. destruct (assoc p l); [by apply replace_ok|]. cbn [forallb]. unfold member_ok at 1. cbn [fst snd]. by rewrite Hp, Hw, Hl.
Qed.

Lemma value_ok v : v ≠ [] → str_ok v = true → json_ok (json_value v) = true.
Proof.
  intros Hne Hv. unfold json_value. destruct (isstring v) eqn:E; [done|]. cbn [json_ok]. unfold isstring in E.
  destruct (decide (v = str "true")) as [->|Ht]; [done|]. destruct (decide (v = str "false")) as [->|Hf]; [done|].
  rewrite !bool_decide_false in E by done. cbn [orb] in E.
  assert (∀ c, c ∈ v → 48 <= c <= 57) as Hd.
  { intros c Hc. assert ((s8 c <? 48) || (57 <? s8 c) = false) as E1.
    { apply not_true_iff_false. intros Ht'. apply not_true_iff_false in E. apply E, existsb_exists. exists c. by split; [apply list_elem_of_In|]. }
    unfold str_ok in Hv. rewrite forallb_forall in Hv. apply list_elem_of_In in Hc. specialize (Hv c Hc). unfold str_char in Hv. zbool.
    unfold s8 in *. rewrite Z.mod_small in * by lia. lia. }
  assert (∀ c, 48 <= c <= 57 → is_bare c = true) as Hib.
  { intros c Hc. unfold is_bare. rewrite (proj2 (Z.leb_le 48 c)), (proj2 (Z.leb_le c 57)) by lia. by rewrite orb_true_r. }
  destruct v as [|c v]; [done|]. cbn [bare_ok]. rewrite Hib by (apply Hd; left). cbn [andb]. apply forallb_forall. intros x Hx%list_elem_of_In.
  specialize (Hd x ltac:(by right)). unfold bare_char, is_unbare, is_ws, is_close. change (chr ",") with 44. change (chr "}") with 125. change (chr "]") with 93.
  rewrite (proj2 (Z.leb_le 32 x)), (proj2 (Z.leb_le x 126)) by lia. cbn [andb]. apply negb_true_iff. repeat (apply orb_false_iff; split); apply Z.eqb_neq; lia.
Qed.

(** ** The text around the value of a key *)

(** The members in front of the value and behind it do not depend on it. *)
Lemma json_replace_text p l cur q v :
  assoc_at p cur l = Some (q, v) →
  ∃ x y, (∀ w, comma_list (member <$> json_replace_first p w l) = x ++ json_text w ++ y) ∧ slen x = q - cur ∧ (y = [] ∨ ∃ y', y = chr "," :: y').
Proof.
  revert cur. induction l as [|[k u] l IH]; intros cur; cbn [assoc_at json_replace_first]; [done|].
  assert (∀ w, slen (quoted_text k ++ [chr ":"]) = slen k + 3 ∧ member (k, w) = (quoted_text k ++ [chr ":"]) ++ json_text w) as Hm.
  { intros w. unfold member, quoted_text. cbn [fst snd]. rewrite slen_app, slen_cons, slen_app, <- app_assoc. split; [|done].
    change (slen [QUOTE]) with 1. change (slen [chr ":"]) with 1. lia. }
  case_bool_decide as Ep.
  - intros [= <- <-]. exists (quoted_text k ++ [chr ":"]). destruct l as [|kv l].
    + exists []. split_and!; [|rewrite (proj1 (Hm u)); lia|by left]. intros w. rewrite fmap_cons, app_nil_r. cbn [fmap list_fmap comma_list]. apply Hm.
    + exists (chr "," :: comma_list (member <$> kv :: l)). split_and!; [|rewrite (proj1 (Hm u)); lia|right; by eexists].
      intros w. rewrite !fmap_cons. change (comma_list (?a :: ?b :: ?r)) with (a ++ chr "," :: comma_list (b :: r)). rewrite (proj2 (Hm w)). by rewrite <- !app_assoc.
  - destruct l as [|[k2 u2] l]; [done|]. intros (x & y & Ht & Hx & Hy)%IH. exists (member (k, u) ++ chr "," :: x), y. split_and!; [|rewrite slen_app, slen_cons; lia|done].
    intros w. specialize (Ht w). rewrite fmap_cons.
    destruct (json_replace_first p w ((k2, u2) :: l)) as [|kv3 l3] eqn:E3; [cbn [json_replace_first] in E3; by case_bool_decide|].
    rewrite fmap_cons in *. change (comma_list (?a :: ?b :: ?r)) with (a ++ chr "," :: comma_list (b :: r)). by rewrite Ht, <- !app_assoc.
Qed.

Lemma replace_same p l v : assoc p l = Some v → json_replace_first p v l = l.
Proof.
  induction l as [|[k u] l IH]; cbn [assoc json_replace_first]; [done|]. case_bool_decide; [by intros [= ->]|]. intros H1. by rewrite IH.
Qed.

(** The object around a value: what follows it is not a quote. *)
Lemma object_around p l q v :
  assoc_at p 1 l = Some (q, v) →
  ∃ x y, object_text l = x ++ json_text v ++ y ∧ slen x = q ∧ hd0 y ≠ QUOTE ∧ y ≠ [] ∧ ∀ w, object_text (json_replace_first p w l) = x ++ json_text w ++ y.
Proof.
  intros Ha. destruct (json_replace_text p l 1 q v Ha) as (x & y & Ht & Hx & Hy). exists (chr "{" :: x), (y ++ [chr "}"]).
  assert (∀ w, object_text (json_replace_first p w l) = (chr "{" :: x) ++ json_text w ++ (y ++ [chr "}"])) as Hw.
  { intros w. unfold object_text. by rewrite Ht, <- !app_assoc. }
  split_and!; [|rewrite slen_cons; lia|by destruct Hy as [->|[y' ->]]|by destruct y|done].
  rewrite <- Hw, replace_same; [done|]. rewrite <- (assoc_at_assoc p 1), Ha. done.
Qed.

Lemma mem_slice_mid a x b : mem_slice (a ++ x ++ b) (slen a) (slen x) = Some x.
Proof.
  unfold mem_slice. pose proof (slen_pos a). pose proof (slen_pos x). pose proof (slen_pos b). rewrite !slen_app.
  rewrite !(proj2 (Z.ltb_ge _ _)) by lia. cbn [orb]. f_equal. unfold slen. rewrite !Nat2Z.id. by rewrite drop_app_length, take_app_length.
Qed.

(** The bytes at a position of a text cut in two or three. *)
Lemma mem_slice_at mem i n a x b : mem = a ++ x ++ b → i = slen a → n = slen x → mem_slice mem i n = Some x.
Proof. intros -> -> ->. apply mem_slice_mid. Qed.

(** ** Replacing a value *)

(** The bytes between [a] and [c] are replaced; quotes are added when the value is a string
    and [c] does not close one. *)
Lemma replace_between a b c r v :
  isstring v = true ∨ c ≠ QUOTE →
  let q := quote (isstring v && negb (c =? QUOTE)) in
  json_replace (a ++ b ++ c :: r) (slen (a ++ b ++ c :: r)) (slen a) (slen a + slen b) v = Some (cstr (a ++ q ++ v ++ q ++ c :: r)).
Proof.
  intros Hv q. unfold json_replace. rewrite (mem_slice_at _ 0 (slen a) [] a (b ++ c :: r)) by done. cbn [mbind option_bind].
  assert (mem_slice (a ++ b ++ c :: r) (slen a + slen b) 1 = Some [c]) as Ec.
  { apply (mem_slice_at _ _ _ (a ++ b) [c] r); [by rewrite <- app_assoc|by rewrite slen_app|done]. }
  assert (mem_slice (a ++ b ++ c :: r) (slen a + slen b) (slen (a ++ b ++ c :: r) - (slen a + slen b)) = Some (c :: r)) as Er.
  { apply (mem_slice_at _ _ _ (a ++ b) (c :: r) []); [by rewrite app_nil_r, <- app_assoc|by rewrite slen_app|rewrite !slen_app; lia]. }
  rewrite Ec. cbn [mbind option_bind hd0 hd]. subst q. destruct (isstring v), (c =? QUOTE) eqn:E; cbn [andb negb quote]; rewrite ?Ec; cbn [mbind option_bind hd0 hd]; rewrite ?E, ?Er; try done.
  exfalso. apply Z.eqb_eq in E. by destruct Hv.
Qed.

Lemma replace_value x y v0 v :
  is_cstr (x ++ json_text (json_value v) ++ y) → hd0 y ≠ QUOTE → y ≠ [] → (∀ t, v0 = JStr t → isstring v = true) →
  json_replace ((x ++ json_text v0 ++ y) ++ [0]) (slen (x ++ json_text v0 ++ y) + 1) (slen x + inner_start v0) (slen x + inner_start v0 + slen (inner_text v0)) v
  = Some (x ++ json_text (json_value v) ++ y).
Proof.
  intros Hc Hy Hne Hs. rewrite <- (cstr_app_nul (x ++ json_text (json_value v) ++ y) []) by done.
  replace (slen (x ++ json_text v0 ++ y) + 1) with (slen ((x ++ json_text v0 ++ y) ++ [0])) by (by rewrite slen_app).
  destruct y as [|c y]; [done|]. change (c ≠ QUOTE) in Hy. pose proof (proj2 (Z.eqb_neq c QUOTE) Hy) as Eq. unfold json_value. destruct v0 as [b|t|l|l].
  2: { specialize (Hs t eq_refl). rewrite Hs. cbn [inner_start inner_text json_text]. unfold quoted_text.
    pose proof (replace_between (x ++ [QUOTE]) t QUOTE ((c :: y) ++ [0]) v (or_introl Hs)) as Hr. rewrite Hs in Hr. cbn zeta in Hr. cbn [andb negb quote Z.eqb] in Hr.
    change (QUOTE =? QUOTE) with true in Hr. rewrite (slen_app x [QUOTE]) in Hr. change (slen [QUOTE]) with 1 in Hr. cbn [negb quote app] in Hr.
    rewrite <- !app_assoc in Hr. rewrite <- !app_assoc. cbn [app] in *. rewrite <- !app_assoc. exact Hr. }
  all: cbn [inner_start inner_text]; rewrite Z.add_0_r.
  all: match goal with |- json_replace _ _ (slen ?a) (slen ?a + slen ?b) _ = _ => pose proof (replace_between a b _ (y ++ [0]) v (or_intror Hy)) as Hr end; cbn zeta in Hr.
  all: rewrite Eq, andb_true_r in Hr; rewrite <- !app_assoc; cbn [app]; rewrite Hr; do 2 f_equal.
  all: destruct (isstring v); cbn [json_text quote]; unfold quoted_text; by rewrite <- ?app_assoc; cbn [app]; rewrite <- ?app_assoc.
Qed.

(** ** The set as an update of the contents *)

(** The value of a key is an object, or there is none. *)
Definition json_at (m : gmap bytes bytes) (k : bytes) (l : list (bytes * json)) : Prop :=
  forallb member_ok l = true ∧ slen (object_text l) < SDB_VSZ ∧ (m !! k = Some (object_text l) ∨ (m !! k = None ∧ l = [])).

Lemma object_cstr l : forallb member_ok l = true → is_cstr (object_text l).
Proof. intros Hl. rewrite object_json_text. apply json_text_cstr. cbn [json_ok]. rewrite <- Hl. clear. induction l as [|[k v] l IH]; [done|]. cbn [forallb]. by rewrite IH. Qed.

(** The text that [snprintf] writes in front of the old members. *)
Lemma json_insert_text p v l :
  [chr "{"; QUOTE] ++ p ++ [QUOTE; chr ":"] ++ quote (isstring v) ++ v ++ quote (isstring v)
    ++ (if negb (hd0 (object_text l) =? 0) && negb (hd0 (tail (object_text l)) =? chr "}") then [chr ","] else []) ++ tail (object_text l)
  = object_text ((p, json_value v) :: l).
Proof.
  unfold object_text. cbn [tail]. change (hd0 (chr "{" :: _)) with (chr "{"). change (negb (chr "{" =? 0)) with true. cbn [andb].
  assert (∀ r, [chr "{"; QUOTE] ++ p ++ [QUOTE; chr ":"] ++ quote (isstring v) ++ v ++ quote (isstring v) ++ r = chr "{" :: member (p, json_value v) ++ r) as Hm.
  { intros r. unfold member, json_value, quoted_text. cbn [fst snd]. destruct (isstring v); cbn [quote json_text]; unfold quoted_text; by repeat (cbn [app]; rewrite <- ?app_assoc). }
  destruct l as [|[k' v'] l].
  - cbn [fmap list_fmap comma_list app hd0 hd]. rewrite Z.eqb_refl. cbn [negb app]. apply Hm.
  - assert (∃ r, comma_list (member <$> (k', v') :: l) = QUOTE :: r) as [r Er] by (destruct l; rewrite ?fmap_cons; by eexists).
    rewrite (fmap_cons member (p, json_value v)). change (comma_list (member (p, json_value v) :: (member <$> (k', v') :: l))) with (member (p, json_value v) ++ chr "," :: comma_list (member <$> (k', v') :: l)).
    rewrite Er. change (hd0 ((QUOTE :: r) ++ [chr "}"])) with QUOTE. change (negb (QUOTE =? chr "}")) with true. cbn iota. rewrite Hm. by rewrite <- !app_assoc.
Qed.

Lemma quote_length b : slen (quote b) <= 1.
Proof. by destruct b. Qed.

Lemma insert_fits p v l :
  slen (object_text ((p, json_value v) :: l)) <= slen (object_text l) + slen p + slen v + 7.
Proof.
  rewrite <- json_insert_text. pose proof (quote_length (isstring v)).
  assert (slen (tail (object_text l)) = slen (object_text l) - 1) as Ht by (unfold object_text; cbn [tail]; rewrite slen_cons; lia).
  revert Ht. generalize (tail (object_text l)) as r. intros r Hr. rewrite !slen_app. change (slen [chr "{"; QUOTE]) with 2. change (slen [QUOTE; chr ":"]) with 2.
  case_if; [change (slen [chr ","]) with 1|change (slen []) with 0]; lia.
Qed.

(** The text a set stores. *)
Lemma set_text now n s k p v l :
  mem_inv (S n) s → json_at (view s) k l → simple_key p → str_ok p = true → v ≠ [] → str_ok v = true →
  (∀ x, assoc p l = Some (JStr x) → isstring v = true) → key_ok k → slen (object_text (json_put p (json_value v) l)) < SDB_VSZ →
  ∃ s', sdb_json_set now k p (Some v) 0 s = (Some true, s') ∧ mem_inv n s' ∧ view s' = <[k := object_text (json_put p (json_value v) l)]> (view s).
Proof.
  intros Hi (Hl & Hlen & Hat) Hp Hps Hne Hv Hs Hk Hfit. pose proof (value_ok v Hne Hv) as Hjv. pose proof (put_ok p _ l Hl Hps Hjv) as Hpo.
  pose proof (object_cstr _ Hpo) as Hpc. assert (val_ok (object_text (json_put p (json_value v) l))) as Hval by (by split).
  assert (∀ owned, let '(r, s') := nonzero (sdb_set_internal now (Some k) (Some (object_text (json_put p (json_value v) l))) owned 0) s in
    mem_inv n s' ∧ r = true ∧ view s' = <[k := object_text (json_put p (json_value v) l)]> (view s)) as Hset by (intros owned; by apply set_mem_view).
  unfold sdb_json_set; run_m. rewrite (get_mem now _ s k Hi). destruct Hat as [Hat|[Hat ->]]; rewrite Hat.
  - pose proof (object_cstr l Hl) as Hc. rewrite cstr_app_nul by done. change (negb (0 =? 0)) with false. cbn [andb]. unfold SDB_VSZ in Hlen.
    destruct (get_object l p Hl ltac:(lia) Hp) as (r & -> & Hr). specialize (Hset true). fold (sdb_set_owned now (Some k) (Some (object_text (json_put p (json_value v) l))) 0) in Hset.
    pose proof (assoc_at_assoc p 1 l) as Ha. unfold json_put in *. destruct (assoc_at p 1 l) as [[q v0]|] eqn:Eat; cbn [found] in Hr; rewrite <- Ha in *; cbn [fmap option_fmap option_map snd] in *.
    + destruct Hr as (Hf & Hrp & _ & Ht & _). rewrite Hrp. destruct (object_around p l q v0 Eat) as (x & y & Eo & Hx & Hy & Hyn & Hw).
      cbn [fst snd]. rewrite Ht, Hf, <- Hx, !Z.add_0_l. assert (hd0 v =? 0 = false) as ->.
      { destruct v as [|c v]; [done|]. cbn [str_ok forallb] in Hv. apply andb_true_iff in Hv as [Hc0 _]. unfold str_char in Hc0. cbn [hd0 hd]. zbool. apply Z.eqb_neq. change (hd0 (c :: v)) with c. lia. }
      rewrite Eo, replace_value; [|rewrite <- Hw; done|done|done|intros t ->; by eapply Hs]. rewrite <- Hw. run_m. destruct (sdb_set_owned _ _ _ _ _) as [r' s']. destruct Hset as (? & -> & ?). by eexists.
    + subst r. cbn [rp rangstr_null]. rewrite json_insert_text. pose proof (insert_fits p v l). rewrite take_ge; [|unfold slen in *; lia].
      run_m. destruct (sdb_set_owned _ _ _ _ _) as [r' s']. destruct Hset as (? & -> & ?). by eexists.
  - specialize (Hset false). fold (sdb_set now (Some k) (Some (object_text (json_put p (json_value v) []))) 0) in Hset.
    change (json_put p (json_value v) []) with [(p, json_value v)] in *. rewrite <- (json_insert_text p v []) in *. change (tail (object_text [])) with [chr "}"] in *.
    change (negb (hd0 (object_text []) =? 0) && negb (hd0 [chr "}"] =? chr "}")) with false in *. cbn iota in *. run_m. destruct (sdb_set _ _ _ _ _) as [r' s']. destruct Hset as (? & -> & ?). by eexists.
Qed.

(** C25: setting a key of an object that a database in memory without expirations holds, or of a
    value that is not there yet, replaces the value of the first member with that key or puts a new
    member in front, nothing else of the database changes, and reading any key of the object
    afterwards gives the new value for that key and what it gave before for the others. This is for
    a stored text that is a compact object (no white space outside strings; strings of printable
    ASCII without quotes and backslashes), keys without a dot and an opening bracket, a new value
    that is not empty and of the same characters, a result that fits a value, and a string replaced
    by a string only: [sdb_json_set_number_over_string] and [sdb_json_set_delete_middle] show what
    happens to others. *)
Theorem sdb_json_set_member now n s k p v l :
  mem_inv (S n) s → key_ok k → json_at (view s) k l → simple_key p → str_ok p = true → v ≠ [] → str_ok v = true →
  (∀ x, assoc p l = Some (JStr x) → isstring v = true) → slen (object_text (json_put p (json_value v) l)) < SDB_VSZ →
  ∃ s', sdb_json_set now k p (Some v) 0 s = (Some true, s') ∧ mem_inv n s'
    ∧ view s' = <[k := object_text (json_put p (json_value v) l)]> (view s)
    ∧ ∀ q, simple_key q →
        sdb_json_get now k q s' = (Some (if bool_decide (q = p) then Some v else inner_text <$> assoc q l), s').
Proof.
  intros Hi Hk Hat Hp Hps Hne Hv Hs Hfit. destruct (set_text now n s k p v l) as (s' & E & Hi' & Hw); [done..|].
  exists s'. split_and!; [done|done|done|]. intros q Hq. unfold sdb_json_get; run_m. rewrite (sdb_get_mem now _ s' k Hi'), Hw, lookup_insert_eq. cbn [fst].
  assert (forallb member_ok (json_put p (json_value v) l) = true) as Hpo by (apply put_ok; [apply Hat|done|by apply value_ok]).
  rewrite cstr_id by (by apply object_cstr). f_equal. unfold SDB_VSZ in Hfit. rewrite get_str_object by (done || lia). rewrite assoc_put.
  case_bool_decide; [|done]. unfold json_value. by destruct (isstring v).
Qed.

Lemma sdb_json_set_member_witness :
  ∃ s s', mem_inv 1 s ∧ view s !! str "j" = Some (object_text json_example)
    ∧ sdb_json_set 0 (str "j") (str "a") (Some (str "x y")) 0 s = (Some true, s')
    ∧ sdb_json_get 0 (str "j") (str "a") s' = (Some (Some (str "x y")), s')
    ∧ sdb_json_get 0 (str "j") (str "s") s' = (Some (Some []), s').
Proof.
  destruct (mem_with 1 (str "j") (object_text json_example)) as (s & Hi & Hv & _); [done|done|split; [by apply object_cstr|done]|done|].
  exists s. assert (simple_key (str "a") ∧ simple_key (str "s")) as [Ha Hs].
  { split; (split_and!; [|..|by vm_compute]); intros Hc%list_elem_of_singleton; discriminate Hc. }
  destruct (sdb_json_set_member 0 0 s (str "j") (str "a") (str "x y") json_example) as (s' & E & _ & _ & Hg);
    [done|done|split_and!; [done|done|by left]|done|done|done|done|by intros x [=]|done|].
  exists s'. split; [done|]. split; [done|]. split; [done|]. split; [by rewrite (Hg (str "a") Ha)|by rewrite (Hg (str "s") Hs)].
Defined.

(** ** Where the code goes wrong *)

(** A text with a quote for each apostrophe. *)
Definition json_of (s : bytes) : bytes := (λ c, if c =? 39 then QUOTE else c) <$> s.

(** A set on a database that holds one value, and the value afterwards. *)
Definition set_stored (js p : bytes) (v : option bytes) : option (option bool * option bytes) :=
  s ← sdb_new0;
  let s := (sdb_set 0 (Some (str "j")) (Some (json_of js)) 0 s).2 in
  let '(r, s) := sdb_json_set 0 (str "j") p v 0 s in
  Some (r, (sdb_get 0 (Some (str "j")) s).1.1).

(** A number over a string leaves the quote that opened the string, so that the value is
    no JSON any more. *)
Theorem sdb_json_set_number_over_string :
  set_stored (str "{'bar':'foo'}") (str "bar") (Some (str "3")) = Some (Some true, Some (json_of (str "{'bar':'3}")))
  ∧ sdb_js0n (json_of (str "{'bar':'3}")) = (1, [2; 3; 8]).
Proof. split; vm_compute; reflexivity. Qed.

(** Deleting a member that is neither the first nor the last drops both commas. *)
Theorem sdb_json_set_delete_middle :
  set_stored (str "{'a':1,'b':2,'c':3}") (str "b") (Some []) = Some (Some true, Some (json_of (str "{'a':1'c':3}"))).
Proof. vm_compute; reflexivity. Qed.

(** Deleting a nested member takes the position of its key, which is relative to the
    nested object, for one in the whole text: the other members are lost. *)
Theorem sdb_json_set_delete_nested :
  set_stored (str "{'x':1,'a':{'b':1}}") (str "a.b") (Some []) = Some (Some true, Some (str "{}")).
Proof. vm_compute; reflexivity. Qed.

(** [sdb_json_unset] passes NULL for the value, which [sdb_json_set] refuses: it never
    removes anything. *)
Theorem sdb_json_unset_does_nothing now k p c s : sdb_json_unset now k p c s = (Some false, s).
Proof. done. Qed.

(** A key that the nested object does not have gives the nested object itself. *)
Theorem sdb_json_get_missing_nested :
  sdb_json_get_str (json_of (str "{'a':{'b':5}}")) (str "a.x") = Some (Some (json_of (str "{'b':5}"))).
Proof. vm_compute; reflexivity. Qed.

(** The ranges of an object are read four at a time, where a text may have written fewer:
    513 numbers in braces end behind the array. *)
Theorem json_find_reads_outside :
  sdb_json_get_str (chr "{" :: comma_list (repeat (str "1") 513) ++ [chr "}"]) (str "a") = None.
Proof. vm_compute; reflexivity. Qed.
