(* ===== verification/Query.v ===== *)
(** * The query language ([src/query.c])

    A query is a sequence of segments separated by semicolons, each of which reads or
    changes the database it names.  The code cuts its copy of the text in place, by
    writing terminators; here the pieces are texts of their own.  The databases are those
    of [Ns]; the output is collected in the string buffer of [StrBuf], with the text sent
    to the standard output next to it.  A fault of an operation is a fault of the query. *)

From S2P Require Import Prelude Util Ht HashTables Buffer CdbMake CdbTables Cdb SdbCore Num Array StrBuf Base64 Match SdbIter Ns JsonIndent Json.

(** What a query runs in: the time, the bytes of fresh memory, which databases may run
    query files ([SDB_OPTION_FS]), and the contents of the files that can be read. *)
Record QEnv := mkQEnv { now : Z; junk : Z; option_fs : id → bool; slurp : bytes → option bytes }.

Record QS := mkQS { q_out : StrBuf; q_stdout : bytes }.

Definition QM (A : Type) : Type := QS → W (A * QS).
#[export] Instance QM_ret : MRet QM := λ A a st, mret (a, st).
#[export] Instance QM_bind : MBind QM := λ A B k m st, r ← m st; k r.1 r.2.

Definition lift {A} (m : W A) : QM A := λ st, a ← m; mret (a, st).

(** An operation of the database at [i]. *)
Definition on {A} (i : id) (m : M A) : QM A := λ st w,
  match dbs w !! i with
  | Some n => let '(a, s) := m (sdb n) in Ok (a, st) (mkWorld (<[i := set_sdb s n]> (dbs w)) (nss w))
  | None => Fault
  end.

Definition no_fault {A} (o : option A) : QM A := λ st w, match o with Some a => Ok (a, st) w | None => Fault end.

Inductive QStatus := Q_NEXT | Q_STOP | Q_ERR.

(** [q_eq] is the text at [q->eq]; [q_json] is the text behind the colon, and [q_cut] the
    command once a terminator is written over the colon. *)
Record Query := mkQuery {
  q_s : id;
  q_encode : bool;
  q_cmd : bytes;
  q_p : bytes;
  q_val : option bytes;
  q_eq : option bytes;
  q_json : option bytes;
  q_cut : bytes
}.

Section query.
Context (env : QEnv).

(** ** Output *)

Definition sb_append (s : bytes) (nl : bool) : QM () := λ st,
  match strbuf_append true (junk env) (q_out st) (Some s) nl with
  | Some sb => mret ((), mkQS sb (q_stdout st))
  | None => λ _, Fault
  end.

Definition q_puts (s : option bytes) : QM () :=
  match s with Some (c :: s') => sb_append (c :: s') true | _ => mret () end.

(** [memcpy] of the pieces of a line, which the code does into a block of their length. *)
Definition foreach_list_cb (encode : bool) (root : option bytes) (k v : bytes) : QM () :=
  let v := if encode then match sdb_decode (Some v) with Some v2 => cstr v2 | None => v end else v in
  sb_append (match root with Some r => r ++ [chr "/"] | None => [] end ++ k ++ [chr "="] ++ v) true.

Fixpoint puts_pairs (encode : bool) (root : option bytes) (l : list (bytes * bytes)) : QM () :=
  match l with [] => mret () | (k, v) :: l' => _ ← foreach_list_cb encode root k v; puts_pairs encode root l' end.

(** ** Dumps *)

(** The 1024 bytes on the stack that hold the path of a namespace: a write outside them,
    and a text in them without a terminator, are faults. *)
Definition ROOTSZ : Z := 1024.
Definition root_write (mem : bytes) (off : Z) (b : bytes) : QM bytes := no_fault (mem_write mem off b).
Definition root_text (mem : bytes) : QM bytes := no_fault (if bool_decide (0 ∈ mem) then Some (cstr mem) else None).

(** The state of the loop over the children is [left] and the memory of the path. *)
Fixpoint walk_namespace (fuel : nat) (root : bytes) (left p : Z) (ns : SdbNs) (encode : bool) : QM bytes :=
  match fuel with
  | O => lift no_fuel
  | S fuel' =>
      t ← root_text root;
      let roote := slen t in
      match ns_sdb ns with
      | None => mret root
      | Some i =>
          l ← on i sdb_foreach_pairs;
          _ ← puts_pairs encode (Some t) l;
          n ← lift (load_db i);
          (fix children (es : list id) (left : Z) (root : bytes) : QM bytes :=
             match es with
             | [] => mret root
             | e :: es' =>
                 x ← lift (load_ns e);
                 name ← no_fault (ns_name x);
                 let len := slen name in
                 root ← root_write root p [chr "/"];
                 let fits := len + 2 <? left in
                 root ← (if fits then root_write root (p + 1) (name ++ [0]) else mret root);
                 let left := if fits then left - (len + 2) else left in
                 root ← walk_namespace fuel' root left (roote + len + 1) x encode;
                 children es' left root
             end) (entries n) left root
      end
  end.

Fixpoint dump_all (fuel : nat) (encode : bool) (es : list id) (root : bytes) : QM () :=
  match es with
  | [] => mret ()
  | e :: es' =>
      x ← lift (load_ns e);
      name ← no_fault (ns_name x);
      let name_len := slen name in
      root ← (if name_len <? ROOTSZ then
                root ← root_write root 0 (name ++ [0]);
                walk_namespace fuel root (ROOTSZ - name_len) name_len x encode
              else mret root);
      dump_all fuel encode es' root
  end.

Fixpoint puts_names (es : list id) : QM () :=
  match es with [] => mret () | e :: es' => x ← lift (load_ns e); _ ← q_puts (ns_name x); puts_names es' end.

(** [__cmp_asc].  The keys of a database are distinct, so that there is only one order for
    [ls_sort] to leave. *)
Definition key_le (a b : bytes * bytes) : Prop := strcmp a.1 b.1 <= 0.
#[global] Instance key_le_dec a b : Decision (key_le a b).
Proof. unfold key_le. apply _. Defined.

Definition sdb_foreach_list (sorted : bool) : M (list (bytes * bytes)) :=
  l ← sdb_foreach_pairs; mret (if sorted then merge_sort key_le l else l).

Definition q_dump (fuel : nat) (q : Query) : QM bool :=
  n ← lift (load_db (q_s q));
  if bool_decide (q_cmd q = str "***") then
    _ ← dump_all fuel (q_encode q) (entries n) (replicate (Z.to_nat ROOTSZ) (junk env)); mret true
  else if bool_decide (q_cmd q = str "**") then _ ← puts_names (entries n); mret true
  else if bool_decide (q_cmd q = str "*") then
    l ← on (q_s q) (sdb_foreach_list true); _ ← puts_pairs (q_encode q) None l; mret true
  else mret false.

(** ** Matching *)

Fixpoint grep_lines (l : list (bytes * bytes)) : QM () :=
  match l with
  | [] => mret ()
  | (k, v) :: l' => _ ← sb_append k false; _ ← sb_append [chr "="] false; _ ← sb_append v true; grep_lines l'
  end.

Definition q_grep (q : Query) : QM () :=
  if byte_at (q_cmd q) 1 =? chr "~" then l ← on (q_s q) (sdb_foreach_match (drop 2 (q_cmd q)) false); grep_lines l
  else _ ← on (q_s q) (sdb_unset_like (now env) (drop 1 (q_cmd q))); mret ().

(** ** Numbers *)

(** Two's complement. *)
Definition s64 (z : Z) : Z := (z + 2 ^ 63) mod 2 ^ 64 - 2 ^ 63.

(** [%PRId64] and [0x%PRIx64] of 64 bits, [%d] of 32, [0x%08x] of 32. *)
Definition fmt_d64 (n : Z) : bytes := let i := s64 n in (if i <? 0 then [45] else []) ++ digits 10 20 (Z.abs i) [].
Definition fmt_x32 (n : Z) : bytes := let d := digits 16 8 n [] in str "0x" ++ replicate (8 - length d) 48 ++ d.

(** [atoi] of the C library, for texts whose number fits 64 bits. *)
Definition c_atoi (s : bytes) : Z :=
  let '(neg, s) := strtoull_sign (skip_spaces s) in
  let v := strtoull_digits 10 s 0 in s32 (if (neg : bool) then - v else v).

Definition is_plus (q : Query) : bool := hd0 (q_cmd q) =? chr "+".

(** [+[idx]key] and [+[idx]key=n] *)
Definition incdec_element (q : Query) : QM QStatus :=
  match strchr (q_cmd q) (chr "]") with
  | None => mret Q_STOP
  | Some eb =>
      let key := Some (tail eb) in
      let idx := s32 (sdb_atoi (Some (drop 2 (q_cmd q)))) in
      curnum ← on (q_s q) (sdb_array_get_num (now env) key idx);
      match q_eq q with
      | Some eq =>
          let neq := sdb_atoi (Some eq) in
          _ ← on (q_s q) (sdb_array_set_num (now env) key idx (u64 (curnum + if is_plus q then neq else - neq)) 0); mret Q_NEXT
      | None => _ ← q_puts (sdb_itoa (u64 (curnum + if is_plus q then 1 else -1)) 10 (Some 64)); mret Q_NEXT
      end
  end.

(** [+key=val] *)
Definition incdec_value (q : Query) (val : bytes) : QM QStatus :=
  let key := Some (tail (q_cmd q)) in
  if sdb_isnum val then
    let neg := hd0 val =? chr "-" in
    let plus := if neg then negb (is_plus q) else is_plus q in
    let d := u64 (s32 (sdb_atoi (Some (if neg then tail val else val)))) in
    _ ← on (q_s q) (if plus then sdb_num_inc (now env) key d 0 else sdb_num_dec (now env) key d 0); mret Q_NEXT
  else
    _ ← on (q_s q) (if is_plus q then sdb_concat (now env) key (Some val) 0 else sdb_uncat (now env) key (Some val) 0); mret Q_NEXT.

(** [+key] and [+key:path]; [q_cut] is the command without the path. *)
Definition incdec_step (q : Query) : QM QStatus :=
  r ← on (q_s q) (const_str (now env) (Some (tail (q_cmd q))));
  let base := sdb_num_base r.1 in
  match q_json q with
  | Some path =>
      r ← on (q_s q) (if is_plus q then sdb_json_num_inc (now env) (tail (q_cut q)) path 1 0 else sdb_json_num_dec (now env) (tail (q_cut q)) path 1 0);
      n ← no_fault r;
      _ ← q_puts (Some (fmt_d64 (u64 n))); mret Q_NEXT
  | None =>
      n ← on (q_s q) (if is_plus q then sdb_num_inc (now env) (Some (tail (q_cmd q))) 1 0 else sdb_num_dec (now env) (Some (tail (q_cmd q))) 1 0);
      _ ← q_puts (Some (if base =? 16 then hex_text n else fmt_d64 n)); mret Q_NEXT
  end.

Definition q_incdec (q : Query) : QM QStatus :=
  if byte_at (q_cmd q) 1 =? chr "[" then incdec_element q
  else match q_val q with Some val => incdec_value q val | None => incdec_step q end.

(** ** Arrays *)

Definition decoded (s : option bytes) : option bytes := cstr <$> sdb_decode s.
Definition encoded (q : Query) (val : bytes) : bytes := if q_encode q then default [] (sdb_encode (Some val) (-1)) else val.

(** [[++]key=v] and [[--]key] *)
Definition array_stack (q : Query) : QM QStatus :=
  let c1 := byte_at (q_cmd q) 1 in
  let key := Some (q_p q) in
  match q_eq q with
  | Some _ => if c1 =? chr "+" then _ ← on (q_s q) (sdb_array_push (now env) key (q_val q) 0); mret Q_NEXT else mret Q_NEXT
  | None => if c1 =? chr "-" then r ← on (q_s q) (sdb_array_pop (now env) key); _ ← q_puts r.1; mret Q_NEXT else mret Q_NEXT
  end.

(** [[+]key] and [[-]key], with a value or without *)
Definition array_member (q : Query) : QM QStatus :=
  let c1 := byte_at (q_cmd q) 1 in
  let key := Some (q_p q) in
  match q_eq q with
  | Some _ =>
      let val := default [] (q_val q) in
      _ ← on (q_s q) (if c1 =? chr "+" then sdb_array_add (now env) key val 0 else sdb_array_remove (now env) key val 0); mret Q_NEXT
  | None =>
      let idx := if c1 =? chr "+" then 0 else -1 in
      r ← on (q_s q) (sdb_array_get (now env) key idx);
      _ ← q_puts r.1;
      _ ← on (q_s q) (sdb_array_delete (now env) key idx 0); mret Q_NEXT
  end.

(** [[+n]key=v] and [[-n]key=v] *)
Definition array_indexed_set (q : Query) (i : Z) : QM QStatus :=
  let key := Some (q_p q) in
  if i <? 0 then
    r ← on (q_s q) (sdb_array_get (now env) key (s32 (- i)));
    match r.1 with
    | None => mret Q_STOP
    | Some arr =>
        match (if q_encode q then decoded (Some arr) else Some arr) with
        | None => mret Q_STOP
        | Some arr => _ ← q_puts (Some arr); _ ← on (q_s q) (sdb_array_delete (now env) key (s32 (- i)) 0); mret Q_NEXT
        end
    end
  else
    let sval := encoded q (default [] (q_val q)) in
    _ ← on (q_s q) (if byte_at (q_cmd q) 1 =? chr "+" then sdb_array_insert (now env) key i sval 0 else sdb_array_set (now env) key i sval 0); mret Q_NEXT.

(** [[+n]key] and [[-n]key] *)
Definition array_indexed_get (q : Query) (i : Z) : QM QStatus :=
  let key := Some (q_p q) in
  if i =? 0 then
    if byte_at (q_cmd q) 1 =? chr "-" then _ ← on (q_s q) (sdb_array_remove (now env) key (drop 2 (q_cmd q)) 0); mret Q_NEXT else mret Q_NEXT
  else
    r ← on (q_s q) (sdb_array_get (now env) key (if i <? 0 then s32 (- i) else i));
    match r.1 with
    | Some ((_ :: _) as arr) =>
        _ ← q_puts (Some arr);
        if i <? 0 then _ ← on (q_s q) (sdb_array_delete (now env) key (s32 (- i)) 0); mret Q_NEXT else mret Q_NEXT
    | _ => mret Q_NEXT
    end.

Definition q_array_pm (q : Query) : QM QStatus :=
  if byte_at (q_cmd q) 1 =? byte_at (q_cmd q) 2 then array_stack q
  else if byte_at (q_cmd q) 2 =? 0 then array_member q
  else
    let i := c_atoi (tail (q_cmd q)) in
    match q_eq q with Some _ => array_indexed_set q i | None => array_indexed_get q i end.

(** A separator becomes a newline unless it ends the text. *)
Fixpoint lines_of (s : bytes) : bytes :=
  match s with
  | [] => []
  | c :: s' => (if (c =? SDB_RS) && negb (hd0 s' =? 0) then 10 else c) :: lines_of s'
  end.

(** [[n]key=v], [[]key=v], [[n]key] and [[]key] *)
Definition array_set_get (q : Query) : QM QStatus :=
  let key := Some (q_p q) in
  let i := c_atoi (tail (q_cmd q)) in
  match q_eq q with
  | Some _ =>
      let sval := encoded q (default [] (q_val q)) in
      _ ← on (q_s q)
        (if negb (byte_at (q_cmd q) 1 =? 0) then sdb_array_set (now env) key i sval 0
         else if q_encode q then sdb_set_owned (now env) key (Some sval) 0 else sdb_set (now env) key (Some sval) 0);
      mret Q_NEXT
  | None =>
      if negb (byte_at (q_cmd q) 1 =? 0) then
        r ← on (q_s q) (sdb_array_get (now env) key i);
        _ ← q_puts (if q_encode q then match decoded r.1 with Some d => Some d | None => r.1 end else r.1); mret Q_NEXT
      else
        r ← on (q_s q) (const_str (now env) key);
        match r.1 with
        | None => mret Q_STOP
        | Some sval =>
            let line := lines_of sval in
            _ ← q_puts (Some (if q_encode q then default line (decoded (Some line)) else line)); mret Q_NEXT
        end
  end.

Definition q_array (q : Query) : QM QStatus :=
  let c1 := byte_at (q_cmd q) 1 in
  let plus := byte_at (q_cmd q) 2 =? chr "+" in
  let key := Some (q_p q) in
  if c1 =? chr "?" then n ← on (q_s q) (sdb_array_length (now env) key); _ ← q_puts (Some (dec_text n)); mret Q_NEXT
  else if c1 =? chr "!" then
    if plus then _ ← on (q_s q) (sdb_array_add_sorted (now env) key (q_val q) 0); mret Q_NEXT
    else _ ← on (q_s q) (sdb_array_sort (now env) key 0); mret Q_NEXT
  else if c1 =? chr "#" then
    if plus then _ ← on (q_s q) (sdb_array_add_sorted_num (now env) key (sdb_atoi (q_val q)) 0); mret Q_NEXT
    else _ ← on (q_s q) (sdb_array_sort_num (now env) key 0); mret Q_NEXT
  else if (c1 =? chr "+") || (c1 =? chr "-") then q_array_pm q
  else array_set_get q.

(** ** Keys and values *)

(** [while (clen >= 0 && isspace (cmd[clen])) cmd[clen--] = 0] *)
Fixpoint trim_end (s : bytes) : bytes :=
  match s with [] => [] | c :: s' => match trim_end s' with [] => if isspace c then [] else [c] | r => c :: r end end.

Definition kv_set (q : Query) (val : bytes) : QM QStatus :=
  let val := encoded q val in
  match q_json q with
  | Some path => r ← on (q_s q) (sdb_json_set (now env) (q_cut q) path (Some val) 0); _ ← no_fault r; mret Q_NEXT
  | None =>
      if hd0 (q_cmd q) =? 0 then mret Q_NEXT
      else _ ← on (q_s q) (sdb_set (now env) (Some (trim_end (q_cmd q))) (Some (skip_spaces val)) 0); mret Q_NEXT
  end.

Definition kv_get_json (q : Query) (path : bytes) : QM QStatus :=
  if hd0 path =? 0 then
    r ← on (q_s q) (const_str (now env) (Some (q_cut q)));
    match sdb_json_indent r.1 (str "  ") with
    | Null => mret Q_NEXT
    | Text o => _ ← q_puts (Some o); mret Q_NEXT
    | Overflow => no_fault None
    end
  else
    r ← on (q_s q) (sdb_json_get (now env) (q_cut q) path);
    js ← no_fault r;
    match js with
    | None => mret Q_NEXT
    | Some js =>
        match (if q_encode q then decoded (Some js) else Some js) with
        | None => mret Q_STOP
        | Some js => _ ← q_puts (Some js); mret Q_NEXT
        end
    end.

(** The colon is always in front of the equals sign: the text of the command ends there. *)
Definition q_kv (q : Query) : QM QStatus :=
  match q_eq q with
  | Some _ => kv_set q (default [] (q_val q))
  | None =>
      match q_json q with
      | Some path => kv_get_json q path
      | None =>
          r ← on (q_s q) (const_str (now env) (Some (q_cmd q)));
          _ ← q_puts (if q_encode q then decoded r.1 else r.1); mret Q_NEXT
      end
  end.

(** ** Segments *)

Fixpoint skip_blanks (s : bytes) : bytes :=
  match s with c :: s' => if (c =? 32) || (c =? 9) then skip_blanks s' else s | [] => [] end.

(** [strchr] and a terminator written there: the text up to the character, and what
    follows it. *)
Fixpoint cut (c : Z) (s : bytes) : bytes * option bytes :=
  match s with
  | [] => ([], None)
  | x :: s' => if x =? c then ([], Some s') else let '(a, r) := cut c s' in (x :: a, r)
  end.

(** The closing quote, the backslash in front of an escaped one being dropped: [done] is
    the text in front of the position. *)
Fixpoint close_quote (done s : bytes) : option (bytes * bytes) :=
  match s with
  | [] => None
  | c :: s' =>
      if c =? QUOTE then
        if match list.last done with Some b => b =? BSL | None => false end then close_quote (removelast done ++ [QUOTE]) s'
        else Some (done, s')
      else close_quote (done ++ [c]) s'
  end.

(** What the code makes of the text behind the percent sign: the key, the value with the
    text it is written in, and the text of the next segment. *)
Inductive parsed :=
| PGet (cmd : bytes) (next : option bytes)
| PRef (cmd name eq : bytes) (next : option bytes)
| PSet (cmd val eq : bytes) (next : option bytes)
| PBad.

Definition parse_segment (s : bytes) : parsed :=
  match cut (chr "=") s with
  | (_, None) => let '(cmd, next) := cut (chr ";") s in PGet cmd next
  | (cmd, Some eq) =>
      if hd0 eq =? chr "$" then let '(t, next) := cut (chr ";") eq in PRef cmd (tail t) t next
      else if hd0 eq =? QUOTE then
        match close_quote [] (tail eq) with
        | None => PBad
        | Some (v, rest) => PSet cmd v (QUOTE :: v) (cut (chr ";") rest).2
        end
      else let '(v, next) := cut (chr ";") eq in PSet cmd v v next
  end.

(** The walk along the path of namespaces: [None] when one is unknown. *)
Fixpoint walk_path (fuel : nat) (s : id) (cmd : bytes) (create : bool) : W (option (id * bytes)) :=
  match fuel with
  | O => no_fuel
  | S fuel' =>
      match cut (chr "/") cmd with
      | (_, None) => mret (Some (s, cmd))
      | (name, Some rest) =>
          o ← sdb_ns (Some s) name create;
          match o with None => mret None | Some s => walk_path fuel' s rest create end
      end
  end.

(** [query_file] is [sdb_query_file]. *)
Definition q_dispatch (query_file : id → bytes → QM bool) (q : Query) : QM QStatus :=
  let c := hd0 (q_cmd q) in
  if c =? chr "." then
    if option_fs env (q_s q) then
      ok ← query_file (q_s q) (tail (q_cmd q)); mret (if (ok : bool) then Q_NEXT else Q_STOP)
    else mret Q_NEXT
  else if c =? chr "~" then _ ← q_grep q; mret Q_NEXT
  else if (c =? chr "+") || (c =? chr "-") then q_incdec q
  else if c =? chr "[" then q_array q
  else q_kv q.

(** The segment once it is parsed: the database has been found and the value read. *)
Definition q_command (fuel : nat) (query_file : id → bytes → QM bool) (s : id) (encode : bool) (cmd : bytes) (val eq : option bytes) : QM QStatus :=
  let '(cut_cmd, json) := cut (chr ":") cmd in
  let q := mkQuery s encode cmd cmd val eq json (match json with Some _ => cut_cmd | None => cmd end) in
  stop ← (if hd0 cmd =? chr "?" then
            r ← on s (const_str (now env) (Some (tail cmd))); _ ← q_puts (Some (sdb_type r.1)); mret false
          else if hd0 cmd =? chr "*" then q_dump fuel q else mret false);
  if (stop : bool) then mret Q_STOP
  else if hd0 cmd =? chr "[" then
    match cut (chr "]") cmd with
    | (_, None) => mret Q_STOP
    | (spec, Some p) => q_dispatch query_file (mkQuery s encode spec p val eq json (q_cut q))
    end
  else if hd0 cmd =? chr "$" then
    r ← on s (sdb_get (now env) (Some (tail cmd)));
    let nc := default [] r.1 in
    q_dispatch query_file (mkQuery s encode nc nc val eq json nc)
  else q_dispatch query_file q.

(** The status, the text of the next segment and whether there was a value. *)
Definition q_segment (fuel : nat) (query_file : id → bytes → QM bool) (r : id) (text : bytes) : QM (QStatus * option bytes) :=
  let p := skip_blanks text in
  if hd0 p =? chr "#" then
    let '(t, next) := cut (chr ";") (tail p) in
    _ ← sb_append (fmt_x32 (sdb_hash t) ++ [10]) true; mret (Q_NEXT, next)
  else
    let encode := hd0 p =? chr "%" in
    let p := if encode then tail p else p in
    let run cmd val eq next :=
      o ← lift (walk_path (S (length cmd)) r cmd (match eq with Some _ => true | None => false end));
      match o with
      | None => mret (Q_ERR, next)
      | Some (s, cmd) => st ← q_command fuel query_file s encode cmd val eq; mret (st, next)
      end in
    match parse_segment p with
    | PBad => mret (Q_ERR, None)
    | PGet cmd next => run cmd None None next
    | PSet cmd val eq next => run cmd (Some val) (Some eq) next
    | PRef cmd name eq next =>
        v ← on r (const_str (now env) (Some name));
        match v.1 with None => mret (Q_STOP, None) | Some val => run cmd (Some val) (Some eq) next end
    end.

Fixpoint querys_loop (n fuel : nat) (query_file : id → bytes → QM bool) (r : id) (cmd : bytes) : QM QStatus :=
  match n with
  | O => lift no_fuel
  | S n' =>
      x ← q_segment fuel query_file r cmd;
      match x with
      | (Q_NEXT, Some next) => querys_loop n' fuel query_file r next
      | (st, _) => mret st
      end
  end.

(** The result is NULL or a text; the standard output is threaded through. *)
Definition querys (fuel : nat) (query_file : id → bytes → QM bool) (r : id) (cmd : bytes) (stdout : bytes) : W (option bytes * bytes) :=
  x ← querys_loop (S (length cmd)) fuel query_file r cmd (mkQS strbuf_new stdout);
  let '(st, s) := x in
  mret (match st with Q_ERR => None | _ => cstr <$> strbuf_drain (q_out s) end, q_stdout s).

Definition must_save (cmd : bytes) : bool := (hd0 cmd =? chr "~") || match strchr cmd (chr "=") with Some _ => true | None => false end.

(** [fputs] of what the query wrote. *)
Definition query (fuel : nat) (query_file : id → bytes → QM bool) (s : id) (cmd : bytes) : QM bool := λ st,
  x ← querys fuel query_file s cmd (q_stdout st);
  mret (must_save cmd, mkQS (q_out st) (x.2 ++ default [] x.1)).

Fixpoint query_lines (n fuel : nat) (query_file : id → bytes → QM bool) (s : id) (text : bytes) : QM bool :=
  match n with
  | O => lift no_fuel
  | S n' =>
      match cut 10 text with
      | (p, Some rest) => _ ← query fuel query_file s p; query_lines n' fuel query_file s rest
      | (p, None) => _ ← query fuel query_file s p; mret true
      end
  end.

(** Files may run files: the depth is bounded by the fuel. *)
Fixpoint sdb_query_file (fuel : nat) (s : id) (file : bytes) : QM bool :=
  match fuel with
  | O => lift no_fuel
  | S fuel' =>
      match (if hd0 file =? 0 then None else slurp env file) with
      | None => mret false
      | Some txt => query_lines (S (length (cstr txt))) fuel' (sdb_query_file fuel') s (cstr txt)
      end
  end.

Definition sdb_query_lines (fuel : nat) (s : id) (cmd : bytes) : QM bool := query_lines (S (length cmd)) fuel (sdb_query_file fuel) s cmd.
Definition sdb_query (fuel : nat) (s : id) (cmd : bytes) : QM bool := query fuel (sdb_query_file fuel) s cmd.
Definition sdb_querys (fuel : nat) (r : id) (cmd stdout : bytes) : W (option bytes * bytes) := querys fuel (sdb_query_file fuel) r cmd stdout.
End query.
