(* ===== verification/QueryFacts.v ===== *)
(** * What queries do

    A query that sets values and then reads some is run on a database in memory as the
    corresponding updates and lookups of its contents; with a path in front of the key, in
    the database of that namespace. *)

From S2P Require Import Prelude Util Ht HashTables Buffer CdbMake CdbTables Cdb SdbCore Num Array StrBuf Base64 Match SdbIter Ns NsRefs NsPath JsonIndent Json Query.

(** ** Running *)

Lemma qbind_ok {A B} (m : QM A) (k : A → QM B) st w a st' w' : m st w = Ok (a, st') w' → (m ≫= k) st w = k a st' w'.
Proof. intros E. unfold mbind, QM_bind. unfold mbind, W_bind. by rewrite E. Qed.

Lemma qlift_ok {A} (m : W A) st w a w' : m w = Ok a w' → lift m st w = Ok (a, st) w'.
Proof. intros E. unfold lift. unfold mbind, W_bind. by rewrite E. Qed.

Lemma on_ok {A} i (m : M A) st w n a s : dbs w !! i = Some n → m (sdb n) = (a, s) → on i m st w = Ok (a, st) (mkWorld (<[i := set_sdb s n]> (dbs w)) (nss w)).
Proof. intros Hn E. unfold on. by rewrite Hn, E. Qed.

Lemma set_sdb_same n : set_sdb (sdb n) n = n.
Proof. by destruct n. Qed.

(** An operation that only reads. *)
Lemma on_reads {A} i (m : M A) st w n a : dbs w !! i = Some n → m (sdb n) = (a, sdb n) → on i m st w = Ok (a, st) w.
Proof. intros Hn E. rewrite (on_ok _ _ _ _ n a (sdb n)) by done. rewrite set_sdb_same, insert_id by done. by destruct w. Qed.

(** The text that has been collected. *)
Definition out_is (sb : StrBuf) (t : bytes) : Prop := sb_text sb t ∧ is_cstr t ∧ (t = [] → sb_buf sb = None).

Lemma out_new : out_is strbuf_new [].
Proof. split_and!; [done|constructor|done]. Qed.

Lemma out_result sb t : out_is sb t → cstr <$> strbuf_drain sb = match t with [] => None | _ => Some t end.
Proof.
  intros (Ht & Hc & Hn). unfold strbuf_drain, sb_text in *. destruct t as [|c t]; [by rewrite Hn|].
  destruct (sb_buf sb) as [mem|]; [|by destruct Ht as [Ht _]]. destruct Ht as ((rest & ->) & _).
  cbn [fmap option_fmap option_map]. f_equal. by apply (cstr_app_nul (c :: t)).
Qed.

Lemma puts_ok env s st w t :
  out_is (q_out st) t → is_cstr s → s ≠ [] →
  ∃ sb, q_puts env (Some s) st w = Ok ((), mkQS sb (q_stdout st)) w ∧ out_is sb (t ++ s ++ [10]).
Proof.
  intros (Ht & Hc & _) Hs Hne. destruct s as [|c s]; [done|]. cbn [q_puts]. unfold sb_append.
  destruct (strbuf_append_ok (junk env) (q_out st) t (c :: s) true Ht) as (sb & -> & Ht' & Hb). exists sb. split; [done|]. split_and!; [done| |].
  - apply Forall_app. split; [done|]. apply Forall_app. split; [done|]. by repeat constructor.
  - intros E. by destruct t.
Qed.

(** ** Texts *)

Lemma cut_found c a b : c ∉ a → cut c (a ++ c :: b) = (a, Some b).
Proof.
  induction a as [|x a IH]; intros Hc; cbn [app cut]; [by rewrite Z.eqb_refl|]. apply not_elem_of_cons in Hc as [Hx Hc].
  rewrite (proj2 (Z.eqb_neq _ _)) by done. by rewrite IH.
Qed.

Lemma cut_none c a : c ∉ a → cut c a = (a, None).
Proof.
  induction a as [|x a IH]; intros Hc; cbn [cut]; [done|]. apply not_elem_of_cons in Hc as [Hx Hc]. rewrite (proj2 (Z.eqb_neq _ _)) by done. by rewrite IH.
Qed.

(** Keys that are no other command: what they may start with and contain. *)
Definition starts : bytes := [32; 9] ++ str "#%?*[$.~+-".
Definition separators : bytes := str "=;/:".
Definition word (k : bytes) : Prop := (k ≠ [] ∧ is_cstr k) ∧ hd0 k ∉ starts ∧ (∀ c, c ∈ separators → c ∉ k) ∧ trim_end k = k.

Lemma word_free k : word k → chr "=" ∉ k ∧ chr ";" ∉ k ∧ chr "/" ∉ k ∧ chr ":" ∉ k.
Proof. intros (_ & _ & Hs & _). split_and!; apply Hs; by apply (bool_decide_unpack _). Qed.

Lemma word_dec k :
  bool_decide (k ≠ [] ∧ is_cstr k ∧ hd0 k ∉ starts ∧ Forall (λ c, c ∉ k) separators ∧ trim_end k = k) = true → word k.
Proof. intros (H1 & H2 & H3 & H4 & H5)%bool_decide_eq_true. split_and!; [done|done|done| |done]. by apply Forall_forall. Qed.

(** How a value is written: as it is, or in quotes. *)
Definition plain_value (v : bytes) : bool := bool_decide (chr ";" ∉ v) && negb (hd0 v =? chr "$") && negb (hd0 v =? QUOTE).
Definition escape_quotes (v : bytes) : bytes := v ≫= λ c, if c =? QUOTE then [BSL; QUOTE] else [c].
Definition value_text (v : bytes) : bytes := if plain_value v then v else QUOTE :: escape_quotes v ++ [QUOTE].

(** No white space in front, and no backslash in front of a closing quote. *)
Definition writable (v : bytes) : Prop := skip_spaces v = v ∧ (plain_value v = true ∨ list.last v ≠ Some BSL).

Lemma close_quote_escape done v rest :
  list.last (done ++ v) ≠ Some BSL → close_quote done (escape_quotes v ++ QUOTE :: rest) = Some (done ++ v, rest).
Proof.
  revert done. induction v as [|c v IH]; intros done Hl.
  - rewrite app_nil_r in *. cbn [escape_quotes mbind list_bind app close_quote]. rewrite Z.eqb_refl. destruct (list.last done) as [b|]; [|done].
    rewrite (proj2 (Z.eqb_neq b BSL)); [done|]. by intros ->.
  - change (escape_quotes (c :: v)) with ((if c =? QUOTE then [BSL; QUOTE] else [c]) ++ escape_quotes v). destruct (c =? QUOTE) eqn:E; cbn [app close_quote].
    + zbool. subst c. change (BSL =? QUOTE) with false. cbn iota. rewrite Z.eqb_refl, last_snoc. change (BSL =? BSL) with true. cbn iota.
      rewrite removelast_last, IH by (by rewrite <- app_assoc). by rewrite <- app_assoc.
    + rewrite E, IH by (by rewrite <- app_assoc). by rewrite <- app_assoc.
Qed.

(** What follows a segment. *)
Definition follows (rest : bytes) (next : option bytes) : Prop := match next with Some r => rest = chr ";" :: r | None => rest = [] end.

Lemma cut_follows a rest next : follows rest next → chr ";" ∉ a → cut (chr ";") (a ++ rest) = (a, next).
Proof. intros Hf Ha. destruct next as [r|]; cbn in Hf; subst rest; [by apply cut_found|]. rewrite app_nil_r. by apply cut_none. Qed.

Lemma hd0_app a b : a ≠ [] → hd0 (a ++ b) = hd0 a.
Proof. by destruct a. Qed.

(** A key with a path of namespaces in front. *)
Definition path_key (names : list bytes) (k : bytes) : bytes := foldr (λ nm r, nm ++ chr "/" :: r) k names.

Lemma path_key_free names k : Forall word names → word k → chr "=" ∉ path_key names k ∧ chr ";" ∉ path_key names k.
Proof.
  intros Hn Hk. induction Hn as [|nm names Hnm _ IH]; cbn [path_key foldr]; [destruct (word_free k Hk) as (? & ? & _); by split|].
  destruct (word_free nm Hnm) as (? & ? & _). destruct IH. split; apply not_elem_of_app; (split; [done|]); apply not_elem_of_cons; by split.
Qed.

(** The first name, or the key, decides what the text starts with. *)
Lemma path_key_hd names k r : Forall word names → word k → ∃ x y, word x ∧ path_key names k ++ r = x ++ y.
Proof.
  intros Hn Hk. destruct Hn as [|nm names Hnm _]; [by exists k, r|]. exists nm. eexists. split; [done|]. cbn [path_key foldr]. by rewrite <- app_assoc.
Qed.

Lemma parse_set names k v rest next :
  Forall word names → word k → writable v → follows rest next →
  ∃ eq, parse_segment (path_key names k ++ chr "=" :: value_text v ++ rest) = PSet (path_key names k) v eq next.
Proof.
  intros Hn Hk (_ & Hv) Hf. destruct (path_key_free names k Hn Hk) as [He _]. unfold parse_segment. rewrite cut_found by done. unfold value_text.
  destruct (plain_value v) eqn:Ep.
  - unfold plain_value in Ep. rewrite !andb_true_iff, !negb_true_iff in Ep. destruct Ep as [[Hsc Hd] Hq]. apply bool_decide_eq_true in Hsc.
    assert (hd0 (v ++ rest) =? chr "$" = false ∧ hd0 (v ++ rest) =? QUOTE = false) as [-> ->].
    { destruct v as [|c v]; [|done]. destruct next as [r|]; cbn in Hf; by subst rest. }
    rewrite (cut_follows v rest next) by done. by eexists.
  - destruct Hv as [|Hv]; [done|]. cbn [app]. change (hd0 (QUOTE :: _)) with QUOTE. change (QUOTE =? chr "$") with false. rewrite Z.eqb_refl. cbn [tail].
    rewrite <- app_assoc. cbn [app]. rewrite close_quote_escape by done. cbn [app]. eexists. f_equal.
    pose proof (cut_follows [] rest next Hf ltac:(set_solver)) as Hc. cbn [app] in Hc. by rewrite Hc.
Qed.

Lemma parse_get names k rest next :
  Forall word names → word k → chr "=" ∉ rest → follows rest next → parse_segment (path_key names k ++ rest) = PGet (path_key names k) next.
Proof.
  intros Hn Hk He Hf. destruct (path_key_free names k Hn Hk) as [He' Hs]. unfold parse_segment. rewrite cut_none by (by rewrite not_elem_of_app).
  by rewrite (cut_follows (path_key names k) rest next).
Qed.

(** ** A segment *)

Lemma word_hd k c : word k → bool_decide (c ∈ starts) = true → (hd0 k =? c) = false.
Proof. intros (_ & Hh & _) Hc%bool_decide_eq_true. apply Z.eqb_neq. intros E. by rewrite E in Hh. Qed.

Lemma command_word env fuel qf s k val eq st w :
  word k → q_command env fuel qf s false k val eq st w = q_kv env (mkQuery s false k k val eq None k) st w.
Proof.
  intros Hk. destruct (word_free k Hk) as (_ & _ & _ & Hc). unfold q_command. rewrite cut_none by done. rewrite !(word_hd k) by done.
  cbn zeta. rewrite (qbind_ok (mret false) _ st w false st w) by done. cbn iota. unfold q_dispatch. cbn [q_cmd]. by rewrite !(word_hd k) by done.
Qed.

Lemma skip_blanks_word k r : word k → skip_blanks (k ++ r) = k ++ r.
Proof.
  intros Hk. destruct k as [|c k]; [by destruct Hk as [[? _] _]|]. cbn [app skip_blanks]. pose proof (word_hd _ 32 Hk eq_refl) as H1. pose proof (word_hd _ 9 Hk eq_refl) as H2.
  change (hd0 (c :: k)) with c in *. by rewrite H1, H2.
Qed.

Lemma walk_path_names names n s k b w o w' :
  Forall word names → word k → (length names < n)%nat → walk s names b w = Ok o w' → walk_path n s (path_key names k) b w = Ok ((λ c, (c, k)) <$> o) w'.
Proof.
  intros Hn Hk. revert n s w. induction Hn as [|nm names Hnm _ IH]; intros n s w Hl E; (destruct n as [|n]; [lia|]); cbn [walk path_key foldr walk_path length] in *.
  - destruct (word_free k Hk) as (_ & _ & Hs & _). rewrite cut_none by done. revert E. by intros [= <- <-].
  - destruct (word_free nm Hnm) as (_ & _ & Hs & _). rewrite cut_found by done. unfold mbind, W_bind in E |- *.
    destruct (sdb_ns (Some s) nm b w) as [[c|] w1| |]; [|by injection E as <- <-|done..]. apply IH; [lia|done].
Qed.

Lemma path_key_length names k : (length names <= length (path_key names k))%nat.
Proof. induction names as [|nm names IH]; [cbn; lia|]. cbn [path_key foldr length]. rewrite length_app. cbn [length]. unfold path_key in IH. lia. Qed.

(** The segment of a key with a path: its text is parsed, the path walked and the command
    run in the database found. *)
Lemma segment_word env fuel qf r names k rest st w w' c cmd val eq next (b : bool) :
  Forall word names → word k → walk r names b w = Ok (Some c) w' →
  (if b then parse_segment (path_key names k ++ rest) = PSet (path_key names k) val eq next ∧ cmd = q_kv env (mkQuery c false k k (Some val) (Some eq) None k)
   else parse_segment (path_key names k ++ rest) = PGet (path_key names k) next ∧ cmd = q_kv env (mkQuery c false k k None None None k)) →
  q_segment env fuel qf r (path_key names k ++ rest) st w = (x ← cmd; mret (x, next)) st w'.
Proof.
  intros Hn Hk Hw Hp. destruct (path_key_hd names k rest Hn Hk) as (x & y & Hx & Et). unfold q_segment.
  assert (skip_blanks (path_key names k ++ rest) = path_key names k ++ rest) as -> by (rewrite Et; by apply skip_blanks_word).
  assert (hd0 (path_key names k ++ rest) = hd0 x) as -> by (rewrite Et; apply hd0_app, (proj1 Hx)). rewrite !(word_hd x) by done.
  pose proof (path_key_length names k) as Hl. destruct b; destruct Hp as [-> ->].
  all: rewrite (qbind_ok _ _ _ _ (Some (c, k)) st w') by (apply qlift_ok; eapply walk_path_names in Hw; [exact Hw|done|done|lia]); cbn iota beta.
  all: unfold mbind, QM_bind; cbn beta; unfold mbind, W_bind; by rewrite command_word.
Qed.

(** The world with the contents of one database changed. *)
Definition with_sdb (i : id) (s : Sdb) (w : World) : World :=
  match dbs w !! i with Some n => mkWorld (<[i := set_sdb s n]> (dbs w)) (nss w) | None => w end.

(** A database in memory, in a world. *)
Definition mem_db (m : nat) (i : id) (w : World) (s : Sdb) : Prop := (∃ n, dbs w !! i = Some n ∧ sdb n = s) ∧ mem_inv m s.

Lemma with_sdb_twice i s s' w : with_sdb i s' (with_sdb i s w) = with_sdb i s' w.
Proof. unfold with_sdb. destruct (dbs w !! i) as [n|] eqn:E; [|by rewrite E]. cbn [dbs nss]. rewrite lookup_insert_eq. by rewrite insert_insert_eq. Qed.

Lemma with_sdb_same i n w : dbs w !! i = Some n → with_sdb i (sdb n) w = w.
Proof. intros E. unfold with_sdb. rewrite E, set_sdb_same, insert_id by done. by destruct w. Qed.

Lemma mem_db_with m i s s' w : (∃ n, dbs w !! i = Some n ∧ sdb n = s) → mem_inv m s' → mem_db m i (with_sdb i s' w) s'.
Proof. intros (n & Hn & _) Hi. split; [|done]. unfold with_sdb. rewrite Hn. cbn [dbs]. rewrite lookup_insert_eq. by eexists. Qed.

(** An assignment of a value to a key. *)
Definition assignment (kv : bytes * bytes) : bytes := kv.1 ++ chr "=" :: value_text kv.2.
Definition assignment_ok (kv : bytes * bytes) : Prop := word kv.1 ∧ writable kv.2 ∧ key_ok kv.1 ∧ val_ok kv.2.

Lemma segment_set env fuel qf r names k v rest next st w0 w c m s :
  Forall word names → assignment_ok (k, v) → follows rest next → walk r names true w0 = Ok (Some c) w → mem_db (S m) c w s →
  ∃ s', q_segment env fuel qf r (path_key names k ++ chr "=" :: value_text v ++ rest) st w0 = Ok ((Q_NEXT, next), st) (with_sdb c s' w)
    ∧ mem_inv m s' ∧ view s' = put (view s) k v.
Proof.
  intros Hnm (Hk & Hv & Hko & Hvo) Hf Hwk ((n & Hn & Hs) & Hi). cbn [fst snd] in *. destruct (parse_set names k v rest next Hnm Hk Hv Hf) as [eq Ep].
  rewrite (segment_word env fuel qf r names k _ st w0 w c _ v eq next true Hnm Hk Hwk (conj Ep eq_refl)).
  pose proof (set_mem_view (now env) m s k v false Hi Hko Hvo) as Hset. fold (sdb_set (now env) (Some k) (Some v) 0) in Hset.
  destruct (sdb_set (now env) (Some k) (Some v) 0 s) as [b s'] eqn:Es. destruct Hset as (Hi' & -> & Hw). exists s'. split_and!; [|done|done].
  rewrite (qbind_ok _ _ _ _ Q_NEXT st (with_sdb c s' w)); [done|]. unfold q_kv. cbn [q_eq q_val]. unfold kv_set. cbn [q_json q_cmd q_s default from_option].
  destruct Hk as ((Hne & Hc) & Hh & Hfree & Htrim). rewrite (proj2 (Z.eqb_neq (hd0 k) 0)).
  - rewrite (qbind_ok _ _ _ _ true st (with_sdb c s' w)); [done|]. unfold encoded. cbn [q_encode]. change (Datatypes.id v) with v. rewrite Htrim, (proj1 Hv).
    rewrite (on_ok _ _ _ _ n true s') by (done || by rewrite Hs). unfold with_sdb. by rewrite Hn.
  - destruct k as [|x k]; [done|]. inversion Hc as [|? ? Hc0]; subst. unfold is_char in Hc0. change (hd0 (x :: k)) with x. lia.
Qed.

(** The line that reading a key prints. *)
Definition line_of (m : gmap bytes bytes) (k : bytes) : bytes := match m !! k with Some v => v ++ [10] | None => [] end.

Lemma segment_get env fuel qf r names k rest next st w c m s t :
  Forall word names → word k → chr "=" ∉ rest → follows rest next → walk r names false w = Ok (Some c) w → mem_db m c w s → out_is (q_out st) t →
  ∃ sb, q_segment env fuel qf r (path_key names k ++ rest) st w = Ok ((Q_NEXT, next), mkQS sb (q_stdout st)) w ∧ out_is sb (t ++ line_of (view s) k).
Proof.
  intros Hnm Hk He Hf Hwk ((n & Hn & Hs) & Hi) Ht. pose proof (parse_get names k rest next Hnm Hk He Hf) as Ep.
  rewrite (segment_word env fuel qf r names k _ st w w c _ [] [] next false Hnm Hk Hwk (conj Ep eq_refl)).
  assert (const_str (now env) (Some k) s = ((view s !! k, match view s !! k with Some _ => cas_of s k | None => 0 end), s)) as Er.
  { unfold const_str, sdb_const_get; run_m. rewrite (get_mem (now env) m s k Hi). destruct (view s !! k) as [v|] eqn:Ev; [|done].
    cbn. by rewrite cstr_app_nul by apply (view_cstr m s k v Hi Ev). }
  unfold line_of. destruct (view s !! k) as [v|] eqn:Ev.
  - destruct (view_cstr m s k v Hi Ev) as (Hc & Hne & _). destruct (puts_ok env v st w t Ht Hc Hne) as (sb & E & Ho). exists sb. split; [|done].
    rewrite (qbind_ok _ _ _ _ Q_NEXT (mkQS sb (q_stdout st)) w); [done|]. unfold q_kv. cbn [q_eq q_json q_cmd q_s q_encode].
    rewrite (qbind_ok _ _ _ _ _ st w (on_reads c _ st w n _ Hn ltac:(rewrite Hs; exact Er))). cbn [fst]. by rewrite (qbind_ok _ _ _ _ _ _ _ E).
  - exists (q_out st). rewrite app_nil_r. split; [|done]. rewrite (qbind_ok _ _ _ _ Q_NEXT (mkQS (q_out st) (q_stdout st)) w); [done|].
    unfold q_kv. cbn [q_eq q_json q_cmd q_s q_encode]. rewrite (qbind_ok _ _ _ _ _ st w (on_reads c _ st w n _ Hn ltac:(rewrite Hs; exact Er))). cbn [fst q_puts].
    by destruct st.
Qed.

(** ** Sequences of segments *)

Fixpoint semis (l : list bytes) : bytes := match l with [] => [] | [x] => x | x :: l' => x ++ chr ";" :: semis l' end.

Definition next_of (l : list bytes) : option bytes := match l with [] => None | _ => Some (semis l) end.
Definition rest_of (l : list bytes) : bytes := match l with [] => [] | _ => chr ";" :: semis l end.

Lemma semis_cons x l : semis (x :: l) = x ++ rest_of l.
Proof. destruct l; [by rewrite app_nil_r|done]. Qed.

Lemma follows_rest l : follows (rest_of l) (next_of l).
Proof. by destruct l. Qed.

Lemma semis_no_eq l : Forall word l → chr "=" ∉ semis l.
Proof.
  induction 1 as [|k l Hk Hl IH]; [set_solver|]. rewrite semis_cons, not_elem_of_app. destruct (word_free k Hk) as [He _]. split; [done|].
  destruct l; [set_solver|]. cbn [rest_of]. apply not_elem_of_cons. by split.
Qed.

Lemma rest_no_eq l : Forall word l → chr "=" ∉ rest_of l.
Proof. intros Hl. destruct l; [set_solver|]. cbn [rest_of]. apply not_elem_of_cons. split; [done|by apply semis_no_eq]. Qed.

Lemma gets_run env fuel qf r keys n st w m s t :
  keys ≠ [] → Forall word keys → (length keys <= n)%nat → mem_db m r w s → out_is (q_out st) t →
  ∃ sb, querys_loop env n fuel qf r (semis keys) st w = Ok (Q_NEXT, mkQS sb (q_stdout st)) w ∧ out_is sb (t ++ (keys ≫= line_of (view s))).
Proof.
  revert n st t. induction keys as [|k keys IH]; intros n st t Hne Hw Hn Hm Ht; [done|]. apply Forall_cons in Hw as [Hk Hkeys]. destruct n as [|n]; [cbn in Hn; lia|]. cbn [length] in Hn.
  rewrite semis_cons. destruct (segment_get env fuel qf r [] k (rest_of keys) (next_of keys) st w r m s t) as (sb & E & Ho); [done|done|by apply rest_no_eq|apply follows_rest|done|done|done|].
  cbn [path_key foldr] in E.
  destruct keys as [|k2 keys].
  - exists sb. cbn [querys_loop]. rewrite (qbind_ok _ _ _ _ _ _ _ E). split; [done|]. cbn [mbind list_bind]. by rewrite app_nil_r.
  - destruct (IH n (mkQS sb (q_stdout st)) (t ++ line_of (view s) k)) as (sb2 & E2 & Ho2); [done|done|lia|done|done|]. exists sb2.
    cbn [querys_loop]. rewrite (qbind_ok _ _ _ _ _ _ _ E). cbn [next_of]. rewrite E2. split; [done|]. cbn [mbind list_bind] in *. by rewrite (app_assoc t).
Qed.

Definition put_all (m : gmap bytes bytes) (sets : list (bytes * bytes)) : gmap bytes bytes := foldl (λ m kv, put m kv.1 kv.2) m sets.

Lemma script_run env fuel qf r sets keys n st w m s t :
  (assignment <$> sets) ++ keys ≠ [] → Forall assignment_ok sets → Forall word keys → (length sets + length keys <= n)%nat →
  mem_db (length sets + m) r w s → out_is (q_out st) t →
  ∃ sb s', querys_loop env n fuel qf r (semis ((assignment <$> sets) ++ keys)) st w = Ok (Q_NEXT, mkQS sb (q_stdout st)) (with_sdb r s' w)
    ∧ mem_inv m s' ∧ view s' = put_all (view s) sets ∧ out_is sb (t ++ (keys ≫= line_of (view s'))).
Proof.
  revert n w s. induction sets as [|[k v] sets IH]; intros n w s Hne Hs Hk Hn Hm Ht.
  - destruct (gets_run env fuel qf r keys n st w m s t) as (sb & E & Ho); [done|done|cbn in Hn; lia|done|done|]. exists sb, s.
    destruct Hm as [(nd & Hnd & <-) Hi]. rewrite with_sdb_same by done. by split_and!.
  - apply Forall_cons in Hs as [(Hw & Hv & Hko & Hvo) Hsets]. cbn [fst snd] in *. destruct n as [|n]; [cbn in Hn; lia|]. cbn [length] in Hn. cbn [length Nat.add] in Hm.
    rewrite fmap_cons, <- app_comm_cons, semis_cons. unfold assignment at 1. cbn [fst snd]. rewrite <- app_assoc. cbn [app].
    remember ((assignment <$> sets) ++ keys) as segs eqn:El. symmetry in El. destruct (segment_set env fuel qf r [] k v (rest_of segs) (next_of segs) st w w r (length sets + m) s) as (s1 & E & Hi1 & Hv1); [done|by split_and!|apply follows_rest|done|done|].
    cbn [path_key foldr] in E.
    cbn [querys_loop]. rewrite (qbind_ok _ _ _ _ _ _ _ E).
    destruct segs as [|x segs].
    + cbn [next_of]. exists (q_out st), s1. apply app_eq_nil in El as [E1%fmap_nil_inv ->]. subst sets. split_and!; [by destruct st|done|by rewrite Hv1|]. cbn. by rewrite app_nil_r.
    + cbn [next_of]. destruct (IH n (with_sdb r s1 w) s1) as (sb & s2 & E2 & Hi2 & Hv2 & Ho); [done|done|done|lia|eapply mem_db_with; [apply Hm|done]|done|].
      exists sb, s2. rewrite E2, with_sdb_twice. split_and!; [done|done|by rewrite Hv2, Hv1|done].
Qed.

Lemma semis_length l : Forall (λ x, x ≠ []) l → (length l <= length (semis l))%nat.
Proof.
  induction 1 as [|x l Hx Hl IH]; [done|]. rewrite semis_cons, length_app. destruct x as [|c x]; [done|]. destruct l; cbn [rest_of length] in *; lia.
Qed.

Lemma querys_script env fuel qf r sets keys w n m stdout :
  (assignment <$> sets) ++ keys ≠ [] → Forall assignment_ok sets → Forall word keys → dbs w !! r = Some n → mem_inv (length sets + m) (sdb n) →
  ∃ s', let text := keys ≫= line_of (view s') in
    querys env fuel qf r (semis ((assignment <$> sets) ++ keys)) stdout w = Ok (match text with [] => None | _ => Some text end, stdout) (with_sdb r s' w)
    ∧ mem_inv m s' ∧ view s' = put_all (view (sdb n)) sets.
Proof.
  intros Hne Hs Hk Hn Hi. set (l := (assignment <$> sets) ++ keys) in *.
  assert (Forall (λ x, x ≠ []) l) as Hl.
  { apply Forall_app. split; [apply Forall_fmap|]; eapply Forall_impl; try done; [|by intros x [[? _] _]]. intros [k v] [[[Hkn _] _] _]. cbn in *. by destruct k. }
  pose proof (semis_length l Hl) as Hlen. unfold l in Hlen at 1. rewrite length_app, length_fmap in Hlen.
  destruct (script_run env fuel qf r sets keys (S (length (semis l))) (mkQS strbuf_new stdout) w m (sdb n) []) as (sb & s' & E & Hi' & Hv & Ho);
    [done|done|done|lia|split; [by eexists|done]|apply out_new|].
  exists s'. cbn zeta. split_and!; [|done|done]. unfold querys. fold l in E. rewrite (bind_ok _ _ _ _ _ E). cbn [app] in Ho. cbn [q_out q_stdout]. by rewrite (out_result _ _ Ho).
Qed.

(** C20: a query on a database in memory without expirations, made of at least one assignment or key
    to read, assignments first, separated by semicolons, changes the contents as the assignments do
    one after another, returns the values that the keys then have, each on a line (NULL when none
    has one), and touches nothing else. Keys are [word]s: not empty, not starting with a character
    that starts a command, without the separators of the language, without blanks at the end. Values
    are [writable]: they do not start with white space (which is dropped, in quotes too), and those
    that have to be quoted, because they contain semicolons or start like a reference or a quote, do
    not end in a backslash; they are written in quotes with their quotes escaped. Keys and values
    are within the sizes of [sdb_set]. *)
Theorem sdb_querys_script env fuel r sets keys w n m stdout :
  (assignment <$> sets) ++ keys ≠ [] → Forall assignment_ok sets → Forall word keys → dbs w !! r = Some n → mem_inv (length sets + m) (sdb n) →
  ∃ s', let text := keys ≫= line_of (view s') in
    sdb_querys env fuel r (semis ((assignment <$> sets) ++ keys)) stdout w = Ok (match text with [] => None | _ => Some text end, stdout) (with_sdb r s' w)
    ∧ mem_inv m s' ∧ view s' = put_all (view (sdb n)) sets.
Proof. apply querys_script. Qed.

Definition script_sets : list (bytes * bytes) := [(str "a", str "1;2"); (str "b", str "x=y"); (str "a", str "$3")].

Lemma script_sets_ok : Forall assignment_ok script_sets ∧ Forall word [str "a"; str "b"].
Proof.
  assert (∀ v, bool_decide (is_cstr v ∧ skip_spaces v = v ∧ list.last v ≠ Some BSL) = true → slen v < SDB_VSZ → writable v ∧ val_ok v) as Hval.
  { intros v (H1 & H2 & H3)%bool_decide_eq_true H4. split; [split; [done|by right]|by split]. }
  assert (∀ kv : bytes * bytes, word kv.1 → writable kv.2 ∧ val_ok kv.2 → key_ok kv.1 → assignment_ok kv) as Hkv by (intros kv ? [? ?] ?; by split_and!).
  split; repeat (apply Forall_cons; split); try apply Forall_nil; try done; (by apply word_dec) || (apply Hkv; [by apply word_dec|by apply Hval|done]).
Qed.

Lemma sdb_querys_script_witness :
  ∃ w r n s', dbs w !! r = Some n
    ∧ sdb_querys (mkQEnv 0 0 (λ _, false) (λ _, None)) 0 r (semis ((assignment <$> script_sets) ++ [str "a"; str "b"])) [] w
      = Ok (Some (str "$3" ++ [10] ++ str "x=y" ++ [10]), []) (with_sdb r s' w).
Proof.
  destruct (sdb_new0_ok 3) as (s & _ & Hi & Hv & _); [done|]. set (n := mkNode s None None None 0 (Some [])). exists (mkWorld {[1%positive := n]} ∅), 1%positive, n.
  destruct (sdb_querys_script (mkQEnv 0 0 (λ _, false) (λ _, None)) 0 1%positive script_sets [str "a"; str "b"] (mkWorld {[1%positive := n]} ∅) n 0 []) as (s' & E & _ & Hv');
    [done|apply script_sets_ok|apply script_sets_ok|apply lookup_singleton_eq|done|].
  exists s'. split; [apply lookup_singleton_eq|]. rewrite E, Hv'. cbn [sdb n]. rewrite Hv. by vm_compute.
Defined.

(** ** Namespaces *)

(** Looking a path up does not depend on the contents of the databases. *)
Lemma sdb_ns_with s name i x w c : sdb_ns (Some s) name false w = Ok (Some c) w → sdb_ns (Some s) name false (with_sdb i x w) = Ok (Some c) (with_sdb i x w).
Proof.
  unfold with_sdb. destruct (dbs w !! i) as [ni|] eqn:Hi; [|done]. destruct w as [d m]. unfold sdb_ns. destruct (hd0 name =? 0); [done|]. cbn zeta.
  unfold mbind at 1, W_bind at 1, load_db at 1. cbn [dbs nss] in *. destruct (d !! s) as [n|] eqn:Hn; [|done].
  assert (∃ n', <[i := set_sdb x ni]> d !! s = Some n' ∧ entries n' = entries n) as (n' & Hn' & He).
  { destruct (decide (i = s)) as [->|Hne]; [rewrite lookup_insert_eq; replace ni with n by congruence; by eexists|]. rewrite lookup_insert_ne by done. by eexists. }
  intros E. erewrite bind_ok by (by apply load_db_ok). unfold mbind at 1, W_bind at 1 in E. destruct (find_ns _ _ _) as [o wf| |] eqn:Ef; [|done..].
  destruct o as [[e y]|]; [|done]. injection E as E _. pose proof (find_ns_grows _ _ [] _ (<[i:=set_sdb x ni]> d) m m _ _ _ ltac:(done) Ef) as Ef'.
  rewrite app_nil_r in Ef'. rewrite He, (bind_ok _ _ _ _ _ Ef'). by rewrite <- E.
Qed.

Lemma sdb_ns_finds s name w o w' : sdb_ns (Some s) name false w = Ok o w' → w' = w.
Proof.
  unfold sdb_ns. destruct (hd0 name =? 0); [by intros [= _ <-]|]. cbn zeta. destruct w as [d m]. unfold mbind at 1, W_bind at 1, load_db at 1. cbn [dbs].
  destruct (d !! s) as [n|]; [|done]. unfold mbind at 1, W_bind at 1. destruct (find_ns _ _ _) as [[[e y]|] wf| |] eqn:Ef; [..|done|done];
    destruct (find_ns_ok _ _ _ _ _ _ Ef) as [-> _]; cbn; by intros [= _ <-].
Qed.

Lemma walk_with s names i x w c : walk s names false w = Ok (Some c) w → walk s names false (with_sdb i x w) = Ok (Some c) (with_sdb i x w).
Proof.
  revert s. induction names as [|nm names IH]; intros s; cbn [walk]; [by intros [= <-]|]. intros E. unfold mbind, W_bind in E |- *.
  destruct (sdb_ns (Some s) nm false w) as [[s1|] w1| |] eqn:E1; [|done..]. pose proof (sdb_ns_finds _ _ _ _ _ E1) as ->.
  rewrite (sdb_ns_with _ _ i x _ _ E1). by apply IH.
Qed.

Lemma querys_one env fuel qf r text stdout w sb w' t :
  q_segment env fuel qf r text (mkQS strbuf_new stdout) w = Ok ((Q_NEXT, None), mkQS sb stdout) w' → out_is sb t →
  querys env fuel qf r text stdout w = Ok (match t with [] => None | _ => Some t end, stdout) w'.
Proof.
  intros E Ho. unfold querys. erewrite bind_ok by (cbn [querys_loop]; rewrite (qbind_ok _ _ _ _ _ _ _ E); reflexivity). cbn [q_out q_stdout]. by rewrite (out_result _ _ Ho).
Qed.

Lemma path_walk names s b w : Forall name_ok names → sdb_ns_path (Some s) (join_path names) b w = walk s names b w.
Proof. intros Hok. destruct names as [|nm names]; [done|]. by apply sdb_ns_path_walk. Qed.

(** C21: an assignment with a path of namespaces in front of the key acts on the database at
    the end of the path.  In a world of databases in memory whose references are in order,
    in which every database has a list of namespaces and none is locked or has a file name,
    for names and a key that are plain words (no character with a meaning in the query
    language) and a value that can be written in a query and is not empty: the query
    creates what [sdb_ns_path] creates for the path and nothing else, sets the key in the
    database [c] that [sdb_ns_path] leads to, before and after, leaving its other keys and
    all other databases as they are; reading the key with the same path afterwards gives
    the value. *)
Theorem sdb_querys_path ext env fuel r names k v w m stdout :
  good ext w → has_lists w → unlocked w → is_Some (dbs w !! r) → (∀ i n, dbs w !! i = Some n → mem_inv (S m) (sdb n)) → 2 * Z.of_nat (S m) + 1 < 2 ^ 31 →
  Forall word names → assignment_ok (k, v) → v ≠ [] →
  ∃ c n w1 s', sdb_ns_path (Some r) (join_path names) true w = Ok (Some c) w1
    ∧ sdb_ns_path (Some r) (join_path names) false (with_sdb c s' w1) = Ok (Some c) (with_sdb c s' w1)
    ∧ grows w w1 ∧ dbs w1 !! c = Some n ∧ view s' = <[k := v]> (view (sdb n))
    ∧ sdb_querys env fuel r (path_key names (assignment (k, v))) stdout w = Ok (None, stdout) (with_sdb c s' w1)
    ∧ sdb_querys env fuel r (path_key names k) stdout (with_sdb c s' w1) = Ok (Some (v ++ [10]), stdout) (with_sdb c s' w1).
Proof.
  intros Hg Hl Hu Hr Hm Hb Hn Ha Hne.
  assert (Forall name_ok names) as Hno.
  { eapply Forall_impl; [exact Hn|]. intros x Hx. destruct (word_free x Hx) as (_ & _ & ? & _). destruct Hx as [[? ?] _]. by split_and!. }
  destruct (walk_creates (λ n, mem_inv (S m) (sdb n)) ext r names w) as (c & w1 & E1 & Hg1 & Hgr & [n Hc] & E2 & _ & Hm1); [done| |done..|].
  { intros n _ E0. destruct (sdb_new0_ok (S m) Hb) as (s & E & Hi & _). replace (sdb n) with s by congruence. exact Hi. }
  assert (∀ names, path_key names (assignment (k, v)) = path_key names k ++ chr "=" :: value_text v ++ []) as Et.
  { intros l. rewrite app_nil_r. induction l as [|x l IH]; [done|]. cbn [path_key foldr]. unfold path_key in IH. by rewrite IH, <- app_assoc. }
  destruct (segment_set env fuel (sdb_query_file env fuel) r names k v [] None (mkQS strbuf_new stdout) w w1 c m (sdb n)) as (s' & E & Hi' & Hv); [done|done|done|done|split; [by eexists|by apply (Hm1 c)]|].
  exists c, n, w1, s'. assert (put (view (sdb n)) k v = <[k := v]> (view (sdb n))) as Hp by (by destruct v). split_and!; [by rewrite path_walk|rewrite path_walk by done; by apply walk_with|done|done|by rewrite Hv| |].
  - rewrite Et. exact (querys_one _ _ _ _ _ _ _ _ _ _ E out_new).
  - destruct (segment_get env fuel (sdb_query_file env fuel) r names k [] None (mkQS strbuf_new stdout) (with_sdb c s' w1) c m s' []) as (sb & Eg & Ho);
      [done|apply Ha|set_solver|done|by apply walk_with|eapply mem_db_with; [by eexists|done]|apply out_new|].
    rewrite app_nil_r in Eg. unfold sdb_querys. rewrite (querys_one _ _ _ _ _ _ _ _ _ _ Eg Ho). unfold line_of. rewrite Hv, Hp, lookup_insert_eq. cbn [app]. by destruct v.
Qed.

Lemma sdb_querys_path_witness :
  ∃ w r c w', let q := sdb_querys (mkQEnv 0 0 (λ _, false) (λ _, None)) 0 r in
    sdb_ns_path (Some r) (str "x/y") false w' = Ok (Some c) w' ∧
    q (str "x/y/k=v") [] w = Ok (None, []) w' ∧ q (str "x/y/k") [] w' = Ok (Some (str "v" ++ [10]), []) w'.
Proof.
  destruct single_db as (ext & r & w & Hg & Hl & Hu & Hr & _ & _ & Hnew). exists w, r.
  destruct (sdb_querys_path ext (mkQEnv 0 0 (λ _, false) (λ _, None)) 0 r [str "x"; str "y"] (str "k") (str "v") w 0 []) as (c & n & w1 & s' & _ & Ep & _ & _ & _ & E1 & E2);
    [done|done|done|done| |done| | |done|exists c, (with_sdb c s' w1); split; [exact Ep|split; [exact E1|exact E2]]].
  - intros i n [E _]%Hnew. destruct (sdb_new0_ok 1) as (s & E' & Hi & _); [done|]. replace (sdb n) with s by congruence. exact Hi.
  - apply Forall_cons. split; [by apply word_dec|]. apply Forall_cons. split; [by apply word_dec|]. apply Forall_nil. done.
  - split_and!; [by apply word_dec|by split; [|left]|done|by split; [repeat constructor|]].
Defined.

(** ** Where the code goes wrong *)

(** Queries one after another on a new database; the results, or [None] for a fault. *)
Fixpoint run_queries (r : id) (cmds : list bytes) (w : World) : option (list (option bytes)) :=
  match cmds with
  | [] => Some []
  | c :: cmds' =>
      match sdb_querys (mkQEnv 0 0 (λ _, false) (λ _, None)) 9 r c [] w with
      | Ok (o, _) w => l ← run_queries r cmds' w; Some (o :: l)
      | _ => None
      end
  end.

Definition queries (cmds : list bytes) : option (list (option bytes)) :=
  match sdb_new_db (mkWorld ∅ ∅) with Ok (Some r) w => run_queries r cmds w | _ => None end.

(** The equals sign is searched for in the whole rest of the query: a key that is read
    before an assignment becomes part of the key that is assigned. *)
Theorem sdb_querys_eq_of_later_segment :
  queries [str "a=1"; str "a;b=3"; str "b"; str "*"] = Some [None; None; None; Some (str "a=1" ++ [10] ++ str "a;b=3" ++ [10])].
Proof. vm_compute. reflexivity. Qed.

(** A query that changes a value without an equals sign is not reported as a change. *)
Theorem sdb_query_must_save_misses :
  queries [str "a=5"; str "+a"; str "a"] = Some [None; Some (str "6" ++ [10]); Some (str "6" ++ [10])] ∧ must_save (str "+a") = false.
Proof. split; vm_compute; reflexivity. Qed.

(** Names of namespaces that are too long for the buffer of the path are not copied, but
    the position moves on by their length: with a further level a slash is written behind
    the buffer. *)
Theorem walk_namespace_overflow :
  let path := str "abcde/" ++ replicate 1020 (chr "x") ++ str "/c" in
  queries [path ++ str "/k=v"; path ++ str "/k"] = Some [None; Some (str "v" ++ [10])]
  ∧ queries [path ++ str "/k=v"; str "***"] = None.
Proof. split; vm_compute; reflexivity. Qed.
