(* ===== verification/Tool.v ===== *)
(** * The build tool ([src/tool.c], [src/cgen.c])

    [sdb -r] turns every text database of a directory into a C source with a table of the
    pairs and into a database file, when they are missing or older than the text.  The
    state is the files by name with their times; what system calls answer is a record per
    text.  Names are relative to the directory, which is entered first; whether the
    directory of the output exists shows only in those answers.  Perfect hashing by an
    external program is compiled out ([COMPILE_GPERF] is 0), but the texts for it are
    here.  Messages to the terminal are left out. *)

From S2P Require Import Prelude Util Lock Ht HashTables Buffer CdbMake CdbTables Cdb SdbCore StrBuf Text SdbIter Disk Query.

Definition QUOT : Z := 34.
Definition COMMA : Z := 44.
Definition DOT : Z := 46.

(** ** Texts of C sources *)

(** A string of the source: [\n], [\t] and [\\] as in C, and [\q] for a quote. *)
Fixpoint lit (s : bytes) : bytes :=
  match s with
  | c :: ((d :: s') as r) =>
      if c =? BSLASH then (if d =? chr "n" then NL else if d =? chr "t" then 9 else if d =? chr "q" then QUOT else d) :: lit s'
      else c :: lit r
  | _ => s
  end.
Notation "'txt' s" := (lit (str s)) (at level 9, s at level 8).

(** [printf] with [%s] and [%%]. *)
Fixpoint vfmt (f : bytes) (args : list bytes) : bytes :=
  match f with
  | c :: ((d :: f') as r) =>
      if c =? chr "%" then
        if d =? chr "s" then hd [] args ++ vfmt f' (tail args) else d :: vfmt f' args
      else c :: vfmt r args
  | _ => f
  end.

Definition SDB_VERSION : bytes := str "2.6.2".

Section cgen.
Context (junk : Z).

(** What a sequence of appends leaves, as a C string; [None] without memory. *)
Definition built (sb : option StrBuf) : option bytes := sb ← sb; mem ← strbuf_drain sb; Some (cstr mem).

Definition sdb_cgen_header (cname : bytes) (textmode : bool) : option bytes :=
  built (append_all junk strbuf_new
    (if textmode then
      [(str "// SDB-CGEN V" ++ SDB_VERSION ++ txt "\n#include <ctype.h>\n#include <stdio.h>\n#include <string.h>\n\nstruct kv { const char *name; const char *value; };\nstatic const struct kv kvs[] = {", true);
       (vfmt (str "// gcc -DMAIN=1 %s.c ; ./a.out > %s.h") [cname; cname], true)]
    else
      [(txt "%{\n#include <stdio.h>\n#include <string.h>\n#include <ctype.h>\n%}\n\nstruct kv { const char *name; const char *value; };\n%%", true);
       (vfmt (str "// gperf -aclEDCIG --null-strings -H sdb_hash_c_%s -N sdb_get_c_%s -t %s.gperf > %s.c") [cname; cname; cname; cname], true);
       (vfmt (str "// gcc -DMAIN=1 %s.c ; ./a.out > %s.h") [cname; cname], true)])).

Definition footer_text (name cname : bytes) : list (bytes * bool) :=
  [(txt "  {NULL, NULL}\n};\ntypedef int (*GperfForeachCallback)(void *user, const char *k, const char *v);", true);
   (vfmt (str "int gperf_%s_foreach(GperfForeachCallback cb, void *user) {") [cname], true);
   (txt "  int i = 0; while (kvs[i].name) {\n  cb (user, kvs[i].name, kvs[i].value);\n  i++;}\n  return 0;\n}", true);
   (vfmt (str "const char *gperf_%s_get(const char *s) {") [cname], true);
   (txt "  int i = 0; while (kvs[i].name) {\n  if (!strcmp (s, kvs[i].name)) return kvs[i].value;\n  i++;}\n  return NULL;\n}", true);
   (vfmt (str "#define sdb_hash_c_%s(x,y) gperf_%s_hash(x)") [cname; cname], true);
   (vfmt (str "const unsigned int gperf_%s_hash(const char *s) {") [cname], true);
   (txt "  int sum = strlen (s);\n  while (*s) { sum += *s; s++; }\n  return sum;\n}", true);
   (vfmt (txt "struct {const char *name;void *get;void *hash;void *foreach;} gperf_%s = {\n  .name = \q%s\q,\n  .get = &gperf_%s_get,\n  .hash = &gperf_%s_hash,\n  .foreach = &gperf_%s_foreach\n};\n\n#if MAIN\nint main () {\n\tconst char *s = ((char*(*)(char*))gperf_%s.get)(\qfoo\q);\n\tprintf (\q%%s\\n\q, s);\n}\n#endif") [cname; name; cname; cname; cname; cname], true)].

Definition footer_gperf (name cname : bytes) : list (bytes * bool) :=
  [(txt "%%\n// SDB-CGEN V" ++ SDB_VERSION ++ txt "\ntypedef int (*GperfForeachCallback)(void *user, const char *k, const char *v);", true);
   (vfmt (str "int gperf_%s_foreach(GperfForeachCallback cb, void *user) {") [cname], true);
   (txt "\tint i;for (i=0;i<TOTAL_KEYWORDS;i++) {\n\tconst struct kv *w = &wordlist[i];\n\tif (!cb (user, w->name, w->value)) return 0;\n}\nreturn 1;}", true);
   (vfmt (str "const char* gperf_%s_get(const char *s) {") [cname], true);
   (vfmt (txt "\tconst struct kv *o = sdb_get_c_%s (s, strlen(s));") [cname], true);
   (txt "\treturn o? o->value: NULL;\n}", true);
   (vfmt (str "const unsigned int gperf_%s_hash(const char *s) {") [cname], true);
   (vfmt (txt "\treturn sdb_hash_c_%s(s, strlen (s));") [cname], true);
   (str "}", true);
   (vfmt (txt "struct {const char*name;void*get;void*hash;void *foreach;} gperf_%s = {\n\t.name = \q%s\q,\n\t.get = &gperf_%s_get,\n\t.hash = &gperf_%s_hash,\n\t.foreach = &gperf_%s_foreach\n};\n\n#if MAIN\nint main () {\n\tchar line[1024];\n\tFILE *fd = fopen (\q%s.gperf\q, \qr\q);\n\tif (!fd) {\n\t\tfprintf (stderr, \qCannot open %s.gperf\\n\q);\n\t\treturn 1;\n\t}\n\tint mode = 0;\n\tprintf (\q#ifndef INCLUDE_%s_H\\n\q);\n\tprintf (\q#define INCLUDE_%s_H 1\\n\q);\n\twhile (!feof (fd)) {\n\t\t*line = 0;\n\t\tfgets (line, sizeof (line), fd);\n\t\tif (mode == 1) {\n\t\t\tchar *comma = strchr (line, ',');\n\t\t\tif (comma) {\n\t\t\t\t*comma = 0;\n\t\t\t\tchar *up = sdb_strdup (line);\n\t\t\t\tchar *p = up; while (*p) { *p = toupper (*p); p++; }\n\t\t\t\tprintf (\q#define GPERF_%s_%%s %%d\\n\q,\n\t\t\t\t\tline, sdb_hash_c_%s (line, comma - line));\n\t\t\t}\n\t\t}\n\t\tif (*line == '%%' && line[1] == '%%') { mode++; }\n\t}\n\tprintf (\q#endif\\n\q);\n}\n#endif") [cname; name; cname; cname; cname; name; name; cname; cname; cname; cname], true);
   ([], true)].

Definition sdb_cgen_footer (name cname : bytes) (textmode : bool) : option bytes :=
  built (append_all junk strbuf_new (if textmode then footer_text name cname else footer_gperf name cname)).

(** ** Names *)

(** Behind the last slash, unless that is the first character. *)
Fixpoint base_from (l : nat) (name : bytes) : bytes :=
  match l with
  | O => name
  | S l' => if byte_at name l =? SLASH then drop (S l) name else base_from l' name
  end.
Definition base_name (name : bytes) : bytes := base_from (length name - 1) name.

Fixpoint to_dot (n : bytes) : bytes :=
  match n with [] => [] | c :: n' => if c =? DOT then [] else c :: to_dot n' end.
Fixpoint to_dot_c (n : bytes) : bytes :=
  match n with
  | [] => []
  | c :: n' => if (c =? SLASH) || (c =? chr "-") then chr "_" :: to_dot_c n' else if c =? DOT then [] else c :: to_dot_c n'
  end.

(** Names are not empty. *)
Definition get_name (name : bytes) : bytes := to_dot (base_name name).
Definition get_cname (name : bytes) : bytes := to_dot_c (base_name name).

(** ** Pairs as C *)

Definition escape_one (ch c : Z) : bytes :=
  if c =? ch then [chr "_"]
  else if c =? QUOT then [BSLASH; QUOT]
  else if c =? BSLASH then [BSLASH; BSLASH]
  else if c =? CR then [BSLASH; chr "r"]
  else if c =? NL then [BSLASH; chr "n"]
  else if c =? 9 then [BSLASH; chr "t"]
  else [c].
Fixpoint escape (b : bytes) (ch : Z) : bytes := match b with [] => [] | c :: b' => escape_one ch c ++ escape b' ch end.

(** The first comma becomes a dot, the text ends at the second. *)
Definition dot_commas (ev : bytes) : bytes :=
  match strchr ev COMMA with
  | None => ev
  | Some r =>
      let ev := take (length ev - length r) ev ++ DOT :: tail r in
      match strchr ev COMMA with
      | None => ev
      | Some r => take (length ev - length r) ev
      end
  end.

Definition entry_line (k v : bytes) : bytes := vfmt (txt "\t{\q%s\q, \q%s\q},\n") [k; v].

Definition entry_lines (mirror_mode : bool) (kv : bytes * bytes) : list (bytes * bool) :=
  let ek := escape kv.1 0 in
  let ev := escape kv.2 0 in
  (entry_line ek ev, false)
  :: (if mirror_mode && negb (strcmp ek (str "_") =? 0) then [(entry_line (dot_commas ev) ek, false)] else []).
End cgen.

(** ** Loading the text *)

(** The databases of a text as the tool sees them: the one it loads into (the handle
    [true]) and its namespaces (the handle [false]), which it does not look at.  The
    database is a new one without a lock or a file name, so that [sdb_ns] gives a
    namespace for every name the loader asks for. *)
Definition root_dbs (now : Z) : TextDbs bool Sdb := {|
  text_ns _ _ s := (Some false, s);
  text_set root k v s := if root then (sdb_set now (Some k) (Some v) 0 s).2 else s
|}.

Definition text_buf_into (now : Z) (b : bytes) : M unit := λ s, ((), sdb_text_load_buf (TextDbs0 := root_dbs now) true b s).
Definition text_into (now : Z) (contents : option bytes) : M bool := λ s, sdb_text_load (TextDbs0 := root_dbs now) true contents s.

(** ** The tool *)

(** The files in the directory and their times. *)
Record ToolFs := mkTool { t_files : gmap bytes bytes; t_times : gmap bytes Z }.

(** What happens while a text is built: [fwrite] takes up to [c_written] bytes, and up to
    [c_stored] reach the file, since [fclose] writes what is buffered. *)
Record ToolEnv := mkEnv {
  e_now : Z;
  e_junk : Z;
  e_pid : Z;
  e_locked : bool;
  e_sys : Sys;
  c_open_ok : bool;
  c_written : nat;
  c_stored : nat
}.

(** The contents of the C source. *)
Definition c_source (junk : Z) (file_txt : bytes) (mirror_mode : bool) (l : list (bytes * bytes)) : option bytes :=
  let name := get_name file_txt in
  let cname := get_cname file_txt in
  header ← sdb_cgen_header junk cname true;
  footer ← sdb_cgen_footer junk name cname true;
  built (append_all junk strbuf_new ((header, false) :: mjoin (entry_lines mirror_mode <$> l) ++ [(footer, false)])).

Definition dothec (e : ToolEnv) (t : ToolFs) (file_txt file_gperf : bytes) (mirror_mode : bool) : bool * ToolFs :=
  match sdb_new0 with
  | None => (false, t)
  | Some db =>
      let '(ok, db) := text_into (e_now e) (t_files t !! file_txt) db in
      if negb ok then (false, t)
      else
        let '(l, db) := sdb_foreach_list true db in
        match c_source (e_junk e) file_txt mirror_mode l with
        | None => (false, t)
        | Some content =>
            if negb (c_open_ok e) then (false, t)
            else (bool_decide (length content <= c_written e)%nat,
                  mkTool (<[file_gperf := take (c_stored e) content]> (t_files t)) (<[file_gperf := e_now e]> (t_times t)))
        end
  end.

Fixpoint mirror_pairs (now : Z) (l : list (bytes * bytes)) : M unit :=
  match l with
  | [] => mret ()
  | (k, v) :: l' =>
      let ek := escape k 0 in
      let ev := dot_commas (escape v 0) in
      _ ← (if negb (strcmp ek (str "_") =? 0) then sdb_set now (Some ev) (Some ek) 0 else mret true);
      mirror_pairs now l'
  end.

Definition mirror_sdb (now : Z) : M unit := l ← sdb_foreach_list true; mirror_pairs now l.

(** The lock is a file while the database is built.  Closing the database, which happens on
    every way out, removes it. *)
Definition dothesdb (e : ToolEnv) (t : ToolFs) (file_txt file_sdb : bytes) (mirror_mode : bool) : bool * ToolFs :=
  match sdb_new0, sdb_lock_file (Some file_sdb) SDB_MAX_PATH with
  | Some db, Some lock =>
      if negb (e_locked e) then (false, t)
      else
        let pid := default [] ((λ p, p ++ [10]) <$> sdb_itoa (e_pid e) 10 (Some 64)) in
        let files := <[lock := pid]> (t_files t) in
        let '(ok, db) := text_into (e_now e) (files !! file_txt) db in
        if negb ok then (false, mkTool (delete lock files) (t_times t))
        else
          let '(_, db) := (if mirror_mode then mirror_sdb (e_now e) else mret ()) db in
          let '(r, s) := sdb_sync (e_sys e) (λ d, text_into (e_now e) (Some d))
                           (mkFs db (Some file_sdb) None None false make_none files) in
          let ret := bool_decide (r = Some true) in
          let written := ret || negb (bool_decide (files !! file_sdb = Disk.files s !! file_sdb)) in
          (ret, mkTool (delete lock (Disk.files s)) (if written then <[file_sdb := e_now e]> (t_times t) else t_times t))
  | _, _ => (false, t)
  end.

Definition file_exists (t : ToolFs) (path : bytes) : bool := bool_decide (is_Some (t_files t !! path)).

Definition is_newer (t : ToolFs) (path_a path_b : bytes) : bool :=
  match t_files t !! path_a, t_files t !! path_b with
  | None, _ => false
  | _, None => true
  | _, _ => default 0 (t_times t !! path_b) <? default 0 (t_times t !! path_a)
  end.

(** The names of the outputs. *)
Definition sdb_name (file_txt : bytes) (output_dir : option bytes) : bytes :=
  let file_sdb := take (length file_txt - 4) file_txt in
  match output_dir with Some d => d ++ SLASH :: file_sdb | None => file_sdb end.
Definition c_name (file_sdb : bytes) : bytes :=
  if (3 <=? length file_sdb)%nat then take (length file_sdb - 3) file_sdb ++ str "c" else file_sdb.

Definition dothething (e : ToolEnv) (t : ToolFs) (file_txt : bytes) (mirror_mode : bool) (output_dir : option bytes) : bool * ToolFs :=
  let file_sdb := sdb_name file_txt output_dir in
  let file_gperf := c_name file_sdb in
  let '(r1, t) :=
    if negb (file_exists t file_gperf) || is_newer t file_txt file_gperf then dothec e t file_txt file_gperf mirror_mode else (true, t) in
  let '(r2, t) :=
    if negb (file_exists t file_sdb) || is_newer t file_txt file_sdb then dothesdb e t file_txt file_sdb mirror_mode else (true, t) in
  (r1 && r2, t).

Definition SUFFIX : bytes := str ".sdb.txt".
Definition is_text (file : bytes) : bool :=
  (8 <? length file)%nat && (strcmp (drop (length file - 8) file) SUFFIX =? 0).

(** [entries] is what [readdir] returns, [None] when the directory cannot be entered. *)
Definition sdb_tool (env : bytes → ToolEnv) (path : option bytes) (output_dir : option bytes) (entries : option (list bytes))
    (mirror_mode : bool) (t : ToolFs) : bool * ToolFs :=
  match path, entries with
  | Some _, Some entries =>
      foldl (λ '(success, t) file,
        if is_text file then let '(r, t) := dothething (env file) t file mirror_mode output_dir in (success && r, t) else (success, t))
        (true, t) entries
  | _, _ => (false, t)
  end.
