(* ===== verification/ToolFacts.v ===== *)
(** * What the build tool leaves ([Tool])

    The C source of a text is read back with the rules of C for strings, spaces and
    comments: its table is the contents of the database.  The database file opens with the
    same contents, and a second run of the tool does nothing. *)

From S2P Require Import Prelude Util Lock Ht HashTables Buffer CdbMake CdbTables Cdb SdbCore StrBuf Text SdbIter Disk Query Tool.

(** ** Reading C *)

Definition c_escape (d : Z) : option Z :=
  if d =? chr "n" then Some NL else if d =? chr "r" then Some CR else if d =? chr "t" then Some 9
  else if (d =? QUOT) || (d =? BSLASH) then Some d else None.

(** A literal behind its opening quote, and what follows the closing one. *)
Fixpoint c_string (s : bytes) : option (bytes * bytes) :=
  match s with
  | [] => None
  | c :: s' =>
      if c =? QUOT then Some ([], s')
      else if c =? NL then None
      else if c =? BSLASH then
        match s' with
        | [] => None
        | d :: s' => x ← c_escape d; y ← c_string s'; Some (x :: y.1, y.2)
        end
      else y ← c_string s'; Some (c :: y.1, y.2)
  end.

(** Spaces and comments to the end of a line. *)
Fixpoint c_skip (comment : bool) (s : bytes) : bytes :=
  match s with
  | [] => []
  | c :: s' =>
      if comment then c_skip (negb (c =? NL)) s'
      else if (c =? 32) || (c =? 9) || (c =? NL) then c_skip false s'
      else if (c =? SLASH) && (hd0 s' =? SLASH) then c_skip true s'
      else s
  end.

Definition c_token (x : Z) (s : bytes) : option bytes :=
  match c_skip false s with c :: s' => if c =? x then Some s' else None | [] => None end.

(** The entries of an array of two strings each, up to the one with [NULL]. *)
Fixpoint c_table (fuel : nat) (s : bytes) : option (list (bytes * bytes)) :=
  match fuel with
  | O => None
  | S fuel' =>
      s ← c_token (chr "{") s;
      if bool_decide (take 4 (c_skip false s) = str "NULL") then Some []
      else
        s ← c_token QUOT s; k ← c_string s;
        s ← c_token COMMA k.2;
        s ← c_token QUOT s; v ← c_string s;
        s ← c_token (chr "}") v.2;
        s ← c_token COMMA s;
        l ← c_table fuel' s;
        Some ((k.1, v.1) :: l)
  end.

(** The array [kvs] of a source; the function [get] of the source searches it from the start
    ([first_value]). *)
Definition c_kvs (source : bytes) : option (list (bytes * bytes)) :=
  s ← strstr source (str "kvs[] = {"); c_table (S (length source)) (drop 9 s).

(** ** Entries *)

Lemma c_string_escape k r : is_cstr k → c_string (escape k 0 ++ QUOT :: r) = Some (k, r).
Proof.
  induction 1 as [|c k Hc _ IH]; [done|]. cbn [escape]. rewrite <- app_assoc. unfold escape_one.
  rewrite (proj2 (Z.eqb_neq c 0)) by (unfold is_char in Hc; lia).
  destruct (Z.eqb_spec c QUOT) as [->|H1]; [cbn; by rewrite IH|]. destruct (Z.eqb_spec c BSLASH) as [->|H2]; [cbn; by rewrite IH|].
  destruct (Z.eqb_spec c CR) as [->|H3]; [cbn; by rewrite IH|]. destruct (Z.eqb_spec c NL) as [->|H4]; [cbn; by rewrite IH|].
  destruct (Z.eqb_spec c 9) as [->|H5]; [cbn; by rewrite IH|]. cbn [app c_string].
  rewrite (proj2 (Z.eqb_neq _ _) H1), (proj2 (Z.eqb_neq _ _) H4), (proj2 (Z.eqb_neq _ _) H2). by rewrite IH.
Qed.

(** The block for an escaped text is large enough for it. *)
Lemma escape_fits b ch : (length (escape b ch) < 4 * (1 + length b))%nat.
Proof.
  induction b as [|c b IH]; cbn [escape length]; [lia|]. rewrite length_app. assert (length (escape_one ch c) <= 2)%nat; [|lia].
  unfold escape_one. repeat case_match; cbn; lia.
Qed.

Lemma entry_line_eq k v : entry_line k v = [9; 123; 34] ++ k ++ [34; 44; 32; 34] ++ v ++ [34; 125; 44; 10].
Proof. reflexivity. Qed.

Lemma c_table_entry fuel k v r :
  is_cstr k → is_cstr v → c_table (S fuel) (entry_line (escape k 0) (escape v 0) ++ r) = cons (k, v) <$> c_table fuel (NL :: r).
Proof.
  intros Hk Hv. rewrite entry_line_eq, <- !app_assoc. cbn [c_table].
  change (c_token (chr "{") _) with (Some (QUOT :: escape k 0 ++ QUOT :: 44 :: 32 :: QUOT :: escape v 0 ++ QUOT :: 125 :: 44 :: NL :: r)).
  cbn [mbind option_bind]. rewrite bool_decide_false by done. change (c_token QUOT (QUOT :: ?x)) with (Some x).
  cbn [mbind option_bind]. rewrite c_string_escape by done. cbn [mbind option_bind fst snd].
  change (c_token COMMA (44 :: ?x)) with (Some x). cbn [mbind option_bind]. change (c_token QUOT (32 :: QUOT :: ?x)) with (Some x).
  cbn [mbind option_bind]. rewrite c_string_escape by done. cbn [mbind option_bind fst snd].
  change (c_token (chr "}") (125 :: ?x)) with (Some x). cbn [mbind option_bind]. change (c_token COMMA (44 :: ?x)) with (Some x).
  cbn [mbind option_bind]. by destruct (c_table fuel (NL :: r)).
Qed.

Lemma c_table_nl fuel s : c_table fuel (NL :: s) = c_table fuel s.
Proof. by destruct fuel. Qed.

Definition lines (l : list (bytes * bytes)) : bytes := mjoin ((λ kv, entry_line (escape kv.1 0) (escape kv.2 0)) <$> l).

Lemma lines_cons kv l : lines (kv :: l) = entry_line (escape kv.1 0) (escape kv.2 0) ++ lines l.
Proof. reflexivity. Qed.

Lemma c_table_lines l fuel r :
  Forall (λ kv, is_cstr kv.1 ∧ is_cstr kv.2) l → (length l < fuel)%nat → c_table fuel (lines l ++ str "  {NULL" ++ r) = Some l.
Proof.
  intros Hl. revert fuel. induction Hl as [|[k v] l [Hk Hv] _ IH]; intros [|fuel] Hf; cbn [length] in Hf; [lia|done|lia|].
  rewrite lines_cons, <- app_assoc. cbn [fst snd]. rewrite c_table_entry by done. rewrite c_table_nl, IH by lia. done.
Qed.

Lemma lines_length l : (length l <= length (lines l))%nat.
Proof. induction l as [|kv l IH]; [done|]. rewrite lines_cons, length_app, entry_line_eq. cbn [app length]. lia. Qed.

(** ** Mirrored entries *)

Lemma escape_app a b : escape (a ++ b) 0 = escape a 0 ++ escape b 0.
Proof. induction a as [|c a IH]; [done|]. cbn [app escape]. by rewrite IH, app_assoc. Qed.

Lemma escape_comma b : COMMA ∉ b → COMMA ∉ escape b 0.
Proof.
  induction b as [|c b IH]; [done|]. rewrite not_elem_of_cons. intros [Hc Hb]. cbn [escape]. rewrite not_elem_of_app. split; [|by apply IH].
  unfold escape_one. repeat case_match; rewrite ?not_elem_of_cons; unfold COMMA, BSLASH, QUOT in *; split_and?; try done; set_solver.
Qed.

Lemma dot_commas_none v : COMMA ∉ v → dot_commas v = v.
Proof. intros Hv. unfold dot_commas. by rewrite (proj2 (strchr_None v COMMA) Hv). Qed.

Lemma take_before {A} (p r : list A) : take (length (p ++ r) - length r) (p ++ r) = p.
Proof. rewrite length_app, Nat.add_sub. apply take_app_length. Qed.

Lemma dot_commas_one p t : COMMA ∉ p → COMMA ∉ t → dot_commas (p ++ COMMA :: t) = p ++ DOT :: t.
Proof.
  intros Hp Ht. unfold dot_commas. rewrite strchr_app by done. cbn [tail]. rewrite take_before.
  rewrite (proj2 (strchr_None _ _)); [done|]. rewrite not_elem_of_app, not_elem_of_cons. done.
Qed.

Lemma dot_commas_two p q t : COMMA ∉ p → COMMA ∉ q → dot_commas (p ++ COMMA :: q ++ COMMA :: t) = p ++ DOT :: q.
Proof.
  intros Hp Hq. unfold dot_commas. rewrite strchr_app by done. cbn [tail]. rewrite take_before.
  rewrite app_comm_cons, app_assoc. rewrite strchr_app by (rewrite not_elem_of_app, not_elem_of_cons; done). by rewrite take_before.
Qed.

(** Replacing the commas of the escaped text is escaping the text with its commas replaced. *)
Lemma dot_commas_escape v : dot_commas (escape v 0) = escape (dot_commas v) 0.
Proof.
  destruct (strchr v COMMA) as [r|] eqn:E1.
  - apply strchr_spec in E1 as (p & t & -> & -> & Hp). rewrite escape_app. cbn [escape]. change (escape_one 0 COMMA) with [COMMA]. cbn [app].
    destruct (strchr t COMMA) as [r|] eqn:E2.
    + apply strchr_spec in E2 as (q & u & -> & -> & Hq). rewrite escape_app. cbn [escape]. change (escape_one 0 COMMA) with [COMMA]. cbn [app].
      rewrite !dot_commas_two by auto using escape_comma. by rewrite escape_app.
    + apply strchr_None in E2. rewrite !dot_commas_one by auto using escape_comma. by rewrite escape_app.
  - apply strchr_None in E1. by rewrite !dot_commas_none by auto using escape_comma.
Qed.

Lemma escape_underscore k : is_cstr k → escape k 0 = str "_" ↔ k = str "_".
Proof.
  intros Hk. split; [|by intros ->]. destruct k as [|c [|d k]]; [done|..].
  - cbn [escape]. rewrite app_nil_r. unfold escape_one. apply Forall_inv in Hk. unfold is_char in Hk.
    rewrite (proj2 (Z.eqb_neq c 0)) by lia. repeat case_match; intros E; try done; by apply (f_equal length) in E.
  - cbn [escape]. intros E%(f_equal length). rewrite !length_app in E. change (length (str "_")) with 1%nat in E.
    assert (∀ x, 1 <= length (escape_one 0 x))%nat as Hl by (intros x; unfold escape_one; repeat case_match; cbn; lia).
    pose proof (Hl c). pose proof (Hl d). lia.
Qed.

(** The entries for a pair, one of them back from the value in mirror mode. *)
Definition mirrored (mirror : bool) (kv : bytes * bytes) : list (bytes * bytes) :=
  kv :: if mirror && negb (bool_decide (kv.1 = str "_")) then [(dot_commas kv.2, kv.1)] else [].

Lemma entry_lines_text mirror kv : is_cstr kv.1 → mjoin ((λ x : bytes * bool, x.1 ++ if x.2 then [10] else []) <$> entry_lines mirror kv) = lines (mirrored mirror kv).
Proof.
  intros Hk. unfold entry_lines, mirrored, lines. rewrite dot_commas_escape.
  assert ((strcmp (escape kv.1 0) (str "_") =? 0) = bool_decide (kv.1 = str "_")) as ->.
  { apply eq_bool_prop_intro. rewrite !Is_true_true, Z.eqb_eq, strcmp_eq, bool_decide_eq_true. by apply escape_underscore. }
  destruct (mirror && _); cbn [fmap list_fmap mjoin list_join fst snd]; by rewrite !app_nil_r.
Qed.

(** ** The source *)

#[local] Instance is_cstr_dec s : Decision (is_cstr s).
Proof. unfold is_cstr, is_char. apply _. Defined.
Ltac literal := apply (bool_decide_unpack _); vm_compute; exact I.

Lemma vfmt_ind (P : Z → Prop) f args : Forall P f → Forall (Forall P) args → Forall P (vfmt f args).
Proof.
  remember (length f) as n eqn:En. revert f args En. induction (lt_wf n) as [n _ IH]. intros [|c [|d f]] args -> Hf Ha; [done|done|].
  apply Forall_cons in Hf as [Hc Hf]. pose proof (proj1 (Forall_cons _ _ _) Hf) as [Hd Hf']. cbn [vfmt]. case_match; [case_match|].
  - apply Forall_app. split; [by destruct Ha|]. eapply IH; [|done|done|by destruct Ha]. cbn. lia.
  - constructor; [done|]. eapply IH; [|done|done|done]. cbn. lia.
  - constructor; [done|]. by apply (IH (length (d :: f)) ltac:(cbn; lia) (d :: f)).
Qed.

Definition joined (l : list (bytes * bool)) : bytes := mjoin ((λ x : bytes * bool, x.1 ++ if x.2 then [10] else []) <$> l).

Lemma joined_app a b : joined (a ++ b) = joined a ++ joined b.
Proof. unfold joined. by rewrite fmap_app, join_app. Qed.

Lemma joined_cstr l : Forall (λ x, is_cstr x.1) l → is_cstr (joined l).
Proof.
  induction 1 as [|[x nl] l Hx _ IH]; [constructor|]. change (joined ((x, nl) :: l)) with ((x ++ if nl then [10] else []) ++ joined l).
  apply Forall_app. split; [|exact IH]. apply Forall_app. split; [exact Hx|]. destruct nl; [|constructor]. literal.
Qed.

Lemma built_ok junk l : l ≠ [] → Forall (λ x, is_cstr x.1) l → built (append_all junk strbuf_new l) = Some (joined l) ∧ is_cstr (joined l).
Proof.
  intros Hl Hc. split; [|by apply joined_cstr]. destruct (strbuf_concatenates junk l) as (sb & E & Hm). unfold built. rewrite E. cbn [mbind option_bind].
  destruct (strbuf_drain sb) as [mem|]; [|done]. destruct Hm as [rest ->]. cbn [mbind option_bind]. f_equal. apply cstr_app_nul. by apply joined_cstr.
Qed.

(** Texts with names in them. *)
Ltac source_text := lazymatch goal with |- is_cstr (vfmt _ _) => apply vfmt_ind; [literal|by repeat constructor] | _ => literal end.

Ltac all_texts := repeat match goal with |- Forall _ (_ :: _) => apply Forall_cons; split; cbn [fst] end; [source_text..|apply Forall_nil; exact I].

Lemma footer_cstr name cname : is_cstr name → is_cstr cname → Forall (λ x, is_cstr x.1) (footer_text name cname).
Proof. intros Hn Hc. unfold footer_text. all_texts. Qed.

Lemma names_ind (P : Z → Prop) n : P (chr "_") → Forall P n → Forall P (get_name n) ∧ Forall P (get_cname n).
Proof.
  intros Hu Hn. assert (Forall P (base_name n)) as Hb.
  { unfold base_name. induction (length n - 1)%nat as [|l IH]; [done|]. cbn [base_from]. case_match; [by apply Forall_drop|done]. }
  unfold get_name, get_cname. split; induction Hb as [|c b Hc _ IH]; cbn; repeat case_match; auto.
Qed.

Lemma skip_comment a s : NL ∉ a → c_skip true (a ++ NL :: s) = c_skip false s.
Proof. induction a as [|c a IH]; [done|]. rewrite not_elem_of_cons. intros [Hc Ha]. cbn [app c_skip]. rewrite (proj2 (Z.eqb_neq c NL)) by done. by apply IH. Qed.

Lemma c_token_comment x a s : NL ∉ a → c_token x (SLASH :: SLASH :: a ++ NL :: s) = c_token x s.
Proof. intros Ha. unfold c_token. change (c_skip false (SLASH :: SLASH :: ?b)) with (c_skip true b). by rewrite skip_comment. Qed.

Lemma c_table_comment fuel a s : NL ∉ a → c_table fuel (NL :: SLASH :: SLASH :: a ++ NL :: s) = c_table fuel s.
Proof. intros Ha. rewrite c_table_nl. destruct fuel; [done|]. cbn [c_table]. by rewrite c_token_comment. Qed.

Lemma vfmt_comment cname :
  vfmt (str "// gcc -DMAIN=1 %s.c ; ./a.out > %s.h") [cname; cname] = SLASH :: SLASH :: str " gcc -DMAIN=1 " ++ cname ++ str ".c ; ./a.out > " ++ cname ++ str ".h".
Proof. reflexivity. Qed.

(** The start of the source up to the table, and of its end. *)
Definition table_start : bytes :=
  str "// SDB-CGEN V" ++ SDB_VERSION ++ txt "\n#include <ctype.h>\n#include <stdio.h>\n#include <string.h>\n\nstruct kv { const char *name; const char *value; };\nstatic const struct kv kvs[] = {".

Lemma strstr_start r : strstr (table_start ++ r) (str "kvs[] = {") = Some (str "kvs[] = {" ++ r).
Proof. vm_compute. reflexivity. Qed.

Lemma header_ok junk cname :
  is_cstr cname →
  let h := table_start ++ [NL] ++ SLASH :: SLASH :: (str " gcc -DMAIN=1 " ++ cname ++ str ".c ; ./a.out > " ++ cname ++ str ".h") ++ [NL] in
  sdb_cgen_header junk cname true = Some h ∧ is_cstr h.
Proof.
  intros Hc h. unfold sdb_cgen_header. fold table_start. rewrite vfmt_comment. set (c := _ ++ cname ++ _) in *.
  destruct (built_ok junk [(table_start, true); (SLASH :: SLASH :: c, true)]) as [E Hh]; [done| |].
  - repeat match goal with |- Forall _ (_ :: _) => apply Forall_cons; split; cbn [fst] end; [literal| |by apply Forall_nil].
    subst c. rewrite <- vfmt_comment. source_text.
  - subst h. rewrite E. replace (table_start ++ _) with (joined [(table_start, true); (SLASH :: SLASH :: c, true)]); [done|].
    unfold joined. cbn [fmap list_fmap mjoin list_join fst snd]. by rewrite app_nil_r, <- !app_assoc.
Qed.

Lemma footer_ok junk name cname :
  is_cstr name → is_cstr cname → ∃ r, sdb_cgen_footer junk name cname true = Some (str "  {NULL" ++ r) ∧ is_cstr (str "  {NULL" ++ r).
Proof.
  intros Hn Hc. destruct (built_ok junk (footer_text name cname)) as [E Hf]; [done|by apply footer_cstr|]. unfold sdb_cgen_footer. rewrite E.
  exists (drop 7 (joined (footer_text name cname))).
  assert (take 7 (joined (footer_text name cname)) = str "  {NULL") as <- by reflexivity. by rewrite take_drop.
Qed.

Lemma lines_app a b : lines (a ++ b) = lines a ++ lines b.
Proof. unfold lines. by rewrite fmap_app, join_app. Qed.

Lemma joined_entries mirror l :
  Forall (λ kv, is_cstr kv.1 ∧ is_cstr kv.2) l → joined (mjoin (entry_lines mirror <$> l)) = lines (l ≫= mirrored mirror).
Proof.
  induction 1 as [|kv l [Hk _] _ IH]; [done|]. rewrite fmap_cons, bind_cons. change (mjoin (?x :: ?y)) with (x ++ mjoin y).
  rewrite joined_app, lines_app, IH. f_equal. by apply entry_lines_text.
Qed.

Lemma escape_cstr b : is_cstr b → is_cstr (escape b 0).
Proof.
  induction 1 as [|c b Hc _ IH]; [constructor|]. cbn [escape]. apply Forall_app. split; [|exact IH].
  unfold escape_one. repeat case_match; try literal. by apply Forall_singleton.
Qed.

Lemma dot_commas_cstr v : is_cstr v → is_cstr (dot_commas v).
Proof.
  intros Hv. unfold dot_commas. destruct (strchr v COMMA) as [r|] eqn:E; [|done]. apply strchr_spec in E as (p & t & -> & -> & _).
  apply Forall_app in Hv as [Hp Ht]. apply Forall_inv_tail in Ht. cbn [tail]. rewrite take_before.
  assert (is_cstr (p ++ DOT :: t)) as Hd by (apply Forall_app; split; [done|]; constructor; [unfold is_char, DOT; lia|done]).
  case_match; [by apply Forall_take|done].
Qed.

Lemma mirrored_cstr mirror l :
  Forall (λ kv, is_cstr kv.1 ∧ is_cstr kv.2) l → Forall (λ kv, is_cstr kv.1 ∧ is_cstr kv.2) (l ≫= mirrored mirror).
Proof.
  intros Hl. apply Forall_bind. eapply Forall_impl; [exact Hl|]. intros [k v] [Hk Hv]. unfold mirrored. constructor; [done|].
  case_match; [|constructor]. apply Forall_singleton. split; [by apply dot_commas_cstr|done].
Qed.

Lemma lines_texts mirror l : Forall (λ kv, is_cstr kv.1 ∧ is_cstr kv.2) l → Forall (λ x, is_cstr x.1) (mjoin (entry_lines mirror <$> l)).
Proof.
  induction 1 as [|[k v] l [Hk Hv] _ IH]; [constructor|]. cbn [fst snd] in *. rewrite fmap_cons. change (mjoin (?x :: ?y)) with (x ++ mjoin y). apply Forall_app. split; [|exact IH].
  assert (∀ a b, is_cstr a → is_cstr b → is_cstr (entry_line a b)) as He.
  { intros a b Ha Hb. apply vfmt_ind; [literal|]. by repeat constructor. }
  unfold entry_lines. cbn [fst snd]. constructor; [apply He; by apply escape_cstr|]. case_match; [|constructor]. apply Forall_singleton.
  apply He; [apply dot_commas_cstr|]; by apply escape_cstr.
Qed.

Definition file_name (f : bytes) : Prop := is_cstr f ∧ NL ∉ f.

Lemma c_source_ok junk f mirror l :
  file_name f → Forall (λ kv, is_cstr kv.1 ∧ is_cstr kv.2) l →
  ∃ src, c_source junk f mirror l = Some src ∧ is_cstr src ∧ c_kvs src = Some (l ≫= mirrored mirror).
Proof.
  intros [Hf Hnl] Hl. destruct (names_ind is_char f) as [Hn Hc]; [unfold is_char; by vm_compute|done|].
  assert (NL ∉ get_cname f) as Hcn.
  { intros Hin. destruct (names_ind (λ c, c ≠ NL) f) as [_ H]; [done|apply Forall_forall; by intros c Hcin ->|]. by apply (proj1 (Forall_forall _ _) H) in Hin. }
  unfold c_source. destruct (header_ok junk (get_cname f) Hc) as [-> Hh]. set (cm := _ ++ get_cname f ++ _) in *.
  destruct (footer_ok junk (get_name f) (get_cname f) Hn Hc) as (r & -> & Hr). cbn [mbind option_bind].
  match goal with |- context [built (append_all _ _ ?x)] => destruct (built_ok junk x) as [-> Hs] end; [done| |].
  { constructor; [exact Hh|]. apply Forall_app. split; [by apply lines_texts|by apply Forall_singleton]. }
  eexists. split; [done|]. split; [exact Hs|].
  change (joined ((?h, false) :: ?y)) with ((h ++ []) ++ joined y). rewrite joined_app, joined_entries by done.
  change (joined [(?h, false)]) with ((h ++ []) ++ []). rewrite !app_nil_r. unfold c_kvs.
  set (n := S _). assert (length (l ≫= mirrored mirror) < n)%nat as Hlen.
  { subst n. rewrite !length_app. pose proof (lines_length (l ≫= mirrored mirror)). lia. }
  clearbody n. rewrite <- !app_assoc. rewrite strstr_start. cbn [mbind option_bind]. change (drop 9 (str "kvs[] = {" ++ ?x)) with x.
  cbn [app]. rewrite <- app_assoc. cbn [app].
  rewrite c_table_comment; [by apply c_table_lines; [apply mirrored_cstr|]|].
  subst cm. rewrite !not_elem_of_app. split_and!; try done; apply (bool_decide_unpack _); vm_compute; exact I.
Qed.

(** ** The database of a text *)

Section load.
Context (now : Z).

(** What a text does to the database itself. *)
Fixpoint load_root (root : bool) (evs : list event) : M unit :=
  match evs with
  | [] => mret ()
  | EPath p :: evs' => load_root (bool_decide (p = [])) evs'
  | EKv k v :: evs' => if root then _ ← sdb_set now (Some k) (Some v) 0; load_root root evs' else load_root root evs'
  end.

Lemma emit_root b evs s :
  databases (foldl (emit (TextDbs0 := root_dbs now)) (mkTarget true b s) evs) = (load_root b evs s).2.
Proof.
  revert b s. induction evs as [|[p|k v] evs IH]; intros b s; [done|..]; cbn [foldl emit load_root].
  - unfold go_path. cbn [root_db databases].
    assert (∀ c, walk_tokens (TextDbs0 := root_dbs now) true c p s = (match p with [] => c | _ => false end, s)) as ->.
    { induction p as [|nm p IHp]; intros c; [done|]. cbn. rewrite IHp. by destruct p. }
    rewrite IH. by destruct p.
  - unfold put_pair. cbn [root_db cur_db databases text_set root_dbs]. destruct b; [|apply IH]. run_m. rewrite IH. by destruct (sdb_set now (Some k) (Some v) 0 s).
Qed.

Lemma load_root_sub t p b rest : p ≠ [] → load_root b (tree_events p t ++ rest) = load_root false rest.
Proof.
  revert p b rest. induction t as [pairs subs IH] using tree_ind'. intros p b rest Hp. cbn [tree_events app load_root]. rewrite bool_decide_false by done.
  rewrite <- app_assoc. induction pairs as [|[k v] pairs IHp]; [|exact IHp]. cbn [fmap list_fmap app].
  induction IH as [|[n s] subs Hs _ IHs]; [done|]. cbn [snd] in Hs. rewrite fmap_cons. change (mjoin (?x :: ?y)) with (x ++ mjoin y).
  cbn beta iota. rewrite <- app_assoc, Hs by (by destruct p). exact IHs.
Qed.

Lemma load_root_pairs pairs rest s :
  load_root true (((λ kv, EKv kv.1 kv.2) <$> pairs) ++ rest) s = load_root true rest (set_pairs now pairs s).2.
Proof.
  revert s. induction pairs as [|[k v] pairs IH]; intros s; [done|]. cbn [fmap list_fmap app load_root set_pairs fst snd]. run_m.
  destruct (sdb_set _ _ _ _ s) as [r s1]. rewrite IH. done.
Qed.

(** The pairs of the namespaces do not get into the database. *)
Lemma text_into_tree pairs subs s :
  tree_ok (Tree pairs subs) → text_into now (Some (tree_text [] (Tree pairs subs))) s = (true, (set_pairs now pairs s).2).
Proof.
  intros Hok. unfold text_into. rewrite text_load_tree, emit_root by done. f_equal. cbn [tree_events load_root]. rewrite bool_decide_true by done. run_m.
  rewrite load_root_pairs. set (s1 := (set_pairs now pairs s).2). clearbody s1.
  assert (∀ b, load_root b (mjoin ((λ '(n, s), tree_events ([] ++ [n]) s) <$> subs)) s1 = (tt, s1)) as Hs; [|by rewrite Hs].
  clear Hok. induction subs as [|[n t] subs IH]; intros b; [done|]. rewrite fmap_cons. change (mjoin (?x :: ?y)) with (x ++ mjoin y).
  cbn beta iota. rewrite load_root_sub by done. apply IH.
Qed.

(** Sets do not make entries expire. *)
Lemma set_lasting n s k v :
  mem_inv (S n) s → key_ok k → val_ok v → lasting s → lasting (sdb_set now (Some k) (Some v) 0 s).2.
Proof.
  intros Hi Hk Hv Hl. pose proof (set_any None now n s k v false 0 Hi Hk Hv) as Hs. unfold sdb_set, nonzero; run_m.
  destruct (sdb_set_internal _ _ _ _ _ s) as [r s']. cbn [snd]. destruct Hs as (_ & _ & Hm). unfold lasting. rewrite Hm.
  assert (expire (ext (set_entry k v (to_map (ht s) !! k) false)) = 0) as He.
  { destruct (to_map (ht s) !! k) as [[k0 [v0|] kl vl e]|] eqn:E; [|done|done]. exact (Hl _ _ E). }
  unfold outcome_map. case_match; [done|by apply map_Forall_insert_2|by apply map_Forall_delete].
Qed.

Lemma set_pairs_lasting l n s :
  mem_inv (length l + n) s → Forall (λ kv, key_ok kv.1 ∧ val_ok kv.2) l → lasting s → lasting (set_pairs now l s).2.
Proof.
  revert s. induction l as [|[k v] l IH]; intros s Hi Hl Hs; [done|]. apply Forall_cons in Hl as [[Hk Hv] Hl]. cbn [fst snd] in *.
  cbn [set_pairs]. run_m. pose proof (set_lasting (length l + n) s k v Hi Hk Hv Hs) as Hs1.
  pose proof (set_mem_view now (length l + n) s k v false Hi Hk Hv) as Hm. fold (sdb_set now (Some k) (Some v) 0) in Hm.
  destruct (sdb_set _ _ _ _ s) as [r s1]. destruct Hm as [Hi1 _]. by apply IH.
Qed.
End load.

(** ** The order of the pairs *)

Lemma strcmp_opp a b : strcmp b a = - strcmp a b.
Proof.
  revert b. induction a as [|x a IH]; intros [|y b]; cbn; [done..|]. destruct (Z.ltb_spec x y), (Z.ltb_spec y x); try lia. apply IH.
Qed.

Lemma strcmp_trans a b c : strcmp a b <= 0 → strcmp b c <= 0 → strcmp a c <= 0.
Proof.
  revert b c. induction a as [|x a IH]; intros [|y b] [|z c]; cbn; try lia.
  destruct (Z.ltb_spec x y), (Z.ltb_spec y x), (Z.ltb_spec y z), (Z.ltb_spec z y), (Z.ltb_spec x z), (Z.ltb_spec z x); try lia. apply IH.
Qed.

#[local] Instance key_le_trans : Transitive key_le.
Proof. intros a b c. apply strcmp_trans. Qed.
#[local] Instance key_le_total : Total key_le.
Proof. intros [k v] [k' v']. unfold key_le. cbn [fst]. pose proof (strcmp_opp k k'). lia. Qed.

(** With distinct keys the order is determined. *)
Lemma sorted_pairs l l' : NoDup l.*1 → l ≡ₚ l' → merge_sort key_le l = merge_sort key_le l'.
Proof.
  intros Hnd Hp. apply (Sorted_unique_strong key_le).
  - intros [k v] [k' v'] Hx Hy. rewrite merge_sort_Permutation in Hx. rewrite merge_sort_Permutation, <- Hp in Hy. unfold key_le. cbn [fst].
    intros H1 H2. rewrite strcmp_opp in H2. assert (k = k') as -> by (apply strcmp_eq; lia).
    apply list_elem_of_lookup in Hx as [i Hi], Hy as [j Hj]. assert (i = j) as <-; [|congruence].
    eapply NoDup_lookup; [exact Hnd|rewrite list_lookup_fmap, Hi; done|rewrite list_lookup_fmap, Hj; done].
  - apply Sorted_merge_sort, _.
  - apply Sorted_merge_sort, _.
  - by rewrite !merge_sort_Permutation.
Qed.

Lemma first_value_map l k : first_value l k = (list_to_map l : gmap bytes bytes) !! k.
Proof.
  induction l as [|[j v] l IH]; [done|]. cbn [first_value list_to_map foldr]. change (list_to_map ((j, v) :: l)) with (<[j := v]> (list_to_map l : gmap bytes bytes)).
  destruct (decide (j = k)) as [->|Hne]; [by rewrite lookup_insert_eq|by rewrite lookup_insert_ne].
Qed.

Lemma first_value_perm l l' k : NoDup l.*1 → l ≡ₚ l' → first_value l k = first_value l' k.
Proof. intros Hnd Hp. rewrite !first_value_map. f_equal. by apply list_to_map_proper. Qed.

Lemma records_perm l l' : l ≡ₚ l' → slen (records l) = slen (records l').
Proof.
  assert (∀ kv l, records (kv :: l) = record kv ++ records l) as Hc by done. unfold slen.
  induction 1 as [|x l l' _ IH|x y l|l1 l2 l3 _ IH1 _ IH2]; [done|..|by rewrite IH1]; rewrite !Hc, !length_app; lia.
Qed.

Lemma image_size_perm l l' : l ≡ₚ l' → image_size l = image_size l'.
Proof. intros Hp. unfold image_size. by rewrite (records_perm l l' Hp), (Permutation_length Hp). Qed.

(** ** The contents of a text *)

(** Texts that the tool turns into a database: distinct keys, sizes within the bounds, and a
    file that is not taken for text ([sdb_file_taken_for_text]). *)
Record text_ok (pairs : list (bytes * bytes)) (subs : list (bytes * SdbTree)) : Prop := {
  to_tree : tree_ok (Tree pairs subs);
  to_nodup : NoDup pairs.*1;
  to_sizes : Forall (λ kv, key_ok kv.1 ∧ val_ok kv.2 ∧ pair_ok kv) pairs;
  to_size : image_size pairs < 2 ^ 24;
  to_binary : looks_text (CDB_FINAL + slen (records pairs)) = false
}.

Lemma lock_name out : slen out + 6 <= SDB_MAX_PATH → out ≠ [] → sdb_lock_file (Some out) SDB_MAX_PATH = Some (out ++ str ".lock").
Proof.
  intros Hlen Hne. unfold sdb_lock_file. destruct out as [|c out]; [done|]. change (SDB_MAX_PATH =? 0) with false. cbv iota. f_equal. apply take_ge.
  rewrite length_app. change (length (str ".lock")) with 5%nat. unfold slen in Hlen. lia.
Qed.

Section text.
Context (pairs : list (bytes * bytes)) (subs : list (bytes * SdbTree)) (Hok : text_ok pairs subs).
Notation text := (tree_text [] (Tree pairs subs)).

Lemma text_cstr : Forall (λ kv, is_cstr kv.1 ∧ is_cstr kv.2) pairs.
Proof using Hok. eapply Forall_impl; [apply (to_sizes _ _ Hok)|]. intros kv (_ & _ & Hp). by destruct Hp as (? & ? & _). Qed.

Lemma fill_db now s0 :
  mem_inv (length pairs + 0) s0 → view s0 = ∅ → lasting s0 →
  ∃ db, set_pairs now pairs s0 = (tt, db) ∧ mem_inv 0 db ∧ view db = list_to_map pairs ∧ lasting db.
Proof using Hok.
  intros Hi0 Hv0 Hl0. assert (Forall (λ kv, key_ok kv.1 ∧ val_ok kv.2) pairs) as Hkv by (eapply Forall_impl; [apply (to_sizes _ _ Hok)|]; naive_solver).
  destruct (set_pairs_mem now pairs 0 s0 Hi0 Hkv) as (db & Edb & Hi & Hv). exists db. split_and!; [done|done| |].
  - rewrite Hv, Hv0, foldl_put_union; [apply map_union_empty|apply Hok|]. pose proof (to_tree _ _ Hok) as Ht. inversion Ht as [? ? Hps _]; subst.
    eapply Forall_impl; [exact Hps|]. intros kv (_ & _ & ?). done.
  - replace db with (set_pairs now pairs s0).2 by (by rewrite Edb). by eapply set_pairs_lasting.
Qed.

Lemma text_new : ∃ s0, sdb_new0 = Some s0 ∧ mem_inv (length pairs + 0) s0 ∧ view s0 = ∅ ∧ lasting s0 ∧ journal s0 = None.
Proof using Hok.
  pose proof (to_size _ _ Hok) as Hsz. unfold image_size, CDB_FINAL in Hsz. pose proof (slen_nonneg (records pairs)).
  destruct (sdb_new0_ok (length pairs + 0)) as (s0 & E0 & Hi0 & Hv0 & Hj & _); [lia|]. exists s0. split_and!; [done..| |done].
  unfold lasting. rewrite (new0_empty s0 E0). apply map_Forall_empty.
Qed.

Lemma text_db now :
  ∃ s0 db, sdb_new0 = Some s0 ∧ text_into now (Some text) s0 = (true, db) ∧ mem_inv 0 db ∧ view db = list_to_map pairs ∧ lasting db.
Proof using Hok.
  destruct text_new as (s0 & E0 & Hi0 & Hv0 & Hl0 & _). destruct (fill_db now s0 Hi0 Hv0 Hl0) as (db & Edb & Hi & Hv & Hl).
  exists s0, db. split_and!; [done| |done|done|done]. rewrite text_into_tree by apply Hok. by rewrite Edb.
Qed.

(** What is needed of the answers of the system. *)
Definition env_ok (e : ToolEnv) (f : bytes) (mirror : bool) : Prop :=
  sys_ok (e_sys e) ∧ e_locked e = true ∧ c_open_ok e = true ∧ image_size pairs <= Z.of_nat (room (e_sys e))
  ∧ ∀ src, c_source (e_junk e) f mirror (merge_sort key_le pairs) = Some src → (length src <= c_written e ∧ length src <= c_stored e)%nat.

Lemma dothec_ok e t f out mirror :
  file_name f → env_ok e f mirror → t_files t !! f = Some text →
  ∃ src, dothec e t f out mirror = (true, mkTool (<[out := src]> (t_files t)) (<[out := e_now e]> (t_times t)))
    ∧ c_kvs src = Some (merge_sort key_le pairs ≫= mirrored mirror).
Proof using Hok.
  intros Hf (_ & _ & Ho & _ & Hroom) Ht. unfold dothec. rewrite Ht.
  destruct (text_db (e_now e)) as (s0 & db & -> & -> & Hi & Hv & _). cbn [negb].
  unfold sdb_foreach_list; run_m. destruct (foreach_pairs_mem 0 db Hi) as (l & db' & -> & Hp & _). rewrite Hv in Hp.
  assert (l ≡ₚ pairs) as Hlp by (rewrite Hp; apply map_to_list_to_map, Hok).
  rewrite (sorted_pairs l pairs) by (done || rewrite Hlp; apply Hok).
  destruct (c_source_ok (e_junk e) f mirror (merge_sort key_le pairs) Hf) as (src & Es & _ & Hk).
  { rewrite merge_sort_Permutation. apply text_cstr. }
  rewrite Es, Ho. cbn [negb]. destruct (Hroom src Es) as [Hw Hst]. exists src. rewrite bool_decide_true, take_ge by done. done.
Qed.

Lemma sync_of_pairs sys text_load db out files :
  sys_ok sys → image_size pairs <= Z.of_nat (room sys) → mem_inv 0 db → view db = list_to_map pairs → lasting db →
  ∃ img s' kvs, sdb_sync sys text_load (mkFs db (Some out) None None false make_none files) = (Some true, s')
    ∧ Disk.files s' = <[out := img]> (delete (out ++ str ".tmp") files) ∧ image_ok kvs img ∧ Forall pair_ok kvs ∧ kvs ≡ₚ pairs.
Proof using Hok.
  intros Hsys Hroom Hi Hv Hlast. set (s := mkFs db _ _ _ _ _ _). set (kvs := persist_pairs (kvs (ht db))).
  assert (kvs ≡ₚ pairs) as Hp.
  { subst kvs. rewrite <- (map_to_list_to_map pairs) by apply Hok. rewrite <- Hv. rewrite <- (pairs_view 0 db Hi). unfold persist_pairs, entry_pair.
    pose proof (mi_ht _ _ _ Hi) as [[[Hw _] _ _ _] _]. erewrite list_omap_ext; [done|].
    apply Forall_Forall2_diag, Forall_forall. intros kv Hkv. unfold persisted. rewrite (Hlast (key kv) kv); [done|]. by apply to_map_lookup. }
  assert (Forall pair_ok kvs) as Hpk by (rewrite Hp; eapply Forall_impl; [apply (to_sizes _ _ Hok)|]; naive_solver).
  destruct (sync_mem sys text_load 0 s out Hsys Hi eq_refl eq_refl) as (img & s' & E & Him & Hf & _);
    change (persist_pairs (Ht.kvs (ht (core s)))) with kvs in *.
  - exact Hpk.
  - rewrite (image_size_perm kvs pairs Hp). pose proof (to_size _ _ Hok). lia.
  - by rewrite (image_size_perm kvs pairs Hp).
  - intros img Him. rewrite (text_check_image kvs img Him); [|rewrite (image_size_perm kvs pairs Hp); apply Hok].
    rewrite (records_perm kvs pairs Hp). apply Hok.
  - by exists img, s', kvs.
Qed.

Lemma dothesdb_ok e t f out mirror :
  env_ok e f mirror → t_files t !! f = Some text →
  slen out + 6 <= SDB_MAX_PATH → out ≠ [] → f ≠ out ++ str ".lock" →
  ∃ img kvs, dothesdb e t f out false =
      (true, mkTool (delete (out ++ str ".lock") (<[out := img]> (delete (out ++ str ".tmp") (<[out ++ str ".lock" := default [] ((λ p, p ++ [10]) <$> sdb_itoa (e_pid e) 10 (Some 64))]> (t_files t)))))
               (<[out := e_now e]> (t_times t)))
    ∧ image_ok kvs img ∧ Forall pair_ok kvs ∧ kvs ≡ₚ pairs.
Proof using Hok.
  intros (Hsys & Hlk & _ & Hroom & _) Ht Hlen Hne Hfl. unfold dothesdb.
  destruct (text_db (e_now e)) as (s0 & db & -> & Eld & Hi & Hv & Hlast). rewrite lock_name by done.
  rewrite Hlk. cbn [negb]. rewrite lookup_insert_ne, Ht, Eld by done. cbn [negb]. unfold mret, M_ret.
  destruct (sync_of_pairs (e_sys e) (λ d, text_into (e_now e) (Some d)) db out (<[out ++ str ".lock" := default [] ((λ p, p ++ [10]) <$> sdb_itoa (e_pid e) 10 (Some 64))]> (t_files t)) Hsys Hroom Hi Hv Hlast) as (img & s' & kvs & -> & Hf & Him & Hpk & Hp).
  rewrite Hf. rewrite bool_decide_true by done. cbn [orb]. by exists img, kvs.
Qed.
End text.

(** ** Names *)

Definition out_prefix (out : option bytes) : bytes := match out with Some d => d ++ [SLASH] | None => [] end.

Lemma is_text_split f : is_text f = true → ∃ x, x ≠ [] ∧ f = x ++ SUFFIX.
Proof.
  unfold is_text. intros [Hl%Nat.ltb_lt Hs%Z.eqb_eq]%andb_true_iff. apply strcmp_eq in Hs. exists (take (length f - 8) f).
  split; [|by rewrite <- Hs, take_drop]. intros E%(f_equal length). rewrite length_take in E. cbn in E. lia.
Qed.

Lemma sdb_name_eq x out : sdb_name (x ++ SUFFIX) out = (out_prefix out ++ x) ++ str ".sdb".
Proof.
  unfold sdb_name, out_prefix. change SUFFIX with (str ".sdb" ++ str ".txt"). rewrite app_assoc, length_app. change (length (str ".txt")) with 4%nat.
  rewrite Nat.add_sub, take_app_length. destruct out as [d|]; [|done]. by rewrite <- !app_assoc.
Qed.

Lemma c_name_eq p : c_name (p ++ str ".sdb") = p ++ str ".c".
Proof.
  unfold c_name. change (str ".sdb") with (str "." ++ str "sdb"). rewrite app_assoc, length_app. change (length (str "sdb")) with 3%nat.
  rewrite (proj2 (Nat.leb_le 3 _)) by lia. rewrite Nat.add_sub, take_app_length. by rewrite <- app_assoc.
Qed.

Lemma ends_ne (a b u v : bytes) : is_Some (list.last u) → is_Some (list.last v) → list.last u ≠ list.last v → a ++ u ≠ b ++ v.
Proof. intros [x Hx] [y Hy] Hne E%(f_equal list.last). rewrite !last_app, Hx, Hy in E. congruence. Qed.

(** What the work on a text touches, and what shows that it is done. *)
Definition touched (f : bytes) (out : option bytes) : list bytes :=
  let s := sdb_name f out in [c_name s; s; s ++ str ".tmp"; s ++ str ".lock"].
Definition results (f : bytes) (out : option bytes) : list bytes := let s := sdb_name f out in [f; c_name s; s].

Ltac by_end := apply ends_ne; [eexists; reflexivity|eexists; reflexivity|intros Hend; vm_compute in Hend; discriminate Hend].

Lemma text_untouched f g out : is_text f = true → is_text g = true → f ∉ touched g out.
Proof.
  intros (x & _ & ->)%is_text_split (y & _ & ->)%is_text_split. unfold touched. rewrite sdb_name_eq, c_name_eq. change SUFFIX with (str ".sdb.txt").
  rewrite !not_elem_of_cons. split_and!; try by_end. apply not_elem_of_nil.
Qed.

Lemma results_apart f g out : is_text f = true → is_text g = true → f ≠ g → ∀ h, h ∈ results f out → h ∉ touched g out.
Proof.
  intros Hf Hg Hne h. pose proof (text_untouched f g out Hf Hg) as Ht. apply is_text_split in Hf as (x & _ & ->), Hg as (y & _ & ->).
  assert (x ≠ y) as Hxy by congruence. unfold results. rewrite sdb_name_eq, c_name_eq. intros [->|[->|[->|[]%not_elem_of_nil]%elem_of_cons]%elem_of_cons]%elem_of_cons; [done|..];
    unfold touched; rewrite sdb_name_eq, c_name_eq, !not_elem_of_cons; split_and!; try by_end; try (apply not_elem_of_nil).
  - intros E%app_inv_tail%app_inv_head. done.
  - intros E%app_inv_tail%app_inv_head. done.
Qed.

(** ** One text *)

(** A file that [sdb_open] opens, wherever it is, as a database with the given values. *)
Definition opens_as (img : bytes) (values : bytes → option bytes) : Prop :=
  ∀ sys text_load file fs, mmap_ok sys = true → fs !! file = Some img →
  ∃ c0 s, sdb_new0 = Some c0 ∧ sdb_open sys text_load file (fresh_fs c0 fs) = (true, s)
    ∧ ∀ now k, key_ok k → (sdb_get now (Some k) (core s)).1.1 = values k.

(** The outputs answer as the pairs: the table of the source, searched from the start, and
    the database, opened. *)
Definition outputs_ok (t : ToolFs) (f : bytes) (out : option bytes) (pairs : list (bytes * bytes)) : Prop :=
  (∃ src l, t_files t !! c_name (sdb_name f out) = Some src ∧ c_kvs src = Some l ∧ ∀ k, first_value l k = first_value pairs k)
  ∧ ∃ img, t_files t !! sdb_name f out = Some img ∧ opens_as img (first_value pairs).

(** An output that is there and not older than its text, or the opposite. *)
Definition stale (t : ToolFs) (f o : bytes) : bool := negb (file_exists t o) || is_newer t f o.

Definition agree (t t' : ToolFs) (g : bytes) : Prop := t_files t !! g = t_files t' !! g ∧ t_times t !! g = t_times t' !! g.

Lemma stale_agree t t' f o : agree t t' f → agree t t' o → stale t f o = stale t' f o.
Proof. intros [Hf Hf'] [Ho Ho']. unfold stale, file_exists, is_newer. by rewrite Hf, Ho, Hf', Ho'. Qed.

Lemma outputs_agree t t' f out pairs :
  agree t t' (c_name (sdb_name f out)) → agree t t' (sdb_name f out) → outputs_ok t f out pairs → outputs_ok t' f out pairs.
Proof. intros [Hc _] [Hs _]. unfold outputs_ok. by rewrite Hc, Hs. Qed.

Lemma stale_written t f o b : t_files t !! o = Some b → default 0 (t_times t !! f) <= default 0 (t_times t !! o) → stale t f o = false.
Proof.
  intros Ho Hle. unfold stale, file_exists, is_newer. rewrite Ho. rewrite bool_decide_true by done. cbn [negb orb].
  destruct (t_files t !! f); [|done]. by apply Z.ltb_ge.
Qed.

Lemma dothething_fresh e t f mirror out :
  stale t f (c_name (sdb_name f out)) = false → stale t f (sdb_name f out) = false → dothething e t f mirror out = (true, t).
Proof. intros Hc Hs. unfold dothething, stale in *. by rewrite Hc, Hs. Qed.

Lemma image_answers kvs img pairs subs :
  text_ok pairs subs → image_ok kvs img → Forall pair_ok kvs → kvs ≡ₚ pairs → opens_as img (first_value pairs).
Proof.
  intros Hok Him Hpk Hp sys text_load file fs Hmm Hfs. destruct (sdb_new0_ok 0) as (c0 & E0 & Hi0 & Hv0 & _); [done|].
  pose proof (image_size_perm kvs pairs Hp) as Hsz. pose proof (to_size _ _ Hok) as Hlt. assert (to_map (ht c0) = ∅) as Hm by (by apply new0_empty).
  destruct (sdb_open_ok sys text_load (fresh_fs c0 fs) file img kvs 0) as (s & E & Hi & Hht & _); [done| |done|done|done|lia|done|].
  { rewrite (text_check_image kvs img Him), (records_perm kvs pairs Hp) by lia. apply Hok. }
  exists c0, s. split_and!; [done|done|]. intros now k Hk. destruct (get_disk now kvs 0 (core s) k Hi (key_ok_u32 k Hk)) as (c & s' & -> & _). cbn [fst].
  unfold dview. rewrite Hht. cbn [core fresh_fs]. rewrite Hm, lookup_empty. apply first_value_perm; [|done]. rewrite Hp. apply Hok.
Qed.

Lemma dothething_ok e t f out pairs subs :
  is_text f = true → file_name f → text_ok pairs subs → env_ok pairs e f false → t_files t !! f = Some (tree_text [] (Tree pairs subs)) →
  slen (sdb_name f out) + 6 <= SDB_MAX_PATH → default 0 (t_times t !! f) <= e_now e →
  stale t f (c_name (sdb_name f out)) = true → stale t f (sdb_name f out) = true →
  ∃ t', dothething e t f false out = (true, t') ∧ outputs_ok t' f out pairs
    ∧ stale t' f (c_name (sdb_name f out)) = false ∧ stale t' f (sdb_name f out) = false ∧ ∀ g, g ∉ touched f out → agree t t' g.
Proof.
  intros Htx Hf Hok He Ht Hlen Htime Hsc Hss. pose proof (text_untouched f f out Htx Htx) as Hun. unfold dothething. fold (stale t f (c_name (sdb_name f out))). rewrite Hsc.
  destruct (dothec_ok pairs subs Hok e t f (c_name (sdb_name f out)) false Hf He Ht) as (src & -> & Hk).
  unfold outputs_ok, touched in *. apply is_text_split in Htx as (x & Hx & ->). rewrite sdb_name_eq, c_name_eq in *. set (s := (out_prefix out ++ x) ++ str ".sdb") in *. set (c := (out_prefix out ++ x) ++ str ".c") in *.
  set (f := x ++ SUFFIX) in *. rewrite !not_elem_of_cons in Hun. destruct Hun as (Hfc & Hfs & Hft & Hfl & _).
  assert (c ≠ s) as Hcs by (subst c s; by_end). set (t1 := mkTool _ _).
  assert (stale t1 f s = true) as Hs1.
  { rewrite <- Hss. symmetry. apply stale_agree; subst t1; split; cbn; by rewrite lookup_insert_ne. }
  fold (stale t1 f s). rewrite Hs1.
  destruct (dothesdb_ok pairs subs Hok e t1 f s false He) as (img & kvs & -> & Him & Hpk & Hp); [by cbn; rewrite lookup_insert_ne|done| |done|].
  { subst s. intros E%(f_equal length). rewrite length_app in E. cbn in E. lia. }
  cbn [andb]. set (t' := mkTool _ _). assert (c ≠ s ++ str ".tmp" ∧ c ≠ s ++ str ".lock" ∧ s ≠ s ++ str ".lock" ∧ s ++ str ".lock" ≠ s) as (H1 & H2 & H3 & H4) by (subst c s; split_and!; by_end).
  assert (t_files t' !! c = Some src) as Hc' by (cbn; by rewrite lookup_delete_ne, lookup_insert_ne, lookup_delete_ne, lookup_insert_ne, lookup_insert_eq by done).
  assert (t_files t' !! s = Some img) as Hs' by (cbn; by rewrite lookup_delete_ne, lookup_insert_eq by done).
  exists t'. split; [done|]. split; [|split_and!].
  - split; [|exists img; split; [done|by apply (image_answers kvs img pairs subs)]].
    exists src, (merge_sort key_le pairs ≫= mirrored false). split_and!; [done|done|]. intros k.
    assert (∀ l, l ≫= mirrored false = l) as -> by (intros l; induction l as [|kv l IH]; [done|]; rewrite bind_cons, IH; done).
    apply first_value_perm; [rewrite merge_sort_Permutation; apply Hok|apply merge_sort_Permutation].
  - apply (stale_written _ _ _ src); [done|]. cbn. rewrite !(lookup_insert_ne _ s) by done. rewrite lookup_insert_eq, lookup_insert_ne by done. done.
  - apply (stale_written _ _ _ img); [done|]. cbn. rewrite lookup_insert_eq, !lookup_insert_ne by done. done.
  - intros g Hg. rewrite !not_elem_of_cons in Hg. destruct Hg as (Hg1 & Hg2 & Hg3 & Hg4 & _). split; cbn.
    + by rewrite lookup_delete_ne, lookup_insert_ne, lookup_delete_ne, !lookup_insert_ne by done.
    + by rewrite !lookup_insert_ne by done.
Qed.

(** ** A directory *)

Section directory.
Context (env : bytes → ToolEnv) (out : option bytes) (data : bytes → list (bytes * bytes) * list (bytes * SdbTree)).

(** A text whose outputs are missing or older, on a system that works. *)
Record ready (t : ToolFs) (f : bytes) : Prop := {
  rd_name : file_name f;
  rd_text : text_ok (data f).1 (data f).2;
  rd_env : env_ok (data f).1 (env f) f false;
  rd_file : t_files t !! f = Some (tree_text [] (Tree (data f).1 (data f).2));
  rd_len : slen (sdb_name f out) + 6 <= SDB_MAX_PATH;
  rd_time : default 0 (t_times t !! f) <= e_now (env f);
  rd_c : stale t f (c_name (sdb_name f out)) = true;
  rd_sdb : stale t f (sdb_name f out) = true
}.

Lemma ready_agree t t' f : (∀ h, h ∈ results f out → agree t t' h) → ready t f → ready t' f.
Proof.
  intros Ha [H1 H2 H3 H4 H5 H6 H7 H8]. assert (agree t t' f ∧ agree t t' (c_name (sdb_name f out)) ∧ agree t t' (sdb_name f out)) as (Hf & Hc & Hs).
  { unfold results in Ha. split_and!; apply Ha; set_solver. }
  split; [done..| |done| | |].
  - by rewrite <- (proj1 Hf).
  - by rewrite <- (proj2 Hf).
  - by rewrite <- (stale_agree t t').
  - by rewrite <- (stale_agree t t').
Qed.

Notation step := (λ '(success, t) file,
  if is_text file then let '(r, t) := dothething (env file) t file false out in (success && r, t) else (success, t)).

Lemma tool_loop entries t :
  NoDup entries → (∀ f, f ∈ entries → is_text f = true → ready t f) →
  ∃ t', foldl step (true, t) entries = (true, t')
    ∧ (∀ f, f ∈ entries → is_text f = true →
         outputs_ok t' f out (data f).1 ∧ stale t' f (c_name (sdb_name f out)) = false ∧ stale t' f (sdb_name f out) = false)
    ∧ ∀ g, (∀ f, f ∈ entries → is_text f = true → g ∉ touched f out) → agree t t' g.
Proof.
  intros Hnd. revert t. induction Hnd as [|f entries Hf Hnd IH]; intros t Hr; [by exists t; split_and!; [|set_solver|]|].
  cbn [foldl]. destruct (is_text f) eqn:Ex.
  2: { destruct (IH t) as (t' & E & Ho & Hg); [set_solver|]. exists t'. split; [done|]. split; [intros g [->|Hin]%elem_of_cons Hx; [congruence|by apply Ho]|]. set_solver. }
  destruct (Hr f) as [H1 H2 H3 H4 H5 H6 H7 H8]; [set_solver|done|].
  destruct (dothething_ok (env f) t f out _ _ Ex H1 H2 H3 H4 H5 H6 H7 H8) as (t1 & -> & Ho1 & Hc1 & Hs1 & Ha1). cbn [andb].
  destruct (IH t1) as (t' & E & Ho & Hg).
  { intros g Hin Hx. apply (ready_agree t); [|apply Hr; [set_solver|done]]. intros h Hh. apply Ha1.
    eapply results_apart; [exact Hx|exact Ex|by intros ->|exact Hh]. }
  exists t'. split; [done|]. split.
  - intros g [->|Hin]%elem_of_cons Hx; [|by apply Ho].
    assert (∀ h, h ∈ results f out → agree t1 t' h) as Ha.
    { intros h Hh. apply Hg. intros f' Hin' Hx'. eapply results_apart; [exact Ex|exact Hx'|by intros <-|exact Hh]. }
    assert (agree t1 t' f ∧ agree t1 t' (c_name (sdb_name f out)) ∧ agree t1 t' (sdb_name f out)) as (Haf & Hac & Has).
    { unfold results in Ha. split_and!; apply Ha; set_solver. }
    split_and!; [by apply (outputs_agree t1)|by rewrite <- (stale_agree t1)|by rewrite <- (stale_agree t1)].
  - intros g Hn. destruct (Ha1 g) as [Hf1 Hf2]; [apply Hn; [set_solver|done]|]. destruct (Hg g) as [Hg1 Hg2]; [intros; apply Hn; [set_solver|done]|].
    split; congruence.
Qed.
End directory.

Lemma tool_loop_fresh env out mirror entries t :
  (∀ f, f ∈ entries → is_text f = true → stale t f (c_name (sdb_name f out)) = false ∧ stale t f (sdb_name f out) = false) →
  foldl (λ '(success, t) file,
    if is_text file then let '(r, t) := dothething (env file) t file mirror out in (success && r, t) else (success, t)) (true, t) entries = (true, t).
Proof.
  induction entries as [|f entries IH]; intros Hf; [done|]. cbn [foldl]. destruct (is_text f) eqn:Ex; [|apply IH; set_solver].
  destruct (Hf f) as [Hc Hs]; [set_solver|done|]. rewrite dothething_fresh by done. cbn [andb]. apply IH. set_solver.
Qed.

(** * Properties *)


(** One text, with a quote in a value and a namespace. *)
Definition demo_pairs : list (bytes * bytes) := [(str "k", [97; 34; 98]); (str "c", str "1,2,3")].
Definition demo_subs : list (bytes * SdbTree) := [(str "n", Tree [(str "x", str "y")] [])].
Definition demo_env : ToolEnv := mkEnv 7 0 100 true demo_sys true 5000 5000.
Definition demo_dir : ToolFs := mkTool {[str "a.sdb.txt" := tree_text [] (Tree demo_pairs demo_subs)]} {[str "a.sdb.txt" := 5]}.

Lemma demo_ready : ready (λ _, demo_env) None (λ _, (demo_pairs, demo_subs)) demo_dir (str "a.sdb.txt").
Proof.
  split; cbn [fst snd].
  - split; [literal|apply (bool_decide_unpack _); vm_compute; exact I].
  - split.
    + repeat (constructor; cbn); try done; unfold is_char; cbn; lia.
    + apply (bool_decide_unpack _); vm_compute; exact I.
    + repeat constructor; vm_compute; congruence.
    + vm_compute. reflexivity.
    + vm_compute. reflexivity.
  - split_and!; [exact demo_sys_ok|done|done|vm_compute; congruence|]. intros src E.
    assert (length <$> c_source (e_junk demo_env) (str "a.sdb.txt") false (merge_sort key_le demo_pairs) = Some 1083%nat) as El by (vm_compute; reflexivity).
    rewrite E in El. injection El as El. cbn. lia.
  - reflexivity.
  - vm_compute. congruence.
  - vm_compute. congruence.
  - vm_compute. reflexivity.
  - vm_compute. reflexivity.
Qed.


(** In mirror mode the source has for each pair, but for the key [_], a second entry, from
    the value with its first comma turned into a dot and cut at the second. *)
Theorem sdb_tool_mirror_source pairs subs e t f out :
  text_ok pairs subs → file_name f → env_ok pairs e f true → t_files t !! f = Some (tree_text [] (Tree pairs subs)) →
  ∃ src t', dothec e t f out true = (true, t') ∧ t_files t' !! out = Some src
    ∧ c_kvs src = Some (merge_sort key_le pairs ≫= λ kv, kv :: if bool_decide (kv.1 = str "_") then [] else [(dot_commas kv.2, kv.1)]).
Proof.
  intros Hok Hf He Ht. destruct (dothec_ok pairs subs Hok e t f out true Hf He Ht) as (src & E & Hk). eexists src, _. split; [exact E|].
  split; [by cbn; rewrite lookup_insert_eq|]. rewrite Hk. f_equal. apply list_bind_ext; [|done]. intros kv. unfold mirrored. cbn [andb]. by destruct (bool_decide _).
Qed.

(** ** What goes wrong *)

(** [mirror_sdb] sets strings that were escaped for C: the value a"b is stored as a key
    with a backslash, and asking for a"b finds nothing. *)
Theorem sdb_tool_mirror_escapes :
  ∃ s0, sdb_new0 = Some s0 ∧
    let s := (mirror_sdb 0 (set_pairs 0 [(str "k", [97; 34; 98])] s0).2).2 in
    (sdb_get 0 (Some [97; 34; 98]) s).1.1 = None ∧ (sdb_get 0 (Some [97; 92; 34; 98]) s).1.1 = Some (str "k").
Proof.
  destruct (sdb_new0_ok 5) as (s0 & E & _); [done|]. exists s0. split; [done|].
  assert ((λ s0, let s := (mirror_sdb 0 (set_pairs 0 [(str "k", [97; 34; 98])] s0).2).2 in
    ((sdb_get 0 (Some [97; 34; 98]) s).1.1, (sdb_get 0 (Some [97; 92; 34; 98]) s).1.1)) <$> sdb_new0 = Some (None, Some (str "k"))) as H by (vm_compute; reflexivity).
  rewrite E in H. injection H as H1 H2. done.
Qed.

(** [dothec] looks at what [fwrite] took and not at [fclose]: it reports success for a source
    of which nothing reached the disk, and leaves an empty file that is not built again. *)
Theorem sdb_tool_lost_source pairs subs e t f out :
  text_ok pairs subs → file_name f → env_ok pairs e f false → t_files t !! f = Some (tree_text [] (Tree pairs subs)) →
  f ≠ out → default 0 (t_times t !! f) <= e_now e →
  let e' := mkEnv (e_now e) (e_junk e) (e_pid e) (e_locked e) (e_sys e) true (c_written e) 0 in
  ∃ t', dothec e' t f out false = (true, t') ∧ t_files t' !! out = Some [] ∧ stale t' f out = false.
Proof.
  intros Hok Hf He Ht Hne Htime e'. destruct (dothec_ok pairs subs Hok e t f out false Hf He Ht) as (src & E & _).
  destruct He as (_ & _ & Ho & _). unfold dothec in *. cbn [e' e_now e_junk c_open_ok c_written c_stored negb] in *.
  destruct sdb_new0 as [db|]; [|done]. destruct (text_into _ _ db) as [ok db1]. destruct (negb ok); [done|]. destruct (sdb_foreach_list true db1) as [l db2].
  destruct (c_source _ _ _ l) as [content|]; [|done]. rewrite Ho in E. cbn [negb] in E. injection E as E _.
  eexists. split; [by rewrite E|]. rewrite take_0. cbn [t_files]. rewrite lookup_insert_eq. split; [done|].
  apply (stale_written _ _ _ []); cbn; [by rewrite lookup_insert_eq|]. rewrite lookup_insert_eq, lookup_insert_ne by done. done.
Qed.
