(* ===== verification/Diff.v ===== *)
(** * Comparing databases ([src/diff.c])

    The comparison walks two databases and their namespaces together, in the world of
    [Ns], and hands each difference to a callback, or stops at the first one when there is
    no callback.  The callback only records what it is given.  [sdb_foreach] is run to the
    end before its pairs are compared: comparing does not change the database it walks. *)

From S2P Require Import Prelude Util Ht HashTables Buffer CdbMake CdbTables Cdb SdbCore Num StrBuf Base64 Match SdbIter Ns NsRefs NsPath.

(** ** Formatting *)

Record SdbDiff := mkDiff { d_path : list bytes; d_k : bytes; d_v : option bytes; d_add : bool }.

(** The memory at [str] and the position in it; [None] when only the length is measured.
    [snprintf] writes what fits, and a terminator. *)
Record fmt_state := mkFmt { f_mem : bytes; f_pos : Z; f_size : Z; f_r : Z }.

Definition APPENDF (t : bytes) (s : fmt_state) : option fmt_state :=
  mem ← (if 0 <? f_size s then mem_write (f_mem s) (f_pos s) (take (Z.to_nat (f_size s - 1)) t ++ [0]) else Some (f_mem s));
  Some (if f_size s <=? slen t then mkFmt mem 0 0 (f_r s + slen t) else mkFmt mem (f_pos s + slen t) (f_size s - slen t) (f_r s + slen t)).

Fixpoint append_path (path : list bytes) (s : fmt_state) : option fmt_state :=
  match path with [] => Some s | c :: path' => s ← APPENDF (c ++ [chr "/"]) s; append_path path' s end.

(** The value returned and the memory afterwards. *)
Definition sdb_diff_format (mem : bytes) (size : Z) (d : SdbDiff) : option (Z * bytes) :=
  s ← APPENDF ([if d_add d then chr "+" else chr "-"] ++ (match d_v d with Some _ => str "  " | None => str "NS" end) ++ [32]) (mkFmt mem 0 size 0);
  s ← append_path (d_path d) s;
  s ← APPENDF (match d_v d with Some v => d_k d ++ [chr "="] ++ v | None => d_k d end) s;
  Some (f_r s, f_mem s).

(** ** Comparing *)

(** [cb] says whether there is a callback; the reports are what it was called with. *)
Record DCtx := mkCtx { d_equal : bool; reports : list SdbDiff }.

Definition DM (A : Type) : Type := DCtx → W (A * DCtx).
#[export] Instance DM_ret : MRet DM := λ A a c, mret (a, c).
#[export] Instance DM_bind : MBind DM := λ A B k m c, r ← m c; k r.1 r.2.

Definition dlift {A} (m : W A) : DM A := λ c, a ← m; mret (a, c).

(** An operation of the database at [i], which is a pointer that may be NULL. *)
Definition on_sdb {A} (i : id) (m : M A) : W A := λ w,
  match dbs w !! i with
  | Some n => let '(a, s) := m (sdb n) in Ok a (mkWorld (<[i := set_sdb s n]> (dbs w)) (nss w))
  | None => Fault
  end.
Definition deref (o : option id) : W id := match o with Some i => mret i | None => λ _, Fault end.

Section diff.
Context (now : Z) (cb : bool).

Definition report (d : SdbDiff) : DM () := λ c, mret ((), mkCtx (d_equal c) (reports c ++ [d])).
Definition sdb_diff_report_ns (path : list bytes) (x : SdbNs) (add : bool) : DM () := report (mkDiff path (default [] (ns_name x)) None add).
Definition sdb_diff_report_kv (path : list bytes) (k v : bytes) (add : bool) : DM () := report (mkDiff path k (Some v) add).

(** [DIFF]: whether to go on. *)
Definition DIFF (c : DM ()) : DM bool := λ ctx,
  (if cb then _ ← c; mret true else mret false) (mkCtx false (reports ctx)).

Fixpoint report_pairs (path : list bytes) (add : bool) (l : list (bytes * bytes)) : DM () :=
  match l with [] => mret () | (k, v) :: l' => _ ← sdb_diff_report_kv path k v add; report_pairs path add l' end.

(** The loop over the namespaces; [rec] is the recursive call. *)
Fixpoint report_each (rec : list bytes → id → bool → DM ()) (path : list bytes) (add : bool) (es : list id) : DM () :=
  match es with
  | [] => mret ()
  | e :: es' =>
      x ← dlift (load_ns e);
      _ ← sdb_diff_report_ns path x add;
      c ← dlift (deref (ns_sdb x));
      _ ← rec (path ++ [default [] (ns_name x)]) c add;
      report_each rec path add es'
  end.

Fixpoint sdb_diff_report (fuel : nat) (path : list bytes) (s : id) (add : bool) : DM () :=
  match fuel with
  | O => dlift no_fuel
  | S fuel' =>
      n ← dlift (load_db s);
      _ ← report_each (sdb_diff_report fuel') path add (entries n);
      l ← dlift (on_sdb s sdb_foreach_pairs);
      report_pairs path add l
  end.

(** [sdb_diff_kv_cb] over the pairs: [false] when the walk was stopped. *)
Fixpoint diff_kv_cb (path : list bytes) (other : id) (add : bool) (l : list (bytes * bytes)) : DM bool :=
  match l with
  | [] => mret true
  | (k, v) :: l' =>
      r ← dlift (on_sdb other (const_str now (Some k)));
      go ← match r.1 with
           | None | Some [] => DIFF (sdb_diff_report_kv path k v add)
           | Some ov =>
               if negb add && negb (bool_decide (v = ov))
               then DIFF (_ ← sdb_diff_report_kv path k v false; sdb_diff_report_kv path k ov true) else mret true
           end;
      if (go : bool) then diff_kv_cb path other add l' else mret false
  end.

Definition find_same (s : id) (x : SdbNs) : W (option id) :=
  match ns_name x with None => mret None | Some nm => sdb_ns (Some s) nm false end.

(** A namespace that the other one does not have. *)
Definition report_missing (fuel : nat) (path : list bytes) (x : SdbNs) (add : bool) : DM bool :=
  DIFF (_ ← sdb_diff_report_ns path x add;
        c ← dlift (deref (ns_sdb x));
        sdb_diff_report fuel (path ++ [default [] (ns_name x)]) c add).

(** The loop over the namespaces of [a], and the one over those of [b]: [false] when the
    function returns from it. *)
Fixpoint diff_of_a (rec : list bytes → id → id → DM ()) (fuel : nat) (path : list bytes) (b : id) (es : list id) : DM bool :=
  match es with
  | [] => mret true
  | e :: es' =>
      x ← dlift (load_ns e);
      o ← dlift (find_same b x);
      match o with
      | None => go ← report_missing fuel path x false; if (go : bool) then diff_of_a rec fuel path b es' else mret false
      | Some b_ns =>
          a_ns ← dlift (deref (ns_sdb x));
          _ ← rec (path ++ [default [] (ns_name x)]) a_ns b_ns;
          diff_of_a rec fuel path b es'
      end
  end.

Fixpoint diff_of_b (fuel : nat) (path : list bytes) (a : id) (es : list id) : DM bool :=
  match es with
  | [] => mret true
  | e :: es' =>
      x ← dlift (load_ns e);
      o ← dlift (find_same a x);
      match o with
      | None => go ← report_missing fuel path x true; if (go : bool) then diff_of_b fuel path a es' else mret false
      | Some _ => diff_of_b fuel path a es'
      end
  end.

(** The pairs of both. *)
Definition diff_pairs (path : list bytes) (a b : id) : DM () :=
  l ← dlift (on_sdb a sdb_foreach_pairs);
  go ← diff_kv_cb path b false l;
  if negb go then mret ()
  else
    l ← dlift (on_sdb b sdb_foreach_pairs);
    _ ← diff_kv_cb path a true l; mret ().

Fixpoint sdb_diff_ctx (fuel : nat) (path : list bytes) (a b : id) : DM () :=
  match fuel with
  | O => dlift no_fuel
  | S fuel' =>
      na ← dlift (load_db a);
      go ← diff_of_a (sdb_diff_ctx fuel') fuel' path b (entries na);
      if negb go then mret ()
      else
        nb ← dlift (load_db b);
        go ← diff_of_b fuel' path a (entries nb);
        if negb go then mret () else diff_pairs path a b
  end.

Definition sdb_diff (fuel : nat) (a b : id) : W (bool * list SdbDiff) :=
  r ← sdb_diff_ctx fuel [] a b (mkCtx true []);
  mret (d_equal r.2, reports r.2).
End diff.
