(* ===== verification/DiffFacts.v ===== *)
(** * What comparing databases finds

    [sdb_diff] of databases in memory whose namespaces form no cycle says whether they have
    the same contents, and what it reports turns the one into the other; [sdb_diff_format]
    writes as [snprintf] does. *)

From S2P Require Import Prelude Util Ht HashTables Buffer CdbMake CdbTables Cdb SdbCore Num StrBuf Base64 Match SdbIter Ns NsRefs NsPath Diff.

(** ** Running *)

Lemma dbind_ok {A B} (m : DM A) (k : A → DM B) c w a c' w' : m c w = Ok (a, c') w' → (m ≫= k) c w = k a c' w'.
Proof. intros E. unfold mbind, DM_bind. unfold mbind, W_bind. by rewrite E. Qed.

Lemma dlift_ok {A} (m : W A) c w a w' : m w = Ok a w' → dlift m c w = Ok (a, c) w'.
Proof. intros E. unfold dlift. unfold mbind, W_bind. by rewrite E. Qed.

(** ** Equal contents *)

(** The database of the first entry with a hash. *)
Fixpoint child_of (m : gmap id SdbNs) (h : Z) (l : list id) : option id :=
  match l with
  | [] => None
  | e :: l' => match m !! e with Some x => if ns_hash x =? h then ns_sdb x else child_of m h l' | None => child_of m h l' end
  end.

Definition name_of (x : SdbNs) : bytes := default [] (ns_name x).
Definition same_ns (w : World) (x : SdbNs) (n : Node) : option id := child_of (nss w) (sdb_hash (name_of x)) (entries n).

(** The same keys with the same values, the same namespaces, and in these again. *)
Inductive tree_eq (w : World) : id → id → Prop :=
| tree_eq_intro a b na nb :
    dbs w !! a = Some na → dbs w !! b = Some nb →
    (∀ e x ca, e ∈ entries na → nss w !! e = Some x → ns_sdb x = Some ca → ∃ cb, same_ns w x nb = Some cb ∧ tree_eq w ca cb) →
    (∀ e x, e ∈ entries nb → nss w !! e = Some x → is_Some (same_ns w x na)) →
    view (sdb na) = view (sdb nb) → tree_eq w a b.

(** The depth of the namespaces below a database. *)
Fixpoint shallow (w : World) (n : nat) (i : id) : Prop :=
  match n with
  | O => False
  | S n' => ∀ nd e x c, dbs w !! i = Some nd → e ∈ entries nd → nss w !! e = Some x → ns_sdb x = Some c → shallow w n' c
  end.

(** Entries lead to databases and have names. *)
Definition linked (w : World) : Prop := ∀ i n e, dbs w !! i = Some n → e ∈ entries n →
  ∃ x nm c, nss w !! e = Some x ∧ ns_name x = Some nm ∧ hd0 nm ≠ 0 ∧ ns_sdb x = Some c ∧ is_Some (dbs w !! c).

(** What walking a database may change. *)
Definition wsame (w w' : World) : Prop :=
  nss w' = nss w ∧ ∀ i n, dbs w !! i = Some n → ∃ s, dbs w' !! i = Some (set_sdb s n) ∧ same_core (sdb n) s.

#[global] Instance wsame_preorder : PreOrder wsame.
Proof.
  split.
  - intros w. split; [done|]. intros i n Hn. exists (sdb n). split; [|done]. rewrite Hn. by destruct n.
  - intros w1 w2 w3 [H1 H2] [K1 K2]. split; [by etrans|]. intros i n Hn. destruct (H2 i n Hn) as (s & Hs & Hc).
    destruct (K2 _ _ Hs) as (s' & Hs' & Hc'). exists s'. split; [done|]. by etrans.
Qed.

(** The state of a comparison after a part of it, where [P] says that the part is equal. *)
Definition outcome (P : Prop) (c c' : DCtx) : Prop := (P ∧ c' = c) ∨ (¬ P ∧ d_equal c' = false).

#[global] Instance outcome_proper : Proper (iff ==> (=) ==> (=) ==> iff) outcome.
Proof. intros P Q HPQ c ? <- c' ? <-. unfold outcome. tauto. Qed.

Lemma outcome_iff P Q c c' : (P ↔ Q) → outcome P c c' → outcome Q c c'.
Proof. by intros ->. Qed.

Lemma outcome_seq P Q c c1 c2 : outcome P c c1 → outcome Q c1 c2 → outcome (P ∧ Q) c c2.
Proof. intros [[HP ->]|[HP E]] [[HQ ->]|[HQ E']]; [left|right|right|right]; tauto. Qed.

Lemma outcome_stop P Q c c' : ¬ P → d_equal c' = false → outcome (P ∧ Q) c c'.
Proof. intros HP E. right. tauto. Qed.

Section facts.
Context (now : Z) (cb : bool) (w0 : World) (m : nat).
Context (Hlink : linked w0) (Hmem : ∀ i n, dbs w0 !! i = Some n → mem_inv m (sdb n)).

Lemma wsame_load w i n : wsame w0 w → dbs w0 !! i = Some n →
  ∃ n', dbs w !! i = Some n' ∧ load_db i w = Ok n' w ∧ entries n' = entries n ∧ view (sdb n') = view (sdb n) ∧ mem_inv m (sdb n').
Proof.
  intros [_ Hd] Hn. destruct (Hd i n Hn) as (s & Hs & Hc). exists (set_sdb s n). split_and!; [done| |done|by apply view_core|eapply mem_inv_core; [exact Hc|by eapply Hmem]].
  unfold load_db. by rewrite Hs.
Qed.

Lemma wsame_ns w e x : wsame w0 w → nss w0 !! e = Some x → load_ns e w = Ok x w.
Proof. intros [Hn _] Hx. unfold load_ns. by rewrite Hn, Hx. Qed.

(** Walking a database. *)
Lemma pairs_run w i n : wsame w0 w → dbs w0 !! i = Some n →
  ∃ l w', on_sdb i sdb_foreach_pairs w = Ok l w' ∧ l ≡ₚ map_to_list (view (sdb n)) ∧ wsame w0 w'.
Proof.
  intros Hw Hn. destruct (wsame_load w i n Hw Hn) as (n' & Hn' & _ & _ & Hv & Hi). destruct (foreach_pairs_mem m (sdb n') Hi) as (l & s' & E & Hp & Hc).
  exists l, (mkWorld (<[i := set_sdb s' n']> (dbs w)) (nss w)). split_and!; [unfold on_sdb; by rewrite Hn', E|by rewrite <- Hv|].
  etrans; [exact Hw|]. split; [done|]. intros j nj Hj. cbn [dbs]. destruct (decide (i = j)) as [<-|Hne].
  - rewrite lookup_insert_eq. replace nj with n' by congruence. by exists s'.
  - rewrite lookup_insert_ne by done. exists (sdb nj). split; [|done]. rewrite Hj. by destruct nj.
Qed.

Lemma const_run w i n k : wsame w0 w → dbs w0 !! i = Some n → ∃ c, on_sdb i (const_str now (Some k)) w = Ok (view (sdb n) !! k, c) w.
Proof.
  intros Hw Hn. destruct (wsame_load w i n Hw Hn) as (n' & Hn' & _ & _ & Hv & Hi).
  assert (const_str now (Some k) (sdb n') = ((view (sdb n') !! k, match view (sdb n') !! k with Some _ => cas_of (sdb n') k | None => 0 end), sdb n')) as Er.
  { unfold const_str, sdb_const_get; run_m. rewrite (get_mem now m _ k Hi). destruct (view (sdb n') !! k) as [v|] eqn:Ev; [|done].
    cbn. by rewrite cstr_app_nul by apply (view_cstr m _ k v Hi Ev). }
  eexists. unfold on_sdb. rewrite Hn', Er, <- Hv. replace (set_sdb (sdb n') n') with n' by (by destruct n'). rewrite insert_id by done. by destruct w.
Qed.

Lemma find_child f h l d mm :
  (∀ e, e ∈ l → is_Some (mm !! e)) → f = has_hash h → ∃ o, find_ns f l (mkWorld d mm) = Ok o (mkWorld d mm)
    ∧ match o with Some (_, x) => child_of mm h l = ns_sdb x | None => child_of mm h l = None end.
Proof.
  intros Hl ->. induction l as [|e l IH]; [by exists None|]. destruct (Hl e) as [x Hx]; [by left|]. destruct IH as (o & Eo & Ho); [intros; apply Hl; by right|].
  cbn [find_ns child_of]. erewrite bind_ok by (by apply load_ns_ok). rewrite Hx. unfold has_hash at 1. destruct (ns_hash x =? h); [by exists (Some (e, x))|by exists o].
Qed.

Lemma same_run w s n x nm :
  wsame w0 w → dbs w0 !! s = Some n → ns_name x = Some nm → hd0 nm ≠ 0 → find_same s x w = Ok (same_ns w0 x n) w.
Proof.
  intros Hw Hn Hnm Hne. destruct (wsame_load w s n Hw Hn) as (n' & Hn' & El & He & _). unfold find_same, same_ns, name_of. rewrite Hnm. cbn [default from_option]. change (Datatypes.id nm) with nm.
  unfold sdb_ns. rewrite (proj2 (Z.eqb_neq _ _)) by done. cbn zeta. rewrite (bind_ok _ _ _ _ _ El). rewrite He. destruct w as [d mm], Hw as [Hns _]. cbn [nss] in Hns. subst mm.
  destruct (find_child (has_hash (sdb_hash nm)) (sdb_hash nm) (entries n) d (nss w0)) as (o & Eo & Ho); [|done|].
  { intros e Hin. destruct (Hlink s n e Hn Hin) as (y & _ & _ & Hy & _). by eexists. }
  rewrite (bind_ok _ _ _ _ _ Eo). destruct o as [[e y]|]; by rewrite Ho.
Qed.

Lemma same_live s n x c : dbs w0 !! s = Some n → same_ns w0 x n = Some c → ∃ e y, e ∈ entries n ∧ nss w0 !! e = Some y ∧ ns_sdb y = Some c.
Proof.
  intros Hn. unfold same_ns. generalize (sdb_hash (name_of x)) as h. intros h. assert (∀ e, e ∈ entries n → is_Some (nss w0 !! e)) as Hl.
  { intros e Hin. destruct (Hlink s n e Hn Hin) as (y & _ & _ & Hy & _). by eexists. }
  clear Hn. induction (entries n) as [|e l IH]; cbn [child_of]; [done|]. destruct (Hl e) as [y Hy]; [by left|]. rewrite Hy. case_if.
  - intros Hc. exists e, y. by split_and!; [left|..].
  - intros Hc. destruct IH as (e' & y' & ? & ? & ?); [intros; apply Hl; by right|done|]. exists e', y'. by split_and!; [right|..].
Qed.

(** Reporting a whole database goes through and leaves the verdict alone. *)
Lemma report_pairs_run path add l c w : ∃ c', report_pairs path add l c w = Ok ((), c') w ∧ d_equal c' = d_equal c.
Proof. revert c. induction l as [|[k v] l IH]; intros c; [by exists c|]. destruct (IH (mkCtx (d_equal c) (reports c ++ [mkDiff path k (Some v) add]))) as (c' & E & He). by exists c'. Qed.

Lemma report_run fuel path s n add c w :
  shallow w0 fuel s → dbs w0 !! s = Some n → wsame w0 w → ∃ c' w', sdb_diff_report fuel path s add c w = Ok ((), c') w' ∧ d_equal c' = d_equal c ∧ wsame w0 w'.
Proof.
  revert path s n c w. induction fuel as [|fuel IH]; intros path s n c w Hsh Hn Hw; [done|]. cbn [sdb_diff_report].
  destruct (wsame_load w s n Hw Hn) as (n' & Hn' & El & He & _). rewrite (dbind_ok _ _ _ _ _ _ _ (dlift_ok _ c _ _ _ El)). rewrite He.
  assert (∀ es, (∀ e, e ∈ es → e ∈ entries n) → ∀ c w, wsame w0 w →
    ∃ c' w', report_each (sdb_diff_report fuel) path add es c w = Ok ((), c') w' ∧ d_equal c' = d_equal c ∧ wsame w0 w') as Heach.
  { induction es as [|e es IHes]; intros Hin c1 w1 Hw1; [by exists c1, w1|]. cbn [report_each]. destruct (Hlink s n e Hn) as (x & nm & ch & Hx & Hnm & _ & Hc & [nc Hnc]); [apply Hin; by left|].
    rewrite (dbind_ok _ _ _ _ _ _ _ (dlift_ok _ c1 _ _ _ (wsame_ns w1 e x Hw1 Hx))).
    rewrite (dbind_ok _ _ _ _ () (mkCtx (d_equal c1) (reports c1 ++ [mkDiff path (default [] (ns_name x)) None add])) w1) by done.
    rewrite Hc. cbn [deref]. rewrite (dbind_ok _ _ _ _ ch (mkCtx (d_equal c1) (reports c1 ++ [mkDiff path (default [] (ns_name x)) None add])) w1) by done.
    destruct (IH (path ++ [default [] (ns_name x)]) ch nc (mkCtx (d_equal c1) (reports c1 ++ [mkDiff path (default [] (ns_name x)) None add])) w1) as (c2 & w2 & E2 & He2 & Hw2);
      [by eapply Hsh; [..|apply Hin; left| |]|done|done|].
    rewrite (dbind_ok _ _ _ _ _ _ _ E2). destruct (IHes ltac:(intros; apply Hin; by right) c2 w2 Hw2) as (c3 & w3 & E3 & He3 & Hw3). exists c3, w3. split_and!; [done|by rewrite He3, He2|done]. }
  destruct (Heach (entries n) ltac:(done) c w Hw) as (c1 & w1 & E1 & He1 & Hw1). rewrite (dbind_ok _ _ _ _ _ _ _ E1).
  destruct (pairs_run w1 s n Hw1 Hn) as (l & w2 & E2 & _ & Hw2). rewrite (dbind_ok _ _ _ _ _ _ _ (dlift_ok _ c1 _ _ _ E2)).
  destruct (report_pairs_run path add l c1 w2) as (c2 & E3 & He3). exists c2, w2. split_and!; [done|by rewrite He3|done].
Qed.

(** A difference was found. *)
Lemma diff_run (k : DM ()) c w :
  (∃ c' w', k (mkCtx false (reports c)) w = Ok ((), c') w' ∧ d_equal c' = false ∧ wsame w0 w') → wsame w0 w →
  ∃ c' w', DIFF cb k c w = Ok (cb, c') w' ∧ d_equal c' = false ∧ wsame w0 w'.
Proof.
  intros (c' & w' & E & He & Hw') Hw. unfold DIFF. destruct cb; [|by eexists _, w]. exists c', w'. split; [|done]. by rewrite (dbind_ok _ _ _ _ _ _ _ E).
Qed.

Lemma missing_run fuel path x ch n add c w :
  ns_sdb x = Some ch → dbs w0 !! ch = Some n → shallow w0 fuel ch → wsame w0 w →
  ∃ c' w', report_missing cb fuel path x add c w = Ok (cb, c') w' ∧ d_equal c' = false ∧ wsame w0 w'.
Proof.
  intros Hc Hn Hsh Hw. apply diff_run; [|done]. set (c1 := mkCtx false (reports c ++ [mkDiff path (default [] (ns_name x)) None add])).
  destruct (report_run fuel (path ++ [default [] (ns_name x)]) ch n add c1 w) as (c2 & w2 & E & He & Hw2); [done..|]. exists c2, w2. split; [|done].
  rewrite (dbind_ok _ _ _ _ () c1 w) by done. rewrite Hc. rewrite (dbind_ok _ _ _ _ ch c1 w) by done. done.
Qed.

(** Comparing the pairs of one database with the contents of the other. *)
Definition pair_ok (v2 : gmap bytes bytes) (add : bool) (kv : bytes * bytes) : Prop :=
  match v2 !! kv.1 with Some v => add = true ∨ kv.2 = v | None => False end.

Lemma kv_run path other n add l c w :
  dbs w0 !! other = Some n → wsame w0 w →
  ∃ go c' w', diff_kv_cb now cb path other add l c w = Ok (go, c') w' ∧ wsame w0 w' ∧ outcome (Forall (pair_ok (view (sdb n)) add) l) c c'
    ∧ (go = false → ¬ Forall (pair_ok (view (sdb n)) add) l ∧ d_equal c' = false).
Proof.
  intros Hn. revert c w. induction l as [|[k v] l IH]; intros c w Hw; [exists true, c, w; by split_and!; [| |left|]|]. cbn [diff_kv_cb].
  destruct (const_run w other n k Hw Hn) as [cs E]. rewrite (dbind_ok _ _ _ _ _ _ _ (dlift_ok _ c _ _ _ E)). cbn [fst].
  assert (∀ kk : DM (), (∃ c' w', kk (mkCtx false (reports c)) w = Ok ((), c') w' ∧ d_equal c' = false ∧ wsame w0 w') → ¬ pair_ok (view (sdb n)) add (k, v) →
    ∃ go c' w', (go ← DIFF cb kk; if (go : bool) then diff_kv_cb now cb path other add l else mret false) c w = Ok (go, c') w' ∧ wsame w0 w'
      ∧ outcome (Forall (pair_ok (view (sdb n)) add) ((k, v) :: l)) c c'
      ∧ (go = false → ¬ Forall (pair_ok (view (sdb n)) add) ((k, v) :: l) ∧ d_equal c' = false)) as Hdiff.
  { intros kk Hk Hnp. destruct (diff_run kk c w Hk Hw) as (c1 & w1 & E1 & He1 & Hw1). rewrite (dbind_ok _ _ _ _ _ _ _ E1). destruct cb.
    - destruct (IH c1 w1 Hw1) as (go & c2 & w2 & E2 & Hw2 & Ho & Hgo). exists go, c2, w2. rewrite Forall_cons. assert (d_equal c2 = false) by (destruct Ho as [[_ ->]|[_ ?]]; done).
      split_and!; [done|done|right; tauto|tauto].
    - exists false, c1, w1. rewrite Forall_cons. split_and!; [done|done|right; tauto|tauto]. }
  destruct (view (sdb n) !! k) as [ov|] eqn:Ev.
  - assert (ov ≠ []) as Hne by (eapply view_cstr; [by eapply Hmem|exact Ev]). destruct ov as [|o ov]; [done|].
    destruct (negb add && negb (bool_decide (v = o :: ov))) eqn:Ed.
    + apply andb_true_iff in Ed as [Ha Hv]. apply negb_true_iff in Ha, Hv. apply bool_decide_eq_false in Hv. apply Hdiff; [by eexists _, w|].
      unfold pair_ok. cbn [fst snd]. rewrite Ev. intros [?|?]; congruence.
    + rewrite (dbind_ok _ _ _ _ true c w) by done. destruct (IH c w Hw) as (go & c2 & w2 & E2 & Hw2 & Ho & Hgo). exists go, c2, w2. rewrite Forall_cons.
      assert (pair_ok (view (sdb n)) add (k, v)) as Hp.
      { unfold pair_ok. cbn [fst snd]. rewrite Ev. apply andb_false_iff in Ed as [Ed|Ed]; apply negb_false_iff in Ed; [by left|right; by apply bool_decide_eq_true in Ed]. }
      split_and!; [done|done|eapply outcome_iff; [|exact Ho]; tauto|tauto].
  - apply Hdiff; [by eexists _, w|]. unfold pair_ok. cbn [fst snd]. rewrite Ev. by intros [].
Qed.

(** ** The verdict *)

(** The namespaces of [a] that [b] has too are compared. *)
Definition of_a_ok (nb : Node) (e : id) : Prop := ∀ x ca, nss w0 !! e = Some x → ns_sdb x = Some ca → ∃ c, same_ns w0 x nb = Some c ∧ tree_eq w0 ca c.
Definition of_b_ok (na : Node) (e : id) : Prop := ∀ x, nss w0 !! e = Some x → is_Some (same_ns w0 x na).

Lemma pairs_equal (v1 v2 : gmap bytes bytes) l1 l2 :
  l1 ≡ₚ map_to_list v1 → l2 ≡ₚ map_to_list v2 → (Forall (pair_ok v2 false) l1 ∧ Forall (pair_ok v1 true) l2 ↔ v1 = v2).
Proof.
  intros H1 H2. rewrite H1, H2. split.
  - intros [HF1 HF2]. apply map_eq. intros k. rewrite !Forall_forall in *. destruct (v1 !! k) as [v|] eqn:E1.
    + specialize (HF1 (k, v) ltac:(by apply elem_of_map_to_list)). unfold pair_ok in HF1. cbn [fst snd] in HF1. destruct (v2 !! k); [|done]. destruct HF1 as [?|?]; congruence.
    + destruct (v2 !! k) as [v|] eqn:E2; [|done]. specialize (HF2 (k, v) ltac:(by apply elem_of_map_to_list)). unfold pair_ok in HF2. cbn [fst snd] in HF2. by rewrite E1 in HF2.
  - intros ->. split; apply Forall_forall; intros [k v] Hkv%elem_of_map_to_list; unfold pair_ok; cbn [fst snd]; rewrite Hkv; [by right|by left].
Qed.

Lemma diff_pairs_run path a b na nb c w :
  dbs w0 !! a = Some na → dbs w0 !! b = Some nb → wsame w0 w →
  ∃ c' w', diff_pairs now cb path a b c w = Ok ((), c') w' ∧ wsame w0 w' ∧ outcome (view (sdb na) = view (sdb nb)) c c'.
Proof.
  intros Ha Hb Hw. unfold diff_pairs. destruct (pairs_run w a na Hw Ha) as (l1 & w1 & E1 & Hp1 & Hw1). rewrite (dbind_ok _ _ _ _ _ _ _ (dlift_ok _ c _ _ _ E1)).
  destruct (kv_run path b nb false l1 c w1 Hb Hw1) as (go & c2 & w2 & E2 & Hw2 & Ho & Hgo). rewrite (dbind_ok _ _ _ _ _ _ _ E2).
  destruct go; cbn [negb].
  - destruct (pairs_run w2 b nb Hw2 Hb) as (l2 & w3 & E3 & Hp2 & Hw3). rewrite (dbind_ok _ _ _ _ _ _ _ (dlift_ok _ c2 _ _ _ E3)).
    destruct (kv_run path a na true l2 c2 w3 Ha Hw3) as (go & c4 & w4 & E4 & Hw4 & Ho4 & _). rewrite (dbind_ok _ _ _ _ _ _ _ E4).
    exists c4, w4. split_and!; [done|done|]. eapply outcome_iff; [|eapply outcome_seq; [exact Ho|exact Ho4]]. by apply pairs_equal.
  - destruct Hgo as [Hn He]; [done|]. exists c2, w2. split_and!; [done|done|]. eapply outcome_iff; [by apply pairs_equal|]. by apply outcome_stop.
Qed.

(** The loops over the namespaces. *)
Definition ctx_run (rec : list bytes → id → id → DM ()) (fuel : nat) : Prop := ∀ path a b na nb c w,
  shallow w0 fuel a → shallow w0 fuel b → dbs w0 !! a = Some na → dbs w0 !! b = Some nb → wsame w0 w →
  ∃ c' w', rec path a b c w = Ok ((), c') w' ∧ wsame w0 w' ∧ outcome (tree_eq w0 a b) c c'.

Lemma of_a_run rec fuel path a b na nb es c w :
  ctx_run rec fuel → shallow w0 (S fuel) a → shallow w0 (S fuel) b → dbs w0 !! a = Some na → dbs w0 !! b = Some nb → (∀ e, e ∈ es → e ∈ entries na) → wsame w0 w →
  ∃ go c' w', diff_of_a cb rec fuel path b es c w = Ok (go, c') w' ∧ wsame w0 w' ∧ outcome (Forall (of_a_ok nb) es) c c'
    ∧ (go = false → ¬ Forall (of_a_ok nb) es ∧ d_equal c' = false).
Proof.
  intros Hrec Ha Hb Hna Hnb. revert c w. induction es as [|e es IH]; intros c w Hin Hw; [exists true, c, w; by split_and!; [| |left|]|]. cbn [diff_of_a].
  destruct (Hlink a na e Hna) as (x & nm & ca & Hx & Hnm & Hne & Hc & [nca Hnca]); [apply Hin; by left|].
  rewrite (dbind_ok _ _ _ _ _ _ _ (dlift_ok _ c _ _ _ (wsame_ns w e x Hw Hx))).
  rewrite (dbind_ok _ _ _ _ _ _ _ (dlift_ok _ c _ _ _ (same_run w b nb x nm Hw Hnb Hnm Hne))).
  assert (shallow w0 fuel ca) as Hsca by (eapply Ha; [exact Hna|apply Hin; left|exact Hx|exact Hc]).
  setoid_rewrite Forall_cons. destruct (same_ns w0 x nb) as [bn|] eqn:Es.
  - rewrite Hc. rewrite (dbind_ok _ _ _ _ ca c w) by done. destruct (same_live b nb x bn Hnb Es) as (e2 & y & He2 & Hy & Hyc).
    destruct (Hlink b nb e2 Hnb He2) as (y' & _ & c' & Hy' & _ & _ & Hc' & [nbn Hnbn]). assert (y' = y ∧ c' = bn) as [-> ->] by (split; congruence).
    destruct (Hrec (path ++ [default [] (ns_name x)]) ca bn nca nbn c w) as (c1 & w1 & E1 & Hw1 & Ho1); [done|by eapply Hb|done|done|done|].
    rewrite (dbind_ok _ _ _ _ _ _ _ E1). destruct (IH c1 w1) as (go & c2 & w2 & E2 & Hw2 & Ho2 & Hgo); [intros; apply Hin; by right|done|].
    assert (tree_eq w0 ca bn ↔ of_a_ok nb e) as Hiff.
    { unfold of_a_ok. split; [intros Ht z cz Hz Hcz; exists bn; by replace z with x by congruence; replace cz with ca by congruence|].
      intros Hok. destruct (Hok x ca Hx Hc) as (c' & Hc2 & Ht). by replace bn with c' by congruence. }
    exists go, c2, w2. split_and!; [done|done|eapply outcome_iff; [|eapply outcome_seq; [exact Ho1|exact Ho2]]; tauto|tauto].
  - assert (¬ of_a_ok nb e) as Hno by (intros Hok; destruct (Hok x ca Hx Hc) as (c' & Hc2 & _); congruence).
    destruct (missing_run fuel path x ca nca false c w Hc Hnca Hsca Hw) as (c1 & w1 & E1 & He1 & Hw1). rewrite (dbind_ok _ _ _ _ _ _ _ E1). destruct cb.
    + destruct (IH c1 w1) as (go & c2 & w2 & E2 & Hw2 & Ho2 & Hgo); [intros; apply Hin; by right|done|]. exists go, c2, w2.
      assert (d_equal c2 = false) by (destruct Ho2 as [[_ ->]|[_ ?]]; done). split_and!; [done|done|right; tauto|tauto].
    + exists false, c1, w1. split_and!; [done|done|right; tauto|tauto].
Qed.

Lemma of_b_run fuel path a b na nb es c w :
  shallow w0 (S fuel) b → dbs w0 !! a = Some na → dbs w0 !! b = Some nb → (∀ e, e ∈ es → e ∈ entries nb) → wsame w0 w →
  ∃ go c' w', diff_of_b cb fuel path a es c w = Ok (go, c') w' ∧ wsame w0 w' ∧ outcome (Forall (of_b_ok na) es) c c'
    ∧ (go = false → ¬ Forall (of_b_ok na) es ∧ d_equal c' = false).
Proof.
  intros Hb Hna Hnb. revert c w. induction es as [|e es IH]; intros c w Hin Hw; [exists true, c, w; by split_and!; [| |left|]|]. cbn [diff_of_b].
  destruct (Hlink b nb e Hnb) as (x & nm & ch & Hx & Hnm & Hne & Hc & [nc Hnc]); [apply Hin; by left|].
  rewrite (dbind_ok _ _ _ _ _ _ _ (dlift_ok _ c _ _ _ (wsame_ns w e x Hw Hx))).
  rewrite (dbind_ok _ _ _ _ _ _ _ (dlift_ok _ c _ _ _ (same_run w a na x nm Hw Hna Hnm Hne))).
  setoid_rewrite Forall_cons. destruct (same_ns w0 x na) as [an|] eqn:Es.
  - destruct (IH c w) as (go & c2 & w2 & E2 & Hw2 & Ho2 & Hgo); [intros; apply Hin; by right|done|].
    assert (of_b_ok na e) as Hok by (intros z Hz; replace z with x by congruence; by rewrite Es).
    exists go, c2, w2. split_and!; [done|done|eapply outcome_iff; [|exact Ho2]; tauto|tauto].
  - assert (¬ of_b_ok na e) as Hno by (intros Hok; destruct (Hok x Hx) as [? ?]; congruence).
    assert (shallow w0 fuel ch) as Hsh by (eapply Hb; [exact Hnb|apply Hin; left|exact Hx|exact Hc]).
    destruct (missing_run fuel path x ch nc true c w Hc Hnc Hsh Hw) as (c1 & w1 & E1 & He1 & Hw1). rewrite (dbind_ok _ _ _ _ _ _ _ E1). destruct cb.
    + destruct (IH c1 w1) as (go & c2 & w2 & E2 & Hw2 & Ho2 & Hgo); [intros; apply Hin; by right|done|]. exists go, c2, w2.
      assert (d_equal c2 = false) by (destruct Ho2 as [[_ ->]|[_ ?]]; done). split_and!; [done|done|right; tauto|tauto].
    + exists false, c1, w1. split_and!; [done|done|right; tauto|tauto].
Qed.

Lemma tree_eq_parts a b na nb :
  dbs w0 !! a = Some na → dbs w0 !! b = Some nb →
  Forall (of_a_ok nb) (entries na) ∧ Forall (of_b_ok na) (entries nb) ∧ view (sdb na) = view (sdb nb) ↔ tree_eq w0 a b.
Proof.
  intros Ha Hb. rewrite !Forall_forall. split.
  - intros (H1 & H2 & H3). apply (tree_eq_intro _ a b na nb); [done|done|intros e x ca He; by apply (H1 e He)|intros e x He; by apply (H2 e He)|done].
  - intros Ht. inversion Ht as [? ? na' nb' Ha' Hb' H1 H2 H3]; subst. assert (na' = na ∧ nb' = nb) as [-> ->] by (split; congruence).
    split_and!; [intros e He x ca Hx Hc; by eapply H1|intros e He x Hx; by eapply H2|done].
Qed.

Lemma ctx_spec fuel : ctx_run (sdb_diff_ctx now cb fuel) fuel.
Proof.
  induction fuel as [|fuel IH]; intros path a b na nb c w Ha Hb Hna Hnb Hw; [done|]. cbn [sdb_diff_ctx]. pose proof (tree_eq_parts a b na nb Hna Hnb) as Hiff. setoid_rewrite <- Hiff.
  destruct (wsame_load w a na Hw Hna) as (na' & _ & El & Hea & _). rewrite (dbind_ok _ _ _ _ _ _ _ (dlift_ok _ c _ _ _ El)). rewrite Hea.
  destruct (of_a_run _ fuel path a b na nb (entries na) c w IH) as (go & c1 & w1 & E1 & Hw1 & Ho1 & Hgo); [done..|]. rewrite (dbind_ok _ _ _ _ _ _ _ E1).
  destruct go; cbn [negb]; [clear Hgo|destruct Hgo as [Hno He]; [done|]; exists c1, w1; by split_and!; [..|apply outcome_stop]].
  destruct (wsame_load w1 b nb Hw1 Hnb) as (nb' & _ & El2 & Heb & _). rewrite (dbind_ok _ _ _ _ _ _ _ (dlift_ok _ c1 _ _ _ El2)). rewrite Heb.
  destruct (of_b_run fuel path a b na nb (entries nb) c1 w1) as (go & c2 & w2 & E2 & Hw2 & Ho2 & Hgo); [done..|]. rewrite (dbind_ok _ _ _ _ _ _ _ E2).
  destruct go; cbn [negb].
  - destruct (diff_pairs_run path a b na nb c2 w2) as (c3 & w3 & E3 & Hw3 & Ho3); [done..|]. exists c3, w3. split_and!; [done|done|]. eapply outcome_seq; [exact Ho1|]. by eapply outcome_seq.
  - destruct Hgo as [Hno He]; [done|]. exists c2, w2. split_and!; [done|done|]. right. tauto.
Qed.
End facts.

(** Every entry has a name. *)
Definition named (w : World) : Prop := ∀ e x, nss w !! e = Some x → ∃ nm, ns_name x = Some nm ∧ hd0 nm ≠ 0.

Lemma good_linked ext w : good ext w → named w → linked w.
Proof.
  intros Hg Hn i n e Hi He. destruct (owned_entries ext w Hg i n e Hi He) as (x & c & nc & Hx & Hc & Hnc). destruct (Hn e x Hx) as (nm & Hnm & Hne).
  exists x, nm, c. split_and!; [done|done|done|done|by eexists].
Qed.

(** C22: comparing two live databases, with a callback or without, when no database of the
    world has a file or a changed cdb under it ([mem_inv]), counts and entries are as C14
    keeps them ([good]), every entry has a non-empty name and the namespaces under the two
    form no cycle ([shallow]; on a cycle the comparison does not end), ends and says that
    they are equal exactly when they have the same keys with the same values and the same
    namespaces (told apart by the hashes of their names), and these again; nothing is
    reported then, and the databases stay as they are. *)
Theorem sdb_diff_equal now cb ext w m fuel a b na nb :
  good ext w → named w → (∀ i n, dbs w !! i = Some n → mem_inv m (sdb n)) → dbs w !! a = Some na → dbs w !! b = Some nb →
  shallow w fuel a → shallow w fuel b →
  ∃ r l w', sdb_diff now cb fuel a b w = Ok (r, l) w' ∧ wsame w w' ∧ (r = true ↔ tree_eq w a b) ∧ (r = true → l = []).
Proof.
  intros Hg Hn Hm Ha Hb Hsa Hsb. destruct (ctx_spec now cb w m (good_linked _ _ Hg Hn) Hm fuel [] a b na nb (mkCtx true []) w) as (c & w' & E & Hw & Ho); [done..|].
  exists (d_equal c), (reports c), w'. unfold sdb_diff. rewrite (bind_ok _ _ _ _ _ E). cbn [fst snd]. split_and!; [done|done| |].
  - destruct Ho as [[? ->]|[? ->]]; [done|]. by split.
  - destruct Ho as [[? ->]|[? ->]]; [done|]. by intros.
Qed.

(** A world to compare in: the databases 1 and 3 have the pair [k], [v] and each a namespace
    [sub], the new databases 2 and 4. *)
Definition demo_trees (s0 s1 : Sdb) : World :=
  let sub c := mkNs (Some (str "sub")) (sdb_hash (str "sub")) (Some c) in
  let node s l := mkNode s None None None 0 (Some l) in
  mkWorld (<[3%positive := node s1 [2%positive]]> (<[4%positive := node s0 []]> (<[1%positive := node s1 [1%positive]]> (<[2%positive := node s0 []]> ∅))))
          (<[2%positive := sub 4%positive]> (<[1%positive := sub 2%positive]> ∅)).

Lemma demo_trees_good s0 s1 : refs s0 = 1 → refs s1 = 1 → good (bump 3 (bump 1 (λ _, 0))) (demo_trees s0 s1).
Proof.
  intros H0 H1. set (node s l := mkNode s None None None 0 (Some l)). set (sub c := mkNs (Some (str "sub")) (sdb_hash (str "sub")) (Some c)).
  assert (∀ ext d m i c e, inv ext ∅ m d → d !! i = None → d !! c = None → m !! e = None → i ≠ c →
    inv (bump i ext) ∅ (<[e := sub c]> m) (<[i := node s1 [e]]> (<[c := node s0 []]> d))) as Hadd.
  { intros ext d m i c e Hi Hni Hnc Hne Hic. pose proof (inv_ext _ _ _ _ Hi c) as Hc.
    assert (inv (bump c (bump i ext)) ∅ m (<[i := node s1 []]> (<[c := node s0 []]> d))) as I2.
    { rewrite insert_insert_ne by done. apply inv_new; [apply inv_new|..]; try done. by rewrite lookup_insert_ne. }
    pose proof (inv_append (bump i ext) _ m i (node s1 []) [] e (sub c) c (str "sub") I2) as I3.
    rewrite insert_insert_eq in I3. apply I3; try done.
    - unfold bump. case_bool_decide; lia.
    - apply lookup_insert_eq.
    - set_solver. }
  unfold good. cbn [dbs nss demo_trees]. apply (Hadd (bump 1 (λ _, 0))); [apply (Hadd (λ _, 0)); try done; apply good_init|done..].
Qed.

Lemma demo_trees_cases s0 s1 i n : dbs (demo_trees s0 s1) !! i = Some n → sdb n = s0 ∧ entries n = [] ∨ sdb n = s1.
Proof. cbn [dbs demo_trees]. rewrite !lookup_insert_Some, lookup_empty. naive_solver. Qed.

Lemma demo_trees_shallow s0 s1 i : shallow (demo_trees s0 s1) 2 i.
Proof.
  cbn [shallow]. intros nd e x c Hd He Hx Hc nd' e' x' c' Hd' He' _ _. exfalso.
  assert (c = 2%positive ∨ c = 4%positive) as Hcc.
  { cbn [nss demo_trees] in Hx. rewrite !lookup_insert_Some, lookup_empty in Hx. naive_solver. }
  assert (entries nd' = []) as E.
  { cbn [dbs demo_trees] in Hd'. rewrite !lookup_insert_Some, lookup_empty in Hd'. naive_solver. }
  rewrite E in He'. set_solver.
Qed.

Definition demo_answers (s0 : Sdb) : Z * option bool * option bool :=
  let s1 := (sdb_set 0 (Some (str "k")) (Some (str "v")) 0 s0).2 in let w := demo_trees s0 s1 in
  let answer b := match sdb_diff 0 true 2 1%positive b w with Ok (r, _) _ => Some r | _ => None end in
  (refs s1, answer 3%positive, answer 2%positive).

Lemma sdb_diff_equal_witness : ∃ w n w1 w2 l, dbs w !! 1%positive = Some n ∧ view (sdb n) = {[ str "k" := str "v" ]} ∧ entries n = [1%positive]
  ∧ sdb_diff 0 true 2 1%positive 3%positive w = Ok (true, []) w1 ∧ tree_eq w 1%positive 3%positive
  ∧ sdb_diff 0 true 2 1%positive 2%positive w = Ok (false, l) w2 ∧ ¬ tree_eq w 1%positive 2%positive.
Proof.
  destruct (sdb_new0_ok 3) as (s0 & Es & Hi0 & Hv0 & _); [done|].
  assert ((λ s, (refs s, demo_answers s)) <$> sdb_new0 = Some (1, (1, Some true, Some false))) as Ha by (vm_compute; reflexivity).
  rewrite Es in Ha. cbn [fmap option_fmap option_map] in Ha. unfold demo_answers in Ha. cbv zeta in Ha.
  pose proof (set_mem_view 0 2 s0 (str "k") (str "v") false Hi0 ltac:(done) ltac:(split; [repeat constructor|done])) as Hset. fold (sdb_set 0 (Some (str "k")) (Some (str "v")) 0) in Hset.
  destruct (sdb_set 0 (Some (str "k")) (Some (str "v")) 0 s0) as [r s1]. destruct Hset as (Hi1 & _ & Hv1). rewrite Hv0 in Hv1. cbn [snd] in Ha.
  injection Ha as Hr0 Hr1 A3 A2. set (w := demo_trees s0 s1) in *.
  assert (∀ i n, dbs w !! i = Some n → mem_inv 2 (sdb n)) as Hm.
  { intros i n Hn. destruct (demo_trees_cases s0 s1 i n Hn) as [[-> _]| ->]; [eapply mem_inv_le; [|exact Hi0]; lia|exact Hi1]. }
  assert (named w) as Hnm.
  { intros e x Hx. unfold w in Hx. cbn [nss demo_trees] in Hx. rewrite !lookup_insert_Some, lookup_empty in Hx. exists (str "sub"). naive_solver. }
  pose proof (demo_trees_good s0 s1 Hr0 Hr1) as Hg. pose proof (demo_trees_shallow s0 s1) as Hsh. fold w in Hg, Hsh.
  destruct (sdb_diff_equal 0 true _ w 2 2 1%positive 3%positive _ _ Hg Hnm Hm eq_refl eq_refl (Hsh 1%positive) (Hsh 3%positive)) as (r3 & l3 & w3 & E3 & _ & Ht3 & Hl3).
  destruct (sdb_diff_equal 0 true _ w 2 2 1%positive 2%positive _ _ Hg Hnm Hm eq_refl eq_refl (Hsh 1%positive) (Hsh 2%positive)) as (r2 & l2 & w2 & E2 & _ & Ht2 & _).
  rewrite E3 in A3. rewrite E2 in A2. injection A3 as ->. injection A2 as ->. rewrite (Hl3 eq_refl) in E3.
  exists w, (mkNode s1 None None None 0 (Some [1%positive])), w3, w2, l2. split; [reflexivity|]. split; [exact Hv1|]. split; [reflexivity|]. split; [exact E3|].
  split; [by apply Ht3|]. split; [exact E2|]. intros Ht. apply Ht2 in Ht. discriminate Ht.
Defined.

(** A namespace that refers to its own database, as [sdb_ns_set] makes it: whatever the
    depth, the comparison of the database with itself has not ended. *)
Theorem sdb_diff_cycle_never_ends now cb s fuel :
  let w := mkWorld {[1%positive := mkNode s None None None 0 (Some [1%positive])]} {[1%positive := mkNs (Some (str "a")) (sdb_hash (str "a")) (Some 1%positive)]} in
  sdb_diff now cb fuel 1%positive 1%positive w = NoFuel.
Proof.
  intros w. set (x := mkNs (Some (str "a")) (sdb_hash (str "a")) (Some 1%positive)).
  assert (∀ path c, sdb_diff_ctx now cb fuel path 1%positive 1%positive c w = NoFuel) as H.
  { induction fuel as [|fuel IH]; intros path c; [done|]. cbn [sdb_diff_ctx]. rewrite (dbind_ok _ _ c w _ c w (dlift_ok _ c w _ w (eq_refl : load_db 1%positive w = _))).
    cbn [entries ns default from_option Datatypes.id diff_of_a].
    assert (dlift (load_ns 1%positive) c w = Ok (x, c) w) as E1 by reflexivity.
    assert (dlift (find_same 1%positive x) c w = Ok (Some 1%positive, c) w) as E2 by (vm_compute; reflexivity).
    assert (dlift (deref (ns_sdb x)) c w = Ok (1%positive, c) w) as E3 by reflexivity.
    unfold mbind at 1, DM_bind at 1, mbind at 1, W_bind at 1. rewrite (dbind_ok _ _ _ _ _ _ _ E1), (dbind_ok _ _ _ _ _ _ _ E2), (dbind_ok _ _ _ _ _ _ _ E3).
    unfold mbind at 1, DM_bind at 1, mbind at 1, W_bind at 1. by rewrite IH. }
  unfold sdb_diff. unfold mbind at 1, W_bind at 1. by rewrite H.
Qed.

(** ** The reports *)

(** What a pair of the walked database makes the callback report. *)
Definition kv_reports (path : list bytes) (v2 : gmap bytes bytes) (add : bool) (kv : bytes * bytes) : list SdbDiff :=
  match v2 !! kv.1 with
  | None => [mkDiff path kv.1 (Some kv.2) add]
  | Some ov => if negb add && negb (bool_decide (kv.2 = ov)) then [mkDiff path kv.1 (Some kv.2) false; mkDiff path kv.1 (Some ov) true] else []
  end.

Lemma kv_reported now w0 m path other n add l c w :
  (∀ i n, dbs w0 !! i = Some n → mem_inv m (sdb n)) → dbs w0 !! other = Some n → wsame w0 w →
  ∃ c', diff_kv_cb now true path other add l c w = Ok (true, c') w ∧ reports c' = reports c ++ (l ≫= kv_reports path (view (sdb n)) add).
Proof.
  intros Hmem Hn Hw. revert c. induction l as [|[k v] l IH]; intros c; [exists c; split; [done|by rewrite app_nil_r]|]. cbn [diff_kv_cb].
  destruct (const_run now w0 m Hmem w other n k Hw Hn) as [cs E]. rewrite (dbind_ok _ _ _ _ _ _ _ (dlift_ok _ c _ _ _ E)). cbn [fst].
  assert (∀ r e, reports r = reports c ++ e → kv_reports path (view (sdb n)) add (k, v) = e → ∃ c', diff_kv_cb now true path other add l r w = Ok (true, c') w
    ∧ reports c' = reports c ++ (((k, v) :: l) ≫= kv_reports path (view (sdb n)) add)) as Hgo.
  { intros r e Hr He. destruct (IH r) as (c' & E' & Hc'). exists c'. split; [done|]. rewrite Hc', Hr, <- app_assoc. by rewrite <- He. }
  unfold kv_reports in Hgo. cbn [fst snd] in Hgo. destruct (view (sdb n) !! k) as [ov|] eqn:Ev.
  - assert (ov ≠ []) as Hne by (eapply view_cstr; [by eapply Hmem|exact Ev]). destruct ov as [|o ov]; [done|].
    destruct (negb add && negb (bool_decide (v = o :: ov))).
    + rewrite (dbind_ok _ _ _ _ true (mkCtx false ((reports c ++ [mkDiff path k (Some v) false]) ++ [mkDiff path k (Some (o :: ov)) true])) w) by done.
      eapply Hgo; [cbn; by rewrite <- app_assoc|done].
    + rewrite (dbind_ok _ _ _ _ true c w) by done. eapply Hgo; [by rewrite app_nil_r|done].
  - rewrite (dbind_ok _ _ _ _ true (mkCtx false (reports c ++ [mkDiff path k (Some v) add])) w) by done. by eapply Hgo.
Qed.

(** A report as a change. *)
Definition apply_diff (m : gmap bytes bytes) (d : SdbDiff) : gmap bytes bytes :=
  match d_v d with Some v => if d_add d then <[d_k d := v]> m else delete (d_k d) m | None => m end.

Lemma apply_other ds m k : Forall (λ d, d_k d ≠ k) ds → foldl apply_diff m ds !! k = m !! k.
Proof.
  revert m. induction ds as [|d ds IH]; intros m; [done|]. intros [Hd Hds]%Forall_cons. cbn [foldl]. rewrite IH by done. unfold apply_diff.
  destruct (d_v d); [|done]. destruct (d_add d); [by rewrite lookup_insert_ne|by rewrite lookup_delete_ne].
Qed.

Lemma apply_same ds m m' k : m !! k = m' !! k → foldl apply_diff m ds !! k = foldl apply_diff m' ds !! k.
Proof.
  revert m m'. induction ds as [|d ds IH]; intros m m' E; [done|]. cbn [foldl]. apply IH. unfold apply_diff. destruct (d_v d); [|done].
  destruct (decide (d_k d = k)) as [<-|Hne]; destruct (d_add d); rewrite ?lookup_insert_eq, ?lookup_delete_eq; try done; by rewrite ?lookup_insert_ne, ?lookup_delete_ne by done.
Qed.

Lemma kv_reports_key path v2 add kv d : d ∈ kv_reports path v2 add kv → d_k d = kv.1.
Proof. unfold kv_reports. destruct (v2 !! kv.1); [case_match|]; set_solver. Qed.

(** Only the pair of a key says what becomes of the key. *)
Lemma apply_pairs path v2 add l m k :
  NoDup l.*1 → foldl apply_diff m (l ≫= kv_reports path v2 add) !! k
  = match list_find (λ kv, kv.1 = k) l with Some (_, kv) => foldl apply_diff m (kv_reports path v2 add kv) !! k | None => m !! k end.
Proof.
  revert m. induction l as [|kv l IH]; intros m Hnd; [done|]. apply NoDup_cons in Hnd as [Hni Hnd]. cbn [mbind list_bind]. rewrite foldl_app. change (_ ++ _) with (kv_reports path v2 add kv ++ (l ≫= kv_reports path v2 add)).
  cbn [list_find]. destruct (decide (kv.1 = k)) as [<-|Hne].
  - apply apply_other, Forall_forall. intros d (kv' & Hd & Hkv')%list_elem_of_bind. rewrite (kv_reports_key _ _ _ _ _ Hd). intros E.
    apply Hni. rewrite <- E. by apply list_elem_of_fmap_2.
  - rewrite IH by done. assert (foldl apply_diff m (kv_reports path v2 add kv) !! k = m !! k) as Em.
    { apply apply_other, Forall_forall. intros d Hd. by rewrite (kv_reports_key _ _ _ _ _ Hd). }
    destruct (list_find (λ kv, kv.1 = k) l) as [[i kv']|]; cbn; [by apply apply_same|done].
Qed.

Lemma find_pair (v : gmap bytes bytes) l k :
  l ≡ₚ map_to_list v → NoDup l.*1 ∧ match list_find (λ kv, kv.1 = k) l with Some (_, kv) => kv.1 = k ∧ v !! k = Some kv.2 | None => v !! k = None end.
Proof.
  intros Hp. split; [rewrite Hp; apply NoDup_fst_map_to_list|]. destruct (list_find _ l) as [[i kv]|] eqn:E.
  - apply list_find_Some in E as (Hi & Hk & _). split; [done|]. rewrite <- Hk. apply elem_of_map_to_list. rewrite <- Hp. destruct kv. by apply list_elem_of_lookup_2 in Hi.
  - apply list_find_None in E. rewrite Forall_forall in E. destruct (v !! k) as [x|] eqn:Ek; [|done]. apply elem_of_map_to_list in Ek. rewrite <- Hp in Ek. by destruct (E _ Ek).
Qed.

(** Applying the reports of both walks. *)
Lemma reports_patch (path : list bytes) (v1 v2 : gmap bytes bytes) (l1 l2 : list (bytes * bytes)) :
  l1 ≡ₚ map_to_list v1 → l2 ≡ₚ map_to_list v2 →
  foldl apply_diff v1 ((l1 ≫= kv_reports path v2 false) ++ (l2 ≫= kv_reports path v1 true)) = v2.
Proof.
  intros H1 H2. apply map_eq. intros k. rewrite foldl_app. destruct (find_pair v1 l1 k H1) as [Hn1 Hf1]. destruct (find_pair v2 l2 k H2) as [Hn2 Hf2].
  rewrite apply_pairs by done. set (v := foldl apply_diff v1 (l1 ≫= kv_reports path v2 false)). assert (v !! k = if v1 !! k then v2 !! k else None) as Hv.
  { unfold v. rewrite apply_pairs by done. destruct (list_find _ l1) as [[i [k' x]]|]; [|by rewrite Hf1]. destruct Hf1 as [E Hx]. cbn [fst snd] in *. subst k'. rewrite Hx.
    unfold kv_reports. cbn [fst snd]. destruct (v2 !! k) as [y|]; [|cbn; by rewrite lookup_delete_eq]. cbn [negb andb].
    case_bool_decide; cbn; [by subst|by rewrite lookup_insert_eq]. }
  destruct (list_find _ l2) as [[i [k' x]]|]; [destruct Hf2 as [E Hx]; cbn [fst snd] in *; subst k'|].
  - unfold kv_reports. cbn [fst snd negb andb]. destruct (v1 !! k) as [y|]; [cbn; by rewrite Hv|]. cbn. by rewrite lookup_insert_eq, Hx.
  - rewrite Hv, Hf2. by destruct (v1 !! k).
Qed.

(** C23: for two databases that have no namespaces, where the databases of the world are in memory
    without expirations: what their comparison with a callback reports turns the contents of the
    first into those of the second, when the reports are applied in order, a minus as the removal of
    the key and a plus as setting it. *)
Theorem sdb_diff_patches now w m fuel a b na nb :
  (∀ i n, dbs w !! i = Some n → mem_inv m (sdb n)) → dbs w !! a = Some na → dbs w !! b = Some nb → entries na = [] → entries nb = [] →
  ∃ r l w', sdb_diff now true (S fuel) a b w = Ok (r, l) w' ∧ foldl apply_diff (view (sdb na)) l = view (sdb nb).
Proof.
  intros Hm Ha Hb Hea Heb. unfold sdb_diff. cbn [sdb_diff_ctx]. assert (wsame w w) as Hw by done. assert (∀ i n, dbs w !! i = Some n → load_db i w = Ok n w) as Hld.
  { intros i n Hi. unfold load_db. by rewrite Hi. }
  set (c := mkCtx true []).
  destruct (pairs_run w m Hm w a na Hw Ha) as (l1 & w1 & E1 & Hp1 & Hw1). destruct (kv_reported now w m [] b nb false l1 c w1 Hm Hb Hw1) as (c1 & E2 & Hr1).
  destruct (pairs_run w m Hm w1 b nb Hw1 Hb) as (l2 & w2 & E3 & Hp2 & Hw2). destruct (kv_reported now w m [] a na true l2 c1 w2 Hm Ha Hw2) as (c2 & E4 & Hr2).
  exists (d_equal c2), (reports c2), w2. split; [|rewrite Hr2, Hr1; cbn [reports c app]; by apply reports_patch].
  assert (diff_pairs now true [] a b c w = Ok ((), c2) w2) as Ep.
  { unfold diff_pairs. rewrite (dbind_ok _ _ _ _ _ _ _ (dlift_ok _ c _ _ _ E1)). rewrite (dbind_ok _ _ _ _ _ _ _ E2). cbn [negb].
    rewrite (dbind_ok _ _ _ _ _ _ _ (dlift_ok _ c1 _ _ _ E3)). by rewrite (dbind_ok _ _ _ _ _ _ _ E4). }
  rewrite (bind_ok _ _ w ((), c2) w2); [done|]. rewrite (dbind_ok _ _ _ _ _ _ _ (dlift_ok _ c _ _ _ (Hld a na Ha))). rewrite Hea. cbn [diff_of_a].
  rewrite (dbind_ok _ _ _ _ true c w) by done. cbn [negb]. rewrite (dbind_ok _ _ _ _ _ _ _ (dlift_ok _ c _ _ _ (Hld b nb Hb))). rewrite Heb. cbn [diff_of_b].
  rewrite (dbind_ok _ _ _ _ true c w) by done. cbn [negb]. exact Ep.
Qed.

Lemma sdb_diff_patches_witness :
  ∃ w a b na nb r l w', dbs w !! a = Some na ∧ dbs w !! b = Some nb ∧ view (sdb na) !! str "k" = Some (str "1") ∧ view (sdb nb) !! str "k" = Some (str "2")
    ∧ sdb_diff 0 true 1 a b w = Ok (r, l) w' ∧ foldl apply_diff (view (sdb na)) l = view (sdb nb).
Proof.
  destruct (mem_with 1 (str "k") (str "1")) as (s1 & H1 & V1 & _); [done|done|by split; [repeat constructor|]|done|].
  destruct (mem_with 1 (str "k") (str "2")) as (s2 & H2 & V2 & _); [done|done|by split; [repeat constructor|]|done|].
  set (na := mkNode s1 None None None 0 (Some [])). set (nb := mkNode s2 None None None 0 (Some [])).
  set (w := mkWorld {[1%positive := na; 2%positive := nb]} ∅). exists w, 1%positive, 2%positive, na, nb.
  destruct (sdb_diff_patches 0 w 1 0 1%positive 2%positive na nb) as (r & l & w' & E & Hp); [|done|done|done|done|].
  - intros i n. cbn [w dbs]. intros [[<- <-]|[_ [<- <-]%lookup_singleton_Some]]%lookup_insert_Some; done.
  - exists r, l, w'. split; [done|]. split; [done|]. split; [done|]. split; [done|]. split; [exact E|exact Hp].
Defined.

(** ** Formatting *)

Definition diff_text (d : SdbDiff) : bytes :=
  ([if d_add d then chr "+" else chr "-"] ++ (match d_v d with Some _ => str "  " | None => str "NS" end) ++ [32])
  ++ (d_path d ≫= λ c, c ++ [chr "/"]) ++ (match d_v d with Some v => d_k d ++ [chr "="] ++ v | None => d_k d end).

(** The state once the text [t] has been appended to a block of [size] bytes. *)
Definition appended (size : Z) (mem0 t : bytes) (s : fmt_state) : Prop :=
  f_r s = slen t ∧ length (f_mem s) = length mem0
  ∧ (if size <=? slen t then f_size s = 0 else f_pos s = slen t ∧ f_size s = size - slen t)
  ∧ (if size =? 0 then f_mem s = mem0 else ∃ rest, f_mem s = take (Z.to_nat (size - 1)) t ++ rest ∧ (t ≠ [] → hd_error rest = Some 0)).

Lemma appendf_spec size mem0 t x s :
  0 <= size <= slen mem0 → x ≠ [] → appended size mem0 t s → ∃ s', APPENDF x s = Some s' ∧ appended size mem0 (t ++ x) s'.
Proof.
  intros Hs Hx (Hr & Hlen & Hpos & Hmem). pose proof (slen_nonneg t). pose proof (slen_nonneg x). unfold APPENDF.
  destruct (size <=? slen t) eqn:Et; zbool.
  - rewrite Hpos. cbn [Z.ltb]. change (0 <? 0) with false. cbn iota. cbn [mbind option_bind]. rewrite (proj2 (Z.leb_le 0 _)) by lia. eexists. split; [done|].
    unfold appended. cbn [f_r f_mem f_size f_pos]. rewrite slen_app. rewrite (proj2 (Z.leb_le size _)) by lia. split_and!; [lia|done|done|].
    destruct (size =? 0) eqn:E0; [done|]. zbool. destruct Hmem as (rest & -> & Hrest). exists rest. rewrite take_app_le by (unfold slen in *; lia). split; [done|].
    intros _. apply Hrest. intros ->. unfold slen in *. cbn in *. lia.
  - destruct Hpos as [Hp Hsz]. rewrite Hsz, Hp. rewrite (proj2 (Z.ltb_lt 0 _)) by lia. rewrite (proj2 (Z.eqb_neq size 0)) in Hmem by lia.
    destruct Hmem as (rest & Hmem & _). rewrite take_ge in Hmem by (unfold slen in *; lia). rewrite Hmem.
    set (y := take (Z.to_nat (size - slen t - 1)) x ++ [0]). assert (length y <= length rest)%nat as Hy.
    { unfold y. rewrite length_app, length_take. cbn [length]. rewrite Hmem, length_app in Hlen. unfold slen in *. lia. }
    rewrite mem_write_spec by done. cbn [mbind option_bind]. eexists. split; [done|]. unfold appended. rewrite (proj2 (Z.eqb_neq size 0)) by lia.
    rewrite slen_app. assert (∃ rest', t ++ y ++ drop (length y) rest = take (Z.to_nat (size - 1)) (t ++ x) ++ rest' ∧ hd_error rest' = Some 0) as (rest' & Er & Hh).
    { exists (0 :: drop (length y) rest). split; [|done]. rewrite take_app. rewrite take_ge by (unfold slen in *; lia). unfold y. rewrite <- !app_assoc. do 2 f_equal. f_equal. unfold slen. lia. }
    assert (length (t ++ y ++ drop (length y) rest) = length mem0) as Hl by (rewrite <- Hlen, Hmem, !length_app, length_drop; lia).
    destruct (size - slen t <=? slen x) eqn:E; zbool; cbn [f_r f_mem f_size f_pos].
    + rewrite (proj2 (Z.leb_le _ _)) by lia. split_and!; [lia|done|done|by exists rest'].
    + rewrite (proj2 (Z.leb_gt _ _)) by lia. split_and!; [lia|done|lia|lia|by exists rest'].
Qed.

Lemma append_path_spec size mem0 path t s :
  0 <= size <= slen mem0 → appended size mem0 t s → ∃ s', append_path path s = Some s' ∧ appended size mem0 (t ++ (path ≫= λ c, c ++ [chr "/"])) s'.
Proof.
  intros Hs. revert t s. induction path as [|c path IH]; intros t s Ht; cbn [append_path mbind list_bind]; [exists s; by rewrite app_nil_r|].
  destruct (appendf_spec size mem0 t (c ++ [chr "/"]) s Hs) as (s1 & -> & H1); [by destruct c|done|]. cbn [mbind option_bind]. destruct (IH _ _ H1) as (s2 & E2 & H2). exists s2. split; [exact E2|].
  by rewrite app_assoc.
Qed.

(** Formatting a difference writes like [snprintf]: the value returned is the length of
    the whole text, and a block of [size] bytes gets as much of it as fits with a
    terminator behind; nothing is written outside the block. *)
Theorem sdb_diff_format_snprintf mem size d :
  0 <= size <= slen mem → d_k d ≠ [] →
  ∃ mem', sdb_diff_format mem size d = Some (slen (diff_text d), mem') ∧ length mem' = length mem
    ∧ (if size =? 0 then mem' = mem else ∃ rest, mem' = take (Z.to_nat (size - 1)) (diff_text d) ++ 0 :: rest).
Proof.
  intros Hs Hk. unfold sdb_diff_format. set (x1 := [if d_add d then chr "+" else chr "-"] ++ _). set (x3 := match d_v d with Some v => d_k d ++ [chr "="] ++ v | None => d_k d end).
  assert (appended size mem [] (mkFmt mem 0 size 0)) as H0.
  { unfold appended. cbn [f_r f_mem f_size f_pos]. change (slen []) with 0. split_and!; [done|done| |].
    - destruct (size <=? 0) eqn:E; zbool; lia.
    - destruct (size =? 0); [done|]. exists mem. by rewrite take_nil. }
  destruct (appendf_spec size mem [] x1 _ Hs ltac:(done) H0) as (s1 & -> & H1). cbn [mbind option_bind].
  destruct (append_path_spec size mem (d_path d) x1 s1 Hs H1) as (s2 & -> & H2). cbn [mbind option_bind].
  destruct (appendf_spec size mem _ x3 s2 Hs ltac:(unfold x3; destruct (d_v d); by destruct (d_k d)) H2) as (s3 & -> & H3). cbn [mbind option_bind].
  assert ((x1 ++ (d_path d ≫= λ c, c ++ [chr "/"])) ++ x3 = diff_text d) as Et by (unfold diff_text; by rewrite <- app_assoc). rewrite Et in H3. destruct H3 as (Hr & Hl & _ & Hm).
  exists (f_mem s3). rewrite Hr. split_and!; [done|done|]. destruct (size =? 0); [done|]. destruct Hm as (rest & -> & Hh). destruct rest as [|z rest]; [by specialize (Hh ltac:(done))|].
  exists rest. specialize (Hh ltac:(done)). by injection Hh as ->.
Qed.

Lemma sdb_diff_format_snprintf_witness :
  ∃ mem', sdb_diff_format (replicate 8 7) 8 (mkDiff [str "ns"] (str "k") (Some (str "v")) true) = Some (10, mem') ∧ cstr mem' = str "+   ns/".
Proof.
  destruct (sdb_diff_format_snprintf (replicate 8 7) 8 (mkDiff [str "ns"] (str "k") (Some (str "v")) true)) as (mem' & E & _ & Hm); [done|done|].
  exists mem'. split; [exact E|]. change (8 =? 0) with false in Hm. destruct Hm as (rest & ->). reflexivity.
Defined.
