(* ===== verification/NsCopy.v ===== *)
(** * Copying databases with their namespaces ([sdb_copy] and [sdb_drain] of [src/sdb.c])

    A copy into an empty database has the contents of the original, namespaces included, and
    [sdb_diff] finds no difference between them. *)

From S2P Require Import Prelude Util Ht HashTables Buffer CdbMake CdbTables Cdb SdbCore Num StrBuf Base64 Match SdbIter Ns NsRefs NsPath Diff DiffFacts.

(** The pairs are read before they are set: setting them in another database does not
    change the one that is walked.  [fuel] bounds the depth. *)
Fixpoint sdb_copy (now : Z) (fuel : nat) (src dst : option id) : W unit :=
  match fuel with
  | O => no_fuel
  | S fuel' =>
      match src, dst with
      | Some s, Some d =>
          l ← on_sdb s sdb_foreach_pairs;
          _ ← on_sdb d (set_pairs now l);
          n ← load_db s;
          foreach (λ e _, x ← load_ns e; c ← sdb_ns (Some d) (default [] (ns_name x)) true; sdb_copy now fuel' (ns_sdb x) c) (entries n) ()
      | _, _ => mret ()
      end
  end.

(** What [sdb_fini] releases beside the namespaces belongs to the database alone. *)
Definition sdb_drain (fuel : nat) (s f : option id) : W unit :=
  match s, f with
  | Some s, Some f =>
      n ← load_db s;
      _ ← alter_db f (set_refs (refs (sdb n)));
      _ ← sdb_ns_free fuel (Some s);
      nf ← load_db f;
      _ ← alter_db s (λ _, nf);
      free_db f
  | _, _ => mret ()
  end.

(** ** Lists of entries *)

(** The entry [e] has the name [k.1] and leads to [k.2]. *)
Definition entry (w : World) (e : id) (k : bytes * id) : Prop :=
  nss w !! e = Some (mkNs (Some k.1) (sdb_hash k.1) (Some k.2)) ∧ hd0 k.1 ≠ 0.

Definition hashes (ks : list (bytes * id)) : list Z := (λ k, sdb_hash k.1) <$> ks.

Fixpoint kid_of (h : Z) (ks : list (bytes * id)) : option id :=
  match ks with [] => None | k :: ks' => if sdb_hash k.1 =? h then Some k.2 else kid_of h ks' end.

Lemma child_kid w es ks h : Forall2 (entry w) es ks → child_of (nss w) h es = kid_of h ks.
Proof. induction 1 as [|e k es ks [He _] _ IH]; [done|]. cbn [child_of kid_of]. rewrite He. cbn [ns_hash ns_sdb]. by rewrite IH. Qed.

Lemma kid_elem ks k : NoDup (hashes ks) → k ∈ ks → kid_of (sdb_hash k.1) ks = Some k.2.
Proof.
  induction ks as [|k' ks IH]; intros Hnd Hin; [set_solver|]. cbn [hashes fmap list_fmap] in Hnd. apply NoDup_cons in Hnd as [Hno Hnd]. cbn [kid_of].
  apply elem_of_cons in Hin as [->|Hin]; [by rewrite Z.eqb_refl|]. rewrite (proj2 (Z.eqb_neq _ _)); [by apply IH|]. intros E. apply Hno. rewrite E. by apply (list_elem_of_fmap_2 (λ k, sdb_hash k.1)).
Qed.

Lemma entry_elem w es ks e : Forall2 (entry w) es ks → e ∈ es → ∃ k, k ∈ ks ∧ entry w e k.
Proof. intros HF He. apply list_elem_of_lookup in He as [i Hi]. destruct (Forall2_lookup_l _ _ _ _ _ HF Hi) as (k & Hk & HR). exists k. split; [by eapply list_elem_of_lookup_2|done]. Qed.

(** ** What a copy leaves alone *)

Definition kept (D : id) (w w' : World) : Prop :=
  nss w ⊆ nss w' ∧ ∀ i n, dbs w !! i = Some n → i ≠ D → ∃ s, dbs w' !! i = Some (set_sdb s n) ∧ same_core (sdb n) s.

#[global] Instance kept_preorder D : PreOrder (kept D).
Proof.
  split.
  - intros w. split; [done|]. intros i n Hn _. exists (sdb n). split; [|done]. rewrite Hn. by destruct n.
  - intros w1 w2 w3 [H1 H2] [K1 K2]. split; [by etrans|]. intros i n Hn Hi. destruct (H2 i n Hn Hi) as (s & Hs & Hc).
    destruct (K2 _ _ Hs Hi) as (s' & Hs' & Hc'). exists s'. split; [done|]. by etrans.
Qed.

Lemma kept_live D w w' i : kept D w w' → is_Some (dbs w !! i) → i ≠ D → is_Some (dbs w' !! i).
Proof. intros [_ H] [n Hn] Hi. destruct (H i n Hn Hi) as (s & -> & _). by eexists. Qed.

Lemma kept_entry D w w' e k : kept D w w' → entry w e k → entry w' e k.
Proof. intros [Hs _] [He Hk]. split; [by eapply lookup_weaken|done]. Qed.

Lemma kept_entries D w w' es ks : kept D w w' → Forall2 (entry w) es ks → Forall2 (entry w') es ks.
Proof. intros Hk HF. eapply Forall2_impl; [exact HF|]. intros e k. by apply kept_entry with D. Qed.

(** The steps before and after a database [c] is made. *)
Lemma kept_new D c w w1 w2 : kept D w w1 → kept c w1 w2 → dbs w !! c = None → kept D w w2.
Proof.
  intros [H1 H2] [K1 K2] Hc. split; [by etrans|]. intros i n Hn Hi. destruct (H2 i n Hn Hi) as (s & Hs & Hsc).
  destruct (K2 _ _ Hs) as (s' & Hs' & Hsc'); [congruence|]. exists s'. split; [done|]. by etrans.
Qed.

(** ** Trees *)

Section trees.
Context (m K : nat) (HK : 2 * Z.of_nat (K + m) + 1 < 2 ^ 31).

(** A database that can be copied. *)
Record node_ok (n : Node) : Prop := {
  nk_mem : mem_inv m (sdb n);
  nk_view : map_Forall (λ k v, key_ok k ∧ val_ok v) (view (sdb n));
  nk_size : (base.size (view (sdb n)) <= K)%nat
}.

Lemma node_ok_core n s : same_core (sdb n) s → node_ok n → node_ok (set_sdb s n).
Proof. intros Hc [H1 H2 H3]. split; cbn [sdb set_sdb]; [by eapply mem_inv_core|by rewrite (view_core _ _ Hc)..]. Qed.

(** A tree of databases in [S], of depth less than [k]. *)
Fixpoint source (S : id → Prop) (w : World) (k : nat) (i : id) : Prop :=
  match k with
  | O => False
  | Datatypes.S k' => ∃ n ks, dbs w !! i = Some n ∧ S i ∧ node_ok n ∧ Forall2 (entry w) (entries n) ks ∧ NoDup (hashes ks) ∧ Forall (λ x, source S w k' x.2) ks
  end.

(** The tree at [b] is a copy of the one at [a], and both are in [Q]. *)
Fixpoint copied (Q : id → Prop) (w : World) (k : nat) (a b : id) : Prop :=
  match k with
  | O => False
  | Datatypes.S k' => ∃ na nb ka kb, dbs w !! a = Some na ∧ dbs w !! b = Some nb ∧ (Q a ∧ Q b) ∧ view (sdb na) = view (sdb nb) ∧
      Forall2 (entry w) (entries na) ka ∧ Forall2 (entry w) (entries nb) kb ∧ NoDup (hashes ka) ∧ Forall2 (λ x y, x.1 = y.1 ∧ copied Q w k' x.2 y.2) ka kb
  end.

Lemma source_kept (S : id → Prop) D w w' k i : ¬ S D → kept D w w' → source S w k i → source S w' k i.
Proof.
  intros HD Hk. revert i. induction k as [|k IH]; intros i; [done|]. intros (n & ks & Hn & HS & Hok & HF & Hnd & Hks).
  destruct Hk as [Hs Hd] eqn:E. destruct (Hd i n Hn) as (s & Hs' & Hc); [by intros ->|]. exists (set_sdb s n), ks. split_and!; [done|done|by apply node_ok_core|by eapply kept_entries|done|].
  eapply Forall_impl; [exact Hks|]. intros x. apply IH.
Qed.

Lemma copied_kept (Q : id → Prop) D w w' k a b : ¬ Q D → kept D w w' → copied Q w k a b → copied Q w' k a b.
Proof.
  intros HD Hk. revert a b. induction k as [|k IH]; intros a b; [done|]. intros (na & nb & ka & kb & Ha & Hb & [Qa Qb] & Hv & Fa & Fb & Hnd & Fk).
  pose proof Hk as [Hs Hd]. destruct (Hd a na Ha) as (sa & Ha' & Hca); [by intros ->|]. destruct (Hd b nb Hb) as (sb & Hb' & Hcb); [by intros ->|].
  exists (set_sdb sa na), (set_sdb sb nb), ka, kb. split_and!; [done|done|done|done| |by eapply kept_entries|by eapply kept_entries|done|].
  - cbn [sdb set_sdb]. by rewrite (view_core _ _ Hca), (view_core _ _ Hcb).
  - eapply Forall2_impl; [exact Fk|]. intros x y [E Hc]. split; [done|by apply IH].
Qed.

Lemma copied_mono (Q Q' : id → Prop) w k a b : (∀ i, Q i → Q' i) → copied Q w k a b → copied Q' w k a b.
Proof.
  intros HQ. revert a b. induction k as [|k IH]; intros a b; [done|]. intros (na & nb & ka & kb & Ha & Hb & [Qa Qb] & Hv & Fa & Fb & Hnd & Fk).
  exists na, nb, ka, kb. split_and!; try done; [by apply HQ|by apply HQ|]. eapply Forall2_impl; [exact Fk|]. intros x y [E Hc]. split; [done|by apply IH].
Qed.

Lemma copied_hashes Q w k ka kb : Forall2 (λ x y : bytes * id, x.1 = y.1 ∧ copied Q w k x.2 y.2) ka kb → hashes ka = hashes kb.
Proof. induction 1 as [|x y ka kb [E _] _ IH]; [done|]. unfold hashes in *. cbn [fmap list_fmap] in *. by rewrite E, IH. Qed.

(** A copy is equal, and not deeper. *)
Lemma copied_tree Q w k a b : copied Q w k a b → tree_eq w a b ∧ shallow w k a ∧ shallow w k b.
Proof.
  revert a b. induction k as [|k IH]; intros a b; [done|]. intros (na & nb & ka & kb & Ha & Hb & _ & Hv & Fa & Fb & Hnd & Fk). pose proof (copied_hashes _ _ _ _ _ Fk) as Hh. split_and!.
  - apply (tree_eq_intro w a b na nb); [done|done| | |done].
    + intros e x ca He Hx Hca. destruct (entry_elem _ _ _ _ Fa He) as (ke & Hke & [Hxe _]). apply list_elem_of_lookup in Hke as [i Hi]. destruct (Forall2_lookup_l _ _ _ _ _ Fk Hi) as (kf & Hkf & E & Hcp).
      assert (x = mkNs (Some ke.1) (sdb_hash ke.1) (Some ke.2)) as -> by congruence. cbn in Hca. injection Hca as <-. exists kf.2. split; [|by apply IH].
      unfold same_ns, name_of. cbn [ns_name default from_option]. change (Datatypes.id ke.1) with ke.1. rewrite (child_kid w _ kb) by done. rewrite E. apply kid_elem; [by rewrite <- Hh|by eapply list_elem_of_lookup_2].
    + intros e x He Hx. destruct (entry_elem _ _ _ _ Fb He) as (kf & Hkf & [Hxe _]). apply list_elem_of_lookup in Hkf as [i Hi]. destruct (Forall2_lookup_r _ _ _ _ _ Fk Hi) as (ke & Hke & E & _).
      assert (x = mkNs (Some kf.1) (sdb_hash kf.1) (Some kf.2)) as -> by congruence.
      unfold same_ns, name_of. cbn [ns_name default from_option]. change (Datatypes.id kf.1) with kf.1. rewrite (child_kid w _ ka) by done. rewrite <- E. rewrite (kid_elem ka ke) by (done || by eapply list_elem_of_lookup_2). by eexists.
  - cbn [shallow]. intros nd e x c Hd He Hx Hc. assert (nd = na) as -> by congruence. destruct (entry_elem _ _ _ _ Fa He) as (ke & Hke & [Hxe _]). apply list_elem_of_lookup in Hke as [i Hi].
    destruct (Forall2_lookup_l _ _ _ _ _ Fk Hi) as (kf & _ & _ & Hcp). assert (c = ke.2) as -> by (rewrite Hxe in Hx; injection Hx as <-; cbn in Hc; congruence). by apply (IH _ _ Hcp).
  - cbn [shallow]. intros nd e x c Hd He Hx Hc. assert (nd = nb) as -> by congruence. destruct (entry_elem _ _ _ _ Fb He) as (kf & Hkf & [Hxe _]). apply list_elem_of_lookup in Hkf as [i Hi].
    destruct (Forall2_lookup_r _ _ _ _ _ Fk Hi) as (ke & _ & _ & Hcp). assert (c = kf.2) as -> by (rewrite Hxe in Hx; injection Hx as <-; cbn in Hc; congruence). by apply (IH _ _ Hcp).
Qed.

(** ** Running *)

Record world_ok (w : World) : Prop := {
  wo_linked i n e : dbs w !! i = Some n → e ∈ entries n → ∃ k, entry w e k ∧ is_Some (dbs w !! k.2);
  wo_mem i n : dbs w !! i = Some n → mem_inv m (sdb n)
}.

Lemma world_linked w : world_ok w → linked w.
Proof. intros [Hl _] i n e Hi He. destruct (Hl i n e Hi He) as ([nm c] & [Hx Hne] & Hc). by eexists _, nm, c. Qed.

(** A database that changes in its pairs only. *)
Lemma world_set w i n s : world_ok w → dbs w !! i = Some n → mem_inv m s → world_ok (mkWorld (<[i := set_sdb s n]> (dbs w)) (nss w)).
Proof.
  intros [Hl Hm] Hi Hs. assert (∀ c, is_Some (dbs w !! c) → is_Some (<[i := set_sdb s n]> (dbs w) !! c)) as Hlive by (intros c Hc; apply lookup_insert_is_Some'; by right).
  split; cbn [dbs nss].
  - intros j nj e [[<- <-]|[_ Hj]]%lookup_insert_Some He; [destruct (Hl i n e Hi He) as (k & Hk & Hc)|destruct (Hl j nj e Hj He) as (k & Hk & Hc)]; exists k; (split; [done|by apply Hlive]).
  - intros j nj [[<- <-]|[_ Hj]]%lookup_insert_Some; [done|by eapply Hm].
Qed.

Lemma kept_set D w i n s : dbs w !! i = Some n → (i ≠ D → same_core (sdb n) s) → kept D w (mkWorld (<[i := set_sdb s n]> (dbs w)) (nss w)).
Proof.
  intros Hi Hc. split; [done|]. cbn [dbs]. intros j nj Hj Hne. destruct (decide (i = j)) as [<-|Hij].
  - rewrite lookup_insert_eq. replace nj with n by congruence. eauto.
  - rewrite lookup_insert_ne by done. exists (sdb nj). split; [|done]. rewrite Hj. by destruct nj.
Qed.

(** The namespace [nm], which is not there yet, is made. *)
Lemma create_run w dst nd lb kb nm : world_ok w → dbs w !! dst = Some nd → ns nd = Some lb → ns_lock nd = 0 → s_dir nd = None → Forall2 (entry w) lb kb → sdb_hash nm ∉ hashes kb → hd0 nm ≠ 0 →
  ∃ c e n0 w1, sdb_ns (Some dst) nm true w = Ok (Some c) w1 ∧ dbs w !! c = None ∧ kept dst w w1 ∧ world_ok w1 ∧ dbs w1 !! c = Some n0 ∧
    (sdb_new0 = Some (sdb n0) ∧ ns n0 = Some [] ∧ ns_lock n0 = 0 ∧ s_dir n0 = None) ∧ dbs w1 !! dst = Some (set_ns (Some (lb ++ [e])) nd) ∧ entry w1 e (nm, c).
Proof.
  intros Hw Hd Hl Hlk Hdir HF Hno Hne. destruct w as [d mm]. cbn [dbs nss] in *. destruct (ns_new_run d mm dst nd nm (sdb_hash nm) Hd) as [[? _]|(n0 & [_ Hn0] & Hl0 & [Hk0 Hd0] & E)]; [done|]. cbn zeta in E.
  set (c := fresh (dom d)) in *. set (e := fresh (dom mm)) in *. assert (d !! c = None) as Hc by apply fresh_none. assert (mm !! e = None) as He by apply fresh_none. assert (c ≠ dst) as Hcd by congruence.
  destruct (find_child (has_hash (sdb_hash nm)) (sdb_hash nm) lb d mm) as (o & Eo & Ho); [|done|].
  { intros e' He'. destruct (entry_elem _ _ _ _ HF He') as (k & _ & [Hx _]). by eexists. }
  assert (o = None) as ->.
  { destruct (find_ns_spec (has_hash (sdb_hash nm)) lb d mm) as (o' & Eo' & Ho'); [intros e' He'; destruct (entry_elem _ _ _ _ HF He') as (k & _ & [Hx _]); by eexists|].
    rewrite Eo in Eo'. injection Eo' as <-. destruct o as [[e' x]|]; [|done]. destruct Ho' as ((l1 & l2 & ->) & Hx & Hh). destruct (entry_elem _ _ _ e' HF ltac:(set_solver)) as (k & Hk & [Hx' _]). cbn [nss] in Hx'.
    rewrite Hx in Hx'. injection Hx' as ->. unfold has_hash in Hh. cbn in Hh. zbool. exfalso. apply Hno. rewrite <- Hh. by apply (list_elem_of_fmap_2 (λ k, sdb_hash k.1)). }
  set (x := mkNs (Some nm) (sdb_hash nm) (Some c)) in *. exists c, e, n0, (mkWorld (<[dst := set_ns (Some (lb ++ [e])) nd]> (<[c := n0]> d)) (<[e := x]> mm)). cbn [dbs nss]. split_and!; try done.
  - unfold sdb_ns. rewrite (proj2 (Z.eqb_neq _ _)) by done. cbn zeta. erewrite bind_ok by (by apply load_db_ok). unfold entries. rewrite Hl. cbn [default from_option Datatypes.id]. change (Datatypes.id lb) with lb.
    rewrite (bind_ok _ _ _ _ _ Eo). rewrite Hlk. cbn [negb orb Z.eqb]. rewrite (bind_ok _ _ _ _ _ E). unfold ns_append. erewrite bind_ok by (apply alter_db_ok; rewrite lookup_insert_ne by done; exact Hd).
    erewrite bind_ok by (apply load_ns_ok, lookup_insert_eq). by rewrite Hl.
  - split; [by apply insert_subseteq|]. intros i n Hi Hid. cbn [dbs] in *. rewrite !lookup_insert_ne by congruence. exists (sdb n). split; [|done]. cbn in Hi. rewrite Hi. by destruct n.
  - destruct Hw as [Hlnk Hm]. assert (∀ i, is_Some (d !! i) → is_Some (<[dst := set_ns (Some (lb ++ [e])) nd]> (<[c := n0]> d) !! i)) as Hlive by (intros i Hi; do 2 (apply lookup_insert_is_Some'; right); done).
    assert (∀ e' k, entry (mkWorld d mm) e' k → entry (mkWorld (<[dst := set_ns (Some (lb ++ [e])) nd]> (<[c := n0]> d)) (<[e := x]> mm)) e' k) as Hent
      by (intros e' k [Hx Hk]; split; [cbn [nss] in *; rewrite lookup_insert_ne; [done|congruence]|done]).
    split; cbn [dbs nss].
    + intros i n e' [[<- <-]|[_ [[<- <-]|[_ Hi]]%lookup_insert_Some]]%lookup_insert_Some He'.
      * rewrite entries_set_ns in He'. apply elem_of_app in He' as [He'| ->%list_elem_of_singleton].
        -- destruct (Hlnk dst nd e' Hd) as (k & Hk & Hkc); [unfold entries; by rewrite Hl|]. exists k. split; [by apply Hent|by apply Hlive].
        -- exists (nm, c). split; [split; [cbn [nss]; by rewrite lookup_insert_eq|done]|]. cbn [snd]. rewrite lookup_insert_ne, lookup_insert_eq by done. by eexists.
      * unfold entries in He'. rewrite Hl0 in He'. set_solver.
      * destruct (Hlnk i n e' Hi He') as (k & Hk & Hkc). exists k. split; [by apply Hent|by apply Hlive].
    + intros i n [[<- <-]|[_ [[<- <-]|[_ Hi]]%lookup_insert_Some]]%lookup_insert_Some; [exact (Hm dst nd Hd)| |by eapply Hm].
      destruct (sdb_new0_ok m) as (s & Es & Hi & _); [lia|]. by replace (sdb n0) with s by congruence.
  - by rewrite lookup_insert_ne, lookup_insert_eq.
  - by rewrite lookup_insert_eq.
  - split; [cbn [nss]; by rewrite lookup_insert_eq|done].
Qed.

(** What copying one tree does; [n0] is the destination. *)
Definition copies (now : Z) (S : id → Prop) (k : nat) : Prop := ∀ w src dst n0, world_ok w → (∀ i, S i → is_Some (dbs w !! i)) → ¬ S dst → source S w k src →
  dbs w !! dst = Some n0 → ns n0 = Some [] → ns_lock n0 = 0 → s_dir n0 = None → mem_inv (K + m) (sdb n0) → view (sdb n0) = ∅ →
  ∃ w', sdb_copy now k (Some src) (Some dst) w = Ok () w' ∧ kept dst w w' ∧ world_ok w' ∧ copied (λ i, S i ∨ i = dst ∨ dbs w !! i = None) w' k src dst.

Lemma copy_kids now (S : id → Prop) k w0 dst ks : copies now S k → is_Some (dbs w0 !! dst) → ¬ S dst → (∀ i, S i → is_Some (dbs w0 !! i)) →
  ∀ es w nd lb ka kb, kept dst w0 w → world_ok w → Forall2 (entry w) es ks → NoDup (hashes (ka ++ ks)) → Forall (λ x, source S w k x.2) ks →
  dbs w !! dst = Some nd → ns nd = Some lb → ns_lock nd = 0 → s_dir nd = None → Forall2 (entry w) lb kb →
  Forall2 (λ x y, x.1 = y.1 ∧ copied (λ i, S i ∨ dbs w0 !! i = None) w k x.2 y.2) ka kb →
  ∃ w' nd' kb', foreach (λ e _, x ← load_ns e; c ← sdb_ns (Some dst) (default [] (ns_name x)) true; sdb_copy now k (ns_sdb x) c) es () w = Ok () w' ∧ kept dst w w' ∧ world_ok w' ∧
    dbs w' !! dst = Some nd' ∧ view (sdb nd') = view (sdb nd) ∧ Forall2 (entry w') (entries nd') kb' ∧
    Forall2 (λ x y, x.1 = y.1 ∧ copied (λ i, S i ∨ dbs w0 !! i = None) w' k x.2 y.2) (ka ++ ks) kb'.
Proof.
  intros Hrec Hdst HSd HSl. induction ks as [|[nm ca] ks IH]; intros es w nd lb ka kb Hk0 Hw HFe Hnd Hsrc Hd Hl Hlk Hdir HFb HFc.
  { apply Forall2_nil_inv_r in HFe as ->. rewrite app_nil_r in *. exists w, nd, kb. split_and!; [done|done|done|done|done|unfold entries; by rewrite Hl|done]. }
  apply Forall2_cons_inv_r in HFe as (e & es' & He & HFe & ->). apply Forall_cons in Hsrc as [Hca Hsrc]. cbn [snd] in Hca. cbn [foreach].
  destruct He as [Hx Hne]. cbn [fst snd] in Hx, Hne. assert (load_ns e w = Ok (mkNs (Some nm) (sdb_hash nm) (Some ca)) w) as El by (unfold load_ns; by rewrite Hx).
  assert (sdb_hash nm ∉ hashes kb) as Hno.
  { rewrite <- (copied_hashes _ _ _ _ _ HFc). unfold hashes in Hnd |- *. rewrite fmap_app in Hnd. apply NoDup_app in Hnd as (_ & Hdis & _). intros Hin. apply (Hdis _ Hin). by left. }
  destruct (create_run w dst nd lb kb nm Hw Hd Hl Hlk Hdir HFb Hno Hne) as (c & e' & n0 & w1 & E1 & Hc & Hk1 & Hw1 & Hc1 & (Hn0 & Hl0 & Hlk0 & Hdir0) & Hd1 & He').
  destruct (sdb_new0_ok (K + m)) as (s0 & Es0 & Hi0 & Hv0 & _); [lia|]. assert (sdb n0 = s0) as Hs0 by congruence. assert (c ≠ dst) as Hcd by congruence.
  assert (∀ i, S i → i ≠ dst) as HSne by (intros i Hi ->; done). assert (¬ S c) as HSc by (intros HS; destruct (kept_live _ _ _ _ Hk0 (HSl _ HS) (HSne _ HS)) as [? Hn]; congruence).
  assert (∀ i, S i → is_Some (dbs w1 !! i)) as HSl1 by (intros i Hi; apply (kept_live dst w0); [by transitivity w|by apply HSl|by apply HSne]).
  destruct (Hrec w1 ca c n0 Hw1 HSl1 HSc) as (w2 & E2 & Hk2 & Hw2 & Hcp); [exact (source_kept S dst w w1 k ca HSd Hk1 Hca)|done|done|done|done|by rewrite Hs0|by rewrite Hs0|].
  pose proof (kept_new _ _ _ _ _ Hk1 Hk2 Hc) as Hk. destruct (proj2 Hk2 _ _ Hd1) as (s2 & Hd2 & Hsc2); [done|].
  assert (∀ i, dbs w !! i = None → dbs w0 !! i = None) as Hback.
  { intros i Hi. destruct (dbs w0 !! i) as [ni|] eqn:Ei; [|done]. destruct (decide (i = dst)) as [->|Hid]; [congruence|]. destruct (proj2 Hk0 _ _ Ei Hid) as (? & ? & _). congruence. }
  assert (¬ (S dst ∨ dbs w0 !! dst = None)) as HQd by (intros [?|Hn]; [done|destruct Hdst; congruence]).
  destruct (IH es' w2 (set_sdb s2 (set_ns (Some (lb ++ [e'])) nd)) (lb ++ [e']) (ka ++ [(nm, ca)]) (kb ++ [(nm, c)])) as (w3 & nd3 & kb3 & E3 & Hk3 & Hw3 & Hd3 & Hv3 & HF3 & HC3); try done.
  - by transitivity w.
  - by eapply kept_entries.
  - by rewrite <- app_assoc.
  - eapply Forall_impl; [exact Hsrc|]. intros x. exact (source_kept S dst w w2 k x.2 HSd Hk).
  - apply Forall2_app; [exact (kept_entries dst w w2 _ _ Hk HFb)|]. constructor; [|constructor]. exact (kept_entry c w1 w2 e' (nm, c) Hk2 He').
  - apply Forall2_app.
    + eapply Forall2_impl; [exact HFc|]. intros x y [Exy Hcxy]. split; [done|]. exact (copied_kept _ dst w w2 k x.2 y.2 HQd Hk Hcxy).
    + constructor; [|constructor]. split; [done|]. cbn [snd]. eapply copied_mono; [|exact Hcp]. intros i [Hi|[->|Hi]]; [by left|right; by apply Hback|right]. apply Hback.
      destruct (dbs w !! i) as [ni|] eqn:Ei; [|done]. destruct (decide (i = dst)) as [->|Hid]; [congruence|]. destruct (proj2 Hk1 _ _ Ei Hid) as (? & ? & _). congruence.
  - exists w3, nd3, kb3. split_and!; [|by transitivity w2|done|done| |done|by rewrite <- app_assoc in HC3].
    + rewrite (bind_ok _ _ _ () w2); [exact E3|]. rewrite (bind_ok _ _ _ _ _ El). cbn [ns_name ns_sdb default from_option]. change (Datatypes.id nm) with nm. by rewrite (bind_ok _ _ _ _ _ E1).
    + rewrite Hv3. cbn [sdb set_sdb set_ns]. by rewrite (view_core _ _ Hsc2).
Qed.

(** The pairs of [src] are set in [dst]. *)
Lemma copy_pairs now (w : World) src dst n n0 : world_ok w → src ≠ dst → dbs w !! src = Some n → node_ok n → dbs w !! dst = Some n0 → mem_inv (K + m) (sdb n0) → view (sdb n0) = ∅ → ∃ w' l s1 s2,
  on_sdb src sdb_foreach_pairs w = Ok l (mkWorld (<[src := set_sdb s1 n]> (dbs w)) (nss w)) ∧
  on_sdb dst (set_pairs now l) (mkWorld (<[src := set_sdb s1 n]> (dbs w)) (nss w)) = Ok () w' ∧ same_core (sdb n) s1 ∧
  kept dst w w' ∧ world_ok w' ∧ dbs w' !! src = Some (set_sdb s1 n) ∧ dbs w' !! dst = Some (set_sdb s2 n0) ∧ view s2 = view (sdb n).
Proof.
  intros Hw Hne Hs [Hm Hok Hsz] Hd Hi0 Hv0. destruct (foreach_pairs_mem m (sdb n) Hm) as (l & s1 & E1 & Hp & Hc1).
  assert (length l = base.size (view (sdb n))) as Hl by (rewrite Hp; by rewrite length_map_to_list).
  destruct (set_pairs_mem now l m (sdb n0)) as (s2 & E2 & Hi2 & Hv2); [eapply mem_inv_le; [|exact Hi0]; lia| |].
  { rewrite Hp. apply Forall_forall. intros [k v] Hkv%elem_of_map_to_list. by apply Hok. }
  pose proof (kept_set dst w src n s1 Hs (λ _, Hc1)) as Hk1. pose proof (world_set w src n s1 Hw Hs (mem_inv_core _ _ _ _ Hc1 Hm)) as Hw1. set (w1 := mkWorld (<[src := set_sdb s1 n]> (dbs w)) (nss w)) in *.
  assert (dbs w1 !! dst = Some n0) as Hd1 by (cbn [dbs w1]; by rewrite lookup_insert_ne).
  exists (mkWorld (<[dst := set_sdb s2 n0]> (dbs w1)) (nss w1)), l, s1, s2. split_and!.
  - unfold on_sdb. by rewrite Hs, E1.
  - fold w1. unfold on_sdb. by rewrite Hd1, E2.
  - done.
  - transitivity w1; [done|]. by apply kept_set.
  - by apply world_set.
  - cbn [dbs w1]. by rewrite lookup_insert_ne, lookup_insert_eq.
  - cbn [dbs]. by rewrite lookup_insert_eq.
  - rewrite Hv2, Hv0, foldl_put_union.
    + rewrite (right_id_L ∅ (∪)). rewrite <- (list_to_map_to_list (view (sdb n))). apply list_to_map_proper; [|done]. rewrite Hp. apply NoDup_fst_map_to_list.
    + rewrite Hp. apply NoDup_fst_map_to_list.
    + rewrite Hp. apply Forall_forall. intros [k v] Hkv%elem_of_map_to_list. by destruct (view_cstr m _ k v Hm Hkv) as (_ & ? & _).
Qed.

Lemma copy_ok now S k : copies now S k.
Proof.
  induction k as [|k IH]; intros w src dst n0 Hw HSl HSd Hsrc Hd Hl Hlk Hdir Hi0 Hv0; [done|]. pose proof Hsrc as (n & ks & Hn & HS & Hok & HF & Hnd & Hks).
  assert (src ≠ dst) as Hne by congruence. destruct (copy_pairs now w src dst n n0 Hw Hne Hn Hok Hd Hi0 Hv0) as (w1 & l & s1 & s2 & E1 & E2 & Hc1 & Hk1 & Hw1 & Hs1 & Hd1 & Hv1).
  destruct (copy_kids now S k w dst ks IH ltac:(by eexists) HSd HSl (entries n) w1 (set_sdb s2 n0) [] [] []) as (w2 & nd & kb & E3 & Hk2 & Hw2 & Hd2 & Hv2 & HF2 & HC2); try done.
  { exact (kept_entries dst w w1 _ _ Hk1 HF). }
  { eapply Forall_impl; [exact Hks|]. intros x. exact (source_kept S dst w w1 k x.2 HSd Hk1). }
  exists w2. split_and!.
  - cbn [sdb_copy]. rewrite (bind_ok _ _ _ _ _ E1), (bind_ok _ _ _ _ _ E2). assert (load_db src w1 = Ok (set_sdb s1 n) w1) as El by (unfold load_db; by rewrite Hs1). rewrite (bind_ok _ _ _ _ _ El). exact E3.
  - by transitivity w1.
  - done.
  - destruct (proj2 Hk2 _ _ Hs1 Hne) as (s3 & Hs3 & Hc3). cbn [copied]. eexists _, nd, ks, kb. split_and!; [exact Hs3|exact Hd2|by left|by right; left| | |done|done|].
    + cbn [sdb set_sdb]. rewrite Hv2. cbn [sdb set_sdb]. rewrite Hv1. rewrite (view_core _ _ Hc3). by apply view_core.
    + exact (kept_entries dst w w2 _ _ ltac:(by transitivity w1) HF).
    + eapply Forall2_impl; [exact HC2|]. intros x y [E Hc]. split; [done|]. eapply copied_mono; [|exact Hc]. intros i [?|?]; [by left|by right; right].
Qed.

End trees.

(** ** The worlds of [ns_counts_exact] *)

Section copying.
Context (ext : id → Z) (w : World) (m K : nat) (Hg : good ext w) (Hnm : named w) (Hok : ∀ i n, dbs w !! i = Some n → node_ok m K n).

Lemma good_entry i n e : dbs w !! i = Some n → e ∈ entries n → ∃ k, entry w e k ∧ is_Some (dbs w !! k.2).
Proof.
  intros Hi He. destruct (owned_entries ext w Hg i n e Hi He) as (x & c & nc & Hx & Hc & Hnc). destruct (Hnm e x Hx) as (nm & Hxn & Hne). destruct (inv_hash _ _ _ _ Hg e x Hx) as (nm' & Hxn' & Hh).
  exists (nm, c). split; [split; [|done]|by eexists]. rewrite Hx. destruct x as [xn xh xs]. cbn in *. congruence.
Qed.

Lemma good_world : world_ok m w.
Proof. split; [exact good_entry|]. intros i n Hi. apply (Hok i n Hi). Qed.

Lemma good_kids i n : dbs w !! i = Some n → ∃ ks, Forall2 (entry w) (entries n) ks ∧ NoDup (hashes ks) ∧ Forall (λ k, ∃ e x, e ∈ entries n ∧ nss w !! e = Some x ∧ ns_sdb x = Some k.2) ks.
Proof.
  intros Hi. assert (∀ es, (∀ e, e ∈ es → e ∈ entries n) → NoDup es → ∃ ks, Forall2 (entry w) es ks ∧ NoDup (hashes ks) ∧ Forall (λ k, ∃ e x, e ∈ entries n ∧ nss w !! e = Some x ∧ ns_sdb x = Some k.2) ks) as H.
  { induction es as [|e es IH]; intros Hin Hnd; [exists []; split_and!; [constructor|unfold hashes; constructor|constructor]|]. apply NoDup_cons in Hnd as [Hno Hnd].
    destruct IH as (ks & HF & Hh & Hks); [set_solver|done|]. destruct (good_entry i n e Hi ltac:(set_solver)) as (k & [Hx Hne] & _). exists (k :: ks). split_and!.
    - constructor; [by split|done].
    - unfold hashes in *. cbn [fmap list_fmap]. apply NoDup_cons. split; [|done]. intros (k' & Eh & Hk')%list_elem_of_fmap. apply list_elem_of_lookup in Hk' as [j Hj]. destruct (Forall2_lookup_r _ _ _ _ _ HF Hj) as (e' & He' & [Hx' _]).
      apply Hno. replace e with e'; [by eapply list_elem_of_lookup_2|]. assert (e' ∈ es) by (by eapply list_elem_of_lookup_2).
      eapply (inv_distinct _ _ _ _ Hg i e' e); [unfold owned; rewrite lookup_empty, Hi; set_solver|unfold owned; rewrite lookup_empty, Hi; set_solver|exact Hx'|exact Hx|done].
    - constructor; [|done]. exists e. eexists. split; [set_solver|]. by split. }
  apply H; [done|]. pose proof (inv_nodup _ _ _ _ Hg i) as Hnd. unfold owned in Hnd. by rewrite lookup_empty, Hi in Hnd.
Qed.

Lemma below_trans a b c : below w a b → below w b c → below w a c.
Proof. induction 1 as [s|s n e x c' t H1 H2 H3 H4 _ IH]; [done|]. intros Hbc. eapply below_step; [done..|]. by apply IH. Qed.

Lemma below_live a i : is_Some (dbs w !! a) → below w a i → is_Some (dbs w !! i).
Proof. intros Ha Hb. revert Ha. induction Hb as [s|s n e x c t H1 H2 H3 H4 _ IH]; [done|]. intros _. apply IH. destruct (inv_target _ _ _ _ Hg e x H3) as (c' & Hc & Hl). congruence. Qed.

Lemma good_source a k i : below w a i → is_Some (dbs w !! i) → shallow w k i → source m K (below w a) w k i.
Proof.
  revert i. induction k as [|k IH]; intros i Hb [n Hn] Hs; [done|]. destruct (good_kids i n Hn) as (ks & HF & Hnd & Hks). exists n, ks. split_and!; [done|done|by eapply Hok|done|done|].
  eapply Forall_impl; [exact Hks|]. intros k' (e & x & He & Hx & Hc). cbn [shallow] in Hs. assert (below w i k'.2) as Hbk by (eapply below_step; [exact Hn|exact He|exact Hx|exact Hc|constructor]).
  apply IH; [by eapply below_trans|apply (below_live i); [by eexists|done]|by eapply Hs].
Qed.

End copying.

(** C24: Copying a database with its namespaces gives an equal one. Where all databases are in
    memory without expirations, with keys and values within the sizes of [sdb_set] and at most [K]
    pairs each, counts and entries are as C14 keeps them, entries have names that are not empty, the
    namespaces under the source form no cycle (on a cycle the copy does not end), and the
    destination is empty, without namespaces, unlocked, without a file name (with a long one a
    namespace would be left out), and not under the source: the copy ends; the destination has the
    same keys with the same values and the same namespaces, and these again; [sdb_diff] of the two
    finds no difference; and every other database keeps its contents and its namespaces. *)
Theorem sdb_copy_equal now cb ext w m K fuel a b na nb :
  good ext w → named w → (∀ i n, dbs w !! i = Some n → node_ok m K n) → 2 * Z.of_nat (K + m) + 1 < 2 ^ 31 →
  dbs w !! a = Some na → shallow w fuel a → dbs w !! b = Some nb → ¬ below w a b →
  ns nb = Some [] → ns_lock nb = 0 → s_dir nb = None → mem_inv (K + m) (sdb nb) → view (sdb nb) = ∅ →
  ∃ w1 w2, sdb_copy now fuel (Some a) (Some b) w = Ok () w1 ∧ tree_eq w1 a b ∧ sdb_diff now cb fuel a b w1 = Ok (true, []) w2 ∧
    ∀ i n, dbs w !! i = Some n → i ≠ b → ∃ n', dbs w1 !! i = Some n' ∧ view (sdb n') = view (sdb n) ∧ entries n' = entries n.
Proof.
  intros Hg Hnm Hok HK Ha Hsa Hb Hnb Hl Hlk Hdir Hi Hv. pose proof (good_world ext w m K Hg Hnm Hok) as Hw.
  destruct (copy_ok m K HK now (below w a) fuel w a b nb Hw) as (w1 & E & [Hns Hkp] & Hw1 & Hc); try done.
  { intros i Hbi. apply (below_live ext w Hg a i); [by eexists|done]. }
  { apply (good_source ext w m K Hg Hnm Hok a fuel a); [constructor|by eexists|done]. }
  destruct (copied_tree _ _ _ _ _ Hc) as (Ht & Hs1 & Hs2). destruct fuel as [|fuel]; [done|]. pose proof Hc as (na1 & nb1 & _ & _ & Ha1 & Hb1 & _).
  destruct (ctx_spec now cb w1 m (world_linked m w1 Hw1) (wo_mem m w1 Hw1) (S fuel) [] a b na1 nb1 (mkCtx true []) w1) as (c & w2 & E2 & _ & Ho); [done..|].
  exists w1, w2. split_and!; [done|done| |].
  - unfold sdb_diff. rewrite (bind_ok _ _ _ _ _ E2). by destruct Ho as [[_ ->]|[? _]].
  - intros i n Hin Hne. destruct (Hkp i n Hin Hne) as (s & Hs & Hsc). exists (set_sdb s n). split_and!; [done|by apply view_core|done].
Qed.

(** A world for the witness: the database 1 with a value and the namespace [sub] at 2, and the empty database 3. *)
Lemma demo_world : ∃ ext w na nb, good ext w ∧ named w ∧ (∀ i n, dbs w !! i = Some n → node_ok 4 3 n) ∧
  dbs w !! 1%positive = Some na ∧ view (sdb na) = {[ str "k" := str "v" ]} ∧ entries na = [1%positive] ∧ dbs w !! 3%positive = Some nb ∧ ns nb = Some [] ∧ ns_lock nb = 0 ∧ s_dir nb = None ∧
  mem_inv 7 (sdb nb) ∧ view (sdb nb) = ∅ ∧ shallow w 2 1 ∧ ¬ below w 1 3.
Proof.
  destruct (sdb_new0_ok 8) as (s0 & Es & Hi0 & Hv0 & _); [done|]. assert (refs s0 = 1) as Hr0 by (revert Es; unfold sdb_new0; destruct (sdb_ht_new _); [by intros [= <-]|done]).
  assert ((λ s, refs (sdb_set 0 (Some (str "k")) (Some (str "v")) 0 s).2) <$> sdb_new0 = Some 1) as Hr1 by (vm_compute; reflexivity). rewrite Es in Hr1. cbn [fmap option_fmap option_map] in Hr1.
  pose proof (set_mem_view 0 7 s0 (str "k") (str "v") false Hi0 ltac:(done) ltac:(split; [repeat constructor|done])) as Hset. fold (sdb_set 0 (Some (str "k")) (Some (str "v")) 0) in Hset.
  destruct (sdb_set 0 (Some (str "k")) (Some (str "v")) 0 s0) as [r s1]. destruct Hset as (Hi1 & _ & Hv1). rewrite Hv0 in Hv1. cbn [snd] in Hr1. injection Hr1 as Hr1.
  assert (view s1 = {[ str "k" := str "v" ]}) as Hv1' by (by rewrite Hv1). clear Hv1.
  set (n0 := mkNode s0 None None None 0 (Some [])). set (n1 := mkNode s1 None None None 0 (Some [])). set (x := mkNs (Some (str "sub")) (sdb_hash (str "sub")) (Some 2%positive)).
  set (d1 := <[1%positive := n1]> (∅ : gmap id Node)). set (ext1 := bump 1 (λ _, 0)).
  assert (inv ext1 ∅ (∅ : gmap id SdbNs) d1) as I1 by (apply inv_new; [apply good_init|apply lookup_empty|done|done|done]).
  assert (inv (bump 2 ext1) ∅ (∅ : gmap id SdbNs) (<[2%positive := n0]> d1)) as I2 by (apply inv_new; [done|done|done|done|done]).
  pose proof (inv_append ext1 _ _ 1%positive n1 [] 1%positive x 2%positive (str "sub") I2 ltac:(by vm_compute) eq_refl eq_refl (lookup_empty _) eq_refl eq_refl eq_refl ltac:(set_solver)) as I3.
  cbn [app] in I3. set (m3 := <[1%positive := x]> ∅) in *. set (d3 := <[1%positive := set_ns (Some [1%positive]) n1]> (<[2%positive := n0]> d1)) in *.
  assert (inv (bump 3 ext1) ∅ m3 (<[3%positive := n0]> d3)) as I4 by (apply inv_new; [done|done|done|done|done]).
  assert (∀ i n, (<[3%positive := n0]> d3) !! i = Some n → (i = 3%positive ∧ n = n0) ∨ (i = 1%positive ∧ n = set_ns (Some [1%positive]) n1) ∨ (i = 2%positive ∧ n = n0)) as Hcases.
  { intros i n. unfold d3, d1. rewrite !lookup_insert_Some, lookup_empty. naive_solver. }
  exists (bump 3 ext1), (mkWorld (<[3%positive := n0]> d3) m3), (set_ns (Some [1%positive]) n1), n0. split_and!; try done.
  - intros e y. cbn [nss]. unfold m3. intros [[<- <-]|[_ He]]%lookup_insert_Some; [by exists (str "sub")|by rewrite lookup_empty in He].
  - intros i n Hn. cbn [dbs] in Hn. destruct (Hcases i n Hn) as [[_ ->]|[[_ ->]|[_ ->]]]; split; cbn [sdb n0 n1 set_ns].
    all: try (by eapply mem_inv_le; [|first [exact Hi0|exact Hi1]]; lia).
    all: try (by rewrite Hv0; apply map_Forall_empty).
    all: try (by rewrite Hv0, map_size_empty; lia).
    + rewrite Hv1'. apply map_Forall_singleton. split; [done|]. split; [repeat constructor|done].
    + rewrite Hv1', map_size_singleton. lia.
  - eapply mem_inv_le; [|exact Hi0]. lia.
  - cbn [shallow]. intros nd e y c Hd He Hy Hc nd' e' y' c' Hd' He' Hy' Hc'. exfalso. cbn [dbs nss] in *.
    unfold m3 in Hy, Hy'. apply lookup_insert_Some in Hy as [[<- <-]|[_ Hy]]; [|by rewrite lookup_empty in Hy]. cbn in Hc. injection Hc as <-.
    destruct (Hcases _ _ Hd') as [[? _]|[[? _]|[_ ->]]]; [done|done|]. cbn in He'. set_solver.
  - intros Hb. inversion Hb as [|? n e y c t H1 H2 H3 H4 H5]; subst. cbn [dbs nss] in *. unfold m3 in H3. apply lookup_insert_Some in H3 as [[<- <-]|[_ H3]]; [|by rewrite lookup_empty in H3]. cbn in H4. injection H4 as <-.
    inversion H5 as [|? n' e' y' c' t' K1 K2 K3 K4 K5]; subst. cbn [dbs] in K1. destruct (Hcases _ _ K1) as [[? _]|[[? _]|[_ ->]]]; [done|done|]. cbn in K2. set_solver.
Qed.

Lemma sdb_copy_equal_witness : ∃ w w1 w2 na, dbs w !! 1%positive = Some na ∧ view (sdb na) = {[ str "k" := str "v" ]} ∧ entries na = [1%positive] ∧
  sdb_copy 0 2 (Some 1%positive) (Some 3%positive) w = Ok () w1 ∧ sdb_diff 0 true 2 1%positive 3%positive w1 = Ok (true, []) w2.
Proof.
  destruct demo_world as (ext & w & na & nb & Hg & Hnm & Hok & Ha & Hva & Hea & Hb & Hl & Hlk & Hdir & Hi & Hv & Hsh & Hbel).
  destruct (sdb_copy_equal 0 true ext w 4 3 2 1%positive 3%positive na nb Hg Hnm Hok) as (w1 & w2 & E1 & _ & E2 & _); [done|done|done|done|done|done|done|done|done|done|].
  by exists w, w1, w2, na.
Defined.

(** ** Draining

    Without namespaces of its own, the drained database takes over all that the other one
    has, keeps its own count of references, and the other one is gone. *)
Theorem sdb_drain_moves fuel w s f n nf : dbs w !! s = Some n → dbs w !! f = Some nf → s ≠ f → entries n = [] →
  sdb_drain (S fuel) (Some s) (Some f) w = Ok () (mkWorld (delete f (<[s := set_refs (refs (sdb n)) nf]> (dbs w))) (nss w)).
Proof.
  intros Hs Hf Hne He. destruct w as [d mm]. cbn [dbs nss] in *. unfold sdb_drain. erewrite bind_ok by (by apply load_db_ok). erewrite bind_ok by (by apply alter_db_ok).
  set (nf' := set_refs (refs (sdb n)) nf). assert (<[f := nf']> d !! s = Some n) as Hs1 by (by rewrite lookup_insert_ne).
  assert (ns_free (S fuel) (Some s) [] (mkWorld (<[f := nf']> d) mm) = Ok [inl s] (mkWorld (<[s := set_ns None n]> (<[f := nf']> d)) mm)) as E1.
  { cbn [ns_free]. unfold in_list. rewrite bool_decide_false by set_solver. erewrite bind_ok by (by apply load_db_ok). rewrite He. cbn [foreach app]. unfold mbind, W_bind, mret, W_ret. by rewrite (alter_db_ok _ _ _ _ _ Hs1). }
  assert (sdb_ns_free (S fuel) (Some s) (mkWorld (<[f := nf']> d) mm) = Ok () (mkWorld (<[s := set_ns None n]> (<[f := nf']> d)) mm)) as E2.
  { unfold sdb_ns_free. rewrite (bind_ok _ _ _ _ _ E1). erewrite alter_db_ok by apply lookup_insert_eq. by rewrite insert_insert_eq. }
  rewrite (bind_ok _ _ _ _ _ E2). erewrite bind_ok by (apply load_db_ok; rewrite lookup_insert_ne by done; apply lookup_insert_eq). erewrite bind_ok by (apply alter_db_ok, lookup_insert_eq). rewrite insert_insert_eq.
  erewrite free_db_ok by (rewrite lookup_insert_ne by done; apply lookup_insert_eq). do 2 f_equal. by rewrite insert_insert_ne, delete_insert_eq, delete_insert_ne by done.
Qed.
