(* ===== verification/TextNs.v ===== *)
(** * Loading a text into databases with namespaces ([src/text.c] with [src/ns.c])

    The loader of [Text] run on the databases of [Ns]: [sdb_ns] finds or makes the
    namespaces of a path line and [sdb_set] stores the pairs.  What a saved tree of
    databases becomes when it is loaded is a tree of databases with the same pairs in the
    same namespaces. *)

From S2P Require Import Prelude Util Ht HashTables Buffer CdbMake CdbTables Cdb SdbCore SdbIter Text Ns NsRefs NsPath Diff DiffFacts NsCopy.

(** The databases the loader works on; [None] is a fault of one of the calls. *)
Definition world_dbs (now : Z) : TextDbs id (option World) := {|
  text_ns s nm d := match d with
    | Some w => match sdb_ns (Some s) nm true w with Ok c w => (c, Some w) | _ => (None, None) end
    | None => (None, None) end;
  text_set s k v d := match d with
    | Some w => match on_sdb s (sdb_set now (Some k) (Some v) 0) w with Ok _ w => Some w | _ => None end
    | None => None end
|}.

Section world.
Context (now : Z) (m K : nat) (HK : 2 * Z.of_nat (K + m) + 1 < 2 ^ 31).
#[local] Hint Extern 0 (TextDbs id (option World)) => exact (world_dbs now) : typeclass_instances.

(** ** Trees in the heap *)

(** The database at [i] holds the tree [t]: its pairs, and under each name the tree of that
    name, in order; all its databases are in [Q]. *)
Inductive holds (Q : id → Prop) (w : World) : id → SdbTree → Prop :=
| holds_intro i n ks pairs subs :
    dbs w !! i = Some n → Q i → view (sdb n) = list_to_map pairs → Forall2 (entry w) (entries n) ks →
    Forall2 (λ k s, k.1 = s.1 ∧ holds Q w k.2 s.2) ks subs → holds Q w i (Tree pairs subs).

Lemma holds_mono (Q Q' : id → Prop) w i t : (∀ j, Q j → Q' j) → holds Q w i t → holds Q' w i t.
Proof.
  intros HQ. revert i. induction t as [pairs subs IH] using tree_ind'. intros i Hh. inversion Hh as [? n ks ? ? Hn Hq Hv HF HS]; subst.
  econstructor; [done|by apply HQ|done|done|]. clear -IH HS. revert IH. induction HS as [|k s ks subs [E Hh] _ IHS]; intros IH; [constructor|].
  apply Forall_cons_1 in IH as [IH1 IH2]. constructor; [split; [done|by apply IH1]|by apply IHS].
Qed.

Lemma holds_kept (Q : id → Prop) D w w' i t : ¬ Q D → kept D w w' → holds Q w i t → holds Q w' i t.
Proof.
  intros HD Hk. revert i. induction t as [pairs subs IH] using tree_ind'. intros i Hh. inversion Hh as [? n ks ? ? Hn Hq Hv HF HS]; subst.
  destruct (proj2 Hk i n Hn) as (s & Hs & Hc); [by intros ->|].
  econstructor; [exact Hs|done|cbn [sdb set_sdb]; by rewrite (view_core _ _ Hc)|by eapply kept_entries|].
  clear -IH HS. revert IH. induction HS as [|k s ks subs [E Hh] _ IHS]; intros IH; [constructor|].
  apply Forall_cons_1 in IH as [IH1 IH2]. constructor; [split; [done|by apply IH1]|by apply IHS].
Qed.

(** What can be saved and loaded: distinct keys, sizes the database takes, and names of
    namespaces that differ in their hashes, by which [sdb_ns] compares them. *)
Inductive tree_fits : SdbTree → Prop :=
| fits_intro pairs subs :
    NoDup pairs.*1 → Forall (λ kv, key_ok kv.1 ∧ val_ok kv.2 ∧ kv.2 ≠ []) pairs → (length pairs <= K)%nat →
    NoDup ((λ x, sdb_hash x.1) <$> subs) → Forall (λ x, hd0 x.1 ≠ 0 ∧ tree_fits x.2) subs → tree_fits (Tree pairs subs).

(** ** Paths *)

Fixpoint path_to (w : World) (s : id) (names : list bytes) (i : id) : Prop :=
  match names with
  | [] => s = i
  | nm :: names' => ∃ n c, dbs w !! s = Some n ∧ hd0 nm ≠ 0 ∧ child_of (nss w) (sdb_hash nm) (entries n) = Some c ∧ path_to w c names' i
  end.

Lemma walk_path w root s names rest i :
  world_ok m w → path_to w s names i →
  walk_tokens root s (names ++ rest) (Some w) = walk_tokens root i rest (Some w).
Proof.
  intros Hw. revert s. induction names as [|nm names IH]; intros s; [by intros ->|]. intros (n & c & Hn & Hne & Hc & Hp).
  cbn [app walk_tokens text_ns world_dbs].
  assert (sdb_ns (Some s) nm true w = Ok (Some c) w) as ->; [|by apply IH].
  destruct w as [d mm]. cbn [dbs nss] in *. unfold sdb_ns. rewrite (proj2 (Z.eqb_neq _ _)) by done. cbn zeta. erewrite bind_ok by (by apply load_db_ok).
  destruct (find_child (has_hash (sdb_hash nm)) (sdb_hash nm) (entries n) d mm) as (o & Eo & Ho); [|done|].
  { intros e He. destruct (wo_linked _ _ Hw s n e Hn He) as (k & [Hx _] & _). by eexists. }
  rewrite (bind_ok _ _ _ _ _ Eo). destruct o as [[e x]|]; [|congruence]. unfold mret, W_ret. congruence.
Qed.

(** Lists only get longer. *)
Definition extends (w w' : World) : Prop :=
  nss w ⊆ nss w' ∧ ∀ i n, dbs w !! i = Some n → ∃ n' l, dbs w' !! i = Some n' ∧ entries n' = entries n ++ l.

Lemma extends_trans w1 w2 w3 : extends w1 w2 → extends w2 w3 → extends w1 w3.
Proof.
  intros [H1 H2] [K1 K2]. split; [by etrans|]. intros i n Hn. destruct (H2 i n Hn) as (n2 & l2 & Hn2 & E2).
  destruct (K2 i n2 Hn2) as (n3 & l3 & Hn3 & E3). exists n3, (l2 ++ l3). split; [done|]. by rewrite E3, E2, app_assoc.
Qed.

(** What a database keeps, and one that only grows. *)
Lemma kept_extends D w w' n n' l :
  kept D w w' → dbs w !! D = Some n → dbs w' !! D = Some n' → entries n' = entries n ++ l → extends w w'.
Proof.
  intros [Hs Hd] Hn Hn' He. split; [done|]. intros i ni Hi. destruct (decide (i = D)) as [->|Hne].
  - exists n', l. split; [done|]. congruence.
  - destruct (Hd i ni Hi Hne) as (s & Hs' & _). exists (set_sdb s ni), []. split; [done|]. by rewrite app_nil_r.
Qed.

Lemma child_extends mm mm' h es l c : mm ⊆ mm' → (∀ e, e ∈ es → is_Some (mm !! e)) → child_of mm h es = Some c → child_of mm' h (es ++ l) = Some c.
Proof.
  intros Hm. induction es as [|e es IH]; intros Hl; [done|]. cbn [app child_of]. destruct (Hl e) as [x Hx]; [by left|].
  rewrite Hx, (lookup_weaken _ _ _ _ Hx Hm). case_if; [done|]. apply IH. intros e' He'. apply Hl. by right.
Qed.

Lemma path_extends w w' s names i : world_ok m w → extends w w' → path_to w s names i → path_to w' s names i.
Proof.
  intros Hw [Hs Hd]. revert s. induction names as [|nm names IH]; intros s; [done|]. intros (n & c & Hn & Hne & Hc & Hp).
  destruct (Hd s n Hn) as (n' & l & Hn' & He). exists n', c. split_and!; [done|done| |by apply IH]. rewrite He. eapply child_extends; [done| |done].
  intros e Hin. destruct (wo_linked _ _ Hw s n e Hn Hin) as (k & [Hx _] & _). by eexists.
Qed.

(** ** The pairs of one database *)

Lemma emit_pairs l root i w n s2 :
  dbs w !! i = Some n → set_pairs now l (sdb n) = (tt, s2) →
  foldl emit (mkTarget root i (Some w)) ((λ kv, EKv kv.1 kv.2) <$> l)
  = mkTarget root i (Some (mkWorld (<[i := set_sdb s2 n]> (dbs w)) (nss w))).
Proof.
  revert w n. induction l as [|[k v] l IH]; intros w n Hn; cbn [set_pairs fmap list_fmap foldl].
  - intros [= <-]. f_equal. f_equal. rewrite insert_id; [by destruct w|]. rewrite Hn. by destruct n.
  - run_m. destruct (sdb_set now (Some k) (Some v) 0 (sdb n)) as [r s1] eqn:E. intros E2.
    change (emit (mkTarget root i (Some w)) (EKv k v)) with (mkTarget root i (match on_sdb i (sdb_set now (Some k) (Some v) 0) w with Ok _ w => Some w | _ => None end)).
    unfold on_sdb. rewrite Hn, E. rewrite (IH _ (set_sdb s1 n)); [|cbn [dbs]; apply lookup_insert_eq|exact E2]. cbn [dbs nss].
    rewrite insert_insert_eq. by destruct n.
Qed.

Lemma load_pairs pairs root i w n0 :
  world_ok m w → dbs w !! i = Some n0 → mem_inv (K + m) (sdb n0) → view (sdb n0) = ∅ →
  NoDup pairs.*1 → Forall (λ kv, key_ok kv.1 ∧ val_ok kv.2 ∧ kv.2 ≠ []) pairs → (length pairs <= K)%nat →
  ∃ s2 w', foldl emit (mkTarget root i (Some w)) ((λ kv, EKv kv.1 kv.2) <$> pairs) = mkTarget root i (Some w')
    ∧ kept i w w' ∧ world_ok m w' ∧ dbs w' !! i = Some (set_sdb s2 n0) ∧ view s2 = list_to_map pairs.
Proof.
  intros Hw Hi Hm0 Hv0 Hnd Hok Hlen. destruct (set_pairs_mem now pairs m (sdb n0)) as (s2 & E2 & Hi2 & Hv2).
  { eapply mem_inv_le; [|exact Hm0]. lia. } { eapply Forall_impl; [exact Hok|]. by intros kv (? & ? & _). }
  eexists s2, _. split; [by apply emit_pairs|]. split_and!; [by apply kept_set|by apply world_set|cbn [dbs]; apply lookup_insert_eq|].
  rewrite Hv2, Hv0, foldl_put_union; [by rewrite (right_id_L ∅ (∪))|done|]. eapply Forall_impl; [exact Hok|]. by intros kv (_ & _ & ?).
Qed.

(** ** A tree *)

(** The calls for a tree, once its path was walked. *)
Definition body_events (p : list bytes) (t : SdbTree) : list event := tail (tree_events p t).

Lemma tree_events_body p t : tree_events p t = EPath p :: body_events p t.
Proof. by destruct t. Qed.

Definition loads (t : SdbTree) : Prop := ∀ p root w i n0, world_ok m w → path_to w root p i →
  dbs w !! i = Some n0 → ns n0 = Some [] → ns_lock n0 = 0 → s_dir n0 = None → mem_inv (K + m) (sdb n0) → view (sdb n0) = ∅ →
  ∃ w' c', foldl emit (mkTarget root i (Some w)) (body_events p t) = mkTarget root c' (Some w')
    ∧ kept i w w' ∧ extends w w' ∧ world_ok m w' ∧ holds (λ j, j = i ∨ dbs w !! j = None) w' i t.

Lemma kept_back D w w' j : kept D w w' → is_Some (dbs w' !! D) → dbs w' !! j = None → dbs w !! j = None.
Proof.
  intros Hk [? HD] Hj. destruct (dbs w !! j) as [n|] eqn:E; [|done]. destruct (decide (j = D)) as [->|Hne]; [congruence|].
  destruct (proj2 Hk _ _ E Hne) as (? & ? & _). congruence.
Qed.

(** The namespaces [subs] of the database [i], one after the other; [ks] are those done. *)
Lemma load_subs p root i w0 subs :
  Forall (λ x, loads x.2) subs → Forall (λ x, hd0 x.1 ≠ 0) subs → is_Some (dbs w0 !! i) →
  ∀ w cur n lb ks done, kept i w0 w → world_ok m w → path_to w root p i → dbs w !! i = Some n → ns n = Some lb → ns_lock n = 0 → s_dir n = None →
  Forall2 (entry w) lb ks → NoDup ((λ x, sdb_hash x.1) <$> done ++ subs) →
  Forall2 (λ k s, k.1 = s.1 ∧ holds (λ j, dbs w0 !! j = None) w k.2 s.2) ks done →
  ∃ w' c' n' l ks', foldl emit (mkTarget root cur (Some w)) (mjoin ((λ x, tree_events (p ++ [x.1]) x.2) <$> subs)) = mkTarget root c' (Some w')
    ∧ kept i w w' ∧ world_ok m w' ∧ dbs w' !! i = Some n' ∧ view (sdb n') = view (sdb n) ∧ entries n' = entries n ++ l
    ∧ Forall2 (entry w') (entries n') ks' ∧ Forall2 (λ k s, k.1 = s.1 ∧ holds (λ j, dbs w0 !! j = None) w' k.2 s.2) ks' (done ++ subs).
Proof.
  intros IH Hhd Hi0. induction subs as [|[nm t] subs IHs]; intros w cur n lb ks done Hk0 Hw Hp Hn Hl Hlk Hdir HF Hnd HS.
  { rewrite app_nil_r in *. exists w, cur, n, [], ks. cbn [fmap list_fmap mjoin list_join foldl]. rewrite app_nil_r. split_and!; try done. unfold entries. by rewrite Hl. }
  apply Forall_cons_1 in IH as [IHt IH]. apply Forall_cons_1 in Hhd as [Hnm Hhd]. cbn [fst snd] in *. rewrite fmap_cons. cbn [fst snd].
  change (mjoin (?a :: ?b)) with (a ++ mjoin b). rewrite foldl_app, tree_events_body. cbn [foldl].
  assert (sdb_hash nm ∉ hashes ks) as Hno.
  { assert (hashes ks = (λ x, sdb_hash x.1) <$> done) as ->.
    { clear -HS. induction HS as [|k s ks done [E _] _ IH]; [done|]. unfold hashes in *. cbn. by rewrite E, IH. }
    rewrite fmap_app in Hnd. apply NoDup_app in Hnd as (_ & Hdis & _). intros Hin. apply (Hdis _ Hin). by left. }
  destruct (create_run m K HK w i n lb ks nm Hw Hn Hl Hlk Hdir HF Hno Hnm) as (c & e & n0 & w1 & E1 & Hc & Hk1 & Hw1 & Hc1 & (Hn0 & Hl0 & Hlk0 & Hdir0) & Hn1 & He).
  destruct (sdb_new0_ok (K + m)) as (s0 & Es0 & Hi00 & Hv0 & _); [lia|]. assert (sdb n0 = s0) as Hs0 by congruence. assert (c ≠ i) as Hci by congruence.
  assert (emit (mkTarget root cur (Some w)) (EPath (p ++ [nm])) = mkTarget root c (Some w1)) as ->.
  { cbn [emit]. unfold go_path. cbn [root_db databases]. rewrite (walk_path w root root p [nm] i Hw Hp). cbn [walk_tokens text_ns world_dbs]. by rewrite E1. }
  assert (extends w w1) as Hx1 by (eapply (kept_extends i w w1 n _ [e]); [done|done|exact Hn1|cbn; unfold entries; by rewrite Hl]).
  assert (path_to w1 root (p ++ [nm]) c) as Hpc.
  { assert (∀ s, path_to w1 s p i → path_to w1 s (p ++ [nm]) c) as Hext; [|apply Hext; exact (path_extends w w1 root p i Hw Hx1 Hp)].
    clear -Hn1 Hnm He Hno HF Hk1. induction p as [|a p IHp]; intros s; cbn [app path_to]; [intros ->|intros (n1 & c1 & ? & ? & ? & ?); exists n1, c1; naive_solver].
    eexists _, c. split_and!; [exact Hn1|done| |done]. rewrite entries_set_ns.
    rewrite (child_kid w1 (lb ++ [e]) (ks ++ [(nm, c)])) by (apply Forall2_app; [by eapply kept_entries|by constructor]).
    clear -Hno. unfold hashes in Hno. induction ks as [|k ks IHk]; cbn [app kid_of fst snd]; [by rewrite Z.eqb_refl|]. cbn in Hno. apply not_elem_of_cons in Hno as [Hne Hno].
    rewrite (proj2 (Z.eqb_neq _ _)) by congruence. by apply IHk. }
  destruct (IHt (p ++ [nm]) root w1 c n0 Hw1 Hpc Hc1 Hl0 Hlk0 Hdir0) as (w2 & c2 & E2 & Hk2 & Hx2 & Hw2 & Hh2); [by rewrite Hs0|by rewrite Hs0|].
  rewrite E2. pose proof (kept_new _ _ _ _ _ Hk1 Hk2 Hc) as Hk. destruct (proj2 Hk2 _ _ Hn1) as (s2 & Hn2 & Hsc2); [done|].
  assert (is_Some (dbs w !! i)) as Hiw by (by eexists).
  destruct (IHs IH Hhd w2 c2 (set_sdb s2 (set_ns (Some (lb ++ [e])) n)) (lb ++ [e]) (ks ++ [(nm, c)]) (done ++ [(nm, t)])) as (w3 & c3 & n3 & l3 & ks3 & E3 & Hk3 & Hw3 & Hn3 & Hv3 & He3 & HF3 & HS3); try done.
  - by transitivity w.
  - exact (path_extends w w2 root p i Hw (extends_trans _ _ _ Hx1 Hx2) Hp).
  - apply Forall2_app; [by eapply kept_entries|]. constructor; [|constructor]. exact (kept_entry c w1 w2 e (nm, c) Hk2 He).
  - by rewrite <- app_assoc.
  - apply Forall2_app.
    + eapply Forall2_impl; [exact HS|]. intros k s [E Hh]. split; [done|]. eapply (holds_kept _ i); [|exact Hk|exact Hh]. destruct Hi0 as [? Hi0]. congruence.
    + constructor; [|constructor]. split; [done|]. cbn [snd]. eapply holds_mono; [|exact Hh2]. intros j [->|Hj]; [by eapply kept_back|].
      eapply kept_back; [exact Hk0|done|]. eapply kept_back; [exact Hk1|by eexists|done].
  - exists w3, c3, n3, (e :: l3), ks3. split_and!; [done|by transitivity w2|done|done| | |done|by rewrite <- app_assoc in HS3].
    + rewrite Hv3. cbn [sdb set_sdb set_ns]. by apply view_core.
    + rewrite He3. change (entries (set_sdb s2 (set_ns (Some (lb ++ [e])) n))) with (lb ++ [e]). unfold entries. rewrite Hl. by rewrite <- app_assoc.
Qed.

Lemma load_tree t : tree_fits t → loads t.
Proof.
  induction t as [pairs subs IH] using tree_ind'. intros Hf. inversion Hf as [? ? Hnd Hok Hlen Hnh Hsub]; subst.
  intros p root w i n0 Hw Hp Hi Hl Hlk Hdir Hm0 Hv0. unfold body_events. cbn [tree_events tail]. rewrite subs_events, foldl_app.
  destruct (load_pairs pairs root i w n0) as (s2 & w1 & -> & Hk1 & Hw1 & Hi1 & Hv1); [done..|].
  assert (extends w w1) as Hx1 by (eapply (kept_extends i w w1 n0 _ []); [done|done|exact Hi1|by rewrite app_nil_r]).
  assert (Forall (λ x, loads x.2) subs) as IHl.
  { clear -IH Hsub. revert IH. induction Hsub as [|x subs [_ Hx] _ IHs]; intros IH; [constructor|]. apply Forall_cons_1 in IH as [IH1 IH2]. constructor; [by apply IH1|by apply IHs]. }
  destruct (load_subs p root i w subs IHl) with (w := w1) (cur := i) (n := set_sdb s2 n0) (lb := @nil id) (ks := @nil (bytes * id)) (done := @nil (bytes * SdbTree))
    as (w2 & c2 & n2 & l & ks & E2 & Hk2 & Hw2 & Hn2 & Hv2 & He2 & HF2 & HS2); try done.
  { eapply Forall_impl; [exact Hsub|]. by intros x []. }
  { exact (path_extends w w1 root p i Hw Hx1 Hp). }
  exists w2, c2. split_and!; [done|by transitivity w1| |done|].
  - eapply extends_trans; [exact Hx1|]. eapply (kept_extends i w1 w2); [done|exact Hi1|exact Hn2|exact He2].
  - econstructor; [exact Hn2|by left| |exact HF2|].
    + rewrite Hv2. exact Hv1.
    + eapply Forall2_impl; [exact HS2|]. intros k s [E Hh]. split; [done|]. eapply holds_mono; [|exact Hh]. by right.
Qed.
End world.

(** * Properties *)

(** C12: a text saved from a tree of databases loads back as that tree.  Take a tree whose
    keys, values and names are C strings that are not empty, in which no database has a
    key twice, keys and values have the sizes that [sdb_set] takes, each database has fewer
    than 2^30 pairs, and the namespaces of a database have names of different hashes (which
    is all that [sdb_ns] compares).  When the device has room for the text, saving it
    reports success; and loading the text into a new database without lock and file name,
    in any world of databases in memory, reports success without a fault of [sdb_ns] or
    [sdb_set], leaves every other database as it was, and leaves in the new one exactly the
    saved pairs, and in its namespaces, by their names and in their order, exactly theirs,
    at every depth, whatever slashes, backslashes, equals signs and line breaks the strings
    contain. *)
Theorem sdb_text_roundtrip now t sort room w i n0 K :
  tree_ok t → tree_fits K t → 2 * Z.of_nat K + 1 < 2 ^ 31 → (length (tree_text [] t) <= room)%nat →
  world_ok 0 w → dbs w !! i = Some n0 → sdb_new0 = Some (sdb n0) → ns n0 = Some [] → ns_lock n0 = 0 → s_dir n0 = None →
  ∃ b w', sdb_text_save room t sort = (true, b)
    ∧ sdb_text_load (TextDbs0 := world_dbs now) i (Some b) (Some w) = (true, Some w')
    ∧ kept i w w' ∧ holds (λ j, j = i ∨ dbs w !! j = None) w' i t.
Proof.
  intros Hok Hfit HK Hr Hw Hi Hn0 Hl Hlk Hdir. assert (2 * Z.of_nat (K + 0) + 1 < 2 ^ 31) as HK' by (rewrite Nat.add_0_r; exact HK).
  destruct (text_roundtrip_calls (TextDbs0 := world_dbs now) t sort room i (Some w) Hok Hr) as (b & E1 & E2).
  destruct (sdb_new0_ok (K + 0) HK') as (s0 & Es0 & Hi0 & Hv0 & _). assert (sdb n0 = s0) as Hs0 by congruence.
  destruct (load_tree now 0 K HK' t Hfit [] i w i n0 Hw eq_refl Hi Hl Hlk Hdir) as (w' & c' & E3 & Hk & _ & _ & Hh); [by rewrite Hs0|by rewrite Hs0|].
  exists b, w'. split_and!; [done| |done|done]. rewrite E2, tree_events_body. cbn [foldl]. change (emit (mkTarget i i (Some w)) (EPath [])) with (mkTarget i i (Some w)).
  by rewrite E3.
Qed.

(** A world with a single new database. *)
Lemma new_world : ∃ w i n0, world_ok 0 w ∧ dbs w !! i = Some n0 ∧ sdb_new0 = Some (sdb n0) ∧ ns n0 = Some [] ∧ ns_lock n0 = 0 ∧ s_dir n0 = None.
Proof.
  destruct (sdb_new0_ok 0) as (s0 & E & Hi & _); [done|]. set (n0 := mkNode s0 None None None 0 (Some [])).
  exists (mkWorld {[1%positive := n0]} ∅), 1%positive, n0. split_and!; [|cbn [dbs]; apply lookup_singleton_eq|done..].
  split; cbn [dbs nss]; intros i n; [intros e|]; intros [<- <-]%lookup_singleton_Some; [|done]. cbn. by intros ?%elem_of_nil.
Qed.

Lemma text_example_fits : tree_fits 2 text_example.
Proof.
  unfold text_example. constructor; [by apply (bool_decide_unpack _)| |cbn; lia|by apply (bool_decide_unpack _)|].
  - repeat constructor; unfold key_ok, val_ok, is_char; cbn; try lia; done.
  - constructor; [|constructor]. split; [done|]. cbn [snd]. constructor; [by apply (bool_decide_unpack _)| |cbn; lia|by apply (bool_decide_unpack _)|constructor].
    repeat constructor; unfold key_ok, val_ok, is_char; cbn; try lia; done.
Qed.

Lemma sdb_text_roundtrip_witness :
  ∃ w i, tree_ok text_example ∧ tree_fits 2 text_example ∧
  ∃ b w', sdb_text_save 100 text_example true = (true, b)
    ∧ sdb_text_load (TextDbs0 := world_dbs 0) i (Some b) (Some w) = (true, Some w')
    ∧ kept i w w' ∧ holds (λ j, j = i ∨ dbs w !! j = None) w' i text_example.
Proof.
  destruct new_world as (w & i & n0 & Hw & Hi & Hn0 & Hl & Hlk & Hdir). exists w, i. split; [exact text_example_ok|]. split; [exact text_example_fits|].
  apply (sdb_text_roundtrip 0 text_example true 100 w i n0 2); [exact text_example_ok|exact text_example_fits|done|vm_compute; lia|exact Hw|exact Hi|exact Hn0|exact Hl|exact Hlk|exact Hdir].
Defined.
