(* ===== verification/Journal.v ===== *)
(** * The journal: src/src/journal.c, and [sdb_config] of src/src/sdb.c

    While a journal is open, every change is appended to it as a line; loading the
    journal replays the lines.  The contents of the open journal are the field
    [journal] of the database; [files] has them once it is closed or removed.
    ([sdb_journal_log] and [sdb_journal_clear] are with the database, which calls
    them.) *)

From S2P Require Import Prelude Util Ht HashTables Buffer CdbMake CdbTables Cdb SdbCore SdbIter Disk.

Definition NL : Z := 10.

(** [None] for a name that does not fit the path buffer. *)
Definition sdb_journal_filename (nm : option bytes) : option bytes :=
  match nm with
  | None => None
  | Some n => let p := n ++ str ".journal" in if SDB_MAX_PATH <=? slen p then None else Some p
  end.

Definition sdb_journal_close : F bool :=
  s ← getF;
  match journal (core s) with
  | None => mret false
  | Some _ =>
      _ ← lift (modify (set_journal None));
      match sdb_journal_filename (name s) with
      | None => mret false
      | Some f => _ ← putF (λ s, set_files (delete f (files s)) s); mret true
      end
  end.

(** [ok] is the answer of [open]. *)
Definition sdb_journal_open (ok : bool) : F bool :=
  s ← getF;
  match sdb_journal_filename (name s) with
  | None => mret false
  | Some f =>
      if negb ok then _ ← lift (modify (set_journal None)); mret false
      else
        let c := default [] (files s !! f) in
        _ ← putF (λ s, set_files (<[f := c]> (files s)) s);
        _ ← lift (modify (set_journal (Some c)));
        mret true
  end.

(** The lines of the text from [cur] on; each round passes a newline. *)
Fixpoint journal_load_loop (fuel : nat) (now : Z) (cur : bytes) (changes : Z) : M Z :=
  match fuel with
  | O => mret changes
  | S fuel' =>
      match strchr cur NL with
      | None => mret changes
      | Some ptr =>
          let line := take (length cur - length ptr) cur in
          match strchr line (chr "=") with
          | Some eq =>
              _ ← sdb_set now (Some (take (length line - length eq) line)) (Some (tail eq)) 0;
              journal_load_loop fuel' now (tail ptr) (changes + 1)
          | None => journal_load_loop fuel' now (tail ptr) changes
          end
      end
  end.

Definition sdb_journal_load (now : Z) : M Z :=
  s ← get_st;
  match journal s with
  | None => mret 0
  | Some j => if slen j <? 1 then mret 0 else journal_load_loop (S (length j)) now (cstr j) 0
  end.

Definition sdb_journal_unlink : F bool :=
  s ← getF;
  match sdb_journal_filename (name s) with
  | None => mret false
  | Some f =>
      _ ← sdb_journal_close;
      s ← getF;
      match files s !! f with
      | Some _ => _ ← putF (λ s, set_files (delete f (files s)) s); mret true
      | None => mret false
      end
  end.

Definition SDB_OPTION_NOSTAMP : Z := 2.
Definition SDB_OPTION_JOURNAL : Z := 8.

Definition sdb_config (now : Z) (open_ok : bool) (options : Z) : F unit :=
  _ ← (if negb (Z.land options SDB_OPTION_JOURNAL =? 0) then
         _ ← sdb_journal_open open_ok;
         _ ← lift (sdb_journal_load now);
         _ ← lift sdb_journal_clear; mret tt
       else _ ← sdb_journal_close; mret tt);
  if negb (Z.land options SDB_OPTION_NOSTAMP =? 0) then lift (modify (λ s, set_stamp (timestamped s) 0 (dflt_expire s) s)) else mret tt.

(** * Facts *)

(** A pair whose line can be read back: it fits the buffer, the key has no separator. *)
Definition line_ok (kv : bytes * bytes) : Prop :=
  is_cstr kv.1 ∧ is_cstr kv.2 ∧ chr "=" ∉ kv.1 ∧ NL ∉ kv.1 ∧ NL ∉ kv.2 ∧ slen kv.1 + slen kv.2 + 2 < SDB_MAX_PATH.

#[global] Instance line_ok_dec kv : Decision (line_ok kv).
Proof. unfold line_ok, is_cstr, is_char. apply _. Defined.

Lemma journal_line_ok k v : line_ok (k, v) → journal_line k v = k ++ [chr "="] ++ v ++ [NL].
Proof.
  intros (_ & _ & _ & _ & _ & Hl). cbn [fst snd] in Hl. unfold journal_line. apply take_ge.
  rewrite !length_app. cbn [length]. unfold slen, SDB_MAX_PATH in *. lia.
Qed.

Lemma line_key_ok k v : line_ok (k, v) → key_ok k ∧ val_ok v.
Proof.
  intros (_ & Hc & _ & _ & _ & Hl). cbn [fst snd] in *. pose proof (slen_nonneg k). pose proof (slen_nonneg v).
  unfold key_ok, val_ok, SDB_KSZ, SDB_VSZ, SDB_MAX_PATH in *. split; [|split; [done|]]; lia.
Qed.

Definition lines (kvs : list (bytes * bytes)) : bytes := mjoin ((λ kv, kv.1 ++ [chr "="] ++ kv.2 ++ [NL]) <$> kvs).

Lemma load_lines now kvs fuel n s ch :
  Forall line_ok kvs → (length (lines kvs) < fuel)%nat → mem_inv (length kvs + n) s →
  ∃ s', journal_load_loop fuel now (lines kvs) ch s = (ch + Z.of_nat (length kvs), s') ∧ mem_inv n s'
    ∧ view s' = foldl (λ m kv, put m kv.1 kv.2) (view s) kvs.
Proof.
  revert fuel s ch. induction kvs as [|[k v] kvs IH]; intros fuel s ch Hok Hf Hi; (destruct fuel as [|fuel]; [lia|]); cbn [journal_load_loop].
  { cbn. exists s. split; [by rewrite Z.add_0_r|done]. }
  apply Forall_cons in Hok as [Hkv Hok]. destruct (line_key_ok k v Hkv) as [Hk Hv]. destruct Hkv as (_ & _ & Hke & Hkn & Hvn & _). cbn [fst snd] in *.
  assert (lines ((k, v) :: kvs) = (k ++ chr "=" :: v) ++ NL :: lines kvs) as El.
  { unfold lines. cbn [fmap list_fmap mjoin list_join fst snd]. by rewrite <- !app_assoc. }
  rewrite El in *. rewrite strchr_app by (rewrite elem_of_app, elem_of_cons; intros [?|[?|?]]; done).
  replace (take (length ((k ++ chr "=" :: v) ++ NL :: lines kvs) - length (NL :: lines kvs)) ((k ++ chr "=" :: v) ++ NL :: lines kvs)) with (k ++ chr "=" :: v).
  2:{ rewrite (length_app (k ++ _)). by rewrite take_app_length' by lia. }
  rewrite strchr_app by done.
  replace (take (length (k ++ chr "=" :: v) - length (chr "=" :: v)) (k ++ chr "=" :: v)) with k.
  2:{ rewrite length_app. by rewrite take_app_length' by lia. }
  cbn [tail]. run_m. pose proof (set_mem_view now (length kvs + n) s k v false Hi Hk Hv) as Hs. fold (sdb_set now (Some k) (Some v) 0) in Hs.
  destruct (sdb_set _ _ _ _ s) as [r s1]. destruct Hs as (Hi1 & _ & Hv1).
  destruct (IH fuel s1 (ch + 1)) as (s' & E & Hi' & Hv'); [done| |done|].
  { rewrite length_app in Hf. cbn [length] in Hf. lia. }
  unfold mbind, M_bind in E. exists s'. rewrite E. split; [f_equal; cbn; lia|]. split; [done|]. rewrite Hv', Hv1. done.
Qed.

Lemma set_journal_core j s : same_core s (set_journal j s).
Proof. by split_and!. Qed.

Lemma hook_journal now k v s : journal (sdb_hook_call now k v s).2 = journal s.
Proof. unfold sdb_hook_call; run_m. by case_if. Qed.

Lemma findnext_journal k s : journal (findnext k s).2 = journal s.
Proof. unfold findnext; run_m. by destruct (cdb_findnext _ _ _ _). Qed.

(** Every set appends its line. *)
Lemma set_logs now k v owned c s :
  key_ok k → val_ok v →
  journal (sdb_set_internal now (Some k) (Some v) owned c s).2 = (λ j, j ++ journal_line k v) <$> journal s.
Proof.
  intros Hk [_ Hv]. unfold key_ok in Hk. unfold sdb_set_internal. cbn [default from_option id].
  rewrite (proj2 (Z.leb_gt SDB_KSZ (slen k))), (proj2 (Z.leb_gt SDB_VSZ (slen v))) by lia. cbn [orb]. run_m.
  destruct ((match journal s with None => λ s, (false, s) | Some _ => sdb_journal_log k v end : M bool) s) as [x s1] eqn:El.
  assert (journal s1 = (λ j, j ++ journal_line k v) <$> journal s) as <-.
  { unfold sdb_journal_log in El; revert El; run_m. destruct (journal s) as [j|] eqn:Ej; [rewrite Ej|]; intros [= <- <-]; done. }
  set (s2 := set_db _ s1). change (journal s1) with (journal s2). clearbody s2. clear El.
  assert (∀ (f : Sdb → Sdb) (r : Z) s, (∀ s, journal (f s) = journal s) →
    journal (let '(_, s0) := sdb_hook_call now k v (f s) in (r, s0)).2 = journal s) as Hh.
  { intros f r s0 Hf. pose proof (hook_journal now k v (f s0)) as H. destruct (sdb_hook_call _ _ _ _). cbn [snd] in *. by rewrite H, Hf. }
  destruct (sdb_ht_find_kvp (Some (ht s2)) k) as [[k0 [v0|] kl vl e]|].
  - pose proof (findnext_journal k s2) as Hf. destruct (findnext k s2) as [r s3]. cbn [snd] in Hf. rewrite <- Hf.
    destruct (negb (r =? 0)); [|by apply (Hh (λ s, set_ht _ s))]. destruct (_ && _); [done|].
    destruct (_ && _); [by apply (Hh (λ s, s))|by apply (Hh (λ s, set_ht _ s))].
  - destruct (if owned then _ else _) as [kv|]; [by apply (Hh (λ s, set_ht _ s))|done].
  - destruct (if owned then _ else _) as [kv|]; [by apply (Hh (λ s, set_ht _ s))|done].
Qed.

Lemma set_pairs_logs now kvs j s :
  Forall line_ok kvs → journal s = Some j → journal (set_pairs now kvs s).2 = Some (j ++ lines kvs).
Proof.
  revert j s. induction kvs as [|[k v] kvs IH]; intros j s Hok Hj; cbn [set_pairs]; run_m; [by rewrite app_nil_r|].
  apply Forall_cons in Hok as [Hkv Hok]. destruct (line_key_ok k v Hkv) as [Hk Hv].
  pose proof (set_logs now k v false 0 s Hk Hv) as Hl. unfold sdb_set; run_m.
  destruct (sdb_set_internal _ _ _ _ _ s) as [r s1]. cbn [snd] in Hl. rewrite Hj in Hl. cbn in Hl.
  unfold mbind, M_bind, mret, M_ret in IH. rewrite (IH _ s1 Hok Hl). f_equal. rewrite (journal_line_ok k v Hkv).
  unfold lines. cbn [fmap list_fmap mjoin list_join fst snd]. by rewrite <- !app_assoc.
Qed.

Lemma lines_cstr kvs : Forall line_ok kvs → is_cstr (lines kvs).
Proof.
  induction 1 as [|[k v] kvs (Hk & Hv & _) _ IH]; [constructor|]. unfold lines. cbn [fmap list_fmap mjoin list_join fst snd] in *.
  repeat (apply Forall_app; split); try done; by apply Forall_singleton.
Qed.

(** * Properties *)

(** C11: the journal recovers what was not saved. After fewer than 2^30 sets on an empty database in
    memory whose journal is open and empty, a new database that loads the journal left behind has
    the same contents, and the load counts the sets; for keys without [=] and newline, values
    without newline, and key and value of at most 253 characters together (a longer line loses its
    end: [sdb_journal_long_line]). *)
Theorem sdb_journal_recovers now n s kvs :
  mem_inv (length kvs + n) s → view s = ∅ → journal s = Some [] → Forall line_ok kvs →
  2 * Z.of_nat (length kvs) + 1 < 2 ^ 31 →
  let s' := (set_pairs now kvs s).2 in
  ∃ s0 s1, sdb_new0 = Some s0
    ∧ sdb_journal_load now (set_journal (journal s') s0) = (Z.of_nat (length kvs), s1)
    ∧ view s1 = view s'.
Proof.
  intros Hi Hv Hj Hok Hn s'. destruct (sdb_new0_ok (length kvs + 0)) as (s0 & E & Hi0 & Hv0 & _); [lia|].
  assert (Forall (λ kv, key_ok kv.1 ∧ val_ok kv.2) kvs) as Hkv by (eapply Forall_impl; [exact Hok|]; intros [k v]; apply line_key_ok).
  destruct (set_pairs_mem now kvs n s Hi Hkv) as (s2 & Es & _ & Hvs). subst s'. pose proof (set_pairs_logs now kvs [] s Hok Hj) as Hl.
  rewrite Es in *. cbn [snd app] in *. rewrite Hl. exists s0. unfold sdb_journal_load; run_m. cbn [set_journal journal].
  destruct kvs as [|kv kvs'].
  { exists (set_journal (Some []) s0). split_and!; [done|done|]. rewrite (view_core _ _ (set_journal_core (Some []) s0)), Hv0, Hvs. cbn. by rewrite Hv. }
  set (kvs := kv :: kvs') in *. assert (0 < slen (lines kvs)) as Hpos.
  { subst kvs. unfold lines, slen. cbn [fmap list_fmap mjoin list_join]. rewrite !length_app. cbn [length]. lia. }
  rewrite (proj2 (Z.ltb_ge _ _)) by lia. rewrite cstr_id by by apply lines_cstr.
  destruct (load_lines now kvs (S (length (lines kvs))) 0 (set_journal (Some (lines kvs)) s0) 0) as (s1 & E1 & _ & Hv1); [done|lia|by eapply mem_inv_core; [apply set_journal_core|]|].
  rewrite E1. exists s1. split_and!; [done|done|]. rewrite Hv1, Hvs. by rewrite (view_core _ _ (set_journal_core (Some (lines kvs)) s0)), Hv0, Hv.
Qed.

Lemma sdb_journal_recovers_witness :
  ∃ s, mem_inv 2 s ∧ journal s = Some [] ∧
  let s' := (set_pairs 0 [(str "a", str "1"); (str "a", str "2")] s).2 in
  ∃ s0 s1, sdb_new0 = Some s0 ∧ sdb_journal_load 0 (set_journal (journal s') s0) = (2, s1) ∧ view s1 = view s'.
Proof.
  destruct (sdb_new0_ok 2) as (s & _ & Hi & Hv & _); [done|]. exists (set_journal (Some []) s).
  assert (mem_inv 2 (set_journal (Some []) s)) as Hi' by (eapply mem_inv_core; [apply set_journal_core|exact Hi]).
  split; [exact Hi'|]. split; [done|].
  apply (sdb_journal_recovers 0 0 (set_journal (Some []) s) [(str "a", str "1"); (str "a", str "2")]); [exact Hi'| |done| |done].
  - by rewrite (view_core _ _ (set_journal_core (Some []) s)).
  - by apply (bool_decide_unpack (Forall line_ok _)).
Defined.

(** A long change breaks the journal: a line of more than 255 characters is cut
    before its newline, so the change is not replayed by itself and runs into the next
    line: setting a value of 300 characters and then another key, the load finds one
    change instead of two. *)
Theorem sdb_journal_long_line :
  ∃ kvs s0, length kvs = 2%nat ∧ Forall (λ kv, key_ok kv.1 ∧ val_ok kv.2) kvs ∧ sdb_new0 = Some s0
    ∧ let s' := (set_pairs 0 kvs (set_journal (Some []) s0)).2 in
      (sdb_journal_load 0 (set_journal (journal s') s0)).1 = 1.
Proof.
  destruct (sdb_new0_ok 1) as (s0 & E & _); [done|].
  assert ((λ s0, (sdb_journal_load 0 (set_journal (journal (set_pairs 0 [(str "k", replicate 300 97); (str "a", str "2")] (set_journal (Some []) s0)).2) s0)).1)
    <$> sdb_new0 = Some 1) as H by (vm_compute; reflexivity).
  rewrite E in H. injection H as H. exists [(str "k", replicate 300 97); (str "a", str "2")], s0.
  split_and!; [done| |done|exact H]. repeat constructor; vm_compute; try congruence.
Qed.
