(* ===== verification/Main.v ===== *)
(** * The command line ([src/main.c])

    Reading standard input, the options, what is printed for a database, and creating a
    database from text.  [sdb_main] is a function from the arguments to the action that is
    run; the queries, the diff, the tool and the decoders it runs are in other files.
    Printing is appending to a text.  Signals are left out. *)

From S2P Require Import Diff.
From S2P Require Import Prelude Util Lock Ht HashTables Buffer CdbMake CdbTables Cdb SdbCore StrBuf Base64 JsonIndent SdbIter Disk Journal Text Query Tool.

(** ** Standard input *)

Definition BS : Z := 128.

(** The block after [realloc] to [size] bytes. *)
Definition resize (mem : bytes) (size junk : Z) : bytes :=
  take (Z.to_nat size) mem ++ replicate (Z.to_nat size - length mem) junk.

(** [fread] of [BS] bytes stops short only at the end.  [bufsize] is static. *)
Fixpoint slurp_loop (fuel : nat) (junk bufsize len : Z) (mem inp : bytes) : option (bytes * Z * Z) :=
  match fuel with
  | O => None
  | S fuel' =>
      let rr := take (Z.to_nat BS) inp in
      mem ← mem_write mem len rr;
      if slen rr <? 1 then
        mem ← (if len <=? bufsize then mem_write mem len [0] else Some mem);
        Some (mem, len, bufsize)
      else
        let len := len + slen rr in
        let bufsize := bufsize + BS in
        mem ← mem_write (resize mem (bufsize + 1) junk) (bufsize - BS) (replicate (Z.to_nat BS) 0);
        slurp_loop fuel' junk bufsize len mem (drop (Z.to_nat BS) inp)
  end.

(** All of the input: the block and [*sz], if there is any, and [bufsize] for the next time. *)
Definition slurp (junk bufsize : Z) (inp : bytes) : option (option (bytes * Z) * Z) :=
  r ← slurp_loop (S (length inp)) junk bufsize 0 (replicate (Z.to_nat (BS + 1)) 0) inp;
  let '(mem, len, bufsize) := r in
  if len <? 1 then Some (None, bufsize)
  else
    mem ← (if len <=? bufsize then mem_write mem len [0] else Some mem);
    Some (Some (mem, len), bufsize).

Definition LINE_SIZE : nat := 96096.

(** A line, [sz] being NULL: [fgets], and nothing when the end of the input was met. *)
Definition slurp_line (inp : bytes) : option (bytes * bytes) :=
  let b := take (LINE_SIZE - 1) inp in
  match strchr b NL with
  | Some r => let line := take (length b - length r) b in Some (cstr line, drop (S (length line)) inp)
  | None => if (length inp <? LINE_SIZE - 1)%nat then None else Some (cstr b, drop (LINE_SIZE - 1) inp)
  end.

(** The lines that the loops over standard input see. *)
Fixpoint stdin_lines (fuel : nat) (inp : bytes) : list bytes :=
  match fuel with
  | O => []
  | S fuel' => match slurp_line inp with Some (l, inp) => l :: stdin_lines fuel' inp | None => [] end
  end.

(** ** Options *)

Inductive MainFormat := TEXT | ZERO | JSON | CGEN | DIFF | PERF | SDB_GEN.
Inductive MainCreate := nope | dash | eqeq | dobl.

#[export] Instance MainFormat_eq_dec : EqDecision MainFormat.
Proof. solve_decision. Defined.
#[export] Instance MainCreate_eq_dec : EqDecision MainCreate.
Proof. solve_decision. Defined.

Record MainOptions := mkMain {
  argi : nat;
  db0 : nat;
  mdb : option bytes;
  outfile : option bytes;
  db2 : option bytes;
  grep : option bytes;
  options : Z;
  textmode : bool;
  create : MainCreate;
  format : MainFormat
}.

Definition set_args a d m := mkMain a d (mdb m) (outfile m) (db2 m) (grep m) (options m) (textmode m) (create m) (format m).
Definition set_db d m := mkMain (argi m) (db0 m) d (outfile m) (db2 m) (grep m) (options m) (textmode m) (create m) (format m).
Definition set_outfile o m := mkMain (argi m) (db0 m) (mdb m) o (db2 m) (grep m) (options m) (textmode m) (create m) (format m).
Definition set_db2 d m := mkMain (argi m) (db0 m) (mdb m) (outfile m) d (grep m) (options m) (textmode m) (create m) (format m).
Definition set_grep g m := mkMain (argi m) (db0 m) (mdb m) (outfile m) (db2 m) g (options m) (textmode m) (create m) (format m).
Definition set_options o m := mkMain (argi m) (db0 m) (mdb m) (outfile m) (db2 m) (grep m) o (textmode m) (create m) (format m).
Definition set_textmode t m := mkMain (argi m) (db0 m) (mdb m) (outfile m) (db2 m) (grep m) (options m) t (create m) (format m).
Definition set_create c m := mkMain (argi m) (db0 m) (mdb m) (outfile m) (db2 m) (grep m) (options m) (textmode m) c (format m).
Definition set_format f m := mkMain (argi m) (db0 m) (mdb m) (outfile m) (db2 m) (grep m) (options m) (textmode m) (create m) f.

Definition SDB_OPTION_FS : Z := 4.
Definition MIRROR : Z := 65536.

(** The initial contents of the global [options], which [sdb_config] gets. *)
Definition main_options : Z := Z.lor SDB_OPTION_FS SDB_OPTION_NOSTAMP.

(** What ends the parsing of the options; the functions called return no negative number. *)
Inductive terminal := Showusage (o : Z) | Showversion | Base64_encode | Base64_decode | Json_indent | Showcount (db : bytes) | MissingArgument.

Section args.
Context (argv : list bytes).
Notation argc := (length argv).

(** [argv[i]], the pointer: NULL behind the last one, and no access farther out. *)
Definition argv_at (i : nat) : option (option bytes) := if (i <=? argc)%nat then Some (argv !! i) else None.

Definition main_argparse_getarg (mo : MainOptions) : option bytes * MainOptions :=
  if (argc <=? argi mo + 1)%nat then (None, mo) else (argv !! argi mo, set_args (argi mo + 1) (db0 mo + 1) mo).

Definition main_argparse_flag (mo : MainOptions) (flag : Z) : option terminal * MainOptions :=
  let mo := set_args (argi mo + 1) (db0 mo) mo in
  if flag =? chr "0" then (None, set_format ZERO mo)
  else if flag =? chr "h" then (Some (Showusage 2), mo)
  else if flag =? chr "o" then let '(a, mo) := main_argparse_getarg mo in (None, set_outfile a mo)
  else if flag =? chr "v" then (Some Showversion, mo)
  else if flag =? chr "e" then (Some Base64_encode, mo)
  else if flag =? chr "d" then (Some Base64_decode, mo)
  else if flag =? chr "r" then
    let mo := if decide (format mo = SDB_GEN) then set_options (Z.lor (options mo) MIRROR) mo else mo in
    (None, set_format SDB_GEN mo)
  else if flag =? chr "j" then
    let mo := set_format JSON mo in
    if (argc <=? argi mo)%nat then (Some Json_indent, mo) else (None, mo)
  else if flag =? chr "c" then
    if (argc <=? 3)%nat then (Some (Showusage 1), mo)
    else let '(a, mo) := main_argparse_getarg mo in
         match a with None => (Some (Showusage 1), mo) | Some db => (Some (Showcount db), mo) end
  else if flag =? chr "g" then
    let '(a, mo) := main_argparse_getarg mo in
    let mo := set_grep a mo in
    match a with None => (Some MissingArgument, mo) | Some _ => (None, mo) end
  else if flag =? chr "D" then
    if (argc <=? argi mo + 1)%nat then (Some (Showusage 1), mo) else (None, set_format DIFF mo)
  else if flag =? chr "G" then (None, set_format PERF mo)
  else if flag =? chr "C" then (None, set_format CGEN mo)
  else if flag =? chr "t" then (None, set_textmode true mo)
  else if flag =? chr "J" then (None, set_options (Z.lor (options mo) SDB_OPTION_JOURNAL) mo)
  else (Some (Showusage 1), mo).

(** The flags of [argv[i]], from the second character on. *)
Fixpoint flag_loop (i : nat) (flags : bytes) (mo : MainOptions) : option terminal * MainOptions :=
  match flags with
  | [] => (None, mo)
  | c :: flags' =>
      match main_argparse_flag mo c with
      | (Some e, mo) => (Some e, mo)
      | (None, mo) => if negb (i =? argi mo)%nat then (None, mo) else flag_loop i flags' mo
      end
  end.

(** [None] is an access outside [argv]. *)
Fixpoint argparse_loop (fuel i : nat) (mo : MainOptions) : option (option terminal * MainOptions) :=
  match fuel with
  | O => None
  | S fuel' =>
      if (argc <=? i)%nat then Some (None, mo)
      else
        let mo := set_args (argi mo) (db0 mo + 1) mo in
        let i := argi mo in
        a ← argv !! i;
        if (hd0 a =? chr "-") && negb (byte_at a 1 =? 0) then
          match flag_loop i (drop 1 a) mo with
          | (Some e, mo) => Some (Some e, mo)
          | (None, mo) => argparse_loop fuel' (S i) mo
          end
        else
          d ← argv_at (db0 mo);
          let mo := set_db d mo in
          if (i + 1 <? argc)%nat then
            b ← argv !! (i + 1)%nat;
            Some (None,
              if hd0 b =? chr "-" then (if byte_at b 1 =? 0 then set_create dash mo else mo)
              else if hd0 b =? chr "=" then (if byte_at b 1 =? 0 then set_create eqeq mo else set_create dobl mo)
              else set_db2 (Some a) mo)
          else Some (None, mo)
  end.

Definition main_argparse : option (option terminal * MainOptions) :=
  r ← argparse_loop (S argc) 1 (mkMain 1 0 None None None None main_options false nope TEXT);
  match r with
  | (Some e, mo) => Some (Some e, mo)
  | (None, mo) => d ← argv_at (db0 mo); Some (None, set_db d mo)
  end.

(** ** What is run *)

(** [AQueries] runs queries on a database that is locked, [AStdin] some and then the lines of
    standard input, [ACreate] makes a new database from texts or from standard input. *)
Inductive action :=
| ATerminal (e : terminal)
| ADiff (a b : bytes)
| ADump (mo : MainOptions)
| ATool (path : option bytes) (mirror : bool)
| AGen (mo : MainOptions) (file name : bytes)
| AQueries (db : option bytes) (queries : list bytes) (null : bool)
| AStdin (db : option bytes) (queries : list bytes) (null : bool)
| ACreate (db : option bytes) (args : option (list bytes)).

Definition sdb_main : option action :=
  if (argc <? 2)%nat then Some (ATerminal (Showusage 1))
  else
    r ← main_argparse;
    match r with
    | (Some e, _) => Some (ATerminal e)
    | (None, mo) =>
        match format mo with
        | DIFF => Some (match mdb mo, db2 mo with Some a, Some b => ADiff a b | _, _ => ATerminal (Showusage 1) end)
        | PERF => Some (ADump mo)
        | SDB_GEN =>
            if (argc <=? db0 mo)%nat then Some (ATerminal (Showusage 1))
            else p ← argv_at (db0 mo); Some (ATool p (negb (Z.land (options mo) MIRROR =? 0)))
        | CGEN =>
            if (argc <=? db0 mo)%nat then Some (ATerminal (Showusage 1))
            else file ← argv !! db0 mo;
                 Some (AGen mo file (match strchr file DOT with Some p => take (length file - length p) file | None => file end))
        | _ =>
            if bool_decide (mdb mo = None ∧ create mo = nope) then Some (ATerminal (Showusage 1))
            else
              let mo := if bool_decide (create mo = nope ∧ mdb mo = Some (str "-"))
                        then set_args (argi mo - 1) (argi mo - 1) (set_db None (set_create dash mo)) else mo in
              let null := negb (bool_decide (format mo = TEXT)) in
              match create mo with
              | dash =>
                  let kvs := (db0 mo + 2)%nat in
                  if (argi mo + 2 <? argc)%nat then Some (AQueries (mdb mo) (drop (argi mo + 2) argv) null)
                  else if (kvs <? argc)%nat then
                    (* [insertkeys] on [argc - kvs] arguments *)
                    if (argi mo + 2 + (argc - kvs) <=? argc)%nat
                    then Some (AStdin (mdb mo) (take (argc - kvs) (drop (argi mo + 2) argv)) null) else None
                  else Some (AStdin (mdb mo) [] null)
              | eqeq => Some (ACreate (mdb mo) None)
              | dobl => Some (ACreate (mdb mo) (Some (drop (db0 mo + 2) argv)))
              | nope =>
                  if (argc <=? argi mo + 1)%nat then Some (ADump mo)
                  else Some (AQueries (mdb mo) (drop (db0 mo + 1) argv) null)
              end
        end
    end.
End args.

(** ** Printing a database *)

Definition main_get_name (name : option bytes) : option bytes := match name with Some ((_ :: _) as n) => Some (Tool.get_name n) | _ => None end.
Definition main_get_cname (name : option bytes) : option bytes := match name with Some ((_ :: _) as n) => Some (Tool.get_cname n) | _ => None end.

(** [PRIu64] *)
Definition print_u64 (n : Z) : bytes := default [] (sdb_itoa n 10 (Some 64)).

Definition sdb_dump_cb (mo : MainOptions) (k v comma : bytes) : bytes :=
  match format mo with
  | JSON =>
      comma ++ QUOT :: k ++ QUOT :: chr ":"
        :: (if (strcmp v (str "true") =? 0) || (strcmp v (str "false") =? 0) then v
            else if sdb_isnum v then print_u64 (sdb_atoi (Some v))
            else if (hd0 v =? chr "{") || (hd0 v =? chr "[") then v
            else QUOT :: v ++ [QUOT])
  | PERF | CGEN =>
      let a := Tool.escape k COMMA in
      let b := Tool.escape v 0 in
      if textmode mo then vfmt (txt "  {\q%s\q,\q%s\q}, \n") [a; b] else vfmt (txt "%s,\q%s\q\n") [a; b]
  | ZERO => k ++ chr "=" :: v
  | _ => k ++ chr "=" :: v ++ [NL]
  end.

Definition SDB_MAX_GPERF_KEYS : Z := 15000.

Definition hidden (mo : MainOptions) (k v : bytes) : bool :=
  match v, grep mo with
  | _ :: _, Some g => match strstr k g, strstr v g with None, None => true | _, _ => false end
  | _, _ => false
  end.

(** The table of the database, in order. *)
Fixpoint dump_pairs (mo : MainOptions) (comma : bytes) (l : list (bytes * bytes)) : bytes :=
  match l with
  | [] => []
  | (k, v) :: l' => if hidden mo k v then dump_pairs mo comma l' else sdb_dump_cb mo k v comma ++ dump_pairs mo (str ",") l'
  end.

(** The records of the file.  [None] is a value that was not read, which is a null pointer. *)
Fixpoint dump_file (fuel : nat) (mo : MainOptions) (comma : bytes) (count ret : Z) : M (option (bytes * Z)) :=
  match fuel with
  | O => mret (Some ([], ret))
  | S fuel' =>
      item ← sdb_dump_dupnext;
      match item with
      | None => mret (Some ([], ret))
      | Some (_, None, _) => mret None
      | Some (k, Some v, _) =>
          if hidden mo k v then dump_file fuel' mo comma count ret
          else
            let gperf := negb (textmode mo) && bool_decide (format mo = CGEN) in
            r ← dump_file fuel' mo (str ",") (if gperf then count + 1 else count) (if gperf && (SDB_MAX_GPERF_KEYS <? count) then -1 else ret);
            mret ((λ x, (sdb_dump_cb mo k v comma ++ x.1, x.2)) <$> r)
      end
  end.

(** What is printed in front and behind; [write_null] succeeds. *)
Definition dump_start (junk : Z) (mo : MainOptions) : option bytes :=
  match format mo with
  | CGEN | PERF => c ← main_get_cname (mdb mo); sdb_cgen_header junk c (textmode mo)
  | JSON => Some (str "{")
  | _ => Some []
  end.
Definition dump_end (junk : Z) (mo : MainOptions) : option bytes :=
  match format mo with
  | ZERO => Some [0]
  | PERF | CGEN => n ← main_get_name (mdb mo); c ← main_get_cname (mdb mo); f ← sdb_cgen_footer junk n c (textmode mo); Some (f ++ [NL])
  | JSON => Some (str "}" ++ [NL])
  | _ => Some []
  end.

(** [sdb_dump] of an open database: the result and what is printed. *)
Definition sdb_dump (now junk : Z) (mo : MainOptions) : F (option (Z * bytes)) :=
  _ ← sdb_config now true main_options;
  _ ← Disk.lift sdb_dump_begin;
  s ← getF;
  body ← (match fd (core s) with
          | None =>
              l ← Disk.lift (sdb_foreach_list true);
              mret (if negb (textmode mo) && bool_decide (format mo = CGEN) && (SDB_MAX_GPERF_KEYS <? Z.of_nat (length l)) then Some ([], -1)
                    else Some (dump_pairs mo [] l, 0))
          | Some _ => Disk.lift (dump_file (S (db_size (core s))) mo [] 0 0)
          end);
  mret (a ← dump_start junk mo;
        b ← body;
        if b.2 =? 0 then z ← dump_end junk mo; Some (0, a ++ b.1 ++ z) else Some (b.2, a ++ b.1)).

(** ** Creating a database *)

Definition load_all (now : Z) (files : gmap bytes bytes) : list bytes → M unit :=
  fix go args := match args with [] => mret () | a :: args' => _ ← text_into now (files !! a); go args' end.

(** [createdb] and the end of [sdb_main], which removes the lock.  [inp] is standard input. *)
Definition createdb (e : ToolEnv) (files : gmap bytes bytes) (f : bytes) (args : option (list bytes)) (inp : bytes) : option (Z * gmap bytes bytes) :=
  match sdb_new0, sdb_lock_file (Some f) SDB_MAX_PATH with
  | Some db, Some lock =>
      if negb (e_locked e) then Some (1, files)
      else
        let pid := default [] ((λ p, p ++ [10]) <$> sdb_itoa (e_pid e) 10 (Some 64)) in
        let files := <[lock := pid]> files in
        let s := mkFs db (Some f) None None false make_none files in
        let '(_, s) := sdb_config (e_now e) true main_options s in
        db ← (match args with
              | Some args => Some (Some (load_all (e_now e) files args (core s)).2)
              | None =>
                  r ← slurp (e_junk e) BS inp;
                  Some (match r.1 with
                        | None => None
                        | Some (mem, len) => Some (text_buf_into (e_now e) (take (Z.to_nat len) mem) (core s)).2
                        end)
              end);
        match db with
        | None => Some (0, delete lock files)
        | Some db =>
            let '(r, s) := sdb_sync (e_sys e) (λ d, text_into (e_now e) (Some d))
                             (mkFs db (Some f) None None false make_none files) in
            r ← r;
            Some (if (r : bool) then 0 else 1, delete lock (Disk.files s))
        end
  | _, _ => Some (1, files)
  end.

(** ** Other commands *)

(** What is printed and the status. *)
Definition base64_encode (junk : Z) (inp : bytes) : option (bytes * Z) :=
  r ← slurp junk BS inp;
  Some (match r.1 with
        | None => ([], 0)
        | Some (mem, len) => match sdb_encode (Some mem) len with Some out => (out ++ [NL], 0) | None => ([], 1) end
        end).

Definition base64_decode (junk : Z) (inp : bytes) : option (bytes * Z) :=
  r ← slurp junk BS inp;
  Some (match r.1 with
        | None => ([], 1)
        | Some (mem, _) => match sdb_decode (Some (cstr mem)) with Some out => (out, 0) | None => ([], 1) end
        end).

Definition SBUF : Z := 512.

(** What is printed for a difference.  A longer one is formatted again into a block of its
    own, but [buf] stays the first one. *)
Definition dbdiff_cb (junk : Z) (d : SdbDiff) : option bytes :=
  r ← sdb_diff_format (replicate (Z.to_nat SBUF) junk) SBUF d;
  let '(r, buf) := r in
  if r <? 0 then Some []
  else
    let colored := 27 :: str "[" ++ (if d_add d then str "32" else str "31") ++ str "m" ++ cstr buf ++ 27 :: str "[0m" ++ [NL] in
    if SBUF <=? r then
      h ← sdb_diff_format (replicate (Z.to_nat (r + 1)) junk) (r + 1) d;
      Some (if h.1 <? 0 then [] else colored)
    else Some colored.

(** The status, and what is printed. *)
Definition main_json_indent (junk : Z) (inp : bytes) : option (outcome * Z) :=
  r ← slurp junk BS inp;
  Some (match r.1 with
        | None => (Null, 0)
        | Some (mem, _) => let out := sdb_json_indent (Some (cstr mem)) (str "  ") in (out, match out with Null => 1 | _ => 0 end)
        end).

(** The name of the file that [gen_gperf] writes, in a block of [strlen (file) + 32] bytes. *)
Definition gen_out (mo : MainOptions) (file name : bytes) : bytes :=
  take (length file + 31) (match outfile mo with Some o => o | None => name ++ str "." ++ (if textmode mo then str "c" else str "gperf") end).

(** The status of the process for a result of [sdb_main] that ends in [terminate]. *)
Definition exit_status (save sync_ok : bool) (sig : Z) : Z := if save && negb sync_ok then 1 else if sig <? 2 then sig else 0.
