(* ===== verification/MainFacts.v ===== *)
(** * What the command line does ([Main])

    Standard input is read whole; the options never reach outside the arguments; a database
    that is printed as text and read back is the same database; and command lines that do
    not do what the help says. *)

From S2P Require Import Diff DiffFacts.
From S2P Require Import Prelude Util Lock Ht HashTables Buffer CdbMake CdbTables Cdb SdbCore StrBuf Base64 JsonIndent SdbIter Disk Journal Text Query Tool ToolFacts Main.

(** ** Reading everything *)

Lemma mem_write_after t rest off b :
  slen t <= off → off + slen b <= slen (t ++ rest) → ∃ rest', mem_write (t ++ rest) off b = Some (t ++ rest') ∧ length rest' = length rest.
Proof.
  intros Ho Hb. unfold mem_write. pose proof (slen_nonneg t). pose proof (slen_nonneg b).
  rewrite (proj2 (Z.leb_le 0 off)), (proj2 (Z.leb_le _ (slen (t ++ rest)))) by lia. cbn [andb]. unfold slen in *. rewrite length_app in Hb.
  rewrite take_app_ge, <- !app_assoc by lia. eexists. split; [done|]. rewrite !length_app, length_take, length_drop, length_app. lia.
Qed.

Lemma slurp_loop_ok fuel junk bufsize cons rest inp :
  (length inp < fuel)%nat → slen cons + BS + 1 <= slen (cons ++ rest) → slen cons + BS <= bufsize → slen (cons ++ rest) <= bufsize + 1 →
  ∃ rest' bufsize', slurp_loop fuel junk bufsize (slen cons) (cons ++ rest) inp = Some ((cons ++ inp) ++ rest', slen (cons ++ inp), bufsize')
    ∧ (1 <= length rest')%nat ∧ slen (cons ++ inp) <= bufsize'.
Proof.
  revert bufsize cons rest inp. induction fuel as [|fuel IH]; intros bufsize cons rest inp Hf Hc Hb Hm; [lia|]. cbn [slurp_loop]. unfold BS in *.
  set (rr := take (Z.to_nat 128) inp). assert (length rr <= 128)%nat as Hrl by (subst rr; rewrite length_take; lia).
  assert (length rest = length (cons ++ rest) - length cons)%nat as Hrest by (rewrite length_app; lia). unfold slen in Hc, Hb, Hm.
  rewrite mem_write_spec by lia. cbn [mbind option_bind]. destruct inp as [|c inp].
  - subst rr. rewrite take_nil. cbn [slen length Z.ltb app drop]. change (slen [] <? 1) with true. cbv iota.
    rewrite (proj2 (Z.leb_le _ _)) by (unfold slen; lia). rewrite drop_0.
    rewrite mem_write_spec by (change (length [0]) with 1%nat; lia). cbn [mbind option_bind].
    rewrite app_nil_r. eexists _, _. split; [done|]. split; [cbn; lia|unfold slen; lia].
  - assert (1 <= length rr)%nat as Hr1 by (subst rr; rewrite length_take; cbn [length]; lia). rewrite (proj2 (Z.ltb_ge (slen rr) 1)) by (unfold slen; lia).
    rewrite (app_assoc cons). unfold resize.
    assert (take (Z.to_nat (bufsize + 128 + 1)) ((cons ++ rr) ++ drop (length rr) rest) = (cons ++ rr) ++ drop (length rr) rest) as ->.
    { apply take_ge. rewrite !length_app, length_drop in *. lia. }
    rewrite <- app_assoc. set (jk := replicate _ junk). assert (length jk = Z.to_nat (bufsize + 129) - length (cons ++ rest))%nat as Hjk.
    { subst jk. rewrite length_replicate, !length_app, length_drop in *. lia. }
    assert (length (drop (length rr) rest ++ jk) = Z.to_nat (bufsize + 129) - length (cons ++ rr))%nat as Hlen.
    { rewrite (length_app _ jk), Hjk, length_drop, !length_app in *. lia. }
    destruct (mem_write_after (cons ++ rr) (drop (length rr) rest ++ jk) (bufsize + 128 - 128) (replicate (Z.to_nat 128) 0)) as (r1 & -> & Hr).
    { unfold slen. rewrite length_app. lia. }
    { unfold slen. rewrite (length_app (cons ++ rr)), Hlen, length_replicate. rewrite length_app in *. lia. }
    cbn [mbind option_bind]. replace (slen cons + slen rr) with (slen (cons ++ rr)) by (unfold slen; rewrite length_app; lia).
    destruct (IH (bufsize + 128) (cons ++ rr) r1 (drop (Z.to_nat 128) (c :: inp))) as (rest' & bufsize' & -> & Hl' & Hb').
    { rewrite length_drop. cbn [length] in *. lia. }
    { unfold slen. rewrite (length_app (cons ++ rr)), Hr, Hlen. rewrite length_app. lia. }
    { unfold slen. rewrite length_app. lia. }
    { unfold slen. rewrite (length_app (cons ++ rr)), Hr, Hlen. rewrite length_app in *. lia. }
    rewrite <- (app_assoc cons rr) in *. subst rr. rewrite take_drop in *. eauto.
Qed.

(** All of the input is read, whatever its size, without an access outside the block, and a
    zero follows it. *)
Lemma slurp_ok junk bufsize inp :
  128 <= bufsize →
  ∃ rest bufsize', slurp junk bufsize inp = Some (match inp with [] => None | _ => Some (inp ++ 0 :: rest, slen inp) end, bufsize') ∧ slen inp <= bufsize'.
Proof.
  intros Hb. destruct (slurp_loop_ok (S (length inp)) junk bufsize [] (replicate (Z.to_nat (BS + 1)) 0) inp) as (rest & b' & E & Hr & Hb'); [lia|done|exact Hb| |].
  { unfold slen. cbn [app]. rewrite length_replicate. unfold BS. lia. }
  change (slen []) with 0 in E. exists (drop 1 rest), b'. cbn [app] in *. unfold slurp. rewrite E. cbn [mbind option_bind]. split; [|done].
  destruct inp as [|c inp]; [done|]. rewrite (proj2 (Z.ltb_ge _ _)) by (unfold slen; cbn; lia). rewrite (proj2 (Z.leb_le _ _)) by done.
  rewrite mem_write_spec by done. done.
Qed.

(** ** Options *)

Section options.
Context (argv : list bytes).
Notation argc := (length argv).

Lemma getarg_spec mo a mo' :
  main_argparse_getarg argv mo = (a, mo') →
  (argi mo' = argi mo ∧ db0 mo' = db0 mo ∨ argi mo' = S (argi mo) ∧ db0 mo' = S (db0 mo) ∧ argi mo' < argc)%nat ∧ create mo' = create mo.
Proof. unfold main_argparse_getarg. destruct (Nat.leb_spec argc (argi mo + 1)); intros [= <- <-]; [split; [by left|done]|]. cbn. split; [right; lia|done]. Qed.

(** A flag moves on by one argument, or by two that are there. *)
Lemma flag_spec mo c r mo' :
  main_argparse_flag argv mo c = (r, mo') →
  (argi mo' = S (argi mo) ∧ db0 mo' = db0 mo ∨ argi mo' = S (S (argi mo)) ∧ db0 mo' = S (db0 mo) ∧ argi mo' < argc)%nat ∧ create mo' = create mo.
Proof.
  unfold main_argparse_flag. set (m1 := set_args _ _ mo). assert (argi m1 = S (argi mo) ∧ db0 m1 = db0 mo ∧ create m1 = create mo) as (H1 & H2 & H3) by (split_and!; cbn; (lia || done)).
  clearbody m1. rewrite <- H1, <- H2, <- H3. clear mo H1 H2 H3.
  repeat (case_match; [try (intros [= <- <-]; cbn; (split; [by left|done]))|]);
    repeat (case_match; try (intros [= <- <-]; cbn; (split; [by left|done])));
    try match goal with E : main_argparse_getarg _ _ = _ |- _ => apply getarg_spec in E end; intros [= <- <-]; cbn; intuition lia.
Qed.

(** Where the parser is between two arguments. *)
Definition at_arg (i : nat) (mo : MainOptions) : Prop :=
  (i <= argi mo ∧ S (db0 mo) = argi mo ∧ argi mo <= argc ∧ (i < argc → argi mo < argc))%nat ∧ create mo = nope.

Lemma argparse_loop_ok fuel i mo :
  (argc < fuel + i)%nat → at_arg i mo →
  ∃ r mo', argparse_loop argv fuel i mo = Some (r, mo') ∧ (db0 mo' <= argc)%nat ∧ (r = None → create mo' = nope ∨ db0 mo' = argi mo').
Proof.
  revert i mo. induction fuel as [|fuel IH]; intros i mo Hfu ((Hi & Hd & Ha & Hlt) & Hc); cbn [argparse_loop]; destruct (Nat.leb_spec argc i) as [Hle|Hgt]; [lia|lia| |].
  { eexists _, _. split; [done|]. split; [lia|by left]. }
  specialize (Hlt Hgt). set (m1 := set_args (argi mo) (db0 mo + 1) mo). assert (argi m1 = argi mo ∧ db0 m1 = argi mo ∧ create m1 = nope) as (H1 & H2 & H3) by (split_and!; cbn; (lia || done)).
  clearbody m1. rewrite H1. destruct (lookup_lt_is_Some_2 argv (argi mo) Hlt) as [a Ea]. rewrite Ea. cbn [mbind option_bind].
  destruct ((hd0 a =? chr "-") && negb (byte_at a 1 =? 0)) eqn:Ef.
  - apply andb_true_iff in Ef as [_ Ef]. destruct a as [|x [|c a]]; [done|done|]. cbn [drop flag_loop].
    destruct (main_argparse_flag argv m1 c) as [r m2] eqn:E2. apply flag_spec in E2 as [Hs Hc2]. rewrite H1, H2 in Hs.
    destruct r as [e|]; [eexists _, _; split; [done|]; split; [lia|done]|].
    rewrite (proj2 (Nat.eqb_neq _ _)) by lia. cbn [negb]. apply IH; [lia|]. split; [lia|congruence].
  - unfold argv_at. rewrite H2. rewrite (proj2 (Nat.leb_le _ _)) by lia. cbn [mbind option_bind].
    destruct (Nat.ltb_spec (argi mo + 1) argc) as [Hn|Hn]; [|eexists _, _; split; [done|]; cbn; rewrite H2; split; [lia|by left]].
    destruct (lookup_lt_is_Some_2 argv (argi mo + 1) Hn) as [b ->]. cbn [mbind option_bind]. eexists _, _. split; [done|].
    assert (∀ m, argi m = argi mo → db0 m = argi mo → (db0 m <= argc)%nat ∧ (@None terminal = None → create m = nope ∨ db0 m = argi m)) as Hm by (intros m -> ->; split; [lia|by right]).
    repeat case_match; apply Hm; cbn; congruence.
Qed.

Lemma argparse_ok : argv ≠ [] → ∃ r mo, main_argparse argv = Some (r, mo) ∧ (db0 mo <= argc)%nat ∧ (r = None → create mo = nope ∨ db0 mo = argi mo).
Proof.
  intros Hne. assert (0 < argc)%nat as Hn by (destruct argv; [done|cbn; lia]). unfold main_argparse.
  destruct (argparse_loop_ok (S argc) 1 (mkMain 1 0 None None None None main_options false nope TEXT)) as (r & mo & -> & Hd & Hr); [lia|split; [cbn; lia|done]|].
  cbn [mbind option_bind]. destruct r as [e|]; [eauto|]. unfold argv_at. rewrite (proj2 (Nat.leb_le _ _)) by done. cbn [mbind option_bind].
  eexists _, _. split; [done|]. by split; [|intros _; apply Hr].
Qed.
End options.

(** The options, whatever they are, are parsed without an access outside the arguments, and
    so is what follows them. *)
Theorem sdb_main_args_safe argv : is_Some (sdb_main argv).
Proof.
  unfold sdb_main. destruct (Nat.ltb_spec (length argv) 2) as [|Hn]; [done|].
  destruct (argparse_ok argv) as (r & mo & -> & Hd & Hc); [by destruct argv; cbn in Hn; [lia|]|]. cbn [mbind option_bind].
  destruct r as [e|]; [done|]. specialize (Hc eq_refl).
  assert (∀ i, (i < length argv)%nat → is_Some (argv !! i)) as Hl by apply lookup_lt_is_Some_2.
  destruct (format mo); try done.
  5: { unfold argv_at. destruct (Nat.leb_spec (length argv) (db0 mo)); [done|]. rewrite (proj2 (Nat.leb_le _ _)) by done. done. }
  4: { destruct (Nat.leb_spec (length argv) (db0 mo)) as [|Hlt]; [done|]. by destruct (Hl _ Hlt) as [f ->]. }
  all: case_match; [done|]; set (m1 := if bool_decide (create mo = nope ∧ _) then _ else _);
    assert (create m1 = nope ∨ db0 m1 = argi m1) as Hm1 by (subst m1; case_match; [by right|done]); clearbody m1;
    destruct (create m1); try done; [case_match; done|];
    destruct (Nat.ltb_spec (argi m1 + 2) (length argv)); [done|]; destruct (Nat.ltb_spec (db0 m1 + 2) (length argv)); [|done];
    destruct Hm1 as [|Hm1]; [done|rewrite (proj2 (Nat.leb_le _ _)) by lia; done].
Qed.

(** ** Printing and reading back *)

(** Strings that the text format does not escape; the command line does not escape any. *)
Definition plain_pair (kv : bytes * bytes) : Prop := pair_text kv = kv.1 ++ EQ :: kv.2 ++ [NL].

#[local] Instance plain_pair_dec kv : Decision (plain_pair kv).
Proof. unfold plain_pair. apply _. Defined.

Lemma dump_pairs_text mo comma l :
  format mo = TEXT → grep mo = None → Forall plain_pair l → dump_pairs mo comma l = mjoin (pair_text <$> l).
Proof.
  intros Hf Hg Hp. revert comma. induction Hp as [|[k v] l Hkv _ IH]; intros comma; [done|]. cbn [dump_pairs]. unfold hidden. rewrite Hg.
  rewrite fmap_cons. change (mjoin (?x :: ?y)) with (x ++ mjoin y). rewrite Hkv.
  destruct v; unfold sdb_dump_cb; rewrite Hf, IH; done.
Qed.

Lemma text_load_pairs `{!TextDbs H D} l (s : H) (d : D) :
  Forall (λ kv, text_str kv.1 ∧ text_str kv.2) l →
  sdb_text_load_buf s (mjoin (pair_text <$> l)) d = databases (foldl emit (mkTarget s s d) ((λ kv, EKv kv.1 kv.2) <$> l)).
Proof.
  intros Hl. pose proof (run_pairs l [] (mkTarget s s d) (load_ctx_init s (mjoin (pair_text <$> l)) d) Hl) as (Hb & lb & tb & E).
  { exists [], 0, 0. by rewrite app_nil_r. }
  unfold sdb_text_load_buf. destruct (mjoin (pair_text <$> l)) as [|c b] eqn:Eb; [by apply (f_equal (databases ∘ tgt)) in E|].
  rewrite load_chars_steps by (unfold load_ctx_init, slen; cbn [pos buf]; lia). rewrite E. cbn [tgt state].
  rewrite bool_decide_false by naive_solver. by rewrite andb_false_r.
Qed.

Lemma config_main now s :
  journal (core s) = None →
  ∃ c, sdb_config now true main_options s = (tt, mkFs c (dir s) (name s) (ndump s) (fdump s) (maker s) (Disk.files s)) ∧ same_core (core s) c ∧ ht c = ht (core s) ∧ db c = db (core s) ∧ journal c = None.
Proof.
  intros Hj. unfold sdb_config. change (negb (Z.land main_options SDB_OPTION_JOURNAL =? 0)) with false.
  change (negb (Z.land main_options SDB_OPTION_NOSTAMP =? 0)) with true. cbv iota. unfold sdb_journal_close; run_f. rewrite Hj. unfold Disk.lift, modify. eexists. split; [done|]. by split_and!.
Qed.

Lemma dump_text now junk mo n s :
  mem_inv n (core s) → journal (core s) = None → format mo = TEXT → grep mo = None →
  let l := merge_sort key_le (map_to_list (view (core s))) in
  Forall plain_pair l → ∃ s', sdb_dump now junk mo s = (Some (0, mjoin (pair_text <$> l)), s').
Proof.
  intros Hi Hj Hf Hg l Hp. unfold sdb_dump. unfold mbind, F_bind. destruct (config_main now s Hj) as (c & -> & Hc & Hht & Hdb & _).
  assert (mem_inv n c) as Hi0 by by eapply mem_inv_core. assert (fd c = None) as Hfd by apply (mi_disk _ _ _ Hi0).
  unfold Disk.lift at 1. unfold sdb_dump_begin; run_m. cbn [core]. rewrite Hfd. unfold getF. cbn [core]. change (fd (set_dump_pos 0 c)) with (fd c). rewrite Hfd.
  assert (mem_inv n (set_dump_pos 0 c)) as Hi1 by by eapply mem_inv_core.
  unfold Disk.lift, sdb_foreach_list; run_m. cbn [core]. destruct (foreach_pairs_mem n _ Hi1) as (l' & s' & -> & Hl' & _).
  assert (view (set_dump_pos 0 c) = view (core s)) as Hv by (apply view_core; exact Hc). rewrite Hv in Hl'.
  rewrite (sorted_pairs l' (map_to_list (view (core s)))) by (done || rewrite Hl'; apply NoDup_fst_map_to_list). fold l.
  rewrite Hf. rewrite (bool_decide_false (TEXT = CGEN)) by done. rewrite andb_false_r. cbn [andb]. unfold dump_start, dump_end. rewrite Hf. unfold mret, F_ret, option_bind.
  cbn [snd Z.eqb fst app]. rewrite app_nil_r, dump_pairs_text by done. eexists. reflexivity.
Qed.

(** *** Printing the records of a file *)

Lemma dupnext_db s s' : db s = db s' → dump_pos s = dump_pos s' → (sdb_dump_dupnext s).1 = (sdb_dump_dupnext s').1.
Proof.
  destruct s, s'. cbn [SdbCore.db SdbCore.dump_pos]. intros <- <-. unfold sdb_dump_dupnext, getbytes; run_m. cbn [SdbCore.db SdbCore.dump_pos SdbCore.set_dump_pos].
  destruct (cdb_getkvlen _ _) as [[] [kl vl]]; [|done]. cbn [negb]. destruct (_ || _); [done|].
  destruct (_ && _); [destruct (cdb_read _ kl _); [|done]|]; cbn [SdbCore.db SdbCore.dump_pos SdbCore.set_dump_pos]; (destruct (vl <? SDB_MAX_VALUE); [|done]); by destruct (cdb_read _ vl _).
Qed.

Lemma dump_file_ok img mo kvs s p fuel comma count :
  format mo = TEXT → grep mo = None → reading (db s) img → Forall2 (rec_at img) (entries_of kvs p) kvs → Forall walked kvs → dump_pos s = p → (length kvs < fuel)%nat →
  (sdb_dump_dupnext (set_dump_pos (p + slen (records kvs)) s)).1 = None → ∃ s', dump_file fuel mo comma count 0 s = (Some (dump_pairs mo comma kvs, 0), s').
Proof.
  intros Hfm Hg. revert s p fuel comma. induction kvs as [|kv kvs IH]; intros s p fuel comma Hr He Hw Hp Hf Hend; (destruct fuel as [|fuel]; [cbn in Hf; lia|]); cbn [dump_file]; run_m.
  - change (slen (records [])) with 0 in Hend. rewrite Z.add_0_r in Hend. replace (set_dump_pos p s) with s in Hend by (subst p; by destruct s).
    destruct (sdb_dump_dupnext s) as [[] s']; [done|]. by exists s'.
  - cbn [entries_of] in He. apply Forall2_cons in He as [Hkv He]. apply Forall_cons in Hw as [[Hne Hk] Hw].
    rewrite (dump_next_ok s img _ kv Hr Hkv Hne Hk Hp). cbn [hp_p]. unfold hidden. rewrite Hg, Hfm. rewrite (bool_decide_false (TEXT = CGEN)) by done. rewrite andb_false_r. cbn [andb].
    destruct (IH (set_dump_pos (p + slen (record kv)) s) (p + slen (record kv)) fuel (str ",") Hr He Hw eq_refl ltac:(cbn in Hf; lia)) as (s' & E).
    { rewrite records_cons, slen_app, Z.add_assoc in Hend. exact Hend. }
    destruct kv as [k v]. cbn [fst snd dump_pairs]. unfold hidden. rewrite Hg. destruct v; cbn [negb andb]; rewrite E; by exists s'.
Qed.

Lemma dump_text_file now junk mo kvs n s :
  db_inv (Some kvs) n (core s) → well_read (Some kvs) (core s) → journal (core s) = None → format mo = TEXT → grep mo = None →
  Forall plain_pair kvs → ∃ s', sdb_dump now junk mo s = (Some (0, mjoin (pair_text <$> kvs)), s').
Proof.
  intros Hi [Hw He] Hj Hf Hg Hp. unfold sdb_dump. unfold mbind, F_bind. destruct (config_main now s Hj) as (c & -> & Hc & Hht & Hdb & _).
  destruct (mi_disk _ _ _ Hi) as (img & Hfd & Hr & Him & Hok). assert (fd c = Some img) as Hfc by (rewrite <- Hfd; apply Hc).
  unfold Disk.lift at 1. unfold sdb_dump_begin; run_m. cbn [core]. rewrite Hfc. unfold getF. cbn [core]. change (fd (set_dump_pos CDB_FINAL c)) with (fd c). rewrite Hfc.
  destruct (dump_file_ok img mo kvs (set_dump_pos CDB_FINAL c) CDB_FINAL (S (db_size (set_dump_pos CDB_FINAL c))) [] 0 Hf Hg) as (s' & E).
  - cbn [db set_dump_pos]. by rewrite Hdb.
  - exact (image_rec_at kvs img Him Hok).
  - done.
  - done.
  - unfold db_size. cbn [db set_dump_pos]. rewrite Hdb, (rd_map _ _ Hr). pose proof (im_size _ _ Him) as Hs. unfold image_size, CDB_FINAL, slen in Hs. lia.
  - rewrite <- He. apply dupnext_db; [exact Hdb|done].
  - unfold Disk.lift. cbn [core]. rewrite E. unfold dump_start, dump_end. rewrite Hf. unfold mret, F_ret, option_bind. cbn [snd Z.eqb fst app mbind option_bind].
    rewrite app_nil_r, dump_pairs_text by done. eexists. reflexivity.
Qed.

Section create.
Context (e : ToolEnv) (files : gmap bytes bytes) (f : bytes) (l : list (bytes * bytes)).
Hypothesis Hok : text_ok l [].
Hypothesis Hsys : sys_ok (e_sys e) ∧ e_locked e = true ∧ image_size l <= Z.of_nat (room (e_sys e)).
Hypothesis Hname : slen f + 6 <= SDB_MAX_PATH ∧ f ≠ [].

Lemma createdb_stdin :
  l ≠ [] →
  ∃ files' img kvs, createdb e files f None (mjoin (pair_text <$> l)) = Some (0, files') ∧ files' !! f = Some img
    ∧ image_ok kvs img ∧ Forall pair_ok kvs ∧ kvs ≡ₚ l.
Proof using Hok Hsys Hname.
  intros Hne. destruct Hsys as (Hs & Hlk & Hroom), Hname as [Hlen Hfne]. unfold createdb.
  destruct (text_new l [] Hok) as (s0 & -> & Hi0 & Hv0 & Hl0 & Hj0). rewrite lock_name by done. rewrite Hlk. cbn [negb].
  set (fs1 := <[f ++ str ".lock" := _]> files). set (s := mkFs s0 _ _ _ _ _ fs1). destruct (config_main (e_now e) s Hj0) as (c & -> & Hc & Hht & Hdb & _). cbn [core s dir name ndump fdump maker Disk.files].
  destruct (slurp_ok (e_junk e) BS (mjoin (pair_text <$> l))) as (rest & b' & -> & _); [done|]. cbn [mbind option_bind fst].
  pose proof (to_tree _ _ Hok) as Ht. inversion Ht as [? ? Hps _]; subst.
  destruct (mjoin (pair_text <$> l)) as [|x t] eqn:Et.
  { exfalso. destruct l as [|[k v] l']; [done|]. rewrite fmap_cons in Et. change (mjoin (?x :: ?y)) with (x ++ mjoin y) in Et. apply app_nil in Et as [Et _].
    unfold pair_text in Et. apply app_nil in Et as [_ Et]. done. }
  rewrite <- Et. cbn [mbind option_bind]. rewrite slen_to_nat, take_app_length. unfold text_buf_into. rewrite text_load_pairs, emit_root by done. cbn [snd].
  rewrite <- (app_nil_r ((λ kv, EKv kv.1 kv.2) <$> l)), load_root_pairs. cbn [load_root]. unfold mret, M_ret. cbn [snd].
  destruct (fill_db l [] Hok (e_now e) c) as (db & -> & Hi & Hv & Hl).
  { by eapply mem_inv_core. } { by rewrite (view_core s0 c). } { unfold lasting. by rewrite Hht. }
  cbn [snd]. destruct (sync_of_pairs l [] Hok (e_sys e) (λ d, text_into (e_now e) (Some d)) db f fs1 Hs Hroom Hi Hv Hl) as (img & s' & kvs & -> & Hf & Him & Hpk & Hp).
  cbn [mbind option_bind]. eexists _, img, kvs. split; [done|]. split_and!; [|done..].
  rewrite Hf, lookup_delete_ne, lookup_insert_eq; [done|]. intros E%(f_equal length). rewrite length_app in E. change (length (str ".lock")) with 5%nat in E. lia.
Qed.
End create.

(** * Properties *)

(** What is printed of a database: in memory the pairs in the order of the keys, over a file
    that is only read the records. *)
Definition printed (disk : option pairs) (s : Sdb) : pairs :=
  match disk with None => merge_sort key_le (map_to_list (view s)) | Some kvs => kvs end.

(** C17: What is printed can be read back.  Take a database in memory without expirations,
    or one that was opened from a finished file and not changed, whose keys have 1 to 253
    characters and whose tables do not look like one more record; at least one pair, keys
    and values that are not empty, no key twice, within the sizes of [sdb_set] and of a file
    below 16 MB that [sdb_text_check] does not take for text; and nothing in the strings to
    escape ([plain_pair]: [sdb_dump] does not escape).  When it is printed as text without a
    filter and the text is given to the command that creates a database, through the reader
    of standard input, the loader and a sync, with the lock got and the system calls
    succeeding, both report success, and [sdb_open] opens the new file as a database that
    answers every key as the first one. *)
Theorem sdb_dump_loads_back now junk mo disk n s e files f :
  db_inv disk n (core s) → well_read disk (core s) → (disk ≠ None → to_map (ht (core s)) = ∅) →
  journal (core s) = None → format mo = TEXT → grep mo = None →
  let l := printed disk (core s) in
  l ≠ [] → text_ok l [] → Forall plain_pair l →
  sys_ok (e_sys e) → e_locked e = true → image_size l <= Z.of_nat (room (e_sys e)) → slen f + 6 <= SDB_MAX_PATH → f ≠ [] →
  ∃ out s' files' img, sdb_dump now junk mo s = (Some (0, out), s')
    ∧ createdb e files f None out = Some (0, files') ∧ files' !! f = Some img
    ∧ opens_as img (λ k, (sdb_get now (Some k) (core s)).1.1).
Proof.
  intros Hi Hw Hht Hj Hf Hg l Hne Hok Hp Hs Hlk Hroom Hlen Hfne.
  assert (∃ s', sdb_dump now junk mo s = (Some (0, mjoin (pair_text <$> l)), s')) as (s' & E).
  { unfold l in *. destruct disk as [kvs|]; [by apply (dump_text_file now junk mo kvs n)|by apply (dump_text now junk mo n)]. }
  destruct (createdb_stdin e files f l Hok (conj Hs (conj Hlk Hroom)) (conj Hlen Hfne) Hne) as (files' & img & kvs & E' & Hf' & Him & Hpk & Hkv).
  pose proof (image_answers kvs img l [] Hok Him Hpk Hkv) as Hop.
  exists (mjoin (pair_text <$> l)), s', files', img. split_and!; [done..|]. intros sys text_load file fs Hmm Hfs.
  destruct (Hop sys text_load file fs Hmm Hfs) as (c0 & s1 & E0 & E1 & Hget). exists c0, s1. split_and!; [done..|].
  intros now' k Hk. rewrite (Hget now' k Hk). unfold l in *. clear - Hi Hht Hk. destruct disk as [kvs'|]; cbn [printed].
  - destruct (get_disk now kvs' n (core s) k Hi (key_ok_u32 k Hk)) as (c & s' & -> & _). cbn [fst]. unfold dview. by rewrite Hht, lookup_empty.
  - rewrite (sdb_get_mem now n (core s) k Hi). cbn [fst]. rewrite first_value_map. f_equal.
    rewrite <- (list_to_map_to_list (view (core s))) at 2. apply list_to_map_proper; [|apply merge_sort_Permutation].
    rewrite merge_sort_Permutation. apply NoDup_fst_map_to_list.
Qed.

Definition demo_list : list (bytes * bytes) := [(str "a", str "1"); (str "k", str "v")].

Lemma demo_list_ok : text_ok demo_list [].
Proof.
  split.
  - repeat (constructor; cbn); try done; unfold is_char; cbn; lia.
  - apply (bool_decide_unpack _); vm_compute; exact I.
  - repeat constructor; vm_compute; congruence.
  - vm_compute. reflexivity.
  - vm_compute. reflexivity.
Qed.

Lemma demo_list_db : ∃ s, mem_inv 0 s ∧ view s = list_to_map demo_list ∧ journal s = None.
Proof.
  destruct (text_new demo_list [] demo_list_ok) as (s0 & E0 & Hi0 & Hv0 & Hl0 & _).
  destruct (fill_db demo_list [] demo_list_ok 0 s0 Hi0 Hv0 Hl0) as (db & E & Hi & Hv & _). exists db. split_and!; [done..|].
  assert ((λ s, journal (set_pairs 0 demo_list s).2) <$> sdb_new0 = Some None) as H by (vm_compute; reflexivity).
  rewrite E0 in H. cbn [fmap option_fmap option_map] in H. rewrite E in H. by injection H.
Qed.

(** The same pairs in a file, opened and only read. *)
Definition demo_img : bytes :=
  match cdb_make_finish (λ n, Some (replicate n (mkHp 0 0))) true (add_all (cdb_make_start true (mkFile [] 0 5000)).2 demo_list).2 with
  | Some (_, c) => fdata (mout c).2
  | None => []
  end.

Lemma demo_list_file : ∃ s, db_inv (Some demo_list) 0 s ∧ well_read (Some demo_list) s ∧ to_map (ht s) = ∅ ∧ journal s = None.
Proof.
  assert (Forall pair_ok demo_list) as Hok by (repeat constructor; vm_compute; congruence).
  destruct (build_ok (λ n, Some (replicate n (mkHp 0 0))) (mkFile [] 0 5000) demo_list) as (c0 & c1 & c2 & E0 & E1 & E2 & Him);
    [intros n; exists (replicate n (mkHp 0 0)); by rewrite length_replicate|done|exact Hok|vm_compute; congruence..|].
  assert (fdata (mout c2).2 = demo_img) as Ei by (unfold demo_img; by rewrite E0; cbn [snd]; rewrite E1; cbn [snd]; rewrite E2). rewrite Ei in Him.
  destruct (open_ok demo_list demo_img 0 Him Hok) as (s0 & s & Es & Eo & Hi & Hm); [vm_compute; congruence..|]. exists s.
  assert ((λ s0, let s := (sdb_open_file true 0 (Some demo_img) s0).2 in ((sdb_dump_dupnext (set_dump_pos (CDB_FINAL + slen (records demo_list)) s)).1, journal s)) <$> sdb_new0
    = Some (None, None)) as H by (vm_compute; reflexivity).
  rewrite Es in H. cbn [fmap option_fmap option_map] in H. rewrite Eo in H. cbn [snd] in H. injection H as He Hj. split_and!; [done|split; [|exact He]|done|done]. repeat constructor; by vm_compute.
Qed.

Definition demo_main : MainOptions := mkMain 1 1 (Some (str "x")) None None None 0 false nope TEXT.

Lemma sdb_dump_loads_back_witness :
  (∃ s out s' files' img, fd (core s) = None ∧ view (core s) = list_to_map demo_list
    ∧ sdb_dump 0 0 demo_main s = (Some (0, out), s') ∧ createdb demo_env ∅ (str "y") None out = Some (0, files') ∧ files' !! str "y" = Some img
    ∧ opens_as img (λ k, (sdb_get 0 (Some k) (core s)).1.1)) ∧
  (∃ s out s' files' img, is_Some (fd (core s))
    ∧ sdb_dump 0 0 demo_main s = (Some (0, out), s') ∧ createdb demo_env ∅ (str "y") None out = Some (0, files') ∧ files' !! str "y" = Some img
    ∧ opens_as img (λ k, (sdb_get 0 (Some k) (core s)).1.1)).
Proof.
  assert (Forall plain_pair demo_list) as Hp by (apply (bool_decide_unpack _); vm_compute; exact I). split.
  - destruct demo_list_db as (c & Hi & Hv & Hj). set (s := mkFs c None None None false make_none ∅).
    assert (printed None (core s) = demo_list) as El by (cbn [core s printed]; rewrite Hv; vm_compute; reflexivity).
    destruct (sdb_dump_loads_back 0 0 demo_main None 0 s demo_env ∅ (str "y")) as (out & s' & files' & img & H);
      [exact Hi|exact I|done|exact Hj|reflexivity|reflexivity|rewrite El; discriminate|rewrite El; exact demo_list_ok|rewrite El; exact Hp|exact demo_sys_ok|reflexivity
      |rewrite El; vm_compute; congruence|vm_compute; congruence|discriminate|].
    exists s, out, s', files', img. split; [exact (proj1 (mi_disk _ _ _ Hi))|]. split; [exact Hv|exact H].
  - destruct demo_list_file as (c & Hi & Hw & Hm & Hj). set (s := mkFs c None None None false make_none ∅).
    destruct (sdb_dump_loads_back 0 0 demo_main (Some demo_list) 0 s demo_env ∅ (str "y")) as (out & s' & files' & img & H);
      [exact Hi|exact Hw|intros _; exact Hm|exact Hj|reflexivity|reflexivity|discriminate|exact demo_list_ok|exact Hp|exact demo_sys_ok|reflexivity
      |vm_compute; congruence|vm_compute; congruence|discriminate|].
    exists s, out, s', files', img. split; [|exact H]. destruct (mi_disk _ _ _ Hi) as (im & Hfd & _). exists im. exact Hfd.
Defined.

(** ** What goes wrong *)

Lemma argparse_flag argv fuel i mo c s :
  (i < length argv)%nat → argv !! argi mo = Some (chr "-" :: c :: s) → c ≠ 0 →
  argparse_loop argv (S fuel) i mo =
    match main_argparse_flag argv (set_args (argi mo) (db0 mo + 1) mo) c with
    | (Some e, m) => Some (Some e, m)
    | (None, m) => argparse_loop argv fuel (S (argi mo)) m
    end.
Proof.
  intros Hi Ha Hc. cbn [argparse_loop]. rewrite (proj2 (Nat.leb_gt _ _)) by done. change (argi (set_args (argi mo) (db0 mo + 1) mo)) with (argi mo). rewrite Ha. cbn [mbind option_bind].
  change (byte_at (chr "-" :: c :: s) 1) with c. rewrite (proj2 (Z.eqb_neq c 0)) by done. change (hd0 (chr "-" :: c :: s) =? chr "-") with true. cbn [andb negb drop flag_loop].
  destruct (main_argparse_flag _ _ c) as [[e|] m] eqn:E; [done|]. apply flag_spec in E as [Hm _]. cbn [set_args argi] in Hm.
  by rewrite (proj2 (Nat.eqb_neq _ _)) by lia.
Qed.

Lemma argparse_db argv fuel i mo a :
  (i < length argv)%nat → argv !! argi mo = Some a → hd0 a ≠ chr "-" → (db0 mo + 1 <= length argv)%nat →
  argparse_loop argv (S fuel) i mo =
    let m := set_db (argv !! (db0 mo + 1)%nat) (set_args (argi mo) (db0 mo + 1) mo) in
    Some (None, match argv !! (argi mo + 1)%nat with
                | None => m
                | Some b =>
                    if hd0 b =? chr "-" then (if byte_at b 1 =? 0 then set_create dash m else m)
                    else if hd0 b =? chr "=" then (if byte_at b 1 =? 0 then set_create eqeq m else set_create dobl m)
                    else set_db2 (Some a) m
                end).
Proof.
  intros Hi Ha Hh Hd. cbn [argparse_loop]. rewrite (proj2 (Nat.leb_gt _ _)) by done. change (argi (set_args (argi mo) (db0 mo + 1) mo)) with (argi mo). rewrite Ha. cbn [mbind option_bind].
  rewrite (proj2 (Z.eqb_neq _ _) Hh). cbn [andb]. unfold argv_at. change (db0 (set_args (argi mo) (db0 mo + 1) mo)) with (db0 mo + 1)%nat. rewrite (proj2 (Nat.leb_le _ _)) by done. cbn [mbind option_bind].
  destruct (Nat.ltb_spec (argi mo + 1) (length argv)) as [Hn|Hn]; [by destruct (lookup_lt_is_Some_2 _ _ Hn) as [b ->]|]. by rewrite (lookup_ge_None_2 argv (argi mo + 1)) by done.
Qed.

(** Run the flags of a command line whose other arguments are variables. *)
Ltac run_flag c s := cbn [length];
  rewrite (argparse_flag _ _ _ _ c s) by first [cbn; lia|done];
  match goal with |- context [main_argparse_flag ?l ?m ?x] => let r := eval vm_compute in (main_argparse_flag l m x) in change (main_argparse_flag l m x) with r end; cbv iota.
Ltac run_db a := cbn [length]; rewrite (argparse_db _ _ _ _ a) by first [done|cbn; lia]; cbn -[chr hd0 byte_at str main_options].

(** [sdb -D a b] compares the first database with itself. *)
Theorem sdb_main_diff_self a b :
  hd0 a ≠ chr "-" → hd0 b ≠ chr "-" → hd0 b ≠ chr "=" → sdb_main [str "sdb"; str "-D"; a; b] = Some (ADiff a a).
Proof.
  intros Ha Hb Hb'. unfold sdb_main, main_argparse. run_flag (chr "D") (@nil Z). run_db a.
  by rewrite (proj2 (Z.eqb_neq _ _) Hb), (proj2 (Z.eqb_neq _ _) Hb').
Qed.

(** [sdb -c db] prints the usage. *)
Theorem sdb_main_count_usage db : sdb_main [str "sdb"; str "-c"; db] = Some (ATerminal (Showusage 1)).
Proof. unfold sdb_main, main_argparse. run_flag (chr "c") (@nil Z). done. Qed.

(** Of several flags in one argument only the first is seen: [-Ct] is [-C]. *)
Theorem sdb_main_flags_grouped db : hd0 db ≠ chr "-" → sdb_main [str "sdb"; str "-Ct"; db] = sdb_main [str "sdb"; str "-C"; db].
Proof.
  intros Hd. enough (∃ x, sdb_main [str "sdb"; str "-Ct"; db] = x ∧ sdb_main [str "sdb"; str "-C"; db] = x) as (x & -> & ->) by done.
  eexists. split; unfold sdb_main, main_argparse; [run_flag (chr "C") (str "t")|run_flag (chr "C") (@nil Z)]; run_db db; reflexivity.
Qed.

(** [-J] changes nothing: the journal is not switched on. *)
Theorem sdb_main_journal_ignored db q :
  hd0 db ≠ chr "-" → hd0 q ≠ chr "-" → hd0 q ≠ chr "=" →
  sdb_main [str "sdb"; str "-J"; db; q] = Some (AQueries (Some db) [q] false) ∧ sdb_main [str "sdb"; db; q] = Some (AQueries (Some db) [q] false).
Proof.
  intros Hd Hq Hq'. assert (db ≠ str "-") as Hne by (by intros ->). split; unfold sdb_main, main_argparse; [run_flag (chr "J") (@nil Z)|]; run_db db;
    rewrite (proj2 (Z.eqb_neq _ _) Hq), (proj2 (Z.eqb_neq _ _) Hq'); cbn -[chr hd0 byte_at str]; rewrite ?bool_decide_false by naive_solver; done.
Qed.

(** Without a newline the last line of standard input is not run. *)
Theorem sdb_stdin_last_line_lost fuel l : NL ∉ l → (length l < LINE_SIZE - 1)%nat → stdin_lines fuel l = [].
Proof.
  intros Hn Hl. destruct fuel as [|fuel]; [done|]. cbn [stdin_lines]. unfold slurp_line. rewrite take_ge by lia.
  rewrite (proj2 (strchr_None _ _) Hn). by rewrite (proj2 (Nat.ltb_lt _ _)).
Qed.

(** As JSON, quotes inside values are printed as they are. *)
Theorem sdb_dump_json_quotes mo k v :
  format mo = JSON → sdb_isnum v = false → hd0 v ≠ chr "{" → hd0 v ≠ chr "[" → v ≠ str "true" → v ≠ str "false" →
  sdb_dump_cb mo k v [] = [QUOT] ++ k ++ [QUOT; chr ":"; QUOT] ++ v ++ [QUOT].
Proof.
  intros Hf Hn H1 H2 H3 H4. unfold sdb_dump_cb. rewrite Hf. rewrite <- strcmp_eq in H3, H4. rewrite (proj2 (Z.eqb_neq _ _) H3), (proj2 (Z.eqb_neq _ _) H4).
  cbn [orb]. rewrite Hn, (proj2 (Z.eqb_neq _ _) H1), (proj2 (Z.eqb_neq _ _) H2). done.
Qed.

(** A difference of 512 bytes or more is printed only up to its byte 511. *)
Theorem sdb_diff_printed_cut junk d :
  is_cstr (diff_text d) → d_k d ≠ [] → SBUF <= slen (diff_text d) →
  dbdiff_cb junk d = Some (27 :: str "[" ++ (if d_add d then str "32" else str "31") ++ str "m" ++ take 511 (diff_text d) ++ 27 :: str "[0m" ++ [NL]).
Proof.
  intros Hc Hk Hl. unfold dbdiff_cb. pose proof (slen_nonneg (diff_text d)) as Hp.
  destruct (sdb_diff_format_snprintf (replicate (Z.to_nat SBUF) junk) SBUF d) as (mem & -> & _ & Hm); [done|done|]. cbn [mbind option_bind].
  change (SBUF =? 0) with false in Hm. destruct Hm as (rest & ->). rewrite (proj2 (Z.ltb_ge _ _)) by done. rewrite (proj2 (Z.leb_le SBUF _)) by done.
  destruct (sdb_diff_format_snprintf (replicate (Z.to_nat (slen (diff_text d) + 1)) junk) (slen (diff_text d) + 1) d) as (mem' & -> & _); [unfold slen; rewrite length_replicate; lia|done|].
  cbn [mbind option_bind fst]. rewrite (proj2 (Z.ltb_ge _ _)) by done. change (Z.to_nat (SBUF - 1)) with 511%nat. rewrite cstr_app_nul by (by apply Forall_take). done.
Qed.

(** The name given with [-o] is cut when it is longer than the name of the database and 31
    bytes, and another file is written. *)
Theorem sdb_gen_outfile_cut mo file name o :
  outfile mo = Some o → (length file + 31 < length o)%nat → gen_out mo file name ≠ o.
Proof. intros Ho Hl E%(f_equal length). unfold gen_out in E. rewrite Ho, length_take in E. lia. Qed.
