(* ===== verification/Heap.v ===== *)
(** * The allocator ([src/heap.c])

    Blocks of memory with a header in front and a footer behind, chained by their sizes,
    the free ones linked in a list through their payload.  All of it is aligned to 8
    bytes, and headers, footers and pointers take 8 bytes each, so the memory is a
    function from addresses to slots of 8 bytes: a slot that is not mapped, or that holds
    something else than what is read from it, is a fault.  What [mmap] returns is an
    argument. *)

From S2P Require Import Prelude.

Record Header := mkHeader { hsize : Z; hfree : bool; has_prev : bool; has_next : bool }.

(** [CWord] is data of the user of a block. *)
Inductive cell := CHdr (h : Header) | CFtr (size : Z) (free : bool) | CPtr (p : Z) | CWord (v : Z).

Record SdbHeap := mkHeap { last_address : Z; free_list_start : Z; last_mapped_size : Z }.

Record HS := mkHS { heap : SdbHeap; mem : Z → option cell }.

Inductive hres (A : Type) := HOk (a : A) (s : HS) | HFault | HNoFuel.
Arguments HOk {A} _ _.
Arguments HFault {A}.
Arguments HNoFuel {A}.

Definition HM (A : Type) : Type := HS → hres A.
#[export] Instance HM_ret : MRet HM := λ A a s, HOk a s.
#[export] Instance HM_bind : MBind HM := λ A B k m s, match m s with HOk a s => k a s | HFault => HFault | HNoFuel => HNoFuel end.

Definition hfault {A} : HM A := λ _, HFault.
Definition get_heap : HM SdbHeap := λ s, HOk (heap s) s.
Definition set_heap (h : SdbHeap) : HM () := λ s, HOk () (mkHS h (mem s)).
Definition set_start (p : Z) : HM () := h ← get_heap; set_heap (mkHeap (last_address h) p (last_mapped_size h)).
Definition set_last (p : Z) : HM () := h ← get_heap; set_heap (mkHeap p (free_list_start h) (last_mapped_size h)).
Definition set_pages (n : Z) : HM () := h ← get_heap; set_heap (mkHeap (last_address h) (free_list_start h) n).

Definition upd (x : Z) (c : cell) (m : Z → option cell) : Z → option cell := λ y, if y =? x then Some c else m y.

Definition wr (x : Z) (c : cell) : HM () := λ s,
  match mem s x with Some _ => HOk () (mkHS (heap s) (upd x c (mem s))) | None => HFault end.
Definition rd_hdr (x : Z) : HM Header := λ s, match mem s x with Some (CHdr h) => HOk h s | _ => HFault end.
Definition rd_ftr (x : Z) : HM (Z * bool) := λ s, match mem s x with Some (CFtr n f) => HOk (n, f) s | _ => HFault end.
Definition rd_ptr (x : Z) : HM Z := λ s, match mem s x with Some (CPtr p) => HOk p s | _ => HFault end.

(** ** Sizes *)

Definition INT_MAX : Z := 2 ^ 31 - 1.
Definition ALIGN (n : Z) : Z := Z.land (n + 7) (Z.lnot 7).
Definition SDB_PAGE_SIZE : Z := 131072.
Definition PAGES (n : Z) : Z := (n + SDB_PAGE_SIZE - 1) / SDB_PAGE_SIZE.
Definition HEADER_SIZE : Z := 8.
Definition FOOTER_SIZE : Z := 8.
Definition META_SIZE : Z := 16.
Definition MIN_SIZE : Z := 32.
Definition MAX_MAPPED_PAGES : Z := INT_MAX / SDB_PAGE_SIZE.

Definition size_to_block_size (size : Z) : option Z :=
  if (size =? 0) || (INT_MAX - META_SIZE <? size) then None
  else
    let total := Z.max MIN_SIZE (ALIGN (size + META_SIZE)) in
    if INT_MAX <? total then None else Some total.

Definition clamp_mapped_pages (n : Z) : Z := if MAX_MAPPED_PAGES <? n then MAX_MAPPED_PAGES else n.
Definition grow_mapped_pages (n : Z) : Z := if MAX_MAPPED_PAGES / 2 <=? n then MAX_MAPPED_PAGES else n * 2.

(** ** Headers and footers *)

Definition add_offset (a : Z) : Z := a + HEADER_SIZE.
Definition remove_offset (p : Z) : Z := p - HEADER_SIZE.

Definition set_free (v : bool) (h : Header) : Header := mkHeader (hsize h) v (has_prev h) (has_next h).
Definition set_has_prev (v : bool) (h : Header) : Header := mkHeader (hsize h) (hfree h) v (has_next h).
Definition set_has_next (v : bool) (h : Header) : Header := mkHeader (hsize h) (hfree h) (has_prev h) v.
Definition set_size (n : Z) (h : Header) : Header := mkHeader n (hfree h) (has_prev h) (has_next h).

(** [h->field = v] *)
Definition alter_hdr (a : Z) (f : Header → Header) : HM () := h ← rd_hdr a; wr a (CHdr (f h)).

Definition write_footer (a : Z) : HM () := h ← rd_hdr a; wr (a + hsize h - FOOTER_SIZE) (CFtr (hsize h) (hfree h)).

(** NULL is [None]. *)
Definition get_prev_footer (a : Z) : HM (option Z) := h ← rd_hdr a; mret (if has_prev h then Some (a - FOOTER_SIZE) else None).
Definition get_prev_header (a : Z) : HM (option Z) :=
  o ← get_prev_footer a;
  match o with None => mret None | Some f => x ← rd_ftr f; mret (Some (a - x.1)) end.
Definition get_next_header (a : Z) : HM (option Z) := h ← rd_hdr a; mret (if has_next h then Some (a + hsize h) else None).

Definition setFree (a : Z) (v : bool) : HM () := _ ← alter_hdr a (set_free v); write_footer a.

Definition when_some (o : option Z) (f : Z → HM ()) : HM () := match o with Some x => f x | None => mret () end.

(** ** The list of free blocks: [next] and [prev] are the first words of the payload *)

Definition remove_from_free_list (block : Z) : HM () :=
  _ ← setFree block false;
  let free_block := add_offset block in
  next ← rd_ptr free_block;
  prev ← rd_ptr (free_block + 8);
  if prev =? 0 then
    if next =? 0 then set_start 0 else _ ← set_start next; wr (next + 8) (CPtr 0)
  else
    if next =? 0 then wr prev (CPtr 0) else _ ← wr prev (CPtr next); wr (next + 8) (CPtr prev).

Definition append_to_free_list (a : Z) : HM () :=
  _ ← setFree a true;
  let new_ptr := add_offset a in
  _ ← wr new_ptr (CPtr 0);
  _ ← wr (new_ptr + 8) (CPtr 0);
  h ← get_heap;
  if negb (free_list_start h =? 0) then
    _ ← wr new_ptr (CPtr (free_list_start h));
    _ ← wr (new_ptr + 8) (CPtr 0);
    _ ← wr (free_list_start h + 8) (CPtr new_ptr);
    set_start new_ptr
  else
    _ ← set_start new_ptr;
    _ ← wr (new_ptr + 8) (CPtr 0);
    wr new_ptr (CPtr 0).

(** 0 for NULL *)
Fixpoint find_block_loop (fuel : nat) (size current : Z) : HM Z :=
  match fuel with
  | O => λ _, HNoFuel
  | S fuel' =>
      if current =? 0 then mret 0
      else
        h ← rd_hdr (remove_offset current);
        if size <=? hsize h then mret current else next ← rd_ptr current; find_block_loop fuel' size next
  end.

Definition find_free_block (fuel : nat) (size : Z) : HM Z := h ← get_heap; find_block_loop fuel size (free_list_start h).

(** ** Splitting and allocating *)

Definition split (start total requested : Z) : HM () :=
  let new_block := start + requested in
  let block_size := total - requested in
  if block_size <? MIN_SIZE then mret ()
  else
    h ← rd_hdr start;
    let had_next := has_next h in
    _ ← alter_hdr start (set_size requested);
    _ ← alter_hdr start (set_has_next true);
    _ ← write_footer start;
    _ ← wr new_block (CHdr (mkHeader block_size true true had_next));
    _ ← write_footer new_block;
    next ← get_next_header new_block;
    _ ← when_some next (λ n, alter_hdr n (set_has_prev true));
    append_to_free_list new_block.

(** The pages that [mmap] adds are zero. *)
Definition in_region (a n x : Z) : bool := (a <=? x) && (x <? a + n) && (x mod 8 =? 0).
Definition map_region (a n : Z) : HM () := λ s, HOk () (mkHS (heap s) (λ x, if in_region a n x then Some (CWord 0) else mem s x)).
Definition unmap_region (a n : Z) : HM () := λ s, HOk () (mkHS (heap s) (λ x, if in_region a n x then None else mem s x)).

(** A new region, linked to the blocks that end where it starts. *)
Definition new_region (region block_size required_size : Z) : HM Z :=
  _ ← map_region region block_size;
  _ ← wr region (CHdr (mkHeader block_size false false false));
  _ ← write_footer region;
  h ← get_heap;
  _ ← (if (region =? last_address h) && negb (last_address h =? 0) then
         _ ← alter_hdr region (set_has_prev true);
         prev_footer ← get_prev_footer region;
         prev_header ← get_prev_header region;
         when_some (match prev_footer with Some _ => prev_header | None => None end) (λ p, alter_hdr p (set_has_next true))
       else mret ());
  _ ← split region block_size required_size;
  _ ← set_last (region + block_size);
  mret (add_offset region).

(** The result is 0 for NULL. *)
Definition sdb_heap_malloc (mmap : option Z) (fuel : nat) (size : Z) : HM Z :=
  match size_to_block_size size with
  | None => mret 0
  | Some required_size =>
      free_block ← find_free_block fuel required_size;
      if negb (free_block =? 0) then
        let address := remove_offset free_block in
        _ ← setFree address false;
        h ← rd_hdr address;
        _ ← split address (hsize h) required_size;
        _ ← remove_from_free_list address;
        mret (add_offset address)
      else
        let required_pages := PAGES required_size in
        if MAX_MAPPED_PAGES <? required_pages then mret 0
        else
          h ← get_heap;
          let mapped_pages := clamp_mapped_pages (if last_mapped_size h <? required_pages then required_pages else last_mapped_size h) in
          let bytes := mapped_pages * SDB_PAGE_SIZE in
          _ ← set_pages (grow_mapped_pages mapped_pages);
          match mmap with
          | None => mret 0
          | Some region => new_region region bytes required_size
          end
  end.

(** ** Freeing *)

Definition can_merge (h1 h2 : Header) : bool := hsize h1 + hsize h2 <=? INT_MAX.

(** The block in front takes the current one in. *)
Definition merge_prev (current : Z) : HM Z :=
  h ← rd_hdr current;
  if negb (has_prev h) then mret current
  else
    prev_footer ← get_prev_footer current;
    prev_header ← get_prev_header current;
    match prev_footer, prev_header with
    | Some pf, Some p =>
        f ← rd_ftr pf;
        if negb f.2 then mret current
        else
          ph ← rd_hdr p;
          h ← rd_hdr current;
          if negb (can_merge ph h) then mret current
          else
            _ ← remove_from_free_list current;
            h ← rd_hdr current;
            _ ← alter_hdr p (λ ph, set_size (hsize ph + hsize h) ph);
            _ ← alter_hdr p (set_has_next (has_next h));
            mret p
    | _, _ => mret current
    end.

(** It takes the block behind in. *)
Definition absorb_next (current next : Z) : HM () :=
  _ ← remove_from_free_list next;
  n ← rd_hdr next;
  _ ← alter_hdr current (λ h, set_size (hsize h + hsize n) h);
  _ ← alter_hdr current (set_has_next (has_next n));
  after ← get_next_header current;
  when_some after (λ a, alter_hdr a (set_has_prev true)).

Definition merge_next (current : Z) : HM () :=
  h ← rd_hdr current;
  if negb (has_next h) then mret ()
  else
    next ← get_next_header current;
    match next with
    | None => mret ()
    | Some n =>
        nh ← rd_hdr n;
        if negb (hfree nh) then mret ()
        else if negb (can_merge h nh) then mret ()
        else absorb_next current n
    end.

Definition coalesce (current : Z) : HM Z :=
  merged ← merge_prev current;
  _ ← merge_next merged;
  _ ← setFree merged true;
  mret merged.

Definition unmap (start size : Z) : HM () :=
  _ ← remove_from_free_list start;
  prev ← get_prev_header start;
  _ ← when_some prev (λ p, alter_hdr p (set_has_next false));
  next ← get_next_header start;
  _ ← when_some next (λ n, alter_hdr n (set_has_prev false));
  h ← get_heap;
  _ ← (if last_address h =? start + size then
         match prev with
         | Some _ => set_last start
         | None => _ ← set_last 0; set_pages 1
         end
       else mret ());
  unmap_region start size.

Definition sdb_heap_free (ptr : Z) : HM () :=
  if ptr =? 0 then mret ()
  else
    let start := remove_offset ptr in
    h ← rd_hdr start;
    if hfree h then mret ()
    else
      _ ← append_to_free_list start;
      start ← coalesce start;
      h ← rd_hdr start;
      let size := hsize h in
      if (SDB_PAGE_SIZE <=? size) && (start mod SDB_PAGE_SIZE =? 0) then
        let unmap_size := size / SDB_PAGE_SIZE * SDB_PAGE_SIZE in
        if (unmap_size =? size) || (MIN_SIZE <=? size - unmap_size) then
          _ ← (if negb (unmap_size =? size) then split start size unmap_size else mret ());
          unmap start unmap_size
        else mret ()
      else mret ().

Definition sdb_heap_init : HM () := set_heap (mkHeap 0 0 1).

Fixpoint fini_loop (fuel : nat) (current : Z) : HM () :=
  match fuel with
  | O => λ _, HNoFuel
  | S fuel' => if current =? 0 then mret () else next ← rd_ptr current; _ ← sdb_heap_free current; fini_loop fuel' next
  end.

Definition sdb_heap_fini (fuel : nat) : HM () := h ← get_heap; fini_loop fuel (free_list_start h).

(** ** Resizing *)

(** [memcpy] of [n] slots. *)
Fixpoint copy_words (n : nat) (to from : Z) : HM () :=
  match n with
  | O => mret ()
  | S n' => λ s, match mem s from with Some c => (_ ← wr to c; copy_words n' (to + 8) (from + 8)) s | None => HFault end
  end.

(** The block behind is taken in and the rest split off again. *)
Definition grow_in_place (current next available required_size : Z) : HM () :=
  _ ← absorb_next current next;
  h ← rd_hdr current;
  _ ← wr (current + hsize h - FOOTER_SIZE) (CFtr (hsize h) false);
  _ ← split current available required_size;
  setFree current false.

Definition sdb_heap_realloc (mmap : option Z) (fuel : nat) (ptr size : Z) : HM Z :=
  if ptr =? 0 then sdb_heap_malloc mmap fuel size
  else if size =? 0 then _ ← sdb_heap_free ptr; mret 0
  else
    match size_to_block_size size with
    | None => mret 0
    | Some required_size =>
        let current := remove_offset ptr in
        h ← rd_hdr current;
        let payload_size := hsize h - HEADER_SIZE - FOOTER_SIZE in
        if size <=? payload_size then mret ptr
        else
          next ← get_next_header current;
          grown ← match next with
                  | None => mret false
                  | Some n =>
                      nh ← rd_hdr n;
                      let available := hsize h + hsize nh in
                      if hfree nh && can_merge h nh && (required_size <=? available)
                      then _ ← grow_in_place current n available required_size; mret true else mret false
                  end;
          if (grown : bool) then mret ptr
          else
            new_ptr ← sdb_heap_malloc mmap fuel size;
            if new_ptr =? 0 then mret 0
            else
              _ ← copy_words (Z.to_nat (Z.min payload_size size / 8)) new_ptr ptr;
              _ ← sdb_heap_free ptr;
              mret new_ptr
    end.
