(* ===== verification/HeapInv.v ===== *)
(** * The invariant of the allocator

    The blocks that exist are a map from addresses to headers.  The memory agrees with it,
    the list of free blocks is linked through the payloads, and the blocks in use keep the
    contents their users gave them; each step of the operations is a step of that state. *)

From S2P Require Import Prelude Heap.

(** ** The state *)

Definition rng (a : Z) (b : Header) (x : Z) : Prop := a <= x < a + hsize b.
Definition payload (a : Z) (b : Header) (x : Z) : Prop := a + 8 <= x < a + hsize b - 8.

(** Headers, footers and their flags.  The blocks of [X] have changed and their footers are
    not written yet. *)
Record blocks_ok (X : list Z) (L : gmap Z Header) (m : Z → option cell) : Prop := {
  bo_hdr a b : L !! a = Some b → m a = Some (CHdr b);
  bo_ftr a b : L !! a = Some b → a ∉ X → m (a + hsize b - 8) = Some (CFtr (hsize b) (hfree b));
  bo_size a b : L !! a = Some b → 0 < a ∧ a mod 8 = 0 ∧ 32 <= hsize b <= INT_MAX ∧ hsize b mod 8 = 0;
  bo_map a b x : L !! a = Some b → rng a b x → x mod 8 = 0 → is_Some (m x);
  bo_disj a b a' b' : L !! a = Some b → L !! a' = Some b' → a ≠ a' → a + hsize b <= a' ∨ a' + hsize b' <= a;
  bo_next a b : L !! a = Some b → has_next b = true → ∃ b', L !! (a + hsize b) = Some b' ∧ has_prev b' = true;
  bo_prev a b : L !! a = Some b → has_prev b = true → ∃ p b', L !! p = Some b' ∧ p + hsize b' = a ∧ has_next b' = true
}.

(** Pointers to the first and the last block of a list, if there is one. *)
Definition hdp (l : list Z) : Z := match l with [] => 0 | a :: _ => a + 8 end.
Definition lastp (l : list Z) : Z := match list.last l with Some a => a + 8 | None => 0 end.

(** A segment of the list: [p] is in front of it and [nx] behind it. *)
Fixpoint fseg (m : Z → option cell) (p : Z) (l : list Z) (nx : Z) : Prop :=
  match l with
  | [] => True
  | a :: l' => m (a + 8) = Some (CPtr (match l' with [] => nx | c :: _ => c + 8 end)) ∧ m (a + 16) = Some (CPtr p) ∧ fseg m (a + 8) l' nx
  end.

Record list_ok (L : gmap Z Header) (fl : list Z) (start : Z) (m : Z → option cell) : Prop := {
  lo_start : start = hdp fl;
  lo_fseg : fseg m 0 fl 0;
  lo_live a : a ∈ fl → is_Some (L !! a);
  lo_nodup : NoDup fl
}.

(** The blocks in use, with the number of bytes their users may touch, and their contents. *)
Definition used_ok (U : gmap Z Z) (d : Z → option cell) (L : gmap Z Header) (fl : list Z) (m : Z → option cell) : Prop :=
  ∀ a n, U !! a = Some n → a ∉ fl ∧ ∃ b, L !! a = Some b ∧ hfree b = false ∧ 0 <= n <= hsize b - 16 ∧ ∀ x, a + 8 <= x < a + 8 + n → m x = d x.

(** Every block is free and in the list, or in use, but for those of [X]. *)
Definition cover (X : list Z) (L : gmap Z Header) (fl : list Z) (U : gmap Z Z) : Prop :=
  ∀ a b, L !! a = Some b → a ∈ X ∨ (a ∈ fl ∧ hfree b = true) ∨ is_Some (U !! a).

(** The address where a new region is linked to the blocks in front of it. *)
Definition last_ok (L : gmap Z Header) (la : Z) : Prop :=
  la = 0 ∨ ∃ p b, L !! p = Some b ∧ p + hsize b = la ∧ has_next b = false.

Record inv (X : list Z) (L : gmap Z Header) (fl : list Z) (U : gmap Z Z) (d : Z → option cell) (s : HS) : Prop := {
  inv_blocks : blocks_ok X L (mem s);
  inv_list : list_ok L fl (free_list_start (heap s)) (mem s);
  inv_used : used_ok U d L fl (mem s);
  inv_cover : cover X L fl U;
  inv_last : last_ok L (last_address (heap s))
}.

(** ** Running *)

Lemma hbind_ok {A B} (k : HM A) (f : A → HM B) s a s' : k s = HOk a s' → (k ≫= f) s = f a s'.
Proof. intros E. unfold mbind, HM_bind. by rewrite E. Qed.

Lemma rd_hdr_ok a b s : mem s a = Some (CHdr b) → rd_hdr a s = HOk b s.
Proof. intros E. unfold rd_hdr. by rewrite E. Qed.

Lemma rd_ptr_ok a p s : mem s a = Some (CPtr p) → rd_ptr a s = HOk p s.
Proof. intros E. unfold rd_ptr. by rewrite E. Qed.

Lemma rd_ftr_ok a n f s : mem s a = Some (CFtr n f) → rd_ftr a s = HOk (n, f) s.
Proof. intros E. unfold rd_ftr. by rewrite E. Qed.

Lemma wr_ok a c s : is_Some (mem s a) → wr a c s = HOk () (mkHS (heap s) (upd a c (mem s))).
Proof. intros [x E]. unfold wr. by rewrite E. Qed.

Lemma upd_eq a c m : upd a c m a = Some c.
Proof. unfold upd. by rewrite Z.eqb_refl. Qed.

Lemma upd_ne a c m x : x ≠ a → upd a c m x = m x.
Proof. intros Hx. unfold upd. by rewrite (proj2 (Z.eqb_neq _ _)). Qed.

Lemma upd_is_Some a c m x : is_Some (m x) → is_Some (upd a c m x).
Proof. intros H. unfold upd. by destruct (x =? a). Qed.

(** A write to a slot that is mapped; equality of memories slot by slot. *)
Ltac hmapped := cbn [mem]; repeat apply upd_is_Some; (assumption || eauto).
Ltac hwr := erewrite hbind_ok by (apply wr_ok; hmapped).
Ltac hcells := repeat match goal with |- context [?x =? ?y] => destruct (Z.eqb_spec x y) end; first [done | lia | congruence].

(** ** Slots of different blocks *)

Section slots.
Context {X : list Z} {L : gmap Z Header} {m : Z → option cell} (HB : blocks_ok X L m).

Lemma hdr_rng a b : L !! a = Some b → rng a b a.
Proof. intros Ha. destruct (bo_size _ _ _ HB a b Ha) as (? & ? & ? & ?). unfold rng. lia. Qed.

Lemma ftr_rng a b : L !! a = Some b → rng a b (a + hsize b - 8).
Proof. intros Ha. destruct (bo_size _ _ _ HB a b Ha) as (? & ? & ? & ?). unfold rng. lia. Qed.

Lemma payload_rng a b x : payload a b x → rng a b x.
Proof. unfold payload, rng. lia. Qed.

Lemma link_payload a b x : L !! a = Some b → x = a + 8 ∨ x = a + 16 → payload a b x.
Proof. intros Ha Hx. destruct (bo_size _ _ _ HB a b Ha) as (? & ? & ? & ?). unfold payload. lia. Qed.

Lemma rng_ne a b x a' b' x' : L !! a = Some b → L !! a' = Some b' → a ≠ a' → rng a b x → rng a' b' x' → x ≠ x'.
Proof. intros Ha Ha' Hne Hx Hx'. destruct (bo_disj _ _ _ HB a b a' b' Ha Ha' Hne); unfold rng in *; lia. Qed.

Lemma link_mapped a b x : L !! a = Some b → x = a + 8 ∨ x = a + 16 → is_Some (m x).
Proof.
  intros Ha Hx. eapply (bo_map _ _ _ HB a b); [done|by eapply payload_rng, link_payload|]. destruct (bo_size _ _ _ HB a b Ha) as (_ & Hm & _).
  destruct Hx as [->| ->]; rewrite Zplus_mod, Hm; done.
Qed.

Lemma ftr_mapped a b : L !! a = Some b → is_Some (m (a + hsize b - 8)).
Proof.
  intros Ha. destruct (bo_size _ _ _ HB a b Ha) as (_ & Hm & _ & Hm'). eapply (bo_map _ _ _ HB a b); [done|by apply ftr_rng|].
  replace (a + hsize b - 8) with (a + hsize b + (-1) * 8) by lia. rewrite Z.mod_add by lia. by rewrite Zplus_mod, Hm, Hm'.
Qed.

(** Writing into the payload of a block leaves headers and footers alone. *)
Lemma blocks_payload a b x c : L !! a = Some b → payload a b x → blocks_ok X L (upd x c m).
Proof.
  intros Ha Hx. assert (∀ a' b' y, L !! a' = Some b' → y = a' ∨ y = a' + hsize b' - 8 → y ≠ x) as Hne.
  { intros a' b' y Ha' Hy. destruct (decide (a' = a)) as [->|Hd].
    - assert (b' = b) as -> by congruence. unfold payload in Hx. lia.
    - apply (rng_ne a' b' y a b x); [done|done|done| |by apply payload_rng]. destruct Hy as [->| ->]; [by apply hdr_rng|by apply ftr_rng]. }
  split; [| |apply HB| |apply HB|apply HB|apply HB].
  - intros a' b' Ha'. rewrite upd_ne by (eapply Hne; eauto). by apply HB.
  - intros a' b' Ha' HX. rewrite upd_ne by (eapply Hne; eauto). by apply HB.
  - intros a' b' y Ha' Hy Hm. by eapply upd_is_Some, HB.
Qed.
End slots.

(** ** Changing a header *)

(** The flags that say whether there are neighbours are kept. *)
Definition same_shape (b b' : Header) : Prop := hsize b' = hsize b ∧ has_prev b' = has_prev b ∧ has_next b' = has_next b.

Lemma blocks_hdr X L m a b b' :
  blocks_ok X L m → L !! a = Some b → same_shape b b' → blocks_ok (a :: X) (<[a := b']> L) (upd a (CHdr b') m).
Proof.
  intros HB Ha (Hs & Hp & Hn). assert (∀ c bc, <[a := b']> L !! c = Some bc → ∃ bc0, L !! c = Some bc0 ∧ same_shape bc0 bc ∧ (c ≠ a → bc = bc0)) as Hold.
  { intros c bc [[<- <-]|[Hne Hc]]%lookup_insert_Some; [by exists b|by exists bc]. }
  assert (∀ c bc0, L !! c = Some bc0 → ∃ bc, <[a := b']> L !! c = Some bc ∧ same_shape bc0 bc) as Hnew.
  { intros c bc0 Hc. destruct (decide (c = a)) as [->|Hne]; [exists b'; rewrite lookup_insert_eq; split; [done|]; by assert (bc0 = b) as -> by congruence|].
    exists bc0. by rewrite lookup_insert_ne. }
  split.
  - intros c bc [[<- <-]|[Hne Hc]]%lookup_insert_Some; [apply upd_eq|]. rewrite upd_ne by done. by apply HB.
  - intros c bc [[<- <-]|[Hne Hc]]%lookup_insert_Some Hca; [set_solver|]. rewrite upd_ne; [apply HB; [done|set_solver]|].
    apply (rng_ne HB c bc _ a b _); [done|done|done|by eapply ftr_rng|by eapply hdr_rng].
  - intros c bc (bc0 & Hc & (-> & _) & _)%Hold. by apply HB.
  - intros c bc x (bc0 & Hc & (E & _) & _)%Hold Hx Hm. apply upd_is_Some. eapply HB; [done| |done]. unfold rng in *. by rewrite <- E.
  - intros c bc c' bc' (bc0 & Hc & (-> & _) & _)%Hold (bc0' & Hc' & (-> & _) & _)%Hold. by apply HB.
  - intros c bc (bc0 & Hc & (-> & _ & ->) & _)%Hold Hnx. destruct (bo_next _ _ _ HB c bc0 Hc Hnx) as (b2 & Hb2 & Hp2). destruct (Hnew _ _ Hb2) as (b3 & Hb3 & (_ & E & _)).
    exists b3. split; [done|]. by rewrite E.
  - intros c bc (bc0 & Hc & (_ & -> & _) & _)%Hold Hpv. destruct (bo_prev _ _ _ HB c bc0 Hc Hpv) as (p & b2 & Hb2 & He & Hn2). destruct (Hnew _ _ Hb2) as (b3 & Hb3 & (E1 & _ & E2)).
    exists p, b3. split_and!; [done|by rewrite E1|by rewrite E2].
Qed.

(** Writing the footer of a block. *)
Lemma blocks_ftr X X' L m a b :
  blocks_ok X L m → L !! a = Some b → (∀ c, c ∈ X → c = a ∨ c ∈ X') → blocks_ok X' L (upd (a + hsize b - 8) (CFtr (hsize b) (hfree b)) m).
Proof.
  intros HB Ha HX. split; [| |apply HB| |apply HB|apply HB|apply HB].
  - intros c bc Hc. rewrite upd_ne; [by apply HB|]. destruct (decide (c = a)) as [->|Hne].
    + pose proof (bo_size _ _ _ HB a b Ha). lia.
    + apply (rng_ne HB c bc _ a b _); [done|done|done|by eapply hdr_rng|by eapply ftr_rng].
  - intros c bc Hc Hcx. destruct (decide (c = a)) as [->|Hne]; [assert (bc = b) as -> by congruence; apply upd_eq|].
    rewrite upd_ne; [apply HB; [done|intros Hin; by destruct (HX c Hin)]|].
    apply (rng_ne HB c bc _ a b _); [done|done|done|by eapply ftr_rng|by eapply ftr_rng].
  - intros c bc x Hc Hx Hm. by eapply upd_is_Some, HB.
Qed.

(** ** The list *)

Lemma fseg_frame m m' p l nx :
  fseg m p l nx → (∀ a x, a ∈ l → x = a + 8 ∨ x = a + 16 → m' x = m x) → fseg m' p l nx.
Proof.
  revert p. induction l as [|a l IH]; intros p; [done|]. cbn [fseg]. intros (H1 & H2 & H3) Hm.
  rewrite !(Hm a) by (left + eauto; eauto using elem_of_list_here). split_and!; [done|done|]. apply IH; [done|]. intros c x Hc. apply Hm. by right.
Qed.

Lemma lastp_snoc l c : lastp (l ++ [c]) = c + 8.
Proof. unfold lastp. by rewrite last_snoc. Qed.

Lemma fseg_app m p l1 a l2 nx :
  fseg m p (l1 ++ a :: l2) nx ↔ fseg m p l1 (a + 8) ∧ fseg m (match list.last l1 with Some c => c + 8 | None => p end) (a :: l2) nx.
Proof.
  revert p. induction l1 as [|c l1 IH]; intros p; [cbn [fseg app list.last]; tauto|]. cbn [app]. cbn [fseg]. rewrite IH.
  destruct l1 as [|c' l1]; cbn [app]; [cbn [list.last fseg]; tauto|].
  replace (list.last (c :: c' :: l1)) with (list.last (c' :: l1)) by done. destruct (list.last (c' :: l1)) eqn:E; [cbn [fseg]; tauto|].
  by apply last_None in E.
Qed.

Lemma list_frame L L' fl st m m' :
  list_ok L fl st m → (∀ a, a ∈ fl → is_Some (L' !! a)) → (∀ a x, a ∈ fl → x = a + 8 ∨ x = a + 16 → m' x = m x) → list_ok L' fl st m'.
Proof. intros [H1 H2 H3 H4] HL Hm. split; [done| |done|done]. by eapply fseg_frame. Qed.

(** The blocks of a list are apart. *)
Definition apart (l : list Z) : Prop := NoDup l ∧ ∀ a a', a ∈ l → a' ∈ l → a ≠ a' → a + 16 < a' ∨ a' + 16 < a.

Lemma list_apart X L fl st m : blocks_ok X L m → list_ok L fl st m → apart fl.
Proof.
  intros HB HL. split; [apply HL|]. intros a a' Ha Ha' Hne. destruct (lo_live _ _ _ _ HL a Ha) as [b Hb], (lo_live _ _ _ _ HL a' Ha') as [b' Hb'].
  pose proof (bo_size _ _ _ HB _ _ Hb). pose proof (bo_size _ _ _ HB _ _ Hb'). destruct (bo_disj _ _ _ HB a b a' b' Hb Hb' Hne); lia.
Qed.

Lemma apart_app l1 l2 : apart (l1 ++ l2) → apart l1 ∧ apart l2 ∧ ∀ a a', a ∈ l1 → a' ∈ l2 → a ≠ a' ∧ (a + 16 < a' ∨ a' + 16 < a).
Proof.
  intros [Hn Ha]. apply NoDup_app in Hn as (Hn1 & Hd & Hn2). split_and!; [split; [done|]|split; [done|]|].
  1-2: intros a a' ? ?; apply Ha; set_solver. intros a a' H1 H2. assert (a ≠ a') by (intros ->; by eapply Hd). split; [done|]. apply Ha; set_solver.
Qed.

(** Writing the link at one end of a segment. *)
Lemma fseg_set_prev m p p' a l nx :
  apart (a :: l) → fseg m p (a :: l) nx → fseg (upd (a + 16) (CPtr p') m) p' (a :: l) nx.
Proof.
  intros Hap (H1 & H2 & H3). apply (apart_app [a] l) in Hap as (_ & _ & Hd). cbn [fseg]. rewrite upd_eq, upd_ne by lia. split_and!; [done|done|].
  eapply fseg_frame; [done|]. intros c x Hc Hx. apply upd_ne. destruct (Hd a c); [set_solver|done|]. lia.
Qed.

Lemma fseg_set_next m p l c nx nx' :
  apart (l ++ [c]) → fseg m p (l ++ [c]) nx → fseg (upd (c + 8) (CPtr nx') m) p (l ++ [c]) nx'.
Proof.
  intros Hap. rewrite !fseg_app. intros (H1 & H2 & H3 & _). apply apart_app in Hap as (_ & _ & Hd). split.
  - eapply fseg_frame; [done|]. intros a x Ha Hx. apply upd_ne. destruct (Hd a c); [done|set_solver|]. lia.
  - cbn [fseg]. rewrite upd_eq, upd_ne by lia. done.
Qed.

(** ** Steps that keep the shape of the blocks *)

(** Two states with the same contents. *)
Definition same_state (s s' : HS) : Prop := heap s' = heap s ∧ ∀ x, mem s' x = mem s x.

Lemma inv_same X L fl U d s s' : same_state s s' → inv X L fl U d s → inv X L fl U d s'.
Proof.
  intros [Hh Hm] [HB HL HU HC HA]. split; [| | |done|by rewrite Hh].
  - split; try apply HB; intros; rewrite Hm; by eapply HB.
  - rewrite Hh. eapply list_frame; [done|apply HL|done].
  - intros a n Ha. destruct (HU a n Ha) as (Hf & b & Hb & Hfr & Hn & Hd). split; [done|]. exists b. split_and!; [done|done|lia|lia|]. intros x Hx. rewrite Hm. by apply Hd.
Qed.

Lemma inv_weaken X X' L fl U U' d s : inv X L fl U d s → U' ⊆ U → (∀ c, c ∈ X ∨ c ∈ dom U ∖ dom U' → c ∈ X') → inv X' L fl U' d s.
Proof.
  intros [HB HL HU HC HA] HUU HX. split; [|done| | |done].
  - split; try apply HB. intros a b Ha Hax. apply HB; [done|]. intros ?. apply Hax, HX. by left.
  - intros a n Ha. apply HU. by eapply lookup_weaken.
  - intros a b Ha. destruct (HC a b Ha) as [?|[?|[n Hn]]]; [left; apply HX; by left|by right; left|]. destruct (U' !! a) as [n'|] eqn:E; [by right; right; eexists|].
    left. apply HX. right. apply elem_of_difference. split; [by apply elem_of_dom_2 in Hn|by apply not_elem_of_dom].
Qed.

Lemma last_shape L a b b' la : L !! a = Some b → same_shape b b' → last_ok L la → last_ok (<[a := b']> L) la.
Proof.
  intros Ha (Hs & Hp & Hn) [?|(p & bp & Hp1 & Hp2 & Hp3)]; [by left|right]. destruct (decide (p = a)) as [->|Hne].
  - assert (bp = b) as -> by congruence. exists a, b'. rewrite lookup_insert_eq, Hs, Hn. done.
  - exists p, bp. by rewrite lookup_insert_ne.
Qed.

(** A header and a footer do not overlap the payload of any block. *)
Lemma meta_payload X L m a b c bc x y :
  blocks_ok X L m → L !! a = Some b → L !! c = Some bc → payload c bc x → y = a ∨ y = a + hsize b - 8 → x ≠ y.
Proof.
  intros HB Ha Hc Hx Hy. destruct (decide (c = a)) as [->|Hd]; [assert (bc = b) as -> by congruence; unfold payload in Hx; lia|].
  apply (rng_ne HB c bc _ a b _); [done|done|done|by apply payload_rng|]. destruct Hy as [->| ->]; [by eapply hdr_rng|by eapply ftr_rng].
Qed.

(** The links of a block are not the header or the footer of any, nor in another one. *)
Lemma meta_not_link X L m a b c y :
  blocks_ok X L m → L !! a = Some b → is_Some (L !! c) → y = a ∨ y = a + hsize b - 8 → y ≠ c + 8 ∧ y ≠ c + 16.
Proof. intros HB Ha [bc Hc] Hy. split; (apply not_eq_sym; eapply (meta_payload _ _ _ a b c bc); eauto; eapply link_payload; eauto). Qed.

Lemma other_not_link X L m a b c x :
  blocks_ok X L m → L !! a = Some b → is_Some (L !! c) → a ≠ c → rng a b x → x ≠ c + 8 ∧ x ≠ c + 16.
Proof. intros HB Ha [bc Hc] Hne Hx. split; (apply (rng_ne HB a b _ c bc _); [done|done|done|done|eapply payload_rng, link_payload; eauto]). Qed.

(** What is kept when no link and no data change. *)
Lemma rest_frame X L L' fl U d s m' :
  inv X L fl U d s → (∀ c x, c ∈ fl → x = c + 8 ∨ x = c + 16 → m' x = mem s x) →
  (∀ c n x, U !! c = Some n → c + 8 <= x < c + 8 + n → m' x = mem s x) →
  (∀ c bc, L !! c = Some bc → c ∈ fl ∨ is_Some (U !! c) → ∃ bc', L' !! c = Some bc' ∧ ∀ n, U !! c = Some n → hfree bc' = hfree bc ∧ n <= hsize bc' - 16) →
  list_ok L' fl (free_list_start (heap s)) m' ∧ used_ok U d L' fl m'.
Proof.
  intros [HB HL HU HC HA] Hm1 Hm2 HL'. split.
  - eapply list_frame; [done| |done]. intros c Hc. destruct (lo_live _ _ _ _ HL c Hc) as [bc Hbc]. destruct (HL' c bc Hbc) as (bc' & ? & _); [by left|]. by exists bc'.
  - intros c n Hc. destruct (HU c n Hc) as (Hf & bc & Hbc & Hfr & Hn & Hd). split; [done|]. destruct (HL' c bc Hbc) as (bc' & Hbc' & Hfr'); [by right|].
    destruct (Hfr' n Hc) as [E Hsz]. exists bc'. split_and!; [done|by rewrite E|lia|lia|]. intros x Hx. rewrite (Hm2 c n) by done. by apply Hd.
Qed.

(** The slots of links and data are in payloads. *)
Lemma link_in_payload X L fl U d s c x : inv X L fl U d s → c ∈ fl → x = c + 8 ∨ x = c + 16 → ∃ bc, L !! c = Some bc ∧ payload c bc x.
Proof. intros Hi Hc Hx. destruct (lo_live _ _ _ _ (inv_list _ _ _ _ _ _ Hi) c Hc) as [bc Hbc]. exists bc. split; [done|]. by eapply link_payload; [apply Hi| |]. Qed.

Lemma data_in_payload X L fl U d s c n x : inv X L fl U d s → U !! c = Some n → c + 8 <= x < c + 8 + n → ∃ bc, L !! c = Some bc ∧ payload c bc x.
Proof. intros Hi Hc Hx. destruct (inv_used _ _ _ _ _ _ Hi c n Hc) as (_ & bc & Hbc & _ & Hn & _). exists bc. split; [done|]. unfold payload. lia. Qed.

Lemma setFree_run X X' L fl U d s a b v :
  inv X L fl U d s → L !! a = Some b → U !! a = None ∨ v = false → (∀ c, c ∈ X → c = a ∨ c ∈ X') →
  a ∈ X' ∨ (a ∈ fl ∧ v = true) ∨ is_Some (U !! a) →
  ∃ s', setFree a v s = HOk () s' ∧ heap s' = heap s ∧ inv X' (<[a := set_free v b]> L) fl U d s'
    ∧ mem s' (a + hsize b - 8) = Some (CFtr (hsize b) v).
Proof.
  intros Hi Ha Hv HX Hcov. pose proof (inv_blocks _ _ _ _ _ _ Hi) as HB. set (b' := set_free v b). set (m1 := upd a (CHdr b') (mem s)). set (m2 := upd (a + hsize b - 8) (CFtr (hsize b) v) m1).
  pose proof (blocks_hdr X L (mem s) a b b' HB Ha ltac:(done)) as HB1. fold m1 in HB1.
  assert (<[a := b']> L !! a = Some b') as Ha' by apply lookup_insert_eq.
  pose proof (blocks_ftr (a :: X) X' _ m1 a b' HB1 Ha' ltac:(set_solver)) as HB2. fold m2 in HB2.
  exists (mkHS (heap s) m2). split_and!; [|done| |apply upd_eq].
  - unfold setFree, alter_hdr. erewrite hbind_ok.
    2: { erewrite hbind_ok by (apply rd_hdr_ok; by apply HB). apply wr_ok. pose proof (bo_hdr _ _ _ HB a b Ha) as E. by rewrite E. }
    unfold write_footer. erewrite hbind_ok by (apply rd_hdr_ok; cbn [mem]; apply upd_eq). cbn [set_free hsize hfree]. apply wr_ok. cbn [mem].
    apply upd_is_Some. by eapply ftr_mapped.
  - assert (∀ c bc x, L !! c = Some bc → payload c bc x → m2 x = mem s x) as Hm.
    { intros c bc x Hc Hx. unfold m2, m1. rewrite !upd_ne by (eapply (meta_payload X L (mem s) a b c bc); eauto). done. }
    destruct (rest_frame X L (<[a := b']> L) fl U d s m2 Hi) as [HL2 HU2].
    + intros c x Hc Hx. destruct (link_in_payload _ _ _ _ _ _ _ _ Hi Hc Hx) as (bc & Hbc & Hpx). by apply (Hm c bc).
    + intros c n x Hc Hx. destruct (data_in_payload _ _ _ _ _ _ _ _ _ Hi Hc Hx) as (bc & Hbc & Hpx). by apply (Hm c bc).
    + intros c bc Hc _. destruct (decide (c = a)) as [->|Hne].
      * assert (bc = b) as -> by congruence. exists b'. rewrite lookup_insert_eq. split; [done|]. intros n Hn. destruct (inv_used _ _ _ _ _ _ Hi a n Hn) as (_ & b0 & ? & ? & ? & _).
        assert (b0 = b) as -> by congruence. destruct Hv as [Hv| ->]; [congruence|]. split; [done|cbn; lia].
      * exists bc. rewrite lookup_insert_ne by done. split; [done|]. intros n Hn. destruct (inv_used _ _ _ _ _ _ Hi c n Hn) as (_ & b0 & ? & ? & ? & _).
        assert (b0 = bc) as -> by congruence. split; [done|lia].
    + split; cbn [mem heap]; [exact HB2|exact HL2|exact HU2| |eapply last_shape; [done|done|apply Hi]].
      intros c bc [[<- <-]|[Hne Hc]]%lookup_insert_Some; [destruct Hcov as [?|[[??]|?]]; [by left|by right; left|by right; right]|].
      destruct (inv_cover _ _ _ _ _ _ Hi c bc Hc) as [Hcx|[?|?]]; [|by eauto|by eauto]. left. by destruct (HX c Hcx).
Qed.

(** ** Taking a block off the list *)

(** The memory after the neighbours of a block have been linked to each other. *)
Definition relink (l1 l2 : list Z) (m : Z → option cell) : Z → option cell :=
  let m1 := match list.last l1 with Some p => upd (p + 8) (CPtr (hdp l2)) m | None => m end in
  match l2 with c :: _ => upd (c + 16) (CPtr (lastp l1)) m1 | [] => m1 end.

Lemma fseg_middle m l1 a l2 : fseg m 0 (l1 ++ a :: l2) 0 → m (a + 8) = Some (CPtr (hdp l2)) ∧ m (a + 16) = Some (CPtr (lastp l1)).
Proof. rewrite fseg_app. cbn [fseg]. intros (_ & H1 & H2 & _). unfold lastp, hdp. by destruct l2, (list.last l1). Qed.

Lemma fseg_relink m l1 a l2 : apart (l1 ++ a :: l2) → fseg m 0 (l1 ++ a :: l2) 0 → fseg (relink l1 l2 m) 0 (l1 ++ l2) 0.
Proof.
  intros Hap Hs. apply apart_app in Hap as (Ha1 & Ha2 & Hd). apply (apart_app [a] l2) in Ha2 as (_ & Ha2 & Hd2).
  apply fseg_app in Hs as (Hs1 & Hs2). destruct Hs2 as (_ & _ & Hs2). unfold relink, lastp.
  destruct l1 as [|p l1 _] using rev_ind; destruct l2 as [|c l2]; rewrite ?last_snoc, ?app_nil_r; cbn [hdp list.last app] in *.
  - done.
  - by eapply fseg_set_prev.
  - by eapply fseg_set_next.
  - assert (∀ x y, x ∈ l1 ++ [p] → y ∈ c :: l2 → x + 16 < y ∨ y + 16 < x) as Hd3 by (intros; apply Hd; [done|by right]).
    apply fseg_app. split.
    + eapply fseg_frame; [by eapply fseg_set_next|]. intros e x He Hx. apply upd_ne. destruct (Hd3 e c); [done|left|lia|lia].
    + rewrite last_snoc. eapply fseg_set_prev; [done|]. eapply fseg_frame; [done|]. intros e x He Hx. apply upd_ne. destruct (Hd3 p e); [set_solver|done|lia|lia].
Qed.

(** The links that are written are in payloads. *)
Lemma relink_blocks X L l1 a l2 m : (∀ c, c ∈ l1 ++ a :: l2 → is_Some (L !! c)) → blocks_ok X L m → blocks_ok X L (relink l1 l2 m).
Proof.
  intros Hl HB. unfold relink. assert (blocks_ok X L (match list.last l1 with Some p => upd (p + 8) (CPtr (hdp l2)) m | None => m end)) as HB1.
  { destruct (list.last l1) as [p|] eqn:E; [|done]. apply last_Some in E as [l1' ->]. destruct (Hl p) as [bp Hp]; [set_solver|]. eapply blocks_payload; [done|done|by eapply link_payload; [| |left]]. }
  destruct l2 as [|c l2]; [done|]. destruct (Hl c) as [bc Hc]; [set_solver|]. eapply blocks_payload; [done|done|by eapply link_payload; [| |right]].
Qed.

Lemma relink_ne l1 l2 m x : (∀ c, c ∈ l1 ++ l2 → x ≠ c + 8 ∧ x ≠ c + 16) → relink l1 l2 m x = m x.
Proof.
  intros Hx. unfold relink. assert (match list.last l1 with Some p => upd (p + 8) (CPtr (hdp l2)) m | None => m end x = m x) as E.
  { destruct (list.last l1) as [p|] eqn:E; [|done]. apply last_Some in E as [l1' ->]. apply upd_ne, Hx. set_solver. }
  destruct l2 as [|c l2]; [done|]. rewrite upd_ne; [done|]. apply Hx. set_solver.
Qed.

Lemma set_start_run p s : set_start p s = HOk () (mkHS (mkHeap (last_address (heap s)) p (last_mapped_size (heap s))) (mem s)).
Proof. done. Qed.

(** What [remove_from_free_list] does after the flag is cleared. *)
Lemma unlink_run (next prev : Z) l1 l2 s :
  next = hdp l2 → prev = lastp l1 → (∀ c, c ∈ l1 ++ l2 → 0 < c ∧ is_Some (mem s (c + 8)) ∧ is_Some (mem s (c + 16))) →
  (if prev =? 0 then if next =? 0 then set_start 0 else _ ← set_start next; wr (next + 8) (CPtr 0)
   else if next =? 0 then wr prev (CPtr 0) else _ ← wr prev (CPtr next); wr (next + 8) (CPtr prev)) s
  = HOk () (mkHS (match l1 with [] => mkHeap (last_address (heap s)) (hdp l2) (last_mapped_size (heap s)) | _ => heap s end) (relink l1 l2 (mem s))).
Proof.
  intros -> -> Hc. unfold relink, lastp. destruct l1 as [|p l1 _] using rev_ind.
  - cbn [list.last]. rewrite Z.eqb_refl. destruct l2 as [|c l2]; [done|]. destruct (Hc c) as (Hc0 & _ & Hc2); [set_solver|]. cbn [hdp].
    rewrite (proj2 (Z.eqb_neq _ _)) by lia. erewrite hbind_ok by apply set_start_run. rewrite wr_ok by (cbn [mem]; by replace (c + 8 + 8) with (c + 16) by lia).
    cbn [heap mem]. by replace (c + 8 + 8) with (c + 16) by lia.
  - rewrite last_snoc. destruct (Hc p) as (Hp0 & Hp1 & _); [set_solver|]. rewrite (proj2 (Z.eqb_neq (p + 8) _)) by lia.
    replace (match l1 ++ [p] with [] => _ | _ :: _ => heap s end) with (heap s) by by destruct l1.
    destruct l2 as [|c l2]; [cbn [hdp]; rewrite Z.eqb_refl; by apply wr_ok|]. destruct (Hc c) as (Hc0 & _ & Hc2); [set_solver|]. cbn [hdp].
    rewrite (proj2 (Z.eqb_neq _ _)) by lia. erewrite hbind_ok by (by apply wr_ok). replace (c + 8 + 8) with (c + 16) by lia.
    rewrite wr_ok by (cbn [mem]; by apply upd_is_Some). done.
Qed.

(** [remove_from_free_list]. *)
Definition same_globals (s s' : HS) : Prop :=
  last_address (heap s') = last_address (heap s) ∧ last_mapped_size (heap s') = last_mapped_size (heap s).

Lemma remove_run X L l1 a l2 U d s b :
  inv X L (l1 ++ a :: l2) U d s → L !! a = Some b →
  ∃ s', remove_from_free_list a s = HOk () s' ∧ same_globals s s' ∧ inv (a :: X) (<[a := set_free false b]> L) (l1 ++ l2) U d s'
    ∧ mem s' (a + hsize b - 8) = Some (CFtr (hsize b) false).
Proof.
  intros Hi Ha. destruct (setFree_run X (a :: X) L (l1 ++ a :: l2) U d s a b false) as (s1 & E1 & Hh1 & Hi1 & Hf1); [done|done|by right|set_solver|set_solver|].
  destruct Hi1 as [HB1 HL1 HU1 HC1 HA1]. set (L1 := <[a := set_free false b]> L) in *. destruct (fseg_middle _ _ _ _ (lo_fseg _ _ _ _ HL1)) as [Hn Hp].
  pose proof (list_apart _ _ _ _ _ HB1 HL1) as Hap. assert (∀ c, c ∈ l1 ++ l2 → ∃ bc, L1 !! c = Some bc ∧ c ≠ a) as Hlive.
  { intros c Hc. destruct (lo_live _ _ _ _ HL1 c) as [bc Hbc]; [set_solver|]. exists bc. split; [done|]. intros ->.
    pose proof (lo_nodup _ _ _ _ HL1) as Hnd. rewrite <- Permutation_middle in Hnd. by apply NoDup_cons in Hnd as [? _]. }
  eexists. split; [|split; [|split]].
  - unfold remove_from_free_list. erewrite hbind_ok by done. unfold add_offset, HEADER_SIZE. erewrite hbind_ok by (by apply rd_ptr_ok). replace (a + 8 + 8) with (a + 16) by lia.
    erewrite hbind_ok by (by apply rd_ptr_ok). apply (unlink_run _ _ l1 l2); [done|done|]. intros c Hc. destruct (Hlive c Hc) as (bc & Hbc & _).
    split_and!; [by eapply HB1|eapply link_mapped; eauto|eapply link_mapped; eauto].
  - split; cbn [heap]; rewrite <- Hh1; by destruct l1.
  - split; cbn [heap mem].
    + by eapply relink_blocks; [apply HL1|].
    + split; [|by eapply fseg_relink; [|apply HL1]|intros c Hc; apply HL1; set_solver|].
      * destruct l1; [done|]. apply (lo_start _ _ _ _ HL1).
      * pose proof (lo_nodup _ _ _ _ HL1) as Hnd. rewrite <- Permutation_middle in Hnd. by apply NoDup_cons in Hnd as [_ ?].
    + intros c n Hc. destruct (HU1 c n Hc) as (Hf & bc & Hbc & Hfr & Hn1 & Hd). split; [set_solver|]. exists bc. split_and!; [done|done|lia|lia|].
      intros x Hx. rewrite <- (Hd x Hx). apply relink_ne. intros e He. destruct (Hlive e He) as (be & Hbe & _).
      apply (other_not_link _ _ _ c bc e x HB1); [done|by eexists|intros ->; set_solver|unfold rng; lia].
    + intros c bc Hc. destruct (HC1 c bc Hc) as [?|[[Hin ?]|?]]; [by left| |by right; right]. destruct (decide (c = a)) as [->|]; [left; set_solver|right; left; set_solver].
    + by destruct l1.
  - cbn [mem]. rewrite relink_ne; [done|]. intros c Hc. destruct (Hlive c Hc) as (bc & Hbc & Hne).
    eapply (meta_not_link _ _ _ a (set_free false b)); [exact HB1|apply lookup_insert_eq|by eexists|by right].
Qed.

(** ** Putting a block on the list *)

Definition push (a : Z) (fl : list Z) (m : Z → option cell) : Z → option cell :=
  let m1 := upd (a + 16) (CPtr 0) (upd (a + 8) (CPtr (hdp fl)) m) in
  match fl with c :: _ => upd (c + 16) (CPtr (a + 8)) m1 | [] => m1 end.

Lemma push_ne a fl m x : (∀ c, c ∈ a :: fl → x ≠ c + 8 ∧ x ≠ c + 16) → push a fl m x = m x.
Proof.
  intros Hx. unfold push. destruct (Hx a ltac:(left)) as [H1 H2]. destruct fl as [|c fl]; [by rewrite !upd_ne|].
  destruct (Hx c ltac:(set_solver)) as [H3 H4]. by rewrite !upd_ne.
Qed.

Lemma push_blocks X L a fl m : (∀ c, c ∈ a :: fl → is_Some (L !! c)) → blocks_ok X L m → blocks_ok X L (push a fl m).
Proof.
  intros Hl HB. destruct (Hl a ltac:(left)) as [b Ha]. unfold push.
  assert (blocks_ok X L (upd (a + 16) (CPtr 0) (upd (a + 8) (CPtr (hdp fl)) m))) as HB1.
  { eapply blocks_payload; [eapply blocks_payload; [done|done|]|done|]; eapply link_payload; eauto. }
  destruct fl as [|c fl]; [done|]. destruct (Hl c ltac:(set_solver)) as [bc Hc]. eapply blocks_payload; [done|done|eapply link_payload; eauto].
Qed.

Lemma fseg_push a fl m : apart (a :: fl) → fseg m 0 fl 0 → fseg (push a fl m) 0 (a :: fl) 0.
Proof.
  intros Hap Hs. apply (apart_app [a] fl) in Hap as (_ & Hap & Hd). unfold push.
  assert (fseg (upd (a + 16) (CPtr 0) (upd (a + 8) (CPtr (hdp fl)) m)) 0 fl 0) as Hs1.
  { eapply fseg_frame; [done|]. intros c x Hc Hx. destruct (Hd a c) as [_ ?]; [set_solver|done|]. rewrite !upd_ne by lia. done. }
  destruct fl as [|c fl]; cbn [hdp].
  - cbn [fseg]. rewrite upd_eq, upd_ne, upd_eq by lia. done.
  - destruct (Hd a c) as [_ ?]; [set_solver|left|]. apply (fseg_set_prev _ _ (a + 8)) in Hs1; [|done]. change (fseg ?m 0 (a :: c :: fl) 0) with (m (a + 8) = Some (CPtr (c + 8)) ∧ m (a + 16) = Some (CPtr 0) ∧ fseg m (a + 8) (c :: fl) 0).
    split_and!; [rewrite !upd_ne by lia; apply upd_eq|rewrite upd_ne by lia; apply upd_eq|done].
Qed.

(** [append_to_free_list] after the flag is set. *)
Lemma push_run a fl s :
  (∀ c, c ∈ a :: fl → 0 < c ∧ is_Some (mem s (c + 8)) ∧ is_Some (mem s (c + 16))) → free_list_start (heap s) = hdp fl → apart (a :: fl) →
  ∃ s', (let new_ptr := add_offset a in
  _ ← wr new_ptr (CPtr 0);
  _ ← wr (new_ptr + 8) (CPtr 0);
  h ← get_heap;
  if negb (free_list_start h =? 0) then
    _ ← wr new_ptr (CPtr (free_list_start h));
    _ ← wr (new_ptr + 8) (CPtr 0);
    _ ← wr (free_list_start h + 8) (CPtr new_ptr);
    set_start new_ptr
  else
    _ ← set_start new_ptr;
    _ ← wr (new_ptr + 8) (CPtr 0);
    wr new_ptr (CPtr 0)) s = HOk () s'
  ∧ heap s' = mkHeap (last_address (heap s)) (a + 8) (last_mapped_size (heap s)) ∧ ∀ x, mem s' x = push a fl (mem s) x.
Proof.
  intros Hm Hst Hap. destruct (Hm a ltac:(left)) as (Ha & Ha1 & Ha2). cbv zeta. unfold add_offset, HEADER_SIZE. replace (a + 8 + 8) with (a + 16) by lia.
  do 2 hwr. erewrite hbind_ok by done. cbn [heap mem]. rewrite Hst. destruct fl as [|c fl]; cbn [hdp].
  - cbn [Z.eqb negb]. erewrite hbind_ok by apply set_start_run. hwr. eexists. split; [apply wr_ok; hmapped|]. split; [done|]. intros x. cbn [mem]. unfold push, upd, hdp. hcells.
  - destruct (Hm c ltac:(set_solver)) as (Hc & Hc1 & Hc2). apply (apart_app [a]) in Hap as (_ & _ & Hd). destruct (Hd a c) as [_ ?]; [set_solver|left|].
    rewrite (proj2 (Z.eqb_neq _ _)) by lia. cbn [negb]. replace (c + 8 + 8) with (c + 16) by lia. do 3 hwr. eexists. split; [apply set_start_run|]. split; [done|].
    intros x. cbn [mem]. unfold push, upd, hdp. hcells.
Qed.

Lemma blocks_clean X X' L m a b :
  blocks_ok X L m → L !! a = Some b → m (a + hsize b - 8) = Some (CFtr (hsize b) (hfree b)) → (∀ c, c ∈ X → c = a ∨ c ∈ X') → blocks_ok X' L m.
Proof.
  intros HB Ha Hf HX. split; try apply HB. intros c bc Hc Hcx. destruct (decide (c = a)) as [->|Hne]; [by assert (bc = b) as -> by congruence|].
  apply HB; [done|]. intros Hin. by destruct (HX c Hin).
Qed.

Lemma append_run X X' L fl U d s a b :
  inv X L fl U d s → L !! a = Some b → a ∉ fl → U !! a = None → (∀ c, c ∈ X → c = a ∨ c ∈ X') →
  ∃ s', append_to_free_list a s = HOk () s' ∧ same_globals s s' ∧ inv X' (<[a := set_free true b]> L) (a :: fl) U d s'.
Proof.
  intros Hi Ha Hnf Hnu HX. destruct (setFree_run X (a :: X') L fl U d s a b true) as (s1 & E1 & Hh1 & Hi1 & Hf1); [done|done|by left|set_solver|set_solver|].
  destruct Hi1 as [HB1 HL1 HU1 HC1 HA1]. set (L1 := <[a := set_free true b]> L) in *. assert (L1 !! a = Some (set_free true b)) as Ha1 by apply lookup_insert_eq.
  assert (∀ c, c ∈ a :: fl → is_Some (L1 !! c)) as Hlive by (intros c [->|Hc]%elem_of_cons; [by eexists|by apply HL1]).
  assert (apart (a :: fl)) as Hap.
  { split; [apply NoDup_cons; split; [done|apply HL1]|]. intros c c' Hc Hc' Hne. destruct (Hlive c Hc) as [bc Hbc], (Hlive c' Hc') as [bc' Hbc'].
    pose proof (bo_size _ _ _ HB1 _ _ Hbc). pose proof (bo_size _ _ _ HB1 _ _ Hbc'). destruct (bo_disj _ _ _ HB1 c bc c' bc' Hbc Hbc' Hne); lia. }
  destruct (push_run a fl s1) as (s2 & E2 & Hh2 & Hm2); [|apply HL1|done|].
  { intros c Hc. destruct (Hlive c Hc) as (bc & Hbc). split_and!; [by eapply HB1|eapply link_mapped; eauto|eapply link_mapped; eauto]. }
  exists s2. split_and!.
  - unfold append_to_free_list. erewrite hbind_ok by done. exact E2.
  - unfold same_globals. by rewrite Hh2, Hh1.
  - eapply (inv_same _ _ _ _ _ (mkHS (heap s2) (push a fl (mem s1)))); [done|]. split; cbn [mem heap]; rewrite ?Hh2; cbn [free_list_start last_address].
    + eapply (blocks_clean (a :: X')); [by apply push_blocks|done| |set_solver]. rewrite push_ne; [done|]. intros c Hc.
      eapply (meta_not_link _ _ _ a (set_free true b)); [exact HB1|done|by apply Hlive|by right].
    + split; [done|by apply fseg_push; [|apply HL1]|done|apply Hap].
    + intros c n Hc. destruct (HU1 c n Hc) as (Hf & bc & Hbc & Hfr & Hn1 & Hd). assert (c ∉ a :: fl) as Hcn by (intros [->|?]%elem_of_cons; [congruence|done]).
      split; [done|]. exists bc. split_and!; [done|done|lia|lia|]. intros x Hx. rewrite <- (Hd x Hx). apply push_ne. intros e He.
      apply (other_not_link _ _ _ c bc e x HB1); [done|by apply Hlive|by intros ->|unfold rng; lia].
    + intros c bc Hc. destruct (decide (c = a)) as [->|Hne]; [right; left; split; [left|]; by assert (bc = set_free true b) as -> by congruence|].
      destruct (HC1 c bc Hc) as [?|[[Hin ?]|?]]; [left; set_solver|right; left; set_solver|by right; right].
    + done.
Qed.
