(* ===== verification/HeapBlocks.v ===== *)
(** * Splitting and merging blocks

    The steps of the allocator that change which blocks there are, on the memory and on the
    map of the blocks. *)

From S2P Require Import Prelude Heap HeapInv.

(** ** Splitting *)

Definition front (b : Header) (req : Z) : Header := mkHeader req (hfree b) (has_prev b) true.
Definition back (b : Header) (req : Z) : Header := mkHeader (hsize b - req) true true (has_next b).
Definition split_map (a : Z) (b : Header) (req : Z) (L : gmap Z Header) : gmap Z Header := <[a := front b req]> (<[a + req := back b req]> L).

Definition split_mem (a : Z) (b : Header) (req : Z) (m : Z → option cell) : Z → option cell :=
  upd (a + hsize b - 8) (CFtr (hsize b - req) true) (upd (a + req) (CHdr (back b req)) (upd (a + req - 8) (CFtr req (hfree b)) (upd a (CHdr (front b req)) m))).

Definition fits (b : Header) (req : Z) : Prop := 32 <= req ∧ req mod 8 = 0 ∧ 32 <= hsize b - req.

Lemma mod8_add a n : a mod 8 = 0 → n mod 8 = 0 → (a + n) mod 8 = 0.
Proof. intros H1 H2. rewrite Zplus_mod, H1, H2. done. Qed.

Lemma mod8_sub a n : a mod 8 = 0 → n mod 8 = 0 → (a - n) mod 8 = 0.
Proof. intros H1 H2. rewrite Zminus_mod, H1, H2. done. Qed.

Lemma no_block_inside X L m a b x : blocks_ok X L m → L !! a = Some b → a < x < a + hsize b → L !! x = None.
Proof.
  intros HB Ha Hx. destruct (L !! x) as [bx|] eqn:E; [|done]. pose proof (bo_size _ _ _ HB x bx E).
  destruct (bo_disj _ _ _ HB a b x bx Ha E ltac:(lia)); lia.
Qed.

Lemma split_lookup a b req L c bc :
  0 < req → L !! a = Some b → split_map a b req L !! c = Some bc → (c = a ∧ bc = front b req) ∨ (c = a + req ∧ bc = back b req) ∨ (c ≠ a ∧ c ≠ a + req ∧ L !! c = Some bc).
Proof.
  intros Hr Ha. unfold split_map. intros [[<- <-]|[Hne [[<- <-]|[Hne' Hc]]%lookup_insert_Some]]%lookup_insert_Some; auto.
Qed.

(** A block of the map outside of the one that changes has its header and footer outside. *)
Lemma outside X L m a b c bc :
  blocks_ok X L m → L !! a = Some b → L !! c = Some bc → c ≠ a → (c + hsize bc <= a ∨ a + hsize b <= c) ∧ 0 < c ∧ 32 <= hsize bc.
Proof.
  intros HB Ha Hc Hne. pose proof (bo_size _ _ _ HB c bc Hc). split_and!; [|lia|lia]. destruct (bo_disj _ _ _ HB c bc a b Hc Ha Hne); lia.
Qed.

Lemma blocks_split X X' L m a b req :
  blocks_ok X L m → L !! a = Some b → fits b req → (∀ c, c ∈ X → c = a ∨ c ∈ X') → blocks_ok X' (split_map a b req L) (split_mem a b req m).
Proof.
  intros HB Ha (Hr1 & Hr2 & Hr3) HX. destruct (bo_size _ _ _ HB a b Ha) as (Ha0 & Ha8 & Hs & Hs8).
  assert (L !! (a + req) = None) as Hno by (eapply no_block_inside; eauto; lia).
  assert (∀ x, x ≠ a → x ≠ a + req - 8 → x ≠ a + req → x ≠ a + hsize b - 8 → split_mem a b req m x = m x) as Hkeep by (intros; unfold split_mem; by rewrite !upd_ne).
  assert (∀ c bc, split_map a b req L !! c = Some bc → (c = a ∧ bc = front b req) ∨ (c = a + req ∧ bc = back b req) ∨ (c ≠ a ∧ L !! c = Some bc ∧ (c + hsize bc <= a ∨ a + hsize b <= c) ∧ 0 < c ∧ 32 <= hsize bc)) as Hlk.
  { intros c bc Hc. apply split_lookup in Hc as [?|[?|(? & ? & Hc)]]; [by eauto|by eauto| |lia|done]. right; right. split_and!; [done|done| | |]; by eapply (outside X L m a b c bc). }
  assert (∀ c bc, c ≠ a → L !! c = Some bc → split_map a b req L !! c = Some bc) as Hold.
  { intros c bc Hne Hc. unfold split_map. rewrite lookup_insert_ne by done. rewrite lookup_insert_ne; [done|]. intros <-. congruence. }
  assert (split_map a b req L !! a = Some (front b req)) as Hla by apply lookup_insert_eq.
  assert (split_map a b req L !! (a + req) = Some (back b req)) as Hlr by (unfold split_map; rewrite lookup_insert_ne by lia; apply lookup_insert_eq).
  split.
  - intros c bc [[-> ->]|[[-> ->]|(Hne & Hc & ? & ? & ?)]]%Hlk; [unfold split_mem; by rewrite !upd_ne, upd_eq by lia|unfold split_mem; by rewrite upd_ne, upd_eq by lia|].
    rewrite Hkeep by lia. by apply HB.
  - intros c bc [[-> ->]|[[-> ->]|(Hne & Hc & ? & ? & ?)]]%Hlk Hcx; cbn [front back hsize hfree].
    + unfold split_mem. by rewrite !upd_ne, upd_eq by lia.
    + replace (a + req + (hsize b - req) - 8) with (a + hsize b - 8) by lia. apply upd_eq.
    + rewrite Hkeep by lia. apply HB; [done|]. intros Hin. by destruct (HX c Hin).
  - intros c bc [[-> ->]|[[-> ->]|(Hne & Hc & ? & ? & ?)]]%Hlk; cbn [front back hsize].
    + split_and!; [lia|done|lia|lia|done].
    + split_and!; [lia|by apply mod8_add|lia|lia|by apply mod8_sub].
    + by eapply HB.
  - intros c bc x Hc Hx Hx8. unfold split_mem. do 4 apply upd_is_Some. apply Hlk in Hc as [[-> ->]|[[-> ->]|(Hne & Hc & ? & ? & ?)]]; [| |by eapply HB];
      (eapply (bo_map _ _ _ HB a b); [done| |done]; unfold rng in *; cbn [front back hsize] in Hx; lia).
  - intros c bc c' bc' Hc Hc' Hne. apply Hlk in Hc as [[-> ->]|[[-> ->]|(? & Hc & ? & ? & ?)]], Hc' as [[-> ->]|[[-> ->]|(? & Hc' & ? & ? & ?)]];
      cbn [front back hsize]; try lia. by eapply HB.
  - intros c bc [[-> ->]|[[-> ->]|(Hne & Hc & ? & ? & ?)]]%Hlk Hn; cbn [front back hsize has_next] in *.
    + by exists (back b req).
    + destruct (bo_next _ _ _ HB a b Ha Hn) as (b' & Hb' & Hp). exists b'. replace (a + req + (hsize b - req)) with (a + hsize b) by lia. split; [apply Hold; [lia|done]|done].
    + destruct (bo_next _ _ _ HB c bc Hc Hn) as (b' & Hb' & Hp). destruct (decide (c + hsize bc = a)) as [E|Hne']; [|exists b'; split; [by apply Hold|done]].
      rewrite E in *. assert (b' = b) as -> by congruence. by exists (front b req).
  - intros c bc [[-> ->]|[[-> ->]|(Hne & Hc & ? & ? & ?)]]%Hlk Hp; cbn [front back hsize has_prev] in *.
    + destruct (bo_prev _ _ _ HB a b Ha Hp) as (p & b' & Hb' & He & Hn). exists p, b'. split_and!; [apply Hold; [|done]|done|done].
      intros ->. assert (b' = b) as -> by congruence. lia.
    + exists a, (front b req). split_and!; [done|done|done].
    + destruct (bo_prev _ _ _ HB c bc Hc Hp) as (p & b' & Hb' & He & Hn). destruct (decide (p = a)) as [->|Hne']; [|exists p, b'; split_and!; [by apply Hold|done|done]].
      assert (b' = b) as -> by congruence. exists (a + req), (back b req). split_and!; [done|cbn [back hsize]; lia|done].
Qed.

(** A header is rewritten. *)
Lemma alter_run a f h s : mem s a = Some (CHdr h) → alter_hdr a f s = HOk () (mkHS (heap s) (upd a (CHdr (f h)) (mem s))).
Proof. intros E. unfold alter_hdr. erewrite hbind_ok by (by apply rd_hdr_ok). apply wr_ok. by rewrite E. Qed.

Lemma write_footer_run a h s :
  mem s a = Some (CHdr h) → is_Some (mem s (a + hsize h - 8)) → write_footer a s = HOk () (mkHS (heap s) (upd (a + hsize h - 8) (CFtr (hsize h) (hfree h)) (mem s))).
Proof. intros E Hm. unfold write_footer. erewrite hbind_ok by (by apply rd_hdr_ok). by apply wr_ok. Qed.

(** Saying again that there is a block in front changes nothing. *)
Lemma set_prev_again (o : option Z) s :
  (∀ n, o = Some n → ∃ h, mem s n = Some (CHdr h) ∧ has_prev h = true) → ∃ s', when_some o (λ n, alter_hdr n (set_has_prev true)) s = HOk () s' ∧ same_state s s'.
Proof.
  intros Ho. destruct o as [n|]; [|by exists s]. destruct (Ho n eq_refl) as (h & Hm & Hp). eexists. split; [by apply alter_run|]. split; [done|].
  intros x. cbn [mem]. unfold upd. destruct (Z.eqb_spec x n) as [->|]; [|done]. rewrite Hm. destruct h; cbn in *. by subst.
Qed.

Lemma split_writes X L a b req s (k : HM ()) :
  blocks_ok X L (mem s) → L !! a = Some b → fits b req →
  ∃ s', (h ← rd_hdr a;
    let had_next := has_next h in
    _ ← alter_hdr a (set_size req);
    _ ← alter_hdr a (set_has_next true);
    _ ← write_footer a;
    _ ← wr (a + req) (CHdr (mkHeader (hsize b - req) true true had_next));
    _ ← write_footer (a + req);
    next ← get_next_header (a + req);
    _ ← when_some next (λ n, alter_hdr n (set_has_prev true));
    k) s = k s' ∧ same_state (mkHS (heap s) (split_mem a b req (mem s))) s'.
Proof.
  intros HB Ha (Hr1 & Hr2 & Hr3). destruct (bo_size _ _ _ HB a b Ha) as (Ha0 & Ha8 & Hs & Hs8).
  assert (∀ x, rng a b x → x mod 8 = 0 → is_Some (mem s x)) as Hmap by (intros; by eapply HB).
  assert (is_Some (mem s (a + req - 8))) as Hm1 by (apply Hmap; [unfold rng; lia|by apply mod8_sub; [apply mod8_add|]]).
  assert (is_Some (mem s (a + req))) as Hm2 by (apply Hmap; [unfold rng; lia|by apply mod8_add]).
  assert (is_Some (mem s (a + hsize b - 8))) as Hm3 by by eapply ftr_mapped.
  erewrite hbind_ok by (apply rd_hdr_ok; by apply HB). cbv zeta. erewrite hbind_ok by (apply alter_run; by apply HB). erewrite hbind_ok by (apply alter_run; apply upd_eq).
  erewrite hbind_ok by (apply write_footer_run; [apply upd_eq|cbn [hsize]; hmapped]). hwr.
  erewrite hbind_ok by (apply write_footer_run; [apply upd_eq|cbn [hsize]; replace (a + req + (hsize b - req) - 8) with (a + hsize b - 8) by lia; hmapped]).
  cbn [hsize hfree heap mem set_size set_has_next has_prev has_next]. replace (a + req + (hsize b - req) - 8) with (a + hsize b - 8) by lia.
  unfold get_next_header. erewrite hbind_ok by (erewrite hbind_ok by (apply rd_hdr_ok; cbn [mem]; rewrite upd_ne, upd_eq by lia; done); done).
  match goal with |- ∃ s', (when_some ?o _ ≫= _) ?s1 = _ ∧ _ => destruct (set_prev_again o s1) as (s2 & E2 & Hh2 & Hm4) end.
  - cbn [back has_next hsize mem]. intros n. destruct (has_next b) eqn:Hn; [intros [= <-]|done]. replace (a + req + (hsize b - req)) with (a + hsize b) by lia.
    destruct (bo_next _ _ _ HB a b Ha Hn) as (b' & Hb' & Hp). exists b'. split; [|done]. rewrite !upd_ne by lia. by apply HB.
  - exists s2. split; [by erewrite hbind_ok by done|]. split; [by rewrite Hh2|]. intros x. rewrite Hm4. cbn [mem]. unfold split_mem, upd. hcells.
Qed.

Lemma split_frame X L fl U d s a b req :
  inv X L fl U d s → L !! a = Some b → fits b req → (∀ n, U !! a = Some n → n <= req - 16) →
  inv (a + req :: X) (split_map a b req L) fl U d (mkHS (heap s) (split_mem a b req (mem s))).
Proof.
  intros Hi Ha Hf Hn. pose proof (inv_blocks _ _ _ _ _ _ Hi) as HB. pose proof Hf as (Hr1 & Hr2 & Hr3). destruct (bo_size _ _ _ HB a b Ha) as (Ha0 & Ha8 & Hs & Hs8).
  assert (∀ c bc x, L !! c = Some bc → payload c bc x → (c = a → x < a + req - 8) → split_mem a b req (mem s) x = mem s x) as Hm.
  { intros c bc x Hc Hx Hxa. destruct (decide (c = a)) as [->|Hne]; [specialize (Hxa eq_refl); unfold payload in Hx; unfold split_mem; by rewrite !upd_ne by lia|].
    destruct (outside X L _ a b c bc HB Ha Hc Hne). unfold payload in Hx. unfold split_mem. by rewrite !upd_ne by lia. }
  destruct (rest_frame X L (split_map a b req L) fl U d s (split_mem a b req (mem s)) Hi) as [HL2 HU2].
  - intros c x Hc Hx. destruct (link_in_payload _ _ _ _ _ _ _ _ Hi Hc Hx) as (bc & Hbc & Hpx). apply (Hm c bc); [done|done|lia].
  - intros c n x Hc Hx. destruct (data_in_payload _ _ _ _ _ _ _ _ _ Hi Hc Hx) as (bc & Hbc & Hpx). apply (Hm c bc); [done|done|]. intros ->. specialize (Hn n Hc). lia.
  - intros c bc Hc _. destruct (decide (c = a)) as [->|Hne].
    + assert (bc = b) as -> by congruence. exists (front b req). split; [apply lookup_insert_eq|]. intros n Hn'. split; [done|]. by apply Hn.
    + assert (c ≠ a + req) as Hne' by (intros ->; pose proof (no_block_inside X L _ a b (a + req) HB Ha ltac:(lia)); congruence).
      exists bc. unfold split_map. rewrite !lookup_insert_ne by done. split; [done|]. intros n Hn'. destruct (inv_used _ _ _ _ _ _ Hi c n Hn') as (_ & b0 & ? & ? & ? & _).
      assert (b0 = bc) as -> by congruence. split; [done|lia].
  - split; cbn [mem heap]; [eapply blocks_split; eauto; set_solver|done|done| |].
    + intros c bc [[-> ->]|[[-> ->]|(? & ? & Hc)]]%split_lookup; [|left; left| |lia|done].
      * destruct (inv_cover _ _ _ _ _ _ Hi a b Ha) as [?|[?|?]]; [left; set_solver|right; left; done|by right; right].
      * destruct (inv_cover _ _ _ _ _ _ Hi c bc Hc) as [?|[?|?]]; [left; set_solver|right; left; done|by right; right].
    + destruct (inv_last _ _ _ _ _ _ Hi) as [?|(p & bp & Hp & He & Hnx)]; [by left|right]. destruct (decide (p = a)) as [->|Hne].
      * assert (bp = b) as -> by congruence. exists (a + req), (back b req). split_and!; [unfold split_map; rewrite lookup_insert_ne by lia; apply lookup_insert_eq|cbn [back hsize]; lia|done].
      * exists p, bp. split_and!; [|done|done]. assert (p ≠ a + req) by (intros ->; pose proof (no_block_inside X L _ a b (a + req) HB Ha ltac:(lia)); congruence).
        unfold split_map. by rewrite !lookup_insert_ne.
Qed.

Lemma split_run X L fl U d s a b req :
  inv X L fl U d s → L !! a = Some b → fits b req → (∀ n, U !! a = Some n → n <= req - 16) →
  ∃ s', split a (hsize b) req s = HOk () s' ∧ same_globals s s' ∧ inv X (split_map a b req L) (a + req :: fl) U d s'.
Proof.
  intros Hi Ha Hf Hn. pose proof (inv_blocks _ _ _ _ _ _ Hi) as HB. pose proof Hf as (Hr1 & Hr2 & Hr3). destruct (bo_size _ _ _ HB a b Ha) as (Ha0 & Ha8 & Hs & Hs8).
  destruct (split_writes X L a b req s (append_to_free_list (a + req)) HB Ha Hf) as (s1 & E1 & Hs1).
  pose proof (inv_same _ _ _ _ _ _ _ Hs1 (split_frame X L fl U d s a b req Hi Ha Hf Hn)) as Hi1.
  assert (split_map a b req L !! (a + req) = Some (back b req)) as Hlr by (unfold split_map; rewrite lookup_insert_ne by lia; apply lookup_insert_eq).
  assert (L !! (a + req) = None) as Hno by (eapply no_block_inside; eauto; lia).
  destruct (append_run (a + req :: X) X _ fl U d s1 (a + req) (back b req) Hi1 Hlr) as (s2 & E2 & Hg2 & Hi2).
  - intros Hin. destruct (lo_live _ _ _ _ (inv_list _ _ _ _ _ _ Hi) _ Hin). congruence.
  - destruct (U !! (a + req)) as [n|] eqn:E; [|done]. destruct (inv_used _ _ _ _ _ _ Hi _ _ E) as (_ & b0 & ? & _). congruence.
  - set_solver.
  - exists s2. split_and!.
    + unfold split, MIN_SIZE. rewrite (proj2 (Z.ltb_ge _ _)) by lia. cbv zeta in E1 |- *. rewrite E1. exact E2.
    + destruct Hs1 as [Hh _]. unfold same_globals in *. by rewrite Hh in Hg2.
    + rewrite insert_id in Hi2; [done|]. done.
Qed.

(** ** Merging *)

Definition merged (b nb : Header) : Header := mkHeader (hsize b + hsize nb) (hfree b) (has_prev b) (has_next nb).
Definition merge_map (a : Z) (b nb : Header) (L : gmap Z Header) : gmap Z Header := <[a := merged b nb]> (delete (a + hsize b) L).

Section merge.
Context {X X' : list Z} {L : gmap Z Header} {a : Z} {b nb : Header}.
Context (Ha : L !! a = Some b) (Hnb : L !! (a + hsize b) = Some nb) (Hmax : hsize b + hsize nb <= INT_MAX) (Hlink : has_next b = true).
Context (HaX : a ∈ X') (HX : ∀ c, c ∈ X → c = a + hsize b ∨ c ∈ X').

Lemma merge_lookup m c bc :
  blocks_ok X L m → merge_map a b nb L !! c = Some bc →
  (c = a ∧ bc = merged b nb) ∨ (c ≠ a ∧ c ≠ a + hsize b ∧ L !! c = Some bc ∧ (c + hsize bc <= a ∨ a + hsize b + hsize nb <= c) ∧ 0 < c ∧ 32 <= hsize bc).
Proof using Ha Hnb.
  intros HB. unfold merge_map. intros [[<- <-]|[Hne [Hne' Hc]%lookup_delete_Some]]%lookup_insert_Some; [by left|right]. destruct (outside X L m a b c bc HB Ha Hc) as (? & ? & ?); [done|].
  destruct (outside X L m _ nb c bc HB Hnb Hc) as (? & _); [done|]. pose proof (bo_size _ _ _ HB a b Ha). split_and!; [done|done|done| |done|done]. lia.
Qed.

Lemma merge_old c bc : c ≠ a → c ≠ a + hsize b → L !! c = Some bc → merge_map a b nb L !! c = Some bc.
Proof using. intros H1 H2 Hc. unfold merge_map. rewrite lookup_insert_ne by done. by rewrite lookup_delete_ne. Qed.

Lemma merge_new : merge_map a b nb L !! a = Some (merged b nb).
Proof using. apply lookup_insert_eq. Qed.

Lemma blocks_merge m : blocks_ok X L m → blocks_ok X' (merge_map a b nb L) (upd a (CHdr (merged b nb)) m).
Proof using Ha Hnb Hmax HaX HX.
  intros HB. destruct (bo_size _ _ _ HB a b Ha) as (Ha0 & Ha8 & Hs & Hs8). destruct (bo_size _ _ _ HB _ nb Hnb) as (_ & _ & Hns & Hns8). split.
  - intros c bc [[-> ->]|(Hne & Hne' & Hc & ? & ? & ?)]%(merge_lookup m); [apply upd_eq| |done]. rewrite upd_ne by done. by apply HB.
  - intros c bc [[-> ->]|(Hne & Hne' & Hc & ? & ? & ?)]%(merge_lookup m) Hcx; [done| |done]. rewrite upd_ne by lia. apply HB; [done|]. intros Hin. by destruct (HX c Hin).
  - intros c bc [[-> ->]|(Hne & Hne' & Hc & ? & ? & ?)]%(merge_lookup m); [|by eapply HB|done]. cbn [merged hsize]. split_and!; [done|done|lia|done|by apply mod8_add].
  - intros c bc x [[-> ->]|(Hne & Hne' & Hc & ? & ? & ?)]%(merge_lookup m) Hx Hx8; [apply upd_is_Some|by eapply upd_is_Some, HB|done]. unfold rng, merged in Hx. cbn [hsize] in Hx.
    destruct (decide (x < a + hsize b)); [eapply (bo_map _ _ _ HB a b)|eapply (bo_map _ _ _ HB _ nb)]; eauto; unfold rng; lia.
  - intros c bc c' bc' [[-> ->]|(? & ? & Hc & ? & ? & ?)]%(merge_lookup m) [[-> ->]|(? & ? & Hc' & ? & ? & ?)]%(merge_lookup m) Hne; try done; cbn [merged hsize]; try lia. by eapply HB.
  - intros c bc [[-> ->]|(Hne & Hne' & Hc & ? & ? & ?)]%(merge_lookup m) Hn; [| |done]; cbn [merged hsize has_next] in *.
    + destruct (bo_next _ _ _ HB _ nb Hnb Hn) as (b' & Hb' & Hp). exists b'. replace (a + (hsize b + hsize nb)) with (a + hsize b + hsize nb) by lia. split; [|done]. apply merge_old; [lia|lia|done].
    + destruct (bo_next _ _ _ HB c bc Hc Hn) as (b' & Hb' & Hp). destruct (decide (c + hsize bc = a)) as [E|Hna].
      * exists (merged b nb). rewrite E in *. assert (b' = b) as -> by congruence. split; [apply merge_new|done].
      * exists b'. split; [apply merge_old; [done|lia|done]|done].
  - intros c bc [[-> ->]|(Hne & Hne' & Hc & ? & ? & ?)]%(merge_lookup m) Hp; [| |done]; cbn [merged hsize has_prev] in *.
    + destruct (bo_prev _ _ _ HB a b Ha Hp) as (p & b' & Hb' & He & Hn). pose proof (bo_size _ _ _ HB _ _ Hb'). exists p, b'. split_and!; [apply merge_old; [lia|lia|done]|done|done].
    + destruct (bo_prev _ _ _ HB c bc Hc Hp) as (p & b' & Hb' & He & Hn). destruct (decide (p = a + hsize b)) as [->|Hna].
      * assert (b' = nb) as -> by congruence. exists a, (merged b nb). split_and!; [apply merge_new|cbn [merged hsize]; lia|done].
      * destruct (decide (p = a)) as [->|Hpa]; [assert (b' = b) as -> by congruence; lia|]. exists p, b'. split_and!; [by apply merge_old|done|done].
Qed.

Lemma merge_frame fl U d s m' :
  inv X L fl U d s → a + hsize b ∉ fl → U !! (a + hsize b) = None → (∀ x, m' x = upd a (CHdr (merged b nb)) (mem s) x) →
  inv X' (merge_map a b nb L) fl U d (mkHS (heap s) m').
Proof using Ha Hnb Hmax Hlink HaX HX.
  intros Hi Hnf Hnu Hm'. pose proof (inv_blocks _ _ _ _ _ _ Hi) as HB. eapply (inv_same _ _ _ _ _ (mkHS (heap s) (upd a (CHdr (merged b nb)) (mem s)))); [done|].
  assert (∀ c bc x, L !! c = Some bc → payload c bc x → upd a (CHdr (merged b nb)) (mem s) x = mem s x) as Hm.
  { intros c bc x Hc Hx. apply upd_ne. eapply (meta_payload X L (mem s) a b c bc); eauto. }
  destruct (rest_frame X L (merge_map a b nb L) fl U d s (upd a (CHdr (merged b nb)) (mem s)) Hi) as [HL2 HU2].
  - intros c x Hc Hx. destruct (link_in_payload _ _ _ _ _ _ _ _ Hi Hc Hx) as (bc & Hbc & Hpx). by apply (Hm c bc).
  - intros c n x Hc Hx. destruct (data_in_payload _ _ _ _ _ _ _ _ _ Hi Hc Hx) as (bc & Hbc & Hpx). by apply (Hm c bc).
  - intros c bc Hc Hcu. assert (c ≠ a + hsize b) by (intros ->; destruct Hcu as [?|[? ?]]; congruence). exists (if decide (c = a) then merged b nb else bc). split.
    + case_decide as E; [subst c; apply merge_new|by apply merge_old].
    + intros n Hn. destruct (inv_used _ _ _ _ _ _ Hi c n Hn) as (_ & b0 & Hb0 & ? & ? & _). assert (b0 = bc) as -> by congruence. case_decide as E; [subst c|split; [done|lia]].
      assert (bc = b) as -> by congruence. pose proof (bo_size _ _ _ HB _ _ Hnb). split; [done|cbn [merged hsize]; lia].
  - split; cbn [mem heap]; [by apply blocks_merge|done|done| |].
    + intros c bc [[-> ->]|(? & ? & Hc & _)]%(merge_lookup (mem s)); [by left| |done].
      destruct (inv_cover _ _ _ _ _ _ Hi c bc Hc) as [Hin|?]; [left; by destruct (HX c Hin)|by right].
    + destruct (inv_last _ _ _ _ _ _ Hi) as [?|(p & bp & Hp & He & Hnx)]; [by left|right]. destruct (decide (p = a + hsize b)) as [->|Hne].
      * assert (bp = nb) as -> by congruence. exists a, (merged b nb). split_and!; [apply merge_new|cbn [merged hsize]; lia|done].
      * exists p, bp. split_and!; [|done|done]. apply merge_old; [|done|done]. intros ->. congruence.
Qed.
End merge.

(** ** Removing a block *)

(** What its neighbours become. *)
Definition cut_hdr (a : Z) (b : Header) (c : Z) (bc : Header) : Header :=
  mkHeader (hsize bc) (hfree bc) (has_prev bc && negb (c =? a + hsize b)) (has_next bc && negb (c + hsize bc =? a)).
Definition cut_map (a : Z) (b : Header) (L : gmap Z Header) : gmap Z Header := map_imap (λ c bc, Some (cut_hdr a b c bc)) (delete a L).
Definition cut_mem (a : Z) (b : Header) (L : gmap Z Header) (m : Z → option cell) : Z → option cell :=
  λ x, if in_region a (hsize b) x then None else match cut_map a b L !! x with Some h => Some (CHdr h) | None => m x end.

Lemma cut_lookup a b L c bc : cut_map a b L !! c = Some bc ↔ ∃ b0, c ≠ a ∧ L !! c = Some b0 ∧ bc = cut_hdr a b c b0.
Proof.
  unfold cut_map. rewrite map_lookup_imap. destruct (decide (c = a)) as [->|Hne]; [rewrite lookup_delete_eq; cbn; naive_solver|].
  rewrite lookup_delete_ne by done. destruct (L !! c) as [b0|]; cbn; [|naive_solver].
  split; [intros [= <-]; by exists b0|]. by intros (? & _ & [= <-] & ->).
Qed.

Lemma in_region_iff a n x : in_region a n x = true ↔ a <= x < a + n ∧ x mod 8 = 0.
Proof. unfold in_region. rewrite !andb_true_iff, Z.leb_le, Z.ltb_lt, Z.eqb_eq. lia. Qed.

Lemma in_region_out a n x : x < a ∨ a + n <= x → in_region a n x = false.
Proof. intros Hx. apply not_true_iff_false. rewrite in_region_iff. lia. Qed.

Section cut.
Context {X X' : list Z} {L : gmap Z Header} {a : Z} {b : Header} {m : Z → option cell}.
Context (HB : blocks_ok X L m) (Ha : L !! a = Some b).

Lemma same_end c bc : L !! c = Some bc → c + hsize bc = a + hsize b → c = a.
Proof using HB Ha.
  intros Hc He. destruct (decide (c = a)) as [|Hne]; [done|]. pose proof (bo_size _ _ _ HB a b Ha). destruct (outside X L m a b c bc HB Ha Hc Hne). lia.
Qed.

Lemma cut_mem_payload c bc x : L !! c = Some bc → c ≠ a → c < x < c + hsize bc → cut_mem a b L m x = m x.
Proof using HB Ha.
  intros Hc Hne Hx. destruct (outside X L m a b c bc HB Ha Hc Hne) as (? & ? & ?). unfold cut_mem. rewrite in_region_out by lia.
  destruct (cut_map a b L !! x) as [h|] eqn:E; [|done]. apply cut_lookup in E as (b0 & _ & Hx0 & _). rewrite (no_block_inside X L m c bc x HB Hc Hx) in Hx0. done.
Qed.

Lemma blocks_cut : (∀ c, c ∈ X → c = a ∨ c ∈ X') → blocks_ok X' (cut_map a b L) (cut_mem a b L m).
Proof using HB Ha.
  intros HX. split.
  - intros c bc Hc. pose proof Hc as (b0 & Hne & Hc0 & ->)%cut_lookup. destruct (outside X L m a b c b0 HB Ha Hc0 Hne) as (? & ? & ?). unfold cut_mem. rewrite in_region_out by lia. by rewrite Hc.
  - intros c bc (b0 & Hne & Hc0 & ->)%cut_lookup Hcx. cbn [cut_hdr hsize hfree]. pose proof (bo_size _ _ _ HB c b0 Hc0). rewrite (cut_mem_payload c b0) by (done || lia).
    apply HB; [done|]. intros Hin. by destruct (HX c Hin).
  - intros c bc (b0 & Hne & Hc0 & ->)%cut_lookup. exact (bo_size _ _ _ HB c b0 Hc0).
  - intros c bc x Hc Hx Hx8. pose proof Hc as (b0 & Hne & Hc0 & ->)%cut_lookup. destruct (outside X L m a b c b0 HB Ha Hc0 Hne) as (? & ? & ?).
    unfold rng in Hx. cbn [cut_hdr hsize] in Hx. unfold cut_mem. rewrite in_region_out by lia. destruct (cut_map a b L !! x); [done|]. by eapply HB.
  - intros c bc c' bc' (b0 & Hne & Hc0 & ->)%cut_lookup (b0' & Hne' & Hc0' & ->)%cut_lookup. exact (bo_disj _ _ _ HB c b0 c' b0' Hc0 Hc0').
  - intros c bc (b0 & Hne & Hc0 & ->)%cut_lookup. cbn [cut_hdr has_next hsize]. rewrite andb_true_iff, negb_true_iff, Z.eqb_neq. intros [Hn Hna].
    destruct (bo_next _ _ _ HB c b0 Hc0 Hn) as (b' & Hb' & Hp). exists (cut_hdr a b (c + hsize b0) b'). split; [apply cut_lookup; by exists b'|].
    cbn [cut_hdr has_prev]. rewrite Hp. apply negb_true_iff, Z.eqb_neq. intros E. by apply Hne, (same_end c b0).
  - intros c bc (b0 & Hne & Hc0 & ->)%cut_lookup. cbn [cut_hdr has_prev hsize]. rewrite andb_true_iff, negb_true_iff, Z.eqb_neq. intros [Hp Hna].
    destruct (bo_prev _ _ _ HB c b0 Hc0 Hp) as (p & b' & Hb' & He & Hn). assert (p ≠ a) as Hpa by (intros ->; assert (b' = b) as -> by congruence; lia).
    exists p, (cut_hdr a b p b'). split_and!; [apply cut_lookup; by exists b'|done|]. cbn [cut_hdr has_next]. rewrite Hn. apply negb_true_iff, Z.eqb_neq. congruence.
Qed.

(** The blocks that are not its neighbours keep their flags. *)
Lemma cut_other c bc :
  L !! c = Some bc → c ≠ a → (has_next b = true → c ≠ a + hsize b) → (has_prev b = true → c + hsize bc ≠ a) → cut_hdr a b c bc = bc.
Proof using HB Ha.
  intros Hc Hne H1 H2. unfold cut_hdr. destruct bc as [sz fr hp hn]; cbn [hsize hfree has_prev has_next] in *. f_equal.
  - destruct hp; [|done]. apply negb_true_iff, Z.eqb_neq. intros E. destruct (bo_prev _ _ _ HB c _ Hc eq_refl) as (p & b' & Hb' & He & Hn).
    assert (p = a) as -> by (eapply same_end; eauto; lia). assert (b' = b) as -> by congruence. by apply H1.
  - destruct hn; [|done]. apply negb_true_iff, Z.eqb_neq. intros E. destruct (bo_next _ _ _ HB c _ Hc eq_refl) as (b' & Hb' & Hp). cbn [hsize] in Hb'.
    rewrite E in Hb'. assert (b' = b) as -> by congruence. by apply H2.
Qed.

End cut.

Lemma cut_frame X X' L a b fl U d s st :
  inv X L fl U d s → L !! a = Some b → a ∉ fl → U !! a = None → (∀ c, c ∈ X → c = a ∨ c ∈ X') →
  free_list_start st = free_list_start (heap s) → last_ok (cut_map a b L) (last_address st) →
  inv X' (cut_map a b L) fl U d (mkHS st (cut_mem a b L (mem s))).
Proof.
  intros Hi Ha Hnf Hnu HX Hst Hla. pose proof (inv_blocks _ _ _ _ _ _ Hi) as HB. destruct (rest_frame X L (cut_map a b L) fl U d s (cut_mem a b L (mem s)) Hi) as [HL2 HU2].
  - intros c x Hc Hx. destruct (link_in_payload _ _ _ _ _ _ _ _ Hi Hc Hx) as (bc & Hbc & Hpx). unfold payload in Hpx. apply (cut_mem_payload HB Ha c bc); [done|by intros ->|lia].
  - intros c n x Hc Hx. destruct (data_in_payload _ _ _ _ _ _ _ _ _ Hi Hc Hx) as (bc & Hbc & Hpx). unfold payload in Hpx. apply (cut_mem_payload HB Ha c bc); [done|intros ->; congruence|lia].
  - intros c bc Hc Hcu. exists (cut_hdr a b c bc). split.
    + apply cut_lookup. exists bc. split_and!; [|done|done]. intros ->. destruct Hcu as [?|[? ?]]; congruence.
    + intros n Hn. destruct (inv_used _ _ _ _ _ _ Hi c n Hn) as (_ & b0 & Hb0 & ? & ? & _). assert (b0 = bc) as -> by congruence. split; [done|cbn; lia].
  - split; cbn [mem heap]; [by eapply blocks_cut|by rewrite Hst|done| |done].
    intros c bc (b0 & Hne & Hc0 & ->)%cut_lookup. destruct (inv_cover _ _ _ _ _ _ Hi c b0 Hc0) as [Hin|?]; [left; by destruct (HX c Hin)|by right].
Qed.
