(* ===== verification/HeapOps.v ===== *)
(** * Freeing: merging and unmapping blocks *)

From S2P Require Import Prelude Heap HeapInv HeapBlocks.

Lemma same_globals_trans s1 s2 s3 : same_globals s1 s2 → same_globals s2 s3 → same_globals s1 s3.
Proof. intros [H1 H2] [H3 H4]. split; congruence. Qed.

(** A block marked free, whose header and footer are written, is in the list. *)
Lemma free_in_list X L fl U d s a b : inv X L fl U d s → L !! a = Some b → a ∉ X → hfree b = true → a ∈ fl.
Proof.
  intros Hi Ha HaX Hf. destruct (inv_cover _ _ _ _ _ _ Hi a b Ha) as [?|[[? _]|[n Hn]]]; [done|done|].
  destruct (inv_used _ _ _ _ _ _ Hi a n Hn) as (_ & b0 & ? & ? & _). congruence.
Qed.

Lemma not_used_in_list X L fl U d s a : inv X L fl U d s → a ∈ fl → U !! a = None.
Proof. intros Hi Ha. destruct (U !! a) as [n|] eqn:E; [|done]. by destruct (inv_used _ _ _ _ _ _ Hi a n E) as [? _]. Qed.

Lemma remove_run' X L fl a U d s b :
  inv X L fl U d s → a ∈ fl → L !! a = Some b →
  ∃ s' fl', remove_from_free_list a s = HOk () s' ∧ same_globals s s' ∧ inv (a :: X) (<[a := set_free false b]> L) fl' U d s'
    ∧ (∀ c, c ∈ fl' ↔ c ∈ fl ∧ c ≠ a) ∧ mem s' (a + hsize b - 8) = Some (CFtr (hsize b) false).
Proof.
  intros Hi Hin Ha. apply list_elem_of_split in Hin as (l1 & l2 & ->). destruct (remove_run X L l1 a l2 U d s b Hi Ha) as (s' & E & Hg & Hi' & Hf).
  exists s', (l1 ++ l2). split_and!; [done|done|done| |done]. intros c. pose proof (lo_nodup _ _ _ _ (inv_list _ _ _ _ _ _ Hi)) as Hnd.
  rewrite <- Permutation_middle in Hnd. apply NoDup_cons in Hnd as [Hna _]. set_solver.
Qed.

(** A block takes the next one in: the header is rewritten. *)
Lemma enlarge_run {B} a b nb s (k : HM B) :
  mem s a = Some (CHdr b) →
  ∃ s', (_ ← alter_hdr a (λ h, set_size (hsize h + hsize nb) h); _ ← alter_hdr a (set_has_next (has_next nb)); k) s = k s'
    ∧ heap s' = heap s ∧ ∀ x, mem s' x = upd a (CHdr (merged b nb)) (mem s) x.
Proof.
  intros Hb. eexists. split; [erewrite hbind_ok by (by apply alter_run); erewrite hbind_ok by (apply alter_run, upd_eq); done|]. split; [done|].
  intros x. cbn [mem]. unfold upd. by destruct (x =? a).
Qed.

Lemma merge_map_flag a b nb L : merge_map a b (set_free false nb) (<[a + hsize b := set_free false nb]> L) = merge_map a b nb L.
Proof. unfold merge_map. by rewrite delete_insert_eq. Qed.

Lemma absorb_next_run X X' L fl U d s a b nb :
  inv X L fl U d s → L !! a = Some b → has_next b = true → L !! (a + hsize b) = Some nb → a + hsize b ∈ fl → hsize b + hsize nb <= INT_MAX →
  a ∈ X' → (∀ c, c ∈ X → c ∈ X') →
  ∃ s' fl', absorb_next a (a + hsize b) s = HOk () s' ∧ same_globals s s' ∧ inv X' (merge_map a b nb L) fl' U d s' ∧ (∀ c, c ∈ fl' ↔ c ∈ fl ∧ c ≠ a + hsize b).
Proof.
  intros Hi Ha Hlink Hnb Hin Hmax HaX HX. pose proof (bo_size _ _ _ (inv_blocks _ _ _ _ _ _ Hi) a b Ha) as Hsz.
  destruct (remove_run' X L fl (a + hsize b) U d s nb Hi Hin Hnb) as (s1 & fl1 & E1 & Hg1 & Hi1 & Hfl1 & _). set (L1 := <[a + hsize b := set_free false nb]> L) in *.
  assert (L1 !! a = Some b) as Ha1 by (unfold L1; rewrite lookup_insert_ne by lia; done). assert (L1 !! (a + hsize b) = Some (set_free false nb)) as Hn1 by apply lookup_insert_eq.
  pose proof (inv_blocks _ _ _ _ _ _ Hi1) as HB1.
  destruct (enlarge_run a b (set_free false nb) s1 (after ← get_next_header a; when_some after (λ c, alter_hdr c (set_has_prev true)))) as (s2 & E2 & Hh2 & Hm2); [by apply HB1|].
  assert (inv X' (merge_map a b nb L) fl1 U d (mkHS (heap s1) (mem s2))) as Hi2.
  { rewrite <- merge_map_flag. eapply (merge_frame (X := a + hsize b :: X)); [done|done|done|done|done|set_solver|done|rewrite Hfl1; tauto|eapply not_used_in_list; [exact Hi|done]|done]. }
  destruct (set_prev_again (if has_next nb then Some (a + hsize (merged b nb)) else None) s2) as (s3 & E3 & Hs3).
  { intros c. destruct (has_next nb) eqn:Hn; [intros [= <-]|done].
    destruct (bo_next _ _ _ (inv_blocks _ _ _ _ _ _ Hi2) a (merged b nb)) as (b' & Hb' & Hp); [apply lookup_insert_eq|done|]. exists b'. split; [|done].
    by apply (bo_hdr _ _ _ (inv_blocks _ _ _ _ _ _ Hi2)) in Hb'. }
  exists s3, fl1. split_and!; [| | |done].
  - unfold absorb_next. erewrite hbind_ok by done. erewrite hbind_ok by (apply rd_hdr_ok; by apply HB1). etransitivity; [exact E2|]. erewrite hbind_ok; [exact E3|].
    unfold get_next_header. rewrite (hbind_ok _ _ s2 (merged b nb) s2); [done|]. apply rd_hdr_ok. rewrite Hm2. apply upd_eq.
  - destruct Hs3 as [Hh3 _]. unfold same_globals in *. by rewrite Hh3, Hh2.
  - eapply inv_same; [|done]. destruct Hs3 as [Hh3 Hm3]. split; [by rewrite Hh3, Hh2|done].
Qed.

Lemma can_merge_iff b nb : can_merge b nb = true ↔ hsize b + hsize nb <= INT_MAX.
Proof. apply Z.leb_le. Qed.

Lemma merge_next_run L fl U d s a b :
  inv [a] L fl U d s → L !! a = Some b → a ∈ fl → hfree b = true →
  ∃ s' L' fl' b', merge_next a s = HOk () s' ∧ same_globals s s' ∧ inv [a] L' fl' U d s' ∧ L' !! a = Some b' ∧ a ∈ fl' ∧ hfree b' = true.
Proof.
  intros Hi Ha Hin Hf. pose proof (inv_blocks _ _ _ _ _ _ Hi) as HB. assert (∃ s' L' fl' b', HOk () s = HOk () s' ∧ same_globals s s' ∧ inv [a] L' fl' U d s' ∧ L' !! a = Some b' ∧ a ∈ fl' ∧ hfree b' = true) as Hsame.
  { exists s, L, fl, b. done. }
  unfold merge_next. erewrite hbind_ok by (apply rd_hdr_ok; by apply HB). destruct (has_next b) eqn:Hn; cbn [negb]; [|done].
  destruct (bo_next _ _ _ HB a b Ha Hn) as (nb & Hnb & Hp). unfold get_next_header. erewrite hbind_ok by (erewrite hbind_ok by (apply rd_hdr_ok; by apply HB); done).
  rewrite Hn. erewrite hbind_ok by (apply rd_hdr_ok; by apply HB). destruct (hfree nb) eqn:Hfn; cbn [negb]; [|done]. destruct (can_merge b nb) eqn:Hc; cbn [negb]; [|done].
  pose proof (bo_size _ _ _ HB a b Ha) as Hsz. assert (a + hsize b ∈ fl) as Hnin by (eapply free_in_list; eauto; set_solver by lia).
  destruct (absorb_next_run [a] [a] L fl U d s a b nb) as (s' & fl' & E & Hg & Hi' & Hfl); [done|done|done|done|done|by apply can_merge_iff|set_solver|done|].
  exists s', (merge_map a b nb L), fl', (merged b nb). split_and!; [done|done|done|apply merge_new| |done]. apply Hfl. split; [done|lia].
Qed.

Lemma merge_prev_run L fl U d s a b :
  inv [] L fl U d s → L !! a = Some b → a ∈ fl → hfree b = true →
  ∃ s' L' fl' p b', merge_prev a s = HOk p s' ∧ same_globals s s' ∧ inv [p] L' fl' U d s' ∧ L' !! p = Some b' ∧ p ∈ fl' ∧ hfree b' = true.
Proof.
  intros Hi Ha Hin Hf. pose proof (inv_blocks _ _ _ _ _ _ Hi) as HB.
  assert (∃ s' L' fl' p b', HOk a s = HOk p s' ∧ same_globals s s' ∧ inv [p] L' fl' U d s' ∧ L' !! p = Some b' ∧ p ∈ fl' ∧ hfree b' = true) as Hsame.
  { exists s, L, fl, a, b. split_and!; try done. eapply inv_weaken; [done|done|set_solver]. }
  unfold merge_prev. erewrite hbind_ok by (apply rd_hdr_ok; by apply HB). destruct (has_prev b) eqn:Hp; cbn [negb]; [|done].
  destruct (bo_prev _ _ _ HB a b Ha Hp) as (p & pb & Hpb & He & Hn). pose proof (bo_ftr _ _ _ HB p pb Hpb ltac:(set_solver)) as Hpf. rewrite He in Hpf.
  pose proof (bo_size _ _ _ HB p pb Hpb) as Hsz.
  assert (get_prev_footer a s = HOk (Some (a - FOOTER_SIZE)) s) as Egf by (unfold get_prev_footer; erewrite hbind_ok by (apply rd_hdr_ok; by apply HB); by rewrite Hp).
  erewrite hbind_ok by done. rewrite (hbind_ok (get_prev_header a) _ s (Some p) s).
  2: { unfold get_prev_header. erewrite hbind_ok by done. cbn. erewrite hbind_ok by (by apply rd_ftr_ok). cbn. f_equal. f_equal. lia. }
  erewrite hbind_ok by (by apply rd_ftr_ok). cbn [snd]. destruct (hfree pb) eqn:Hpfr; cbn [negb]; [|done].
  erewrite hbind_ok by (apply rd_hdr_ok; by apply HB). erewrite hbind_ok by (apply rd_hdr_ok; by apply HB). destruct (can_merge pb b) eqn:Hc; cbn [negb]; [|done].
  destruct (remove_run' [] L fl a U d s b Hi Hin Ha) as (s1 & fl1 & E1 & Hg1 & Hi1 & Hfl1 & _). erewrite hbind_ok by done. pose proof (inv_blocks _ _ _ _ _ _ Hi1) as HB1.
  set (L1 := <[a := set_free false b]> L) in *. assert (L1 !! p = Some pb) as Hp1 by (unfold L1; rewrite lookup_insert_ne by lia; done).
  assert (L1 !! a = Some (set_free false b)) as Ha1 by apply lookup_insert_eq. erewrite hbind_ok by (apply rd_hdr_ok; by apply HB1).
  destruct (enlarge_run p pb (set_free false b) s1 (mret p)) as (s2 & E2 & Hh2 & Hm2); [by apply HB1|].
  exists s2, (merge_map p pb (set_free false b) L1), fl1, p, (merged pb (set_free false b)). split_and!; [exact E2| | |apply merge_new| |done].
  - unfold same_globals in *. by rewrite Hh2.
  - eapply inv_same with (s := mkHS (heap s1) (mem s2)); [by rewrite <- Hh2|]. eapply (merge_frame (X := [a])); [done|by rewrite He|by apply can_merge_iff|done|set_solver|rewrite He; set_solver|done| | |done].
    + rewrite He, Hfl1. tauto.
    + rewrite He. eapply not_used_in_list; [exact Hi|done].
  - apply Hfl1. split; [eapply free_in_list; eauto; set_solver|lia].
Qed.

Lemma coalesce_run L fl U d s a b :
  inv [] L fl U d s → L !! a = Some b → a ∈ fl → hfree b = true →
  ∃ s' L' fl' p b', coalesce a s = HOk p s' ∧ same_globals s s' ∧ inv [] L' fl' U d s' ∧ L' !! p = Some b' ∧ p ∈ fl' ∧ hfree b' = true.
Proof.
  intros Hi Ha Hin Hf. destruct (merge_prev_run L fl U d s a b) as (s1 & L1 & fl1 & p & b1 & E1 & Hg1 & Hi1 & Hp1 & Hin1 & Hf1); [done|done|done|done|].
  destruct (merge_next_run L1 fl1 U d s1 p b1) as (s2 & L2 & fl2 & b2 & E2 & Hg2 & Hi2 & Hp2 & Hin2 & Hf2); [done|done|done|done|].
  destruct (setFree_run [p] [] L2 fl2 U d s2 p b2 true) as (s3 & E3 & Hh3 & Hi3 & _); [done|done|left; by eapply not_used_in_list|set_solver|by right; left|].
  exists s3, (<[p := set_free true b2]> L2), fl2, p, (set_free true b2). split_and!; [|eapply same_globals_trans; [done|]|done|apply lookup_insert_eq|done|done].
  - unfold coalesce. erewrite hbind_ok by done. erewrite hbind_ok by done. by erewrite hbind_ok by done.
  - unfold same_globals in *. by rewrite Hh3.
Qed.

(** ** Unmapping *)

Lemma get_prev_header_run X L m0 s a b :
  blocks_ok X L m0 → mem s a = Some (CHdr b) → (∀ p pb, L !! p = Some pb → p + hsize pb = a → mem s (a - 8) = Some (CFtr (hsize pb) (hfree pb))) →
  (has_prev b = true → ∃ p pb, L !! p = Some pb ∧ p + hsize pb = a) →
  ∃ o, get_prev_header a s = HOk o s ∧ match o with Some p => has_prev b = true ∧ ∃ pb, L !! p = Some pb ∧ p + hsize pb = a | None => has_prev b = false end.
Proof.
  intros HB Ha Hf Hp. unfold get_prev_header. rewrite (hbind_ok _ _ s (if has_prev b then Some (a - FOOTER_SIZE) else None) s) by (unfold get_prev_footer; by erewrite hbind_ok by (by apply rd_hdr_ok)).
  destruct (has_prev b); [|by exists None]. destruct (Hp eq_refl) as (p & pb & Hpb & He). exists (Some p). split; [|split; [done|by exists pb]].
  erewrite hbind_ok by (apply rd_ftr_ok; by eapply Hf). cbn. f_equal. f_equal. lia.
Qed.

(** The headers of the neighbours after the flags are cleared. *)
Definition clear_next (o : option (Z * Header)) (m : Z → option cell) : Z → option cell :=
  match o with Some (p, pb) => upd p (CHdr (set_has_next false pb)) m | None => m end.
Definition clear_prev (o : option (Z * Header)) (m : Z → option cell) : Z → option cell :=
  match o with Some (n, nb) => upd n (CHdr (set_has_prev false nb)) m | None => m end.

Lemma clear_cut X L m a b o1 o2 x :
  blocks_ok X L m → L !! a = Some b →
  match o1 with Some (p, pb) => has_prev b = true ∧ L !! p = Some pb ∧ p + hsize pb = a | None => has_prev b = false end →
  match o2 with Some (n, nb) => has_next b = true ∧ L !! n = Some nb ∧ n = a + hsize b | None => has_next b = false end →
  (if in_region a (hsize b) x then None else clear_prev o2 (clear_next o1 m) x) = cut_mem a b L m x.
Proof.
  intros HB Ha H1 H2. unfold cut_mem. destruct (in_region a (hsize b) x) eqn:Hr; [done|]. pose proof (bo_size _ _ _ HB a b Ha) as Hsz.
  assert (x ≠ a) as Hxa. { intros ->. apply not_true_iff_false in Hr. rewrite in_region_iff in Hr. lia. }
  destruct (cut_map a b L !! x) as [h|] eqn:E.
  - apply cut_lookup in E as (bx & _ & Hbx & ->). destruct (decide (has_next b = true ∧ x = a + hsize b)) as [[Hn ->]|Hnx].
    { destruct o2 as [[n nb]|]; [|congruence]. destruct H2 as (_ & Hnb & ->). assert (nb = bx) as -> by congruence. cbn [clear_prev]. rewrite upd_eq. do 2 f_equal.
      pose proof (bo_size _ _ _ HB _ _ Hbx). unfold cut_hdr, set_has_prev. rewrite Z.eqb_refl, andb_false_r. rewrite (proj2 (Z.eqb_neq _ _)) by lia. by rewrite andb_true_r. }
    assert (clear_prev o2 (clear_next o1 m) x = clear_next o1 m x) as ->.
    { destruct o2 as [[n nb]|]; [|done]. destruct H2 as (Hn & _ & ->). cbn [clear_prev]. apply upd_ne. intros ->. by apply Hnx. }
    destruct (decide (has_prev b = true ∧ x + hsize bx = a)) as [[Hp He]|Hpx].
    { destruct o1 as [[p pb]|]; [|congruence]. destruct H1 as (_ & Hpb & Hpe).
      assert (p = x) as -> by (symmetry; eapply (same_end HB Hpb); [exact Hbx|lia]). assert (pb = bx) as -> by congruence. cbn [clear_next]. rewrite upd_eq. do 2 f_equal.
      pose proof (bo_size _ _ _ HB _ _ Hbx). unfold cut_hdr, set_has_next. rewrite He, Z.eqb_refl, andb_false_r. rewrite (proj2 (Z.eqb_neq _ _)) by lia. by rewrite andb_true_r. }
    rewrite (cut_other HB Ha x bx Hbx Hxa) by tauto. destruct o1 as [[p pb]|]; [|by apply HB]. destruct H1 as (Hp & Hpb & Hpe). cbn [clear_next]. rewrite upd_ne; [by apply HB|].
    intros ->. assert (pb = bx) as -> by congruence. by apply Hpx.
  - assert (∀ c bc, L !! c = Some bc → c ≠ a → x ≠ c) as Hno. { intros c bc Hc Hne ->. assert (cut_map a b L !! c = Some (cut_hdr a b c bc)) by (apply cut_lookup; eauto). congruence. }
    destruct o2 as [[n nb]|], o1 as [[p pb]|]; cbn [clear_prev clear_next]; rewrite ?upd_ne; try done.
    all: try (destruct H2 as (_ & Hnb & ->); eapply Hno; [exact Hnb|lia]). all: destruct H1 as (_ & Hpb & Hpe); eapply Hno; [exact Hpb|]; intros ->; assert (pb = b) as -> by congruence; lia.
Qed.

Lemma when_some_alter (o : option (Z * Header)) f s :
  (∀ p pb, o = Some (p, pb) → mem s p = Some (CHdr pb)) →
  when_some (fst <$> o) (λ p, alter_hdr p f) s = HOk () (mkHS (heap s) (match o with Some (p, pb) => upd p (CHdr (f pb)) (mem s) | None => mem s end)).
Proof. intros Ho. destruct o as [[p pb]|]; cbn; [by apply alter_run, Ho|by destruct s]. Qed.

Lemma unmap_run L fl U d s a b :
  inv [] L fl U d s → a ∈ fl → L !! a = Some b → ∃ s' L' fl', unmap a (hsize b) s = HOk () s' ∧ inv [] L' fl' U d s'.
Proof.
  intros Hi Hin Ha. destruct (remove_run' [] L fl a U d s b Hi Hin Ha) as (s1 & fl1 & E1 & Hg1 & Hi1 & Hfl1 & _). set (b1 := set_free false b) in *. set (L1 := <[a := b1]> L) in *.
  assert (L1 !! a = Some b1) as Ha1 by apply lookup_insert_eq. pose proof (inv_blocks _ _ _ _ _ _ Hi1) as HB1. pose proof (bo_size _ _ _ HB1 a b1 Ha1) as Hsz.
  assert (∃ o1, get_prev_header a s1 = HOk (fst <$> o1) s1 ∧ match o1 with Some (p, pb) => has_prev b1 = true ∧ L1 !! p = Some pb ∧ p + hsize pb = a | None => has_prev b1 = false end) as (o1 & Eo1 & Ho1).
  { destruct (get_prev_header_run [a] L1 (mem s1) s1 a b1 HB1) as (o & Eo & Ho); [by apply HB1| | |].
    - intros p pb Hpb He. rewrite <- He. apply HB1; [done|]. intros ->%list_elem_of_singleton. assert (pb = b1) as -> by congruence. lia.
    - intros Hp. destruct (bo_prev _ _ _ HB1 a b1 Ha1 Hp) as (p & pb & ? & ? & _). by exists p, pb.
    - destruct o as [p|]; [destruct Ho as (Hp & pb & Hpb & He); by exists (Some (p, pb))|by exists None]. }
  assert (∃ o2, (if has_next b1 then Some (a + hsize b1) else None) = fst <$> o2 ∧ match o2 with Some (n, nb) => has_next b1 = true ∧ L1 !! n = Some nb ∧ n = a + hsize b1 | None => has_next b1 = false end) as (o2 & Eo2 & Ho2).
  { destruct (has_next b1) eqn:Hn; [|by exists None]. destruct (bo_next _ _ _ HB1 a b1 Ha1 Hn) as (nb & Hnb & _). by exists (Some (a + hsize b1, nb)). }
  assert (∀ p pb, o1 = Some (p, pb) → mem s1 p = Some (CHdr pb) ∧ p < a) as Hp1.
  { intros p pb ->. destruct Ho1 as (_ & Hpb & ?). pose proof (bo_size _ _ _ HB1 p pb Hpb). split; [by apply HB1|lia]. }
  assert (∀ n nb, o2 = Some (n, nb) → mem s1 n = Some (CHdr nb) ∧ a < n) as Hn1 by (intros n nb ->; destruct Ho2 as (_ & Hnb & ->); split; [by apply HB1|lia]).
  unfold unmap. erewrite hbind_ok by done. erewrite hbind_ok by done. erewrite hbind_ok by (apply when_some_alter; intros; by apply Hp1). set (s2 := mkHS _ _).
  rewrite (hbind_ok (get_next_header a) _ s2 (fst <$> o2) s2).
  2: { unfold get_next_header. erewrite hbind_ok; [by rewrite <- Eo2|]. apply rd_hdr_ok. cbn [mem s2]. destruct o1 as [[p pb]|]; [|by apply HB1]. destruct (Hp1 p pb eq_refl). rewrite upd_ne by lia. by apply HB1. }
  erewrite hbind_ok.
  2: { apply when_some_alter. intros n nb E. destruct (Hn1 n nb E). cbn [mem s2]. destruct o1 as [[p pb]|]; [|done]. destruct (Hp1 p pb eq_refl). by rewrite upd_ne by lia. }
  match goal with |- context [(get_heap ≫= _) ?s] => set (s3 := s) end. rewrite (hbind_ok get_heap _ s3 (heap s1) s3) by done.
  set (st := if last_address (heap s1) =? a + hsize b then match fst <$> o1 with Some _ => mkHeap a (free_list_start (heap s1)) (last_mapped_size (heap s1)) | None => mkHeap 0 (free_list_start (heap s1)) 1 end else heap s1).
  rewrite (hbind_ok _ _ s3 () (mkHS st (mem s3))). 2: { unfold st. destruct (last_address (heap s1) =? a + hsize b); [|done]. by destruct o1 as [[p pb]|]. }
  eexists _, (cut_map a b1 L1), fl1. split; [done|]. eapply inv_same; [|eapply (cut_frame [a] [] L1 a b1 fl1 U d s1 st)].
  - split; [done|]. intros x. cbn [mem s3 s2]. rewrite <- (clear_cut [a] L1 (mem s1) a b1 o1 o2 x HB1 Ha1 Ho1 Ho2). cbn [b1 set_free hsize]. unfold clear_prev, clear_next. by destruct o2 as [[??]|], o1 as [[??]|].
  - done.
  - done.
  - rewrite Hfl1. tauto.
  - by eapply not_used_in_list; [exact Hi|].
  - set_solver.
  - unfold st. destruct (_ =? _); [by destruct o1 as [[??]|]|done].
  - unfold st. destruct (Z.eqb_spec (last_address (heap s1)) (a + hsize b)) as [E|Hne].
    + destruct o1 as [[p pb]|]; [|by left]. destruct Ho1 as (Hp & Hpb & He). right. exists p, (cut_hdr a b1 p pb). split_and!.
      * apply cut_lookup. exists pb. destruct (Hp1 p pb eq_refl). split_and!; [lia|done|done].
      * done.
      * cbn [cut_hdr has_next]. by rewrite He, Z.eqb_refl, andb_false_r.
    + destruct (inv_last _ _ _ _ _ _ Hi1) as [?|(p & pb & Hpb & He & Hn)]; [by left|right]. exists p, (cut_hdr a b1 p pb). split_and!; [|done|cbn; by rewrite Hn].
      apply cut_lookup. exists pb. split_and!; [|done|done]. intros ->. assert (pb = b1) as -> by congruence. by apply Hne.
Qed.

(** ** Freeing *)

(** The pages of a free block are given back, and what is left of it is a block again. *)
Lemma release_run L fl U d s a b :
  inv [] L fl U d s → a ∈ fl → L !! a = Some b →
  ∃ s' L' fl', (let size := hsize b in
      if (SDB_PAGE_SIZE <=? size) && (a mod SDB_PAGE_SIZE =? 0) then
        let unmap_size := size / SDB_PAGE_SIZE * SDB_PAGE_SIZE in
        if (unmap_size =? size) || (MIN_SIZE <=? size - unmap_size) then
          _ ← (if negb (unmap_size =? size) then split a size unmap_size else mret ());
          unmap a unmap_size
        else mret ()
      else mret ()) s = HOk () s' ∧ inv [] L' fl' U d s'.
Proof.
  intros Hi Hin Ha. cbv zeta. destruct (SDB_PAGE_SIZE <=? hsize b) eqn:Hsz; cbn [andb]; [|by exists s, L, fl]. destruct (a mod SDB_PAGE_SIZE =? 0); [|by exists s, L, fl].
  apply Z.leb_le in Hsz. set (us := hsize b / SDB_PAGE_SIZE * SDB_PAGE_SIZE). assert (SDB_PAGE_SIZE <= us <= hsize b ∧ us mod 8 = 0) as (Hus & Hus8).
  { unfold us. pose proof (Z.div_mod (hsize b) SDB_PAGE_SIZE ltac:(done)). pose proof (Z.mod_pos_bound (hsize b) SDB_PAGE_SIZE ltac:(done)).
    split; [|replace SDB_PAGE_SIZE with (16384 * 8) by done; rewrite Z.mul_assoc; apply Z.mod_mul; done]. split; [|lia].
    assert (1 <= hsize b / SDB_PAGE_SIZE) by (apply Z.div_le_lower_bound; [done|lia]). unfold SDB_PAGE_SIZE in *. lia. }
  clearbody us. destruct (Z.eqb_spec us (hsize b)) as [E|Hne]; cbn [orb negb].
  - erewrite hbind_ok by done. rewrite E. by eapply unmap_run.
  - destruct (MIN_SIZE <=? hsize b - us) eqn:Hmin; [|by exists s, L, fl]. apply Z.leb_le in Hmin. unfold MIN_SIZE, SDB_PAGE_SIZE in *.
    destruct (split_run [] L fl U d s a b us Hi Ha) as (s1 & E1 & _ & Hi1); [split_and!; [lia|done|lia]|intros n Hn; by rewrite (not_used_in_list _ _ _ _ _ _ _ Hi Hin) in Hn|].
    erewrite hbind_ok by done. replace (unmap a us) with (unmap a (hsize (front b us))) by done. eapply unmap_run; [done|by right|apply lookup_insert_eq].
Qed.

Lemma free_run L fl U d s a n :
  inv [] L fl U d s → U !! a = Some n → ∃ s' L' fl', sdb_heap_free (a + 8) s = HOk () s' ∧ inv [] L' fl' (delete a U) d s'.
Proof.
  intros Hi Hu. destruct (inv_used _ _ _ _ _ _ Hi a n Hu) as (Hnf & b & Ha & Hf & _). pose proof (inv_blocks _ _ _ _ _ _ Hi) as HB. pose proof (bo_size _ _ _ HB a b Ha) as Hsz.
  assert (inv [a] L fl (delete a U) d s) as Hi0.
  { eapply inv_weaken; [done|apply delete_subseteq|]. intros c [?|Hc]; [set_solver|]. rewrite dom_delete_L in Hc. destruct (decide (c = a)); set_solver. }
  destruct (append_run [a] [] L fl (delete a U) d s a b Hi0 Ha Hnf) as (s1 & E1 & _ & Hi1); [apply lookup_delete_eq|set_solver|].
  destruct (coalesce_run _ _ _ _ _ a (set_free true b) Hi1) as (s2 & L2 & fl2 & p & b2 & E2 & _ & Hi2 & Hp2 & Hin2 & _); [apply lookup_insert_eq|left|done|].
  destruct (release_run L2 fl2 (delete a U) d s2 p b2 Hi2 Hin2 Hp2) as (s3 & L3 & fl3 & E3 & Hi3). exists s3, L3, fl3. split; [|done].
  unfold sdb_heap_free. rewrite (proj2 (Z.eqb_neq _ _)) by lia. unfold remove_offset, HEADER_SIZE. replace (a + 8 - 8) with a by lia.
  erewrite hbind_ok by (apply rd_hdr_ok; by apply HB). rewrite Hf. erewrite hbind_ok by done. erewrite hbind_ok by done.
  erewrite hbind_ok by (apply rd_hdr_ok; by apply (bo_hdr _ _ _ (inv_blocks _ _ _ _ _ _ Hi2))). exact E3.
Qed.
