(* ===== verification/HeapAlloc.v ===== *)
(** * Allocating and resizing *)

From S2P Require Import Prelude Heap HeapInv HeapBlocks HeapOps.

(** Contents of the blocks in use are the same. *)
Definition agree (U : gmap Z Z) (d d' : Z → option cell) : Prop := ∀ c n x, U !! c = Some n → c + 8 <= x < c + 8 + n → d' x = d x.

(** ** A block goes to its user *)

Lemma inv_claim X X' L fl U d s a b n :
  inv X L fl U d s → L !! a = Some b → U !! a = None → hfree b = false → a ∉ fl → 0 <= n <= hsize b - 16 →
  mem s (a + hsize b - 8) = Some (CFtr (hsize b) (hfree b)) → (∀ c, c ∈ X → c = a ∨ c ∈ X') →
  ∃ d', inv X' L fl (<[a := n]> U) d' s ∧ agree U d d'.
Proof.
  intros [HB HL HU HC HA] Ha Hnu Hf Hnf Hn Hftr HX. exists (λ x, if (a + 8 <=? x) && (x <? a + 8 + n) then mem s x else d x).
  assert (∀ c k x, U !! c = Some k → c + 8 <= x < c + 8 + k → (if (a + 8 <=? x) && (x <? a + 8 + n) then mem s x else d x) = d x) as Hag.
  { intros c k x Hc Hx. destruct (HU c k Hc) as (_ & bc & Hbc & _ & Hk & Hd). destruct (_ && _); [by apply Hd|done]. }
  split; [|exact Hag]. split; [by eapply blocks_clean|done| | |done].
  - intros c k [[<- <-]|[Hne Hc]]%lookup_insert_Some.
    + split; [done|]. exists b. split_and!; [done|done|lia|lia|]. intros x Hx. rewrite (proj2 (andb_true_iff _ _)); [done|]. rewrite Z.leb_le, Z.ltb_lt. lia.
    + destruct (HU c k Hc) as (Hf' & bc & Hbc & Hfr & Hk & Hd). split; [done|]. exists bc. split_and!; [done|done|lia|lia|]. intros x Hx. rewrite (Hag c k) by done. by apply Hd.
  - intros c bc Hc. destruct (decide (c = a)) as [->|Hne]; [right; right; by rewrite lookup_insert_eq|]. rewrite lookup_insert_ne by done.
    destruct (HC c bc Hc) as [Hin|?]; [left; by destruct (HX c Hin)|by right].
Qed.

Lemma split_small a b req s : hsize b - req < 32 → split a (hsize b) req s = HOk () s.
Proof. intros Hs. unfold split, MIN_SIZE. rewrite (proj2 (Z.ltb_lt _ _)) by lia. done. Qed.

Lemma split_any X L fl U d s a b req :
  inv X L fl U d s → L !! a = Some b → 32 <= req <= hsize b → req mod 8 = 0 → (∀ n, U !! a = Some n → n <= req - 16) →
  ∃ s' L' fl' b', split a (hsize b) req s = HOk () s' ∧ same_globals s s' ∧ inv X L' fl' U d s' ∧ L' !! a = Some b' ∧ req <= hsize b' ∧ hfree b' = hfree b ∧ (a ∈ fl ↔ a ∈ fl').
Proof.
  intros Hi Ha Hr Hr8 Hn. destruct (decide (32 <= hsize b - req)) as [Hfit|Hfit].
  - destruct (split_run X L fl U d s a b req Hi Ha) as (s' & E & Hg & Hi'); [by split_and!; [lia|..]|done|]. exists s', (split_map a b req L), (a + req :: fl), (front b req).
    split_and!; [done|done|done|apply lookup_insert_eq|done|done|]. rewrite elem_of_cons. split; [by right|intros [?|?]; [lia|done]].
  - exists s, L, fl, b. split_and!; try done; [apply split_small|]; lia.
Qed.

(** ** Looking for a free block *)

Lemma find_run X L fl U d s size :
  inv X L fl U d s →
  ∃ r, (∀ fuel, (length fl < fuel)%nat → find_free_block fuel size s = HOk r s)
    ∧ ((r = 0 ∧ ∀ a b, a ∈ fl → L !! a = Some b → hsize b < size) ∨ ∃ a b, r = a + 8 ∧ a ∈ fl ∧ L !! a = Some b ∧ size <= hsize b).
Proof.
  intros Hi. pose proof (inv_blocks _ _ _ _ _ _ Hi) as HB. destruct (inv_list _ _ _ _ _ _ Hi) as [Hst Hsg Hlv _].
  assert (∀ p, fseg (mem s) p fl 0 → ∃ r, (∀ fuel, (length fl < fuel)%nat → find_block_loop fuel size (hdp fl) s = HOk r s)
    ∧ ((r = 0 ∧ ∀ a b, a ∈ fl → L !! a = Some b → hsize b < size) ∨ ∃ a b, r = a + 8 ∧ a ∈ fl ∧ L !! a = Some b ∧ size <= hsize b)) as Hloop.
  { clear Hst Hsg Hi. induction fl as [|a fl IH]; intros p Hs; [exists 0; split; [intros [|fuel] ?; [lia|done]|left; split; [done|set_solver]]|].
    destruct (Hlv a ltac:(left)) as [b Ha]. pose proof (bo_size _ _ _ HB a b Ha) as Hsz. destruct Hs as (Hn & _ & Hs).
    destruct (decide (size <= hsize b)) as [Hle|Hgt].
    - exists (a + 8). split; [|right; exists a, b; split_and!; [done|left|done|done]]. intros [|fuel] Hfu; [lia|]. cbn [find_block_loop hdp]. rewrite (proj2 (Z.eqb_neq _ _)) by lia.
      unfold remove_offset, HEADER_SIZE. replace (a + 8 - 8) with a by lia. erewrite hbind_ok by (apply rd_hdr_ok; by apply HB). by rewrite (proj2 (Z.leb_le _ _)).
    - destruct (IH ltac:(set_solver) _ Hs) as (r & Hr & Hres). exists r. split.
      + intros [|fuel] Hfu; [cbn in Hfu; lia|]. cbn [find_block_loop hdp]. rewrite (proj2 (Z.eqb_neq _ _)) by lia. unfold remove_offset, HEADER_SIZE. replace (a + 8 - 8) with a by lia.
        erewrite hbind_ok by (apply rd_hdr_ok; by apply HB). rewrite (proj2 (Z.leb_gt _ _)) by lia. erewrite hbind_ok by (apply rd_ptr_ok; exact Hn). apply Hr. cbn in Hfu. lia.
      + destruct Hres as [[-> Hall]|(a' & b' & ? & ? & ? & ?)]; [left; split; [done|]|right; exists a', b'; split_and!; try done; by right].
        intros a' b' [->|Hin]%elem_of_cons Ha'; [assert (b' = b) as -> by congruence; lia|by eapply Hall]. }
  destruct (Hloop 0 Hsg) as (r & Hr & Hres). exists r. split; [|done]. intros fuel Hfu. unfold find_free_block. erewrite hbind_ok by done. rewrite Hst. by apply Hr.
Qed.

(** ** Reusing a free block *)

Lemma reuse_run L fl U d s a b req n :
  inv [] L fl U d s → a ∈ fl → L !! a = Some b → 32 <= req <= hsize b → req mod 8 = 0 → 0 <= n <= req - 16 →
  ∃ s' L' fl' d', (_ ← setFree a false; h ← rd_hdr a; _ ← split a (hsize h) req; _ ← remove_from_free_list a; mret (add_offset a)) s = HOk (a + 8) s'
    ∧ same_globals s s' ∧ inv [] L' fl' (<[a := n]> U) d' s' ∧ agree U d d'.
Proof.
  intros Hi Hin Ha Hr Hr8 Hn. pose proof (not_used_in_list _ _ _ _ _ _ _ Hi Hin) as Hnu.
  destruct (setFree_run [] [a] L fl U d s a b false) as (s1 & E1 & Hh1 & Hi1 & _); [done|done|by right|set_solver|left; set_solver|]. set (b1 := set_free false b) in *.
  assert (<[a := b1]> L !! a = Some b1) as Ha1 by apply lookup_insert_eq.
  destruct (split_any [a] _ fl U d s1 a b1 req Hi1 Ha1) as (s2 & L2 & fl2 & b2 & E2 & Hg2 & Hi2 & Ha2 & Hle2 & Hf2 & Hin2); [done|done|congruence|].
  destruct (remove_run' [a] L2 fl2 a U d s2 b2 Hi2) as (s3 & fl3 & E3 & Hg3 & Hi3 & Hfl3 & Hft3); [by apply Hin2|done|].
  destruct (inv_claim [a; a] [] _ fl3 U d s3 a (set_free false b2) n Hi3) as (d' & Hi4 & Hag); [apply lookup_insert_eq|done|done|rewrite Hfl3; tauto|cbn; lia|done|set_solver|].
  eexists s3, _, fl3, d'. split_and!; [|eapply same_globals_trans; [|eapply same_globals_trans; [exact Hg2|exact Hg3]]; split; by rewrite Hh1|exact Hi4|done].
  erewrite hbind_ok by done. erewrite hbind_ok by (apply rd_hdr_ok; by apply (bo_hdr _ _ _ (inv_blocks _ _ _ _ _ _ Hi1))). erewrite hbind_ok by done. by erewrite hbind_ok by done.
Qed.

(** ** A new region *)

Definition fresh (a n : Z) (m : Z → option cell) : Prop := ∀ x, in_region a n x = true → m x = None.

(** The block in front of the region, if it is linked to one. *)
Definition tail (L : gmap Z Header) (la a : Z) (o : option (Z * Header)) : Prop :=
  match o with Some (p, pb) => la = a ∧ la ≠ 0 ∧ L !! p = Some pb ∧ p + hsize pb = a ∧ has_next pb = false | None => la ≠ a ∨ la = 0 end.

Lemma tail_exists L la a : last_ok L la → ∃ o, tail L la a o.
Proof.
  intros Hla. destruct (decide (la = a ∧ la ≠ 0)) as [[<- Hne]|Hno]; [|exists None; cbn; destruct (decide (la = a)), (decide (la = 0)); tauto].
  destruct Hla as [?|(p & pb & Hp & He & Hn)]; [done|]. by exists (Some (p, pb)).
Qed.

Definition region_hdr (n : Z) (o : option (Z * Header)) : Header := mkHeader n false (if o then true else false) false.
Definition region_map (a n : Z) (o : option (Z * Header)) (L : gmap Z Header) : gmap Z Header :=
  <[a := region_hdr n o]> (match o with Some (p, pb) => <[p := set_has_next true pb]> L | None => L end).
Definition region_mem (a n : Z) (o : option (Z * Header)) (m : Z → option cell) : Z → option cell :=
  let m1 := upd (a + n - 8) (CFtr n false) (upd a (CHdr (region_hdr n o)) (λ x, if in_region a n x then Some (CWord 0) else m x)) in
  match o with Some (p, pb) => upd p (CHdr (set_has_next true pb)) m1 | None => m1 end.

Section region.
Context {X : list Z} {L : gmap Z Header} {m : Z → option cell} {la a n : Z} {o : option (Z * Header)}.
Context (HB : blocks_ok X L m) (Ht : tail L la a o) (Hf : fresh a n m) (Ha0 : 0 < a) (Ha8 : a mod 8 = 0) (Hn : 32 <= n <= INT_MAX) (Hn8 : n mod 8 = 0).

Lemma fresh_outside c bc : L !! c = Some bc → (c + hsize bc <= a ∨ a + n <= c) ∧ 0 < c ∧ 32 <= hsize bc.
Proof using HB Hf Ha0 Ha8 Hn.
  intros Hc. destruct (bo_size _ _ _ HB c bc Hc) as (? & Hc8 & ? & _). split_and!; [|lia|lia].
  destruct (decide (c + hsize bc <= a ∨ a + n <= c)) as [|Hov]; [done|]. exfalso. set (x := Z.max a c).
  assert (x mod 8 = 0) as Hx8 by (unfold x; destruct (Z.max_spec a c) as [[_ ->]|[_ ->]]; done).
  assert (m x = None) as Hx. { apply Hf, in_region_iff. split; [unfold x; lia|done]. }
  destruct (bo_map _ _ _ HB c bc x Hc) as [? ?]; [unfold rng, x; lia|done|congruence].
Qed.

Lemma region_lookup c bc :
  region_map a n o L !! c = Some bc →
  (c = a ∧ bc = region_hdr n o) ∨ (c ≠ a ∧ ∃ b0, L !! c = Some b0 ∧ hsize bc = hsize b0 ∧ hfree bc = hfree b0 ∧ has_prev bc = has_prev b0
    ∧ ((has_next bc = has_next b0 ∧ bc = b0 ∧ ∀ p pb, o = Some (p, pb) → c ≠ p) ∨ (o = Some (c, b0) ∧ c + hsize b0 = a ∧ bc = set_has_next true b0))).
Proof using Ht.
  unfold region_map. intros [[<- <-]|[Hne Hc]]%lookup_insert_Some; [by left|right]. split; [done|]. destruct o as [[p pb]|]; [|exists bc; split_and!; try done; by left].
  destruct Ht as (_ & _ & Hp & He & _). apply lookup_insert_Some in Hc as [[<- <-]|[Hne' Hc]]; [exists pb; split_and!; try done; by right|].
  exists bc. split_and!; try done. left. split_and!; [done|done|]. by intros ?? [= <- <-].
Qed.

Lemma region_old c b0 : L !! c = Some b0 → ∃ bc, region_map a n o L !! c = Some bc ∧ hsize bc = hsize b0 ∧ hfree bc = hfree b0 ∧ has_prev bc = has_prev b0 ∧ (has_next b0 = true → has_next bc = true).
Proof using HB Hf Ha0 Ha8 Hn Ht.
  intros Hc. destruct (fresh_outside c b0 Hc) as (? & ? & ?). unfold region_map. rewrite lookup_insert_ne by lia. destruct o as [[p pb]|]; [|by exists b0].
  destruct Ht as (_ & _ & Hp & _). destruct (decide (c = p)) as [->|Hne]; [|exists b0; by rewrite lookup_insert_ne]. assert (b0 = pb) as -> by congruence.
  exists (set_has_next true pb). by rewrite lookup_insert_eq.
Qed.

Lemma region_mem_out x : x < a ∨ a + n <= x → (∀ p pb, o = Some (p, pb) → x ≠ p) → region_mem a n o m x = m x.
Proof using Hn Ht.
  intros Hx Hp. assert (upd (a + n - 8) (CFtr n false) (upd a (CHdr (region_hdr n o)) (λ x, if in_region a n x then Some (CWord 0) else m x)) x = m x) as E.
  { rewrite !upd_ne by lia. by rewrite in_region_out. }
  unfold region_mem. destruct o as [[p pb]|]; [|done]. rewrite upd_ne; [done|]. by eapply Hp.
Qed.

(** In the payload of the old blocks nothing changes. *)
Lemma region_mem_payload c bc x : L !! c = Some bc → c < x < c + hsize bc → region_mem a n o m x = m x.
Proof using HB Hf Ha0 Ha8 Hn Ht.
  intros Hc Hx. destruct (fresh_outside c bc Hc) as (? & ? & ?). apply region_mem_out; [lia|]. intros p pb -> ->. destruct Ht as (_ & _ & Hp & _).
  rewrite (no_block_inside X L m c bc p HB Hc Hx) in Hp. done.
Qed.

Lemma blocks_region : blocks_ok X (region_map a n o L) (region_mem a n o m).
Proof using All.
  assert (region_map a n o L !! a = Some (region_hdr n o)) as Hra by apply lookup_insert_eq.
  assert (∀ p pb, o = Some (p, pb) → p < a ∧ p + hsize pb = a ∧ L !! p = Some pb) as Hpa.
  { intros p pb ->. destruct Ht as (_ & _ & Hp & He & _). destruct (fresh_outside p pb Hp). split_and!; [lia|done|done]. }
  split.
  - intros c bc [[-> ->]|(Hne & b0 & Hc & _ & _ & _ & [(_ & -> & Hcp)|(-> & _ & ->)])]%region_lookup.
    + unfold region_mem. destruct o as [[p pb]|]; [destruct (Hpa p pb eq_refl); rewrite upd_ne by lia|]; by rewrite upd_ne, upd_eq by lia.
    + destruct (fresh_outside c b0 Hc) as (? & ? & ?). rewrite region_mem_out; [by apply HB|lia|done].
    + cbn [region_mem]. apply upd_eq.
  - intros c bc [[-> ->]|(Hne & b0 & Hc & Es & Ef & _ & _)]%region_lookup Hcx.
    + cbn [region_hdr hsize hfree]. unfold region_mem. destruct o as [[p pb]|]; [destruct (Hpa p pb eq_refl); rewrite upd_ne by lia|]; apply upd_eq.
    + rewrite Es, Ef. destruct (fresh_outside c b0 Hc) as (? & ? & ?). rewrite (region_mem_payload c b0) by (done || lia). by apply HB.
  - intros c bc [[-> ->]|(Hne & b0 & Hc & Es & _)]%region_lookup; [cbn [region_hdr hsize]; split_and!; try done; lia|]. rewrite Es. by apply HB.
  - intros c bc x [[-> ->]|(Hne & b0 & Hc & Es & _)]%region_lookup Hx Hx8.
    + assert (in_region a n x = true) as E by (apply in_region_iff; split; [exact Hx|done]).
      unfold region_mem. destruct o as [[p pb]|]; repeat apply upd_is_Some; rewrite E; done.
    + unfold rng in Hx. rewrite Es in Hx. assert (is_Some (m x)) as Hm by by eapply HB. unfold region_mem. destruct o as [[p pb]|]; repeat apply upd_is_Some; by destruct (in_region a n x).
  - intros c bc c' bc' [[-> ->]|(? & b0 & Hc & Es & _)]%region_lookup [[-> ->]|(? & b0' & Hc' & Es' & _)]%region_lookup Hne; rewrite ?Es, ?Es'; cbn [region_hdr hsize].
    + done.
    + destruct (fresh_outside c' b0' Hc'). lia.
    + destruct (fresh_outside c b0 Hc). lia.
    + by eapply HB.
  - intros c bc [[-> ->]|(Hne & b0 & Hc & Es & _ & _ & [(_ & -> & _)|(-> & He & ->)])]%region_lookup Hnx; [done| |].
    + destruct (bo_next _ _ _ HB c b0 Hc Hnx) as (b' & Hb' & Hp). destruct (region_old _ _ Hb') as (b2 & Hb2 & _ & _ & E & _). exists b2. by rewrite E.
    + cbn [set_has_next hsize]. rewrite He. eexists. split; [exact Hra|done].
  - intros c bc [[-> ->]|(Hne & b0 & Hc & Es & _ & Ep & _)]%region_lookup Hp.
    + destruct o as [[p pb]|]; [|done]. destruct (Hpa p pb eq_refl) as (? & ? & ?). exists p, (set_has_next true pb). split_and!; [|done|done].
      unfold region_map. rewrite lookup_insert_ne by lia. apply lookup_insert_eq.
    + rewrite Ep in Hp. destruct (bo_prev _ _ _ HB c b0 Hc Hp) as (p & b' & Hb' & He & Hn'). destruct (region_old _ _ Hb') as (b2 & Hb2 & E1 & _ & _ & E2).
      exists p, b2. split_and!; [done|by rewrite E1|by apply E2].
Qed.
End region.

(** ** Steps that do not look at [last_address] *)

Definition heap_with_last (la : Z) (h : SdbHeap) : SdbHeap := mkHeap la (free_list_start h) (last_mapped_size h).
Definition with_last (la : Z) (s : HS) : HS := mkHS (heap_with_last la (heap s)) (mem s).
Definition res_with_last {A} (la : Z) (r : hres A) : hres A := match r with HOk a s => HOk a (with_last la s) | HFault => HFault | HNoFuel => HNoFuel end.

Definition blind {A} (k : HM A) : Prop := ∀ la s, k (with_last la s) = res_with_last la (k s).

Lemma blind_bind {A B} (k : HM A) (f : A → HM B) : blind k → (∀ a, blind (f a)) → blind (k ≫= f).
Proof. intros Hk Hf la s. unfold mbind, HM_bind. rewrite Hk. destruct (k s) as [a s'| |]; cbn; [apply Hf|done|done]. Qed.

Lemma blind_get {A} (f : SdbHeap → HM A) : (∀ h la, f (heap_with_last la h) = f h) → (∀ h, blind (f h)) → blind (get_heap ≫= f).
Proof. intros He Hf la s. unfold mbind, HM_bind, get_heap. cbn [heap with_last]. rewrite He. apply Hf. Qed.

Lemma blind_rd_hdr x : blind (rd_hdr x).
Proof. intros la s. unfold rd_hdr. cbn [mem with_last]. by destruct (mem s x) as [[]|]. Qed.
Lemma blind_wr x c : blind (wr x c).
Proof. intros la s. unfold wr. cbn [mem with_last]. by destruct (mem s x). Qed.
Lemma blind_ret {A} (a : A) : blind (mret a).
Proof. done. Qed.
Lemma blind_set_start p : blind (set_start p).
Proof. done. Qed.

Create HintDb blind.
#[local] Hint Resolve blind_bind blind_rd_hdr blind_wr blind_ret blind_set_start : blind.

Lemma blind_split a t r : blind (split a t r).
Proof.
  unfold split. case_match; [auto with blind|]. unfold alter_hdr, write_footer, get_next_header, append_to_free_list, setFree, alter_hdr, write_footer, when_some.
  
  repeat match goal with
  | |- blind (get_heap ≫= _) => apply blind_get; [done|intros]
  | |- blind (_ ≫= _) => apply blind_bind; [|intros]
  | |- blind (if ?x then _ else _) => destruct x
  | |- blind (match ?x with _ => _ end) => destruct x
  | |- _ => solve [auto with blind]
  end.
Qed.

Lemma split_set_last a t r s la s' : split a t r (with_last la s) = HOk () s' → (_ ← split a t r; set_last la) s = HOk () s'.
Proof.
  rewrite blind_split. unfold mbind, HM_bind. destruct (split a t r s) as [[] s1| |]; cbn; [|done|done]. done.
Qed.

Lemma region_frame L fl U d s a n o :
  inv [] L fl U d s → tail L (last_address (heap s)) a o → fresh a n (mem s) → 0 < a → a mod 8 = 0 → 32 <= n <= INT_MAX → n mod 8 = 0 →
  inv [a] (region_map a n o L) fl U d (with_last (a + n) (mkHS (heap s) (region_mem a n o (mem s)))).
Proof.
  intros Hi Ht Hf Ha0 Ha8 Hn Hn8. pose proof (inv_blocks _ _ _ _ _ _ Hi) as HB.
  destruct (rest_frame [] L (region_map a n o L) fl U d s (region_mem a n o (mem s)) Hi) as [HL2 HU2].
  - intros c x Hc Hx. destruct (link_in_payload _ _ _ _ _ _ _ _ Hi Hc Hx) as (bc & Hbc & Hpx). unfold payload in Hpx. eapply (region_mem_payload HB Ht); eauto; lia.
  - intros c k x Hc Hx. destruct (data_in_payload _ _ _ _ _ _ _ _ _ Hi Hc Hx) as (bc & Hbc & Hpx). unfold payload in Hpx. eapply (region_mem_payload HB Ht); eauto; lia.
  - intros c bc Hc _. destruct (region_old (n := n) HB Ht Hf Ha0 Ha8 Hn c bc Hc) as (bc' & Hbc' & Es & Ef & _). exists bc'. split; [done|]. intros k Hk.
    destruct (inv_used _ _ _ _ _ _ Hi c k Hk) as (_ & b0 & Hb0 & ? & ? & _). assert (b0 = bc) as -> by congruence. split; [done|lia].
  - split; cbn [mem heap with_last heap_with_last free_list_start last_address]; [|exact HL2|exact HU2| |].
    + destruct (blocks_region HB Ht Hf Ha0 Ha8 Hn Hn8) as [H1 H2 H3 H4 H5 H6 H7]. split; try done. intros c bc Hc _. apply H2; [done|set_solver].
    + intros c bc Hc. destruct (region_lookup Ht c bc Hc) as [[-> ->]|(Hne & b0 & Hc0 & _ & Ef & _)]; [left; set_solver|]. rewrite Ef.
      destruct (inv_cover _ _ _ _ _ _ Hi c b0 Hc0) as [?|?]; [set_solver|by right].
    + right. exists a, (region_hdr n o). split_and!; [apply lookup_insert_eq|done|done].
Qed.

(** The header and the footer of the region, and the link to the block in front. *)
Lemma region_writes {B} L s a n o (k : HM B) :
  blocks_ok [] L (mem s) → tail L (last_address (heap s)) a o → fresh a n (mem s) → 0 < a → a mod 8 = 0 → 32 <= n <= INT_MAX → n mod 8 = 0 →
  ∃ s', (_ ← map_region a n;
    _ ← wr a (CHdr (mkHeader n false false false));
    _ ← write_footer a;
    h ← get_heap;
    _ ← (if (a =? last_address h) && negb (last_address h =? 0) then
         _ ← alter_hdr a (set_has_prev true);
         prev_footer ← get_prev_footer a;
         prev_header ← get_prev_header a;
         when_some (match prev_footer with Some _ => prev_header | None => None end) (λ p, alter_hdr p (set_has_next true))
       else mret ());
    k) s = k s' ∧ heap s' = heap s ∧ ∀ x, mem s' x = region_mem a n o (mem s) x.
Proof.
  intros HB Ht Hf Ha0 Ha8 Hn Hn8. erewrite hbind_ok by done. set (m0 := λ x, if in_region a n x then Some (CWord 0) else mem s x).
  assert (is_Some (m0 a)) as Hm0 by (unfold m0; by rewrite (proj2 (in_region_iff _ _ _)) by (split; [lia|done])).
  assert (is_Some (m0 (a + n - 8))) as Hm1. { unfold m0. rewrite (proj2 (in_region_iff _ _ _)); [done|]. split; [lia|]. apply mod8_sub; [by apply mod8_add|done]. }
  erewrite hbind_ok by (apply wr_ok; exact Hm0). erewrite hbind_ok by (apply write_footer_run; [apply upd_eq|cbn [mem hsize]; by apply upd_is_Some]). cbn [heap mem hsize hfree].
  erewrite (hbind_ok get_heap) by done. cbn [heap]. destruct o as [[p pb]|]; cbn [tail] in Ht.
  - destruct Ht as (Hla & Hla0 & Hp & He & Hnx). rewrite Hla. rewrite Z.eqb_refl, (proj2 (Z.eqb_neq _ _)) by lia. cbn [negb andb].
    destruct (fresh_outside HB Hf Ha0 Ha8 Hn p pb Hp) as (? & ? & ?). set (hr := mkHeader n false true false).
    set (m1 := upd a (CHdr hr) (upd (a + n - 8) (CFtr n false) (upd a (CHdr (mkHeader n false false false)) m0))).
    assert (∀ x, x < a → m1 x = mem s x) as Hm1s by (intros x Hx; unfold m1, m0; rewrite !upd_ne by lia; by rewrite in_region_out by lia).
    rewrite (hbind_ok _ _ _ () (mkHS (heap s) (upd p (CHdr (set_has_next true pb)) m1))).
    + eexists. split; [done|]. split; [done|]. intros x. cbn [mem region_mem]. unfold m1, hr, region_hdr, m0, upd. destruct (x =? p); [done|]. hcells.
    + erewrite hbind_ok by (apply alter_run; cbn [mem]; rewrite upd_ne by lia; apply upd_eq). cbn [heap mem set_has_prev hsize hfree has_next]. fold hr. fold m1.
      assert (get_prev_footer a (mkHS (heap s) m1) = HOk (Some (a - FOOTER_SIZE)) (mkHS (heap s) m1)) as Egf by (unfold get_prev_footer; erewrite hbind_ok by (apply rd_hdr_ok, upd_eq); done).
      erewrite hbind_ok by exact Egf. rewrite (hbind_ok (get_prev_header a) _ _ (Some p) (mkHS (heap s) m1)).
      * cbn [when_some]. rewrite (alter_run p _ pb); [done|]. cbn [mem]. rewrite Hm1s by lia. by apply HB.
      * unfold get_prev_header. erewrite hbind_ok by exact Egf. cbn. erewrite hbind_ok.
        2: { apply rd_ftr_ok. cbn [mem]. unfold FOOTER_SIZE. rewrite Hm1s by lia. rewrite <- He. apply HB; [done|set_solver]. }
        cbn. do 2 f_equal. lia.
  - rewrite (hbind_ok _ _ _ () (mkHS (heap s) (upd (a + n - 8) (CFtr n false) (upd a (CHdr (mkHeader n false false false)) m0)))); [by eexists|].
    destruct (Z.eqb_spec a (last_address (heap s))) as [E|]; [|done]. destruct Ht as [?| ->]; [congruence|done].
Qed.

Lemma new_region_run L fl U d s a n req k :
  inv [] L fl U d s → fresh a n (mem s) → 0 < a → a mod 8 = 0 → n <= INT_MAX → n mod 8 = 0 → 32 <= req <= n → req mod 8 = 0 → 0 <= k <= req - 16 →
  ∃ s' L' fl' d', new_region a n req s = HOk (a + 8) s' ∧ U !! a = None ∧ inv [] L' fl' (<[a := k]> U) d' s' ∧ agree U d d'.
Proof.
  intros Hi Hf Ha0 Ha8 Hn Hn8 Hr Hr8 Hk. pose proof (inv_blocks _ _ _ _ _ _ Hi) as HB. assert (32 <= n <= INT_MAX) as Hn' by lia.
  destruct (tail_exists L _ a (inv_last _ _ _ _ _ _ Hi)) as [o Ht].
  destruct (region_writes L s a n o (_ ← split a n req; _ ← set_last (a + n); mret (add_offset a)) HB Ht Hf Ha0 Ha8 Hn' Hn8) as (s1 & E1 & Hh1 & Hm1).
  assert (L !! a = None) as Hno. { destruct (L !! a) as [b|] eqn:E; [|done]. destruct (fresh_outside HB Hf Ha0 Ha8 Hn' a b E). lia. }
  assert (U !! a = None) as Hnu. { destruct (U !! a) as [?|] eqn:E; [|done]. destruct (inv_used _ _ _ _ _ _ Hi a _ E) as (_ & b & ? & _). congruence. }
  assert (inv [a] (region_map a n o L) fl U d (with_last (a + n) s1)) as Hi1.
  { eapply inv_same; [|by apply region_frame]. split; [cbn [heap with_last]; by rewrite Hh1|exact Hm1]. }
  destruct (inv_claim [a] [] _ fl U d _ a (region_hdr n o) k Hi1) as (d' & Hi2 & Hag); [apply lookup_insert_eq|done|done| |cbn; lia| |set_solver|].
  { intros Hin. destruct (lo_live _ _ _ _ (inv_list _ _ _ _ _ _ Hi) a Hin). congruence. }
  { cbn [mem with_last region_hdr hsize hfree]. rewrite Hm1. unfold region_mem. destruct o as [[p pb]|]; [|apply upd_eq]. destruct Ht as (_ & _ & Hp & _).
    destruct (fresh_outside HB Hf Ha0 Ha8 Hn' p pb Hp). rewrite upd_ne by lia. apply upd_eq. }
  destruct (split_any [] _ fl _ d' _ a (region_hdr n o) req Hi2) as (s3 & L3 & fl3 & b3 & E3 & _ & Hi3 & _); [apply lookup_insert_eq|done|done| |].
  { intros k'. rewrite lookup_insert_eq. intros [= <-]. lia. }
  exists s3, L3, fl3, d'. split_and!; [|done|done|done]. unfold new_region. rewrite E1. apply split_set_last in E3. cbn [region_hdr hsize] in E3.
  revert E3. unfold mbind, HM_bind. destruct (split a n req s1) as [[] s4| |]; [|done|done]. by intros ->.
Qed.

(** ** Sizes *)

Lemma ALIGN_spec n : ALIGN n = (n + 7) / 8 * 8.
Proof.
  unfold ALIGN. rewrite <- Z.ldiff_land. change 7 with (Z.ones 3) at 2. rewrite Z.ldiff_ones_r, Z.shiftl_mul_pow2, Z.shiftr_div_pow2 by lia. done.
Qed.

Lemma block_size_spec size req : 0 <= size → size_to_block_size size = Some req → 32 <= req <= INT_MAX ∧ req mod 8 = 0 ∧ size <= req - 16.
Proof.
  intros Hs. unfold size_to_block_size. destruct (_ || _); [done|]. cbv zeta. rewrite ALIGN_spec. unfold META_SIZE, MIN_SIZE.
  pose proof (Z.div_mod (size + 16 + 7) 8 ltac:(done)). pose proof (Z.mod_pos_bound (size + 16 + 7) 8 ltac:(done)).
  destruct (INT_MAX <? _) eqn:E; [done|]. apply Z.ltb_ge in E. intros [= <-]. split_and!; [lia|done| |lia].
  destruct (Z.max_spec 32 ((size + 16 + 7) / 8 * 8)) as [[_ ->]|[_ ->]]; [by apply Z.mod_mul|done].
Qed.

(** The bytes that [sdb_heap_malloc] asks for. *)
Definition region_bytes (h : SdbHeap) (req : Z) : Z :=
  clamp_mapped_pages (if last_mapped_size h <? PAGES req then PAGES req else last_mapped_size h) * SDB_PAGE_SIZE.

Lemma region_bytes_spec h req : 0 < req → PAGES req <= MAX_MAPPED_PAGES → req <= region_bytes h req <= INT_MAX ∧ region_bytes h req mod 8 = 0.
Proof.
  intros Hr Hp. unfold region_bytes. set (n := clamp_mapped_pages _). assert (PAGES req <= n <= MAX_MAPPED_PAGES) as Hn.
  { unfold n. set (q := if last_mapped_size h <? PAGES req then PAGES req else last_mapped_size h). unfold clamp_mapped_pages. assert (PAGES req <= q) by (unfold q; destruct (Z.ltb_spec (last_mapped_size h) (PAGES req)); lia).
    destruct (Z.ltb_spec MAX_MAPPED_PAGES q); lia. }
  assert (req <= PAGES req * SDB_PAGE_SIZE) as Hq.
  { unfold PAGES. pose proof (Z.div_mod (req + SDB_PAGE_SIZE - 1) SDB_PAGE_SIZE ltac:(done)). pose proof (Z.mod_pos_bound (req + SDB_PAGE_SIZE - 1) SDB_PAGE_SIZE ltac:(done)). lia. }
  split; [|replace SDB_PAGE_SIZE with (16384 * 8) by done; rewrite Z.mul_assoc; by apply Z.mod_mul].
  assert (MAX_MAPPED_PAGES * SDB_PAGE_SIZE <= INT_MAX) by (vm_compute; done). unfold SDB_PAGE_SIZE in *. nia.
Qed.

(** What [mmap] promises: pages that are not mapped yet, at an aligned address. *)
Definition mmap_ok (mmap : option Z) (bytes : Z) (s : HS) : Prop := ∀ r, mmap = Some r → 0 < r ∧ r mod 8 = 0 ∧ fresh r bytes (mem s).

Definition malloc_mmap_ok (mmap : option Z) (size : Z) (s : HS) : Prop :=
  ∀ req, size_to_block_size size = Some req → mmap_ok mmap (region_bytes (heap s) req) s.

(** ** [sdb_heap_malloc] *)

Definition no_memory (mmap : option Z) (size : Z) : Prop :=
  match size_to_block_size size with None => True | Some req => MAX_MAPPED_PAGES < PAGES req ∨ mmap = None end.

Lemma malloc_run mmap L fl U d s size :
  inv [] L fl U d s → 0 <= size → malloc_mmap_ok mmap size s →
  ∃ p s', (∀ fuel, (length fl < fuel)%nat → sdb_heap_malloc mmap fuel size s = HOk p s')
    ∧ ((p = 0 ∧ no_memory mmap size ∧ mem s' = mem s ∧ inv [] L fl U d s')
       ∨ ∃ a L' fl' d', p = a + 8 ∧ U !! a = None ∧ inv [] L' fl' (<[a := size]> U) d' s' ∧ agree U d d').
Proof.
  intros Hi Hs0 Hmm. unfold sdb_heap_malloc, no_memory. destruct (size_to_block_size size) as [req|] eqn:Hreq; [|exists 0, s; split; [done|by left]].
  destruct (block_size_spec size req Hs0 Hreq) as (Hr & Hr8 & Hsz). destruct (find_run [] L fl U d s req Hi) as (r & Hfind & Hres).
  destruct Hres as [[-> Hall]|(a & b & -> & Hin & Ha & Hle)].
  - destruct (MAX_MAPPED_PAGES <? PAGES req) eqn:Hpg.
    { exists 0, s. split; [|left; split_and!; [done|left; by apply Z.ltb_lt|done|done]]. intros fuel Hfu. erewrite hbind_ok by (by apply Hfind). done. }
    apply Z.ltb_ge in Hpg. destruct (region_bytes_spec (heap s) req ltac:(lia) Hpg) as (Hb & Hb8). set (bytes := region_bytes (heap s) req) in *.
    set (s1 := mkHS (mkHeap (last_address (heap s)) (free_list_start (heap s)) (grow_mapped_pages (clamp_mapped_pages (if last_mapped_size (heap s) <? PAGES req then PAGES req else last_mapped_size (heap s))))) (mem s)).
    assert (inv [] L fl U d s1) as Hi1 by (destruct Hi; by split). destruct mmap as [region|].
    + destruct (Hmm req Hreq region eq_refl) as (Hr0 & Hra & Hfr).
      destruct (new_region_run L fl U d s1 region bytes req size Hi1) as (s2 & L2 & fl2 & d2 & E2 & Hnu & Hi2 & Hag); [exact Hfr|done|done|lia|done|lia|done|lia|].
      exists (region + 8), s2. split; [|right; by exists region, L2, fl2, d2]. intros fuel Hfu. erewrite hbind_ok by (by apply Hfind). exact E2.
    + exists 0, s1. split; [|left; split_and!; [done|by right|done|done]]. intros fuel Hfu. erewrite hbind_ok by (by apply Hfind). done.
  - pose proof (bo_size _ _ _ (inv_blocks _ _ _ _ _ _ Hi) a b Ha) as Hb. destruct (reuse_run L fl U d s a b req size Hi Hin Ha) as (s1 & L1 & fl1 & d1 & E1 & _ & Hi1 & Hag); [lia|done|lia|].
    exists (a + 8), s1. split; [|right; exists a, L1, fl1, d1; split_and!; try done; by eapply not_used_in_list].
    intros fuel Hfu. erewrite hbind_ok by (by apply Hfind). rewrite (proj2 (Z.eqb_neq _ _)) by lia. cbn [negb]. unfold remove_offset, HEADER_SIZE. replace (a + 8 - 8) with a by lia. exact E1.
Qed.
