(* ===== verification/HeapRealloc.v ===== *)
(** * Resizing, and the states of an allocator that is used *)

From S2P Require Import Prelude Heap HeapInv HeapBlocks HeapOps HeapAlloc.

(** ** The user writes *)

(** The memory changes in the data of one block in use. *)
Lemma inv_store X L fl U d s a n m' :
  inv X L fl U d s → U !! a = Some n → (∀ x, x < a + 8 ∨ a + 8 + n <= x → m' x = mem s x) → (∀ x, is_Some (mem s x) → is_Some (m' x)) →
  ∃ d', inv X L fl U d' (mkHS (heap s) m') ∧ agree (delete a U) d d'.
Proof.
  intros [HB HL HU HC HA] Hu Hm Hms. destruct (HU a n Hu) as (Hnf & b & Ha & _ & Hn & _).
  exists (λ x, if (a + 8 <=? x) && (x <? a + 8 + n) then m' x else d x).
  assert (∀ c bc x, L !! c = Some bc → c ≠ a → rng c bc x → x < a + 8 ∨ a + 8 + n <= x) as Hout.
  { intros c bc x Hc Hne Hx. unfold rng in Hx. destruct (outside X L (mem s) a b c bc HB Ha Hc Hne) as (? & ? & ?). lia. }
  assert (∀ c k x, U !! c = Some k → c ≠ a → c + 8 <= x < c + 8 + k → x < a + 8 ∨ a + 8 + n <= x) as Hdat.
  { intros c k x Hc Hne Hx. destruct (HU c k Hc) as (_ & bc & Hbc & _ & Hk & _). apply (Hout c bc); [done|done|unfold rng; lia]. }
  split.
  - split; cbn [mem heap]; [| | |done|done].
    + split; try apply HB.
      * intros c bc Hc. rewrite Hm; [by apply HB|]. destruct (decide (c = a)) as [->|Hne]; [lia|]. apply (Hout c bc); [done|done|by eapply hdr_rng].
      * intros c bc Hc Hcx. rewrite Hm; [by apply HB|]. destruct (decide (c = a)) as [->|Hne]; [assert (bc = b) as -> by congruence; lia|]. apply (Hout c bc); [done|done|by eapply ftr_rng].
      * intros c bc x Hc Hx Hx8. apply Hms. by eapply HB.
    + eapply list_frame; [done|apply HL|]. intros c x Hc Hx. apply Hm. destruct (lo_live _ _ _ _ HL c Hc) as [bc Hbc].
      apply (Hout c bc); [done|by intros ->|eapply payload_rng, link_payload; eauto].
    + intros c k Hc. destruct (HU c k Hc) as (Hf & bc & Hbc & Hfr & Hk & Hd). split; [done|]. exists bc. split_and!; [done|done|lia|lia|]. intros x Hx.
      destruct ((a + 8 <=? x) && (x <? a + 8 + n)) eqn:E; [done|]. rewrite <- (Hd x Hx). apply Hm. apply andb_false_iff in E as [?%Z.leb_gt|?%Z.ltb_ge]; lia.
  - intros c k x [Hne Hc]%lookup_delete_Some Hx. destruct (Hdat c k x Hc ltac:(done) Hx); [rewrite (proj2 (Z.leb_gt _ _)) by lia; done|].
    rewrite (proj2 (Z.ltb_ge x _)) by lia. by rewrite andb_false_r.
Qed.

(** ** A block in use gets another size *)

Lemma inv_resize X L fl U d s a n b k :
  inv X L fl U d s → U !! a = Some n → L !! a = Some b → 0 <= k <= hsize b - 16 → ∃ d', inv X L fl (<[a := k]> U) d' s ∧ agree U d d'.
Proof.
  intros [HB HL HU HC HA] Hu Ha Hk. exists (λ x, if (a + 8 <=? x) && (x <? a + 8 + k) then mem s x else d x).
  assert (∀ c j x, U !! c = Some j → c + 8 <= x < c + 8 + j → (if (a + 8 <=? x) && (x <? a + 8 + k) then mem s x else d x) = d x) as Hag.
  { intros c j x Hc Hx. destruct (HU c j Hc) as (_ & bc & Hbc & _ & Hj & Hd). destruct (_ && _); [by apply Hd|done]. }
  split; [|exact Hag]. split; [done|done| | |done].
  - intros c j [[<- <-]|[Hne Hc]]%lookup_insert_Some.
    + destruct (HU a n Hu) as (Hnf & b0 & Hb0 & Hf & _). assert (b0 = b) as -> by congruence. split; [done|]. exists b. split_and!; [done|done|lia|lia|].
      intros x Hx. rewrite (proj2 (andb_true_iff _ _)); [done|]. rewrite Z.leb_le, Z.ltb_lt. lia.
    + destruct (HU c j Hc) as (Hf' & bc & Hbc & Hfr & Hj & Hd). split; [done|]. exists bc. split_and!; [done|done|lia|lia|]. intros x Hx. rewrite (Hag c j) by done. by apply Hd.
  - intros c bc Hc. destruct (HC c bc Hc) as [?|[?|?]]; [by left|by right; left|]. right; right. destruct (decide (c = a)) as [->|]; [by rewrite lookup_insert_eq|by rewrite lookup_insert_ne].
Qed.

(** ** The block behind is taken in *)

Lemma footer_run L fl U d s a b :
  inv [a] L fl U d s → L !! a = Some b → is_Some (U !! a) →
  ∃ s', wr (a + hsize b - FOOTER_SIZE) (CFtr (hsize b) (hfree b)) s = HOk () s' ∧ inv [] L fl U d s'.
Proof.
  intros Hi Ha Hu. pose proof (inv_blocks _ _ _ _ _ _ Hi) as HB. eexists. split; [apply wr_ok; by eapply ftr_mapped|]. unfold FOOTER_SIZE.
  destruct (rest_frame [a] L L fl U d s (upd (a + hsize b - 8) (CFtr (hsize b) (hfree b)) (mem s)) Hi) as [HL2 HU2].
  - intros c x Hc Hx. destruct (link_in_payload _ _ _ _ _ _ _ _ Hi Hc Hx) as (bc & Hbc & Hpx). apply upd_ne. eapply (meta_payload [a] L (mem s) a b c bc); eauto.
  - intros c k x Hc Hx. destruct (data_in_payload _ _ _ _ _ _ _ _ _ Hi Hc Hx) as (bc & Hbc & Hpx). apply upd_ne. eapply (meta_payload [a] L (mem s) a b c bc); eauto.
  - intros c bc Hc _. exists bc. split; [done|]. intros k Hk. destruct (inv_used _ _ _ _ _ _ Hi c k Hk) as (_ & b0 & Hb0 & ? & ? & _). assert (b0 = bc) as -> by congruence. split; [done|lia].
  - split; cbn [mem heap]; [eapply blocks_ftr; [done|done|set_solver]|done|done| |apply Hi].
    intros c bc Hc. destruct (inv_cover _ _ _ _ _ _ Hi c bc Hc) as [->%list_elem_of_singleton|?]; [by right; right|by right].
Qed.

Lemma grow_run L fl U d s a b nb n req size :
  inv [] L fl U d s → U !! a = Some n → L !! a = Some b → has_next b = true → L !! (a + hsize b) = Some nb → hfree nb = true → hsize b + hsize nb <= INT_MAX →
  32 <= req <= hsize b + hsize nb → req mod 8 = 0 → n <= size <= req - 16 →
  ∃ s' L' fl' d', grow_in_place a (a + hsize b) (hsize b + hsize nb) req s = HOk () s' ∧ inv [] L' fl' (<[a := size]> U) d' s' ∧ agree U d d'.
Proof.
  intros Hi Hu Ha Hlink Hnb Hfn Hmax Hr Hr8 Hsz. destruct (inv_used _ _ _ _ _ _ Hi a n Hu) as (Hnf & b0 & Hb0 & Hfr & Hn & _). assert (b0 = b) as -> by congruence.
  destruct (absorb_next_run [] [a] L fl U d s a b nb) as (s1 & fl1 & E1 & _ & Hi1 & Hfl1); [done|done|done|done| |done|set_solver|set_solver|].
  { eapply free_in_list; eauto. set_solver. }
  assert (merge_map a b nb L !! a = Some (merged b nb)) as Ha1 by apply merge_new.
  destruct (footer_run _ fl1 U d s1 a (merged b nb) Hi1 Ha1) as (s2 & E2 & Hi2); [done|].
  destruct (split_any [] _ fl1 U d s2 a (merged b nb) req Hi2 Ha1) as (s3 & L3 & fl3 & b3 & E3 & _ & Hi3 & Ha3 & Hle3 & Hf3 & _); [done|done|intros k Hk; assert (k = n) as -> by congruence; lia|].
  destruct (setFree_run [] [] L3 fl3 U d s3 a b3 false) as (s4 & E4 & _ & Hi4 & _); [done|done|by right|set_solver|by right; right|].
  destruct (inv_resize [] _ fl3 U d s4 a n (set_free false b3) size Hi4 Hu) as (d' & Hi5 & Hag); [apply lookup_insert_eq|cbn; lia|].
  eexists s4, _, fl3, d'. split_and!; [|exact Hi5|exact Hag]. unfold grow_in_place. erewrite hbind_ok by done.
  erewrite hbind_ok by (apply rd_hdr_ok; by apply (bo_hdr _ _ _ (inv_blocks _ _ _ _ _ _ Hi1))). cbn [merged hfree] in E2. rewrite Hfr in E2.
  erewrite hbind_ok by exact E2. cbn [merged hsize] in E3. by erewrite hbind_ok by exact E3.
Qed.

(** ** Copying *)

Definition copied (n to from : Z) (m : Z → option cell) : Z → option cell :=
  λ x, if (to <=? x) && (x <? to + 8 * n) && ((x - to) mod 8 =? 0) then m (x - to + from) else m x.

Lemma copy_run n to from s :
  (∀ i, 0 <= i < Z.of_nat n → is_Some (mem s (to + 8 * i)) ∧ is_Some (mem s (from + 8 * i))) → (to + 8 * Z.of_nat n <= from ∨ from + 8 * Z.of_nat n <= to) →
  ∃ s', copy_words n to from s = HOk () s' ∧ heap s' = heap s ∧ ∀ x, mem s' x = copied (Z.of_nat n) to from (mem s) x.
Proof.
  revert to from s. induction n as [|n IH]; intros to from s Hm Hd.
  - exists s. split_and!; [done|done|]. intros x. unfold copied. rewrite (proj2 (andb_false_iff _ _)); [done|]. left.
    destruct (Z.leb_spec to x), (Z.ltb_spec x (to + 8 * Z.of_nat 0)); try done. lia.
  - destruct (Hm 0 ltac:(lia)) as [Ht [c Hc]]. rewrite !Z.add_0_r in *. cbn [copy_words]. rewrite Hc. erewrite hbind_ok by (by apply wr_ok).
    set (s1 := mkHS (heap s) (upd to c (mem s))). destruct (IH (to + 8) (from + 8) s1) as (s2 & E2 & Hh2 & Hm2).
    + intros i Hi. cbn [mem s1]. replace (to + 8 + 8 * i) with (to + 8 * (i + 1)) by lia. replace (from + 8 + 8 * i) with (from + 8 * (i + 1)) by lia.
      split; apply upd_is_Some, Hm; lia.
    + lia.
    + exists s2. split_and!; [done|done|]. intros x. rewrite Hm2. unfold copied. cbn [mem s1].
      destruct (decide (x = to)) as [->|Hne].
      * rewrite (proj2 (Z.leb_gt (to + 8) to)) by lia. cbn [andb]. rewrite upd_eq, Z.leb_refl, (proj2 (Z.ltb_lt _ _)) by lia. rewrite Z.sub_diag. cbn [Z.modulo Z.eqb andb Z.div_eucl snd].
        by rewrite Z.add_0_l, Hc.
      * assert ((x - (to + 8)) mod 8 = (x - to) mod 8) as -> by (replace (x - (to + 8)) with (x - to + (-1) * 8) by lia; by rewrite Z.mod_add).
        destruct ((x - to) mod 8 =? 0) eqn:E8; [|by rewrite !andb_false_r, upd_ne]. rewrite !andb_true_r. apply Z.eqb_eq in E8.
        assert ((to + 8 <=? x) && (x <? to + 8 + 8 * Z.of_nat n) = (to <=? x) && (x <? to + 8 * Z.of_nat (S n))) as ->.
        { pose proof (Z.div_mod (x - to) 8 ltac:(done)). destruct (Z.leb_spec to x), (Z.leb_spec (to + 8) x), (Z.ltb_spec x (to + 8 + 8 * Z.of_nat n)), (Z.ltb_spec x (to + 8 * Z.of_nat (S n))); cbn; try done; lia. }
        destruct (_ && _) eqn:E; [|by rewrite upd_ne]. apply andb_true_iff in E as [?%Z.leb_le ?%Z.ltb_lt]. rewrite upd_ne by lia. f_equal. lia.
Qed.

(** The contents of a block are copied to another one that is longer, and the block is freed. *)
Lemma move_run L fl U d s a a' k size :
  inv [] L fl U d s → U !! a = Some k → U !! a' = Some size → a ≠ a' → k mod 8 = 0 → 0 <= k < size →
  ∃ s' L' fl' d', (_ ← copy_words (Z.to_nat (k / 8)) (a' + 8) (a + 8); _ ← sdb_heap_free (a + 8); mret (a' + 8)) s = HOk (a' + 8) s'
    ∧ inv [] L' fl' (delete a U) d' s' ∧ agree (delete a' U) d d' ∧ ∀ i, 0 <= i < k → i mod 8 = 0 → d' (a' + 8 + i) = d (a + 8 + i).
Proof.
  intros Hi Hu Hu' Hne Hk8 Hk. pose proof (inv_blocks _ _ _ _ _ _ Hi) as HB. destruct (inv_used _ _ _ _ _ _ Hi a k Hu) as (_ & b & Ha & _ & Hkb & Hd).
  destruct (inv_used _ _ _ _ _ _ Hi a' size Hu') as (_ & b' & Ha' & _ & Hsb & Hd').
  destruct (bo_size _ _ _ HB a b Ha) as (_ & Ha8 & _). destruct (bo_size _ _ _ HB a' b' Ha') as (_ & Ha8' & _). pose proof (bo_disj _ _ _ HB a b a' b' Ha Ha' Hne) as Hdj.
  assert (8 * (k / 8) = k) as Hk'. { pose proof (Z.div_mod k 8 ltac:(done)). lia. }
  assert (∀ c bc i, L !! c = Some bc → c mod 8 = 0 → 0 <= i < k / 8 → k <= hsize bc - 16 → is_Some (mem s (c + 8 + 8 * i))) as Hmap.
  { intros c bc i Hc Hc8 Hi' Hkc. eapply (bo_map _ _ _ HB c bc); [done|unfold rng; lia|]. apply mod8_add; [by apply mod8_add|]. rewrite Z.mul_comm. by apply Z.mod_mul. }
  destruct (copy_run (Z.to_nat (k / 8)) (a' + 8) (a + 8) s) as (s1 & E1 & Hh1 & Hm1); [|lia|].
  { intros i. rewrite Z2Nat.id by lia. intros Hi'. split; [apply (Hmap a' b')|apply (Hmap a b)]; try done; lia. }
  rewrite Z2Nat.id in Hm1 by lia. destruct (inv_store [] L fl U d s a' size (mem s1) Hi Hu') as (d1 & Hi1 & Hag).
  { intros x Hx. rewrite Hm1. unfold copied. rewrite (proj2 (andb_false_iff _ _)); [done|]. left. destruct (Z.leb_spec (a' + 8) x), (Z.ltb_spec x (a' + 8 + 8 * (k / 8))); try done. lia. }
  { intros x Hx. rewrite Hm1. unfold copied. destruct (_ && _) eqn:E; [|done]. rewrite !andb_true_iff, Z.leb_le, Z.ltb_lt, Z.eqb_eq in E. destruct E as ((? & ?) & E8).
    pose proof (Z.div_mod (x - (a' + 8)) 8 ltac:(done)). replace (x - (a' + 8) + (a + 8)) with (a + 8 + 8 * ((x - (a' + 8)) / 8)) by lia. apply (Hmap a b); [done|done|lia|lia]. }
  destruct (free_run L fl U d1 s1 a k) as (s2 & L2 & fl2 & E2 & Hi2); [by eapply inv_same; [|exact Hi1]|done|].
  exists s2, L2, fl2, d1. split_and!; [|done|done|].
  - erewrite hbind_ok by done. by erewrite hbind_ok by done.
  - intros i Hi' Hi8. destruct (inv_used _ _ _ _ _ _ Hi1 a' size Hu') as (_ & _ & _ & _ & _ & Hd1). rewrite <- Hd1 by lia. cbn [mem]. rewrite Hm1. unfold copied.
    rewrite (proj2 (andb_true_iff _ _)); [rewrite <- Hd by lia; f_equal; lia|]. rewrite andb_true_iff, Z.leb_le, Z.ltb_lt, Z.eqb_eq. replace (a' + 8 + i - (a' + 8)) with i by lia. lia.
Qed.

(** ** [sdb_heap_realloc] of a block in use *)

Definition same_data (a n a' size : Z) (d d' : Z → option cell) : Prop := ∀ i, 0 <= i < n → i < size → i mod 8 = 0 → d' (a' + 8 + i) = d (a + 8 + i).

Lemma realloc_move mmap L fl U d s a n b size :
  inv [] L fl U d s → U !! a = Some n → L !! a = Some b → hsize b - 8 - 8 < size → malloc_mmap_ok mmap size s →
  ∃ p s', (∀ fuel, (length fl < fuel)%nat →
      (new_ptr ← sdb_heap_malloc mmap fuel size;
       if new_ptr =? 0 then mret 0
       else
         _ ← copy_words (Z.to_nat (Z.min (hsize b - 8 - 8) size / 8)) new_ptr (a + 8);
         _ ← sdb_heap_free (a + 8);
         mret new_ptr) s = HOk p s')
    ∧ ((p = 0 ∧ no_memory mmap size ∧ inv [] L fl U d s')
       ∨ ∃ a' L' fl' d', p = a' + 8 ∧ U !! a' = None ∧ inv [] L' fl' (<[a' := size]> (delete a U)) d' s' ∧ agree (delete a U) d d' ∧ same_data a n a' size d d').
Proof.
  intros Hi Hu Ha Hlt Hmm. pose proof (inv_blocks _ _ _ _ _ _ Hi) as HB. destruct (inv_used _ _ _ _ _ _ Hi a n Hu) as (_ & b0 & Hb0 & _ & Hn & Hd). assert (b0 = b) as -> by congruence.
  destruct (bo_size _ _ _ HB a b Ha) as (_ & _ & Hb & Hb8). replace (hsize b - 8 - 8) with (hsize b - 16) in * by lia. set (k := hsize b - 16) in *.
  destruct (inv_resize [] L fl U d s a n b k Hi Hu Ha) as (d0 & Hi0 & Hag0); [lia|]. rewrite Z.min_l by lia.
  destruct (malloc_run mmap L fl (<[a := k]> U) d0 s size Hi0) as (p & s1 & E1 & Hres); [lia|done|]. destruct Hres as [(-> & Hno & Hm & Hi1)|(a' & L1 & fl1 & d1 & -> & Hnu & Hi1 & Hag1)].
  - exists 0, s1. split; [intros fuel Hfu; by erewrite hbind_ok by (by apply E1)|]. left. split_and!; [done|done|]. destruct Hi1 as [HB1 HL1 HU1 HC1 HA1]. split; [done|done| | |done].
    + rewrite Hm. apply Hi.
    + apply Hi.
  - assert (a' ≠ a) as Hne by (intros ->; by rewrite lookup_insert_eq in Hnu). rewrite lookup_insert_ne in Hnu by done.
    destruct (move_run L1 fl1 _ d1 s1 a a' k size Hi1) as (s2 & L2 & fl2 & d2 & E2 & Hi2 & Hag2 & Hcp);
      [by rewrite lookup_insert_ne, lookup_insert_eq|apply lookup_insert_eq|done|by apply mod8_sub|lia|].
    assert (delete a (<[a' := size]> (<[a := k]> U)) = <[a' := size]> (delete a U)) as EU by (rewrite delete_insert_ne by done; by rewrite delete_insert_eq).
    exists (a' + 8), s2. split; [|right; exists a', L2, fl2, d2; split_and!; [done|done|by rewrite EU in Hi2| |]].
    + intros fuel Hfu. erewrite hbind_ok by (by apply E1). destruct (inv_used _ _ _ _ _ _ Hi1 a' size) as (_ & b' & Hb' & _); [apply lookup_insert_eq|].
      pose proof (bo_size _ _ _ (inv_blocks _ _ _ _ _ _ Hi1) a' b' Hb'). rewrite (proj2 (Z.eqb_neq _ _)) by lia. exact E2.
    + intros c j x [Hca Hc]%lookup_delete_Some Hx. assert (c ≠ a') by congruence.
      rewrite (Hag2 c j x); [|by rewrite lookup_delete_ne, lookup_insert_ne, lookup_insert_ne by done|done]. rewrite (Hag1 c j x); [|by rewrite lookup_insert_ne by done|done]. by apply (Hag0 c j).
    + intros i Hi1' Hi2' Hi8. rewrite (Hcp i) by (done || lia). rewrite (Hag1 a k); [|apply lookup_insert_eq|lia]. apply (Hag0 a n); [done|lia].
Qed.

Lemma realloc_run mmap L fl U d s a n size :
  inv [] L fl U d s → U !! a = Some n → 0 < size → malloc_mmap_ok mmap size s →
  ∃ p s', (∀ fuel, (length fl < fuel)%nat → sdb_heap_realloc mmap fuel (a + 8) size s = HOk p s')
    ∧ ((p = 0 ∧ no_memory mmap size ∧ inv [] L fl U d s')
       ∨ ∃ a' L' fl' d', p = a' + 8 ∧ (a' = a ∨ U !! a' = None) ∧ inv [] L' fl' (<[a' := size]> (delete a U)) d' s'
           ∧ agree (delete a U) d d' ∧ same_data a n a' size d d').
Proof.
  intros Hi Hu Hs0 Hmm. pose proof (inv_blocks _ _ _ _ _ _ Hi) as HB. destruct (inv_used _ _ _ _ _ _ Hi a n Hu) as (Hnf & b & Ha & Hfr & Hn & Hd).
  destruct (bo_size _ _ _ HB a b Ha) as (Ha0 & Ha8 & Hb & Hb8). unfold sdb_heap_realloc. rewrite (proj2 (Z.eqb_neq _ _)) by lia. rewrite (proj2 (Z.eqb_neq size 0)) by lia.
  destruct (size_to_block_size size) as [req|] eqn:Hreq; [|exists 0, s; split; [done|left; unfold no_memory; by rewrite Hreq]].
  destruct (block_size_spec size req ltac:(lia) Hreq) as (Hr & Hr8 & Hsz).
  assert (∀ d', agree U d d' → agree (delete a U) d d' ∧ same_data a n a size d d') as Hwk.
  { intros d' Hag. split; [intros c k x [_ Hc]%lookup_delete_Some; by apply Hag|]. intros i Hi1 _ _. apply (Hag a n); [done|lia]. }
  unfold remove_offset, HEADER_SIZE, FOOTER_SIZE. replace (a + 8 - 8) with a by lia. cbv zeta.
  assert (rd_hdr a s = HOk b s) as Erd by (apply rd_hdr_ok; by apply HB). destruct (Z.leb_spec size (hsize b - 8 - 8)) as [Hle|Hgt].
  { destruct (inv_resize [] L fl U d s a n b size Hi Hu Ha) as (d' & Hi' & Hag); [lia|]. exists (a + 8), s. split.
    - intros fuel _. erewrite hbind_ok by exact Erd. by rewrite (proj2 (Z.leb_le _ _)).
    - right. exists a, L, fl, d'. rewrite insert_delete_eq. split_and!; [done|by left|done|by apply Hwk|by apply Hwk]. }
  destruct (realloc_move mmap L fl U d s a n b size Hi Hu Ha Hgt Hmm) as (p & s1 & E1 & Hres).
  assert ((p = 0 ∧ no_memory mmap size ∧ inv [] L fl U d s1) ∨ ∃ a' L' fl' d', p = a' + 8 ∧ (a' = a ∨ U !! a' = None) ∧ inv [] L' fl' (<[a' := size]> (delete a U)) d' s1
    ∧ agree (delete a U) d d' ∧ same_data a n a' size d d') as Hres' by naive_solver.
  assert (get_next_header a s = HOk (if has_next b then Some (a + hsize b) else None) s) as Enx by (unfold get_next_header; by erewrite hbind_ok by exact Erd).
  destruct (has_next b) eqn:Hnx.
  2: { exists p, s1. split; [|exact Hres']. intros fuel Hfu. erewrite hbind_ok by exact Erd. rewrite (proj2 (Z.leb_gt _ _)) by lia. erewrite hbind_ok by exact Enx.
       erewrite hbind_ok by done. by apply E1. }
  destruct (bo_next _ _ _ HB a b Ha Hnx) as (nb & Hnb & _). assert (rd_hdr (a + hsize b) s = HOk nb s) as Ernb by (apply rd_hdr_ok; by apply HB).
  destruct (hfree nb && can_merge b nb && (req <=? hsize b + hsize nb)) eqn:Hg.
  - apply andb_true_iff in Hg as [[Hfn Hcm%can_merge_iff]%andb_true_iff Hle%Z.leb_le].
    destruct (grow_run L fl U d s a b nb n req size) as (s2 & L2 & fl2 & d2 & E2 & Hi2 & Hag); [done..|lia|done|lia|].
    exists (a + 8), s2. split; [|right; exists a, L2, fl2, d2; rewrite insert_delete_eq; split_and!; [done|by left|done|by apply Hwk|by apply Hwk]].
    intros fuel _. erewrite hbind_ok by exact Erd. rewrite (proj2 (Z.leb_gt _ _)) by lia. erewrite hbind_ok by exact Enx. erewrite hbind_ok; [|erewrite hbind_ok by exact Ernb].
    2: { rewrite (proj2 (andb_true_iff _ _)) by (rewrite andb_true_iff, can_merge_iff, Z.leb_le; done). erewrite hbind_ok by exact E2. done. }
    done.
  - exists p, s1. split; [|exact Hres']. intros fuel Hfu. erewrite hbind_ok by exact Erd. rewrite (proj2 (Z.leb_gt _ _)) by lia. erewrite hbind_ok by exact Enx.
    rewrite (hbind_ok _ _ s false s); [by apply E1|]. erewrite hbind_ok by exact Ernb. by rewrite Hg.
Qed.
