(* ===== verification/HeapUse.v ===== *)
(** * The allocator and its users

    What the functions of the allocator promise to the code that calls them, and that any
    sequence of calls and writes keeps those promises.  A user owns blocks, each at an
    address and of a size it asked for: [U] maps the address of the header, 8 bytes below
    the pointer the user has, to that size. *)

From S2P Require Import Prelude Heap HeapInv HeapBlocks HeapOps HeapAlloc HeapRealloc.

Definition heap_ok (U : gmap Z Z) (s : HS) : Prop := ∃ L fl, inv [] L fl U (mem s) s.

(** The data of the blocks of [U] is what it was. *)
Definition keeps (U : gmap Z Z) (s s' : HS) : Prop := agree U (mem s) (mem s').

Lemma inv_now X L fl U d s : inv X L fl U d s → inv X L fl U (mem s) s.
Proof.
  intros [HB HL HU HC HA]. split; [done|done| |done|done]. intros a n Ha. destruct (HU a n Ha) as (Hf & b & Hb & Hfr & Hn & _). split; [done|]. by exists b.
Qed.

Lemma inv_heap_ok L fl U d s : inv [] L fl U d s → heap_ok U s.
Proof. intros Hi. exists L, fl. by eapply inv_now. Qed.

Lemma inv_data X L fl U d s a n x : inv X L fl U d s → U !! a = Some n → a + 8 <= x < a + 8 + n → mem s x = d x.
Proof. intros Hi Ha Hx. destruct (inv_used _ _ _ _ _ _ Hi a n Ha) as (_ & _ & _ & _ & _ & Hd). by apply Hd. Qed.

(** ** The blocks a user owns *)

Record owned_ok (U : gmap Z Z) (s : HS) : Prop := {
  oo_aligned a n : U !! a = Some n → 0 < a ∧ a mod 8 = 0 ∧ 0 <= n;
  oo_mapped a n x : U !! a = Some n → a + 8 <= x < a + 8 + n → x mod 8 = 0 → is_Some (mem s x);
  oo_disjoint a n a' n' : U !! a = Some n → U !! a' = Some n' → a ≠ a' → a + 8 + n <= a' ∨ a' + 8 + n' <= a
}.

Lemma heap_owned U s : heap_ok U s → owned_ok U s.
Proof.
  intros (L & fl & Hi). pose proof (inv_blocks _ _ _ _ _ _ Hi) as HB. split.
  - intros a n Ha. destruct (inv_used _ _ _ _ _ _ Hi a n Ha) as (_ & b & Hb & _ & Hn & _). pose proof (bo_size _ _ _ HB a b Hb). split_and!; lia.
  - intros a n x Ha Hx Hx8. destruct (inv_used _ _ _ _ _ _ Hi a n Ha) as (_ & b & Hb & _ & Hn & _). eapply (bo_map _ _ _ HB a b); [done|unfold rng; lia|done].
  - intros a n a' n' Ha Ha' Hne. destruct (inv_used _ _ _ _ _ _ Hi a n Ha) as (_ & b & Hb & _ & Hn & _), (inv_used _ _ _ _ _ _ Hi a' n' Ha') as (_ & b' & Hb' & _ & Hn' & _).
    destruct (bo_disj _ _ _ HB a b a' b' Hb Hb' Hne); lia.
Qed.

Definition init_state : HS := mkHS (mkHeap 0 0 1) (λ _, None).

Lemma init_ok s0 : mem s0 = (λ _, None) → ∃ s, sdb_heap_init s0 = HOk () s ∧ heap_ok ∅ s.
Proof.
  intros Hm. exists (mkHS (mkHeap 0 0 1) (mem s0)). split; [done|]. exists ∅, []. split; cbn.
  - split; intros *; by rewrite ?lookup_empty.
  - split; [done|done|set_solver|by apply NoDup_nil].
  - intros a n. by rewrite lookup_empty.
  - intros a b. by rewrite lookup_empty.
  - by left.
Qed.

(** ** What the functions promise *)

Lemma malloc_ok mmap U s size :
  heap_ok U s → 0 <= size → malloc_mmap_ok mmap size s →
  ∃ p s' k, (∀ fuel, (k <= fuel)%nat → sdb_heap_malloc mmap fuel size s = HOk p s') ∧ keeps U s s'
    ∧ ((p = 0 ∧ no_memory mmap size ∧ heap_ok U s') ∨ (p ≠ 0 ∧ U !! (p - 8) = None ∧ heap_ok (<[p - 8 := size]> U) s')).
Proof.
  intros (L & fl & Hi) Hs Hmm. destruct (malloc_run mmap L fl U (mem s) s size Hi Hs Hmm) as (p & s' & E & Hres). exists p, s', (S (length fl)).
  split; [intros fuel Hfu; apply E; lia|]. destruct Hres as [(-> & Hno & Hm & Hi')|(a & L' & fl' & d' & -> & Hnu & Hi' & Hag)].
  - split; [intros c n x _ _; by rewrite Hm|]. left. split_and!; [done|done|by eapply inv_heap_ok].
  - split.
    + intros c n x Hc Hx. rewrite <- (Hag c n x Hc Hx). eapply inv_data; [done| |done]. rewrite lookup_insert_ne; [done|]. congruence.
    + right. replace (a + 8 - 8) with a by lia. split_and!; [|done|by eapply inv_heap_ok].
      destruct (oo_aligned _ _ (heap_owned _ _ (inv_heap_ok _ _ _ _ _ Hi')) a size); [apply lookup_insert_eq|lia].
Qed.

Lemma free_ok U s p n :
  heap_ok U s → U !! (p - 8) = Some n → ∃ s', sdb_heap_free p s = HOk () s' ∧ heap_ok (delete (p - 8) U) s' ∧ keeps (delete (p - 8) U) s s'.
Proof.
  intros (L & fl & Hi) Hp. destruct (free_run L fl U (mem s) s (p - 8) n Hi Hp) as (s' & L' & fl' & E & Hi'). replace (p - 8 + 8) with p in E by lia.
  exists s'. split_and!; [done|by eapply inv_heap_ok|]. intros c k x Hc Hx. by eapply inv_data.
Qed.

Lemma realloc_ok mmap U s p n size :
  heap_ok U s → U !! (p - 8) = Some n → 0 < size → malloc_mmap_ok mmap size s →
  ∃ q s' k, (∀ fuel, (k <= fuel)%nat → sdb_heap_realloc mmap fuel p size s = HOk q s') ∧ keeps (delete (p - 8) U) s s'
    ∧ ((q = 0 ∧ no_memory mmap size ∧ heap_ok U s' ∧ keeps U s s')
       ∨ (q ≠ 0 ∧ (q = p ∨ U !! (q - 8) = None) ∧ heap_ok (<[q - 8 := size]> (delete (p - 8) U)) s'
          ∧ ∀ i, 0 <= i < n → i < size → i mod 8 = 0 → mem s' (q + i) = mem s (p + i))).
Proof.
  intros (L & fl & Hi) Hp Hs Hmm. destruct (realloc_run mmap L fl U (mem s) s (p - 8) n size Hi Hp Hs Hmm) as (q & s' & E & Hres). replace (p - 8 + 8) with p in E by lia.
  exists q, s', (S (length fl)). split; [intros fuel Hfu; apply E; lia|]. destruct Hres as [(-> & Hno & Hi')|(a & L' & fl' & d' & -> & Hnu & Hi' & Hag & Hsd)].
  - split; [intros c k x [_ Hc]%lookup_delete_Some Hx; by eapply inv_data|]. left. split_and!; [done|done|by eapply inv_heap_ok|]. intros c k x Hc Hx. by eapply inv_data.
  - assert (0 < a) by (eapply (oo_aligned _ _ (heap_owned _ _ (inv_heap_ok _ _ _ _ _ Hi')) a size), lookup_insert_eq). split.
    + intros c k x Hc Hx. rewrite <- (Hag c k x Hc Hx). apply lookup_delete_Some in Hc as [Hne Hc]. assert (a ≠ c) by (destruct Hnu as [->|Hnu]; congruence).
      eapply inv_data; [done| |done]. rewrite lookup_insert_ne by done. by apply lookup_delete_Some.
    + right. replace (a + 8 - 8) with a by lia. split_and!; [lia|destruct Hnu as [->|?]; [left; lia|by right]|by eapply inv_heap_ok|].
      intros i Hi1 Hi2 Hi8. rewrite <- (Z.sub_simpl_r p 8). rewrite <- Hsd by done. eapply inv_data; [done|apply lookup_insert_eq|lia].
Qed.

Lemma store_ok U s p n x c :
  heap_ok U s → U !! (p - 8) = Some n → p <= x < p + n → x mod 8 = 0 → ∃ s', wr x c s = HOk () s' ∧ heap_ok U s' ∧ keeps (delete (p - 8) U) s s'.
Proof.
  intros Hok Hp Hx Hx8. pose proof (heap_owned U s Hok) as Ho. destruct Hok as (L & fl & Hi). eexists. split; [apply wr_ok; eapply (oo_mapped _ _ Ho (p - 8) n); [done|lia|done]|].
  destruct (inv_store [] L fl U (mem s) s (p - 8) n (upd x c (mem s)) Hi Hp) as (d' & Hi' & Hag); [intros y Hy; apply upd_ne; lia|intros y; apply upd_is_Some|].
  split; [by eapply inv_heap_ok|]. intros a k y Ha Hy. rewrite <- (Hag a k y Ha Hy). apply lookup_delete_Some in Ha as [_ Ha]. by eapply inv_data.
Qed.

(** ** The interface *)

(** What a user of the allocator relies on, [ok U s] being the states in which it owns [U]. *)
Class HeapContract (ok : gmap Z Z → HS → Prop) : Prop := {
  hc_owned U s : ok U s → owned_ok U s;
  hc_malloc mmap U s size : ok U s → 0 <= size → malloc_mmap_ok mmap size s →
    ∃ p s' k, (∀ fuel, (k <= fuel)%nat → sdb_heap_malloc mmap fuel size s = HOk p s') ∧ keeps U s s'
      ∧ ((p = 0 ∧ no_memory mmap size ∧ ok U s') ∨ (p ≠ 0 ∧ U !! (p - 8) = None ∧ ok (<[p - 8 := size]> U) s'));
  hc_free U s p n : ok U s → U !! (p - 8) = Some n →
    ∃ s', sdb_heap_free p s = HOk () s' ∧ ok (delete (p - 8) U) s' ∧ keeps (delete (p - 8) U) s s';
  hc_realloc mmap U s p n size : ok U s → U !! (p - 8) = Some n → 0 < size → malloc_mmap_ok mmap size s →
    ∃ q s' k, (∀ fuel, (k <= fuel)%nat → sdb_heap_realloc mmap fuel p size s = HOk q s') ∧ keeps (delete (p - 8) U) s s'
      ∧ ((q = 0 ∧ no_memory mmap size ∧ ok U s' ∧ keeps U s s')
         ∨ (q ≠ 0 ∧ (q = p ∨ U !! (q - 8) = None) ∧ ok (<[q - 8 := size]> (delete (p - 8) U)) s'
            ∧ ∀ i, 0 <= i < n → i < size → i mod 8 = 0 → mem s' (q + i) = mem s (p + i)));
  hc_store U s p n x c : ok U s → U !! (p - 8) = Some n → p <= x < p + n → x mod 8 = 0 →
    ∃ s', wr x c s = HOk () s' ∧ ok U s' ∧ keeps (delete (p - 8) U) s s'
}.

#[export] Instance heap_contract : HeapContract heap_ok.
Proof. split; [apply heap_owned|apply malloc_ok|apply free_ok|apply realloc_ok|apply store_ok]. Qed.

(** ** Programs that use the allocator *)

Inductive hop :=
| OMalloc (mmap : option Z) (size : Z)
| OFree (p : Z)
| ORealloc (mmap : option Z) (p size : Z)
| OStore (x v : Z).

(** The calls that are allowed: sizes are not negative, pointers are NULL or own a block,
    and writes are to a block that is owned. *)
Definition valid (o : hop) (U : gmap Z Z) (s : HS) : Prop :=
  match o with
  | OMalloc mmap size => 0 <= size ∧ malloc_mmap_ok mmap size s
  | OFree p => p = 0 ∨ is_Some (U !! (p - 8))
  | ORealloc mmap p size => 0 <= size ∧ (p = 0 ∨ is_Some (U !! (p - 8))) ∧ malloc_mmap_ok mmap size s
  | OStore x v => x mod 8 = 0 ∧ ∃ p n, U !! (p - 8) = Some n ∧ p <= x < p + n
  end.

Definition disown (p : Z) (U : gmap Z Z) : gmap Z Z := if p =? 0 then U else delete (p - 8) U.

(** One call, and what the user owns after it. *)
Definition run_op (fuel : nat) (o : hop) (U : gmap Z Z) : HM (gmap Z Z) :=
  match o with
  | OMalloc mmap size => p ← sdb_heap_malloc mmap fuel size; mret (if p =? 0 then U else <[p - 8 := size]> U)
  | OFree p => _ ← sdb_heap_free p; mret (disown p U)
  | ORealloc mmap p size =>
      q ← sdb_heap_realloc mmap fuel p size;
      mret (if q =? 0 then if size =? 0 then disown p U else U else <[q - 8 := size]> (disown p U))
  | OStore x v => _ ← wr x (CWord v); mret U
  end.

Definition runs (o : hop) (us us' : gmap Z Z * HS) : Prop := ∃ k, ∀ fuel, (k <= fuel)%nat → run_op fuel o us.1 us.2 = HOk us'.1 us'.2.

Definition hstep (us us' : gmap Z Z * HS) : Prop := ∃ o, valid o us.1 us.2 ∧ runs o us us'.

Lemma runs_fun o us us1 us2 : runs o us us1 → runs o us us2 → us1 = us2.
Proof.
  intros [k1 H1] [k2 H2]. specialize (H1 (k1 + k2)%nat ltac:(lia)). specialize (H2 (k1 + k2)%nat ltac:(lia)). destruct us1, us2. cbn in *. congruence.
Qed.

Section users.
Context {ok : gmap Z Z → HS → Prop} `{HeapContract ok}.

Lemma op_malloc mmap U s size : ok U s → valid (OMalloc mmap size) U s → ∃ us', runs (OMalloc mmap size) (U, s) us' ∧ ok us'.1 us'.2.
Proof.
  intros Hok [Hs Hmm]. destruct (hc_malloc mmap U s size Hok Hs Hmm) as (p & s' & k & E & _ & Hres). exists (if p =? 0 then U else <[p - 8 := size]> U, s'). split.
  - exists k. intros fuel Hfu. cbn. by erewrite hbind_ok by (by apply E).
  - destruct Hres as [(-> & _ & ?)|(Hp & _ & ?)]; [done|]. cbn. by rewrite (proj2 (Z.eqb_neq _ _)).
Qed.

Lemma op_free U s p : ok U s → valid (OFree p) U s → ∃ us', runs (OFree p) (U, s) us' ∧ ok us'.1 us'.2.
Proof.
  intros Hok Hv. destruct (Z.eq_dec p 0) as [->|Hne]; [exists (U, s); split; [by exists O|done]|]. destruct Hv as [?|[n Hn]]; [done|].
  destruct (hc_free U s p n Hok Hn) as (s' & E & Hok' & _). exists (disown p U, s'). split.
  - exists O. intros fuel _. cbn. by erewrite hbind_ok by exact E.
  - unfold disown. cbn. by rewrite (proj2 (Z.eqb_neq _ _)).
Qed.

Lemma op_realloc mmap U s p size : ok U s → valid (ORealloc mmap p size) U s → ∃ us', runs (ORealloc mmap p size) (U, s) us' ∧ ok us'.1 us'.2.
Proof.
  intros Hok (Hs & Hp & Hmm). destruct (Z.eq_dec p 0) as [->|Hne].
  { destruct (hc_malloc mmap U s size Hok Hs Hmm) as (q & s' & k & E & _ & Hres). exists (if q =? 0 then U else <[q - 8 := size]> U, s'). split.
    - exists k. intros fuel Hfu. cbn. unfold sdb_heap_realloc. cbn [Z.eqb]. erewrite hbind_ok by (by apply E). cbn. by destruct (size =? 0).
    - destruct Hres as [(-> & _ & ?)|(Hq & _ & ?)]; [done|]. cbn. by rewrite (proj2 (Z.eqb_neq _ _)). }
  destruct Hp as [?|[n Hn]]; [done|]. unfold runs. cbn [fst snd run_op]. unfold disown. rewrite (proj2 (Z.eqb_neq _ _) Hne). destruct (Z.eq_dec size 0) as [->|Hs0].
  { destruct (hc_free U s p n Hok Hn) as (s' & E & Hok' & _). exists (delete (p - 8) U, s'). split; [|done]. exists O. intros fuel _. unfold sdb_heap_realloc.
    rewrite (proj2 (Z.eqb_neq _ _) Hne). cbn [Z.eqb]. erewrite hbind_ok; [|by erewrite hbind_ok by exact E]. done. }
  destruct (hc_realloc mmap U s p n size Hok Hn ltac:(lia) Hmm) as (q & s' & k & E & _ & Hres). rewrite (proj2 (Z.eqb_neq _ _) Hs0).
  exists (if q =? 0 then U else <[q - 8 := size]> (delete (p - 8) U), s'). split.
  - exists k. intros fuel Hfu. by erewrite hbind_ok by (by apply E).
  - destruct Hres as [(-> & _ & ? & _)|(Hq & _ & ? & _)]; [done|]. cbn. by rewrite (proj2 (Z.eqb_neq _ _)).
Qed.

Lemma hop_ok o U s : ok U s → valid o U s → ∃ us', runs o (U, s) us' ∧ ok us'.1 us'.2.
Proof.
  destruct o as [mmap size|p|mmap p size|x v]; [apply op_malloc|apply op_free|apply op_realloc|]. intros Hok (Hx8 & p & n & Hn & Hx).
  destruct (hc_store U s p n x (CWord v) Hok Hn Hx Hx8) as (s' & E & Hok' & _). exists (U, s'). split; [|done]. exists O. intros fuel _. cbn. by erewrite hbind_ok by exact E.
Qed.

Lemma steps_ok us us' : ok us.1 us.2 → rtc hstep us us' → ok us'.1 us'.2.
Proof.
  intros Hok Hst. induction Hst as [us|us us1 us' (o & Hv & Hr) _ IH]; [done|]. apply IH. destruct us as [U s]. destruct (hop_ok o U s Hok Hv) as (us2 & Hr2 & Hok2).
  by rewrite (runs_fun _ _ _ _ Hr Hr2).
Qed.
End users.

(** ** [sdb_heap_fini] *)

(** Every block of the list is marked free. *)
Lemma list_is_free L fl U d s a : inv [] L fl U d s → a ∈ fl → ∃ b, L !! a = Some b ∧ hfree b = true.
Proof.
  intros Hi Ha. destruct (lo_live _ _ _ _ (inv_list _ _ _ _ _ _ Hi) a Ha) as [b Hb]. exists b. split; [done|].
  destruct (inv_cover _ _ _ _ _ _ Hi a b Hb) as [?|[[_ ?]|[n Hn]]]; [set_solver|done|]. by destruct (inv_used _ _ _ _ _ _ Hi a n Hn) as [? _].
Qed.

(** A block that is free, as all of the list are, is not freed again: nothing is unmapped
    and the list stays as it is. *)
Theorem sdb_heap_fini_frees_nothing U s : heap_ok U s → ∃ k, ∀ fuel, (k <= fuel)%nat → sdb_heap_fini fuel s = HOk () s.
Proof.
  intros (L & fl & Hi). exists (S (length fl)). pose proof (inv_blocks _ _ _ _ _ _ Hi) as HB. destruct (inv_list _ _ _ _ _ _ Hi) as [Hst Hsg _ _].
  assert (∀ l p fuel, (∀ a, a ∈ l → a ∈ fl) → fseg (mem s) p l 0 → (length l < fuel)%nat → fini_loop fuel (hdp l) s = HOk () s) as Hloop.
  { intros l. induction l as [|a l IH]; intros p [|fuel] Hin Hs Hfu; try (cbn in Hfu; lia); [done|]. destruct Hs as (Hn & _ & Hs). destruct (list_is_free _ _ _ _ _ a Hi (Hin a ltac:(left))) as (b & Hb & Hf).
    pose proof (bo_size _ _ _ HB a b Hb). cbn [fini_loop hdp]. rewrite (proj2 (Z.eqb_neq _ _)) by lia. erewrite hbind_ok by (apply rd_ptr_ok; exact Hn). erewrite hbind_ok.
    2: { unfold sdb_heap_free. rewrite (proj2 (Z.eqb_neq _ _)) by lia. unfold remove_offset, HEADER_SIZE. replace (a + 8 - 8) with a by lia.
         erewrite hbind_ok by (apply rd_hdr_ok; by apply HB). by rewrite Hf. }
    eapply (IH (a + 8)); [set_solver|exact Hs|cbn in Hfu; lia]. }
  intros fuel Hfu. unfold sdb_heap_fini. erewrite hbind_ok by done. rewrite Hst. eapply Hloop; [done|exact Hsg|lia].
Qed.

(** ** The claims *)

(** C18: Whatever a program does with the allocator, from its initialisation on, the blocks
    it owns are aligned, mapped and apart from each other, and the next call that is allowed
    (malloc, free and realloc of NULL or of pointers it owns, with any size and whether or
    not mmap gives memory, and writes inside its blocks) returns: it does not touch memory
    that is not mapped or is not what it is taken for, and its loops end. *)
Theorem sdb_heap_programs_safe U s :
  rtc hstep (∅, init_state) (U, s) → owned_ok U s ∧ ∀ o, valid o U s → ∃ us', runs o (U, s) us'.
Proof.
  intros Hst. assert (heap_ok U s) as Hok.
  { eapply (steps_ok (ok := heap_ok) (∅, init_state) (U, s)); [|done]. by destruct (init_ok init_state eq_refl) as (s0 & [= <-] & ?). }
  split; [by apply hc_owned|]. intros o Hv. destruct (hop_ok o U s Hok Hv) as (us' & ? & _). by exists us'.
Qed.

Lemma first_mmap_ok size : malloc_mmap_ok (Some 131072) size init_state.
Proof. intros req _ r [= <-]. split_and!; [done|done|]. intros x _. done. Qed.

(** A first block of 100 bytes. *)
Lemma first_block : ∃ p s, p ≠ 0 ∧ runs (OMalloc (Some 131072) 100) (∅, init_state) (<[p - 8 := 100]> ∅, s) ∧ heap_ok (<[p - 8 := 100]> ∅) s.
Proof.
  destruct (init_ok init_state eq_refl) as (s0 & [= <-] & Hok). destruct (malloc_ok (Some 131072) ∅ init_state 100 Hok ltac:(done) (first_mmap_ok 100)) as (p & s & k & E & _ & Hres).
  destruct Hres as [(_ & [H|H] & _)|(Hp & _ & Hok')]; [vm_compute in H; discriminate H|discriminate H|]. exists p, s. split_and!; [done| |done].
  exists k. intros fuel Hfu. cbn. erewrite hbind_ok by (by apply E). by rewrite (proj2 (Z.eqb_neq _ _)).
Qed.

Lemma sdb_heap_programs_safe_witness :
  ∃ p s, rtc hstep (∅, init_state) (<[p - 8 := 100]> ∅, s) ∧ owned_ok (<[p - 8 := 100]> ∅) s ∧ ∃ us', runs (OFree p) (<[p - 8 := 100]> ∅, s) us'.
Proof.
  destruct first_block as (p & s & Hp & Hr & _). assert (rtc hstep (∅, init_state) (<[p - 8 := 100]> ∅, s)) as Hst.
  { apply rtc_once. exists (OMalloc (Some 131072) 100). split; [split; [done|apply first_mmap_ok]|done]. }
  exists p, s. split_and!; [done|apply (sdb_heap_programs_safe _ _ Hst)|]. apply (sdb_heap_programs_safe _ _ Hst). right. by rewrite lookup_insert_eq.
Defined.

(** C19: [sdb_heap_malloc] gives a block that the user did not own, of the size asked for,
    or NULL when the size is 0 or too large for a block or mmap has no memory; with
    [sdb_heap_free] it is given back.  No block that the user owns loses its contents or comes
    to overlap another one, in either. *)
Theorem sdb_heap_malloc_free mmap U s size :
  heap_ok U s → 0 <= size → malloc_mmap_ok mmap size s →
  ∃ p s' k, (∀ fuel, (k <= fuel)%nat → sdb_heap_malloc mmap fuel size s = HOk p s') ∧ keeps U s s'
    ∧ ((p = 0 ∧ no_memory mmap size ∧ heap_ok U s')
       ∨ (p ≠ 0 ∧ U !! (p - 8) = None ∧ heap_ok (<[p - 8 := size]> U) s' ∧ owned_ok (<[p - 8 := size]> U) s'
          ∧ ∃ s2, sdb_heap_free p s' = HOk () s2 ∧ heap_ok U s2 ∧ keeps U s s2)).
Proof.
  intros Hok Hs Hmm. destruct (malloc_ok mmap U s size Hok Hs Hmm) as (p & s' & k & E & Hk & Hres). exists p, s', k. split_and!; [done|done|].
  destruct Hres as [?|(Hp & Hnu & Hok')]; [by left|right]. split_and!; [done|done|done|by apply heap_owned|].
  destruct (free_ok _ s' p size Hok') as (s2 & E2 & Hok2 & Hk2); [apply lookup_insert_eq|]. rewrite delete_insert_id in Hok2, Hk2 by done.
  exists s2. split_and!; [done|done|]. intros c n x Hc Hx. rewrite (Hk2 c n x Hc Hx). by apply (Hk c n).
Qed.

Lemma sdb_heap_malloc_free_witness :
  ∃ p s' k, (∀ fuel, (k <= fuel)%nat → sdb_heap_malloc (Some 131072) fuel 100 init_state = HOk p s') ∧ p ≠ 0 ∧ owned_ok (<[p - 8 := 100]> ∅) s'.
Proof.
  destruct (init_ok init_state eq_refl) as (s0 & [= <-] & Hok).
  destruct (sdb_heap_malloc_free (Some 131072) ∅ init_state 100 Hok ltac:(done) (first_mmap_ok 100)) as (p & s' & k & E & _ & Hres).
  exists p, s', k. destruct Hres as [(_ & [H|H] & _)|(Hp & _ & _ & Ho & _)]; [vm_compute in H; discriminate H|discriminate H|done].
Defined.

(** [sdb_heap_realloc] of a block that is in use gives a block of the new size, the same
    one or one that the user did not own, with the contents of the old one as far as both
    reach; the old block is given back if it is another one.  If there is no memory for it the
    result is NULL and the old block is as it was.  The other blocks are left alone. *)
Theorem sdb_heap_realloc_contents mmap U s p n size :
  heap_ok U s → U !! (p - 8) = Some n → 0 < size → malloc_mmap_ok mmap size s →
  ∃ q s' k, (∀ fuel, (k <= fuel)%nat → sdb_heap_realloc mmap fuel p size s = HOk q s') ∧ keeps (delete (p - 8) U) s s'
    ∧ ((q = 0 ∧ no_memory mmap size ∧ heap_ok U s' ∧ keeps U s s')
       ∨ (q ≠ 0 ∧ (q = p ∨ U !! (q - 8) = None) ∧ heap_ok (<[q - 8 := size]> (delete (p - 8) U)) s'
          ∧ owned_ok (<[q - 8 := size]> (delete (p - 8) U)) s'
          ∧ ∀ i, 0 <= i < n → i < size → i mod 8 = 0 → mem s' (q + i) = mem s (p + i))).
Proof.
  intros Hok Hp Hs Hmm. destruct (realloc_ok mmap U s p n size Hok Hp Hs Hmm) as (q & s' & k & E & Hk & Hres). exists q, s', k. split_and!; [done|done|].
  destruct Hres as [?|(Hq & Hnu & Hok' & Hd)]; [by left|right]. split_and!; [done|done|done|by apply heap_owned|done].
Qed.

Lemma sdb_heap_realloc_contents_witness :
  ∃ p s q s' k, (∀ fuel, (k <= fuel)%nat → sdb_heap_realloc None fuel p 200 s = HOk q s') ∧ (q ≠ 0 → ∀ i, 0 <= i < 100 → i mod 8 = 0 → mem s' (q + i) = mem s (p + i)).
Proof.
  destruct first_block as (p & s & Hp & _ & Hok).
  destruct (sdb_heap_realloc_contents None _ s p 100 200 Hok (lookup_insert_eq _ _ _) ltac:(done) ltac:(intros req _ r; discriminate)) as (q & s' & k & E & _ & Hres).
  exists p, s, q, s', k. split; [done|]. intros Hq i Hi Hi8. destruct Hres as [(-> & _)|(_ & _ & _ & _ & Hd)]; [done|]. apply Hd; [done|lia|done].
Defined.

(** ** Runs *)

Definition ptr_of {A} (r : hres A) : option A := match r with HOk p _ => Some p | _ => None end.

(** Two blocks of one region, and a third one that takes the place of the first. *)
Example heap_run :
  ptr_of ((a ← sdb_heap_malloc (Some 131072) 9 100; b ← sdb_heap_malloc None 9 40; _ ← sdb_heap_free a; c ← sdb_heap_malloc None 9 80; d ← sdb_heap_malloc None 9 200; mret [a; b; c; d]) init_state)
  = Some [131080; 131200; 131080; 131256].
Proof. vm_compute. reflexivity. Qed.

(** A block that was merged into the one in front of it when it was freed has the mark of a
    block in use in the header it had: freeing it once more is not noticed, and the list of
    free blocks loses the memory that is on it. *)
Definition free_twice (again : bool) : HM (bool * Z) :=
  a ← sdb_heap_malloc (Some 131072) 9 40;
  b ← sdb_heap_malloc None 9 40;
  _ ← sdb_heap_malloc None 9 40;
  _ ← sdb_heap_free a;
  _ ← sdb_heap_free b;
  h ← rd_hdr (b - 8);
  _ ← (if again then sdb_heap_free b else mret ());
  x ← sdb_heap_malloc None 9 40;
  mret (hfree h, x).

Theorem sdb_heap_free_twice : ptr_of (free_twice false init_state) = Some (false, 131080) ∧ ptr_of (free_twice true init_state) = Some (false, 0).
Proof. split; vm_compute; reflexivity. Qed.
