(* ===== verification/CwBits.v ===== *)
(** * Bit manipulation of the open-addressing tables ([include/sdb/cwisstable.h], bits.h)

    Counting zeros, the double-width product, unaligned loads and the sets of group
    positions that the search of a table walks through.  Where the header chooses between a
    builtin of the compiler and plain C, the plain C is translated; the lemmas say that it
    computes what the builtin is documented to. *)

From S2P Require Import Prelude.

(** [~x] on 64 bits. *)
Definition not64 (x : Z) : Z := u64 (Z.lnot x).

(** The branch of [if (x & m) c -= d]. *)
Definition tz_step (x m d c : Z) : Z := if Z.land x m =? 0 then c else c - d.

Definition CWISS_TrailingZeroes64 (x : Z) : Z :=
  let x := Z.land x (u64 (not64 x + 1)) in
  let c := tz_step x 0x00000000FFFFFFFF 32 63 in
  let c := tz_step x 0x0000FFFF0000FFFF 16 c in
  let c := tz_step x 0x00FF00FF00FF00FF 8 c in
  let c := tz_step x 0x0F0F0F0F0F0F0F0F 4 c in
  let c := tz_step x 0x3333333333333333 2 c in
  tz_step x 0x5555555555555555 1 c.

(** The branch of [if (x >> d) { zeroes -= d; x >>= d; }]. *)
Definition lz_step (d : Z) (s : Z * Z) : Z * Z :=
  let '(zeroes, x) := s in if Z.shiftr x d =? 0 then s else (zeroes - d, Z.shiftr x d).

(** The string constant of the last step, with its terminator. *)
Definition lz_table : list Z := [4; 3; 2; 2; 1; 1; 1; 1; 0; 0; 0; 0; 0; 0; 0; 0].

Definition CWISS_LeadingZeroes64 (x : Z) : Z :=
  let '(zeroes, x) := lz_step 4 (lz_step 8 (lz_step 16 (lz_step 32 (60, x)))) in
  nth (Z.to_nat x) lz_table 0 + zeroes.

Definition CWISS_BitWidth (x : Z) : Z := 64 - CWISS_LeadingZeroes64 x.

Definition CWISS_RotateLeft (x b : Z) : Z := Z.lor (u64 (Z.shiftl x b)) (Z.shiftr x (64 - b)).

Record CWISS_U128 := mkU128 { u128_lo : Z; u128_hi : Z }.

Definition CWISS_Mul128 (a b : Z) : CWISS_U128 :=
  let lo_lo := u64 (Z.land a 0xFFFFFFFF * Z.land b 0xFFFFFFFF) in
  let hi_lo := u64 (Z.shiftr a 32 * Z.land b 0xFFFFFFFF) in
  let lo_hi := u64 (Z.land a 0xFFFFFFFF * Z.shiftr b 32) in
  let hi_hi := u64 (Z.shiftr a 32 * Z.shiftr b 32) in
  let cross := u64 (Z.shiftr lo_lo 32 + Z.land hi_lo 0xFFFFFFFF + lo_hi) in
  let high := u64 (Z.shiftr hi_lo 32 + Z.shiftr cross 32 + hi_hi) in
  let low := Z.lor (u64 (Z.shiftl cross 32)) (Z.land lo_lo 0xFFFFFFFF) in
  mkU128 low high.

(** ** Loads

    A load from memory with fewer bytes than it reads is [None]. *)

(** The number that bytes are in little-endian order. *)
Fixpoint le_val (l : bytes) : Z :=
  match l with [] => 0 | b :: l' => b + 256 * le_val l' end.

Definition load_le (n : nat) (p : bytes) : option Z :=
  if (length p <? n)%nat then None else Some (le_val (take n p)).

Definition CWISS_Load32 (p : bytes) : option Z := load_le 4 p.
Definition CWISS_Load64 (p : bytes) : option Z := load_le 8 p.

Definition CWISS_Load9To16 (p : bytes) (len : nat) : option CWISS_U128 :=
  lo ← CWISS_Load64 p;
  hi ← CWISS_Load64 (drop (len - 8) p);
  Some (mkU128 lo (Z.shiftr hi (128 - Z.of_nat len * 8))).

Definition CWISS_Load4To8 (p : bytes) (len : nat) : option Z :=
  lo ← CWISS_Load32 p;
  hi ← CWISS_Load32 (drop (len - 4) p);
  Some (Z.lor lo (u64 (Z.shiftl hi ((Z.of_nat len - 4) * 8)))).

Definition CWISS_Load1To3 (p : bytes) (len : nat) : option Z :=
  mem0 ← p !! 0%nat;
  mem1 ← p !! (len / 2)%nat;
  mem2 ← p !! (len - 1)%nat;
  Some (Z.lor (Z.lor mem0 (u32 (Z.shiftl mem1 (Z.of_nat (len / 2) * 8)))) (u32 (Z.shiftl mem2 ((Z.of_nat len - 1) * 8)))).

(** ** Sets of positions *)

Record CWISS_BitMask := mkBitMask { mask : Z; width : Z; shift : Z }.

Definition CWISS_BitMask_LowestBitSet (m : CWISS_BitMask) : Z := Z.shiftr (CWISS_TrailingZeroes64 (mask m)) (shift m).

Definition CWISS_BitMask_HighestBitSet (m : CWISS_BitMask) : Z :=
  Z.shiftr (u32 (CWISS_BitWidth (mask m) - 1)) (shift m).

Definition CWISS_BitMask_TrailingZeros (m : CWISS_BitMask) : Z := Z.shiftr (CWISS_TrailingZeroes64 (mask m)) (shift m).

Definition CWISS_BitMask_LeadingZeros (m : CWISS_BitMask) : Z :=
  let total_significant_bits := u32 (Z.shiftl (width m) (shift m)) in
  let extra_bits := u32 (64 - total_significant_bits) in
  Z.shiftr (CWISS_LeadingZeroes64 (u64 (Z.shiftl (mask m) extra_bits))) (shift m).

(** The lowest position and the set without it, [None] when it is empty. *)
Definition CWISS_BitMask_next (m : CWISS_BitMask) : option (Z * CWISS_BitMask) :=
  if mask m =? 0 then None
  else Some (CWISS_BitMask_LowestBitSet m, mkBitMask (Z.land (mask m) (mask m - 1)) (width m) (shift m)).

(** ** The bits of a number *)

(** [t] is the lowest bit of [x] that is set. *)
Definition low_bit (x t : Z) : Prop := 0 <= t ∧ Z.testbit x t = true ∧ ∀ j, j < t → Z.testbit x j = false.

Fixpoint pos_low (p : positive) : Z := match p with xO q => pos_low q + 1 | _ => 0 end.

Lemma pos_low_spec p : low_bit (Zpos p) (pos_low p).
Proof.
  induction p as [p _|p (H0 & H1 & H2)|]; simpl.
  - split_and!; [lia|done|]. intros j ?. by rewrite Z.testbit_neg_r.
  - change (Zpos p~0) with (2 * Zpos p). split_and!; [lia|by rewrite Z.add_1_r, Z.double_bits_succ|].
    intros j Hj. destruct (Z.eq_dec j 0) as [->|]; [by rewrite Z.testbit_even_0|].
    replace j with (Z.succ (j - 1)) by lia. rewrite Z.double_bits_succ. apply H2. lia.
  - split_and!; [lia|done|]. intros j ?. by rewrite Z.testbit_neg_r.
Qed.

Lemma low_bit_exists x : 0 < x → ∃ t, low_bit x t.
Proof. destruct x as [|p|p]; [lia| |lia]. intros _. exists (pos_low p). apply pos_low_spec. Qed.

Lemma low_bit_unique x t t' : low_bit x t → low_bit x t' → t = t'.
Proof.
  intros (? & H1 & H2) (? & H3 & H4). destruct (Z.lt_trichotomy t t') as [Ht|[Ht|Ht]]; [|done|].
  - by rewrite (H4 t Ht) in H1.
  - by rewrite (H2 t' Ht) in H3.
Qed.

Lemma testbit_high a n i : 0 <= a < 2 ^ n → n <= i → Z.testbit a i = false.
Proof.
  intros Ha Hi. destruct (Z.eq_dec a 0) as [->|]; [apply Z.testbit_0_l|].
  apply Z.bits_above_log2; [lia|]. assert (0 <= n) by (destruct (decide (0 <= n)); [done|rewrite Z.pow_neg_r in Ha by lia; lia]).
  assert (Z.log2 a < n) by (apply Z.log2_lt_pow2; lia). lia.
Qed.

Lemma land_bound a b n : 0 <= n → 0 <= a < 2 ^ n → 0 <= Z.land a b < 2 ^ n.
Proof.
  intros Hn Ha. replace (Z.land a b) with (Z.land a b mod 2 ^ n); [apply Z.mod_pos_bound; lia|].
  apply Z.bits_inj_iff'. intros i Hi. rewrite Z.testbit_mod_pow2, Z.land_spec by lia.
  destruct (Z.ltb_spec i n); [done|]. by rewrite (testbit_high a n) by lia.
Qed.

Lemma lxor_bound a b n : 0 <= n → 0 <= a < 2 ^ n → 0 <= b < 2 ^ n → 0 <= Z.lxor a b < 2 ^ n.
Proof.
  intros Hn Ha Hb. replace (Z.lxor a b) with (Z.lxor a b mod 2 ^ n); [apply Z.mod_pos_bound; lia|].
  apply Z.bits_inj_iff'. intros i Hi. rewrite Z.testbit_mod_pow2, Z.lxor_spec by lia.
  destruct (Z.ltb_spec i n); [done|]. by rewrite (testbit_high a n), (testbit_high b n) by lia.
Qed.

Lemma low_bit_lt x t n : 0 <= x < 2 ^ n → low_bit x t → t < n.
Proof.
  intros Hx (H0 & H1 & _). destruct (decide (t < n)); [done|].
  rewrite (testbit_high x n t) in H1; [done|lia|lia].
Qed.

Lemma low_bit_form x t : low_bit x t → ∃ q, x = 2 ^ t + 2 ^ (t + 1) * q.
Proof.
  intros (H0 & H1 & H2). exists (x / 2 ^ (t + 1)).
  rewrite (Z.div_mod x (2 ^ (t + 1))) at 1 by lia.
  enough (x mod 2 ^ (t + 1) = 2 ^ t) by lia.
  apply Z.bits_inj_iff'. intros i Hi. rewrite Z.testbit_mod_pow2, Z.pow2_bits_eqb by lia.
  destruct (Z.lt_trichotomy i t) as [H|[->|H]].
  - rewrite H2 by done. rewrite andb_false_r. symmetry. apply Z.eqb_neq. lia.
  - rewrite H1, Z.eqb_refl. rewrite andb_true_r. apply Z.ltb_lt. lia.
  - replace (i <? t + 1) with false by (symmetry; apply Z.ltb_ge; lia).
    simpl. symmetry. apply Z.eqb_neq. lia.
Qed.

(** Subtracting one clears the lowest bit and sets those below it. *)
Lemma pred_bits x t i : low_bit x t → 0 <= i → Z.testbit (x - 1) i = if i <? t then true else if i =? t then false else Z.testbit x i.
Proof.
  intros Hx Hi. pose proof Hx as (H0 & H1 & H2). destruct (low_bit_form x t Hx) as [q ->].
  assert (0 < 2 ^ t) by lia. assert (2 ^ (t + 1) = 2 * 2 ^ t) as E by (rewrite Z.pow_add_r by lia; lia).
  destruct (Z.ltb_spec i t); [|destruct (Z.eqb_spec i t)].
  - rewrite <- (Z.mod_pow2_bits_low _ t) by lia.
    replace ((2 ^ t + 2 ^ (t + 1) * q - 1) mod 2 ^ t) with (2 ^ t - 1).
    + rewrite <- Z.ones_spec_low with (n := t) (m := i) by lia. by rewrite Z.ones_equiv, Z.sub_1_r.
    + apply Z.mod_unique with (2 * q); lia.
  - subst. rewrite <- (Z.mod_pow2_bits_low _ (t + 1)) by lia.
    replace ((2 ^ t + 2 ^ (t + 1) * q - 1) mod 2 ^ (t + 1)) with (2 ^ t - 1).
    + apply testbit_high with t; lia.
    + apply Z.mod_unique with q; lia.
  - replace i with (i - (t + 1) + (t + 1)) by lia. rewrite <- !Z.div_pow2_bits by lia. f_equal.
    transitivity q; [symmetry; apply Z.div_unique with (2 ^ t - 1)|apply Z.div_unique with (2 ^ t)]; lia.
Qed.

(** A number and its negation have one bit in common. *)
Lemma land_opp x t : 0 < x < 2 ^ 64 → low_bit x t → Z.land x (u64 (not64 x + 1)) = 2 ^ t.
Proof.
  intros Hx Hl. pose proof Hl as (H0 & H1 & H2). pose proof (low_bit_lt x t 64 ltac:(lia) Hl).
  assert (u64 (not64 x + 1) = (- x) mod 2 ^ 64) as ->.
  { unfold u64, not64, u64, Z.lnot. rewrite Zplus_mod_idemp_l. f_equal. lia. }
  apply Z.bits_inj_iff'. intros i Hi. rewrite Z.land_spec, Z.pow2_bits_eqb by lia.
  rewrite Z.testbit_mod_pow2 by lia. rewrite Z.bits_opp by lia. rewrite <- Z.sub_1_r, (pred_bits x t) by done.
  destruct (Z.ltb_spec i t); [by rewrite H2, (proj2 (Z.eqb_neq t i)) by lia|].
  destruct (Z.eqb_spec i t) as [->|].
  - rewrite H1, Z.eqb_refl. simpl. rewrite (proj2 (Z.ltb_lt t 64)) by lia. done.
  - rewrite (proj2 (Z.eqb_neq t i)) by lia. by destruct (Z.testbit x i), (i <? 64).
Qed.

Lemma clear_low_bits x t i : low_bit x t → 0 <= i → Z.testbit (Z.land x (x - 1)) i = Z.testbit x i && negb (i =? t).
Proof.
  intros Hl Hi. pose proof Hl as (H0 & H1 & H2). rewrite Z.land_spec, (pred_bits x t) by done.
  destruct (Z.ltb_spec i t); [by rewrite H2|]. destruct (Z.eqb_spec i t); [by rewrite !andb_false_r|].
  by destruct (Z.testbit x i).
Qed.

(** ** Counting zeros *)

Lemma trailing_zeroes_low x t : 0 < x < 2 ^ 64 → low_bit x t → CWISS_TrailingZeroes64 x = t.
Proof.
  intros Hx Hl. pose proof (low_bit_lt x t 64 ltac:(lia) Hl). pose proof Hl as (H0 & _).
  unfold CWISS_TrailingZeroes64. cbv zeta. rewrite (land_opp x t Hx Hl).
  set (f := λ t, let x := 2 ^ t in
    tz_step x 0x5555555555555555 1 (tz_step x 0x3333333333333333 2 (tz_step x 0x0F0F0F0F0F0F0F0F 4 (tz_step x 0x00FF00FF00FF00FF 8
      (tz_step x 0x0000FFFF0000FFFF 16 (tz_step x 0x00000000FFFFFFFF 32 63))))) =? t).
  apply Z.eqb_eq. change (f t = true). revert t Hl H H0. intros t _ ? ?.
  apply (forallZ_range f 64); [by vm_compute|lia].
Qed.

(** One step of the count of leading zeros halves the bits that are left to count. *)
Definition lz_rel (x0 : Z) (d : Z) (s : Z * Z) : Prop :=
  0 <= s.2 < 2 ^ d ∧ (x0 = 0 → s = (60, 0)) ∧ (0 < x0 → 0 < s.2 ∧ s.1 - Z.log2 s.2 = 60 - Z.log2 x0).

Lemma lz_step_rel x0 d s : 0 < d → lz_rel x0 (d + d) s → lz_rel x0 d (lz_step d s).
Proof.
  intros Hd (Hr & H0 & H1). destruct s as [z x]. simpl in *. unfold lz_rel, lz_step.
  destruct (Z.eqb_spec (Z.shiftr x d) 0) as [E|E].
  - split_and!; simpl; [lia| |done|done].
    destruct (Z.eq_dec x 0) as [->|]; [lia|]. apply Z.shiftr_eq_0_iff in E. destruct E as [|[? ?]]; [lia|]. apply Z.log2_lt_pow2; lia.
  - rewrite Z.shiftr_div_pow2 in * by lia. simpl. split_and!.
    + apply Z.div_pos; lia.
    + apply Z.div_lt_upper_bound; [lia|]. rewrite <- Z.pow_add_r by lia. lia.
    + intros Hx. injection (H0 Hx) as -> ->. by rewrite Z.div_0_l in E by lia.
    + simpl. intros Hx. destruct (H1 Hx) as [Hp Hl]. assert (0 < x / 2 ^ d) by (pose proof (Z.div_pos x (2 ^ d)); lia).
      split; [done|]. rewrite <- Z.shiftr_div_pow2, Z.log2_shiftr by lia.
      assert (d <= Z.log2 x); [|lia]. apply Z.log2_le_pow2; [lia|]. destruct (decide (2 ^ d <= x)); [done|].
      rewrite Z.div_small in E by lia. done.
Qed.

Lemma leading_zeroes_spec x : 0 <= x < 2 ^ 64 → CWISS_LeadingZeroes64 x = if x =? 0 then 64 else 63 - Z.log2 x.
Proof.
  intros Hx. unfold CWISS_LeadingZeroes64.
  assert (lz_rel x 4 (lz_step 4 (lz_step 8 (lz_step 16 (lz_step 32 (60, x)))))) as Hr.
  { apply (lz_step_rel x 4); [lia|]. apply (lz_step_rel x 8); [lia|]. apply (lz_step_rel x 16); [lia|]. apply (lz_step_rel x 32); [lia|].
    unfold lz_rel; cbn [fst snd]. split; [exact Hx|]. split; [by intros ->|lia]. }
  destruct (lz_step 4 _) as [z y]. destruct Hr as (Hy & H0 & H1). cbn [fst snd] in *.
  destruct (Z.eqb_spec x 0) as [E|E].
  - injection (H0 E) as -> ->. done.
  - destruct H1 as [Hp Hl]; [lia|]. enough (nth (Z.to_nat y) lz_table 0 = 3 - Z.log2 y) by lia.
    pose proof (forallZ_range (λ y, (y =? 0) || (nth (Z.to_nat y) lz_table 0 =? 3 - Z.log2 y)) 16 ltac:(by vm_compute) y Hy) as Hf.
    apply orb_true_iff in Hf as [?|?]; zbool; lia.
Qed.

Lemma bit_width_log2 x : 0 < x < 2 ^ 64 → CWISS_BitWidth x = Z.log2 x + 1.
Proof. intros. unfold CWISS_BitWidth. rewrite leading_zeroes_spec by lia. destruct (Z.eqb_spec x 0); lia. Qed.

(** ** The double-width product *)

Lemma lor_disjoint_add a b n : 0 <= n → 0 <= b < 2 ^ n → Z.lor (a * 2 ^ n) b = a * 2 ^ n + b.
Proof.
  intros Hn Hb. rewrite Z.add_nocarry_lxor, Z.lxor_lor; [done| |].
  all: apply Z.bits_inj_iff'; intros i Hi; rewrite Z.land_spec, Z.testbit_0_l.
  all: destruct (decide (i < n)); [by rewrite Z.mul_pow2_bits_low by lia|by rewrite (testbit_high b n), andb_false_r by lia].
Qed.

Lemma mul128_product a b : is_u64 a → is_u64 b → let p := CWISS_Mul128 a b in u128_lo p + 2 ^ 64 * u128_hi p = a * b ∧ is_u64 (u128_lo p) ∧ is_u64 (u128_hi p).
Proof.
  unfold is_u64. intros Ha Hb. cbv zeta. unfold CWISS_Mul128. cbn [u128_lo u128_hi].
  change 0xFFFFFFFF with (2 ^ 32 - 1). rewrite !land_ones_mod, !Z.shiftr_div_pow2, !Z.shiftl_mul_pow2 by lia.
  pose proof (Z.div_mod a (2 ^ 32) ltac:(lia)) as Ea. pose proof (Z.div_mod b (2 ^ 32) ltac:(lia)) as Eb.
  pose proof (Z.mod_pos_bound a (2 ^ 32) ltac:(lia)) as Ba. pose proof (Z.mod_pos_bound b (2 ^ 32) ltac:(lia)) as Bb.
  assert (0 <= a / 2 ^ 32 < 2 ^ 32) as Ca by (split; [apply Z.div_pos|apply Z.div_lt_upper_bound]; lia).
  assert (0 <= b / 2 ^ 32 < 2 ^ 32) as Cb by (split; [apply Z.div_pos|apply Z.div_lt_upper_bound]; lia).
  set (al := a mod 2 ^ 32) in *. set (ah := a / 2 ^ 32) in *. set (bl := b mod 2 ^ 32) in *. set (bh := b / 2 ^ 32) in *.
  clearbody al ah bl bh. subst a b.
  assert (∀ x y, 0 <= x < 2 ^ 32 → 0 <= y < 2 ^ 32 → 0 <= x * y <= (2 ^ 32 - 1) * (2 ^ 32 - 1)) as Hm by (intros; nia).
  pose proof (Hm al bl Ba Bb) as M1. pose proof (Hm ah bl Ca Bb) as M2. pose proof (Hm al bh Ba Cb) as M3. pose proof (Hm ah bh Ca Cb) as M4.
  rewrite (u64_small (al * bl)), (u64_small (ah * bl)), (u64_small (al * bh)), (u64_small (ah * bh)) by (unfold is_u64; lia).
  replace ((2 ^ 32 * ah + al) * (2 ^ 32 * bh + bl)) with (al * bl + 2 ^ 32 * (ah * bl + al * bh) + 2 ^ 64 * (ah * bh)) by lia.
  set (P := al * bl) in *. set (Q := ah * bl) in *. set (R := al * bh) in *. set (S := ah * bh) in *. clearbody P Q R S.
  clear al ah bl bh Ha Hb Ba Bb Ca Cb Hm.
  pose proof (Z.div_mod P (2 ^ 32) ltac:(lia)) as EP. pose proof (Z.mod_pos_bound P (2 ^ 32) ltac:(lia)) as BP.
  pose proof (Z.div_mod Q (2 ^ 32) ltac:(lia)) as EQ. pose proof (Z.mod_pos_bound Q (2 ^ 32) ltac:(lia)) as BQ.
  rewrite (u64_small (P / 2 ^ 32 + Q mod 2 ^ 32 + R)) by (unfold is_u64; lia).
  set (C := P / 2 ^ 32 + Q mod 2 ^ 32 + R) in *. assert (0 <= C < 2 ^ 64) by lia.
  pose proof (Z.div_mod C (2 ^ 32) ltac:(lia)) as EC. pose proof (Z.mod_pos_bound C (2 ^ 32) ltac:(lia)) as BC.
  assert (u64 (C * 2 ^ 32) = C mod 2 ^ 32 * 2 ^ 32) as ->.
  { unfold u64. symmetry. apply Z.mod_unique with (C / 2 ^ 32); lia. }
  rewrite lor_disjoint_add by lia.
  rewrite u64_small by (unfold is_u64; lia). lia.
Qed.

(** ** Loads read the little-endian number of the bytes *)

Lemma le_val_app a b : le_val (a ++ b) = le_val a + 256 ^ Z.of_nat (length a) * le_val b.
Proof.
  induction a as [|x a IH]; [simpl; lia|]. cbn [le_val app length]. rewrite IH, Nat2Z.inj_succ, Z.pow_succ_r by lia. lia.
Qed.

Lemma le_val_range l : is_bytes l → 0 <= le_val l < 256 ^ Z.of_nat (length l).
Proof.
  induction 1 as [|b l Hb _ IH]; [simpl; lia|]. cbn [le_val length]. rewrite Nat2Z.inj_succ, Z.pow_succ_r by lia.
  unfold is_u8 in Hb. lia.
Qed.

Lemma le_val_split k l : is_bytes l → (k <= length l)%nat →
  le_val (take k l) = le_val l mod 2 ^ (8 * Z.of_nat k) ∧ le_val (drop k l) = le_val l / 2 ^ (8 * Z.of_nat k).
Proof.
  intros Hl Hk. rewrite <- (take_drop k l) at 2 4. rewrite le_val_app, length_take, Nat.min_l by lia.
  pose proof (le_val_range (take k l) (Forall_take _ _ _ Hl)) as Hr. rewrite length_take, Nat.min_l in Hr by lia.
  rewrite Z.pow_mul_r by lia. change (2 ^ 8) with 256. split; [apply Z.mod_unique with (le_val (drop k l))|apply Z.div_unique with (le_val (take k l))]; lia.
Qed.

Lemma load_le_spec n p : is_bytes p → (n <= length p)%nat → load_le n p = Some (le_val p mod 2 ^ (8 * Z.of_nat n)).
Proof.
  intros Hp Hn. unfold load_le. rewrite (proj2 (Nat.ltb_ge _ _)) by lia. f_equal. by apply le_val_split.
Qed.

(** Loading the end of the bytes. *)
Lemma load_end_spec n p : is_bytes p → (n <= length p)%nat →
  load_le n (drop (length p - n) p) = Some (le_val p / 2 ^ (8 * Z.of_nat (length p - n))).
Proof.
  intros Hp Hn. rewrite load_le_spec; [|by apply Forall_drop|rewrite length_drop; lia].
  destruct (le_val_split (length p - n) p Hp ltac:(lia)) as [_ <-]. f_equal. apply Z.mod_small.
  pose proof (le_val_range (drop (length p - n) p) (Forall_drop _ _ _ Hp)) as Hr.
  rewrite length_drop in Hr. rewrite Z.pow_mul_r by lia. change (2 ^ 8) with 256. replace (length p - (length p - n))%nat with n in Hr by lia. lia.
Qed.

Lemma load_9_16 p : is_bytes p → (9 <= length p <= 16)%nat →
  CWISS_Load9To16 p (length p) = Some (mkU128 (le_val p mod 2 ^ 64) (le_val p / 2 ^ 64)).
Proof.
  intros Hp Hl. unfold CWISS_Load9To16, CWISS_Load64. rewrite (load_le_spec 8 p), (load_end_spec 8 p) by (done || lia).
  cbn [mbind option_bind]. change (8 * Z.of_nat 8) with 64. do 2 f_equal. rewrite Z.shiftr_div_pow2, Zdiv_Zdiv, <- Z.pow_add_r by lia. do 2 f_equal. lia.
Qed.

Lemma load_4_8 p : is_bytes p → (4 <= length p <= 8)%nat → CWISS_Load4To8 p (length p) = Some (le_val p).
Proof.
  intros Hp Hl. unfold CWISS_Load4To8, CWISS_Load32. rewrite (load_le_spec 4 p), (load_end_spec 4 p) by (done || lia).
  cbn [mbind option_bind]. f_equal. pose proof (le_val_range p Hp) as Hr.
  assert (0 <= le_val p < 2 ^ 64) as Hv.
  { split; [lia|]. eapply Z.lt_le_trans; [apply Hr|]. change 256 with (2 ^ 8). rewrite <- Z.pow_mul_r by lia. apply Z.pow_le_mono_r; lia. }
  replace ((Z.of_nat (length p) - 4) * 8) with (8 * Z.of_nat (length p - 4)) by lia.
  set (k := 8 * Z.of_nat (length p - 4)). assert (0 <= k <= 32) by lia. set (v := le_val p) in *.
  unfold u64. apply Z.bits_inj_iff'. intros i Hi. rewrite Z.lor_spec, !Z.testbit_mod_pow2, Z.shiftl_spec by lia.
  destruct (Z.ltb_spec i (8 * Z.of_nat 4)); cbn [andb].
  - destruct (decide (i < k)); [by rewrite (Z.testbit_neg_r _ (i - k)), andb_false_r, orb_false_r by lia|].
    rewrite Z.div_pow2_bits, Z.sub_add by lia. by destruct (Z.testbit v i), (i <? 64).
  - rewrite Z.div_pow2_bits, Z.sub_add by lia. destruct (Z.ltb_spec i 64); [done|]. by rewrite (testbit_high v 64) by lia.
Qed.

Lemma load_1_3 p : is_bytes p → (1 <= length p <= 3)%nat → CWISS_Load1To3 p (length p) = Some (le_val p).
Proof.
  intros Hp Hl. unfold CWISS_Load1To3, u32, is_bytes in *.
  destruct p as [|a [|b [|c [|? ?]]]]; cbn [length] in Hl; try lia.
  all: repeat match goal with H : Forall _ (_ :: _) |- _ => apply Forall_cons in H as [? H] end; unfold is_u8 in *; clear Hp.
  all: cbv [length Nat.div Nat.divmod fst Nat.sub lookup list_lookup mbind option_bind le_val]; f_equal.
  all: rewrite !Z.shiftl_mul_pow2 by lia; cbn [Z.of_nat Pos.of_succ_nat Pos.succ].
  - rewrite !Z.mul_1_r, !Z.mod_small, !Z.lor_diag by lia. lia.
  - rewrite !Z.mod_small by lia. rewrite <- Z.lor_assoc, Z.lor_diag. rewrite Z.lor_comm, lor_disjoint_add; lia.
  - rewrite !Z.mod_small by lia. rewrite (Z.lor_comm a), lor_disjoint_add by lia.
    rewrite Z.lor_comm, lor_disjoint_add by lia. lia.
Qed.

(** ** Sets of positions

    Position [i] is represented by the highest of the [2 ^ shift] bits that belong to it. *)

Definition bm_pos (m : CWISS_BitMask) (i : Z) : Z := i * 2 ^ shift m + (2 ^ shift m - 1).

Definition bm_has (m : CWISS_BitMask) (i : Z) : Prop := 0 <= i < width m ∧ Z.testbit (mask m) (bm_pos m i) = true.

Record bm_ok (m : CWISS_BitMask) : Prop := {
  bm_u64 : is_u64 (mask m);
  bm_shape : (width m = 16 ∧ shift m = 0) ∨ (width m = 8 ∧ shift m = 3);
  bm_bits j : Z.testbit (mask m) j = true → ∃ i, 0 <= i < width m ∧ j = bm_pos m i
}.

Section bitmask.
Context (m : CWISS_BitMask) (OK : bm_ok m).

Lemma bm_pos_index i : Z.shiftr (bm_pos m i) (shift m) = i.
Proof.
  unfold bm_pos. destruct (bm_shape m OK) as [[_ ->]|[_ ->]]; rewrite Z.shiftr_div_pow2 by lia; symmetry.
  - apply Z.div_unique with 0; lia.
  - apply Z.div_unique with 7; lia.
Qed.

Lemma bm_pos_mono i j : bm_pos m i < bm_pos m j ↔ i < j.
Proof. unfold bm_pos. destruct (bm_shape m OK) as [[_ ->]|[_ ->]]; change (2 ^ 0) with 1; change (2 ^ 3) with 8; lia. Qed.

Lemma bm_nonempty : mask m ≠ 0 → ∃ i, bm_has m i.
Proof.
  intros H. pose proof (bm_u64 m OK) as Hu. unfold is_u64 in Hu. destruct (low_bit_exists (mask m)) as [t (_ & Ht & _)]; [lia|].
  destruct (bm_bits m OK t Ht) as (i & Hi & ->). by exists i.
Qed.

Lemma bm_has_nonzero i : bm_has m i → mask m ≠ 0.
Proof. intros [_ H] E. rewrite E, Z.testbit_0_l in H. done. Qed.

(** The lowest position, as the bit that the count of zeros finds. *)
Lemma bm_low : mask m ≠ 0 → ∃ i, bm_has m i ∧ (∀ j, bm_has m j → i <= j) ∧ low_bit (mask m) (bm_pos m i) ∧ CWISS_BitMask_TrailingZeros m = i.
Proof.
  intros H. pose proof (bm_u64 m OK) as Hu. unfold is_u64 in Hu. destruct (low_bit_exists (mask m)) as [t Ht]; [lia|].
  pose proof Ht as (H0 & H1 & H2). destruct (bm_bits m OK t H1) as (i & Hi & ->). exists i. split_and!; [done| |done|].
  - intros j [_ Hj]. destruct (decide (i <= j)) as [|Hn]; [done|]. rewrite H2 in Hj; [done|]. apply bm_pos_mono. lia.
  - unfold CWISS_BitMask_TrailingZeros. rewrite (trailing_zeroes_low _ (bm_pos m i)) by (done || lia). apply bm_pos_index.
Qed.

Lemma bm_high : mask m ≠ 0 → ∃ i, bm_has m i ∧ (∀ j, bm_has m j → j <= i) ∧ Z.log2 (mask m) = bm_pos m i ∧ CWISS_BitMask_HighestBitSet m = i.
Proof.
  intros H. pose proof (bm_u64 m OK) as Hu. unfold is_u64 in Hu.
  pose proof (Z.bit_log2 (mask m) ltac:(lia)) as Hb. destruct (bm_bits m OK _ Hb) as (i & Hi & E). exists i. split_and!; [split; [done|congruence]| |done|].
  - intros j [_ Hj]. destruct (decide (j <= i)) as [|Hn]; [done|]. rewrite Z.bits_above_log2 in Hj; [done|lia|].
    rewrite E. apply bm_pos_mono. lia.
  - unfold CWISS_BitMask_HighestBitSet. rewrite bit_width_log2, Z.add_simpl_r by lia. assert (Z.log2 (mask m) < 64) by (apply Z.log2_lt_pow2; lia).
    pose proof (Z.log2_nonneg (mask m)). rewrite u32_small by (unfold is_u32; lia). rewrite E. apply bm_pos_index.
Qed.

Lemma bm_lead : mask m ≠ 0 → CWISS_BitMask_LeadingZeros m = width m - 1 - CWISS_BitMask_HighestBitSet m.
Proof.
  intros H. pose proof (bm_u64 m OK) as Hu. unfold is_u64 in Hu. destruct (bm_high H) as (i & [Hi _] & _ & E & ->).
  unfold CWISS_BitMask_LeadingZeros. cbv zeta. unfold bm_pos in E.
  destruct (bm_shape m OK) as [[Ew Es]|[Ew Es]]; rewrite Ew, Es in *.
  - change (u32 (64 - u32 (16 ≪ 0))) with 48.
    assert (mask m < 2 ^ 16) by (apply Z.log2_lt_pow2; lia).
    rewrite u64_small, leading_zeroes_spec; rewrite Z.shiftl_mul_pow2 by lia; [|unfold is_u64; lia..].
    rewrite Z.log2_mul_pow2, E by lia. destruct (Z.eqb_spec (mask m * 2 ^ 48) 0); [lia|]. rewrite Z.shiftr_0_r. lia.
  - change (u32 (64 - u32 (8 ≪ 3))) with 0. rewrite Z.shiftl_0_r, u64_small, leading_zeroes_spec by (done || lia).
    destruct (Z.eqb_spec (mask m) 0); [done|]. rewrite E, Z.shiftr_div_pow2 by lia. symmetry. apply Z.div_unique with 0; lia.
Qed.

(** Iteration: the lowest position is returned and leaves the set. *)
Lemma bm_next_Some : mask m ≠ 0 → ∃ i m', CWISS_BitMask_next m = Some (i, m') ∧ bm_has m i ∧ (∀ j, bm_has m j → i <= j) ∧
  bm_ok m' ∧ width m' = width m ∧ ∀ j, bm_has m' j ↔ bm_has m j ∧ j ≠ i.
Proof.
  intros H. destruct (bm_low H) as (i & Hi & Hmin & Hl & E).
  exists i, (mkBitMask (Z.land (mask m) (mask m - 1)) (width m) (shift m)).
  unfold CWISS_BitMask_next. rewrite (proj2 (Z.eqb_neq _ _) H). split_and!; [by rewrite <- E|done|done| |done|].
  - split; simpl.
    + pose proof (bm_u64 m OK) as Hu. unfold is_u64 in *. by apply land_bound.
    + apply (bm_shape m OK).
    + intros j Hj. apply (bm_bits m OK). rewrite Z.land_spec in Hj. by apply andb_true_iff in Hj as [? _].
  - intros j. unfold bm_has, bm_pos. cbn [mask width shift]. fold (bm_pos m j). split.
    + intros [Hr Hj]. rewrite (clear_low_bits _ (bm_pos m i)) in Hj; [|done|unfold bm_pos; destruct (bm_shape m OK) as [[_ ->]|[_ ->]]; lia].
      apply andb_true_iff in Hj as [? Hj]. apply negb_true_iff in Hj. zbool. split; [done|]. by intros ->.
    + intros [[Hr Hj] Hne]. split; [done|].
      rewrite (clear_low_bits _ (bm_pos m i)); [|done|unfold bm_pos; destruct (bm_shape m OK) as [[_ ->]|[_ ->]]; lia].
      rewrite Hj. simpl. apply negb_true_iff, Z.eqb_neq. intros Ep. apply Hne. rewrite <- (bm_pos_index i), <- (bm_pos_index j). by f_equal.
Qed.

End bitmask.
