(* ===== verification/CwGroup.v ===== *)
(** * Control bytes and groups ([include/sdb/cwisstable.h], control_byte.h)

    Each slot of an open-addressing table has a control byte, and the search looks at a
    group of them at once.  The header has two implementations of groups: 16 bytes in a
    vector register and 8 bytes in a 64-bit word.  What the tables rely on is the class
    [GroupLaws] of the operations [GroupOps]; both implementations are instances. *)

From S2P Require Import Prelude CwBits.

(** ** Control bytes

    [empty] and [deleted] are free slots, a byte that is not negative is a full slot with
    seven bits of the hash, the sentinel ends the slots. *)

Definition CWISS_kEmpty : Z := -128.
Definition CWISS_kDeleted : Z := -2.
Definition CWISS_kSentinel : Z := -1.

Definition CWISS_HashSeed (ctrl : Z) : Z := Z.shiftr ctrl 12.
Definition CWISS_H1 (hash ctrl : Z) : Z := Z.lxor (Z.shiftr hash 7) (CWISS_HashSeed ctrl).
Definition CWISS_H2 (hash : Z) : Z := Z.land hash 0x7F.

Definition CWISS_IsEmpty (c : Z) : bool := c =? CWISS_kEmpty.
Definition CWISS_IsFull (c : Z) : bool := 0 <=? c.
Definition CWISS_IsDeleted (c : Z) : bool := c =? CWISS_kDeleted.
Definition CWISS_IsEmptyOrDeleted (c : Z) : bool := c <? CWISS_kSentinel.

Definition is_full (c : Z) : Prop := 0 <= c < 128.
Definition is_ctrl (c : Z) : Prop := c = CWISS_kEmpty ∨ c = CWISS_kDeleted ∨ c = CWISS_kSentinel ∨ is_full c.

(** ** The interface *)

Class GroupOps := {
  Group : Type;
  CWISS_Group_kWidth : Z;
  (** The group at [kWidth] control bytes. *)
  CWISS_Group_new : list Z → Group;
  CWISS_Group_Match : Group → Z → CWISS_BitMask;
  CWISS_Group_MatchEmpty : Group → CWISS_BitMask;
  CWISS_Group_MatchEmptyOrDeleted : Group → CWISS_BitMask;
  CWISS_Group_CountLeadingEmptyOrDeleted : Group → Z;
  (** The bytes that are stored at [dst]. *)
  CWISS_Group_ConvertSpecialToEmptyAndFullToDeleted : Group → list Z
}.

(** The number of free slots at the beginning. *)
Fixpoint count_free (l : list Z) : Z :=
  match l with c :: l' => if CWISS_IsEmptyOrDeleted c then 1 + count_free l' else 0 | [] => 0 end.

Definition convert_byte (c : Z) : Z := if CWISS_IsFull c then CWISS_kDeleted else CWISS_kEmpty.

Definition group_bytes `{GroupOps} (bs : list Z) : Prop := Z.of_nat (length bs) = CWISS_Group_kWidth ∧ Forall is_ctrl bs.

(** The set [m] holds the positions of [bs] that satisfy [P]. *)
Definition selects `{GroupOps} (m : CWISS_BitMask) (bs : list Z) (P : Z → Prop) : Prop :=
  bm_ok m ∧ width m = CWISS_Group_kWidth ∧ ∀ i, bm_has m (Z.of_nat i) ↔ ∃ c, bs !! i = Some c ∧ P c.

(** A match of a hash may select other full slots, but never a free one or the sentinel. *)
Class GroupLaws (G : GroupOps) : Prop := {
  group_width : CWISS_Group_kWidth = 8 ∨ CWISS_Group_kWidth = 16;
  group_match bs h : group_bytes bs → is_full h → let m := CWISS_Group_Match (CWISS_Group_new bs) h in
    bm_ok m ∧ width m = CWISS_Group_kWidth ∧ (∀ i, bs !! i = Some h → bm_has m (Z.of_nat i)) ∧
    ∀ i, bm_has m (Z.of_nat i) → ∃ c, bs !! i = Some c ∧ is_full c;
  group_match_empty bs : group_bytes bs → selects (CWISS_Group_MatchEmpty (CWISS_Group_new bs)) bs (λ c, c = CWISS_kEmpty);
  group_match_free bs : group_bytes bs →
    selects (CWISS_Group_MatchEmptyOrDeleted (CWISS_Group_new bs)) bs (λ c, c = CWISS_kEmpty ∨ c = CWISS_kDeleted);
  group_count_free bs : group_bytes bs → CWISS_Group_CountLeadingEmptyOrDeleted (CWISS_Group_new bs) = count_free bs;
  group_convert bs : group_bytes bs →
    CWISS_Group_ConvertSpecialToEmptyAndFullToDeleted (CWISS_Group_new bs) = convert_byte <$> bs
}.

(** ** Groups of 16 bytes in a vector register

    A register is the list of its 16 signed bytes.  [ssse3] is [CWISS_HAVE_SSSE3] and
    [fixed] says that [CWISS_mm_cmpgt_epi8_fixed] takes the branch for unsigned [char]. *)
Module Sse2.

Definition _mm_set1_epi8 (c : Z) : list Z := replicate 16 (s8 c).
Definition _mm_setzero_si128 : list Z := replicate 16 0.
Definition _mm_cmpeq_epi8 (a b : list Z) : list Z := zip_with (λ x y, if x =? y then -1 else 0) a b.
Definition _mm_cmpgt_epi8 (a b : list Z) : list Z := zip_with (λ x y, if y <? x then -1 else 0) a b.
Definition _mm_subs_epi8 (a b : list Z) : list Z := zip_with (λ x y, Z.max (-128) (Z.min 127 (x - y))) a b.
Definition _mm_and_si128 (a b : list Z) : list Z := zip_with Z.land a b.
Definition _mm_or_si128 (a b : list Z) : list Z := zip_with Z.lor a b.
Definition _mm_andnot_si128 (a b : list Z) : list Z := zip_with (λ x y, Z.land (Z.lnot x) y) a b.
Definition _mm_sign_epi8 (a b : list Z) : list Z := zip_with (λ x y, if y <? 0 then s8 (- x) else if y =? 0 then 0 else x) a b.
Definition _mm_shuffle_epi8 (a idx : list Z) : list Z := (λ i, if i <? 0 then 0 else nth (Z.to_nat (Z.land i 15)) a 0) <$> idx.
Fixpoint _mm_movemask_epi8 (a : list Z) : Z :=
  match a with [] => 0 | x :: a' => (if x <? 0 then 1 else 0) + 2 * _mm_movemask_epi8 a' end.

Definition CWISS_Group_BitMask16 (x : Z) : CWISS_BitMask := mkBitMask x 16 0.

Section sse2.
Context (ssse3 fixed : bool).

Definition CWISS_mm_cmpgt_epi8_fixed (a b : list Z) : list Z :=
  if fixed then
    let mask := _mm_set1_epi8 0x80 in
    let diff := _mm_subs_epi8 b a in
    _mm_cmpeq_epi8 (_mm_and_si128 diff mask) mask
  else _mm_cmpgt_epi8 a b.

Definition Match16 (self : list Z) (hash : Z) : CWISS_BitMask :=
  CWISS_Group_BitMask16 (_mm_movemask_epi8 (_mm_cmpeq_epi8 (_mm_set1_epi8 hash) self)).

Definition MatchEmpty16 (self : list Z) : CWISS_BitMask :=
  if ssse3 then CWISS_Group_BitMask16 (_mm_movemask_epi8 (_mm_sign_epi8 self self)) else Match16 self (u8 CWISS_kEmpty).

Definition MatchEmptyOrDeleted16 (self : list Z) : CWISS_BitMask :=
  let special := _mm_set1_epi8 (u8 CWISS_kSentinel) in
  CWISS_Group_BitMask16 (_mm_movemask_epi8 (CWISS_mm_cmpgt_epi8_fixed special self)).

Definition CountLeadingEmptyOrDeleted16 (self : list Z) : Z :=
  let special := _mm_set1_epi8 (u8 CWISS_kSentinel) in
  CWISS_TrailingZeroes64 (u32 (_mm_movemask_epi8 (CWISS_mm_cmpgt_epi8_fixed special self) + 1)).

Definition ConvertSpecialToEmptyAndFullToDeleted16 (self : list Z) : list Z :=
  let msbs := _mm_set1_epi8 (-128) in
  let x126 := _mm_set1_epi8 126 in
  if ssse3 then _mm_or_si128 (_mm_shuffle_epi8 x126 self) msbs
  else
    let zero := _mm_setzero_si128 in
    let special_mask := CWISS_mm_cmpgt_epi8_fixed zero self in
    _mm_or_si128 msbs (_mm_andnot_si128 special_mask x126).

End sse2.

Definition group (ssse3 fixed : bool) : GroupOps := {|
  Group := list Z;
  CWISS_Group_kWidth := 16;
  CWISS_Group_new bs := bs;
  CWISS_Group_Match := Match16;
  CWISS_Group_MatchEmpty := MatchEmpty16 ssse3;
  CWISS_Group_MatchEmptyOrDeleted := MatchEmptyOrDeleted16 fixed;
  CWISS_Group_CountLeadingEmptyOrDeleted := CountLeadingEmptyOrDeleted16 fixed;
  CWISS_Group_ConvertSpecialToEmptyAndFullToDeleted := ConvertSpecialToEmptyAndFullToDeleted16 ssse3 fixed
|}.

(** *** The laws *)

Lemma movemask_bits a i : Z.testbit (_mm_movemask_epi8 a) (Z.of_nat i) = match a !! i with Some x => x <? 0 | None => false end.
Proof.
  revert i. induction a as [|x a IH]; intros i; [by rewrite Z.testbit_0_l|]. cbn [_mm_movemask_epi8].
  destruct i as [|i]; cbn [lookup list_lookup].
  - change (Z.of_nat 0) with 0. destruct (x <? 0); [rewrite Z.add_comm; by rewrite Z.testbit_odd_0|by rewrite Z.add_0_l, Z.testbit_even_0].
  - rewrite <- IH, Nat2Z.inj_succ. destruct (x <? 0); [rewrite Z.add_comm; by rewrite Z.testbit_odd_succ by lia|by rewrite Z.add_0_l, Z.double_bits_succ].
Qed.

Lemma movemask_range a : 0 <= _mm_movemask_epi8 a < 2 ^ Z.of_nat (length a).
Proof.
  induction a as [|x a IH]; [done|]. cbn [_mm_movemask_epi8 length]. rewrite Nat2Z.inj_succ, Z.pow_succ_r by lia.
  destruct (x <? 0); lia.
Qed.

Lemma movemask_ok a : length a = 16%nat → bm_ok (CWISS_Group_BitMask16 (_mm_movemask_epi8 a)).
Proof.
  intros Ha. pose proof (movemask_range a) as Hr. rewrite Ha in Hr. change (2 ^ Z.of_nat 16) with (2 ^ 16) in Hr. split; cbn [mask width shift CWISS_Group_BitMask16].
  - unfold is_u64. lia.
  - by left.
  - intros j Hj. exists j. unfold bm_pos. cbn [shift CWISS_Group_BitMask16]. split; [|lia].
    destruct (decide (j < 0)); [by rewrite Z.testbit_neg_r in Hj|]. split; [lia|]. destruct (decide (j < 16)); [done|].
    by rewrite (testbit_high _ 16) in Hj by lia.
Qed.

Lemma movemask_has a i : length a = 16%nat → bm_has (CWISS_Group_BitMask16 (_mm_movemask_epi8 a)) (Z.of_nat i) ↔ ∃ x, a !! i = Some x ∧ x < 0.
Proof.
  intros Ha. unfold bm_has, bm_pos. cbn [mask width shift CWISS_Group_BitMask16]. rewrite Z.pow_0_r, Z.sub_diag, Z.add_0_r, Z.mul_1_r, movemask_bits. split.
  - intros [_ H]. destruct (a !! i) as [x|]; [|done]. zbool. eauto.
  - intros (x & H & Hx). rewrite H. pose proof (lookup_lt_Some _ _ _ H). split; [lia|]. by apply Z.ltb_lt.
Qed.

(** An operation that works on each byte selects the bytes that it makes negative. *)
Lemma lanes_select `{GroupOps} f bs P : CWISS_Group_kWidth = 16 → length bs = 16%nat → (∀ c, c ∈ bs → f c < 0 ↔ P c) →
  selects (CWISS_Group_BitMask16 (_mm_movemask_epi8 (f <$> bs))) bs P.
Proof.
  intros Hw Hb Hf. split_and!; [apply movemask_ok; by rewrite length_fmap|done|].
  intros i. rewrite movemask_has by (by rewrite length_fmap). split.
  - intros (x & (c & -> & Hc)%list_lookup_fmap_Some & Hx). exists c. split; [done|]. apply Hf; [by eapply list_elem_of_lookup_2|done].
  - intros (c & Hc & Hp). exists (f c). split; [apply list_lookup_fmap_Some; eauto|]. apply Hf; [by eapply list_elem_of_lookup_2|done].
Qed.

Lemma set1_zip (g : Z → Z → Z) k bs : length bs = 16%nat → zip_with g (_mm_set1_epi8 k) bs = g (s8 k) <$> bs.
Proof. intros. unfold _mm_set1_epi8. apply zip_with_replicate_l. lia. Qed.

Lemma cmpgt_lanes fixed k bs : length bs = 16%nat → -128 <= s8 k → Forall (λ c, -128 <= c < 128) bs →
  CWISS_mm_cmpgt_epi8_fixed fixed (_mm_set1_epi8 k) bs = (λ c, if c <? s8 k then -1 else 0) <$> bs.
Proof.
  intros Hb Hk Hc. unfold CWISS_mm_cmpgt_epi8_fixed. destruct fixed; [|by apply set1_zip].
  unfold _mm_cmpeq_epi8, _mm_and_si128, _mm_subs_epi8. cbv zeta. unfold _mm_set1_epi8.
  rewrite !zip_with_replicate_r by (rewrite ?length_fmap, ?length_zip_with, ?length_replicate; lia). rewrite <- !list_fmap_compose.
  apply list_fmap_ext. intros i c Hi. unfold compose, flip. rewrite Forall_lookup in Hc. specialize (Hc _ _ Hi).
  pose proof (forallZ_range (λ d, Bool.eqb (Z.land (d - 128) (s8 0x80) =? s8 0x80) (d - 128 <? 0)) 256 ltac:(by vm_compute)) as Hd.
  assert (s8 k <= 127) by (unfold s8; pose proof (Z.mod_pos_bound (k + 2 ^ 7) (2 ^ 8)); lia).
  set (d := Z.max (-128) (Z.min 127 (c - s8 k))). specialize (Hd (d + 128) ltac:(lia)). cbv beta in Hd. rewrite Z.add_simpl_r in Hd.
  apply Bool.eqb_prop in Hd. fold d. rewrite Hd. replace (d <? 0) with (c <? s8 k); [done|].
  destruct (Z.ltb_spec c (s8 k)); symmetry; [apply Z.ltb_lt|apply Z.ltb_ge]; lia.
Qed.

(** The bytes of a group are signed bytes. *)
Lemma ctrl_signed bs : Forall is_ctrl bs → Forall (λ c, -128 <= c < 128) bs.
Proof. intros H. eapply Forall_impl; [exact H|]. intros c [->|[->|[->|Hc]]]; unfold is_full in *; (lia || by compute). Qed.

Lemma count_free_low bs n : length bs = n → let x := _mm_movemask_epi8 ((λ c, if c <? -1 then -1 else 0) <$> bs) + 1 in
  low_bit x (count_free bs).
Proof.
  revert n. induction bs as [|c bs IH]; intros n Hn; cbv zeta.
  - simpl. split_and!; [lia|done|]. intros. by rewrite Z.testbit_neg_r.
  - cbn [fmap list_fmap _mm_movemask_epi8 count_free]. unfold CWISS_IsEmptyOrDeleted, CWISS_kSentinel.
    destruct (c <? -1) eqn:E; cbn [Z.ltb Z.compare].
    + destruct (IH _ eq_refl) as (H0 & H1 & H2). set (x := _mm_movemask_epi8 _ + 1) in *.
      match goal with |- low_bit ?y _ => replace y with (2 * x) by lia end. split_and!; [lia|by rewrite Z.add_comm, Z.add_1_r, Z.double_bits_succ|].
      intros j Hj. destruct (decide (j < 0)); [by rewrite Z.testbit_neg_r|].
      destruct (decide (j = 0)) as [->|]; [apply Z.testbit_even_0|]. replace j with (Z.succ (j - 1)) by lia.
      rewrite Z.double_bits_succ. apply H2. lia.
    + rewrite Z.add_0_l. split_and!; [lia|by rewrite Z.testbit_odd_0|]. intros. by rewrite Z.testbit_neg_r.
Qed.

Section laws.
Context (ssse3 fixed : bool).
Existing Instance group.

Lemma match_exact bs h : length bs = 16%nat → is_full h → selects (H := group ssse3 fixed) (Match16 bs h) bs (λ c, c = h).
Proof.
  intros Hb Hh. unfold Match16, _mm_cmpeq_epi8. rewrite set1_zip by done.
  assert (s8 h = h) as -> by (unfold is_full, s8 in *; rewrite Z.mod_small; lia).
  apply (lanes_select (H := group ssse3 fixed) (λ c, if h =? c then -1 else 0) bs (λ c, c = h)); [done..|].
  intros c _. destruct (Z.eqb_spec h c); split; lia.
Qed.

Lemma match_law bs h : length bs = 16%nat → is_full h → let m := Match16 bs h in
  bm_ok m ∧ width m = 16 ∧ (∀ i, bs !! i = Some h → bm_has m (Z.of_nat i)) ∧ ∀ i, bm_has m (Z.of_nat i) → ∃ c, bs !! i = Some c ∧ is_full c.
Proof.
  intros Hb Hh. destruct (match_exact bs h Hb Hh) as (H1 & H2 & H3). split_and!; [done|done| |].
  - intros i Hi. apply H3. eauto.
  - intros i (c & Hi & ->)%H3. eauto.
Qed.

Lemma match_empty_law bs : length bs = 16%nat → Forall is_ctrl bs → selects (H := group ssse3 fixed) (MatchEmpty16 ssse3 bs) bs (λ c, c = CWISS_kEmpty).
Proof.
  intros Hb Hc. unfold MatchEmpty16. destruct ssse3.
  - unfold _mm_sign_epi8. rewrite zip_with_diag. apply lanes_select; [done..|].
    intros c Hi. rewrite Forall_forall in Hc. destruct (Hc _ Hi) as [->|[->|[->|Hf]]]; [by compute..|].
    unfold is_full in Hf. destruct (Z.ltb_spec c 0); [lia|]. destruct (Z.eqb_spec c 0); unfold CWISS_kEmpty; lia.
  - unfold Match16, _mm_cmpeq_epi8. rewrite set1_zip by done. apply lanes_select; [done..|].
    intros c _. change (s8 (u8 CWISS_kEmpty)) with (-128). unfold CWISS_kEmpty. destruct (Z.eqb_spec (-128) c); split; lia.
Qed.

Lemma match_free_law bs : length bs = 16%nat → Forall is_ctrl bs →
  selects (H := group ssse3 fixed) (MatchEmptyOrDeleted16 fixed bs) bs (λ c, c = CWISS_kEmpty ∨ c = CWISS_kDeleted).
Proof.
  intros Hb Hc. unfold MatchEmptyOrDeleted16. cbv zeta. rewrite cmpgt_lanes by (first [done|by compute|by apply ctrl_signed]).
  apply lanes_select; [done..|]. intros c Hi. rewrite Forall_forall in Hc. change (s8 (u8 CWISS_kSentinel)) with (-1).
  destruct (Hc _ Hi) as [->|[->|[->|Hf]]]; unfold is_full, CWISS_kEmpty, CWISS_kDeleted, CWISS_kSentinel in *; [simpl; lia..|].
  destruct (Z.ltb_spec c (-1)); lia.
Qed.

Lemma count_free_law bs : length bs = 16%nat → Forall is_ctrl bs → CountLeadingEmptyOrDeleted16 fixed bs = count_free bs.
Proof.
  intros Hb Hc. unfold CountLeadingEmptyOrDeleted16. cbv zeta. rewrite cmpgt_lanes by (first [done|by compute|by apply ctrl_signed]).
  change (s8 (u8 CWISS_kSentinel)) with (-1). pose proof (movemask_range ((λ c, if c <? -1 then -1 else 0) <$> bs)) as Hr.
  rewrite length_fmap, Hb in Hr. change (2 ^ Z.of_nat 16) with (2 ^ 16) in Hr.
  rewrite u32_small by (unfold is_u32; lia). apply trailing_zeroes_low; [lia|]. by eapply count_free_low.
Qed.

Lemma convert_law bs : length bs = 16%nat → Forall is_ctrl bs → ConvertSpecialToEmptyAndFullToDeleted16 ssse3 fixed bs = convert_byte <$> bs.
Proof.
  intros Hb Hc. unfold ConvertSpecialToEmptyAndFullToDeleted16. cbv zeta. destruct ssse3.
  - unfold _mm_or_si128, _mm_set1_epi8. rewrite zip_with_replicate_r by (unfold _mm_shuffle_epi8; rewrite length_fmap; lia).
    unfold _mm_shuffle_epi8. rewrite <- list_fmap_compose. apply list_fmap_ext. intros i c Hi. unfold compose, flip, convert_byte, CWISS_IsFull.
    rewrite Forall_lookup in Hc. destruct (Hc _ _ Hi) as [->|[->|[->|Hf]]]; [by compute..|]. unfold is_full in Hf.
    destruct (Z.ltb_spec c 0); [lia|]. destruct (Z.leb_spec 0 c); [|lia].
    rewrite (nth_lookup_Some _ _ _ 126); [by compute|]. apply lookup_replicate_2. change 15 with (2 ^ 4 - 1). rewrite (land_ones_mod c 4) by lia.
    pose proof (Z.mod_pos_bound c (2 ^ 4)). lia.
  - change _mm_setzero_si128 with (_mm_set1_epi8 0). rewrite cmpgt_lanes by (first [done|by compute|by apply ctrl_signed]).
    unfold _mm_or_si128, _mm_andnot_si128, _mm_set1_epi8. rewrite zip_with_replicate_r by (rewrite length_fmap; lia).
    rewrite zip_with_replicate_l by (rewrite !length_fmap; lia). rewrite <- !list_fmap_compose. apply list_fmap_ext. intros i c Hi.
    unfold compose, flip, convert_byte, CWISS_IsFull. change (s8 0) with 0.
    destruct (Z.ltb_spec c 0); destruct (Z.leb_spec 0 c); first [lia|by compute].
Qed.

End laws.

#[export] Instance group_laws ssse3 fixed : GroupLaws (group ssse3 fixed).
Proof.
  assert (∀ bs, group_bytes (H := group ssse3 fixed) bs → length bs = 16%nat ∧ Forall is_ctrl bs) as Hg.
  { intros bs [Hl Hc]. cbn [CWISS_Group_kWidth group] in Hl. split; [lia|done]. }
  split.
  - by right.
  - intros bs h [Hb Hc]%Hg. by apply match_law.
  - intros bs [Hb Hc]%Hg. by apply match_empty_law.
  - intros bs [Hb Hc]%Hg. by apply match_free_law.
  - intros bs [Hb Hc]%Hg. by apply count_free_law.
  - intros bs [Hb Hc]%Hg. by apply convert_law.
Qed.

End Sse2.

(** ** Groups of 8 bytes in a word

    [be] is [CWISS_IS_BIG_ENDIAN]. *)
Module Word8.

Definition msbs : Z := 0x8080808080808080.
Definition lsbs : Z := 0x0101010101010101.
Definition gaps : Z := 0x00FEFEFEFEFEFEFE.

Definition CWISS_Group_BitMask8 (x : Z) : CWISS_BitMask := mkBitMask x 8 3.

(** One byte of [bswap64]: byte [i] goes to byte [7 - i]. *)
Definition bswap_byte (v i : Z) : Z :=
  let b := Z.land v (Z.shiftl 0xff (i * 8)) in
  if 4 <=? i then Z.shiftr b ((2 * i - 7) * 8) else u64 (Z.shiftl b ((7 - 2 * i) * 8)).

Definition bswap64 (v : Z) : Z :=
  Z.lor (Z.lor (Z.lor (Z.lor (Z.lor (Z.lor (Z.lor (bswap_byte v 7) (bswap_byte v 6)) (bswap_byte v 5)) (bswap_byte v 4))
    (bswap_byte v 3)) (bswap_byte v 2)) (bswap_byte v 1)) (bswap_byte v 0).

(** [memcpy] between bytes of memory and a word. *)
Definition word_of (be : bool) (bs : list Z) : Z := le_val (u8 <$> (if be then rev bs else bs)).
Definition word_bytes (x : Z) : list Z := (λ i, s8 (Z.shiftr x (8 * Z.of_nat i))) <$> seq 0 8.
Definition bytes_of (be : bool) (x : Z) : list Z := if be then rev (word_bytes x) else word_bytes x.

Definition Group_new (be : bool) (bs : list Z) : Z := let val := word_of be bs in if be then bswap64 val else val.

Definition Match8 (self hash : Z) : CWISS_BitMask :=
  let x := Z.lxor self (u64 (lsbs * hash)) in
  CWISS_Group_BitMask8 (Z.land (Z.land (u64 (x - lsbs)) (not64 x)) msbs).

Definition MatchEmpty8 (self : Z) : CWISS_BitMask :=
  CWISS_Group_BitMask8 (Z.land (Z.land self (u64 (Z.shiftl (not64 self) 6))) msbs).

Definition MatchEmptyOrDeleted8 (self : Z) : CWISS_BitMask :=
  CWISS_Group_BitMask8 (Z.land (Z.land self (u64 (Z.shiftl (not64 self) 7))) msbs).

Definition CountLeadingEmptyOrDeleted8 (self : Z) : Z :=
  Z.shiftr (CWISS_TrailingZeroes64 (u64 (Z.lor (Z.land (not64 self) (Z.shiftr self 7)) gaps + 1)) + 7) 3.

Definition ConvertSpecialToEmptyAndFullToDeleted8 (be : bool) (self : Z) : list Z :=
  let x := Z.land self msbs in
  let res := Z.land (u64 (not64 x + Z.shiftr x 7)) (not64 lsbs) in
  bytes_of be res.

Definition group (be : bool) : GroupOps := {|
  Group := Z;
  CWISS_Group_kWidth := 8;
  CWISS_Group_new := Group_new be;
  CWISS_Group_Match := Match8;
  CWISS_Group_MatchEmpty := MatchEmpty8;
  CWISS_Group_MatchEmptyOrDeleted := MatchEmptyOrDeleted8;
  CWISS_Group_CountLeadingEmptyOrDeleted := CountLeadingEmptyOrDeleted8;
  CWISS_Group_ConvertSpecialToEmptyAndFullToDeleted := ConvertSpecialToEmptyAndFullToDeleted8 be
|}.

(** *** The laws *)

Lemma low_byte_bit b v k : is_u8 b → 0 <= k < 8 → Z.testbit (b + 256 * v) k = Z.testbit b k.
Proof.
  intros Hb Hk. unfold is_u8 in Hb. rewrite <- (Z.mod_pow2_bits_low _ 8) by lia. f_equal. symmetry. apply Z.mod_unique with v; lia.
Qed.

Lemma high_byte_bit b v j : is_u8 b → 0 <= j → Z.testbit (b + 256 * v) (j + 8) = Z.testbit v j.
Proof.
  intros Hb Hj. unfold is_u8 in Hb. rewrite <- Z.div_pow2_bits by lia. f_equal. symmetry. apply Z.div_unique with b; lia.
Qed.

Lemma le_bits l i k : is_bytes l → 0 <= k < 8 →
  Z.testbit (le_val l) (8 * Z.of_nat i + k) = match l !! i with Some b => Z.testbit b k | None => false end.
Proof.
  intros Hl Hk. revert i. induction Hl as [|b l Hb _ IH]; intros i; [by rewrite Z.testbit_0_l|]. cbn [le_val].
  destruct i as [|i]; cbn [lookup list_lookup].
  - change (8 * Z.of_nat 0 + k) with k. by apply low_byte_bit.
  - rewrite <- IH. replace (8 * Z.of_nat (S i) + k) with (8 * Z.of_nat i + k + 8) by lia. apply high_byte_bit; [done|lia].
Qed.

Lemma msbs_bits j : Z.testbit msbs j = (j mod 8 =? 7) && (0 <=? j) && (j <? 64).
Proof.
  destruct (decide (j < 0)); [rewrite Z.testbit_neg_r by lia; rewrite (proj2 (Z.leb_gt 0 j)) by lia; by rewrite andb_false_r|].
  destruct (decide (64 <= j)); [rewrite (testbit_high msbs 64) by (done || lia); rewrite (proj2 (Z.ltb_ge j 64)) by lia; by rewrite andb_false_r|].
  apply Bool.eqb_prop, (forallZ_range (λ j, Bool.eqb (Z.testbit msbs j) ((j mod 8 =? 7) && (0 <=? j) && (j <? 64))) 64); [by vm_compute|lia].
Qed.

Lemma word_mask w : is_u64 w → let m := CWISS_Group_BitMask8 (Z.land w msbs) in
  bm_ok m ∧ ∀ i, bm_has m (Z.of_nat i) ↔ (i < 8)%nat ∧ Z.testbit w (8 * Z.of_nat i + 7) = true.
Proof.
  intros Hw. cbv zeta. split.
  - split; cbn [mask width shift CWISS_Group_BitMask8].
    + by apply land_bound.
    + by right.
    + intros j. rewrite Z.land_spec, msbs_bits. intros Hj. zbool. exists (j / 8). unfold bm_pos. cbn [shift CWISS_Group_BitMask8].
      change (2 ^ 3) with 8. pose proof (Z.div_mod j 8). split; [|lia]. split; [apply Z.div_pos|apply Z.div_lt_upper_bound]; lia.
  - intros i. unfold bm_has, bm_pos. cbn [mask width shift CWISS_Group_BitMask8]. change (2 ^ 3) with 8.
    replace (Z.of_nat i * 8 + (8 - 1)) with (8 * Z.of_nat i + 7) by lia. rewrite Z.land_spec, msbs_bits. split.
    + intros [Hi Ht]. zbool. split; [lia|done].
    + intros [Hi Ht]. split; [lia|]. rewrite Ht, (proj2 (Z.leb_le 0 _)), (proj2 (Z.ltb_lt _ 64)) by lia.
      replace ((8 * Z.of_nat i + 7) mod 8) with 7; [done|]. apply Z.mod_unique with (Z.of_nat i); lia.
Qed.

(** The bits of a control byte. *)
Definition ubytes (bs : list Z) : list Z := u8 <$> bs.

Lemma ubytes_bytes bs : is_bytes (ubytes bs).
Proof. apply Forall_fmap, Forall_true. intros. apply u8_range. Qed.

Lemma word_bit bs i c k : bs !! i = Some c → 0 <= k < 8 → Z.testbit (le_val (ubytes bs)) (8 * Z.of_nat i + k) = Z.testbit (u8 c) k.
Proof. intros Hi Hk. rewrite le_bits by (apply ubytes_bytes || done). unfold ubytes. by rewrite list_lookup_fmap, Hi. Qed.

Lemma word_u64 bs : length bs = 8%nat → is_u64 (le_val (ubytes bs)).
Proof.
  intros H. pose proof (le_val_range (ubytes bs) (ubytes_bytes bs)) as Hr. unfold ubytes in *. rewrite length_fmap, H in Hr. exact Hr.
Qed.

Lemma not64_bit x i : 0 <= i < 64 → Z.testbit (not64 x) i = negb (Z.testbit x i).
Proof. intros Hi. unfold not64, u64. rewrite Z.mod_pow2_bits_low, Z.lnot_spec by lia. done. Qed.

Lemma not64_range x : is_u64 (not64 x).
Proof. apply u64_range. Qed.

(** A byte is negative when its highest bit is set, and free when moreover its lowest is not. *)
Lemma ctrl_bits c : is_ctrl c → Z.testbit (u8 c) 7 = (c <? 0) ∧
  Z.testbit (u8 c) 7 && negb (Z.testbit (u8 c) 1) = (c =? CWISS_kEmpty) ∧
  Z.testbit (u8 c) 7 && negb (Z.testbit (u8 c) 0) = CWISS_IsEmptyOrDeleted c.
Proof.
  intros [->|[->|[->|Hf]]]; [by compute..|]. unfold is_full in Hf. rewrite u8_small by (unfold is_u8; lia).
  rewrite (testbit_high c 7) by lia. unfold CWISS_IsEmptyOrDeleted, CWISS_kSentinel, CWISS_kEmpty.
  destruct (Z.ltb_spec c 0), (Z.eqb_spec c (-128)), (Z.ltb_spec c (-1)); first [lia|done].
Qed.

(** The two tests for free slots look at the highest bit and at one other, [k]. *)
Lemma free_mask bs k : length bs = 8%nat → 0 <= k <= 7 → let g := le_val (ubytes bs) in
  let m := CWISS_Group_BitMask8 (Z.land (Z.land g (u64 (Z.shiftl (not64 g) (7 - k)))) msbs) in
  bm_ok m ∧ ∀ i, bm_has m (Z.of_nat i) ↔ ∃ c, bs !! i = Some c ∧ Z.testbit (u8 c) 7 && negb (Z.testbit (u8 c) k) = true.
Proof.
  intros Hb Hk g m. destruct (word_mask (Z.land g (u64 (Z.shiftl (not64 g) (7 - k))))) as [H1 H2].
  { apply land_bound; [lia|]. by apply word_u64. }
  split; [done|]. intros i. unfold m. rewrite H2. clear H1 H2. unfold u64.
  assert (∀ c, bs !! i = Some c → (i < 8)%nat → Z.testbit (Z.land g (Z.shiftl (not64 g) (7 - k) mod 2 ^ 64)) (8 * Z.of_nat i + 7)
    = Z.testbit (u8 c) 7 && negb (Z.testbit (u8 c) k)) as E.
  { intros c Hc Hi. rewrite Z.land_spec, Z.mod_pow2_bits_low, Z.shiftl_spec by lia.
    replace (8 * Z.of_nat i + 7 - (7 - k)) with (8 * Z.of_nat i + k) by lia. rewrite not64_bit by lia. unfold g. by rewrite !(word_bit bs i c) by (done || lia). }
  split.
  - intros [Hi Ht]. destruct (lookup_lt_is_Some_2 bs i ltac:(lia)) as [c Hc]. exists c. split; [done|]. by rewrite <- (E c).
  - intros (c & Hc & Ht). pose proof (lookup_lt_Some _ _ _ Hc). split; [lia|]. by rewrite (E c) by (done || lia).
Qed.

(** *** The match of a hash: a subtraction that borrows across bytes *)

Lemma lxor_step b c v w : is_u8 b → is_u8 c → Z.lxor (b + 256 * v) (c + 256 * w) = Z.lxor b c + 256 * Z.lxor v w.
Proof.
  intros Hb Hc. assert (is_u8 (Z.lxor b c)) as Hx by (apply (lxor_bound b c 8); [lia|done|done]).
  apply Z.bits_inj_iff'. intros j Hj. rewrite Z.lxor_spec. destruct (decide (j < 8)).
  - by rewrite !low_byte_bit, Z.lxor_spec by (done || lia).
  - replace j with (j - 8 + 8) by lia. by rewrite !high_byte_bit, Z.lxor_spec by (done || lia).
Qed.

Lemma lxor_bytes h l : is_u8 h → is_bytes l → Z.lxor (le_val l) (le_val (replicate (length l) h)) = le_val ((λ b, Z.lxor b h) <$> l).
Proof. intros Hh. induction 1 as [|b l Hb _ IH]; [done|]. cbn [length replicate le_val fmap list_fmap]. by rewrite lxor_step, IH. Qed.

Lemma sub_ones_bit l c i b : is_bytes l → 0 <= c <= 1 → l !! i = Some b →
  let t := Z.testbit (le_val l - le_val (replicate (length l) 1) - c) (8 * Z.of_nat i + 7) in
  (b = 0 → t = true) ∧ (t = true → Z.testbit b 7 = false → 0 <= b <= 1).
Proof.
  intros Hl. revert c i. induction Hl as [|a l Ha Hl' IH]; intros c i Hc Hi; [done|]. cbn [length replicate le_val]. unfold is_u8 in Ha.
  destruct i as [|i]; cbn [lookup list_lookup] in Hi.
  - injection Hi as ->. change (8 * Z.of_nat 0 + 7) with 7. cbv zeta. set (v := le_val l - le_val (replicate (length l) 1)).
    replace (b + 256 * le_val l - (1 + 256 * le_val (replicate (length l) 1)) - c) with ((b - 1 - c) + 256 * v) by lia.
    destruct (decide (b - 1 - c < 0)) as [Hn|Hn].
    + split; [|lia]. intros ->. replace (0 - 1 - c + 256 * v) with ((255 - c) + 256 * (v - 1)) by lia.
      rewrite low_byte_bit by (unfold is_u8; lia). assert (c = 0 ∨ c = 1) as [->| ->] by lia; done.
    + rewrite low_byte_bit by (unfold is_u8; lia). split; [lia|]. intros Ht Hb. destruct (decide (b < 128)).
      * by rewrite (testbit_high _ 7) in Ht by lia.
      * replace b with (b - 128 + 128) in Hb by lia. exfalso. revert Hb.
        pose proof (forallZ_range (λ d, Z.testbit (d + 128) 7) 128 ltac:(by vm_compute) (b - 128) ltac:(lia)) as ->. done.
  - replace (8 * Z.of_nat (S i) + 7) with (8 * Z.of_nat i + 7 + 8) by lia.
    destruct (decide (a - 1 - c < 0)).
    + replace (a + 256 * le_val l - (1 + 256 * le_val (replicate (length l) 1)) - c)
        with ((a - 1 - c + 256) + 256 * (le_val l - le_val (replicate (length l) 1) - 1)) by lia.
      rewrite high_byte_bit by (unfold is_u8; lia). apply IH; [lia|done].
    + replace (a + 256 * le_val l - (1 + 256 * le_val (replicate (length l) 1)) - c)
        with ((a - 1 - c) + 256 * (le_val l - le_val (replicate (length l) 1) - 0)) by lia.
      rewrite high_byte_bit by (unfold is_u8; lia). apply IH; [lia|done].
Qed.

Lemma word_match_law bs h : length bs = 8%nat → Forall is_ctrl bs → is_full h → let m := Match8 (le_val (ubytes bs)) h in
  bm_ok m ∧ width m = 8 ∧ (∀ i, bs !! i = Some h → bm_has m (Z.of_nat i)) ∧ ∀ i, bm_has m (Z.of_nat i) → ∃ c, bs !! i = Some c ∧ is_full c.
Proof.
  intros Hb Hc Hh. assert (is_u8 h) as Hu by (unfold is_full, is_u8 in *; lia). cbv zeta. unfold Match8. cbv zeta.
  replace (u64 (lsbs * h)) with (le_val (replicate (length (ubytes bs)) h)).
  2: { unfold ubytes. rewrite length_fmap, Hb. unfold is_u8 in Hu. rewrite u64_small by (unfold is_u64, lsbs; lia).
       cbn [replicate le_val]. unfold lsbs. lia. }
  rewrite lxor_bytes by (done || apply ubytes_bytes). set (x := (λ b, Z.lxor b h) <$> ubytes bs).
  assert (is_bytes x) as Hx.
  { apply Forall_fmap. eapply Forall_impl; [apply ubytes_bytes|]. intros b Hb'. apply (lxor_bound b h 8); [lia|done|done]. }
  assert (length x = 8%nat) as Hlx by (unfold x, ubytes; by rewrite !length_fmap).
  assert (∀ i c, bs !! i = Some c → x !! i = Some (Z.lxor (u8 c) h)) as Hxi.
  { intros i c Hi. unfold x, ubytes. by rewrite !list_lookup_fmap, Hi. }
  destruct (word_mask (Z.land (u64 (le_val x - lsbs)) (not64 (le_val x)))) as [H1 H2].
  { apply land_bound; [lia|]. apply u64_range. }
  assert (∀ i b, x !! i = Some b → (i < 8)%nat → let t := Z.testbit (Z.land (u64 (le_val x - lsbs)) (not64 (le_val x))) (8 * Z.of_nat i + 7) in
    (b = 0 → t = true) ∧ (t = true → 0 <= b <= 1)) as Ht.
  { intros i b Hi Hlt. cbv zeta. rewrite Z.land_spec, not64_bit by lia. unfold u64. rewrite Z.mod_pow2_bits_low by lia.
    destruct (sub_ones_bit x 0 i b Hx ltac:(lia) Hi) as [S1 S2]. rewrite Hlx, Z.sub_0_r in S1, S2. change (le_val (replicate 8 1)) with lsbs in S1, S2.
    rewrite le_bits, Hi by (done || lia). split.
    - intros ->. by rewrite S1.
    - intros [T1 T2]%andb_true_iff. apply negb_true_iff in T2. auto. }
  split_and!; [done|done| |].
  - intros i Hi. pose proof (lookup_lt_Some _ _ _ Hi). apply H2. split; [lia|]. apply (Ht i _ (Hxi _ _ Hi)); [lia|].
    rewrite u8_small by done. apply Z.lxor_nilpotent.
  - intros i [Hlt Hi]%H2. destruct (lookup_lt_is_Some_2 bs i ltac:(lia)) as [c Hci]. exists c. split; [done|].
    destruct (Ht i _ (Hxi _ _ Hci) Hlt) as [_ Hr]. specialize (Hr Hi).
    assert (0 <= u8 c < 128) as Hs.
    { replace (u8 c) with (Z.lxor (Z.lxor (u8 c) h) h) by (by rewrite Z.lxor_assoc, Z.lxor_nilpotent, Z.lxor_0_r).
      apply (lxor_bound _ _ 7); [lia|lia|exact Hh]. }
    rewrite Forall_lookup in Hc. destruct (Hc _ _ Hci) as [->|[->|[->|?]]]; [destruct Hs as [_ Hs]; by compute in Hs..|done].
Qed.

(** Which positions of a word the subtraction marks: those of the hash [h], and behind a
    marked one also those of the hash that differs from it in the lowest bit, because the
    subtraction borrows from there. *)
Fixpoint word_hits (h : Z) (bs : list Z) (borrow : bool) : list bool :=
  match bs with
  | [] => []
  | c :: bs' => let hit := (c =? h) || (borrow && (Z.lxor c h =? 1)) in hit :: word_hits h bs' hit
  end.

Lemma ctrl_xor c h : is_ctrl c → is_full h →
  let a := Z.lxor (u8 c) h in is_u8 a ∧ (a = 0 ↔ c = h) ∧ (a = 1 ↔ Z.lxor c h = 1) ∧ (Z.testbit a 7 = false ↔ a < 128).
Proof.
  intros Hc Hh. cbv zeta. assert (0 <= c < 128 ∨ (128 <= u8 c < 256 ∧ c < 0)) as Hcs.
  { destruct Hc as [->|[->|[->|Hf]]]; [right; by split; [split; vm_compute|]..|by left]. }
  assert (0 <= Z.lxor (u8 c) h < 2 ^ 8) as Ha by (apply lxor_bound; [lia|apply u8_range|unfold is_full in Hh; lia]).
  assert (Z.testbit (Z.lxor (u8 c) h) 7 = false ↔ Z.lxor (u8 c) h < 128) as Ht.
  { pose proof (forallZ_range (λ d, bool_decide (Z.testbit d 7 = false ↔ d < 128)) 256 ltac:(by vm_compute) (Z.lxor (u8 c) h) ltac:(lia)) as E. by apply bool_decide_eq_true in E. }
  split; [unfold is_u8; lia|]. split; [|split; [|exact Ht]]; destruct Hcs as [Hf|[Hu Hn]]; rewrite ?(u8_small c) by (unfold is_u8; lia).
  - rewrite Z.lxor_eq_0_iff. done.
  - rewrite Z.lxor_eq_0_iff. unfold is_full in Hh. lia.
  - done.
  - assert (Z.lxor c h < 0) by (apply Z.nle_gt; rewrite Z.lxor_nonneg; unfold is_full in Hh; lia).
    split; [|lia]. intros E. exfalso. assert (Z.testbit (Z.lxor (u8 c) h) 7 = true) as T; [|rewrite E in T; done].
    rewrite Z.lxor_spec, (testbit_high h 7) by (unfold is_full in Hh; lia).
    pose proof (forallZ_range (λ d, Z.testbit (d + 128) 7) 128 ltac:(by vm_compute) (u8 c - 128) ltac:(lia)) as T. cbn beta in T.
    replace (u8 c - 128 + 128) with (u8 c) in T by lia. by rewrite T.
Qed.

Lemma sub_ones_hits h bs p i : is_full h → Forall is_ctrl bs → (i < length bs)%nat →
  let x := (λ c, Z.lxor (u8 c) h) <$> bs in
  Z.testbit (le_val x - le_val (replicate (length x) 1) - Z.b2z p) (8 * Z.of_nat i + 7) && negb (Z.testbit (default 0 (x !! i)) 7)
  = default false (word_hits h bs p !! i).
Proof.
  intros Hh Hc. revert p i. induction Hc as [|c bs Hc _ IH]; intros p i Hi; [cbn in Hi; lia|]. cbv zeta in IH |- *. cbn [fmap list_fmap length replicate le_val word_hits].
  destruct (ctrl_xor c h Hc Hh) as (Ha & E0 & E1 & E7). set (a := Z.lxor (u8 c) h) in *. set (x := (λ c, Z.lxor (u8 c) h) <$> bs) in *.
  change (list_fmap Z Z (λ c0 : Z, Z.lxor (u8 c0) h) bs) with x. set (hit := (c =? h) || (p && (Z.lxor c h =? 1))).
  assert (hit = true ↔ a - 1 - Z.b2z p < 0) as Hhit.
  { unfold hit, is_u8 in *. rewrite orb_true_iff, andb_true_iff, !Z.eqb_eq, <- E0, <- E1. destruct p; cbn [Z.b2z]; naive_solver lia. }
  set (v := le_val x - le_val (replicate (length x) 1)).
  replace (a + 256 * le_val x - (1 + 256 * le_val (replicate (length x) 1)) - Z.b2z p) with ((a - 1 - Z.b2z p + 256 * Z.b2z hit) + 256 * (v - Z.b2z hit)) by (unfold v; lia).
  assert (is_u8 (a - 1 - Z.b2z p + 256 * Z.b2z hit)) as Hlow.
  { unfold is_u8 in *. destruct hit; cbn [Z.b2z]; [assert (a - 1 - Z.b2z p < 0) by (by apply Hhit)|assert (¬ a - 1 - Z.b2z p < 0) by (by rewrite <- Hhit)]; destruct p; cbn [Z.b2z] in *; lia. }
  destruct i as [|i]; cbn [lookup list_lookup default from_option id].
  - change (8 * Z.of_nat 0 + 7) with 7. rewrite low_byte_bit by (done || lia). destruct hit; cbn [Z.b2z] in *.
    + assert (a - 1 - Z.b2z p < 0) as Hn by (by apply Hhit). unfold is_u8 in *.
      assert (Z.testbit a 7 = false) as -> by (apply E7; destruct p; cbn [Z.b2z] in *; lia).
      assert (a - 1 - Z.b2z p + 256 * 1 = 254 ∨ a - 1 - Z.b2z p + 256 * 1 = 255) as [-> | ->] by (destruct p; cbn [Z.b2z] in *; lia); done.
    + destruct (Z.testbit a 7) eqn:T; cbn [negb]; [by rewrite andb_false_r|]. rewrite andb_true_r. assert (¬ a - 1 - Z.b2z p < 0) as Hn by (by rewrite <- Hhit).
      assert (a < 128) by (by apply E7). apply (testbit_high _ 7); [|lia]. destruct p; cbn [Z.b2z] in *; lia.
  - replace (8 * Z.of_nat (S i) + 7) with (8 * Z.of_nat i + 7 + 8) by lia. rewrite high_byte_bit by (done || lia). apply IH. cbn in Hi. lia.
Qed.

Lemma word_match_exact bs h i : length bs = 8%nat → Forall is_ctrl bs → is_full h →
  bm_has (Match8 (le_val (ubytes bs)) h) (Z.of_nat i) ↔ word_hits h bs false !! i = Some true.
Proof.
  intros Hb Hc Hh. assert (is_u8 h) as Hu by (unfold is_full, is_u8 in *; lia). unfold Match8. cbv zeta.
  replace (u64 (lsbs * h)) with (le_val (replicate (length (ubytes bs)) h)).
  2: { unfold ubytes. rewrite length_fmap, Hb. unfold is_u8 in Hu. rewrite u64_small by (unfold is_u64, lsbs; lia).
       cbn [replicate le_val]. unfold lsbs. lia. }
  rewrite lxor_bytes by (done || apply ubytes_bytes).
  assert ((λ b, Z.lxor b h) <$> ubytes bs = (λ c, Z.lxor (u8 c) h) <$> bs) as -> by (unfold ubytes; by rewrite <- list_fmap_compose).
  set (x := (λ c, Z.lxor (u8 c) h) <$> bs). assert (length x = 8%nat) as Hlx by (unfold x; by rewrite length_fmap).
  assert (is_bytes x) as Hx.
  { apply Forall_fmap. eapply Forall_impl; [exact Hc|]. intros c Hc'. apply (ctrl_xor c h Hc' Hh). }
  destruct (word_mask (Z.land (u64 (le_val x - lsbs)) (not64 (le_val x)))) as [_ H2]; [apply land_bound; [lia|]; apply u64_range|].
  assert (length (word_hits h bs false) = 8%nat) as Hlh by (rewrite <- Hb; generalize false; clear; induction bs as [|c bs IH]; intros b; cbn; [done|by rewrite IH]).
  rewrite H2. destruct (decide (i < 8)%nat) as [Hi|Hi].
  - pose proof (sub_ones_hits h bs false i Hh Hc ltac:(lia)) as E. cbv zeta in E. fold x in E. rewrite Hlx, Z.sub_0_r in E. change (le_val (replicate 8 1)) with lsbs in E.
    destruct (lookup_lt_is_Some_2 x i ltac:(lia)) as [b Hxi]. destruct (lookup_lt_is_Some_2 (word_hits h bs false) i ltac:(lia)) as [t Ht].
    rewrite Z.land_spec, not64_bit by lia. unfold u64. rewrite Z.mod_pow2_bits_low by lia. rewrite le_bits, Hxi by (done || lia).
    rewrite Hxi in E. rewrite Ht in E |- *. cbn [default from_option id] in E. rewrite E. split; [by intros [_ ->]|]. intros [= ->]. by split.
  - split; [lia|]. intros Ht%lookup_lt_Some. lia.
Qed.

(** *** Counting and converting: the result depends on one bit of each byte *)

(** The word with the bits [l] at the bottom of its bytes. *)
Definition spread (l : list bool) : Z := le_val (Z.b2z <$> l).

Fixpoint vectors (n : nat) : list (list bool) :=
  match n with O => [[]] | S n' => (cons true <$> vectors n') ++ (cons false <$> vectors n') end.

Lemma vectors_all l : l ∈ vectors (length l).
Proof.
  induction l as [|b l IH]; cbn [length vectors]; [by apply list_elem_of_singleton|].
  apply elem_of_app. destruct b; [left|right]; by apply list_elem_of_fmap_2.
Qed.

Lemma vectors_forall (f : list bool → bool) n : forallb f (vectors n) = true → ∀ l, length l = n → f l = true.
Proof. intros H l <-. rewrite forallb_forall in H. apply H, list_elem_of_In, vectors_all. Qed.

Lemma spread_bits l j : Z.testbit (spread l) j = (0 <=? j) && (j mod 8 =? 0) && default false (l !! Z.to_nat (j / 8)).
Proof.
  destruct (Z.leb_spec 0 j) as [Hj|]; [|by rewrite Z.testbit_neg_r by lia]. pose proof (Z.div_mod j 8 ltac:(lia)) as E. pose proof (Z.mod_pos_bound j 8 ltac:(lia)) as Hm.
  rewrite E at 1. assert (0 <= j / 8) by (apply Z.div_pos; lia). replace (j / 8) with (Z.of_nat (Z.to_nat (j / 8))) at 1 by lia. unfold spread.
  rewrite le_bits; [|apply Forall_fmap, Forall_true; intros []; unfold is_u8; simpl; lia|lia]. rewrite list_lookup_fmap.
  destruct (l !! Z.to_nat (j / 8)) as [[]|]; simpl; [|by rewrite Z.testbit_0_l, andb_false_r|by rewrite andb_false_r].
  rewrite andb_true_r. destruct (Z.eqb_spec (j mod 8) 0) as [->|Hn]; [done|].
  apply Z.bits_above_log2; simpl; lia.
Qed.

Lemma count_law bs : length bs = 8%nat → Forall is_ctrl bs → CountLeadingEmptyOrDeleted8 (le_val (ubytes bs)) = count_free bs.
Proof.
  intros Hb Hc. unfold CountLeadingEmptyOrDeleted8. set (g := le_val (ubytes bs)).
  assert (Z.lor (Z.land (not64 g) (Z.shiftr g 7)) gaps = Z.lor (spread (CWISS_IsEmptyOrDeleted <$> bs)) gaps) as ->.
  { apply Z.bits_inj_iff'. intros j Hj. rewrite !Z.lor_spec. destruct (Z.testbit gaps j) eqn:Eg; [by rewrite !orb_true_r|]. rewrite !orb_false_r.
    rewrite Z.land_spec, Z.shiftr_spec, spread_bits by lia. rewrite (proj2 (Z.leb_le 0 j)) by lia. cbn [andb].
    destruct (decide (57 <= j)).
    { rewrite (testbit_high g 64 (j + 7)) by (lia || by apply word_u64). rewrite andb_false_r. symmetry.
      destruct (Z.eqb_spec (j mod 8) 0) as [Em|]; [|done]. rewrite lookup_ge_None_2; [done|]. rewrite length_fmap, Hb.
      assert (8 <= j / 8); [|lia]. apply Z.div_le_lower_bound; [lia|]. pose proof (Z.div_mod j 8 ltac:(lia)). lia. }
    destruct (Z.eqb_spec (j mod 8) 0) as [Em|En].
    2: { exfalso. pose proof (forallZ_range (λ j, (j mod 8 =? 0) || Z.testbit gaps j) 57 ltac:(by vm_compute) j ltac:(lia)) as Hf. cbv beta in Hf.
         rewrite Eg, orb_false_r in Hf. zbool. done. }
    pose proof (Z.div_mod j 8 ltac:(lia)) as Ej. rewrite Em in Ej. assert (0 <= j / 8) by (apply Z.div_pos; lia).
    assert (∃ i, j = 8 * Z.of_nat i) as [i ->] by (exists (Z.to_nat (j / 8)); lia).
    replace (8 * Z.of_nat i / 8) with (Z.of_nat i) by (rewrite Z.mul_comm, Z.div_mul; lia). rewrite Nat2Z.id. destruct (lookup_lt_is_Some_2 bs i ltac:(lia)) as [c Hi]. cbn [andb].
    rewrite list_lookup_fmap, Hi. cbn [fmap option_fmap option_map default]. rewrite not64_bit by lia.
    replace (8 * Z.of_nat i) with (8 * Z.of_nat i + 0) at 1 by lia. unfold g. rewrite !(word_bit bs i c) by (done || lia).
    rewrite Forall_lookup in Hc. destruct (ctrl_bits c (Hc _ _ Hi)) as (_ & _ & <-). apply andb_comm. }
  set (f := λ l, Z.shiftr (CWISS_TrailingZeroes64 (u64 (Z.lor (spread l) gaps + 1)) + 7) 3 =? 
    (fix go l := match l with true :: l' => 1 + go l' | _ => 0 end) l).
  pose proof (vectors_forall f 8 ltac:(by vm_compute) (CWISS_IsEmptyOrDeleted <$> bs) ltac:(by rewrite length_fmap)) as Hf.
  unfold f in Hf. zbool. rewrite Hf. clear. induction bs as [|c bs IH]; [done|]. cbn [fmap list_fmap count_free].
  destruct (CWISS_IsEmptyOrDeleted c); [|done]. by f_equal.
Qed.

Lemma word_convert_law bs : length bs = 8%nat → Forall is_ctrl bs → ConvertSpecialToEmptyAndFullToDeleted8 false (le_val (ubytes bs)) = convert_byte <$> bs.
Proof.
  intros Hb Hc. unfold ConvertSpecialToEmptyAndFullToDeleted8. cbv zeta. set (g := le_val (ubytes bs)).
  assert (Z.land g msbs = Z.shiftl (spread ((λ c, c <? 0) <$> bs)) 7) as ->.
  { apply Z.bits_inj_iff'. intros j Hj. rewrite Z.land_spec, msbs_bits, Z.shiftl_spec, spread_bits by lia.
    rewrite (proj2 (Z.leb_le 0 j)) by lia. rewrite andb_true_r.
    destruct (Z.eqb_spec (j mod 8) 7) as [Em|En].
    - pose proof (Z.div_mod j 8 ltac:(lia)) as Ej. rewrite Em in Ej. assert (0 <= j / 8) by (apply Z.div_pos; lia).
      assert (∃ i, j = 8 * Z.of_nat i + 7) as [i ->] by (exists (Z.to_nat (j / 8)); lia). rewrite Z.add_simpl_r, (proj2 (Z.leb_le 0 _)) by lia.
      replace (8 * Z.of_nat i / 8) with (Z.of_nat i) by (rewrite Z.mul_comm, Z.div_mul; lia). rewrite Nat2Z.id, list_lookup_fmap.
      replace (8 * Z.of_nat i mod 8) with 0 by (rewrite Z.mul_comm, Z.mod_mul; lia). cbn [andb Z.eqb].
      destruct (bs !! i) as [c|] eqn:Hi; cbn [fmap option_fmap option_map default].
      + pose proof (lookup_lt_Some _ _ _ Hi). rewrite (proj2 (Z.ltb_lt _ 64)) by lia. unfold g. rewrite (word_bit bs i c) by (done || lia).
        rewrite Forall_lookup in Hc. destruct (ctrl_bits c (Hc _ _ Hi)) as (-> & _). apply andb_true_r.
      + apply lookup_ge_None_1 in Hi. rewrite (proj2 (Z.ltb_ge _ 64)) by lia. apply andb_false_r.
    - cbn [andb]. rewrite andb_false_r. symmetry. destruct (Z.leb_spec 0 (j - 7)); [|done].
      destruct (Z.eqb_spec ((j - 7) mod 8) 0) as [Em|]; [|done]. exfalso. apply En.
      pose proof (Z.div_mod (j - 7) 8 ltac:(lia)). symmetry. apply Z.mod_unique with ((j - 7) / 8); lia. }
  set (f := λ l, bool_decide (bytes_of false (Z.land (u64 (not64 (Z.shiftl (spread l) 7) + Z.shiftr (Z.shiftl (spread l) 7) 7)) (not64 lsbs))
    = (λ b : bool, if b then CWISS_kEmpty else CWISS_kDeleted) <$> l)).
  pose proof (vectors_forall f 8 ltac:(by vm_compute) ((λ c, c <? 0) <$> bs) ltac:(by rewrite length_fmap)) as Hf.
  apply bool_decide_eq_true in Hf. rewrite Hf, <- list_fmap_compose. apply list_fmap_ext. intros i c _. unfold compose, convert_byte, CWISS_IsFull.
  destruct (Z.ltb_spec c 0), (Z.leb_spec 0 c); first [lia|done].
Qed.

(** *** Byte order *)

Lemma bswap_byte_bits v i k r : 0 <= i <= 7 → 0 <= k < 8 → 0 <= r < 8 →
  Z.testbit (bswap_byte v i) (8 * k + r) = (i =? 7 - k) && Z.testbit v (8 * i + r).
Proof.
  intros Hi Hk Hr. unfold bswap_byte. cbv zeta. change 0xff with (Z.ones 8).
  assert (∀ p, p = 8 * (k + i - 7) + r → Z.testbit v (p + i * 8) && Z.testbit (Z.ones 8) p = (i =? 7 - k) && Z.testbit v (8 * i + r)) as Hp.
  { intros p ->. destruct (Z.eqb_spec i (7 - k)).
    - rewrite Z.ones_spec_low, andb_true_r by lia. simpl. f_equal. lia.
    - destruct (decide (k + i < 7)); [rewrite (Z.testbit_neg_r (Z.ones 8)) by lia|rewrite Z.ones_spec_high by lia]; apply andb_false_r. }
  destruct (Z.leb_spec 4 i).
  - rewrite Z.shiftr_spec, Z.land_spec, Z.shiftl_spec by lia. rewrite <- (Hp _ eq_refl). f_equal; f_equal; lia.
  - unfold u64. rewrite Z.mod_pow2_bits_low, Z.shiftl_spec by lia. rewrite <- (Hp _ eq_refl).
    destruct (decide (8 * k + r - (7 - 2 * i) * 8 < 0)).
    + rewrite Z.testbit_neg_r by lia. rewrite (Z.testbit_neg_r (Z.ones 8)) by lia. by rewrite andb_false_r.
    + rewrite Z.land_spec, Z.shiftl_spec by lia. f_equal; f_equal; lia.
Qed.

Lemma bswap64_bits v k r : 0 <= k < 8 → 0 <= r < 8 → Z.testbit (bswap64 v) (8 * k + r) = Z.testbit v (8 * (7 - k) + r).
Proof.
  intros Hk Hr. unfold bswap64. rewrite !Z.lor_spec, !bswap_byte_bits by lia.
  assert (k = 0 ∨ k = 1 ∨ k = 2 ∨ k = 3 ∨ k = 4 ∨ k = 5 ∨ k = 6 ∨ k = 7) as Hs by lia.
  destruct_or! Hs; subst k; simpl; by rewrite ?orb_false_r.
Qed.

Lemma bswap64_range v : 0 <= v < 2 ^ 64 → 0 <= bswap64 v < 2 ^ 64.
Proof.
  intros Hv. assert (∀ a b, 0 <= a < 2 ^ 64 → 0 <= b < 2 ^ 64 → 0 <= Z.lor a b < 2 ^ 64) as Hl.
  { intros a b Ha Hb. replace (Z.lor a b) with (Z.lor a b mod 2 ^ 64); [apply Z.mod_pos_bound; lia|].
    apply Z.bits_inj_iff'. intros i Hi. rewrite Z.testbit_mod_pow2, Z.lor_spec by lia. destruct (Z.ltb_spec i 64); [done|].
    by rewrite (testbit_high a 64), (testbit_high b 64) by lia. }
  assert (∀ i, 0 <= i <= 7 → 0 <= bswap_byte v i < 2 ^ 64) as Hb.
  { intros i Hi. unfold bswap_byte. cbv zeta. destruct (4 <=? i) eqn:E; [|apply u64_range]. zbool.
    pose proof (land_bound v (Z.shiftl 0xff (i * 8)) 64 ltac:(lia) Hv). rewrite Z.shiftr_div_pow2 by lia. split; [apply Z.div_pos; lia|].
    eapply Z.le_lt_trans; [|apply H]. apply Z.div_le_upper_bound; [lia|]. assert (1 <= 2 ^ ((2 * i - 7) * 8)) by lia. nia. }
  unfold bswap64. repeat (apply Hl; [|apply Hb; lia]). apply Hb. lia.
Qed.

Lemma group_new_endian be bs : length bs = 8%nat → Group_new be bs = le_val (ubytes bs).
Proof.
  intros Hb. unfold Group_new. cbv zeta. destruct be; [|done]. unfold word_of. fold (ubytes (rev bs)).
  assert (length (rev bs) = 8%nat) as Hb' by (by rewrite length_rev).
  apply Z.bits_inj_iff'. intros j Hj. destruct (decide (64 <= j)).
  { rewrite (testbit_high _ 64), (testbit_high _ 64); [done|..]; [by apply word_u64|lia| |lia]. apply bswap64_range. by apply word_u64. }
  pose proof (Z.div_mod j 8 ltac:(lia)) as E. pose proof (Z.mod_pos_bound j 8 ltac:(lia)) as Hm. assert (0 <= j / 8 < 8) by lia.
  assert (∃ k r, j = 8 * Z.of_nat k + r ∧ (k < 8)%nat ∧ 0 <= r < 8) as (k & r & -> & Hk & Hr).
  { exists (Z.to_nat (j / 8)), (j mod 8). lia. }
  rewrite bswap64_bits by lia. replace (7 - Z.of_nat k) with (Z.of_nat (7 - k)) by lia.
  rewrite !le_bits by (apply ubytes_bytes || lia). unfold ubytes. rewrite !list_lookup_fmap.
  assert (rev bs = reverse bs) as -> by apply rev_alt. rewrite reverse_lookup by lia. by replace (length bs - S (7 - k))%nat with k by lia.
Qed.

#[export] Instance group_laws : GroupLaws (group false).
Proof.
  assert (∀ bs, group_bytes (H := group false) bs → length bs = 8%nat ∧ Forall is_ctrl bs) as Hg.
  { intros bs [Hl Hc]. cbn [CWISS_Group_kWidth group] in Hl. split; [lia|done]. }
  split.
  - by left.
  - intros bs h [Hb Hc]%Hg. by apply word_match_law.
  - intros bs [Hb Hc]%Hg. destruct (free_mask bs 1 Hb ltac:(lia)) as [H1 H2]. split_and!; [done|done|].
    intros i. etransitivity; [exact (H2 i)|]. rewrite Forall_lookup in Hc. f_equiv. intros c. split; intros [Hi Hp]; (split; [done|]).
    all: destruct (ctrl_bits c (Hc _ _ Hi)) as (_ & E & _); first [rewrite E in Hp; by zbool|rewrite E; by apply Z.eqb_eq].
  - intros bs [Hb Hc]%Hg. destruct (free_mask bs 0 Hb ltac:(lia)) as [H1 H2]. split_and!; [done|done|].
    intros i. etransitivity; [exact (H2 i)|]. rewrite Forall_lookup in Hc. f_equiv. intros c. split; intros [Hi Hp]; (split; [done|]).
    all: destruct (ctrl_bits c (Hc _ _ Hi)) as (_ & _ & E); rewrite E in *.
    + destruct (Hc _ _ Hi) as [->|[->|[->|Hf]]]; [by left|by right|done|].
      unfold CWISS_IsEmptyOrDeleted, CWISS_kSentinel, is_full in *. zbool. lia.
    + by destruct Hp as [->| ->].
  - intros bs [Hb Hc]%Hg. by apply count_law.
  - intros bs [Hb Hc]%Hg. by apply word_convert_law.
Qed.

(** The conversion that precedes a rehash in place has no counterpart of the [bswap64] of
    [CWISS_Group_new]: on a big-endian machine it stores the bytes of a group in reverse. *)
Theorem cw_convert_big_endian_reversed bs : length bs = 8%nat → Forall is_ctrl bs →
  ConvertSpecialToEmptyAndFullToDeleted8 true (Group_new true bs) = rev (convert_byte <$> bs).
Proof. intros Hb Hc. rewrite group_new_endian by done. rewrite <- (word_convert_law bs Hb Hc). done. Qed.

End Word8.

(** C27: the operations on the control bytes of a group of slots are right, for groups whose
    bytes are control bytes and a hash of 7 bits.  Every implementation on which the table is
    verified meets [GroupLaws]: the matches of empty and of free slots select exactly the
    positions of those bytes, the free slots at the beginning are counted, the conversion
    before a rehash treats each byte on its own, and the match of a hash selects all of its
    slots and never a free one or the sentinel.  Of the match: in vector registers (with the
    shuffle instruction or without, with the replacement of the signed comparison or without)
    it selects exactly the slots of the hash; in words of 8 bytes on little-endian machines
    it selects also, as its comment says it may, slots that hold another hash: exactly those
    whose byte differs from the hash in the lowest bit and that come right after a selected slot.  On
    big-endian machines the words do not meet [GroupLaws]. *)
Theorem cw_groups_correct :
  (∀ ssse3 fixed, GroupLaws (Sse2.group ssse3 fixed))
  ∧ (∀ be, GroupLaws (Word8.group be) ↔ be = false)
  ∧ (∀ ssse3 fixed (G := Sse2.group ssse3 fixed) bs h, group_bytes bs → is_full h →
       selects (CWISS_Group_Match (CWISS_Group_new bs) h) bs (λ c, c = h))
  ∧ (∀ (G := Word8.group false) bs h i, group_bytes bs → is_full h →
       bm_has (CWISS_Group_Match (CWISS_Group_new bs) h) (Z.of_nat i) ↔ Word8.word_hits h bs false !! i = Some true).
Proof.
  split_and!.
  - intros ssse3 fixed. apply Sse2.group_laws.
  - intros [|]; (split; [|done || (intros _; apply Word8.group_laws)]); [|done]. intros L.
    set (bs := 0 :: replicate 7 CWISS_kEmpty). assert (@group_bytes (Word8.group true) bs) as Hb.
    { split; [done|]. unfold bs. constructor; [unfold is_ctrl, is_full; lia|]. apply Forall_replicate. by left. }
    pose proof (@group_convert _ L bs Hb) as E. vm_compute in E. discriminate E.
  - intros ssse3 fixed G bs h [Hl Hc] Hh. apply (Sse2.match_exact ssse3 fixed); [|done]. cbn [CWISS_Group_kWidth G Sse2.group] in Hl. lia.
  - intros G bs h i [Hl Hc] Hh. cbn [CWISS_Group_kWidth G Word8.group] in Hl. apply Word8.word_match_exact; [lia|done|done].
Qed.
