(* ===== verification/CwHash.v ===== *)
(** * Hash functions of the open-addressing tables ([include/sdb/cwisstable.h], absl_hash.h
    and hash.h)

    [AbslHash] hashes the keys of [HtPU] and [HtUU], [FxHash] the strings of [HtSU].  A read
    past the end of the data is [None]; the lemmas at the end show that there is none.  The
    address of [CWISS_AbslHash_kSeed], which seeds the hash, is an argument. *)

From S2P Require Import Prelude CwBits.

(** ** Mixing: with the double-width product or without ([USE_128_MIX]) *)

Section absl.
Context (use_128_mix : bool) (kSeed : Z).

Definition CWISS_AbslHash_LowLevelMix (v0 v1 : Z) : Z :=
  if use_128_mix then
    let p := CWISS_Mul128 v0 v1 in Z.lxor (u128_hi p) (u128_lo p)
  else
    let p := Z.lxor v0 (CWISS_RotateLeft v1 40) in
    let p := u64 (p * Z.lxor v1 (CWISS_RotateLeft v0 39)) in
    Z.lxor p (Z.shiftr p 11).

Definition CWISS_AbslHash_kHashSalt : list Z :=
  [0x243F6A8885A308D3; 0x13198A2E03707344; 0xA4093822299F31D0; 0x082EFA98EC4E6C89; 0x452821E638D01377].

Definition salt_at (i : nat) : Z := nth i CWISS_AbslHash_kHashSalt 0.

(** The loop over chunks of 64 bytes: what is left of the data and the two states. *)
Fixpoint hash_chunks (fuel : nat) (ptr : bytes) (current_state duplicated_state : Z) : option (bytes * Z * Z) :=
  match fuel with
  | O => None
  | S fuel' =>
      if (64 <? length ptr)%nat then
        chunk ← mapM (λ i, CWISS_Load64 (drop (8 * i) ptr)) (seq 0 8);
        let c i := nth i chunk 0 in
        let cs0 := CWISS_AbslHash_LowLevelMix (Z.lxor (c 0%nat) (salt_at 1)) (Z.lxor (c 1%nat) current_state) in
        let cs1 := CWISS_AbslHash_LowLevelMix (Z.lxor (c 2%nat) (salt_at 2)) (Z.lxor (c 3%nat) current_state) in
        let ds0 := CWISS_AbslHash_LowLevelMix (Z.lxor (c 4%nat) (salt_at 3)) (Z.lxor (c 5%nat) duplicated_state) in
        let ds1 := CWISS_AbslHash_LowLevelMix (Z.lxor (c 6%nat) (salt_at 4)) (Z.lxor (c 7%nat) duplicated_state) in
        hash_chunks fuel' (drop 64 ptr) (Z.lxor cs0 cs1) (Z.lxor ds0 ds1)
      else Some (ptr, current_state, duplicated_state)
  end.

(** The loop over 16 bytes. *)
Fixpoint hash_words (fuel : nat) (ptr : bytes) (current_state : Z) : option (bytes * Z) :=
  match fuel with
  | O => None
  | S fuel' =>
      if (16 <? length ptr)%nat then
        a ← CWISS_Load64 ptr;
        b ← CWISS_Load64 (drop 8 ptr);
        hash_words fuel' (drop 16 ptr) (CWISS_AbslHash_LowLevelMix (Z.lxor a (salt_at 1)) (Z.lxor b current_state))
      else Some (ptr, current_state)
  end.

(** The last 16 bytes at most, as two numbers. *)
Definition hash_tail (ptr : bytes) : option (Z * Z) :=
  let len := length ptr in
  if (8 <? len)%nat then a ← CWISS_Load64 ptr; b ← CWISS_Load64 (drop (len - 8) ptr); Some (a, b)
  else if (3 <? len)%nat then a ← CWISS_Load32 ptr; b ← CWISS_Load32 (drop (len - 4) ptr); Some (a, b)
  else if (0 <? len)%nat then a ← CWISS_Load1To3 ptr len; Some (a, 0)
  else Some (0, 0).

Definition CWISS_AbslHash_LowLevelHash (data : bytes) (seed : Z) : option Z :=
  let fuel := S (length data) in
  let starting_length := Z.of_nat (length data) in
  let current_state := Z.lxor seed (salt_at 0) in
  '(ptr, current_state) ←
    (if (64 <? length data)%nat then
       '(ptr, current_state, duplicated_state) ← hash_chunks fuel data current_state current_state;
       Some (ptr, Z.lxor current_state duplicated_state)
     else Some (data, current_state));
  '(ptr, current_state) ← hash_words fuel ptr current_state;
  '(a, b) ← hash_tail ptr;
  let w := CWISS_AbslHash_LowLevelMix (Z.lxor a (salt_at 1)) (Z.lxor b current_state) in
  let z := Z.lxor (salt_at 1) starting_length in
  Some (CWISS_AbslHash_LowLevelMix w z).

Definition CWISS_AbslHash_kPiecewiseChunkSize : nat := 1024.
Definition CWISS_AbslHash_kInit : Z := kSeed.

Definition CWISS_AbslHash_Mix (state v : Z) : Z := CWISS_AbslHash_LowLevelMix (u64 (state + v)) 0x9ddfea08eb382d69.

Definition CWISS_AbslHash_Hash64 (val : bytes) : option Z := CWISS_AbslHash_LowLevelHash val CWISS_AbslHash_kInit.

(** The loop over pieces of 1024 bytes. *)
Fixpoint write_pieces (fuel : nat) (state : Z) (val : bytes) : option (Z * bytes) :=
  match fuel with
  | O => None
  | S fuel' =>
      if (CWISS_AbslHash_kPiecewiseChunkSize <=? length val)%nat then
        h ← CWISS_AbslHash_Hash64 (take CWISS_AbslHash_kPiecewiseChunkSize val);
        write_pieces fuel' (CWISS_AbslHash_Mix state h) (drop CWISS_AbslHash_kPiecewiseChunkSize val)
      else Some (state, val)
  end.

Definition CWISS_AbslHash_Write (state : Z) (val : bytes) : option Z :=
  '(state, val) ← write_pieces (S (length val)) state val;
  let len := length val in
  if (16 <? len)%nat then v ← CWISS_AbslHash_Hash64 val; Some (CWISS_AbslHash_Mix state v)
  else if (8 <? len)%nat then
    p ← CWISS_Load9To16 val len;
    Some (CWISS_AbslHash_Mix (CWISS_AbslHash_Mix state (u128_lo p)) (u128_hi p))
  else if (4 <=? len)%nat then v ← CWISS_Load4To8 val len; Some (CWISS_AbslHash_Mix state v)
  else if (0 <? len)%nat then v ← CWISS_Load1To3 val len; Some (CWISS_AbslHash_Mix state v)
  else Some state.

Definition CWISS_AbslHash_Finish (state : Z) : Z := state.

End absl.

(** ** The hash of strings *)

Fixpoint FxHash_loop (fuel : nat) (state : Z) (p : bytes) : option Z :=
  match fuel with
  | O => None
  | S fuel' =>
      if (0 <? length p)%nat then
        let to_read := if (8 <=? length p)%nat then 8%nat else length p in
        word ← load_le to_read p;
        let state := CWISS_RotateLeft state 5 in
        let state := Z.lxor state word in
        let state := u64 (state * 0x517cc1b727220a95) in
        FxHash_loop fuel' state (drop to_read p)
      else Some state
  end.

Definition CWISS_FxHash_Write (state : Z) (val : bytes) : option Z := FxHash_loop (S (length val)) state val.
Definition CWISS_FxHash_Finish (state : Z) : Z := state.

(** ** Ranges: nothing is read outside the data, and a hash has 64 bits *)

Lemma lxor_u64 a b : is_u64 a → is_u64 b → is_u64 (Z.lxor a b).
Proof. intros Ha Hb. by apply (lxor_bound a b 64). Qed.

Lemma shiftr_u64 a n : 0 <= n → is_u64 a → is_u64 (Z.shiftr a n).
Proof.
  unfold is_u64. intros Hn Ha. rewrite Z.shiftr_div_pow2 by lia. split; [apply Z.div_pos; lia|].
  apply Z.div_lt_upper_bound; [lia|]. assert (1 <= 2 ^ n) by lia. nia.
Qed.

Lemma mix_u64 use_128_mix v0 v1 : is_u64 v0 → is_u64 v1 → is_u64 (CWISS_AbslHash_LowLevelMix use_128_mix v0 v1).
Proof.
  intros H0 H1. unfold CWISS_AbslHash_LowLevelMix. destruct use_128_mix; cbv zeta.
  - destruct (mul128_product v0 v1 H0 H1) as (_ & ? & ?). by apply lxor_u64.
  - apply lxor_u64; [apply u64_range|apply shiftr_u64; [lia|apply u64_range]].
Qed.

Lemma load_le_total n p : is_bytes p → (n <= length p)%nat → (n <= 8)%nat → ∃ v, load_le n p = Some v ∧ is_u64 v.
Proof.
  intros Hp Hn H8. rewrite load_le_spec by done. eexists. split; [done|]. unfold is_u64.
  pose proof (Z.mod_pos_bound (le_val p) (2 ^ (8 * Z.of_nat n)) ltac:(lia)). split; [lia|].
  eapply Z.lt_le_trans; [apply H|]. apply Z.pow_le_mono_r; lia.
Qed.

Lemma salt_u64 i : is_u64 (salt_at i).
Proof.
  unfold salt_at. destruct (decide (i < 5)%nat) as [Hi|]; [|rewrite nth_overflow by (simpl; lia); done].
  do 5 (destruct i as [|i]; [done|]). lia.
Qed.

#[local] Hint Resolve lxor_u64 mix_u64 salt_u64 Forall_drop Forall_take u64_range : u64.

Section absl_ranges.
Context (use_128_mix : bool) (kSeed : Z) (Hseed : is_u64 kSeed).

Lemma hash_chunks_total fuel ptr cs ds : (length ptr < fuel)%nat → is_bytes ptr → is_u64 cs → is_u64 ds →
  ∃ ptr' cs' ds', hash_chunks use_128_mix fuel ptr cs ds = Some (ptr', cs', ds') ∧ is_bytes ptr' ∧ (length ptr' <= length ptr)%nat ∧ is_u64 cs' ∧ is_u64 ds'.
Proof.
  revert ptr cs ds. induction fuel as [|fuel IH]; intros ptr cs ds Hf Hp Hc Hd; [lia|]. cbn [hash_chunks].
  destruct (Nat.ltb_spec 64 (length ptr)); [|by eexists _, _, _].
  assert (∃ chunk, mapM (λ i, CWISS_Load64 (drop (8 * i) ptr)) (seq 0 8) = Some chunk ∧ Forall is_u64 chunk) as (chunk & -> & Hk).
  { assert (Forall (λ i, ∃ v, CWISS_Load64 (drop (8 * i) ptr) = Some v ∧ is_u64 v) (seq 0 8)) as Hs.
    { apply Forall_forall. intros i Hi%elem_of_seq. apply load_le_total; [by apply Forall_drop|rewrite length_drop; lia|lia]. }
    induction Hs as [|i l (v & Ev & Hv) _ (k & Ek & Hk)]; [by exists []|]. exists (v :: k). split; [|by constructor].
    cbn [mapM]. by rewrite Ev, Ek. }
  cbn [mbind option_bind]. cbv zeta.
  assert (∀ i, is_u64 (nth i chunk 0)) as Hn by (intros i; destruct (nth_in_or_default i chunk 0) as [Hi| ->]; [rewrite Forall_forall in Hk; by apply Hk, list_elem_of_In|done]).
  edestruct (IH (drop 64 ptr)) as (p' & c' & d' & -> & ? & Hl & ? & ?); [rewrite length_drop; lia|by apply Forall_drop|auto 6 with u64..|].
  rewrite length_drop in Hl. eexists _, _, _. split; [done|]. split; [done|]. split; [lia|done].
Qed.

Lemma hash_words_total fuel ptr cs : (length ptr < fuel)%nat → is_bytes ptr → is_u64 cs →
  ∃ ptr' cs', hash_words use_128_mix fuel ptr cs = Some (ptr', cs') ∧ is_bytes ptr' ∧ (length ptr' <= 16)%nat ∧ is_u64 cs'.
Proof.
  revert ptr cs. induction fuel as [|fuel IH]; intros ptr cs Hf Hp Hc; [lia|]. cbn [hash_words].
  destruct (Nat.ltb_spec 16 (length ptr)); [|by eexists _, _].
  destruct (load_le_total 8 ptr) as (a & Ea & Ha); [done|lia|lia|]. unfold CWISS_Load64. rewrite Ea. cbn [mbind option_bind].
  destruct (load_le_total 8 (drop 8 ptr)) as (b & -> & Hb); [by apply Forall_drop|rewrite length_drop; lia|lia|]. cbn [mbind option_bind].
  apply IH; [rewrite length_drop; lia|by apply Forall_drop|auto with u64].
Qed.

Lemma le_val_u64 p : is_bytes p → (length p <= 8)%nat → is_u64 (le_val p).
Proof.
  intros Hp Hl. pose proof (le_val_range p Hp) as Hr. unfold is_u64. split; [lia|]. eapply Z.lt_le_trans; [apply Hr|].
  change 256 with (2 ^ 8). rewrite <- Z.pow_mul_r by lia. apply Z.pow_le_mono_r; lia.
Qed.

Lemma hash_tail_total ptr : is_bytes ptr → (length ptr <= 16)%nat → ∃ a b, hash_tail ptr = Some (a, b) ∧ is_u64 a ∧ is_u64 b.
Proof.
  intros Hp Hl. unfold hash_tail. cbv zeta. unfold CWISS_Load64, CWISS_Load32.
  assert (∀ n, (n <= 8)%nat → (n < length ptr)%nat → ∃ a b, load_le n ptr = Some a ∧ load_le n (drop (length ptr - n) ptr) = Some b ∧ is_u64 a ∧ is_u64 b) as Hn.
  { intros n ? ?. destruct (load_le_total n ptr) as (a & -> & ?); [done|lia|lia|].
    destruct (load_le_total n (drop (length ptr - n) ptr)) as (b & -> & ?); [by apply Forall_drop|rewrite length_drop; lia|lia|]. eauto 10. }
  destruct (Nat.ltb_spec 8 (length ptr)); [destruct (Hn 8%nat) as (a & b & -> & -> & ? & ?); [lia|lia|]; simpl; eauto|].
  destruct (Nat.ltb_spec 3 (length ptr)).
  { destruct (load_le_total 4 ptr) as (a & -> & ?); [done|lia|lia|]. cbn [mbind option_bind].
    destruct (load_le_total 4 (drop (length ptr - 4) ptr)) as (b & -> & ?); [by apply Forall_drop|rewrite length_drop; lia|lia|]. simpl; eauto. }
  destruct (Nat.ltb_spec 0 (length ptr)); [|by eexists _, _].
  rewrite load_1_3 by (done || lia). eexists _, _. split; [done|]. split; [apply le_val_u64; [done|lia]|done].
Qed.

Lemma low_level_hash_total data seed : is_bytes data → slen data < 2 ^ 64 → is_u64 seed →
  ∃ h, CWISS_AbslHash_LowLevelHash use_128_mix data seed = Some h ∧ is_u64 h.
Proof.
  intros Hp Hl Hs. unfold CWISS_AbslHash_LowLevelHash. cbv zeta. set (cs := Z.lxor seed (salt_at 0)). assert (is_u64 cs) as Hc by (unfold cs; auto with u64).
  assert (∃ ptr cs', (if (64 <? length data)%nat then
       '(ptr, current_state, duplicated_state) ← hash_chunks use_128_mix (S (length data)) data cs cs;
       Some (ptr, Z.lxor current_state duplicated_state) else Some (data, cs)) = Some (ptr, cs') ∧ is_bytes ptr ∧ (length ptr <= length data)%nat ∧ is_u64 cs')
    as (ptr & cs' & -> & Hp' & Hl' & Hc').
  { case_if; [|by eexists _, _]. destruct (hash_chunks_total (S (length data)) data cs cs) as (p & c & d & -> & ? & ? & ? & ?); [lia|done..|].
    cbn. eexists _, _. split; [done|]. split_and!; [done|done|auto with u64..]. all: by apply lxor_u64. }
  cbn [mbind option_bind]. destruct (hash_words_total (S (length data)) ptr cs') as (p & c & -> & ? & ? & ?); [lia|done..|]. cbn [mbind option_bind].
  destruct (hash_tail_total p) as (a & b & -> & ? & ?); [done..|]. cbn [mbind option_bind]. eexists. split; [done|].
  assert (is_u64 (Z.of_nat (length data))) by (unfold slen, is_u64 in *; lia). auto 6 with u64.
Qed.

Lemma absl_mix_u64 state v : is_u64 (CWISS_AbslHash_Mix use_128_mix state v).
Proof. apply mix_u64; [apply u64_range|done]. Qed.

Lemma write_pieces_total fuel state val : (length val < fuel)%nat → is_bytes val → is_u64 state →
  ∃ state' val', write_pieces use_128_mix kSeed fuel state val = Some (state', val') ∧ is_bytes val' ∧ slen val' < 1024 ∧ is_u64 state'.
Proof.
  revert state val. induction fuel as [|fuel IH]; intros state val Hf Hv Hs; [lia|]. cbn [write_pieces]. unfold CWISS_AbslHash_kPiecewiseChunkSize.
  destruct (Nat.leb_spec 1024 (length val)) as [Hn|]; [|eexists _, _; split; [done|]; unfold slen; split_and!; [done|lia|done..]; apply Hs].
  destruct (low_level_hash_total (take 1024 val) kSeed) as (h & E & Hh); [by apply Forall_take|unfold slen; rewrite length_take; lia|done|].
  unfold CWISS_AbslHash_Hash64, CWISS_AbslHash_kInit. rewrite E. cbn [mbind option_bind].
  apply IH; [rewrite length_drop; lia|by apply Forall_drop|apply absl_mix_u64].
Qed.

(** [AbslHash] of data of any length. *)
Lemma absl_hash_total state val : is_bytes val → is_u64 state → ∃ h, CWISS_AbslHash_Write use_128_mix kSeed state val = Some h ∧ is_u64 h.
Proof.
  intros Hv Hs. unfold CWISS_AbslHash_Write. destruct (write_pieces_total (S (length val)) state val) as (s & v & -> & Hb & Hl & Hu); [lia|done..|].
  cbn [mbind option_bind]. cbv zeta. unfold slen in Hl.
  destruct (Nat.ltb_spec 16 (length v)).
  { unfold CWISS_AbslHash_Hash64, CWISS_AbslHash_kInit. destruct (low_level_hash_total v kSeed) as (h & -> & Hh); [done|unfold slen; lia|done|].
    eexists. split; [done|apply absl_mix_u64]. }
  destruct (Nat.ltb_spec 8 (length v)); [rewrite load_9_16 by (done || lia); eexists; split; [done|apply absl_mix_u64]|].
  destruct (Nat.leb_spec 4 (length v)); [rewrite load_4_8 by (done || lia); eexists; split; [done|apply absl_mix_u64]|].
  destruct (Nat.ltb_spec 0 (length v)); [rewrite load_1_3 by (done || lia); eexists; split; [done|apply absl_mix_u64]|].
  by eexists.
Qed.

(** The hash of an 8-byte key is one multiplication away from the key. *)
Lemma absl_hash_u64 key state : is_bytes key → length key = 8%nat →
  CWISS_AbslHash_Write use_128_mix kSeed state key = Some (CWISS_AbslHash_Mix use_128_mix state (le_val key)).
Proof.
  intros Hk Hl. unfold CWISS_AbslHash_Write. rewrite Hl. cbn [write_pieces]. unfold CWISS_AbslHash_kPiecewiseChunkSize.
  rewrite (proj2 (Nat.leb_gt 1024 (length key))) by lia. cbn [mbind option_bind]. rewrite Hl. cbn [Nat.ltb Nat.leb].
  rewrite <- Hl, load_4_8 by (done || lia). done.
Qed.

End absl_ranges.

Lemma fx_hash_total state val : is_bytes val → is_u64 state → ∃ h, CWISS_FxHash_Write state val = Some h ∧ is_u64 h.
Proof.
  intros Hv Hs. unfold CWISS_FxHash_Write. assert (length val < S (length val))%nat as Hf by lia. revert Hf. generalize (S (length val)). intros fuel.
  revert state val Hv Hs. induction fuel as [|fuel IH]; intros state val Hv Hs Hf; [lia|]. cbn [FxHash_loop].
  destruct (Nat.ltb_spec 0 (length val)); [|by eexists]. cbv zeta. set (n := if (8 <=? length val)%nat then 8%nat else length val).
  assert (1 <= n <= 8 ∧ n <= length val)%nat as Hn by (unfold n; destruct (Nat.leb_spec 8 (length val)); lia).
  destruct (load_le_total n val) as (w & -> & _); [done|lia|lia|]. cbn [mbind option_bind].
  apply IH; [by apply Forall_drop|apply u64_range|rewrite length_drop; lia].
Qed.

(** C36: The two hash functions, in both variants of the mixing step, read a key of any length only inside its bounds,
    end, and give a 64-bit word from a 64-bit state; the hash of a key of 8 bytes is one mixing step on the
    number that the bytes are. *)
Theorem cw_hashes_defined (use_128_mix : bool) (kSeed state : Z) (key : bytes) : is_u64 kSeed → is_u64 state → is_bytes key →
  (∃ h, CWISS_AbslHash_Write use_128_mix kSeed state key = Some h ∧ is_u64 h ∧ (length key = 8%nat → h = CWISS_AbslHash_Mix use_128_mix state (le_val key))) ∧
  ∃ h, CWISS_FxHash_Write state key = Some h ∧ is_u64 h.
Proof.
  intros Hseed Hs Hk. split; [|by apply fx_hash_total]. destruct (absl_hash_total use_128_mix kSeed Hseed state key Hk Hs) as (h & E & Hh).
  exists h. split_and!; [done..|]. intros Hl. rewrite (absl_hash_u64 use_128_mix kSeed key state Hk Hl) in E. by injection E.
Qed.

Lemma cw_hashes_defined_witness :
  let key := Z.of_nat <$> seq 1 200 in
  (∃ h, CWISS_AbslHash_Write true 4096 4096 key = Some h ∧ is_u64 h ∧ (length key = 8%nat → h = CWISS_AbslHash_Mix true 4096 (le_val key))) ∧
  ∃ h, CWISS_FxHash_Write 4096 key = Some h ∧ is_u64 h.
Proof.
  intros key. apply (cw_hashes_defined true 4096 4096 key); [unfold is_u64; lia..|]. unfold key, is_bytes. apply Forall_fmap, Forall_forall.
  intros x Hx%elem_of_seq. cbn [compose]. unfold is_u8. lia.
Defined.
