(* ===== verification/CwTable.v ===== *)
(** * The open-addressing table ([include/sdb/cwisstable.h], capacity.h, probe.h and
    raw_table.h)

    A table is an array of control bytes, followed by the sentinel and copies of the first
    bytes, and an array of slots.  Tables are values that the operations take and return;
    what else they touch is in [CwWorld], which the monad [CW] threads: the number of
    allocations made and the counter of [RandomSeed].  What the n-th [malloc] returns for a size
    is an argument, like the addresses that the code mixes into hashes.  A slot that is
    not initialised is [None].  Reading outside an array or from such a slot is [CFault], a
    check that fails is [CAbort], and the check for a pointer from [malloc] is [CNoMem]. *)

From S2P Require Import Prelude CwBits CwGroup.

Record CwWorld := mkWorld { allocs : nat; counter : Z }.

Inductive cres (A : Type) := COk (a : A) (w : CwWorld) | CFault | CAbort | CNoMem | CNoFuel.
Arguments COk {A} _ _.
Arguments CFault {A}.
Arguments CAbort {A}.
Arguments CNoMem {A}.
Arguments CNoFuel {A}.

Definition CW (A : Type) : Type := CwWorld → cres A.
#[export] Instance CW_ret : MRet CW := λ A a w, COk a w.
#[export] Instance CW_bind : MBind CW := λ A B k m w,
  match m w with COk a w => k a w | CFault => CFault | CAbort => CAbort | CNoMem => CNoMem | CNoFuel => CNoFuel end.

Definition lift {A} (o : option A) : CW A := λ w, match o with Some a => COk a w | None => CFault end.
Definition no_fuel {A} : CW A := λ _, CNoFuel.

(** [CWISS_CHECK] *)
Definition cw_check (b : bool) : CW () := λ w, if b then COk () w else CAbort.

(** ** Arrays *)

Definition get_at {A} (l : list A) (i : Z) : option A := if i <? 0 then None else l !! Z.to_nat i.
Definition set_at {A} (i : Z) (x : A) (l : list A) : option (list A) :=
  if (i <? 0) || (Z.of_nat (length l) <=? i) then None else Some (<[Z.to_nat i := x]> l).
(** [n] elements from [i] on. *)
Definition slice {A} (l : list A) (i n : Z) : option (list A) :=
  if (i <? 0) || (Z.of_nat (length l) <? i + n) then None else Some (take (Z.to_nat n) (drop (Z.to_nat i) l)).

(** ** Types *)

(** What a table knows of its entries: the policy of a flat map from [K] to [V]. *)
Class Policy (K V : Type) := {
  key_hash : K → Z;
  key_eq : K → K → bool
}.

(** The layout of an entry of two 8-byte fields ([sizeof (Type_)] is also used as alignment). *)
Definition slot_size : Z := 16.
Definition slot_align : Z := 16.

Record CWISS_RawTable (K V : Type) := mkTable {
  ctrl_ : list Z;
  (** the address of [ctrl_] *)
  ctrl_addr : Z;
  slots_ : list (option (K * V));
  size_ : Z;
  capacity_ : Z;
  growth_left_ : Z
}.
Arguments mkTable {K V}.
Arguments ctrl_ {K V}.
Arguments ctrl_addr {K V}.
Arguments slots_ {K V}.
Arguments size_ {K V}.
Arguments capacity_ {K V}.
Arguments growth_left_ {K V}.

(** The position of an iterator, [None] when it is exhausted. *)
Definition CWISS_RawIter : Type := option Z.

Record CWISS_ProbeSeq := mkSeq { mask_ : Z; offset_ : Z; index_ : Z }.
Record CWISS_FindInfo := mkFind { fi_offset : Z; fi_probe_length : Z }.
Record CWISS_PrepareInsert := mkPrep { pi_index : Z; pi_inserted : bool }.

Section table.
Context `{GroupOps}.
(** The platform: [malloc], the addresses of [kEmptyGroup] and of [counter], and [NDEBUG]. *)
Context (malloc : nat → Z → option Z) (empty_group counter_addr : Z) (ndebug : bool).

(** [CWISS_DCHECK] *)
Definition cw_dcheck (b : bool) : CW () := if ndebug then mret () else cw_check b.

Definition CWISS_DefaultMalloc (size : Z) : CW Z := λ w,
  match malloc (allocs w) size with
  | Some a => COk a (mkWorld (S (allocs w)) (counter w))
  | None => CNoMem
  end.

(** ** Capacity *)

Definition CWISS_EmptyGroup : list Z := CWISS_kSentinel :: replicate 15 CWISS_kEmpty.

Definition CWISS_NumClonedBytes : Z := CWISS_Group_kWidth - 1.

Definition CWISS_IsValidCapacity (n : Z) : bool := (Z.land (u64 (n + 1)) n =? 0) && (0 <? n).

Definition RandomSeed : CW Z := λ w, COk (Z.lxor (counter w) counter_addr) (mkWorld (allocs w) (u64 (counter w + 1))).

Definition CWISS_ShouldInsertBackwards (hash ctrl : Z) : CW bool :=
  r ← RandomSeed; mret (6 <? Z.lxor (CWISS_H1 hash ctrl) r mod 13).

(** The groups from [pos] on are converted where they are. *)
Fixpoint convert_groups (fuel : nat) (ctrl : list Z) (pos capacity : Z) : CW (list Z) :=
  match fuel with
  | O => no_fuel
  | S fuel' =>
      if pos <? capacity then
        g ← lift (slice ctrl pos CWISS_Group_kWidth);
        let g' := CWISS_Group_ConvertSpecialToEmptyAndFullToDeleted (CWISS_Group_new g) in
        let p := Z.to_nat pos in
        convert_groups fuel' (take p ctrl ++ g' ++ drop (p + length g') ctrl) (pos + CWISS_Group_kWidth) capacity
      else mret ctrl
  end.

Definition CWISS_ConvertDeletedToEmptyAndFullToDeleted (ctrl : list Z) (capacity : Z) : CW (list Z) :=
  c ← lift (get_at ctrl capacity);
  _ ← cw_dcheck (c =? CWISS_kSentinel);
  _ ← cw_dcheck (CWISS_IsValidCapacity capacity);
  ctrl ← convert_groups (S (Z.to_nat capacity)) ctrl 0 capacity;
  clones ← lift (slice ctrl 0 CWISS_NumClonedBytes);
  _ ← lift (slice ctrl (capacity + 1) CWISS_NumClonedBytes);
  let p := Z.to_nat (capacity + 1) in
  let ctrl := take p ctrl ++ clones ++ drop (p + length clones) ctrl in
  lift (set_at capacity CWISS_kSentinel ctrl).

(** The control bytes of a table without entries, at a fresh address. *)
Definition CWISS_ResetCtrl (capacity : Z) : list Z :=
  <[Z.to_nat capacity := CWISS_kSentinel]> (replicate (Z.to_nat (capacity + 1 + CWISS_NumClonedBytes)) CWISS_kEmpty).

Definition CWISS_SetCtrl (i h capacity : Z) (ctrl : list Z) : CW (list Z) :=
  _ ← cw_dcheck (i <? capacity);
  let mirrored_i := Z.land (u64 (i - CWISS_NumClonedBytes)) capacity + Z.land CWISS_NumClonedBytes capacity in
  ctrl ← lift (set_at i h ctrl);
  lift (set_at mirrored_i h ctrl).

Definition CWISS_NormalizeCapacity (n : Z) : Z :=
  if n =? 0 then 1 else Z.shiftr (2 ^ 64 - 1) (CWISS_LeadingZeroes64 n).

Definition CWISS_CapacityToGrowth (capacity : Z) : CW Z :=
  _ ← cw_dcheck (CWISS_IsValidCapacity capacity);
  mret (if (CWISS_Group_kWidth =? 8) && (capacity =? 7) then 6 else capacity - capacity / 8).

Definition CWISS_GrowthToLowerboundCapacity (growth : Z) : Z :=
  if (CWISS_Group_kWidth =? 8) && (growth =? 7) then 8
  else u64 (growth + Z.quot ((if growth <? 2 ^ 63 then growth else growth - 2 ^ 64) - 1) 7).

Definition CWISS_SlotOffset (capacity align : Z) : CW Z :=
  _ ← cw_dcheck (CWISS_IsValidCapacity capacity);
  let num_control_bytes := u64 (capacity + 1 + CWISS_NumClonedBytes) in
  mret (Z.land (u64 (num_control_bytes + align - 1)) (u64 (not64 align + 1))).

Definition CWISS_AllocSize (capacity size align : Z) : CW Z :=
  o ← CWISS_SlotOffset capacity align; mret (u64 (o + capacity * size)).

Definition CWISS_IsSmall (capacity : Z) : bool := capacity <? CWISS_Group_kWidth - 1.

(** ** Probing *)

Definition CWISS_ProbeSeq_new (hash mask : Z) : CWISS_ProbeSeq := mkSeq mask (Z.land hash mask) 0.

Definition CWISS_ProbeSeq_offset (self : CWISS_ProbeSeq) (i : Z) : Z := Z.land (u64 (offset_ self + i)) (mask_ self).

Definition CWISS_ProbeSeq_next (self : CWISS_ProbeSeq) : CWISS_ProbeSeq :=
  let index := u64 (index_ self + CWISS_Group_kWidth) in
  mkSeq (mask_ self) (Z.land (u64 (offset_ self + index)) (mask_ self)) index.

Definition CWISS_ProbeSeq_Start (ctrl hash capacity : Z) : CWISS_ProbeSeq := CWISS_ProbeSeq_new (CWISS_H1 hash ctrl) capacity.

Definition group_at (ctrl : list Z) (pos : Z) : CW Group :=
  g ← lift (slice ctrl pos CWISS_Group_kWidth); mret (CWISS_Group_new g).

Fixpoint find_first_loop (fuel : nat) (ctrl : list Z) (addr hash capacity : Z) (seq : CWISS_ProbeSeq) : CW CWISS_FindInfo :=
  match fuel with
  | O => no_fuel
  | S fuel' =>
      g ← group_at ctrl (offset_ seq);
      let m := CWISS_Group_MatchEmptyOrDeleted g in
      if negb (mask m =? 0) then
        backwards ← (if negb ndebug && negb (CWISS_IsSmall capacity) then CWISS_ShouldInsertBackwards hash addr else mret false);
        if (backwards : bool) then mret (mkFind (CWISS_ProbeSeq_offset seq (CWISS_BitMask_HighestBitSet m)) (index_ seq))
        else mret (mkFind (CWISS_ProbeSeq_offset seq (CWISS_BitMask_TrailingZeros m)) (index_ seq))
      else
        let seq := CWISS_ProbeSeq_next seq in
        _ ← cw_dcheck (index_ seq <=? capacity);
        find_first_loop fuel' ctrl addr hash capacity seq
  end.

Definition CWISS_FindFirstNonFull (ctrl : list Z) (addr hash capacity : Z) : CW CWISS_FindInfo :=
  find_first_loop (S (Z.to_nat capacity)) ctrl addr hash capacity (CWISS_ProbeSeq_Start addr hash capacity).

(** ** The table *)

Context {K V : Type} `{Policy K V}.
Local Abbreviation RawTable := (CWISS_RawTable K V).

Definition with_ctrl (c : list Z) (t : RawTable) : RawTable := mkTable c (ctrl_addr t) (slots_ t) (size_ t) (capacity_ t) (growth_left_ t).
Definition with_slots (s : list (option (K * V))) (t : RawTable) : RawTable := mkTable (ctrl_ t) (ctrl_addr t) s (size_ t) (capacity_ t) (growth_left_ t).
Definition with_size (n : Z) (t : RawTable) : RawTable := mkTable (ctrl_ t) (ctrl_addr t) (slots_ t) n (capacity_ t) (growth_left_ t).
Definition with_growth (n : Z) (t : RawTable) : RawTable := mkTable (ctrl_ t) (ctrl_addr t) (slots_ t) (size_ t) (capacity_ t) n.

Definition set_ctrl (i h : Z) (t : RawTable) : CW RawTable :=
  c ← CWISS_SetCtrl i h (capacity_ t) (ctrl_ t); mret (with_ctrl c t).

(** The entry in a slot; initialising, destroying and moving the slot at an index. *)
Definition read_slot (t : RawTable) (i : Z) : CW (K * V) := o ← lift (get_at (slots_ t) i); lift o.
Definition write_slot (i : Z) (e : option (K * V)) (t : RawTable) : CW RawTable := s ← lift (set_at i e (slots_ t)); mret (with_slots s t).

(** *** Iteration *)

Fixpoint CWISS_RawIter_SkipEmptyOrDeleted (fuel : nat) (ctrl : list Z) (p : Z) : CW CWISS_RawIter :=
  match fuel with
  | O => no_fuel
  | S fuel' =>
      c ← lift (get_at ctrl p);
      if CWISS_IsEmptyOrDeleted c then
        g ← group_at ctrl p;
        CWISS_RawIter_SkipEmptyOrDeleted fuel' ctrl (p + CWISS_Group_CountLeadingEmptyOrDeleted g)
      else if c =? CWISS_kSentinel then mret None
      else mret (Some p)
  end.

(** [CWISS_AssertIsValid] and [CWISS_AssertIsFull] *)
Definition CWISS_AssertIsValid (t : RawTable) (it : CWISS_RawIter) : CW () :=
  match it with None => mret () | Some p => c ← lift (get_at (ctrl_ t) p); cw_check (CWISS_IsFull c) end.
Definition CWISS_AssertIsFull (t : RawTable) (it : CWISS_RawIter) : CW Z :=
  match it with None => λ _, CAbort | Some p => c ← lift (get_at (ctrl_ t) p); _ ← cw_check (CWISS_IsFull c); mret p end.

Definition skip_from (t : RawTable) (p : Z) : CW CWISS_RawIter :=
  CWISS_RawIter_SkipEmptyOrDeleted (S (Z.to_nat (capacity_ t))) (ctrl_ t) p.

Definition CWISS_RawTable_iter_at (t : RawTable) (index : Z) : CW CWISS_RawIter :=
  it ← skip_from t index; _ ← CWISS_AssertIsValid t it; mret it.

Definition CWISS_RawTable_iter (t : RawTable) : CW CWISS_RawIter := CWISS_RawTable_iter_at t 0.

Definition CWISS_RawIter_get (t : RawTable) (it : CWISS_RawIter) : CW (option (K * V)) :=
  _ ← CWISS_AssertIsValid t it;
  match it with None => mret None | Some p => e ← read_slot t p; mret (Some e) end.

(** The advanced iterator; the caller reads it with [CWISS_RawIter_get]. *)
Definition CWISS_RawIter_next (t : RawTable) (it : CWISS_RawIter) : CW (CWISS_RawIter * option (K * V)) :=
  p ← CWISS_AssertIsFull t it;
  it ← skip_from t (p + 1);
  e ← CWISS_RawIter_get t it;
  mret (it, e).

(** *** Erasing *)

Definition CWISS_RawTable_EraseMetaOnly (index : Z) (t : RawTable) : CW RawTable :=
  c ← lift (get_at (ctrl_ t) index);
  _ ← cw_dcheck (CWISS_IsFull c);
  let t := with_size (u64 (size_ t - 1)) t in
  let index_before := Z.land (u64 (index - CWISS_Group_kWidth)) (capacity_ t) in
  g_after ← group_at (ctrl_ t) index;
  let empty_after := CWISS_Group_MatchEmpty g_after in
  g_before ← group_at (ctrl_ t) index_before;
  let empty_before := CWISS_Group_MatchEmpty g_before in
  let was_never_full :=
    negb (mask empty_before =? 0) && negb (mask empty_after =? 0) &&
    (CWISS_BitMask_TrailingZeros empty_after + CWISS_BitMask_LeadingZeros empty_before <? CWISS_Group_kWidth) in
  t ← set_ctrl index (if was_never_full then CWISS_kEmpty else CWISS_kDeleted) t;
  mret (with_growth (u64 (growth_left_ t + (if was_never_full then 1 else 0))) t).

Definition CWISS_RawTable_erase_at (it : CWISS_RawIter) (t : RawTable) : CW RawTable :=
  p ← CWISS_AssertIsFull t it;
  _ ← read_slot t p;
  t ← write_slot p None t;
  CWISS_RawTable_EraseMetaOnly p t.

(** *** Growing *)

Definition CWISS_RawTable_ResetGrowthLeft (t : RawTable) : CW RawTable :=
  g ← CWISS_CapacityToGrowth (capacity_ t); mret (with_growth (u64 (g - size_ t)) t).

Definition CWISS_RawTable_InitializeSlots (t : RawTable) : CW RawTable :=
  _ ← cw_dcheck (negb (capacity_ t =? 0));
  size ← CWISS_AllocSize (capacity_ t) slot_size slot_align;
  mem ← CWISS_DefaultMalloc size;
  _ ← CWISS_SlotOffset (capacity_ t) slot_align;
  CWISS_RawTable_ResetGrowthLeft
    (mkTable (CWISS_ResetCtrl (capacity_ t)) mem (replicate (Z.to_nat (capacity_ t)) None) (size_ t) (capacity_ t) (growth_left_ t)).

(** Slot [i] of the old table is moved to the new one if it is full. *)
Definition resize_step (old : RawTable) (t : RawTable) (i : Z) : CW RawTable :=
  c ← lift (get_at (ctrl_ old) i);
  if CWISS_IsFull c then
    e ← read_slot old i;
    let hash := key_hash e.1 in
    target ← CWISS_FindFirstNonFull (ctrl_ t) (ctrl_addr t) hash (capacity_ t);
    let new_i := fi_offset target in
    t ← set_ctrl new_i (CWISS_H2 hash) t;
    write_slot new_i (Some e) t
  else mret t.

Fixpoint resize_loop (old : RawTable) (t : RawTable) (l : list Z) : CW RawTable :=
  match l with [] => mret t | i :: l' => t ← resize_step old t i; resize_loop old t l' end.

Definition CWISS_RawTable_Resize (new_capacity : Z) (t : RawTable) : CW RawTable :=
  _ ← cw_dcheck (CWISS_IsValidCapacity new_capacity);
  t' ← CWISS_RawTable_InitializeSlots (mkTable (ctrl_ t) (ctrl_addr t) (slots_ t) (size_ t) new_capacity (growth_left_ t));
  t' ← resize_loop t t' (seqZ 0 (capacity_ t));
  _ ← (if capacity_ t =? 0 then mret 0 else CWISS_AllocSize (capacity_ t) slot_size slot_align);
  mret t'.

(** One round of the loop at [i]: the table and the next [i]. *)
Definition drop_step (t : RawTable) (i : Z) : CW (RawTable * Z) :=
  c ← lift (get_at (ctrl_ t) i);
  if negb (CWISS_IsDeleted c) then mret (t, i + 1)
  else
    old ← read_slot t i;
    let hash := key_hash old.1 in
    target ← CWISS_FindFirstNonFull (ctrl_ t) (ctrl_addr t) hash (capacity_ t);
    let new_i := fi_offset target in
    let probe_offset := offset_ (CWISS_ProbeSeq_Start (ctrl_addr t) hash (capacity_ t)) in
    let CWISS_ProbeIndex pos := Z.land (u64 (pos - probe_offset)) (capacity_ t) / CWISS_Group_kWidth in
    if CWISS_ProbeIndex new_i =? CWISS_ProbeIndex i then
      t ← set_ctrl i (CWISS_H2 hash) t; mret (t, i + 1)
    else
      c' ← lift (get_at (ctrl_ t) new_i);
      if CWISS_IsEmpty c' then
        t ← set_ctrl new_i (CWISS_H2 hash) t;
        t ← write_slot new_i (Some old) t;
        t ← write_slot i None t;
        t ← set_ctrl i CWISS_kEmpty t;
        mret (t, i + 1)
      else
        _ ← cw_dcheck (CWISS_IsDeleted c');
        t ← set_ctrl new_i (CWISS_H2 hash) t;
        new ← read_slot t new_i;
        t ← write_slot i (Some new) t;
        t ← write_slot new_i (Some old) t;
        mret (t, i).

Fixpoint drop_loop (fuel : nat) (t : RawTable) (i : Z) : CW RawTable :=
  match fuel with
  | O => no_fuel
  | S fuel' => if i =? capacity_ t then mret t else '(t, i) ← drop_step t i; drop_loop fuel' t i
  end.

Definition CWISS_RawTable_DropDeletesWithoutResize (t : RawTable) : CW RawTable :=
  _ ← cw_dcheck (CWISS_IsValidCapacity (capacity_ t));
  _ ← cw_dcheck (negb (CWISS_IsSmall (capacity_ t)));
  c ← CWISS_ConvertDeletedToEmptyAndFullToDeleted (ctrl_ t) (capacity_ t);
  _ ← CWISS_DefaultMalloc slot_size;
  t ← drop_loop (S (2 * Z.to_nat (capacity_ t))) (with_ctrl c t) 0;
  CWISS_RawTable_ResetGrowthLeft t.

Definition CWISS_RawTable_rehash_and_grow_if_necessary (t : RawTable) : CW RawTable :=
  if capacity_ t =? 0 then CWISS_RawTable_Resize 1 t
  else if (CWISS_Group_kWidth <? capacity_ t) && (u64 (size_ t * 32) <=? u64 (capacity_ t * 25)) then
    CWISS_RawTable_DropDeletesWithoutResize t
  else CWISS_RawTable_Resize (u64 (capacity_ t * 2 + 1)) t.

(** *** Searching and inserting *)

(** The bookkeeping for a new entry at [i]. *)
Definition take_slot (hash i : Z) (t : RawTable) : CW (RawTable * Z) :=
  let t := with_size (u64 (size_ t + 1)) t in
  c ← lift (get_at (ctrl_ t) i);
  let t := with_growth (u64 (growth_left_ t - (if CWISS_IsEmpty c then 1 else 0))) t in
  t ← set_ctrl i (CWISS_H2 hash) t;
  mret (t, i).

Definition CWISS_RawTable_PrepareInsert (hash : Z) (t : RawTable) : CW (RawTable * Z) :=
  target ← CWISS_FindFirstNonFull (ctrl_ t) (ctrl_addr t) hash (capacity_ t);
  c ← (if growth_left_ t =? 0 then lift (get_at (ctrl_ t) (fi_offset target)) else mret 0);
  if (growth_left_ t =? 0) && negb (CWISS_IsDeleted c) then
    t ← CWISS_RawTable_rehash_and_grow_if_necessary t;
    target ← CWISS_FindFirstNonFull (ctrl_ t) (ctrl_addr t) hash (capacity_ t);
    take_slot hash (fi_offset target) t
  else take_slot hash (fi_offset target) t.

(** The positions of a group that match the hash: the index of the slot with the key. *)
Fixpoint key_match_loop (fuel : nat) (t : RawTable) (seq : CWISS_ProbeSeq) (key : K) (m : CWISS_BitMask) : CW (option Z) :=
  match fuel with
  | O => no_fuel
  | S fuel' =>
      match CWISS_BitMask_next m with
      | None => mret None
      | Some (i, m) =>
          let idx := CWISS_ProbeSeq_offset seq i in
          e ← read_slot t idx;
          if key_eq key e.1 then mret (Some idx) else key_match_loop fuel' t seq key m
      end
  end.

(** The search that [CWISS_RawTable_FindOrPrepareInsert] and [CWISS_RawTable_find_hinted] have in common. *)
Fixpoint key_probe_loop (fuel : nat) (t : RawTable) (key : K) (hash : Z) (seq : CWISS_ProbeSeq) : CW (option Z) :=
  match fuel with
  | O => no_fuel
  | S fuel' =>
      g ← group_at (ctrl_ t) (offset_ seq);
      found ← key_match_loop 17 t seq key (CWISS_Group_Match g (CWISS_H2 hash));
      match found with
      | Some idx => mret (Some idx)
      | None =>
          if negb (mask (CWISS_Group_MatchEmpty g) =? 0) then mret None
          else
            let seq := CWISS_ProbeSeq_next seq in
            _ ← cw_dcheck (index_ seq <=? capacity_ t);
            key_probe_loop fuel' t key hash seq
      end
  end.

Definition probe (t : RawTable) (key : K) (hash : Z) : CW (option Z) :=
  key_probe_loop (S (Z.to_nat (capacity_ t))) t key hash (CWISS_ProbeSeq_Start (ctrl_addr t) hash (capacity_ t)).

Definition CWISS_RawTable_FindOrPrepareInsert (key : K) (t : RawTable) : CW (RawTable * CWISS_PrepareInsert) :=
  let hash := key_hash key in
  found ← probe t key hash;
  match found with
  | Some idx => mret (t, mkPrep idx false)
  | None => '(t, idx) ← CWISS_RawTable_PrepareInsert hash t; mret (t, mkPrep idx true)
  end.

(** The new or the old entry, as an iterator, and whether it is new. *)
Definition CWISS_RawTable_insert (val : K * V) (t : RawTable) : CW (RawTable * (CWISS_RawIter * bool)) :=
  '(t, res) ← CWISS_RawTable_FindOrPrepareInsert val.1 t;
  t ← (if pi_inserted res then write_slot (pi_index res) (Some val) t else mret t);
  it ← CWISS_RawTable_iter_at t (pi_index res);
  mret (t, (it, pi_inserted res)).

Definition CWISS_RawTable_find_hinted (t : RawTable) (key : K) (hash : Z) : CW CWISS_RawIter :=
  found ← probe t key hash;
  match found with Some idx => CWISS_RawTable_iter_at t idx | None => mret None end.

Definition CWISS_RawTable_find (t : RawTable) (key : K) : CW CWISS_RawIter := CWISS_RawTable_find_hinted t key (key_hash key).

Definition CWISS_RawTable_contains (t : RawTable) (key : K) : CW bool :=
  it ← CWISS_RawTable_find t key; mret (bool_decide (is_Some it)).

Definition CWISS_RawTable_erase (key : K) (t : RawTable) : CW (RawTable * bool) :=
  it ← CWISS_RawTable_find t key;
  match it with None => mret (t, false) | Some _ => t ← CWISS_RawTable_erase_at it t; mret (t, true) end.

(** As [CWISS_RawTable_insert], but the slot is left to the caller to initialise. *)
Definition CWISS_RawTable_deferred_insert (key : K) (t : RawTable) : CW (RawTable * (CWISS_RawIter * bool)) :=
  '(t, res) ← CWISS_RawTable_FindOrPrepareInsert key t;
  it ← CWISS_RawTable_iter_at t (pi_index res);
  mret (t, (it, pi_inserted res)).

(** *** Creating and destroying *)

Definition empty_table : RawTable := mkTable CWISS_EmptyGroup empty_group [] 0 0 0.

Definition CWISS_RawTable_new (capacity : Z) : CW RawTable :=
  if capacity =? 0 then mret empty_table
  else CWISS_RawTable_InitializeSlots (mkTable CWISS_EmptyGroup empty_group [] 0 (CWISS_NormalizeCapacity capacity) 0).

(** The slots that are destroyed, in order. *)
Fixpoint del_slots (t : RawTable) (l : list Z) : CW (list (K * V)) :=
  match l with
  | [] => mret []
  | i :: l' =>
      c ← lift (get_at (ctrl_ t) i);
      if CWISS_IsFull c then e ← read_slot t i; es ← del_slots t l'; mret (e :: es) else del_slots t l'
  end.

(** The table and the entries that were destroyed. *)
Definition CWISS_RawTable_DestroySlots (t : RawTable) : CW (RawTable * list (K * V)) :=
  if capacity_ t =? 0 then mret (t, [])
  else
    es ← del_slots t (seqZ 0 (capacity_ t));
    _ ← CWISS_AllocSize (capacity_ t) slot_size slot_align;
    mret (empty_table, es).

Definition CWISS_RawTable_clear (t : RawTable) : CW (RawTable * list (K * V)) :=
  '(t, es) ←
    (if 127 <? capacity_ t then CWISS_RawTable_DestroySlots t
     else if negb (capacity_ t =? 0) then
       es ← del_slots t (seqZ 0 (capacity_ t));
       let t := with_size 0 t in
       let t := with_slots (replicate (Z.to_nat (capacity_ t)) None) (with_ctrl (CWISS_ResetCtrl (capacity_ t)) t) in
       t ← CWISS_RawTable_ResetGrowthLeft t;
       mret (t, es)
     else mret (t, []));
  _ ← cw_dcheck (size_ t =? 0);
  mret (t, es).

Definition CWISS_RawTable_reserve (n : Z) (t : RawTable) : CW RawTable :=
  if n <=? u64 (size_ t + growth_left_ t) then mret t
  else CWISS_RawTable_Resize (CWISS_NormalizeCapacity (CWISS_GrowthToLowerboundCapacity n)) t.

Definition CWISS_RawTable_rehash (n : Z) (t : RawTable) : CW RawTable :=
  if (n =? 0) && (capacity_ t =? 0) then mret t
  else if (n =? 0) && (size_ t =? 0) then '(t, _) ← CWISS_RawTable_DestroySlots t; mret t
  else
    let m := CWISS_NormalizeCapacity (Z.lor n (CWISS_GrowthToLowerboundCapacity (size_ t))) in
    if (n =? 0) || (capacity_ t <? m) then CWISS_RawTable_Resize m t else mret t.

(** Each entry that the iterator yields is added to the copy. *)
Fixpoint dup_loop (fuel : nat) (self copy : RawTable) (it : CWISS_RawIter) : CW RawTable :=
  match fuel with
  | O => no_fuel
  | S fuel' =>
      o ← CWISS_RawIter_get self it;
      match o with
      | None => mret copy
      | Some v =>
          let hash := key_hash v.1 in
          target ← CWISS_FindFirstNonFull (ctrl_ copy) (ctrl_addr copy) hash (capacity_ copy);
          copy ← set_ctrl (fi_offset target) (CWISS_H2 hash) copy;
          copy ← write_slot (fi_offset target) (Some v) copy;
          '(it, _) ← CWISS_RawIter_next self it;
          dup_loop fuel' self copy it
      end
  end.

Definition CWISS_RawTable_dup (self : RawTable) : CW RawTable :=
  copy ← CWISS_RawTable_new 0;
  copy ← CWISS_RawTable_reserve (size_ self) copy;
  it ← CWISS_RawTable_iter self;
  copy ← dup_loop (S (Z.to_nat (capacity_ self))) self copy it;
  mret (with_growth (u64 (growth_left_ copy - size_ self)) (with_size (size_ self) copy)).

End table.
