(* ===== verification/CwProbe.v ===== *)
(** * Probing covers a table

    The control bytes of a table of [N - 1] slots, [N] a power of two, are a ring of [N]
    positions, the last of which is the sentinel.  A search looks at windows of [W] positions
    whose distances grow; the windows before a table is exhausted tile the ring. *)

From S2P Require Import Prelude CwBits CwGroup CwTable.

(** ** Triangular numbers modulo a power of two *)

Definition tri (k : Z) : Z := k * (k + 1) / 2.

Lemma tri_double k : 2 * tri k = k * (k + 1).
Proof.
  unfold tri. assert ((k * (k + 1)) mod 2 = 0) as H.
  { rewrite Zmult_mod. destruct (Z.mod_pos_bound k 2 ltac:(lia)) as [? ?]. assert (k mod 2 = 0 ∨ k mod 2 = 1) as [E|E] by lia.
    - by rewrite E.
    - replace ((k + 1) mod 2) with 0; [by rewrite Z.mul_0_r|]. rewrite Zplus_mod, E. done. }
  pose proof (Z.div_mod (k * (k + 1)) 2 ltac:(lia)). lia.
Qed.

Lemma tri_succ k : tri (k + 1) = tri k + (k + 1).
Proof. pose proof (tri_double k). pose proof (tri_double (k + 1)). lia. Qed.

Lemma tri_nonneg k : 0 <= k → 0 <= tri k.
Proof. intros. pose proof (tri_double k). nia. Qed.

(** A power of two that divides a product with an odd number divides the other factor. *)
Lemma pow2_divide_odd (q : nat) a b : Z.odd a = true → (2 ^ Z.of_nat q | a * b) → (2 ^ Z.of_nat q | b).
Proof.
  intros Ha. revert b. induction q as [|q IH]; intros b Hd; [simpl; apply Z.divide_1_l|].
  rewrite Nat2Z.inj_succ, Z.pow_succ_r in * by lia.
  assert (Z.even (a * b) = true) as He. { apply Z.even_spec. destruct Hd as [c Hc]. exists (c * 2 ^ Z.of_nat q). lia. }
  rewrite Z.even_mul, <- (Z.negb_odd a), Ha in He. simpl in He. apply Z.even_spec in He as [b' ->].
  apply Z.mul_divide_mono_l, IH. replace (a * (2 * b')) with (2 * (a * b')) in Hd by lia.
  by apply Z.mul_divide_cancel_l in Hd.
Qed.

Lemma tri_inj (q : nat) a b : 0 <= a < 2 ^ Z.of_nat q → 0 <= b < 2 ^ Z.of_nat q → tri a mod 2 ^ Z.of_nat q = tri b mod 2 ^ Z.of_nat q → a = b.
Proof.
  intros Ha Hb E. set (n := 2 ^ Z.of_nat q) in *.
  assert (2 ^ Z.of_nat (S q) | (a - b) * (a + b + 1)) as Hd.
  { rewrite Nat2Z.inj_succ, Z.pow_succ_r by lia. fold n. pose proof (tri_double a). pose proof (tri_double b).
    pose proof (Z.div_mod (tri a) n ltac:(lia)). pose proof (Z.div_mod (tri b) n ltac:(lia)). exists (tri a / n - tri b / n). nia. }
  destruct (Z.odd (a - b)) eqn:Ho.
  - apply pow2_divide_odd in Hd; [|done]. rewrite Nat2Z.inj_succ, Z.pow_succ_r in Hd by lia. fold n in Hd.
    apply Z.divide_pos_le in Hd; lia.
  - rewrite Z.mul_comm in Hd. apply pow2_divide_odd in Hd.
    + rewrite Nat2Z.inj_succ, Z.pow_succ_r in Hd by lia. fold n in Hd. destruct Hd as [c Hc]. destruct (decide (c = 0)); nia.
    + replace (a + b + 1) with (1 + (a - b) + 2 * b) by lia. rewrite Z.odd_add_mul_2, Z.odd_add, Ho. done.
Qed.

(** ... so every residue is reached. *)
Lemma tri_onto (q : nat) j : 0 <= j < 2 ^ Z.of_nat q → ∃ k, 0 <= k < 2 ^ Z.of_nat q ∧ tri k mod 2 ^ Z.of_nat q = j.
Proof.
  intros Hj. set (n := 2 ^ Z.of_nat q) in *. set (l := (λ k, tri k mod n) <$> seqZ 0 n).
  assert (NoDup l) as Hn.
  { apply NoDup_fmap_2_strong; [|apply NoDup_seqZ]. intros a b Ha%elem_of_seqZ Hb%elem_of_seqZ. apply tri_inj; unfold n in *; lia. }
  assert (l ⊆+ seqZ 0 n) as Hs.
  { apply NoDup_submseteq; [done|]. intros x (k & -> & _)%list_elem_of_fmap. apply elem_of_seqZ. pose proof (Z.mod_pos_bound (tri k) n). lia. }
  apply submseteq_length_Permutation in Hs; [|unfold l; by rewrite length_fmap].
  assert (j ∈ l) as (k & -> & Hk%elem_of_seqZ)%list_elem_of_fmap by (rewrite Hs; apply elem_of_seqZ; lia). exists k. split; [lia|done].
Qed.

(** ** The ring

    [b] is the number of bits of a position; the [k]-th window starts at [win o k] when the first
    starts at [o]. *)

Section ring.
Context `{GroupLaws}.
Context (b : Z) (Hb : 0 <= b <= 58).

Local Abbreviation W := CWISS_Group_kWidth.
Definition ringN : Z := 2 ^ b.
Definition win (o k : Z) : Z := (o + W * tri k) mod 2 ^ b.
(** The number of windows that are probed at most. *)
Definition nwin : Z := Z.max 1 (2 ^ b / W).

Lemma ring_pos : 1 <= 2 ^ b.
Proof. lia. Qed.

Lemma ring_le : 2 ^ b <= 2 ^ 58.
Proof. apply Z.pow_le_mono_r; lia. Qed.

Lemma width_pow : ∃ w, 0 <= w <= 4 ∧ W = 2 ^ w.
Proof. destruct group_width as [->| ->]; [exists 3|exists 4]; split; (lia || done). Qed.

Lemma width_bounds : 8 <= W <= 16.
Proof. destruct group_width as [->| ->]; lia. Qed.

(** The ring is smaller than a window or a multiple of it. *)
Lemma ring_shape : (2 ^ b < W ∧ nwin = 1 ∧ (2 ^ b | W)) ∨ (W <= 2 ^ b ∧ 2 ^ b = W * nwin ∧ ∃ q : nat, nwin = 2 ^ Z.of_nat q).
Proof.
  destruct width_pow as (w & Hw & E). unfold nwin. rewrite E. destruct (decide (b < w)).
  - left. assert (2 ^ b < 2 ^ w) by (apply Z.pow_lt_mono_r; lia). rewrite Z.div_small by lia. split_and!; [done|done|].
    exists (2 ^ (w - b)). rewrite <- Z.pow_add_r by lia. f_equal. lia.
  - right. assert (2 ^ w <= 2 ^ b) by (apply Z.pow_le_mono_r; lia).
    assert (2 ^ b / 2 ^ w = 2 ^ (b - w)) as ->. { symmetry. apply Z.div_unique_exact; [lia|]. rewrite <- Z.pow_add_r by lia. f_equal. lia. }
    assert (1 <= 2 ^ (b - w)) by lia. rewrite Z.max_r by lia. split_and!; [done|rewrite <- Z.pow_add_r by lia; f_equal; lia|].
    exists (Z.to_nat (b - w)). f_equal. lia.
Qed.

Lemma win_range o k : 0 <= win o k < 2 ^ b.
Proof. apply Z.mod_pos_bound. lia. Qed.

Lemma land_mask a : Z.land a (2 ^ b - 1) = a mod 2 ^ b.
Proof. apply land_ones_mod. lia. Qed.

Lemma mod_u64 a : u64 a mod 2 ^ b = a mod 2 ^ b.
Proof.
  unfold u64. apply Z.mod_mod_divide. exists (2 ^ (64 - b)). rewrite <- Z.pow_add_r by lia. f_equal. lia.
Qed.

(** [p] is seen at place [i] of the window that starts at [o]: the bytes behind the copies
    of the [2 ^ b - 1] slots are no slots. *)
Definition seen (o i p : Z) : Prop := 0 <= i < W ∧ o + i < 2 ^ b + (2 ^ b - 1) ∧ (o + i) mod 2 ^ b = p.

(** In a ring of several windows, the window of a position is told by its distance. *)
Lemma seen_tile o k p : W <= 2 ^ b → 0 <= p < 2 ^ b → (∃ i, seen (win o k) i p) ↔ (p - o) mod 2 ^ b / W = tri k mod nwin.
Proof.
  intros Hl Hp. pose proof width_bounds. destruct ring_shape as [(Hs & _)|(_ & EN & q & Eq)]; [lia|].
  assert (0 <= tri k mod nwin < nwin) as Ht by (apply Z.mod_pos_bound; lia).
  assert (tri k = nwin * (tri k / nwin) + tri k mod nwin) as Et by (apply Z.div_mod; lia).
  assert (∀ i, (win o k + i) mod 2 ^ b = (o + (W * (tri k mod nwin) + i)) mod 2 ^ b) as Ew.
  { intros i. unfold win. rewrite Zplus_mod_idemp_l.
    replace (o + W * tri k + i) with (o + (W * (tri k mod nwin) + i) + tri k / nwin * 2 ^ b); [by rewrite Z_mod_plus_full|].
    assert (W * tri k = tri k / nwin * (W * nwin) + W * (tri k mod nwin)) by (rewrite Et at 1; ring). rewrite <- EN in *. lia. }
  split.
  - intros (i & Hi & _ & E). rewrite Ew in E. rewrite <- E, Zminus_mod_idemp_l. replace (o + (W * (tri k mod nwin) + i) - o) with (W * (tri k mod nwin) + i) by lia.
    assert (0 <= W * (tri k mod nwin) + i < 2 ^ b) by (rewrite EN; nia).
    rewrite Z.mod_small by done. symmetry. apply Z.div_unique with i; lia.
  - intros E. set (d := (p - o) mod 2 ^ b) in *. assert (0 <= d mod W < W) by (apply Z.mod_pos_bound; lia).
    assert (d = W * (d / W) + d mod W) as Ed by (apply Z.div_mod; lia). pose proof (win_range o k). exists (d mod W). unfold seen. split_and!; [lia..|].
    rewrite Ew, <- E, <- Ed. unfold d. rewrite Zplus_mod_idemp_r. replace (o + (p - o)) with p by lia. by apply Z.mod_small.
Qed.

(** Every slot is in one of the windows. *)
Lemma windows_cover o p : 0 <= o < 2 ^ b → 0 <= p < 2 ^ b - 1 → ∃ k i, 0 <= k < nwin ∧ seen (win o k) i p.
Proof.
  intros Ho Hp. pose proof width_bounds. destruct ring_shape as [(Hs & En & _)|(Hl & EN & q & Eq)].
  - exists 0, ((p - o) mod 2 ^ b). pose proof (Z.mod_pos_bound (p - o) (2 ^ b) ltac:(lia)) as Hm. split; [lia|].
    assert (win o 0 = o) as -> by (unfold win; change (tri 0) with 0; rewrite Z.mul_0_r, Z.add_0_r; by apply Z.mod_small).
    assert ((o + (p - o) mod 2 ^ b) mod 2 ^ b = p) as E. { rewrite Zplus_mod_idemp_r. replace (o + (p - o)) with p by lia. apply Z.mod_small. lia. }
    split_and!; [lia|lia| |done]. pose proof (Z.div_mod (p - o) (2 ^ b) ltac:(lia)). assert ((p - o) / 2 ^ b = 0 ∨ (p - o) / 2 ^ b = -1) as [Ed|Ed]; [|lia..].
    assert (-1 <= (p - o) / 2 ^ b) by (apply Z.div_le_lower_bound; lia). assert ((p - o) / 2 ^ b < 1) by (apply Z.div_lt_upper_bound; lia). lia.
  - pose proof (Z.mod_pos_bound (p - o) (2 ^ b) ltac:(lia)) as Hm.
    assert (0 <= (p - o) mod 2 ^ b / W < nwin) as Hj by (split; [apply Z.div_pos; lia|apply Z.div_lt_upper_bound; lia]).
    destruct (tri_onto q ((p - o) mod 2 ^ b / W)) as (k & Hk & Ek); [by rewrite <- Eq|]. rewrite <- Eq in Hk, Ek.
    exists k. destruct (proj2 (seen_tile o k p Hl ltac:(lia)) (eq_sym Ek)) as [i Hi]. by exists i.
Qed.

(** The state of a search after [k] steps. *)
Definition seq_at (o k : Z) : CWISS_ProbeSeq := mkSeq (2 ^ b - 1) (win o k) (W * k).

Lemma seq_at_start addr hash : CWISS_ProbeSeq_Start addr hash (2 ^ b - 1) = seq_at (CWISS_H1 hash addr mod 2 ^ b) 0.
Proof.
  unfold CWISS_ProbeSeq_Start, CWISS_ProbeSeq_new, seq_at, win. change (tri 0) with 0. by rewrite land_mask, Z.mul_0_r, Z.add_0_r, Z.mod_mod by lia.
Qed.

Lemma seq_at_next o k : 0 <= k < nwin → CWISS_ProbeSeq_next (seq_at o k) = seq_at o (k + 1).
Proof.
  intros Hk. pose proof width_bounds. pose proof ring_le. assert (W * (k + 1) <= 2 ^ b + W) as Hw by (destruct ring_shape as [(? & E & _)|(? & E & _)]; nia).
  unfold CWISS_ProbeSeq_next, seq_at. cbn [mask_ offset_ index_]. cbv zeta. pose proof (win_range o k).
  replace (W * k + W) with (W * (k + 1)) by lia.
  rewrite (u64_small (W * (k + 1))) by (unfold is_u64; nia). rewrite u64_small by (unfold is_u64; nia).
  rewrite land_mask. f_equal. unfold win. rewrite Zplus_mod_idemp_l, tri_succ. f_equal. ring.
Qed.

Lemma seq_at_offset o k i : 0 <= i < W → CWISS_ProbeSeq_offset (seq_at o k) i = (win o k + i) mod 2 ^ b.
Proof. intros Hi. unfold CWISS_ProbeSeq_offset, seq_at. cbn [mask_ offset_]. by rewrite land_mask, mod_u64. Qed.

Lemma seq_at_index o k : 0 <= k < nwin → index_ (seq_at o k) <= 2 ^ b - 1.
Proof. intros Hk. pose proof width_bounds. cbn [index_ seq_at]. destruct ring_shape as [(? & E & _)|(? & E & _)]; nia. Qed.

End ring.

(** ** Control bytes as a function

    [ctrl_ok b ctrl f]: the control bytes of the [2 ^ b - 1] slots are [f], the sentinel
    follows them and then the copies. *)

Definition is_slot_byte (c : Z) : Prop := c = CWISS_kEmpty ∨ c = CWISS_kDeleted ∨ is_full c.
Definition is_free (c : Z) : Prop := c = CWISS_kEmpty ∨ c = CWISS_kDeleted.

Definition upd_at {A} (f : Z → A) (i : Z) (x : A) : Z → A := λ j, if j =? i then x else f j.

Lemma upd_at_eq {A} (f : Z → A) i x : upd_at f i x i = x.
Proof. unfold upd_at. by rewrite Z.eqb_refl. Qed.

Lemma upd_at_ne {A} (f : Z → A) i x j : j ≠ i → upd_at f i x j = f j.
Proof. unfold upd_at. intros ?. by rewrite (proj2 (Z.eqb_neq j i)). Qed.

Section bytes.
Context `{GroupLaws}.
Local Abbreviation W := CWISS_Group_kWidth.

(** The byte that is stored at place [j] of the array. *)
Definition raw_byte (b : Z) (f : Z → Z) (j : Z) : Z :=
  if j <? 2 ^ b - 1 then f j
  else if j =? 2 ^ b - 1 then CWISS_kSentinel
  else if j <? 2 ^ b + (2 ^ b - 1) then f (j - 2 ^ b) else CWISS_kEmpty.

Record ctrl_ok (b : Z) (ctrl : list Z) (f : Z → Z) : Prop := {
  co_len : 2 ^ b - 1 + W <= Z.of_nat (length ctrl);
  co_byte i : 0 <= i < 2 ^ b - 1 → is_slot_byte (f i);
  co_raw j : 0 <= j < 2 ^ b - 1 + W → ctrl !! Z.to_nat j = Some (raw_byte b f j)
}.

(** The byte at place [i] of the window at [o]. *)
Definition wbyte (b : Z) (f : Z → Z) (o i : Z) : Z := raw_byte b f (o + i).

Context (b : Z) (Hb : 0 <= b <= 58) (ctrl : list Z) (f : Z → Z) (OK : ctrl_ok b ctrl f).

Lemma raw_byte_ctrl j : 0 <= j → is_ctrl (raw_byte b f j).
Proof.
  intros Hj. unfold raw_byte. assert (∀ i, 0 <= i < 2 ^ b - 1 → is_ctrl (f i)) as Hf.
  { intros i Hi. destruct (co_byte _ _ _ OK i Hi) as [->|[->|?]]; unfold is_ctrl; auto. }
  destruct (Z.ltb_spec j (2 ^ b - 1)); [apply Hf; lia|]. destruct (Z.eqb_spec j (2 ^ b - 1)); [unfold is_ctrl; auto|].
  destruct (Z.ltb_spec j (2 ^ b + (2 ^ b - 1))); [apply Hf; lia|unfold is_ctrl; auto].
Qed.

(** A slot that is seen in a window shows its byte there. *)
Lemma wbyte_seen o i p : 0 <= o < 2 ^ b → 0 <= p < 2 ^ b - 1 → seen b o i p → wbyte b f o i = f p.
Proof.
  intros Ho Hp (Hi & Hl & E). unfold wbyte, raw_byte. destruct (Z.ltb_spec (o + i) (2 ^ b - 1)).
  - rewrite Z.mod_small in E by lia. by subst.
  - destruct (Z.eqb_spec (o + i) (2 ^ b - 1)); [rewrite Z.mod_small in E by lia; lia|].
    rewrite (proj2 (Z.ltb_lt _ _)) by lia. f_equal. rewrite <- E. apply Z.mod_unique with 1; lia.
Qed.

(** What is shown is a slot, the sentinel, or nothing. *)
Lemma wbyte_cases o i : 0 <= o < 2 ^ b → 0 <= i < W →
  (∃ p, 0 <= p < 2 ^ b - 1 ∧ seen b o i p ∧ wbyte b f o i = f p) ∨
  (wbyte b f o i = CWISS_kSentinel ∧ (o + i) mod 2 ^ b = 2 ^ b - 1) ∨ (wbyte b f o i = CWISS_kEmpty ∧ 2 ^ b + (2 ^ b - 1) <= o + i).
Proof.
  intros Ho Hi. unfold wbyte, raw_byte. destruct (Z.ltb_spec (o + i) (2 ^ b - 1)).
  - left. exists (o + i). split_and!; [lia..| |done]. unfold seen. split_and!; [lia..|]. apply Z.mod_small. lia.
  - destruct (Z.eqb_spec (o + i) (2 ^ b - 1)) as [E|]; [right; left; rewrite E; split; [done|apply Z.mod_small; lia]|].
    destruct (Z.ltb_spec (o + i) (2 ^ b + (2 ^ b - 1))); [|auto]. left. exists (o + i - 2 ^ b). split_and!; [lia..| |done].
    unfold seen. split_and!; [lia..|]. symmetry. apply Z.mod_unique with 1; lia.
Qed.

Lemma slice_spec o n : 0 <= o → 0 <= n → o + n <= Z.of_nat (length ctrl) →
  ∃ bs, slice ctrl o n = Some bs ∧ Z.of_nat (length bs) = n ∧ ∀ i : nat, Z.of_nat i < n → bs !! i = ctrl !! (Z.to_nat o + i)%nat.
Proof.
  intros Ho Hn Hl. unfold slice. rewrite (proj2 (Z.ltb_ge o 0)), (proj2 (Z.ltb_ge (Z.of_nat (length ctrl)) _)) by lia. simpl. eexists. split; [done|].
  split; [rewrite length_take, length_drop; lia|]. intros i Hi. rewrite lookup_take_lt by lia. apply lookup_drop.
Qed.

(** The group at [o] is the window. *)
Lemma window_bytes o : 0 <= o < 2 ^ b →
  ∃ bs, slice ctrl o W = Some bs ∧ group_bytes bs ∧ ∀ i : nat, Z.of_nat i < W → bs !! i = Some (wbyte b f o (Z.of_nat i)).
Proof.
  intros Ho. pose proof width_bounds. destruct (slice_spec o W) as (bs & E & Hl & Hi); [lia..|pose proof (co_len _ _ _ OK); lia|].
  assert (∀ i : nat, Z.of_nat i < W → bs !! i = Some (wbyte b f o (Z.of_nat i))) as Hw.
  { intros i Hlt. rewrite Hi by done. unfold wbyte. rewrite <- (co_raw _ _ _ OK) by lia. f_equal. lia. }
  exists bs. split_and!; [done|split; [done|]|done]. apply Forall_lookup. intros i c Hc. pose proof (lookup_lt_Some _ _ _ Hc).
  rewrite Hw in Hc by lia. injection Hc as <-. apply raw_byte_ctrl. lia.
Qed.

Lemma get_byte j : 0 <= j < 2 ^ b - 1 + W → get_at ctrl j = Some (raw_byte b f j).
Proof. intros Hj. unfold get_at. rewrite (proj2 (Z.ltb_ge j 0)) by lia. by apply (co_raw _ _ _ OK). Qed.

Lemma get_slot_byte i : 0 <= i < 2 ^ b - 1 → get_at ctrl i = Some (f i).
Proof. intros Hi. pose proof width_bounds. rewrite get_byte by lia. unfold raw_byte. by rewrite (proj2 (Z.ltb_lt i _)) by lia. Qed.

End bytes.

(** ** Writing a control byte *)

Section write.
Context `{GroupLaws} (ndebug : bool).
Local Abbreviation W := CWISS_Group_kWidth.

Lemma dcheck_true b w : b = true → cw_dcheck ndebug b w = COk () w.
Proof. intros ->. unfold cw_dcheck. by destruct ndebug. Qed.

(** The second place that [CWISS_SetCtrl] writes to is the copy, if there is one. *)
Lemma mirrored_place b i : 0 <= b <= 58 → 0 <= i < 2 ^ b - 1 →
  Z.land (u64 (i - CWISS_NumClonedBytes)) (2 ^ b - 1) + Z.land CWISS_NumClonedBytes (2 ^ b - 1) = if i <? W - 1 then 2 ^ b + i else i.
Proof.
  intros Hb Hi. pose proof width_bounds. unfold CWISS_NumClonedBytes. rewrite !land_mask, mod_u64 by done.
  destruct (ring_shape b Hb) as [(Hs & _ & c & Hc)|(Hl & _)].
  - rewrite (proj2 (Z.ltb_lt i (W - 1))) by lia.
    replace ((i - (W - 1)) mod 2 ^ b) with (i + 1) by (apply Z.mod_unique with (- c); lia).
    replace ((W - 1) mod 2 ^ b) with (2 ^ b - 1) by (apply Z.mod_unique with (c - 1); lia). lia.
  - rewrite (Z.mod_small (W - 1)) by lia. destruct (Z.ltb_spec i (W - 1)).
    + replace ((i - (W - 1)) mod 2 ^ b) with (i - (W - 1) + 2 ^ b) by (apply Z.mod_unique with (-1); lia). lia.
    + rewrite Z.mod_small by lia. lia.
Qed.

Lemma set_at_spec {A} (l : list A) i x : 0 <= i < Z.of_nat (length l) → set_at i x l = Some (<[Z.to_nat i := x]> l).
Proof. intros Hi. unfold set_at. by rewrite (proj2 (Z.ltb_ge i 0)), (proj2 (Z.leb_gt _ i)) by lia. Qed.

Lemma set_ctrl_ok b ctrl f i h w : 0 <= b <= 58 → ctrl_ok b ctrl f → 0 <= i < 2 ^ b - 1 → is_slot_byte h →
  ∃ ctrl', CWISS_SetCtrl ndebug i h (2 ^ b - 1) ctrl w = COk ctrl' w ∧ ctrl_ok b ctrl' (upd_at f i h).
Proof.
  intros Hb OK Hi Hh. pose proof width_bounds. pose proof (co_len _ _ _ OK) as Hlen.
  unfold CWISS_SetCtrl, mbind, CW_bind. rewrite dcheck_true by (apply Z.ltb_lt; lia). cbv zeta. rewrite mirrored_place by done.
  set (j := if i <? W - 1 then 2 ^ b + i else i). assert (0 <= j < 2 ^ b - 1 + W) as Hj by (unfold j; destruct (Z.ltb_spec i (W - 1)); lia).
  rewrite set_at_spec by lia. cbn [lift]. rewrite set_at_spec by (rewrite length_insert; lia). cbn [lift]. eexists. split; [done|]. split.
  - by rewrite !length_insert.
  - intros p Hp. unfold upd_at. case_if; [done|]. by apply (co_byte _ _ _ OK).
  - intros p Hp. pose proof (co_raw _ _ _ OK p Hp) as Hr. pose proof (lookup_lt_Some _ _ _ Hr).
    assert (raw_byte b (upd_at f i h) p = if (p =? j) || (p =? i) then h else raw_byte b f p) as ->.
    { unfold raw_byte, upd_at, j. destruct (Z.ltb_spec i (W - 1)); destruct (Z.eqb_spec p i), (Z.ltb_spec p (2 ^ b - 1)), (Z.eqb_spec p (2 ^ b - 1)),
        (Z.ltb_spec p (2 ^ b + (2 ^ b - 1))), (Z.eqb_spec (p - 2 ^ b) i), (Z.eqb_spec p (2 ^ b + i)); simpl; first [done|lia]. }
    destruct (Z.eqb_spec p j) as [->|]; [rewrite list_lookup_insert_eq by (rewrite length_insert; lia); done|]. cbn [orb].
    rewrite list_lookup_insert_ne by lia. destruct (Z.eqb_spec p i) as [->|]; [by rewrite list_lookup_insert_eq by lia|].
    by rewrite list_lookup_insert_ne by lia.
Qed.

End write.
