(* ===== verification/CwSearch.v ===== *)
(** * Searching the open-addressing table

    What [CWISS_FindFirstNonFull] finds, and what the search for a key finds when the
    windows before each entry hold no empty slot. *)

From S2P Require Import Prelude CwBits CwGroup CwTable CwProbe.

Lemma cw_bind_ok {A B} (m : CW A) (k : A → CW B) w a w' : m w = COk a w' → (m ≫= k) w = k a w'.
Proof. intros E. unfold mbind, CW_bind. by rewrite E. Qed.

(** Rewrite the first step of a computation with a lemma about it. *)
Tactic Notation "cw_step" uconstr(lem) := erewrite cw_bind_ok by (eapply lem; eauto); cbv beta.

Section search.
Context `{GroupLaws} (ndebug : bool) (counter_addr : Z).
Local Abbreviation W := CWISS_Group_kWidth.

Lemma selects_has m bs P i : selects m bs P → 0 <= i → bm_has m i ↔ ∃ c, bs !! Z.to_nat i = Some c ∧ P c.
Proof. intros (_ & _ & Hs) Hi. rewrite <- (Z2Nat.id i Hi) at 1. apply Hs. Qed.

Context (b : Z) (Hb : 0 <= b <= 58) (ctrl : list Z) (f : Z → Z) (OK : ctrl_ok b ctrl f).

(** The group at a position, with the two tests for free slots. *)
Lemma group_at_ok o w : 0 <= o < 2 ^ b → ∃ bs, group_at ctrl o w = COk (CWISS_Group_new bs) w ∧ group_bytes bs ∧
  (∀ i : nat, Z.of_nat i < W → bs !! i = Some (wbyte b f o (Z.of_nat i))).
Proof.
  intros Ho. destruct (window_bytes b Hb ctrl f OK o Ho) as (bs & E & Hg & Hi). exists bs. split_and!; [|done|done].
  unfold group_at, mbind, CW_bind. by rewrite E.
Qed.

Lemma window_selects m o bs P : group_bytes bs → (∀ i : nat, Z.of_nat i < W → bs !! i = Some (wbyte b f o (Z.of_nat i))) →
  selects m bs P → bm_ok m ∧ width m = W ∧ ∀ i, bm_has m i ↔ 0 <= i < W ∧ P (wbyte b f o i).
Proof.
  intros [Hl Hg] Hw Hs. pose proof Hs as (Hok & Hwd & _). split_and!; [done|done|]. intros i. split.
  - intros Hi. pose proof Hi as [Hr _]. rewrite Hwd in Hr. apply (selects_has m bs P) in Hi; [|done|lia]. destruct Hi as (c & Hc & HP).
    rewrite Hw in Hc by lia. rewrite Z2Nat.id in Hc by lia. injection Hc as <-. done.
  - intros [Hr HP]. apply (selects_has m bs P); [done|lia|]. rewrite Hw by lia. rewrite Z2Nat.id by lia. eauto.
Qed.

(** ** The first free slot *)

Definition no_free (o k : Z) : Prop := ∀ i, 0 <= i < W → ¬ is_free (wbyte b f (win b o k) i).

(** [p] is in the first window that has a free place. *)
Definition first_free (o p : Z) : Prop := ∃ k i, 0 <= k < nwin b ∧ seen b (win b o k) i p ∧ ∀ k', 0 <= k' < k → no_free o k'.

Lemma free_seen o i p : 0 <= o < 2 ^ b → 0 <= p < 2 ^ b - 1 → is_free (f p) → seen b o i p → 0 <= i < W ∧ is_free (wbyte b f o i).
Proof. intros Ho Hp Hf Hs. rewrite (wbyte_seen b Hb f o i p) by done. destruct Hs as [Hi _]. done. Qed.

Lemma shown_free o i : 0 <= o < 2 ^ b → 0 <= i < W → is_free (wbyte b f o i) →
  (∃ p, 0 <= p < 2 ^ b - 1 ∧ seen b o i p ∧ is_free (f p)) ∨ 2 ^ b + (2 ^ b - 1) <= o + i.
Proof.
  intros Ho Hi Hf. destruct (wbyte_cases b Hb f o i Ho Hi) as [(p & Hp & Hs & E)|[[E _]|[_ ?]]].
  - left. exists p. rewrite E in Hf. done.
  - rewrite E in Hf. destruct Hf; done.
  - by right.
Qed.

Lemma is_small_spec : CWISS_IsSmall (2 ^ b - 1) = true ↔ 2 ^ b < W.
Proof. unfold CWISS_IsSmall. rewrite Z.ltb_lt. lia. Qed.

Lemma backwards_ok hash addr w : ∃ v w',
  (if negb ndebug && negb (CWISS_IsSmall (2 ^ b - 1)) then CWISS_ShouldInsertBackwards counter_addr hash addr else mret false) w = COk v w' ∧
  allocs w' = allocs w ∧ (v = true → W <= 2 ^ b) ∧ (2 ^ b < W → w' = w).
Proof.
  destruct (CWISS_IsSmall (2 ^ b - 1)) eqn:Es; rewrite ?andb_false_r.
  - eexists _, _. split_and!; [done|done|done|done].
  - assert (W <= 2 ^ b) as Hl by (apply not_true_iff_false in Es; rewrite is_small_spec in Es; lia).
    destruct (negb ndebug); eexists _, _; split_and!; first [done|by intros|lia].
Qed.

Lemma find_first_loop_ok fuel o k addr hash w : 0 <= o < 2 ^ b → 0 <= k < nwin b → nwin b - k <= Z.of_nat fuel →
  (∃ p, 0 <= p < 2 ^ b - 1 ∧ is_free (f p)) → (∀ k', 0 <= k' < k → no_free o k') →
  ∃ info w', find_first_loop counter_addr ndebug fuel ctrl addr hash (2 ^ b - 1) (seq_at b o k) w = COk info w' ∧ allocs w' = allocs w ∧
    0 <= fi_offset info < 2 ^ b - 1 ∧ is_free (f (fi_offset info)) ∧ first_free o (fi_offset info).
Proof.
  intros Ho. revert k w. induction fuel as [|fuel IH]; intros k w Hk Hfu (p & Hp & Hf) Hbefore; [lia|]. cbn [find_first_loop].
  pose proof (win_range b Hb o k) as Hwr. destruct (group_at_ok (win b o k) w Hwr) as (bs & E & Hg & Hbs). rewrite (cw_bind_ok _ _ _ _ _ E). clear E.
  destruct (window_selects _ (win b o k) bs _ Hg Hbs (group_match_free bs Hg)) as (Hok & Hwd & Hhas).
  set (m := CWISS_Group_MatchEmptyOrDeleted (CWISS_Group_new bs)) in *. cbv zeta. change (offset_ (seq_at b o k)) with (win b o k).
  destruct (Z.eqb_spec (mask m) 0) as [E0|E0]; cbn [negb].
  - assert (no_free o k) as Hnk. { intros i Hi Hfr. apply (bm_has_nonzero m i); [by apply Hhas|done]. }
    destruct (windows_cover b Hb o p Ho Hp) as (k1 & i1 & Hk1 & Hs1).
    assert (k < k1) as Hlt. { destruct (decide (k < k1)); [done|]. destruct (free_seen _ _ _ (win_range b Hb o k1) Hp Hf Hs1) as [Hi Hfr].
      exfalso. destruct (decide (k1 = k)) as [->|]; [by apply (Hnk i1)|]. apply (Hbefore k1 ltac:(lia) i1 Hi Hfr). }
    rewrite seq_at_next by done. erewrite cw_bind_ok by (apply dcheck_true, Z.leb_le, seq_at_index; lia).
    apply IH; [lia|lia|by exists p|]. intros k' Hk'. destruct (decide (k' = k)) as [->|]; [done|]. apply Hbefore. lia.
  - destruct (backwards_ok hash addr w) as (v & w' & E & Ha & Hv & _). rewrite (cw_bind_ok _ _ _ _ _ E). clear E.
    assert (∃ i, bm_has m i ∧ (if v then CWISS_BitMask_HighestBitSet m else CWISS_BitMask_TrailingZeros m) = i ∧ (v = false → ∀ j, bm_has m j → i <= j)) as (i & Hi & Ei & Hmin).
    { destruct v; [destruct (bm_high m Hok E0) as (i & ? & _ & _ & ?)|destruct (bm_low m Hok E0) as (i & ? & ? & _ & ?)]; by exists i. }
    exists (mkFind (CWISS_ProbeSeq_offset (seq_at b o k) i) (index_ (seq_at b o k))), w'.
    split; [destruct v; by rewrite Ei|]. split; [done|]. cbn [fi_offset].
    apply Hhas in Hi as [Hir Hfr]. rewrite seq_at_offset by done.
    assert (∃ p, 0 <= p < 2 ^ b - 1 ∧ seen b (win b o k) i p ∧ is_free (f p)) as (p' & Hp' & Hs' & Hf').
    { destruct (shown_free _ i Hwr Hir Hfr) as [?|Hd]; [done|]. exfalso.
      assert (2 ^ b < W) as Hsm by lia. destruct v; [specialize (Hv eq_refl); lia|].
      destruct (ring_shape b Hb) as [(_ & En & _)|(? & _)]; [|lia]. assert (k = 0) as -> by lia.
      destruct (windows_cover b Hb o p Ho Hp) as (k1 & i1 & Hk1 & Hs1). assert (k1 = 0) as -> by lia.
      assert (i <= i1) as Hle. { apply Hmin; [done|]. apply Hhas. apply (free_seen _ _ p); [apply (win_range b Hb)|done|done|done]. }
      destruct Hs1 as (_ & Hlt & _). lia. }
    pose proof Hs' as (_ & _ & Ep). rewrite Ep. split_and!; [lia..|done|]. exists k, i. done.
Qed.

Lemma find_first_ok addr hash w : (∃ p, 0 <= p < 2 ^ b - 1 ∧ is_free (f p)) →
  ∃ info w', CWISS_FindFirstNonFull counter_addr ndebug ctrl addr hash (2 ^ b - 1) w = COk info w' ∧ allocs w' = allocs w ∧
    0 <= fi_offset info < 2 ^ b - 1 ∧ is_free (f (fi_offset info)) ∧ first_free (CWISS_H1 hash addr mod 2 ^ b) (fi_offset info).
Proof.
  intros Hf. unfold CWISS_FindFirstNonFull. rewrite seq_at_start by done. pose proof width_bounds.
  assert (1 <= nwin b <= 2 ^ b) as Hn by (destruct (ring_shape b Hb) as [(? & -> & _)|(? & E & _)]; nia).
  apply find_first_loop_ok; [apply Z.mod_pos_bound; lia|lia|lia|done|lia].
Qed.

(** In a table smaller than a group, there is always a free place to see, which may be no slot. *)
Lemma find_first_small addr hash w : 2 ^ b < W →
  ∃ info, CWISS_FindFirstNonFull counter_addr ndebug ctrl addr hash (2 ^ b - 1) w = COk info w ∧ 0 <= fi_offset info < 2 ^ b.
Proof.
  intros Hs. unfold CWISS_FindFirstNonFull. rewrite seq_at_start by done. cbn [find_first_loop]. pose proof width_bounds.
  set (o := CWISS_H1 hash addr mod 2 ^ b). pose proof (win_range b Hb o 0) as Hwr. destruct (group_at_ok (win b o 0) w Hwr) as (bs & E & Hg & Hbs).
  change (offset_ (seq_at b o 0)) with (win b o 0). rewrite (cw_bind_ok _ _ _ _ _ E). clear E.
  destruct (window_selects _ (win b o 0) bs _ Hg Hbs (group_match_free bs Hg)) as (Hok & Hwd & Hhas).
  set (m := CWISS_Group_MatchEmptyOrDeleted (CWISS_Group_new bs)) in *. cbv zeta.
  assert (mask m ≠ 0) as E0.
  { apply (bm_has_nonzero m (2 ^ b + (2 ^ b - 1) - win b o 0)). apply Hhas.
    destruct (ring_shape b Hb) as [(_ & _ & c & Hc)|(? & _)]; [|lia]. assert (2 <= c) by nia. split; [split; nia|].
    unfold wbyte, raw_byte. rewrite Z.add_sub_assoc, Z.add_simpl_l. rewrite !(proj2 (Z.ltb_ge _ _)) by lia. rewrite (proj2 (Z.eqb_neq _ _)) by lia. by left. }
  rewrite (proj2 (Z.eqb_neq _ _) E0). cbn [negb].
  destruct (backwards_ok hash addr w) as (v & w' & E & Ha & Hv & Hw). rewrite (cw_bind_ok _ _ _ _ _ E). clear E. rewrite (Hw Hs) in *.
  destruct v; [specialize (Hv eq_refl); lia|]. eexists. split; [done|]. cbn [fi_offset].
  destruct (bm_low m Hok E0) as (i & [Hi _]%Hhas & _ & _ & ->). rewrite seq_at_offset by done. apply Z.mod_pos_bound. lia.
Qed.

End search.

(** ** The search for a key *)

(** Keys that compare equal are equal. *)
Class PolicyLaws (K V : Type) `{Policy K V} : Prop := {
  key_eq_spec a b : key_eq a b = true ↔ a = b
}.

Record slots_ok {E : Type} (b : Z) (slots : list (option E)) (s : Z → option E) : Prop := {
  so_len : Z.of_nat (length slots) = 2 ^ b - 1;
  so_slot i : 0 <= i < 2 ^ b - 1 → slots !! Z.to_nat i = Some (s i)
}.

Lemma slots_ok_set {E : Type} b slots (s : Z → option E) i e : slots_ok b slots s → 0 <= i < 2 ^ b - 1 →
  ∃ slots', set_at i e slots = Some slots' ∧ slots_ok b slots' (upd_at s i e).
Proof.
  intros SO Hi. pose proof (so_len _ _ _ SO). rewrite set_at_spec by lia. eexists. split; [done|]. split; [by rewrite length_insert|].
  intros j Hj. destruct (decide (j = i)) as [->|Hn]; [by rewrite upd_at_eq, list_lookup_insert_eq by lia|].
  rewrite upd_at_ne, list_lookup_insert_ne by (done || lia). by apply (so_slot _ _ _ SO).
Qed.

Section key.
Context `{GroupLaws} (ndebug : bool) {K V : Type} `{PolicyLaws K V}.
Local Abbreviation W := CWISS_Group_kWidth.
Local Abbreviation RawTable := (CWISS_RawTable K V).

Context (b : Z) (Hb : 0 <= b <= 58) (t : RawTable) (f : Z → Z) (s : Z → option (K * V)).
Context (CO : ctrl_ok b (ctrl_ t) f) (SO : slots_ok b (slots_ t) s) (Ecap : capacity_ t = 2 ^ b - 1).
Context (Hfull : ∀ i, 0 <= i < 2 ^ b - 1 → is_full (f i) → ∃ e, s i = Some e ∧ f i = CWISS_H2 (key_hash e.1)).

Lemma read_slot_ok i e w : 0 <= i < 2 ^ b - 1 → s i = Some e → read_slot t i w = COk e w.
Proof.
  intros Hi He. unfold read_slot, mbind, CW_bind, get_at. rewrite (proj2 (Z.ltb_ge i 0)) by lia.
  by rewrite (so_slot _ _ _ SO i Hi), He.
Qed.

Definition no_empty (o k : Z) : Prop := ∀ i, 0 <= i < W → wbyte b f (win b o k) i ≠ CWISS_kEmpty.
Definition has_key (key : K) (p : Z) : Prop := 0 <= p < 2 ^ b - 1 ∧ is_full (f p) ∧ ∃ v, s p = Some (key, v).

(** The slots that match the hash in one group. *)
Lemma key_match_ok fuel o k key m lo w : bm_ok m → width m = W → 0 <= lo <= W →
  (∀ j, bm_has m j → lo <= j ∧ is_full (wbyte b f (win b o k) j)) → W - lo < Z.of_nat fuel →
  ∃ r, key_match_loop fuel t (seq_at b o k) key m w = COk r w ∧
    match r with
    | Some p => has_key key p
    | None => ∀ i p, bm_has m i → seen b (win b o k) i p → ¬ has_key key p
    end.
Proof.
  revert m lo. induction fuel as [|fuel IH]; intros m lo Hok Hw Hlo Hm Hf; [lia|]. cbn [key_match_loop].
  destruct (decide (mask m = 0)) as [E|E].
  { exists None. unfold CWISS_BitMask_next. rewrite (proj2 (Z.eqb_eq _ _) E). split; [done|]. intros i p Hi. by apply bm_has_nonzero in Hi. }
  destruct (bm_next_Some m Hok E) as (i & m' & -> & Hi & Hmin & Hok' & Hw' & Hhas'). pose proof (proj1 Hi) as Hr. rewrite Hw in *.
  destruct (Hm i Hi) as [Hlo' Hfb]. pose proof (win_range b Hb o k) as Hwr. rewrite seq_at_offset by done.
  destruct (wbyte_cases b Hb f (win b o k) i Hwr Hr) as [(p & Hp & Hs & Ep)|[[Eb _]|[Eb _]]]; [|rewrite Eb in Hfb; destruct Hfb; done..].
  rewrite Ep in Hfb. pose proof Hs as (_ & _ & E'). rewrite E'. destruct (Hfull p Hp Hfb) as (e & He & _).
  cbv zeta. rewrite (cw_bind_ok _ _ _ _ _ (read_slot_ok p e w Hp He)). destruct (key_eq key e.1) eqn:Ek.
  - apply key_eq_spec in Ek as ->. exists (Some p). split; [done|]. split_and!; [lia..|done|]. exists e.2. by rewrite He, <- surjective_pairing.
  - destruct (IH m' (i + 1) Hok' Hw' ltac:(lia)) as (r & Er & Hres); [|lia|].
    { intros j [Hj Hn]%Hhas'. specialize (Hmin j Hj). destruct (Hm j Hj). split; [lia|done]. }
    exists r. split; [done|]. destruct r as [p'|]; [done|]. intros j p' Hj Hs' Hk. destruct (decide (j = i)) as [->|Hn]; [|by apply (Hres j p'); [apply Hhas'|..]].
    destruct Hs' as (_ & _ & E''). rewrite E' in E''. subst p'. destruct Hk as (_ & _ & v & Hv). rewrite He in Hv. injection Hv as ->.
    cbn [fst] in Ek. rewrite (proj2 (key_eq_spec key key)) in Ek by done. done.
Qed.

(** The whole search: windows without the key and without an empty slot are passed. *)
Lemma key_probe_ok fuel o k key w : 0 <= k < nwin b → nwin b - k <= Z.of_nat fuel →
  (∀ k' i p, 0 <= k' < k → seen b (win b o k') i p → ¬ has_key key p) →
  (∃ k1, k <= k1 < nwin b ∧ ((∃ i p, seen b (win b o k1) i p ∧ has_key key p) ∨ ¬ no_empty o k1)) →
  ∃ r, key_probe_loop ndebug fuel t key (key_hash key) (seq_at b o k) w = COk r w ∧
    match r with
    | Some p => has_key key p
    | None => ∃ k1, 0 <= k1 < nwin b ∧ ¬ no_empty o k1 ∧ ∀ k' i p, 0 <= k' <= k1 → seen b (win b o k') i p → ¬ has_key key p
    end.
Proof.
  revert k. induction fuel as [|fuel IH]; intros k Hk Hf Hbefore (k1 & Hk1 & Hstop); [lia|]. cbn [key_probe_loop].
  pose proof (win_range b Hb o k) as Hwr. pose proof width_bounds. destruct (group_at_ok b Hb (ctrl_ t) f CO (win b o k) w Hwr) as (bs & E & Hg & Hbs).
  change (offset_ (seq_at b o k)) with (win b o k). rewrite (cw_bind_ok _ _ _ _ _ E). clear E.
  assert (is_full (CWISS_H2 (key_hash key))) as Hh2. { unfold is_full, CWISS_H2. change 0x7F with (2 ^ 7 - 1). rewrite land_ones_mod by lia. apply Z.mod_pos_bound. lia. }
  destruct (group_match bs _ Hg Hh2) as (Hok & Hw & Hhit & Hfl). set (m := CWISS_Group_Match _ _) in *.
  destruct (key_match_ok 17 o k key m 0 w Hok Hw ltac:(lia)) as (r & Er & Hr); [|lia|].
  { intros j Hj. pose proof (proj1 Hj) as Hjr. rewrite Hw in Hjr. split; [lia|]. rewrite <- (Z2Nat.id j) in Hj by lia.
    destruct (Hfl _ Hj) as (c & Hc & ?). rewrite Hbs in Hc by lia. rewrite Z2Nat.id in Hc by lia. by injection Hc as ->. }
  rewrite (cw_bind_ok _ _ _ _ _ Er). destruct r as [p|]; [by exists (Some p)|].
  assert (∀ i p, seen b (win b o k) i p → ¬ has_key key p) as Hnone.
  { intros i p Hs Hk'. apply (Hr i p); [|done|done]. destruct Hk' as (Hp & Hfp & v & Hv). pose proof (proj1 Hs) as Hi.
    destruct (Hfull p Hp Hfp) as (e & He & Ef). rewrite Hv in He. injection He as <-. cbn [fst] in Ef.
    rewrite <- (Z2Nat.id i) by lia. apply Hhit. rewrite Hbs, Z2Nat.id by lia. by rewrite (wbyte_seen b Hb f _ i p), Ef. }
  destruct (window_selects b f _ (win b o k) bs _ Hg Hbs (group_match_empty bs Hg)) as (Hok' & Hwd' & Hhas').
  destruct (Z.eqb_spec (mask (CWISS_Group_MatchEmpty (CWISS_Group_new bs))) 0) as [E0|E0]; cbn [negb].
  - assert (no_empty o k) as Hne. { intros i Hi Ei. apply (bm_has_nonzero _ i (proj2 (Hhas' i) (conj Hi Ei)) E0). }
    assert (k < k1) as Hlt.
    { destruct (decide (k = k1)) as [<-|]; [|lia]. exfalso. destruct Hstop as [(i & p & Hs & Hk')|Hn]; [by apply (Hnone i p)|done]. }
    rewrite seq_at_next, Ecap by done. erewrite cw_bind_ok by (apply dcheck_true, Z.leb_le, seq_at_index; (done || lia)).
    apply IH; [lia|lia| |exists k1; split; [lia|done]]. intros k' i p Hk' Hs. destruct (decide (k' = k)) as [->|]; [by eapply Hnone|]. eapply Hbefore; [|done]. lia.
  - exists None. split; [done|]. exists k. split_and!; [lia..| |].
    + intros Hne. destruct (bm_nonempty _ Hok' E0) as [i Hi]. apply Hhas' in Hi as [Hi Ei]. by apply (Hne i).
    + intros k' i p Hk' Hs. destruct (decide (k' = k)) as [->|]; [by eapply Hnone|]. eapply Hbefore; [|done]. lia.
Qed.

End key.
