(* ===== verification/CwInv.v ===== *)
(** * The invariant of the open-addressing table

    A table agrees with a byte [f i] and a slot [s i] for each of its [2 ^ b - 1] indices;
    every full slot can be reached by the search for its key.  The steps of the operations,
    filling a free slot and emptying a full one, keep the agreement. *)

From S2P Require Import Prelude CwBits CwGroup CwTable CwProbe CwSearch.

(** ** Counting slots *)

Fixpoint cntn (P : Z → bool) (n : nat) : Z :=
  match n with O => 0 | S n' => cntn P n' + Z.b2z (P (Z.of_nat n')) end.

Lemma cntn_range P n : 0 <= cntn P n <= Z.of_nat n.
Proof. induction n as [|n IH]; cbn [cntn]; [lia|]. destruct (P (Z.of_nat n)); cbn [Z.b2z]; lia. Qed.

Lemma cntn_ext P Q n : (∀ i, 0 <= i < Z.of_nat n → P i = Q i) → cntn P n = cntn Q n.
Proof.
  induction n as [|n IH]; intros HE; cbn [cntn]; [done|]. rewrite IH, HE; [done|lia|]. intros. apply HE. lia.
Qed.

Lemma cntn_upd {A} (P : A → bool) (f : Z → A) i x n : 0 <= i < Z.of_nat n →
  cntn (λ j, P (upd_at f i x j)) n = cntn (λ j, P (f j)) n - Z.b2z (P (f i)) + Z.b2z (P x).
Proof.
  induction n as [|n IH]; intros Hi; [lia|]. cbn [cntn]. destruct (decide (i = Z.of_nat n)) as [->|Hn].
  - rewrite upd_at_eq. rewrite (cntn_ext _ (λ j, P (f j))); [lia|]. intros j Hj. by rewrite upd_at_ne by lia.
  - rewrite IH, upd_at_ne by lia. lia.
Qed.

Lemma cntn_some P n : 0 < cntn P n → ∃ i, 0 <= i < Z.of_nat n ∧ P i = true.
Proof.
  induction n as [|n IH]; cbn [cntn]; intros Hc; [lia|]. destruct (P (Z.of_nat n)) eqn:E; [exists (Z.of_nat n); split; [lia|done]|].
  cbn [Z.b2z] in Hc. destruct IH as (i & Hi & HP); [lia|]. exists i. split; [lia|done].
Qed.

Lemma cntn_add P Q n : cntn P n + cntn Q n = cntn (λ i, P i || Q i) n + cntn (λ i, P i && Q i) n.
Proof. induction n as [|n IH]; cbn [cntn]; [done|]. destruct (P (Z.of_nat n)), (Q (Z.of_nat n)); cbn [orb andb Z.b2z]; lia. Qed.

Lemma cntn_true n : cntn (λ _, true) n = Z.of_nat n.
Proof. induction n as [|n IH]; cbn [cntn Z.b2z]; lia. Qed.

Lemma cntn_false n : cntn (λ _, false) n = 0.
Proof. induction n as [|n IH]; cbn [cntn Z.b2z]; lia. Qed.

(** ** Kinds of bytes *)

Lemma is_full_spec c : is_slot_byte c → CWISS_IsFull c = true ↔ is_full c.
Proof.
  unfold CWISS_IsFull, is_full. rewrite Z.leb_le. intros [->|[->|?]]; unfold CWISS_kEmpty, CWISS_kDeleted, is_full in *; lia.
Qed.

Lemma full_not_free c : is_full c → ¬ is_free c.
Proof. intros Hf [->| ->]; destruct Hf; done. Qed.

Lemma h2_full h : is_full (CWISS_H2 h).
Proof. unfold is_full, CWISS_H2. change 0x7F with (2 ^ 7 - 1). rewrite land_ones_mod by lia. apply Z.mod_pos_bound. lia. Qed.

Lemma slot_byte_cases c : is_slot_byte c → is_free c ∨ is_full c.
Proof. intros [->|[->|?]]; unfold is_free; auto. Qed.

Section inv.
Context `{GroupLaws} {K V : Type} `{PolicyLaws K V}.
Local Abbreviation W := CWISS_Group_kWidth.
Local Abbreviation RawTable := (CWISS_RawTable K V).

(** ** Counts of a table *)

Definition nfull (b : Z) (f : Z → Z) : Z := cntn (λ i, CWISS_IsFull (f i)) (Z.to_nat (2 ^ b - 1)).
Definition ndel (b : Z) (f : Z → Z) : Z := cntn (λ i, CWISS_IsDeleted (f i)) (Z.to_nat (2 ^ b - 1)).
Definition nempty (b : Z) (f : Z → Z) : Z := cntn (λ i, CWISS_IsEmpty (f i)) (Z.to_nat (2 ^ b - 1)).

Definition slot_bytes (b : Z) (f : Z → Z) : Prop := ∀ i, 0 <= i < 2 ^ b - 1 → is_slot_byte (f i).

Lemma counts_total b f : 0 <= b → slot_bytes b f → nfull b f + ndel b f + nempty b f = 2 ^ b - 1.
Proof.
  intros Hb Hf. unfold nfull, ndel, nempty. set (n := Z.to_nat (2 ^ b - 1)). assert (Z.of_nat n = 2 ^ b - 1) as En by lia.
  rewrite cntn_add. rewrite (cntn_ext (λ i, CWISS_IsFull (f i) && CWISS_IsDeleted (f i)) (λ _, false)).
  2: { intros i Hi. unfold CWISS_IsFull, CWISS_IsDeleted. destruct (Z.leb_spec 0 (f i)), (Z.eqb_spec (f i) CWISS_kDeleted); unfold CWISS_kDeleted in *; first [done|lia]. }
  rewrite cntn_false, Z.add_0_r, cntn_add.
  rewrite (cntn_ext _ (λ _, true)), cntn_true.
  2: { intros i Hi. destruct (Hf i ltac:(lia)) as [->|[->|Hx]]; [done..|]. unfold CWISS_IsFull, is_full in *. by rewrite (proj2 (Z.leb_le 0 _)) by lia. }
  rewrite (cntn_ext _ (λ _, false)), cntn_false; [lia|]. intros i Hi.
  destruct (Hf i ltac:(lia)) as [->|[->|Hx]]; [done..|]. unfold is_full, CWISS_IsEmpty, CWISS_kEmpty in *. rewrite (proj2 (Z.eqb_neq (f i) _)) by lia. apply andb_false_r.
Qed.

Definition growth_of (cap : Z) : Z := if (W =? 8) && (cap =? 7) then 6 else cap - cap / 8.

Lemma growth_small b : 0 <= b <= 58 → 2 ^ b < W → growth_of (2 ^ b - 1) = 2 ^ b - 1.
Proof.
  intros Hb Hs. pose proof width_bounds. destruct (ring_shape b Hb) as [(_ & _ & c & Hc)|(? & _)]; [|lia].
  unfold growth_of. assert (2 <= c) by nia. destruct group_width as [E|E]; rewrite E in *.
  - assert (2 ^ b <= 4) by nia. rewrite (proj2 (Z.eqb_neq _ 7)) by lia. simpl. rewrite Z.div_small; lia.
  - assert (2 ^ b <= 8) by nia. simpl. rewrite Z.div_small; lia.
Qed.

Lemma growth_large b : 0 <= b <= 58 → W <= 2 ^ b → 0 <= growth_of (2 ^ b - 1) < 2 ^ b - 1.
Proof.
  intros Hb Hl. unfold growth_of. destruct group_width as [E|E]; rewrite E in *; simpl.
  - destruct (Z.eqb_spec (2 ^ b - 1) 7) as [->|]; [lia|]. pose proof (Z.div_mod (2 ^ b - 1) 8). pose proof (Z.mod_pos_bound (2 ^ b - 1) 8). lia.
  - pose proof (Z.div_mod (2 ^ b - 1) 8). pose proof (Z.mod_pos_bound (2 ^ b - 1) 8). lia.
Qed.

Lemma growth_le b : 0 <= b <= 58 → 0 <= growth_of (2 ^ b - 1) <= 2 ^ b - 1.
Proof.
  intros Hb. destruct (decide (2 ^ b < W)); [rewrite growth_small by done; lia|]. pose proof (growth_large b Hb ltac:(lia)). lia.
Qed.

(** ** Agreement of bytes and slots *)

(** The window where the search for a key begins. *)
Definition start (addr b : Z) (k : K) : Z := CWISS_H1 (key_hash k) addr mod 2 ^ b.

(** [p] is in a window that the search reaches: no window before it has an empty slot. *)
Definition reach (b : Z) (f : Z → Z) (o p : Z) : Prop :=
  ∃ k i, 0 <= k < nwin b ∧ seen b (win b o k) i p ∧ ∀ k', 0 <= k' < k → no_empty b f o k'.

Record core (b addr : Z) (f : Z → Z) (s : Z → option (K * V)) : Prop := {
  c_bytes : slot_bytes b f;
  c_full i : 0 <= i < 2 ^ b - 1 → is_full (f i) →
    ∃ e, s i = Some e ∧ f i = CWISS_H2 (key_hash e.1) ∧ reach b f (start addr b e.1) i;
  c_uniq i j k : has_key b f s k i → has_key b f s k j → i = j
}.

(** The entries of a table. *)
Definition cont (b : Z) (f : Z → Z) (s : Z → option (K * V)) (k : K) (v : V) : Prop :=
  ∃ i, 0 <= i < 2 ^ b - 1 ∧ is_full (f i) ∧ s i = Some (k, v).

Context (b : Z) (Hb : 0 <= b <= 58).

(** A window shows the new byte where it sees the slot that changed, and else what it did. *)
Lemma wbyte_upd f p h o i : 0 <= o < 2 ^ b → 0 <= i < W → 0 <= p < 2 ^ b - 1 →
  (seen b o i p ∧ wbyte b (upd_at f p h) o i = h) ∨ wbyte b (upd_at f p h) o i = wbyte b f o i.
Proof.
  intros Ho Hi Hp. destruct (wbyte_cases b Hb (upd_at f p h) o i Ho Hi) as [(q & Hq & Hs & E)|[[E Es]|[E Ed]]].
  - destruct (decide (q = p)) as [->|Hn]; [left; by rewrite E, upd_at_eq|]. right. rewrite E, upd_at_ne by done. symmetry. by apply wbyte_seen.
  - right. rewrite E. destruct (wbyte_cases b Hb f o i Ho Hi) as [(q & Hq & (_ & _ & Eq) & _)|[[E' _]|[_ ?]]]; [lia|done|].
    exfalso.
    unfold wbyte, raw_byte in E. by rewrite (proj2 (Z.ltb_ge (o + i) (2 ^ b - 1))), (proj2 (Z.eqb_neq (o + i) _)), (proj2 (Z.ltb_ge _ _)) in E by lia.
  - right. unfold wbyte, raw_byte in *. by rewrite !(proj2 (Z.ltb_ge _ _)) in * by lia.
Qed.

Lemma no_empty_mono f p h o k : 0 <= p < 2 ^ b - 1 → h ≠ CWISS_kEmpty → no_empty b f o k → no_empty b (upd_at f p h) o k.
Proof.
  intros Hp Hh Hn i Hi. destruct (wbyte_upd f p h (win b o k) i (win_range b Hb o k) Hi Hp) as [[_ ->]| ->]; [done|]. by apply Hn.
Qed.

Lemma no_free_no_empty f o k : no_free b f o k → no_empty b f o k.
Proof. intros Hn i Hi E. apply (Hn i Hi). by left. Qed.

Lemma reach_mono f p h o q : 0 <= p < 2 ^ b - 1 → h ≠ CWISS_kEmpty → reach b f o q → reach b (upd_at f p h) o q.
Proof. intros Hp Hh (k & i & Hk & Hs & Hn). exists k, i. split_and!; [lia..|done|]. intros k' Hk'. apply no_empty_mono; auto. Qed.

Lemma slot_bytes_upd f p h : slot_bytes b f → is_slot_byte h → slot_bytes b (upd_at f p h).
Proof. intros Hf Hh i Hi. unfold upd_at. case_if; [done|]. by apply Hf. Qed.

(** *** A free slot is filled *)

Section place.
Context (addr : Z) (f : Z → Z) (s : Z → option (K * V)) (C : core b addr f s).
Context (p : Z) (e : K * V) (Hp : 0 <= p < 2 ^ b - 1) (Hfree : is_free (f p)).
Let f' := upd_at f p (CWISS_H2 (key_hash e.1)).
Let s' := upd_at s p (Some e).

Lemma place_has k q : has_key b f' s' k q ↔ (q = p ∧ k = e.1) ∨ has_key b f s k q.
Proof.
  unfold has_key, f', s'. split.
  - intros (Hq & Hf & v & Hv). destruct (decide (q = p)) as [->|Hn].
    + left. rewrite upd_at_eq in Hv. by injection Hv as ->.
    + right. rewrite !upd_at_ne in * by done. eauto.
  - intros [[-> ->]|(Hq & Hf & v & Hv)].
    + rewrite !upd_at_eq. split_and!; [lia..|apply h2_full|]. exists e.2. by rewrite <- surjective_pairing.
    + assert (q ≠ p) by (intros ->; by apply full_not_free in Hf). rewrite !upd_at_ne by done. eauto.
Qed.

Lemma place_cont k v : cont b f' s' k v ↔ (k, v) = e ∨ cont b f s k v.
Proof.
  unfold cont, f', s'. split.
  - intros (q & Hq & Hf & Hv). destruct (decide (q = p)) as [->|Hn].
    + left. rewrite upd_at_eq in Hv. by injection Hv.
    + right. rewrite !upd_at_ne in * by done. eauto.
  - intros [<-|(q & Hq & Hf & Hv)].
    + exists p. rewrite !upd_at_eq. split_and!; [lia..|apply h2_full|done].
    + assert (q ≠ p) by (intros ->; by apply full_not_free in Hf). exists q. by rewrite !upd_at_ne by done.
Qed.

Lemma place_core : first_free b f (start addr b e.1) p → (∀ i, ¬ has_key b f s e.1 i) → core b addr f' s'.
Proof.
  intros (k & i & Hk & Hs & Hn) Habs.
  assert (CWISS_H2 (key_hash e.1) ≠ CWISS_kEmpty) as Hne. { intros E. pose proof (h2_full (key_hash e.1)) as [Hx _]. by rewrite E in Hx. }
  split.
  - apply slot_bytes_upd; [apply C|]. right. right. apply h2_full.
  - intros q Hq Hf. destruct (decide (q = p)) as [->|Hnq].
    + exists e. unfold s', f'. rewrite !upd_at_eq. split_and!; [done|done|]. apply reach_mono; [lia|done|]. exists k, i. split_and!; [lia..|done|].
      intros k' Hk'. by apply no_free_no_empty, Hn.
    + unfold f', s' in *. rewrite !upd_at_ne in * by done. destruct (c_full _ _ _ _ C q Hq Hf) as (e' & He & Ef & Hr).
      exists e'. split_and!; [done|done|]. by apply reach_mono.
  - intros q q' k0 Q%place_has Q'%place_has. destruct Q as [[-> E1]|Q], Q' as [[-> E2]|Q']; [done| | |by apply (c_uniq _ _ _ _ C q q' k0)].
    + subst. by apply Habs in Q'.
    + subst. by apply Habs in Q.
Qed.

Lemma place_counts : nfull b f' = nfull b f + 1 ∧ ndel b f' = ndel b f - Z.b2z (CWISS_IsDeleted (f p)).
Proof.
  unfold nfull, ndel, f'. rewrite !cntn_upd by lia. pose proof (h2_full (key_hash e.1)) as Hh. unfold is_full in Hh.
  assert (CWISS_IsFull (CWISS_H2 (key_hash e.1)) = true) as -> by (apply Z.leb_le; lia).
  assert (CWISS_IsDeleted (CWISS_H2 (key_hash e.1)) = false) as -> by (apply Z.eqb_neq; unfold CWISS_kDeleted; lia).
  assert (CWISS_IsFull (f p) = false) as -> by (destruct Hfree as [->| ->]; done). cbn [Z.b2z]. lia.
Qed.

End place.

(** *** A full slot is emptied *)

(** The search never passed a window with [p] that was full: each of them has an empty slot. *)
Definition never_full (f : Z → Z) (p : Z) : Prop := ∀ o k i, seen b (win b o k) i p → ¬ no_empty b f o k.

Section erase.
Context (addr : Z) (f : Z → Z) (s : Z → option (K * V)) (C : core b addr f s).
Context (p c : Z) (Hp : 0 <= p < 2 ^ b - 1) (Hfull : is_full (f p)) (Hc : is_free c).
Let f' := upd_at f p c.
Let s' := upd_at s p None.

Lemma erase_has k q : has_key b f' s' k q ↔ q ≠ p ∧ has_key b f s k q.
Proof.
  unfold has_key, f', s'. split.
  - intros (Hq & Hf & v & Hv). destruct (decide (q = p)) as [->|Hn]; [by rewrite upd_at_eq in Hv|].
    rewrite !upd_at_ne in * by done. eauto 10.
  - intros (Hn & Hq & Hf & v & Hv). rewrite !upd_at_ne by done. eauto.
Qed.

Lemma erase_cont k0 v0 k v : s p = Some (k0, v0) → cont b f' s' k v ↔ k ≠ k0 ∧ cont b f s k v.
Proof.
  intros E. unfold cont, f', s'. split.
  - intros (q & Hq & Hf & Hv). destruct (decide (q = p)) as [->|Hn]; [by rewrite upd_at_eq in Hv|].
    rewrite !upd_at_ne in * by done. split; [|eauto]. intros ->. apply Hn. apply (c_uniq _ _ _ _ C q p k0); unfold has_key; eauto.
  - intros (Hn & q & Hq & Hf & Hv). exists q. assert (q ≠ p) by (intros ->; rewrite E in Hv; injection Hv; done). by rewrite !upd_at_ne.
Qed.

Lemma erase_core : (c = CWISS_kEmpty → never_full f p) → core b addr f' s'.
Proof.
  intros Hnf. split.
  - apply slot_bytes_upd; [apply C|]. destruct Hc as [->| ->]; unfold is_slot_byte; auto.
  - intros q Hq Hf. destruct (decide (q = p)) as [->|Hn]; [unfold f' in Hf; rewrite upd_at_eq in Hf; by apply full_not_free in Hf|].
    unfold f', s' in *. rewrite !upd_at_ne in * by done. destruct (c_full _ _ _ _ C q Hq Hf) as (e & He & Ef & k & i & Hk & Hs & Hne).
    exists e. split_and!; [done|done|]. exists k, i. split_and!; [lia..|done|]. intros k' Hk' j Hj.
    destruct (wbyte_upd f p c (win b (start addr b e.1) k') j (win_range b Hb _ _) Hj Hp) as [[Hsp ->]| ->]; [|by apply (Hne k' Hk')].
    destruct Hc as [->| ->]; [|done]. exfalso. by apply (Hnf eq_refl _ _ _ Hsp), Hne.
  - intros q q' k0 [? Q]%erase_has [? Q']%erase_has. by apply (c_uniq _ _ _ _ C q q' k0).
Qed.

Lemma erase_counts : nfull b f' = nfull b f - 1 ∧ ndel b f' = ndel b f + Z.b2z (CWISS_IsDeleted c).
Proof.
  unfold nfull, ndel, f'. rewrite !cntn_upd by lia. unfold is_full in Hfull.
  assert (CWISS_IsFull (f p) = true) as -> by (apply Z.leb_le; lia).
  assert (CWISS_IsDeleted (f p) = false) as -> by (apply Z.eqb_neq; unfold CWISS_kDeleted; lia).
  assert (CWISS_IsFull c = false) as -> by (destruct Hc as [->| ->]; done). cbn [Z.b2z]. lia.
Qed.

End erase.

End inv.
