(* ===== verification/CwOps.v ===== *)
(** * Searching, inserting and erasing keep the invariant

    [wp m w Q]: the computation [m] reaches a result that satisfies [Q], or stops because
    [malloc] returned no memory; it neither faults nor fails a check nor runs out of fuel. *)

From S2P Require Import Prelude CwBits CwGroup CwTable CwProbe CwSearch CwInv.

Section wp.

Definition wp {A} (m : CW A) (w : CwWorld) (Q : A → CwWorld → Prop) : Prop :=
  match m w with COk a w' => Q a w' | CNoMem => True | CFault | CAbort | CNoFuel => False end.

Lemma wp_bind {A B} (m : CW A) (k : A → CW B) w Q : wp m w (λ a w', wp (k a) w' Q) → wp (m ≫= k) w Q.
Proof. unfold wp, mbind, CW_bind. by destruct (m w). Qed.

Lemma wp_ok {A} (m : CW A) w a w' Q : m w = COk a w' → Q a w' → wp m w Q.
Proof. intros E HQ. unfold wp. by rewrite E. Qed.

Lemma wp_bind_ok {A B} (m : CW A) (k : A → CW B) w a w' Q : m w = COk a w' → wp (k a) w' Q → wp (m ≫= k) w Q.
Proof. intros E HQ. apply wp_bind. by eapply wp_ok. Qed.

Lemma wp_ret {A} (a : A) w (Q : A → CwWorld → Prop) : Q a w → wp (mret a) w Q.
Proof. done. Qed.

Lemma wp_mono {A} (m : CW A) w (Q Q' : A → CwWorld → Prop) : wp m w Q → (∀ a w', Q a w' → Q' a w') → wp m w Q'.
Proof. unfold wp. destruct (m w); auto. Qed.

Lemma wp_malloc (malloc : nat → Z → option Z) size w (Q : Z → CwWorld → Prop) :
  (∀ a, malloc (allocs w) size = Some a → Q a (mkWorld (S (allocs w)) (counter w))) → wp (CWISS_DefaultMalloc malloc size) w Q.
Proof.
  intros HQ. unfold wp, CWISS_DefaultMalloc. destruct (malloc (allocs w) size) as [a|] eqn:E; [by apply HQ|done].
Qed.

End wp.

Section ops.
Context `{GroupLaws} {K V : Type} `{PolicyLaws K V}.
Context (ndebug : bool).
Local Abbreviation W := CWISS_Group_kWidth.
Local Abbreviation RawTable := (CWISS_RawTable K V).

Record tinv (b : Z) (t : RawTable) (f : Z → Z) (s : Z → option (K * V)) : Prop := {
  ti_b : 0 <= b <= 58;
  ti_cap : capacity_ t = 2 ^ b - 1;
  ti_ctrl : ctrl_ok b (ctrl_ t) f;
  ti_slots : slots_ok b (slots_ t) s;
  ti_core : core b (ctrl_addr t) f s;
  ti_size : size_ t = nfull b f;
  ti_growth : growth_left_ t = growth_of (2 ^ b - 1) - nfull b f - ndel b f;
  ti_room : nfull b f + ndel b f <= growth_of (2 ^ b - 1)
}.

(** ** The search *)

(** A table smaller than a group shows empty places behind its slots. *)
Lemma small_has_empty b f o k : 0 <= b <= 58 → 2 ^ b < W → ¬ no_empty b f o k.
Proof.
  intros Hb Hs Hn. pose proof width_bounds. destruct (ring_shape b Hb) as [(_ & En & c & Hc)|(? & _)]; [|lia].
  pose proof (win_range b Hb o k). assert (2 <= c) by nia. apply (Hn (2 ^ b + (2 ^ b - 1) - win b o k)); [split; nia|].
  unfold wbyte, raw_byte. rewrite Z.add_sub_assoc, Z.add_simpl_l, !(proj2 (Z.ltb_ge _ _)), (proj2 (Z.eqb_neq _ _)) by lia. done.
Qed.

(** In every table there is an empty place that stops a search. *)
Lemma stop_exists b f o : 0 <= b <= 58 → 0 <= o < 2 ^ b → slot_bytes b f → nfull b f + ndel b f <= growth_of (2 ^ b - 1) →
  ∃ k, 0 <= k < nwin b ∧ ¬ no_empty b f o k.
Proof.
  intros Hb Ho Hf Hr. pose proof width_bounds. destruct (decide (2 ^ b < W)) as [Hs|Hl].
  - exists 0. split; [unfold nwin; lia|]. by apply small_has_empty.
  - apply Z.nlt_ge in Hl. pose proof (growth_large b Hb Hl). pose proof (counts_total b f ltac:(lia) Hf).
    destruct (cntn_some (λ i, CWISS_IsEmpty (f i)) (Z.to_nat (2 ^ b - 1))) as (p & Hp & E); [unfold nempty in *; lia|]. apply Z.eqb_eq in E.
    destruct (windows_cover b Hb o p Ho ltac:(lia)) as (k & i & Hk & Hs). exists k. split; [done|]. intros Hn. apply (Hn i); [apply Hs|].
    by rewrite (wbyte_seen b Hb f _ i p) by (apply (win_range b Hb) || lia || done).
Qed.

Lemma start_range addr b (k : K) : 0 <= b → 0 <= start addr b k < 2 ^ b.
Proof. intros. apply Z.mod_pos_bound. lia. Qed.

Lemma probe_ok b t f s key w : tinv b t f s →
  ∃ r, probe ndebug t key (key_hash key) w = COk r w ∧ match r with Some p => has_key b f s key p | None => ∀ p, ¬ has_key b f s key p end.
Proof.
  intros TI. pose proof (ti_b _ _ _ _ TI) as Hb. pose proof width_bounds. unfold probe. rewrite (ti_cap _ _ _ _ TI), seq_at_start by done. fold (start (ctrl_addr t) b key).
  assert (1 <= nwin b <= 2 ^ b) as Hn by (destruct (ring_shape b Hb) as [(? & -> & _)|(? & E & _)]; nia).
  destruct (stop_exists b f (start (ctrl_addr t) b key) Hb (start_range _ _ _ (proj1 Hb)) (c_bytes _ _ _ _ (ti_core _ _ _ _ TI)) (ti_room _ _ _ _ TI)) as (k1 & Hk1 & Hstop).
  destruct (key_probe_ok ndebug b Hb t f s (ti_ctrl _ _ _ _ TI) (ti_slots _ _ _ _ TI) (ti_cap _ _ _ _ TI)) with (fuel := S (Z.to_nat (2 ^ b - 1)))
    (o := start (ctrl_addr t) b key) (k := 0) (key := key) (w := w) as (r & E & Hr); [|lia|lia|lia|exists k1; split; [lia|by right]|].
  { intros i Hi Hf. destruct (c_full _ _ _ _ (ti_core _ _ _ _ TI) i Hi Hf) as (e & ? & ? & _). eauto. }
  exists r. split; [done|]. destruct r as [p|]; [done|]. destruct Hr as (k2 & Hk2 & Hne & Hnone). intros p Hk.
  pose proof Hk as (Hp & Hf & v & Hv). destruct (c_full _ _ _ _ (ti_core _ _ _ _ TI) p Hp Hf) as (e & He & _ & k & i & Hk' & Hs & Hb').
  rewrite Hv in He. injection He as <-. destruct (decide (k <= k2)); [by apply (Hnone k i p); [lia|..]|]. apply Hne, Hb'. lia.
Qed.

(** An iterator at a full slot stays there. *)
Lemma iter_at_full b t f s p w : tinv b t f s → 0 <= p < 2 ^ b - 1 → is_full (f p) → CWISS_RawTable_iter_at t p w = COk (Some p) w.
Proof.
  intros TI Hp Hf. unfold CWISS_RawTable_iter_at, skip_from. cbn [CWISS_RawIter_SkipEmptyOrDeleted].
  pose proof (get_slot_byte b (ti_b _ _ _ _ TI) _ _ (ti_ctrl _ _ _ _ TI) p Hp) as E. unfold is_full in Hf.
  unfold mbind, CW_bind. rewrite E. cbn [lift]. unfold CWISS_IsEmptyOrDeleted, CWISS_kSentinel. rewrite (proj2 (Z.ltb_ge (f p) (-1))), (proj2 (Z.eqb_neq (f p) (-1))) by lia.
  unfold mret, CW_ret, CWISS_AssertIsValid, mbind, CW_bind. rewrite E. cbn [lift]. unfold cw_check, CWISS_IsFull. by rewrite (proj2 (Z.leb_le 0 (f p))) by lia.
Qed.

(** [CWISS_RawTable_find]: an iterator at the key, or none. *)
Lemma find_ok b t f s key w : tinv b t f s →
  ∃ it, CWISS_RawTable_find ndebug t key w = COk it w ∧ match it with Some p => has_key b f s key p | None => ∀ p, ¬ has_key b f s key p end.
Proof.
  intros TI. unfold CWISS_RawTable_find, CWISS_RawTable_find_hinted. destruct (probe_ok b t f s key w TI) as (r & E & Hr).
  rewrite (cw_bind_ok _ _ _ _ _ E). exists r. split; [|done]. destruct r as [p|]; [|done]. destruct Hr as (Hp & Hf & _). by apply (iter_at_full b t f s).
Qed.

(** The value of an iterator at a key. *)
Lemma iter_get_ok b t f s key v p w : tinv b t f s → 0 <= p < 2 ^ b - 1 → is_full (f p) → s p = Some (key, v) →
  CWISS_RawIter_get t (Some p) w = COk (Some (key, v)) w.
Proof.
  intros TI Hp Hf Hv. unfold CWISS_RawIter_get, CWISS_AssertIsValid.
  pose proof (get_slot_byte b (ti_b _ _ _ _ TI) _ _ (ti_ctrl _ _ _ _ TI) p Hp) as E. unfold is_full in Hf.
  unfold mbind, CW_bind. rewrite E. cbn [lift]. unfold cw_check, CWISS_IsFull. rewrite (proj2 (Z.leb_le 0 (f p))) by lia.
  by rewrite (read_slot_ok b t s (ti_slots _ _ _ _ TI) p (key, v) w).
Qed.

(** ** Steps on the arrays *)

Lemma set_ctrl_step b (t : RawTable) f i h w : 0 <= b <= 58 → capacity_ t = 2 ^ b - 1 → ctrl_ok b (ctrl_ t) f → 0 <= i < 2 ^ b - 1 → is_slot_byte h →
  ∃ c, set_ctrl ndebug i h t w = COk (with_ctrl c t) w ∧ ctrl_ok b c (upd_at f i h).
Proof.
  intros Hb Ec CO Hi Hh. destruct (set_ctrl_ok ndebug b (ctrl_ t) f i h w Hb CO Hi Hh) as (c & E & Hc). exists c. split; [|done].
  unfold set_ctrl. rewrite Ec. by rewrite (cw_bind_ok _ _ _ _ _ E).
Qed.

Lemma write_slot_step b (t : RawTable) s i e w : slots_ok b (slots_ t) s → 0 <= i < 2 ^ b - 1 →
  ∃ sl, write_slot i e t w = COk (with_slots sl t) w ∧ slots_ok b sl (upd_at s i e).
Proof.
  intros SO Hi. destruct (slots_ok_set b (slots_ t) s i e SO Hi) as (sl & E & Hs). exists sl. split; [|done].
  unfold write_slot, mbind, CW_bind. by rewrite E.
Qed.

(** Changing the value of an entry. *)
Lemma set_value_ok b t f s p key v v' w : tinv b t f s → 0 <= p < 2 ^ b - 1 → is_full (f p) → s p = Some (key, v) →
  ∃ sl, write_slot p (Some (key, v')) t w = COk (with_slots sl t) w ∧ tinv b (with_slots sl t) f (upd_at s p (Some (key, v'))).
Proof.
  intros TI Hp Hf Hv. destruct (write_slot_step b t s p (Some (key, v')) w (ti_slots _ _ _ _ TI) Hp) as (sl & E & Hs). exists sl. split; [done|].
  destruct TI as [Hb Ec CO SO C Esz Eg Hr]. split; try done. cbn [ctrl_addr with_slots].
  assert (∀ k q, has_key b f (upd_at s p (Some (key, v'))) k q → has_key b f s k q) as Hh.
  { intros k q (Hq & Hfq & v0 & Hv0). unfold has_key. destruct (decide (q = p)) as [->|Hn]; [|rewrite upd_at_ne in Hv0 by done; eauto].
    rewrite upd_at_eq in Hv0. injection Hv0 as <- <-. eauto. }
  split; [apply C| |].
  - intros i Hi Hfi. destruct (c_full _ _ _ _ C i Hi Hfi) as (e & He & Ef & Hre). destruct (decide (i = p)) as [->|Hn]; [|rewrite upd_at_ne by done; eauto].
    rewrite upd_at_eq. rewrite Hv in He. injection He as <-. eauto.
  - intros i j k Hki Hkj. apply (c_uniq _ _ _ _ C i j k); auto.
Qed.

(** ** Erasing *)

(** In a ring of a window or more, what is shown depends on the position only. *)
Lemma wbyte_mod b f o i o' i' : 0 <= b <= 58 → W <= 2 ^ b → 0 <= o < 2 ^ b → 0 <= i < W → 0 <= o' < 2 ^ b → 0 <= i' < W →
  (o + i) mod 2 ^ b = (o' + i') mod 2 ^ b → wbyte b f o i = wbyte b f o' i'.
Proof.
  intros Hb Hl Ho Hi Ho' Hi' E. destruct (wbyte_cases b Hb f o i Ho Hi) as [(p & Hp & Hs & ->)|[[-> Es]|[_ ?]]]; [| |lia].
  - symmetry. apply wbyte_seen; [done|done|done|]. destruct Hs as (_ & _ & Es). split_and!; [lia..|congruence].
  - destruct (wbyte_cases b Hb f o' i' Ho' Hi') as [(p & Hp & (_ & _ & E') & _)|[[-> _]|[_ ?]]]; [lia|done|lia].
Qed.

(** Empty slots on both sides of [p], closer than a window: each window with [p] has one of them. *)
Lemma never_full_near b f p a d : 0 <= b <= 58 → W <= 2 ^ b → 0 <= p < 2 ^ b - 1 → 0 <= a → 0 <= d → a + d < W →
  wbyte b f p a = CWISS_kEmpty → wbyte b f ((p - W) mod 2 ^ b) (W - 1 - d) = CWISS_kEmpty → never_full b f p.
Proof.
  intros Hb Hl Hp Ha Hd Had E1 E2 o k i (Hi & _ & Es) Hne. pose proof (win_range b Hb o k) as Hwr.
  assert (0 <= (p - W) mod 2 ^ b < 2 ^ b) as Hbr by (apply Z.mod_pos_bound; lia).
  destruct (decide (i + a < W)).
  - apply (Hne (i + a)); [lia|]. rewrite <- E1. apply wbyte_mod; [lia..|]. rewrite Z.add_assoc, <- Zplus_mod_idemp_l, Es. done.
  - apply (Hne (i - 1 - d)); [lia|]. rewrite <- E2. apply wbyte_mod; [lia..|]. rewrite Zplus_mod_idemp_l.
    replace (win b o k + (i - 1 - d)) with (win b o k + i + (- 1 - d)) by lia. rewrite <- Zplus_mod_idemp_l, Es. f_equal. lia.
Qed.

(** The test of [CWISS_RawTable_EraseMetaOnly] for slots that no search passed. *)
Lemma was_never_full_ok b ctrl f p (ga gb : list Z) : 0 <= b <= 58 → ctrl_ok b ctrl f → 0 <= p < 2 ^ b - 1 →
  group_bytes ga → (∀ i : nat, Z.of_nat i < W → ga !! i = Some (wbyte b f p (Z.of_nat i))) →
  group_bytes gb → (∀ i : nat, Z.of_nat i < W → gb !! i = Some (wbyte b f ((p - W) mod 2 ^ b) (Z.of_nat i))) →
  let empty_after := CWISS_Group_MatchEmpty (CWISS_Group_new ga) in
  let empty_before := CWISS_Group_MatchEmpty (CWISS_Group_new gb) in
  negb (mask empty_before =? 0) && negb (mask empty_after =? 0) &&
    (CWISS_BitMask_TrailingZeros empty_after + CWISS_BitMask_LeadingZeros empty_before <? W) = true → never_full b f p.
Proof.
  intros Hb CO Hp Hga Ha Hgb Hbf ea eb Ht. zbool. destruct (decide (2 ^ b < W)); [intros ????; by apply small_has_empty|].
  destruct (window_selects b f _ p ga _ Hga Ha (group_match_empty ga Hga)) as (Oka & Wa & Sa).
  destruct (window_selects b f _ ((p - W) mod 2 ^ b) gb _ Hgb Hbf (group_match_empty gb Hgb)) as (Okb & Wb & Sb).
  fold ea in Oka, Wa, Sa. fold eb in Okb, Wb, Sb.
  destruct (bm_low ea Oka) as (i & [Hi Ei]%Sa & _ & _ & Eti); [done|]. pose proof (bm_lead eb Okb ltac:(done)) as El.
  destruct (bm_high eb Okb) as (j & [Hj Ej]%Sb & _ & _ & Eh); [done|]. rewrite Eh, Wb in El. rewrite Eti, El in *.
  apply (never_full_near b f p i (W - 1 - j)); [lia..|done|]. by replace (W - 1 - (W - 1 - j)) with j by lia.
Qed.

Lemma u64_of z : 0 <= z < 2 ^ 60 → u64 z = z.
Proof. intros. apply u64_small. unfold is_u64. lia. Qed.

Lemma counts_bound b f : 0 <= b <= 58 → slot_bytes b f → 0 <= nfull b f ∧ 0 <= ndel b f ∧ nfull b f + ndel b f <= 2 ^ b - 1.
Proof.
  intros Hb Hf. pose proof (counts_total b f ltac:(lia) Hf). unfold nempty, nfull, ndel in *.
  pose proof (cntn_range (λ i, CWISS_IsFull (f i)) (Z.to_nat (2 ^ b - 1))). pose proof (cntn_range (λ i, CWISS_IsDeleted (f i)) (Z.to_nat (2 ^ b - 1))).
  pose proof (cntn_range (λ i, CWISS_IsEmpty (f i)) (Z.to_nat (2 ^ b - 1))). lia.
Qed.

Lemma erase_at_ok b t f s p k v w : tinv b t f s → 0 <= p < 2 ^ b - 1 → is_full (f p) → s p = Some (k, v) →
  ∃ t' f' s', CWISS_RawTable_erase_at ndebug (Some p) t w = COk t' w ∧ tinv b t' f' s' ∧ size_ t' = size_ t - 1 ∧
    ∀ k' v', cont b f' s' k' v' ↔ k' ≠ k ∧ cont b f s k' v'.
Proof.
  intros TI Hp Hf Hv. pose proof TI as [Hb Ec CO SO C Esz Eg Hr]. pose proof width_bounds. pose proof (ring_le b Hb) as Hle.
  pose proof (get_slot_byte b Hb _ _ CO p Hp) as Ep. assert (CWISS_IsFull (f p) = true) as Efull by (apply is_full_spec; [apply C; lia|done]).
  unfold CWISS_RawTable_erase_at, CWISS_AssertIsFull, mbind, CW_bind. rewrite Ep. cbn [lift]. unfold cw_check. rewrite Efull. cbn [mret CW_ret].
  rewrite (read_slot_ok b t s SO p (k, v) w Hp Hv). destruct (write_slot_step b t s p None w SO Hp) as (sl & -> & SO').
  unfold CWISS_RawTable_EraseMetaOnly, mbind, CW_bind. cbn [ctrl_ with_slots with_size capacity_ size_]. rewrite Ep. cbn [lift]. rewrite (dcheck_true ndebug _ w Efull).
  cbv zeta. rewrite Ec, land_mask, mod_u64 by done.
  destruct (group_at_ok b Hb (ctrl_ t) f CO p w ltac:(lia)) as (ga & -> & Hga & Ha).
  destruct (group_at_ok b Hb (ctrl_ t) f CO ((p - W) mod 2 ^ b) w) as (gb & -> & Hgb & Hbf); [apply Z.mod_pos_bound; lia|].
  pose proof (was_never_full_ok b (ctrl_ t) f p ga gb Hb CO Hp Hga Ha Hgb Hbf) as Hnf. cbv zeta in Hnf.
  set (nf := negb _ && negb _ && _) in *. set (c := if nf then CWISS_kEmpty else CWISS_kDeleted).
  assert (is_free c) as Hc by (unfold c, is_free; destruct nf; auto).
  destruct (set_ctrl_step b (with_size (u64 (size_ t - 1)) (with_slots sl t)) f p c w Hb Ec CO Hp) as (ct & -> & CO'); [destruct Hc as [->| ->]; unfold is_slot_byte; auto|].
  eexists _, (upd_at f p c), (upd_at s p None). split; [done|]. cbn [with_growth with_ctrl with_size with_slots size_ growth_left_].
  destruct (counts_bound b f Hb (c_bytes _ _ _ _ C)) as (N1 & N2 & N3). destruct (erase_counts b Hb f p c Hp Hf Hc) as [F1 F2].
  assert (1 <= nfull b f) as N4.
  { pose proof (counts_bound b (upd_at f p c) Hb) as Hx. rewrite F1 in Hx. enough (slot_bytes b (upd_at f p c)) by (specialize (Hx ltac:(done)); lia).
    apply slot_bytes_upd; [apply C|]. destruct Hc as [->| ->]; unfold is_slot_byte; auto. }
  assert (Z.b2z (CWISS_IsDeleted c) = 1 - (if nf then 1 else 0)) as Ecd by (unfold c; by destruct nf).
  pose proof (growth_le b Hb) as Hg.
  split_and!.
  - split; cbn [capacity_ ctrl_ slots_ ctrl_addr size_ growth_left_ with_growth with_ctrl with_size with_slots]; try done.
    + apply erase_core; try done. intros E. apply Hnf. unfold c in E. by destruct nf.
    + rewrite F1, u64_of by lia. lia.
    + rewrite F1, F2, Ecd, Eg, u64_of by (destruct nf; lia). lia.
    + rewrite F1, F2, Ecd. destruct nf; lia.
  - rewrite u64_of by lia. lia.
  - intros k' v'. by eapply erase_cont.
Qed.

(** [CWISS_RawTable_erase] *)
Lemma erase_ok b t f s key w : tinv b t f s →
  ∃ t' r f' s', CWISS_RawTable_erase ndebug key t w = COk (t', r) w ∧ tinv b t' f' s' ∧ (r = true ↔ ∃ v, cont b f s key v) ∧
    size_ t' = size_ t - (if r then 1 else 0) ∧ ∀ k' v', cont b f' s' k' v' ↔ k' ≠ key ∧ cont b f s k' v'.
Proof.
  intros TI. unfold CWISS_RawTable_erase. destruct (find_ok b t f s key w TI) as (it & E & Hit). rewrite (cw_bind_ok _ _ _ _ _ E). destruct it as [p|].
  - destruct Hit as (Hp & Hf & v & Hv). destruct (erase_at_ok b t f s p key v w TI Hp Hf Hv) as (t' & f' & s' & E' & TI' & Hsz & Hc).
    rewrite (cw_bind_ok _ _ _ _ _ E'). exists t', true, f', s'. split_and!; [done|done| |done|done]. split; [|done]. intros _. exists v, p. done.
  - exists t, false, f, s. split_and!; [done|done| |lia|].
    + split; [done|]. intros (v & p & Hp & Hf & Hv). exfalso. apply (Hit p). unfold has_key. eauto.
    + intros k' v'. split; [|by intros [_ ?]]. intros Hc. split; [|done]. intros ->. destruct Hc as (p & Hp & Hf & Hv). apply (Hit p). unfold has_key. eauto.
Qed.

End ops.
