(* ===== verification/CwIter.v ===== *)
(** * Iterating over the open-addressing table

    An iterator yields the entries of the full slots from its position on, in order. *)

From S2P Require Import Prelude CwBits CwGroup CwTable CwProbe CwSearch CwInv CwOps.

Section iter.
Context `{GroupLaws} {K V : Type} `{PolicyLaws K V}.
Local Abbreviation W := CWISS_Group_kWidth.
Local Abbreviation RawTable := (CWISS_RawTable K V).

Lemma count_free_spec l n : count_free l = n →
  0 <= n <= Z.of_nat (length l) ∧ (∀ i : nat, Z.of_nat i < n → ∃ c, l !! i = Some c ∧ CWISS_IsEmptyOrDeleted c = true) ∧
  (∀ c, l !! Z.to_nat n = Some c → CWISS_IsEmptyOrDeleted c = false).
Proof.
  revert n. induction l as [|c l IH]; intros n; cbn [count_free]; intros <-; [split_and!; [done..|lia|done]|].
  destruct (CWISS_IsEmptyOrDeleted c) eqn:E.
  - destruct (IH _ eq_refl) as (Hr & Hi & Hn). cbn [length]. split_and!; [lia..| |].
    + intros [|i] Hlt; [by exists c|]. apply Hi. lia.
    + intros c' Hc'. apply Hn. replace (Z.to_nat (1 + count_free l)) with (S (Z.to_nat (count_free l))) in Hc' by lia. done.
  - split_and!; [simpl; lia..|lia|]. intros c' [= <-]. done.
Qed.

Lemma free_spec c : is_ctrl c → CWISS_IsEmptyOrDeleted c = true ↔ is_free c.
Proof.
  unfold CWISS_IsEmptyOrDeleted, is_free, CWISS_kSentinel. rewrite Z.ltb_lt.
  intros [->|[->|[->|Hf]]]; unfold is_full, CWISS_kEmpty, CWISS_kDeleted, CWISS_kSentinel in *; lia.
Qed.

(** [q] is the next full slot from [p] on. *)
Definition next_full (b : Z) (f : Z → Z) (p : Z) (it : CWISS_RawIter) : Prop :=
  match it with
  | Some q => p <= q < 2 ^ b - 1 ∧ is_full (f q) ∧ ∀ j, p <= j < q → ¬ is_full (f j)
  | None => ∀ j, p <= j < 2 ^ b - 1 → ¬ is_full (f j)
  end.

Lemma skip_ok b ctrl f fuel p w : 0 <= b <= 58 → ctrl_ok b ctrl f → 0 <= p <= 2 ^ b - 1 → 2 ^ b - 1 - p < Z.of_nat fuel →
  ∃ it, CWISS_RawIter_SkipEmptyOrDeleted fuel ctrl p w = COk it w ∧ next_full b f p it.
Proof.
  intros Hb CO. pose proof width_bounds. revert p. induction fuel as [|fuel IH]; intros p Hp Hf; [lia|]. cbn [CWISS_RawIter_SkipEmptyOrDeleted].
  pose proof (get_byte b ctrl f CO p ltac:(lia)) as E. unfold mbind at 1, CW_bind at 1. rewrite E. cbn [lift].
  pose proof (raw_byte_ctrl b ctrl f CO p ltac:(lia)) as Hct. destruct (CWISS_IsEmptyOrDeleted (raw_byte b f p)) eqn:Ef.
  - destruct (group_at_ok b Hb ctrl f CO p w ltac:(lia)) as (bs & Eg & Hg & Hbs). rewrite (cw_bind_ok _ _ _ _ _ Eg), group_count_free by done.
    destruct (count_free_spec bs _ eq_refl) as (Hr & Hi & Hn). rewrite (proj1 Hg) in Hr. set (n := count_free bs) in *.
    assert (∀ j, 0 <= j < n → is_free (wbyte b f p j)) as Hfr.
    { intros j Hj. destruct (Hi (Z.to_nat j) ltac:(lia)) as (c & Hc & Hcf). rewrite Hbs, Z2Nat.id in Hc by lia. injection Hc as <-.
      apply free_spec; [apply (raw_byte_ctrl b ctrl f CO); lia|done]. }
    assert (p + n <= 2 ^ b - 1) as Hle.
    { destruct (decide (p + n <= 2 ^ b - 1)); [done|]. exfalso. destruct (Hfr (2 ^ b - 1 - p) ltac:(lia)) as [Hx|Hx];
        unfold wbyte, raw_byte in Hx; by replace (p + (2 ^ b - 1 - p)) with (2 ^ b - 1) in Hx by lia; rewrite Z.ltb_irrefl, Z.eqb_refl in Hx. }
    assert (0 < n) as Hpos.
    { destruct (decide (0 < n)); [done|]. exfalso. assert (n = 0) as E0 by lia. rewrite E0 in Hn.
      pose proof (Hn _ (Hbs 0%nat ltac:(lia))) as Hx. unfold wbyte in Hx. change (Z.of_nat 0) with 0 in Hx. rewrite Z.add_0_r in Hx. congruence. }
    destruct (IH (p + n)) as (it & Eit & Hit); [lia|lia|]. exists it. split; [done|].
    assert (∀ j, p <= j < p + n → ¬ is_full (f j)) as Hnf.
    { intros j Hj Hfull. apply (full_not_free _ Hfull). pose proof (Hfr (j - p) ltac:(lia)) as Hx. unfold wbyte, raw_byte in Hx.
      replace (p + (j - p)) with j in Hx by lia. by rewrite (proj2 (Z.ltb_lt j _)) in Hx by lia. }
    destruct it as [q|]; cbn [next_full] in *; [destruct Hit as (Hq & Hqf & Hit); split_and!; [lia..|done|]|].
    all: intros j Hj; (destruct (decide (j < p + n)); [apply Hnf; lia|apply Hit; lia]).
  - unfold raw_byte in *. destruct (Z.ltb_spec p (2 ^ b - 1)).
    + assert (is_full (f p)) as Hfull.
      { destruct (slot_byte_cases (f p)) as [Hx|?]; [apply (co_byte _ _ _ CO); lia|exfalso|done]. apply (free_spec _ Hct) in Hx. congruence. }
      assert (f p =? CWISS_kSentinel = false) as -> by (apply Z.eqb_neq; unfold is_full, CWISS_kSentinel in *; lia).
      exists (Some p). split; [done|]. cbn [next_full]. split_and!; [lia..|done|lia].
    + rewrite (proj2 (Z.eqb_eq p _)) by lia. rewrite Z.eqb_refl. exists None. split; [done|]. cbn [next_full]. lia.
Qed.

(** The entries from [p] on. *)
Fixpoint entries_from (b : Z) (f : Z → Z) (s : Z → option (K * V)) (n : nat) (p : Z) : list (K * V) :=
  match n with
  | O => []
  | S n' =>
      match (if CWISS_IsFull (f p) then s p else None) with
      | Some e => e :: entries_from b f s n' (p + 1)
      | None => entries_from b f s n' (p + 1)
      end
  end.

Definition entries (b : Z) (f : Z → Z) (s : Z → option (K * V)) (p : Z) : list (K * V) := entries_from b f s (Z.to_nat (2 ^ b - 1 - p)) p.

Lemma entries_step b f s p : p < 2 ^ b - 1 →
  entries b f s p = match (if CWISS_IsFull (f p) then s p else None) with Some e => e :: entries b f s (p + 1) | None => entries b f s (p + 1) end.
Proof.
  intros Hp. unfold entries. replace (Z.to_nat (2 ^ b - 1 - p)) with (S (Z.to_nat (2 ^ b - 1 - (p + 1)))) by lia. done.
Qed.

Lemma entries_skip b f s p q : slot_bytes b f → 0 <= p <= q → q <= 2 ^ b - 1 → (∀ j, p <= j < q → ¬ is_full (f j)) → entries b f s p = entries b f s q.
Proof.
  intros Hf Hpq Hq. remember (Z.to_nat (q - p)) as n eqn:En. revert p Hpq En. induction n as [|n IH]; intros p Hpq En Hnf; [by replace q with p by lia|].
  rewrite entries_step by lia. assert (CWISS_IsFull (f p) = false) as ->.
  { apply not_true_iff_false. rewrite is_full_spec by (apply Hf; lia). apply Hnf. lia. }
  apply IH; [lia|lia|]. intros j Hj. apply Hnf. lia.
Qed.

Lemma entries_end b f s p : 2 ^ b - 1 <= p → entries b f s p = [].
Proof. intros Hp. unfold entries. by replace (Z.to_nat (2 ^ b - 1 - p)) with 0%nat by lia. Qed.

(** What an iterator yields: the entries from the position where it was started. *)
Lemma entries_iter b t f s p it : tinv b t f s → 0 <= p <= 2 ^ b - 1 → next_full b f p it →
  match it with
  | Some q => ∃ e, s q = Some e ∧ entries b f s p = e :: entries b f s (q + 1)
  | None => entries b f s p = []
  end.
Proof.
  intros TI Hp Hit. pose proof (c_bytes _ _ _ _ (ti_core _ _ _ _ TI)) as Hf. destruct it as [q|]; cbn [next_full] in Hit.
  - destruct Hit as (Hq & Hfq & Hn). destruct (c_full _ _ _ _ (ti_core _ _ _ _ TI) q ltac:(lia) Hfq) as (e & He & _). exists e. split; [done|].
    rewrite (entries_skip b f s p q) by (done || lia). rewrite entries_step by lia. by rewrite (proj2 (is_full_spec _ (Hf q ltac:(lia))) Hfq), He.
  - rewrite (entries_skip b f s p (2 ^ b - 1)) by (done || lia). by apply entries_end.
Qed.

Lemma elem_of_entries b f s p k v : slot_bytes b f → 0 <= p <= 2 ^ b - 1 → (k, v) ∈ entries b f s p ↔ ∃ i, p <= i < 2 ^ b - 1 ∧ is_full (f i) ∧ s i = Some (k, v).
Proof.
  intros Hf. remember (Z.to_nat (2 ^ b - 1 - p)) as n eqn:En. revert p En. induction n as [|n IH]; intros p En Hp.
  { rewrite entries_end by lia. split; [by intros ?%elem_of_nil|]. intros (i & Hi & _). lia. }
  rewrite entries_step by lia. pose proof (is_full_spec _ (Hf p ltac:(lia))) as Hfs. pose proof (IH (p + 1) ltac:(lia) ltac:(lia)) as IH'.
  assert ((∃ i, p <= i < 2 ^ b - 1 ∧ is_full (f i) ∧ s i = Some (k, v)) ↔
    (is_full (f p) ∧ s p = Some (k, v)) ∨ ∃ i, p + 1 <= i < 2 ^ b - 1 ∧ is_full (f i) ∧ s i = Some (k, v)) as ->.
  { split.
    - intros (i & Hi & Hfi & Hv). destruct (decide (i = p)) as [->|]; [by left|]. right. exists i. split; [lia|done].
    - intros [[? ?]|(i & Hi & ?)]; [exists p; split; [lia|done]|]. exists i. split; [lia|done]. }
  rewrite <- IH'. destruct (CWISS_IsFull (f p)) eqn:E.
  - rewrite <- Hfs. destruct (s p) as [e|] eqn:Es; [rewrite elem_of_cons|]; naive_solver.
  - rewrite <- Hfs. naive_solver.
Qed.

Lemma entries_keys_NoDup b addr f s p : core b addr f s → 0 <= p <= 2 ^ b - 1 → NoDup (entries b f s p).*1.
Proof.
  intros C. remember (Z.to_nat (2 ^ b - 1 - p)) as n eqn:En. revert p En. induction n as [|n IH]; intros p En Hp; [rewrite entries_end by lia; constructor|].
  rewrite entries_step by lia. destruct (CWISS_IsFull (f p)) eqn:E; [|apply IH; lia]. destruct (s p) as [[k v]|] eqn:Es; [|apply IH; lia].
  rewrite fmap_cons. constructor; [|apply IH; lia]. intros ((k' & v') & Ek & Hin)%list_elem_of_fmap. cbn [fst] in Ek. subst k'.
  apply elem_of_entries in Hin as (i & Hi & Hfi & Hv); [|apply C|lia].
  assert (p = i); [|lia]. apply (c_uniq _ _ _ _ C p i k); unfold has_key; [|split_and!; [lia..|done|eauto]].
  split_and!; [lia..| |eauto]. apply is_full_spec; [apply C; lia|done].
Qed.

Lemma entries_length b f s p : slot_bytes b f → (∀ i, 0 <= i < 2 ^ b - 1 → is_full (f i) → is_Some (s i)) → 0 <= p <= 2 ^ b - 1 →
  (length (entries b f s p) <= Z.to_nat (2 ^ b - 1 - p))%nat.
Proof.
  intros Hf Hs. remember (Z.to_nat (2 ^ b - 1 - p)) as n eqn:En. revert p En. induction n as [|n IH]; intros p En Hp; [by rewrite entries_end by lia|].
  rewrite entries_step by lia. pose proof (IH (p + 1) ltac:(lia) ltac:(lia)). destruct (if CWISS_IsFull (f p) then s p else None); simpl; lia.
Qed.

(** [CWISS_RawTable_iter] and [CWISS_RawIter_next] *)
Lemma iter_ok b t f s p w : tinv b t f s → 0 <= p <= 2 ^ b - 1 → ∃ it, skip_from t p w = COk it w ∧ CWISS_RawTable_iter_at t p w = COk it w ∧ next_full b f p it.
Proof.
  intros TI Hp. pose proof (ti_b _ _ _ _ TI) as Hb. unfold CWISS_RawTable_iter_at, skip_from. rewrite (ti_cap _ _ _ _ TI).
  destruct (skip_ok b (ctrl_ t) f (S (Z.to_nat (2 ^ b - 1))) p w Hb (ti_ctrl _ _ _ _ TI) Hp ltac:(lia)) as (it & E & Hit). exists it.
  split_and!; [done| |done]. rewrite (cw_bind_ok _ _ _ _ _ E). destruct it as [q|]; [|done]. destruct Hit as (Hq & Hfq & _).
  unfold CWISS_AssertIsValid, mbind, CW_bind. rewrite (get_slot_byte b Hb _ _ (ti_ctrl _ _ _ _ TI)) by lia. cbn [lift]. unfold cw_check.
  by rewrite (proj2 (is_full_spec _ (c_bytes _ _ _ _ (ti_core _ _ _ _ TI) q ltac:(lia))) Hfq).
Qed.

Lemma iter_get_next b t f s p it w : tinv b t f s → 0 <= p <= 2 ^ b - 1 → next_full b f p it →
  match it with
  | None => CWISS_RawIter_get t it w = COk None w ∧ entries b f s p = []
  | Some q => 0 <= q < 2 ^ b - 1 ∧ ∃ e, entries b f s p = e :: entries b f s (q + 1) ∧ CWISS_RawIter_get t it w = COk (Some e) w ∧
      ∃ it' o, CWISS_RawIter_next t it w = COk (it', o) w ∧ next_full b f (q + 1) it'
  end.
Proof.
  intros TI Hp Hit. pose proof (entries_iter b t f s p it TI Hp Hit) as He. destruct it as [q|]; [|done].
  destruct Hit as (Hq & Hfq & _). destruct He as (e & Hs & He). split; [lia|]. exists e. split; [done|].
  destruct e as [k v]. split; [apply (iter_get_ok b t f s); (done || lia)|].
  destruct (iter_ok b t f s (q + 1) w TI ltac:(lia)) as (it' & E1 & _ & Hit').
  assert (∃ o, CWISS_RawIter_get t it' w = COk o w) as (o & Eo).
  { destruct it' as [q'|]; [|by eexists]. destruct Hit' as (Hq' & Hfq' & _). destruct (c_full _ _ _ _ (ti_core _ _ _ _ TI) q' ltac:(lia) Hfq') as ([k' v'] & He' & _).
    eexists. apply (iter_get_ok b t f s k' v'); (done || lia). }
  exists it', o. split; [|done]. unfold CWISS_RawIter_next, CWISS_AssertIsFull, mbind, CW_bind.
  rewrite (get_slot_byte b (ti_b _ _ _ _ TI) _ _ (ti_ctrl _ _ _ _ TI)) by lia. cbn [lift]. unfold cw_check.
  rewrite (proj2 (is_full_spec _ (c_bytes _ _ _ _ (ti_core _ _ _ _ TI) q ltac:(lia))) Hfq). cbn [mret CW_ret]. by rewrite E1, Eo.
Qed.

End iter.
