(* ===== verification/CwGrow.v ===== *)
(** * Growing and rehashing the open-addressing table

    [CWISS_RawTable_Resize] moves the entries to a larger array, and
    [CWISS_RawTable_DropDeletesWithoutResize] moves them within the array; both keep the
    entries and leave no slot that is marked as deleted. *)

From S2P Require Import Prelude CwBits CwGroup CwTable CwProbe CwSearch CwInv CwOps.

Section grow.
Context `{GroupLaws} {K V : Type} `{PolicyLaws K V}.
Context (malloc : nat → Z → option Z) (counter_addr : Z) (ndebug : bool).
(** An object is not larger than [PTRDIFF_MAX]. *)
Context (Hmalloc : ∀ n size a, malloc n size = Some a → size < 2 ^ 63).
Local Abbreviation W := CWISS_Group_kWidth.
Local Abbreviation RawTable := (CWISS_RawTable K V).

(** ** Sizes *)

Lemma valid_capacity b : 1 <= b <= 60 → CWISS_IsValidCapacity (2 ^ b - 1) = true.
Proof.
  intros Hb. unfold CWISS_IsValidCapacity. assert (2 ^ b <= 2 ^ 60) by (apply Z.pow_le_mono_r; lia). assert (2 ^ 1 <= 2 ^ b) by (apply Z.pow_le_mono_r; lia).
  rewrite Z.sub_add, u64_small by (unfold is_u64; lia). rewrite land_ones_mod, Z.mod_same by lia. simpl. apply Z.ltb_lt. lia.
Qed.

Lemma align_16 x : 0 <= x < 2 ^ 64 → Z.land x (u64 (not64 16 + 1)) = x / 16 * 16.
Proof.
  intros Hx. change (u64 (not64 16 + 1)) with (Z.shiftl (Z.ones 60) 4). change (x / 16) with (x / 2 ^ 4). rewrite <- Z.shiftr_div_pow2 by lia.
  change 16 with (2 ^ 4). rewrite <- Z.shiftl_mul_pow2 by lia. apply Z.bits_inj_iff'. intros i Hi. rewrite Z.land_spec, !Z.shiftl_spec by lia.
  destruct (decide (i < 4)); [by rewrite !(Z.testbit_neg_r _ (i - 4)), andb_false_r by lia|]. rewrite Z.shiftr_spec, Z.sub_add by lia.
  destruct (decide (i < 64)); [by rewrite Z.ones_spec_low, andb_true_r by lia|]. by rewrite (testbit_high x 64) by lia.
Qed.

(** The slots follow the control bytes, with less than 16 bytes between them. *)
Lemma slot_offset_ok b w : 1 <= b <= 60 → ∃ o, CWISS_SlotOffset ndebug (2 ^ b - 1) slot_align w = COk o w ∧ 2 ^ b - 1 + W <= o < 2 ^ b + W + 15 ∧ o mod 16 = 0.
Proof.
  intros Hb. pose proof width_bounds. assert (2 ^ b <= 2 ^ 60) by (apply Z.pow_le_mono_r; lia). unfold CWISS_SlotOffset.
  erewrite cw_bind_ok by (by apply dcheck_true, valid_capacity). cbv zeta. eexists. split; [done|]. unfold CWISS_NumClonedBytes, slot_align.
  rewrite (u64_small (2 ^ b - 1 + 1 + (W - 1))) by (unfold is_u64; lia). rewrite (u64_small (_ + 16 - 1)) by (unfold is_u64; lia).
  rewrite align_16 by lia. split; [|by apply Z.mod_mul]. set (x := 2 ^ b - 1 + 1 + (W - 1) + 16 - 1).
  pose proof (Z.div_mod x 16 ltac:(lia)). pose proof (Z.mod_pos_bound x 16 ltac:(lia)). lia.
Qed.

Lemma alloc_size_ok b w : 1 <= b <= 59 → ∃ n, CWISS_AllocSize ndebug (2 ^ b - 1) slot_size slot_align w = COk n w ∧ (2 ^ b - 1) * 17 <= n.
Proof.
  intros Hb. pose proof width_bounds. assert (2 ^ b <= 2 ^ 59) by (apply Z.pow_le_mono_r; lia). unfold CWISS_AllocSize.
  destruct (slot_offset_ok b w ltac:(lia)) as (o & E & Ho & _). rewrite (cw_bind_ok _ _ _ _ _ E). eexists. split; [done|]. unfold slot_size.
  rewrite u64_small by (unfold is_u64; lia). lia.
Qed.

Lemma capacity_to_growth b w : 1 <= b <= 60 → CWISS_CapacityToGrowth ndebug (2 ^ b - 1) w = COk (growth_of (2 ^ b - 1)) w.
Proof. intros Hb. unfold CWISS_CapacityToGrowth. by erewrite cw_bind_ok by (by apply dcheck_true, valid_capacity). Qed.

(** ** Fresh arrays *)

Lemma reset_ctrl_ok b : 0 <= b <= 58 → ctrl_ok b (CWISS_ResetCtrl (2 ^ b - 1)) (λ _, CWISS_kEmpty).
Proof.
  intros Hb. pose proof width_bounds. unfold CWISS_ResetCtrl, CWISS_NumClonedBytes. split.
  - rewrite length_insert, length_replicate. lia.
  - by left.
  - intros j Hj. unfold raw_byte. destruct (decide (j = 2 ^ b - 1)) as [->|Hn].
    + rewrite Z.ltb_irrefl, Z.eqb_refl, list_lookup_insert_eq by (rewrite length_replicate; lia). done.
    + rewrite list_lookup_insert_ne, lookup_replicate_2 by lia. rewrite (proj2 (Z.eqb_neq j _)) by done. by destruct (j <? 2 ^ b - 1), (j <? 2 ^ b + (2 ^ b - 1)).
Qed.

Lemma fresh_slots_ok b : 0 <= b → slots_ok b (replicate (Z.to_nat (2 ^ b - 1)) None) (λ _, None : option (K * V)).
Proof. intros Hb. split; [rewrite length_replicate; lia|]. intros i Hi. rewrite lookup_replicate_2 by lia. done. Qed.

(** The part of the invariant that is about the arrays. *)
Record arrays (b : Z) (t : RawTable) (f : Z → Z) (s : Z → option (K * V)) : Prop := {
  ar_b : 0 <= b <= 58;
  ar_cap : capacity_ t = 2 ^ b - 1;
  ar_ctrl : ctrl_ok b (ctrl_ t) f;
  ar_slots : slots_ok b (slots_ t) s;
  ar_core : core b (ctrl_addr t) f s
}.

Lemma fresh_core b addr : 0 <= b <= 58 → core b addr (λ _, CWISS_kEmpty) (λ _, None : option (K * V)).
Proof.
  intros Hb. split; [by left| |].
  - intros i _ [Hx _]. done.
  - intros i j k (_ & [Hx _] & _). done.
Qed.

Lemma fresh_counts b : nfull b (λ _, CWISS_kEmpty) = 0 ∧ ndel b (λ _, CWISS_kEmpty) = 0.
Proof. unfold nfull, ndel. split; apply cntn_false. Qed.

Lemma init_slots_ok b (t : RawTable) w : 1 <= b <= 59 → capacity_ t = 2 ^ b - 1 →
  wp (CWISS_RawTable_InitializeSlots malloc ndebug t) w (λ t' _, arrays b t' (λ _, CWISS_kEmpty) (λ _, None) ∧ size_ t' = size_ t ∧
    growth_left_ t' = u64 (growth_of (2 ^ b - 1) - size_ t)).
Proof.
  intros Hb Ec. assert (2 ^ 1 <= 2 ^ b) by (apply Z.pow_le_mono_r; lia). unfold CWISS_RawTable_InitializeSlots.
  eapply wp_bind_ok; [apply dcheck_true; rewrite Ec; apply negb_true_iff, Z.eqb_neq; lia|]. rewrite Ec.
  destruct (alloc_size_ok b w Hb) as (n & E & Hn). eapply wp_bind_ok; [exact E|]. apply wp_bind, wp_malloc. intros mem Em.
  assert (b <= 58) as Hb58. { apply Hmalloc in Em. destruct (decide (b <= 58)); [done|]. assert (b = 59) as -> by lia. lia. }
  destruct (slot_offset_ok b (mkWorld (S (allocs w)) (counter w)) ltac:(lia)) as (o & Eo & _).
  eapply wp_bind_ok; [exact Eo|]. unfold CWISS_RawTable_ResetGrowthLeft. cbn [capacity_ size_ with_growth]. eapply wp_bind_ok; [apply capacity_to_growth; lia|].
  apply wp_ret. cbn [with_growth size_ growth_left_]. split_and!; [|done|done]. split; cbn [capacity_ ctrl_ slots_ ctrl_addr]; [lia|done|apply reset_ctrl_ok; lia|apply fresh_slots_ok; lia|].
  apply fresh_core. lia.
Qed.

(** ** Filling a slot *)

Lemma free_exists b f : 0 <= b <= 58 → slot_bytes b f → nfull b f < 2 ^ b - 1 → ∃ p, 0 <= p < 2 ^ b - 1 ∧ is_free (f p).
Proof.
  intros Hb Hf Hn. pose proof (counts_total b f ltac:(lia) Hf). unfold ndel, nempty in *.
  destruct (decide (0 < cntn (λ i, CWISS_IsDeleted (f i)) (Z.to_nat (2 ^ b - 1)))) as [Hd|Hd].
  - apply cntn_some in Hd as (p & Hp & E). apply Z.eqb_eq in E. exists p. split; [lia|by right].
  - destruct (cntn_some (λ i, CWISS_IsEmpty (f i)) (Z.to_nat (2 ^ b - 1))) as (p & Hp & E); [lia|]. apply Z.eqb_eq in E. exists p. split; [lia|by left].
Qed.

(** An entry with a new key is put where [CWISS_FindFirstNonFull] says. *)
Lemma fill_ok b (t : RawTable) f s e w Q : arrays b t f s → nfull b f < 2 ^ b - 1 → (∀ i, ¬ has_key b f s e.1 i) →
  (∀ t' p w', arrays b t' (upd_at f p (CWISS_H2 (key_hash e.1))) (upd_at s p (Some e)) → 0 <= p < 2 ^ b - 1 → is_free (f p) →
    size_ t' = size_ t → growth_left_ t' = growth_left_ t → ctrl_addr t' = ctrl_addr t → Q t' w') →
  wp (target ← CWISS_FindFirstNonFull counter_addr ndebug (ctrl_ t) (ctrl_addr t) (key_hash e.1) (capacity_ t);
      t ← set_ctrl ndebug (fi_offset target) (CWISS_H2 (key_hash e.1)) t;
      write_slot (fi_offset target) (Some e) t) w Q.
Proof.
  intros [Hb Ec CO SO C] Hn Habs HQ. rewrite Ec.
  destruct (find_first_ok ndebug counter_addr b Hb (ctrl_ t) f CO (ctrl_addr t) (key_hash e.1) w (free_exists b f Hb (c_bytes _ _ _ _ C) Hn)) as (info & w' & E & _ & Hp & Hfr & Hff).
  eapply wp_bind_ok; [exact E|]. set (p := fi_offset info) in *.
  destruct (set_ctrl_step ndebug b t f p (CWISS_H2 (key_hash e.1)) w' Hb Ec CO Hp) as (c & Ec' & CO'); [right; right; apply h2_full|].
  eapply wp_bind_ok; [exact Ec'|]. destruct (write_slot_step b (with_ctrl c t) s p (Some e) w' SO Hp) as (sl & Es & SO').
  eapply wp_ok; [exact Es|]. apply (HQ _ p); try done. split; try done. cbn [ctrl_addr with_slots with_ctrl]. by apply place_core.
Qed.

(** ** Resizing *)

(** The entries of the slots before [i]. *)
Definition cont_to (b : Z) (f : Z → Z) (s : Z → option (K * V)) (n : Z) (k : K) (v : V) : Prop :=
  ∃ i, 0 <= i < n ∧ 0 <= i < 2 ^ b - 1 ∧ is_full (f i) ∧ s i = Some (k, v).

Definition full_to (f : Z → Z) (n : Z) : Z := cntn (λ i, CWISS_IsFull (f i)) (Z.to_nat n).

Lemma full_to_succ f n : 0 <= n → full_to f (n + 1) = full_to f n + Z.b2z (CWISS_IsFull (f n)).
Proof. intros Hn. unfold full_to. replace (Z.to_nat (n + 1)) with (S (Z.to_nat n)) by lia. cbn [cntn]. by rewrite Z2Nat.id by lia. Qed.

Lemma full_to_le f n m : 0 <= n <= m → full_to f n <= full_to f m.
Proof.
  intros Hn. unfold full_to. assert (Z.to_nat n <= Z.to_nat m)%nat as Hle by lia. induction Hle as [|k _ IH]; [lia|]. cbn [cntn].
  destruct (CWISS_IsFull (f (Z.of_nat k))); cbn [Z.b2z]; lia.
Qed.

Lemma cont_to_succ b f s n k v : 0 <= n < 2 ^ b - 1 → cont_to b f s (n + 1) k v ↔ (is_full (f n) ∧ s n = Some (k, v)) ∨ cont_to b f s n k v.
Proof.
  intros Hn. split.
  - intros (i & Hi & Hr & Hf & Hv). destruct (decide (i = n)) as [->|]; [by left|]. right. exists i. split_and!; (done || lia).
  - intros [[Hf Hv]|(i & Hi & ?)]; [exists n|exists i]; split_and!; (done || lia || naive_solver lia).
Qed.

Section resize.
Context (b0 : Z) (t0 : RawTable) (f0 : Z → Z) (s0 : Z → option (K * V)) (TI : tinv b0 t0 f0 s0).
Context (b : Z) (Hroom : nfull b0 f0 <= growth_of (2 ^ b - 1)).

(** The new table holds the entries of the slots before [i]. *)
Definition resized (i : Z) (t : RawTable) (f : Z → Z) (s : Z → option (K * V)) : Prop :=
  arrays b t f s ∧ ndel b f = 0 ∧ nfull b f = full_to f0 i ∧ ∀ k v, cont b f s k v ↔ cont_to b0 f0 s0 i k v.

Lemma resize_step_ok i t f s w : 0 <= i < 2 ^ b0 - 1 → resized i t f s →
  wp (resize_step counter_addr ndebug t0 t i) w (λ t' _, (∃ f' s', resized (i + 1) t' f' s') ∧ size_ t' = size_ t ∧ growth_left_ t' = growth_left_ t).
Proof.
  intros Hi (AR & Hd & Hn & Hc). pose proof TI as [Hb0 Ec0 CO0 SO0 C0 _ _ _]. pose proof (ar_b _ _ _ _ AR) as Hb.
  unfold resize_step. eapply wp_bind_ok; [rewrite (get_slot_byte b0 Hb0 _ _ CO0 i Hi); done|]. cbv beta.
  pose proof (full_to_succ f0 i ltac:(lia)) as Hs. destruct (CWISS_IsFull (f0 i)) eqn:Ef.
  - assert (is_full (f0 i)) as Hf by (apply is_full_spec; [apply C0; lia|done]). destruct (c_full _ _ _ _ C0 i Hi Hf) as (e & He & _).
    eapply wp_bind_ok; [by apply (read_slot_ok b0 t0 s0 SO0)|]. cbv beta zeta. cbn [Z.b2z] in Hs.
    assert (full_to f0 (i + 1) <= nfull b0 f0) as Hle by (apply full_to_le; lia). pose proof (growth_le b Hb) as Hg.
    apply (fill_ok b t f s e w _ AR); [lia| |].
    { intros q (Hq & Hfq & v & Hv). assert (cont b f s e.1 v) as (j & Hj & Hj' & Hfj & Hvj)%Hc by (exists q; done).
      enough (i = j) by lia. apply (c_uniq _ _ _ _ C0 i j e.1); unfold has_key; [|by eauto]. split_and!; [lia..|done|]. exists e.2. by rewrite <- surjective_pairing. }
    intros t' p w' AR' Hp Hfr Es Eg _. split_and!; [|done|done]. eexists _, _. split; [exact AR'|].
    destruct (place_counts b Hb f p e Hp Hfr) as [F1 F2]. split_and!.
    + pose proof (counts_bound b _ Hb (c_bytes _ _ _ _ (ar_core _ _ _ _ AR'))) as (_ & ? & _). destruct (CWISS_IsDeleted (f p)); cbn [Z.b2z] in F2; lia.
    + lia.
    + intros k v. rewrite place_cont, cont_to_succ, Hc by done. rewrite He. naive_solver.
  - apply wp_ret. split_and!; [|done|done]. exists f, s. cbn [Z.b2z] in Hs. split_and!; [done|done|lia|]. intros k v. rewrite cont_to_succ, Hc by done.
    assert (¬ is_full (f0 i)) as Hnf by (intros Hf; apply (is_full_spec _ (c_bytes _ _ _ _ C0 i Hi)) in Hf; congruence). naive_solver.
Qed.

Lemma resize_loop_ok n i t f s w : 0 <= i → i + Z.of_nat n = 2 ^ b0 - 1 → resized i t f s →
  wp (resize_loop counter_addr ndebug t0 t (seqZ i (Z.of_nat n))) w (λ t' _, (∃ f' s', resized (2 ^ b0 - 1) t' f' s') ∧ size_ t' = size_ t ∧ growth_left_ t' = growth_left_ t).
Proof.
  revert i t f s w. induction n as [|n IH]; intros i t f s w Hi Hn HR.
  - cbn [seqZ]. apply wp_ret. replace (2 ^ b0 - 1) with i by lia. eauto.
  - rewrite seqZ_cons by lia. cbn [resize_loop]. replace (Z.pred (Z.of_nat (S n))) with (Z.of_nat n) by lia. apply wp_bind.
    eapply wp_mono; [apply (resize_step_ok i t f s); [lia|done]|]. intros t' w' ((f' & s' & HR') & Es & Eg).
    eapply wp_mono; [apply (IH (Z.succ i) t' f' s'); [lia|lia|done]|]. intros t'' w'' (? & -> & ->). done.
Qed.

End resize.

Lemma resize_ok b0 t0 f0 s0 b w : tinv b0 t0 f0 s0 → 1 <= b <= 59 → nfull b0 f0 <= growth_of (2 ^ b - 1) →
  wp (CWISS_RawTable_Resize malloc counter_addr ndebug (2 ^ b - 1) t0) w (λ t _, size_ t = size_ t0 ∧ ∃ f s, tinv b t f s ∧ ndel b f = 0 ∧
    ∀ k v, cont b f s k v ↔ cont b0 f0 s0 k v).
Proof.
  intros TI Hb Hroom. pose proof TI as [Hb0 Ec0 CO0 SO0 C0 Esz _ _]. unfold CWISS_RawTable_Resize.
  eapply wp_bind_ok; [by apply dcheck_true, valid_capacity; lia|]. apply wp_bind. eapply wp_mono; [by apply (init_slots_ok b)|]. cbn [size_].
  intros t w' (AR & Es & Eg). pose proof (ar_b _ _ _ _ AR) as Hb58. apply wp_bind. rewrite Ec0. replace (2 ^ b0 - 1) with (Z.of_nat (Z.to_nat (2 ^ b0 - 1))) at 1 by lia.
  destruct (fresh_counts b) as [Hf0 Hd0].
  eapply wp_mono; [apply (resize_loop_ok b0 t0 f0 s0 TI b Hroom _ 0 t (λ _, CWISS_kEmpty) (λ _, None)); [lia|lia|]|].
  { split_and!; [done|done|by rewrite Hf0|]. intros k v. split; [intros (i & _ & [Hx _] & _); done|intros (i & Hi & _); lia]. }
  intros t' w'' ((f & s & AR' & Hd & Hn & Hc) & Es' & Eg').
  assert (wp (if 2 ^ b0 - 1 =? 0 then mret 0 else CWISS_AllocSize ndebug (2 ^ b0 - 1) slot_size slot_align) w'' (λ _ _, True)) as Hfree.
  { destruct (Z.eqb_spec (2 ^ b0 - 1) 0); [done|]. destruct (alloc_size_ok b0 w'') as (sz & E & _); [|by eapply wp_ok].
    destruct (decide (b0 = 0)) as [->|]; [done|lia]. }
  apply wp_bind. eapply wp_mono; [exact Hfree|]. intros _ w3 _. apply wp_ret. split; [congruence|]. exists f, s.
  assert (nfull b f = nfull b0 f0) as Hnf by done. split_and!; [|done|].
  - pose proof (growth_le b Hb58). pose proof (ring_le b Hb58). pose proof (counts_bound b0 f0 Hb0 (c_bytes _ _ _ _ C0)). destruct AR' as [? ? ? ? ?].
    split; try done; [congruence| |lia]. rewrite Eg', Eg, Esz, u64_of; lia.
  - intros k v. rewrite Hc. split; intros (i & ?); exists i; naive_solver.
Qed.

End grow.
