(* ===== verification/CwRehash.v ===== *)
(** * Rehashing the open-addressing table in place

    [CWISS_RawTable_DropDeletesWithoutResize] marks the full slots as deleted and the others
    as empty, and then moves each entry to the first free slot of its own search. *)

From S2P Require Import Prelude CwBits CwGroup CwTable CwProbe CwSearch CwInv CwOps CwGrow.

(** ** Writing a range of a list *)

Lemma splice_lookup {A} (l g : list A) (p q : nat) : (p + length g <= length l)%nat →
  (take p l ++ g ++ drop (p + length g) l) !! q = if (q <? p)%nat then l !! q else if (q <? p + length g)%nat then g !! (q - p)%nat else l !! q.
Proof.
  intros Hl. assert (length (take p l) = p) as Hp by (rewrite length_take; lia).
  destruct (Nat.ltb_spec q p); [by rewrite lookup_app_l, lookup_take_lt by lia|]. rewrite lookup_app_r, Hp by lia.
  destruct (Nat.ltb_spec q (p + length g)); [by rewrite lookup_app_l by lia|]. rewrite lookup_app_r, lookup_drop by lia. f_equal. lia.
Qed.

Lemma splice_length {A} (l g : list A) (p : nat) : (p + length g <= length l)%nat → length (take p l ++ g ++ drop (p + length g) l) = length l.
Proof. intros. rewrite !length_app, length_take, length_drop. lia. Qed.

Section convert.
Context `{GroupLaws} (ndebug : bool).
Local Abbreviation W := CWISS_Group_kWidth.
Context (b : Z) (Hb : 0 <= b <= 58) (Hl : W <= 2 ^ b) (ctrl0 : list Z) (f : Z → Z) (CO : ctrl_ok b ctrl0 f).

(** The first [pos] bytes are converted. *)
Definition converted (pos : Z) (ctrl : list Z) : Prop :=
  length ctrl = length ctrl0 ∧ ∀ q : nat, ctrl !! q = if Z.of_nat q <? pos then convert_byte <$> ctrl0 !! q else ctrl0 !! q.

Lemma convert_groups_ok fuel j ctrl w : 0 <= j <= nwin b → nwin b - j < Z.of_nat fuel → converted (W * j) ctrl →
  ∃ ctrl', convert_groups fuel ctrl (W * j) (2 ^ b - 1) w = COk ctrl' w ∧ converted (2 ^ b) ctrl'.
Proof.
  pose proof width_bounds. destruct (ring_shape b Hb) as [(? & _)|(_ & EN & _)]; [lia|]. pose proof (co_len _ _ _ CO) as Hlen.
  revert j ctrl. induction fuel as [|fuel IH]; intros j ctrl Hj Hf [HL HC]; [lia|]. cbn [convert_groups].
  destruct (Z.ltb_spec (W * j) (2 ^ b - 1)) as [Hlt|Hge].
  - assert (j < nwin b) as Hjn by nia. assert (W * (j + 1) <= 2 ^ b) as Hn by nia.
    destruct (slice_spec ctrl (W * j) W) as (bs & E & Hbl & Hbs); [nia|lia|nia|].
    unfold mbind at 1, CW_bind at 1. rewrite E. cbn [lift]. cbv zeta.
    assert (∀ i : nat, Z.of_nat i < W → bs !! i = ctrl0 !! (Z.to_nat (W * j) + i)%nat) as Hb0.
    { intros i Hi. rewrite Hbs, HC by done. by rewrite (proj2 (Z.ltb_ge _ _)) by lia. }
    assert (group_bytes bs) as Hg.
    { split; [done|]. apply Forall_lookup. intros i c Hc. pose proof (lookup_lt_Some _ _ _ Hc). rewrite Hb0 in Hc by lia.
      replace (Z.to_nat (W * j) + i)%nat with (Z.to_nat (W * j + Z.of_nat i)) in Hc by lia. rewrite (co_raw _ _ _ CO) in Hc by nia. injection Hc as <-.
      apply (raw_byte_ctrl b ctrl0 f CO). nia. }
    rewrite group_convert by done. set (g := convert_byte <$> bs). assert (Z.of_nat (length g) = W) as Hgl by (unfold g; by rewrite length_fmap).
    replace (W * j + W) with (W * (j + 1)) by lia. apply IH; [lia|lia|].
    split; [rewrite splice_length; [done|nia]|]. intros q. rewrite splice_lookup by nia.
    destruct (Nat.ltb_spec q (Z.to_nat (W * j))); [rewrite HC, !(proj2 (Z.ltb_lt _ _)) by lia; done|].
    destruct (Nat.ltb_spec q (Z.to_nat (W * j) + length g)).
    + rewrite (proj2 (Z.ltb_lt _ _)) by lia. unfold g. rewrite list_lookup_fmap, Hb0 by lia. do 2 f_equal. lia.
    + rewrite HC, !(proj2 (Z.ltb_ge _ _)) by lia. done.
  - exists ctrl. split; [done|]. assert (W * j = 2 ^ b) as <-; [|done]. assert (nwin b <= j) by nia. nia.
Qed.

Lemma convert_ok w : W < 2 ^ b - 1 → ∃ ctrl, CWISS_ConvertDeletedToEmptyAndFullToDeleted ndebug ctrl0 (2 ^ b - 1) w = COk ctrl w ∧ ctrl_ok b ctrl (λ i, convert_byte (f i)).
Proof.
  intros Hc. pose proof width_bounds. destruct (ring_shape b Hb) as [(? & _)|(_ & EN & _)]; [lia|]. pose proof (co_len _ _ _ CO) as Hlen.
  unfold CWISS_ConvertDeletedToEmptyAndFullToDeleted, mbind, CW_bind. rewrite (get_byte b ctrl0 f CO) by lia. cbn [lift].
  unfold raw_byte at 1. rewrite Z.ltb_irrefl, Z.eqb_refl. rewrite !dcheck_true; [|apply valid_capacity|apply Z.eqb_refl].
  2: { split; [|lia]. destruct (decide (b = 0)) as [->|]; [simpl in *; lia|lia]. }
  destruct (convert_groups_ok (S (Z.to_nat (2 ^ b - 1))) 0 ctrl0 w) as (c1 & E & HL & HC); [nia|nia| |].
  { split; [done|]. intros q. by rewrite (proj2 (Z.ltb_ge _ _)) by lia. }
  rewrite Z.mul_0_r in E. rewrite E. unfold CWISS_NumClonedBytes.
  destruct (slice_spec c1 0 (W - 1)) as (cl & -> & Hcl & Hcb); [lia|lia|lia|]. cbn [lift].
  destruct (slice_spec c1 (2 ^ b - 1 + 1) (W - 1)) as (? & -> & _); [lia|lia|lia|]. cbn [lift]. cbv zeta.
  set (c2 := take _ c1 ++ cl ++ _). assert (length c2 = length ctrl0) as HL2 by (unfold c2; rewrite splice_length; lia).
  rewrite set_at_spec by lia. cbn [lift]. eexists. split; [done|]. split.
  - by rewrite length_insert, HL2.
  - intros i Hi. unfold convert_byte, is_slot_byte. case_if; auto.
  - intros j Hj. assert (∀ q : Z, 0 <= q < 2 ^ b - 1 → c1 !! Z.to_nat q = Some (convert_byte (f q))) as Hq.
    { intros q Hq. rewrite HC, (proj2 (Z.ltb_lt _ _)) by lia. rewrite (co_raw _ _ _ CO) by lia. unfold raw_byte. by rewrite (proj2 (Z.ltb_lt q _)) by lia. }
    unfold raw_byte. destruct (decide (j = 2 ^ b - 1)) as [->|Hn].
    + rewrite Z.ltb_irrefl, Z.eqb_refl, list_lookup_insert_eq by lia. done.
    + rewrite list_lookup_insert_ne by lia. unfold c2. rewrite splice_lookup by lia. rewrite (proj2 (Z.eqb_neq j _)) by done.
      destruct (Nat.ltb_spec (Z.to_nat j) (Z.to_nat (2 ^ b - 1 + 1))).
      * rewrite (proj2 (Z.ltb_lt j _)) by lia. apply Hq. lia.
      * rewrite (proj2 (Z.ltb_ge j _)) by lia. rewrite (proj2 (Nat.ltb_lt _ _)), (proj2 (Z.ltb_lt j _)) by lia.
        rewrite Hcb by lia. rewrite <- Hq by lia. f_equal. lia.
Qed.

End convert.

(** ** Moving the entries

    While the loop runs, a slot marked as deleted holds an entry that is still to be placed,
    and a full slot holds one that is: the windows before it have no free slot, and stay so. *)

Section drop.
Context `{GroupLaws} {K V : Type} `{PolicyLaws K V}.
Context (malloc : nat → Z → option Z) (counter_addr : Z) (ndebug : bool).
Local Abbreviation W := CWISS_Group_kWidth.
Local Abbreviation RawTable := (CWISS_RawTable K V).

Definition occ (c : Z) : Prop := is_full c ∨ c = CWISS_kDeleted.
Definition held (b : Z) (f : Z → Z) (s : Z → option (K * V)) (p : Z) (k : K) (v : V) : Prop := 0 <= p < 2 ^ b - 1 ∧ occ (f p) ∧ s p = Some (k, v).

Record dcore (b addr : Z) (f : Z → Z) (s : Z → option (K * V)) (i : Z) : Prop := {
  d_bytes : slot_bytes b f;
  d_full p : 0 <= p < 2 ^ b - 1 → is_full (f p) → ∃ e, s p = Some e ∧ f p = CWISS_H2 (key_hash e.1) ∧ first_free b f (start addr b e.1) p;
  d_del p : 0 <= p < 2 ^ b - 1 → f p = CWISS_kDeleted → ∃ e, s p = Some e;
  d_uniq p q k v v' : held b f s p k v → held b f s q k v' → p = q;
  d_done p : 0 <= p < i → f p ≠ CWISS_kDeleted
}.

Context (b : Z) (Hb : 0 <= b <= 58).

(** Changing a free slot does not change a window without free slots. *)
Lemma no_free_upd f p h o k : 0 <= p < 2 ^ b - 1 → is_free (f p) → no_free b f o k → no_free b (upd_at f p h) o k.
Proof.
  intros Hp Hf Hn i Hi. pose proof (win_range b Hb o k) as Hwr. destruct (wbyte_upd b Hb f p h (win b o k) i Hwr Hi Hp) as [[Hs _]| ->]; [|by apply Hn].
  exfalso. apply (Hn i Hi). by rewrite (wbyte_seen b Hb f (win b o k) i p).
Qed.

Lemma first_free_upd f p h o q : 0 <= p < 2 ^ b - 1 → is_free (f p) → first_free b f o q → first_free b (upd_at f p h) o q.
Proof. intros Hp Hf (k & i & Hk & Hs & Hn). exists k, i. split_and!; [lia..|done|]. intros k' Hk'. apply no_free_upd; auto. Qed.

Lemma deleted_free c : c = CWISS_kDeleted → is_free c.
Proof. by right. Qed.

Lemma full_not_deleted c : is_full c → c ≠ CWISS_kDeleted.
Proof. intros [Hx _] ->. done. Qed.

Section step.
Context (addr : Z) (f : Z → Z) (s : Z → option (K * V)) (i : Z) (D : dcore b addr f s i).
Context (e : K * V) (Hi : 0 <= i < 2 ^ b - 1) (Hd : f i = CWISS_kDeleted) (He : s i = Some e).

(** The entry is where it belongs. *)
Lemma drop_stay : first_free b f (start addr b e.1) i → let f' := upd_at f i (CWISS_H2 (key_hash e.1)) in
  dcore b addr f' s (i + 1) ∧ (∀ p k v, held b f' s p k v ↔ held b f s p k v).
Proof.
  intros Hff f'. pose proof (h2_full (key_hash e.1)) as Hh. assert (∀ p, occ (f' p) ↔ occ (f p)) as Ho.
  { intros p. unfold f'. destruct (decide (p = i)) as [->|Hn]; [rewrite upd_at_eq, Hd; unfold occ; naive_solver|by rewrite upd_at_ne]. }
  assert (∀ p k v, held b f' s p k v ↔ held b f s p k v) as Hheld by (intros; unfold held; by rewrite Ho).
  split; [|done]. split.
  - apply slot_bytes_upd; [apply D|]. by right; right.
  - intros p Hp Hf. unfold f' in *. destruct (decide (p = i)) as [->|Hn].
    + rewrite upd_at_eq. exists e. split_and!; [done|done|]. by apply first_free_upd; [done|apply deleted_free|].
    + rewrite upd_at_ne in * by done. destruct (d_full _ _ _ _ _ D p Hp Hf) as (e' & ? & ? & ?). exists e'. split_and!; [done|done|].
      by apply first_free_upd; [done|apply deleted_free|].
  - intros p Hp Hf. unfold f' in Hf. destruct (decide (p = i)) as [->|Hn]; [eauto|]. rewrite upd_at_ne in Hf by done. by apply (d_del _ _ _ _ _ D).
  - intros p q k v v' Hp%Hheld Hq%Hheld. by apply (d_uniq _ _ _ _ _ D p q k v v').
  - intros p Hp. unfold f'. destruct (decide (p = i)) as [->|Hn]; [rewrite upd_at_eq; by apply full_not_deleted|]. rewrite upd_at_ne by done.
    apply (d_done _ _ _ _ _ D). lia.
Qed.

(** The entry moves to an empty slot. *)
Lemma drop_move p : 0 <= p < 2 ^ b - 1 → f p = CWISS_kEmpty → first_free b f (start addr b e.1) p →
  let f' := upd_at (upd_at f p (CWISS_H2 (key_hash e.1))) i CWISS_kEmpty in let s' := upd_at (upd_at s p (Some e)) i None in
  dcore b addr f' s' (i + 1) ∧ (∀ k v, (∃ q, held b f' s' q k v) ↔ ∃ q, held b f s q k v).
Proof.
  intros Hp Hfp Hff f' s'. pose proof (h2_full (key_hash e.1)) as Hh. assert (p ≠ i) as Hpi by (intros ->; by rewrite Hd in Hfp).
  assert (∀ q k v, held b f' s' q k v ↔ (q = p ∧ (k, v) = e) ∨ (q ≠ i ∧ q ≠ p ∧ held b f s q k v)) as Hheld.
  { intros q k v. unfold held, f', s'. destruct (decide (q = i)) as [->|Hqi]; [rewrite !upd_at_eq; naive_solver|]. rewrite !(upd_at_ne _ i) by done.
    destruct (decide (q = p)) as [->|Hqp]; [rewrite !upd_at_eq; unfold occ; naive_solver|]. rewrite !upd_at_ne by done. naive_solver. }
  split; [split|].
  - apply slot_bytes_upd; [apply slot_bytes_upd; [apply D|by right; right]|by left].
  - intros q Hq Hf. unfold f', s' in *. destruct (decide (q = i)) as [->|Hqi]; [rewrite upd_at_eq in Hf; destruct Hf; done|]. rewrite !(upd_at_ne _ i) in * by done.
    assert (∀ o q', first_free b f o q' → first_free b (upd_at (upd_at f p (CWISS_H2 (key_hash e.1))) i CWISS_kEmpty) o q') as Hup.
    { intros o q' Hx. apply first_free_upd; [done|rewrite upd_at_ne by done; by apply deleted_free|]. by apply first_free_upd; [done|left|]. }
    destruct (decide (q = p)) as [->|Hqp]; [rewrite !upd_at_eq; eauto 10|]. rewrite !upd_at_ne in * by done.
    destruct (d_full _ _ _ _ _ D q Hq Hf) as (e' & ? & ? & ?). eauto 10.
  - intros q Hq Hf. unfold f', s' in *. destruct (decide (q = i)) as [->|Hqi]; [by rewrite upd_at_eq in Hf|]. rewrite !(upd_at_ne _ i) in * by done.
    destruct (decide (q = p)) as [->|Hqp]; [rewrite upd_at_eq; eauto|]. rewrite !upd_at_ne in * by done. by apply (d_del _ _ _ _ _ D).
  - assert (held b f s i e.1 e.2) as Hhe by (split_and!; [lia..|by right|by rewrite <- surjective_pairing]).
    intros q q' k v v' [[-> E]|(Hqi & _ & Hq)]%Hheld [[-> E']|(Hqi' & _ & Hq')]%Hheld; [done| | |by apply (d_uniq _ _ _ _ _ D q q' k v v')].
    + subst e. by destruct Hqi'; eapply (d_uniq _ _ _ _ _ D).
    + subst e. by destruct Hqi; eapply (d_uniq _ _ _ _ _ D).
  - intros q Hq. unfold f'. destruct (decide (q = i)) as [->|Hqi]; [by rewrite upd_at_eq|]. rewrite upd_at_ne by done.
    destruct (decide (q = p)) as [->|Hqp]; [rewrite upd_at_eq; by apply full_not_deleted|]. rewrite upd_at_ne by done. apply (d_done _ _ _ _ _ D). lia.
  - intros k v. split.
    + intros (q & [[-> <-]|(_ & _ & Hq)]%Hheld); [|eauto]. exists i. split_and!; [lia..|by right|done].
    + intros (q & Hq). destruct (decide (q = i)) as [->|Hqi]; [exists p; apply Hheld; left; destruct Hq as (_ & _ & Hq); rewrite He in Hq; by injection Hq|].
      exists q. apply Hheld. right. split_and!; [done| |done]. intros ->. destruct Hq as (_ & [Ho|Ho] & _); rewrite Hfp in Ho; [destruct Ho|]; done.
Qed.

(** The entry changes places with one that is still to be placed. *)
Lemma drop_swap p new : 0 <= p < 2 ^ b - 1 → p ≠ i → f p = CWISS_kDeleted → s p = Some new → first_free b f (start addr b e.1) p →
  let f' := upd_at f p (CWISS_H2 (key_hash e.1)) in let s' := upd_at (upd_at s i (Some new)) p (Some e) in
  dcore b addr f' s' i ∧ (∀ k v, (∃ q, held b f' s' q k v) ↔ ∃ q, held b f s q k v).
Proof.
  intros Hp Hpi Hfp Hsp Hff f' s'. pose proof (h2_full (key_hash e.1)) as Hh.
  set (sw := λ q, if q =? p then i else if q =? i then p else q).
  assert (∀ q k v, held b f' s' q k v ↔ held b f s (sw q) k v) as Hheld.
  { intros q k v. unfold held, f', s', sw. destruct (Z.eqb_spec q p) as [->|Hqp].
    - rewrite !upd_at_eq, He. unfold occ. naive_solver.
    - rewrite !(upd_at_ne _ p) by done. destruct (Z.eqb_spec q i) as [->|Hqi]; [rewrite upd_at_eq, Hd, Hfp, Hsp; naive_solver|by rewrite upd_at_ne]. }
  assert (∀ q, sw (sw q) = q) as Hsw.
  { intros q. unfold sw. destruct (Z.eqb_spec q p) as [->|]; [by rewrite (proj2 (Z.eqb_neq i p)), Z.eqb_refl by done|].
    destruct (Z.eqb_spec q i) as [->|]; [by rewrite Z.eqb_refl|]. by rewrite (proj2 (Z.eqb_neq q p)), (proj2 (Z.eqb_neq q i)). }
  split; [split|].
  - apply slot_bytes_upd; [apply D|by right; right].
  - intros q Hq Hf. unfold f', s' in *. assert (∀ o q', first_free b f o q' → first_free b (upd_at f p (CWISS_H2 (key_hash e.1))) o q') as Hup.
    { intros o q' Hx. by apply first_free_upd; [done|apply deleted_free|]. }
    destruct (decide (q = p)) as [->|Hqp]; [rewrite !upd_at_eq; eauto 10|]. rewrite !(upd_at_ne _ p) in * by done.
    destruct (decide (q = i)) as [->|Hqi]; [by rewrite Hd in Hf; destruct Hf|]. rewrite upd_at_ne by done.
    destruct (d_full _ _ _ _ _ D q Hq Hf) as (e' & ? & ? & ?). eauto 10.
  - intros q Hq Hf. unfold f', s' in *. destruct (decide (q = p)) as [->|Hqp]; [rewrite upd_at_eq; eauto|]. rewrite !(upd_at_ne _ p) in * by done.
    destruct (decide (q = i)) as [->|Hqi]; [rewrite upd_at_eq; eauto|]. rewrite upd_at_ne by done. by apply (d_del _ _ _ _ _ D).
  - intros q q' k v v' Hq%Hheld Hq'%Hheld. rewrite <- (Hsw q), <- (Hsw q'). f_equal. by apply (d_uniq _ _ _ _ _ D _ _ k v v').
  - intros q Hq. unfold f'. destruct (decide (q = p)) as [->|Hqp]; [rewrite upd_at_eq; by apply full_not_deleted|]. rewrite upd_at_ne by done.
    by apply (d_done _ _ _ _ _ D).
  - intros k v. split; intros (q & Hq); exists (sw q); [by apply Hheld|]. apply Hheld. by rewrite Hsw.
Qed.

End step.

(** ** The loop *)

Record dinv (t : RawTable) (f : Z → Z) (s : Z → option (K * V)) (i : Z) : Prop := {
  di_cap : capacity_ t = 2 ^ b - 1;
  di_ctrl : ctrl_ok b (ctrl_ t) f;
  di_slots : slots_ok b (slots_ t) s;
  di_core : dcore b (ctrl_addr t) f s i;
  di_pos : 0 <= i <= 2 ^ b - 1
}.

(** A round goes on to the next slot or places an entry, and the entries stay the same. *)
Definition progress (f : Z → Z) (s : Z → option (K * V)) (i : Z) (f' : Z → Z) (s' : Z → option (K * V)) (i' : Z) : Prop :=
  (∀ k v, (∃ q, held b f' s' q k v) ↔ ∃ q, held b f s q k v) ∧ 2 ^ b - 1 - i' + ndel b f' < 2 ^ b - 1 - i + ndel b f ∧
  nfull b f' + ndel b f' = nfull b f + ndel b f.

Lemma counts_upd f p h : 0 <= p < 2 ^ b - 1 →
  nfull b (upd_at f p h) = nfull b f - Z.b2z (CWISS_IsFull (f p)) + Z.b2z (CWISS_IsFull h) ∧
  ndel b (upd_at f p h) = ndel b f - Z.b2z (CWISS_IsDeleted (f p)) + Z.b2z (CWISS_IsDeleted h).
Proof. intros Hp. unfold nfull, ndel. by rewrite !cntn_upd by lia. Qed.

Lemma h2_kind h : CWISS_IsFull (CWISS_H2 h) = true ∧ CWISS_IsDeleted (CWISS_H2 h) = false.
Proof. pose proof (h2_full h) as [Hx _]. unfold CWISS_IsFull, CWISS_IsDeleted, CWISS_kDeleted. rewrite Z.leb_le, Z.eqb_neq. lia. Qed.

(** *** The three ways to place the entry of a marked slot *)

Section branches.
Context (t : RawTable) (f : Z → Z) (s : Z → option (K * V)) (i : Z) (w : CwWorld) (DI : dinv t f s i) (Hi : i < 2 ^ b - 1).
Context (e : K * V) (Ed : f i = CWISS_kDeleted) (He : s i = Some e).
Local Abbreviation h2 := (CWISS_H2 (key_hash e.1)).

Definition stepped (r : RawTable * Z) (_ : CwWorld) : Prop := ∃ f' s', dinv r.1 f' s' r.2 ∧ size_ r.1 = size_ t ∧ progress f s i f' s' r.2.

Lemma h2_slot_byte : is_slot_byte h2.
Proof. right. right. apply h2_full. Qed.

Lemma stay_step : first_free b f (start (ctrl_addr t) b e.1) i → wp (t ← set_ctrl ndebug i h2 t; mret (t, i + 1)) w stepped.
Proof.
  intros Hff. destruct DI as [Ec CO SO D Hpos]. destruct (set_ctrl_step ndebug b t f i h2 w Hb Ec CO ltac:(lia) h2_slot_byte) as (c & Es & CO').
  eapply wp_bind_ok; [exact Es|]. apply wp_ret. destruct (drop_stay (ctrl_addr t) f s i D e ltac:(lia) Ed He Hff) as [D' Hheld].
  destruct (counts_upd f i h2 ltac:(lia)) as [F1 F2]. destruct (h2_kind (key_hash e.1)) as [K1 K2]. rewrite K1, Ed in F1. rewrite K2, Ed in F2. cbn in F1, F2.
  exists (upd_at f i h2), s. cbn [fst snd]. split_and!; [split; try done; lia|done|]. split_and!; [|lia|lia]. intros k v. split; intros (q & Hq%Hheld); by exists q.
Qed.

Context (p : Z) (Hp : 0 <= p < 2 ^ b - 1) (Hpi : p ≠ i) (Hff : first_free b f (start (ctrl_addr t) b e.1) p).

Lemma move_step : f p = CWISS_kEmpty →
  wp (t ← set_ctrl ndebug p h2 t; t ← write_slot p (Some e) t; t ← write_slot i None t; t ← set_ctrl ndebug i CWISS_kEmpty t; mret (t, i + 1)) w stepped.
Proof.
  intros Ee. destruct DI as [Ec CO SO D Hpos]. destruct (set_ctrl_step ndebug b t f p h2 w Hb Ec CO Hp h2_slot_byte) as (c & Es & CO1). eapply wp_bind_ok; [exact Es|].
  destruct (write_slot_step b (with_ctrl c t) s p (Some e) w SO Hp) as (sl & Es2 & SO1). eapply wp_bind_ok; [exact Es2|].
  destruct (write_slot_step b (with_slots sl (with_ctrl c t)) (upd_at s p (Some e)) i None w SO1 ltac:(lia)) as (sl2 & Es3 & SO2). eapply wp_bind_ok; [exact Es3|].
  destruct (set_ctrl_step ndebug b (with_slots sl2 (with_slots sl (with_ctrl c t))) (upd_at f p h2) i CWISS_kEmpty w Hb Ec CO1 ltac:(lia) ltac:(by left)) as (c2 & Es4 & CO2).
  eapply wp_bind_ok; [exact Es4|]. apply wp_ret. destruct (drop_move (ctrl_addr t) f s i D e ltac:(lia) Ed He p Hp Ee Hff) as [D' Hheld].
  eexists _, _. cbn [fst snd]. split_and!; [split; [done|exact CO2|exact SO2|exact D'|lia]|done|]. destruct (h2_kind (key_hash e.1)) as [K1 K2].
  destruct (counts_upd f p h2 Hp) as [F1 F2]. destruct (counts_upd (upd_at f p h2) i CWISS_kEmpty ltac:(lia)) as [F3 F4].
  rewrite upd_at_ne, Ed in F3, F4 by done. rewrite K1, Ee in F1. rewrite K2, Ee in F2. cbn in F1, F2, F3, F4. split_and!; [done|lia..].
Qed.

Lemma swap_step : f p = CWISS_kDeleted →
  wp (t ← set_ctrl ndebug p h2 t; new ← read_slot t p; t ← write_slot i (Some new) t; t ← write_slot p (Some e) t; mret (t, i)) w stepped.
Proof.
  intros Hdp. destruct DI as [Ec CO SO D Hpos]. destruct (d_del _ _ _ _ _ D p Hp Hdp) as (new & Hnew).
  destruct (set_ctrl_step ndebug b t f p h2 w Hb Ec CO Hp h2_slot_byte) as (c & Es & CO1). eapply wp_bind_ok; [exact Es|].
  eapply wp_bind_ok; [by apply (read_slot_ok b (with_ctrl c t) s SO)|].
  destruct (write_slot_step b (with_ctrl c t) s i (Some new) w SO ltac:(lia)) as (sl & Es2 & SO1). eapply wp_bind_ok; [exact Es2|].
  destruct (write_slot_step b (with_slots sl (with_ctrl c t)) (upd_at s i (Some new)) p (Some e) w SO1 Hp) as (sl2 & Es3 & SO2). eapply wp_bind_ok; [exact Es3|]. apply wp_ret.
  destruct (drop_swap (ctrl_addr t) f s i D e ltac:(lia) Ed He p new Hp Hpi Hdp Hnew Hff) as [D' Hheld].
  eexists _, _. cbn [fst snd]. split_and!; [split; [done|exact CO1|exact SO2|exact D'|lia]|done|]. destruct (h2_kind (key_hash e.1)) as [K1 K2].
  destruct (counts_upd f p h2 Hp) as [F1 F2]. rewrite K1, Hdp in F1. rewrite K2, Hdp in F2. cbn in F1, F2. split_and!; [done|lia..].
Qed.

End branches.

Lemma drop_step_ok t f s i w : W <= 2 ^ b → dinv t f s i → i < 2 ^ b - 1 →
  wp (drop_step counter_addr ndebug t i) w (λ r _, ∃ f' s', dinv r.1 f' s' r.2 ∧ size_ r.1 = size_ t ∧ progress f s i f' s' r.2).
Proof.
  intros Hl DI Hi. pose proof DI as [Ec CO SO D Hpos]. pose proof width_bounds. unfold drop_step. eapply wp_bind_ok; [rewrite (get_slot_byte b Hb _ _ CO i) by lia; done|]. cbv beta.
  destruct (CWISS_IsDeleted (f i)) eqn:Ed; cbn [negb].
  2: { apply wp_ret. exists f, s. cbn [fst snd]. assert (dcore b (ctrl_addr t) f s (i + 1)) as D'.
       { destruct D as [? ? ? ? Hdone]. split; try done. intros p Hp E. destruct (decide (p = i)) as [->|]; [by rewrite E in Ed|]. apply (Hdone p); [lia|done]. }
       split_and!; [split; try done; lia|done|]. split_and!; [done|lia|done]. }
  apply Z.eqb_eq in Ed. destruct (d_del _ _ _ _ _ D i ltac:(lia) Ed) as (e & He). eapply wp_bind_ok; [apply (read_slot_ok b t s SO); [lia|done]|]. cbv beta zeta. rewrite Ec.
  destruct (find_first_ok ndebug counter_addr b Hb (ctrl_ t) f CO (ctrl_addr t) (key_hash e.1) w) as (info & w1 & E & _ & Hp & Hfr & Hff); [exists i; split; [lia|by right]|].
  eapply wp_bind_ok; [exact E|]. cbv beta. set (p := fi_offset info) in *. fold (start (ctrl_addr t) b e.1) in Hff. rewrite seq_at_start by done. fold (start (ctrl_addr t) b e.1).
  set (o := start (ctrl_addr t) b e.1) in *. assert (0 <= o < 2 ^ b) as Ho by (apply start_range; lia).
  assert (offset_ (seq_at b o 0) = o) as -> by (cbn [offset_ seq_at]; unfold win; change (tri 0) with 0; rewrite Z.mul_0_r, Z.add_0_r; by apply Z.mod_small).
  rewrite !land_mask, !mod_u64 by done. destruct (Z.eqb_spec ((p - o) mod 2 ^ b / W) ((i - o) mod 2 ^ b / W)) as [Et|Et].
  - apply (stay_step t f s i w1 DI Hi e Ed He). destruct Hff as (k & j & Hk & Hs & Hn). exists k.
    destruct (proj2 (seen_tile b Hb o k i Hl ltac:(lia))) as [j' Hj']; [|by exists j']. rewrite <- Et. apply (seen_tile b Hb o k p Hl ltac:(lia)). by exists j.
  - assert (p ≠ i) as Hpi by (intros Epi; rewrite Epi in Et; done).
    eapply wp_bind_ok; [rewrite (get_slot_byte b Hb _ _ CO p Hp); done|]. cbv beta. destruct Hfr as [Hfp|Hfp].
    + rewrite Hfp. by apply (move_step t f s i w1 DI Hi e Ed He p).
    + rewrite Hfp. eapply wp_bind_ok; [by apply dcheck_true|]. by apply (swap_step t f s i w1 DI Hi e Ed He p).
Qed.

Lemma drop_loop_ok fuel t f s i w : W <= 2 ^ b → dinv t f s i → 2 ^ b - 1 - i + ndel b f < Z.of_nat fuel →
  wp (drop_loop counter_addr ndebug fuel t i) w (λ t' _, ∃ f' s', dinv t' f' s' (2 ^ b - 1) ∧ size_ t' = size_ t ∧
    (∀ k v, (∃ q, held b f' s' q k v) ↔ ∃ q, held b f s q k v) ∧ nfull b f' + ndel b f' = nfull b f + ndel b f).
Proof.
  intros Hl. revert t f s i w. induction fuel as [|fuel IH]; intros t f s i w DI Hf.
  { pose proof (di_pos _ _ _ _ DI). pose proof (counts_bound b f Hb (d_bytes _ _ _ _ _ (di_core _ _ _ _ DI))). lia. }
  cbn [drop_loop]. rewrite (di_cap _ _ _ _ DI). destruct (Z.eqb_spec i (2 ^ b - 1)) as [->|Hn]; [apply wp_ret; by exists f, s|].
  pose proof (di_pos _ _ _ _ DI). apply wp_bind. eapply wp_mono; [apply (drop_step_ok t f s i w Hl DI); lia|].
  intros [t' i'] w' (f' & s' & DI' & Es & Hheld & Hm & Hc). cbn [fst snd] in *. eapply wp_mono; [apply (IH t' f' s' i'); [done|lia]|].
  intros t'' w'' (f'' & s'' & DI'' & Es' & Hheld' & Hc'). exists f'', s''. split_and!; [done|congruence| |lia]. intros k v. by rewrite Hheld', Hheld.
Qed.

(** After the conversion, all entries are still to be placed. *)
Lemma convert_dcore addr f s : core b addr f s → dcore b addr (λ i, convert_byte (f i)) s 0 ∧
  (∀ k v, (∃ q, held b (λ i, convert_byte (f i)) s q k v) ↔ cont b f s k v) ∧
  nfull b (λ i, convert_byte (f i)) = 0 ∧ ndel b (λ i, convert_byte (f i)) = nfull b f.
Proof.
  intros C. assert (∀ c, is_slot_byte c → convert_byte c = if CWISS_IsFull c then CWISS_kDeleted else CWISS_kEmpty) as Hcv by done.
  assert (∀ c, ¬ is_full (convert_byte c)) as Hnf by (intros c; unfold convert_byte; case_if; intros [Hx _]; done).
  assert (∀ q, 0 <= q < 2 ^ b - 1 → convert_byte (f q) = CWISS_kDeleted ↔ is_full (f q)) as Hd.
  { intros q Hq. unfold convert_byte. rewrite <- (is_full_spec _ (c_bytes _ _ _ _ C q Hq)). by destruct (CWISS_IsFull (f q)). }
  assert (∀ q k v, held b (λ i, convert_byte (f i)) s q k v ↔ has_key b f s k q ∧ s q = Some (k, v)) as Hheld.
  { intros q k v. unfold held, has_key, occ. split.
    - intros (Hq & [Hx|Hx] & Hv); [by apply Hnf in Hx|]. apply Hd in Hx; [|done]. eauto 10.
    - intros [(Hq & Hx & _) Hv]. split_and!; [lia..| |done]. right. by apply Hd. }
  split_and!.
  - split.
    + intros q Hq. unfold convert_byte, is_slot_byte. case_if; auto.
    + intros q Hq Hf. by apply Hnf in Hf.
    + intros q Hq Hx%Hd; [|done]. destruct (c_full _ _ _ _ C q Hq Hx) as (e & He & _). eauto.
    + intros q q' k v v' [Hq _]%Hheld [Hq' _]%Hheld. by apply (c_uniq _ _ _ _ C q q' k).
    + lia.
  - intros k v. unfold cont. split; [intros (q & [(? & ? & _) ?]%Hheld); eauto|]. intros (q & ? & ? & ?). exists q. apply Hheld. unfold has_key. eauto 10.
  - unfold nfull. erewrite cntn_ext; [apply cntn_false|]. intros q _. cbv beta. unfold convert_byte. by case_if.
  - unfold ndel, nfull. apply cntn_ext. intros q _. unfold convert_byte. by case_if.
Qed.

(** When no slot is marked any more, the table agrees with its entries. *)
Lemma drop_core addr f s : dcore b addr f s (2 ^ b - 1) → core b addr f s ∧ ndel b f = 0 ∧ ∀ k v, cont b f s k v ↔ ∃ q, held b f s q k v.
Proof.
  intros D. assert (∀ q, 0 <= q < 2 ^ b - 1 → occ (f q) ↔ is_full (f q)) as Ho.
  { intros q Hq. unfold occ. pose proof (d_done _ _ _ _ _ D q Hq). naive_solver. }
  split_and!.
  - split; [apply D| |].
    + intros q Hq Hf. destruct (d_full _ _ _ _ _ D q Hq Hf) as (e & He & Ef & k & i & Hk & Hs & Hn). exists e. split_and!; [done|done|].
      exists k, i. split_and!; [lia..|done|]. intros k' Hk'. by apply no_free_no_empty, Hn.
    + intros q q' k (Hq & Hf & v & Hv) (Hq' & Hf' & v' & Hv'). apply (d_uniq _ _ _ _ _ D q q' k v v'); (split_and!; [lia..|by left|done]).
  - unfold ndel. erewrite cntn_ext; [apply cntn_false|]. intros q Hq. cbv beta. apply Z.eqb_neq, (d_done _ _ _ _ _ D). lia.
  - intros k v. unfold cont, held. split; intros (q & Hq & Hf & Hv); exists q; (split_and!; [lia..| |done]); by apply Ho.
Qed.

Lemma drop_deletes_ok t f s w : tinv b t f s → W < 2 ^ b - 1 →
  wp (CWISS_RawTable_DropDeletesWithoutResize malloc counter_addr ndebug t) w (λ t' _, size_ t' = size_ t ∧ ∃ f' s', tinv b t' f' s' ∧ ndel b f' = 0 ∧
    ∀ k v, cont b f' s' k v ↔ cont b f s k v).
Proof.
  intros TI Hc. pose proof TI as [_ Ec CO SO C Esz Eg Hr]. pose proof width_bounds. assert (W <= 2 ^ b) as Hl by lia.
  assert (1 <= b) as Hb1 by (destruct (decide (b = 0)) as [->|]; [simpl in *; lia|lia]).
  unfold CWISS_RawTable_DropDeletesWithoutResize. rewrite Ec. eapply wp_bind_ok; [apply dcheck_true, valid_capacity; lia|].
  eapply wp_bind_ok; [apply dcheck_true, negb_true_iff; unfold CWISS_IsSmall; apply Z.ltb_ge; lia|].
  destruct (convert_ok ndebug b Hb Hl (ctrl_ t) f CO w Hc) as (c & E & CO1). eapply wp_bind_ok; [exact E|]. apply wp_bind, wp_malloc. intros a _.
  destruct (convert_dcore (ctrl_addr t) f s C) as (D & Hheld & Hn0 & Hd0). destruct (counts_bound b f Hb (c_bytes _ _ _ _ C)) as (N1 & N2 & N3).
  apply wp_bind. eapply wp_mono; [apply (drop_loop_ok _ (with_ctrl c t) (λ i, convert_byte (f i)) s 0); [done|split; (done || lia)|rewrite Hd0; lia]|].
  intros t' w' (f' & s' & [Ec' CO' SO' D' _] & Es & Hheld' & Hcnt). destruct (drop_core (ctrl_addr t') f' s' D') as (C' & Hd' & Hcont).
  unfold CWISS_RawTable_ResetGrowthLeft. rewrite Ec'. eapply wp_bind_ok; [apply capacity_to_growth; lia|]. apply wp_ret. split; [done|]. exists f', s'.
  pose proof (growth_le b Hb). pose proof (ring_le b Hb). cbn [size_ with_ctrl] in Es. split_and!; [|done|].
  - split; cbn [with_growth capacity_ ctrl_ slots_ ctrl_addr size_ growth_left_]; try done; [lia| |lia]. rewrite Es, u64_of; lia.
  - intros k v. by rewrite Hcont, Hheld', Hheld.
Qed.

End drop.

(** ** Making room *)

Section room.
Context `{GroupLaws} {K V : Type} `{PolicyLaws K V}.
Context (malloc : nat → Z → option Z) (counter_addr : Z) (ndebug : bool).
Context (Hmalloc : ∀ n size a, malloc n size = Some a → size < 2 ^ 63).
Local Abbreviation W := CWISS_Group_kWidth.
Local Abbreviation RawTable := (CWISS_RawTable K V).

Lemma growth_double b : 0 <= b <= 58 → growth_of (2 ^ b - 1) < growth_of (2 ^ (b + 1) - 1).
Proof.
  intros Hb. rewrite Z.pow_add_r by lia. change (2 ^ 1) with 2. pose proof (ring_le b Hb). unfold growth_of.
  pose proof (Z.div_mod (2 ^ b - 1) 8 ltac:(lia)). pose proof (Z.mod_pos_bound (2 ^ b - 1) 8 ltac:(lia)).
  pose proof (Z.div_mod (2 ^ b * 2 - 1) 8 ltac:(lia)). pose proof (Z.mod_pos_bound (2 ^ b * 2 - 1) 8 ltac:(lia)).
  assert (1 <= 2 ^ b) by lia. destruct (W =? 8); simpl; [|lia]. destruct (Z.eqb_spec (2 ^ b - 1) 7), (Z.eqb_spec (2 ^ b * 2 - 1) 7); lia.
Qed.

Lemma rehash_ok b t f s w : tinv b t f s → wp (CWISS_RawTable_rehash_and_grow_if_necessary malloc counter_addr ndebug t) w (λ t' _,
  size_ t' = size_ t ∧ ∃ b' f' s', tinv b' t' f' s' ∧ (∀ k v, cont b' f' s' k v ↔ cont b f s k v) ∧ 0 < growth_left_ t').
Proof.
  intros TI. pose proof TI as [Hb Ec CO SO C Esz Eg Hr]. pose proof (ring_le b Hb). pose proof width_bounds. pose proof (growth_double b Hb) as Hgd.
  destruct (counts_bound b f Hb (c_bytes _ _ _ _ C)) as (N1 & N2 & N3).
  unfold CWISS_RawTable_rehash_and_grow_if_necessary. rewrite Ec.
  destruct (Z.eqb_spec (2 ^ b - 1) 0) as [E0|E0].
  - assert (b = 0) as -> by (destruct (decide (b = 0)); [done|assert (2 ^ 1 <= 2 ^ b) by (apply Z.pow_le_mono_r; lia); lia]).
    eapply wp_mono; [apply (resize_ok malloc counter_addr ndebug Hmalloc 0 t f s 1 w TI); [lia|change (2 ^ (0 + 1)) with (2 ^ 1) in Hgd; lia]|].
    intros t' w' (Es & f' & s' & TI' & Hd & Hc). split; [done|]. exists 1, f', s'. split_and!; [done|done|]. rewrite (ti_growth _ _ _ _ TI'), Hd.
    change (2 ^ (0 + 1)) with (2 ^ 1) in Hgd. rewrite <- (ti_size _ _ _ _ TI'), Es, Esz. lia.
  - destruct ((W <? 2 ^ b - 1) && (u64 (size_ t * 32) <=? u64 ((2 ^ b - 1) * 25))) eqn:Ed.
    + zbool. rewrite !u64_small in * by (unfold is_u64; lia). eapply wp_mono; [apply (drop_deletes_ok malloc counter_addr ndebug b Hb t f s w TI); lia|].
      intros t' w' (Es & f' & s' & TI' & Hd & Hc). split; [done|]. exists b, f', s'. split_and!; [done|done|]. rewrite (ti_growth _ _ _ _ TI'), Hd.
      rewrite <- (ti_size _ _ _ _ TI'), Es, Esz. unfold growth_of. pose proof (Z.div_mod (2 ^ b - 1) 8 ltac:(lia)). pose proof (Z.mod_pos_bound (2 ^ b - 1) 8 ltac:(lia)).
      rewrite (proj2 (Z.eqb_neq (2 ^ b - 1) 7)) by lia. rewrite andb_false_r. lia.
    + rewrite u64_small by (unfold is_u64; lia). replace ((2 ^ b - 1) * 2 + 1) with (2 ^ (b + 1) - 1) by (rewrite Z.pow_add_r by lia; lia).
      eapply wp_mono; [apply (resize_ok malloc counter_addr ndebug Hmalloc b t f s (b + 1) w TI); [lia|lia]|].
      intros t' w' (Es & f' & s' & TI' & Hd & Hc). split; [done|]. exists (b + 1), f', s'. split_and!; [done|done|]. rewrite (ti_growth _ _ _ _ TI'), Hd.
      rewrite <- (ti_size _ _ _ _ TI'), Es, Esz. lia.
Qed.

End room.
