(* ===== verification/CwMap.v ===== *)
(** * The open-addressing table is a finite map

    [represents t m]: the table [t] holds the entries of [m].  Every operation of the raw
    table that sdb uses is shown to act on [m] as its name says, whatever the hash
    function, the addresses and the state of the table, or to stop because memory is
    refused; none of them faults, fails a check or runs forever. *)

From S2P Require Import Prelude CwBits CwGroup CwTable CwProbe CwSearch CwInv CwOps CwIter CwGrow CwRehash.

Section map.
Context `{GroupLaws} {K V : Type} `{PolicyLaws K V} `{Countable K}.
Context (malloc : nat → Z → option Z) (empty_group counter_addr : Z) (ndebug : bool).
Context (Hmalloc : ∀ n size a, malloc n size = Some a → size < 2 ^ 63).
Local Abbreviation W := CWISS_Group_kWidth.
Local Abbreviation RawTable := (CWISS_RawTable K V).

(** ** Inserting *)

(** The table after a slot was chosen for [key] and its control byte written: the entry is missing. *)
Record prepared (key : K) (t0 : RawTable) (ct : K → V → Prop) (t : RawTable) (p : Z) (b : Z) (f : Z → Z) (s : Z → option (K * V)) : Prop := {
  pr_b : 0 <= b <= 58;
  pr_cap : capacity_ t = 2 ^ b - 1;
  pr_pos : 0 <= p < 2 ^ b - 1;
  pr_free : is_free (f p);
  pr_first : first_free b f (start (ctrl_addr t) b key) p;
  pr_core : core b (ctrl_addr t) f s;
  pr_ctrl : ctrl_ok b (ctrl_ t) (upd_at f p (CWISS_H2 (key_hash key)));
  pr_slots : slots_ok b (slots_ t) s;
  pr_size : size_ t = size_ t0 + 1;
  pr_nfull : size_ t0 = nfull b f;
  pr_growth : growth_left_ t = growth_of (2 ^ b - 1) - (nfull b f + 1) - (ndel b f - Z.b2z (CWISS_IsDeleted (f p)));
  pr_room : nfull b f + 1 + (ndel b f - Z.b2z (CWISS_IsDeleted (f p))) <= growth_of (2 ^ b - 1);
  pr_cont k v : cont b f s k v ↔ ct k v
}.

Lemma take_slot_ok b t f s key p w : tinv b t f s → 0 <= p < 2 ^ b - 1 → is_free (f p) → first_free b f (start (ctrl_addr t) b key) p →
  (f p = CWISS_kEmpty → 0 < growth_left_ t) →
  ∃ t', take_slot ndebug (key_hash key) p t w = COk (t', p) w ∧ prepared key t (cont b f s) t' p b f s.
Proof.
  intros TI Hp Hfr Hff Hgr. pose proof TI as [Hb Ec CO SO C Esz Eg Hr]. pose proof (ring_le b Hb). pose proof (growth_le b Hb).
  destruct (counts_bound b f Hb (c_bytes _ _ _ _ C)) as (N1 & N2 & N3). unfold take_slot. cbv zeta. unfold mbind, CW_bind. cbn [ctrl_ with_size]. rewrite (get_slot_byte b Hb _ _ CO p Hp). cbn [lift].
  set (t1 := with_growth _ _). destruct (set_ctrl_step ndebug b t1 f p (CWISS_H2 (key_hash key)) w Hb Ec CO Hp) as (c & -> & CO'); [right; right; apply h2_full|].
  eexists. split; [done|]. cbn [growth_left_ with_size] in *.
  assert (Z.b2z (CWISS_IsDeleted (f p)) = 1 - (if CWISS_IsEmpty (f p) then 1 else 0)) as Eb by (destruct Hfr as [->| ->]; done).
  assert (f p = CWISS_kEmpty ↔ CWISS_IsEmpty (f p) = true) as Hee by (symmetry; apply Z.eqb_eq).
  assert (1 <= ndel b f ∨ CWISS_IsDeleted (f p) = false) as Hdd.
  { destruct (CWISS_IsDeleted (f p)) eqn:Ed; [left|by right]. pose proof (counts_upd b Hb f p 0 Hp) as [_ F]. rewrite Ed in F. cbn [Z.b2z] in F. change (CWISS_IsDeleted 0) with false in F. cbn [Z.b2z] in F.
    pose proof (counts_bound b (upd_at f p 0) Hb (slot_bytes_upd b f p 0 (c_bytes _ _ _ _ C) ltac:(right; right; done))) as (_ & ? & _). lia. }
  split; cbn [with_ctrl ctrl_addr capacity_ ctrl_ slots_ size_ growth_left_ t1 with_growth with_size]; try done.
  - rewrite u64_of; lia.
  - rewrite Eb. destruct (CWISS_IsEmpty (f p)); [rewrite u64_of; specialize (Hgr (proj2 Hee eq_refl)); lia|rewrite u64_of; lia].
  - rewrite Eb. destruct (CWISS_IsEmpty (f p)); [specialize (Hgr (proj2 Hee eq_refl)); lia|lia].
Qed.

Lemma prepare_insert_ok b t f s key w : tinv b t f s →
  wp (CWISS_RawTable_PrepareInsert malloc counter_addr ndebug (key_hash key) t) w (λ r _, ∃ b' f' s', prepared key t (cont b f s) r.1 r.2 b' f' s').
Proof.
  intros TI. pose proof TI as [Hb Ec CO SO C Esz Eg Hr]. pose proof (growth_le b Hb) as Hgl. destruct (counts_bound b f Hb (c_bytes _ _ _ _ C)) as (N1 & N2 & N3).
  unfold CWISS_RawTable_PrepareInsert. set (again := λ t : RawTable, target ← _; take_slot ndebug (key_hash key) (fi_offset target) t).
  assert (∀ w, wp (t ← CWISS_RawTable_rehash_and_grow_if_necessary malloc counter_addr ndebug t; again t) w
    (λ r _, ∃ b' f' s', prepared key t (cont b f s) r.1 r.2 b' f' s')) as Hrehash.
  { intros w1. apply wp_bind. eapply wp_mono; [by apply (rehash_ok malloc counter_addr ndebug Hmalloc b t f s)|].
    intros t' w2 (Es & b' & f' & s' & TI' & Hc & Hg). pose proof TI' as [Hb' Ec' CO' SO' C' Esz' Eg' Hr']. unfold again. rewrite Ec'. pose proof (growth_le b' Hb').
    destruct (counts_bound b' f' Hb' (c_bytes _ _ _ _ C')) as (? & ? & ?).
    destruct (find_first_ok ndebug counter_addr b' Hb' (ctrl_ t') f' CO' (ctrl_addr t') (key_hash key) w2) as (info & w3 & E & _ & Hp & Hfr & Hff); [apply free_exists; [done|apply C'|lia]|].
    eapply wp_bind_ok; [exact E|]. destruct (take_slot_ok b' t' f' s' key (fi_offset info) w3 TI' Hp Hfr Hff) as (t'' & Et & PR); [done|].
    eapply wp_ok; [exact Et|]. exists b', f', s'. cbn [fst snd]. destruct PR. split; try done; try congruence; intros k v; by rewrite pr_cont0. }
  destruct (decide (nfull b f < 2 ^ b - 1)) as [Hn|Hn].
  - destruct (find_first_ok ndebug counter_addr b Hb (ctrl_ t) f CO (ctrl_addr t) (key_hash key) w (free_exists b f Hb (c_bytes _ _ _ _ C) Hn)) as (info & w' & E & _ & Hp & Hfr & Hff).
    rewrite Ec. eapply wp_bind_ok; [exact E|]. set (c := if growth_left_ t =? 0 then f (fi_offset info) else 0).
    eapply wp_bind_ok; [instantiate (1 := w'); instantiate (1 := c); unfold c; destruct (growth_left_ t =? 0); [by rewrite (get_slot_byte b Hb _ _ CO _ Hp)|done]|].
    cbv beta. destruct ((growth_left_ t =? 0) && negb (CWISS_IsDeleted c)) eqn:Eq; [apply Hrehash|].
    destruct (take_slot_ok b t f s key (fi_offset info) w' TI Hp Hfr Hff) as (t'' & Et & PR); [|eapply wp_ok; [exact Et|]; by exists b, f, s].
    intros Ee. unfold c in Eq. destruct (Z.eqb_spec (growth_left_ t) 0); [|lia]. rewrite Ee in Eq. done.
  - assert (2 ^ b < W) as Hs. { destruct (decide (2 ^ b < W)); [done|]. assert (W <= 2 ^ b) as Hl by lia. pose proof (growth_large b Hb Hl). lia. }
    rewrite (growth_small b Hb Hs) in *. rewrite Ec. destruct (find_first_small ndebug counter_addr b Hb (ctrl_ t) f CO (ctrl_addr t) (key_hash key) w Hs) as (info & E & Hq).
    eapply wp_bind_ok; [exact E|]. rewrite (proj2 (Z.eqb_eq (growth_left_ t) 0)) by lia. pose proof width_bounds.
    eapply wp_bind_ok; [rewrite (get_byte b (ctrl_ t) f CO) by lia; done|]. cbv beta. cbn [andb].
    assert (CWISS_IsDeleted (raw_byte b f (fi_offset info)) = false) as ->; [|apply Hrehash].
    unfold raw_byte. destruct (Z.ltb_spec (fi_offset info) (2 ^ b - 1)); [|rewrite (proj2 (Z.eqb_eq _ _)) by lia; done].
    apply not_true_iff_false. intros Hd. assert (0 < ndel b f); [|lia]. pose proof (counts_upd b Hb f (fi_offset info) 0 ltac:(lia)) as [_ F]. rewrite Hd in F.
    change (CWISS_IsDeleted 0) with false in F. cbn [Z.b2z] in F.
    pose proof (counts_bound b (upd_at f (fi_offset info) 0) Hb (slot_bytes_upd b f _ 0 (c_bytes _ _ _ _ C) ltac:(right; right; done))) as (_ & ? & _). lia.
Qed.

(** [CWISS_RawTable_insert] *)
Lemma insert_ok b t f s e w : tinv b t f s →
  wp (CWISS_RawTable_insert malloc counter_addr ndebug e t) w (λ r _, ∃ b' f' s' p, tinv b' r.1 f' s' ∧ r.2.1 = Some p ∧ has_key b' f' s' e.1 p ∧
    (r.2.2 = true ↔ ∀ v, ¬ cont b f s e.1 v) ∧ size_ r.1 = size_ t + (if r.2.2 then 1 else 0) ∧
    ∀ k v, cont b' f' s' k v ↔ (r.2.2 = true ∧ (k, v) = e) ∨ cont b f s k v).
Proof.
  intros TI. unfold CWISS_RawTable_insert, CWISS_RawTable_FindOrPrepareInsert. cbv zeta. apply wp_bind.
  destruct (probe_ok ndebug b t f s e.1 w TI) as (r & E & Hr). eapply wp_bind_ok; [exact E|]. destruct r as [p|].
  - apply wp_ret. cbn [pi_inserted pi_index]. eapply wp_bind_ok; [done|]. destruct Hr as (Hp & Hf & v & Hv).
    eapply wp_bind_ok; [by apply (iter_at_full b t f s)|]. apply wp_ret. cbn [fst snd]. exists b, f, s, p. split_and!; [done|done|unfold has_key; by eauto| |lia|naive_solver].
    split; [done|]. intros Hn. exfalso. apply (Hn v). by exists p.
  - apply wp_bind. eapply wp_mono; [by apply (prepare_insert_ok b t f s)|]. intros [t' p] w' (b' & f' & s' & [Hb' Ec' Hp Hfr Hff C' CO' SO' Es En Eg Hrm Hct]). cbn [fst snd] in *.
    apply wp_ret. cbn [pi_inserted pi_index]. destruct (write_slot_step b' t' s' p (Some e) w' SO' Hp) as (sl & Ew & SO''). eapply wp_bind_ok; [exact Ew|].
    assert (∀ i, ¬ has_key b' f' s' e.1 i) as Habs.
    { intros i (Hi & Hfi & v & Hv). assert (cont b f s e.1 v) as (q & ? & ? & ?) by (apply Hct; by exists i). apply (Hr q). unfold has_key. eauto. }
    destruct (place_counts b' Hb' f' p e Hp Hfr) as [F1 F2].
    assert (tinv b' (with_slots sl t') (upd_at f' p (CWISS_H2 (key_hash e.1))) (upd_at s' p (Some e))) as TI'.
    { split; cbn [with_slots capacity_ ctrl_ slots_ ctrl_addr size_ growth_left_]; try done; [by apply place_core|lia|lia|lia]. }
    assert (has_key b' (upd_at f' p (CWISS_H2 (key_hash e.1))) (upd_at s' p (Some e)) e.1 p) as Hk by (apply place_has; [done|done|by left]).
    eapply wp_bind_ok; [apply (iter_at_full _ _ _ _ _ _ TI'); [done|apply Hk]|]. apply wp_ret. cbn [fst snd]. eexists b', _, _, p. split_and!; [exact TI'|done|done| |done|].
    + split; [|done]. intros _ v (q & ? & ? & ?). apply (Hr q). unfold has_key. eauto.
    + intros k v. rewrite place_cont by done. rewrite Hct. naive_solver.
Qed.

(** ** Tables as maps *)

Definition agrees (b : Z) (f : Z → Z) (s : Z → option (K * V)) (m : gmap K V) : Prop := ∀ k v, m !! k = Some v ↔ cont b f s k v.

Definition represents (t : RawTable) (m : gmap K V) : Prop :=
  size_ t = Z.of_nat (size m) ∧ ∃ b f s, tinv b t f s ∧ agrees b f s m.

Lemma agrees_absent b f s m k : agrees b f s m → m !! k = None ↔ ∀ v, ¬ cont b f s k v.
Proof.
  intros Ha. split.
  - intros E v Hc%Ha. congruence.
  - intros Hn. destruct (m !! k) as [v|] eqn:E; [|done]. by apply Ha, Hn in E.
Qed.

(** The table without slots is empty. *)
Lemma empty_represents : represents (empty_table empty_group) ∅.
Proof.
  pose proof width_bounds. assert (growth_of (2 ^ 0 - 1) = 0) as Eg by (unfold growth_of; change (2 ^ 0 - 1) with 0; by rewrite andb_false_r).
  split; [done|]. exists 0, (λ _, CWISS_kEmpty), (λ _, None). split.
  - split; cbn [empty_table capacity_ ctrl_ slots_ ctrl_addr size_ growth_left_]; [lia|done| |split; [done|simpl; lia]|apply fresh_core; lia|done|by rewrite Eg|by rewrite Eg].
    split; [simpl; lia|simpl; lia|]. intros j Hj. change (2 ^ 0) with 1 in *. unfold raw_byte. change (2 ^ 0) with 1. rewrite (proj2 (Z.ltb_ge j _)) by lia.
    destruct (Z.eqb_spec j (1 - 1)) as [->|]; [done|]. rewrite (proj2 (Z.ltb_ge j _)) by lia. unfold CWISS_EmptyGroup.
    replace (Z.to_nat j) with (S (Z.to_nat (j - 1))) by lia. cbn [lookup list_lookup]. apply lookup_replicate_2. lia.
  - intros k v. split; [by rewrite lookup_empty|]. intros (i & Hi & _). simpl in Hi. lia.
Qed.

(** [CWISS_RawTable_insert] adds an entry with a new key, and points to the entry with the key. *)
Lemma insert_represents t m e w : represents t m →
  wp (CWISS_RawTable_insert malloc counter_addr ndebug e t) w (λ r _, ∃ p v, r.2.1 = Some p ∧ r.2.2 = bool_decide (m !! e.1 = None) ∧
    let m' := if r.2.2 then <[e.1 := e.2]> m else m in m' !! e.1 = Some v ∧ represents r.1 m' ∧
    ∃ b f s, tinv b r.1 f s ∧ agrees b f s m' ∧ 0 <= p < 2 ^ b - 1 ∧ is_full (f p) ∧ s p = Some (e.1, v)).
Proof.
  intros (Hsz & b & f & s & TI & Ha). eapply wp_mono; [by apply (insert_ok b t f s)|]. intros [t' [it ins]] w' (b' & f' & s' & p & TI' & Eit & (Hp & Hf & v & Hv) & Hins & Hs & Hc).
  cbn [fst snd] in *. exists p, v. split; [done|].
  assert (ins = bool_decide (m !! e.1 = None)) as Eins.
  { destruct (decide (m !! e.1 = None)) as [E|E].
    - rewrite bool_decide_true by done. apply Hins. by apply (agrees_absent b f s m).
    - rewrite bool_decide_false by done. destruct ins; [|done]. exfalso. apply E, (agrees_absent b f s m); [done|]. by apply Hins. }
  split; [done|]. cbv zeta. assert (agrees b' f' s' (if ins then <[e.1 := e.2]> m else m)) as Ha'.
  { intros k u. rewrite Hc, <- (Ha k u). destruct ins; [|naive_solver]. destruct (decide (k = e.1)) as [->|Hn].
    - rewrite lookup_insert_eq. symmetry in Eins. apply bool_decide_eq_true in Eins. rewrite Eins. destruct e. naive_solver.
    - rewrite lookup_insert_ne by done. destruct e. naive_solver. }
  assert (represents t' (if ins then <[e.1 := e.2]> m else m)) as Hr.
  { split; [|by exists b', f', s']. rewrite Hs, Hsz. destruct ins; [|lia]. symmetry in Eins. apply bool_decide_eq_true in Eins. rewrite map_size_insert_None by done. lia. }
  split_and!; [|done|]; [apply Ha'; by exists p|]. exists b', f', s'. split_and!; [done|done|lia|lia|done|done].
Qed.

(** [CWISS_RawTable_erase] *)
Lemma erase_represents t m k w : represents t m →
  ∃ t', CWISS_RawTable_erase ndebug k t w = COk (t', bool_decide (is_Some (m !! k))) w ∧ represents t' (delete k m).
Proof.
  intros (Hsz & b & f & s & TI & Ha). destruct (erase_ok ndebug b t f s k w TI) as (t' & r & f' & s' & E & TI' & Hr & Hs & Hc). exists t'.
  assert (r = bool_decide (is_Some (m !! k))) as Er.
  { destruct r; symmetry; [apply bool_decide_eq_true|apply bool_decide_eq_false].
    - destruct (proj1 Hr eq_refl) as [v Hv%Ha]. eauto.
    - intros [v Hv%Ha]. discriminate (proj2 Hr (ex_intro _ v Hv)). }
  rewrite <- Er. split; [done|]. split.
  - rewrite Hs, Hsz. destruct r; symmetry in Er; [apply bool_decide_eq_true in Er|apply bool_decide_eq_false in Er].
    + destruct Er as [v Hv]. rewrite map_size_delete, Hv. assert (size m ≠ 0%nat); [|lia]. intros E0%map_size_empty_inv. subst m. by rewrite lookup_empty in Hv.
    + rewrite delete_id by (by apply eq_None_not_Some). lia.
  - exists b, f', s'. split; [done|]. intros k' v'. rewrite Hc, <- (Ha k' v'). destruct (decide (k' = k)) as [->|Hn]; [rewrite lookup_delete_eq; naive_solver|].
    rewrite lookup_delete_ne by done. naive_solver.
Qed.

(** [CWISS_RawTable_find] and what its iterator points to. *)
Lemma find_represents t m k w : represents t m →
  ∃ it, CWISS_RawTable_find ndebug t k w = COk it w ∧ CWISS_RawIter_get t it w = COk ((λ v, (k, v)) <$> m !! k) w.
Proof.
  intros (Hsz & b & f & s & TI & Ha). destruct (find_ok ndebug b t f s k w TI) as (it & E & Hit). exists it. split; [done|]. destruct it as [p|].
  - destruct Hit as (Hp & Hf & v & Hv). rewrite (proj2 (Ha k v)) by (by exists p). by apply (iter_get_ok b t f s).
  - rewrite (proj2 (agrees_absent b f s m k Ha)); [done|]. intros v (q & ? & ? & ?). apply (Hit q). unfold has_key. eauto.
Qed.

(** Writing the value of the entry that an iterator points to. *)
Lemma set_value_represents t m b f s p k v v' w : represents t m → tinv b t f s → agrees b f s m → 0 <= p < 2 ^ b - 1 → is_full (f p) → s p = Some (k, v) →
  ∃ t', write_slot p (Some (k, v')) t w = COk t' w ∧ represents t' (<[k := v']> m).
Proof.
  intros [Hsz _] TI Ha Hp Hf Hv. destruct (set_value_ok b t f s p k v v' w TI Hp Hf Hv) as (sl & E & TI'). eexists. split; [exact E|].
  assert (m !! k = Some v) as Hm by (apply Ha; by exists p). split.
  - cbn [with_slots size_]. rewrite Hsz, map_size_insert_Some; [done|by rewrite Hm].
  - exists b, f, (upd_at s p (Some (k, v'))). split; [done|]. intros k' u. unfold cont. destruct (decide (k' = k)) as [->|Hn].
    + rewrite lookup_insert_eq. split.
      * intros [= ->]. exists p. by rewrite upd_at_eq.
      * intros (q & Hq & Hfq & Hvq). destruct (decide (q = p)) as [->|Hqp]; [rewrite upd_at_eq in Hvq; by injection Hvq as ->|].
        rewrite upd_at_ne in Hvq by done. exfalso. apply Hqp, (c_uniq _ _ _ _ (ti_core _ _ _ _ TI) q p k); unfold has_key; eauto.
    + rewrite lookup_insert_ne by done. rewrite (Ha k' u). split; intros (q & Hq & Hfq & Hvq); exists q; (split_and!; [lia..|done|]).
      * rewrite upd_at_ne; [done|]. intros ->. rewrite Hv in Hvq. by injection Hvq.
      * destruct (decide (q = p)) as [->|Hqp]; [rewrite upd_at_eq in Hvq; by injection Hvq|]. by rewrite upd_at_ne in Hvq.
Qed.

(** The entries in the order of the slots. *)
Lemma entries_represents b f s m addr : core b addr f s → 0 <= b → agrees b f s m → entries b f s 0 ≡ₚ map_to_list m.
Proof.
  intros C Hb Ha. pose proof (entries_keys_NoDup b addr f s 0 C ltac:(lia)) as Hn. apply NoDup_Permutation.
  - by eapply NoDup_fmap_1.
  - apply NoDup_map_to_list.
  - intros [k v]. rewrite elem_of_entries by (apply C || lia). rewrite elem_of_map_to_list, (Ha k v). done.
Qed.

End map.
