(* ===== verification/HtCwiss.v ===== *)
(** * The maps on the open-addressing table ([src/ht_cwiss.inc.c], [src/ht_pu.c],
    [src/ht_su.c], [src/ht_uu.c])

    [HtPU], [HtSU] and [HtUU] map pointers, strings and numbers to 64-bit numbers.  They
    share the included file, which is translated over an arbitrary key type with its
    [Policy]; the policies of the three are at the end of the definitions.  The theorems say that they
    are finite maps. *)

From S2P Require Import Prelude CwBits CwGroup CwHash CwTable CwProbe CwSearch CwInv CwOps CwIter CwGrow CwRehash CwMap.

(** ** The shared operations *)

Section ht.
Context `{GroupOps} {K : Type} `{Policy K Z}.
Context (malloc : nat → Z → option Z) (empty_group counter_addr : Z) (ndebug : bool).
Local Abbreviation HT := (CWISS_RawTable K Z).

(** [calloc] says whether the handle was allocated. *)
Definition HT_new0 (calloc : bool) : CW (option HT) :=
  if calloc then t ← CWISS_RawTable_new malloc empty_group ndebug 0; mret (Some t) else mret None.

(** The entries whose keys are released. *)
Definition HT_free (hm : option HT) : CW (list (K * Z)) :=
  match hm with
  | Some t => '(_, es) ← CWISS_RawTable_DestroySlots empty_group ndebug t; mret es
  | None => mret []
  end.

Definition HT_insert (key : K) (value : Z) (hm : HT) : CW (HT * bool) :=
  '(hm, (_, inserted)) ← CWISS_RawTable_insert malloc counter_addr ndebug (key, value) hm;
  mret (hm, inserted).

Definition HT_update (key : K) (value : Z) (hm : HT) : CW (HT * bool) :=
  '(hm, (iter, inserted)) ← CWISS_RawTable_insert malloc counter_addr ndebug (key, value) hm;
  if (inserted : bool) then mret (hm, true)
  else
    existing ← CWISS_RawIter_get hm iter;
    p ← lift iter;
    e ← lift existing;
    hm ← write_slot p (Some (e.1, value)) hm;
    mret (hm, true).

Definition HT_update_key (old_key new_key : K) (hm : HT) : CW (HT * bool) :=
  iter ← CWISS_RawTable_find ndebug hm old_key;
  entry ← CWISS_RawIter_get hm iter;
  match entry with
  | None => mret (hm, false)
  | Some entry =>
      if key_eq old_key new_key then mret (hm, true)
      else
        '(hm, (_, inserted)) ← CWISS_RawTable_insert malloc counter_addr ndebug (new_key, entry.2) hm;
        if negb inserted then mret (hm, false)
        else CWISS_RawTable_erase ndebug old_key hm
  end.

Definition HT_delete (key : K) (hm : HT) : CW (HT * bool) := CWISS_RawTable_erase ndebug key hm.

(** The value and [*found]. *)
Definition HT_find (hm : HT) (key : K) : CW (Z * bool) :=
  iter ← CWISS_RawTable_find ndebug hm key;
  entry ← CWISS_RawIter_get hm iter;
  match entry with None => mret (0, false) | Some e => mret (e.2, true) end.

(** The callback takes and returns the state [U] behind [user], and says whether to go on. *)
Fixpoint HT_foreach_loop {U : Type} (fuel : nat) (cb : U → K → Z → U * bool) (hm : HT) (user : U) (iter : CWISS_RawIter) : CW U :=
  match fuel with
  | O => no_fuel
  | S fuel' =>
      entry ← CWISS_RawIter_get hm iter;
      match entry with
      | None => mret user
      | Some e =>
          let '(user, go) := cb user e.1 e.2 in
          if go then '(iter, _) ← CWISS_RawIter_next hm iter; HT_foreach_loop fuel' cb hm user iter else mret user
      end
  end.

Definition HT_foreach {U : Type} (hm : HT) (cb : U → K → Z → U * bool) (user : U) : CW U :=
  iter ← CWISS_RawTable_iter hm; HT_foreach_loop (S (Z.to_nat (capacity_ hm))) cb hm user iter.

(** *** Programs: the operations in any order, with their results *)

Inductive ht_op := OInsert (k : K) (v : Z) | OUpdate (k : K) (v : Z) | OUpdateKey (k k' : K) | ODelete (k : K) | OFind (k : K).
Inductive ht_res := RDone (b : bool) | RFound (v : Z) (b : bool).

Definition ht_step (op : ht_op) (hm : HT) : CW (HT * ht_res) :=
  match op with
  | OInsert k v => '(hm, r) ← HT_insert k v hm; mret (hm, RDone r)
  | OUpdate k v => '(hm, r) ← HT_update k v hm; mret (hm, RDone r)
  | OUpdateKey k k' => '(hm, r) ← HT_update_key k k' hm; mret (hm, RDone r)
  | ODelete k => '(hm, r) ← HT_delete k hm; mret (hm, RDone r)
  | OFind k => '(v, r) ← HT_find hm k; mret (hm, RFound v r)
  end.

Fixpoint ht_run (ops : list ht_op) (hm : HT) : CW (HT * list ht_res) :=
  match ops with
  | [] => mret (hm, [])
  | op :: ops => '(hm, r) ← ht_step op hm; '(hm, rs) ← ht_run ops hm; mret (hm, r :: rs)
  end.

(** A program from its beginning to its end: a new table, [ops], a walk over the table, and its release. *)
Definition ht_session {U : Type} (ops : list ht_op) (cb : U → K → Z → U * bool) (user : U) : CW (list ht_res * U * list (K * Z)) :=
  hm ← HT_new0 true;
  hm ← lift hm;
  '(hm, rs) ← ht_run ops hm;
  user ← HT_foreach hm cb user;
  released ← HT_free (Some hm);
  mret (rs, user, released).

(** *** The same on finite maps *)

Context `{Countable K}.

Definition map_step (op : ht_op) (m : gmap K Z) : gmap K Z * ht_res :=
  match op with
  | OInsert k v => if decide (m !! k = None) then (<[k := v]> m, RDone true) else (m, RDone false)
  | OUpdate k v => (<[k := v]> m, RDone true)
  | OUpdateKey k k' =>
      match m !! k with
      | None => (m, RDone false)
      | Some v => if decide (k = k') then (m, RDone true) else if decide (m !! k' = None) then (delete k (<[k' := v]> m), RDone true) else (m, RDone false)
      end
  | ODelete k => (delete k m, RDone (bool_decide (is_Some (m !! k))))
  | OFind k => (m, match m !! k with Some v => RFound v true | None => RFound 0 false end)
  end.

Fixpoint map_run (ops : list ht_op) (m : gmap K Z) : gmap K Z * list ht_res :=
  match ops with
  | [] => (m, [])
  | op :: ops => let '(m, r) := map_step op m in let '(m, rs) := map_run ops m in (m, r :: rs)
  end.

(** What a walk over the list [es] leaves of the callback's state. *)
Fixpoint visit {U : Type} (cb : U → K → Z → U * bool) (user : U) (es : list (K * Z)) : U :=
  match es with
  | [] => user
  | e :: es => let '(user, go) := cb user e.1 e.2 in if go then visit cb user es else user
  end.

End ht.

(** ** The three key types *)

(** A 64-bit number; [HtPU] has pointers, which are 64-bit numbers too. *)
Definition ut64 : Type := dsig (λ z : Z, 0 <= z < 2 ^ 64).

Lemma u64_in z : 0 <= u64 z < 2 ^ 64.
Proof. apply Z.mod_pos_bound. lia. Qed.

(** A number as a key: the conversion to [ut64]. *)
Definition u64_key (z : Z) : ut64 := dexist (u64 z) (u64_in z).

(** The bytes of a 64-bit number in memory, on a little-endian machine. *)
Definition key_bytes (k : ut64) : bytes := (λ i, u8 (Z.shiftr (proj1_sig k) (8 * Z.of_nat i))) <$> seq 0 8.

Section policies.
Context (use_128_mix : bool) (kSeed : Z).

Definition HashMap_default_hash (val : bytes) : Z :=
  CWISS_AbslHash_Finish (default 0 (CWISS_AbslHash_Write use_128_mix kSeed (CWISS_AbslHash_kInit kSeed) val)).
Definition HashMap_default_eq (a b : bytes) : bool := bool_decide (a = b).

(** [CWISS_DECLARE_FLAT_HASHMAP_DEFAULT] for [HtPU_] and [HtUU_] *)
Definition default_policy : Policy ut64 Z := {|
  key_hash k := HashMap_default_hash (key_bytes k);
  key_eq a b := HashMap_default_eq (key_bytes a) (key_bytes b)
|}.

End policies.

Definition string_hash (str : bytes) : Z := default 0 (CWISS_FxHash_Write 0 str).
Definition string_eq (a b : bytes) : bool := strcmp a b =? 0.

(** [CWISS_DECLARE_FLAT_HASHMAP] for [HtSU_] *)
Definition string_policy : Policy bytes Z := {| key_hash := string_hash; key_eq := string_eq |}.

(** ** The policies compare keys *)

Lemma le_val_of_word n z : 0 <= z → le_val ((λ i : nat, u8 (Z.shiftr z (8 * Z.of_nat i))) <$> seq 0 n) = z mod 256 ^ Z.of_nat n.
Proof.
  revert z. induction n as [|n IH]; intros z Hz; [by rewrite Z.mod_1_r|]. cbn [seq]. rewrite fmap_cons. cbn [le_val].
  assert ((λ i : nat, u8 (Z.shiftr z (8 * Z.of_nat i))) <$> seq 1 n = (λ i : nat, u8 (Z.shiftr (z / 256) (8 * Z.of_nat i))) <$> seq 0 n) as E.
  { rewrite <- (fmap_S_seq 0 n), <- list_fmap_compose. apply list_fmap_ext. intros i x _. cbn [compose]. change 256 with (2 ^ 8).
    rewrite <- Z.shiftr_div_pow2, Z.shiftr_shiftr by lia. do 2 f_equal. lia. }
  rewrite E, IH by (apply Z.div_pos; lia).
  change (8 * Z.of_nat 0) with 0. rewrite Z.shiftr_0_r, Nat2Z.inj_succ, Z.pow_succ_r by lia. rewrite Z.rem_mul_r by lia. done.
Qed.

Lemma key_bytes_val k : le_val (key_bytes k) = proj1_sig k.
Proof.
  destruct k as [z Hz]. unfold key_bytes. cbn [proj1_sig]. apply bool_decide_unpack in Hz. rewrite le_val_of_word by lia. apply Z.mod_small. exact Hz.
Qed.

Lemma default_policy_laws use_128_mix kSeed : @PolicyLaws ut64 Z (default_policy use_128_mix kSeed).
Proof.
  split. intros a b. cbn [key_eq default_policy]. unfold HashMap_default_eq. rewrite bool_decide_eq_true. split; [|by intros ->].
  intros E. apply dsig_eq. by rewrite <- !key_bytes_val, E.
Qed.

Lemma string_policy_laws : @PolicyLaws bytes Z string_policy.
Proof. split. intros a b. cbn [key_eq string_policy]. unfold string_eq. rewrite Z.eqb_eq. apply strcmp_eq. Qed.

(** ** The operations act on the map *)

Section facts.
Context `{GroupLaws} {K : Type} `{PolicyLaws K Z} `{Countable K}.
Context (malloc : nat → Z → option Z) (empty_group counter_addr : Z) (ndebug : bool).
Context (Hmalloc : ∀ n size a, malloc n size = Some a → size < 2 ^ 63).
Local Abbreviation HT := (CWISS_RawTable K Z).

Definition acts (op : ht_op) (t : HT) (m : gmap K Z) (w : CwWorld) : Prop :=
  wp (ht_step malloc counter_addr ndebug op t) w (λ r _, represents r.1 (map_step op m).1 ∧ r.2 = (map_step op m).2).

Lemma insert_acts k v t m w : represents t m → acts (OInsert k v) t m w.
Proof.
  intros R. unfold acts, ht_step, HT_insert. do 2 apply wp_bind. eapply wp_mono; [by apply (insert_represents malloc counter_addr ndebug Hmalloc t m)|].
  intros [t' [it ins]] w' (p & u & _ & Ei & _ & R' & _). cbn [fst snd] in *. do 2 apply wp_ret. cbn [fst snd map_step]. subst ins. by case_bool_decide; case_decide.
Qed.

Lemma update_acts k v t m w : represents t m → acts (OUpdate k v) t m w.
Proof.
  intros R. unfold acts, ht_step, HT_update. do 2 apply wp_bind. eapply wp_mono; [by apply (insert_represents malloc counter_addr ndebug Hmalloc t m)|].
  intros [t' [it ins]] w' (p & u & Eit & Ei & Hu & R' & b & f & s & TI & Ha & Hp & Hf & Hs). cbn [fst snd map_step] in *. subst it. destruct ins; [by do 2 apply wp_ret|].
  eapply wp_bind_ok; [by apply (iter_get_ok b t' f s)|]. eapply wp_bind_ok; [done|]. eapply wp_bind_ok; [done|].
  destruct (set_value_represents t' m b f s p k u v w' R' TI Ha Hp Hf Hs) as (t'' & E & R''). eapply wp_bind_ok; [exact E|]. by do 2 apply wp_ret.
Qed.

Lemma delete_acts k t m w : represents t m → acts (ODelete k) t m w.
Proof.
  intros R. unfold acts, ht_step, HT_delete. destruct (erase_represents ndebug t m k w R) as (t' & E & R'). eapply wp_bind_ok; [exact E|]. by apply wp_ret.
Qed.

Lemma find_acts k t m w : represents t m → acts (OFind k) t m w.
Proof.
  intros R. unfold acts, ht_step, HT_find. destruct (find_represents ndebug t m k w R) as (it & E & Eg). apply wp_bind.
  eapply wp_bind_ok; [exact E|]. eapply wp_bind_ok; [exact Eg|]. cbn [map_step fst snd]. by destruct (m !! k).
Qed.

Lemma update_key_acts k k' t m w : represents t m → acts (OUpdateKey k k') t m w.
Proof.
  intros R. unfold acts, ht_step, HT_update_key. destruct (find_represents ndebug t m k w R) as (it & E & Eg). apply wp_bind.
  eapply wp_bind_ok; [exact E|]. eapply wp_bind_ok; [exact Eg|]. cbn [map_step]. destruct (m !! k) as [v|] eqn:Ek; [|by do 2 apply wp_ret]. cbn [fmap option_fmap option_map].
  destruct (key_eq k k') eqn:Eq.
  { apply key_eq_spec in Eq as ->. rewrite decide_True by done. by do 2 apply wp_ret. }
  assert (k ≠ k') as Hne. { intros ->. assert (key_eq k' k' = true) by (by apply key_eq_spec). congruence. }
  rewrite decide_False by done. apply wp_bind. eapply wp_mono; [by apply (insert_represents malloc counter_addr ndebug Hmalloc t m)|].
  intros [t' [it' ins]] w' (p & u & _ & Ei & _ & R' & _). cbn [fst snd] in *. subst ins. case_bool_decide as Hn; cbn [negb].
  - rewrite decide_True by done. destruct (erase_represents ndebug t' (<[k' := v]> m) k w' R') as (t'' & E' & R''). eapply wp_ok; [exact E'|]. apply wp_ret. cbn [fst snd].
    split; [done|]. by rewrite lookup_insert_ne, Ek.
  - rewrite decide_False by done. by do 2 apply wp_ret.
Qed.

Lemma ht_step_acts op t m w : represents t m → acts op t m w.
Proof. destruct op; [apply insert_acts|apply update_acts|apply update_key_acts|apply delete_acts|apply find_acts]. Qed.

Lemma ht_run_acts ops t m w : represents t m →
  wp (ht_run malloc counter_addr ndebug ops t) w (λ r _, represents r.1 (map_run ops m).1 ∧ r.2 = (map_run ops m).2).
Proof.
  revert t m w. induction ops as [|op ops IH]; intros t m w R; cbn [ht_run map_run]; [by apply wp_ret|].
  apply wp_bind. eapply wp_mono; [by apply ht_step_acts|]. intros [t' r] w' [R' Er]. cbn [fst snd] in *. apply wp_bind. eapply wp_mono; [by apply IH|].
  intros [t'' rs] w'' [R'' Ers]. apply wp_ret. cbn [fst snd] in *. destruct (map_step op m) as [m' r'], (map_run ops m') as [m'' rs'] eqn:Em. cbn [fst snd] in *. rewrite Em in *. by subst.
Qed.

(** *** Walking over the entries and releasing them *)

Lemma foreach_loop_ok {U : Type} (cb : U → K → Z → U * bool) b t f s fuel p it user w :
  tinv b t f s → 0 <= p <= 2 ^ b - 1 → next_full b f p it → 2 ^ b - 1 - p < Z.of_nat fuel →
  HT_foreach_loop fuel cb t user it w = COk (visit cb user (entries b f s p)) w.
Proof.
  intros TI. revert p it user. induction fuel as [|fuel IH]; intros p it user Hp Hit Hf; [lia|]. cbn [HT_foreach_loop].
  pose proof (iter_get_next b t f s p it w TI Hp Hit) as Hn. destruct it as [q|].
  - destruct Hn as (Hq & e & He & Eg & it' & o & En & Hit'). rewrite He. cbn [visit]. rewrite (cw_bind_ok _ _ _ _ _ Eg). destruct (cb user e.1 e.2) as [user' go].
    destruct go; [|done]. rewrite (cw_bind_ok _ _ _ _ _ En). destruct Hit as (Hpq & _). apply IH; (done || lia).
  - destruct Hn as [Eg He]. rewrite He. by rewrite (cw_bind_ok _ _ _ _ _ Eg).
Qed.

Lemma foreach_ok {U : Type} (cb : U → K → Z → U * bool) t m user w : represents t m →
  ∃ es, es ≡ₚ map_to_list m ∧ HT_foreach t cb user w = COk (visit cb user es) w.
Proof.
  intros (_ & b & f & s & TI & Ha). pose proof (ti_b _ _ _ _ TI) as Hb. pose proof (ring_le b Hb). exists (entries b f s 0).
  split; [eapply entries_represents; [apply TI|lia|done]|]. destruct (iter_ok b t f s 0 w TI ltac:(lia)) as (it & _ & E & Hit).
  unfold HT_foreach, CWISS_RawTable_iter. rewrite (cw_bind_ok _ _ _ _ _ E). rewrite (ti_cap _ _ _ _ TI). apply (foreach_loop_ok cb b t f s); (done || lia).
Qed.

Lemma del_slots_ok b t f s n p w : tinv b t f s → 0 <= p → p + Z.of_nat n = 2 ^ b - 1 →
  del_slots t (seqZ p (Z.of_nat n)) w = COk (entries b f s p) w.
Proof.
  intros TI. pose proof (ti_b _ _ _ _ TI) as Hb. revert p. induction n as [|n IH]; intros p Hp En; [by rewrite entries_end by lia|].
  rewrite seqZ_cons by lia. replace (Z.pred (Z.of_nat (S n))) with (Z.of_nat n) by lia. cbn [del_slots]. unfold mbind at 1, CW_bind at 1.
  rewrite (get_slot_byte b Hb _ _ (ti_ctrl _ _ _ _ TI)) by lia. cbn [lift]. rewrite entries_step by lia. unfold Z.succ. destruct (CWISS_IsFull (f p)) eqn:Ef; [|apply IH; lia].
  pose proof (proj1 (is_full_spec _ (c_bytes _ _ _ _ (ti_core _ _ _ _ TI) p ltac:(lia))) Ef) as Hf.
  destruct (c_full _ _ _ _ (ti_core _ _ _ _ TI) p ltac:(lia) Hf) as (e & He & _). rewrite He.
  rewrite (cw_bind_ok _ _ _ _ _ (read_slot_ok b t s (ti_slots _ _ _ _ TI) p e w ltac:(lia) He)). by rewrite (cw_bind_ok _ _ _ _ _ (IH (p + 1) ltac:(lia) ltac:(lia))).
Qed.

Lemma ht_free_ok t m w : represents t m → ∃ es, es ≡ₚ map_to_list m ∧ HT_free empty_group ndebug (Some t) w = COk es w.
Proof.
  intros (_ & b & f & s & TI & Ha). pose proof (ti_b _ _ _ _ TI) as Hb. pose proof (ring_le b Hb). exists (entries b f s 0).
  split; [eapply entries_represents; [apply TI|lia|done]|]. unfold HT_free, CWISS_RawTable_DestroySlots. rewrite (ti_cap _ _ _ _ TI).
  destruct (Z.eqb_spec (2 ^ b - 1) 0) as [E0|E0]; [rewrite entries_end by lia; done|].
  pose proof (del_slots_ok b t f s (Z.to_nat (2 ^ b - 1)) 0 w TI ltac:(lia) ltac:(lia)) as Ed. rewrite Z2Nat.id in Ed by lia.
  assert (1 <= b) by (destruct (decide (b = 0)) as [->|]; [done|lia]).
  destruct (alloc_size_ok ndebug b w ltac:(lia)) as (n & Ea & _). unfold mbind, CW_bind. by rewrite Ed, Ea.
Qed.

End facts.

(** ** Runs *)

(** A heap that never gives memory back, with blocks far apart. *)
Definition bump (n : nat) (size : Z) : option Z := if size <? 2 ^ 63 then Some (4096 * (3 + 7 * Z.of_nat n)) else None.

Lemma bump_size n size a : bump n size = Some a → size < 2 ^ 63.
Proof. unfold bump. destruct (Z.ltb_spec size (2 ^ 63)); [done|discriminate]. Qed.

(** The keys [a..] and then, when [m] of them are deleted, the keys [b..]: the table grows, and is then cleaned up in place. *)
Definition churn {K : Type} (a b : nat → K) (n m : nat) : list (@ht_op K) :=
  ((λ i, OInsert (a i) (Z.of_nat i)) <$> seq 1 n) ++ ((λ i, ODelete (a i)) <$> seq 1 m) ++
  ((λ i, OUpdate (b i) (Z.of_nat i)) <$> seq 1 m) ++ ((λ i, OFind (a i)) <$> seq 1 n) ++ [OUpdateKey (b 1%nat) (a 1%nat); OFind (a 1%nat)].

Definition collect {K : Type} (l : list Z) (k : K) (v : Z) : list Z * bool := (v :: l, true).

(** On a big-endian machine without vector registers, the clean-up reverses the control bytes of the table, and a later call reads a slot that is empty. *)
Theorem cw_big_endian_faults :
  @ht_session (Word8.group true) bytes string_policy bump 4096 8192 false _ (churn (λ i, str "key" ++ [Z.of_nat i]) (λ i, str "again" ++ [Z.of_nat i]) 14 13) collect [] (mkWorld 0 0) = CFault.
Proof. vm_compute. reflexivity. Qed.

Definition done_by {A} (r : cres A) : bool := match r with COk _ _ => true | _ => false end.

Lemma done_by_result {K U : Type} `{Countable K} (run : gmap K Z * list ht_res) (r : cres (list ht_res * U * list (K * Z))) (Q : gmap K Z → U → Prop) : done_by r = true →
  (let '(m, rs) := run in match r with
   | COk (rs', user', es) _ => rs' = rs ∧ Q m user' ∧ es ≡ₚ map_to_list m
   | CNoMem => True
   | CFault | CAbort | CNoFuel => False
   end) →
  ∃ rs user es w, r = COk (rs, user, es) w ∧ rs = run.2 ∧ es ≡ₚ map_to_list run.1.
Proof. destruct run as [m rs], r as [[[rs' user'] es] w| | | |]; [|done..]. intros _ (-> & _ & Hp). by exists rs, user', es, w. Qed.

(** C5: The tables on open addressing are finite maps. For every group implementation that meets
    [GroupLaws] (by [cw_groups_correct] the vector registers, and the words of 8 bytes on little-
    endian machines; on big-endian machines the words do not and a program faults:
    [cw_big_endian_faults]), whatever the hash function, with an equality of keys that is equality,
    whatever addresses below 2^63 [malloc] gives and whether checks are enabled, every program of
    insert, update, update_key, delete and find answers as the map; a walk sees each entry of the
    final map once, in some order, until the callback stops it; and the release destroys each of
    them once. No program reads or writes outside the arrays of the table, reads an empty slot,
    fails a check or searches forever: it only stops when memory is refused. *)
Theorem cw_ht_refines_map (G : GroupOps) (GL : GroupLaws G) {K : Type} (P : Policy K Z) (PL : PolicyLaws K Z) `{Countable K} (malloc : nat → Z → option Z) (empty_group counter_addr : Z)
  (ndebug : bool) {U : Type} (ops : list ht_op) (cb : U → K → Z → U * bool) (user : U) (w : CwWorld) :
  (∀ n size a, malloc n size = Some a → size < 2 ^ 63) →
  let '(m, rs) := map_run ops ∅ in
  match ht_session malloc empty_group counter_addr ndebug ops cb user w with
  | COk (rs', user', released) _ => rs' = rs ∧ (∃ es, es ≡ₚ map_to_list m ∧ user' = visit cb user es) ∧ released ≡ₚ map_to_list m
  | CNoMem => True
  | CFault | CAbort | CNoFuel => False
  end.
Proof.
  intros Hmalloc. destruct (map_run ops ∅) as [m rs] eqn:E.
  change (wp (ht_session malloc empty_group counter_addr ndebug ops cb user) w (λ r _, let '(rs', user', released) := r in
    rs' = rs ∧ (∃ es, es ≡ₚ map_to_list m ∧ user' = visit cb user es) ∧ released ≡ₚ map_to_list m)).
  unfold ht_session. eapply wp_bind_ok; [done|]. eapply wp_bind_ok; [done|]. apply wp_bind. eapply wp_mono; [by apply (ht_run_acts malloc counter_addr ndebug Hmalloc ops _ ∅), empty_represents|].
  intros [t rs'] w' [R Ers]. rewrite E in *. cbn [fst snd] in *.
  destruct (foreach_ok cb t m user w' R) as (es & Pe & Ef). eapply wp_bind_ok; [exact Ef|].
  destruct (ht_free_ok empty_group ndebug t m w' R) as (es' & Pe' & Efr). eapply wp_bind_ok; [exact Efr|]. apply wp_ret. eauto.
Qed.


Lemma cw_ht_refines_map_witness :
  (let ops := churn (λ i, str "key" ++ [Z.of_nat i]) (λ i, str "again" ++ [Z.of_nat i]) 14 13 in
   ∃ rs user es w, @ht_session (Sse2.group true false) bytes string_policy bump 4096 8192 false _ ops collect [] (mkWorld 0 0) = COk (rs, user, es) w ∧
     rs = (map_run ops ∅).2 ∧ es ≡ₚ map_to_list (map_run ops ∅).1) ∧
  (let ops := churn (λ i, u64_key (Z.of_nat i)) (λ i, u64_key (- Z.of_nat i)) 14 13 in
   ∃ rs user es w, @ht_session (Word8.group false) ut64 (default_policy true 12288) bump 4096 8192 true _ ops collect [] (mkWorld 0 0) = COk (rs, user, es) w ∧
     rs = (map_run ops ∅).2 ∧ es ≡ₚ map_to_list (map_run ops ∅).1).
Proof.
  split; intros ops.
  - pose proof (cw_ht_refines_map (Sse2.group true false) (Sse2.group_laws true false) string_policy string_policy_laws bump 4096 8192 false ops collect [] (mkWorld 0 0) bump_size) as Hr.
    assert (done_by (@ht_session (Sse2.group true false) bytes string_policy bump 4096 8192 false _ ops collect [] (mkWorld 0 0)) = true) as Hd by (vm_cast_no_check (eq_refl true)).
    clearbody ops. exact (done_by_result _ _ (λ m user, ∃ es, es ≡ₚ map_to_list m ∧ user = visit collect [] es) Hd Hr).
  - pose proof (cw_ht_refines_map (Word8.group false) Word8.group_laws (default_policy true 12288) (default_policy_laws _ _) bump 4096 8192 true ops collect [] (mkWorld 0 0) bump_size) as Hr.
    assert (done_by (@ht_session (Word8.group false) ut64 (default_policy true 12288) bump 4096 8192 true _ ops collect [] (mkWorld 0 0)) = true) as Hd by (vm_cast_no_check (eq_refl true)).
    clearbody ops. exact (done_by_result _ _ (λ m user, ∃ es, es ≡ₚ map_to_list m ∧ user = visit collect [] es) Hd Hr).
Defined.
