(* ===== verification/Mc.v ===== *)
(** * The memcache store ([memcache/memcache.c], [memcache/net.c])

    The server keeps a database and counters.  Its operations run those of [SdbCore] and
    [Num] on the database; [None] is a read through a null pointer, which the expirations
    of [SdbCore] can lead to.  The time is the argument [now]. *)

From S2P Require Import Prelude Util Ht HashTables Buffer CdbMake CdbTables Cdb SdbCore Num.

Record McSdb := mkMc {
  ms_sdb : Sdb;
  ms_time : Z;
  ms_gets : Z;
  ms_sets : Z;
  ms_hits : Z;
  ms_misses : Z;
  ms_evictions : Z;
  ms_bread : Z;
  ms_bwrite : Z;
  ms_nfds : Z;
  ms_tfds : Z
}.

(** Field updates. *)
Definition with_sdb (s : Sdb) (m : McSdb) : McSdb :=
  mkMc s (ms_time m) (ms_gets m) (ms_sets m) (ms_hits m) (ms_misses m) (ms_evictions m) (ms_bread m) (ms_bwrite m) (ms_nfds m) (ms_tfds m).
Definition add_counts (g s h mi e br bw : Z) (m : McSdb) : McSdb :=
  mkMc (ms_sdb m) (ms_time m) (u64 (ms_gets m + g)) (u64 (ms_sets m + s)) (u64 (ms_hits m + h)) (u64 (ms_misses m + mi))
    (u64 (ms_evictions m + e)) (u64 (ms_bread m + br)) (u64 (ms_bwrite m + bw)) (ms_nfds m) (ms_tfds m).

Definition MC (A : Type) : Type := McSdb → option (A * McSdb).
#[global] Instance MC_ret : MRet MC := λ A a m, Some (a, m).
#[global] Instance MC_bind : MBind MC := λ A B k f m, match f m with Some (a, m) => k a m | None => None end.

(** A call on the database; one that may read through NULL. *)
Definition on_sdb {A} (f : M A) : MC A := λ m, let '(a, s) := f (ms_sdb m) in Some (a, with_sdb s m).
Definition on_sdb_null {A} (f : M (option A)) : MC A := λ m,
  let '(a, s) := f (ms_sdb m) in match a with Some a => Some (a, with_sdb s m) | None => None end.

Definition count (f : McSdb → McSdb) : MC () := λ m, Some (tt, f m).
Definition gets_inc : MC () := count (add_counts 1 0 0 0 0 0 0).
Definition sets_inc : MC () := count (add_counts 0 1 0 0 0 0 0).
Definition hits_inc : MC () := count (add_counts 0 0 1 0 0 0 0).
Definition misses_inc : MC () := count (add_counts 0 0 0 1 0 0 0).
Definition evictions_inc : MC () := count (add_counts 0 0 0 0 1 0 0).

(** ** The operations *)

(** [s] is the result of [sdb_new], [alloc] that of the allocation. *)
Definition mcsdb_new (now : Z) (s : option Sdb) (alloc : bool) : option McSdb :=
  match s with
  | None => None
  | Some s => if alloc then Some (mkMc s now 0 0 0 0 0 0 0 0 0) else None
  end.

Section operations.
Context (now : Z).

Definition mcsdb_flush : MC () := on_sdb sdb_reset.

Definition mcsdb_incr (key : bytes) (val : Z) : MC (option bytes) :=
  e ← on_sdb (sdb_num_exists now (Some key));
  if negb e then mret None
  else
    r ← on_sdb (sdb_num_inc now (Some key) val 0);
    if r =? 0 then mret None
    else
      _ ← sets_inc;
      v ← on_sdb (sdb_get now (Some key)); mret v.1.

Definition mcsdb_decr (key : bytes) (val : Z) : MC (option bytes) :=
  e ← on_sdb (sdb_num_exists now (Some key));
  if negb e then mret None
  else
    _ ← on_sdb (sdb_num_dec now (Some key) val 0);
    _ ← sets_inc;
    v ← on_sdb (sdb_get now (Some key)); mret v.1.

Definition mcsdb_set (key value : bytes) (exptime cas : Z) : MC bool :=
  ret ← on_sdb (sdb_set now (Some key) (Some value) cas);
  _ ← on_sdb_null (sdb_expire_set now (Some key) exptime cas);
  _ ← sets_inc;
  mret ret.

Definition mcsdb_add (key : bytes) (exptime : Z) (body : bytes) : MC bool :=
  e ← on_sdb (sdb_exists (Some key));
  if negb e then
    _ ← on_sdb (sdb_set now (Some key) (Some body) 0);
    _ ← on_sdb_null (sdb_expire_set now (Some key) exptime 0);
    _ ← sets_inc;
    _ ← hits_inc;
    mret true
  else _ ← misses_inc; mret false.

Definition mcsdb_append (key : bytes) (exptime : Z) (body : bytes) : MC () :=
  a ← on_sdb (sdb_get now (Some key));
  _ ← on_sdb (sdb_set now (Some key) (Some (default [] a.1 ++ body)) 0);
  _ ← on_sdb_null (sdb_expire_set now (Some key) exptime 0);
  sets_inc.

Definition mcsdb_prepend (key : bytes) (exptime : Z) (body : bytes) : MC () :=
  a ← on_sdb (sdb_get now (Some key));
  _ ← on_sdb (sdb_set now (Some key) (Some (body ++ default [] a.1)) 0);
  _ ← on_sdb_null (sdb_expire_set now (Some key) exptime 0);
  sets_inc.

Definition mcsdb_replace (key : bytes) (exptime : Z) (body : bytes) : MC bool :=
  e ← on_sdb (sdb_exists (Some key));
  if (e : bool) then
    _ ← on_sdb (sdb_set now (Some key) (Some body) 0);
    _ ← on_sdb_null (sdb_expire_set now (Some key) exptime 0);
    _ ← sets_inc;
    _ ← hits_inc;
    mret true
  else _ ← misses_inc; mret false.

Definition mcsdb_cas (key value : bytes) (exptime cas : Z) : MC bool := mcsdb_set key value exptime cas.

(** The value, [*exptime] and [*cas]. *)
Definition mcsdb_get (key : bytes) : MC (option bytes * Z * Z) :=
  s ← on_sdb (sdb_get now (Some key));
  _ ← (match s.1 with Some _ => hits_inc | None => misses_inc end);
  _ ← gets_inc;
  e ← on_sdb_null (sdb_expire_get key);
  mret (s.1, e.1, s.2).

Definition mcsdb_remove (key : bytes) (exptime : Z) : MC bool :=
  e ← on_sdb (sdb_exists (Some key));
  if negb e then mret false
  else if 0 <? exptime then _ ← on_sdb_null (sdb_expire_set now (Some key) exptime 0); mret false
  else
    x ← on_sdb_null (sdb_expire_get key);
    _ ← (if 0 <? x.1 then evictions_inc else mret tt);
    on_sdb (sdb_unset now (Some key) 0).

Definition mcsdb_touch (key : bytes) (exptime : Z) : MC bool :=
  e ← on_sdb (sdb_exists (Some key));
  if negb e then mret false else on_sdb_null (sdb_expire_set now (Some key) exptime 0).

End operations.

(** ** The output ([memcache/net.c])

    [netbuf] is what is buffered and [sent] what went to the peer, who may have gone
    ([up] is false); [net_write_all] goes on until all is written. *)

Definition MCSDB_MAX_BUFFER : Z := 4096.

Record NetOut := mkNet { netbuf : bytes; sent : bytes; up : bool }.

Definition net_write_all (buf : bytes) (n : NetOut) : Z * NetOut :=
  if slen buf =? 0 then (0, n) else if up n then (0, mkNet (netbuf n) (sent n ++ buf) (up n)) else (-1, n).

Definition net_flush (n : NetOut) : Z * NetOut :=
  if slen (netbuf n) <? 1 then (0, n)
  else
    let len := slen (netbuf n) in
    let '(r, n) := net_write_all (netbuf n) n in
    (if r <? 0 then -1 else len, mkNet [] (sent n) (up n)).

(** [out] is the formatted text. *)
Definition net_printf (out : bytes) (n : NetOut) : Z * NetOut :=
  let len := slen out in
  if MCSDB_MAX_BUFFER <? len then
    let '(r, n) := net_flush n in
    if r <? 0 then (-1, n) else let '(r, n) := net_write_all out n in if r <? 0 then (-1, n) else (len, n)
  else
    let '(r, n) := if MCSDB_MAX_BUFFER - slen (netbuf n) <? len then net_flush n else (0, n) in
    if r <? 0 then (-1, n) else (len, mkNet (netbuf n ++ out) (sent n) (up n)).
