(* ===== verification/McServer.v ===== *)
(** * The memcache server ([memcache/protocol.c], [memcache/main.c], [memcache/client.c])

    A client of the server is a buffer that the lines and the data are read into, with a
    position and a mode: in mode 0 it waits for a line, in mode 1 for the data of a
    command.  The buffer is raw memory: an access outside of it, or reading a text that
    does not end in it, is [SFault], like a null pointer in the store.  The socket is a
    list of what arrives: [Some p] are bytes, [Some []] the end, [None] an error of [read].
    A [read] gets at most what arrived together; when nothing has arrived the server waits,
    which is the result [SWait]. *)

From S2P Require Import Prelude Util Ht HashTables Buffer CdbMake CdbTables Cdb SdbCore Num JsonIndent Match Mc.

(** ** Commands: the hashes that [memcache/cmds.c] prints into [cmds.h] *)

Definition cmdhash (s : bytes) : Z := sdb_hash s.
Definition MCSDB_CMD_VERSION : Z := cmdhash (str "version").
Definition MCSDB_CMD_VERBOSITY : Z := cmdhash (str "verbosity").
Definition MCSDB_CMD_FLUSH_ALL : Z := cmdhash (str "flush_all").
Definition MCSDB_CMD_APPEND : Z := cmdhash (str "append").
Definition MCSDB_CMD_PREPEND : Z := cmdhash (str "prepend").
Definition MCSDB_CMD_GET : Z := cmdhash (str "get").
Definition MCSDB_CMD_GETS : Z := cmdhash (str "gets").
Definition MCSDB_CMD_INCR : Z := cmdhash (str "incr").
Definition MCSDB_CMD_DECR : Z := cmdhash (str "decr").
Definition MCSDB_CMD_DELETE : Z := cmdhash (str "delete").
Definition MCSDB_CMD_SET : Z := cmdhash (str "set").
Definition MCSDB_CMD_REPLACE : Z := cmdhash (str "replace").
Definition MCSDB_CMD_CAS : Z := cmdhash (str "cas").
Definition MCSDB_CMD_ADD : Z := cmdhash (str "add").
Definition MCSDB_CMD_STATS : Z := cmdhash (str "stats").
Definition MCSDB_CMD_QUIT : Z := cmdhash (str "quit").
Definition MCSDB_CMD_TOUCH : Z := cmdhash (str "touch").

(** ** State *)

(** [c_key] is the text in the array [key]. *)
Record McSdbClient := mkClient {
  c_fd : Z; c_mode : Z; c_len : Z; c_idx : Z; c_next : Z; c_cmdhash : Z; c_buf : bytes; c_exptime : Z; c_key : bytes
}.

Record Srv := mkSrv { v_ms : McSdb; v_c : McSdbClient; v_net : NetOut; v_in : list (option bytes) }.

Inductive sres (A : Type) := SOk (a : A) (s : Srv) | SWait (s : Srv) | SFault.
Arguments SOk {A} _ _.
Arguments SWait {A} _.
Arguments SFault {A}.

Definition SV (A : Type) : Type := Srv → sres A.
#[global] Instance SV_ret : MRet SV := λ A a s, SOk a s.
#[global] Instance SV_bind : MBind SV := λ A B k m s, match m s with SOk a s => k a s | SWait s => SWait s | SFault => SFault end.

Definition sv_lift {A} (o : option A) : SV A := λ s, match o with Some a => SOk a s | None => SFault end.
Definition client : SV McSdbClient := λ s, SOk (v_c s) s.
Definition upd_client (f : McSdbClient → McSdbClient) : SV () := λ s, SOk tt (mkSrv (v_ms s) (f (v_c s)) (v_net s) (v_in s)).
Definition on_ms {A} (f : MC A) : SV A := λ s,
  match f (v_ms s) with Some (a, m) => SOk a (mkSrv m (v_c s) (v_net s) (v_in s)) | None => SFault end.
Definition the_ms : SV McSdb := λ s, SOk (v_ms s) s.
Definition say (t : bytes) : SV () := λ s, SOk tt (mkSrv (v_ms s) (v_c s) (net_printf t (v_net s)).2 (v_in s)).
Definition flush_net : SV Z := λ s, let '(r, n) := net_flush (v_net s) in SOk r (mkSrv (v_ms s) (v_c s) n (v_in s)).

(** Field updates of a client. *)
Definition set_buf (b : bytes) (c : McSdbClient) : McSdbClient :=
  mkClient (c_fd c) (c_mode c) (c_len c) (c_idx c) (c_next c) (c_cmdhash c) b (c_exptime c) (c_key c).
Definition set_pos (mode len idx next : Z) (c : McSdbClient) : McSdbClient :=
  mkClient (c_fd c) mode len idx next (c_cmdhash c) (c_buf c) (c_exptime c) (c_key c).
Definition set_idx (idx : Z) (c : McSdbClient) : McSdbClient := set_pos (c_mode c) (c_len c) idx (c_next c) c.
Definition set_cmd (h : Z) (c : McSdbClient) : McSdbClient :=
  mkClient (c_fd c) (c_mode c) (c_len c) (c_idx c) (c_next c) h (c_buf c) (c_exptime c) (c_key c).
Definition set_exptime (e : Z) (c : McSdbClient) : McSdbClient :=
  mkClient (c_fd c) (c_mode c) (c_len c) (c_idx c) (c_next c) (c_cmdhash c) (c_buf c) e (c_key c).
Definition set_key (k : bytes) (c : McSdbClient) : McSdbClient :=
  mkClient (c_fd c) (c_mode c) (c_len c) (c_idx c) (c_next c) (c_cmdhash c) (c_buf c) (c_exptime c) k.

(** *** The buffer *)

Definition peek (i : Z) : SV Z := c ← client; sv_lift (if i <? 0 then None else c_buf c !! Z.to_nat i).

(** Writing the bytes [l] at [i]. *)
Definition store (i : Z) (l : bytes) : SV () :=
  c ← client;
  if (i <? 0) || (slen (c_buf c) <? i + slen l) then sv_lift None
  else let p := Z.to_nat i in upd_client (set_buf (take p (c_buf c) ++ l ++ drop (p + length l) (c_buf c))).
Definition poke (i x : Z) : SV () := store i [x].

(** The text at [i], and the place of a character in it. *)
Definition text_in (buf : bytes) (i : Z) : option bytes :=
  if (i <? 0) || (slen buf <? i) then None
  else let m := drop (Z.to_nat i) buf in let t := cstr m in if (length t <? length m)%nat then Some t else None.
Definition text (i : Z) : SV bytes := c ← client; sv_lift (text_in (c_buf c) i).
Definition find_chr (i ch : Z) : SV (option Z) :=
  t ← text i; mret ((λ p, i + (slen t - slen p)) <$> strchr t ch).

(** [read] of at most [n] bytes; [None] is -1. *)
Definition sock_read (n : Z) : SV (option bytes) := λ s,
  match v_in s with
  | [] => SWait s
  | Some [] :: _ => SOk (Some []) s
  | Some p :: l =>
      let k := Z.to_nat n in
      SOk (Some (take k p)) (mkSrv (v_ms s) (v_c s) (v_net s) (match drop k p with [] => l | p' => Some p' :: l end))
  | None :: l => SOk None (mkSrv (v_ms s) (v_c s) (v_net s) l)
  end.

(** ** Numbers of the C library *)

(** [%llu] and [%lld] *)
Definition llu (n : Z) : bytes := digits 10 20 n [].
Definition lld (n : Z) : bytes := let i := (n + 2 ^ 63) mod 2 ^ 64 - 2 ^ 63 in (if i <? 0 then [45] else []) ++ digits 10 20 (Z.abs i) [].

(** The digits at the beginning, their value, and the rest; [None] when there is none. *)
Fixpoint scan_digits (s : bytes) (acc : Z) : Z * bytes :=
  match s with
  | c :: s' => match digit_val 10 c with Some d => scan_digits s' (acc * 10 + d) | None => (acc, s) end
  | [] => (acc, [])
  end.
Definition scan_num (s : bytes) : option (bool * Z * bytes) :=
  let '(neg, s) := strtoull_sign (skip_spaces s) in
  match digit_val 10 (hd0 s) with None => None | Some _ => let '(v, s) := scan_digits s 0 in Some (neg, v, s) end.

(** What is stored for [%d] and [%llu]. *)
Definition as_int (neg : bool) (v : Z) : Z := s32 (if neg then Z.max (- v) (- 2 ^ 63) else Z.min v (2 ^ 63 - 1)).
Definition as_llu (neg : bool) (v : Z) : Z := if 2 ^ 64 <=? v then UT64_MAX else if neg then u64 (- v) else v.

(** [sscanf (p, "%d %llu %d", &flags, &exptime, &bytes)]: the number of conversions and the
    values of the last two. *)
Definition scan_header (p : bytes) (exptime : Z) : Z * Z * Z :=
  match scan_num p with
  | None => (if slen (skip_spaces p) =? 0 then -1 else 0, exptime, 0)
  | Some (_, _, p) =>
      match scan_num p with
      | None => (1, exptime, 0)
      | Some (neg, e, p) =>
          match scan_num p with
          | None => (2, as_llu neg e, 0)
          | Some (neg', b, _) => (3, as_llu neg e, as_int neg' b)
          end
      end
  end.

(** [sscanf (p, "%llu", &n)] over the old value, and [strtoull (p, &q, 10)]. *)
Definition scan_llu (p : bytes) (old : Z) : Z := match scan_num p with Some (neg, v, _) => as_llu neg v | None => old end.

Definition CRLF : bytes := [13; 10].
Definition line (s : bytes) : bytes := s ++ CRLF.

(** ** The protocol *)

(** What the system answers for the statistics: the process, and user and system time. *)
Record McEnv := mkEnv { e_now : Z; e_pid : Z; e_user : Z * Z; e_sys : Z * Z }.

Section protocol.
Context (env : McEnv).
Local Abbreviation now := (e_now env).

Fixpoint get_loop (fuel : nat) (smode : bool) (K : Z) : SV () :=
  match fuel with
  | O => sv_lift None
  | S fuel' =>
      k ← find_chr K 32;
      _ ← (match k with Some k => poke k 0 | None => mret tt end);
      key ← text K;
      r ← on_ms (mcsdb_get now key);
      let '(s, exptime, cas) := r in
      _ ← (match s with
           | Some s =>
               _ ← say (if smode then line (str "VALUE " ++ key ++ [32] ++ llu exptime ++ [32] ++ dec_text (slen s) ++ [32] ++ dec_text (s32 cas))
                        else line (str "VALUE " ++ key ++ [32] ++ llu exptime ++ [32] ++ dec_text (slen s)));
               say (line s)
           | None => mret tt
           end);
      match k with Some k => get_loop fuel' smode (k + 1) | None => say (line (str "END")) end
  end.

Definition handle_get (key : option Z) (smode : bool) : SV () :=
  match key with
  | None => say (line (str "ERROR"))
  | Some key => t ← text key; get_loop (S (length t)) smode key
  end.

(** The data of a command has been read. *)
Definition handle_data : SV Z :=
  c ← client;
  _ ← poke (c_len c - 1) 0;
  b ← text 0;
  let h := c_cmdhash c in
  stored ←
    (if h =? MCSDB_CMD_SET then _ ← on_ms (mcsdb_set now (c_key c) b (c_exptime c) 0); mret true
     else if h =? MCSDB_CMD_APPEND then _ ← on_ms (mcsdb_append now (c_key c) (c_exptime c) b); mret true
     else if h =? MCSDB_CMD_ADD then on_ms (mcsdb_add now (c_key c) (c_exptime c) b)
     else if h =? MCSDB_CMD_PREPEND then _ ← on_ms (mcsdb_prepend now (c_key c) (c_exptime c) b); mret true
     else if h =? MCSDB_CMD_REPLACE then on_ms (mcsdb_replace now (c_key c) (c_exptime c) b)
     else mret true);
  _ ← say (line (if (stored : bool) then str "STORED" else str "NOT_STORED"));
  _ ← upd_client (λ c, set_cmd 0 (set_pos 0 (c_len c) (c_next c) (c_next c) c));
  mret 1.

(** The line is split: the place of the key and of what follows it. *)
Definition split_line : SV (option Z * option Z) :=
  p ← find_chr 0 32;
  match p with
  | None => mret (None, None)
  | Some p =>
      _ ← poke p 0;
      let key := p + 1 in
      p ← find_chr key 32;
      _ ← (match p with Some p => poke p 0 | None => mret tt end);
      k ← text key;
      _ ← upd_client (set_key (take 255 k));
      match p with
      | Some p => _ ← poke p 32; mret (Some key, Some (p + 1))
      | None => mret (Some key, None)
      end
  end.

Definition strtolower : SV () := t ← text 0; store 0 (tolower <$> t).

Definition handle_incr (incr : bool) (key p : Z) : SV () :=
  t ← text p;
  let n := scan_llu t 0 in
  _ ← poke (p - 1) 0;
  k ← text key;
  r ← on_ms (if incr then mcsdb_incr now k n else mcsdb_decr now k n);
  say (line (match r with Some v => v | None => str "NOT_FOUND" end)).

Definition pair_text (t : Z * Z) : bytes := digits 10 10 (u32 t.1) [] ++ str "." ++ digits 10 10 (u32 t.2) [].

Definition stats_lines (ms : McSdb) : list bytes :=
  [str "STAT pid " ++ dec_text (e_pid env); str "STAT version 0.2"; str "STAT pointer_size 64"; str "STAT time " ++ llu now;
   str "STAT uptime " ++ llu (u64 (now - ms_time ms)); str "STAT rusage_user " ++ pair_text (e_user env);
   str "STAT rusage_system " ++ pair_text (e_sys env); str "STAT curr_connections " ++ digits 10 10 (u32 (ms_nfds ms - 1)) [];
   str "STAT total_connections " ++ digits 10 10 (u32 (ms_tfds ms)) []; str "STAT cmd_get " ++ llu (ms_gets ms); str "STAT cmd_set " ++ llu (ms_sets ms);
   str "STAT get_hits " ++ llu (ms_hits ms); str "STAT get_misses " ++ llu (ms_misses ms); str "STAT evictions " ++ llu (ms_evictions ms);
   str "STAT bytes_read " ++ llu (ms_bread ms); str "STAT bytes_written " ++ llu (ms_bwrite ms); str "STAT threads 1"; str "END"].

Fixpoint say_lines (l : list bytes) : SV () :=
  match l with [] => mret tt | t :: l => _ ← say (line t); say_lines l end.

(** [!memcmp (p + 1, "noreply", 7)] *)
Definition is_noreply (p : Z) : SV bool :=
  c ← client;
  if slen (c_buf c) <? p + 8 then sv_lift None
  else mret (bool_decide (take 7 (drop (Z.to_nat (p + 1)) (c_buf c)) = str "noreply")).

Definition handle_delete (key : option Z) : SV () :=
  match key with
  | None => mret tt
  | Some key =>
      p ← find_chr key 32;
      reply ← (match p with Some p => _ ← poke p 0; n ← is_noreply p; mret (negb n) | None => mret true end);
      k ← text key;
      let e := scan_llu k 0 in
      _ ← upd_client (set_exptime e);
      ret ← on_ms (mcsdb_remove now k e);
      if (reply : bool) then say (line (if (ret : bool) then str "DELETED" else str "NOT_FOUND")) else mret tt
  end.

(** A command with data: how many bytes are to come. *)
Definition handle_store (cmd : Z) (key p : option Z) : SV Z :=
  match key, p with
  | Some _, Some p =>
      t ← text p;
      c ← client;
      let '(ret, exptime, bytes) := scan_header t (c_exptime c) in
      _ ← upd_client (set_exptime exptime);
      if negb (ret =? 3) then t' ← text (p + 1); _ ← say (line (str "ERROR parsing (" ++ t' ++ str ")")); mret 0
      else if bytes <? 1 then _ ← say (line (str "CLIENT_ERROR invalid length")); _ ← say (line (str "ERROR")); mret 0
      else if MCSDB_MAX_BUFFER - 2 <? bytes then _ ← say (line (str "CLIENT_ERROR data too big")); mret 0
      else _ ← upd_client (λ c, set_cmd cmd (set_pos 1 (bytes + 1) (c_next c) (c_next c) c)); mret 1
  | _, _ => _ ← say (line (str "ERROR")); mret 0
  end.

Definition handle_line : SV Z :=
  '(key, p) ← split_line;
  _ ← strtolower;
  cmd ← text 0;
  let h := sdb_hash cmd in
  if h =? MCSDB_CMD_FLUSH_ALL then _ ← on_ms mcsdb_flush; _ ← say (line (str "OK")); mret 0
  else if h =? MCSDB_CMD_VERBOSITY then _ ← say (line (str "OK")); mret 0
  else if h =? MCSDB_CMD_QUIT then mret (-1)
  else if h =? MCSDB_CMD_GET then
    _ ← (match key with Some _ => handle_get key false | None => mret tt end); mret 0
  else if h =? MCSDB_CMD_GETS then _ ← handle_get key true; mret 0
  else if h =? MCSDB_CMD_TOUCH then
    match key, p with
    | Some key, Some p =>
        t ← text p;
        k ← text key;
        r ← on_ms (mcsdb_touch now k (scan_llu t 0));
        _ ← say (line (if (r : bool) then str "TOUCHED" else str "NOT_TOUCHED")); mret 0
    | _, _ => _ ← say (line (str "ERROR")); mret 0
    end
  else if (h =? MCSDB_CMD_INCR) || (h =? MCSDB_CMD_DECR) then
    match key, p with
    | Some key, Some p => _ ← handle_incr (h =? MCSDB_CMD_INCR) key p; mret 0
    | _, _ => _ ← say (line (str "ERROR")); mret 0
    end
  else if h =? MCSDB_CMD_STATS then ms ← the_ms; _ ← say_lines (stats_lines ms); mret 0
  else if h =? MCSDB_CMD_VERSION then _ ← say (line (str "VERSION 0.1")); mret 0
  else if h =? MCSDB_CMD_DELETE then _ ← handle_delete key; mret 0
  else if (h =? MCSDB_CMD_ADD) || (h =? MCSDB_CMD_SET) || (h =? MCSDB_CMD_APPEND) || (h =? MCSDB_CMD_PREPEND) || (h =? MCSDB_CMD_REPLACE)
  then handle_store h key p
  else if h =? MCSDB_CMD_CAS then mret 0
  else _ ← say (line (str "ERROR")); mret 0.

Definition protocol_handle : SV Z :=
  b ← peek 0;
  if b =? 0 then mret 0
  else c ← client; if c_mode c =? 1 then handle_data else handle_line.

End protocol.

(** ** Reading from a client ([memcache/main.c]) *)

Definition mcsdb_client_new_fd (fd : Z) : McSdbClient := mkClient fd 0 0 0 0 0 (replicate (Z.to_nat MCSDB_MAX_BUFFER) 0) 0 [].

(** What was read beyond the last line moves to the front. *)
Definition shift_rest : SV () :=
  c ← client;
  if 0 <? c_next c then
    t ← text (c_next c);
    _ ← store 0 (t ++ [0]);
    upd_client (λ c, set_pos (c_mode c) (c_len c) (slen t) 0 c)
  else mret tt.

Definition chop : SV () :=
  c ← client;
  if MCSDB_MAX_BUFFER <=? c_len c + c_idx c then _ ← poke 0 0; upd_client (set_idx 0) else mret tt.

Definition read_line : SV Z :=
  c ← client;
  let idx := c_idx c in
  r ← (if negb (c_next c =? 0) then mret (Some []) else sock_read (MCSDB_MAX_BUFFER - 1 - idx));
  match r with
  | None => mret 1
  | Some d =>
      let r := slen d in
      _ ← store idx d;
      _ ← poke (idx + r) 0;
      nl ← find_chr idx 10;
      match nl with
      | Some p =>
          _ ← poke p 0;
          let p := p - 1 in
          _ ← (if 0 <? p then x ← peek p; if x =? 13 then poke p 0 else mret tt else mret tt);
          _ ← upd_client (λ c, set_pos (c_mode c) (c_len c) (idx + r) (p + 2) c);
          mret 1
      | None =>
          _ ← on_ms (count (add_counts 0 0 0 0 0 r 0));
          _ ← upd_client (set_idx (idx + r));
          mret 1
      end
  end.

(** The data did not come in one piece: [r] is the result of [read]. *)
Definition short_read (r : option bytes) : SV Z :=
  _ ← poke (MCSDB_MAX_BUFFER - 1) 0;
  _ ← upd_client (set_idx 0);
  match r with
  | Some [] =>
      c ← client;
      t ← text (c_len c);
      _ ← store 0 (take (Z.to_nat (MCSDB_MAX_BUFFER - 1)) (t ++ replicate (Z.to_nat MCSDB_MAX_BUFFER) 0));
      t ← text 0;
      _ ← upd_client (λ c, set_pos (c_mode c) (slen t) (c_idx c) (c_next c) c);
      mret 1
  | _ => mret 0
  end.

Definition end_data (r : Z) : SV Z :=
  _ ← upd_client (λ c, set_idx (c_idx c + r) c);
  c ← client;
  _ ← poke (c_idx c) 0;
  mret (if c_idx c =? c_len c then 1 else 0).

Definition read_data : SV Z :=
  _ ← upd_client (λ c, if c_len c <? c_idx c then set_idx 0 c else c);
  c ← client;
  let rlen := c_len c - c_idx c in
  if MCSDB_MAX_BUFFER - 1 - c_idx c <? rlen then
    _ ← poke 0 0; _ ← upd_client (λ c, set_pos (c_mode c) 0 0 (c_next c) c); mret 0
  else if (0 <? rlen) && (0 <? c_len c) then
    r ← sock_read rlen;
    _ ← (match r with Some d => store (c_idx c) d | None => mret tt end);
    if match r with Some d => slen d =? rlen | None => false end then end_data rlen else short_read r
  else end_data 0.

(** Mode 2, which nothing sets, is left out. *)
Definition mcsdb_client_state : SV Z :=
  _ ← shift_rest;
  _ ← chop;
  c ← client;
  if c_mode c =? 0 then read_line else if c_mode c =? 1 then read_data else mret 0.

(** The loop of [net_loop] over what one client sent: 0 or -1 when the client quits. *)
Fixpoint client_loop (fuel : nat) (env : McEnv) : SV Z :=
  match fuel with
  | O => sv_lift None
  | S fuel' =>
      ret ← mcsdb_client_state;
      ph ← protocol_handle env;
      if ph =? 1 then if ret =? 0 then mret 0 else client_loop fuel' env
      else if ph =? 0 then _ ← upd_client (λ c, set_pos (c_mode c) (c_len c) 0 0 c); mret 0
      else mret (-1)
  end.

(** One event of a client: the client that quits is removed at once, without a flush. *)
Definition client_event (fuel : nat) (env : McEnv) : SV Z :=
  r ← client_loop fuel env;
  if r =? 0 then
    n ← flush_net;
    _ ← (if 0 <? n then on_ms (count (add_counts 0 0 0 0 0 0 n)) else mret tt);
    mret 0
  else mret (-1).

(** *** The table of clients: the descriptors, listeners first *)

Definition MCSDB_MAX_CLIENTS : Z := 16.

Definition fds_add (fd : Z) (fds : list Z) : bool * list Z :=
  if MCSDB_MAX_CLIENTS <? Z.of_nat (length fds) then (false, fds) else (true, fds ++ [fd]).

Fixpoint fds_del (fd : Z) (fds : list Z) : list Z :=
  match fds with [] => [] | x :: fds => if x =? fd then fds else x :: fds_del fd fds end.

(** ** The client library ([memcache/client.c]): what is sent, a list of packets per flush *)

Definition client_set_packets (key body : bytes) : list bytes :=
  [line (str "set " ++ key ++ str " 0 0 " ++ dec_text (s32 (slen body))); line body].
(** [sendcmd] *)
Definition sendcmd_packets (cmd key body : bytes) : list bytes :=
  [line (str "add " ++ key ++ str " 0 0 " ++ dec_text (s32 (slen body))); line body].
Definition client_get_packets (key : bytes) : list bytes := [line (str "get " ++ key)].
Definition client_incr_packets (key : bytes) (val : Z) : list bytes := [line (str "incr " ++ key ++ [32] ++ lld val)].
Definition client_decr_packets (key : bytes) (val : Z) : list bytes := [line (str "decr " ++ key ++ [32] ++ lld val)].
Definition client_remove_packets (key : bytes) (exptime : Z) : list bytes :=
  [line (str "delete " ++ key ++ [32] ++ lld exptime ++ str " 0")].

(** ** Datagrams *)

Definition mc_lift {A} (o : option A) : MC A := λ m, match o with Some a => Some (a, m) | None => None end.
Definition chr_in (buf : bytes) (i ch : Z) : option (option Z) :=
  t ← text_in buf i; Some ((λ p, i + (slen t - slen p)) <$> strchr t ch).
Definition byte_put (buf : bytes) (i x : Z) : option bytes :=
  if (i <? 0) || (slen buf <=? i) then None else Some (<[Z.to_nat i := x]> buf).

(** [sscanf (p, "%d %d %d", &a, &b, &l)] over [l = 0]. *)
Definition scan_third (p : bytes) : Z :=
  match scan_num p with
  | None => 0
  | Some (_, _, p) =>
      match scan_num p with
      | None => 0
      | Some (_, _, p) => match scan_num p with None => 0 | Some (neg, l, _) => as_int neg l end
      end
  end.

Definition UDP_BUF : Z := 32768.

(** [junk] is what the array holds before the datagram is read into it. *)
Definition udp_parse (now : Z) (junk : bytes) (datagram : option bytes) : MC Z :=
  match datagram with
  | None | Some [] => mret 0
  | Some d =>
      let d := take (Z.to_nat (UDP_BUF - 1)) d in
      buf ← mc_lift (byte_put (d ++ drop (length d) junk) (slen d - 1) 0);
      if bool_decide (take 4 (drop 8 buf) = str "set ") then
        p ← mc_lift (chr_in buf 12 32);
        match p with
        | None => mret 1
        | Some p =>
            n ← mc_lift (chr_in buf p 10);
            buf ← mc_lift (byte_put buf p 0);
            buf ← mc_lift (match n with Some n => byte_put buf n 0 | None => Some buf end);
            t ← mc_lift (text_in buf (p + 1));
            let l := scan_third t in
            buf ← mc_lift (match n with
                           | Some n =>
                               let n := n + 1 in
                               let left := UDP_BUF - 1 - (n - p) in
                               if (0 <=? l) && (l <? left) then byte_put buf (n + l) 0 else byte_put buf (UDP_BUF - 1) 0
                           | None => Some buf
                           end);
            k ← mc_lift (text_in buf 12);
            v ← mc_lift (match n with Some n => text_in buf (n + 1) | None => Some [] end);
            _ ← mcsdb_set now k v 0 0;
            mret 1
        end
      else mret 1
  end.
