(* ===== verification/McClient.v ===== *)
(** * The memcache client ([memcache/client.c], [memcache/mainclient.c], [net_readnl] of [memcache/net.c])

    What the client sends is in [McServer]; here are the calls as a user sees them, the
    reading of the answers, and the lines that the interactive client accepts.  The
    socket is the list of the bytes that arrive; when they end, [read] fails.  [None]
    stands for an access outside of a buffer or through NULL. *)

From S2P Require Import Prelude Util JsonIndent Mc McServer.

(** ** Reading a line

    [buf] is what the loop has put into the array. *)
Fixpoint readnl_loop (fuel : nat) (buf inp : bytes) : option (option bytes * bytes) :=
  match fuel with
  | O => Some (None, inp)
  | S fuel' =>
      match inp with
      | [] => Some (None, [])
      | c :: inp' =>
          if c =? 10 then match buf with [] => None | _ => Some (Some (cstr (take (length buf - 1) buf)), inp') end
          else readnl_loop fuel' (buf ++ [c]) inp'
      end
  end.
Definition net_readnl (inp : bytes) : option (option bytes * bytes) := readnl_loop (Z.to_nat MCSDB_MAX_BUFFER) [] inp.

(** ** The calls *)

Inductive mc_call :=
| CIncr (key : bytes) (val : Z) | CDecr (key : bytes) (val : Z) | CSet (key body : bytes)
| CSend (cmd key body : bytes) | CGet (key : bytes) | CRemove (key : bytes) (exptime : Z).

Definition mcsdb_client_add (key body : bytes) : mc_call := CSend (str "add") key body.
Definition mcsdb_client_append (key body : bytes) : mc_call := CSend (str "append") key body.
Definition mcsdb_client_prepend (key body : bytes) : mc_call := CSend (str "prepend") key body.
Definition mcsdb_client_replace (key body : bytes) : mc_call := CSend (str "replace") key body.

Definition call_packets (c : mc_call) : list bytes :=
  match c with
  | CIncr key val => client_incr_packets key val
  | CDecr key val => client_decr_packets key val
  | CSet key body => client_set_packets key body
  | CSend cmd key body => sendcmd_packets cmd key body
  | CGet key => client_get_packets key
  | CRemove key exptime => client_remove_packets key exptime
  end.

(** What a call returns. *)
Inductive mc_answer := AVoid | ABool (b : bool) | AText (t : option bytes).

(** [sendcmd] and [mcsdb_client_remove] after the flush; [strstr] of NULL is a crash. *)
Definition read_done (inp : bytes) : option (mc_answer * bytes) :=
  r ← net_readnl inp;
  match r.1 with Some res => Some (ABool (bool_decide (strstr res (str "NOT") = None)), r.2) | None => None end.

(** [sscanf (p, "%d %d", &sexp, &slen)] over [slen = 0]: the value of [slen]. *)
Definition scan_slen (p : bytes) : Z :=
  match scan_num p with
  | None => 0
  | Some (_, _, p) => match scan_num p with None => 0 | Some (neg, l, _) => as_int neg l end
  end.

(** [mcsdb_client_get] after the flush.  The data is what one [read] gets; a size that
    wraps around to a negative one is not allocated. *)
Definition read_value (inp : bytes) : option (mc_answer * bytes) :=
  r ← net_readnl inp;
  let '(l, inp) := r in
  match l with
  | None => Some (AText None, inp)
  | Some buf =>
      if bool_decide (take 3 buf = str "END") then Some (AText None, inp)
      else
        match strchr buf 32 ≫= (λ p, strchr (tail p) 32) with
        | None => Some (AText None, inp)
        | Some p =>
            let slen := scan_slen (tail p) in
            if slen <? 1 then Some (AText None, inp)
            else
              let n := s32 (slen + 2) in
              let '(v, inp) :=
                if n <? 0 then (None, inp)
                else let d := take (Z.to_nat n) inp in (Some (cstr (take (length d - 1) d)), drop (Z.to_nat n) inp) in
              r ← net_readnl inp;
              Some (AText v, r.2)
        end
  end.

Definition call_answer (c : mc_call) (inp : bytes) : option (mc_answer * bytes) :=
  match c with
  | CIncr _ _ | CDecr _ _ => r ← net_readnl inp; Some (AText r.1, r.2)
  | CSet _ _ => r ← net_readnl inp; Some (AVoid, r.2)
  | CSend _ _ _ | CRemove _ _ => read_done inp
  | CGet _ => read_value inp
  end.

(** ** The interactive client: what a line that [fgets] read stands for *)
Definition mainclient_line (l : bytes) : option mc_call :=
  let buf := cstr l in
  if slen buf =? 0 then None
  else
    let buf := take (length buf - 1) buf in
    if hd0 buf =? 43 then Some (CIncr (tail buf) 1)
    else if hd0 buf =? 45 then Some (CDecr (tail buf) 1)
    else match strchr buf 61 with
         | Some p =>
             let key := take (length buf - length p) buf in
             let body := tail p in
             Some (if slen body =? 0 then CRemove key 0 else CSet key body)
         | None => Some (CGet buf)
         end.
