(* ===== verification/McFacts.v ===== *)
(** * What the memcache store does

    The store is a map from keys to values with an expiration.  Every operation of
    [Mc] acts on it as its name says, at any time. *)

From S2P Require Import Prelude Util Ht HashTables Buffer CdbMake CdbTables Cdb SdbCore Num JsonIndent Match SdbIter Mc McServer.

(** ** Databases with time stamps

    Setting an expiration turns [timestamped] on, which the lemmas of [SdbCore] do not
    allow; but a change only reads it to move [last]. *)

Definition untimed (s : Sdb) : Sdb := set_stamp false (last s) (dflt_expire s) s.

(** A computation that does the same on databases that differ in their stamps. *)
Definition stable {A} (m : M A) : Prop := ∀ t l e s, ∃ l', m (set_stamp t l e s) = ((m s).1, set_stamp t l' e (m s).2).

Lemma stable_ret {A} (a : A) : stable (mret a).
Proof. intros t l e s. by exists l. Qed.

Lemma stable_bind {A B} (m : M A) (k : A → M B) : stable m → (∀ a, stable (k a)) → stable (m ≫= k).
Proof.
  intros Hm Hk t l e s. unfold mbind, M_bind. destruct (Hm t l e s) as [l1 ->]. destruct (m s) as [a s1]. cbn [fst snd]. apply Hk.
Qed.

Lemma stable_get {A} (k : Sdb → M A) : (∀ t l e s, k (set_stamp t l e s) = k s) → (∀ s, stable (k s)) → stable (get_st ≫= k).
Proof. intros Hk Hs t l e s. unfold mbind, M_bind, get_st. rewrite Hk. apply Hs. Qed.

Lemma stable_modify f : (∀ t l e s, f (set_stamp t l e s) = set_stamp t l e (f s)) → stable (modify f).
Proof. intros Hf t l e s. exists l. unfold modify. cbn [fst snd]. by rewrite Hf. Qed.

Create HintDb stable.
#[local] Hint Resolve stable_ret stable_bind stable_get stable_modify : stable.

Lemma hook_stable now k v : stable (sdb_hook_call now k v).
Proof.
  intros t l e [h d f g j ts la de hk ca dp dep rf]. unfold sdb_hook_call; run_m. cbn.
  destruct (ts && negb (la =? 0)), (t && negb (l =? 0)); by eexists.
Qed.

Lemma set_internal_stable now k v owned c : stable (sdb_set_internal now k v owned c).
Proof.
  unfold sdb_set_internal. destruct k as [k|]; [|apply stable_ret]. cbv zeta. case_if; [apply stable_ret|]. apply stable_get; [done|]. intros s0.
  apply stable_bind. { destruct (journal s0); [|apply stable_ret]. apply stable_get; [done|]. intros s1. destruct (journal s1); [|apply stable_ret]. apply stable_bind; [by apply stable_modify|intros; apply stable_ret]. }
  intros _. apply stable_bind; [by apply stable_modify|]. intros _. apply stable_get; [done|]. intros s2.
  assert (stable (findnext k)) as Hf.
  { apply stable_get; [done|]. intros s3. destruct (cdb_findnext _ _ _ _). apply stable_bind; [by apply stable_modify|intros; apply stable_ret]. }
  assert (∀ r, stable (_ ← sdb_hook_call now k (default [] v); mret r : M Z)) as Hh by (intros r; apply stable_bind; [apply hook_stable|intros; apply stable_ret]).
  destruct (sdb_ht_find_kvp _ _) as [[k0 [v0|] kl0 vl0 e0]|].
  - apply stable_bind; [exact Hf|]. intros r. repeat (case_if; try apply stable_ret; try apply Hh); (apply stable_bind; [by apply stable_modify|intros _; apply Hh]).
  - destruct owned; [destruct (_ <$> _)|destruct (sdbkv_new2 _ _ _ _)]; try apply stable_ret; (apply stable_bind; [by apply stable_modify|intros _; apply Hh]).
  - destruct owned; [destruct (_ <$> _)|destruct (sdbkv_new2 _ _ _ _)]; try apply stable_ret; (apply stable_bind; [by apply stable_modify|intros _; apply Hh]).
Qed.

Lemma restamp s : set_stamp (timestamped s) (last s) (dflt_expire s) (untimed s) = s.
Proof. by destruct s. Qed.

Lemma mem_inv_restamp n s l e : mem_inv n s → mem_inv n (untimed (set_stamp true l e s)) ∧ mem_inv n (untimed (set_stamp false l e s)).
Proof. intros Hi. pose proof (mi_stamp _ _ _ Hi). split; (eapply mem_inv_core; [|exact Hi]); split_and!; done. Qed.

(** A set, on every branch, with or without time stamps. *)
Lemma set_timed now n s k val owned c : mem_inv (S n) (untimed s) → key_ok k → val_ok val →
  let '(r, s') := sdb_set_internal now (Some k) (Some val) owned c s in
  let o := to_map (ht s) !! k in let x := set_outcome (-1) val o c in
  mem_inv n (untimed s') ∧ timestamped s' = timestamped s ∧ r = outcome_ret x ∧ to_map (ht s') = outcome_map k (set_entry k val o owned) x (to_map (ht s)).
Proof.
  intros Hi Hk Hv. destruct (set_internal_stable now (Some k) (Some val) owned c (timestamped s) (last s) (dflt_expire s) (untimed s)) as [l' E]. rewrite restamp in E. rewrite E.
  pose proof (set_any None now n (untimed s) k val owned c Hi Hk Hv) as Hs. destruct (sdb_set_internal now (Some k) (Some val) owned c (untimed s)) as [r s']. cbn [fst snd].
  destruct Hs as (Hi' & Hr & Hm). split_and!; [|done|exact Hr|exact Hm]. destruct (mem_inv_restamp n s' l' (dflt_expire s) Hi'). by destruct (timestamped s).
Qed.

(** ** The store as a map *)

Definition timed (kv : SdbKv) : option (bytes * Z) := (λ v, (v, expire (ext kv))) <$> live kv.

(** The values with their expirations; those that have expired but were not asked for are still there. *)
Definition mc_view (s : Sdb) : gmap bytes (bytes * Z) := omap timed (to_map (ht s)).

Record mc_inv (n : nat) (s : Sdb) : Prop := {
  mc_mem : mem_inv n (untimed s);
  mc_stamp : timestamped s = false → map_Forall (λ _ kv, expire (ext kv) = 0) (to_map (ht s));
  mc_value : map_Forall (λ _ kv, is_Some (value kv)) (to_map (ht s))
}.

Definition expired (now x : Z) : bool := negb (x =? 0) && (x <? now).

Lemma mc_view_lookup s k : mc_view s !! k = to_map (ht s) !! k ≫= timed.
Proof. apply lookup_omap. Qed.

Lemma mc_view_Some s k v x : mc_view s !! k = Some (v, x) ↔ ∃ kv, to_map (ht s) !! k = Some kv ∧ value kv = Some v ∧ v ≠ [] ∧ expire (ext kv) = x.
Proof.
  rewrite mc_view_lookup. destruct (to_map (ht s) !! k) as [kv|]; cbn [mbind option_bind]; [|naive_solver]. unfold timed, live.
  destruct (value kv) as [[|c v']|] eqn:Ev; cbn; split; try done; try (intros (? & [= <-] & Hv & Hn & Hx); congruence).
  intros [= <- <-]. exists kv. by rewrite Ev.
Qed.

Lemma mc_inv_le n m s : (m <= n)%nat → mc_inv n s → mc_inv m s.
Proof. intros Hm [Hi ? ?]. split; [by eapply mem_inv_le|done..]. Qed.

(** [sdb_set] of a value. *)
Lemma mc_set_ok now n s k v owned : mc_inv (S n) s → key_ok k → val_ok v → v ≠ [] →
  let '(r, s') := nonzero (sdb_set_internal now (Some k) (Some v) owned 0) s in
  mc_inv n s' ∧ r = true ∧ timestamped s' = timestamped s ∧ ∃ x, mc_view s' = <[k := (v, x)]> (mc_view s).
Proof.
  intros [Hi Hst Hvl] Hk Hv Hne. pose proof (set_timed now n s k v owned 0 Hi Hk Hv) as Hs. run_m. destruct (sdb_set_internal _ _ _ _ _ _) as [r s'].
  destruct Hs as (Hi' & Hts & Hr & Hm). assert (slen v =? 0 = false) as El by (apply Z.eqb_neq; destruct v; [done|unfold slen; simpl; lia]).
  assert (∀ x, live (mkKv k (Some v) (slen k) (slen v) x) = Some v) as Hlv by (intros x; unfold live; cbn; by destruct v).
  pose proof (mem_inv_small _ _ _ Hi).
  destruct (to_map (ht s) !! k) as [[k0 [v0|] kl0 vl0 e0]|] eqn:Em; cbn [set_outcome set_entry] in *.
  - change (-1 =? 0) with false in *. change (0 =? 0) with true in *. cbn [negb andb] in *. pose proof (mi_entries _ _ _ Hi _ _ Em) as Hent. pose proof (nextcas_S _ _ Hent) as Hnc.
    destruct Hent as (_ & _ & Hcp & _). cbn [ext cas] in *.
    assert (r ≠ 0 ∧ ∃ kv, to_map (ht s') = <[k := kv]> (to_map (ht s)) ∧ value kv = Some v ∧ expire (ext kv) = expire e0) as (Hr0 & kv & Hm' & Hkv & Hkx).
    { destruct (decide (v0 = v)) as [->|]; cbn [outcome_ret outcome_map] in *; (split; [lia|]).
      - exists (mkKv k0 (Some v) kl0 vl0 e0). by rewrite insert_id.
      - eexists. split; [exact Hm|done]. }
    rewrite (proj2 (Z.eqb_neq r 0)) by done. split_and!; [|done|done|].
    + split; [done|rewrite Hts, Hm'; intros Hf|rewrite Hm']; (apply map_Forall_insert_2; [|auto]); [rewrite Hkx; by apply (Hst Hf _ _ Em)|rewrite Hkv; eauto].
    + exists (expire e0). unfold mc_view. rewrite Hm', omap_insert. unfold timed at 1. unfold live. rewrite Hkv. destruct v; [done|]. cbn. by rewrite Hkx.
  - exfalso. destruct (Hvl _ _ Em) as [? Hx]. done.
  - cbn [outcome_ret outcome_map] in *. rewrite El in Hm. cbn [andb] in Hm. subst r. split_and!; [|done|done|].
    + split; [done|rewrite Hts, Hm; intros Hf|rewrite Hm]; (apply map_Forall_insert_2; [|auto]); [done|eauto].
    + exists 0. unfold mc_view. rewrite Hm, omap_insert. unfold timed at 1. by rewrite Hlv.
Qed.

(** [sdb_unset] of a key with a value. *)
Lemma mc_unset_ok now n s k v x : mc_inv (S n) s → key_ok k → mc_view s !! k = Some (v, x) →
  let '(r, s') := sdb_unset now (Some k) 0 s in mc_inv n s' ∧ r = true ∧ mc_view s' = delete k (mc_view s).
Proof.
  intros [Hi Hst Hvl] Hk (kv & Em & Ekv & Hne & Ex)%mc_view_Some. unfold sdb_unset, sdb_set.
  pose proof (set_timed now n s k [] false 0 Hi Hk ltac:(by split; [constructor|])) as Hs. run_m. destruct (sdb_set_internal _ _ _ _ _ _) as [r s'].
  rewrite Em in Hs. destruct kv as [k0 vv kl0 vl0 e0]. cbn [value] in Ekv. subst vv. cbn [set_outcome set_entry] in Hs. change (-1 =? 0) with false in Hs. change (0 =? 0) with true in Hs.
  cbn [negb andb] in Hs. rewrite decide_False in Hs by done. destruct Hs as (Hi' & Hts & Hr & Hm). cbn [outcome_ret outcome_map] in *.
  pose proof (nextcas_S _ _ (mi_entries _ _ _ Hi _ _ Em)) as Hnc. destruct (mi_entries _ _ _ Hi _ _ Em) as (_ & _ & Hcp & _). cbn [ext cas] in *.
  rewrite (proj2 (Z.eqb_neq r 0)) by lia. split_and!; [|done|].
  - split; [done|rewrite Hts, Hm; intros Hf|rewrite Hm]; (apply map_Forall_insert_2; [|auto]); [by apply (Hst Hf _ _ Em)|eauto].
  - unfold mc_view. by rewrite Hm, omap_insert.
Qed.

Lemma mc_find n s k : mc_inv n s → sdb_ht_find_kvp (Some (ht s)) k = to_map (ht s) !! k.
Proof. intros [Hi _ _]. apply (sdb_ht_find_kvp_spec n). apply Hi. Qed.

Lemma mc_fd n s : mc_inv n s → fd s = None ∧ gp s = None.
Proof. intros [Hi _ _]. split; [apply (mi_disk _ _ _ Hi)|apply (mi_gp _ _ _ Hi)]. Qed.

Lemma mc_view_cstr n s k v x : mc_inv n s → mc_view s !! k = Some (v, x) → is_cstr v ∧ v ≠ [].
Proof.
  intros [Hi _ _] (kv & Em & Ekv & Hne & _)%mc_view_Some. destruct (mi_entries _ _ _ Hi _ _ Em) as (_ & Hc & _). rewrite Ekv in Hc. done.
Qed.

(** [sdb_expire_set] of a key with a value. *)
Lemma mc_expire_ok now n s k v x e : mc_inv n s → mc_view s !! k = Some (v, x) →
  ∃ s', sdb_expire_set now (Some k) e 0 s = (Some true, s') ∧ mc_inv n s' ∧ mc_view s' = <[k := (v, parse_expire now e)]> (mc_view s).
Proof.
  intros HI Hv. pose proof HI as [Hi Hst Hvl]. destruct (mc_view_cstr _ _ _ _ _ HI Hv) as [Hc _]. pose proof Hv as (kv & Em & Ekv & Hne & Ex)%mc_view_Some.
  unfold sdb_expire_set. cbn [expire_set_loop]. run_m. cbn [set_stamp ht]. rewrite (mc_find n s k HI), Em, Ekv.
  assert (hd0 v =? 0 = false) as -> by (apply Z.eqb_neq; by rewrite hd0_cstr). change (0 =? 0) with true. cbn [negb andb orb].
  set (f := λ kv : SdbKv, mkKv (key kv) (value kv) (key_len kv) (value_len kv) (mkExt (cas (ext kv)) (parse_expire now e))).
  destruct (to_map_key _ _ _ _ (mi_ht _ _ _ Hi) Em) as [Hkey Hkeyed].
  destruct (ht_write_spec n (ht s) k f kv (mi_ht _ _ _ Hi) Em Hkey Hkeyed) as (Hwi & Hwm & _). eexists. split; [done|]. split.
  - split; cbn [set_ht set_stamp ht timestamped untimed]; [|done|].
    + apply (mem_inv_ht None n n (untimed (set_stamp true (last s) (dflt_expire s) s))); [|done|].
      * eapply mem_inv_core; [|exact Hi]. by split_and!.
      * cbn [ht set_ht set_stamp]. rewrite Hwm. apply map_Forall_insert_2; [exact (mi_entries _ _ _ Hi _ _ Em)|apply (mi_entries _ _ _ Hi)].
    + rewrite Hwm. apply map_Forall_insert_2; [|done]. cbn. rewrite Ekv. eauto.
  - unfold mc_view at 1. cbn [set_ht set_stamp ht]. rewrite Hwm, omap_insert. unfold timed, f, live. cbn. rewrite Ekv. by destruct v.
Qed.

(** [sdb_expire_get] *)
Lemma mc_expire_get n s k : mc_inv n s → ∃ c, sdb_expire_get k s = (Some (match mc_view s !! k with Some (_, x) => x | None => 0 end, c), s).
Proof.
  intros HI. unfold sdb_expire_get; run_m. rewrite (mc_find n s k HI), mc_view_lookup. destruct (to_map (ht s) !! k) as [kv|] eqn:Em; [|by exists 0].
  destruct (mc_value _ _ HI _ _ Em) as [v Ev]. rewrite Ev. cbn [mbind option_bind]. unfold timed, live. rewrite Ev. destruct v as [|c v]; [by exists 0|].
  destruct (mi_entries _ _ _ (mc_mem _ _ HI) _ _ Em) as (_ & Hc & _). rewrite Ev in Hc. cbn in Hc. cbn [hd0 hd]. apply Forall_cons in Hc as [Hc _].
  unfold is_char in Hc. rewrite (proj2 (Z.eqb_neq c 0)) by lia. by eexists.
Qed.

Lemma mc_exists n s k : mc_inv n s → sdb_exists (Some k) s = (bool_decide (is_Some (mc_view s !! k)), s).
Proof.
  intros HI. unfold sdb_exists; run_m. rewrite (mc_find n s k HI), mc_view_lookup. destruct (mc_fd _ _ HI) as [-> _].
  destruct (to_map (ht s) !! k) as [kv|]; cbn [mbind option_bind]; [|by rewrite bool_decide_false by (by intros [])].
  unfold timed, live. destruct (value kv) as [[|x v]|]; [by rewrite bool_decide_false by (by intros [])|
      by rewrite bool_decide_true by eauto|by rewrite bool_decide_false by (by intros [])].
Qed.

(** The value that a read at [now] answers, and what it leaves. *)
Definition get_spec (now : Z) (k : bytes) (m : gmap bytes (bytes * Z)) : option bytes * gmap bytes (bytes * Z) :=
  match m !! k with
  | Some (v, x) => if expired now x then (None, delete k m) else (Some v, m)
  | None => (None, m)
  end.

(** [sdb_get] *)
Lemma mc_get_ok now n s k : mc_inv (S n) s → key_ok k →
  let '(r, s') := sdb_get now (Some k) s in mc_inv n s' ∧ (r.1, mc_view s') = get_spec now k (mc_view s).
Proof.
  intros HI Hk. unfold sdb_get, sdb_get_len, sdb_const_get_len; run_m. rewrite (mc_find _ s k HI). destruct (mc_fd _ _ HI) as [Hfd Hgp]. rewrite Hfd, Hgp.
  unfold get_spec. assert (mc_inv n s) as HI' by (eapply mc_inv_le; [|exact HI]; lia).
  destruct (mc_view s !! k) as [[v x]|] eqn:Ev.
  - destruct (mc_view_cstr _ _ _ _ _ HI Ev) as [Hc _]. pose proof Ev as (kv & Em & Ekv & Hne & Ex)%mc_view_Some. rewrite Em, Ekv. destruct v as [|c v]; [done|].
    rewrite Ex. assert (timestamped s && negb (x =? 0) && (x <? now) = expired now x) as ->.
    { unfold expired. destruct (timestamped s) eqn:Ets; [done|]. pose proof (mc_stamp _ _ HI Ets _ _ Em). assert (x = 0) as -> by congruence. done. }
    destruct (expired now x) eqn:Eexp; cbn [fst snd fmap option_fmap option_map].
    + pose proof (mc_unset_ok now n s k _ _ HI Hk Ev) as Hu. destruct (sdb_unset now (Some k) 0 s) as [r s']. destruct Hu as (? & _ & ->). done.
    + by rewrite cstr_app_nul.
  - rewrite mc_view_lookup in Ev. destruct (to_map (ht s) !! k) as [kv|] eqn:Em; [|done]. cbn [mbind option_bind] in Ev. unfold timed, live in Ev.
    by destruct (value kv) as [[|]|].
Qed.

(** ** The commands *)

Inductive mc_op :=
| MSet (k : bytes) (e : Z) (v : bytes) | MAdd (k : bytes) (e : Z) (v : bytes) | MReplace (k : bytes) (e : Z) (v : bytes)
| MAppend (k : bytes) (e : Z) (v : bytes) | MPrepend (k : bytes) (e : Z) (v : bytes)
| MGet (k : bytes) | MRemove (k : bytes) (e : Z) | MTouch (k : bytes) (e : Z).

(** The result of a command: stored, deleted or touched; a value and its expiration. *)
Inductive mc_res := MDone (b : bool) | MValue (v : option bytes) (x : Z).

Definition mc_step (now : Z) (o : mc_op) : MC mc_res :=
  match o with
  | MSet k e v => r ← mcsdb_set now k v e 0; mret (MDone r)
  | MAdd k e v => r ← mcsdb_add now k e v; mret (MDone r)
  | MReplace k e v => r ← mcsdb_replace now k e v; mret (MDone r)
  | MAppend k e v => _ ← mcsdb_append now k e v; mret (MDone true)
  | MPrepend k e v => _ ← mcsdb_prepend now k e v; mret (MDone true)
  | MGet k => r ← mcsdb_get now k; mret (MValue r.1.1 r.1.2)
  | MRemove k e => r ← mcsdb_remove now k e; mret (MDone r)
  | MTouch k e => r ← mcsdb_touch now k e; mret (MDone r)
  end.

(** The same on the map: [add], [replace], [remove] and [touch] count a value that has
    expired as long as it was not read. *)
Definition mc_spec (now : Z) (o : mc_op) (m : gmap bytes (bytes * Z)) : mc_res * gmap bytes (bytes * Z) :=
  let put k v e := <[k := (v, parse_expire now e)]> m in
  let extend k e (f : bytes → bytes) :=
    let '(a, m) := get_spec now k m in
    let a := default [] a in
    <[k := (if slen (f a) <? SDB_VSZ then f a else a, parse_expire now e)]> m in
  match o with
  | MSet k e v => (MDone true, put k v e)
  | MAdd k e v => match m !! k with None => (MDone true, put k v e) | Some _ => (MDone false, m) end
  | MReplace k e v => match m !! k with None => (MDone false, m) | Some _ => (MDone true, put k v e) end
  | MAppend k e v => (MDone true, extend k e (λ a, a ++ v))
  | MPrepend k e v => (MDone true, extend k e (λ a, v ++ a))
  | MGet k => let '(v, m) := get_spec now k m in (MValue v (match m !! k with Some (_, x) => x | None => 0 end), m)
  | MRemove k e =>
      match m !! k with
      | None => (MDone false, m)
      | Some (v, _) => if 0 <? e then (MDone false, put k v e) else (MDone true, delete k m)
      end
  | MTouch k e => match m !! k with None => (MDone false, m) | Some (v, _) => (MDone true, put k v e) end
  end.

Definition mc_op_ok (o : mc_op) : Prop :=
  match o with
  | MSet k _ v | MAdd k _ v | MReplace k _ v | MAppend k _ v | MPrepend k _ v => key_ok k ∧ val_ok v ∧ v ≠ []
  | MGet k | MRemove k _ | MTouch k _ => key_ok k
  end.

(** [m'] is [f m] up to the counters. *)
Definition mc_done {A} (n : nat) (f : MC A) (m : McSdb) (r : A) (vw : gmap bytes (bytes * Z)) : Prop :=
  ∃ m', f m = Some (r, m') ∧ mc_inv n (ms_sdb m') ∧ mc_view (ms_sdb m') = vw.

(** Setting a value and then its expiration. *)
Lemma store_value_ok now n s k v e : mc_inv (S n) s → key_ok k → val_ok v → v ≠ [] →
  ∃ s1 s2, sdb_set now (Some k) (Some v) 0 s = (true, s1) ∧ sdb_expire_set now (Some k) e 0 s1 = (Some true, s2) ∧ mc_inv n s2 ∧
    mc_view s2 = <[k := (v, parse_expire now e)]> (mc_view s).
Proof.
  intros HI Hk Hv Hne. pose proof (mc_set_ok now n s k v false HI Hk Hv Hne) as Hs. unfold sdb_set. destruct (nonzero _ s) as [r s1]. destruct Hs as (HI1 & -> & _ & x & Hvw).
  destruct (mc_expire_ok now n s1 k v x e HI1) as (s2 & E & HI2 & Hvw2); [by rewrite Hvw, lookup_insert_eq|]. exists s1, s2. split_and!; [done|exact E|done|].
  by rewrite Hvw2, Hvw, insert_insert_eq.
Qed.

Ltac run_mc := unfold mbind, MC_bind, mret, MC_ret, on_sdb, on_sdb_null, sets_inc, hits_inc, misses_inc, gets_inc, evictions_inc, count; cbn [negb fst snd ms_sdb with_sdb add_counts].

Lemma mc_set_done now n m k e v : mc_inv (S n) (ms_sdb m) → key_ok k → val_ok v → v ≠ [] →
  mc_done n (mcsdb_set now k v e 0) m true (<[k := (v, parse_expire now e)]> (mc_view (ms_sdb m))).
Proof.
  intros HI Hk Hv Hne. destruct (store_value_ok now n _ k v e HI Hk Hv Hne) as (s1 & s2 & E1 & E2 & HI2 & Hvw).
  unfold mc_done, mcsdb_set. run_mc. rewrite E1. run_mc. rewrite E2. eexists. split; [done|]. by split.
Qed.

Lemma mc_add_done now n m k e v : mc_inv (S n) (ms_sdb m) → key_ok k → val_ok v → v ≠ [] → ∃ r vw,
  mc_spec now (MAdd k e v) (mc_view (ms_sdb m)) = (MDone r, vw) ∧ mc_done n (mcsdb_add now k e v) m r vw.
Proof.
  intros HI Hk Hv Hne. destruct (store_value_ok now n _ k v e HI Hk Hv Hne) as (s1 & s2 & E1 & E2 & HI2 & Hvw). unfold mc_done, mcsdb_add. cbn [mc_spec]. run_mc. rewrite (mc_exists _ _ k HI).
  destruct (mc_view (ms_sdb m) !! k) as [p|] eqn:Ep; eexists _, _; (split; [done|]).
  - rewrite bool_decide_true by eauto. run_mc. eexists. split; [done|]. split; [|done]. eapply mc_inv_le; [|exact HI]. lia.
  - rewrite bool_decide_false by (by intros []). run_mc. rewrite E1. run_mc. rewrite E2. eexists. split; [done|]. by split.
Qed.

Lemma mc_replace_done now n m k e v : mc_inv (S n) (ms_sdb m) → key_ok k → val_ok v → v ≠ [] → ∃ r vw,
  mc_spec now (MReplace k e v) (mc_view (ms_sdb m)) = (MDone r, vw) ∧ mc_done n (mcsdb_replace now k e v) m r vw.
Proof.
  intros HI Hk Hv Hne. destruct (store_value_ok now n _ k v e HI Hk Hv Hne) as (s1 & s2 & E1 & E2 & HI2 & Hvw). unfold mc_done, mcsdb_replace. cbn [mc_spec]. run_mc. rewrite (mc_exists _ _ k HI).
  destruct (mc_view (ms_sdb m) !! k) as [p|] eqn:Ep; eexists _, _; (split; [done|]).
  - rewrite bool_decide_true by eauto. run_mc. rewrite E1. run_mc. rewrite E2. eexists. split; [done|]. by split.
  - rewrite bool_decide_false by (by intros []). run_mc. eexists. split; [done|]. split; [|done]. eapply mc_inv_le; [|exact HI]. lia.
Qed.

Lemma mc_get_done now n m k : mc_inv (S n) (ms_sdb m) → key_ok k → ∃ v x c vw,
  mc_spec now (MGet k) (mc_view (ms_sdb m)) = (MValue v x, vw) ∧ mc_done n (mcsdb_get now k) m (v, x, c) vw.
Proof.
  intros HI Hk. pose proof (mc_get_ok now n _ k HI Hk) as Hg. unfold mc_done, mcsdb_get. cbn [mc_spec]. run_mc. destruct (sdb_get now (Some k) (ms_sdb m)) as [[v c] s1].
  destruct Hg as [HI1 Hg]. rewrite <- Hg. cbn [fst snd]. destruct (mc_expire_get n s1 k HI1) as (c' & E). exists v, (match mc_view s1 !! k with Some (_, x) => x | None => 0 end), c, (mc_view s1).
  split; [done|]. destruct v; run_mc; rewrite E; eexists; (split; [done|]; by split).
Qed.

Lemma mc_remove_done now n m k e : mc_inv (S n) (ms_sdb m) → key_ok k → ∃ r vw,
  mc_spec now (MRemove k e) (mc_view (ms_sdb m)) = (MDone r, vw) ∧ mc_done n (mcsdb_remove now k e) m r vw.
Proof.
  intros HI Hk. assert (mc_inv n (ms_sdb m)) as HI' by (eapply mc_inv_le; [|exact HI]; lia). unfold mc_done, mcsdb_remove. cbn [mc_spec]. run_mc. rewrite (mc_exists _ _ k HI).
  destruct (mc_view (ms_sdb m) !! k) as [[v x]|] eqn:Ep.
  - rewrite bool_decide_true by eauto. cbn [negb]. run_mc. destruct (0 <? e); eexists _, _; (split; [done|]).
    + destruct (mc_expire_ok now n _ k v x e HI' Ep) as (s2 & E & HI2 & Hvw). run_mc. rewrite E. eexists. split; [done|]. by split.
    + destruct (mc_expire_get _ _ k HI) as (c & E). run_mc. rewrite E. cbn [fst]. pose proof (mc_unset_ok now n _ k v x HI Hk Ep) as Hu.
      destruct (sdb_unset now (Some k) 0 (ms_sdb m)) as [r s'] eqn:Eu. destruct Hu as (HI2 & -> & Hvw).
      case_if; run_mc; rewrite Eu; (eexists; split; [done|]; by split).
  - rewrite bool_decide_false by (by intros []). cbn [negb]. run_mc. eexists _, _. split; [done|]. eexists. split; [done|]. by split.
Qed.

Lemma mc_touch_done now n m k e : mc_inv (S n) (ms_sdb m) → ∃ r vw,
  mc_spec now (MTouch k e) (mc_view (ms_sdb m)) = (MDone r, vw) ∧ mc_done n (mcsdb_touch now k e) m r vw.
Proof.
  intros HI. assert (mc_inv n (ms_sdb m)) as HI' by (eapply mc_inv_le; [|exact HI]; lia). unfold mc_done, mcsdb_touch. cbn [mc_spec]. run_mc. rewrite (mc_exists _ _ k HI).
  destruct (mc_view (ms_sdb m) !! k) as [[v x]|] eqn:Ep; eexists _, _; (split; [done|]).
  - rewrite bool_decide_true by eauto. cbn [negb]. run_mc. destruct (mc_expire_ok now n _ k v x e HI' Ep) as (s2 & E & HI2 & Hvw). rewrite E. eexists. split; [done|]. by split.
  - rewrite bool_decide_false by (by intros []). cbn [negb]. run_mc. eexists. split; [done|]. by split.
Qed.

Lemma get_spec_Some now k m a m' : get_spec now k m = (Some a, m') → m' = m ∧ ∃ x, m !! k = Some (a, x).
Proof. unfold get_spec. destruct (m !! k) as [[v x]|]; [case_if|]; intros [=]; subst; eauto. Qed.

(** [mcsdb_append] and [mcsdb_prepend]: [f] makes the new value from the old one. *)
Lemma extend_ok now n s k e (f : bytes → bytes) : mc_inv (S (S n)) s → key_ok k → (∀ a, is_cstr a → is_cstr (f a)) → (∀ a, f a ≠ []) → slen (f []) < SDB_VSZ →
  ∃ a c b s1 s2 s3, sdb_get now (Some k) s = ((a, c), s1) ∧ sdb_set now (Some k) (Some (f (default [] a))) 0 s1 = (b, s2) ∧
    sdb_expire_set now (Some k) e 0 s2 = (Some true, s3) ∧ mc_inv n s3 ∧
    mc_view s3 = (let '(a, m) := get_spec now k (mc_view s) in let a := default [] a in <[k := (if slen (f a) <? SDB_VSZ then f a else a, parse_expire now e)]> m).
Proof.
  intros HI Hk Hc Hne Hl. pose proof (mc_get_ok now (S n) s k HI Hk) as Hg. destruct (sdb_get now (Some k) s) as [[a c] s1]. destruct Hg as [HI1 Hg]. cbn [fst] in Hg. rewrite <- Hg.
  assert (is_cstr (default [] a)) as Hca.
  { destruct a as [a|]; [|by constructor]. symmetry in Hg. destruct (get_spec_Some _ _ _ _ _ Hg) as (_ & x & Hx). by apply (mc_view_cstr _ _ _ _ _ HI Hx). }
  destruct (slen (f (default [] a)) <? SDB_VSZ) eqn:El; zbool.
  - destruct (store_value_ok now n s1 k (f (default [] a)) e HI1 Hk) as (s2 & s3 & E2 & E3 & HI3 & Hvw); [by split; auto|done|]. exists a, c, true, s1, s2, s3. split_and!; [done|done|done|done|]. rewrite Hvw. cbv zeta. by rewrite (proj2 (Z.ltb_lt _ _)).
  - destruct a as [a|]; [|cbn [default from_option id] in El; lia]. cbn [default from_option id] in *. symmetry in Hg. destruct (get_spec_Some _ _ _ _ _ Hg) as (Em & x & Hx).
    destruct (mc_expire_ok now n s1 k a x e) as (s3 & E3 & HI3 & Hvw); [eapply mc_inv_le; [|exact HI1]; lia|by rewrite Em|].
    exists (Some a), c, false, s1, s1, s3. split_and!; [done| |done|done|rewrite Hvw, Em; cbv zeta; cbn [default from_option id]; by rewrite (proj2 (Z.ltb_ge _ _))]. unfold sdb_set, nonzero, mbind, M_bind. by rewrite set_too_long.
Qed.

Lemma mc_append_done now n m k e v : mc_inv (S (S n)) (ms_sdb m) → key_ok k → val_ok v → v ≠ [] → ∃ vw,
  mc_spec now (MAppend k e v) (mc_view (ms_sdb m)) = (MDone true, vw) ∧ mc_done n (mcsdb_append now k e v) m tt vw.
Proof.
  intros HI Hk [Hcv Hlv] Hne. eexists. split; [done|].
  destruct (extend_ok now n (ms_sdb m) k e (λ a, a ++ v) HI Hk) as (a & c & b & s1 & s2 & s3 & E1 & E2 & E3 & HI3 & Hvw).
  { intros a Ha. by apply Forall_app. } { intros a E%app_eq_nil. by destruct E. } { done. }
  unfold mc_done, mcsdb_append. run_mc. rewrite E1. run_mc. rewrite E2. run_mc. rewrite E3. eexists. split; [done|]. by split.
Qed.

Lemma mc_prepend_done now n m k e v : mc_inv (S (S n)) (ms_sdb m) → key_ok k → val_ok v → v ≠ [] → ∃ vw,
  mc_spec now (MPrepend k e v) (mc_view (ms_sdb m)) = (MDone true, vw) ∧ mc_done n (mcsdb_prepend now k e v) m tt vw.
Proof.
  intros HI Hk [Hcv Hlv] Hne. eexists. split; [done|].
  destruct (extend_ok now n (ms_sdb m) k e (λ a, v ++ a) HI Hk) as (a & c & b & s1 & s2 & s3 & E1 & E2 & E3 & HI3 & Hvw).
  { intros a Ha. by apply Forall_app. } { intros a E%app_eq_nil. by destruct E. } { by rewrite app_nil_r. }
  unfold mc_done, mcsdb_prepend. run_mc. rewrite E1. run_mc. rewrite E2. run_mc. rewrite E3. eexists. split; [done|]. by split.
Qed.

Lemma mc_step_done now n m o : mc_inv (S (S n)) (ms_sdb m) → mc_op_ok o → ∃ r vw,
  mc_spec now o (mc_view (ms_sdb m)) = (r, vw) ∧ mc_done n (mc_step now o) m r vw.
Proof.
  intros HI Ho. assert (mc_inv (S n) (ms_sdb m)) as HI1 by (eapply mc_inv_le; [|exact HI]; lia).
  destruct o as [k e v|k e v|k e v|k e v|k e v|k|k e|k e]; cbn [mc_op_ok] in Ho; unfold mc_done, mc_step, mbind, MC_bind.
  - destruct Ho as (Hk & Hv & Hne). destruct (mc_set_done now n m k e v HI1 Hk Hv Hne) as (m' & E & ? & ?). rewrite E. eexists _, _. split; [done|]. by eexists.
  - destruct Ho as (Hk & Hv & Hne). destruct (mc_add_done now n m k e v HI1 Hk Hv Hne) as (r & vw & Es & m' & E & ? & ?). eexists _, vw. split; [exact Es|]. rewrite E. by eexists.
  - destruct Ho as (Hk & Hv & Hne). destruct (mc_replace_done now n m k e v HI1 Hk Hv Hne) as (r & vw & Es & m' & E & ? & ?). eexists _, vw. split; [exact Es|]. rewrite E. by eexists.
  - destruct Ho as (Hk & Hv & Hne). destruct (mc_append_done now n m k e v HI Hk Hv Hne) as (vw & Es & m' & E & ? & ?). eexists _, vw. split; [exact Es|]. rewrite E. exists m'. by split_and!.
  - destruct Ho as (Hk & Hv & Hne). destruct (mc_prepend_done now n m k e v HI Hk Hv Hne) as (vw & Es & m' & E & ? & ?). eexists _, vw. split; [exact Es|]. rewrite E. exists m'. by split_and!.
  - destruct (mc_get_done now n m k HI1 Ho) as (v & x & c & vw & Es & m' & E & ? & ?). eexists _, vw. split; [exact Es|]. rewrite E. exists m'. by split_and!.
  - destruct (mc_remove_done now n m k e HI1 Ho) as (r & vw & Es & m' & E & ? & ?). eexists _, vw. split; [exact Es|]. rewrite E. exists m'. by split_and!.
  - destruct (mc_touch_done now n m k e HI1) as (r & vw & Es & m' & E & ? & ?). eexists _, vw. split; [exact Es|]. rewrite E. exists m'. by split_and!.
Qed.

(** Commands with the time at which they are given. *)
Fixpoint mc_run (ops : list (Z * mc_op)) : MC (list mc_res) :=
  match ops with
  | [] => mret []
  | (now, o) :: ops => r ← mc_step now o; rs ← mc_run ops; mret (r :: rs)
  end.

Fixpoint mc_spec_run (ops : list (Z * mc_op)) (m : gmap bytes (bytes * Z)) : list mc_res * gmap bytes (bytes * Z) :=
  match ops with
  | [] => ([], m)
  | (now, o) :: ops => let '(r, m) := mc_spec now o m in let '(rs, m) := mc_spec_run ops m in (r :: rs, m)
  end.

Lemma mc_run_done ops n m : mc_inv (2 * length ops + n) (ms_sdb m) → Forall (λ p, mc_op_ok p.2) ops →
  ∃ rs vw, mc_spec_run ops (mc_view (ms_sdb m)) = (rs, vw) ∧ mc_done n (mc_run ops) m rs vw.
Proof.
  revert m. induction ops as [|[now o] ops IH]; intros m HI Hok; cbn [mc_run mc_spec_run].
  { eexists _, _. split; [done|]. by eexists. }
  apply Forall_cons in Hok as [Ho Hok]. destruct (mc_step_done now (2 * length ops + n) m o) as (r & vw & Es & m1 & E1 & HI1 & Hvw1); [eapply mc_inv_le; [|exact HI]; simpl; lia|done|].
  destruct (IH m1 HI1 Hok) as (rs & vw2 & Es2 & m2 & E2 & HI2 & Hvw2). rewrite Es, <- Hvw1, Es2. eexists _, _. split; [done|]. exists m2. split_and!; [|done|done].
  unfold mbind, MC_bind. by rewrite E1, E2.
Qed.

Lemma mc_new_inv n : 2 * Z.of_nat n + 1 < 2 ^ 31 → ∃ s, sdb_new0 = Some s ∧ mc_inv n s ∧ mc_view s = ∅.
Proof.
  intros Hn. destruct (sdb_ht_new_spec (λ _, true) n) as (t & Et & Hi & Hm & _); [done..|]. unfold sdb_new0. rewrite Et. eexists. split; [done|]. split.
  - split; cbn [ht untimed set_stamp timestamped]; [split; cbn [ht untimed set_stamp fd db gp timestamped]; [exact Hi|done|done|done|rewrite Hm; apply map_Forall_empty]|rewrite Hm; intros; apply map_Forall_empty..].
  - unfold mc_view. cbn [ht]. rewrite Hm. apply omap_empty.
Qed.

(** C8: The memcache store is a map from keys to values with an expiration: for sequences of fewer
    than 2^29 of the commands set, add, replace, append, prepend, get, remove and touch (not incr,
    decr, cas and flush), with keys shorter than the limit of a key and with C strings as values
    that are not empty (an empty one makes the store read through a null pointer:
    [udp_empty_value_crashes]) and within the limit of a value, given at whatever times: each
    answers as on the map, where a value whose time has passed is not read any more and is dropped
    by the read, and none of them reads through a null pointer. *)
Theorem mc_refines_expiring_map start (ops : list (Z * mc_op)) : 4 * Z.of_nat (length ops) + 1 < 2 ^ 31 → Forall (λ p, mc_op_ok p.2) ops →
  ∃ s m, sdb_new0 = Some s ∧ mcsdb_new start (Some s) true = Some m ∧
  let '(rs, vw) := mc_spec_run ops ∅ in ∃ m', mc_run ops m = Some (rs, m') ∧ mc_view (ms_sdb m') = vw.
Proof.
  intros Hl Hok. destruct (mc_new_inv (2 * length ops + 0)) as (s & Es & HI & Hv); [lia|]. exists s. eexists. split; [done|]. split; [done|].
  destruct (mc_run_done ops 0 (mkMc s start 0 0 0 0 0 0 0 0 0) HI Hok) as (rs & vw & E & m' & E' & _ & Hv'). cbn [ms_sdb] in E. rewrite Hv in E. rewrite E. eauto.
Qed.

Definition mc_demo : list (Z * mc_op) :=
  [(1000, MSet (str "k") 60 (str "v")); (1060, MGet (str "k")); (1061, MAdd (str "k") 0 (str "w")); (1061, MGet (str "k")); (1062, MAdd (str "k") 0 (str "w"));
   (1063, MAppend (str "k") 0 (str "x")); (2000, MGet (str "k")); (2000, MRemove (str "k") 0); (2000, MTouch (str "k") 1)].

Lemma mc_refines_expiring_map_witness :
  ∃ s m m', sdb_new0 = Some s ∧ mcsdb_new 900 (Some s) true = Some m ∧
    mc_run mc_demo m = Some ([MDone true; MValue (Some (str "v")) 1060; MDone false; MValue None 0; MDone true; MDone true; MValue (Some (str "wx")) 0; MDone true; MDone false], m').
Proof.
  destruct (mc_refines_expiring_map 900 mc_demo) as (s & m & Es & Em & Hr); [done|by repeat constructor|].
  assert ((mc_spec_run mc_demo ∅).1 = [MDone true; MValue (Some (str "v")) 1060; MDone false; MValue None 0; MDone true; MDone true; MValue (Some (str "wx")) 0; MDone true; MDone false])
    as Ers by (vm_compute; reflexivity).
  destruct (mc_spec_run mc_demo ∅) as [rs vw]. cbn [fst] in Ers. subst rs. destruct Hr as (m' & E & _). by exists s, m, m'.
Defined.
