(* ===== verification/McWire.v ===== *)
(** * The memcache server and its client library

    What the server answers to the calls of the client library, from the packets on the
    socket to the bytes that are sent back. *)

From S2P Require Import Prelude Util Ht HashTables Buffer CdbMake CdbTables Cdb SdbCore Num JsonIndent Match SdbIter Mc McServer McClient McFacts.

(** ** The steps of the server *)

Lemma sv_bind_ok {A B} (m : SV A) (k : A → SV B) s a s' : m s = SOk a s' → (m ≫= k) s = k a s'.
Proof. intros E. unfold mbind, SV_bind. by rewrite E. Qed.

Lemma client_bind {B} (k : McSdbClient → SV B) s : (client ≫= k) s = k (v_c s) s.
Proof. done. Qed.

Lemma upd_bind {B} f (k : () → SV B) ms c n i : (upd_client f ≫= k) (mkSrv ms c n i) = k tt (mkSrv ms (f c) n i).
Proof. done. Qed.

Lemma ret_bind {A B} (a : A) (k : A → SV B) s : (mret a ≫= k) s = k a s.
Proof. done. Qed.

Lemma bind_bind {A B C} (m : SV A) (k : A → SV B) (k' : B → SV C) s : ((m ≫= k) ≫= k') s = (m ≫= λ a, k a ≫= k') s.
Proof. unfold mbind, SV_bind. by destruct (m s). Qed.

Lemma on_ms_ok {A} (f : MC A) ms c n i a ms' : f ms = Some (a, ms') → on_ms f (mkSrv ms c n i) = SOk a (mkSrv ms' c n i).
Proof. intros E. unfold on_ms. cbn [v_ms v_c v_net v_in]. by rewrite E. Qed.

Section buffer.
Context (ms : McSdb) (fd mo le ix nx h : Z) (e : Z) (key : bytes) (net : NetOut) (inp : list (option bytes)).
Local Abbreviation st b := (mkSrv ms (mkClient fd mo le ix nx h b e key) net inp).

Lemma store_app i l buf a b c : buf = a ++ b ++ c → slen a = i → length b = length l → store i l (st buf) = SOk tt (st (a ++ l ++ c)).
Proof.
  intros -> Ha Hb. unfold store, mbind, SV_bind, client. cbn [v_c c_buf]. unfold slen in *. rewrite (proj2 (Z.ltb_ge i 0)), (proj2 (Z.ltb_ge _ _)) by (rewrite ?length_app; lia).
  cbn [orb]. cbv zeta. rewrite take_app_length' by lia. rewrite (app_assoc a b c). rewrite (drop_app_length' (a ++ b)) by (rewrite length_app; lia). done.
Qed.

Lemma poke_app i x y buf a c : buf = a ++ y :: c → slen a = i → poke i x (st buf) = SOk tt (st (a ++ x :: c)).
Proof. intros -> Ha. by apply (store_app i [x] _ a [y] c). Qed.

Lemma text_in_app i t buf a c : buf = a ++ t ++ 0 :: c → slen a = i → is_cstr t → text_in buf i = Some t.
Proof.
  intros -> Ha Ht. unfold text_in. unfold slen in *. rewrite (proj2 (Z.ltb_ge i 0)), (proj2 (Z.ltb_ge _ _)) by (rewrite ?length_app; lia). cbn [orb].
  rewrite drop_app_length' by lia. rewrite cstr_app_nul by done. rewrite (proj2 (Nat.ltb_lt _ _)); [done|]. rewrite length_app. simpl. lia.
Qed.

Lemma text_app i t buf a c : buf = a ++ t ++ 0 :: c → slen a = i → is_cstr t → text i (st buf) = SOk t (st buf).
Proof. intros E Ha Ht. unfold text, mbind, SV_bind, client. cbn [v_c c_buf]. by rewrite (text_in_app i t buf a c). Qed.

Lemma strchr_absent x ch : ch ∉ x → strchr x ch = None.
Proof. induction x as [|z x IH]; intros Hn; cbn [strchr]; [done|]. rewrite (proj2 (Z.eqb_neq z ch)) by set_solver. apply IH. set_solver. Qed.

Lemma find_chr_app i ch x y buf a c : buf = a ++ (x ++ ch :: y) ++ 0 :: c → slen a = i → is_cstr (x ++ ch :: y) → ch ∉ x →
  find_chr i ch (st buf) = SOk (Some (i + slen x)) (st buf).
Proof.
  intros E Ha Ht Hn. unfold find_chr. rewrite (sv_bind_ok _ _ _ _ _ (text_app i _ buf a c E Ha Ht)). rewrite strchr_app by done. cbn. unfold mret, SV_ret. do 2 f_equal.
  unfold slen. rewrite length_app. lia.
Qed.

Lemma find_chr_absent i ch t buf a c : buf = a ++ t ++ 0 :: c → slen a = i → is_cstr t → ch ∉ t → find_chr i ch (st buf) = SOk None (st buf).
Proof.
  intros E Ha Ht Hn. unfold find_chr. rewrite (sv_bind_ok _ _ _ _ _ (text_app i _ buf a c E Ha Ht)). by rewrite strchr_absent.
Qed.

Lemma peek_app i x buf a c : buf = a ++ x :: c → slen a = i → peek i (st buf) = SOk x (st buf).
Proof.
  intros -> Ha. unfold peek, mbind, SV_bind, client. cbn [v_c c_buf]. unfold slen in *. rewrite (proj2 (Z.ltb_ge i 0)) by lia.
  rewrite lookup_app_r by lia. replace (Z.to_nat i - length a)%nat with 0%nat by lia. done.
Qed.

End buffer.

(** ** Numbers *)

Definition is_digit (c : Z) : Prop := 48 <= c <= 57.

Lemma digit_val_10 d : 0 <= d < 10 → is_digit (digit d) ∧ digit_val 10 (digit d) = Some d.
Proof. intros Hd. unfold digit. rewrite (proj2 (Z.ltb_lt d 10)) by lia. split; [unfold is_digit; lia|]. unfold digit_val. rewrite (proj2 (Z.leb_le 48 _)), (proj2 (Z.leb_le _ 57)) by lia. cbn [andb]. replace (48 + d - 48) with d by lia. by rewrite (proj2 (Z.ltb_lt d 10)) by lia. Qed.

(** The text of a number reads back as the number. *)
Lemma scan_text f n acc : 0 <= n < 10 ^ Z.of_nat f → (0 < f)%nat → ∃ d, digits 10 f n acc = d ++ acc ∧ d ≠ [] ∧ Forall is_digit d ∧ (length d <= f)%nat ∧
  ∀ s a, scan_digits (d ++ s) a = scan_digits s (a * 10 ^ slen d + n).
Proof.
  revert n acc. induction f as [|f IH]; intros n acc Hn Hf; [lia|]. cbn [digits]. destruct (digit_val_10 (n mod 10) ltac:(apply Z.mod_pos_bound; lia)) as [Hd Hv].
  assert (n = 10 * (n / 10) + n mod 10) as En by (apply Z.div_mod; lia). destruct (n / 10 =? 0) eqn:E0; zbool.
  - exists [digit (n mod 10)]. split_and!; [done|done|by constructor|simpl; lia|]. intros s a. cbn [app scan_digits]. rewrite Hv. f_equal. change (slen [digit (n mod 10)]) with 1. rewrite E0 in En. lia.
  - assert (0 <= n / 10) by (apply Z.div_pos; lia). destruct (IH (n / 10) (digit (n mod 10) :: acc)) as (d & Ed & Hne & Hds & Hl & Hs).
    { split; [done|]. apply Z.div_lt_upper_bound; [lia|]. rewrite Nat2Z.inj_succ, Z.pow_succ_r in Hn by lia. lia. }
    { destruct f; [|lia]. change (10 ^ Z.of_nat 1) with 10 in Hn. rewrite Z.div_small in E0 by lia. done. }
    exists (d ++ [digit (n mod 10)]). split_and!; [by rewrite <- app_assoc|by destruct d|by apply Forall_app; split; [|constructor]|rewrite length_app; simpl; lia|].
    intros s a. rewrite <- app_assoc, Hs. cbn [app scan_digits]. rewrite Hv. f_equal.
    assert (10 ^ slen (d ++ [digit (n mod 10)]) = 10 ^ slen d * 10) as -> by (unfold slen; rewrite length_app, Nat2Z.inj_add, Z.pow_add_r by lia; done). lia.
Qed.

Lemma digits_text f n : 0 <= n < 10 ^ Z.of_nat f → (0 < f)%nat → digits 10 f n [] ≠ [] ∧ Forall is_digit (digits 10 f n []) ∧ (length (digits 10 f n []) <= f)%nat ∧
  ∀ s, digit_val 10 (hd0 s) = None → scan_digits (digits 10 f n [] ++ s) 0 = (n, s).
Proof.
  intros Hn Hf. destruct (scan_text f n [] Hn Hf) as (d & Ed & Hne & Hd & Hl & Hs). rewrite app_nil_r in Ed. rewrite Ed. split_and!; [done..|].
  intros s Hx. rewrite Hs. replace (0 * 10 ^ slen d + n) with n by lia. destruct s as [|c s]; [done|]. cbn [scan_digits]. cbn in Hx. by rewrite Hx.
Qed.

Lemma is_digit_char c : is_digit c → isspace c = false ∧ c =? 45 = false ∧ c =? 43 = false ∧ is_char c ∧ is_Some (digit_val 10 c).
Proof.
  intros Hc. unfold is_digit in Hc. split_and!; try (apply Z.eqb_neq; lia).
  - unfold isspace. rewrite (proj2 (Z.eqb_neq c 32)), (proj2 (Z.leb_gt c 13)) by lia. by rewrite andb_false_r.
  - unfold is_char. lia.
  - unfold digit_val. rewrite (proj2 (Z.leb_le 48 _)), (proj2 (Z.leb_le _ 57)) by lia. cbn [andb]. rewrite (proj2 (Z.ltb_lt _ 10)) by lia. eauto.
Qed.

Lemma scan_num_digits f n sp s : 0 <= n < 10 ^ Z.of_nat f → (0 < f)%nat → (sp = [] ∨ sp = [32]) → digit_val 10 (hd0 s) = None →
  scan_num (sp ++ digits 10 f n [] ++ s) = Some (false, n, s).
Proof.
  intros Hn Hf Hsp Hx. destruct (digits_text f n Hn Hf) as (Hne & Hd & _ & Hs). specialize (Hs s Hx). unfold scan_num.
  assert (skip_spaces (sp ++ digits 10 f n [] ++ s) = digits 10 f n [] ++ s) as ->.
  { assert (skip_spaces (digits 10 f n [] ++ s) = digits 10 f n [] ++ s) as E; [|destruct Hsp; subst sp; [done|cbn [app skip_spaces]; done]].
    destruct (digits 10 f n []) as [|c d]; [done|]. apply Forall_cons in Hd as [Hc _]. cbn [app skip_spaces]. by destruct (is_digit_char c Hc) as (-> & _). }
  unfold strtoull_sign. destruct (digits 10 f n []) as [|c d]; [done|]. apply Forall_cons in Hd as [Hc _]. cbn [app hd0 hd]. cbn [app] in Hs.
  change (hd0 (c :: d ++ s)) with c. destruct (is_digit_char c Hc) as (_ & -> & -> & _ & [v Ev]). change (hd0 (c :: d ++ s)) with c. by rewrite Ev, Hs.
Qed.

(** ** The output *)

Definition net_text (n : NetOut) : bytes := sent n ++ netbuf n.

Lemma write_up t n : up n = true → net_write_all t n = (0, mkNet (netbuf n) (sent n ++ t) true).
Proof.
  intros Hu. unfold net_write_all. rewrite Hu. destruct t as [|c t]; [|done]. cbn. rewrite app_nil_r. destruct n. cbn in *. by rewrite Hu.
Qed.

Lemma flush_up n : up n = true → ∃ r, net_flush n = (r, mkNet [] (net_text n) true) ∧ 0 <= r.
Proof.
  intros Hu. unfold net_flush. destruct (slen (netbuf n) <? 1) eqn:El; zbool.
  - exists 0. split; [|lia]. unfold net_text. destruct n as [b t u]. cbn in *. subst u. destruct b; [by rewrite app_nil_r|unfold slen in El; simpl in El; lia].
  - rewrite write_up by done. cbn. exists (slen (netbuf n)). split; [done|lia].
Qed.

Lemma say_up t n : up n = true → ∃ r n', net_printf t n = (r, n') ∧ up n' = true ∧ net_text n' = net_text n ++ t.
Proof.
  intros Hu. unfold net_printf. destruct (MCSDB_MAX_BUFFER <? slen t).
  - destruct (flush_up n Hu) as (r & -> & Hr). rewrite (proj2 (Z.ltb_ge r 0)) by lia. rewrite write_up by done. eexists _, _. split; [done|]. split; [done|]. unfold net_text. cbn. by rewrite app_nil_r.
  - destruct (MCSDB_MAX_BUFFER - slen (netbuf n) <? slen t).
    + destruct (flush_up n Hu) as (r & -> & Hr). rewrite (proj2 (Z.ltb_ge r 0)) by lia. eexists _, _. split; [done|]. by split.
    + cbn. eexists _, _. split; [done|]. split; [done|]. unfold net_text. cbn. by rewrite app_assoc.
Qed.

Lemma say_ok t ms c n inp : up n = true → ∃ n', say t (mkSrv ms c n inp) = SOk tt (mkSrv ms c n' inp) ∧ up n' = true ∧ net_text n' = net_text n ++ t.
Proof. intros Hu. destruct (say_up t n Hu) as (r & n' & E & ?). exists n'. unfold say. cbn [v_net v_ms v_c v_in]. by rewrite E. Qed.

(** ** Reading a line *)

Ltac sv_run E := rewrite (sv_bind_ok _ _ _ _ _ E); cbv beta zeta iota.

Ltac cstr_tac := unfold is_cstr; repeat first [done | apply Forall_app; split | apply Forall_cons; split; [unfold is_char; lia|] | apply Forall_nil].

Ltac len_tac := unfold slen in *; repeat (progress (rewrite ?length_app, ?length_drop, ?length_take; cbn [length])); cbn [length] in *; lia.

Section reading.
Context (ms : McSdb) (fd le h e : Z) (key : bytes) (net : NetOut) (rest : list (option bytes)).
Context (Hle : 0 <= le < MCSDB_MAX_BUFFER).

Lemma idle_state mo buf inp : (if mo =? 0 then read_line else if mo =? 1 then read_data else mret 0) (mkSrv ms (mkClient fd mo le 0 0 h buf e key) net inp) =
  mcsdb_client_state (mkSrv ms (mkClient fd mo le 0 0 h buf e key) net inp).
Proof.
  unfold mcsdb_client_state, shift_rest, chop, mbind, SV_bind, client. cbn [v_c c_next c_len c_idx]. change (0 <? 0) with false. cbv iota. unfold mret, SV_ret.
  cbn [v_c c_next c_len c_idx]. rewrite (proj2 (Z.leb_gt MCSDB_MAX_BUFFER (le + 0))) by lia. cbv iota. cbn [v_c c_mode]. done.
Qed.

(** The packet [x ++ CRLF] is read at the front of an idle client. *)
Lemma read_command buf x : length buf = 4096%nat → is_cstr x → x ≠ [] → 10 ∉ x → slen x + 2 < MCSDB_MAX_BUFFER →
  mcsdb_client_state (mkSrv ms (mkClient fd 0 le 0 0 h buf e key) net (Some (line x) :: rest)) =
  SOk 1 (mkSrv ms (mkClient fd 0 le (slen x + 2) (slen x + 2) h (x ++ 0 :: 0 :: 0 :: drop (length x + 3) buf) e key) net rest).
Proof.
  intros Hb Hc Hne Hnl Hl. rewrite <- idle_state. change (0 =? 0) with true. cbv iota. unfold read_line. unfold MCSDB_MAX_BUFFER in *.
  assert (slen (line x) = slen x + 2) as Hll by (unfold line, CRLF; len_tac).
  rewrite client_bind. cbn [v_c c_idx c_next]. change (negb (0 =? 0)) with false. cbv iota zeta.
  assert (sock_read (4096 - 1 - 0) (mkSrv ms (mkClient fd 0 le 0 0 h buf e key) net (Some (line x) :: rest)) = SOk (Some (line x)) (mkSrv ms (mkClient fd 0 le 0 0 h buf e key) net rest)) as E.
  { unfold sock_read. cbn [v_in v_ms v_c v_net]. destruct (line x) as [|c0 l0] eqn:El; [by destruct x|]. rewrite take_ge, drop_ge by (unfold slen in *; lia). done. }
  sv_run E. rewrite Hll. destruct (lookup_lt_is_Some_2 buf (length x + 2)) as [y Hy]; [unfold slen in *; lia|].
  pose proof (take_drop_middle _ _ _ Hy) as Eb. symmetry in Eb. replace (S (length x + 2)) with (length x + 3)%nat in Eb by lia. set (c := drop (length x + 3) buf) in *.
  assert (length (take (length x + 2) buf) = length (line x)) as Hlt by (rewrite length_take; unfold slen in *; lia).
  sv_run (store_app ms fd 0 le 0 0 h e key net rest 0 (line x) buf [] _ _ Eb eq_refl Hlt).
  sv_run (poke_app ms fd 0 le 0 0 h e key net rest (0 + (slen x + 2)) 0 y ([] ++ line x ++ y :: c) (line x) c eq_refl ltac:(lia)).
  assert (line x ++ 0 :: c = [] ++ ((x ++ [13]) ++ 10 :: []) ++ 0 :: c) as E1 by (unfold line, CRLF; cbn [app]; by rewrite <- !app_assoc).
  assert (is_cstr ((x ++ [13]) ++ 10 :: [])) as Hc1 by cstr_tac.
  assert (10 ∉ x ++ [13]) as Hn1 by set_solver.
  sv_run (find_chr_app ms fd 0 le 0 0 h e key net rest 0 10 (x ++ [13]) [] _ [] c E1 eq_refl Hc1 Hn1).
  assert (slen (x ++ [13]) = slen x + 1) as Hs1 by len_tac. rewrite Hs1.
  sv_run (poke_app ms fd 0 le 0 0 h e key net rest (0 + (slen x + 1)) 0 10 (line x ++ 0 :: c) (x ++ [13]) (0 :: c) ltac:(rewrite E1; cbn [app]; by rewrite <- !app_assoc) ltac:(lia)).
  assert (0 < slen x) by (destruct x; [done|unfold slen; simpl; lia]). rewrite (proj2 (Z.ltb_lt 0 _)) by lia. rewrite <- app_assoc. cbn [app].
  assert (peek (0 + (slen x + 1) - 1) (mkSrv ms (mkClient fd 0 le 0 0 h (x ++ 13 :: 0 :: 0 :: c) e key) net rest) = SOk 13 (mkSrv ms (mkClient fd 0 le 0 0 h (x ++ 13 :: 0 :: 0 :: c) e key) net rest)) as Ep
    by (apply (peek_app ms fd 0 le 0 0 h e key net rest _ 13 _ x (0 :: 0 :: c)); [done|lia]).
  rewrite bind_bind. sv_run Ep. change (13 =? 13) with true. cbv iota.
  sv_run (poke_app ms fd 0 le 0 0 h e key net rest (0 + (slen x + 1) - 1) 0 13 _ x (0 :: 0 :: c) eq_refl ltac:(lia)).
  rewrite upd_bind. unfold set_pos, mret, SV_ret. cbn [c_fd c_mode c_len c_idx c_next c_cmdhash c_buf c_exptime c_key]. do 3 f_equal; lia.
Qed.

End reading.

(** ** A command line *)

Definition word_ok (w : bytes) : Prop := is_cstr w ∧ w ≠ [] ∧ 32 ∉ w ∧ tolower <$> w = w.

(** A key that the protocol carries: a word, of a length that the database accepts. *)
Definition wire_key (k : bytes) : Prop := is_cstr k ∧ 32 ∉ k ∧ 10 ∉ k ∧ slen k < SDB_KSZ.

Section command.
Context (env : McEnv) (ms : McSdb) (fd le ix nx h e : Z) (key : bytes) (net : NetOut) (inp : list (option bytes)).
Local Abbreviation st buf := (mkSrv ms (mkClient fd 0 le ix nx h buf e key) net inp).
Local Abbreviation stk k buf := (mkSrv ms (mkClient fd 0 le ix nx h buf e k) net inp).

Lemma take_key k : wire_key k → take 255 k = k.
Proof. intros (_ & _ & _ & Hl). apply take_ge. unfold slen, SDB_KSZ in Hl. lia. Qed.

Lemma split_one w k c : word_ok w → wire_key k →
  split_line (st (w ++ 32 :: k ++ 0 :: c)) = SOk (Some (slen w + 1), None) (stk k (w ++ 0 :: k ++ 0 :: c)).
Proof.
  intros (Hw & Hne & Hsp & _) Hk. pose proof (take_key k Hk) as Htk. destruct Hk as (Hk & Hks & _ & _). unfold split_line.
  sv_run (find_chr_app ms fd 0 le ix nx h e key net inp 0 32 w k _ [] c ltac:(cbn [app]; by rewrite <- app_assoc) eq_refl ltac:(cstr_tac) Hsp).
  sv_run (poke_app ms fd 0 le ix nx h e key net inp (0 + slen w) 0 32 _ w (k ++ 0 :: c) eq_refl ltac:(lia)).
  assert (w ++ 0 :: k ++ 0 :: c = (w ++ [0]) ++ k ++ 0 :: c) as E by (by rewrite <- app_assoc). assert (slen (w ++ [0]) = 0 + slen w + 1) as El by len_tac.
  sv_run (find_chr_absent ms fd 0 le ix nx h e key net inp (0 + slen w + 1) 32 k _ _ c E El Hk Hks). rewrite ret_bind.
  sv_run (text_app ms fd 0 le ix nx h e key net inp (0 + slen w + 1) k _ _ c E El Hk). rewrite upd_bind, Htk. done.
Qed.

Lemma split_two w k r c : word_ok w → wire_key k → is_cstr r →
  split_line (st (w ++ 32 :: k ++ 32 :: r ++ 0 :: c)) = SOk (Some (slen w + 1), Some (slen w + 1 + slen k + 1)) (stk k (w ++ 0 :: k ++ 32 :: r ++ 0 :: c)).
Proof.
  intros (Hw & Hne & Hsp & _) Hk Hr. pose proof (take_key k Hk) as Htk. destruct Hk as (Hk & Hks & _ & _). unfold split_line.
  sv_run (find_chr_app ms fd 0 le ix nx h e key net inp 0 32 w (k ++ 32 :: r) _ [] c ltac:(cbn [app]; rewrite <- app_assoc; cbn [app]; by rewrite <- app_assoc) eq_refl ltac:(cstr_tac) Hsp).
  sv_run (poke_app ms fd 0 le ix nx h e key net inp (0 + slen w) 0 32 _ w (k ++ 32 :: r ++ 0 :: c) eq_refl ltac:(lia)).
  assert (∀ z, w ++ 0 :: k ++ z :: r ++ 0 :: c = (w ++ [0]) ++ k ++ z :: r ++ 0 :: c) as E by (intros; by rewrite <- app_assoc). assert (slen (w ++ [0]) = 0 + slen w + 1) as El by len_tac.
  sv_run (find_chr_app ms fd 0 le ix nx h e key net inp (0 + slen w + 1) 32 k r (w ++ 0 :: k ++ 32 :: r ++ 0 :: c) (w ++ [0]) c ltac:(rewrite E; by rewrite <- (app_assoc k)) El ltac:(cstr_tac) Hks).
  assert (∀ z, w ++ 0 :: k ++ z :: r ++ 0 :: c = (w ++ 0 :: k) ++ z :: r ++ 0 :: c) as E2 by (intros; by rewrite <- app_assoc). assert (slen (w ++ 0 :: k) = 0 + slen w + 1 + slen k) as El2 by len_tac.
  sv_run (poke_app ms fd 0 le ix nx h e key net inp (0 + slen w + 1 + slen k) 0 32 _ (w ++ 0 :: k) (r ++ 0 :: c) (E2 32) El2). rewrite <- E2.
  sv_run (text_app ms fd 0 le ix nx h e key net inp (0 + slen w + 1) k _ (w ++ [0]) (r ++ 0 :: c) (E 0) El Hk). rewrite upd_bind, Htk.
  sv_run (poke_app ms fd 0 le ix nx h e k net inp (0 + slen w + 1 + slen k) 32 0 _ (w ++ 0 :: k) (r ++ 0 :: c) (E2 0) El2). by rewrite <- E2.
Qed.

Lemma lower_word w c : word_ok w → strtolower (st (w ++ 0 :: c)) = SOk tt (st (w ++ 0 :: c)).
Proof.
  intros (Hw & _ & _ & Hl). unfold strtolower. sv_run (text_app ms fd 0 le ix nx h e key net inp 0 w _ [] c eq_refl eq_refl Hw). rewrite Hl.
  by apply (store_app ms fd 0 le ix nx h e key net inp 0 w _ [] w).
Qed.

End command.

Ltac dispatch :=
  repeat match goal with |- context [sdb_hash ?a =? ?b] => let r := eval vm_compute in (sdb_hash a =? b) in replace (sdb_hash a =? b) with r by (vm_compute; reflexivity) end;
  cbn [orb]; cbv iota.

Ltac word_tac := split_and!; [repeat constructor|done|by apply (bool_decide_unpack _); vm_compute|done].

Section dispatch.
Context (env : McEnv) (ms : McSdb) (fd le ix nx h e : Z) (key : bytes) (net : NetOut) (inp : list (option bytes)).
Local Abbreviation st buf := (mkSrv ms (mkClient fd 0 le ix nx h buf e key) net inp).
Local Abbreviation stk k buf := (mkSrv ms (mkClient fd 0 le ix nx h buf e k) net inp).

Lemma line_mode buf x c : buf = x :: c → is_char x → protocol_handle env (st buf) = handle_line env (st buf).
Proof.
  intros -> Hx. unfold protocol_handle. sv_run (peek_app ms fd 0 le ix nx h e key net inp 0 x _ [] c eq_refl eq_refl). unfold is_char in Hx. rewrite (proj2 (Z.eqb_neq x 0)) by lia. done.
Qed.

(** The header of a command with data. *)
Definition data_header (n : Z) : bytes := str "0 0 " ++ dec_text n.

Lemma dec_digits n : 0 <= n → dec_text n = digits 10 10 n [].
Proof. intros Hn. unfold dec_text. rewrite (proj2 (Z.ltb_ge n 0)), Z.abs_eq by lia. done. Qed.

Lemma digits_cstr d : Forall is_digit d → is_cstr d ∧ 32 ∉ d ∧ 10 ∉ d.
Proof.
  intros Hd. rewrite Forall_forall in Hd. split_and!; [apply Forall_forall; intros x Hx; apply (is_digit_char x (Hd x Hx))|intros Hx; specialize (Hd _ Hx); unfold is_digit in Hd; lia..].
Qed.

Lemma data_header_ok n : 0 <= n < 10 ^ 10 → is_cstr (data_header n) ∧ 10 ∉ data_header n ∧ slen (data_header n) <= 14 ∧ ∀ x, n < 2 ^ 31 → scan_header (data_header n) x = (3, 0, n).
Proof.
  intros Hn. unfold data_header. rewrite dec_digits by lia. destruct (digits_text 10 n) as (_ & Hd & Hl & _); [done|lia|]. destruct (digits_cstr _ Hd) as (Hc & _ & Hnl). split_and!.
  - apply Forall_app. split; [repeat constructor|done].
  - rewrite elem_of_app. intros [Hx|Hx]; [|done]. revert Hx. by apply (bool_decide_unpack _); vm_compute.
  - unfold slen. rewrite length_app. change (length (str "0 0 ")) with 4%nat. lia.
  - intros x Hx. unfold scan_header.
    change (scan_num (str "0 0 " ++ digits 10 10 n [])) with (Some (false, 0, 32 :: 48 :: 32 :: digits 10 10 n [])). cbv iota.
    change (scan_num (32 :: 48 :: 32 :: digits 10 10 n [])) with (Some (false, 0, 32 :: digits 10 10 n [])). cbv iota.
    assert (scan_num (32 :: digits 10 10 n []) = Some (false, n, [])) as ->.
    { rewrite <- (app_nil_r (digits 10 10 n [])) at 1. by apply (scan_num_digits 10 n [32] []); [|lia|auto|]. }
    unfold as_int, s32. rewrite Z.min_l by lia. rewrite Z.mod_small by lia. do 2 f_equal. lia.
Qed.

Lemma store_line w k n c : (w = str "set" ∨ w = str "add") → wire_key k → 1 <= n <= MCSDB_MAX_BUFFER - 2 →
  protocol_handle env (st (w ++ 32 :: k ++ 32 :: data_header n ++ 0 :: c)) =
  SOk 1 (mkSrv ms (mkClient fd 1 (n + 1) nx nx (sdb_hash w) (w ++ 0 :: k ++ 32 :: data_header n ++ 0 :: c) 0 k) net inp).
Proof.
  intros Hw Hk Hn. unfold MCSDB_MAX_BUFFER in Hn. destruct (data_header_ok n) as (Hc & _ & _ & Hs); [lia|]. specialize (Hs e ltac:(lia)). assert (word_ok w) as Hwo by (destruct Hw as [-> | ->]; word_tac).
  assert (∃ x w', w = x :: w' ∧ is_char x) as (x & w' & Ew & Hx) by (destruct Hw as [-> | ->]; eexists _, _; split; done).
  rewrite (line_mode _ x (w' ++ 32 :: k ++ 32 :: data_header n ++ 0 :: c)) by (by rewrite ?Ew). unfold handle_line. sv_run (split_two ms fd le ix nx h e key net inp w k (data_header n) c Hwo Hk Hc).
  sv_run (lower_word ms fd le ix nx h e k net inp w (k ++ 32 :: data_header n ++ 0 :: c) Hwo).
  sv_run (text_app ms fd 0 le ix nx h e k net inp 0 w (w ++ 0 :: k ++ 32 :: data_header n ++ 0 :: c) [] _ eq_refl eq_refl ltac:(apply Hwo)).
  assert (handle_store (sdb_hash w) (Some (slen w + 1)) (Some (slen w + 1 + slen k + 1)) (stk k (w ++ 0 :: k ++ 32 :: data_header n ++ 0 :: c)) =
    SOk 1 (mkSrv ms (mkClient fd 1 (n + 1) nx nx (sdb_hash w) (w ++ 0 :: k ++ 32 :: data_header n ++ 0 :: c) 0 k) net inp)) as E; [|destruct Hw as [-> | ->]; dispatch; exact E].
  unfold handle_store. sv_run (text_app ms fd 0 le ix nx h e k net inp (slen w + 1 + slen k + 1) (data_header n) (w ++ 0 :: k ++ 32 :: data_header n ++ 0 :: c) (w ++ 0 :: k ++ [32]) c
    ltac:(rewrite <- app_assoc; cbn [app]; by rewrite <- app_assoc) ltac:(len_tac) Hc).
  rewrite client_bind. cbn [v_c c_exptime]. rewrite Hs. rewrite upd_bind. change (negb (3 =? 3)) with false. cbv iota.
  rewrite (proj2 (Z.ltb_ge n 1)) by lia. cbv iota. rewrite (proj2 (Z.ltb_ge (MCSDB_MAX_BUFFER - 2) n)) by (unfold MCSDB_MAX_BUFFER; lia). cbv iota. rewrite upd_bind. done.
Qed.

(** What is answered to a [get]. *)
Definition value_text (k : bytes) (v : option bytes) (x : Z) : bytes :=
  match v with Some v => line (str "VALUE " ++ k ++ [32] ++ llu x ++ [32] ++ dec_text (slen v)) ++ line v | None => [] end ++ line (str "END").

Context (Hup : up net = true).

Lemma get_key_ok k v x ca c a ms' : is_cstr k → 32 ∉ k → mcsdb_get (e_now env) k ms = Some ((v, x, ca), ms') → ∃ net',
  handle_get env (Some (slen a)) false (st (a ++ k ++ 0 :: c)) = SOk tt (mkSrv ms' (mkClient fd 0 le ix nx h (a ++ k ++ 0 :: c) e key) net' inp) ∧
  up net' = true ∧ net_text net' = net_text net ++ value_text k v x.
Proof.
  intros Hk Hs Hg. unfold handle_get. cbn [get_loop]. sv_run (text_app ms fd 0 le ix nx h e key net inp (slen a) k _ a c eq_refl eq_refl Hk).
  sv_run (find_chr_absent ms fd 0 le ix nx h e key net inp (slen a) 32 k _ a c eq_refl eq_refl Hk Hs). rewrite ret_bind.
  sv_run (text_app ms fd 0 le ix nx h e key net inp (slen a) k _ a c eq_refl eq_refl Hk).
  sv_run (on_ms_ok _ _ (mkClient fd 0 le ix nx h (a ++ k ++ 0 :: c) e key) net inp _ _ Hg). unfold value_text. destruct v as [v|].
  - rewrite bind_bind. destruct (say_ok (line (str "VALUE " ++ k ++ [32] ++ llu x ++ [32] ++ dec_text (slen v))) ms' (mkClient fd 0 le ix nx h (a ++ k ++ 0 :: c) e key) net inp Hup) as (n1 & E1 & U1 & T1).
    sv_run E1. destruct (say_ok (line v) ms' (mkClient fd 0 le ix nx h (a ++ k ++ 0 :: c) e key) n1 inp U1) as (n2 & E2 & U2 & T2). sv_run E2.
    destruct (say_ok (line (str "END")) ms' (mkClient fd 0 le ix nx h (a ++ k ++ 0 :: c) e key) n2 inp U2) as (n3 & E3 & U3 & T3). rewrite E3. exists n3. split; [done|]. split; [done|].
    by rewrite T3, T2, T1, <- !app_assoc.
  - rewrite ret_bind. destruct (say_ok (line (str "END")) ms' (mkClient fd 0 le ix nx h (a ++ k ++ 0 :: c) e key) net inp Hup) as (n3 & E3 & U3 & T3). rewrite E3. exists n3. by split.
Qed.

End dispatch.

(** A whole line: [get], and [delete] of a key that does not begin like a number. *)
Section lines.
Context (env : McEnv) (ms : McSdb) (fd le ix nx h e : Z) (key : bytes) (net : NetOut) (inp : list (option bytes)) (Hup : up net = true).
Local Abbreviation st buf := (mkSrv ms (mkClient fd 0 le ix nx h buf e key) net inp).

Lemma get_line k v x ca c ms' : wire_key k → mcsdb_get (e_now env) k ms = Some ((v, x, ca), ms') → ∃ net',
  protocol_handle env (st (str "get" ++ 32 :: k ++ 0 :: c)) = SOk 0 (mkSrv ms' (mkClient fd 0 le ix nx h (str "get" ++ 0 :: k ++ 0 :: c) e k) net' inp) ∧
  up net' = true ∧ net_text net' = net_text net ++ value_text k v x.
Proof.
  intros Hk Hg. assert (word_ok (str "get")) as Hwo by word_tac.
  destruct (get_key_ok env ms fd le ix nx h e k net inp Hup k v x ca c (str "get" ++ [0]) ms' ltac:(apply Hk) ltac:(apply Hk) Hg) as (net' & E & Hu & Ht). exists net'. split; [|done].
  rewrite (line_mode _ _ _ _ _ _ _ _ _ _ _ _ (chr "g") (str "et" ++ 32 :: k ++ 0 :: c)) by done. unfold handle_line. sv_run (split_one ms fd le ix nx h e key net inp (str "get") k c Hwo Hk).
  sv_run (lower_word ms fd le ix nx h e k net inp (str "get") (k ++ 0 :: c) Hwo).
  sv_run (text_app ms fd 0 le ix nx h e k net inp 0 (str "get") (str "get" ++ 0 :: k ++ 0 :: c) [] _ eq_refl eq_refl ltac:(apply Hwo)). dispatch.
  rewrite <- app_assoc in E. cbn [app] in E. change (slen (str "get" ++ [0])) with (slen (str "get") + 1) in E. sv_run E. done.
Qed.

Lemma delete_line k r b c ms' : wire_key k → scan_num k = None → is_cstr r → take 7 (r ++ 0 :: c) ≠ str "noreply" → 7 <= slen (r ++ 0 :: c) → mcsdb_remove (e_now env) k 0 ms = Some (b, ms') → ∃ net',
  protocol_handle env (st (str "delete" ++ 32 :: k ++ 32 :: r ++ 0 :: c)) = SOk 0 (mkSrv ms' (mkClient fd 0 le ix nx h (str "delete" ++ 0 :: k ++ 0 :: r ++ 0 :: c) 0 k) net' inp) ∧
  up net' = true ∧ net_text net' = net_text net ++ line (if b then str "DELETED" else str "NOT_FOUND").
Proof.
  intros Hk Hnum Hr Hno Hlen Hrm. assert (word_ok (str "delete")) as Hwo by word_tac.
  rewrite (line_mode _ _ _ _ _ _ _ _ _ _ _ _ (chr "d") (str "elete" ++ 32 :: k ++ 32 :: r ++ 0 :: c)) by done. unfold handle_line. sv_run (split_two ms fd le ix nx h e key net inp (str "delete") k r c Hwo Hk Hr).
  sv_run (lower_word ms fd le ix nx h e k net inp (str "delete") (k ++ 32 :: r ++ 0 :: c) Hwo).
  sv_run (text_app ms fd 0 le ix nx h e k net inp 0 (str "delete") (str "delete" ++ 0 :: k ++ 32 :: r ++ 0 :: c) [] _ eq_refl eq_refl ltac:(apply Hwo)). dispatch.
  unfold handle_delete. rewrite bind_bind. assert (∀ l, str "delete" ++ 0 :: l = (str "delete" ++ [0]) ++ l) as Ea by done. assert (∀ l, str "delete" ++ 0 :: k ++ l = (str "delete" ++ 0 :: k) ++ l) as Eb by done.
  assert (slen (str "delete" ++ 0 :: k) = slen (str "delete") + 1 + slen k) as Hla by (change (str "delete") with [100;101;108;101;116;101]; len_tac). set (P := slen (str "delete")) in *.
  sv_run (find_chr_app ms fd 0 le ix nx h e k net inp (P + 1) 32 k r (str "delete" ++ 0 :: k ++ 32 :: r ++ 0 :: c) (str "delete" ++ [0]) c ltac:(rewrite Ea; by rewrite <- (app_assoc k)) eq_refl ltac:(destruct Hk; cstr_tac) ltac:(apply Hk)).
  rewrite bind_bind. rewrite bind_bind. sv_run (poke_app ms fd 0 le ix nx h e k net inp (P + 1 + slen k) 0 32 (str "delete" ++ 0 :: k ++ 32 :: r ++ 0 :: c) (str "delete" ++ 0 :: k) (r ++ 0 :: c) (Eb _) Hla). rewrite <- Eb.
  assert (is_noreply (P + 1 + slen k) (mkSrv ms (mkClient fd 0 le ix nx h (str "delete" ++ 0 :: k ++ 0 :: r ++ 0 :: c) e k) net inp) = SOk false (mkSrv ms (mkClient fd 0 le ix nx h (str "delete" ++ 0 :: k ++ 0 :: r ++ 0 :: c) e k) net inp)) as En.
  { unfold is_noreply. rewrite client_bind. cbn [v_c c_buf]. rewrite (proj2 (Z.ltb_ge _ _)) by (rewrite Eb; unfold slen in *; rewrite (length_app (str _ ++ _)); cbn [length]; lia).
    rewrite Eb. change ((str "delete" ++ 0 :: k) ++ 0 :: r ++ 0 :: c) with ((str "delete" ++ 0 :: k) ++ [0] ++ r ++ 0 :: c). rewrite app_assoc, drop_app_length' by (unfold slen in *; rewrite (length_app (str _ ++ _)); cbn [length]; lia). by rewrite bool_decide_false. }
  rewrite bind_bind. sv_run En. rewrite ret_bind. rewrite bind_bind.
  sv_run (text_app ms fd 0 le ix nx h e k net inp (P + 1) k (str "delete" ++ 0 :: k ++ 0 :: r ++ 0 :: c) (str "delete" ++ [0]) _ (Ea _) eq_refl ltac:(apply Hk)).
  unfold scan_llu. rewrite Hnum. rewrite bind_bind, upd_bind. rewrite bind_bind.
  unfold set_exptime. cbn [c_fd c_mode c_len c_idx c_next c_cmdhash c_buf c_exptime c_key].
  sv_run (on_ms_ok _ _ (mkClient fd 0 le ix nx h (str "delete" ++ 0 :: k ++ 0 :: r ++ 0 :: c) 0 k) net inp _ _ Hrm). cbn [negb]. cbv iota.
  destruct (say_ok (line (if b then str "DELETED" else str "NOT_FOUND")) ms' (mkClient fd 0 le ix nx h (str "delete" ++ 0 :: k ++ 0 :: r ++ 0 :: c) 0 k) net inp Hup) as (n1 & E1 & U1 & T1). exists n1. split; [|done]. sv_run E1. done.
Qed.

End lines.

(** ** The data of a command *)

Section data.
Context (env : McEnv) (ms : McSdb) (fd h e : Z) (key : bytes) (net : NetOut).

(** After the command line: the data is read from its packet, but for the last byte. *)
Lemma read_body nx a d body rest : 0 < nx → slen a = nx → length (a ++ 0 :: d) = 4096%nat → is_cstr body → 1 <= slen body <= MCSDB_MAX_BUFFER - 2 → ∃ d',
  length (body ++ 13 :: 0 :: d') = 4096%nat ∧
  mcsdb_client_state (mkSrv ms (mkClient fd 1 (slen body + 1) nx nx h (a ++ 0 :: d) e key) net (Some (line body) :: rest)) =
  SOk 1 (mkSrv ms (mkClient fd 1 (slen body + 1) (slen body + 1) 0 h (body ++ 13 :: 0 :: d') e key) net (Some [10] :: rest)).
Proof.
  intros Hnx Ha Hb Hc Hn. unfold MCSDB_MAX_BUFFER in Hn. set (n := slen body) in *. unfold mcsdb_client_state, shift_rest. rewrite bind_bind, client_bind. cbn [v_c c_next]. rewrite (proj2 (Z.ltb_lt 0 nx)) by done. rewrite bind_bind.
  sv_run (text_app ms fd 1 (n + 1) nx nx h e key net (Some (line body) :: rest) nx [] (a ++ 0 :: d) a d eq_refl Ha ltac:(constructor)).
  destruct a as [|a0 a]; [unfold slen in Ha; simpl in Ha; lia|]. rewrite bind_bind.
  sv_run (store_app ms fd 1 (n + 1) nx nx h e key net (Some (line body) :: rest) 0 ([] ++ [0]) ((a0 :: a) ++ 0 :: d) [] [a0] (a ++ 0 :: d) eq_refl eq_refl eq_refl).
  rewrite upd_bind. unfold set_pos. cbn [c_fd c_mode c_len c_idx c_next c_cmdhash c_buf c_exptime c_key]. change (slen []) with 0.
  set (buf := [] ++ ([] ++ [0]) ++ a ++ 0 :: d). assert (length buf = 4096%nat) as Hbuf by exact Hb. clearbody buf.
  unfold chop. rewrite bind_bind, client_bind. cbn [v_c c_len c_idx]. rewrite (proj2 (Z.leb_gt MCSDB_MAX_BUFFER (n + 1 + 0))) by (unfold MCSDB_MAX_BUFFER; lia). rewrite ret_bind.
  rewrite client_bind. cbn [v_c c_mode]. change (1 =? 0) with false. change (1 =? 1) with true. cbv iota. unfold read_data. rewrite upd_bind. cbn [c_len c_idx].
  rewrite (proj2 (Z.ltb_ge (n + 1) 0)) by lia. rewrite client_bind. cbn [v_c c_len c_idx]. cbv zeta. rewrite (proj2 (Z.ltb_ge (MCSDB_MAX_BUFFER - 1 - 0) _)) by (unfold MCSDB_MAX_BUFFER; lia).
  rewrite (proj2 (Z.ltb_lt 0 (n + 1 - 0))), (proj2 (Z.ltb_lt 0 (n + 1))) by lia. cbn [andb]. cbv iota.
  assert (sock_read (n + 1 - 0) (mkSrv ms (mkClient fd 1 (n + 1) 0 0 h buf e key) net (Some (line body) :: rest)) =
    SOk (Some (body ++ [13])) (mkSrv ms (mkClient fd 1 (n + 1) 0 0 h buf e key) net (Some [10] :: rest))) as E.
  { unfold sock_read. cbn [v_in v_ms v_c v_net]. assert (line body = (body ++ [13]) ++ [10]) as El by (unfold line, CRLF; by rewrite <- app_assoc). destruct (line body) as [|c0 l0]; [by destruct body|].
    rewrite El, take_app_length', drop_app_length' by (subst n; len_tac). done. }
  sv_run E. destruct (lookup_lt_is_Some_2 buf (length body + 1)) as [y Hy]; [unfold n, slen in *; lia|]. pose proof (take_drop_middle _ _ _ Hy) as Eb. symmetry in Eb. set (d' := drop (S (length body + 1)) buf) in *.
  sv_run (store_app ms fd 1 (n + 1) 0 0 h e key net (Some [10] :: rest) 0 (body ++ [13]) buf [] (take (length body + 1) buf) (y :: d') Eb eq_refl ltac:(rewrite length_take, length_app; cbn [length]; unfold n, slen in *; lia)).
  replace (slen (body ++ [13]) =? n + 1 - 0) with true by (symmetry; apply Z.eqb_eq; subst n; len_tac). unfold end_data. rewrite upd_bind. unfold set_idx, set_pos. cbn [c_fd c_mode c_len c_idx c_next c_cmdhash c_buf c_exptime c_key].
  rewrite client_bind. cbn [v_c c_idx]. exists d'. assert (length (body ++ 13 :: 0 :: d') = 4096%nat) as Hld.
  { subst d'. rewrite length_app. cbn [length]. rewrite length_drop. unfold n, slen in *. lia. } split; [done|].
  rewrite (sv_bind_ok _ _ _ _ _ (poke_app ms fd 1 (n + 1) (0 + (n + 1 - 0)) 0 h e key net (Some [10] :: rest) (0 + (n + 1 - 0)) 0 y ([] ++ (body ++ [13]) ++ y :: d') (body ++ [13]) d' eq_refl ltac:(subst n; len_tac))).
  cbn [c_len]. replace (0 + (n + 1 - 0)) with (n + 1) by lia. rewrite Z.eqb_refl. unfold mret, SV_ret. by rewrite <- app_assoc.
Qed.

Context (Hup : up net = true).

Definition stored_text (b : bool) : bytes := line (if b then str "STORED" else str "NOT_STORED").

(** What a command with data does with it. *)
Definition data_call (w key body : bytes) : MC bool :=
  if decide (w = str "set") then _ ← mcsdb_set (e_now env) key body 0 0; mret true else mcsdb_add (e_now env) key 0 body.

Lemma data_line w ix body d inp b ms' : w = str "set" ∨ w = str "add" → is_cstr body → body ≠ [] → data_call w key body ms = Some (b, ms') → ∃ net',
  protocol_handle env (mkSrv ms (mkClient fd 1 (slen body + 1) ix 0 (sdb_hash w) (body ++ 13 :: d) 0 key) net inp) =
  SOk 1 (mkSrv ms' (mkClient fd 0 (slen body + 1) 0 0 0 (body ++ 0 :: d) 0 key) net' inp) ∧ up net' = true ∧ net_text net' = net_text net ++ stored_text b.
Proof.
  intros Hw Hc Hne Hd. destruct body as [|x body]; [done|]. pose proof Hc as [Hx _]%Forall_cons. unfold protocol_handle. set (bd := x :: body) in *.
  sv_run (peek_app ms fd 1 (slen bd + 1) ix 0 (sdb_hash w) 0 key net inp 0 x (bd ++ 13 :: d) [] (body ++ 13 :: d) eq_refl eq_refl). unfold is_char in Hx. rewrite (proj2 (Z.eqb_neq x 0)) by lia.
  rewrite client_bind. cbn [v_c c_mode]. change (1 =? 1) with true. cbv iota. unfold handle_data. rewrite client_bind. cbn [v_c c_len c_cmdhash c_key c_exptime].
  sv_run (poke_app ms fd 1 (slen bd + 1) ix 0 (sdb_hash w) 0 key net inp (slen bd + 1 - 1) 0 13 (bd ++ 13 :: d) bd d eq_refl ltac:(lia)).
  sv_run (text_app ms fd 1 (slen bd + 1) ix 0 (sdb_hash w) 0 key net inp 0 bd (bd ++ 0 :: d) [] d eq_refl eq_refl Hc).
  destruct (say_ok (stored_text b) ms' (mkClient fd 1 (slen bd + 1) ix 0 (sdb_hash w) (bd ++ 0 :: d) 0 key) net inp Hup) as (n1 & E1 & U1 & T1). exists n1. split; [|done].
  assert (∀ K, ((_ ← say (stored_text b); _ ← upd_client (λ c, set_cmd 0 (set_pos 0 (c_len c) (c_next c) (c_next c) c)); mret 1) : SV Z)
    (mkSrv ms' (mkClient fd 1 (slen bd + 1) ix 0 K (bd ++ 0 :: d) 0 key) net inp) = SOk 1 (mkSrv ms' (mkClient fd 0 (slen bd + 1) 0 0 0 (bd ++ 0 :: d) 0 key) n1 inp)) as Hfin.
  { intros K. assert (say (stored_text b) (mkSrv ms' (mkClient fd 1 (slen bd + 1) ix 0 K (bd ++ 0 :: d) 0 key) net inp) = SOk tt (mkSrv ms' (mkClient fd 1 (slen bd + 1) ix 0 K (bd ++ 0 :: d) 0 key) n1 inp)) as E.
    { unfold say in *. cbn [v_ms v_c v_net v_in] in *. by injection E1 as ->. } sv_run E. done. }
  unfold data_call in Hd. destruct Hw as [-> | ->]; dispatch.
  - rewrite decide_True in Hd by done. unfold mbind, MC_bind in Hd. destruct (mcsdb_set (e_now env) key bd 0 0 ms) as [[r m1]|] eqn:Es; [|done]. injection Hd as <- <-. rewrite bind_bind.
    sv_run (on_ms_ok _ _ (mkClient fd 1 (slen bd + 1) ix 0 (sdb_hash (str "set")) (bd ++ 0 :: d) 0 key) net inp _ _ Es). rewrite ret_bind. apply Hfin.
  - rewrite decide_False in Hd by done.
    sv_run (on_ms_ok _ _ (mkClient fd 1 (slen bd + 1) ix 0 (sdb_hash (str "add")) (bd ++ 0 :: d) 0 key) net inp _ _ Hd). apply Hfin.
Qed.

End data.

(** ** Events *)

(** A client between two commands. *)
Record idle (c : McSdbClient) : Prop := {
  idle_mode : c_mode c = 0; idle_idx : c_idx c = 0; idle_next : c_next c = 0;
  idle_len : 0 <= c_len c < MCSDB_MAX_BUFFER; idle_buf : length (c_buf c) = 4096%nat
}.

Lemma idle_eq c : idle c → mkClient (c_fd c) 0 (c_len c) 0 0 (c_cmdhash c) (c_buf c) (c_exptime c) (c_key c) = c.
Proof. intros [Hm Hi Hn _ _]. destruct c. cbn in *. by subst. Qed.

Lemma new_idle fd : idle (mcsdb_client_new_fd fd).
Proof. split; [done..|]. cbn [c_buf mcsdb_client_new_fd]. by rewrite length_replicate. Qed.

(** The event ends: the answer is sent. *)
Lemma event_end fuel env s ms c net inp : client_loop fuel env s = SOk 0 (mkSrv ms c net inp) → up net = true → ∃ ms',
  client_event fuel env s = SOk 0 (mkSrv ms' c (mkNet [] (net_text net) true) inp) ∧ ms_sdb ms' = ms_sdb ms.
Proof.
  intros E Hu. unfold client_event. sv_run E. change (0 =? 0) with true. cbv iota. destruct (flush_up net Hu) as (r & Ef & _).
  assert (flush_net (mkSrv ms c net inp) = SOk r (mkSrv ms c (mkNet [] (net_text net) true) inp)) as En by (unfold flush_net; cbn [v_net v_ms v_c v_in]; by rewrite Ef).
  sv_run En. destruct (0 <? r).
  - sv_run (on_ms_ok (count (add_counts 0 0 0 0 0 0 r)) ms c (mkNet [] (net_text net) true) inp tt (add_counts 0 0 0 0 0 0 r ms) eq_refl). by eexists.
  - rewrite ret_bind. by eexists.
Qed.

(** The line feed that is left after the data, an empty line. *)
Lemma read_lf env ms fd le h buf e key net rest : 0 <= le < MCSDB_MAX_BUFFER → length buf = 4096%nat → ∃ buf', length buf' = 4096%nat ∧ hd 0 buf' = 0 ∧
  mcsdb_client_state (mkSrv ms (mkClient fd 0 le 0 0 h buf e key) net (Some [10] :: rest)) = SOk 1 (mkSrv ms (mkClient fd 0 le 1 1 h buf' e key) net rest) ∧
  protocol_handle env (mkSrv ms (mkClient fd 0 le 1 1 h buf' e key) net rest) = SOk 0 (mkSrv ms (mkClient fd 0 le 1 1 h buf' e key) net rest).
Proof.
  intros Hle Hb. destruct buf as [|x [|y d]]; [done|done|]. exists (0 :: 0 :: d). split_and!; [done|done| |].
  - rewrite <- idle_state by done. change (0 =? 0) with true. cbv iota. unfold read_line. rewrite client_bind. cbn [v_c c_idx c_next]. change (negb (0 =? 0)) with false. cbv iota zeta.
    assert (∀ c, sock_read (MCSDB_MAX_BUFFER - 1 - 0) (mkSrv ms c net (Some [10] :: rest)) = SOk (Some [10]) (mkSrv ms c net rest)) as E by done. sv_run (E (mkClient fd 0 le 0 0 h (x :: y :: d) e key)).
    sv_run (store_app ms fd 0 le 0 0 h e key net rest 0 [10] (x :: y :: d) [] [x] (y :: d) eq_refl eq_refl eq_refl). change (0 + slen [10]) with 1.
    sv_run (poke_app ms fd 0 le 0 0 h e key net rest 1 0 y ([] ++ [10] ++ y :: d) [10] d eq_refl eq_refl).
    sv_run (find_chr_app ms fd 0 le 0 0 h e key net rest 0 10 [] [] ([10] ++ 0 :: d) [] d eq_refl eq_refl ltac:(cstr_tac) ltac:(set_solver)).
    sv_run (poke_app ms fd 0 le 0 0 h e key net rest (0 + slen []) 0 10 ([10] ++ 0 :: d) [] (0 :: d) eq_refl eq_refl). change (0 <? 0 + slen [] - 1) with false. cbv iota. rewrite ret_bind. rewrite upd_bind. done.
  - unfold protocol_handle. sv_run (peek_app ms fd 0 le 1 1 h e key net rest 0 0 (0 :: 0 :: d) [] (0 :: d) eq_refl eq_refl). done.
Qed.

Lemma loop_more f env s s1 s2 : mcsdb_client_state s = SOk 1 s1 → protocol_handle env s1 = SOk 1 s2 → client_loop (S f) env s = client_loop f env s2.
Proof. intros E1 E2. cbn [client_loop]. sv_run E1. sv_run E2. done. Qed.

Lemma loop_end f env s s1 ms c net inp : mcsdb_client_state s = SOk 1 s1 → protocol_handle env s1 = SOk 0 (mkSrv ms c net inp) →
  client_loop (S f) env s = SOk 0 (mkSrv ms (set_pos (c_mode c) (c_len c) 0 0 c) net inp).
Proof. intros E1 E2. cbn [client_loop]. sv_run E1. sv_run E2. done. Qed.

Section events.
Context (env : McEnv) (ms : McSdb) (c : McSdbClient) (net : NetOut) (Hc : idle c) (Hup : up net = true).

(** What an event leaves: the answer is sent and the client waits again. *)
Definition answered (f : nat) (packets : list bytes) (t : bytes) (s' : Sdb) : Prop := ∃ ms' c',
  client_event f env (mkSrv ms c net (Some <$> packets)) = SOk 0 (mkSrv ms' c' (mkNet [] (net_text net ++ t) true) []) ∧ idle c' ∧ ms_sdb ms' = s'.

Lemma one_line f x t ms1 (le1 h1 : Z) buf1 e1 key1 net1 : is_cstr x → x ≠ [] → 10 ∉ x → slen x + 2 < MCSDB_MAX_BUFFER → 0 <= le1 < MCSDB_MAX_BUFFER → length buf1 = 4096%nat →
  protocol_handle env (mkSrv ms (mkClient (c_fd c) 0 (c_len c) (slen x + 2) (slen x + 2) (c_cmdhash c) (x ++ 0 :: 0 :: 0 :: drop (length x + 3) (c_buf c)) (c_exptime c) (c_key c)) net []) =
    SOk 0 (mkSrv ms1 (mkClient (c_fd c) 0 le1 (slen x + 2) (slen x + 2) h1 buf1 e1 key1) net1 []) →
  up net1 = true → net_text net1 = net_text net ++ t → answered (S f) [line x] t (ms_sdb ms1).
Proof.
  intros Hx Hne Hnl Hl Hle1 Hb1 Hp Hu1 Ht. pose proof (read_command ms (c_fd c) (c_len c) (c_cmdhash c) (c_exptime c) (c_key c) net [] (idle_len _ Hc) (c_buf c) x (idle_buf _ Hc) Hx Hne Hnl Hl) as E1.
  rewrite (idle_eq c Hc) in E1.
  pose proof (loop_end f env _ _ _ _ _ _ E1 Hp) as El. destruct (event_end (S f) env _ _ _ _ _ El Hu1) as (ms' & E & Es). rewrite Ht in E. eexists ms', _. split; [exact E|]. split; [|done]. by split.
Qed.

Lemma line_length x : length (c_buf c) = 4096%nat → slen x + 2 < MCSDB_MAX_BUFFER → length (x ++ 0 :: 0 :: 0 :: drop (length x + 3) (c_buf c)) = 4096%nat.
Proof. intros Hb Hl. unfold MCSDB_MAX_BUFFER in Hl. rewrite length_app. cbn [length]. rewrite length_drop. unfold slen in Hl. lia. Qed.

Lemma get_event k v x ca ms' : wire_key k → mcsdb_get (e_now env) k ms = Some ((v, x, ca), ms') → answered 3 (client_get_packets k) (value_text k v x) (ms_sdb ms').
Proof.
  intros Hk Hg. pose proof Hk as (Hkc & _ & Hk10 & Hkl). unfold SDB_KSZ in Hkl. assert (str "get " ++ k = str "get" ++ 32 :: k) as Ex by done.
  assert (slen (str "get " ++ k) + 2 < MCSDB_MAX_BUFFER) as Hl by (unfold MCSDB_MAX_BUFFER; change (str "get ") with [103; 101; 116; 32]; len_tac). pose proof (line_length _ (idle_buf _ Hc) Hl) as Hlen.
  set (d := drop (length (str "get " ++ k) + 3) (c_buf c)) in *. set (p := slen (str "get " ++ k) + 2).
  destruct (get_line env ms (c_fd c) (c_len c) p p (c_cmdhash c) (c_exptime c) (c_key c) net [] Hup k v x ca (0 :: 0 :: d) ms' Hk Hg) as (net1 & E & Hu & Ht).
  eapply one_line; [| | | |apply (idle_len _ Hc)| |fold d; fold p; rewrite Ex, <- app_assoc; exact E|done|done].
  - apply Forall_app. split; [repeat constructor|done].
  - done.
  - rewrite elem_of_app. intros [Hx|Hx]; [|done]. revert Hx. by apply (bool_decide_unpack _); vm_compute.
  - done.
  - rewrite Ex in Hlen. rewrite <- app_assoc in Hlen. exact Hlen.
Qed.

Definition store_packets (w k body : bytes) : list bytes := [line (w ++ 32 :: k ++ 32 :: data_header (slen body)); line body].

Lemma store_event w k body b ms' : w = str "set" ∨ w = str "add" → wire_key k → is_cstr body → 1 <= slen body <= MCSDB_MAX_BUFFER - 2 → data_call env w k body ms = Some (b, ms') →
  answered 3 (store_packets w k body) (stored_text b) (ms_sdb ms').
Proof.
  intros Hw Hk Hb Hn Hd. pose proof Hk as (Hkc & _ & Hk10 & Hkl). unfold SDB_KSZ in Hkl. unfold MCSDB_MAX_BUFFER in Hn. set (n := slen body) in *. destruct (data_header_ok n) as (Hhc & Hh10 & Hhl & _); [lia|].
  set (x := w ++ 32 :: k ++ 32 :: data_header n). assert (is_cstr w ∧ 10 ∉ w ∧ slen w = 3) as (Hwc & Hw10 & Hwl) by (destruct Hw as [-> | ->]; (split_and!; [repeat constructor|by apply (bool_decide_unpack _); vm_compute|done])).
  assert (slen x + 2 < MCSDB_MAX_BUFFER) as Hl by (unfold MCSDB_MAX_BUFFER; subst x; len_tac). pose proof (line_length x (idle_buf _ Hc) Hl) as Hlen. set (d := drop (length x + 3) (c_buf c)) in *.
  assert (is_cstr x) as Hxc by (subst x; cstr_tac). assert (10 ∉ x) as Hx10 by (subst x; set_solver). assert (x ≠ []) as Hxn by (subst x; by destruct w).
  pose proof (read_command ms (c_fd c) (c_len c) (c_cmdhash c) (c_exptime c) (c_key c) net [Some (line body)] (idle_len _ Hc) (c_buf c) x (idle_buf _ Hc) Hxc Hxn Hx10 Hl) as E1. rewrite (idle_eq c Hc) in E1. fold d in E1.
  set (p := slen x + 2) in *. pose proof (store_line env ms (c_fd c) (c_len c) p p (c_cmdhash c) (c_exptime c) (c_key c) net [Some (line body)] w k n (0 :: 0 :: d) Hw Hk Hn) as E2.
  assert (x ++ 0 :: 0 :: 0 :: d = w ++ 32 :: k ++ 32 :: data_header n ++ 0 :: 0 :: 0 :: d) as Ex by (subst x; by rewrite <- app_assoc; cbn [app]; rewrite <- app_assoc). rewrite Ex in E1, Hlen.
  pose proof (loop_more 2 env _ _ _ E1 E2) as L1. set (a := w ++ 0 :: k ++ 32 :: data_header n ++ [0; 0]). assert (slen a = p) as Ha by (subst a p x; len_tac).
  assert (w ++ 0 :: k ++ 32 :: data_header n ++ 0 :: 0 :: 0 :: d = a ++ 0 :: d) as Ea by (subst a; rewrite <- app_assoc; cbn [app]; rewrite <- app_assoc; cbn [app]; by rewrite <- app_assoc). rewrite Ea in L1.
  destruct (read_body ms (c_fd c) (sdb_hash w) 0 k net p a d body []) as (d' & Hd' & E3); [unfold p, slen; lia|done| |done|exact Hn|].
  { rewrite <- Ea, <- Hlen. rewrite !length_app. cbn [length]. by rewrite !length_app. }
  destruct (data_line env ms (c_fd c) k net Hup w (n + 1) body (0 :: d') [Some [10]] b ms' Hw Hb ltac:(intros ->; unfold n, slen in Hn; simpl in Hn; lia) Hd) as (net1 & E4 & U1 & T1).
  pose proof (loop_more 1 env _ _ _ E3 E4) as L2.
  destruct (read_lf env ms' (c_fd c) (n + 1) 0 (body ++ 0 :: 0 :: d') 0 k net1 []) as (buf' & Hb' & _ & E5 & E6); [unfold MCSDB_MAX_BUFFER; lia|rewrite <- Hd', !length_app; done|].
  pose proof (loop_end 0 env _ _ _ _ _ _ E5 E6) as L3. fold n in L2. assert (client_loop 3 env (mkSrv ms c net [Some (line x); Some (line body)]) = client_loop 1 env (mkSrv ms' (mkClient (c_fd c) 0 (n + 1) 0 0 0 (body ++ 0 :: 0 :: d') 0 k) net1 [Some [10]])) as L by congruence.
  rewrite L3 in L. destruct (event_end 3 env _ _ _ _ _ L U1) as (ms2 & E & Es). rewrite T1 in E. eexists ms2, _. split; [exact E|]. split; [|done]. split; [done..| |done]. cbn. unfold MCSDB_MAX_BUFFER. lia.
Qed.

(** What follows the key in a [delete] of the client library. *)
Definition delete_args (x : Z) : bytes := lld x ++ str " 0".

Lemma delete_args_ok x : is_cstr (delete_args x) ∧ 10 ∉ delete_args x ∧ slen (delete_args x) <= 23 ∧ ∀ l, take 7 (delete_args x ++ l) ≠ str "noreply".
Proof.
  unfold delete_args, lld. set (i := (x + 2 ^ 63) mod 2 ^ 64 - 2 ^ 63). assert (- 2 ^ 63 <= i < 2 ^ 63) as Hi by (subst i; pose proof (Z.mod_pos_bound (x + 2 ^ 63) (2 ^ 64)); lia). cbv zeta. clearbody i.
  destruct (digits_text 20 (Z.abs i)) as (Hne & Hd & Hl & _); [lia|lia|]. destruct (digits_cstr _ Hd) as (Hdc & _ & Hd10). set (ds := digits 10 20 (Z.abs i) []) in *. clearbody ds.
  assert (is_cstr (str " 0") ∧ 10 ∉ str " 0") as [Hc0 H10] by (split; [repeat constructor|by apply (bool_decide_unpack _); vm_compute]). split_and!.
  - destruct (i <? 0); cstr_tac.
  - destruct (i <? 0); set_solver.
  - change (str " 0") with [32; 48]. destruct (i <? 0); len_tac.
  - intros l. destruct ds as [|c0 ds]; [done|]. apply Forall_cons in Hd as [Hc1 _]. unfold is_digit in Hc1. destruct (i <? 0); intros E%(f_equal (hd 0)); cbn in E; lia.
Qed.

Lemma delete_event k x b ms' : wire_key k → scan_num k = None → mcsdb_remove (e_now env) k 0 ms = Some (b, ms') →
  answered 3 (client_remove_packets k x) (line (if b then str "DELETED" else str "NOT_FOUND")) (ms_sdb ms').
Proof.
  intros Hk Hnum Hrm. pose proof Hk as (Hkc & _ & Hk10 & Hkl). unfold SDB_KSZ in Hkl. destruct (delete_args_ok x) as (Hrc & Hr10 & Hrl & Hno). change (client_remove_packets k x) with [line (str "delete " ++ k ++ 32 :: delete_args x)].
  set (y := str "delete " ++ k ++ 32 :: delete_args x) in *. assert (slen y <= 300) as Hy by (subst y; change (str "delete ") with [100; 101; 108; 101; 116; 101; 32]; len_tac).
  assert (slen y + 2 < MCSDB_MAX_BUFFER) as Hl by (unfold MCSDB_MAX_BUFFER; lia).
  pose proof (line_length _ (idle_buf _ Hc) Hl) as Hlen. set (d := drop (length y + 3) (c_buf c)) in *. set (p := slen y + 2).
  assert (y ++ 0 :: 0 :: 0 :: d = str "delete" ++ 32 :: k ++ 32 :: delete_args x ++ 0 :: 0 :: 0 :: d) as Ey by (subst y; rewrite <- app_assoc; cbn [app]; rewrite <- app_assoc; done).
  assert (7 <= slen (delete_args x ++ 0 :: 0 :: 0 :: d)) as H7.
  { subst d. pose proof (idle_buf _ Hc). clear - Hy H. clearbody y. len_tac. }
  destruct (delete_line env ms (c_fd c) (c_len c) p p (c_cmdhash c) (c_exptime c) (c_key c) net [] Hup k (delete_args x) b (0 :: 0 :: d) ms' Hk Hnum Hrc (Hno _) H7 Hrm) as (net1 & E & Hu & Ht).
  eapply one_line; [| | |exact Hl|apply (idle_len _ Hc)| |fold d; fold p; rewrite Ey; exact E|done|done].
  - subst y. apply Forall_app. split; [repeat constructor|]. apply Forall_app. split; [exact Hkc|]. apply Forall_cons. split; [unfold is_char; lia|exact Hrc].
  - done.
  - subst y. rewrite elem_of_app. intros [Hx|Hx]; [|rewrite elem_of_app, elem_of_cons in Hx; destruct Hx as [Hx|[Hx|Hx]]; [exact (Hk10 Hx)|lia|exact (Hr10 Hx)]]. revert Hx. by apply (bool_decide_unpack _); vm_compute.
  - rewrite Ey in Hlen. rewrite <- Hlen. rewrite !length_app. cbn [length]. by rewrite !length_app.
Qed.

End events.
