(* ===== verification/McSession.v ===== *)
(** * Sessions of the memcache client library with the server

    The calls of a program that uses the client library: what it sends goes to the server,
    what the server answers is read by the library. *)

From S2P Require Import Prelude Util Ht HashTables Buffer CdbMake CdbTables Cdb SdbCore Num JsonIndent Match SdbIter Mc McServer McClient McFacts McWire.

(** ** Reading the answers *)

Lemma readnl_loop_line f buf l rest : 10 ∉ l → (length l < f)%nat → buf ++ l ≠ [] →
  readnl_loop f buf (l ++ 10 :: rest) = Some (Some (cstr (take (length (buf ++ l) - 1) (buf ++ l))), rest).
Proof.
  revert f buf. induction l as [|c l IH]; intros [|f] buf Hn Hf Hne; cbn [length] in Hf; try lia; cbn [app readnl_loop].
  - change (10 =? 10) with true. cbv iota. rewrite app_nil_r in *. by destruct buf.
  - rewrite (proj2 (Z.eqb_neq c 10)) by set_solver. rewrite IH; [by rewrite <- app_assoc|set_solver|lia|by destruct buf].
Qed.

Lemma readnl_line l rest : is_cstr l → 10 ∉ l → slen l + 2 <= MCSDB_MAX_BUFFER → net_readnl (line l ++ rest) = Some (Some l, rest).
Proof.
  intros Hc Hn Hl. unfold net_readnl, line, CRLF, MCSDB_MAX_BUFFER in *. replace ((l ++ [13; 10]) ++ rest) with ((l ++ [13]) ++ 10 :: rest) by (by rewrite <- !app_assoc).
  rewrite readnl_loop_line; [|set_solver|len_tac|by destruct l]. cbn [app]. rewrite length_app. cbn [length]. rewrite Nat.add_sub. rewrite take_app_length, cstr_id by done. done.
Qed.

Lemma scan_slen_text x n : 0 <= x < 10 ^ 20 → 0 <= n < 2 ^ 31 → scan_slen (llu x ++ 32 :: dec_text n) = n.
Proof.
  intros Hx Hn. unfold scan_slen, llu. rewrite dec_digits by lia. assert (scan_num (digits 10 20 x [] ++ 32 :: digits 10 10 n []) = Some (false, x, 32 :: digits 10 10 n [])) as ->
    by (by apply (scan_num_digits 20 x [] (32 :: digits 10 10 n [])); [|lia|auto|]).
  assert (scan_num (32 :: digits 10 10 n []) = Some (false, n, [])) as ->.
  { rewrite <- (app_nil_r (digits 10 10 n [])) at 1. apply (scan_num_digits 10 n [32] []); [lia|lia|auto|done]. }
  unfold as_int, s32. rewrite Z.min_l by lia. rewrite Z.mod_small by lia. lia.
Qed.

(** The library reads the value with the carriage return that follows it. *)
Lemma read_value_ok k v x : wire_key k → 0 <= x < 10 ^ 20 → (∀ w, v = Some w → is_cstr w ∧ 1 <= slen w < SDB_VSZ) →
  read_value (value_text k v x) = Some (AText ((λ w, w ++ [13]) <$> v), []).
Proof.
  intros (Hkc & Hk32 & Hk10 & Hkl) Hx Hv. destruct v as [v|]; [|by vm_compute]. destruct (Hv v eq_refl) as [Hvc Hvl]. unfold SDB_KSZ in Hkl. unfold SDB_VSZ in Hvl.
  unfold value_text. set (l := str "VALUE " ++ k ++ [32] ++ llu x ++ [32] ++ dec_text (slen v)). unfold read_value. rewrite <- app_assoc.
  destruct (digits_text 20 x) as (_ & Hd1 & Hl1 & _); [lia|lia|]. destruct (digits_cstr _ Hd1) as (Hc1 & _ & H1). destruct (digits_text 10 (slen v)) as (_ & Hd2 & Hl2 & _); [lia|lia|]. destruct (digits_cstr _ Hd2) as (Hc2 & _ & H2).
  fold (llu x) in Hc1, H1, Hl1. rewrite <- (dec_digits (slen v)) in Hc2, H2, Hl2 by lia.
  assert (is_cstr l) as Hlc by (subst l; apply Forall_app; split; [repeat constructor|cstr_tac]).
  assert (10 ∉ l) as Hl10 by (subst l; rewrite !elem_of_app, !list_elem_of_singleton; intros [Hi|[?|[?|[?|[?|?]]]]]; [|done|lia|done|lia|done]; revert Hi; by apply (bool_decide_unpack _); vm_compute).
  assert (slen l + 2 <= MCSDB_MAX_BUFFER) as Hll by (subst l; unfold MCSDB_MAX_BUFFER; change (str "VALUE ") with [86; 65; 76; 85; 69; 32]; clear Hd1 Hd2 Hc1 Hc2; len_tac).
  rewrite (readnl_line l _ Hlc Hl10 Hll). cbn [mbind option_bind]. rewrite bool_decide_false by done.
  assert (strchr l 32 = Some (32 :: k ++ 32 :: llu x ++ 32 :: dec_text (slen v))) as -> by done. cbn [mbind option_bind tail]. rewrite strchr_app by done. cbn [tail].
  rewrite scan_slen_text by lia. cbv zeta. rewrite (proj2 (Z.ltb_ge (slen v) 1)) by lia. assert (s32 (slen v + 2) = slen v + 2) as -> by (unfold s32; rewrite Z.mod_small; lia).
  rewrite (proj2 (Z.ltb_ge (slen v + 2) 0)) by lia. assert (Z.to_nat (slen v + 2) = length (line v)) as -> by (unfold line, CRLF; len_tac).
  rewrite take_app_length, drop_app_length. change (net_readnl (line (str "END"))) with (Some (Some (str "END"), @nil Z)). cbn [mbind option_bind snd fmap option_fmap option_map]. do 4 f_equal.
  assert ((length (line v) - 1)%nat = length (v ++ [13])) as -> by (unfold line, CRLF; len_tac). assert (line v = (v ++ [13]) ++ [10]) as -> by (unfold line, CRLF; by rewrite <- app_assoc). rewrite take_app_length.
  apply cstr_id. cstr_tac.
Qed.

(** ** Sessions *)

(** A call: the server gets the packets, the library reads what was sent. *)
Definition wire_call (env : McEnv) (c : mc_call) (s : Srv) (unread : bytes) : option (mc_answer * Srv * bytes) :=
  match client_event 3 env (mkSrv (v_ms s) (v_c s) (v_net s) (v_in s ++ (Some <$> call_packets c))) with
  | SOk r s' =>
      if r =? 0 then
        x ← call_answer c (unread ++ drop (length (sent (v_net s))) (sent (v_net s')));
        Some (x.1, s', x.2)
      else None
  | _ => None
  end.

Fixpoint wire_session (calls : list (McEnv * mc_call)) (s : Srv) (unread : bytes) : option (list mc_answer) :=
  match calls with
  | [] => Some []
  | (env, c) :: calls => '(a, s, unread) ← wire_call env c s unread; l ← wire_session calls s unread; Some (a :: l)
  end.

(** What the calls do to a map.  [sendcmd] adds, whatever the call is for, and [delete]
    has no use for its time. *)
Definition wire_spec (c : mc_call) (m : gmap bytes bytes) : mc_answer * gmap bytes bytes :=
  match c with
  | CSet k b => (AVoid, <[k := b]> m)
  | CSend _ k b => match m !! k with None => (ABool true, <[k := b]> m) | Some _ => (ABool false, m) end
  | CGet k => (AText ((λ w, w ++ [13]) <$> m !! k), m)
  | CRemove k _ => match m !! k with None => (ABool false, m) | Some _ => (ABool true, delete k m) end
  | CIncr _ _ | CDecr _ _ => (AVoid, m)
  end.

Fixpoint wire_spec_session (calls : list mc_call) (m : gmap bytes bytes) : list mc_answer :=
  match calls with [] => [] | c :: calls => let '(a, m) := wire_spec c m in a :: wire_spec_session calls m end.

Definition body_ok (b : bytes) : Prop := is_cstr b ∧ 1 <= slen b <= MCSDB_MAX_BUFFER - 2.

Definition wire_ok (c : mc_call) : Prop :=
  match c with
  | CSet k b | CSend _ k b => wire_key k ∧ body_ok b
  | CGet k => wire_key k
  | CRemove k _ => wire_key k ∧ scan_num k = None
  | CIncr _ _ | CDecr _ _ => False
  end.

Record wire_inv (n : nat) (m : gmap bytes bytes) (s : Srv) : Prop := {
  wi_idle : idle (v_c s);
  wi_up : up (v_net s) = true;
  wi_buf : netbuf (v_net s) = [];
  wi_in : v_in s = [];
  wi_store : mc_inv n (ms_sdb (v_ms s));
  wi_view : mc_view (ms_sdb (v_ms s)) = (λ v, (v, 0)) <$> m;
  wi_small : map_Forall (λ _ v, body_ok v) m
}.

(** An event that was answered, as a call. *)
Lemma wire_answered n m env c s t s' a : wire_inv (S n) m s → answered env (v_ms s) (v_c s) (v_net s) 3 (call_packets c) t s' → call_answer c t = Some (a, []) →
  mc_inv n s' → ∀ m', mc_view s' = (λ v, (v, 0)) <$> m' → map_Forall (λ _ v, body_ok v) m' → ∃ s2, wire_call env c s [] = Some (a, s2, []) ∧ wire_inv n m' s2.
Proof.
  intros [Hi Hu Hb Hin _ _ _] (ms' & c' & E & Hc' & Es) Ha HI m' Hm' Hs'. unfold wire_call. rewrite Hin, app_nil_l, E. change (0 =? 0) with true. cbv iota. cbn [v_net sent app]. unfold net_text. rewrite Hb, app_nil_r, drop_app_length, Ha.
  eexists. split; [done|]. split; cbn [v_c v_net v_in v_ms]; try done; by rewrite Es.
Qed.

Lemma wire_view_lookup m s k : mc_view s = (λ v : bytes, (v, 0)) <$> m → mc_view s !! k = (λ v, (v, 0)) <$> m !! k.
Proof. intros ->. apply lookup_fmap. Qed.

Lemma body_val b : body_ok b → val_ok b ∧ b ≠ [].
Proof. intros [Hc Hl]. unfold MCSDB_MAX_BUFFER in Hl. split; [split; [done|unfold SDB_VSZ; lia]|]. intros ->. unfold slen in Hl. simpl in Hl. lia. Qed.

Lemma parse_never now : parse_expire now 0 = 0.
Proof. done. Qed.

Lemma set_call n m env s k b : wire_inv (S n) m s → wire_key k → body_ok b → ∃ s2, wire_call env (CSet k b) s [] = Some (AVoid, s2, []) ∧ wire_inv n (<[k := b]> m) s2.
Proof.
  intros HI Hk Hb. destruct (body_val b Hb) as [Hv Hne]. destruct (mc_set_done (e_now env) n (v_ms s) k 0 b (wi_store _ _ _ HI) ltac:(apply Hk) Hv Hne) as (ms' & E & HI' & Hvw).
  apply (wire_answered n m env (CSet k b) s (stored_text true) (ms_sdb ms') AVoid HI).
  - cbn [call_packets]. destruct Hb as [Hbc Hbl].
    assert (client_set_packets k b = store_packets (str "set") k b) as -> by (unfold client_set_packets, store_packets, data_header; unfold MCSDB_MAX_BUFFER in Hbl; unfold s32; rewrite Z.mod_small by lia; by rewrite Z.add_simpl_r).
    apply (store_event env _ _ _ (wi_idle _ _ _ HI) (wi_up _ _ _ HI) (str "set") k b true ms'); [auto|done..|]. unfold data_call. rewrite decide_True by done. unfold mbind, MC_bind. by rewrite E.
  - by vm_compute.
  - done.
  - rewrite Hvw, (wi_view _ _ _ HI), fmap_insert, parse_never. done.
  - apply map_Forall_insert_2; [done|apply (wi_small _ _ _ HI)].
Qed.

Lemma send_call n m env s cmd k b : wire_inv (S n) m s → wire_key k → body_ok b → ∃ s2,
  wire_call env (CSend cmd k b) s [] = Some ((wire_spec (CSend cmd k b) m).1, s2, []) ∧ wire_inv n (wire_spec (CSend cmd k b) m).2 s2.
Proof.
  intros HI Hk Hb. destruct (body_val b Hb) as [Hv Hne]. destruct (mc_add_done (e_now env) n (v_ms s) k 0 b (wi_store _ _ _ HI) ltac:(apply Hk) Hv Hne) as (r & vw & Es & ms' & E & HI' & Hvw).
  apply (wire_answered n m env (CSend cmd k b) s (stored_text r) (ms_sdb ms') _ HI).
  - cbn [call_packets]. destruct Hb as [Hbc Hbl].
    assert (sendcmd_packets cmd k b = store_packets (str "add") k b) as -> by (unfold sendcmd_packets, store_packets, data_header; unfold MCSDB_MAX_BUFFER in Hbl; unfold s32; rewrite Z.mod_small by lia; by rewrite Z.add_simpl_r).
    apply (store_event env _ _ _ (wi_idle _ _ _ HI) (wi_up _ _ _ HI) (str "add") k b r ms'); [auto|done..|]. unfold data_call. by rewrite decide_False.
  - cbn [mc_spec wire_spec] in *. rewrite (wire_view_lookup m _ k (wi_view _ _ _ HI)) in Es. destruct (m !! k); injection Es as <- _; by vm_compute.
  - done.
  - cbn [mc_spec wire_spec] in *. rewrite (wire_view_lookup m _ k (wi_view _ _ _ HI)) in Es. rewrite Hvw. destruct (m !! k); injection Es as _ <-; cbn [snd]; rewrite (wi_view _ _ _ HI); [done|]. by rewrite fmap_insert, parse_never.
  - cbn [wire_spec]. pose proof (wi_small _ _ _ HI). destruct (m !! k); [done|]. by apply map_Forall_insert_2.
Qed.

Lemma get_call n m env s k : wire_inv (S n) m s → wire_key k → ∃ s2, wire_call env (CGet k) s [] = Some (AText ((λ w, w ++ [13]) <$> m !! k), s2, []) ∧ wire_inv n m s2.
Proof.
  intros HI Hk. destruct (mc_get_done (e_now env) n (v_ms s) k (wi_store _ _ _ HI) ltac:(apply Hk)) as (v & x & ca & vw & Es & ms' & E & HI' & Hvw).
  pose proof (wire_view_lookup m _ k (wi_view _ _ _ HI)) as Hlk. cbn [mc_spec] in Es. unfold get_spec in Es.
  assert (v = m !! k ∧ x = 0 ∧ vw = mc_view (ms_sdb (v_ms s))) as (-> & -> & ->).
  { rewrite Hlk in Es. destruct (m !! k) as [w|]; cbn in Es; rewrite Hlk in Es; injection Es as <- <- <-; done. }
  apply (wire_answered n m env (CGet k) s (value_text k (m !! k) 0) (ms_sdb ms') _ HI).
  - apply (get_event env _ _ _ (wi_idle _ _ _ HI) (wi_up _ _ _ HI) k _ 0 ca ms' Hk E).
  - cbn [call_answer]. apply read_value_ok; [done|lia|]. intros w Hw. destruct (wi_small _ _ _ HI _ _ Hw) as [? Hl]. unfold MCSDB_MAX_BUFFER in Hl. unfold SDB_VSZ. split; [done|lia].
  - done.
  - by rewrite Hvw, (wi_view _ _ _ HI).
  - apply (wi_small _ _ _ HI).
Qed.

Lemma remove_call n m env s k e : wire_inv (S n) m s → wire_key k → scan_num k = None → ∃ s2,
  wire_call env (CRemove k e) s [] = Some ((wire_spec (CRemove k e) m).1, s2, []) ∧ wire_inv n (wire_spec (CRemove k e) m).2 s2.
Proof.
  intros HI Hk Hnum. destruct (mc_remove_done (e_now env) n (v_ms s) k 0 (wi_store _ _ _ HI) ltac:(apply Hk)) as (r & vw & Es & ms' & E & HI' & Hvw).
  pose proof (wire_view_lookup m _ k (wi_view _ _ _ HI)) as Hlk. cbn [mc_spec] in Es. rewrite Hlk in Es.
  apply (wire_answered n m env (CRemove k e) s (line (if r then str "DELETED" else str "NOT_FOUND")) (ms_sdb ms') _ HI).
  - apply (delete_event env _ _ _ (wi_idle _ _ _ HI) (wi_up _ _ _ HI) k e r ms' Hk Hnum E).
  - cbn [wire_spec]. destruct (m !! k); injection Es as <- _; by vm_compute.
  - done.
  - rewrite Hvw. cbn [wire_spec]. destruct (m !! k); injection Es as _ <-; cbn [snd]; rewrite (wi_view _ _ _ HI); [|done]. by rewrite fmap_delete.
  - cbn [wire_spec]. pose proof (wi_small _ _ _ HI). destruct (m !! k); [|done]. by apply map_Forall_delete.
Qed.

Lemma session_ok calls n m s : wire_inv (length calls + n) m s → Forall (λ p, wire_ok p.2) calls → wire_session calls s [] = Some (wire_spec_session calls.*2 m).
Proof.
  revert m s. induction calls as [|[env c] calls IH]; intros m s HI Hok; [done|]. apply Forall_cons in Hok as [Hc Hok]. cbn [length Nat.add] in HI.
  assert (∃ s2, wire_call env c s [] = Some ((wire_spec c m).1, s2, []) ∧ wire_inv (length calls + n) (wire_spec c m).2 s2) as (s2 & E & HI2).
  { destruct c as [| |k b|cmd k b|k|k e]; cbn [snd wire_ok] in Hc; try done.
    - destruct Hc as [Hk Hb]. by apply set_call.
    - destruct Hc as [Hk Hb]. by apply send_call.
    - by apply get_call.
    - destruct Hc as [Hk Hnum]. by apply remove_call. }
  cbn [wire_session]. rewrite E. cbn [mbind option_bind]. rewrite (IH _ s2 HI2 Hok). cbn [fmap list_fmap snd wire_spec_session]. by destruct (wire_spec c m).
Qed.

(** A server and its first client. *)
Definition fresh_server (start fd : Z) (s : Sdb) : option Srv :=
  m ← mcsdb_new start (Some s) true; Some (mkSrv m (mcsdb_client_new_fd fd) (mkNet [] [] true) []).

(** C7: The memcache server and the client library together, from the packets on the socket to the
    answers and back, are a map for one client over a new server: whatever program of fewer than
    2^30 calls of set, sendcmd, get and remove, at whatever times, under [wire_ok] (keys of at most
    254 characters without space and line break, for remove not starting like a number; bodies of 1
    to 4094 characters; no incr and decr) and with each send of the library arriving as one packet:
    every call returns (three rounds of the server's loop are enough for its packets) with the
    answer that the map gives, except that [get] appends the carriage return of the protocol to the
    value and that every command sent by [sendcmd] adds. What happens otherwise is in [McCases]:
    [delete_numeric_key], [long_key_stored], [set_in_one_packet_waits]. *)
Theorem mc_session_correct start fd (calls : list (McEnv * mc_call)) : 2 * Z.of_nat (length calls) + 1 < 2 ^ 31 → Forall (λ p, wire_ok p.2) calls →
  ∃ s srv, sdb_new0 = Some s ∧ fresh_server start fd s = Some srv ∧ wire_session calls srv [] = Some (wire_spec_session calls.*2 ∅).
Proof.
  intros Hl Hok. destruct (mc_new_inv (length calls + 0)) as (s & Es & HI & Hv); [lia|]. exists s. eexists. split; [done|]. split; [done|].
  apply (session_ok calls 0); [|done]. split; [apply new_idle|done|done|done|exact HI|cbn [v_ms ms_sdb]; by rewrite Hv, fmap_empty|apply map_Forall_empty].
Qed.

Definition demo_env (now : Z) : McEnv := mkEnv now 1 (0, 0) (0, 0).
Definition demo_calls : list (McEnv * mc_call) :=
  [(demo_env 1, CGet (str "k")); (demo_env 2, CSet (str "k") (str "hello world")); (demo_env 3, CGet (str "k")); (demo_env 4, mcsdb_client_append (str "k") (str "!"));
   (demo_env 5, CRemove (str "k") 0); (demo_env 6, CRemove (str "k") 0); (demo_env 7, mcsdb_client_replace (str "k") (str "x")); (demo_env 8, CGet (str "k"))].

Lemma mc_session_correct_witness : ∃ s srv, sdb_new0 = Some s ∧ fresh_server 0 4 s = Some srv ∧ wire_session demo_calls srv [] =
  Some [AText None; AVoid; AText (Some (str "hello world" ++ [13])); ABool false; ABool true; ABool false; ABool true; AText (Some (str "x" ++ [13]))].
Proof.
  destruct (mc_session_correct 0 4 demo_calls) as (s & srv & Es & Ef & E); [done| |].
  - repeat (apply Forall_cons; split); [..|apply Forall_nil]; by apply (bool_decide_unpack _); vm_compute.
  - exists s, srv. split_and!; [done|done|]. rewrite E. by vm_compute.
Defined.
