(* ===== verification/McCases.v ===== *)
(** * What a client of the memcache server can run into

    Inputs on which the server or the client library does not do what the protocol asks
    for, each computed with the model. *)

From S2P Require Import Prelude Util Ht HashTables Buffer CdbMake CdbTables Cdb SdbCore Num JsonIndent Match SdbIter Mc McServer McClient McFacts McWire McSession.

(** What becomes of the packets that arrive in one event: what was sent and what is left in the
    output buffer; the server may wait for more, or crash. *)
Inductive wire_outcome := Served (r : Z) (sent buffered : bytes) | Waits (sent buffered : bytes) | Crashes.

Definition serve (s : Srv) (packets : list bytes) : wire_outcome * option Srv :=
  match client_event 20 (demo_env 1000) (mkSrv (v_ms s) (v_c s) (mkNet (netbuf (v_net s)) [] true) (Some <$> packets)) with
  | SOk r s => (Served r (sent (v_net s)) (netbuf (v_net s)), Some s)
  | SWait s => (Waits (sent (v_net s)) (netbuf (v_net s)), None)
  | SFault => (Crashes, None)
  end.

Fixpoint serve_all (s : Srv) (events : list (list bytes)) : list wire_outcome :=
  match events with
  | [] => []
  | e :: events => let '(o, s) := serve s e in o :: match s with Some s => serve_all s events | None => [] end
  end.

(** The wire_outcomes on a new server. *)
Definition wire_outcomes (events : list (list bytes)) : option (list wire_outcome) := s ← sdb_new0; srv ← fresh_server 0 4 s; Some (serve_all srv events).

Definition lf (t : bytes) : bytes := t ++ [10].

(** [touch] does not find a key that is there, since the text of the key still has the time behind it. *)
Theorem touch_never_touches : wire_outcomes [client_set_packets (str "k") (str "v"); [line (str "touch k 60")]] =
  Some [Served 0 (line (str "STORED")) []; Served 0 (line (str "NOT_TOUCHED")) []].
Proof. vm_compute. reflexivity. Qed.

(** [delete] takes a key of digits for a time: the key is not deleted but given an expiration. *)
Theorem delete_numeric_key : wire_outcomes [client_set_packets (str "12") (str "v"); client_remove_packets (str "12") 0; client_get_packets (str "12")] =
  Some [Served 0 (line (str "STORED")) []; Served 0 (line (str "NOT_FOUND")) []; Served 0 (line (str "VALUE 12 1012 1") ++ line (str "v") ++ line (str "END")) []].
Proof. vm_compute. reflexivity. Qed.

(** A command and its data in one packet: the data is lost and the server waits for it. *)
Theorem set_in_one_packet_waits : wire_outcomes [[line (str "set k 0 0 1") ++ line (str "v")]] = Some [Waits [] []].
Proof. vm_compute. reflexivity. Qed.

(** With line feeds only, the server waits for more before it sends its answer, and serves nobody else. *)
Theorem lf_answer_waits : wire_outcomes [[lf (str "set k 0 0 1"); lf (str "v")]] = Some [Waits [] (line (str "STORED"))].
Proof. vm_compute. reflexivity. Qed.

(** [quit] leaves the answer in the buffer that all clients share: the next one gets it. *)
Theorem quit_leaves_answer : wire_outcomes [[lf (str "set k 0 0 1"); lf (str "v"); lf (str "quit")]] = Some [Served (-1) [] (line (str "STORED"))].
Proof. vm_compute. reflexivity. Qed.

(** A line that arrives in two events is two commands. *)
Theorem split_line_two_commands : wire_outcomes [[str "ge"]; [line (str "t k")]] = Some [Served 0 (line (str "ERROR")) []; Served 0 (line (str "ERROR")) []].
Proof. vm_compute. reflexivity. Qed.

(** A key that the database refuses is answered with STORED. *)
Theorem long_key_stored : wire_outcomes [client_set_packets (replicate 255 97) (str "v"); client_get_packets (replicate 255 97)] =
  Some [Served 0 (line (str "STORED")) []; Served 0 (line (str "END")) []].
Proof. vm_compute. reflexivity. Qed.

(** A datagram that sets an empty value crashes the server. *)
Definition udp_outcome (d : bytes) : option (option Z) :=
  s ← sdb_new0; m ← mcsdb_new 0 (Some s) true; Some (fst <$> udp_parse 1000 (replicate 32768 0) (Some d) m).

Theorem udp_empty_value_crashes : udp_outcome (replicate 8 0 ++ line (str "set k 0 0 0") ++ line (str "")) = Some None.
Proof. vm_compute. reflexivity. Qed.

(** The length in a datagram is checked against the distance to the key and not to the begin of the
    array: the zero is written behind the array. *)
Theorem udp_length_writes_outside : udp_outcome (replicate 8 0 ++ str "set " ++ replicate 1000 97 ++ line (str " 0 0 32700") ++ line (str "v")) = Some None.
Proof. vm_compute. reflexivity. Qed.
